(* ===== verification/_CoqProject ===== *)
-Q . S2P
Prelude.v
Wire.v
Fixture.v
Digest.v
Names.v
Origin.v
Capability.v
Identity.v
Judgment.v
Family.v
Recomposition.v
Authority.v
Correspondence.v
Session.v
Protocol.v
Paths.v
Effect.v
Compile.v
Proposal.v
RpcAuth.v
Store.v
StoreLog.v
StoreSpec.v
StoreBackup.v
StoreCuts.v
StoreRetry.v
StoreBlob.v
StoreBundle.v
Docket.v
Derived.v
WorkerStore.v
WorkerSpec.v
Executor.v
HostFiles.v
ExecutorFiles.v
ExecutorAttempt.v
ExecutorSpec.v
Config.v
Pointer.v
PointerText.v
PointerGit.v
PointerRuntime.v
PointerSpec.v
PointerCommit.v
Activation.v
Api.v
Broker.v
BrokerOps.v
BrokerAdmin.v
BrokerRunner.v
BrokerSpec.v
BrokerRecovery.v
BrokerRequests.v
Provider.v
Logged.v
ProviderSpec.v
