(* ===== verification/Prelude.v ===== *)
(** * AG-ng (Constellation AG): a verification development

    ** The program

    AG-ng governs what software agents may do to a host.  Untrusted workers run
    in sessions and hand candidate artifacts into custody; a governor judges
    claims against four append-only family books; an effect broker compiles
    admitted intents into canonical proposals, accepts exactly one authorization
    for each, and executes it once.  Every record that crosses a boundary is
    identified by the SHA-256 digest of its RFC 8785 encoding.

    The crates, bottom up: [ag-primitives] (digests, origins, capabilities,
    principals), [ag-kernel] (judgments, books, authority, recomposition, the
    calculus ledger), [ag-session] (session specifications and worker records),
    [ag-protocol] (frames, strict JSON, envelopes), [ag-effect] (proposals, the
    compiler, mandates, the lifecycle; an executor), then the daemons of
    [ag-app], [ag-providerd], [ag-store] and [ag-migrate].

    ** Files

    - [Prelude]: [res E A], Rust's [Result] with a third outcome [Panic]; the
      notations [let? x := m in k] (the [?] operator), [m ;? k], [==], [!=] in
      [ag_scope]; machine integers as [Z] with explicit bounds; ASCII, UTF-8 and
      decimal text; ordered maps and sets as sorted lists; big-endian bytes; the
      hint database [ag] and the tactics [res_inv], [split_all], [guards].
    - [Wire]: JSON values, [Serialize] and its injectivity class [SerializeInj],
      the strict visitor of digest.rs, and [Deps], the third-party code.
    - [Fixture]: one concrete instance of [Deps] that satisfies every law, used
      by the witnesses.
    - [Digest] (digest.rs), [Names] (the text newtypes), [Origin] (origin.rs),
      [Capability] (capability.rs), [Identity] (identity.rs).
    - [Judgment] (judgment.rs, path.rs), [Family] (family.rs), [Recomposition]
      (recomposition.rs), [Authority] (authority.rs), [Correspondence]
      (correspondence.rs).
    - [Session] (ag-session/src/lib.rs), [Protocol] (ag-protocol/src/lib.rs).
    - [Paths], [Effect], [Compile], [Proposal] (ag-effect/src/lib.rs): the path
      and reference gates with the part of [std::path] they use; the data and
      the prepared-candidate identities; the compiler; ratifications, mandates
      and the proposal lifecycle.
    - [RpcAuth] (ag-app/src/rpc_auth.rs): signed local RPC, its proofs and its
      replay guard.
    - [Store], [StoreLog], [StoreSpec], [StoreBackup], [StoreCuts], [StoreRetry],
      [StoreBlob], [StoreBundle] (ag-store/src/lib.rs): the tables and the event
      transactions; the abstract log and the lemmas that relate the two; the
      theorems about the log; the backup-cut transactions; their invariant over
      runs of calls; retries; content-addressed blobs; coherent bundles.
    - [Docket] (ag-app/src/docket_issuance.rs): the decision, the ledger and the
      signed issuance record.
    - [Derived] (ag-app/src/derived.rs): promotions authorized by a pinned
      verifier under a bounded scope.
    - [Executor], [HostFiles], [ExecutorFiles], [ExecutorAttempt], [ExecutorSpec]
      (ag-effect/src/executor.rs): capabilities and receipts; the host's files as
      system calls show them; managed files; rules for one attempt; the guarantees.
    - [Config] (ag-app/src/config.rs, peer.rs): the four configurations, their
      validation and the principal chain of a peer.
    - [Pointer], [PointerText], [PointerGit], [PointerRuntime], [PointerSpec],
      [PointerCommit] (ag-app/src/managed_pointer.rs, descriptor_path.rs): the
      documents of a managed pointer and their checks; bundles, Git output and
      repository configuration as text; the host, pinned Git, staging and the
      observation of a repository; enrollment, preparation and commit; the rules
      for what a call launches; the guarantees.
    - [Api], [Activation] (ag-app/src/api.rs, effectd_activation.rs): the messages
      and the readiness evidence the broker reads.
    - [Broker], [BrokerOps], [BrokerAdmin], [BrokerRunner] (ag-app/src/effectd.rs):
      records, catalog and the validation of a stored record; the state with
      loading, persisting, activation, observation and submission; ratification,
      reconciliation, restart and the constructor; the production runner.
      [BrokerSpec], [BrokerRecovery], [BrokerRequests]: the automaton of the log and
      the runs of a daemon over it; recovery; what single requests guarantee.
    - [Provider], [ProviderSpec] (ag-providerd/src/lib.rs): the inference proxy; the
      ledger of what it reserves and sends, and the runs of the daemon over it.
      [Logged] has the rules for calls over a store and a log.
    - [WorkerStore], [WorkerSpec] (ag-app/src/worker_session.rs): worker sessions
      kept in the event store; the refinement to the records of [Session].

    A struct is a record, an enum an inductive type, a method a function of the
    state it reads that returns the state it leaves; [&mut self] methods return
    the new value.  Guards appear in the source's order, and a panicking
    [expect] or index is [Panic], so that its absence is a theorem.  Clones and
    borrows are not represented.  The four families of [define_family!] are one
    definition indexed by the book kind.  A [BTreeSet] or [BTreeMap] is the list
    of its elements in order; struct variants with many fields carry a record.
    A database is a record of its tables; an SQL transaction is a function from
    the database to a result with the database it leaves, so that a failed one
    leaves the old value; the schema's constraints are part of each statement.

    System calls of the executor are described in [HostFiles]: a file system of
    inodes, and a schedule that says which calls fail or move fewer bytes than
    asked.  Those of the managed pointer are the class [PointerGit.PointerHost]: any
    state and any answers, so that its theorems hold whatever other processes do.

    ** Third-party code

    [Wire.Deps] has one field per external function: SHA-256, hexadecimal
    encoding and decoding, [serde_jcs::to_vec], and [serde_json]'s reader as the
    tree of events it gives a visitor.  What the code relies on is stated as
    classes: [Sha256Laws] (32 bytes), [HexLaws] (two lowercase digits per byte,
    decoding inverts encoding), [JcsLaws] (on I-JSON data the encoder succeeds,
    ignores member order, and its output reads back).  Theorems about identities
    never assume collision freedom: they end in "equal, or these two byte strings
    collide", with the byte strings those of the stored data.  [Protocol.Decode] is the decoder that serde derives.
    [RpcAuth.RpcDeps] adds base64url and Ed25519 with [RpcLaws] (decoding inverts
    encoding, lengths, what a key signs verifies under it); nothing assumes that
    signatures cannot be forged.

    ** What the theorems show

    - Authority, books and crossings (C3,
      C9): authority is
      reconstructed from exactly the commits of admissions by the same books;
      crossings decide exactly and losslessly; heads commit to histories.
    - Proposals (C10, C22): one burn and one attempt per
      proposal, with a checkpoint before a promotion executes; compiled proposals
      say, field by field, what the catalog defines and the broker observed; mandates permit exactly their scope;
      ratifications bind one prepared candidate.
    - The executor (C11): under every
      schedule of faults one receipt, failures without effect, successes that are
      exactly what was ratified.
    - Managed pointers (C12, C17, C18): for every host, which may
      change between any two calls, a commit crosses its boundary at most once and
      reports it faithfully, preparation is reversible and confined, and the parsers
      accept exactly their format.
    - Configuration (C40): what a validated
      configuration guarantees to the daemon that runs on it.
    - The effect broker (C1, C2,
      C13, C14, C15,
      C16, C20, C19): over any run of calls,
      restarts and failed writes the store refines an automaton of the lifecycle and an
      effect is handed out once, behind a durable record of its authority; recovery
      settles every attempt, and its records always pass the broker's own validation;
      challenges, reconciliations and submissions take effect
      once; the runner writes only what the store holds.
    - The provider (C5, C6, C7,
      C8): over any run of calls and failed writes the store
      refines a ledger of reservations and requests, each noted where it is posted; a
      request leaves once, behind its durable reservation and within the budget of its
      capability; a terminated session is closed for good.
    - The event store (C4, C23): the transactions refine an
      abstract log; a verified head pins the events; reads return the last write;
      paging terminates with everything; what chain verification does not see.
    - Backup (C27) and blobs (C28): the barrier, the life of a cut over arbitrary runs of calls,
      permanence of sealed manifests, idempotent retries, joint bundles.
    - Signed RPC (C21, C24, C25,
      C26): the guard decides exactly and, as long
      as its clock is not set back, never accepts a message twice; an accepted forwarded
      exchange verifies under the keys of both enrolled parties; honest exchanges go
      through.
    - Docket issuance (C31, C32, C33).
    - Derived authority (C29, C30): what a derived promotion needs, and that
      no scope, proposal or receipt is used beyond its budget.
    - Sessions (C34, C35,
      C36,
      C37): the durable coordinator refines the worker record;
      stored tombstones are final; recovery fences every session; retries;
      custody requires a tombstone; validated specifications.
    - Capabilities ([Capability.validate_use_iff]), principals (C38),
      wire formats (C39).
    - The files prove more than these: identities that bind what they name,
      round trips of digests, epochs and frames, lossless refusals, the calculus
      ledger, signed responses, the exact path gates.

    ** Bounds and fuel

    Decimal conversion is fuelled by [U64_DIGITS], 20, the length of the largest
    [u64], and [dec_digits_value] shows that it suffices.  The concrete decoder of
    [Fixture] is fuelled by the length of its input ([Fixture.dec_enc]).  The
    paging loop of [StoreLog.walk_pages] returns with every fuel above the number
    of identifiers left ([page_walk_complete]), the recovery loop of [WorkerStore] likewise
    (C36), the paged loops of the broker likewise
    ([BrokerRecovery.paged_walk_is_one_pass]), the scan of a termination likewise
    ([ProviderSpec.terminate_pages_upholds]), and the hashing loop of [StoreBlob] with every fuel
    above the number of chunks.  All other recursion is
    structural.  Theorems that need a machine-width fact take it as a hypothesis
    about the field ([budget_ok], [codec_ok]); overflow is modelled where the
    source checks it ([checked_add_u64], the [i64] columns of the store).

    ** Not modelled, and the plan

    Not modelled: the governor daemon and the sockets, process and descriptor
    plumbing, the command line, migration, offline copies of a backup, and
    randomness: they route requests to the modelled components or do I/O around them.  Other processes do not write the files of [HostFiles] while a call
    sequence of the executor runs.  Next: the collection of live activation
    evidence, and the request routing of the governor. *)

From stdpp Require Export base tactics countable list gmap sets strings pretty.
From Stdlib Require Export ZArith Lia.
From Stdlib Require Export Ascii.
From Stdlib Require Init.Byte Structures.OrdersEx Sorting.Sorted.

(** ** Results, errors and panics

    [res E A] is Rust's [Result<A, E>] with one more outcome: [Panic], what
    [expect], an out-of-range index or a failed slice does. *)

Inductive res (E A : Type) : Type :=
  | Ok (a : A)
  | Err (e : E)
  | Panic.
Arguments Ok {E A} a.
Arguments Err {E A} e.
Arguments Panic {E A}.

#[global] Instance res_eq_dec `{EqDecision E, EqDecision A} : EqDecision (res E A).
Proof. solve_decision. Defined.

Definition res_bind {E A B} (m : res E A) (k : A -> res E B) : res E B :=
  match m with
  | Ok a => k a
  | Err e => Err e
  | Panic => Panic
  end.

Definition map_err {E F A} (f : E -> F) (m : res E A) : res F A :=
  match m with
  | Ok a => Ok a
  | Err e => Err (f e)
  | Panic => Panic
  end.

(** [Option::ok_or] and [Option::expect]. *)
Definition ok_or {E A} (e : E) (o : option A) : res E A :=
  match o with Some a => Ok a | None => Err e end.
Definition expect {E A} (o : option A) : res E A :=
  match o with Some a => Ok a | None => Panic end.

(** [Result::expect]: an [Err] panics. *)
Definition expect_ok {E F A} (m : res F A) : res E A :=
  match m with Ok a => Ok a | _ => Panic end.

(** [if cond { return Err(e) }]. *)
Definition reject_if {E} (cond : bool) (e : E) : res E unit :=
  if cond then Err e else Ok tt.

(** [Result::is_ok]. *)
Definition is_ok {E A} (m : res E A) : bool :=
  match m with Ok _ => true | _ => false end.

(** A computation that never panics. *)
Definition no_panic {E A} (m : res E A) : Prop := m <> Panic.

Declare Scope ag_scope.
Delimit Scope ag_scope with ag.
Notation "'let?' x ':=' m 'in' k" := (res_bind m (fun x => k))
  (at level 10, x pattern, m at level 100, k at level 200) : ag_scope.
Notation "m ';?' k" := (res_bind m (fun _ => k))
  (at level 199, k at level 200, right associativity) : ag_scope.
(** Rust's [==] and [!=] on a type with decidable equality. *)
Notation "x == y" := (bool_decide (x = y)) (at level 70, no associativity) : ag_scope.
Notation "x != y" := (negb (bool_decide (x = y))) (at level 70, no associativity) : ag_scope.
Open Scope ag_scope.

(** ** State and errors

    A call that reads and changes a state and may fail: the state it leaves is
    part of its answer also when it fails. *)

Definition ST (S E A : Type) : Type := S -> S * res E A.
Definition st_bind {S E A B} (m : ST S E A) (k : A -> ST S E B) : ST S E B := fun s =>
  match m s with
  | (s', Ok a) => k a s'
  | (s', Err e) => (s', Err e)
  | (s', Panic) => (s', Panic)
  end.
(** A result that does not depend on the state; the state itself. *)
Definition pure {S E A} (r : res E A) : ST S E A := fun s => (s, r).
Definition get {S E} : ST S E S := fun s => (s, Ok s).
(** [.map_err(f)] on a call, and a match on its [Result]. *)
Definition st_map_err {S E F A} (f : E -> F) (m : ST S E A) : ST S F A := fun s =>
  let (s', r) := m s in (s', map_err f r).
Definition st_try {S E F A B} (m : ST S E A) (k : res E A -> ST S F B) : ST S F B := fun s =>
  let (s', r) := m s in match r with Panic => (s', Panic) | _ => k r s' end.
(** A body with early returns, each an [Err] of the value that it returns. *)
Definition returning {S E R} (m : ST S R R) : ST S E R := fun s =>
  match m s with
  | (s', Ok a) | (s', Err a) => (s', Ok a)
  | (s', Panic) => (s', Panic)
  end.
Notation "'let!' x ':=' m 'in' k" := (st_bind m (fun x => k))
  (at level 10, x pattern, m at level 100, k at level 200) : ag_scope.
Notation "m ';!' k" := (st_bind m (fun _ => k))
  (at level 199, k at level 200, right associativity) : ag_scope.

(** [st_spec P m Q R]: run from a state in [P], the call returns, with an answer
    and a state in [Q] or an error and a state in [R]; it does not panic. *)
Definition st_spec {S E A} (P : S -> Prop) (m : ST S E A) (Q : A -> S -> Prop) (R : E -> S -> Prop) : Prop :=
  forall s, P s ->
  match m s with
  | (s', Ok a) => Q a s'
  | (s', Err e) => R e s'
  | (_, Panic) => False
  end.

(** ** Tactics and hints *)

Create HintDb ag.

#[global] Instance Ok_inj {E A} : Inj (=) (=) (@Ok E A).
Proof. by intros a b [= ->]. Qed.

Lemma res_bind_ok {E A B} (m : res E A) (k : A -> res E B) b :
  res_bind m k = Ok b <-> exists a, m = Ok a /\ k a = Ok b.
Proof. destruct m; simpl; naive_solver. Qed.

Lemma res_bind_err {E A B} (m : res E A) (k : A -> res E B) e :
  res_bind m k = Err e <-> m = Err e \/ exists a, m = Ok a /\ k a = Err e.
Proof. destruct m; simpl; naive_solver. Qed.

Lemma res_bind_panic {E A B} (m : res E A) (k : A -> res E B) :
  res_bind m k = Panic <-> m = Panic \/ exists a, m = Ok a /\ k a = Panic.
Proof. destruct m; simpl; naive_solver. Qed.

Lemma reject_if_ok {E} c (e : E) u : reject_if c e = Ok u <-> c = false.
Proof. destruct c, u; simpl; naive_solver. Qed.

Lemma reject_if_err {E} c (e e' : E) : reject_if c e = Err e' <-> c = true /\ e = e'.
Proof. destruct c; simpl; naive_solver. Qed.

Lemma reject_if_no_panic {E} c (e : E) : no_panic (reject_if c e).
Proof. by destruct c. Qed.

Lemma res_bind_no_panic {E A B} (m : res E A) (k : A -> res E B) :
  no_panic m -> (forall a, m = Ok a -> no_panic (k a)) -> no_panic (res_bind m k).
Proof. unfold no_panic; destruct m; simpl; naive_solver. Qed.

Lemma map_err_ok {E F A} (f : E -> F) (m : res E A) a :
  map_err f m = Ok a <-> m = Ok a.
Proof. destruct m; simpl; naive_solver. Qed.

Lemma ok_or_ok {E A} (e : E) (o : option A) a : ok_or e o = Ok a <-> o = Some a.
Proof. destruct o; simpl; naive_solver. Qed.

Lemma expect_is_ok {E A} (o : option A) a : expect (E := E) o = Ok a <-> o = Some a.
Proof. destruct o; simpl; naive_solver. Qed.

Lemma expect_ok_ok {E F A} (m : res F A) a : expect_ok (E := E) m = Ok a <-> m = Ok a.
Proof. destruct m; simpl; naive_solver. Qed.

(** Running a sequence, and the rules of [st_spec]. *)
Lemma st_bind_run {S E A B} (m : ST S E A) (k : A -> ST S E B) s : st_bind m k s =
  match m s with (s', Ok a) => k a s' | (s', Err e) => (s', Err e) | (s', Panic) => (s', Panic) end.
Proof. done. Qed.

Lemma st_spec_bind {S E A B} P (m : ST S E A) (k : A -> ST S E B) Q Q' R :
  st_spec P m Q R -> (forall a, st_spec (Q a) (k a) Q' R) -> st_spec P (st_bind m k) Q' R.
Proof.
  intros Hm Hk s Hs. rewrite st_bind_run. specialize (Hm s Hs).
  destruct (m s) as [s' [a|e|]]; [|done..]. by apply Hk.
Qed.

Lemma st_spec_weaken {S E A} (P P' : S -> Prop) (m : ST S E A) (Q Q' : A -> S -> Prop) (R R' : E -> S -> Prop) :
  st_spec P m Q R -> (forall s, P' s -> P s) -> (forall a s, Q a s -> Q' a s) -> (forall e s, R e s -> R' e s) ->
  st_spec P' m Q' R'.
Proof.
  intros Hm HP HQ HR s Hs. specialize (Hm s (HP s Hs)). destruct (m s) as [s' [a|e|]]; auto.
Qed.

Lemma st_spec_map_err {S E F A} P (f : E -> F) (m : ST S E A) Q R :
  st_spec P m Q (fun e => R (f e)) -> st_spec P (st_map_err f m) Q R.
Proof. intros Hm s Hs. specialize (Hm s Hs). unfold st_map_err. by destruct (m s) as [s' [a|e|]]. Qed.

Lemma st_spec_try {S E F A B} P (m : ST S E A) (k : res E A -> ST S F B) Q R Q' R' :
  st_spec P m Q R -> (forall a, st_spec (Q a) (k (Ok a)) Q' R') -> (forall e, st_spec (R e) (k (Err e)) Q' R') ->
  st_spec P (st_try m k) Q' R'.
Proof.
  intros Hm Hk He s Hs. specialize (Hm s Hs). unfold st_try. destruct (m s) as [s' [a|e|]]; [|by apply He|done].
  by apply Hk.
Qed.

Lemma st_spec_pure {S E A} (P : S -> Prop) (r : res E A) (Q : A -> S -> Prop) (R : E -> S -> Prop) :
  (forall s, P s -> match r with Ok a => Q a s | Err e => R e s | Panic => False end) -> st_spec P (pure r) Q R.
Proof. intros Hr s Hs. specialize (Hr s Hs). by destruct r. Qed.

Lemma st_spec_returning {S E A} P (m : ST S A A) (Q : A -> S -> Prop) :
  st_spec P m Q Q -> st_spec (E := E) P (returning m) Q (fun _ _ => False).
Proof. intros Hm s Hs. specialize (Hm s Hs). unfold returning. by destruct (m s) as [s' [a|e|]]. Qed.

(** A guard in front of a computation. *)
Lemma guard_ok {E A} c (e : E) (k : res E A) v :
  res_bind (reject_if c e) (fun _ => k) = Ok v <-> c = false /\ k = Ok v.
Proof. destruct c; simpl; naive_solver. Qed.

Lemma guard_err {E A} c (e : E) (k : res E A) e' :
  res_bind (reject_if c e) (fun _ => k) = Err e' <-> (c = true /\ e = e') \/ (c = false /\ k = Err e').
Proof. destruct c; simpl; naive_solver. Qed.

Lemma guard_panic {E A} c (e : E) (k : res E A) :
  res_bind (reject_if c e) (fun _ => k) = Panic <-> c = false /\ k = Panic.
Proof. destruct c; simpl; naive_solver. Qed.

Lemma then_ok {E A} (m : res E unit) (k : res E A) v :
  res_bind m (fun _ => k) = Ok v <-> m = Ok tt /\ k = Ok v.
Proof. destruct m as [[]| |]; simpl; naive_solver. Qed.

#[export] Hint Resolve reject_if_no_panic res_bind_no_panic : ag.

Lemma orb_false a b : a || b = false <-> a = false /\ b = false.
Proof. destruct a, b; naive_solver. Qed.

Lemma negb_bool_decide_false (P : Prop) `{Decision P} :
  negb (bool_decide P) = false <-> P.
Proof. rewrite negb_false_iff. apply bool_decide_eq_true. Qed.

Lemma negb_bool_decide_true (P : Prop) `{Decision P} :
  negb (bool_decide P) = true <-> ~ P.
Proof. rewrite negb_true_iff. apply bool_decide_eq_false. Qed.

(** [res_inv]: takes apart every hypothesis that says a bind, a guard, an
    [ok_or], an [expect] or a disjunction of conditions came out [Ok]. *)
Ltac res_inv_step :=
  match goal with
  | H : Ok _ = Ok _ |- _ => injection H as H; subst
  | H : Err _ = Err _ |- _ => injection H as H; subst
  | H : Ok _ = Err _ |- _ => discriminate H
  | H : Err _ = Ok _ |- _ => discriminate H
  | H : Panic = _ |- _ => discriminate H
  | H : _ = Panic |- _ => discriminate H
  | H : res_bind _ _ = Ok _ |- _ =>
      let a := fresh "a" in
      let H1 := fresh H in
      apply res_bind_ok in H as (a & H1 & H)
  | H : reject_if _ _ = Ok _ |- _ => apply reject_if_ok in H
  | H : map_err _ _ = Ok _ |- _ => apply map_err_ok in H
  | H : ok_or _ _ = Ok _ |- _ => apply ok_or_ok in H
  | H : expect _ = Ok _ |- _ => apply expect_is_ok in H
  | H : expect_ok _ = Ok _ |- _ => apply expect_ok_ok in H
  | H : _ || _ = false |- _ => apply orb_false in H as [? ?]
  | H : negb (bool_decide _) = false |- _ => apply negb_bool_decide_false in H
  | H : bool_decide _ = false |- _ => apply bool_decide_eq_false in H
  | H : bool_decide _ = true |- _ => apply bool_decide_eq_true in H
  | H : negb _ = false |- _ => apply negb_false_iff in H
  | H : negb _ = true |- _ => apply negb_true_iff in H
  | H : _ && _ = true |- _ => apply andb_true_iff in H as [? ?]
  end.
Ltac res_inv := repeat (res_inv_step; simpl in *; simplify_eq/=).

(** Splits a goal that is one big conjunction and closes what the context
    settles. *)
Ltac split_all := repeat match goal with |- _ /\ _ => split end.

(** Boolean guard conditions as propositions, in the goal or in a hypothesis:
    disjunctions of tests that are all [false]. *)
Ltac guards := rewrite ?orb_false, ?negb_bool_decide_false, ?bool_decide_eq_false, ?negb_false_iff,
  ?Z.eqb_neq, ?Z.eqb_eq, ?Z.ltb_ge, ?Z.leb_gt.
Ltac guards_in H := rewrite ?orb_false, ?negb_bool_decide_false, ?bool_decide_eq_false, ?negb_false_iff,
  ?Z.eqb_neq, ?Z.eqb_eq, ?Z.ltb_ge, ?Z.leb_gt in H.

(** ** Machine integers

    A [u64] or [u32] is a [Z] in range; the ranges are written out where they
    matter, and the overflow checks are those of [checked_add]. *)

Definition U32_MAX : Z := 4294967295.
Definition U64_MAX : Z := 18446744073709551615.
Definition u64_ok (z : Z) : Prop := (0 <= z <= U64_MAX)%Z.
Definition u32_ok (z : Z) : Prop := (0 <= z <= U32_MAX)%Z.

#[global] Instance u64_ok_dec z : Decision (u64_ok z).
Proof. unfold u64_ok. apply _. Defined.

(** [u64::checked_add], [u64::checked_mul], [u64::saturating_add] and
    [u64::saturating_sub]. *)
Definition checked_add_u64 (a b : Z) : option Z :=
  if (a + b <=? U64_MAX)%Z then Some (a + b)%Z else None.
Definition checked_mul_u64 (a b : Z) : option Z :=
  if (a * b <=? U64_MAX)%Z then Some (a * b)%Z else None.
Definition saturating_add_u64 (a b : Z) : Z := Z.min (a + b) U64_MAX.
Definition saturating_sub_u64 (a b : Z) : Z := Z.max (a - b) 0.

Lemma checked_add_u64_Some a b c :
  checked_add_u64 a b = Some c <-> (c = a + b /\ a + b <= U64_MAX)%Z.
Proof. unfold checked_add_u64. destruct (Z.leb_spec (a + b) U64_MAX); naive_solver lia. Qed.

(** ** Bytes, characters and strings

    A Rust [String] is its UTF-8 byte sequence, a [string]; [&[u8]] is a list
    of bytes. *)

Abbreviation byte := Byte.byte.
Abbreviation bytes := (list Byte.byte).

#[global] Instance byte_eq_dec : EqDecision byte := Byte.byte_eq_dec.

(** [str::as_bytes]. *)
Definition str_bytes (s : string) : bytes := String.list_byte_of_string s.

Lemma str_bytes_inj s t : str_bytes s = str_bytes t -> s = t.
Proof.
  intros H. rewrite <- (String.string_of_list_byte_of_string s), <- (String.string_of_list_byte_of_string t).
  by f_equal.
Qed.

Lemma length_str_bytes s : length (str_bytes s) = String.length s.
Proof.
  unfold str_bytes, String.list_byte_of_string. rewrite length_map.
  induction s; simpl; congruence.
Qed.

Definition code (c : ascii) : Z := Z.of_N (N_of_ascii c).
Definition is_ascii_lowercase (c : ascii) : bool := (97 <=? code c)%Z && (code c <=? 122)%Z.
Definition is_ascii_uppercase (c : ascii) : bool := (65 <=? code c)%Z && (code c <=? 90)%Z.
Definition is_ascii_digit (c : ascii) : bool := (48 <=? code c)%Z && (code c <=? 57)%Z.
Definition is_ascii_alphanumeric (c : ascii) : bool :=
  is_ascii_lowercase c || is_ascii_uppercase c || is_ascii_digit c.
Definition is_ascii (c : ascii) : bool := (code c <? 128)%Z.
Definition is_ascii_control (c : ascii) : bool := (code c <=? 31)%Z || (code c =? 127)%Z.

(** [matches!(byte, b'x' | b'y' | ...)] for the characters of a string. *)
Definition one_of (set : string) (c : ascii) : bool :=
  existsb (Ascii.eqb c) (String.list_ascii_of_string set).

(** [value.bytes().all(p)]. *)
Definition str_all (p : ascii -> bool) (s : string) : bool :=
  forallb p (String.list_ascii_of_string s).

Lemma str_all_forall p s : str_all p s = true <-> Forall (fun c => p c = true) (String.list_ascii_of_string s).
Proof. unfold str_all. rewrite forallb_forall, List.Forall_forall. done. Qed.

Lemma length_list_ascii s : length (String.list_ascii_of_string s) = String.length s.
Proof. induction s; simpl; congruence. Qed.

(** [bytes[0]] and [bytes[bytes.len() - 1]] of a string. *)
Definition first_char (s : string) : option ascii := head (String.list_ascii_of_string s).
Definition last_char (s : string) : option ascii := last (String.list_ascii_of_string s).

(** [str::starts_with], [str::ends_with], [str::contains]. *)
Definition starts_with (s p : string) : bool := String.prefix p s.
Definition ends_with (s p : string) : bool :=
  String.eqb (String.substring (String.length s - String.length p) (String.length p) s) p
  && (String.length p <=? String.length s).
Fixpoint contains (s p : string) : bool :=
  String.prefix p s ||
  match s with
  | EmptyString => false
  | String _ s' => contains s' p
  end.

(** The width, from its leading byte, of the UTF-8 character a string starts
    with. *)
Definition utf8_width (c : ascii) : nat :=
  if (code c <? 128)%Z then 1 else if (code c <? 224)%Z then 2
  else if (code c <? 240)%Z then 3 else 4.

(** [value.char_indices().find(|(_, c)| !admitted(c))] where every admitted
    character is ASCII: the byte offset of the first character that is not
    admitted, and that character, as its UTF-8 encoding. *)
Fixpoint find_char_not (admitted : ascii -> bool) (offset : nat) (s : string)
    : option (nat * string) :=
  match s with
  | EmptyString => None
  | String c s' =>
      if admitted c then find_char_not admitted (S offset) s'
      else Some (offset, String.substring 0 (utf8_width c) s)
  end.

Lemma find_char_not_None p n s : find_char_not p n s = None <-> str_all p s = true.
Proof.
  revert n. induction s as [|c s IH]; intros n; [done|].
  unfold str_all in *; simpl. destruct (p c); simpl; [apply IH | done].
Qed.

(** ** Ordered containers

    [BTreeMap<String, V>] and [serde_json::Map] as the list of their entries
    in key order; Rust orders strings by their bytes, as [String.compare]. *)

Definition str_ltb (a b : string) : bool := String.ltb a b.

Fixpoint btree_insert {V} (k : string) (v : V) (m : list (string * V)) : list (string * V) :=
  match m with
  | [] => [(k, v)]
  | (k', v') :: m' =>
      if String.eqb k k' then (k, v) :: m'
      else if str_ltb k k' then (k, v) :: m
      else (k', v') :: btree_insert k v m'
  end.

Fixpoint btree_get {V} (k : string) (m : list (string * V)) : option V :=
  match m with
  | [] => None
  | (k', v') :: m' => if String.eqb k k' then Some v' else btree_get k m'
  end.

(** Building a map from its entries, in the order they are inserted. *)
Definition btree_of {V} (l : list (string * V)) : list (string * V) :=
  fold_left (fun m kv => btree_insert kv.1 kv.2 m) l [].

Lemma str_ltb_irrefl a : str_ltb a a = false.
Proof.
  unfold str_ltb, String.ltb. destruct (String.compare a a) eqn:H; try done.
  pose proof (String.compare_antisym a a) as HA. rewrite H in HA. done.
Qed.

Lemma str_ltb_trans a b c : str_ltb a b = true -> str_ltb b c = true -> str_ltb a c = true.
Proof.
  assert (forall x y, str_ltb x y = true <-> OrdersEx.String_as_OT.lt x y) as Hlt.
  { intros x y. unfold str_ltb, String.ltb.
    change (OrdersEx.String_as_OT.lt x y) with (String.compare x y = Lt).
    destruct (String.compare x y); split; congruence. }
  rewrite !Hlt. apply OrdersEx.String_as_OT.lt_strorder.
Qed.

Lemma str_ltb_neq a b : str_ltb a b = true -> a <> b.
Proof. intros H ->. by rewrite str_ltb_irrefl in H. Qed.

(** The key order of a map's entry list. *)
Definition key_lt {V} (x y : string * V) : Prop := str_ltb x.1 y.1 = true.
Definition btree_sorted {V} (m : list (string * V)) : Prop := Sorted.StronglySorted key_lt m.

(** Inserting a key above every key of the map appends it. *)
Lemma btree_insert_above {V} k (v : V) m :
  Forall (fun kv => str_ltb kv.1 k = true) m -> btree_insert k v m = m ++ [(k, v)].
Proof.
  induction 1 as [|[k' v'] m Hk _ IH]; simpl in *; [done|].
  destruct (String.eqb_spec k k') as [->|Hne]; [by rewrite str_ltb_irrefl in Hk|].
  destruct (str_ltb k k') eqn:Hlt; [|by rewrite IH].
  pose proof (str_ltb_trans _ _ _ Hk Hlt) as Hk'. by rewrite str_ltb_irrefl in Hk'.
Qed.

Lemma btree_of_sorted_acc {V} (l acc : list (string * V)) :
  btree_sorted (acc ++ l) ->
  fold_left (fun m kv => btree_insert kv.1 kv.2 m) l acc = acc ++ l.
Proof.
  revert acc. induction l as [|[k v] l IH]; intros acc Hs; simpl; [by rewrite app_nil_r|].
  rewrite btree_insert_above.
  - rewrite IH; [by rewrite <- app_assoc|]. by rewrite <- app_assoc.
  - apply List.Forall_forall. intros [k' v'] Hin.
    clear IH. induction acc as [|a acc IHacc]; [done|].
    simpl in Hs. inversion Hs as [|? ? Hs' Hf]; subst.
    destruct Hin as [->|Hin]; [|by apply IHacc].
    rewrite List.Forall_forall in Hf. apply (Hf (k, v)).
    apply in_or_app. right. by left.
Qed.

Lemma btree_of_sorted {V} (l : list (string * V)) : btree_sorted l -> btree_of l = l.
Proof. intros H. unfold btree_of. by rewrite btree_of_sorted_acc. Qed.

(** The keys of a map after an insertion. *)
Lemma btree_insert_keys {V} k (v : V) m P :
  P k -> Forall (fun kv => P kv.1) m -> Forall (fun kv => P kv.1) (btree_insert k v m).
Proof.
  intros Hk. induction 1 as [|[k' v'] m Hk' Hm IH]; simpl in *; [by constructor|].
  destruct (String.eqb k k'); [by constructor|].
  destruct (str_ltb k k'); by repeat constructor.
Qed.

Lemma str_ltb_total a b : a <> b -> str_ltb a b = false -> str_ltb b a = true.
Proof.
  unfold str_ltb, String.ltb. intros Hne. rewrite (String.compare_antisym b a).
  destruct (String.compare a b) eqn:H; simpl; try done.
  by apply String.compare_eq_iff in H.
Qed.

Lemma btree_insert_sorted {V} k (v : V) m :
  btree_sorted m -> btree_sorted (btree_insert k v m).
Proof.
  induction 1 as [|[k' v'] m Hm IH Hf]; simpl; [by repeat constructor|].
  destruct (String.eqb_spec k k') as [->|Hne]; [by constructor|].
  destruct (str_ltb k k') eqn:Hlt.
  - constructor; [by constructor|]. constructor; [done|].
    eapply Forall_impl; [exact Hf|]. intros [k2 v2]. unfold key_lt; simpl.
    by apply str_ltb_trans.
  - constructor; [done|].
    apply (btree_insert_keys k v m (fun x => str_ltb k' x = true)); [|done].
    by apply str_ltb_total.
Qed.

Lemma btree_of_is_sorted {V} (l : list (string * V)) : btree_sorted (btree_of l).
Proof.
  unfold btree_of. cut (forall m, btree_sorted m ->
    btree_sorted (fold_left (fun m kv => btree_insert kv.1 kv.2 m) l m)).
  { intros H. apply H. constructor. }
  induction l as [|kv l IH]; intros m Hm; simpl; [done|].
  by apply IH, btree_insert_sorted.
Qed.

Lemma btree_sorted_NoDup {V} (m : list (string * V)) : btree_sorted m -> NoDup (map fst m).
Proof.
  induction 1 as [|[k v] m Hm IH Hf]; simpl; constructor; [|done].
  rewrite list_elem_of_In, in_map_iff. intros ([k' v'] & Hk & Hin). simpl in Hk. subst k'.
  rewrite List.Forall_forall in Hf. specialize (Hf _ Hin). unfold key_lt in Hf. simpl in Hf.
  by rewrite str_ltb_irrefl in Hf.
Qed.

(** [Vec::sort] followed by [Vec::dedup] on strings, and [collect] into a
    [BTreeSet<String>]: the distinct elements in order. *)
Definition sort_dedup (l : list string) : list string :=
  map fst (btree_of (map (fun s => (s, tt)) l)).

Lemma sort_dedup_nil l : sort_dedup l = [] <-> l = [].
Proof.
  split; [|by intros ->]. intros Hs. destruct l as [|s l]; [done|]. exfalso.
  assert (forall (l : list (string * ())) acc, acc <> [] ->
    fold_left (fun m kv => btree_insert kv.1 kv.2 m) l acc <> []) as Hf.
  { clear. induction l as [|[k u] l IH]; intros acc Ha; simpl; [done|]. apply IH.
    destruct acc as [|[j v] acc]; [done|]. simpl. by destruct (String.eqb k j), (str_ltb k j). }
  unfold sort_dedup, btree_of in Hs. apply map_eq_nil in Hs. simpl in Hs. by apply Hf in Hs.
Qed.

Lemma elem_sort_dedup s l : s ∈ sort_dedup l <-> s ∈ l.
Proof.
  unfold sort_dedup, btree_of.
  assert (forall (m : list (string * ())) k u, s ∈ map fst (btree_insert k u m) <-> s = k \/ s ∈ map fst m) as Hi.
  { intros m k u. induction m as [|[j v] m IH]; simpl; [by rewrite elem_of_cons|].
    destruct (String.eqb_spec k j) as [->|]; [simpl; rewrite elem_of_cons; tauto|].
    destruct (str_ltb k j); simpl; rewrite !elem_of_cons; [done|]. rewrite IH. tauto. }
  cut (forall acc : list (string * ()),
    s ∈ map fst (fold_left (fun m kv => btree_insert kv.1 kv.2 m) (map (fun s => (s, tt)) l) acc)
    <-> s ∈ map fst acc \/ s ∈ l).
  { intros Hg. rewrite Hg. simpl. rewrite elem_of_nil. tauto. }
  induction l as [|t l IH]; intros acc; simpl; [rewrite elem_of_nil; tauto|].
  rewrite IH, Hi, elem_of_cons. tauto.
Qed.

(** ** Big-endian integers: [to_be_bytes] and [from_be_bytes]. *)

Definition byte_val (b : byte) : Z := Z.of_N (Byte.to_N b).
Definition byte_of (z : Z) : byte :=
  match Byte.of_N (Z.to_N (z mod 256)) with Some b => b | None => Byte.x00 end.

Fixpoint be_bytes (n : nat) (z : Z) : bytes :=
  match n with
  | O => []
  | S m => byte_of (z / 256 ^ Z.of_nat m) :: be_bytes m z
  end.

Definition be_value (l : bytes) : Z := fold_left (fun acc b => acc * 256 + byte_val b)%Z l 0%Z.

Lemma byte_val_range b : (0 <= byte_val b < 256)%Z.
Proof.
  unfold byte_val. split; [lia|]. pose proof (Byte.to_N_bounded b). lia.
Qed.

Lemma byte_val_of z : byte_val (byte_of z) = (z mod 256)%Z.
Proof.
  unfold byte_val, byte_of.
  assert (0 <= z mod 256 < 256)%Z as Hr by (apply Z.mod_pos_bound; lia).
  destruct (Byte.of_N (Z.to_N (z mod 256))) as [b|] eqn:H.
  - apply Byte.to_of_N in H. rewrite H. lia.
  - apply Byte.of_N_None_iff in H. lia.
Qed.

Lemma byte_of_val b : byte_of (byte_val b) = b.
Proof.
  unfold byte_of. rewrite Z.mod_small by apply byte_val_range.
  unfold byte_val. rewrite N2Z.id, Byte.of_to_N. done.
Qed.

Lemma byte_val_inj a b : byte_val a = byte_val b -> a = b.
Proof. intros H. rewrite <- (byte_of_val a), <- (byte_of_val b). by f_equal. Qed.

Lemma length_be_bytes n z : length (be_bytes n z) = n.
Proof. induction n; simpl; congruence. Qed.

Lemma be_value_acc l acc :
  fold_left (fun acc b => acc * 256 + byte_val b)%Z l acc
  = (acc * 256 ^ Z.of_nat (length l) + be_value l)%Z.
Proof.
  unfold be_value. revert acc. induction l as [|b l IH]; intros acc; [simpl; lia|].
  cbn [fold_left length]. rewrite IH, (IH (0 * 256 + byte_val b)%Z).
  rewrite Nat2Z.inj_succ, Z.pow_succ_r by lia. lia.
Qed.

Lemma be_value_cons b l :
  be_value (b :: l) = (byte_val b * 256 ^ Z.of_nat (length l) + be_value l)%Z.
Proof. unfold be_value at 1. cbn [fold_left]. rewrite be_value_acc. lia. Qed.

Lemma be_value_range l : (0 <= be_value l < 256 ^ Z.of_nat (length l))%Z.
Proof.
  induction l as [|b l IH]; [done|]. rewrite be_value_cons. cbn [length].
  rewrite Nat2Z.inj_succ, Z.pow_succ_r by lia. pose proof (byte_val_range b). nia.
Qed.

(** Reading back what [to_be_bytes] wrote. *)
Lemma be_value_bytes n z : (0 <= z < 256 ^ Z.of_nat n)%Z -> be_value (be_bytes n z) = z.
Proof.
  intros Hz. cut (be_value (be_bytes n z) = z mod 256 ^ Z.of_nat n)%Z.
  { intros ->. by apply Z.mod_small. }
  clear Hz. induction n as [|n IH]; [by rewrite Z.mod_1_r|].
  cbn [be_bytes]. rewrite be_value_cons, IH, length_be_bytes, byte_val_of.
  rewrite Nat2Z.inj_succ, Z.pow_succ_r, (Z.mul_comm 256) by lia.
  rewrite Z.rem_mul_r by lia. lia.
Qed.

Lemma be_value_inj l l' : length l = length l' -> be_value l = be_value l' -> l = l'.
Proof.
  revert l'. induction l as [|b l IH]; intros [|b' l'] Hl H; [done|done|done|].
  injection Hl as Hl.
  rewrite !be_value_cons in H. rewrite Hl in H.
  pose proof (be_value_range l). pose proof (be_value_range l').
  rewrite Hl in *. assert (byte_val b = byte_val b') as Hb by nia.
  apply byte_val_inj in Hb as ->. f_equal. apply IH; [done | lia].
Qed.

(** Writing back what [from_be_bytes] read. *)
Lemma be_bytes_value l : be_bytes (length l) (be_value l) = l.
Proof.
  apply be_value_inj; [apply length_be_bytes|]. apply be_value_bytes, be_value_range.
Qed.

(** [&value[n..]] for an offset inside the string. *)
Fixpoint str_drop (n : nat) (s : string) : string :=
  match n, s with
  | S n', String _ s' => str_drop n' s'
  | _, _ => s
  end.

Arguments str_drop : simpl never.

Lemma str_drop_app p s : str_drop (String.length p) (p +:+ s) = s.
Proof. induction p as [|c p IH]; [by destruct s | exact IH]. Qed.

Lemma str_length_app s t : String.length (s +:+ t) = String.length s + String.length t.
Proof. induction s as [|c s IH]; [done|]. exact (f_equal S IH). Qed.

Lemma starts_with_spec s p : starts_with s p = true <-> exists t, s = p +:+ t.
Proof.
  unfold starts_with. revert s. induction p as [|c p IH]; intros s; simpl.
  - split; [by eexists | by destruct s].
  - destruct s as [|d s]; simpl; [split; [done | by intros []]|].
    destruct (ascii_dec c d) as [->|Hne]; [rewrite IH|].
    + split; intros [t Ht]; exists t; [by rewrite Ht | by injection Ht].
    + split; [done|]. intros [t [= Hc _]]. done.
Qed.

Lemma str_app_inj_l p s t : p +:+ s = p +:+ t -> s = t.
Proof. induction p; simpl; [done|]. intros [=]. auto. Qed.

Lemma list_app_inj_length {A} (a b c d : list A) :
  length a = length c -> a ++ b = c ++ d -> a = c /\ b = d.
Proof. intros Hl H. by apply app_inj_1. Qed.

(** ** Lists *)

Lemma elem_map_iff {A B} (f : A -> B) l y : y ∈ map f l <-> exists x, x ∈ l /\ f x = y.
Proof. rewrite list_elem_of_In, in_map_iff. setoid_rewrite list_elem_of_In. firstorder. Qed.

Lemma elem_map {A B} (f : A -> B) l x : x ∈ l -> f x ∈ map f l.
Proof. intros Hx. apply elem_map_iff. eauto. Qed.

Lemma NoDup_map_inj {A B} (f : A -> B) l x y :
  NoDup (map f l) -> x ∈ l -> y ∈ l -> f x = f y -> x = y.
Proof.
  induction l as [|a l IH]; simpl; [by intros _ Hx%elem_of_nil|].
  rewrite NoDup_cons, !elem_of_cons. intros [Ha Hnd] [->|Hx] [->|Hy] Hf; [done | | |by apply IH].
  - destruct Ha. rewrite Hf. by apply elem_map.
  - destruct Ha. rewrite <- Hf. by apply elem_map.
Qed.

(** ** Decimal text: [u64]'s [Display] and [FromStr] *)

Definition dec_digit (z : Z) : ascii := ascii_of_N (Z.to_N (48 + z)).

(** The digits of [n], most significant first; [fuel] bounds their number. *)
Fixpoint dec_digits (fuel : nat) (n : Z) : list ascii :=
  match fuel with
  | O => []
  | S f => if (n <? 10)%Z then [dec_digit n] else dec_digits f (n / 10) ++ [dec_digit (n mod 10)]
  end.

(** A [u64] has at most 20 decimal digits. *)
Definition U64_DIGITS : nat := 20.
Definition u64_to_string (n : Z) : string :=
  String.string_of_list_ascii (dec_digits U64_DIGITS n).

Definition dec_value (l : list ascii) : Z :=
  fold_left (fun acc c => acc * 10 + (code c - 48))%Z l 0%Z.

(** [str::parse::<u64>]: an optional sign, digits, no overflow. *)
Definition parse_u64 (s : string) : option Z :=
  let digits := match s with
                | String c s' => if Ascii.eqb c "+"%char then s' else s
                | EmptyString => s
                end in
  if (digits == EmptyString) || negb (str_all is_ascii_digit digits) then None
  else let n := dec_value (String.list_ascii_of_string digits) in
       if (n <=? U64_MAX)%Z then Some n else None.

Lemma dec_value_snoc l c : dec_value (l ++ [c]) = (dec_value l * 10 + (code c - 48))%Z.
Proof. unfold dec_value. by rewrite fold_left_app. Qed.

Lemma code_dec_digit z : (0 <= z < 10)%Z -> code (dec_digit z) = (48 + z)%Z.
Proof. intros H. unfold code, dec_digit. rewrite N_ascii_embedding; lia. Qed.

Lemma dec_digit_code c : is_ascii_digit c = true -> dec_digit (code c - 48) = c.
Proof.
  unfold is_ascii_digit, dec_digit, code. intros H.
  rewrite <- (ascii_N_embedding c) at 2. f_equal. lia.
Qed.

Lemma dec_digits_value f n : (0 <= n < 10 ^ Z.of_nat f)%Z -> dec_value (dec_digits f n) = n.
Proof.
  revert n. induction f as [|f IH]; intros n Hn; [unfold dec_value; simpl in *; lia|].
  cbn [dec_digits]. rewrite Nat2Z.inj_succ, Z.pow_succ_r in Hn by lia.
  destruct (Z.ltb_spec n 10).
  - unfold dec_value; simpl. rewrite code_dec_digit; lia.
  - rewrite dec_value_snoc, IH, code_dec_digit by (Z.div_mod_to_equations; lia).
    Z.div_mod_to_equations; lia.
Qed.

Lemma dec_digits_digits f n : (0 <= n)%Z -> Forall (fun c => is_ascii_digit c = true) (dec_digits f n).
Proof.
  revert n. induction f as [|f IH]; intros n Hn; [constructor|]. cbn [dec_digits].
  assert (forall z, (0 <= z < 10)%Z -> is_ascii_digit (dec_digit z) = true) as Hd.
  { intros z Hz. unfold is_ascii_digit. rewrite code_dec_digit by done. lia. }
  destruct (Z.ltb_spec n 10); [repeat constructor; apply Hd; lia|].
  apply Forall_app. split; [apply IH; Z.div_mod_to_equations; lia|].
  repeat constructor. apply Hd. Z.div_mod_to_equations; lia.
Qed.

(** Canonical decimal text: digits, and no leading zero before another digit. *)
Definition canonical_decimal (l : list ascii) : Prop :=
  l <> [] /\ Forall (fun c => is_ascii_digit c = true) l /\
  (1 < length l -> head l <> Some "0"%char).

Lemma dec_value_nonneg l : Forall (fun c => is_ascii_digit c = true) l -> (0 <= dec_value l)%Z.
Proof.
  induction l as [|c l IH] using rev_ind; [done|]. rewrite Forall_app, Forall_singleton.
  intros [Hl Hc]. rewrite dec_value_snoc. unfold is_ascii_digit in Hc. specialize (IH Hl). lia.
Qed.

Lemma head_snoc {A} (l : list A) x : l <> [] -> head (l ++ [x]) = head l.
Proof. by destruct l. Qed.

Lemma dec_value_lower l :
  Forall (fun c => is_ascii_digit c = true) l -> l <> [] -> head l <> Some "0"%char ->
  (10 ^ (Z.of_nat (length l) - 1) <= dec_value l)%Z.
Proof.
  induction l as [|c l IH] using rev_ind; [done|]. rewrite Forall_app, Forall_singleton.
  intros [Hl Hc] _ Hz. rewrite dec_value_snoc, length_app. cbn [length].
  destruct (decide (l = [])) as [->|Hne].
  - simpl in *. unfold dec_value; simpl. assert (code c <> 48)%Z.
    { intros Hc48. apply Hz. f_equal. rewrite <- (dec_digit_code c Hc), Hc48. done. }
    unfold is_ascii_digit in Hc. lia.
  - rewrite head_snoc in Hz by done. specialize (IH Hl Hne Hz).
    unfold is_ascii_digit in Hc.
    replace (Z.of_nat (length l + 1) - 1)%Z with (Z.succ (Z.of_nat (length l) - 1)) by lia.
    assert (0 < length l) by (destruct l; [done | simpl; lia]).
    rewrite Z.pow_succ_r by lia. lia.
Qed.

Lemma dec_digits_of_value f l :
  canonical_decimal l -> length l <= f -> dec_digits f (dec_value l) = l.
Proof.
  revert l. induction f as [|f IH]; intros l (Hne & Hd & Hz) Hf.
  { destruct l; [done | simpl in Hf; lia]. }
  destruct l as [|c l _] using rev_ind; [done|]. clear Hne.
  rewrite length_app in Hf, Hz. simpl in Hf, Hz.
  apply Forall_app in Hd as [Hl Hc]. rewrite Forall_singleton in Hc.
  pose proof (dec_value_nonneg l Hl). pose proof Hc as Hc'. unfold is_ascii_digit in Hc'.
  cbn [dec_digits]. rewrite dec_value_snoc.
  destruct (decide (l = [])) as [->|Hne].
  - change (dec_value []) with 0%Z. rewrite Z.mul_0_l, Z.add_0_l.
    destruct (Z.ltb_spec (code c - 48) 10); [|lia].
    by rewrite dec_digit_code.
  - assert (0 < length l) by (destruct l; [done | simpl; lia]).
    rewrite head_snoc in Hz by done.
    pose proof (dec_value_lower l Hl Hne (Hz ltac:(lia))) as Hlow.
    assert (0 < 10 ^ (Z.of_nat (length l) - 1))%Z by (apply Z.pow_pos_nonneg; lia).
    destruct (Z.ltb_spec (dec_value l * 10 + (code c - 48)) 10); [lia|].
    replace ((dec_value l * 10 + (code c - 48)) / 10)%Z with (dec_value l)
      by (Z.div_mod_to_equations; lia).
    replace ((dec_value l * 10 + (code c - 48)) mod 10)%Z with (code c - 48)%Z
      by (Z.div_mod_to_equations; lia).
    rewrite dec_digit_code by done. f_equal. apply IH; [|lia].
    unfold canonical_decimal; split_all; [done | done |]. intros _. apply Hz. lia.
Qed.

Lemma canonical_decimal_length l :
  canonical_decimal l -> (dec_value l <= U64_MAX)%Z -> length l <= U64_DIGITS.
Proof.
  intros (Hne & Hd & Hz) Hmax. destruct (decide (length l <= 1)); [unfold U64_DIGITS; lia|].
  pose proof (dec_value_lower l Hd Hne (Hz ltac:(lia))) as Hlow.
  destruct (decide (length l <= U64_DIGITS)) as [|Hgt]; [done|]. unfold U64_DIGITS in Hgt.
  assert (10 ^ 20 <= 10 ^ (Z.of_nat (length l) - 1))%Z by (apply Z.pow_le_mono_r; lia).
  unfold U64_MAX in Hmax. lia.
Qed.

Lemma dec_digits_nonempty f n : dec_digits (S f) n <> [].
Proof. cbn [dec_digits]. destruct (n <? 10)%Z; [done|]. by destruct (dec_digits f (n / 10)). Qed.

Lemma dec_digits_head f n :
  (0 < n < 10 ^ Z.of_nat f)%Z -> head (dec_digits f n) <> Some "0"%char.
Proof.
  revert n. induction f as [|f IH]; intros n Hn; [done|]. cbn [dec_digits].
  rewrite Nat2Z.inj_succ, Z.pow_succ_r in Hn by lia. destruct (Z.ltb_spec n 10).
  - simpl. intros [= Hc]. apply (f_equal code) in Hc. rewrite code_dec_digit in Hc by lia.
    change (code "0"%char) with 48%Z in Hc. lia.
  - assert (0 < n / 10 < 10 ^ Z.of_nat f)%Z as Hq by (Z.div_mod_to_equations; lia).
    destruct f as [|f]; [simpl in Hq; lia|].
    rewrite head_snoc by apply dec_digits_nonempty. by apply IH.
Qed.

Lemma dec_digits_canonical f n :
  (0 <= n < 10 ^ Z.of_nat f)%Z -> f <> 0 -> canonical_decimal (dec_digits f n).
Proof.
  intros Hn Hf. destruct f as [|f]; [done|]. unfold canonical_decimal.
  split_all; [apply dec_digits_nonempty | apply dec_digits_digits; lia |].
  intros Hl. apply dec_digits_head. split; [|lia].
  destruct (decide (n = 0)%Z) as [->|]; [simpl in Hl; lia | lia].
Qed.
