(* ===== verification/Wire.v ===== *)
(** * The serialization boundary

    What AG-ng takes from crates outside the repository: SHA-256 ([sha2]),
    hexadecimal text ([hex]), the JCS encoder ([serde_jcs]) and the JSON
    reader ([serde_json]).  They are the fields of the class [Deps]; the
    documented behaviour the code relies on is stated by the classes
    [Sha256Laws], [HexLaws] and [JcsLaws], and [Fixture.v] gives concrete
    functions that satisfy all of them.

    What the repository itself writes is modelled: [Value] is the tree a
    [Serialize] implementation produces, and [strict_value] is the strict
    visitor of [ag-primitives/src/digest.rs]. *)

From S2P Require Import Prelude.

Local Set Warnings "-register-all".

(** ** Serialized values

    The tree a [Serialize] implementation hands to an encoder: integers only
    (no type of the modelled schemas has a float), object fields in the order
    they are written. *)
Inductive Value : Type :=
  | VNull
  | VBool (b : bool)
  | VNumber (z : Z)
  | VString (s : string)
  | VArray (l : list Value)
  | VObject (l : list (string * Value)).

(** Induction that reaches inside arrays and objects. *)
Lemma Value_nested_ind (P : Value -> Prop) :
  P VNull -> (forall b, P (VBool b)) -> (forall z, P (VNumber z)) -> (forall s, P (VString s)) ->
  (forall l, Forall P l -> P (VArray l)) ->
  (forall l, Forall (fun kv => P kv.2) l -> P (VObject l)) ->
  forall v, P v.
Proof.
  intros Hnull Hbool Hnum Hstr Harr Hobj. fix IH 1. intros [|b|z|s|l|l];
    [exact Hnull | apply Hbool | apply Hnum | apply Hstr | apply Harr | apply Hobj].
  - induction l as [|x l IHl]; constructor; [apply IH | exact IHl].
  - induction l as [|[k x] l IHl]; constructor; [apply IH | exact IHl].
Qed.

(** [T: Serialize]: the tree [T]'s (derived) serializer writes. *)
Class Serialize (T : Type) := to_value : T -> Value.

(** Canonical order: every object's members sorted by key, as RFC 8785 asks. *)
Fixpoint canon (v : Value) : Value :=
  match v with
  | VArray l => VArray (map canon l)
  | VObject l => VObject (btree_of (map (fun kv => match kv with (k, x) => (k, canon x) end) l))
  | _ => v
  end.

(** Equality of values up to the order of object members. *)
Definition value_equiv (v w : Value) : Prop := canon v = canon w.

#[global] Instance value_equiv_equivalence : Equivalence value_equiv.
Proof.
  unfold value_equiv. split; [by intros ? | by intros ?? -> | by intros ??? -> ->].
Qed.

(** A serializer that distinguishes any two values of its type, whatever the
    order of members. *)
Class SerializeInj (T : Type) `{Serialize T} :=
  to_value_inj : forall x y : T, value_equiv (to_value x) (to_value y) -> x = y.

(** RFC 7493 (I-JSON), the data JCS is defined on: integers that a double
    represents exactly, member names without duplicates.  Member names are
    ASCII besides, where the byte order of [BTreeMap] and the UTF-16 order of
    RFC 8785 agree; so are those of every schema of the repository. *)
Definition JSON_SAFE_MAX : Z := 9007199254740991.

Fixpoint ijson (v : Value) : bool :=
  match v with
  | VNumber z => (Z.abs z <=? JSON_SAFE_MAX)%Z
  | VArray l => forallb ijson l
  | VObject l => forallb (fun kv => match kv with (k, x) => str_all is_ascii k && ijson x end) l
                 && bool_decide (NoDup (map fst l))
  | _ => true
  end.

(** ** What the JSON reader delivers

    The calls [serde_json]'s [deserialize_any] makes on a visitor: a reader
    that fails part way has already delivered the elements before the failure,
    so each sequence and map carries the failure that ended it, if any. *)
Inductive Json : Type :=
  | JUnit
  | JBool (b : bool)
  | JI64 (z : Z)
  | JU64 (z : Z)
  | JF64
  | JStr (s : string)
  | JSeq (elements : list Json) (failure : option string)
  | JMap (entries : list (string * Json)) (failure : option string)
  | JFail (message : string).

(** [serde_json::Error]: raised by the reader, or by a visitor
    ([de::Error::custom]). *)
Inductive JsonError : Type :=
  | JsonReader (message : string)
  | JsonCustom (message : string).

#[global] Instance JsonError_eq_dec : EqDecision JsonError.
Proof. solve_decision. Defined.

(** How a value reads back: integers arrive as [u64] when they are not
    negative, as [i64] otherwise. *)
Fixpoint events_of (v : Value) : Json :=
  match v with
  | VNull => JUnit
  | VBool b => JBool b
  | VNumber z => if (z <? 0)%Z then JI64 z else JU64 z
  | VString s => JStr s
  | VArray l => JSeq (map events_of l) None
  | VObject l => JMap (map (fun kv => match kv with (k, x) => (k, events_of x) end) l) None
  end.

(** ** The crates outside the repository *)

Class Deps := {
  (** [sha2::Sha256::digest]. *)
  sha256 : bytes -> bytes;
  (** [hex::encode]. *)
  hex_encode : bytes -> string;
  (** [hex::decode_to_slice] into a slice of the given length. *)
  hex_decode_to_slice : string -> nat -> option bytes;
  (** [serde_jcs::to_vec]: the encoding, or the error it reports. *)
  jcs_to_vec : Value -> string + bytes;
  (** [serde_json::Deserializer::from_slice] driven by a visitor, and the
      failure of [Deserializer::end], if any. *)
  json_events : bytes -> Json * option string
}.

(** [matches!(c, '0'..='9' | 'a'..='f')]. *)
Definition is_hex_lower (c : ascii) : bool :=
  is_ascii_digit c || ((97 <=? code c)%Z && (code c <=? 102)%Z).

(** SHA-256 digests have 32 bytes. *)
Class Sha256Laws `{Deps} :=
  sha256_length : forall b, length (sha256 b) = 32.

(** [hex::encode] writes two lowercase digits per byte, [hex::decode_to_slice]
    reads back what it wrote, and lowercase text of the right length is
    something it wrote. *)
Class HexLaws `{Deps} := {
  hex_encode_length : forall b, String.length (hex_encode b) = 2 * length b;
  hex_encode_lower : forall b, str_all is_hex_lower (hex_encode b) = true;
  hex_decode_encode : forall b, hex_decode_to_slice (hex_encode b) (length b) = Some b;
  hex_encode_decode : forall s n,
    str_all is_hex_lower s = true -> String.length s = 2 * n ->
    exists b, hex_decode_to_slice s n = Some b /\ hex_encode b = s /\ length b = n
}.

(** RFC 8785 on I-JSON data: the encoder succeeds, it ignores the order of
    members, and its output reads back as the value with members in order. *)
Class JcsLaws `{Deps} := {
  jcs_total : forall v, ijson v = true -> exists b, jcs_to_vec v = inr b;
  jcs_canon : forall v, ijson v = true -> jcs_to_vec (canon v) = jcs_to_vec v;
  jcs_reads_back : forall v b, ijson v = true -> jcs_to_vec v = inr b ->
    json_events b = (events_of (canon v), None)
}.

(** Two byte strings that hash alike. *)
Definition collision `{Deps} (a b : bytes) : Prop := a <> b /\ sha256 a = sha256 b.

(** ** The strict visitor (ag-primitives/src/digest.rs) *)

(** [StrictValueVisitor::visit_seq]: reads elements until the sequence ends. *)
Definition strict_seq (visit : Json -> res JsonError Value) (failure : option string) :=
  fix go (l : list Json) (values : list Value) : res JsonError Value :=
    match l with
    | [] => match failure with
            | Some m => Err (JsonReader m)
            | None => Ok (VArray values)
            end
    | x :: l' => let? v := visit x in go l' (values ++ [v])
    end.

(** [StrictValueVisitor::visit_map]: tests the key against the keys seen
    before it reads the member's value. *)
Definition strict_map (visit : Json -> res JsonError Value) (failure : option string) :=
  fix go (l : list (string * Json)) (keys : list string) (values : list (string * Value))
      : res JsonError Value :=
    match l with
    | [] => match failure with
            | Some m => Err (JsonReader m)
            | None => Ok (VObject values)
            end
    | (k, x) :: l' =>
        if bool_decide (k ∈ keys) then Err (JsonCustom ("duplicate JSON object key " +:+ k))
        else let? v := visit x in go l' (k :: keys) (btree_insert k v values)
    end.

(** [StrictValueVisitor]: refuses floats and duplicate keys, and rebuilds the
    value with its objects as ordered maps. *)
Fixpoint strict_value (j : Json) : res JsonError Value :=
  match j with
  | JUnit => Ok VNull
  | JBool b => Ok (VBool b)
  | JI64 z | JU64 z => Ok (VNumber z)
  | JF64 => Err (JsonCustom "floating-point JSON values are forbidden")
  | JStr s => Ok (VString s)
  | JFail m => Err (JsonReader m)
  | JSeq l failure => strict_seq strict_value failure l []
  | JMap l failure => strict_map strict_value failure l [] []
  end.

(** ** Lemmas *)

(** Every object of the value has its members in key order. *)
Fixpoint ordered (v : Value) : Prop :=
  match v with
  | VArray l => fold_right (fun x acc => ordered x /\ acc) True l
  | VObject l =>
      btree_sorted l /\ fold_right (fun kv acc => match kv with (_, x) => ordered x end /\ acc) True l
  | _ => True
  end.

Lemma ordered_array l : ordered (VArray l) <-> Forall ordered l.
Proof.
  simpl. induction l as [|x l IH]; simpl; [by split|]. rewrite Forall_cons. by apply and_iff_compat_l.
Qed.

Lemma ordered_object l :
  ordered (VObject l) <-> btree_sorted l /\ Forall (fun kv => ordered kv.2) l.
Proof.
  simpl. apply and_iff_compat_l.
  induction l as [|[k x] l IH]; simpl; [by split|]. rewrite Forall_cons. by apply and_iff_compat_l.
Qed.

Lemma btree_insert_values {V} (P : V -> Prop) k v m :
  P v -> Forall (fun kv => P kv.2) m -> Forall (fun kv => P kv.2) (btree_insert k v m).
Proof.
  intros Hv. induction 1 as [|[k' v'] m Hk' Hm IH]; simpl in *; [by constructor|].
  destruct (String.eqb k k'); [by constructor|].
  destruct (str_ltb k k'); by repeat constructor.
Qed.

Lemma btree_of_values {V} (P : V -> Prop) l :
  Forall (fun kv => P kv.2) l -> Forall (fun kv => P kv.2) (btree_of l).
Proof.
  unfold btree_of. cut (forall m, Forall (fun kv => P kv.2) m -> Forall (fun kv => P kv.2) l ->
    Forall (fun kv => P kv.2) (fold_left (fun m kv => btree_insert kv.1 kv.2 m) l m)).
  { intros H. by apply H. }
  induction l as [|[k v] l IH]; intros m Hm Hl; simpl; [done|].
  apply Forall_cons in Hl as [??]. apply IH; [|done]. by apply btree_insert_values.
Qed.

Lemma canon_ordered v : ordered (canon v).
Proof.
  induction v as [| | | |l IH|l IH] using Value_nested_ind; try done.
  - apply ordered_array. simpl. by apply Forall_map.
  - apply ordered_object. split; [apply btree_of_is_sorted|].
    apply btree_of_values, Forall_map. eapply Forall_impl; [exact IH|]. by intros [].
Qed.

Lemma strict_seq_events l acc :
  Forall (fun v => strict_value (events_of v) = Ok v) l ->
  strict_seq strict_value None (map events_of l) acc = Ok (VArray (acc ++ l)).
Proof.
  intros H. revert acc. induction H as [|v l Hv Hl IH]; intros acc; simpl.
  - by rewrite app_nil_r.
  - rewrite Hv. simpl. rewrite IH, <- app_assoc. done.
Qed.

Lemma strict_map_events l acc :
  Forall (fun kv => strict_value (events_of kv.2) = Ok kv.2) l ->
  btree_sorted (acc ++ l) ->
  strict_map strict_value None (map (fun kv => match kv with (k, x) => (k, events_of x) end) l)
    (rev (map fst acc)) acc = Ok (VObject (acc ++ l)).
Proof.
  intros H. revert acc. induction H as [|[k v] l Hv Hl IH]; intros acc Hs; simpl in *.
  - by rewrite app_nil_r.
  - assert (Forall (fun kv => str_ltb kv.1 k = true) acc) as Hlt.
    { clear -Hs. induction acc as [|a acc IHacc]; [done|]. inversion Hs as [|?? Hs' Hf]; subst.
      apply Forall_cons. split; [|by apply IHacc].
      rewrite List.Forall_forall in Hf. apply (Hf (k, v)). apply in_or_app. right. by left. }
    rewrite bool_decide_eq_false_2.
    + rewrite Hv. simpl. rewrite btree_insert_above by done.
      specialize (IH (acc ++ [(k, v)])). rewrite map_app, rev_app_distr in IH. simpl in IH.
      rewrite IH, <- app_assoc; [done|]. by rewrite <- app_assoc.
    + rewrite list_elem_of_In, <- in_rev. intros Hin. apply in_map_iff in Hin as ([k' v'] & <- & Hin).
      rewrite List.Forall_forall in Hlt. apply Hlt in Hin. by rewrite str_ltb_irrefl in Hin.
Qed.

(** The strict visitor returns an ordered value as it was written. *)
Lemma strict_value_events v : ordered v -> strict_value (events_of v) = Ok v.
Proof.
  induction v as [|b|z|s|l IH|l IH] using Value_nested_ind; intros Ho; try done.
  - simpl. by destruct (z <? 0)%Z.
  - apply ordered_array in Ho. simpl. apply strict_seq_events.
    rewrite List.Forall_forall in *. eauto.
  - apply ordered_object in Ho as [Hs Ho]. simpl. apply (strict_map_events l []); [|done].
    rewrite List.Forall_forall in *. intros kv Hin. apply IH; auto.
Qed.

Lemma events_of_inj v w : events_of v = events_of w -> v = w.
Proof.
  revert w. induction v as [|b|z|s|l IH|l IH] using Value_nested_ind;
    intros [| | z'| |l'|l']; simpl; try (intros; congruence).
  all: try (destruct (z <? 0)%Z eqn:?; intros; congruence).
  all: try (destruct (z' <? 0)%Z eqn:?; intros; congruence).
  - destruct (z <? 0)%Z, (z' <? 0)%Z; congruence.
  - intros [= H]. f_equal. revert l' H. induction IH as [|v l Hv Hl IHl]; intros [|w l'] [=]; [done|].
    f_equal; auto.
  - intros [= H]. f_equal. revert l' H.
    induction IH as [|[k v] l Hv Hl IHl]; intros [|[k' w] l'] [=]; [done|]. subst.
    simpl in *. f_equal; [f_equal|]; auto.
Qed.

Lemma canon_injective_encoding `{JcsLaws} v w b :
  ijson v = true -> ijson w = true ->
  jcs_to_vec v = inr b -> jcs_to_vec w = inr b -> value_equiv v w.
Proof.
  intros Hv Hw Hvb Hwb. apply events_of_inj.
  apply jcs_reads_back in Hvb; [|done]. apply jcs_reads_back in Hwb; [|done]. congruence.
Qed.

(** ** Objects up to the order of their members *)

Lemma btree_get_insert {V} k k' (v : V) m :
  btree_sorted m ->
  btree_get k (btree_insert k' v m) = if String.eqb k k' then Some v else btree_get k m.
Proof.
  induction m as [|[j w] m IH]; intros Hs; simpl.
  { by destruct (String.eqb k k'). }
  inversion Hs as [|?? Hs' Hj]; subst. specialize (IH Hs').
  destruct (String.eqb_spec k' j) as [->|Hne]; simpl; [by destruct (String.eqb k j)|].
  destruct (str_ltb k' j) eqn:Hlt; simpl; [done|]. rewrite IH.
  destruct (String.eqb_spec k j) as [->|]; [|done].
  by destruct (String.eqb_spec j k') as [->|].
Qed.

Lemma btree_get_of_acc {V} k (l acc : list (string * V)) :
  btree_sorted acc ->
  k ∉ map fst l ->
  btree_get k (fold_left (fun m kv => btree_insert kv.1 kv.2 m) l acc) = btree_get k acc.
Proof.
  revert acc. induction l as [|[j w] l IH]; intros acc Hs Hk; simpl in *; [done|].
  apply not_elem_of_cons in Hk as [Hkj Hk].
  rewrite IH; [|by apply btree_insert_sorted|done]. rewrite btree_get_insert by done.
  by destruct (String.eqb_spec k j).
Qed.

(** A member of an object without duplicate names is found in the ordered
    object. *)
Lemma btree_get_of {V} k (v : V) l :
  NoDup (map fst l) -> (k, v) ∈ l -> btree_get k (btree_of l) = Some v.
Proof.
  unfold btree_of. assert (btree_sorted ([] : list (string * V))) as Hs by constructor.
  revert Hs. generalize ([] : list (string * V)) as acc.
  induction l as [|[j w] l IH]; intros acc Hs Hnd Hin; simpl in *; [by apply elem_of_nil in Hin|].
  apply NoDup_cons in Hnd as [Hj Hnd]. apply elem_of_cons in Hin as [[= -> ->]|Hin].
  - rewrite btree_get_of_acc; [|by apply btree_insert_sorted|done].
    rewrite btree_get_insert by done. by rewrite String.eqb_refl.
  - apply IH; [by apply btree_insert_sorted|done|done].
Qed.

(** Equivalent objects have equivalent members under the same name. *)
Lemma object_equiv_member k v w l l' :
  NoDup (map fst l) -> NoDup (map fst l') -> (k, v) ∈ l -> (k, w) ∈ l' ->
  value_equiv (VObject l) (VObject l') -> value_equiv v w.
Proof.
  unfold value_equiv. intros Hl Hl' Hv Hw [= He].
  set (f := fun kv : string * Value => match kv with (k, x) => (k, canon x) end) in He.
  assert (forall l, map fst (map f l) = map fst l) as Hf.
  { intros m. rewrite map_map. apply map_ext. by intros []. }
  assert (forall m x, (k, x) ∈ m -> (k, canon x) ∈ map f m) as Hm.
  { intros m x Hx. apply list_elem_of_In, in_map_iff. exists (k, x).
    split; [done | by apply list_elem_of_In]. }
  pose proof (btree_get_of k (canon v) (map f l)) as H1.
  pose proof (btree_get_of k (canon w) (map f l')) as H2.
  rewrite He in H1. rewrite Hf in H1, H2.
  specialize (H1 Hl (Hm _ _ Hv)). specialize (H2 Hl' (Hm _ _ Hw)). congruence.
Qed.

Lemma array_equiv l l' : value_equiv (VArray l) (VArray l') <-> Forall2 value_equiv l l'.
Proof.
  unfold value_equiv. simpl. split.
  - intros [= H]. revert l' H. induction l as [|x l IH]; intros [|y l'] [=]; constructor; auto.
  - intros H. f_equal. induction H; simpl; congruence.
Qed.

Lemma string_equiv s t : value_equiv (VString s) (VString t) -> s = t.
Proof. by intros [=]. Qed.

(** A sequence of serialized elements determines them. *)
Lemma array_inj `{SerializeInj T} (l l' : list T) :
  value_equiv (VArray (map to_value l)) (VArray (map to_value l')) -> l = l'.
Proof.
  intros He%array_equiv. revert l' He. induction l as [|x l IH]; intros [|y l'] He;
    inversion He; subst; [done|]. f_equal; [by apply to_value_inj | by apply IH].
Qed.

(** [ser_member H k] reads the member [k] off an equivalence of objects with
    concrete member names. *)
Ltac ser_nodup := apply (bool_decide_unpack _); vm_compute; exact I.
Ltac ser_member H k :=
  let E := fresh "E" in
  eassert (E : value_equiv _ _) by
    (eapply (object_equiv_member k); [ | | | | exact H];
     [ser_nodup | ser_nodup
     | repeat (apply list_elem_of_here || apply list_elem_of_further)
     | repeat (apply list_elem_of_here || apply list_elem_of_further)]).

#[global] Instance Z_serialize : Serialize Z := VNumber.
#[global] Instance Z_serialize_inj : SerializeInj Z.
Proof. by intros x y [=]. Qed.
#[global] Instance bool_serialize : Serialize bool := VBool.
#[global] Instance bool_serialize_inj : SerializeInj bool.
Proof. by intros x y [=]. Qed.
#[global] Instance string_serialize : Serialize string := VString.
#[global] Instance string_serialize_inj : SerializeInj string.
Proof. by intros x y [=]. Qed.
#[global] Instance list_serialize `{Serialize T} : Serialize (list T) := fun l => VArray (map to_value l).
#[global] Instance list_serialize_inj `{SerializeInj T} : SerializeInj (list T).
Proof. intros l l'. apply array_inj. Qed.
(** [Option]: [null] or the content. *)
#[global] Instance option_serialize `{Serialize T} : Serialize (option T) :=
  fun o => match o with Some x => to_value x | None => VNull end.

(** A type whose values never serialize to [null]. *)
Class SerializeNonNull (T : Type) `{Serialize T} :=
  to_value_not_null : forall x : T, canon (to_value x) <> VNull.

#[global] Instance option_serialize_inj `{SerializeInj T, !SerializeNonNull T} :
  SerializeInj (option T).
Proof.
  intros [x|] [y|] Hv; [f_equal; by apply to_value_inj | | | done]; unfold value_equiv in Hv.
  - by destruct (to_value_not_null x).
  - symmetry in Hv. by destruct (to_value_not_null y).
Qed.

(** [ser_struct]: a struct serialized as an object of its fields is determined
    by it, when the fields' serializers are injective. *)
Ltac ser_members H l :=
  lazymatch l with
  | (?k, _) :: ?l' => ser_member H k; ser_members H l'
  | _ => idtac
  end.
Ltac ser_fields H :=
  lazymatch type of H with
  | value_equiv ?a ?b =>
      let a' := eval hnf in a in
      let b' := eval hnf in b in
      change (value_equiv a' b') in H;
      lazymatch a' with VObject ?l => ser_members H l end
  end;
  clear H;
  repeat match goal with
  | E : value_equiv (to_value _) (to_value _) |- _ => apply to_value_inj in E; simpl in E
  end;
  subst.
Ltac ser_struct :=
  let H := fresh in
  intros [] [] H; ser_fields H; reflexivity.

(** Unit variants serialize as their names. *)
Ltac ser_unit_enum := intros [] []; first [done | by intros [=]].

(** ** I-JSON data *)

(** Times that JSON carries exactly. *)
Definition json_time (z : Z) : Prop := (0 <= z <= JSON_SAFE_MAX)%Z.

Lemma json_time_abs z : json_time z -> (Z.abs z <=? JSON_SAFE_MAX)%Z = true.
Proof. unfold json_time. intros Hz. apply Z.leb_le. lia. Qed.

Lemma ijson_object l :
  Forall (fun kv => str_all is_ascii kv.1 = true /\ ijson kv.2 = true) l -> NoDup (map fst l) ->
  ijson (VObject l) = true.
Proof.
  intros Hl Hn. cbn [ijson]. rewrite (bool_decide_eq_true_2 _ Hn), andb_true_r. apply forallb_forall.
  rewrite List.Forall_forall in Hl. intros [k v] Hin. apply Hl in Hin as [Hk Hv]. simpl in *. by rewrite Hk, Hv.
Qed.

(** A member of I-JSON data is I-JSON data. *)
Lemma ijson_member k v l : ijson (VObject l) = true -> (k, v) ∈ l -> ijson v = true.
Proof.
  cbn [ijson]. intros [Hl _]%andb_true_iff Hin. rewrite forallb_forall in Hl.
  apply list_elem_of_In in Hin. specialize (Hl _ Hin). by apply andb_true_iff in Hl as [_ Hl].
Qed.

(** [ijson_struct]: a struct of texts and exact integers is I-JSON data. *)
Ltac ijson_struct :=
  match goal with |- ijson ?v = true => let v' := eval hnf in v in change (ijson v' = true) end;
  apply ijson_object;
  [repeat (apply Forall_cons; split; [split; [vm_compute; reflexivity | cbn [fst snd]]|]);
     try apply Forall_nil_2;
     first [reflexivity | by apply json_time_abs | by assumption | idtac]
  | ser_nodup].
