(* ===== verification/Fixture.v ===== *)
(** * Concrete dependencies

    Executable functions for the crates outside the repository, with proofs
    that they satisfy the laws of [Wire.v].  They are not the crates' own
    algorithms: they show that the laws can hold together, and the concrete
    witnesses of the development evaluate with them. *)

From S2P Require Import Prelude Wire.

(** ** Hexadecimal text *)

Definition hex_digit (z : Z) : ascii :=
  ascii_of_N (Z.to_N (if (z <? 10)%Z then 48 + z else 87 + z)).
Definition hex_value (c : ascii) : option Z :=
  if is_ascii_digit c then Some (code c - 48)%Z
  else if (97 <=? code c)%Z && (code c <=? 102)%Z then Some (code c - 87)%Z else None.

Fixpoint toy_hex_encode (b : bytes) : string :=
  match b with
  | [] => ""
  | x :: b' => String (hex_digit (byte_val x / 16))
                 (String (hex_digit (byte_val x mod 16)) (toy_hex_encode b'))
  end.

Fixpoint toy_hex_decode (s : string) : option bytes :=
  match s with
  | EmptyString => Some []
  | String c (String d s') =>
      h ← hex_value c; l ← hex_value d; b ← toy_hex_decode s';
      Some (byte_of (h * 16 + l) :: b)
  | String _ EmptyString => None
  end.

Definition toy_hex_decode_to_slice (s : string) (n : nat) : option bytes :=
  b ← toy_hex_decode s; if decide (length b = n) then Some b else None.

(** ** A short checksum in the place of SHA-256 *)

(** Two running sums, in the last eight of the 32 bytes. *)
Fixpoint toy_sums (b : bytes) (first second : Z) : Z :=
  match b with
  | [] => second * 65536 + first
  | x :: b' => let first := (first + byte_val x + 1)%Z in toy_sums b' first (second + first)
  end.
Definition toy_sha256 (b : bytes) : bytes := replicate 24 Byte.x00 ++ be_bytes 8 (toy_sums b 0 0).

(** ** A self-delimiting encoder of values

    A tag byte per constructor; texts, digits and elements each announced by
    [x01], their end by [x00]. *)

Fixpoint enc_str (s : string) : bytes :=
  match s with
  | EmptyString => [Byte.x00]
  | String c s' => Byte.x01 :: byte_of_ascii c :: enc_str s'
  end.

Fixpoint dec_str (b : bytes) : option (string * bytes) :=
  match b with
  | Byte.x00 :: r => Some (EmptyString, r)
  | Byte.x01 :: c :: r => '(s, r') ← dec_str r; Some (String (ascii_of_byte c) s, r')
  | _ => None
  end.

Fixpoint enc_pos (p : positive) : bytes :=
  match p with
  | xH => [Byte.x00]
  | xO p' => Byte.x01 :: enc_pos p'
  | xI p' => Byte.x02 :: enc_pos p'
  end.

Fixpoint dec_pos (b : bytes) : option (positive * bytes) :=
  match b with
  | Byte.x00 :: r => Some (xH, r)
  | Byte.x01 :: r => '(p, r') ← dec_pos r; Some (xO p, r')
  | Byte.x02 :: r => '(p, r') ← dec_pos r; Some (xI p, r')
  | _ => None
  end.

Fixpoint enc (v : Value) : bytes :=
  match v with
  | VNull => [Byte.x00]
  | VBool false => [Byte.x01]
  | VBool true => [Byte.x02]
  | VNumber Z0 => [Byte.x03]
  | VNumber (Zpos p) => Byte.x04 :: enc_pos p
  | VNumber (Zneg p) => Byte.x05 :: enc_pos p
  | VString s => Byte.x06 :: enc_str s
  | VArray l => Byte.x07 :: concat (map (fun x => Byte.x01 :: enc x) l) ++ [Byte.x00]
  | VObject l =>
      Byte.x08 ::
      concat (map (fun kv => match kv with (k, x) => Byte.x01 :: enc_str k ++ enc x end) l)
      ++ [Byte.x00]
  end.

Fixpoint dec (fuel : nat) (b : bytes) : option (Value * bytes) :=
  match fuel with
  | O => None
  | S f =>
      match b with
      | Byte.x00 :: r => Some (VNull, r)
      | Byte.x01 :: r => Some (VBool false, r)
      | Byte.x02 :: r => Some (VBool true, r)
      | Byte.x03 :: r => Some (VNumber 0, r)
      | Byte.x04 :: r => '(p, r') ← dec_pos r; Some (VNumber (Zpos p), r')
      | Byte.x05 :: r => '(p, r') ← dec_pos r; Some (VNumber (Zneg p), r')
      | Byte.x06 :: r => '(s, r') ← dec_str r; Some (VString s, r')
      | Byte.x07 :: r => '(l, r') ← dec_seq f r; Some (VArray l, r')
      | Byte.x08 :: r => '(l, r') ← dec_map f r; Some (VObject l, r')
      | _ => None
      end
  end
with dec_seq (fuel : nat) (b : bytes) : option (list Value * bytes) :=
  match fuel with
  | O => None
  | S f =>
      match b with
      | Byte.x00 :: r => Some ([], r)
      | Byte.x01 :: r => '(v, r1) ← dec f r; '(l, r2) ← dec_seq f r1; Some (v :: l, r2)
      | _ => None
      end
  end
with dec_map (fuel : nat) (b : bytes) : option (list (string * Value) * bytes) :=
  match fuel with
  | O => None
  | S f =>
      match b with
      | Byte.x00 :: r => Some ([], r)
      | Byte.x01 :: r =>
          '(k, r0) ← dec_str r; '(v, r1) ← dec f r0; '(l, r2) ← dec_map f r1; Some ((k, v) :: l, r2)
      | _ => None
      end
  end.

Lemma dec_enc_str s r : dec_str (enc_str s ++ r) = Some (s, r).
Proof.
  induction s as [|c s IH]; [done|]. cbn. rewrite IH. cbn. by rewrite ascii_of_byte_of_ascii.
Qed.

Lemma dec_enc_pos p r : dec_pos (enc_pos p ++ r) = Some (p, r).
Proof. induction p as [p IH|p IH|]; [| |done]; cbn; by rewrite IH. Qed.

Lemma dec_enc v : forall f r, length (enc v) <= f -> dec f (enc v ++ r) = Some (v, r).
Proof.
  induction v as [|[]|[|p|p]|s|l IH|l IH] using Value_nested_ind; intros [|f] r Hf;
    try (simpl in Hf; lia); try done.
  - cbn. by rewrite dec_enc_pos.
  - cbn. by rewrite dec_enc_pos.
  - cbn. by rewrite dec_enc_str.
  - cut (dec_seq f (concat (map (fun x => Byte.x01 :: enc x) l) ++ [Byte.x00] ++ r) = Some (l, r)).
    { intros Hl. cbn. rewrite <- app_assoc. by rewrite Hl. }
    cbn in Hf. rewrite length_app in Hf. simpl in Hf. clear -IH Hf. revert f Hf.
    induction IH as [|v l Hv Hl IHl]; intros [|f] Hf; cbn in Hf; try lia; [done|].
    rewrite length_app in Hf. cbn. rewrite <- app_assoc, Hv by lia. cbn. rewrite IHl by lia. done.
  - set (g := fun kv : string * Value => match kv with (k, x) => Byte.x01 :: enc_str k ++ enc x end).
    cut (dec_map f (concat (map g l) ++ [Byte.x00] ++ r) = Some (l, r)).
    { intros Hl. cbn. fold g. rewrite <- app_assoc. by rewrite Hl. }
    cbn in Hf. rewrite length_app in Hf. simpl in Hf. fold g in Hf. clear -IH Hf. revert f Hf.
    induction IH as [|[k v] l Hv Hl IHl]; intros [|f] Hf; cbn in Hf; try lia; [done|].
    rewrite !length_app in Hf. cbn in *. rewrite <- !app_assoc, dec_enc_str. cbn.
    rewrite Hv by lia. cbn. rewrite IHl by lia. done.
Qed.

Definition toy_jcs (v : Value) : string + bytes := inr (enc (canon v)).
Definition toy_events (b : bytes) : Json * option string :=
  match dec (length b) b with
  | Some (v, []) => (events_of v, None)
  | _ => (JFail "syntax", None)
  end.

#[global] Instance toy_deps : Deps := {|
  sha256 := toy_sha256;
  hex_encode := toy_hex_encode;
  hex_decode_to_slice := toy_hex_decode_to_slice;
  jcs_to_vec := toy_jcs;
  json_events := toy_events
|}.

(** ** The laws *)

Lemma toy_sha256_length b : length (toy_sha256 b) = 32.
Proof. unfold toy_sha256. by rewrite length_app, length_replicate, length_be_bytes. Qed.
#[global] Instance toy_sha256_laws : Sha256Laws.
Proof. intros b. apply toy_sha256_length. Qed.

Lemma hex_digit_code z : (0 <= z < 16)%Z -> code (hex_digit z) = if (z <? 10)%Z then (48 + z)%Z else (87 + z)%Z.
Proof.
  intros H. unfold code, hex_digit. rewrite N_ascii_embedding; destruct (Z.ltb_spec z 10); lia.
Qed.

Lemma hex_value_digit z : (0 <= z < 16)%Z -> hex_value (hex_digit z) = Some z.
Proof.
  intros H. unfold hex_value, is_ascii_digit. rewrite hex_digit_code by done.
  destruct (Z.ltb_spec z 10); repeat (case_match || f_equal); lia.
Qed.

Lemma hex_digit_lower z : (0 <= z < 16)%Z -> is_hex_lower (hex_digit z) = true.
Proof.
  intros H. unfold is_hex_lower, is_ascii_digit. rewrite hex_digit_code by done.
  destruct (Z.ltb_spec z 10); lia.
Qed.

Lemma hex_lower_value c :
  is_hex_lower c = true -> exists z, hex_value c = Some z /\ (0 <= z < 16)%Z /\ hex_digit z = c.
Proof.
  unfold is_hex_lower, hex_value. intros H.
  assert (forall z, (0 <= z < 16)%Z -> code c = (if (z <? 10)%Z then 48 + z else 87 + z)%Z ->
    hex_digit z = c) as Hback.
  { intros z Hz Hc. rewrite <- (ascii_N_embedding c). unfold hex_digit. f_equal.
    unfold code in Hc. destruct (z <? 10)%Z; lia. }
  unfold is_ascii_digit in *.
  destruct ((48 <=? code c)%Z && (code c <=? 57)%Z) eqn:E.
  - eexists. split; [done|]. split; [lia|]. apply Hback; [lia|]. case_match; lia.
  - simpl in H. rewrite H. eexists. split; [done|]. split; [lia|]. apply Hback; [lia|]. case_match; lia.
Qed.

Lemma toy_hex_decode_encode b : toy_hex_decode (toy_hex_encode b) = Some b.
Proof.
  induction b as [|x b IH]; [done|]. cbn [toy_hex_encode toy_hex_decode].
  pose proof (byte_val_range x).
  rewrite !hex_value_digit by (Z.div_mod_to_equations; lia). simpl. rewrite IH. simpl.
  do 2 f_equal. rewrite <- (byte_of_val x) at 3. f_equal. Z.div_mod_to_equations; lia.
Qed.

Lemma toy_hex_encode_length b : String.length (toy_hex_encode b) = 2 * length b.
Proof. induction b; simpl; lia. Qed.

Lemma toy_hex_encode_decode n s :
  str_all is_hex_lower s = true -> String.length s = 2 * n ->
  exists b, toy_hex_decode s = Some b /\ toy_hex_encode b = s /\ length b = n.
Proof.
  revert s. induction n as [|n IH]; intros s Hs Hlen.
  - destruct s; simpl in *; [|lia]. by exists [].
  - destruct s as [|c [|d s]]; simpl in Hlen; try lia.
    unfold str_all in Hs. simpl in Hs. res_inv.
    destruct (hex_lower_value c) as (h & Hh & Hrh & Hc); [done|].
    destruct (hex_lower_value d) as (l & Hl & Hrl & Hd); [done|].
    destruct (IH s) as (b & Hb & Heb & Hlb); [done | lia |].
    exists (byte_of (h * 16 + l) :: b). simpl. rewrite Hh, Hl, Hb. simpl.
    rewrite Heb, byte_val_of, Z.mod_small by lia.
    split; [done|]. split; [|congruence].
    rewrite <- Hc, <- Hd. repeat f_equal; Z.div_mod_to_equations; lia.
Qed.

#[global] Instance toy_hex_laws : HexLaws.
Proof.
  split; simpl; unfold toy_hex_decode_to_slice.
  - apply toy_hex_encode_length.
  - intros b. unfold str_all. induction b as [|x b IH]; [done|]. simpl.
    pose proof (byte_val_range x).
    rewrite !hex_digit_lower by (Z.div_mod_to_equations; lia). done.
  - intros b. rewrite toy_hex_decode_encode. simpl. by rewrite decide_True.
  - intros s n Hs Hn. destruct (toy_hex_encode_decode n s Hs Hn) as (b & Hb & He & Hl).
    exists b. rewrite Hb. simpl. by rewrite decide_True.
Qed.

Lemma canon_of_ordered v : ordered v -> canon v = v.
Proof.
  induction v as [|b|z|s|l IH|l IH] using Value_nested_ind; intros Ho; try done.
  - apply ordered_array in Ho. simpl. f_equal.
    induction IH; simpl; [done|]. apply Forall_cons in Ho as [??]. f_equal; auto.
  - apply ordered_object in Ho as [Hs Ho]. simpl. f_equal. rewrite <- (btree_of_sorted l Hs) at 2.
    f_equal. clear Hs. induction IH as [|[k x] l Hx Hl IHl]; simpl in *; [done|].
    apply Forall_cons in Ho as [??]. simpl in *. rewrite Hx, IHl; done.
Qed.

#[global] Instance toy_jcs_laws : JcsLaws.
Proof.
  split; simpl; unfold toy_jcs, toy_events.
  - eauto.
  - intros v _. by rewrite (canon_of_ordered (canon v)) by apply canon_ordered.
  - intros v b _ [= <-]. pose proof (dec_enc (canon v) (length (enc (canon v))) []) as Hd.
    rewrite app_nil_r in Hd. by rewrite Hd.
Qed.
