(* ===== verification/Digest.v ===== *)
(** * Digests and canonical documents (ag-primitives/src/digest.rs)

    [Digest] is the algorithm-qualified SHA-256 text, [JcsDocument] the bytes
    of a canonical document.  The lemmas show that the parser accepts exactly
    the canonical texts, that every digest the code computes parses back and
    has 32 raw bytes, that the domain-separated preimage is unambiguous, and
    that canonicalization is stable under re-reading. *)

From S2P Require Import Prelude Wire Fixture.

Definition SHA256_PREFIX : string := "sha256:".
Arguments SHA256_PREFIX : simpl never.
Definition SHA256_HEX_LENGTH : nat := 64.
Definition SHA256_TEXT_LENGTH : nat := String.length SHA256_PREFIX + SHA256_HEX_LENGTH.

(** [struct Digest(String)]. *)
Record Digest : Type := mkDigest { digest_str : string }.

#[global] Instance Digest_eq_dec : EqDecision Digest.
Proof. solve_decision. Defined.
Lemma digest_str_inj d d' : digest_str d = digest_str d' -> d = d'.
Proof. destruct d, d'. simpl. by intros ->. Qed.
#[global] Instance Digest_countable : Countable Digest.
Proof. refine (inj_countable' digest_str mkDigest _). by intros []. Defined.
#[global] Instance Digest_serialize : Serialize Digest := fun d => VString (digest_str d).
#[global] Instance Digest_serialize_inj : SerializeInj Digest.
Proof. by intros [s] [t] [= ->]. Qed.
#[global] Instance Digest_nonnull : SerializeNonNull Digest.
Proof. done. Qed.

Inductive DigestParseError : Type :=
  | DigestLength (actual : nat)
  | DigestAlgorithm
  | DigestHex (index : nat) (character : string)
  | DigestInternalHexInvariant.

(** [struct JcsDocument(Vec<u8>)]. *)
Record JcsDocument : Type := mkJcsDocument { jcs_bytes : bytes }.

(** [enum JcsError], without the variant of the typed decoder. *)
Inductive JcsError : Type :=
  | JcsParse (e : JsonError)
  | JcsSerialization (message : string)
  | JcsNotCanonical.

Section WithDeps.
  Context `{Deps}.

(** [Digest::hash_bytes]. *)
Definition hash_bytes (b : bytes) : Digest :=
  mkDigest (SHA256_PREFIX +:+ hex_encode (sha256 b)).

(** What [Digest::hash_domain] feeds to the hasher: a fixed prefix, then each
    part behind its length as a big-endian [u128]. *)
Definition domain_preimage (domain : string) (payload : bytes) : bytes :=
  str_bytes "ag-ng" ++ [Byte.x00] ++ str_bytes "digest" ++ [Byte.x00]
  ++ str_bytes "v1" ++ [Byte.x00]
  ++ be_bytes 16 (Z.of_nat (String.length domain)) ++ str_bytes domain
  ++ be_bytes 16 (Z.of_nat (length payload)) ++ payload.

(** [Digest::hash_domain]. *)
Definition hash_domain (domain : string) (payload : bytes) : Digest :=
  hash_bytes (domain_preimage domain payload).

(** [<Digest as FromStr>::from_str], behind [Digest::parse] and the
    deserializer. *)
Definition digest_parse (value : string) : res DigestParseError Digest :=
  reject_if (String.length value != SHA256_TEXT_LENGTH) (DigestLength (String.length value)) ;?
  reject_if (negb (starts_with value SHA256_PREFIX)) DigestAlgorithm ;?
  let encoded := str_drop (String.length SHA256_PREFIX) value in
  match find_char_not is_hex_lower 0 encoded with
  | Some (index, character) => Err (DigestHex index character)
  | None =>
      let? _ := ok_or DigestInternalHexInvariant (hex_decode_to_slice encoded 32) in
      Ok (mkDigest value)
  end.

(** [Digest::raw_bytes]: panics when the text does not decode. *)
Definition raw_bytes {E} (d : Digest) : res E bytes :=
  expect (hex_decode_to_slice (str_drop (String.length SHA256_PREFIX) (digest_str d)) 32).

(** [parse_strict_value]. *)
Definition parse_strict_value (input : bytes) : res JcsError Value :=
  let (tree, end_failure) := json_events input in
  let? value := map_err JcsParse (strict_value tree) in
  match end_failure with
  | Some m => Err (JcsParse (JsonReader m))
  | None => Ok value
  end.

Definition to_vec (v : Value) : res string bytes :=
  match jcs_to_vec v with inl m => Err m | inr b => Ok b end.

(** [JcsDocument::canonicalize], on the tree the value serializes to. *)
Definition canonicalize (v : Value) : res JcsError JcsDocument :=
  let? encoded := map_err JcsSerialization (to_vec v) in
  let? strict := parse_strict_value encoded in
  let? canonical := map_err JcsSerialization (to_vec strict) in
  Ok (mkJcsDocument canonical).

(** [JcsDocument::parse]. *)
Definition jcs_parse (input : bytes) : res JcsError JcsDocument :=
  let? value := parse_strict_value input in
  let? canonical := map_err JcsSerialization (to_vec value) in
  Ok (mkJcsDocument canonical).

(** [JcsDocument::from_canonical_bytes]. *)
Definition from_canonical_bytes (input : bytes) : res JcsError JcsDocument :=
  let? document := jcs_parse input in
  reject_if (jcs_bytes document != input) JcsNotCanonical ;?
  Ok document.

(** [JcsDocument::digest]. *)
Definition jcs_digest (d : JcsDocument) : Digest := hash_bytes (jcs_bytes d).

(** [Digest::from_serializable]. *)
Definition from_serializable `{Serialize T} (x : T) : res JcsError Digest :=
  let? d := canonicalize (to_value x) in Ok (jcs_digest d).

(** [Digest::hash_domain(domain, JcsDocument::canonicalize(x).expect(..).as_bytes())],
    the form every identity of the repository has: panics when the encoder
    fails. *)
Definition domain_digest {E} `{Serialize T} (domain : string) (x : T) : res E Digest :=
  let? document := expect_ok (canonicalize (to_value x)) in
  Ok (hash_domain domain (jcs_bytes document)).

(** ** Canonical text *)

(** The text form of a digest: the prefix and 64 lowercase hex digits. *)
Definition canonical_digest_text (s : string) : Prop :=
  exists h, s = SHA256_PREFIX +:+ h /\ String.length h = SHA256_HEX_LENGTH
            /\ str_all is_hex_lower h = true.

Lemma digest_parse_spec `{!HexLaws} s d :
  digest_parse s = Ok d <-> d = mkDigest s /\ canonical_digest_text s.
Proof.
  unfold digest_parse, canonical_digest_text. split.
  - intros Hp. apply res_bind_ok in Hp as ([] & Hlen & Hp).
    apply res_bind_ok in Hp as ([] & Hpre & Hp).
    apply reject_if_ok, negb_false_iff, starts_with_spec in Hpre as [h ->].
    rewrite str_drop_app in Hp. res_inv. rewrite str_length_app in Hlen.
    unfold SHA256_TEXT_LENGTH in Hlen.
    destruct (find_char_not is_hex_lower 0 h) as [[i c]|] eqn:Hf; [done|].
    apply find_char_not_None in Hf. res_inv. split; [done|]. exists h. by split_all.
  - intros [-> (h & -> & Hl & Hh)]. rewrite str_length_app, Hl.
    rewrite bool_decide_eq_true_2 by done. cbn [negb reject_if res_bind].
    assert (starts_with (SHA256_PREFIX +:+ h) SHA256_PREFIX = true) as ->
      by (apply starts_with_spec; by eexists).
    cbn [negb reject_if res_bind]. rewrite str_drop_app.
    destruct (hex_encode_decode h 32 Hh Hl) as (b & Hb & _).
    apply (find_char_not_None _ 0) in Hh. rewrite Hh, Hb. done.
Qed.

Lemma hash_bytes_canonical `{!HexLaws, !Sha256Laws} b :
  canonical_digest_text (digest_str (hash_bytes b)).
Proof.
  exists (hex_encode (sha256 b)). split_all; [done | | apply hex_encode_lower].
  rewrite hex_encode_length, sha256_length. done.
Qed.

Lemma raw_bytes_canonical `{!HexLaws} {E} d :
  canonical_digest_text (digest_str d) ->
  exists b, raw_bytes (E := E) d = Ok b /\ length b = 32.
Proof.
  intros (h & Hd & Hl & Hh). unfold raw_bytes. rewrite Hd, str_drop_app.
  destruct (hex_encode_decode h 32 Hh Hl) as (b & -> & _ & Hb). by exists b.
Qed.

Lemma raw_bytes_hash `{!HexLaws, !Sha256Laws} {E} b :
  raw_bytes (E := E) (hash_bytes b) = Ok (sha256 b).
Proof.
  unfold raw_bytes, hash_bytes; simpl digest_str. rewrite str_drop_app.
  pose proof (hex_decode_encode (sha256 b)) as Hd. rewrite sha256_length in Hd. by rewrite Hd.
Qed.

(** ** Digests bind their preimage, up to a hash collision *)

Lemma hash_bytes_binds `{!HexLaws, !Sha256Laws} a b :
  hash_bytes a = hash_bytes b -> a = b \/ collision a b.
Proof.
  unfold hash_bytes, collision. intros [= Hh%str_app_inj_l].
  assert (sha256 a = sha256 b) as Hs.
  { pose proof (hex_decode_encode (sha256 a)) as Ha. pose proof (hex_decode_encode (sha256 b)) as Hb.
    rewrite sha256_length in Ha, Hb. congruence. }
  destruct (decide (a = b)); auto.
Qed.

(** A length that a [u128] holds. *)
Definition u128_length (n : nat) : Prop := (Z.of_nat n < 256 ^ 16)%Z.

Lemma domain_preimage_inj d p d' p' :
  u128_length (String.length d) -> u128_length (String.length d') ->
  u128_length (length p) -> u128_length (length p') ->
  domain_preimage d p = domain_preimage d' p' -> d = d' /\ p = p'.
Proof.
  unfold u128_length, domain_preimage. intros Hd Hd' Hp Hp' He.
  do 6 (apply list_app_inj_length in He as [_ He]; [|done]).
  apply list_app_inj_length in He as [Hlen He]; [|by rewrite !length_be_bytes].
  apply (f_equal be_value) in Hlen. rewrite !be_value_bytes in Hlen by (split; [lia | done]).
  apply list_app_inj_length in He as [Hdom He]; [|rewrite !length_str_bytes; lia].
  apply list_app_inj_length in He as [_ He]; [|by rewrite !length_be_bytes].
  split; [by apply str_bytes_inj | done].
Qed.

Lemma hash_domain_binds `{!HexLaws, !Sha256Laws} d p d' p' :
  u128_length (String.length d) -> u128_length (String.length d') ->
  u128_length (length p) -> u128_length (length p') ->
  hash_domain d p = hash_domain d' p' ->
  (d = d' /\ p = p') \/ collision (domain_preimage d p) (domain_preimage d' p').
Proof.
  intros ???? [He|Hc]%hash_bytes_binds; [left | by right]. by apply domain_preimage_inj.
Qed.

(** ** Canonicalization fails, it does not panic *)

Lemma strict_value_no_panic j : no_panic (strict_value j).
Proof.
  revert j. fix IH 1. intros j. destruct j as [| | | | | |l failure|l failure|]; unfold no_panic; simpl; try discriminate.
  - generalize (@nil Value) as values. induction l as [|x l IHl]; intros values; simpl; [destruct failure; discriminate|].
    apply res_bind_no_panic; [exact (IH x)|]. intros v _. apply IHl.
  - generalize (@nil string) as keys, (@nil (string * Value)) as values.
    induction l as [|[k x] l IHl]; intros keys values; simpl; [destruct failure; discriminate|].
    case_bool_decide; [discriminate|]. apply res_bind_no_panic; [exact (IH x)|]. intros v _. apply IHl.
Qed.

Lemma canonicalize_no_panic v : no_panic (canonicalize v).
Proof.
  unfold canonicalize, to_vec, parse_strict_value, no_panic. destruct (jcs_to_vec v) as [|b]; [done|]. simpl.
  destruct (json_events b) as [tree e]. pose proof (strict_value_no_panic tree) as Hs.
  destruct (strict_value tree) as [u| |]; simpl; [|done..]. destruct e; [done|]. simpl. by destruct (jcs_to_vec u).
Qed.

Lemma from_serializable_no_panic `{Serialize T} (x : T) : no_panic (from_serializable x).
Proof.
  unfold from_serializable, no_panic. pose proof (canonicalize_no_panic (to_value x)). by destruct (canonicalize _).
Qed.

(** ** Canonical documents *)

Lemma to_vec_ok v b : to_vec v = Ok b <-> jcs_to_vec v = inr b.
Proof. unfold to_vec. destruct (jcs_to_vec v); naive_solver. Qed.

Lemma parse_strict_of_jcs `{!JcsLaws} v b :
  ijson v = true -> jcs_to_vec v = inr b -> parse_strict_value b = Ok (canon v).
Proof.
  intros Hv Hb. unfold parse_strict_value. rewrite (jcs_reads_back v b Hv Hb).
  rewrite strict_value_events by apply canon_ordered. done.
Qed.

Lemma canonicalize_ijson `{!JcsLaws} v :
  ijson v = true ->
  exists b, jcs_to_vec v = inr b /\ canonicalize v = Ok (mkJcsDocument b)
            /\ jcs_parse b = Ok (mkJcsDocument b).
Proof.
  intros Hv. destruct (jcs_total v Hv) as [b Hb]. exists b.
  unfold canonicalize, jcs_parse, to_vec. rewrite Hb. simpl.
  rewrite (parse_strict_of_jcs v b Hv Hb). simpl. rewrite (jcs_canon v Hv), Hb. done.
Qed.

(** The digest of a serializable value, when it is I-JSON data. *)
Lemma from_serializable_ijson `{!JcsLaws} `{Serialize T} (x : T) :
  ijson (to_value x) = true ->
  exists b, jcs_to_vec (to_value x) = inr b /\ from_serializable x = Ok (hash_bytes b).
Proof.
  intros Hx. destruct (canonicalize_ijson _ Hx) as (b & Hb & Hc & _). exists b.
  unfold from_serializable. rewrite Hc. done.
Qed.

(** Documents that encode alike carry the same value. *)
Lemma canonicalize_binds `{!JcsLaws} `{SerializeInj T} (x y : T) d :
  ijson (to_value x) = true -> ijson (to_value y) = true ->
  canonicalize (to_value x) = Ok d -> canonicalize (to_value y) = Ok d -> x = y.
Proof.
  intros Hx Hy Hcx Hcy.
  destruct (canonicalize_ijson _ Hx) as (b & Hb & Hc & _). rewrite Hc in Hcx.
  destruct (canonicalize_ijson _ Hy) as (b' & Hb' & Hc' & _). rewrite Hc' in Hcy.
  res_inv. by apply to_value_inj, (canon_injective_encoding _ _ _ Hx Hy Hb Hb').
Qed.

(** [x] is I-JSON data, encodes as [b], and [b]'s length fits its length
    prefix. *)
Definition encodes `{Serialize T} (x : T) (b : bytes) : Prop :=
  ijson (to_value x) = true /\ jcs_to_vec (to_value x) = inr b /\ u128_length (length b).

Lemma domain_digest_ok `{!JcsLaws} `{Serialize T} {E} domain (x : T) b :
  encodes x b -> domain_digest (E := E) domain x = Ok (hash_domain domain b).
Proof.
  intros (Hx & Hb & _). unfold domain_digest.
  destruct (canonicalize_ijson _ Hx) as (b' & Hb' & -> & _). simpl. congruence.
Qed.

(** Two values of one type with the same identity are the same value, or their
    two preimages collide. *)
Lemma domain_digest_binds `{!JcsLaws, !HexLaws, !Sha256Laws} `{SerializeInj T} {E}
    domain (x y : T) bx by' d :
  u128_length (String.length domain) -> encodes x bx -> encodes y by' ->
  domain_digest (E := E) domain x = Ok d -> domain_digest (E := E) domain y = Ok d ->
  x = y \/ collision (domain_preimage domain bx) (domain_preimage domain by').
Proof.
  intros Hdom Hx Hy Hdx Hdy.
  rewrite (domain_digest_ok _ _ _ Hx) in Hdx. rewrite (domain_digest_ok _ _ _ Hy) in Hdy.
  destruct Hx as (Hx & Hbx & Hlx), Hy as (Hy & Hby & Hly).
  assert (hash_domain domain by' = hash_domain domain bx) as Hh by congruence.
  destruct (hash_domain_binds domain by' domain bx Hdom Hdom Hly Hlx Hh) as [[_ ->]|Hc].
  - left. by apply to_value_inj, (canon_injective_encoding _ _ bx).
  - right. destruct Hc as [Hne He]. by split.
Qed.

End WithDeps.

(** ** Preimages separated by a zero byte

    The kernel hashes [domain], a zero byte, and the encoded value. *)

Definition nul_preimage (domain : string) (payload : bytes) : bytes :=
  str_bytes domain ++ Byte.x00 :: payload.

(** No zero byte in the domain text. *)
Definition no_nul (domain : string) : bool :=
  forallb (fun b => b != Byte.x00) (str_bytes domain).

Lemma nul_preimage_inj d p d' p' :
  no_nul d = true -> no_nul d' = true -> nul_preimage d p = nul_preimage d' p' -> d = d' /\ p = p'.
Proof.
  unfold no_nul, nul_preimage. intros Hd Hd' He.
  cut (str_bytes d = str_bytes d' /\ p = p'); [intros [?%str_bytes_inj ?]; by split|].
  revert He Hd Hd'. generalize (str_bytes d) as a, (str_bytes d') as b.
  induction a as [|x a IH]; intros [|y b] He Ha Hb; simpl in *.
  - by injection He.
  - injection He as <- He. done.
  - injection He as -> He. done.
  - injection He as -> He. apply andb_true_iff in Ha as [_ Ha], Hb as [_ Hb].
    destruct (IH b He Ha Hb) as [-> ->]. done.
Qed.

(** ** The concrete encoder, for witnesses *)

(** What the encoder of [Fixture.v] writes for a value. *)
Definition toy_encoding `{Serialize T} (x : T) : bytes :=
  match jcs_to_vec (to_value x) with inr b => b | inl _ => [] end.

Lemma toy_encodes `{Serialize T} (x : T) :
  ijson (to_value x) = true -> (Z.of_nat (length (toy_encoding x)) <? 256 ^ 16)%Z = true ->
  encodes x (toy_encoding x).
Proof. intros Hi Hl. unfold encodes. split_all; [done | done | by apply Z.ltb_lt]. Qed.

Ltac toy_encoded := apply toy_encodes; vm_compute; reflexivity.

(** Every digest the code computes has the canonical text form and reads
    back: [Digest::parse] accepts exactly the texts [sha256:] followed by 64
    lowercase hexadecimal digits, every [hash_bytes] result is one of them, and
    [raw_bytes] of it returns the hash, so its [expect] never fires. *)
Theorem digest_text_roundtrip `{HexLaws, !Sha256Laws} :
  (forall s d, digest_parse s = Ok d <-> d = mkDigest s /\ canonical_digest_text s) /\
  (forall b, digest_parse (digest_str (hash_bytes b)) = Ok (hash_bytes b)) /\
  (forall E b, raw_bytes (E := E) (hash_bytes b) = Ok (sha256 b)) /\
  (forall E s d, digest_parse s = Ok d -> no_panic (raw_bytes (E := E) d)).
Proof.
  split_all.
  - apply digest_parse_spec.
  - intros b. apply digest_parse_spec. split; [done | apply hash_bytes_canonical].
  - intros E. apply raw_bytes_hash.
  - intros E s d Hd. apply digest_parse_spec in Hd as [-> Hc].
    destruct (raw_bytes_canonical (E := E) (mkDigest s) Hc) as (b & -> & _). done.
Qed.

Lemma digest_text_roundtrip_witness :
  digest_parse (digest_str (hash_bytes [])) = Ok (hash_bytes []).
Proof. apply digest_text_roundtrip. Defined.

(** A domain-separated digest determines the domain and the payload it was
    computed from: two that agree come from the same domain and payload, or
    exhibit a SHA-256 collision between the two length-prefixed preimages. *)
Theorem hash_domain_unambiguous `{HexLaws, !Sha256Laws} d p d' p' :
  u128_length (String.length d) -> u128_length (String.length d') ->
  u128_length (length p) -> u128_length (length p') ->
  hash_domain d p = hash_domain d' p' ->
  (d = d' /\ p = p') \/ collision (domain_preimage d p) (domain_preimage d' p').
Proof. apply hash_domain_binds. Qed.

Lemma hash_domain_unambiguous_witness :
  ("ab" = "ab" /\ ([] : bytes) = []) \/ collision (domain_preimage "ab" []) (domain_preimage "ab" []).
Proof.
  apply (hash_domain_unambiguous "ab" [] "ab" []); try (vm_compute; reflexivity).
Defined.

(** Canonicalization is a fixed point on I-JSON data: it succeeds, its bytes
    are accepted by [from_canonical_bytes] unchanged, parsing them gives the
    same document and the same digest, and reordering the members of the value
    does not change the bytes. *)
Theorem canonicalize_fixed_point `{JcsLaws} v :
  ijson v = true ->
  exists d, canonicalize v = Ok d /\ from_canonical_bytes (jcs_bytes d) = Ok d /\
            jcs_parse (jcs_bytes d) = Ok d /\
            forall w, ijson w = true ->
              canonicalize w = Ok d <-> value_equiv v w.
Proof.
  intros Hv. destruct (canonicalize_ijson v Hv) as (b & Hb & Hc & Hp).
  exists (mkJcsDocument b). split_all; [done | | done |].
  - unfold from_canonical_bytes. simpl. rewrite Hp. simpl. by rewrite bool_decide_eq_true_2.
  - intros w Hw. destruct (canonicalize_ijson w Hw) as (b' & Hb' & Hc' & _). rewrite Hc'. split.
    + intros [= ->]. by apply (canon_injective_encoding v w b).
    + unfold value_equiv. intros He. rewrite <- jcs_canon, <- He, jcs_canon in Hb' by done.
      congruence.
Qed.

Lemma canonicalize_fixed_point_witness :
  exists d, canonicalize (VObject [("b", VNumber 1); ("a", VArray [VNull; VBool true])]) = Ok d /\
            from_canonical_bytes (jcs_bytes d) = Ok d.
Proof.
  destruct (canonicalize_fixed_point (VObject [("b", VNumber 1); ("a", VArray [VNull; VBool true])]))
    as (d & Hc & Hf & _); [vm_compute; reflexivity|].
  exists d. split; assumption.
Defined.
