(* ===== verification/Names.v ===== *)
(** * Identifiers (ag-primitives/src/origin.rs, identity.rs, capability.rs)

    The repository wraps every identifier in a newtype produced by one of three
    macros; [text_id k] is the family of these newtypes, indexed by the type
    they stand for.  The three validators differ in their length bound and in
    their error type. *)

From S2P Require Import Prelude Wire Digest.

(** One constructor per text newtype. *)
Inductive TextKind : Type :=
  (* origin.rs *)
  | AuthorityDomainId_k | BookLocalId_k
  (* identity.rs *)
  | EnrollmentId_k | RoleId_k | ProjectId_k | SessionId_k | SystemdUnitIdentity_k
  | BootIdentity_k | CgroupIdentity_k
  (* capability.rs *)
  | ProviderEndpointId_k | ModelId_k | InferenceMethodId_k.

Record text_id (k : TextKind) : Type := mkText { as_str : string }.
Arguments mkText {k} _.
Arguments as_str {k} _.

#[global] Instance text_id_eq_dec k : EqDecision (text_id k).
Proof. solve_decision. Defined.
#[global] Instance text_id_countable k : Countable (text_id k).
Proof. refine (inj_countable' as_str mkText _). by intros []. Defined.
#[global] Instance text_id_serialize k : Serialize (text_id k) := fun t => VString (as_str t).
#[global] Instance text_id_serialize_inj k : SerializeInj (text_id k).
Proof. intros [s] [t] [= ->]. done. Qed.
#[global] Instance text_id_nonnull k : SerializeNonNull (text_id k).
Proof. done. Qed.

Abbreviation AuthorityDomainId := (text_id AuthorityDomainId_k).
Abbreviation BookLocalId := (text_id BookLocalId_k).
Abbreviation EnrollmentId := (text_id EnrollmentId_k).
Abbreviation RoleId := (text_id RoleId_k).
Abbreviation ProjectId := (text_id ProjectId_k).
Abbreviation SessionId := (text_id SessionId_k).
Abbreviation SystemdUnitIdentity := (text_id SystemdUnitIdentity_k).
Abbreviation BootIdentity := (text_id BootIdentity_k).
Abbreviation CgroupIdentity := (text_id CgroupIdentity_k).
Abbreviation ProviderEndpointId := (text_id ProviderEndpointId_k).
Abbreviation ModelId := (text_id ModelId_k).
Abbreviation InferenceMethodId := (text_id InferenceMethodId_k).

(** The text [kind] the constructors hand to the validators, which the errors
    carry. *)
Definition kind_name (k : TextKind) : string :=
  match k with
  | AuthorityDomainId_k => "authority domain"
  | BookLocalId_k => "book local ID"
  | EnrollmentId_k => "EnrollmentId"
  | RoleId_k => "RoleId"
  | ProjectId_k => "ProjectId"
  | SessionId_k => "SessionId"
  | SystemdUnitIdentity_k => "SystemdUnitIdentity"
  | BootIdentity_k => "BootIdentity"
  | CgroupIdentity_k => "CgroupIdentity"
  | ProviderEndpointId_k => "ProviderEndpointId"
  | ModelId_k => "ModelId"
  | InferenceMethodId_k => "InferenceMethodId"
  end.

Definition MAX_IDENTIFIER_LENGTH : nat := 128.
Definition MAX_NAME_LENGTH : nat := 128.
Definition MAX_ENVELOPE_NAME_LENGTH : nat := 192.

(** [enum IdentifierError] (origin.rs). *)
Inductive IdentifierError : Type :=
  | IdentifierEmpty (kind : string)
  | IdentifierTooLong (kind : string) (maximum actual : nat)
  | IdentifierNonCanonical (kind : string)
  | ZeroEpoch
  | InvalidEpochText
  | EpochExhausted.

(** [enum PrincipalNameError] (identity.rs). *)
Inductive PrincipalNameError : Type :=
  | NameEmpty (kind : string)
  | NameTooLong (kind : string) (maximum actual : nat)
  | NameNonCanonical (kind : string).

(** [enum CapabilityDefinitionError] (capability.rs). *)
Inductive CapabilityDefinitionError : Type :=
  | InvalidLifetime
  | ZeroRequestBudget
  | EnvelopeEmptyName (kind : string)
  | EnvelopeNameTooLong (kind : string) (maximum actual : nat)
  | EnvelopeNonCanonicalName (kind : string).

#[global] Instance IdentifierError_eq_dec : EqDecision IdentifierError.
Proof. solve_decision. Defined.
#[global] Instance PrincipalNameError_eq_dec : EqDecision PrincipalNameError.
Proof. solve_decision. Defined.
#[global] Instance CapabilityDefinitionError_eq_dec : EqDecision CapabilityDefinitionError.
Proof. solve_decision. Defined.

(** The closures [endpoint] and [admitted] of the validators. *)
Definition endpoint (c : ascii) : bool := is_ascii_lowercase c || is_ascii_digit c.
Definition admitted (c : ascii) : bool := endpoint c || one_of "-_.:/" c.

(** [!endpoint(bytes[0]) || !endpoint(bytes[bytes.len() - 1]) || !all(admitted)];
    indexing an empty slice panics. *)
Definition not_canonical {E} (value : string) : res E bool :=
  let? first := expect (first_char value) in
  let? last := expect (last_char value) in
  Ok (negb (endpoint first) || negb (endpoint last) || negb (str_all admitted value)).

(** [validate_identifier] (origin.rs). *)
Definition validate_identifier (kind value : string) : res IdentifierError unit :=
  reject_if (value == EmptyString) (IdentifierEmpty kind) ;?
  reject_if (MAX_IDENTIFIER_LENGTH <? String.length value)
    (IdentifierTooLong kind MAX_IDENTIFIER_LENGTH (String.length value)) ;?
  let? bad := not_canonical value in
  reject_if bad (IdentifierNonCanonical kind).

(** [validate_name] (identity.rs). *)
Definition validate_name (kind value : string) : res PrincipalNameError unit :=
  reject_if (value == EmptyString) (NameEmpty kind) ;?
  reject_if (MAX_NAME_LENGTH <? String.length value)
    (NameTooLong kind MAX_NAME_LENGTH (String.length value)) ;?
  let? bad := not_canonical value in
  reject_if bad (NameNonCanonical kind).

(** [validate_envelope_name] (capability.rs). *)
Definition validate_envelope_name (kind value : string) : res CapabilityDefinitionError unit :=
  reject_if (value == EmptyString) (EnvelopeEmptyName kind) ;?
  reject_if (MAX_ENVELOPE_NAME_LENGTH <? String.length value)
    (EnvelopeNameTooLong kind MAX_ENVELOPE_NAME_LENGTH (String.length value)) ;?
  let? bad := not_canonical value in
  reject_if bad (EnvelopeNonCanonicalName kind).

(** The [new] of each macro ([parse], [from_str] and the deserializers call
    it). *)
Definition identifier_new (k : TextKind) (value : string) : res IdentifierError (text_id k) :=
  validate_identifier (kind_name k) value ;? Ok (mkText value).
Definition strict_name_new (k : TextKind) (value : string) : res PrincipalNameError (text_id k) :=
  validate_name (kind_name k) value ;? Ok (mkText value).
Definition envelope_name_new (k : TextKind) (value : string)
    : res CapabilityDefinitionError (text_id k) :=
  validate_envelope_name (kind_name k) value ;? Ok (mkText value).

(** ** Principal identity (identity.rs) *)

(** [struct PrincipalId(Digest)]. *)
Record PrincipalId : Type := mkPrincipalId { principal_digest : Digest }.

#[global] Instance PrincipalId_eq_dec : EqDecision PrincipalId.
Proof. solve_decision. Defined.
#[global] Instance PrincipalId_countable : Countable PrincipalId.
Proof. refine (inj_countable' principal_digest mkPrincipalId _). by intros []. Defined.
#[global] Instance PrincipalId_serialize : Serialize PrincipalId :=
  fun p => to_value (principal_digest p).
#[global] Instance PrincipalId_serialize_inj : SerializeInj PrincipalId.
Proof. intros [d] [d'] H. f_equal. by apply to_value_inj. Qed.
#[global] Instance PrincipalId_nonnull : SerializeNonNull PrincipalId.
Proof. done. Qed.

(** ** What the validators admit *)

(** A canonical name of at most [maximum] bytes. *)
Definition canonical_name (maximum : nat) (s : string) : Prop :=
  String.length s <= maximum /\ str_all admitted s = true /\
  (exists c, first_char s = Some c /\ endpoint c = true) /\
  (exists c, last_char s = Some c /\ endpoint c = true).

Lemma first_last_char s : s <> EmptyString -> exists a b, first_char s = Some a /\ last_char s = Some b.
Proof.
  destruct s as [|a s]; [done|]. intros _. exists a. unfold first_char, last_char. simpl.
  destruct (last (a :: String.list_ascii_of_string s)) as [b|] eqn:Hb; [by exists b|].
  by apply last_None in Hb.
Qed.

(** The shape all three validators share, on every input. *)
Lemma validator_spec {E} (maximum : nat) (empty long bad : E) s (v : res E unit) :
  v = (reject_if (s == EmptyString) empty ;?
       reject_if (maximum <? String.length s) long ;?
       let? b := not_canonical s in reject_if b bad) ->
  (v = Ok tt /\ canonical_name maximum s) \/
  (v = Err empty /\ s = EmptyString) \/
  (v = Err long /\ maximum < String.length s /\ s <> EmptyString) \/
  (v = Err bad /\ s <> EmptyString /\ String.length s <= maximum /\ ~ canonical_name maximum s).
Proof.
  intros ->. unfold canonical_name. destruct (decide (s = EmptyString)) as [->|Hne]; [auto|].
  rewrite bool_decide_eq_false_2 by done. cbn [reject_if res_bind].
  destruct (Nat.ltb_spec maximum (String.length s)); cbn [reject_if res_bind];
    [right; right; left; by split_all|].
  destruct (first_last_char s Hne) as (a & b & Ha & Hb).
  unfold not_canonical. rewrite Ha, Hb. cbn [expect res_bind].
  destruct (endpoint a) eqn:Ea, (endpoint b) eqn:Eb, (str_all admitted s) eqn:Es; simpl;
    [left | right; right; right..]; split_all; eauto; try lia; try done;
    intros (_ & ? & (? & ? & ?) & (? & ? & ?)); congruence.
Qed.
