(* ===== verification/Origin.v ===== *)
(** * Epochs, lifecycle nonces, origins and book references
      (ag-primitives/src/origin.rs)

    The theorems show that the text forms of epochs and nonces are canonical
    (each accepted text is the printed form of its value, and nothing else is
    accepted), that epochs only advance and stop at [u64::MAX], and that a
    book reference can be recovered from its erased form under its own kind
    only. *)

From S2P Require Import Prelude Wire Fixture Digest Names.

(** ** Epochs *)

(** [struct EpochId(u64)]. *)
Record EpochId : Type := mkEpochId { epoch_get : Z }.

#[global] Instance EpochId_eq_dec : EqDecision EpochId.
Proof. solve_decision. Defined.
#[global] Instance EpochId_countable : Countable EpochId.
Proof. refine (inj_countable' epoch_get mkEpochId _). by intros []. Defined.
#[global] Instance EpochId_serialize : Serialize EpochId := fun e => to_value (epoch_get e).
#[global] Instance EpochId_serialize_inj : SerializeInj EpochId.
Proof. intros [e] [e'] H. f_equal. by apply to_value_inj. Qed.

(** [EpochId::new], which the deserializer calls as well. *)
Definition EpochId_new (value : Z) : res IdentifierError EpochId :=
  reject_if (value =? 0)%Z ZeroEpoch ;? Ok (mkEpochId value).

(** [EpochId::parse]. *)
Definition EpochId_parse (value : string) : res IdentifierError EpochId :=
  reject_if ((value == EmptyString) || negb (str_all is_ascii_digit value)
             || ((1 <? String.length value) && starts_with value "0")) InvalidEpochText ;?
  let? epoch := ok_or InvalidEpochText (parse_u64 value) in
  EpochId_new epoch.

(** [EpochId::checked_next]. *)
Definition EpochId_checked_next (e : EpochId) : res IdentifierError EpochId :=
  match checked_add_u64 (epoch_get e) 1 with
  | Some value => Ok (mkEpochId value)
  | None => Err EpochExhausted
  end.

(** [Display for EpochId]. *)
Definition EpochId_to_string (e : EpochId) : string := u64_to_string (epoch_get e).

(** The invariant of the type: a nonzero [u64]. *)
Definition EpochId_wf (e : EpochId) : Prop := (0 < epoch_get e <= U64_MAX)%Z.

(** ** Lifecycle nonces *)

Definition NONCE_BYTES : nat := 16.

(** [struct LifecycleNonce([u8; 16])]. *)
Record LifecycleNonce : Type := mkNonce { nonce_bytes : bytes }.

#[global] Instance LifecycleNonce_eq_dec : EqDecision LifecycleNonce.
Proof. solve_decision. Defined.

(** The invariant of the type: sixteen bytes. *)
Definition LifecycleNonce_wf (n : LifecycleNonce) : Prop := length (nonce_bytes n) = NONCE_BYTES.

Inductive LifecycleNonceParseError : Type :=
  | NonceLength (actual : nat)
  | NonceHex (index : nat) (character : string)
  | NonceInternalHexInvariant.

Section Nonce.
  Context `{Deps}.

(** [Display for LifecycleNonce]. *)
Definition LifecycleNonce_to_string (n : LifecycleNonce) : string := hex_encode (nonce_bytes n).

(** [<LifecycleNonce as FromStr>::from_str]. *)
Definition LifecycleNonce_parse (value : string) : res LifecycleNonceParseError LifecycleNonce :=
  reject_if (String.length value != 32) (NonceLength (String.length value)) ;?
  match find_char_not is_hex_lower 0 value with
  | Some (index, character) => Err (NonceHex index character)
  | None =>
      let? b := ok_or NonceInternalHexInvariant (hex_decode_to_slice value NONCE_BYTES) in
      Ok (mkNonce b)
  end.

#[global] Instance LifecycleNonce_serialize : Serialize LifecycleNonce :=
  fun n => VString (LifecycleNonce_to_string n).

End Nonce.

(** ** Origins *)

Record LifecycleOrigin : Type := mkOrigin {
  lo_authority_domain : AuthorityDomainId;
  lo_epoch : EpochId;
  lo_lifecycle_nonce : LifecycleNonce
}.

#[global] Instance LifecycleOrigin_eq_dec : EqDecision LifecycleOrigin.
Proof. solve_decision. Defined.
#[global] Instance LifecycleOrigin_serialize `{Deps} : Serialize LifecycleOrigin := fun o =>
  VObject [("authority_domain", to_value (lo_authority_domain o));
           ("epoch", to_value (lo_epoch o));
           ("lifecycle_nonce", to_value (lo_lifecycle_nonce o))].

(** ** Books *)

Inductive BookKind : Type := Standing | Custody | Obligation | Capacity.

#[global] Instance BookKind_eq_dec : EqDecision BookKind.
Proof. solve_decision. Defined.
#[global] Instance BookKind_serialize : Serialize BookKind := fun k =>
  VString match k with
          | Standing => "standing"
          | Custody => "custody"
          | Obligation => "obligation"
          | Capacity => "capacity"
          end.
#[global] Instance BookKind_serialize_inj : SerializeInj BookKind.
Proof. ser_unit_enum. Qed.

(** [struct BookRef<K: BookTag>]: the tag is the index. *)
Record BookRef (k : BookKind) : Type := mkBookRef {
  br_origin : LifecycleOrigin;
  br_local_id : BookLocalId
}.
Arguments mkBookRef {k} _ _.
Arguments br_origin {k} _.
Arguments br_local_id {k} _.

#[global] Instance BookRef_eq_dec k : EqDecision (BookRef k).
Proof. solve_decision. Defined.

(** [struct AnyBookRef], also the wire form [BookRefWire]. *)
Record AnyBookRef : Type := mkAnyBookRef {
  ab_book : BookKind;
  ab_origin : LifecycleOrigin;
  ab_local_id : BookLocalId
}.

#[global] Instance AnyBookRef_eq_dec : EqDecision AnyBookRef.
Proof. solve_decision. Defined.
#[global] Instance AnyBookRef_serialize `{Deps} : Serialize AnyBookRef := fun r =>
  VObject [("book", to_value (ab_book r));
           ("origin", to_value (ab_origin r));
           ("local_id", to_value (ab_local_id r))].

(** [struct BookKindMismatch]. *)
Record BookKindMismatch : Type := mkMismatch { expected : BookKind; actual : BookKind }.

(** [BookRef::erase]. *)
Definition erase {k} (r : BookRef k) : AnyBookRef := mkAnyBookRef k (br_origin r) (br_local_id r).

(** [AnyBookRef::try_typed::<K>]; the deserializer of [BookRef<K>] applies the
    same test to the wire form. *)
Definition try_typed (k : BookKind) (r : AnyBookRef) : res BookKindMismatch (BookRef k) :=
  reject_if (ab_book r != k) (mkMismatch k (ab_book r)) ;?
  Ok (mkBookRef (ab_origin r) (ab_local_id r)).

(** [Serialize for BookRef]: through [BookRefWire]. *)
#[global] Instance BookRef_serialize `{Deps} k : Serialize (BookRef k) := fun r =>
  to_value (erase r).

(** ** Serialized origins and references determine their values *)

#[global] Instance LifecycleNonce_serialize_inj `{HexLaws} :
  SerializeInj LifecycleNonce.
Proof.
  intros [b] [b'] [= He]. unfold LifecycleNonce_to_string in He. simpl in He. f_equal.
  pose proof (hex_encode_length b) as Hl. pose proof (hex_encode_length b') as Hl'.
  pose proof (hex_decode_encode b) as Hb. pose proof (hex_decode_encode b') as Hb'.
  assert (length b = length b') as Hlen by (rewrite He in Hl; lia).
  rewrite He, Hlen in Hb. congruence.
Qed.
#[global] Instance LifecycleOrigin_serialize_inj `{HexLaws} : SerializeInj LifecycleOrigin.
Proof. ser_struct. Qed.
#[global] Instance AnyBookRef_serialize_inj `{HexLaws} : SerializeInj AnyBookRef.
Proof. ser_struct. Qed.

Lemma erase_inj {k} (r r' : BookRef k) : erase r = erase r' -> r = r'.
Proof. destruct r, r'. by intros [= -> ->]. Qed.

#[global] Instance BookRef_serialize_inj `{HexLaws} k : SerializeInj (BookRef k).
Proof. intros r r' Hr. by apply erase_inj, to_value_inj. Qed.

(** ** Epoch text *)

Lemma starts_with_zero s :
  starts_with s "0" = true <-> head (String.list_ascii_of_string s) = Some "0"%char.
Proof.
  rewrite starts_with_spec. destruct s as [|c s]; simpl.
  - split; [by intros [] | done].
  - split; [by intros [t [= -> _]] | intros [= ->]; by exists s].
Qed.

(** The guard of [EpochId::parse], as canonical decimal text. *)
Lemma epoch_guard_spec s :
  ((s == EmptyString) || negb (str_all is_ascii_digit s)
   || ((1 <? String.length s) && starts_with s "0")) = false <->
  canonical_decimal (String.list_ascii_of_string s).
Proof.
  unfold canonical_decimal. rewrite <- str_all_forall, <- starts_with_zero, length_list_ascii.
  rewrite !orb_false, bool_decide_eq_false, negb_false_iff, andb_false_iff, Nat.ltb_ge.
  assert (s = EmptyString <-> String.list_ascii_of_string s = []) as -> by (by destruct s).
  destruct (starts_with s "0"); intuition (try lia; try congruence).
Qed.

(** A string that starts with a digit has no sign to strip. *)
Lemma parse_u64_digits s :
  canonical_decimal (String.list_ascii_of_string s) ->
  parse_u64 s = (let n := dec_value (String.list_ascii_of_string s) in
                 if (n <=? U64_MAX)%Z then Some n else None).
Proof.
  intros (Hne & Hd & _). destruct s as [|c s]; [done|]. unfold parse_u64.
  apply str_all_forall in Hd as Hall. cbn [String.list_ascii_of_string] in Hd.
  apply Forall_cons in Hd as [Hc _].
  destruct (Ascii.eqb_spec c "+"%char) as [->|_]; [done|].
  rewrite bool_decide_eq_false_2 by done. by rewrite Hall.
Qed.

Lemma EpochId_parse_canonical s e :
  EpochId_parse s = Ok e <->
  canonical_decimal (String.list_ascii_of_string s) /\
  epoch_get e = dec_value (String.list_ascii_of_string s) /\ EpochId_wf e.
Proof.
  unfold EpochId_parse, EpochId_new, EpochId_wf. destruct e as [e]. simpl.
  set (g := _ || _ || _). destruct g eqn:Hg.
  - split; [done|]. intros [Hc%epoch_guard_spec _]. unfold g in Hg. congruence.
  - apply epoch_guard_spec in Hg. cbn [reject_if res_bind].
    rewrite (parse_u64_digits s Hg).
    pose proof (dec_value_nonneg _ (proj1 (proj2 Hg))).
    set (n := dec_value _) in *. simpl.
    destruct (Z.leb_spec n U64_MAX); simpl; [|split; [done | lia]].
    destruct (Z.eqb_spec n 0); simpl; [split; [done | lia]|].
    split; [intros [= <-]; split_all; [done | done | lia | lia]|].
    by intros (_ & -> & _).
Qed.

Lemma string_ascii_list s : String.string_of_list_ascii (String.list_ascii_of_string s) = s.
Proof. induction s; simpl; congruence. Qed.
Lemma list_ascii_string l : String.list_ascii_of_string (String.string_of_list_ascii l) = l.
Proof. induction l; simpl; congruence. Qed.

(** The text form of an epoch is canonical: [EpochId::parse] accepts a text
    exactly when it is the [Display] form of a nonzero [u64], and returns that
    epoch.  No sign, leading zero, overflow or other spelling is accepted, and
    every epoch reads back as itself. *)
Theorem epoch_parse_iff_display s e :
  EpochId_parse s = Ok e <-> EpochId_wf e /\ s = EpochId_to_string e.
Proof.
  rewrite EpochId_parse_canonical. unfold EpochId_to_string, u64_to_string. split.
  - intros (Hc & He & Hwf). split; [done|]. rewrite He.
    rewrite dec_digits_of_value; [by rewrite string_ascii_list | done |].
    apply canonical_decimal_length; [done|]. rewrite <- He. apply Hwf.
  - intros [Hwf ->]. rewrite list_ascii_string. unfold EpochId_wf, U64_MAX in Hwf.
    split_all; [apply dec_digits_canonical; [unfold U64_DIGITS; lia | done] | | exact Hwf].
    symmetry. apply dec_digits_value. unfold U64_DIGITS. lia.
Qed.

Lemma EpochId_new_wf v e : u64_ok v -> EpochId_new v = Ok e -> EpochId_wf e /\ epoch_get e = v.
Proof. unfold EpochId_new, EpochId_wf, u64_ok. intros Hv He. res_inv. split; [lia | done]. Qed.

(** Epochs advance by one until the last [u64]. *)
Lemma EpochId_checked_next_spec e :
  EpochId_wf e ->
  (exists e', EpochId_checked_next e = Ok e' /\ EpochId_wf e' /\ epoch_get e' = epoch_get e + 1)%Z \/
  (EpochId_checked_next e = Err EpochExhausted /\ epoch_get e = U64_MAX).
Proof.
  unfold EpochId_wf, EpochId_checked_next, checked_add_u64. intros He.
  destruct (Z.leb_spec (epoch_get e + 1) U64_MAX); [left | right; split; [done | lia]].
  eexists. split; [done|]. simpl. lia.
Qed.

(** ** Nonce text *)

(** The text form of a lifecycle nonce is canonical: the parser accepts
    exactly the 32 lowercase hexadecimal digits that the [Display] form of a
    16-byte nonce consists of, and returns that nonce. *)
Theorem nonce_parse_iff_display `{HexLaws} s n :
  LifecycleNonce_parse s = Ok n <-> LifecycleNonce_wf n /\ s = LifecycleNonce_to_string n.
Proof.
  unfold LifecycleNonce_parse, LifecycleNonce_wf, LifecycleNonce_to_string. split.
  - intros Hp. apply res_bind_ok in Hp as ([] & Hlen & Hp). res_inv.
    destruct (find_char_not is_hex_lower 0 s) as [[i c]|] eqn:Hf; [done|].
    apply find_char_not_None in Hf. res_inv.
    destruct (hex_encode_decode s NONCE_BYTES Hf Hlen) as (b & Hb & Hs & Hl). by simplify_eq.
  - intros [Hl ->]. rewrite hex_encode_length, Hl. rewrite bool_decide_eq_true_2 by done.
    cbn [negb reject_if res_bind].
    pose proof (hex_encode_lower (nonce_bytes n)) as Hlow.
    apply (find_char_not_None _ 0) in Hlow. rewrite Hlow.
    rewrite <- Hl, hex_decode_encode. by destruct n.
Qed.

Lemma nonce_parse_iff_display_witness :
  LifecycleNonce_parse "000102030405060708090a0b0c0d0e0f" =
  Ok (mkNonce (map byte_of [0;1;2;3;4;5;6;7;8;9;10;11;12;13;14;15]%Z)).
Proof. apply nonce_parse_iff_display. split; vm_compute; reflexivity. Defined.

(** ** Typed references *)

Lemma try_typed_spec k a r : try_typed k a = Ok r <-> a = erase r.
Proof.
  unfold try_typed, erase. destruct a as [j o l], r as [o' l']. simpl.
  destruct (decide (j = k)) as [->|Hne].
  - rewrite bool_decide_eq_true_2 by done. simpl. split; by intros [= -> ->].
  - rewrite bool_decide_eq_false_2 by done. simpl. split; congruence.
Qed.

Lemma try_typed_forged k a e :
  try_typed k a = Err e <-> ab_book a <> k /\ e = mkMismatch k (ab_book a).
Proof.
  unfold try_typed. destruct (decide (ab_book a = k)) as [He|Hne].
  - rewrite bool_decide_eq_true_2 by done. simpl. split; [done | by intros []].
  - rewrite bool_decide_eq_false_2 by done. simpl. split; [by intros [= <-] | by intros [_ ->]].
Qed.

(** ** Concrete values, for witnesses *)

Definition toy_nonce (z : Z) : LifecycleNonce := mkNonce (be_bytes 16 z).
Definition toy_domain : AuthorityDomainId := mkText "site:primary".
Definition toy_origin : LifecycleOrigin := mkOrigin toy_domain (mkEpochId 7) (toy_nonce 171).
