(* ===== verification/Capability.v ===== *)
(** * Session-bound inference capabilities (ag-primitives/src/capability.rs)

    A capability names one session, one worker principal, one provider
    envelope, a lifetime and a cumulative budget.  [validate_use] decides one
    use against the live facts; the provider commits the resulting usage, so a
    run of uses is a chain in which each use starts from what the previous one
    committed ([spend_run]).  The theorems give the exact condition of a use
    and bound every run by the budget. *)

From S2P Require Import Prelude Wire Fixture Digest Names Origin.

Record InferenceEnvelopeV1 : Type := mkEnvelope {
  ie_endpoint : ProviderEndpointId;
  ie_model : ModelId;
  ie_method : InferenceMethodId;
  ie_protocol_digest : Digest
}.

Record InferenceBudgetV1 : Type := mkBudget {
  ib_requests : Z;
  ib_input_bytes : Z;
  ib_output_bytes : Z;
  ib_cost_microunits : Z
}.

Record InferenceUsageV1 : Type := mkUsage {
  iu_requests : Z;
  iu_input_bytes : Z;
  iu_output_bytes : Z;
  iu_cost_microunits : Z
}.

(** [Default for InferenceUsageV1]. *)
Definition usage_default : InferenceUsageV1 := mkUsage 0 0 0 0.

Inductive BudgetDimensionV1 : Type := Requests | InputBytes | OutputBytes | CostMicrounits.

Inductive SessionLifecycleStateV1 : Type := SessionActive | SessionCancelling | SessionTerminal.

Inductive RevocationStateV1 : Type :=
  | NotRevoked
  | Revoked (revoked_at_unix_ms : Z) (reason_digest : Digest).

Record InferenceCapabilityV1 : Type := mkCapability {
  ic_authority_domain : AuthorityDomainId;
  ic_epoch : EpochId;
  ic_project : ProjectId;
  ic_session_id : SessionId;
  ic_session_nonce : LifecycleNonce;
  ic_worker_principal : PrincipalId;
  ic_provider_policy_digest : Digest;
  ic_envelope : InferenceEnvelopeV1;
  ic_budget : InferenceBudgetV1;
  ic_not_before_unix_ms : Z;
  ic_expires_at_unix_ms : Z;
  ic_capability_nonce : LifecycleNonce
}.

(** [struct InferenceCapabilityId(Digest)]. *)
Record InferenceCapabilityId : Type := mkCapabilityId { capability_digest : Digest }.

Record CapabilityUseContextV1 : Type := mkUseContext {
  cu_authority_domain : AuthorityDomainId;
  cu_epoch : EpochId;
  cu_project : ProjectId;
  cu_session_id : SessionId;
  cu_session_nonce : LifecycleNonce;
  cu_peer_principal : PrincipalId;
  cu_provider_policy_digest : Digest;
  cu_requested_envelope : InferenceEnvelopeV1;
  cu_committed_usage : InferenceUsageV1;
  cu_requested_usage : InferenceUsageV1;
  cu_now_unix_ms : Z;
  cu_session_state : SessionLifecycleStateV1;
  cu_revocation_state : RevocationStateV1
}.

Record ValidatedInferenceUseV1 : Type := mkValidatedUse {
  vu_capability_id : InferenceCapabilityId;
  vu_worker_principal : PrincipalId;
  vu_session_id : SessionId;
  vu_session_nonce : LifecycleNonce;
  vu_envelope : InferenceEnvelopeV1;
  vu_resulting_usage : InferenceUsageV1;
  vu_checked_at_unix_ms : Z
}.

Inductive CapabilityUseError : Type :=
  | InvalidDefinition (e : CapabilityDefinitionError)
  | UseRevoked
  | SessionNotActive (state : SessionLifecycleStateV1)
  | AuthorityDomainMismatch
  | EpochMismatch
  | ProjectMismatch
  | SessionMismatch
  | SessionLifecycleMismatch
  | PeerPrincipalMismatch
  | ProviderPolicyMismatch
  | EnvelopeMismatch
  | NotYetValid
  | Expired
  | UseMustCountExactlyOneRequest
  | UsageOverflow
  | BudgetExceeded (dimension : BudgetDimensionV1).

#[global] Instance InferenceEnvelopeV1_eq_dec : EqDecision InferenceEnvelopeV1.
Proof. solve_decision. Defined.
#[global] Instance InferenceBudgetV1_eq_dec : EqDecision InferenceBudgetV1.
Proof. solve_decision. Defined.
#[global] Instance InferenceCapabilityV1_eq_dec : EqDecision InferenceCapabilityV1.
Proof. solve_decision. Defined.
#[global] Instance InferenceCapabilityId_eq_dec : EqDecision InferenceCapabilityId.
Proof. solve_decision. Defined.
#[global] Instance InferenceUsageV1_eq_dec : EqDecision InferenceUsageV1.
Proof. solve_decision. Defined.
#[global] Instance SessionLifecycleStateV1_eq_dec : EqDecision SessionLifecycleStateV1.
Proof. solve_decision. Defined.
#[global] Instance RevocationStateV1_eq_dec : EqDecision RevocationStateV1.
Proof. solve_decision. Defined.

Section Capability.
  Context `{Deps}.

#[global] Instance InferenceEnvelopeV1_serialize : Serialize InferenceEnvelopeV1 := fun e =>
  VObject [("endpoint", to_value (ie_endpoint e)); ("model", to_value (ie_model e));
           ("method", to_value (ie_method e)); ("protocol_digest", to_value (ie_protocol_digest e))].
#[global] Instance InferenceBudgetV1_serialize : Serialize InferenceBudgetV1 := fun b =>
  VObject [("requests", to_value (ib_requests b)); ("input_bytes", to_value (ib_input_bytes b));
           ("output_bytes", to_value (ib_output_bytes b));
           ("cost_microunits", to_value (ib_cost_microunits b))].
#[global] Instance InferenceCapabilityV1_serialize : Serialize InferenceCapabilityV1 := fun c =>
  VObject [("authority_domain", to_value (ic_authority_domain c));
           ("epoch", to_value (ic_epoch c));
           ("project", to_value (ic_project c));
           ("session_id", to_value (ic_session_id c));
           ("session_nonce", to_value (ic_session_nonce c));
           ("worker_principal", to_value (ic_worker_principal c));
           ("provider_policy_digest", to_value (ic_provider_policy_digest c));
           ("envelope", to_value (ic_envelope c));
           ("budget", to_value (ic_budget c));
           ("not_before_unix_ms", to_value (ic_not_before_unix_ms c));
           ("expires_at_unix_ms", to_value (ic_expires_at_unix_ms c));
           ("capability_nonce", to_value (ic_capability_nonce c))].

(** [InferenceBudgetV1::validate]. *)
Definition budget_validate (b : InferenceBudgetV1) : res CapabilityDefinitionError unit :=
  reject_if (ib_requests b =? 0)%Z ZeroRequestBudget.

(** [InferenceUsageV1::checked_add]. *)
Definition usage_checked_add (self requested : InferenceUsageV1) : option InferenceUsageV1 :=
  match checked_add_u64 (iu_requests self) (iu_requests requested) with
  | None => None
  | Some requests =>
  match checked_add_u64 (iu_input_bytes self) (iu_input_bytes requested) with
  | None => None
  | Some input_bytes =>
  match checked_add_u64 (iu_output_bytes self) (iu_output_bytes requested) with
  | None => None
  | Some output_bytes =>
  match checked_add_u64 (iu_cost_microunits self) (iu_cost_microunits requested) with
  | None => None
  | Some cost_microunits => Some (mkUsage requests input_bytes output_bytes cost_microunits)
  end end end end.

(** [InferenceUsageV1::first_exceeded]. *)
Definition first_exceeded (self : InferenceUsageV1) (b : InferenceBudgetV1)
    : option BudgetDimensionV1 :=
  if (ib_requests b <? iu_requests self)%Z then Some Requests
  else if (ib_input_bytes b <? iu_input_bytes self)%Z then Some InputBytes
  else if (ib_output_bytes b <? iu_output_bytes self)%Z then Some OutputBytes
  else if (ib_cost_microunits b <? iu_cost_microunits self)%Z then Some CostMicrounits
  else None.

(** [InferenceCapabilityV1::validate_definition]. *)
Definition validate_definition (c : InferenceCapabilityV1) : res CapabilityDefinitionError unit :=
  reject_if (ic_expires_at_unix_ms c <=? ic_not_before_unix_ms c)%Z InvalidLifetime ;?
  budget_validate (ic_budget c).

(** [InferenceCapabilityV1::new], which the deserializer calls as well: takes
    the fields as one record. *)
Definition capability_new (c : InferenceCapabilityV1)
    : res CapabilityDefinitionError InferenceCapabilityV1 :=
  validate_definition c ;? Ok c.

(** [InferenceCapabilityV1::id]: panics when the encoder fails. *)
Definition capability_id {E} (c : InferenceCapabilityV1) : res E InferenceCapabilityId :=
  let? digest := domain_digest "ag-ng/inference-capability/v1" c in
  Ok (mkCapabilityId digest).

(** [InferenceCapabilityV1::validate_use]. *)
Definition validate_use (self : InferenceCapabilityV1) (context : CapabilityUseContextV1)
    : res CapabilityUseError ValidatedInferenceUseV1 :=
  map_err InvalidDefinition (validate_definition self) ;?
  reject_if (cu_revocation_state context != NotRevoked) UseRevoked ;?
  reject_if (cu_session_state context != SessionActive)
    (SessionNotActive (cu_session_state context)) ;?
  reject_if (ic_authority_domain self != cu_authority_domain context) AuthorityDomainMismatch ;?
  reject_if (ic_epoch self != cu_epoch context) EpochMismatch ;?
  reject_if (ic_project self != cu_project context) ProjectMismatch ;?
  reject_if (ic_session_id self != cu_session_id context) SessionMismatch ;?
  reject_if (ic_session_nonce self != cu_session_nonce context) SessionLifecycleMismatch ;?
  reject_if (ic_worker_principal self != cu_peer_principal context) PeerPrincipalMismatch ;?
  reject_if (ic_provider_policy_digest self != cu_provider_policy_digest context)
    ProviderPolicyMismatch ;?
  reject_if (ic_envelope self != cu_requested_envelope context) EnvelopeMismatch ;?
  reject_if (cu_now_unix_ms context <? ic_not_before_unix_ms self)%Z NotYetValid ;?
  reject_if (ic_expires_at_unix_ms self <=? cu_now_unix_ms context)%Z Expired ;?
  reject_if (negb (iu_requests (cu_requested_usage context) =? 1)%Z)
    UseMustCountExactlyOneRequest ;?
  let? resulting_usage := ok_or UsageOverflow
    (usage_checked_add (cu_committed_usage context) (cu_requested_usage context)) in
  match first_exceeded resulting_usage (ic_budget self) with
  | Some dimension => Err (BudgetExceeded dimension)
  | None =>
      let? id := capability_id self in
      Ok (mkValidatedUse id (ic_worker_principal self) (ic_session_id self)
            (ic_session_nonce self) (ic_envelope self) resulting_usage (cu_now_unix_ms context))
  end.

(** ** What one use requires *)

Definition usage_add (u v : InferenceUsageV1) : InferenceUsageV1 :=
  mkUsage (iu_requests u + iu_requests v) (iu_input_bytes u + iu_input_bytes v)
    (iu_output_bytes u + iu_output_bytes v) (iu_cost_microunits u + iu_cost_microunits v).

Definition within_budget (u : InferenceUsageV1) (b : InferenceBudgetV1) : Prop :=
  (iu_requests u <= ib_requests b /\ iu_input_bytes u <= ib_input_bytes b /\
   iu_output_bytes u <= ib_output_bytes b /\ iu_cost_microunits u <= ib_cost_microunits b)%Z.

(** Every field of a usage or a budget is a [u64]. *)
Definition usage_ok (u : InferenceUsageV1) : Prop :=
  u64_ok (iu_requests u) /\ u64_ok (iu_input_bytes u) /\
  u64_ok (iu_output_bytes u) /\ u64_ok (iu_cost_microunits u).
Definition budget_ok (b : InferenceBudgetV1) : Prop :=
  u64_ok (ib_requests b) /\ u64_ok (ib_input_bytes b) /\
  u64_ok (ib_output_bytes b) /\ u64_ok (ib_cost_microunits b).

(** The use is made by the named worker of the named, live session, on the
    named provider, inside the lifetime. *)
Definition use_bound (c : InferenceCapabilityV1) (x : CapabilityUseContextV1) : Prop :=
  cu_revocation_state x = NotRevoked /\ cu_session_state x = SessionActive /\
  ic_authority_domain c = cu_authority_domain x /\ ic_epoch c = cu_epoch x /\
  ic_project c = cu_project x /\ ic_session_id c = cu_session_id x /\
  ic_session_nonce c = cu_session_nonce x /\ ic_worker_principal c = cu_peer_principal x /\
  ic_provider_policy_digest c = cu_provider_policy_digest x /\
  ic_envelope c = cu_requested_envelope x /\
  (ic_not_before_unix_ms c <= cu_now_unix_ms x < ic_expires_at_unix_ms c)%Z.

(** A usage whose fields all fit a [u64]. *)
Definition usage_fits (u : InferenceUsageV1) : Prop :=
  (iu_requests u <= U64_MAX /\ iu_input_bytes u <= U64_MAX /\
   iu_output_bytes u <= U64_MAX /\ iu_cost_microunits u <= U64_MAX)%Z.

Lemma usage_checked_add_Some u v w :
  usage_checked_add u v = Some w <-> w = usage_add u v /\ usage_fits w.
Proof.
  unfold usage_checked_add, checked_add_u64, usage_fits. split.
  - intros Hw. repeat (case_match; [|done]). repeat case_match; simplify_eq/=.
    unfold usage_add. split; [done|]. lia.
  - intros [-> (H1 & H2 & H3 & H4)]. unfold usage_add in *. simpl in *.
    apply Z.leb_le in H1, H2, H3, H4. by rewrite H1, H2, H3, H4.
Qed.

Lemma first_exceeded_None u b : first_exceeded u b = None <-> within_budget u b.
Proof.
  unfold first_exceeded, within_budget. repeat case_match; split; (done || lia).
Qed.

Lemma within_budget_fits u b : budget_ok b -> within_budget u b -> usage_fits u.
Proof. unfold budget_ok, within_budget, usage_fits, u64_ok. lia. Qed.

Lemma validate_definition_ok c :
  validate_definition c = Ok tt <->
  (ic_not_before_unix_ms c < ic_expires_at_unix_ms c)%Z /\ ib_requests (ic_budget c) <> 0%Z.
Proof.
  unfold validate_definition, budget_validate.
  destruct (Z.leb_spec (ic_expires_at_unix_ms c) (ic_not_before_unix_ms c)); simpl;
    [split; [done | lia]|].
  destruct (Z.eqb_spec (ib_requests (ic_budget c)) 0); simpl; split; intuition (done || lia).
Qed.

(** The check a use passes before the capability's identity is computed. *)
Lemma validate_use_ok c x v :
  validate_use c x = Ok v <->
  validate_definition c = Ok tt /\ use_bound c x /\ iu_requests (cu_requested_usage x) = 1%Z /\
  let u := usage_add (cu_committed_usage x) (cu_requested_usage x) in
  usage_fits u /\ within_budget u (ic_budget c) /\
  exists id, capability_id (E := CapabilityUseError) c = Ok id /\
    v = mkValidatedUse id (ic_worker_principal c) (ic_session_id c) (ic_session_nonce c)
          (ic_envelope c) u (cu_now_unix_ms x).
Proof.
  unfold validate_use, use_bound. cbv zeta.
  rewrite then_ok, map_err_ok.
  rewrite !guard_ok, !negb_bool_decide_false, Z.ltb_ge, Z.leb_gt, negb_false_iff, Z.eqb_eq.
  rewrite res_bind_ok. setoid_rewrite ok_or_ok. setoid_rewrite usage_checked_add_Some. 
  assert (forall u,
    match first_exceeded u (ic_budget c) with
    | Some dimension => Err (BudgetExceeded dimension)
    | None =>
        let? id := capability_id c in
        Ok (mkValidatedUse id (ic_worker_principal c) (ic_session_id c)
              (ic_session_nonce c) (ic_envelope c) u (cu_now_unix_ms x))
    end = Ok v <->
    within_budget u (ic_budget c) /\
    exists id, capability_id (E := CapabilityUseError) c = Ok id /\
      v = mkValidatedUse id (ic_worker_principal c) (ic_session_id c) (ic_session_nonce c)
            (ic_envelope c) u (cu_now_unix_ms x)) as Hbudget.
  { intros u. rewrite <- first_exceeded_None. destruct (first_exceeded u (ic_budget c)).
    - split; [done | by intros []].
    - rewrite res_bind_ok. split.
      + intros (id & Hid & [= <-]). eauto.
      + intros [_ (id & Hid & ->)]. eauto. }
  setoid_rewrite Hbudget. clear Hbudget. split.
  - intros (? & ? & ? & ? & ? & ? & ? & ? & ? & ? & ? & ? & ? & ? & u & [-> ?] & ? & ?). by split_all.
  - intros (? & (? & ? & ? & ? & ? & ? & ? & ? & ? & ? & ? & ?) & ? & ? & ? & ?).
    split_all; try done. eexists. by split_all.
Qed.

(** ** Runs of uses *)

(** The provider commits each validated use before the next one is checked:
    every use of the run was validated with the usage its predecessor left. *)
Inductive spend_run (c : InferenceCapabilityV1) :
    InferenceUsageV1 -> list (CapabilityUseContextV1 * ValidatedInferenceUseV1) ->
    InferenceUsageV1 -> Prop :=
  | spend_done u : spend_run c u [] u
  | spend_step u x v l w :
      cu_committed_usage x = u -> validate_use c x = Ok v ->
      spend_run c (vu_resulting_usage v) l w -> spend_run c u ((x, v) :: l) w.

(** What the uses of a run asked for, in total. *)
Definition total_requested (l : list (CapabilityUseContextV1 * ValidatedInferenceUseV1))
    : InferenceUsageV1 :=
  fold_right (fun xv acc => usage_add (cu_requested_usage xv.1) acc) usage_default l.

Lemma usage_add_assoc u v w : usage_add u (usage_add v w) = usage_add (usage_add u v) w.
Proof. unfold usage_add. simpl. f_equal; lia. Qed.
Lemma usage_add_default u : usage_add u usage_default = u.
Proof. destruct u. unfold usage_add. simpl. f_equal; lia. Qed.

Lemma spend_run_accounts c u l w :
  spend_run c u l w ->
  w = usage_add u (total_requested l) /\
  iu_requests w = (iu_requests u + Z.of_nat (length l))%Z /\
  (l <> [] -> within_budget w (ic_budget c)) /\
  Forall (fun xv => use_bound c xv.1) l.
Proof.
  induction 1 as [u|u x v l w Hu Hv Hrun IH].
  { rewrite usage_add_default. simpl. split_all; [done | lia | done | constructor]. }
  apply validate_use_ok in Hv as (_ & Hbound & Hone & _ & Hbudget & id & _ & ->). simpl in *.
  destruct IH as (-> & Hcount & Hin & Hl). subst u. split_all.
  - by rewrite usage_add_assoc.
  - rewrite Hcount. simpl. lia.
  - intros _. destruct l as [|xv l]; [|by apply Hin].
    inversion Hrun; subst. by rewrite usage_add_default.
  - by constructor.
Qed.

End Capability.

(** ** Properties *)

#[global] Instance InferenceEnvelopeV1_serialize_inj `{Deps} : SerializeInj InferenceEnvelopeV1.
Proof. ser_struct. Qed.
#[global] Instance InferenceBudgetV1_serialize_inj `{Deps} : SerializeInj InferenceBudgetV1.
Proof. ser_struct. Qed.
#[global] Instance InferenceCapabilityV1_serialize_inj `{HexLaws} : SerializeInj InferenceCapabilityV1.
Proof. ser_struct. Qed.

(** [validate_use] admits a use exactly when the definition is valid, the
    live facts are the capability's own (session, lifecycle nonce, peer,
    project, domain, epoch, policy, envelope), nothing is revoked, the session
    is active, the clock lies in the half-open lifetime, exactly one request is
    counted and the cumulative usage stays within the budget; the result then
    reports that usage.  A [u64] overflow of the sum cannot pass, since it
    exceeds the budget. *)
Theorem validate_use_iff `{JcsLaws} c x v b :
  budget_ok (ic_budget c) -> encodes c b ->
  validate_use c x = Ok v <->
  (ic_not_before_unix_ms c < ic_expires_at_unix_ms c)%Z /\ ib_requests (ic_budget c) <> 0%Z /\
  use_bound c x /\ iu_requests (cu_requested_usage x) = 1%Z /\
  within_budget (usage_add (cu_committed_usage x) (cu_requested_usage x)) (ic_budget c) /\
  v = mkValidatedUse (mkCapabilityId (hash_domain "ag-ng/inference-capability/v1" b))
        (ic_worker_principal c) (ic_session_id c) (ic_session_nonce c) (ic_envelope c)
        (usage_add (cu_committed_usage x) (cu_requested_usage x)) (cu_now_unix_ms x).
Proof.
  intros Hok He. rewrite validate_use_ok, validate_definition_ok. unfold capability_id.
  rewrite (domain_digest_ok _ _ _ He). simpl. split.
  - intros ([? ?] & ? & ? & ? & ? & id & [= <-] & ->). by split_all.
  - intros (? & ? & ? & ? & ? & ->). split_all; eauto using within_budget_fits.
Qed.

Definition toy_envelope : InferenceEnvelopeV1 :=
  mkEnvelope (mkText "primary") (mkText "model-1") (mkText "chat") (hash_bytes []).
Definition toy_worker : PrincipalId := mkPrincipalId (hash_bytes [Byte.x01]).
Definition toy_capability : InferenceCapabilityV1 :=
  mkCapability toy_domain (mkEpochId 7) (mkText "project-1") (mkText "session-1") (toy_nonce 1)
    toy_worker (hash_bytes [Byte.x02]) toy_envelope (mkBudget 2 100 200 300) 1000 2000 (toy_nonce 2).
Definition toy_use (committed requested : InferenceUsageV1) (now : Z) : CapabilityUseContextV1 :=
  mkUseContext toy_domain (mkEpochId 7) (mkText "project-1") (mkText "session-1") (toy_nonce 1)
    toy_worker (hash_bytes [Byte.x02]) toy_envelope committed requested now SessionActive NotRevoked.
Definition toy_validated (resulting : InferenceUsageV1) (now : Z) : ValidatedInferenceUseV1 :=
  mkValidatedUse
    (mkCapabilityId (hash_domain "ag-ng/inference-capability/v1" (toy_encoding toy_capability)))
    toy_worker (mkText "session-1") (toy_nonce 1) toy_envelope resulting now.

Lemma validate_use_iff_witness :
  validate_use toy_capability (toy_use usage_default (mkUsage 1 50 60 70) 1000) =
  Ok (toy_validated (mkUsage 1 50 60 70) 1000).
Proof.
  apply (validate_use_iff toy_capability _ _ (toy_encoding toy_capability)).
  - unfold budget_ok, u64_ok, U64_MAX. simpl. lia.
  - toy_encoded.
  - unfold use_bound, within_budget. simpl. split_all; (reflexivity || lia || done).
Defined.

(** However many uses a provider commits against one capability, each
    starting from the usage the previous one left, the committed total is the
    sum of what the uses asked for, it counts one request per use, and it never
    exceeds the budget in any dimension; every use of the run was made by the
    capability's worker in its active, unrevoked session inside the lifetime. *)
Theorem spend_run_within_budget `{Deps} c l w :
  spend_run c usage_default l w -> l <> [] ->
  w = total_requested l /\ iu_requests w = Z.of_nat (length l) /\
  within_budget w (ic_budget c) /\ (Z.of_nat (length l) <= ib_requests (ic_budget c))%Z /\
  Forall (fun xv => use_bound c xv.1) l.
Proof.
  intros Hrun Hne. destruct (spend_run_accounts _ _ _ _ Hrun) as (Hw & Hcount & Hin & Hb).
  specialize (Hin Hne). simpl in Hcount. split_all; try done.
  - rewrite Hw. unfold usage_add. simpl. by destruct (total_requested l).
  - destruct Hin. lia.
Qed.

Lemma spend_run_within_budget_witness :
  let l := [(toy_use usage_default (mkUsage 1 50 60 70) 1000, toy_validated (mkUsage 1 50 60 70) 1000);
            (toy_use (mkUsage 1 50 60 70) (mkUsage 1 10 10 10) 1999,
             toy_validated (mkUsage 2 60 70 80) 1999)] in
  (Z.of_nat (length l) <= ib_requests (ic_budget toy_capability))%Z.
Proof.
  intros l. destruct (spend_run_within_budget toy_capability l (mkUsage 2 60 70 80))
    as (_ & _ & _ & Hle & _); [|done | exact Hle].
  eapply spend_step; [reflexivity | vm_compute; reflexivity |].
  eapply spend_step; [reflexivity | vm_compute; reflexivity | constructor].
Defined.
