(* ===== verification/Identity.v ===== *)
(** * Principals and principal chains (ag-primitives/src/identity.rs)

    A principal's identity is the domain-separated digest of its canonical
    document; a chain is a linear lineage from a stable root to an active leaf.
    The theorems show that an identity determines its principal, that the chain
    validator accepts exactly the linear lineages, and that the separation
    predicate between proposer and ratifier holds exactly when the two lineages
    live in one authority context and share nobody. *)

From S2P Require Import Prelude Wire Fixture Digest Names Origin Capability.

(** ** Data *)

Record ExecutableIdentityV1 : Type := mkExecutable {
  ei_sha256 : Digest;
  ei_size : Z;
  ei_build_identity : option Digest
}.

Record LaunchProfileIdentityV1 : Type := mkLaunchProfile {
  lp_profile_digest : Digest;
  lp_protocol_schema_digest : Digest
}.

Record HostCredentialObservationV1 : Type := mkCredentials {
  hc_uid : Z;
  hc_gid : Z;
  hc_pid : Z;
  hc_cgroup : CgroupIdentity
}.

Inductive WorkerProviderRouteV1 : Type :=
  | Offline
  | Constrained (provider_policy_digest : Digest) (envelope : InferenceEnvelopeV1)
      (budget : InferenceBudgetV1).

Inductive PrincipalEnrollmentStateV1 : Type := EnrollmentActive | EnrollmentRevoked.

Record OperatorPrincipalV1 : Type := mkOperator {
  op_authority_domain : AuthorityDomainId;
  op_epoch : EpochId;
  op_enrollment_id : EnrollmentId;
  op_configured_role : RoleId;
  op_enrollment_policy_digest : Digest;
  op_enrollment_lifecycle_nonce : LifecycleNonce;
  op_enrollment_state : PrincipalEnrollmentStateV1;
  op_observed_credentials : HostCredentialObservationV1
}.

Record DaemonPrincipalV1 : Type := mkDaemon {
  dp_authority_domain : AuthorityDomainId;
  dp_epoch : EpochId;
  dp_configured_role : RoleId;
  dp_service_unit : SystemdUnitIdentity;
  dp_executable : ExecutableIdentityV1;
  dp_launch_profile : LaunchProfileIdentityV1;
  dp_service_instance_nonce : LifecycleNonce;
  dp_boot_identity : BootIdentity;
  dp_observed_credentials : HostCredentialObservationV1
}.

Record ServicePrincipalV1 : Type := mkService {
  sp_authority_domain : AuthorityDomainId;
  sp_epoch : EpochId;
  sp_enrollment_id : EnrollmentId;
  sp_configured_role : RoleId;
  sp_service_unit : SystemdUnitIdentity;
  sp_executable : ExecutableIdentityV1;
  sp_launch_profile : LaunchProfileIdentityV1;
  sp_service_instance_nonce : LifecycleNonce;
  sp_boot_identity : BootIdentity;
  sp_enrollment_state : PrincipalEnrollmentStateV1;
  sp_observed_credentials : HostCredentialObservationV1
}.

Record WorkerSessionPrincipalV1 : Type := mkWorker {
  wp_authority_domain : AuthorityDomainId;
  wp_epoch : EpochId;
  wp_project : ProjectId;
  wp_session_id : SessionId;
  wp_session_nonce : LifecycleNonce;
  wp_launcher : PrincipalId;
  wp_executable : ExecutableIdentityV1;
  wp_launch_profile : LaunchProfileIdentityV1;
  wp_proposal_workspace_identity : Digest;
  wp_security_profile_identity : Digest;
  wp_candidate_ingress_key_identity : Digest;
  wp_expires_at_unix_ms : Z;
  wp_output_budget_bytes : Z;
  wp_provider_route : WorkerProviderRouteV1;
  wp_input_set_digest : Digest;
  wp_observed_credentials : HostCredentialObservationV1
}.

Inductive PrincipalV1 : Type :=
  | Operator (value : OperatorPrincipalV1)
  | Daemon (value : DaemonPrincipalV1)
  | Service (value : ServicePrincipalV1)
  | WorkerSession (value : WorkerSessionPrincipalV1).

Inductive PrincipalKindV1 : Type := KOperator | KDaemon | KService | KWorkerSession.

#[global] Instance ExecutableIdentityV1_eq_dec : EqDecision ExecutableIdentityV1.
Proof. solve_decision. Defined.
#[global] Instance LaunchProfileIdentityV1_eq_dec : EqDecision LaunchProfileIdentityV1.
Proof. solve_decision. Defined.
#[global] Instance HostCredentialObservationV1_eq_dec : EqDecision HostCredentialObservationV1.
Proof. solve_decision. Defined.
#[global] Instance WorkerProviderRouteV1_eq_dec : EqDecision WorkerProviderRouteV1.
Proof. solve_decision. Defined.
#[global] Instance PrincipalEnrollmentStateV1_eq_dec : EqDecision PrincipalEnrollmentStateV1.
Proof. solve_decision. Defined.
#[global] Instance OperatorPrincipalV1_eq_dec : EqDecision OperatorPrincipalV1.
Proof. solve_decision. Defined.
#[global] Instance DaemonPrincipalV1_eq_dec : EqDecision DaemonPrincipalV1.
Proof. solve_decision. Defined.
#[global] Instance ServicePrincipalV1_eq_dec : EqDecision ServicePrincipalV1.
Proof. solve_decision. Defined.
#[global] Instance WorkerSessionPrincipalV1_eq_dec : EqDecision WorkerSessionPrincipalV1.
Proof. solve_decision. Defined.
#[global] Instance PrincipalV1_eq_dec : EqDecision PrincipalV1.
Proof. solve_decision. Defined.
#[global] Instance PrincipalKindV1_eq_dec : EqDecision PrincipalKindV1.
Proof. solve_decision. Defined.

(** ** Serialization *)

Section Serialization.
  Context `{Deps}.

#[global] Instance ExecutableIdentityV1_serialize : Serialize ExecutableIdentityV1 := fun e =>
  VObject [("sha256", to_value (ei_sha256 e)); ("size", to_value (ei_size e));
           ("build_identity", to_value (ei_build_identity e))].
#[global] Instance LaunchProfileIdentityV1_serialize : Serialize LaunchProfileIdentityV1 := fun p =>
  VObject [("profile_digest", to_value (lp_profile_digest p));
           ("protocol_schema_digest", to_value (lp_protocol_schema_digest p))].
#[global] Instance HostCredentialObservationV1_serialize : Serialize HostCredentialObservationV1 :=
  fun c => VObject [("uid", to_value (hc_uid c)); ("gid", to_value (hc_gid c));
                    ("pid", to_value (hc_pid c)); ("cgroup", to_value (hc_cgroup c))].
#[global] Instance WorkerProviderRouteV1_serialize : Serialize WorkerProviderRouteV1 := fun r =>
  match r with
  | Offline => VObject [("route", VString "offline")]
  | Constrained policy envelope budget =>
      VObject [("route", VString "constrained"); ("provider_policy_digest", to_value policy);
               ("envelope", to_value envelope); ("budget", to_value budget)]
  end.
#[global] Instance PrincipalEnrollmentStateV1_serialize : Serialize PrincipalEnrollmentStateV1 :=
  fun s => VString match s with EnrollmentActive => "active" | EnrollmentRevoked => "revoked" end.
#[global] Instance OperatorPrincipalV1_serialize : Serialize OperatorPrincipalV1 := fun p =>
  VObject [("authority_domain", to_value (op_authority_domain p));
           ("epoch", to_value (op_epoch p));
           ("enrollment_id", to_value (op_enrollment_id p));
           ("configured_role", to_value (op_configured_role p));
           ("enrollment_policy_digest", to_value (op_enrollment_policy_digest p));
           ("enrollment_lifecycle_nonce", to_value (op_enrollment_lifecycle_nonce p));
           ("enrollment_state", to_value (op_enrollment_state p));
           ("observed_credentials", to_value (op_observed_credentials p))].
#[global] Instance DaemonPrincipalV1_serialize : Serialize DaemonPrincipalV1 := fun p =>
  VObject [("authority_domain", to_value (dp_authority_domain p));
           ("epoch", to_value (dp_epoch p));
           ("configured_role", to_value (dp_configured_role p));
           ("service_unit", to_value (dp_service_unit p));
           ("executable", to_value (dp_executable p));
           ("launch_profile", to_value (dp_launch_profile p));
           ("service_instance_nonce", to_value (dp_service_instance_nonce p));
           ("boot_identity", to_value (dp_boot_identity p));
           ("observed_credentials", to_value (dp_observed_credentials p))].
#[global] Instance ServicePrincipalV1_serialize : Serialize ServicePrincipalV1 := fun p =>
  VObject [("authority_domain", to_value (sp_authority_domain p));
           ("epoch", to_value (sp_epoch p));
           ("enrollment_id", to_value (sp_enrollment_id p));
           ("configured_role", to_value (sp_configured_role p));
           ("service_unit", to_value (sp_service_unit p));
           ("executable", to_value (sp_executable p));
           ("launch_profile", to_value (sp_launch_profile p));
           ("service_instance_nonce", to_value (sp_service_instance_nonce p));
           ("boot_identity", to_value (sp_boot_identity p));
           ("enrollment_state", to_value (sp_enrollment_state p));
           ("observed_credentials", to_value (sp_observed_credentials p))].
#[global] Instance WorkerSessionPrincipalV1_serialize : Serialize WorkerSessionPrincipalV1 := fun p =>
  VObject [("authority_domain", to_value (wp_authority_domain p));
           ("epoch", to_value (wp_epoch p));
           ("project", to_value (wp_project p));
           ("session_id", to_value (wp_session_id p));
           ("session_nonce", to_value (wp_session_nonce p));
           ("launcher", to_value (wp_launcher p));
           ("executable", to_value (wp_executable p));
           ("launch_profile", to_value (wp_launch_profile p));
           ("proposal_workspace_identity", to_value (wp_proposal_workspace_identity p));
           ("security_profile_identity", to_value (wp_security_profile_identity p));
           ("candidate_ingress_key_identity", to_value (wp_candidate_ingress_key_identity p));
           ("expires_at_unix_ms", to_value (wp_expires_at_unix_ms p));
           ("output_budget_bytes", to_value (wp_output_budget_bytes p));
           ("provider_route", to_value (wp_provider_route p));
           ("input_set_digest", to_value (wp_input_set_digest p));
           ("observed_credentials", to_value (wp_observed_credentials p))].
#[global] Instance PrincipalV1_serialize : Serialize PrincipalV1 := fun p =>
  match p with
  | Operator v => VObject [("principal_kind", VString "operator"); ("principal", to_value v)]
  | Daemon v => VObject [("principal_kind", VString "daemon"); ("principal", to_value v)]
  | Service v => VObject [("principal_kind", VString "service"); ("principal", to_value v)]
  | WorkerSession v =>
      VObject [("principal_kind", VString "worker_session"); ("principal", to_value v)]
  end.
#[global] Instance PrincipalKindV1_serialize : Serialize PrincipalKindV1 := fun k =>
  VString match k with
          | KOperator => "operator"
          | KDaemon => "daemon"
          | KService => "service"
          | KWorkerSession => "worker_session"
          end.

(** [PrincipalV1::id], and the [id] of each variant's record. *)
Definition PrincipalV1_id {E} (p : PrincipalV1) : res E PrincipalId :=
  let? digest := domain_digest "ag-ng/principal/v1" p in
  Ok (mkPrincipalId digest).

(** [PrincipalV1::kind]. *)
Definition PrincipalV1_kind (p : PrincipalV1) : PrincipalKindV1 :=
  match p with
  | Operator _ => KOperator
  | Daemon _ => KDaemon
  | Service _ => KService
  | WorkerSession _ => KWorkerSession
  end.

(** [PrincipalV1::authority_domain] and [PrincipalV1::epoch]. *)
Definition PrincipalV1_authority_domain (p : PrincipalV1) : AuthorityDomainId :=
  match p with
  | Operator v => op_authority_domain v
  | Daemon v => dp_authority_domain v
  | Service v => sp_authority_domain v
  | WorkerSession v => wp_authority_domain v
  end.
Definition PrincipalV1_epoch (p : PrincipalV1) : EpochId :=
  match p with
  | Operator v => op_epoch v
  | Daemon v => dp_epoch v
  | Service v => sp_epoch v
  | WorkerSession v => wp_epoch v
  end.

End Serialization.

(** ** Principal chains *)

Record PrincipalChainNodeV1 : Type := mkNode {
  pn_principal_id : PrincipalId;
  pn_kind : PrincipalKindV1;
  pn_parent : option PrincipalId
}.

#[global] Instance PrincipalChainNodeV1_eq_dec : EqDecision PrincipalChainNodeV1.
Proof. solve_decision. Defined.
#[global] Instance PrincipalChainNodeV1_serialize : Serialize PrincipalChainNodeV1 := fun n =>
  VObject [("principal_id", to_value (pn_principal_id n)); ("kind", to_value (pn_kind n));
           ("parent", to_value (pn_parent n))].

(** [PrincipalChainNodeV1::root] and [::child]. *)
Definition node_root (id : PrincipalId) (kind : PrincipalKindV1) : PrincipalChainNodeV1 :=
  mkNode id kind None.
Definition node_child (id : PrincipalId) (kind : PrincipalKindV1) (parent : PrincipalId)
    : PrincipalChainNodeV1 := mkNode id kind (Some parent).

Record PrincipalChainV1 : Type := mkChain {
  pc_authority_domain : AuthorityDomainId;
  pc_epoch : EpochId;
  pc_nodes : list PrincipalChainNodeV1
}.

#[global] Instance PrincipalChainV1_eq_dec : EqDecision PrincipalChainV1.
Proof. solve_decision. Defined.
(** [PrincipalChainWireRef]. *)
#[global] Instance PrincipalChainV1_serialize : Serialize PrincipalChainV1 := fun c =>
  VObject [("authority_domain", to_value (pc_authority_domain c)); ("epoch", to_value (pc_epoch c));
           ("nodes", to_value (pc_nodes c))].

Inductive PrincipalChainError : Type :=
  | ChainEmpty
  | WorkerRoot
  | RootHasParent
  | ParentMismatch (index : nat)
  | DuplicatePrincipal (index : nat).

Inductive PrincipalSeparationPredicateV1 : Type := DistinctRootsNoSharedLineage.

Inductive PrincipalSeparationFailure : Type :=
  | AuthorityContextMismatch
  | SameStableRoot
  | RatifierDescendsFromProposer
  | SharedWorkerAncestor
  | SharedPrincipal.

(** The loop of [validate_chain]; [nodes] is the whole slice, which the body
    indexes at [index - 1]. *)
Fixpoint validate_chain_loop (nodes : list PrincipalChainNodeV1) (seen : gset PrincipalId)
    (index : nat) (rest : list PrincipalChainNodeV1) : res PrincipalChainError unit :=
  match rest with
  | [] => Ok tt
  | node :: rest' =>
      reject_if (bool_decide (pn_principal_id node ∈ seen)) (DuplicatePrincipal index) ;?
      let? mismatch :=
        if 0 <? index
        then let? previous := expect (nodes !! (index - 1)) in
             Ok (pn_parent node != Some (pn_principal_id previous))
        else Ok false in
      reject_if mismatch (ParentMismatch index) ;?
      validate_chain_loop nodes ({[pn_principal_id node]} ∪ seen) (S index) rest'
  end.

(** [validate_chain]. *)
Definition validate_chain (nodes : list PrincipalChainNodeV1) : res PrincipalChainError unit :=
  match nodes with
  | [] => Err ChainEmpty
  | root :: _ =>
      reject_if (pn_kind root == KWorkerSession) WorkerRoot ;?
      reject_if (pn_parent root != None) RootHasParent ;?
      validate_chain_loop nodes ∅ 0 nodes
  end.

(** [PrincipalChainV1::new], which the deserializer calls as well. *)
Definition PrincipalChainV1_new (domain : AuthorityDomainId) (epoch : EpochId)
    (nodes : list PrincipalChainNodeV1) : res PrincipalChainError PrincipalChainV1 :=
  validate_chain nodes ;? Ok (mkChain domain epoch nodes).

(** [PrincipalChainV1::root] and [::leaf]: panic on an empty chain. *)
Definition chain_root {E} (c : PrincipalChainV1) : res E PrincipalChainNodeV1 :=
  expect (pc_nodes c !! 0).
Definition chain_leaf {E} (c : PrincipalChainV1) : res E PrincipalChainNodeV1 :=
  expect (last (pc_nodes c)).

(** [PrincipalChainV1::id]. *)
Definition PrincipalChainV1_id `{Deps} {E} (c : PrincipalChainV1) : res E Digest :=
  domain_digest "ag-ng/principal-chain/v1" c.

(** [nodes.iter().any(|node| set.contains(&node.principal_id))]. *)
Definition any_in (nodes : list PrincipalChainNodeV1) (ids : gset PrincipalId) : bool :=
  existsb (fun n => bool_decide (pn_principal_id n ∈ ids)) nodes.

Definition is_worker (n : PrincipalChainNodeV1) : bool := pn_kind n == KWorkerSession.

(** [check_distinct_roots_no_shared_lineage]. *)
Definition check_distinct_roots_no_shared_lineage (self ratifier : PrincipalChainV1)
    : res PrincipalSeparationFailure unit :=
  reject_if ((pc_authority_domain self != pc_authority_domain ratifier)
             || (pc_epoch self != pc_epoch ratifier)) AuthorityContextMismatch ;?
  let? self_root := chain_root self in
  let? ratifier_root := chain_root ratifier in
  reject_if (pn_principal_id self_root == pn_principal_id ratifier_root) SameStableRoot ;?
  let? self_leaf := chain_leaf self in
  reject_if (existsb (fun n => pn_principal_id n == pn_principal_id self_leaf) (pc_nodes ratifier))
    RatifierDescendsFromProposer ;?
  let proposer_workers : gset PrincipalId :=
    list_to_set (map pn_principal_id (List.filter is_worker (pc_nodes self))) in
  reject_if (existsb (fun n => is_worker n && bool_decide (pn_principal_id n ∈ proposer_workers))
               (pc_nodes ratifier)) SharedWorkerAncestor ;?
  let proposer_nodes : gset PrincipalId := list_to_set (map pn_principal_id (pc_nodes self)) in
  reject_if (any_in (pc_nodes ratifier) proposer_nodes) SharedPrincipal ;?
  Ok tt.

(** [PrincipalChainV1::satisfies]. *)
Definition satisfies (self ratifier : PrincipalChainV1) (predicate : PrincipalSeparationPredicateV1)
    : res PrincipalSeparationFailure unit :=
  match predicate with
  | DistinctRootsNoSharedLineage => check_distinct_roots_no_shared_lineage self ratifier
  end.

(** [PrincipalChainV1::independent_from]. *)
Definition independent_from (self ratifier : PrincipalChainV1) : res PrincipalSeparationFailure bool :=
  match satisfies self ratifier DistinctRootsNoSharedLineage with
  | Ok _ => Ok true
  | Err _ => Ok false
  | Panic => Panic
  end.

(** ** Serialized principals determine their values *)

#[global] Instance ExecutableIdentityV1_inj `{Deps} : SerializeInj ExecutableIdentityV1.
Proof. ser_struct. Qed.
#[global] Instance LaunchProfileIdentityV1_inj `{Deps} : SerializeInj LaunchProfileIdentityV1.
Proof. ser_struct. Qed.
#[global] Instance HostCredentialObservationV1_inj `{Deps} : SerializeInj HostCredentialObservationV1.
Proof. ser_struct. Qed.
#[global] Instance WorkerProviderRouteV1_inj `{HexLaws} : SerializeInj WorkerProviderRouteV1.
Proof.
  intros [|p e b] [|p' e' b'] Hv; [done | | |].
  - ser_member Hv "route". by apply string_equiv in E.
  - ser_member Hv "route". by apply string_equiv in E.
  - ser_member Hv "provider_policy_digest". ser_member Hv "envelope". ser_member Hv "budget".
    f_equal; by apply to_value_inj.
Qed.
#[global] Instance PrincipalEnrollmentStateV1_inj `{Deps} : SerializeInj PrincipalEnrollmentStateV1.
Proof. ser_unit_enum. Qed.
#[global] Instance PrincipalKindV1_inj `{Deps} : SerializeInj PrincipalKindV1.
Proof. ser_unit_enum. Qed.
#[global] Instance OperatorPrincipalV1_inj `{HexLaws} : SerializeInj OperatorPrincipalV1.
Proof. ser_struct. Qed.
#[global] Instance DaemonPrincipalV1_inj `{HexLaws} : SerializeInj DaemonPrincipalV1.
Proof. ser_struct. Qed.
#[global] Instance ServicePrincipalV1_inj `{HexLaws} : SerializeInj ServicePrincipalV1.
Proof. ser_struct. Qed.
#[global] Instance WorkerSessionPrincipalV1_inj `{HexLaws} : SerializeInj WorkerSessionPrincipalV1.
Proof. ser_struct. Qed.
#[global] Instance PrincipalV1_inj `{HexLaws} : SerializeInj PrincipalV1.
Proof.
  intros [p|p|p|p] [q|q|q|q] Hv; ser_member Hv "principal_kind"; apply string_equiv in E;
    try done; ser_member Hv "principal"; f_equal; by apply to_value_inj.
Qed.
#[global] Instance PrincipalChainNodeV1_inj : SerializeInj PrincipalChainNodeV1.
Proof. ser_struct. Qed.
#[global] Instance PrincipalChainV1_inj : SerializeInj PrincipalChainV1.
Proof. ser_struct. Qed.

(** ** Lineages *)

(** Each node names its predecessor as its parent. *)
Fixpoint descends (parent : PrincipalId) (l : list PrincipalChainNodeV1) : Prop :=
  match l with
  | [] => True
  | n :: l' => pn_parent n = Some parent /\ descends (pn_principal_id n) l'
  end.

Definition node_ids (l : list PrincipalChainNodeV1) : list PrincipalId := map pn_principal_id l.

(** A linear lineage: a stable root without parent, each further node the child
    of the one before it, nobody twice. *)
Definition lineage (l : list PrincipalChainNodeV1) : Prop :=
  NoDup (node_ids l) /\
  match l with
  | [] => False
  | root :: rest =>
      pn_kind root <> KWorkerSession /\ pn_parent root = None /\ descends (pn_principal_id root) rest
  end.

Lemma validate_chain_loop_spec past n rest seen :
  seen = list_to_set (node_ids (past ++ [n])) -> NoDup (node_ids (past ++ [n])) ->
  validate_chain_loop (past ++ n :: rest) seen (S (length past)) rest = Ok tt <->
  NoDup (node_ids (past ++ n :: rest)) /\ descends (pn_principal_id n) rest.
Proof.
  revert past n seen. induction rest as [|m rest IH]; intros past n seen Hseen Hnd; [simpl; naive_solver|].
  cbn [validate_chain_loop]. rewrite guard_ok, bool_decide_eq_false.
  assert ((0 <? S (length past)) = true) as -> by (apply Nat.ltb_lt; lia).
  replace (S (length past) - 1) with (length past) by lia.
  rewrite list_lookup_middle by done. cbn [expect res_bind]. rewrite guard_ok, negb_bool_decide_false.
  assert (past ++ n :: m :: rest = (past ++ [n]) ++ m :: rest) as Happ by (by rewrite <- app_assoc).
  assert (pn_principal_id m ∉ seen <-> NoDup (node_ids ((past ++ [n]) ++ [m]))) as Hm.
  { subst seen. rewrite elem_of_list_to_set. unfold node_ids in *.
    rewrite (map_app _ (past ++ [n])), NoDup_app. simpl. split.
    - intros Hm. split_all; [done | | apply NoDup_singleton].
      intros x Hx Hin. apply list_elem_of_singleton in Hin as ->. done.
    - intros (_ & Hd & _) Hin. apply (Hd _ Hin). by left. }
  rewrite Happ. replace (S (S (length past))) with (S (length (past ++ [n]))) by (rewrite length_app; simpl; lia).
  cbn [descends]. split.
  - intros (Hnew & Hpar & Hrest). apply IH in Hrest as [Hnd' Hdesc]; [by split_all| |by apply Hm].
    subst seen. unfold node_ids. rewrite (map_app _ (past ++ [n])), list_to_set_app_L. simpl. set_solver.
  - intros (Hnd' & Hpar & Hdesc).
    assert (NoDup (node_ids ((past ++ [n]) ++ [m]))) as Hndm.
    { unfold node_ids in *. change (m :: rest) with ([m] ++ rest) in Hnd'.
      rewrite (app_assoc (past ++ [n])), map_app in Hnd'. by apply NoDup_app in Hnd' as [? _]. }
    split_all; [by apply Hm | done |]. apply IH; [| done | done].
    subst seen. unfold node_ids. rewrite (map_app _ (past ++ [n])), list_to_set_app_L. simpl. set_solver.
Qed.

Lemma validate_chain_spec l : validate_chain l = Ok tt <-> lineage l.
Proof.
  unfold validate_chain, lineage. destruct l as [|root rest]; [split; [done | by intros []]|].
  rewrite !guard_ok, bool_decide_eq_false, negb_bool_decide_false.
  cbn [validate_chain_loop]. rewrite bool_decide_eq_false_2 by set_solver. cbn [reject_if res_bind Nat.ltb Nat.leb].
  rewrite (validate_chain_loop_spec [] root rest); [simpl; tauto | set_solver | apply NoDup_singleton].
Qed.

Lemma validate_chain_loop_no_panic l seen i rest :
  length l = i + length rest -> no_panic (validate_chain_loop l seen i rest).
Proof.
  revert seen i. induction rest as [|m rest IH]; intros seen i Hl; [done|]. simpl in *.
  apply res_bind_no_panic; [apply reject_if_no_panic|]. intros _ _.
  apply res_bind_no_panic.
  - destruct (Nat.ltb_spec 0 i); [|done].
    destruct (lookup_lt_is_Some_2 l (i - 1)) as [x ->]; [lia|]. done.
  - intros b _. apply res_bind_no_panic; [apply reject_if_no_panic|]. intros _ _. apply IH. lia.
Qed.

Lemma validate_chain_no_panic l : no_panic (validate_chain l).
Proof.
  unfold validate_chain. destruct l as [|n l]; [done|].
  do 2 (apply res_bind_no_panic; [apply reject_if_no_panic|]; intros _ _).
  by apply validate_chain_loop_no_panic.
Qed.

(** ** Separation of proposer and ratifier *)

Definition shares_nobody (a b : list PrincipalChainNodeV1) : Prop :=
  forall id, id ∈ node_ids a -> id ∉ node_ids b.

Definition same_context (a b : PrincipalChainV1) : Prop :=
  pc_authority_domain a = pc_authority_domain b /\ pc_epoch a = pc_epoch b.

(** A chain whose nodes form a lineage: what [PrincipalChainV1::new] returns. *)
Definition chain_valid (c : PrincipalChainV1) : Prop := lineage (pc_nodes c).

Lemma chain_new_valid d e l c : PrincipalChainV1_new d e l = Ok c <-> c = mkChain d e l /\ chain_valid c.
Proof.
  unfold PrincipalChainV1_new, chain_valid. rewrite then_ok, validate_chain_spec. split.
  - by intros [? [= <-]].
  - by intros [-> ?].
Qed.

Lemma lineage_ends l : lineage l ->
  exists r f, l !! 0 = Some r /\ last l = Some f /\ r ∈ l /\ f ∈ l.
Proof.
  intros [_ Hl]. destruct l as [|r l]; [done|]. exists r.
  destruct (last (r :: l)) as [f|] eqn:Hf; [|by apply last_None in Hf]. exists f.
  split_all; [done | done | by left |]. apply last_Some in Hf as [l' ->].
  apply elem_of_app. right. by left.
Qed.

Lemma node_ids_in n l : n ∈ l -> pn_principal_id n ∈ node_ids l.
Proof. unfold node_ids. rewrite !list_elem_of_In. apply in_map. Qed.

(** Nobody of [l] satisfies a test that puts the node's identity in [a]. *)
Lemma existsb_disjoint (f : PrincipalChainNodeV1 -> bool) a l :
  (forall n, f n = true -> pn_principal_id n ∈ node_ids a) -> shares_nobody a l -> existsb f l = false.
Proof.
  intros Hf Hd. apply not_true_iff_false. intros (n & Hin & Hn)%existsb_exists.
  apply (Hd (pn_principal_id n)); [by apply Hf|]. by apply node_ids_in, list_elem_of_In.
Qed.

Lemma any_in_spec a l :
  any_in l (list_to_set (map pn_principal_id a)) = false <-> shares_nobody a l.
Proof.
  split.
  - intros Hn id Ha Hl. apply not_true_iff_false in Hn. apply Hn, existsb_exists.
    unfold node_ids in Hl. rewrite list_elem_of_In in Hl. apply in_map_iff in Hl as (n & <- & Hin).
    exists n. split; [done|]. apply bool_decide_eq_true. by apply elem_of_list_to_set.
  - apply existsb_disjoint. intros n Hn%bool_decide_eq_true. by apply elem_of_list_to_set in Hn.
Qed.

Lemma check_separation_spec a b :
  chain_valid a -> chain_valid b ->
  no_panic (check_distinct_roots_no_shared_lineage a b) /\
  (check_distinct_roots_no_shared_lineage a b = Ok tt <->
   same_context a b /\ shares_nobody (pc_nodes a) (pc_nodes b)).
Proof.
  intros Ha Hb. destruct (lineage_ends _ Ha) as (ra & fa & Hra & Hfa & Hina & Hinf).
  destruct (lineage_ends _ Hb) as (rb & fb & Hrb & _ & Hinb & _).
  unfold check_distinct_roots_no_shared_lineage, chain_root, chain_leaf, same_context.
  rewrite Hra, Hrb, Hfa. cbn [expect res_bind]. split.
  - repeat (apply res_bind_no_panic; [apply reject_if_no_panic|]; intros _ _). done.
  - rewrite !guard_ok, any_in_spec, orb_false, !negb_bool_decide_false, bool_decide_eq_false.
    split; [by intros ([? ?] & _ & _ & _ & ? & _)|]. intros [[? ?] Hd]. split_all; try done.
    + intros He. apply (Hd (pn_principal_id ra)); [by apply node_ids_in|]. rewrite He. by apply node_ids_in.
    + apply (existsb_disjoint _ (pc_nodes a)); [|done]. intros n ->%bool_decide_eq_true.
      by apply node_ids_in.
    + apply (existsb_disjoint _ (pc_nodes a)); [|done]. intros n [_ Hn]%andb_true_iff.
      apply bool_decide_eq_true, elem_of_list_to_set in Hn. rewrite list_elem_of_In in Hn.
      apply in_map_iff in Hn as (m & <- & [Hm _]%filter_In). apply node_ids_in. by apply list_elem_of_In.
Qed.

Lemma shares_nobody_sym a b : shares_nobody a b -> shares_nobody b a.
Proof. intros H id Hb Ha. by apply (H id). Qed.

(** ** Properties *)

(** A principal's identity digest determines the whole principal, its kind
    included: two principals with one identity are equal, or the two
    domain-separated encodings are a SHA-256 collision. *)
Theorem principal_id_binds `{JcsLaws, !HexLaws, !Sha256Laws} p q bp bq i :
  encodes p bp -> encodes q bq ->
  PrincipalV1_id (E := Empty_set) p = Ok i -> PrincipalV1_id (E := Empty_set) q = Ok i ->
  p = q \/ collision (domain_preimage "ag-ng/principal/v1" bp) (domain_preimage "ag-ng/principal/v1" bq).
Proof.
  unfold PrincipalV1_id. intros Hp Hq Hip Hiq. res_inv.
  eapply (domain_digest_binds "ag-ng/principal/v1"); done.
Qed.

Definition toy_credentials : HostCredentialObservationV1 := mkCredentials 1000 1000 4242 (mkText "cg:1").
Definition toy_operator (account : string) : PrincipalV1 :=
  Operator (mkOperator toy_domain (mkEpochId 7) (mkText account) (mkText "operator") (hash_bytes [])
    (toy_nonce 3) EnrollmentActive toy_credentials).

Lemma principal_id_binds_witness :
  toy_operator "alice" = toy_operator "alice" \/
  collision (domain_preimage "ag-ng/principal/v1" (toy_encoding (toy_operator "alice")))
            (domain_preimage "ag-ng/principal/v1" (toy_encoding (toy_operator "alice"))).
Proof.
  eapply (principal_id_binds (toy_operator "alice") (toy_operator "alice")); [toy_encoded | toy_encoded | | ].
  all: unfold PrincipalV1_id; erewrite domain_digest_ok; [reflexivity | toy_encoded].
Defined.

(** The chain validator accepts exactly the linear lineages: a nonempty list
    whose root is not a worker session and has no parent, in which every
    further node names its immediate predecessor as parent and nobody appears
    twice.  It returns an error on every other list and never panics. *)
Theorem validate_chain_iff_lineage d e nodes :
  (forall c, PrincipalChainV1_new d e nodes = Ok c <-> c = mkChain d e nodes /\ lineage nodes) /\
  ((exists err, PrincipalChainV1_new d e nodes = Err err) <-> ~ lineage nodes).
Proof.
  split.
  - intros c. rewrite chain_new_valid. unfold chain_valid. split; intros [-> ?]; by split.
  - unfold PrincipalChainV1_new. pose proof (validate_chain_no_panic nodes) as Hp.
    rewrite <- validate_chain_spec. destruct (validate_chain nodes) as [[]|err|]; simpl.
    + split; [by intros [] | done].
    + split; [done | by eexists].
    + by destruct Hp.
Qed.

(** C38. Proposer/ratifier separation is exactly disjointness of the lineages: on
    valid chains the named predicate succeeds if and only if both chains
    belong to one authority domain and epoch and no principal occurs in both.
    It never panics, and although the code's descendant test is directed, the
    outcome is symmetric. *)
Theorem separation_iff_disjoint a b :
  chain_valid a -> chain_valid b ->
  (satisfies a b DistinctRootsNoSharedLineage = Ok tt <->
   same_context a b /\ shares_nobody (pc_nodes a) (pc_nodes b)) /\
  independent_from a b <> Panic /\ independent_from a b = independent_from b a.
Proof.
  intros Ha Hb. destruct (check_separation_spec a b Ha Hb) as [Hp Hab].
  destruct (check_separation_spec b a Hb Ha) as [Hq Hba]. unfold independent_from. simpl.
  split; [exact Hab|].
  assert (check_distinct_roots_no_shared_lineage a b = Ok tt <->
          check_distinct_roots_no_shared_lineage b a = Ok tt) as Hsym.
  { rewrite Hab, Hba. unfold same_context.
    split; intros [[? ?] Hd]; (split; [by split | by apply shares_nobody_sym]). }
  unfold no_panic in *.
  destruct (check_distinct_roots_no_shared_lineage a b) as [[]| |] eqn:Eab,
    (check_distinct_roots_no_shared_lineage b a) as [[]| |] eqn:Eba; try done; naive_solver.
Qed.

Definition toy_principal (z : Z) : PrincipalId := mkPrincipalId (hash_bytes [byte_of z]).
Definition toy_chain (root leaf : Z) : PrincipalChainV1 :=
  mkChain toy_domain (mkEpochId 7)
    [node_root (toy_principal root) KDaemon;
     node_child (toy_principal leaf) KWorkerSession (toy_principal root)].

Lemma toy_chain_valid root leaf :
  validate_chain (pc_nodes (toy_chain root leaf)) = Ok tt -> chain_valid (toy_chain root leaf).
Proof. apply validate_chain_spec. Qed.

Lemma separation_iff_disjoint_witness :
  satisfies (toy_chain 1 2) (toy_chain 3 4) DistinctRootsNoSharedLineage = Ok tt.
Proof.
  apply (separation_iff_disjoint (toy_chain 1 2) (toy_chain 3 4)).
  - apply toy_chain_valid. vm_compute. reflexivity.
  - apply toy_chain_valid. vm_compute. reflexivity.
  - split; [split; reflexivity|]. apply any_in_spec. vm_compute. reflexivity.
Defined.
