(* ===== verification/Judgment.v ===== *)
(** * Judgments and paths (ag-kernel/src/judgment.rs, path.rs)

    Nonempty sequences, the total semantic judgment, the operational envelope
    that may fail to reach one, and the lossless composition of obstructions
    along a path. *)

From S2P Require Import Prelude Wire Fixture Digest.

(** ** Nonempty sequences *)

Record NonEmpty (T : Type) : Type := mkNonEmpty { ne_head : T; ne_tail : list T }.
Arguments mkNonEmpty {T} _ _.
Arguments ne_head {T} _.
Arguments ne_tail {T} _.

#[global] Instance NonEmpty_eq_dec `{EqDecision T} : EqDecision (NonEmpty T).
Proof. solve_decision. Defined.
#[global] Instance NonEmpty_serialize `{Serialize T} : Serialize (NonEmpty T) := fun n =>
  VObject [("head", to_value (ne_head n)); ("tail", to_value (ne_tail n))].
#[global] Instance NonEmpty_serialize_inj `{SerializeInj T} : SerializeInj (NonEmpty T).
Proof. ser_struct. Qed.

(** [NonEmpty::new], [from_vec], [push], [first], [into_vec] (and [iter]), [len],
    [map]. *)
Definition NonEmpty_new {T} (head : T) : NonEmpty T := mkNonEmpty head [].
Definition NonEmpty_from_vec {T} (values : list T) : option (NonEmpty T) :=
  match values with
  | [] => None
  | head :: tail => Some (mkNonEmpty head tail)
  end.
Definition NonEmpty_push {T} (n : NonEmpty T) (value : T) : NonEmpty T :=
  mkNonEmpty (ne_head n) (ne_tail n ++ [value]).
Definition NonEmpty_first {T} (n : NonEmpty T) : T := ne_head n.
Definition NonEmpty_into_vec {T} (n : NonEmpty T) : list T := ne_head n :: ne_tail n.
Definition NonEmpty_len {T} (n : NonEmpty T) : nat := 1 + length (ne_tail n).
Definition NonEmpty_map {T U} (f : T -> U) (n : NonEmpty T) : NonEmpty U :=
  mkNonEmpty (f (ne_head n)) (map f (ne_tail n)).

(** [for value in values { n.push(value) }]. *)
Definition NonEmpty_push_all {T} (n : NonEmpty T) (values : list T) : NonEmpty T :=
  fold_left NonEmpty_push values n.

Lemma from_vec_Some {T} (l : list T) n : NonEmpty_from_vec l = Some n <-> NonEmpty_into_vec n = l.
Proof. destruct l, n; unfold NonEmpty_into_vec; simpl; naive_solver. Qed.
Lemma from_vec_None {T} (l : list T) : NonEmpty_from_vec l = None <-> l = [].
Proof. by destruct l. Qed.
Lemma from_into_vec {T} (n : NonEmpty T) : NonEmpty_from_vec (NonEmpty_into_vec n) = Some n.
Proof. by apply from_vec_Some. Qed.
Lemma into_vec_push {T} (n : NonEmpty T) x : NonEmpty_into_vec (NonEmpty_push n x) = NonEmpty_into_vec n ++ [x].
Proof. done. Qed.
Lemma into_vec_push_all {T} (n : NonEmpty T) l :
  NonEmpty_into_vec (NonEmpty_push_all n l) = NonEmpty_into_vec n ++ l.
Proof.
  unfold NonEmpty_push_all. revert n. induction l as [|x l IH]; intros n; simpl; [by rewrite app_nil_r|].
  rewrite IH, into_vec_push, <- app_assoc. done.
Qed.
Lemma push_all_eq {T} (n : NonEmpty T) l :
  NonEmpty_push_all n l = mkNonEmpty (ne_head n) (ne_tail n ++ l).
Proof.
  unfold NonEmpty_push_all. revert n. induction l as [|x l IH]; intros [h t]; simpl; [by rewrite app_nil_r|].
  rewrite IH. simpl. by rewrite <- app_assoc.
Qed.
Lemma from_vec_push_all {T} (x : T) l :
  NonEmpty_from_vec (x :: l) = Some (NonEmpty_push_all (NonEmpty_new x) l).
Proof. apply from_vec_Some. by rewrite into_vec_push_all. Qed.
Lemma into_vec_map {T U} (f : T -> U) n : NonEmpty_into_vec (NonEmpty_map f n) = map f (NonEmpty_into_vec n).
Proof. done. Qed.
Lemma length_into_vec {T} (n : NonEmpty T) : length (NonEmpty_into_vec n) = NonEmpty_len n.
Proof. done. Qed.

(** ** Judgments *)

Inductive NativeJudgment (W R : Type) : Type := Admit (w : W) | Refuse (r : R).
Arguments Admit {W R} w.
Arguments Refuse {W R} r.

#[global] Instance NativeJudgment_eq_dec `{EqDecision W, EqDecision R} : EqDecision (NativeJudgment W R).
Proof. solve_decision. Defined.
#[global] Instance NativeJudgment_serialize `{Serialize W, Serialize R} : Serialize (NativeJudgment W R) :=
  fun j => match j with
           | Admit w => VObject [("Admit", to_value w)]
           | Refuse r => VObject [("Refuse", to_value r)]
           end.

(** [NativeJudgment::map_admit] and [::map_refuse]. *)
Definition map_admit {W R U} (f : W -> U) (j : NativeJudgment W R) : NativeJudgment U R :=
  match j with Admit w => Admit (f w) | Refuse r => Refuse r end.
Definition map_refuse {W R U} (f : R -> U) (j : NativeJudgment W R) : NativeJudgment W U :=
  match j with Admit w => Admit w | Refuse r => Refuse (f r) end.

Inductive OperationalFailureKind : Type :=
  | ObservationUnavailable | Timeout | CustodyFailure | StoreFailure | ClockFailure
  | IncompleteEvaluation.

Record FailureEvidence : Type := mkFailureEvidence {
  fe_kind : OperationalFailureKind;
  fe_evidence_digest : Digest
}.

Inductive OperationalEvaluation (W R : Type) : Type :=
  | Evaluated (j : NativeJudgment W R)
  | Indeterminate (evidence : NonEmpty FailureEvidence).
Arguments Evaluated {W R} j.
Arguments Indeterminate {W R} evidence.

(** [OperationalEvaluation::indeterminate]. *)
Definition indeterminate {W R} (e : FailureEvidence) : OperationalEvaluation W R :=
  Indeterminate (NonEmpty_new e).

(** [OperationalEvaluation::admitted]. *)
Definition admitted_witness {W R} (e : OperationalEvaluation W R) : option W :=
  match e with
  | Evaluated (Admit w) => Some w
  | Evaluated (Refuse _) | Indeterminate _ => None
  end.

(** ** Paths *)

Record LocatedObstruction (O : Type) : Type := mkLocated { edge_id : Digest; obstruction : O }.
Arguments mkLocated {O} _ _.
Arguments edge_id {O} _.
Arguments obstruction {O} _.

(** [struct PathVerdict<O>]. *)
Record PathVerdict (O : Type) : Type := mkPathVerdict { obstructions : list (LocatedObstruction O) }.
Arguments mkPathVerdict {O} _.
Arguments obstructions {O} _.

(** [PathVerdict::clean], [obstructed], [push], [compose], [is_clean] and
    [rename] (with [LocatedObstruction::rename]). *)
Definition path_clean {O} : PathVerdict O := mkPathVerdict [].
Definition path_obstructed {O} (edge : Digest) (o : O) : PathVerdict O := mkPathVerdict [mkLocated edge o].
Definition path_push {O} (p : PathVerdict O) (edge : Digest) (o : O) : PathVerdict O :=
  mkPathVerdict (obstructions p ++ [mkLocated edge o]).
Definition path_compose {O} (self later : PathVerdict O) : PathVerdict O :=
  mkPathVerdict (obstructions self ++ obstructions later).
Definition path_is_clean {O} (p : PathVerdict O) : bool :=
  match obstructions p with [] => true | _ => false end.
Definition located_rename {O U} (f : O -> U) (l : LocatedObstruction O) : LocatedObstruction U :=
  mkLocated (edge_id l) (f (obstruction l)).
Definition path_rename {O U} (f : O -> U) (p : PathVerdict O) : PathVerdict U :=
  mkPathVerdict (map (located_rename f) (obstructions p)).

Inductive TraceOutcome : Type :=
  | TraceClean (witness_digest : Digest)
  | TraceObstructed (refusal_digest : Digest)
  | TraceSkipped (reason_digest : Digest)
  | TraceIndeterminate (evidence : NonEmpty FailureEvidence).

Record TraceStep : Type := mkTraceStep { ts_edge_id : Digest; ts_outcome : TraceOutcome }.

(** [EvaluationTrace] and its [push]. *)
Record EvaluationTrace : Type := mkTrace { trace_steps : list TraceStep }.
Definition trace_push (t : EvaluationTrace) (s : TraceStep) : EvaluationTrace :=
  mkTrace (trace_steps t ++ [s]).

Lemma path_is_clean_spec {O} (p : PathVerdict O) : path_is_clean p = true <-> p = path_clean.
Proof. destruct p as [[|]]; by split. Qed.

Lemma path_compose_clean {O} (p q : PathVerdict O) :
  path_is_clean (path_compose p q) = path_is_clean p && path_is_clean q.
Proof. unfold path_is_clean, path_compose. simpl. by destruct (obstructions p). Qed.

(** The verdict of a path is the composition of the verdicts of its edges. *)
Definition path_of {O} (edges : list (PathVerdict O)) : PathVerdict O :=
  fold_left path_compose edges path_clean.

Lemma path_of_obstructions {O} (edges : list (PathVerdict O)) :
  obstructions (path_of edges) = concat (map obstructions edges).
Proof.
  unfold path_of. change (concat (map obstructions edges)) with
    (obstructions (@path_clean O) ++ concat (map obstructions edges)).
  generalize (@path_clean O) as p. induction edges as [|e edges IH]; intros p; simpl;
    [by rewrite app_nil_r|]. rewrite IH. simpl. by rewrite <- app_assoc.
Qed.

(** ** Properties *)

(** Composition along a path is lossless: the verdict of any sequence of
    edges lists the obstructions of all edges in order, it is clean exactly
    when every edge is (no later clean edge heals an earlier obstruction), the
    grouping of the composition does not matter, and renaming the obstruction
    domain commutes with it and keeps every location. *)
Theorem path_composition_lossless {O U} (f : O -> U) (edges later : list (PathVerdict O)) :
  obstructions (path_of edges) = concat (map obstructions edges) /\
  (path_is_clean (path_of edges) = true <-> Forall (fun e => path_is_clean e = true) edges) /\
  path_of (edges ++ later) = path_compose (path_of edges) (path_of later) /\
  path_rename f (path_of edges) = path_of (map (path_rename f) edges) /\
  map edge_id (obstructions (path_rename f (path_of edges))) = map edge_id (obstructions (path_of edges)).
Proof.
  assert (forall a b : PathVerdict O, obstructions a = obstructions b -> a = b) as Hext.
  { intros [a] [b]. simpl. by intros ->. }
  split_all.
  - apply path_of_obstructions.
  - unfold path_is_clean at 1. rewrite path_of_obstructions.
    induction edges as [|e edges IH]; simpl; [by split|]. rewrite Forall_cons.
    rewrite <- IH. unfold path_is_clean. destruct (obstructions e); simpl; naive_solver.
  - apply Hext. simpl. rewrite !path_of_obstructions, map_app. by rewrite concat_app.
  - assert (forall a b : PathVerdict U, obstructions a = obstructions b -> a = b) as Hext'.
    { intros [a] [b]. simpl. by intros ->. }
    apply Hext'. simpl. rewrite !path_of_obstructions, concat_map, !map_map. done.
  - simpl. rewrite map_map. by apply map_ext.
Qed.
