(* ===== verification/Family.v ===== *)
(** * Judgment families and crossings (ag-kernel/src/family.rs)

    The macro [define_family!] stamps out four families (standing, custody,
    obligation, capacity) that differ in their types only; here they are one
    family indexed by [BookKind].  A book is an append-only list of entries with
    a hash-chained head; a claim is decided against a book; a crossing decides
    several families at once and keeps every refusal. *)

From S2P Require Import Prelude Wire Fixture Digest Names Origin Judgment.

(** ** Data *)

Inductive FamilyBookError : Type :=
  | ForeignOrigin (kind : BookKind) (expected observed : LifecycleOrigin)
  | DuplicateReference (kind : BookKind)
  | BookCanonicalization (kind : BookKind) (message : string).

(** [$entry], [$book], [$claim], [$witness], [$failure], [$refusal]. *)
Record Entry (k : BookKind) : Type := mkEntry {
  en_reference : BookRef k;
  en_subject_digest : Digest
}.
Arguments mkEntry {k} _ _.
Arguments en_reference {k} _.
Arguments en_subject_digest {k} _.

Record Book (k : BookKind) : Type := mkBook {
  bk_origin : LifecycleOrigin;
  bk_head : Digest;
  bk_entries : list (Entry k)
}.
Arguments mkBook {k} _ _ _.
Arguments bk_origin {k} _.
Arguments bk_head {k} _.
Arguments bk_entries {k} _.

Record Claim (k : BookKind) : Type := mkClaim {
  cl_origin : LifecycleOrigin;
  cl_subject_digest : Digest;
  cl_reference : BookRef k
}.
Arguments mkClaim {k} _ _ _.
Arguments cl_origin {k} _.
Arguments cl_subject_digest {k} _.
Arguments cl_reference {k} _.

Record Witness (k : BookKind) : Type := mkWitness {
  wi_claim : Claim k;
  wi_book_head : Digest;
  wi_observed_subject_digest : Digest
}.
Arguments mkWitness {k} _ _ _.
Arguments wi_claim {k} _.
Arguments wi_book_head {k} _.
Arguments wi_observed_subject_digest {k} _.

Inductive Failure (k : BookKind) : Type :=
  | BookOriginMismatch (claim_origin book_origin : LifecycleOrigin)
  | ReferenceOriginMismatch (claim_origin reference_origin : LifecycleOrigin)
  | MissingReference (reference : BookRef k)
  | SubjectMismatch (reference : BookRef k) (expected observed : Digest).
Arguments BookOriginMismatch {k} _ _.
Arguments ReferenceOriginMismatch {k} _ _.
Arguments MissingReference {k} _.
Arguments SubjectMismatch {k} _ _ _.

Record Refusal (k : BookKind) : Type := mkRefusal { rf_failures : NonEmpty (Failure k) }.
Arguments mkRefusal {k} _.
Arguments rf_failures {k} _.

#[global] Instance Entry_eq_dec k : EqDecision (Entry k).
Proof. solve_decision. Defined.
#[global] Instance Book_eq_dec k : EqDecision (Book k).
Proof. solve_decision. Defined.
#[global] Instance Claim_eq_dec k : EqDecision (Claim k).
Proof. solve_decision. Defined.
#[global] Instance Witness_eq_dec k : EqDecision (Witness k).
Proof. solve_decision. Defined.
#[global] Instance Failure_eq_dec k : EqDecision (Failure k).
Proof. solve_decision. Defined.
#[global] Instance Refusal_eq_dec k : EqDecision (Refusal k).
Proof. solve_decision. Defined.

#[global] Instance Entry_serialize `{Deps} k : Serialize (Entry k) := fun e =>
  VObject [("reference", to_value (en_reference e)); ("subject_digest", to_value (en_subject_digest e))].
#[global] Instance Claim_serialize `{Deps} k : Serialize (Claim k) := fun c =>
  VObject [("origin", to_value (cl_origin c)); ("subject_digest", to_value (cl_subject_digest c));
           ("reference", to_value (cl_reference c))].
#[global] Instance Witness_serialize `{Deps} k : Serialize (Witness k) := fun w =>
  VObject [("claim", to_value (wi_claim w)); ("book_head", to_value (wi_book_head w));
           ("observed_subject_digest", to_value (wi_observed_subject_digest w))].

#[global] Instance Entry_inj `{HexLaws} k : SerializeInj (Entry k).
Proof. ser_struct. Qed.
#[global] Instance Claim_inj `{HexLaws} k : SerializeInj (Claim k).
Proof. ser_struct. Qed.
#[global] Instance Witness_inj `{HexLaws} k : SerializeInj (Witness k).
Proof. ser_struct. Qed.

(** ** Books *)

(** [$empty_domain]. *)
Definition empty_domain (k : BookKind) : string :=
  match k with
  | Standing => "standing"
  | Custody => "custody"
  | Obligation => "obligation"
  | Capacity => "capacity"
  end.

Section Books.
  Context `{Deps}.

(** [$book::new]. *)
Definition Book_new (k : BookKind) (origin : LifecycleOrigin) : Book k :=
  mkBook origin (hash_bytes (str_bytes (empty_domain k))) [].

(** The tuple [($kind, &self.head, &entry)]. *)
Definition event_value {k} (head : Digest) (entry : Entry k) : Value :=
  VArray [to_value k; to_value head; to_value entry].

(** What [replay_committed] hashes into the new head. *)
Definition event_preimage {k} (head : Digest) (entry : Entry k) : res FamilyBookError bytes :=
  let? material := map_err (BookCanonicalization k) (to_vec (event_value head entry)) in
  Ok (nul_preimage ("ag-ng:book-event:v1:" +:+ empty_domain k) material).

(** [$book::replay_committed]: the book after the call; on an error the book is
    unchanged. *)
Definition replay_committed {k} (self : Book k) (entry : Entry k) : res FamilyBookError (Book k) :=
  reject_if (br_origin (en_reference entry) != bk_origin self)
    (ForeignOrigin k (bk_origin self) (br_origin (en_reference entry))) ;?
  reject_if (existsb (fun existing => en_reference existing == en_reference entry) (bk_entries self))
    (DuplicateReference k) ;?
  let? domain_separated := event_preimage (bk_head self) entry in
  Ok (mkBook (bk_origin self) (hash_bytes domain_separated) (bk_entries self ++ [entry])).

(** A replay of a sequence of committed entries. *)
Fixpoint replay_all {k} (self : Book k) (entries : list (Entry k)) : res FamilyBookError (Book k) :=
  match entries with
  | [] => Ok self
  | entry :: rest => let? book := replay_committed self entry in replay_all book rest
  end.

End Books.

(** ** Decisions *)

(** [$decide]: every failure is collected; the [expect] on the observed entry
    would panic. *)
Definition decide_claim {E} {k} (book : Book k) (claim : Claim k)
    : res E (NativeJudgment (Witness k) (Refusal k)) :=
  let failures :=
    (if cl_origin claim != bk_origin book
     then [BookOriginMismatch (cl_origin claim) (bk_origin book)] else []) ++
    (if br_origin (cl_reference claim) != cl_origin claim
     then [ReferenceOriginMismatch (cl_origin claim) (br_origin (cl_reference claim))] else []) in
  let observed := List.find (fun entry => en_reference entry == cl_reference claim) (bk_entries book) in
  let failures := failures ++
    match observed with
    | None => [MissingReference (cl_reference claim)]
    | Some entry =>
        if en_subject_digest entry != cl_subject_digest claim
        then [SubjectMismatch (cl_reference claim) (cl_subject_digest claim) (en_subject_digest entry)]
        else []
    end in
  match NonEmpty_from_vec failures with
  | Some failures => Ok (Refuse (mkRefusal failures))
  | None =>
      let? observed := expect observed in
      Ok (Admit (mkWitness claim (bk_head book) (en_subject_digest observed)))
  end.

(** ** The proposal crossing *)

Record ProposalCrossingClaim : Type := mkProposalClaim {
  pcl_standing : Claim Standing;
  pcl_custody : Claim Custody
}.
Record ProposalCrossingWitness : Type := mkProposalWitness {
  pcw_standing : Witness Standing;
  pcw_custody : Witness Custody
}.
Inductive ProposalFamilyRefusal : Type :=
  | PStanding (r : Refusal Standing)
  | PCustody (r : Refusal Custody)
  | POriginMismatch (family : BookKind) (expected observed : LifecycleOrigin).
Record ProposalCrossingRefusal : Type := mkProposalRefusal { pcr_failures : NonEmpty ProposalFamilyRefusal }.

(** [if let NativeJudgment::Refuse(refusal) = j { failures.push(tag(refusal)) }]. *)
Definition push_refusal {T W R} (tag : R -> T) (j : NativeJudgment W R) (failures : NonEmpty T)
    : NonEmpty T :=
  match j with Refuse refusal => NonEmpty_push failures (tag refusal) | Admit _ => failures end.

(** [evaluate_proposal_crossing]. *)
Definition evaluate_proposal_crossing {E} (standing_book : Book Standing) (custody_book : Book Custody)
    (claim : ProposalCrossingClaim)
    : res E (NativeJudgment ProposalCrossingWitness ProposalCrossingRefusal) :=
  let? standing := decide_claim standing_book (pcl_standing claim) in
  let? custody := decide_claim custody_book (pcl_custody claim) in
  let crossing_failures :=
    if cl_origin (pcl_custody claim) != cl_origin (pcl_standing claim)
    then [POriginMismatch Custody (cl_origin (pcl_standing claim)) (cl_origin (pcl_custody claim))]
    else [] in
  Ok match standing, custody with
     | Admit standing, Admit custody =>
         match NonEmpty_from_vec crossing_failures with
         | Some failures => Refuse (mkProposalRefusal failures)
         | None => Admit (mkProposalWitness standing custody)
         end
     | Refuse standing, custody =>
         let failures := push_refusal PCustody custody (NonEmpty_new (PStanding standing)) in
         Refuse (mkProposalRefusal (NonEmpty_push_all failures crossing_failures))
     | Admit _, Refuse custody =>
         let failures := NonEmpty_new (PCustody custody) in
         Refuse (mkProposalRefusal (NonEmpty_push_all failures crossing_failures))
     end.

(** ** The effect crossing *)

Record EffectCrossingClaim : Type := mkEffectClaim {
  ecl_standing : Claim Standing;
  ecl_custody : Claim Custody;
  ecl_obligation : Claim Obligation;
  ecl_capacity : Claim Capacity
}.
Record EffectCrossingWitness : Type := mkEffectWitness {
  ecw_standing : Witness Standing;
  ecw_custody : Witness Custody;
  ecw_obligation : Witness Obligation;
  ecw_capacity : Witness Capacity
}.
Inductive EffectFamilyRefusal : Type :=
  | EStanding (r : Refusal Standing)
  | ECustody (r : Refusal Custody)
  | EObligation (r : Refusal Obligation)
  | ECapacity (r : Refusal Capacity)
  | EOriginMismatch (family : BookKind) (expected observed : LifecycleOrigin).
Record EffectCrossingRefusal : Type := mkEffectRefusal { ecr_failures : NonEmpty EffectFamilyRefusal }.

#[global] Instance EffectCrossingWitness_eq_dec : EqDecision EffectCrossingWitness.
Proof. solve_decision. Defined.
#[global] Instance EffectCrossingWitness_serialize `{Deps} : Serialize EffectCrossingWitness := fun w =>
  VObject [("standing", to_value (ecw_standing w)); ("custody", to_value (ecw_custody w));
           ("obligation", to_value (ecw_obligation w)); ("capacity", to_value (ecw_capacity w))].
#[global] Instance EffectCrossingWitness_inj `{HexLaws} : SerializeInj EffectCrossingWitness.
Proof. ser_struct. Qed.

(** The origin comparison of [evaluate_effect_crossing]'s loop. *)
Definition origin_failures (claim : EffectCrossingClaim) : list EffectFamilyRefusal :=
  concat (map (fun '(family, observed) =>
      if observed != cl_origin (ecl_standing claim)
      then [EOriginMismatch family (cl_origin (ecl_standing claim)) observed] else [])
    [(Custody, cl_origin (ecl_custody claim));
     (Obligation, cl_origin (ecl_obligation claim));
     (Capacity, cl_origin (ecl_capacity claim))]).

(** [evaluate_effect_crossing]. *)
Definition evaluate_effect_crossing {E} (standing_book : Book Standing) (custody_book : Book Custody)
    (obligation_book : Book Obligation) (capacity_book : Book Capacity) (claim : EffectCrossingClaim)
    : res E (NativeJudgment EffectCrossingWitness EffectCrossingRefusal) :=
  let? standing := decide_claim standing_book (ecl_standing claim) in
  let? custody := decide_claim custody_book (ecl_custody claim) in
  let? obligation := decide_claim obligation_book (ecl_obligation claim) in
  let? capacity := decide_claim capacity_book (ecl_capacity claim) in
  let crossing_failures := origin_failures claim in
  Ok match standing, custody, obligation, capacity with
     | Admit standing, Admit custody, Admit obligation, Admit capacity =>
         match NonEmpty_from_vec crossing_failures with
         | Some failures => Refuse (mkEffectRefusal failures)
         | None => Admit (mkEffectWitness standing custody obligation capacity)
         end
     | Refuse standing, custody, obligation, capacity =>
         let failures := NonEmpty_new (EStanding standing) in
         let failures := push_refusal ECustody custody failures in
         let failures := push_refusal EObligation obligation failures in
         let failures := push_refusal ECapacity capacity failures in
         Refuse (mkEffectRefusal (NonEmpty_push_all failures crossing_failures))
     | Admit _, Refuse custody, obligation, capacity =>
         let failures := NonEmpty_new (ECustody custody) in
         let failures := push_refusal EObligation obligation failures in
         let failures := push_refusal ECapacity capacity failures in
         Refuse (mkEffectRefusal (NonEmpty_push_all failures crossing_failures))
     | Admit _, Admit _, Refuse obligation, capacity =>
         let failures := NonEmpty_new (EObligation obligation) in
         let failures := push_refusal ECapacity capacity failures in
         Refuse (mkEffectRefusal (NonEmpty_push_all failures crossing_failures))
     | Admit _, Admit _, Admit _, Refuse capacity =>
         let failures := NonEmpty_new (ECapacity capacity) in
         Refuse (mkEffectRefusal (NonEmpty_push_all failures crossing_failures))
     end.

(** ** What a decision depends on *)

(** The entry a claim is decided against: the first with its reference. *)
Definition observed_entry {k} (book : Book k) (claim : Claim k) : option (Entry k) :=
  List.find (fun entry => en_reference entry == cl_reference claim) (bk_entries book).

(** Every failure of a claim, in the order the code reports them. *)
Definition claim_failures {k} (book : Book k) (claim : Claim k) : list (Failure k) :=
  (if cl_origin claim != bk_origin book
   then [BookOriginMismatch (cl_origin claim) (bk_origin book)] else []) ++
  (if br_origin (cl_reference claim) != cl_origin claim
   then [ReferenceOriginMismatch (cl_origin claim) (br_origin (cl_reference claim))] else []) ++
  match observed_entry book claim with
  | None => [MissingReference (cl_reference claim)]
  | Some entry =>
      if en_subject_digest entry != cl_subject_digest claim
      then [SubjectMismatch (cl_reference claim) (cl_subject_digest claim) (en_subject_digest entry)]
      else []
  end.

(** The exact condition of admission. *)
Definition claim_holds {k} (book : Book k) (claim : Claim k) : Prop :=
  cl_origin claim = bk_origin book /\ br_origin (cl_reference claim) = cl_origin claim /\
  exists entry, observed_entry book claim = Some entry /\
                en_subject_digest entry = cl_subject_digest claim.

Definition claim_witness {k} (book : Book k) (claim : Claim k) : Witness k :=
  mkWitness claim (bk_head book) (cl_subject_digest claim).

Lemma claim_failures_nil {k} (book : Book k) claim :
  claim_failures book claim = [] <-> claim_holds book claim.
Proof.
  unfold claim_failures, claim_holds.
  destruct (bool_decide_reflect (cl_origin claim = bk_origin book)); simpl; [|by split; [|intros []]].
  destruct (bool_decide_reflect (br_origin (cl_reference claim) = cl_origin claim)); simpl;
    [|by split; [|intros (_ & ? & _)]].
  destruct (observed_entry book claim) as [entry|]; [|by split; [|intros (_ & _ & ? & ? & _)]].
  destruct (bool_decide_reflect (en_subject_digest entry = cl_subject_digest claim)); simpl.
  - split; [eauto 6 | done].
  - split; [done|]. intros (_ & _ & ? & [= <-] & ?). done.
Qed.

Lemma decide_claim_spec {E} {k} (book : Book k) claim :
  decide_claim (E := E) book claim =
  Ok match NonEmpty_from_vec (claim_failures book claim) with
     | Some failures => Refuse (mkRefusal failures)
     | None => Admit (claim_witness book claim)
     end.
Proof.
  unfold decide_claim. rewrite <- app_assoc. fold (observed_entry book claim).
  fold (claim_failures book claim).
  destruct (NonEmpty_from_vec (claim_failures book claim)) eqn:Hn; [done|].
  apply from_vec_None, claim_failures_nil in Hn as (_ & _ & entry & -> & Hs).
  simpl. unfold claim_witness. by rewrite Hs.
Qed.

(** The judgment, without its error type. *)
Definition judged {k} (book : Book k) (claim : Claim k) : NativeJudgment (Witness k) (Refusal k) :=
  match NonEmpty_from_vec (claim_failures book claim) with
  | Some failures => Refuse (mkRefusal failures)
  | None => Admit (claim_witness book claim)
  end.

Lemma judged_admit {k} (book : Book k) claim w :
  judged book claim = Admit w <-> w = claim_witness book claim /\ claim_holds book claim.
Proof.
  unfold judged. rewrite <- claim_failures_nil.
  destruct (NonEmpty_from_vec (claim_failures book claim)) eqn:Hn.
  - split; [done|]. intros [_ He]. apply from_vec_None in He. congruence.
  - apply from_vec_None in Hn. split; [by intros [= <-] | by intros [-> _]].
Qed.

Lemma judged_refuse {k} (book : Book k) claim r :
  judged book claim = Refuse r <-> NonEmpty_into_vec (rf_failures r) = claim_failures book claim.
Proof.
  unfold judged. destruct r as [f]. simpl.
  destruct (NonEmpty_from_vec (claim_failures book claim)) eqn:Hn.
  - apply from_vec_Some in Hn. rewrite <- Hn. split; [by intros [= ->]|].
    intros He. f_equal. f_equal. destruct f, n; unfold NonEmpty_into_vec in He; simpl in He.
    by injection He as -> ->.
  - apply from_vec_None in Hn. rewrite Hn. by split.
Qed.

(** ** Books *)

(** What every book reached by replays satisfies. *)
Definition book_wf {k} (b : Book k) : Prop :=
  Forall (fun e => br_origin (en_reference e) = bk_origin b) (bk_entries b) /\
  NoDup (map en_reference (bk_entries b)).

Section BookLemmas.
  Context `{Deps}.

Lemma replay_committed_ok {k} (b : Book k) e b' :
  replay_committed b e = Ok b' <->
  br_origin (en_reference e) = bk_origin b /\ (en_reference e ∉ map en_reference (bk_entries b)) /\
  exists p, event_preimage (bk_head b) e = Ok p /\
    b' = mkBook (bk_origin b) (hash_bytes p) (bk_entries b ++ [e]).
Proof.
  unfold replay_committed. rewrite !guard_ok, negb_bool_decide_false, res_bind_ok.
  assert (existsb (fun existing => en_reference existing == en_reference e) (bk_entries b) = false <->
          en_reference e ∉ map en_reference (bk_entries b)) as ->.
  { rewrite <- not_true_iff_false, existsb_exists, list_elem_of_In, in_map_iff.
    split; intros Hn (x & Hx1 & Hx2); apply Hn; exists x.
    - split; [done | by apply bool_decide_eq_true].
    - by apply bool_decide_eq_true in Hx2. }
  split.
  - intros (? & ? & p & Hp & [= <-]). eauto.
  - intros (? & ? & p & Hp & ->). eauto.
Qed.

Lemma replay_committed_wf {k} (b b' : Book k) e :
  book_wf b -> replay_committed b e = Ok b' ->
  book_wf b' /\ bk_origin b' = bk_origin b /\ bk_entries b' = bk_entries b ++ [e].
Proof.
  intros [Ho Hnd] (Heo & Hnew & p & _ & ->)%replay_committed_ok. unfold book_wf. simpl.
  split_all; [| |done|done].
  - apply Forall_app. by split; [|constructor].
  - rewrite map_app. apply NoDup_app. split_all; [done | | apply NoDup_singleton].
    intros x Hx Hin. apply list_elem_of_singleton in Hin as ->. done.
Qed.

Lemma replay_all_wf {k} (b b' : Book k) l :
  book_wf b -> replay_all b l = Ok b' ->
  book_wf b' /\ bk_origin b' = bk_origin b /\ bk_entries b' = bk_entries b ++ l.
Proof.
  revert b. induction l as [|e l IH]; intros b Hwf Hr; simpl in Hr.
  { injection Hr as ->. by rewrite app_nil_r. }
  apply res_bind_ok in Hr as (b1 & H1 & Hr).
  destruct (replay_committed_wf _ _ _ Hwf H1) as (Hwf1 & Ho & He).
  destruct (IH b1 Hwf1 Hr) as (Hwf' & Ho' & He'). rewrite He' , He, <- app_assoc. by rewrite Ho', Ho.
Qed.

Lemma Book_new_wf k o : book_wf (Book_new k o).
Proof. split; constructor. Qed.

Lemma find_reference {k} (l : list (Entry k)) e :
  NoDup (map en_reference l) -> e ∈ l ->
  List.find (fun x => (en_reference x == en_reference e)) l = Some e.
Proof.
  induction l as [|x l IH]; intros Hnd Hin; [by apply elem_of_nil in Hin|].
  simpl in *. apply NoDup_cons in Hnd as [Hx Hnd]. apply elem_of_cons in Hin as [->|Hin].
  - by rewrite bool_decide_eq_true_2.
  - rewrite bool_decide_eq_false_2; [by apply IH|]. intros He. apply Hx. rewrite He.
    rewrite list_elem_of_In. apply in_map. by apply list_elem_of_In.
Qed.

(** In a book reached by replays, a claim holds exactly when the entry it names
    is in the book. *)
Lemma claim_holds_iff {k} (b : Book k) claim :
  book_wf b ->
  claim_holds b claim <->
  cl_origin claim = bk_origin b /\ mkEntry (cl_reference claim) (cl_subject_digest claim) ∈ bk_entries b.
Proof.
  intros [Ho Hnd]. unfold claim_holds, observed_entry. split.
  - intros (? & _ & [r s] & [Hin Hr]%find_some & Hs). simpl in *.
    apply bool_decide_eq_true in Hr. simpl in Hr. subst.
    split; [done | by apply list_elem_of_In].
  - intros [Hc Hin]. pose proof (find_reference _ _ Hnd Hin) as Hf. simpl in Hf.
    rewrite List.Forall_forall in Ho. rewrite list_elem_of_In in Hin.
    specialize (Ho _ Hin). simpl in Ho. split_all; [done | congruence | eauto].
Qed.

(** ** The head commits to the history *)

(** Every byte string hashed while a list of entries was replayed. *)
Fixpoint hashed_from {k} (head : Digest) (l : list (Entry k)) : list bytes :=
  match l with
  | [] => []
  | e :: l' =>
      match event_preimage head e with
      | Ok p => p :: hashed_from (hash_bytes p) l'
      | _ => []
      end
  end.
Definition hashed (k : BookKind) (l : list (Entry k)) : list bytes :=
  str_bytes (empty_domain k) :: hashed_from (hash_bytes (str_bytes (empty_domain k))) l.

Lemma replay_all_snoc {k} (b b' : Book k) l e :
  replay_all b (l ++ [e]) = Ok b' <->
  exists b1, replay_all b l = Ok b1 /\ replay_committed b1 e = Ok b'.
Proof.
  revert b. induction l as [|x l IH]; intros b; simpl.
  - rewrite res_bind_ok. split.
    + intros (a & Ha & [= <-]). eauto.
    + intros (a & [= <-] & Ha). eauto.
  - rewrite res_bind_ok. split.
    + intros (a & Ha & (b1 & H1 & H2)%IH). exists b1. split; [|done]. apply res_bind_ok. eauto.
    + intros (b1 & (a & Ha & H1)%res_bind_ok & H2). exists a. split; [done|]. apply IH. eauto.
Qed.

Lemma hashed_from_snoc {k} (b b1 : Book k) l e p :
  replay_all b l = Ok b1 -> event_preimage (bk_head b1) e = Ok p ->
  hashed_from (bk_head b) (l ++ [e]) = hashed_from (bk_head b) l ++ [p].
Proof.
  revert b. induction l as [|x l IH]; intros b Hr Hp; simpl in *.
  - injection Hr as ->. by rewrite Hp.
  - apply res_bind_ok in Hr as (b2 & H2 & Hr).
    apply replay_committed_ok in H2 as (_ & _ & q & Hq & ->). rewrite Hq. simpl. f_equal.
    by apply (IH _ Hr).
Qed.

Lemma hashed_snoc {k} o b1 (l : list (Entry k)) e p :
  replay_all (Book_new k o) l = Ok b1 -> event_preimage (bk_head b1) e = Ok p ->
  hashed k (l ++ [e]) = hashed k l ++ [p].
Proof. intros Hr Hp. exact (f_equal (cons _) (hashed_from_snoc _ _ _ _ _ Hr Hp)). Qed.

Lemma event_preimage_inj `{!JcsLaws, !HexLaws} {k} h h' (e e' : Entry k) p :
  ijson (to_value e) = true -> ijson (to_value e') = true ->
  event_preimage h e = Ok p -> event_preimage h' e' = Ok p -> h = h' /\ e = e'.
Proof.
  unfold event_preimage. intros He He' Hp Hp'.
  apply res_bind_ok in Hp as (m & Hm & [= <-]). apply res_bind_ok in Hp' as (m' & Hm' & [= Heq]).
  rewrite map_err_ok, to_vec_ok in Hm, Hm'.
  apply app_inv_head in Heq. injection Heq as ->.
  assert (forall h e, ijson (to_value (T := Entry k) e) = true -> ijson (event_value h e) = true) as Hi.
  { intros h0 e0 Hi. unfold event_value. cbn [ijson forallb]. by rewrite Hi. }
  pose proof (canon_injective_encoding _ _ _ (Hi h e He) (Hi h' e' He') Hm Hm') as Hv.
  apply array_equiv in Hv. inversion Hv as [|? ? ? ? _ Hv1]; subst. inversion Hv1 as [|? ? ? ? Hh Hv2]; subst.
  inversion Hv2 as [|? ? ? ? Hent _]; subst. split; by apply to_value_inj.
Qed.

(** An event preimage is not the text a fresh book's head is computed from. *)
Lemma event_preimage_not_empty {k} h (e : Entry k) p :
  event_preimage h e = Ok p -> p <> str_bytes (empty_domain k).
Proof.
  unfold event_preimage. intros (m & _ & [= <-])%res_bind_ok. unfold nul_preimage.
  by destruct k.
Qed.

Lemma head_binds_history `{!JcsLaws, !HexLaws, !Sha256Laws} {k} o o' (l l' : list (Entry k)) b b' :
  Forall (fun e => ijson (to_value e) = true) l -> Forall (fun e => ijson (to_value e) = true) l' ->
  replay_all (Book_new k o) l = Ok b -> replay_all (Book_new k o') l' = Ok b' ->
  bk_head b = bk_head b' ->
  l = l' \/ exists p q, p ∈ hashed k l /\ q ∈ hashed k l' /\ collision p q.
Proof.
  revert l' b b'. induction l as [|e l IH] using rev_ind; intros l' b b' Hl Hl' Hr Hr' Hh;
    destruct l' as [|e' l' _] using rev_ind; [by left| | |].
  - injection Hr as <-. apply replay_all_snoc in Hr' as (b1 & Hb1 & Hc).
    apply replay_committed_ok in Hc as (_ & _ & p & Hp & ->). simpl in Hh. right.
    apply hash_bytes_binds in Hh as [Hh|Hh]; [by apply event_preimage_not_empty in Hp|].
    exists (str_bytes (empty_domain k)), p. split_all; [by left | | done].
    rewrite (hashed_snoc _ _ _ _ _ Hb1 Hp). apply elem_of_app. right. by left.
  - injection Hr' as <-. apply replay_all_snoc in Hr as (b1 & Hb1 & Hc).
    apply replay_committed_ok in Hc as (_ & _ & p & Hp & ->). simpl in Hh. right.
    apply hash_bytes_binds in Hh as [Hh|Hh]; [by apply event_preimage_not_empty in Hp|].
    exists p, (str_bytes (empty_domain k)). split_all; [|by left | done].
    rewrite (hashed_snoc _ _ _ _ _ Hb1 Hp). apply elem_of_app. right. by left.
  - apply Forall_app in Hl as [Hl He], Hl' as [Hl' He']. rewrite Forall_singleton in He, He'.
    apply replay_all_snoc in Hr as (b1 & Hb1 & Hc), Hr' as (b1' & Hb1p & Hc').
    apply replay_committed_ok in Hc as (_ & _ & p & Hp & ->), Hc' as (_ & _ & p' & Hp' & ->).
    simpl in Hh.
    rewrite (hashed_snoc _ _ _ _ _ Hb1 Hp), (hashed_snoc _ _ _ _ _ Hb1p Hp').
    apply hash_bytes_binds in Hh as [<-|Hh].
    + destruct (event_preimage_inj _ _ _ _ _ He He' Hp Hp') as [Hhead ->].
      destruct (IH l' b1 b1' Hl Hl' Hb1 Hb1p Hhead) as [->|(x & y & Hx & Hy & Hxy)]; [by left|].
      right. exists x, y. split_all; [apply elem_of_app; by left | apply elem_of_app; by left | done].
    + right. exists p, p'. split_all; [apply elem_of_app; right; by left | apply elem_of_app; right; by left | done].
Qed.

End BookLemmas.

(** ** Crossings as sums of families *)

(** The refusal of one family, if any. *)
Definition refusal_of {T W R} (tag : R -> T) (j : NativeJudgment W R) : list T :=
  match j with Refuse refusal => [tag refusal] | Admit _ => [] end.

(** All that speaks against an effect crossing: each family's own refusal in
    the order standing, custody, obligation, capacity, then the families whose
    origin is not the standing claim's. *)
Definition effect_failures (sb : Book Standing) (cb : Book Custody) (ob : Book Obligation)
    (pb : Book Capacity) (c : EffectCrossingClaim) : list EffectFamilyRefusal :=
  refusal_of EStanding (judged sb (ecl_standing c)) ++ refusal_of ECustody (judged cb (ecl_custody c)) ++
  refusal_of EObligation (judged ob (ecl_obligation c)) ++
  refusal_of ECapacity (judged pb (ecl_capacity c)) ++ origin_failures c.

Definition effect_witness (sb : Book Standing) (cb : Book Custody) (ob : Book Obligation)
    (pb : Book Capacity) (c : EffectCrossingClaim) : EffectCrossingWitness :=
  mkEffectWitness (claim_witness sb (ecl_standing c)) (claim_witness cb (ecl_custody c))
    (claim_witness ob (ecl_obligation c)) (claim_witness pb (ecl_capacity c)).

Lemma evaluate_effect_crossing_spec {E} sb cb ob pb c :
  evaluate_effect_crossing (E := E) sb cb ob pb c =
  Ok match NonEmpty_from_vec (effect_failures sb cb ob pb c) with
     | Some failures => Refuse (mkEffectRefusal failures)
     | None => Admit (effect_witness sb cb ob pb c)
     end.
Proof.
  unfold evaluate_effect_crossing, effect_failures. rewrite !decide_claim_spec. cbn [res_bind].
  fold (judged sb (ecl_standing c)). fold (judged cb (ecl_custody c)).
  fold (judged ob (ecl_obligation c)). fold (judged pb (ecl_capacity c)). f_equal.
  destruct (judged sb _) eqn:Hs, (judged cb _) eqn:Hc, (judged ob _) eqn:Ho, (judged pb _) eqn:Hp;
    rewrite ?push_all_eq; try done.
  apply judged_admit in Hs as [-> _], Hc as [-> _], Ho as [-> _], Hp as [-> _]. done.
Qed.

(** Every family admits its claim, and all claims have one origin. *)
Definition effect_holds (sb : Book Standing) (cb : Book Custody) (ob : Book Obligation)
    (pb : Book Capacity) (c : EffectCrossingClaim) : Prop :=
  claim_holds sb (ecl_standing c) /\ claim_holds cb (ecl_custody c) /\
  claim_holds ob (ecl_obligation c) /\ claim_holds pb (ecl_capacity c) /\
  cl_origin (ecl_custody c) = cl_origin (ecl_standing c) /\
  cl_origin (ecl_obligation c) = cl_origin (ecl_standing c) /\
  cl_origin (ecl_capacity c) = cl_origin (ecl_standing c).

Lemma refusal_of_nil {T k} (tag : Refusal k -> T) (b : Book k) c :
  refusal_of tag (judged b c) = [] <-> claim_holds b c.
Proof.
  destruct (judged b c) eqn:Hj; simpl.
  - apply judged_admit in Hj as [_ Hj]. by split.
  - split; [done|]. intros Hh. exfalso.
    assert (judged b c = Admit (claim_witness b c)) as Ha by (by apply judged_admit). congruence.
Qed.

Lemma origin_failures_nil c :
  origin_failures c = [] <->
  cl_origin (ecl_custody c) = cl_origin (ecl_standing c) /\
  cl_origin (ecl_obligation c) = cl_origin (ecl_standing c) /\
  cl_origin (ecl_capacity c) = cl_origin (ecl_standing c).
Proof.
  unfold origin_failures. simpl.
  repeat case_bool_decide; simpl; split; (done || by intros (? & ? & ?)).
Qed.

Lemma effect_failures_nil sb cb ob pb c :
  effect_failures sb cb ob pb c = [] <-> effect_holds sb cb ob pb c.
Proof.
  unfold effect_failures, effect_holds.
  rewrite !app_nil, !refusal_of_nil, origin_failures_nil. done.
Qed.

Lemma effect_crossing_admit {E} sb cb ob pb c w :
  evaluate_effect_crossing (E := E) sb cb ob pb c = Ok (Admit w) <->
  w = effect_witness sb cb ob pb c /\ effect_holds sb cb ob pb c.
Proof.
  rewrite evaluate_effect_crossing_spec, <- effect_failures_nil, <- from_vec_None.
  destruct (NonEmpty_from_vec _); intuition congruence.
Qed.

(** The same for the proposal crossing. *)
Definition proposal_failures (sb : Book Standing) (cb : Book Custody) (c : ProposalCrossingClaim)
    : list ProposalFamilyRefusal :=
  refusal_of PStanding (judged sb (pcl_standing c)) ++ refusal_of PCustody (judged cb (pcl_custody c)) ++
  (if cl_origin (pcl_custody c) != cl_origin (pcl_standing c)
   then [POriginMismatch Custody (cl_origin (pcl_standing c)) (cl_origin (pcl_custody c))] else []).

Lemma evaluate_proposal_crossing_spec {E} sb cb c :
  evaluate_proposal_crossing (E := E) sb cb c =
  Ok match NonEmpty_from_vec (proposal_failures sb cb c) with
     | Some failures => Refuse (mkProposalRefusal failures)
     | None => Admit (mkProposalWitness (claim_witness sb (pcl_standing c)) (claim_witness cb (pcl_custody c)))
     end.
Proof.
  unfold evaluate_proposal_crossing, proposal_failures. rewrite !decide_claim_spec. cbn [res_bind].
  fold (judged sb (pcl_standing c)). fold (judged cb (pcl_custody c)). f_equal.
  destruct (judged sb _) eqn:Hs, (judged cb _) eqn:Hc; rewrite ?push_all_eq; try done.
  apply judged_admit in Hs as [-> _], Hc as [-> _]. done.
Qed.

Lemma proposal_failures_nil sb cb c :
  proposal_failures sb cb c = [] <->
  claim_holds sb (pcl_standing c) /\ claim_holds cb (pcl_custody c) /\
  cl_origin (pcl_custody c) = cl_origin (pcl_standing c).
Proof.
  unfold proposal_failures. rewrite !app_nil, !refusal_of_nil. case_bool_decide; simpl; intuition congruence.
Qed.

(** ** Properties *)

(** Deciding a claim is total and exact: it never panics; it admits exactly
    when the claim's origin is the book's, the reference belongs to that
    origin and the first entry with that reference records the claimed
    subject, and the witness then pins the claim, the book head and that
    subject; otherwise the refusal lists every failure that applies, in a
    fixed order. *)
Theorem decide_claim_exact {k} (book : Book k) claim :
  decide_claim (E := Empty_set) book claim <> Panic /\
  (forall w, decide_claim (E := Empty_set) book claim = Ok (Admit w) <->
     w = mkWitness claim (bk_head book) (cl_subject_digest claim) /\ claim_holds book claim) /\
  (forall r, decide_claim (E := Empty_set) book claim = Ok (Refuse r) <->
     NonEmpty_into_vec (rf_failures r) = claim_failures book claim).
Proof.
  rewrite decide_claim_spec. fold (judged book claim). split; [done|]. split.
  - intros w. fold (claim_witness book claim). rewrite <- judged_admit. split; congruence.
  - intros r. rewrite <- judged_refuse. split; congruence.
Qed.

(** A book built by replays is its list of entries, and nothing else can be
    claimed against it: the replay of any entries that have the book's origin
    and distinct references succeeds, keeps them in order, and a claim is
    admitted exactly when it names the book's origin and one of these entries.
    Admitted claims stay admitted under every further replay. *)
Theorem book_admits_exactly_its_entries `{JcsLaws} {k} o (l : list (Entry k)) :
  Forall (fun e => br_origin (en_reference e) = o) l -> NoDup (map en_reference l) ->
  Forall (fun e => ijson (to_value e) = true) l ->
  exists b, replay_all (Book_new k o) l = Ok b /\ bk_entries b = l /\
    (forall claim, (exists w, decide_claim (E := Empty_set) b claim = Ok (Admit w)) <->
       cl_origin claim = o /\ mkEntry (cl_reference claim) (cl_subject_digest claim) ∈ l) /\
    (forall more b' claim, replay_all b more = Ok b' -> claim_holds b claim -> claim_holds b' claim).
Proof.
  intros Ho Hnd Hj.
  assert (exists b, replay_all (Book_new k o) l = Ok b) as [b Hb].
  { induction l as [|e l IH] using rev_ind; [by eexists|].
    apply Forall_app in Ho as [Ho He], Hj as [Hj Hje]. rewrite Forall_singleton in He, Hje.
    rewrite map_app in Hnd. apply NoDup_app in Hnd as (Hnd & Hdis & _).
    destruct (IH Ho Hnd Hj) as [b1 Hb1].
    destruct (replay_all_wf _ _ _ (Book_new_wf k o) Hb1) as (_ & Ho1 & He1). simpl in Ho1, He1.
    destruct (jcs_total (event_value (bk_head b1) e)) as [m Hm].
    { unfold event_value. cbn [ijson forallb]. by rewrite Hje. }
    eexists. apply replay_all_snoc. exists b1. split; [done|]. apply replay_committed_ok.
    rewrite Ho1, He1. split_all; [done | |].
    - intros Hin. apply (Hdis _ Hin). by left.
    - eexists. split; [|done]. unfold event_preimage, to_vec. by rewrite Hm. }
  destruct (replay_all_wf _ _ _ (Book_new_wf k o) Hb) as (Hwf & Hbo & Hbe). simpl in Hbo, Hbe.
  exists b. split_all; [done | done | |].
  - intros claim. rewrite decide_claim_spec. fold (judged b claim).
    pose proof (claim_holds_iff b claim Hwf) as Hc. rewrite Hbo, Hbe in Hc. rewrite <- Hc. split.
    + intros (w & [= [_ Hw]%judged_admit]). done.
    + intros Hh. exists (claim_witness b claim). f_equal. by apply judged_admit.
  - intros more b' claim Hmore. destruct (replay_all_wf _ _ _ Hwf Hmore) as (Hwf' & Hbo' & Hbe').
    rewrite (claim_holds_iff b claim Hwf), (claim_holds_iff b' claim Hwf'), Hbo', Hbe', elem_of_app. tauto.
Qed.

Definition toy_entry (k : BookKind) (name : string) (subject : Z) : Entry k :=
  mkEntry (mkBookRef toy_origin (mkText name)) (hash_bytes [byte_of subject]).
Definition toy_claim (k : BookKind) (name : string) (subject : Z) : Claim k :=
  mkClaim toy_origin (hash_bytes [byte_of subject]) (mkBookRef toy_origin (mkText name)).

Lemma book_admits_exactly_its_entries_witness :
  exists b, replay_all (Book_new Custody toy_origin) [toy_entry Custody "a" 1; toy_entry Custody "b" 2] = Ok b /\
    exists w, decide_claim (E := Empty_set) b (toy_claim Custody "b" 2) = Ok (Admit w).
Proof.
  destruct (book_admits_exactly_its_entries toy_origin [toy_entry Custody "a" 1; toy_entry Custody "b" 2])
    as (b & Hb & _ & Hd & _).
  - repeat constructor.
  - apply (bool_decide_unpack _). vm_compute. exact I.
  - repeat constructor.
  - exists b. split; [exact Hb|]. apply Hd. split; [reflexivity|]. right. left.
Defined.

(** A book's head commits to its whole history: if two replays from fresh
    books of one kind end in the same head, they replayed the same entries in
    the same order, or two of the byte strings hashed on the way are a SHA-256
    collision. *)
Theorem book_head_commits_to_history `{JcsLaws, !HexLaws, !Sha256Laws} {k} o o'
    (l l' : list (Entry k)) b b' :
  Forall (fun e => ijson (to_value e) = true) l -> Forall (fun e => ijson (to_value e) = true) l' ->
  replay_all (Book_new k o) l = Ok b -> replay_all (Book_new k o') l' = Ok b' ->
  bk_head b = bk_head b' ->
  l = l' \/ exists p q, p ∈ hashed k l /\ q ∈ hashed k l' /\ collision p q.
Proof. apply head_binds_history. Qed.

Lemma book_head_commits_to_history_witness :
  [toy_entry Custody "a" 1] = [toy_entry Custody "a" 1] \/
  exists p q, p ∈ hashed Custody [toy_entry Custody "a" 1] /\
              q ∈ hashed Custody [toy_entry Custody "a" 1] /\ collision p q.
Proof.
  eapply (book_head_commits_to_history toy_origin toy_origin [toy_entry Custody "a" 1] [toy_entry Custody "a" 1]);
    [repeat constructor | repeat constructor | vm_compute; reflexivity | vm_compute; reflexivity | reflexivity].
Defined.

(** C9. The effect crossing is exact and lossless: it never panics, it admits
    exactly when all four families admit their claims and all claims share the
    standing claim's origin, with the four native witnesses; and it refuses
    with every family's own refusal, in the order standing, custody,
    obligation, capacity, followed by every origin mismatch. *)
Theorem effect_crossing_exact sb cb ob pb claim :
  evaluate_effect_crossing (E := Empty_set) sb cb ob pb claim <> Panic /\
  (forall w, evaluate_effect_crossing (E := Empty_set) sb cb ob pb claim = Ok (Admit w) <->
     w = effect_witness sb cb ob pb claim /\ effect_holds sb cb ob pb claim) /\
  (forall r, evaluate_effect_crossing (E := Empty_set) sb cb ob pb claim = Ok (Refuse r) ->
     NonEmpty_into_vec (ecr_failures r) = effect_failures sb cb ob pb claim).
Proof.
  split_all.
  - by rewrite evaluate_effect_crossing_spec.
  - intros w. apply effect_crossing_admit.
  - intros r. rewrite evaluate_effect_crossing_spec.
    destruct (NonEmpty_from_vec _) eqn:Hn; [|done]. intros [= <-]. by apply from_vec_Some.
Qed.

(** The proposal crossing is exact and lossless in the same way for the two
    families it needs, standing and custody. *)
Theorem proposal_crossing_exact sb cb claim :
  evaluate_proposal_crossing (E := Empty_set) sb cb claim <> Panic /\
  (forall w, evaluate_proposal_crossing (E := Empty_set) sb cb claim = Ok (Admit w) <->
     w = mkProposalWitness (claim_witness sb (pcl_standing claim)) (claim_witness cb (pcl_custody claim)) /\
     claim_holds sb (pcl_standing claim) /\ claim_holds cb (pcl_custody claim) /\
     cl_origin (pcl_custody claim) = cl_origin (pcl_standing claim)) /\
  (forall r, evaluate_proposal_crossing (E := Empty_set) sb cb claim = Ok (Refuse r) ->
     NonEmpty_into_vec (pcr_failures r) = proposal_failures sb cb claim).
Proof.
  rewrite evaluate_proposal_crossing_spec. split_all; [done | |].
  - intros w. rewrite <- proposal_failures_nil, <- from_vec_None.
    destruct (NonEmpty_from_vec _); intuition congruence.
  - intros r. destruct (NonEmpty_from_vec _) eqn:Hn; [|done]. intros [= <-]. by apply from_vec_Some.
Qed.
