(* ===== verification/Recomposition.v ===== *)
(** * Exact accounting at recomposition boundaries
      (ag-kernel/src/recomposition.rs)

    A manifest names the boundaries a whole claim was cut along; [recompose]
    accepts a set of evaluated slices only if they account for all and only
    these boundaries, exactly and cleanly.  The theorems show that the admitted
    slices are a permutation of the manifest, and that a refusal reports every
    violation, obstructions included, and nothing else. *)

From S2P Require Import Prelude Wire Fixture Digest Names Origin Judgment.

Record BoundaryRequirement : Type := mkRequirement {
  rq_boundary_id : Digest;
  rq_expected_slice_digest : Digest
}.

Inductive ManifestError : Type := ManifestEmpty | ManifestDuplicateBoundary.

Record BoundaryManifest : Type := mkManifest {
  bm_origin : LifecycleOrigin;
  bm_whole_claim_digest : Digest;
  bm_requirements : NonEmpty BoundaryRequirement
}.

Record BoundarySlice (O : Type) : Type := mkSlice {
  bs_origin : LifecycleOrigin;
  bs_boundary_id : Digest;
  bs_slice_digest : Digest;
  bs_verdict : PathVerdict O
}.
Arguments mkSlice {O} _ _ _ _.
Arguments bs_origin {O} _.
Arguments bs_boundary_id {O} _.
Arguments bs_slice_digest {O} _.
Arguments bs_verdict {O} _.

Record AccountedBoundary (O : Type) : Type := mkAccounted {
  acc_boundary_id : Digest;
  acc_slice_digest : Digest;
  acc_verdict : PathVerdict O
}.
Arguments mkAccounted {O} _ _ _.
Arguments acc_boundary_id {O} _.
Arguments acc_slice_digest {O} _.
Arguments acc_verdict {O} _.

Record RecompositionWitness (O : Type) : Type := mkRecompositionWitness {
  rw_origin : LifecycleOrigin;
  rw_whole_claim_digest : Digest;
  rw_boundaries : NonEmpty (AccountedBoundary O)
}.
Arguments mkRecompositionWitness {O} _ _ _.

Inductive RecompositionFailure (O : Type) : Type :=
  | MissingBoundary (boundary_id : Digest)
  | DuplicateBoundary (boundary_id : Digest)
  | UnaccountedBoundary (boundary_id : Digest)
  | ForeignSliceOrigin (boundary_id : Digest) (expected observed : LifecycleOrigin)
  | RewrittenSlice (boundary_id expected observed : Digest)
  | ObstructedBoundary (boundary_id : Digest) (obstructions : NonEmpty (LocatedObstruction O)).
Arguments MissingBoundary {O} _.
Arguments DuplicateBoundary {O} _.
Arguments UnaccountedBoundary {O} _.
Arguments ForeignSliceOrigin {O} _ _ _.
Arguments RewrittenSlice {O} _ _ _.
Arguments ObstructedBoundary {O} _ _.

Record RecompositionRefusal (O : Type) : Type := mkRecompositionRefusal {
  rr_failures : NonEmpty (RecompositionFailure O)
}.
Arguments mkRecompositionRefusal {O} _.
Arguments rr_failures {O} _.

(** The loop of [BoundaryManifest::new]: some later requirement repeats the
    boundary. *)
Fixpoint repeats_boundary (values : list BoundaryRequirement) : bool :=
  match values with
  | [] => false
  | requirement :: later =>
      existsb (fun other => rq_boundary_id other == rq_boundary_id requirement) later
      || repeats_boundary later
  end.

(** [BoundaryManifest::new]. *)
Definition BoundaryManifest_new (origin : LifecycleOrigin) (whole_claim_digest : Digest)
    (requirements : list BoundaryRequirement) : res ManifestError BoundaryManifest :=
  let? requirements := ok_or ManifestEmpty (NonEmpty_from_vec requirements) in
  reject_if (repeats_boundary (NonEmpty_into_vec requirements)) ManifestDuplicateBoundary ;?
  Ok (mkManifest origin whole_claim_digest requirements).

Definition requirements (m : BoundaryManifest) : list BoundaryRequirement :=
  NonEmpty_into_vec (bm_requirements m).
Arguments requirements : simpl never.

Section Recompose.
  Context {O : Type}.
  Implicit Types (m : BoundaryManifest) (slice : BoundarySlice O) (slices : list (BoundarySlice O)).

(** The first loop's body: what one presented slice violates. *)
Definition slice_failures m slice : list (RecompositionFailure O) :=
  (if negb (existsb (fun required => rq_boundary_id required == bs_boundary_id slice) (requirements m))
   then [UnaccountedBoundary (bs_boundary_id slice)] else []) ++
  (if bs_origin slice != bm_origin m
   then [ForeignSliceOrigin (bs_boundary_id slice) (bm_origin m) (bs_origin slice)] else []).

(** The inner loop's body of the second loop: one slice against its
    requirement. *)
Definition matching_failures (requirement : BoundaryRequirement) slice : list (RecompositionFailure O) :=
  (if bs_slice_digest slice != rq_expected_slice_digest requirement
   then [RewrittenSlice (rq_boundary_id requirement) (rq_expected_slice_digest requirement)
           (bs_slice_digest slice)] else []) ++
  (if negb (path_is_clean (bs_verdict slice))
   then match NonEmpty_from_vec (obstructions (bs_verdict slice)) with
        | Some obstructions => [ObstructedBoundary (rq_boundary_id requirement) obstructions]
        | None => []
        end
   else []).

(** The second loop's body. *)
Definition requirement_failures slices (requirement : BoundaryRequirement)
    : list (RecompositionFailure O) :=
  let matching := List.filter (fun slice => bs_boundary_id slice == rq_boundary_id requirement) slices in
  match matching with
  | [] => [MissingBoundary (rq_boundary_id requirement)]
  | _ =>
      (if 1 <? length matching then [DuplicateBoundary (rq_boundary_id requirement)] else []) ++
      concat (map (matching_failures requirement) matching)
  end.

(** The third loop: the accounted boundary of every requirement, or the early
    return. *)
Fixpoint account slices (required : list BoundaryRequirement) (boundaries : list (AccountedBoundary O))
    : RecompositionRefusal O + list (AccountedBoundary O) :=
  match required with
  | [] => inr boundaries
  | r :: rest =>
      match List.find (fun slice => bs_boundary_id slice == rq_boundary_id r) slices with
      | None => inl (mkRecompositionRefusal (NonEmpty_new (MissingBoundary (rq_boundary_id r))))
      | Some slice =>
          account slices rest
            (boundaries ++ [mkAccounted (bs_boundary_id slice) (bs_slice_digest slice) (bs_verdict slice)])
      end
  end.

(** [recompose]. *)
Definition recompose m slices : NativeJudgment (RecompositionWitness O) (RecompositionRefusal O) :=
  let failures :=
    concat (map (slice_failures m) slices) ++
    concat (map (requirement_failures slices) (requirements m)) in
  match NonEmpty_from_vec failures with
  | Some failures => Refuse (mkRecompositionRefusal failures)
  | None =>
      match account slices (requirements m) [] with
      | inl refusal => Refuse refusal
      | inr boundaries =>
          match NonEmpty_from_vec boundaries with
          | None =>
              Refuse (mkRecompositionRefusal
                (NonEmpty_new (MissingBoundary (rq_boundary_id (NonEmpty_first (bm_requirements m))))))
          | Some boundaries =>
              Admit (mkRecompositionWitness (bm_origin m) (bm_whole_claim_digest m) boundaries)
          end
      end
  end.

(** ** What counts as a violation *)

(** The slices presented for a boundary. *)
Definition presented (id : Digest) slices : list (BoundarySlice O) :=
  List.filter (fun slice => bs_boundary_id slice == id) slices.

(** The violations, stated one by one. *)
Definition violates m slices (f : RecompositionFailure O) : Prop :=
  match f with
  | UnaccountedBoundary id =>
      (exists s, s ∈ slices /\ bs_boundary_id s = id) /\ (id ∉ map rq_boundary_id (requirements m))
  | ForeignSliceOrigin id expected observed =>
      expected = bm_origin m /\ observed <> bm_origin m /\
      exists s, s ∈ slices /\ bs_boundary_id s = id /\ bs_origin s = observed
  | MissingBoundary id =>
      id ∈ map rq_boundary_id (requirements m) /\ presented id slices = []
  | DuplicateBoundary id =>
      id ∈ map rq_boundary_id (requirements m) /\ 1 < length (presented id slices)
  | RewrittenSlice id expected observed =>
      mkRequirement id expected ∈ requirements m /\ observed <> expected /\
      exists s, s ∈ slices /\ bs_boundary_id s = id /\ bs_slice_digest s = observed
  | ObstructedBoundary id os =>
      id ∈ map rq_boundary_id (requirements m) /\
      exists s, s ∈ slices /\ bs_boundary_id s = id /\ obstructions (bs_verdict s) = NonEmpty_into_vec os
  end.

(** All the failures [recompose] collects. *)
Definition all_failures m slices : list (RecompositionFailure O) :=
  concat (map (slice_failures m) slices) ++
  concat (map (requirement_failures slices) (requirements m)).

Lemma elem_of_concat_map {A B} (f : A -> list B) l x :
  x ∈ concat (map f l) <-> exists y, y ∈ l /\ x ∈ f y.
Proof.
  rewrite list_elem_of_In, in_concat. setoid_rewrite in_map_iff. setoid_rewrite list_elem_of_In.
  split; [intros (? & (y & <- & ?) & ?); eauto | intros (y & ? & ?); eauto].
Qed.

Lemma elem_of_if {A} (b : bool) (x y : A) : x ∈ (if b then [y] else []) <-> b = true /\ x = y.
Proof. destruct b; [rewrite list_elem_of_singleton | rewrite elem_of_nil]; intuition congruence. Qed.

Lemma elem_of_presented id slices s : s ∈ presented id slices <-> s ∈ slices /\ bs_boundary_id s = id.
Proof.
  unfold presented. rewrite !list_elem_of_In, filter_In, bool_decide_eq_true. done.
Qed.

Lemma existsb_required m id :
  existsb (fun required => rq_boundary_id required == id) (requirements m) = true <->
  id ∈ map rq_boundary_id (requirements m).
Proof.
  rewrite existsb_exists, list_elem_of_In, in_map_iff.
  setoid_rewrite bool_decide_eq_true. firstorder.
Qed.

Lemma slice_failures_spec m slices f :
  f ∈ concat (map (slice_failures m) slices) <->
  match f with
  | UnaccountedBoundary _ | ForeignSliceOrigin _ _ _ => violates m slices f
  | _ => False
  end.
Proof.
  rewrite elem_of_concat_map. unfold slice_failures. setoid_rewrite elem_of_app.
  setoid_rewrite elem_of_if. setoid_rewrite negb_true_iff.
  setoid_rewrite <- not_true_iff_false. setoid_rewrite existsb_required.
  setoid_rewrite bool_decide_eq_true.
  destruct f; simpl; split; try done.
  all: try (intros (s & Hs & [[? ?]|[? ?]]); simplify_eq; by eauto 10).
  - intros ((s & Hs & <-) & Hn). eauto 10.
  - intros (-> & Hn & s & Hs & <- & <-). eauto 10.
Qed.

Lemma matching_failures_spec r s f :
  f ∈ matching_failures r s <->
  match f with
  | RewrittenSlice id expected observed =>
      id = rq_boundary_id r /\ expected = rq_expected_slice_digest r /\
      observed = bs_slice_digest s /\ observed <> expected
  | ObstructedBoundary id os =>
      id = rq_boundary_id r /\ obstructions (bs_verdict s) = NonEmpty_into_vec os
  | _ => False
  end.
Proof.
  unfold matching_failures. rewrite elem_of_app, elem_of_if, negb_bool_decide_true.
  assert (f ∈ (if negb (path_is_clean (bs_verdict s))
      then match NonEmpty_from_vec (obstructions (bs_verdict s)) with
           | Some os => [ObstructedBoundary (rq_boundary_id r) os] | None => [] end else []) <->
    exists os, obstructions (bs_verdict s) = NonEmpty_into_vec os /\
               f = ObstructedBoundary (rq_boundary_id r) os) as ->.
  { unfold path_is_clean. destruct (obstructions (bs_verdict s)) as [|x l]; simpl.
    - rewrite elem_of_nil. split; [done | by intros (? & ? & _)].
    - rewrite list_elem_of_singleton. split; [intros ->; by exists (mkNonEmpty x l)|].
      intros ([h t] & [= <- <-] & ->). done. }
  destruct f; split; try done; try (intros [[? ?]|(os & ? & ?)]; simplify_eq; by split_all).
  - intros (-> & -> & -> & ?). by left.
  - intros (-> & ?). right. by eexists.
Qed.

Lemma requirement_failures_spec m slices f :
  f ∈ concat (map (requirement_failures slices) (requirements m)) <->
  match f with
  | UnaccountedBoundary _ | ForeignSliceOrigin _ _ _ => False
  | _ => violates m slices f
  end.
Proof.
  rewrite elem_of_concat_map.
  assert (forall r, f ∈ requirement_failures slices r <->
    (presented (rq_boundary_id r) slices = [] /\ f = MissingBoundary (rq_boundary_id r)) \/
    (1 < length (presented (rq_boundary_id r) slices) /\ f = DuplicateBoundary (rq_boundary_id r)) \/
    exists s, s ∈ presented (rq_boundary_id r) slices /\ f ∈ matching_failures r s) as Hr.
  { intros r. unfold requirement_failures. fold (presented (rq_boundary_id r) slices).
    destruct (presented (rq_boundary_id r) slices) as [|s l] eqn:Hp.
    - rewrite list_elem_of_singleton. split; [by left|].
      intros [[_ ?]|[[? _]|(s & Hs & _)]]; [done | simpl in *; lia | by apply elem_of_nil in Hs].
    - rewrite elem_of_app, elem_of_if, Nat.ltb_lt, elem_of_concat_map. split; [tauto|].
      intros [[? _]|?]; [done | tauto]. }
  setoid_rewrite Hr. setoid_rewrite elem_of_presented. setoid_rewrite matching_failures_spec.
  assert (forall id, id ∈ map rq_boundary_id (requirements m) <->
    exists r, r ∈ requirements m /\ rq_boundary_id r = id) as Hid.
  { intros id. apply elem_map_iff. }
  destruct f as [id|id|id|id ex ob|id ex ob|id os]; simpl; rewrite ?Hid; split; try done.
  all: try (intros (r & Hin & [[? ?]|[[? ?]|(s & [? ?] & ?)]]); simplify_eq; by eauto 10).
  all: try (intros ((r & Hin & <-) & Hp); by eauto 10).
  - intros (r & Hin & [[? ?]|[[? ?]|(s & [Hs Hb] & -> & -> & -> & Hne)]]); try done.
    split_all; [by destruct r | done | eauto].
  - intros (Hin & Hne & s & Hs & Hb & <-). exists (mkRequirement id ex). split; [done|].
    right. right. eauto 10.
  - intros (r & Hin & [[? ?]|[[? ?]|(s & [Hs Hb] & -> & Ho)]]); try done. split; eauto 10.
  - intros ((r & Hin & <-) & s & Hs & Hb & Ho). exists r. split; [done|]. right. right. eauto 10.
Qed.

(** The collected failures are exactly the violations. *)
Lemma all_failures_spec m slices f : f ∈ all_failures m slices <-> violates m slices f.
Proof.
  unfold all_failures. rewrite elem_of_app, slice_failures_spec, requirement_failures_spec.
  destruct f; tauto.
Qed.

Lemma presented_le_one slices :
  (forall id, length (presented id slices) <= 1) <-> NoDup (map bs_boundary_id slices).
Proof.
  induction slices as [|s slices IH]; simpl; [split; [constructor | lia]|].
  rewrite NoDup_cons, <- IH. unfold presented in *. simpl. split.
  - intros Hle. split.
    + intros (s' & Hin & Hid)%elem_map_iff.
      specialize (Hle (bs_boundary_id s)). rewrite bool_decide_eq_true_2 in Hle by done.
      assert (s' ∈ presented (bs_boundary_id s) slices) as Hp
        by (by apply elem_of_presented).
      unfold presented in Hp. destruct (List.filter _ slices) in Hp, Hle;
        [by apply elem_of_nil in Hp | simpl in Hle; lia].
    + intros id. specialize (Hle id). destruct (bool_decide _); simpl in Hle; lia.
  - intros [Hnew Hle] id. destruct (bool_decide_reflect (bs_boundary_id s = id)) as [<-|]; [|apply Hle].
    simpl. destruct (List.filter _ slices) as [|s' l] eqn:Hf; [simpl; lia|]. exfalso. apply Hnew.
    assert (s' ∈ presented (bs_boundary_id s) slices) as Hp by (unfold presented; rewrite Hf; by left).
    apply elem_of_presented in Hp as [Hp <-]. by apply elem_map.
Qed.

Definition slice_key slice : Digest * Digest := (bs_boundary_id slice, bs_slice_digest slice).
Definition requirement_key (r : BoundaryRequirement) : Digest * Digest :=
  (rq_boundary_id r, rq_expected_slice_digest r).

(** The slices account for all and only the manifest's boundaries. *)
Definition accounts_exactly m slices : Prop :=
  map slice_key slices ≡ₚ map requirement_key (requirements m) /\
  Forall (fun s => bs_origin s = bm_origin m /\ path_is_clean (bs_verdict s) = true) slices.

Definition manifest_valid m : Prop := NoDup (map rq_boundary_id (requirements m)).

Lemma accounts_no_violation m slices f :
  manifest_valid m -> accounts_exactly m slices -> ~ violates m slices f.
Proof.
  intros Hnd [Hperm Hall]. rewrite List.Forall_forall in Hall.
  assert (map bs_boundary_id slices ≡ₚ map rq_boundary_id (requirements m)) as Hids.
  { apply (Permutation_map fst) in Hperm. by rewrite !map_map in Hperm. }
  assert (NoDup (map bs_boundary_id slices)) as Hnds by (by rewrite Hids).
  assert (forall s, s ∈ slices -> exists r, r ∈ requirements m /\ requirement_key r = slice_key s) as Hs.
  { intros s Hin. apply elem_map_iff. rewrite <- Hperm. by apply elem_map. }
  assert (forall id, id ∈ map rq_boundary_id (requirements m) ->
    exists s, s ∈ slices /\ bs_boundary_id s = id) as Hr.
  { intros id. rewrite <- Hids. apply elem_map_iff. }
  destruct f as [id|id|id|id ex ob|id ex ob|id os]; cbn [violates].
  - intros [Hin He]. destruct (Hr id Hin) as (s & Hs' & Hb).
    assert (s ∈ presented id slices) as Hp by (by apply elem_of_presented).
    rewrite He in Hp. by apply elem_of_nil in Hp.
  - intros [_ Hl]. pose proof (proj2 (presented_le_one slices) Hnds id). lia.
  - intros [(s & Hin & <-) Hn]. destruct (Hs s Hin) as (r & Hin' & [= Hid _]). apply Hn.
    rewrite <- Hid. by apply elem_map.
  - intros (_ & Hne & s & Hin & _ & Ho). destruct (Hall s) as [? _]; [by apply list_elem_of_In|]. congruence.
  - intros (Hreq & Hne & s & Hin & Hb & Hd). destruct (Hs s Hin) as (r & Hin' & [= Hid He]).
    apply Hne. rewrite <- Hd, <- He.
    assert (r = mkRequirement id ex) as ->; [|done].
    apply (NoDup_map_inj rq_boundary_id (requirements m)); [exact Hnd | done | done | by rewrite Hid].
  - intros (_ & s & Hin & _ & Ho). destruct (Hall s) as [_ Hc]; [by apply list_elem_of_In|].
    unfold path_is_clean in Hc. by rewrite Ho in Hc.
Qed.

Lemma no_violation_accounts m slices :
  manifest_valid m -> (forall f, ~ violates m slices f) -> accounts_exactly m slices.
Proof.
  intros Hnd Hno.
  assert (NoDup (map bs_boundary_id slices)) as Hnds.
  { apply presented_le_one. intros id. destruct (decide (1 < length (presented id slices))) as [Hl|]; [|lia].
    exfalso. destruct (decide (id ∈ map rq_boundary_id (requirements m))) as [Hin|Hn];
      [by apply (Hno (DuplicateBoundary id))|].
    destruct (presented id slices) as [|s l] eqn:Hp; [simpl in Hl; lia|].
    apply (Hno (UnaccountedBoundary id)). split; [|done]. exists s. apply elem_of_presented.
    rewrite Hp. by left. }
  split.
  - apply NoDup_Permutation.
    + apply (NoDup_fmap_1 fst). change (NoDup (map fst (map slice_key slices))). by rewrite map_map.
    + apply (NoDup_fmap_1 fst). change (NoDup (map fst (map requirement_key (requirements m)))).
      by rewrite map_map.
    + intros [id d]. rewrite !elem_map_iff. split.
      * intros (s & Hs & [= <- <-]).
        destruct (decide (bs_boundary_id s ∈ map rq_boundary_id (requirements m))) as [Hin|Hn];
          [|exfalso; apply (Hno (UnaccountedBoundary (bs_boundary_id s))); by split; [exists s|]].
        apply elem_map_iff in Hin as (r & Hr & Hid). exists r. split; [done|].
        unfold requirement_key. rewrite Hid. f_equal.
        destruct (decide (bs_slice_digest s = rq_expected_slice_digest r)) as [|Hne]; [done|].
        exfalso. apply (Hno (RewrittenSlice (bs_boundary_id s) (rq_expected_slice_digest r) (bs_slice_digest s))).
        cbn [violates]; split_all; [rewrite <- Hid; by destruct r | done | eauto].
      * intros (r & Hr & [= <- <-]).
        destruct (presented (rq_boundary_id r) slices) as [|s l] eqn:Hp.
        { exfalso. apply (Hno (MissingBoundary (rq_boundary_id r))). split; [by apply elem_map | done]. }
        assert (s ∈ presented (rq_boundary_id r) slices) as Hin by (rewrite Hp; by left).
        apply elem_of_presented in Hin as [Hin Hb]. exists s. split; [done|].
        unfold slice_key. rewrite Hb. f_equal.
        destruct (decide (bs_slice_digest s = rq_expected_slice_digest r)) as [|Hne]; [done|].
        exfalso. apply (Hno (RewrittenSlice (rq_boundary_id r) (rq_expected_slice_digest r) (bs_slice_digest s))).
        cbn [violates]; split_all; [by destruct r | done | eauto].
  - apply List.Forall_forall. intros s Hin%list_elem_of_In. split.
    + destruct (decide (bs_origin s = bm_origin m)) as [|Hne]; [done|]. exfalso.
      apply (Hno (ForeignSliceOrigin (bs_boundary_id s) (bm_origin m) (bs_origin s))).
      cbn [violates]; split_all; [done | done | eauto].
    + destruct (path_is_clean (bs_verdict s)) eqn:Hc; [done|]. exfalso.
      destruct (obstructions (bs_verdict s)) as [|x l] eqn:Ho; [unfold path_is_clean in Hc; by rewrite Ho in Hc|].
      apply (Hno (ObstructedBoundary (bs_boundary_id s) (mkNonEmpty x l))). split; [|eauto].
      destruct (decide (bs_boundary_id s ∈ map rq_boundary_id (requirements m))) as [Hr|Hn]; [done|].
      exfalso. apply (Hno (UnaccountedBoundary (bs_boundary_id s))). by split; [exists s|].
Qed.

(** The boundaries an admission accounts for, in the manifest's order. *)
Definition accounted m : list (AccountedBoundary O) :=
  map (fun r => mkAccounted (rq_boundary_id r) (rq_expected_slice_digest r) path_clean) (requirements m).

Lemma account_spec slices required boundaries :
  (forall r, r ∈ required -> exists s,
     List.find (fun slice => bs_boundary_id slice == rq_boundary_id r) slices = Some s /\
     mkAccounted (bs_boundary_id s) (bs_slice_digest s) (bs_verdict s) =
     mkAccounted (rq_boundary_id r) (rq_expected_slice_digest r) path_clean) ->
  account slices required boundaries =
  inr (boundaries ++ map (fun r => mkAccounted (rq_boundary_id r) (rq_expected_slice_digest r) path_clean) required).
Proof.
  revert boundaries. induction required as [|r required IH]; intros boundaries Hf; simpl.
  { by rewrite app_nil_r. }
  destruct (Hf r) as (s & -> & ->); [by left|]. rewrite IH; [by rewrite <- app_assoc|].
  intros r' Hr'. apply Hf. by right.
Qed.

Lemma recompose_no_failure m slices :
  manifest_valid m -> all_failures m slices = [] ->
  exists bs, NonEmpty_into_vec bs = accounted m /\
    recompose m slices = Admit (mkRecompositionWitness (bm_origin m) (bm_whole_claim_digest m) bs).
Proof.
  intros Hnd Hnil. unfold recompose. fold (all_failures m slices). rewrite Hnil. cbn [NonEmpty_from_vec].
  assert (forall f, ~ violates m slices f) as Hno.
  { intros f Hv%all_failures_spec. rewrite Hnil in Hv. by apply elem_of_nil in Hv. }
  destruct (no_violation_accounts m slices Hnd Hno) as [Hperm Hall]. rewrite List.Forall_forall in Hall.
  rewrite account_spec; [|].
  - rewrite app_nil_l. fold (accounted m).
    destruct (NonEmpty_from_vec (accounted m)) as [bs|] eqn:Hb.
    + exists bs. split; [by apply from_vec_Some | done].
    + apply from_vec_None in Hb. done.
  - intros r Hr.
    destruct (List.find (fun slice => bs_boundary_id slice == rq_boundary_id r) slices) as [s|] eqn:Hf.
    + exists s. split; [done|]. apply find_some in Hf as [Hin Hid%bool_decide_eq_true].
      destruct (Hall s Hin) as [_ Hc%path_is_clean_spec]. rewrite Hid, Hc. f_equal.
      destruct (decide (bs_slice_digest s = rq_expected_slice_digest r)) as [|Hne]; [done|]. exfalso.
      apply (Hno (RewrittenSlice (rq_boundary_id r) (rq_expected_slice_digest r) (bs_slice_digest s))).
      cbn [violates]; split_all; [by destruct r | done | exists s; by rewrite list_elem_of_In].
    + exfalso. apply (Hno (MissingBoundary (rq_boundary_id r))). split; [by apply elem_map|].
      apply elem_of_nil_inv. intros s [Hin Hid]%elem_of_presented.
      apply list_elem_of_In, (find_none _ _ Hf), bool_decide_eq_false in Hin. done.
Qed.

End Recompose.

Lemma repeats_boundary_spec l : repeats_boundary l = false <-> NoDup (map rq_boundary_id l).
Proof.
  induction l as [|r l IH]; simpl; [split; [constructor | done]|].
  rewrite orb_false, NoDup_cons, IH, elem_map_iff, <- not_true_iff_false, existsb_exists.
  setoid_rewrite bool_decide_eq_true. setoid_rewrite <- list_elem_of_In. firstorder.
Qed.

Lemma manifest_new_ok o w l m :
  BoundaryManifest_new o w l = Ok m <->
  requirements m = l /\ bm_origin m = o /\ bm_whole_claim_digest m = w /\ manifest_valid m.
Proof.
  unfold BoundaryManifest_new, manifest_valid, requirements. rewrite res_bind_ok.
  setoid_rewrite ok_or_ok. setoid_rewrite from_vec_Some. setoid_rewrite guard_ok.
  setoid_rewrite repeats_boundary_spec. split.
  - intros (n & <- & Hnd & [= <-]). done.
  - intros (<- & <- & <- & Hnd). exists (bm_requirements m). split_all; [done | done |]. by destruct m.
Qed.

(** ** Properties *)

(** Recomposition admits exactly complete and exact accounts: under a
    manifest that [BoundaryManifest::new] returned, [recompose] admits if and
    only if the presented slices are, up to order, one slice per required
    boundary with the manifest's digest, all from the manifest's origin and all
    with clean verdicts; the witness then lists every required boundary once,
    in the manifest's order, with its expected digest and a clean verdict. *)
Theorem recompose_admits_exact_accounts {O} o w l m (slices : list (BoundarySlice O)) :
  BoundaryManifest_new o w l = Ok m ->
  ((exists wit, recompose m slices = Admit wit) <-> accounts_exactly m slices) /\
  (forall wit, recompose m slices = Admit wit ->
     rw_origin _ wit = o /\ rw_whole_claim_digest _ wit = w /\
     NonEmpty_into_vec (rw_boundaries _ wit) =
     map (fun r => mkAccounted (rq_boundary_id r) (rq_expected_slice_digest r) path_clean) l).
Proof.
  intros (Hl & Ho & Hw & Hvalid)%manifest_new_ok.
  assert (forall wit, recompose m slices = Admit wit -> all_failures m slices = []) as Hadm.
  { intros wit. unfold recompose. fold (all_failures m slices).
    destruct (NonEmpty_from_vec (all_failures m slices)) eqn:Hn; [done|]. by apply from_vec_None in Hn. }
  split; [split|].
  - intros [wit Hwit%Hadm]. apply no_violation_accounts; [done|].
    intros f Hv%all_failures_spec. rewrite Hwit in Hv. by apply elem_of_nil in Hv.
  - intros Ha. destruct (recompose_no_failure m slices Hvalid) as (bs & _ & Hr); [|by eexists].
    apply elem_of_nil_inv. intros f Hf%all_failures_spec. by apply (accounts_no_violation m slices f).
  - intros wit Hwit. destruct (recompose_no_failure m slices Hvalid (Hadm _ Hwit)) as (bs & Hbs & Hr).
    rewrite Hr in Hwit. injection Hwit as <-. simpl. rewrite Hbs, Ho, Hw, <- Hl. done.
Qed.

(** A refused recomposition reports exactly what is wrong, and loses
    nothing: its failures are precisely the missing, duplicate, unaccounted,
    foreign, rewritten and obstructed boundaries, and every obstruction of
    every slice presented for a required boundary is carried in full. *)
Theorem recompose_refusal_lossless {O} o w l m (slices : list (BoundarySlice O)) r :
  BoundaryManifest_new o w l = Ok m -> recompose m slices = Refuse r ->
  (forall f, f ∈ NonEmpty_into_vec (rr_failures r) <-> violates m slices f) /\
  (forall s x, s ∈ slices -> bs_boundary_id s ∈ map rq_boundary_id l -> x ∈ obstructions (bs_verdict s) ->
     exists os, ObstructedBoundary (bs_boundary_id s) os ∈ NonEmpty_into_vec (rr_failures r) /\
                NonEmpty_into_vec os = obstructions (bs_verdict s) /\ x ∈ NonEmpty_into_vec os).
Proof.
  intros (Hl & _ & _ & Hvalid)%manifest_new_ok Hr.
  assert (NonEmpty_into_vec (rr_failures r) = all_failures m slices) as Hf.
  { destruct (all_failures m slices) as [|f fs] eqn:Hn.
    - destruct (recompose_no_failure m slices Hvalid Hn) as (bs & _ & Ha). congruence.
    - unfold recompose in Hr. fold (all_failures m slices) in Hr. rewrite Hn in Hr.
      injection Hr as <-. done. }
  rewrite Hf. split; [intros f; apply all_failures_spec|].
  intros s x Hs Hreq Hx. destruct (obstructions (bs_verdict s)) as [|y ys] eqn:Ho; [by apply elem_of_nil in Hx|].
  exists (mkNonEmpty y ys). split_all; [|done|done].
  apply all_failures_spec. cbn [violates]. rewrite Hl. split; [done | eauto].
Qed.

Definition toy_requirements : list BoundaryRequirement :=
  [mkRequirement (hash_bytes [Byte.x01]) (hash_bytes [Byte.x0a]);
   mkRequirement (hash_bytes [Byte.x02]) (hash_bytes [Byte.x0b])].
Definition toy_manifest : BoundaryManifest :=
  mkManifest toy_origin (hash_bytes []) (mkNonEmpty (mkRequirement (hash_bytes [Byte.x01]) (hash_bytes [Byte.x0a]))
    [mkRequirement (hash_bytes [Byte.x02]) (hash_bytes [Byte.x0b])]).
Definition toy_slice (id slice : byte) (v : PathVerdict nat) : BoundarySlice nat :=
  mkSlice toy_origin (hash_bytes [id]) (hash_bytes [slice]) v.

Lemma recompose_admits_exact_accounts_witness :
  exists wit, recompose toy_manifest
    [toy_slice Byte.x02 Byte.x0b path_clean; toy_slice Byte.x01 Byte.x0a path_clean] = Admit wit.
Proof.
  apply (recompose_admits_exact_accounts toy_origin (hash_bytes []) toy_requirements).
  - vm_compute. reflexivity.
  - split; [apply Permutation_swap | repeat constructor].
Defined.

Lemma recompose_refusal_lossless_witness :
  exists r, recompose toy_manifest
      [toy_slice Byte.x02 Byte.x0b (path_obstructed (hash_bytes []) 7)] = Refuse r /\
    MissingBoundary (hash_bytes [Byte.x01]) ∈ NonEmpty_into_vec (rr_failures r).
Proof.
  eexists. split; [vm_compute; reflexivity|].
  apply (recompose_refusal_lossless toy_origin (hash_bytes []) toy_requirements toy_manifest
    [toy_slice Byte.x02 Byte.x0b (path_obstructed (hash_bytes []) 7)]);
    [vm_compute; reflexivity | vm_compute; reflexivity |].
  split; [left | vm_compute; reflexivity].
Defined.
