(* ===== verification/Authority.v ===== *)
(** * Reconstruction of effect authority (ag-kernel/src/authority.rs)

    A store keeps an [AdmissionCommit]; authority exists only inside a process
    that has verified the commit's digests, found the books at the committed
    heads and replayed the crossing to the same witness.  The theorems show
    that reconstruction succeeds for exactly the commits of admitted crossings,
    and that a reconstructed authority pins the history of all four books. *)

From S2P Require Import Prelude Wire Fixture Digest Names Origin Judgment Family.

(** [trait AuthorityFamily]: a witness type has a domain separator. *)
Class AuthorityFamily (W : Type) := family_DOMAIN : string.

#[global] Instance EffectFamily : AuthorityFamily EffectCrossingWitness := "effect-crossing".

Record AdmissionCommit (W : Type) : Type := mkCommit {
  ac_witness : W;
  ac_witness_digest : Digest;
  ac_evaluation_context_digest : Digest;
  ac_commit_digest : Digest
}.
Arguments mkCommit {W} _ _ _ _.
Arguments ac_witness {W} _.
Arguments ac_witness_digest {W} _.
Arguments ac_evaluation_context_digest {W} _.
Arguments ac_commit_digest {W} _.

(** [struct Authority<F>]. *)
Record Authority (W : Type) : Type := mkAuthority { au_witness : W; au_commit_digest : Digest }.
Arguments mkAuthority {W} _ _.
Arguments au_witness {W} _.
Arguments au_commit_digest {W} _.

Inductive AuthorityError : Type :=
  | WitnessDigestMismatch
  | CommitDigestMismatch
  | EvaluationContextMismatch
  | ReplayRefused
  | ReplayWitnessMismatch
  | AuthorityCanonicalization (message : string).

Section Authority.
  Context `{Deps}.

(** [domain_digest]: encodes with [serde_jcs] directly. *)
Definition authority_domain_digest `{Serialize T} (domain : string) (value : T)
    : res AuthorityError Digest :=
  let? encoded := map_err AuthorityCanonicalization (to_vec (to_value value)) in
  Ok (hash_bytes (nul_preimage domain encoded)).

(** The tuples [domain_digest] is applied to. *)
#[local] Instance commit_tuple_serialize : Serialize (Digest * Digest) := fun p =>
  VArray [to_value p.1; to_value p.2].
#[local] Instance heads_tuple_serialize : Serialize (Digest * Digest * Digest * Digest) := fun p =>
  VArray [to_value p.1.1.1; to_value p.1.1.2; to_value p.1.2; to_value p.2].

(** [commit_digest::<F>]. *)
Definition commit_digest `{AuthorityFamily W} (witness_digest context_digest : Digest)
    : res AuthorityError Digest :=
  authority_domain_digest ("ag-ng:" +:+ family_DOMAIN (W := W) +:+ ":admission-commit:v1")
    (witness_digest, context_digest).

Definition witness_domain `{AuthorityFamily W} : string :=
  "ag-ng:" +:+ family_DOMAIN (W := W) +:+ ":witness:v1".

(** [effect_context_digest]. *)
Definition effect_context_digest (standing custody obligation capacity : Digest)
    : res AuthorityError Digest :=
  authority_domain_digest "ag-ng:effect-crossing:context:v1" (standing, custody, obligation, capacity).

(** [effect_context_digest_from_witness]. *)
Definition effect_context_digest_from_witness (w : EffectCrossingWitness) : res AuthorityError Digest :=
  effect_context_digest (wi_book_head (ecw_standing w)) (wi_book_head (ecw_custody w))
    (wi_book_head (ecw_obligation w)) (wi_book_head (ecw_capacity w)).

(** [AdmissionCommit::new::<F>]. *)
Definition AdmissionCommit_new `{AuthorityFamily W, Serialize W} (witness : W) (context : Digest)
    : res AuthorityError (AdmissionCommit W) :=
  let? witness_digest := authority_domain_digest (witness_domain (W := W)) witness in
  let? commit := commit_digest (W := W) witness_digest context in
  Ok (mkCommit witness witness_digest context commit).

(** [AdmissionCommit::effect]. *)
Definition AdmissionCommit_effect (witness : EffectCrossingWitness)
    : res AuthorityError (AdmissionCommit EffectCrossingWitness) :=
  let? context := effect_context_digest_from_witness witness in
  AdmissionCommit_new witness context.

(** [verify_record::<F>]. *)
Definition verify_record `{AuthorityFamily W, Serialize W} (record : AdmissionCommit W)
    : res AuthorityError unit :=
  let? observed_witness := authority_domain_digest (witness_domain (W := W)) (ac_witness record) in
  reject_if (observed_witness != ac_witness_digest record) WitnessDigestMismatch ;?
  let? observed_commit :=
    commit_digest (W := W) (ac_witness_digest record) (ac_evaluation_context_digest record) in
  reject_if (observed_commit != ac_commit_digest record) CommitDigestMismatch ;?
  Ok tt.

(** The claim a witness names. *)
Definition claim_of_witness (w : EffectCrossingWitness) : EffectCrossingClaim :=
  mkEffectClaim (wi_claim (ecw_standing w)) (wi_claim (ecw_custody w))
    (wi_claim (ecw_obligation w)) (wi_claim (ecw_capacity w)).

(** [reconstruct_effect_authority]. *)
Definition reconstruct_effect_authority (standing_book : Book Standing) (custody_book : Book Custody)
    (obligation_book : Book Obligation) (capacity_book : Book Capacity)
    (record : AdmissionCommit EffectCrossingWitness)
    : res AuthorityError (Authority EffectCrossingWitness) :=
  verify_record record ;?
  let? context := effect_context_digest (bk_head standing_book) (bk_head custody_book)
    (bk_head obligation_book) (bk_head capacity_book) in
  reject_if (ac_evaluation_context_digest record != context) EvaluationContextMismatch ;?
  let claim := claim_of_witness (ac_witness record) in
  let? judgment :=
    evaluate_effect_crossing standing_book custody_book obligation_book capacity_book claim in
  match judgment with
  | Refuse _ => Err ReplayRefused
  | Admit replayed =>
      if replayed != ac_witness record then Err ReplayWitnessMismatch
      else Ok (mkAuthority (ac_witness record) (ac_commit_digest record))
  end.

(** ** Lemmas *)

Lemma AdmissionCommit_new_ok `{AuthorityFamily W, Serialize W} (w : W) context r :
  AdmissionCommit_new w context = Ok r <->
  ac_witness r = w /\ ac_evaluation_context_digest r = context /\
  authority_domain_digest (witness_domain (W := W)) w = Ok (ac_witness_digest r) /\
  commit_digest (W := W) (ac_witness_digest r) context = Ok (ac_commit_digest r).
Proof.
  unfold AdmissionCommit_new. rewrite res_bind_ok. split.
  - intros (d & Hd & Hr). apply res_bind_ok in Hr as (c & Hc & [= <-]). done.
  - intros (<- & <- & Hd & Hc). eexists. split; [exact Hd|]. rewrite Hc. simpl. by destruct r.
Qed.

Lemma verify_record_ok `{AuthorityFamily W, Serialize W} (r : AdmissionCommit W) :
  verify_record r = Ok tt <-> AdmissionCommit_new (ac_witness r) (ac_evaluation_context_digest r) = Ok r.
Proof.
  rewrite AdmissionCommit_new_ok. unfold verify_record. rewrite res_bind_ok. split.
  - intros (d & Hd & Hv). rewrite guard_ok, negb_bool_decide_false in Hv. destruct Hv as [-> Hv].
    apply res_bind_ok in Hv as (c & Hc & Hv). rewrite guard_ok, negb_bool_decide_false in Hv.
    destruct Hv as [-> _]. done.
  - intros (_ & _ & Hd & Hc). eexists. split; [exact Hd|]. rewrite bool_decide_eq_true_2 by done.
    cbn [negb reject_if res_bind]. rewrite Hc. cbn [res_bind]. by rewrite bool_decide_eq_true_2.
Qed.

Lemma claim_of_effect_witness sb cb ob pb c : claim_of_witness (effect_witness sb cb ob pb c) = c.
Proof. by destruct c. Qed.

Lemma context_of_effect_witness sb cb ob pb c :
  effect_context_digest_from_witness (effect_witness sb cb ob pb c) =
  effect_context_digest (bk_head sb) (bk_head cb) (bk_head ob) (bk_head pb).
Proof. done. Qed.

Lemma reconstruct_ok sb cb ob pb r a :
  reconstruct_effect_authority sb cb ob pb r = Ok a <->
  a = mkAuthority (ac_witness r) (ac_commit_digest r) /\ AdmissionCommit_effect (ac_witness r) = Ok r /\
  ac_witness r = effect_witness sb cb ob pb (claim_of_witness (ac_witness r)) /\
  effect_holds sb cb ob pb (claim_of_witness (ac_witness r)).
Proof.
  unfold reconstruct_effect_authority, AdmissionCommit_effect.
  rewrite then_ok, verify_record_ok, res_bind_ok. split.
  - intros (Hv & ctx & Hctx & Hr). rewrite guard_ok, negb_bool_decide_false in Hr.
    destruct Hr as [He Hr]. apply res_bind_ok in Hr as (j & Hj & Hr).
    destruct j as [w|]; [|done]. destruct (bool_decide_reflect (w = ac_witness r)) as [->|]; [|done].
    injection Hr as <-. apply effect_crossing_admit in Hj as [Hw Hh]. split_all; try done.
    rewrite Hw at 1. rewrite context_of_effect_witness, Hctx. simpl. by rewrite <- He.
  - intros (-> & Hc & Hw & Hh). apply res_bind_ok in Hc as (ctx & Hctx & Hc).
    assert (ac_evaluation_context_digest r = ctx) as <- by (by apply AdmissionCommit_new_ok in Hc as (_ & ? & _)).
    split; [done|]. exists (ac_evaluation_context_digest r). split.
    { rewrite Hw in Hctx. by rewrite context_of_effect_witness in Hctx. }
    rewrite bool_decide_eq_true_2 by done. cbn [negb reject_if res_bind].
    assert (evaluate_effect_crossing (E := AuthorityError) sb cb ob pb (claim_of_witness (ac_witness r)) =
      Ok (Admit (ac_witness r))) as -> by (by apply effect_crossing_admit).
    cbn [res_bind]. by rewrite bool_decide_eq_true_2.
Qed.

Lemma authority_domain_digest_binds `{!JcsLaws, !HexLaws, !Sha256Laws} `{SerializeInj T} domain (x y : T) bx yb d :
  encodes x bx -> encodes y yb ->
  authority_domain_digest domain x = Ok d -> authority_domain_digest domain y = Ok d ->
  x = y \/ collision (nul_preimage domain bx) (nul_preimage domain yb).
Proof.
  intros (Hx & Hbx & _) (Hy & Hby & _). unfold authority_domain_digest, to_vec. rewrite Hbx, Hby. simpl.
  intros Hdx Hdy.
  assert (hash_bytes (nul_preimage domain bx) = hash_bytes (nul_preimage domain yb)) as He by congruence.
  apply hash_bytes_binds in He as [He|Hc]; [left | by right].
  apply app_inv_head in He. injection He as ->. by apply to_value_inj, (canon_injective_encoding _ _ _ Hx Hy Hbx Hby).
Qed.

Lemma authority_domain_digest_total `{!JcsLaws} `{Serialize T} domain (x : T) :
  ijson (to_value x) = true -> exists d, authority_domain_digest domain x = Ok d.
Proof.
  intros (b & Hb)%jcs_total. unfold authority_domain_digest, to_vec. rewrite Hb. by eexists.
Qed.

Lemma AdmissionCommit_effect_total `{!JcsLaws} w :
  ijson (to_value w) = true -> exists r, AdmissionCommit_effect w = Ok r /\ ac_witness r = w.
Proof.
  intros Hw. unfold AdmissionCommit_effect, AdmissionCommit_new, effect_context_digest_from_witness,
    effect_context_digest, commit_digest.
  destruct (authority_domain_digest_total "ag-ng:effect-crossing:context:v1"
    (wi_book_head (ecw_standing w), wi_book_head (ecw_custody w),
     wi_book_head (ecw_obligation w), wi_book_head (ecw_capacity w))) as [ctx ->]; [reflexivity|]. cbn [res_bind].
  destruct (authority_domain_digest_total witness_domain w Hw) as [d ->]. cbn [res_bind].
  destruct (authority_domain_digest_total
    ("ag-ng:" +:+ family_DOMAIN (W := EffectCrossingWitness) +:+ ":admission-commit:v1") (d, ctx))
    as [c ->]; [reflexivity|]. simpl. by eexists.
Qed.

End Authority.

(** ** Properties *)

(** C3. Authority is reconstructed from exactly the commits of admitted
    crossings: given the four books, [reconstruct_effect_authority] succeeds on
    a record if and only if some crossing claim is admitted against these
    books with the record's witness and the record is, digest for digest, what
    [AdmissionCommit::effect] builds for that witness; the authority then
    carries that witness and commit digest. *)
Theorem reconstruct_iff_commit_of_admission `{Deps} sb cb ob pb record a :
  reconstruct_effect_authority sb cb ob pb record = Ok a <->
  (exists claim, evaluate_effect_crossing (E := Empty_set) sb cb ob pb claim = Ok (Admit (ac_witness record))) /\
  AdmissionCommit_effect (ac_witness record) = Ok record /\
  a = mkAuthority (ac_witness record) (ac_commit_digest record).
Proof.
  rewrite reconstruct_ok. setoid_rewrite effect_crossing_admit. split.
  - intros (-> & Hc & Hw & Hh). split_all; [|done|done]. by exists (claim_of_witness (ac_witness record)).
  - intros ((c & Hw & Hh) & Hc & ->). split_all; [done|done| |]; rewrite Hw, claim_of_effect_witness; done.
Qed.

(** Every admission can be committed and replayed: when the four books admit
    a crossing and its witness is I-JSON data, a commit is built and the same
    books reconstruct authority with that witness from it. *)
Theorem admitted_crossing_reconstructs `{JcsLaws} sb cb ob pb claim w :
  evaluate_effect_crossing (E := Empty_set) sb cb ob pb claim = Ok (Admit w) ->
  ijson (to_value w) = true ->
  exists record, AdmissionCommit_effect w = Ok record /\
    reconstruct_effect_authority sb cb ob pb record = Ok (mkAuthority w (ac_commit_digest record)).
Proof.
  intros (Hw & Hh)%effect_crossing_admit Hi.
  destruct (AdmissionCommit_effect_total w Hi) as (r & Hr & Hrw). exists r. split; [done|].
  apply reconstruct_ok. rewrite Hrw. split_all; [done | done | |]; rewrite Hw, claim_of_effect_witness; done.
Qed.

Definition toy_book (k : BookKind) : Book k :=
  match replay_all (Book_new k toy_origin) [toy_entry k "a" 1] with Ok b => b | _ => Book_new k toy_origin end.
Definition toy_effect_claim : EffectCrossingClaim :=
  mkEffectClaim (toy_claim Standing "a" 1) (toy_claim Custody "a" 1)
    (toy_claim Obligation "a" 1) (toy_claim Capacity "a" 1).
Definition toy_effect_witness : EffectCrossingWitness :=
  effect_witness (toy_book Standing) (toy_book Custody) (toy_book Obligation) (toy_book Capacity) toy_effect_claim.

Lemma admitted_crossing_reconstructs_witness :
  exists record, AdmissionCommit_effect toy_effect_witness = Ok record /\
    reconstruct_effect_authority (toy_book Standing) (toy_book Custody) (toy_book Obligation)
      (toy_book Capacity) record = Ok (mkAuthority toy_effect_witness (ac_commit_digest record)).
Proof.
  apply (admitted_crossing_reconstructs _ _ _ _ toy_effect_claim); vm_compute; reflexivity.
Defined.

(** A commit pins the books it was evaluated against: if one record
    reconstructs authority under two sets of books, each reached by replays,
    then all four pairs of books have the same heads, and hence the same
    histories, or a SHA-256 collision occurs among the strings hashed into
    them.  Any further committed entry in any book therefore invalidates the
    record. *)
Theorem authority_pins_book_histories `{JcsLaws, !HexLaws, !Sha256Laws}
    (hist hist' : forall k, list (Entry k)) (book book' : forall k, Book k) o o' record a a' :
  (forall k, Forall (fun e => ijson (to_value e) = true) (hist k)) ->
  (forall k, Forall (fun e => ijson (to_value e) = true) (hist' k)) ->
  (forall k, replay_all (Book_new k o) (hist k) = Ok (book k)) ->
  (forall k, replay_all (Book_new k o') (hist' k) = Ok (book' k)) ->
  reconstruct_effect_authority (book Standing) (book Custody) (book Obligation) (book Capacity) record = Ok a ->
  reconstruct_effect_authority (book' Standing) (book' Custody) (book' Obligation) (book' Capacity) record = Ok a' ->
  forall k, bk_head (book k) = bk_head (book' k) /\
    (hist k = hist' k \/ exists p q, p ∈ hashed k (hist k) /\ q ∈ hashed k (hist' k) /\ collision p q).
Proof.
  intros Hj Hj' Hb Hb' (_ & _ & Hw & _)%reconstruct_ok (_ & _ & Hw' & _)%reconstruct_ok k.
  assert (bk_head (book k) = bk_head (book' k)) as Hh.
  { rewrite Hw' in Hw at 1. unfold effect_witness, claim_witness in Hw.
    injection Hw as Hs Hc Ho Hp. by destruct k. }
  split; [done|]. by eapply head_binds_history.
Qed.

Definition toy_record : AdmissionCommit EffectCrossingWitness :=
  match AdmissionCommit_effect toy_effect_witness with
  | Ok r => r
  | _ => mkCommit toy_effect_witness (hash_bytes []) (hash_bytes []) (hash_bytes [])
  end.

Lemma authority_pins_book_histories_witness :
  bk_head (toy_book Custody) = bk_head (toy_book Custody).
Proof.
  eapply (authority_pins_book_histories (fun k => [toy_entry k "a" 1]) (fun k => [toy_entry k "a" 1])
    toy_book toy_book toy_origin toy_origin toy_record).
  - intros k. repeat constructor.
  - intros k. repeat constructor.
  - intros k. destruct k; vm_compute; reflexivity.
  - intros k. destruct k; vm_compute; reflexivity.
  - vm_compute. reflexivity.
  - vm_compute. reflexivity.
Defined.

(** A substituted witness is detected: a commit whose witness is replaced by
    a different one is refused with [WitnessDigestMismatch] under any books,
    unless the two witness preimages are a SHA-256 collision. *)
Theorem substituted_witness_refused `{JcsLaws, !HexLaws, !Sha256Laws} sb cb ob pb record w' b b' :
  AdmissionCommit_effect (ac_witness record) = Ok record ->
  encodes (ac_witness record) b -> encodes w' b' -> w' <> ac_witness record ->
  reconstruct_effect_authority sb cb ob pb
    (mkCommit w' (ac_witness_digest record) (ac_evaluation_context_digest record) (ac_commit_digest record))
    = Err WitnessDigestMismatch \/
  collision (nul_preimage (witness_domain (W := EffectCrossingWitness)) b')
            (nul_preimage (witness_domain (W := EffectCrossingWitness)) b).
Proof.
  intros Hc He He' Hne. apply res_bind_ok in Hc as (ctx & _ & Hc).
  apply AdmissionCommit_new_ok in Hc as (_ & _ & Hd & _).
  unfold reconstruct_effect_authority, verify_record. simpl.
  destruct (authority_domain_digest_total (witness_domain (W := EffectCrossingWitness)) w')
    as [d' Hd']; [apply He'|]. rewrite Hd'. simpl.
  destruct (bool_decide_reflect (d' = ac_witness_digest record)) as [->|]; simpl; [|by left].
  right. destruct (authority_domain_digest_binds _ _ _ _ _ _ He' He Hd' Hd) as [->|Hcol]; done.
Qed.

Definition toy_other_witness : EffectCrossingWitness :=
  mkEffectWitness (ecw_standing toy_effect_witness) (ecw_custody toy_effect_witness)
    (ecw_obligation toy_effect_witness)
    (mkWitness (toy_claim Capacity "b" 1) (bk_head (toy_book Capacity)) (hash_bytes [Byte.x01])).
Lemma substituted_witness_refused_witness :
  reconstruct_effect_authority (toy_book Standing) (toy_book Custody) (toy_book Obligation) (toy_book Capacity)
    (mkCommit toy_other_witness (ac_witness_digest toy_record) (ac_evaluation_context_digest toy_record)
      (ac_commit_digest toy_record)) = Err WitnessDigestMismatch \/
  collision (nul_preimage (witness_domain (W := EffectCrossingWitness)) (toy_encoding toy_other_witness))
            (nul_preimage (witness_domain (W := EffectCrossingWitness)) (toy_encoding (ac_witness toy_record))).
Proof.
  apply (substituted_witness_refused _ _ _ _ toy_record toy_other_witness).
  - vm_compute. reflexivity.
  - toy_encoded.
  - toy_encoded.
  - vm_compute. discriminate.
Defined.
