(* ===== verification/Correspondence.v ===== *)
(** * The calculus adapter (ag-kernel/src/correspondence.rs)

    An operational decision bound to the reviewed calculus baseline and its
    lifecycle, and the ledger that lets each decision be projected once.  The
    ledger's map is the [BTreeMap]'s entry list in key order.  The theorems show
    that a verified decision cannot be substituted, and that over any sequence
    of calls every decision is consumed at most once and every receipt stays. *)

From S2P Require Import Prelude Wire Fixture Digest Names Origin Judgment.

Definition CALCULUS_ADAPTER_SCHEMA_V1 : string := "ag.calculus-adapter/v1".
Definition ADMISSIBILITY_CALCULUS_REVISION_V1 : string := "ff491b808ebeab2a132d9ade46d234cf85dcfbe9".
Definition ADMISSIBILITY_CALCULUS_RELEASE_V1 : string := "14.0.0".

Record CalculusAdapterContextV1 : Type := mkCalculusContext {
  cc_schema : string;
  cc_calculus_revision : string;
  cc_calculus_release : string;
  cc_authority_domain : AuthorityDomainId;
  cc_epoch : EpochId;
  cc_lifecycle_origin : LifecycleOrigin;
  cc_evaluator_identity : Digest;
  cc_input_digest : Digest
}.

Inductive CalculusAdapterError : Type :=
  | SchemaMismatch
  | CalculusBaselineMismatch
  | LifecycleContextMismatch
  | DecisionDigestMismatch
  | ForeignLifecycleOrigin
  | DecisionAlreadyConsumed
  | UseReceiptMismatch
  | CalculusCanonicalization (e : JcsError).

Inductive CalculusDispositionV1 : Type := DispositionAdmit | DispositionRefuse | DispositionIndeterminate.

(** [CalculusAdapterContextV1::new]. *)
Definition CalculusAdapterContextV1_new (domain : AuthorityDomainId) (epoch : EpochId)
    (origin : LifecycleOrigin) (evaluator input : Digest) : CalculusAdapterContextV1 :=
  mkCalculusContext CALCULUS_ADAPTER_SCHEMA_V1 ADMISSIBILITY_CALCULUS_REVISION_V1
    ADMISSIBILITY_CALCULUS_RELEASE_V1 domain epoch origin evaluator input.

(** [CalculusAdapterContextV1::verify]. *)
Definition context_verify (c : CalculusAdapterContextV1) : res CalculusAdapterError unit :=
  reject_if (cc_schema c != CALCULUS_ADAPTER_SCHEMA_V1) SchemaMismatch ;?
  reject_if ((cc_calculus_revision c != ADMISSIBILITY_CALCULUS_REVISION_V1)
             || (cc_calculus_release c != ADMISSIBILITY_CALCULUS_RELEASE_V1)) CalculusBaselineMismatch ;?
  reject_if ((lo_authority_domain (cc_lifecycle_origin c) != cc_authority_domain c)
             || (lo_epoch (cc_lifecycle_origin c) != cc_epoch c)) LifecycleContextMismatch ;?
  Ok tt.

(** ** Serialization *)

#[global] Instance CalculusAdapterContextV1_serialize `{Deps} : Serialize CalculusAdapterContextV1 := fun c =>
  VObject [("schema", to_value (cc_schema c)); ("calculus_revision", to_value (cc_calculus_revision c));
           ("calculus_release", to_value (cc_calculus_release c));
           ("authority_domain", to_value (cc_authority_domain c)); ("epoch", to_value (cc_epoch c));
           ("lifecycle_origin", to_value (cc_lifecycle_origin c));
           ("evaluator_identity", to_value (cc_evaluator_identity c));
           ("input_digest", to_value (cc_input_digest c))].
#[global] Instance CalculusAdapterContextV1_inj `{HexLaws} : SerializeInj CalculusAdapterContextV1.
Proof. ser_struct. Qed.

#[global] Instance OperationalFailureKind_serialize : Serialize OperationalFailureKind := fun k =>
  VString match k with
          | ObservationUnavailable => "observation_unavailable"
          | Timeout => "timeout"
          | CustodyFailure => "custody_failure"
          | StoreFailure => "store_failure"
          | ClockFailure => "clock_failure"
          | IncompleteEvaluation => "incomplete_evaluation"
          end.
#[global] Instance OperationalFailureKind_inj : SerializeInj OperationalFailureKind.
Proof. ser_unit_enum. Qed.
#[global] Instance FailureEvidence_serialize : Serialize FailureEvidence := fun e =>
  VObject [("kind", to_value (fe_kind e)); ("evidence_digest", to_value (fe_evidence_digest e))].
#[global] Instance FailureEvidence_inj : SerializeInj FailureEvidence.
Proof. ser_struct. Qed.
#[global] Instance OperationalEvaluation_serialize `{Serialize W, Serialize R} :
    Serialize (OperationalEvaluation W R) := fun e =>
  match e with
  | Evaluated j => VObject [("Evaluated", to_value j)]
  | Indeterminate evidence => VObject [("Indeterminate", to_value evidence)]
  end.

(** Objects with one member under different names are different. *)
Lemma single_member_equiv k k' v v' : value_equiv (VObject [(k, v)]) (VObject [(k', v')]) -> k = k' /\ value_equiv v v'.
Proof. unfold value_equiv. simpl. by intros [= -> ->]. Qed.

#[global] Instance NativeJudgment_inj `{SerializeInj W, SerializeInj R} : SerializeInj (NativeJudgment W R).
Proof.
  intros [w|r] [w'|r'] [Hk Hv]%single_member_equiv; try done; f_equal; by apply to_value_inj.
Qed.
#[global] Instance OperationalEvaluation_inj `{SerializeInj W, SerializeInj R} :
  SerializeInj (OperationalEvaluation W R).
Proof.
  intros [j|e] [j'|e'] [Hk Hv]%single_member_equiv; try done; f_equal; by apply to_value_inj.
Qed.

(** ** Decisions *)

Record CalculusDecisionV1 (W R : Type) : Type := mkDecision {
  cd_context : CalculusAdapterContextV1;
  cd_outcome : OperationalEvaluation W R;
  cd_decision_digest : Digest
}.
Arguments mkDecision {W R} _ _ _.
Arguments cd_context {W R} _.
Arguments cd_outcome {W R} _.
Arguments cd_decision_digest {W R} _.

Record CalculusUseReceiptV1 : Type := mkReceipt {
  ur_decision : Digest;
  ur_consumer : Digest;
  ur_lifecycle_origin : LifecycleOrigin;
  ur_use_digest : Digest
}.

Record CalculusDecisionLedgerV1 : Type := mkLedger {
  dl_lifecycle_origin : LifecycleOrigin;
  dl_consumed : list (string * CalculusUseReceiptV1)
}.

(** [CalculusDecisionLedgerV1::new]. *)
Definition CalculusDecisionLedgerV1_new (origin : LifecycleOrigin) : CalculusDecisionLedgerV1 :=
  mkLedger origin [].

Section Adapter.
  Context `{Deps}.

(** [canonical_digest]. *)
Definition canonical_digest (domain : string) (value : Value) : res CalculusAdapterError Digest :=
  let? encoded := map_err CalculusCanonicalization (canonicalize value) in
  Ok (hash_bytes (nul_preimage domain (jcs_bytes encoded))).

Section Decisions.
  Context {W R : Type} `{Serialize W, Serialize R}.

(** [decision_digest]: of the tuple [(context, outcome)]. *)
Definition decision_value (context : CalculusAdapterContextV1) (outcome : OperationalEvaluation W R) : Value :=
  VArray [to_value context; to_value outcome].
Definition decision_digest (context : CalculusAdapterContextV1) (outcome : OperationalEvaluation W R)
    : res CalculusAdapterError Digest :=
  canonical_digest "ag-ng:calculus-decision:v1" (decision_value context outcome).

(** [CalculusDecisionV1::new]. *)
Definition CalculusDecisionV1_new (context : CalculusAdapterContextV1) (outcome : OperationalEvaluation W R)
    : res CalculusAdapterError (CalculusDecisionV1 W R) :=
  context_verify context ;?
  let? digest := decision_digest context outcome in
  Ok (mkDecision context outcome digest).

(** [CalculusDecisionV1::verify]. *)
Definition decision_verify (d : CalculusDecisionV1 W R) : res CalculusAdapterError unit :=
  context_verify (cd_context d) ;?
  let? digest := decision_digest (cd_context d) (cd_outcome d) in
  reject_if (digest != cd_decision_digest d) DecisionDigestMismatch ;?
  Ok tt.

(** [CalculusDecisionV1::outcome]. *)
Definition decision_outcome (d : CalculusDecisionV1 W R) : res CalculusAdapterError (OperationalEvaluation W R) :=
  decision_verify d ;? Ok (cd_outcome d).

(** [CalculusDecisionV1::disposition]. *)
Definition disposition (d : CalculusDecisionV1 W R) : res CalculusAdapterError CalculusDispositionV1 :=
  decision_verify d ;?
  Ok match cd_outcome d with
     | Evaluated (Admit _) => DispositionAdmit
     | Evaluated (Refuse _) => DispositionRefuse
     | Indeterminate _ => DispositionIndeterminate
     end.

End Decisions.

(** The digest of a receipt: the tuple [(decision, consumer, origin)]. *)
Definition use_digest (decision consumer : Digest) (origin : LifecycleOrigin) : res CalculusAdapterError Digest :=
  canonical_digest "ag-ng:calculus-decision-use:v1"
    (VArray [to_value decision; to_value consumer; to_value origin]).

(** [CalculusUseReceiptV1::verify]. *)
Definition receipt_verify (r : CalculusUseReceiptV1) : res CalculusAdapterError unit :=
  let? expected := use_digest (ur_decision r) (ur_consumer r) (ur_lifecycle_origin r) in
  reject_if (expected != ur_use_digest r) UseReceiptMismatch ;?
  Ok tt.

(** The loop of [CalculusDecisionLedgerV1::verify]. *)
Fixpoint verify_entries (origin : LifecycleOrigin) (entries : list (string * CalculusUseReceiptV1))
    : res CalculusAdapterError unit :=
  match entries with
  | [] => Ok tt
  | (decision, receipt) :: rest =>
      reject_if ((mkDigest decision != ur_decision receipt) || (ur_lifecycle_origin receipt != origin))
        UseReceiptMismatch ;?
      receipt_verify receipt ;?
      verify_entries origin rest
  end.

(** [CalculusDecisionLedgerV1::verify]. *)
Definition ledger_verify (self : CalculusDecisionLedgerV1) : res CalculusAdapterError unit :=
  verify_entries (dl_lifecycle_origin self) (dl_consumed self).

(** [CalculusDecisionLedgerV1::consume]: the ledger after the call, and the
    receipt; on an error the ledger is unchanged. *)
Definition consume {W R} `{Serialize W, Serialize R} (self : CalculusDecisionLedgerV1)
    (decision : CalculusDecisionV1 W R) (consumer : Digest)
    : res CalculusAdapterError (CalculusDecisionLedgerV1 * CalculusUseReceiptV1) :=
  ledger_verify self ;?
  decision_verify decision ;?
  reject_if (cc_lifecycle_origin (cd_context decision) != dl_lifecycle_origin self) ForeignLifecycleOrigin ;?
  reject_if (bool_decide (is_Some (btree_get (digest_str (cd_decision_digest decision)) (dl_consumed self))))
    DecisionAlreadyConsumed ;?
  let? digest := use_digest (cd_decision_digest decision) consumer (dl_lifecycle_origin self) in
  let receipt := mkReceipt (cd_decision_digest decision) consumer (dl_lifecycle_origin self) digest in
  Ok (mkLedger (dl_lifecycle_origin self)
        (btree_insert (digest_str (cd_decision_digest decision)) receipt (dl_consumed self)), receipt).

(** [CalculusDecisionLedgerV1::receipt]. *)
Definition ledger_receipt (self : CalculusDecisionLedgerV1) (decision : Digest)
    : res CalculusAdapterError (option CalculusUseReceiptV1) :=
  ledger_verify self ;? Ok (btree_get (digest_str decision) (dl_consumed self)).

(** ** Lemmas *)

Lemma context_verify_ok c :
  context_verify c = Ok tt <->
  cc_schema c = CALCULUS_ADAPTER_SCHEMA_V1 /\ cc_calculus_revision c = ADMISSIBILITY_CALCULUS_REVISION_V1 /\
  cc_calculus_release c = ADMISSIBILITY_CALCULUS_RELEASE_V1 /\
  lo_authority_domain (cc_lifecycle_origin c) = cc_authority_domain c /\
  lo_epoch (cc_lifecycle_origin c) = cc_epoch c.
Proof. unfold context_verify. rewrite !guard_ok, !orb_false, !negb_bool_decide_false. tauto. Qed.

Lemma decision_verify_ok {W R} `{Serialize W, Serialize R} (d : CalculusDecisionV1 W R) :
  decision_verify d = Ok tt <->
  context_verify (cd_context d) = Ok tt /\
  decision_digest (cd_context d) (cd_outcome d) = Ok (cd_decision_digest d).
Proof.
  unfold decision_verify. rewrite then_ok, res_bind_ok. setoid_rewrite guard_ok.
  setoid_rewrite negb_bool_decide_false. split.
  - intros (? & x & Hx & -> & _). done.
  - intros (? & Hx). split; [done|]. by eexists.
Qed.

(** A receipt is well formed for its ledger. *)
Definition receipt_ok (origin : LifecycleOrigin) (r : CalculusUseReceiptV1) : Prop :=
  ur_lifecycle_origin r = origin /\ use_digest (ur_decision r) (ur_consumer r) origin = Ok (ur_use_digest r).

Lemma verify_entries_ok origin l :
  verify_entries origin l = Ok tt <->
  Forall (fun kr => kr.1 = digest_str (ur_decision kr.2) /\ receipt_ok origin kr.2) l.
Proof.
  induction l as [|[k r] l IH]; simpl; [split; [constructor | done]|].
  rewrite guard_ok, orb_false, !negb_bool_decide_false, then_ok, Forall_cons, IH. simpl.
  unfold receipt_verify, receipt_ok. rewrite res_bind_ok. setoid_rewrite guard_ok.
  setoid_rewrite negb_bool_decide_false. split.
  - intros ([Hk <-] & (x & Hx & -> & _) & Hl). split_all; try done. by rewrite <- Hk.
  - intros ((-> & <- & Hd) & Hl). split_all; [by destruct (ur_decision r) | done | by eexists | done].
Qed.

Lemma consume_ok {W R} `{Serialize W, Serialize R} l (d : CalculusDecisionV1 W R) consumer l' r :
  consume l d consumer = Ok (l', r) <->
  ledger_verify l = Ok tt /\ decision_verify d = Ok tt /\
  cc_lifecycle_origin (cd_context d) = dl_lifecycle_origin l /\
  btree_get (digest_str (cd_decision_digest d)) (dl_consumed l) = None /\
  ur_decision r = cd_decision_digest d /\ ur_consumer r = consumer /\
  receipt_ok (dl_lifecycle_origin l) r /\
  l' = mkLedger (dl_lifecycle_origin l)
         (btree_insert (digest_str (cd_decision_digest d)) r (dl_consumed l)).
Proof.
  unfold consume, receipt_ok.
  rewrite !then_ok, !reject_if_ok, negb_bool_decide_false, bool_decide_eq_false, <- eq_None_not_Some, res_bind_ok.
  split.
  - intros (? & ? & ? & ? & x & Hx & [= <- <-]). by split_all.
  - intros (? & ? & ? & ? & Hd & Hc & (Ho & Hx) & ->). split_all; try done.
    exists (ur_use_digest r). rewrite <- Hd, <- Hc. split; [done|]. rewrite <- Ho. by destruct r.
Qed.

(** ** Sequences of calls *)

Section Runs.
  Context {W R : Type} `{Serialize W, Serialize R}.

(** A sequence of [consume] calls, each by some consumer; a call that fails
    leaves the ledger as it is.  The receipts are those the calls returned. *)
Fixpoint consume_all (l : CalculusDecisionLedgerV1) (calls : list (CalculusDecisionV1 W R * Digest))
    : CalculusDecisionLedgerV1 * list CalculusUseReceiptV1 :=
  match calls with
  | [] => (l, [])
  | (decision, consumer) :: rest =>
      match consume l decision consumer with
      | Ok (l', receipt) => let (l'', receipts) := consume_all l' rest in (l'', receipt :: receipts)
      | _ => consume_all l rest
      end
  end.

(** The ledger holds exactly the receipts given out so far. *)
Definition ledger_holds (origin : LifecycleOrigin) (l : CalculusDecisionLedgerV1)
    (receipts : list CalculusUseReceiptV1) : Prop :=
  dl_lifecycle_origin l = origin /\ btree_sorted (dl_consumed l) /\ ledger_verify l = Ok tt /\
  NoDup (map ur_decision receipts) /\
  forall d r, btree_get (digest_str d) (dl_consumed l) = Some r <-> r ∈ receipts /\ ur_decision r = d.

Lemma ledger_holds_new origin : ledger_holds origin (CalculusDecisionLedgerV1_new origin) [].
Proof.
  unfold ledger_holds. split_all; [done | constructor | done | constructor |]. intros d r. simpl. split; [done|].
  by intros [Hr%elem_of_nil _].
Qed.

Lemma btree_insert_forall {V} (P : string * V -> Prop) k v m :
  P (k, v) -> Forall P m -> Forall P (btree_insert k v m).
Proof.
  intros Hk. induction 1 as [|[k' v'] m Hk' Hm IH]; simpl; [by constructor|].
  destruct (String.eqb k k'); [by constructor|]. destruct (str_ltb k k'); by repeat constructor.
Qed.

Lemma ledger_holds_step origin l rs (d : CalculusDecisionV1 W R) consumer l' r :
  ledger_holds origin l rs -> consume l d consumer = Ok (l', r) -> ledger_holds origin l' (rs ++ [r]).
Proof.
  intros (Ho & Hs & Hv & Hnd & Hget) Hc.
  apply consume_ok in Hc as (_ & _ & _ & Hnone & Hd & _ & Hr & ->). subst origin.
  unfold ledger_holds. split_all; simpl; [done | by apply btree_insert_sorted | | |].
  - unfold ledger_verify in *. simpl. apply verify_entries_ok. apply verify_entries_ok in Hv.
    apply btree_insert_forall; [|done]. simpl. by rewrite Hd.
  - rewrite map_app. apply NoDup_app. split_all; [done | | apply NoDup_singleton].
    intros x (r' & Hin & Hx)%elem_map_iff Hx'. apply list_elem_of_singleton in Hx' as ->.
    assert (btree_get (digest_str (ur_decision r)) (dl_consumed l) = Some r') as Hg by (by apply Hget).
    rewrite Hd in Hg. congruence.
  - intros d' r'. rewrite btree_get_insert by done. rewrite elem_of_app, list_elem_of_singleton.
    destruct (String.eqb_spec (digest_str d') (digest_str (cd_decision_digest d))) as [He|Hne].
    + apply digest_str_inj in He as ->. split; [intros [= <-]; auto|].
      intros [[Hin| ->] Hrd]; [|done]. exfalso.
      assert (btree_get (digest_str (cd_decision_digest d)) (dl_consumed l) = Some r') by (by apply Hget).
      congruence.
    + rewrite Hget. split; [intros [? ?]; auto|]. intros [[?| ->] Hrd]; [done|]. exfalso. apply Hne. congruence.
Qed.

Lemma consume_all_holds origin calls l rs :
  ledger_holds origin l rs ->
  ledger_holds origin (consume_all l calls).1 (rs ++ (consume_all l calls).2).
Proof.
  revert l rs. induction calls as [|[d c] calls IH]; intros l rs Hl; simpl; [by rewrite app_nil_r|].
  destruct (consume l d c) as [[l' r]|e|] eqn:Hc; [|by apply IH|by apply IH].
  specialize (IH l' (rs ++ [r]) (ledger_holds_step _ _ _ _ _ _ _ Hl Hc)).
  destruct (consume_all l' calls) as [l'' rs'']. simpl in *. by rewrite <- app_assoc in IH.
Qed.

End Runs.

Lemma canonical_digest_binds `{!JcsLaws, !HexLaws, !Sha256Laws} domain v w bv bw d :
  ijson v = true -> ijson w = true -> jcs_to_vec v = inr bv -> jcs_to_vec w = inr bw ->
  canonical_digest domain v = Ok d -> canonical_digest domain w = Ok d ->
  value_equiv v w \/ collision (nul_preimage domain bv) (nul_preimage domain bw).
Proof.
  intros Hv Hw Hbv Hbw. unfold canonical_digest.
  destruct (canonicalize_ijson v Hv) as (b & Hb & -> & _).
  destruct (canonicalize_ijson w Hw) as (b' & Hb' & -> & _).
  assert (b = bv) as -> by congruence. assert (b' = bw) as -> by congruence. simpl.
  intros Hd Hd'. assert (hash_bytes (nul_preimage domain bv) = hash_bytes (nul_preimage domain bw)) as He by congruence.
  apply hash_bytes_binds in He as [He|Hc]; [left | by right].
  apply app_inv_head in He. injection He as ->. by apply (canon_injective_encoding _ _ _ Hv Hw Hb Hb').
Qed.

End Adapter.

(** ** Properties *)

(** Each decision is projected at most once: over any sequence of [consume]
    calls on a fresh ledger, whatever the consumers and however many calls
    fail, no two receipts name the same decision, the ledger keeps exactly the
    receipts that were given out, it passes its own verification, and a further
    call on any consumed decision that still verifies is refused with
    [DecisionAlreadyConsumed]. *)
Theorem ledger_consumes_once `{Deps, Serialize W, Serialize R} origin
    (calls : list (CalculusDecisionV1 W R * Digest)) :
  let l := (consume_all (CalculusDecisionLedgerV1_new origin) calls).1 in
  let receipts := (consume_all (CalculusDecisionLedgerV1_new origin) calls).2 in
  NoDup (map ur_decision receipts) /\ ledger_verify l = Ok tt /\
  (forall d r, ledger_receipt l d = Ok (Some r) <-> r ∈ receipts /\ ur_decision r = d) /\
  (forall (d : CalculusDecisionV1 W R) consumer,
     cd_decision_digest d ∈ map ur_decision receipts -> decision_verify d = Ok tt ->
     cc_lifecycle_origin (cd_context d) = origin -> consume l d consumer = Err DecisionAlreadyConsumed).
Proof.
  pose proof (consume_all_holds origin calls _ [] (ledger_holds_new origin)) as Hh. simpl in Hh.
  destruct (consume_all (CalculusDecisionLedgerV1_new origin) calls) as [l rs]. simpl in *.
  destruct Hh as (Ho & _ & Hv & Hnd & Hget). split_all; [done | done | |].
  - intros d r. rewrite <- Hget. unfold ledger_receipt. rewrite Hv. simpl. split; congruence.
  - intros d consumer (r & Hin & Hr)%elem_map_iff Hd Horigin. unfold consume. rewrite Hv, Hd. cbn [res_bind].
    rewrite Horigin, Ho, (bool_decide_eq_true_2 (origin = origin)) by done. cbn [negb reject_if res_bind].
    rewrite bool_decide_eq_true_2; [done|]. exists r. by apply Hget.
Qed.

(** A verified decision cannot be substituted: two decisions that both pass
    [verify] under one decision digest have the same context and the same
    native outcome, or their preimages are a SHA-256 collision. *)
Theorem verified_decision_is_unique `{JcsLaws, !HexLaws, !Sha256Laws, SerializeInj W, SerializeInj R}
    (d d' : CalculusDecisionV1 W R) b b' :
  decision_verify d = Ok tt -> decision_verify d' = Ok tt -> cd_decision_digest d = cd_decision_digest d' ->
  ijson (decision_value (cd_context d) (cd_outcome d)) = true ->
  ijson (decision_value (cd_context d') (cd_outcome d')) = true ->
  jcs_to_vec (decision_value (cd_context d) (cd_outcome d)) = inr b ->
  jcs_to_vec (decision_value (cd_context d') (cd_outcome d')) = inr b' ->
  d = d' \/ collision (nul_preimage "ag-ng:calculus-decision:v1" b) (nul_preimage "ag-ng:calculus-decision:v1" b').
Proof.
  intros [_ Hd]%decision_verify_ok [_ Hd']%decision_verify_ok He Hi Hi' Hb Hb'. rewrite <- He in Hd'.
  destruct (canonical_digest_binds _ _ _ _ _ _ Hi Hi' Hb Hb' Hd Hd') as [Hv|Hc]; [left | by right].
  apply array_equiv in Hv. inversion Hv as [|? ? ? ? Hctx Hv1]; subst. inversion Hv1 as [|? ? ? ? Hout _]; subst.
  apply to_value_inj in Hctx, Hout. destruct d, d'. simpl in *. congruence.
Qed.

Definition toy_context : CalculusAdapterContextV1 :=
  CalculusAdapterContextV1_new toy_domain (mkEpochId 7) toy_origin (hash_bytes []) (hash_bytes [Byte.x01]).
Definition toy_decision : CalculusDecisionV1 string string :=
  match CalculusDecisionV1_new toy_context (Evaluated (Admit "w")) with
  | Ok d => d
  | _ => mkDecision toy_context (Evaluated (Admit "w")) (hash_bytes [])
  end.

Lemma verified_decision_is_unique_witness :
  toy_decision = toy_decision \/
  collision (nul_preimage "ag-ng:calculus-decision:v1" (enc (canon (decision_value (cd_context toy_decision) (cd_outcome toy_decision)))))
            (nul_preimage "ag-ng:calculus-decision:v1" (enc (canon (decision_value (cd_context toy_decision) (cd_outcome toy_decision))))).
Proof.
  apply (verified_decision_is_unique toy_decision toy_decision);
    vm_compute; reflexivity.
Defined.
