(* ===== verification/Session.v ===== *)
(** * Contained batch sessions (ag-session/src/lib.rs)

    The immutable session specification and its validation, the durable worker
    record with its lifecycle, and the coarse batch state machine.  The
    theorems show what a validated specification guarantees about descriptors
    and lineage, that a tombstone fences a worker for good, that candidate
    custody and the broker's outcome never change once recorded, and that
    every batch run ends after at most two transitions. *)

From S2P Require Import Prelude Wire Fixture Digest Names Origin Capability Identity.

Definition SESSION_SCHEMA_V1 : string := "ag.session/v1".
Definition WORKER_SESSION_RECORD_SCHEMA_V1 : string := "ag.worker-session-record/v1".

(** ** Data *)

Inductive SecurityProfileV1 : Type := Development | Production | HighAssurance.

Record IsolationEvidenceV1 : Type := mkIsolation {
  ise_user_namespace : Digest;
  ise_mount_namespace : Digest;
  ise_pid_namespace : Digest;
  ise_cgroup : Digest;
  ise_seccomp_profile : Digest;
  ise_landlock_ruleset : Digest;
  ise_network_namespace : Digest;
  ise_observed_uid : Z;
  ise_observed_gid : Z;
  ise_observed_pid : Z;
  ise_observed_executable : ExecutableIdentityV1
}.

Record WorkerBindingV1 : Type := mkBinding {
  wb_principal : WorkerSessionPrincipalV1;
  wb_principal_chain : PrincipalChainV1;
  wb_isolation : IsolationEvidenceV1
}.

Inductive DescriptorPurposeV1 : Type :=
  | SourceSnapshot | ArtifactSink | CandidateIngressCredential | CandidateChallenge
  | CandidateSink | ProviderRequest | ProviderResponse | StatusSink.

Inductive DescriptorAccessV1 : Type := ReadOnly | WriteOnly.

Record AdmittedDescriptorV1 : Type := mkDescriptor {
  ad_descriptor : Z;
  ad_purpose : DescriptorPurposeV1;
  ad_access : DescriptorAccessV1;
  ad_object_identity : Digest
}.

Record SourceSnapshotV1 : Type := mkSource {
  ss_content : Digest;
  ss_format : string;
  ss_source_object : option string
}.

Inductive WorkspaceModeV1 : Type := IndependentRepository | IndependentSnapshot.

Record ProducedArtifactV1 : Type := mkArtifact {
  pa_content : Digest;
  pa_byte_length : Z;
  pa_semantic_type : string
}.

Record WorkspaceDeltaV1 : Type := mkDelta {
  wd_base : Digest;
  wd_manifest : Digest;
  wd_content : Digest
}.

(** [sanitized_headers] is a [BTreeMap]: its entries in key order. *)
Record ProviderRequestCustodyV1 : Type := mkRequestCustody {
  rc_capability_id : InferenceCapabilityId;
  rc_exact_request : Digest;
  rc_sanitized_headers : list (string * string);
  rc_envelope : InferenceEnvelopeV1;
  rc_custody_record : Digest
}.

Record ProviderResponseCustodyV1 : Type := mkResponseCustody {
  rp_request_custody : Digest;
  rp_complete_event_stream : Digest;
  rp_custody_record : Digest;
  rp_protocol_terminal : bool
}.

Inductive ProviderCustodyV1 : Type :=
  | ExactReplayable (request : ProviderRequestCustodyV1) (response : ProviderResponseCustodyV1)
  | DigestOnlyWeak (request_digest response_digest : Digest).

(** [ProviderCustodyV1::is_replayable]. *)
Definition is_replayable (c : ProviderCustodyV1) : bool :=
  match c with ExactReplayable _ _ => true | DigestOnlyWeak _ _ => false end.

Record BatchSessionSpecV1 : Type := mkSpec {
  sp_schema : string;
  sp_session : SessionId;
  sp_domain : AuthorityDomainId;
  sp_session_epoch : EpochId;
  sp_security_profile : SecurityProfileV1;
  sp_reviewed_profile_id : string;
  sp_candidate_ingress_key_identity : Digest;
  sp_worker : WorkerBindingV1;
  sp_workspace_mode : WorkspaceModeV1;
  sp_proposal_workspace_identity : Digest;
  sp_source : SourceSnapshotV1;
  sp_admitted_descriptors : list AdmittedDescriptorV1;
  sp_provider_capability : option InferenceCapabilityV1;
  sp_deadline_unix_ms : Z;
  sp_output_budget_bytes : Z
}.

Record WorkerCandidateCustodyV1 : Type := mkCandidate {
  wc_content : Digest;
  wc_byte_length : Z;
  wc_semantic_type : string;
  wc_workspace_delta : option WorkspaceDeltaV1;
  wc_ingress_proof : Digest;
  wc_custody_record : Digest
}.

Inductive WorkerCandidateBrokerOutcomeV1 : Type :=
  | Canonicalized (canonical_proposal : Digest)
  | BrokerRefused (refusal : Digest)
  | BrokerIndeterminate (envelope : Digest).

Inductive WorkerCandidateCustodyStateV1 : Type :=
  | Awaiting
  | InCustody (candidate : WorkerCandidateCustodyV1)
  | BrokerCompleted (candidate : WorkerCandidateCustodyV1) (outcome : WorkerCandidateBrokerOutcomeV1).

Inductive WorkerCandidateRefusalCodeV1 : Type :=
  | MalformedFrame | AuthenticationFailed | PrincipalBindingMismatch | ReviewedProfileMismatch
  | RefusalExpired.

Inductive WorkerTerminationReasonV1 : Type :=
  | CandidateAccepted
  | CandidateRefused (code : WorkerCandidateRefusalCodeV1)
  | LaunchFailed (failure : Digest)
  | WorkerFailedReason (failure : Digest)
  | DeadlineExpired
  | OutputBudgetExceeded (observed_bytes : Z)
  | Cancelled (reason_digest : Digest)
  | RestartRecovery
  | ReasonBoundaryIndeterminate (envelope : Digest).

Record WorkerPrincipalTombstoneV1 : Type := mkTombstone {
  tb_principal_id : PrincipalId;
  tb_session_id : SessionId;
  tb_session_nonce : LifecycleNonce;
  tb_reason : WorkerTerminationReasonV1;
  tb_terminal_since_unix_ms : Z
}.

Inductive WorkerCleanupStateV1 : Type :=
  | CleanupPending
  | CleanupComplete (receipt : Digest) (completed_at_unix_ms : Z).

Inductive WorkerAuthorityStateV1 : Type :=
  | Prepared
  | Active (launch_receipt : Digest)
  | Tombstoned (launch_receipt : option Digest) (tombstone : WorkerPrincipalTombstoneV1)
      (cleanup : WorkerCleanupStateV1).

Inductive WorkerSessionEventV1 : Type :=
  | Activate (launch_receipt : Digest)
  | Tombstone (tombstone : WorkerPrincipalTombstoneV1)
  | AcceptCandidate (candidate : WorkerCandidateCustodyV1) (tombstone : WorkerPrincipalTombstoneV1)
  | CompleteCleanup (receipt : Digest) (completed_at_unix_ms : Z)
  | RecordBrokerOutcome (outcome : WorkerCandidateBrokerOutcomeV1).

Record WorkerIngressContextV1 : Type := mkIngressContext {
  ic_domain : AuthorityDomainId;
  ic_active_epoch : EpochId;
  ic_principal_id : PrincipalId;
  ic_session : SessionId;
  ic_proposal_workspace_identity : Digest;
  ic_security_profile_identity : Digest;
  ic_executable : ExecutableIdentityV1;
  ic_observed_uid : Z;
  ic_observed_gid : Z;
  ic_now_unix_ms : Z
}.

Record WorkerSessionRecordV1 : Type := mkRecord {
  wr_schema : string;
  wr_spec : BatchSessionSpecV1;
  wr_authority : WorkerAuthorityStateV1;
  wr_candidate : WorkerCandidateCustodyStateV1
}.

Inductive SessionStateV1 : Type :=
  | Created
  | Running (launch_receipt : Digest)
  | Completed (result : Digest)
  | Failed (failure : Digest)
  | Terminated (receipt : Digest)
  | SessionIndeterminate (envelope : Digest).

Inductive SessionEventV1 : Type :=
  | Launched (launch_receipt : Digest)
  | WorkerCompleted (result : Digest)
  | WorkerFailed (failure : Digest)
  | Terminate (receipt : Digest)
  | BoundaryIndeterminate (envelope : Digest).

(** [enum SessionError].  [InvalidTransition] carries the state and the event
    whose debug text the code stores; the two binding errors carry the
    canonicalization error itself. *)
Inductive SessionError : Type :=
  | UnknownSchema (schema : string)
  | InvalidReviewedProfileId
  | UnknownWorkerRecordSchema (schema : string)
  | InvalidDescriptorManifest
  | CapabilityContextMismatch
  | ProviderCapabilityDefinition (e : CapabilityDefinitionError)
  | ProviderRouteMismatch
  | PrincipalAuthorityDomainMismatch
  | PrincipalEpochMismatch
  | PrincipalSessionMismatch
  | PrincipalWorkspaceMismatch
  | PrincipalSecurityProfileMismatch
  | PrincipalCandidateIngressKeyIdentityMismatch
  | PrincipalExecutableMismatch
  | PrincipalUidMismatch
  | PrincipalGidMismatch
  | PrincipalPidMismatch
  | PrincipalExpiryMismatch
  | PrincipalOutputBudgetMismatch
  | PrincipalChainMismatch
  | CustodyBinding (e : JcsError)
  | CustodyMismatch
  | ProductionIsolationIncomplete
  | InvalidCandidateSemanticType
  | CandidateCustodyBinding (e : JcsError)
  | CandidateCustodyMismatch
  | CandidateBudgetExceeded
  | CandidateRequiresTombstone
  | CandidateBrokerOutcomeConflict
  | TombstoneBindingMismatch
  | PrincipalNotActive
  | PrincipalTombstoned
  | PrincipalExpired
  | IngressAuthorityDomainMismatch
  | IngressEpochMismatch
  | IngressPrincipalMismatch
  | IngressSessionMismatch
  | IngressWorkspaceMismatch
  | IngressSecurityProfileMismatch
  | IngressExecutableMismatch
  | IngressUidMismatch
  | IngressGidMismatch
  | InvalidWorkerTransition
  | InvalidTransition (state : SessionStateV1) (event : SessionEventV1).

#[global] Instance ExecutableIdentityV1_eq_dec : EqDecision ExecutableIdentityV1.
Proof. solve_decision. Defined.
#[global] Instance DescriptorPurposeV1_eq_dec : EqDecision DescriptorPurposeV1.
Proof. solve_decision. Defined.
#[global] Instance DescriptorAccessV1_eq_dec : EqDecision DescriptorAccessV1.
Proof. solve_decision. Defined.
#[global] Instance WorkerCandidateRefusalCodeV1_eq_dec : EqDecision WorkerCandidateRefusalCodeV1.
Proof. solve_decision. Defined.
#[global] Instance WorkerTerminationReasonV1_eq_dec : EqDecision WorkerTerminationReasonV1.
Proof. solve_decision. Defined.
#[global] Instance WorkerCandidateBrokerOutcomeV1_eq_dec : EqDecision WorkerCandidateBrokerOutcomeV1.
Proof. solve_decision. Defined.

(** [a || b] where [b] may panic. *)
Definition or_else {E} (a : bool) (b : res E bool) : res E bool := if a then Ok true else b.

Section Session.
  Context `{Deps}.

(** [SecurityProfileV1::identity]. *)
Definition profile_identity (p : SecurityProfileV1) : Digest :=
  hash_domain "ag-ng/worker-security-profile/v1"
    (str_bytes match p with
               | Development => "development"
               | Production => "production"
               | HighAssurance => "high_assurance"
               end).

(** ** Provider custody *)

#[global] Instance InferenceCapabilityId_serialize : Serialize InferenceCapabilityId := fun i =>
  to_value (capability_digest i).
#[global] Instance headers_serialize : Serialize (list (string * string)) := fun m =>
  VObject (map (fun '(k, v) => (k, VString v)) m).

(** [struct CustodyBinding] of [ProviderRequestCustodyV1::verify]. *)
Definition request_binding (r : ProviderRequestCustodyV1) : Value :=
  VObject [("capability_id", to_value (rc_capability_id r)); ("exact_request", to_value (rc_exact_request r));
           ("sanitized_headers", to_value (rc_sanitized_headers r)); ("envelope", to_value (rc_envelope r))].

(** [ProviderRequestCustodyV1::verify]. *)
Definition request_custody_verify (r : ProviderRequestCustodyV1) : res SessionError unit :=
  let? observed := map_err CustodyBinding
    (let? d := canonicalize (request_binding r) in Ok (jcs_digest d)) in
  reject_if (observed != rc_custody_record r) CustodyMismatch ;?
  Ok tt.

(** ** The specification *)

(** [valid_reviewed_profile_id]. *)
Definition valid_reviewed_profile_id (value : string) : bool :=
  (value != EmptyString) && (String.length value <=? 128)
  && str_all (fun c => is_ascii_alphanumeric c || one_of "._-" c) value.

(** The [match] on the purpose in [BatchSessionSpecV1::validate]. *)
Definition expected_access (p : DescriptorPurposeV1) : DescriptorAccessV1 :=
  match p with
  | SourceSnapshot | CandidateIngressCredential | CandidateChallenge | ProviderResponse => ReadOnly
  | ArtifactSink | CandidateSink | ProviderRequest | StatusSink => WriteOnly
  end.

(** [is_dedicated_stdout_candidate_sink]. *)
Definition dedicated_stdout_sink (d : AdmittedDescriptorV1) : bool :=
  (ad_descriptor d =? 1)%Z && (ad_purpose d == CandidateSink) && (ad_access d == WriteOnly).

(** The descriptor loop of [BatchSessionSpecV1::validate]: the sets of numbers
    and purposes inserted so far, and the set of purposes at the end. *)
Fixpoint descriptor_loop (numbers : list Z) (purposes : list DescriptorPurposeV1)
    (l : list AdmittedDescriptorV1) : res SessionError (list DescriptorPurposeV1) :=
  match l with
  | [] => Ok purposes
  | d :: rest =>
      reject_if (((ad_descriptor d <=? 2)%Z && negb (dedicated_stdout_sink d))
                 || bool_decide (ad_descriptor d ∈ numbers)
                 || bool_decide (ad_purpose d ∈ purposes)) InvalidDescriptorManifest ;?
      reject_if (ad_access d != expected_access (ad_purpose d)) InvalidDescriptorManifest ;?
      descriptor_loop (ad_descriptor d :: numbers) (ad_purpose d :: purposes) rest
  end.

(** [BatchSessionSpecV1::validate_principal_binding]. *)
Definition validate_principal_binding (s : BatchSessionSpecV1) : res SessionError unit :=
  let principal := wb_principal (sp_worker s) in
  let isolation := wb_isolation (sp_worker s) in
  reject_if (wp_authority_domain principal != sp_domain s) PrincipalAuthorityDomainMismatch ;?
  reject_if (wp_epoch principal != sp_session_epoch s) PrincipalEpochMismatch ;?
  reject_if (wp_session_id principal != sp_session s) PrincipalSessionMismatch ;?
  reject_if (wp_proposal_workspace_identity principal != sp_proposal_workspace_identity s)
    PrincipalWorkspaceMismatch ;?
  reject_if (wp_security_profile_identity principal != profile_identity (sp_security_profile s))
    PrincipalSecurityProfileMismatch ;?
  reject_if (wp_candidate_ingress_key_identity principal != sp_candidate_ingress_key_identity s)
    PrincipalCandidateIngressKeyIdentityMismatch ;?
  reject_if (wp_executable principal != ise_observed_executable isolation) PrincipalExecutableMismatch ;?
  reject_if (negb (hc_uid (wp_observed_credentials principal) =? ise_observed_uid isolation)%Z)
    PrincipalUidMismatch ;?
  reject_if (negb (hc_gid (wp_observed_credentials principal) =? ise_observed_gid isolation)%Z)
    PrincipalGidMismatch ;?
  reject_if (negb (hc_pid (wp_observed_credentials principal) =? ise_observed_pid isolation)%Z)
    PrincipalPidMismatch ;?
  reject_if (negb (wp_expires_at_unix_ms principal =? sp_deadline_unix_ms s)%Z) PrincipalExpiryMismatch ;?
  reject_if (negb (wp_output_budget_bytes principal =? sp_output_budget_bytes s)%Z
             || (sp_output_budget_bytes s =? 0)%Z) PrincipalOutputBudgetMismatch ;?
  let chain := wb_principal_chain (sp_worker s) in
  let nodes := pc_nodes chain in
  let? leaf := chain_leaf chain in
  let parent := nodes !! (length nodes - 2) in
  let? mismatch :=
    or_else ((pc_authority_domain chain != sp_domain s) || (pc_epoch chain != sp_session_epoch s)
             || (pn_kind leaf != KWorkerSession))
      (let? id := PrincipalV1_id (WorkerSession principal) in
       Ok ((pn_principal_id leaf != id) || (pn_parent leaf != Some (wp_launcher principal))
           || ((pn_principal_id <$> parent) != Some (wp_launcher principal)))) in
  reject_if mismatch PrincipalChainMismatch ;?
  Ok tt.

(** [BatchSessionSpecV1::validate_provider_route]. *)
Definition validate_provider_route (s : BatchSessionSpecV1) (purposes : list DescriptorPurposeV1)
    : res SessionError unit :=
  let principal := wb_principal (sp_worker s) in
  let has_provider_request := bool_decide (ProviderRequest ∈ purposes) in
  let has_provider_response := bool_decide (ProviderResponse ∈ purposes) in
  match wp_provider_route principal, sp_provider_capability s with
  | Offline, None =>
      if negb has_provider_request && negb has_provider_response then Ok tt
      else Err ProviderRouteMismatch
  | Constrained policy envelope budget, Some capability =>
      if has_provider_request && has_provider_response
      then
        map_err ProviderCapabilityDefinition (validate_definition capability) ;?
        let? mismatch :=
          or_else ((ic_session_id capability != sp_session s)
                   || (ic_authority_domain capability != sp_domain s)
                   || (ic_epoch capability != sp_session_epoch s)
                   || (ic_project capability != wp_project principal))
            (let? id := PrincipalV1_id (WorkerSession principal) in
             Ok ((ic_worker_principal capability != id)
                 || (ic_session_nonce capability != wp_session_nonce principal)
                 || (ic_provider_policy_digest capability != policy)
                 || (ic_envelope capability != envelope)
                 || (ic_budget capability != budget)
                 || (wp_expires_at_unix_ms principal <? ic_expires_at_unix_ms capability)%Z)) in
        reject_if mismatch CapabilityContextMismatch
      else Err ProviderRouteMismatch
  | _, _ => Err ProviderRouteMismatch
  end.

(** [BatchSessionSpecV1::validate]. *)
Definition spec_validate (s : BatchSessionSpecV1) : res SessionError unit :=
  reject_if (sp_schema s != SESSION_SCHEMA_V1) (UnknownSchema (sp_schema s)) ;?
  reject_if (negb (valid_reviewed_profile_id (sp_reviewed_profile_id s))) InvalidReviewedProfileId ;?
  let? purposes := descriptor_loop [] [] (sp_admitted_descriptors s) in
  validate_principal_binding s ;?
  validate_provider_route s purposes ;?
  let isolation := wb_isolation (sp_worker s) in
  reject_if (match sp_security_profile s with Production | HighAssurance => true | Development => false end
             && ((ise_observed_uid isolation =? 0)%Z || (ise_observed_gid isolation =? 0)%Z
                 || (sp_deadline_unix_ms s =? 0)%Z)) ProductionIsolationIncomplete ;?
  Ok tt.

(** ** Candidate custody *)

(** [validate_candidate_semantic_type]. *)
Definition validate_candidate_semantic_type (value : string) : res SessionError unit :=
  reject_if ((value == EmptyString) || (128 <? String.length value)
             || negb (str_all (fun c => is_ascii_lowercase c || is_ascii_digit c || one_of ".-_/" c) value))
    InvalidCandidateSemanticType.

#[global] Instance WorkspaceDeltaV1_serialize : Serialize WorkspaceDeltaV1 := fun d =>
  VObject [("base", to_value (wd_base d)); ("manifest", to_value (wd_manifest d));
           ("content", to_value (wd_content d))].

(** [struct CandidateBinding] of [candidate_custody_digest]. *)
Record CandidateBinding : Type := mkCandidateBinding {
  cb_content : Digest;
  cb_byte_length : Z;
  cb_semantic_type : string;
  cb_workspace_delta : option WorkspaceDeltaV1;
  cb_ingress_proof : Digest
}.
#[global] Instance CandidateBinding_serialize : Serialize CandidateBinding := fun b =>
  VObject [("content", to_value (cb_content b)); ("byte_length", to_value (cb_byte_length b));
           ("semantic_type", to_value (cb_semantic_type b));
           ("workspace_delta", to_value (cb_workspace_delta b));
           ("ingress_proof", to_value (cb_ingress_proof b))].

(** [candidate_custody_digest]. *)
Definition candidate_custody_digest (b : CandidateBinding) : res SessionError Digest :=
  map_err CandidateCustodyBinding (from_serializable b).

Definition candidate_binding (c : WorkerCandidateCustodyV1) : CandidateBinding :=
  mkCandidateBinding (wc_content c) (wc_byte_length c) (wc_semantic_type c) (wc_workspace_delta c)
    (wc_ingress_proof c).

(** [WorkerCandidateCustodyV1::new]. *)
Definition WorkerCandidateCustodyV1_new (content : Digest) (byte_length : Z) (semantic_type : string)
    (workspace_delta : option WorkspaceDeltaV1) (ingress_proof : Digest)
    : res SessionError WorkerCandidateCustodyV1 :=
  validate_candidate_semantic_type semantic_type ;?
  let? custody_record := candidate_custody_digest
    (mkCandidateBinding content byte_length semantic_type workspace_delta ingress_proof) in
  Ok (mkCandidate content byte_length semantic_type workspace_delta ingress_proof custody_record).

(** [WorkerCandidateCustodyV1::verify]. *)
Definition candidate_verify (c : WorkerCandidateCustodyV1) : res SessionError unit :=
  validate_candidate_semantic_type (wc_semantic_type c) ;?
  let? observed := candidate_custody_digest (candidate_binding c) in
  reject_if (observed != wc_custody_record c) CandidateCustodyMismatch ;?
  Ok tt.

(** ** The worker record *)

(** [WorkerSessionRecordV1::validate_tombstone]. *)
Definition validate_tombstone (r : WorkerSessionRecordV1) (t : WorkerPrincipalTombstoneV1)
    : res SessionError unit :=
  let principal := wb_principal (sp_worker (wr_spec r)) in
  let? id := PrincipalV1_id (WorkerSession principal) in
  reject_if ((tb_principal_id t != id) || (tb_session_id t != sp_session (wr_spec r))
             || (tb_session_nonce t != wp_session_nonce principal)) TombstoneBindingMismatch ;?
  Ok tt.

(** The candidate a custody state holds. *)
Definition custody_of (s : WorkerCandidateCustodyStateV1) : option WorkerCandidateCustodyV1 :=
  match s with
  | Awaiting => None
  | InCustody candidate | BrokerCompleted candidate _ => Some candidate
  end.

(** [WorkerSessionRecordV1::validate]. *)
Definition record_validate (r : WorkerSessionRecordV1) : res SessionError unit :=
  reject_if (wr_schema r != WORKER_SESSION_RECORD_SCHEMA_V1) (UnknownWorkerRecordSchema (wr_schema r)) ;?
  spec_validate (wr_spec r) ;?
  match wr_authority r with
  | Tombstoned _ tombstone _ => validate_tombstone r tombstone
  | _ => Ok tt
  end ;?
  match custody_of (wr_candidate r) with
  | None => Ok tt
  | Some candidate =>
      candidate_verify candidate ;?
      reject_if (sp_output_budget_bytes (wr_spec r) <? wc_byte_length candidate)%Z CandidateBudgetExceeded ;?
      match wr_authority r with
      | Tombstoned (Some _) tombstone _ =>
          reject_if (tb_reason tombstone != CandidateAccepted) CandidateRequiresTombstone
      | _ => Err CandidateRequiresTombstone
      end
  end.

(** [WorkerSessionRecordV1::new]. *)
Definition WorkerSessionRecordV1_new (spec : BatchSessionSpecV1) : res SessionError WorkerSessionRecordV1 :=
  let record := mkRecord WORKER_SESSION_RECORD_SCHEMA_V1 spec Prepared Awaiting in
  record_validate record ;? Ok record.

(** [WorkerSessionRecordV1::validate_active_ingress]. *)
Definition validate_active_ingress (r : WorkerSessionRecordV1) (context : WorkerIngressContextV1)
    : res SessionError unit :=
  record_validate r ;?
  match wr_authority r with
  | Prepared => Err PrincipalNotActive
  | Tombstoned _ _ _ => Err PrincipalTombstoned
  | Active _ => Ok tt
  end ;?
  let principal := wb_principal (sp_worker (wr_spec r)) in
  reject_if (ic_domain context != sp_domain (wr_spec r)) IngressAuthorityDomainMismatch ;?
  reject_if (ic_active_epoch context != sp_session_epoch (wr_spec r)) IngressEpochMismatch ;?
  let? id := PrincipalV1_id (WorkerSession principal) in
  reject_if (ic_principal_id context != id) IngressPrincipalMismatch ;?
  reject_if (ic_session context != sp_session (wr_spec r)) IngressSessionMismatch ;?
  reject_if (ic_proposal_workspace_identity context != wp_proposal_workspace_identity principal)
    IngressWorkspaceMismatch ;?
  reject_if (ic_security_profile_identity context != wp_security_profile_identity principal)
    IngressSecurityProfileMismatch ;?
  reject_if (ic_executable context != wp_executable principal) IngressExecutableMismatch ;?
  reject_if (negb (ic_observed_uid context =? hc_uid (wp_observed_credentials principal))%Z) IngressUidMismatch ;?
  reject_if (negb (ic_observed_gid context =? hc_gid (wp_observed_credentials principal))%Z) IngressGidMismatch ;?
  reject_if (wp_expires_at_unix_ms principal <=? ic_now_unix_ms context)%Z PrincipalExpired ;?
  Ok tt.

Definition with_authority (r : WorkerSessionRecordV1) (a : WorkerAuthorityStateV1) : WorkerSessionRecordV1 :=
  mkRecord (wr_schema r) (wr_spec r) a (wr_candidate r).
Definition with_candidate (r : WorkerSessionRecordV1) (c : WorkerCandidateCustodyStateV1) : WorkerSessionRecordV1 :=
  mkRecord (wr_schema r) (wr_spec r) (wr_authority r) c.

(** The [match] of [WorkerSessionRecordV1::apply]. *)
Definition apply_event (r : WorkerSessionRecordV1) (event : WorkerSessionEventV1)
    : res SessionError WorkerSessionRecordV1 :=
  match event with
  | Activate launch_receipt =>
      match wr_authority r with
      | Prepared => Ok (with_authority r (Active launch_receipt))
      | _ => Err InvalidWorkerTransition
      end
  | Tombstone tombstone =>
      let? launch_receipt :=
        match wr_authority r with
        | Prepared => Ok None
        | Active launch_receipt => Ok (Some launch_receipt)
        | Tombstoned _ _ _ => Err InvalidWorkerTransition
        end in
      validate_tombstone r tombstone ;?
      Ok (with_authority r (Tombstoned launch_receipt tombstone CleanupPending))
  | AcceptCandidate candidate tombstone =>
      match wr_authority r with
      | Active launch_receipt =>
          match wr_candidate r with
          | Awaiting =>
              candidate_verify candidate ;?
              reject_if (sp_output_budget_bytes (wr_spec r) <? wc_byte_length candidate)%Z
                CandidateBudgetExceeded ;?
              validate_tombstone r tombstone ;?
              reject_if (tb_reason tombstone != CandidateAccepted) CandidateRequiresTombstone ;?
              Ok (with_candidate
                    (with_authority r (Tombstoned (Some launch_receipt) tombstone CleanupPending))
                    (InCustody candidate))
          | _ => Err InvalidWorkerTransition
          end
      | _ => Err InvalidWorkerTransition
      end
  | CompleteCleanup receipt completed_at_unix_ms =>
      match wr_authority r with
      | Tombstoned launch_receipt tombstone CleanupPending =>
          Ok (with_authority r
                (Tombstoned launch_receipt tombstone (CleanupComplete receipt completed_at_unix_ms)))
      | _ => Err InvalidWorkerTransition
      end
  | RecordBrokerOutcome outcome =>
      match wr_candidate r with
      | InCustody candidate => Ok (with_candidate r (BrokerCompleted candidate outcome))
      | BrokerCompleted _ existing =>
          if existing == outcome then Ok r else Err CandidateBrokerOutcomeConflict
      | Awaiting => Err InvalidWorkerTransition
      end
  end.

(** [WorkerSessionRecordV1::apply]. *)
Definition record_apply (r : WorkerSessionRecordV1) (event : WorkerSessionEventV1)
    : res SessionError WorkerSessionRecordV1 :=
  let? r' := apply_event r event in
  record_validate r' ;? Ok r'.

End Session.

(** ** The batch state machine *)

(** [SessionStateV1::apply]. *)
Definition session_apply (state : SessionStateV1) (event : SessionEventV1) : res SessionError SessionStateV1 :=
  match state, event with
  | Created, Launched launch_receipt => Ok (Running launch_receipt)
  | Running _, WorkerCompleted result => Ok (Completed result)
  | Running _, WorkerFailed failure => Ok (Failed failure)
  | Created, Terminate receipt => Ok (Terminated receipt)
  | Running _, Terminate receipt => Ok (Terminated receipt)
  | Running _, BoundaryIndeterminate envelope => Ok (SessionIndeterminate envelope)
  | _, _ => Err (InvalidTransition state event)
  end.

(** ** The descriptor manifest *)

(** A descriptor above the standard streams, or the candidate sink on standard
    output; its direction is the one its purpose demands. *)
Definition descriptor_ok (d : AdmittedDescriptorV1) : Prop :=
  ((2 < ad_descriptor d)%Z \/ (ad_descriptor d = 1%Z /\ ad_purpose d = CandidateSink)) /\
  ad_access d = expected_access (ad_purpose d).

Lemma descriptor_loop_spec numbers purposes l out :
  descriptor_loop numbers purposes l = Ok out <->
  out = rev (map ad_purpose l) ++ purposes /\ Forall descriptor_ok l /\
  NoDup (map ad_descriptor l) /\ Forall (fun d => ad_descriptor d ∉ numbers) l /\
  NoDup (map ad_purpose l) /\ Forall (fun d => ad_purpose d ∉ purposes) l.
Proof.
  revert numbers purposes. induction l as [|d l IH]; intros numbers purposes; cbn [descriptor_loop].
  { split; [intros [= <-]; split_all; constructor | by intros (-> & _)]. }
  rewrite !guard_ok, !orb_false, !bool_decide_eq_false, negb_bool_decide_false, IH.
  cbn [map rev]. rewrite !Forall_cons, !NoDup_cons, !elem_map_iff, <- app_assoc. cbn [app].
  assert (((ad_descriptor d <=? 2)%Z && negb (dedicated_stdout_sink d) = false /\
           ad_access d = expected_access (ad_purpose d)) <-> descriptor_ok d) as Hd.
  { unfold descriptor_ok, dedicated_stdout_sink. destruct (Z.leb_spec (ad_descriptor d) 2); simpl.
    - rewrite negb_false_iff, !andb_true_iff, Z.eqb_eq, !bool_decide_eq_true. split.
      + intros [[[? ?] ?] ?]. auto.
      + intros [[?|[? Hp]] Ha]; [lia|]. rewrite Hp in *. auto.
    - split; [intros [_ ?]; auto | intros [_ ?]; auto]. }
  rewrite !List.Forall_forall. setoid_rewrite not_elem_of_cons.
  setoid_rewrite <- list_elem_of_In. rewrite <- Hd. clear Hd IH. split.
  - intros ([[? ?] ?] & ? & -> & ? & ? & Hn & ? & Hp). split_all; try done.
    + intros (x & Hx & He). by destruct (Hn x Hx).
    + intros x Hx. by destruct (Hn x Hx).
    + intros (x & Hx & He). by destruct (Hp x Hx).
    + intros x Hx. by destruct (Hp x Hx).
  - intros (-> & ([? ?] & ?) & (Hn & ?) & (? & ?) & (Hp & ?) & ? & ?). split_all; try done; auto.
    + intros x Hx. split; [|auto]. intros He. apply Hn. eauto.
    + intros x Hx. split; [|auto]. intros He. apply Hp. eauto.
Qed.

(** ** What validation establishes *)

(** The last two nodes of the chain are the launcher and the worker itself. *)
Definition launched_by (s : BatchSessionSpecV1) (id : PrincipalId) : Prop :=
  let principal := wb_principal (sp_worker s) in
  exists ancestors parent leaf, pc_nodes (wb_principal_chain (sp_worker s)) = ancestors ++ [parent; leaf] /\
    pn_principal_id parent = wp_launcher principal /\ pn_principal_id leaf = id /\
    pn_kind leaf = KWorkerSession /\ pn_parent leaf = Some (wp_launcher principal).

(** The provider channel, the capability and the route agree. *)
Definition provider_route_ok (s : BatchSessionSpecV1) (id : PrincipalId) : Prop :=
  let principal := wb_principal (sp_worker s) in
  let purposes := map ad_purpose (sp_admitted_descriptors s) in
  match wp_provider_route principal, sp_provider_capability s with
  | Offline, None => (ProviderRequest ∉ purposes) /\ (ProviderResponse ∉ purposes)
  | Constrained policy envelope budget, Some c =>
      (ProviderRequest ∈ purposes) /\ (ProviderResponse ∈ purposes) /\ validate_definition c = Ok tt /\
      ic_session_id c = sp_session s /\ ic_authority_domain c = sp_domain s /\ ic_epoch c = sp_session_epoch s /\
      ic_project c = wp_project principal /\ ic_worker_principal c = id /\
      ic_session_nonce c = wp_session_nonce principal /\ ic_provider_policy_digest c = policy /\
      ic_envelope c = envelope /\ ic_budget c = budget /\
      (ic_expires_at_unix_ms c <= wp_expires_at_unix_ms principal)%Z
  | _, _ => False
  end.

(** The principal is the session's, as the launcher observed it. *)
Definition principal_bound `{Deps} (s : BatchSessionSpecV1) : Prop :=
  let principal := wb_principal (sp_worker s) in
  let isolation := wb_isolation (sp_worker s) in
  wp_authority_domain principal = sp_domain s /\ wp_epoch principal = sp_session_epoch s /\
  wp_session_id principal = sp_session s /\
  wp_proposal_workspace_identity principal = sp_proposal_workspace_identity s /\
  wp_security_profile_identity principal = profile_identity (sp_security_profile s) /\
  wp_candidate_ingress_key_identity principal = sp_candidate_ingress_key_identity s /\
  wp_executable principal = ise_observed_executable isolation /\
  hc_uid (wp_observed_credentials principal) = ise_observed_uid isolation /\
  hc_gid (wp_observed_credentials principal) = ise_observed_gid isolation /\
  hc_pid (wp_observed_credentials principal) = ise_observed_pid isolation /\
  wp_expires_at_unix_ms principal = sp_deadline_unix_ms s /\
  wp_output_budget_bytes principal = sp_output_budget_bytes s /\ sp_output_budget_bytes s <> 0%Z /\
  pc_authority_domain (wb_principal_chain (sp_worker s)) = sp_domain s /\ pc_epoch (wb_principal_chain (sp_worker s)) = sp_session_epoch s.

Section Validation.
  Context `{Deps}.

Lemma or_else_ok {E} a (b : res E bool) : or_else a b = Ok false <-> a = false /\ b = Ok false.
Proof. destruct a; simpl; intuition congruence. Qed.

Lemma chain_tail_split {A} (l : list A) x y :
  2 <= length l -> last l = Some y -> l !! (length l - 2) = Some x -> exists a, l = a ++ [x; y].
Proof.
  intros Hl Hy Hx. apply last_Some in Hy as [l' ->].
  rewrite length_app in *. simpl in *. destruct l' as [|z l' _] using rev_ind; [simpl in Hl; lia|].
  rewrite length_app in *. simpl in *.
  replace (length l' + 1 + 1 - 2) with (length l') in Hx by lia.
  rewrite <- app_assoc in Hx. cbn [app] in Hx. rewrite list_lookup_middle in Hx by done. injection Hx as ->.
  exists l'. by rewrite <- app_assoc.
Qed.

Lemma principal_binding_sound s :
  validate_principal_binding s = Ok tt -> chain_valid (wb_principal_chain (sp_worker s)) ->
  principal_bound s /\
  exists id, PrincipalV1_id (E := SessionError) (WorkerSession (wb_principal (sp_worker s))) = Ok id /\ launched_by s id.
Proof.
  intros Hv Hc. unfold validate_principal_binding in Hv.
  rewrite !guard_ok, !orb_false, !negb_bool_decide_false, !negb_false_iff, !Z.eqb_eq, Z.eqb_neq in Hv.
  destruct Hv as (? & ? & ? & ? & ? & ? & ? & ? & ? & ? & ? & [? ?] & Hv).
  apply res_bind_ok in Hv as (leaf & Hleaf & Hv). apply expect_is_ok in Hleaf.
  apply res_bind_ok in Hv as (b & Hb & Hv). rewrite guard_ok in Hv. destruct Hv as [-> _].
  apply or_else_ok in Hb as [Hb Hid]. rewrite !orb_false, !negb_bool_decide_false in Hb.
  apply res_bind_ok in Hid as (id & Hid & [= Hm]). rewrite !orb_false, !negb_bool_decide_false in Hm.
  destruct Hb as [[Hcd Hce] Hkind], Hm as [[Hlid Hpar] Hprev]. split; [unfold principal_bound; by split_all|]. exists id. split; [done|].
  unfold launched_by. set (nodes := pc_nodes (wb_principal_chain (sp_worker s))) in *.
  apply fmap_Some in Hprev as (parent & Hprev & Hpid).
  assert (2 <= length nodes) as Hlen.
  { destruct Hc as [_ Hroot]. fold nodes in Hroot. destruct nodes as [|r [|n l]]; [done | | simpl; lia].
    simpl in Hleaf. injection Hleaf as <-. destruct Hroot as (_ & Hnone & _). congruence. }
  destruct (chain_tail_split nodes parent leaf Hlen Hleaf Hprev) as [a Ha].
  exists a, parent, leaf. by split_all.
Qed.

Lemma provider_route_sound s out id :
  PrincipalV1_id (E := SessionError) (WorkerSession (wb_principal (sp_worker s))) = Ok id ->
  out = rev (map ad_purpose (sp_admitted_descriptors s)) ++ [] ->
  validate_provider_route s out = Ok tt -> provider_route_ok s id.
Proof.
  intros Hid -> Hv. unfold validate_provider_route in Hv. unfold provider_route_ok.
  assert (forall p, p ∈ rev (map ad_purpose (sp_admitted_descriptors s)) ++ [] <->
                    p ∈ map ad_purpose (sp_admitted_descriptors s)) as Hrev.
  { intros p. by rewrite app_nil_r, !list_elem_of_In, <- in_rev. }
  destruct (wp_provider_route _) as [|policy envelope budget], (sp_provider_capability s) as [c|]; try done.
  - rewrite <- !Hrev.
    destruct (bool_decide_reflect (ProviderRequest ∈ rev (map ad_purpose (sp_admitted_descriptors s)) ++ []));
    destruct (bool_decide_reflect (ProviderResponse ∈ rev (map ad_purpose (sp_admitted_descriptors s)) ++ [])); done.
  - rewrite <- !Hrev.
    destruct (bool_decide_reflect (ProviderRequest ∈ rev (map ad_purpose (sp_admitted_descriptors s)) ++ [])); [|done].
    destruct (bool_decide_reflect (ProviderResponse ∈ rev (map ad_purpose (sp_admitted_descriptors s)) ++ [])); [|done].
    cbn [andb] in Hv. apply then_ok in Hv as [Hd Hv]. rewrite map_err_ok in Hd.
    apply res_bind_ok in Hv as (b & Hb & Hv). apply reject_if_ok in Hv as ->.
    apply or_else_ok in Hb as [Hb Hm]. rewrite !orb_false, !negb_bool_decide_false in Hb.
    rewrite Hid in Hm. cbn [res_bind] in Hm. injection Hm as Hm.
    rewrite !orb_false, !negb_bool_decide_false, Z.ltb_ge in Hm.
    destruct Hb as [[[? ?] ?] ?], Hm as [[[[[? ?] ?] ?] ?] ?]. by split_all.
Qed.

Lemma spec_validate_sound s :
  spec_validate s = Ok tt -> chain_valid (wb_principal_chain (sp_worker s)) ->
  Forall descriptor_ok (sp_admitted_descriptors s) /\ NoDup (map ad_descriptor (sp_admitted_descriptors s)) /\
  NoDup (map ad_purpose (sp_admitted_descriptors s)) /\ principal_bound s /\
  (sp_security_profile s <> Development ->
   ise_observed_uid (wb_isolation (sp_worker s)) <> 0%Z /\ ise_observed_gid (wb_isolation (sp_worker s)) <> 0%Z /\
   sp_deadline_unix_ms s <> 0%Z) /\
  exists id, PrincipalV1_id (E := SessionError) (WorkerSession (wb_principal (sp_worker s))) = Ok id /\
    launched_by s id /\ provider_route_ok s id.
Proof.
  unfold spec_validate. rewrite !guard_ok. intros (_ & _ & Hv) Hc.
  apply res_bind_ok in Hv as (out & Hd & Hv). rewrite !then_ok in Hv.
  destruct Hv as (Hb & Hr & Hiso & _). apply reject_if_ok in Hiso.
  apply descriptor_loop_spec in Hd as (Hout & Hok & Hn & _ & Hp & _).
  destruct (principal_binding_sound s Hb Hc) as (Hbound & id & Hid & Hl).
  split_all; try done; [|exists id; split_all; [done|done|]; by eapply provider_route_sound].
  intros Hprof. destruct (sp_security_profile s); [done| |];
    rewrite andb_true_l, !orb_false, !Z.eqb_neq in Hiso; tauto.
Qed.

(** ** Lifecycle of the record *)

(** The record after a sequence of attempted events: an event that is refused
    leaves it as it was. *)
Definition record_try (r : WorkerSessionRecordV1) (e : WorkerSessionEventV1) : WorkerSessionRecordV1 :=
  match record_apply r e with Ok r' => r' | _ => r end.
Definition record_after (r : WorkerSessionRecordV1) (es : list WorkerSessionEventV1) : WorkerSessionRecordV1 :=
  fold_left record_try es r.

Lemma record_apply_ok r e r' :
  record_apply r e = Ok r' <-> apply_event r e = Ok r' /\ record_validate r' = Ok tt.
Proof.
  unfold record_apply. rewrite res_bind_ok. split.
  - intros (x & Hx & Hv). apply then_ok in Hv as [Hv [= <-]]. done.
  - intros [Hx Hv]. exists r'. split; [done|]. by apply then_ok.
Qed.

Lemma apply_event_spec_kept r e r' : apply_event r e = Ok r' -> wr_spec r' = wr_spec r /\ wr_schema r' = wr_schema r.
Proof.
  unfold apply_event. intros He. destruct e; repeat case_match; res_inv; try done; simplify_eq; done.
Qed.

(** Facts of a fenced record that no event changes. *)
Definition fenced (launch : option Digest) (t : WorkerPrincipalTombstoneV1) (spec : BatchSessionSpecV1)
    (custody : option WorkerCandidateCustodyV1) (r : WorkerSessionRecordV1) : Prop :=
  wr_spec r = spec /\ record_validate r = Ok tt /\ custody_of (wr_candidate r) = custody /\
  exists cleanup, wr_authority r = Tombstoned launch t cleanup.

Lemma fenced_step launch t spec custody r e :
  fenced launch t spec custody r -> fenced launch t spec custody (record_try r e).
Proof.
  intros (Hs & Hv & Hc & cleanup & Ha). unfold record_try.
  destruct (record_apply r e) as [r'| |] eqn:He; [|unfold fenced; eauto..].
  apply record_apply_ok in He as [He Hv']. pose proof (apply_event_spec_kept _ _ _ He) as [Hs' _].
  unfold fenced. rewrite Hs'. split_all; [done | done | |];
    unfold apply_event in He; rewrite Ha in He; destruct e; try done; repeat case_match; simplify_eq/=; eauto.
  by match goal with E : wr_candidate _ = _ |- _ => rewrite E end.
Qed.

Lemma fenced_after launch t spec custody r es :
  fenced launch t spec custody r -> fenced launch t spec custody (record_after r es).
Proof.
  unfold record_after. revert r. induction es as [|e es IH]; intros r Hr; simpl; [done|].
  apply IH. by apply fenced_step.
Qed.

Lemma fenced_refuses launch t spec custody r x :
  fenced launch t spec custody r -> validate_active_ingress r x = Err PrincipalTombstoned.
Proof.
  intros (_ & Hv & _ & cleanup & Ha). unfold validate_active_ingress. by rewrite Hv, Ha.
Qed.

Lemma completed_step r e cand o :
  wr_candidate r = BrokerCompleted cand o -> record_validate r = Ok tt ->
  wr_candidate (record_try r e) = BrokerCompleted cand o /\ record_validate (record_try r e) = Ok tt.
Proof.
  intros Hc Hv. unfold record_try. destruct (record_apply r e) as [r'| |] eqn:He; [|done..].
  apply record_apply_ok in He as [He Hv']. split; [|done].
  unfold apply_event in He. rewrite Hc in He. destruct e; repeat case_match; res_inv; simplify_eq/=; done.
Qed.

Lemma completed_after r es cand o :
  wr_candidate r = BrokerCompleted cand o -> record_validate r = Ok tt ->
  wr_candidate (record_after r es) = BrokerCompleted cand o.
Proof.
  unfold record_after. revert r. induction es as [|e es IH]; intros r Hc Hv; simpl; [done|].
  destruct (completed_step r e cand o Hc Hv). by apply IH.
Qed.

Lemma record_after_valid r es :
  record_validate r = Ok tt ->
  record_validate (record_after r es) = Ok tt /\ wr_spec (record_after r es) = wr_spec r.
Proof.
  unfold record_after. revert r. induction es as [|e es IH]; intros r Hv; simpl; [done|].
  assert (record_validate (record_try r e) = Ok tt /\ wr_spec (record_try r e) = wr_spec r) as [Hv' Hs].
  { unfold record_try. destruct (record_apply r e) as [r'| |] eqn:He; [|done..].
    apply record_apply_ok in He as [He Hv']. split; [done|]. by apply apply_event_spec_kept in He as [? _]. }
  rewrite <- Hs. by apply IH.
Qed.

Lemma record_validate_custody r c :
  record_validate r = Ok tt -> custody_of (wr_candidate r) = Some c ->
  candidate_verify c = Ok tt /\ (wc_byte_length c <= sp_output_budget_bytes (wr_spec r))%Z /\
  exists launch t cleanup, wr_authority r = Tombstoned (Some launch) t cleanup /\
    tb_reason t = CandidateAccepted /\ validate_tombstone r t = Ok tt.
Proof.
  unfold record_validate. rewrite guard_ok. rewrite !then_ok. intros (_ & _ & Ht & Hv) Hc. rewrite Hc in Hv.
  apply then_ok in Hv as [Hver Hv]. rewrite guard_ok, Z.ltb_ge in Hv. destruct Hv as [Hb Hv].
  split; [done|]. split; [done|]. destruct (wr_authority r) as [| |[launch|] t cleanup]; try done.
  apply reject_if_ok, negb_bool_decide_false in Hv. eauto 10.
Qed.

End Validation.

(** ** Properties *)

(** C37. A validated session specification is what it claims: on a valid
    principal chain, success of [validate] implies that every inherited
    descriptor lies above the standard streams (the candidate sink on standard
    output apart), descriptor numbers and purposes are unique and each
    direction fits its purpose; that the principal is the session's own, as
    observed by the launcher; that the chain ends in the launcher followed by
    this very worker (a chain of one node cannot pass); that provider route,
    capability and provider descriptors agree; and that no production worker
    runs as root or without a deadline. *)
Theorem validated_spec_guarantees `{Deps} s :
  spec_validate s = Ok tt -> chain_valid (wb_principal_chain (sp_worker s)) ->
  Forall descriptor_ok (sp_admitted_descriptors s) /\ NoDup (map ad_descriptor (sp_admitted_descriptors s)) /\
  NoDup (map ad_purpose (sp_admitted_descriptors s)) /\ principal_bound s /\
  (sp_security_profile s <> Development ->
   ise_observed_uid (wb_isolation (sp_worker s)) <> 0%Z /\ ise_observed_gid (wb_isolation (sp_worker s)) <> 0%Z /\
   sp_deadline_unix_ms s <> 0%Z) /\
  exists id, PrincipalV1_id (E := SessionError) (WorkerSession (wb_principal (sp_worker s))) = Ok id /\
    launched_by s id /\ provider_route_ok s id.
Proof. apply spec_validate_sound. Qed.

Definition toy_d (z : Z) : Digest := hash_bytes [byte_of z].
Definition toy_executable : ExecutableIdentityV1 := mkExecutable (toy_d 10) 4096 None.
Definition toy_worker_principal : WorkerSessionPrincipalV1 :=
  mkWorker toy_domain (mkEpochId 7) (mkText "project-1") (mkText "session-1") (toy_nonce 1)
    (toy_principal 1) toy_executable (mkLaunchProfile (toy_d 11) (toy_d 12)) (toy_d 13)
    (profile_identity Production) (toy_d 14) 5000 1024 Offline (toy_d 15) toy_credentials.
Definition toy_worker_id : PrincipalId :=
  match PrincipalV1_id (E := Empty_set) (WorkerSession toy_worker_principal) with Ok i => i | _ => toy_principal 0 end.
Definition toy_spec : BatchSessionSpecV1 :=
  mkSpec SESSION_SCHEMA_V1 (mkText "session-1") toy_domain (mkEpochId 7) Production "profile-1" (toy_d 14)
    (mkBinding toy_worker_principal
       (mkChain toy_domain (mkEpochId 7)
          [node_root (toy_principal 1) KDaemon; node_child toy_worker_id KWorkerSession (toy_principal 1)])
       (mkIsolation (toy_d 1) (toy_d 2) (toy_d 3) (toy_d 4) (toy_d 5) (toy_d 6) (toy_d 7) 1000 1000 4242 toy_executable))
    IndependentSnapshot (toy_d 13) (mkSource (toy_d 16) "git_bundle_v1" None)
    [mkDescriptor 1 CandidateSink WriteOnly (toy_d 17); mkDescriptor 3 SourceSnapshot ReadOnly (toy_d 18)]
    None 5000 1024.
Definition toy_tombstone (reason : WorkerTerminationReasonV1) : WorkerPrincipalTombstoneV1 :=
  mkTombstone toy_worker_id (mkText "session-1") (toy_nonce 1) reason 4000.

Lemma validated_spec_guarantees_witness : launched_by toy_spec toy_worker_id.
Proof.
  destruct (validated_spec_guarantees toy_spec) as (_ & _ & _ & _ & _ & id & Hid & Hl & _);
    [vm_compute; reflexivity | apply validate_chain_spec; vm_compute; reflexivity |].
  assert (Ok (E := SessionError) id = Ok toy_worker_id) as Heq by (rewrite <- Hid; vm_compute; reflexivity).
  injection Heq as ->. exact Hl.
Defined.

(** A tombstone is final: once a valid record is tombstoned, no sequence of
    further events, accepted or refused, removes or changes the tombstone, the
    retained launch receipt, the specification or the candidate in custody, and
    every ingress attempt from then on is refused with [PrincipalTombstoned];
    a recorded broker outcome never changes either. *)
Theorem tombstone_is_final `{Deps} r launch t cleanup es :
  record_validate r = Ok tt -> wr_authority r = Tombstoned launch t cleanup ->
  (exists cleanup', wr_authority (record_after r es) = Tombstoned launch t cleanup') /\
  wr_spec (record_after r es) = wr_spec r /\
  custody_of (wr_candidate (record_after r es)) = custody_of (wr_candidate r) /\
  (forall x, validate_active_ingress (record_after r es) x = Err PrincipalTombstoned) /\
  (forall cand o, wr_candidate r = BrokerCompleted cand o ->
                  wr_candidate (record_after r es) = BrokerCompleted cand o).
Proof.
  intros Hv Ha.
  assert (fenced launch t (wr_spec r) (custody_of (wr_candidate r)) (record_after r es)) as Hf.
  { apply fenced_after. unfold fenced. eauto. }
  pose proof Hf as (Hs & _ & Hc & cleanup' & Ha'). split_all; [eauto | done | done | |].
  - intros x. by eapply fenced_refuses.
  - intros cand o Hco. by apply completed_after.
Qed.

Definition toy_tombstoned : WorkerSessionRecordV1 :=
  mkRecord WORKER_SESSION_RECORD_SCHEMA_V1 toy_spec
    (Tombstoned (Some (toy_d 20)) (toy_tombstone DeadlineExpired) CleanupPending) Awaiting.
Definition toy_ingress (now : Z) : WorkerIngressContextV1 :=
  mkIngressContext toy_domain (mkEpochId 7) toy_worker_id (mkText "session-1") (toy_d 13)
    (profile_identity Production) toy_executable 1000 1000 now.

Lemma tombstone_is_final_witness :
  validate_active_ingress
    (record_after toy_tombstoned [Activate (toy_d 21); CompleteCleanup (toy_d 22) 4500; Activate (toy_d 23)])
    (toy_ingress 4600) = Err PrincipalTombstoned.
Proof.
  apply (tombstone_is_final toy_tombstoned (Some (toy_d 20)) (toy_tombstone DeadlineExpired) CleanupPending);
    [vm_compute; reflexivity | reflexivity].
Defined.

(** Custody only behind a tombstone: starting from a fresh record, after any
    sequence of attempted events the record still validates and keeps its
    specification, and a candidate in custody is digest-bound, within the
    output budget, and its producer was launched and is fenced by a
    candidate-accepted tombstone for this very principal. *)
Theorem custody_requires_tombstone `{Deps} spec r es c :
  WorkerSessionRecordV1_new spec = Ok r -> custody_of (wr_candidate (record_after r es)) = Some c ->
  record_validate (record_after r es) = Ok tt /\ wr_spec (record_after r es) = spec /\
  candidate_verify c = Ok tt /\ (wc_byte_length c <= sp_output_budget_bytes spec)%Z /\
  exists launch t cleanup, wr_authority (record_after r es) = Tombstoned (Some launch) t cleanup /\
    tb_reason t = CandidateAccepted /\ validate_tombstone (record_after r es) t = Ok tt.
Proof.
  unfold WorkerSessionRecordV1_new. rewrite then_ok. intros [Hv [= <-]] Hc.
  destruct (record_after_valid _ es Hv) as [Hv' Hs]. simpl in Hs.
  destruct (record_validate_custody _ c Hv' Hc) as (Hver & Hb & Ht). rewrite Hs in Hb. by split_all.
Qed.

Definition toy_candidate : WorkerCandidateCustodyV1 :=
  match WorkerCandidateCustodyV1_new (toy_d 30) 100 "proposal/v1" None (toy_d 31) with
  | Ok c => c
  | _ => mkCandidate (toy_d 30) 100 "proposal/v1" None (toy_d 31) (toy_d 0)
  end.

Lemma custody_requires_tombstone_witness :
  (wc_byte_length toy_candidate <= sp_output_budget_bytes toy_spec)%Z.
Proof.
  apply (custody_requires_tombstone toy_spec (mkRecord WORKER_SESSION_RECORD_SCHEMA_V1 toy_spec Prepared Awaiting)
    [Activate (toy_d 20); AcceptCandidate toy_candidate (toy_tombstone CandidateAccepted)]);
    vm_compute; reflexivity.
Defined.

(** Live ingress is admitted exactly for the active worker itself: the record
    validates and is active, and the connection's domain, epoch, principal,
    session, workspace, security profile, executable and host credentials are
    those of the session's principal, before its exclusive expiry. *)
Theorem active_ingress_iff `{Deps} r x id :
  PrincipalV1_id (E := SessionError) (WorkerSession (wb_principal (sp_worker (wr_spec r)))) = Ok id ->
  validate_active_ingress r x = Ok tt <->
  record_validate r = Ok tt /\ (exists launch, wr_authority r = Active launch) /\
  let principal := wb_principal (sp_worker (wr_spec r)) in
  ic_domain x = sp_domain (wr_spec r) /\ ic_active_epoch x = sp_session_epoch (wr_spec r) /\
  ic_principal_id x = id /\ ic_session x = sp_session (wr_spec r) /\
  ic_proposal_workspace_identity x = wp_proposal_workspace_identity principal /\
  ic_security_profile_identity x = wp_security_profile_identity principal /\
  ic_executable x = wp_executable principal /\
  ic_observed_uid x = hc_uid (wp_observed_credentials principal) /\
  ic_observed_gid x = hc_gid (wp_observed_credentials principal) /\
  (ic_now_unix_ms x < wp_expires_at_unix_ms principal)%Z.
Proof.
  intros Hid. unfold validate_active_ingress. rewrite Hid. cbv zeta.
  rewrite then_ok. apply and_iff_compat_l. rewrite then_ok.
  assert (match wr_authority r with
          | Prepared => Err PrincipalNotActive
          | Active _ => Ok tt
          | Tombstoned _ _ _ => Err PrincipalTombstoned
          end = Ok tt <-> exists launch, wr_authority r = Active launch) as ->.
  { destruct (wr_authority r); split; intros Hx; try done; [by destruct Hx | by eexists | by destruct Hx]. }
  apply and_iff_compat_l. cbn [res_bind].
  rewrite !guard_ok, !negb_bool_decide_false, !negb_false_iff, !Z.eqb_eq, Z.leb_gt. tauto.
Qed.

Lemma active_ingress_iff_witness :
  validate_active_ingress
    (mkRecord WORKER_SESSION_RECORD_SCHEMA_V1 toy_spec (Active (toy_d 20)) Awaiting) (toy_ingress 4999) = Ok tt.
Proof.
  apply (active_ingress_iff _ _ toy_worker_id).
  - vm_compute. reflexivity.
  - split; [vm_compute; reflexivity|]. split; [by exists (toy_d 20)|]. vm_compute. split_all; reflexivity.
Defined.

(** A run of the batch state machine: every event is accepted. *)
Fixpoint session_run (s : SessionStateV1) (es : list SessionEventV1) : res SessionError SessionStateV1 :=
  match es with
  | [] => Ok s
  | e :: es' => let? s' := session_apply s e in session_run s' es'
  end.

Definition session_terminal (s : SessionStateV1) : bool :=
  match s with Created | Running _ => false | _ => true end.

(** Batch sessions terminate: a run from [Created] has at most two accepted
    events; a terminal state refuses every event and reports that state and
    event; and a worker result, a worker failure or an unknown boundary outcome
    is only recorded for a session that was launched first. *)
Theorem session_runs_terminate es s :
  session_run Created es = Ok s ->
  length es <= 2 /\
  (session_terminal s = true -> forall e, session_apply s e = Err (InvalidTransition s e)) /\
  (match s with Completed _ | Failed _ | SessionIndeterminate _ => True | _ => False end ->
   exists receipt e, es = [Launched receipt; e]).
Proof.
  destruct es as [|e1 [|e2 [|e3 es]]]; simpl; intros Hr.
  - injection Hr as <-. split_all; [lia | done | done].
  - destruct e1; simpl in Hr; try done; injection Hr as <-; (split_all; [lia | by intros Ht [] | done]).
  - destruct e1; simpl in Hr; try done; destruct e2; simpl in Hr; try done; injection Hr as <-;
      (split_all; [lia | by intros Ht [] | try done; intros _; eauto]).
  - exfalso. destruct e1; simpl in Hr; try done; destruct e2; simpl in Hr; try done; by destruct e3.
Qed.

Lemma session_runs_terminate_witness : length [Launched (toy_d 1); WorkerCompleted (toy_d 2)] <= 2.
Proof. apply (session_runs_terminate _ (Completed (toy_d 2))). reflexivity. Defined.
