(* ===== verification/Protocol.v ===== *)
(** * The local wire protocol (ag-protocol/src/lib.rs)

    Bounded length-prefixed frames, request and response envelopes bound by
    the digest of the canonical body, and the strict JSON reader that refuses
    duplicate keys and fields the destination type ignored.  The decoder that
    [serde] derives for a destination type is a parameter ([Decode]). *)

From S2P Require Import Prelude Wire Fixture Digest.

Definition CURRENT_PROTOCOL_VERSION : string := "ag-local/v1".
Definition DEFAULT_MAX_FRAME_LEN : Z := 1024 * 1024.

(** [enum ProtocolError].  Texts of third-party errors are carried as the errors
    themselves; [Io] carries the error of the stream. *)
Inductive ProtocolError : Type :=
  | InvalidFrameLimit
  | FrameTooLarge (actual maximum : Z)
  | TruncatedFrame (expected : Z) (actual : nat)
  | TrailingFrameBytes (count : nat)
  | InvalidUtf8
  | InvalidJson (e : JsonError)
  | DuplicateKey (path key : string)
  | UnknownFields (paths : list string)
  | ProtocolCanonicalization (e : JcsError)
  | UnsupportedVersion (version : string)
  | RequestDigestMismatch (expected actual : Digest)
  | ResponseEchoMismatch
  | InvalidDigest
  | InvalidRequestId
  | InvalidArtifactDescriptor (message : string)
  | Io (e : string).

(** ** Versions, identifiers, artifacts *)

(** [struct ProtocolVersionV1(String)] and [struct RequestId(String)]. *)
Record ProtocolVersionV1 : Type := mkVersion { version_str : string }.
Record RequestId : Type := mkRequestId { request_id_str : string }.

#[global] Instance ProtocolVersionV1_eq_dec : EqDecision ProtocolVersionV1.
Proof. solve_decision. Defined.
#[global] Instance RequestId_eq_dec : EqDecision RequestId.
Proof. solve_decision. Defined.

(** [ProtocolVersionV1::current] and [::parse]. *)
Definition version_current : ProtocolVersionV1 := mkVersion CURRENT_PROTOCOL_VERSION.
Definition version_parse (value : string) : res ProtocolError ProtocolVersionV1 :=
  reject_if (value != CURRENT_PROTOCOL_VERSION) (UnsupportedVersion value) ;?
  Ok (mkVersion value).

(** [RequestId::new]. *)
Definition RequestId_new (value : string) : res ProtocolError RequestId :=
  reject_if ((value == EmptyString) || (128 <? String.length value)
             || negb (str_all (fun c => is_ascii_alphanumeric c || one_of "-_.:" c) value)) InvalidRequestId ;?
  Ok (mkRequestId value).

Record ArtifactDescriptorV1 : Type := mkArtifactDescriptor {
  ar_content_digest : Digest;
  ar_byte_length : Z;
  ar_media_type : string;
  ar_semantic_type : string
}.

(** [valid_token]. *)
Definition valid_token (value : string) (maximum : nat) : bool :=
  (value != EmptyString) && (String.length value <=? maximum)
  && str_all (fun c => is_ascii_alphanumeric c || one_of "-_.+/" c) value.

(** [ArtifactDescriptorV1::validate]. *)
Definition artifact_validate (a : ArtifactDescriptorV1) : res ProtocolError unit :=
  reject_if (negb (valid_token (ar_media_type a) 128) || negb (contains (ar_media_type a) "/"))
    (InvalidArtifactDescriptor "invalid media_type") ;?
  reject_if (negb (valid_token (ar_semantic_type a) 128))
    (InvalidArtifactDescriptor "invalid semantic_type") ;?
  Ok tt.

(** ** Frames *)

(** [struct FrameCodec { maximum: u32 }]. *)
Record FrameCodec : Type := mkCodec { maximum : Z }.

(** [FrameCodec::new] and [::default]. *)
Definition FrameCodec_new (m : Z) : res ProtocolError FrameCodec :=
  reject_if (m =? 0)%Z InvalidFrameLimit ;? Ok (mkCodec m).
Definition FrameCodec_default : FrameCodec := mkCodec DEFAULT_MAX_FRAME_LEN.

(** The invariant of the field: a [u32]. *)
Definition codec_ok (c : FrameCodec) : Prop := (maximum c <= U32_MAX)%Z.

(** [FrameCodec::check_size]. *)
Definition check_size (c : FrameCodec) (size : Z) : res ProtocolError unit :=
  reject_if (maximum c <? size)%Z (FrameTooLarge size (maximum c)).

(** [u32::try_from(payload.len()).map_err(..)]. *)
Definition frame_length (c : FrameCodec) (payload : bytes) : res ProtocolError Z :=
  let n := Z.of_nat (length payload) in
  if (n <=? U32_MAX)%Z then Ok n else Err (FrameTooLarge n (maximum c)).

(** [FrameCodec::encode_frame]. *)
Definition encode_frame (c : FrameCodec) (payload : bytes) : res ProtocolError bytes :=
  check_size c (Z.of_nat (length payload)) ;?
  let? n := frame_length c payload in
  Ok (be_bytes 4 n ++ payload).

(** [FrameCodec::decode_frame]. *)
Definition decode_frame (c : FrameCodec) (frame : bytes) : res ProtocolError bytes :=
  reject_if (length frame <? 4) (TruncatedFrame 0 (length frame)) ;?
  let n := be_value (take 4 frame) in
  check_size c n ;?
  let available := length frame - 4 in
  reject_if (Z.of_nat available <? n)%Z (TruncatedFrame n available) ;?
  reject_if (n <? Z.of_nat available)%Z (TrailingFrameBytes (available - Z.to_nat n)) ;?
  Ok (drop 4 frame).

(** A blocking reader: the bytes it will deliver, and the error of a read past
    them. *)
Record Reader : Type := mkReader { rd_bytes : bytes; rd_error : string }.

(** [Read::read_exact]. *)
Definition read_exact (r : Reader) (n : nat) : res ProtocolError (bytes * Reader) :=
  if n <=? length (rd_bytes r)
  then Ok (take n (rd_bytes r), mkReader (drop n (rd_bytes r)) (rd_error r))
  else Err (Io (rd_error r)).

(** [FrameCodec::read_frame]: the payload, and the reader after it. *)
Definition read_frame (c : FrameCodec) (r : Reader) : res ProtocolError (bytes * Reader) :=
  let? (header, r) := read_exact r 4 in
  let n := be_value header in
  check_size c n ;?
  read_exact r (Z.to_nat n).

Section Writing.
  (** A blocking writer: [write_all] and [flush] on some state. *)
  Context {W : Type} (write_all : W -> bytes -> res string W) (flush : W -> res string W).

(** [FrameCodec::write_frame]. *)
Definition write_frame (c : FrameCodec) (w : W) (payload : bytes) : res ProtocolError W :=
  check_size c (Z.of_nat (length payload)) ;?
  let? n := frame_length c payload in
  let? w := map_err Io (write_all w (be_bytes 4 n)) in
  let? w := map_err Io (write_all w payload) in
  map_err Io (flush w).

End Writing.

(** Reading [n] frames in a row. *)
Fixpoint read_frames (c : FrameCodec) (n : nat) (r : Reader) : res ProtocolError (list bytes * Reader) :=
  match n with
  | O => Ok ([], r)
  | S n' =>
      let? (payload, r) := read_frame c r in
      let? (rest, r) := read_frames c n' r in
      Ok (payload :: rest, r)
  end.

(** ** UTF-8 ([std::str::from_utf8]) *)

Definition in_range (lo hi : Z) (b : byte) : bool := (lo <=? byte_val b)%Z && (byte_val b <=? hi)%Z.
Definition continuation (b : byte) : bool := in_range 128 191 b.

Fixpoint utf8_valid (l : bytes) : bool :=
  match l with
  | [] => true
  | a :: r =>
      if in_range 0 127 a then utf8_valid r
      else match r with
      | b :: r2 =>
          if in_range 194 223 a then continuation b && utf8_valid r2
          else match r2 with
          | c :: r3 =>
              if in_range 224 239 a then
                (if (byte_val a =? 224)%Z then in_range 160 191 b
                 else if (byte_val a =? 237)%Z then in_range 128 159 b else continuation b)
                && continuation c && utf8_valid r3
              else match r3 with
              | d :: r4 =>
                  in_range 240 244 a &&
                  (if (byte_val a =? 240)%Z then in_range 144 191 b
                   else if (byte_val a =? 244)%Z then in_range 128 143 b else continuation b)
                  && continuation c && continuation d && utf8_valid r4
              | [] => false
              end
          | [] => false
          end
      | [] => false
      end
  end.

(** ** The duplicate-free reader *)

(** [str::replace] of one character. *)
Fixpoint str_replace (c : ascii) (by_ : string) (s : string) : string :=
  match s with
  | EmptyString => EmptyString
  | String d s' => (if Ascii.eqb d c then by_ else String d EmptyString) +:+ str_replace c by_ s'
  end.

(** [json_pointer_escape]. *)
Definition json_pointer_escape (value : string) : string :=
  str_replace "/" "~1" (str_replace "~" "~0" value).

Definition child (path segment : string) : string := path +:+ "/" +:+ segment.
Definition index_str (i : nat) : string := u64_to_string (Z.of_nat i).

(** How the visitor fails.  The shared cell [duplicate] is written exactly where
    the visitor returns the duplicate-key error, so the error carries what the
    cell holds. *)
Inductive UniqueError : Type :=
  | UniqueJson (e : JsonError)
  | UniqueDuplicate (path key : string).

(** [UniqueValueVisitor::visit_seq]. *)
Definition unique_seq (visit : string -> Json -> res UniqueError Value) (failure : option string) (path : string) :=
  fix go (l : list Json) (values : list Value) : res UniqueError Value :=
    match l with
    | [] => match failure with
            | Some m => Err (UniqueJson (JsonReader m))
            | None => Ok (VArray values)
            end
    | x :: l' =>
        let? v := visit (child path (index_str (length values))) x in
        go l' (values ++ [v])
    end.

(** [UniqueValueVisitor::visit_map]. *)
Definition unique_map (visit : string -> Json -> res UniqueError Value) (failure : option string) (path : string) :=
  fix go (l : list (string * Json)) (keys : list string) (object : list (string * Value)) : res UniqueError Value :=
    match l with
    | [] => match failure with
            | Some m => Err (UniqueJson (JsonReader m))
            | None => Ok (VObject object)
            end
    | (k, x) :: l' =>
        if bool_decide (k ∈ keys) then Err (UniqueDuplicate path k)
        else
          let? v := visit (child path (json_pointer_escape k)) x in
          go l' (k :: keys) (btree_insert k v object)
    end.

(** [UniqueValueVisitor]. *)
Fixpoint unique_value (path : string) (j : Json) : res UniqueError Value :=
  match j with
  | JUnit => Ok VNull
  | JBool b => Ok (VBool b)
  | JI64 z | JU64 z => Ok (VNumber z)
  | JF64 => Err (UniqueJson (JsonCustom "floating-point JSON numbers are forbidden"))
  | JStr s => Ok (VString s)
  | JFail m => Err (UniqueJson (JsonReader m))
  | JSeq l failure => unique_seq unique_value failure path l []
  | JMap l failure => unique_map unique_value failure path l [] []
  end.

(** ** Fields the destination ignored *)

(** [collect_unknown_paths]; the list grows at its end. *)
Fixpoint collect_unknown_paths (input normalized : Value) (path : string) : list string :=
  match input, normalized with
  | VObject input, VObject normalized =>
      (fix go l := match l with
       | [] => []
       | (key, value) :: l' =>
           match btree_get key normalized with
           | Some normalized_value =>
               collect_unknown_paths value normalized_value (child path (json_pointer_escape key))
           | None => [child path (json_pointer_escape key)]
           end ++ go l'
       end) input
  | VArray input, VArray normalized =>
      (fix go l m i := match l, m with
       | value :: l', normalized_value :: m' =>
           collect_unknown_paths value normalized_value (child path (index_str i)) ++ go l' m' (S i)
       | _, _ => []
       end) input normalized 0
  | _, _ => []
  end.

(** The decoder of a destination type: [serde_json::from_value]. *)
Class Decode (T : Type) := from_value : Value -> string + T.

Section Protocol.
  Context `{Deps}.

(** [parse_duplicate_free_value]. *)
Definition parse_duplicate_free_value (b : bytes) : res ProtocolError Value :=
  let (tree, end_failure) := json_events b in
  match unique_value EmptyString tree with
  | Err (UniqueDuplicate path key) => Err (DuplicateKey path key)
  | Err (UniqueJson e) => Err (InvalidJson e)
  | Panic => Panic
  | Ok value =>
      match end_failure with
      | Some m => Err (InvalidJson (JsonReader m))
      | None => Ok value
      end
  end.

(** [strict_json_from_slice].  [serde_json::to_value] of the decoded value is
    its tree with objects as ordered maps. *)
Definition strict_json_from_slice `{Serialize T, Decode T} (b : bytes) : res ProtocolError T :=
  reject_if (negb (utf8_valid b)) InvalidUtf8 ;?
  let? value := parse_duplicate_free_value b in
  let? decoded := match from_value value with inl m => Err (InvalidJson (JsonCustom m)) | inr x => Ok x end in
  let normalized := canon (to_value decoded) in
  let unknown := sort_dedup (collect_unknown_paths value normalized EmptyString) in
  match unknown with
  | [] => Ok decoded
  | _ => Err (UnknownFields unknown)
  end.

(** [canonical_json] and [canonical_json_digest]. *)
Definition canonical_json `{Serialize T} (x : T) : res ProtocolError bytes :=
  let? document := map_err ProtocolCanonicalization (canonicalize (to_value x)) in
  Ok (jcs_bytes document).
Definition canonical_json_digest `{Serialize T} (domain : string) (x : T) : res ProtocolError Digest :=
  let? b := canonical_json x in Ok (hash_domain domain b).

(** [FrameCodec::encode_json] and [::decode_json]. *)
Definition encode_json `{Serialize T} (c : FrameCodec) (x : T) : res ProtocolError bytes :=
  let? b := canonical_json x in encode_frame c b.
Definition decode_json `{Serialize T, Decode T} (c : FrameCodec) (frame : bytes) : res ProtocolError T :=
  let? b := decode_frame c frame in strict_json_from_slice b.

End Protocol.

(** ** Envelopes *)

Record RequestEchoV1 : Type := mkEcho {
  ec_protocol_version : ProtocolVersionV1;
  ec_request_id : RequestId;
  ec_request_digest : Digest
}.
#[global] Instance RequestEchoV1_eq_dec : EqDecision RequestEchoV1.
Proof. solve_decision. Defined.

Record RequestEnvelopeV1 (T : Type) : Type := mkRequest { rq_echo : RequestEchoV1; rq_body : T }.
Arguments mkRequest {T} _ _.
Arguments rq_echo {T} _.
Arguments rq_body {T} _.
Record ResponseEnvelopeV1 (T : Type) : Type := mkResponse { rs_echo : RequestEchoV1; rs_body : T }.
Arguments mkResponse {T} _ _.
Arguments rs_echo {T} _.
Arguments rs_body {T} _.

Section Envelopes.
  Context `{Deps}.

Definition REQUEST_DOMAIN : string := "ag-protocol-request-body-v1".

(** [RequestEnvelopeV1::new]. *)
Definition RequestEnvelopeV1_new `{Serialize T} (request_id : RequestId) (body : T)
    : res ProtocolError (RequestEnvelopeV1 T) :=
  let? digest := canonical_json_digest REQUEST_DOMAIN body in
  Ok (mkRequest (mkEcho version_current request_id digest) body).

(** [RequestEnvelopeV1::validate]. *)
Definition request_validate `{Serialize T} (r : RequestEnvelopeV1 T) : res ProtocolError unit :=
  let version := version_str (ec_protocol_version (rq_echo r)) in
  reject_if (version != CURRENT_PROTOCOL_VERSION) (UnsupportedVersion version) ;?
  let? actual := canonical_json_digest REQUEST_DOMAIN (rq_body r) in
  reject_if (actual != ec_request_digest (rq_echo r))
    (RequestDigestMismatch (ec_request_digest (rq_echo r)) actual) ;?
  Ok tt.

(** [ResponseEnvelopeV1::for_request] and [::validate_echo]. *)
Definition for_request {T U} (request : RequestEnvelopeV1 U) (body : T) : ResponseEnvelopeV1 T :=
  mkResponse (rq_echo request) body.
Definition validate_echo {T U} (self : ResponseEnvelopeV1 T) (request : RequestEnvelopeV1 U)
    : res ProtocolError unit :=
  reject_if (rs_echo self != rq_echo request) ResponseEchoMismatch ;?
  Ok tt.

End Envelopes.

(** ** Frames: lemmas *)

Lemma check_size_ok c n : check_size c n = Ok tt <-> (n <= maximum c)%Z.
Proof. unfold check_size. rewrite reject_if_ok, Z.ltb_ge. done. Qed.

Lemma encode_frame_ok c p f :
  codec_ok c ->
  encode_frame c p = Ok f <->
  (Z.of_nat (length p) <= maximum c)%Z /\ f = be_bytes 4 (Z.of_nat (length p)) ++ p.
Proof.
  unfold codec_ok. intros Hc. unfold encode_frame, frame_length. rewrite then_ok, check_size_ok.
  split; intros [Hn Hf]; (split; [done|]); destruct (Z.leb_spec (Z.of_nat (length p)) U32_MAX); simpl in *;
    [congruence | lia | by subst | lia].
Qed.

Lemma header_value n : (0 <= n <= U32_MAX)%Z -> be_value (be_bytes 4 n) = n.
Proof. intros Hn. apply be_value_bytes. unfold U32_MAX in Hn. simpl. lia. Qed.

Lemma take_header n (p : bytes) : take 4 (be_bytes 4 n ++ p) = be_bytes 4 n.
Proof. done. Qed.
Lemma drop_header n (p : bytes) : drop 4 (be_bytes 4 n ++ p) = p.
Proof. done. Qed.

Lemma decode_frame_ok c f p :
  codec_ok c ->
  decode_frame c f = Ok p <->
  (Z.of_nat (length p) <= maximum c)%Z /\ f = be_bytes 4 (Z.of_nat (length p)) ++ p.
Proof.
  unfold codec_ok. intros Hc. unfold decode_frame.
  rewrite guard_ok, then_ok, check_size_ok, !guard_ok, Nat.ltb_ge, !Z.ltb_ge. split.
  - intros (Hlen & Hmax & H1 & H2 & [= <-]).
    assert (be_value (take 4 f) = Z.of_nat (length (drop 4 f))) as Hv by (rewrite length_drop; lia).
    rewrite <- Hv. split; [done|]. pose proof (be_bytes_value (take 4 f)) as Hb.
    rewrite length_take_le in Hb by done. rewrite Hb. symmetry. apply take_drop.
  - intros [Hmax ->]. rewrite take_header, drop_header, header_value by lia.
    rewrite length_app, length_be_bytes. split_all; try done; lia.
Qed.

Lemma read_exact_app b rest e :
  read_exact (mkReader (b ++ rest) e) (length b) = Ok (b, mkReader rest e).
Proof.
  unfold read_exact. simpl. rewrite length_app.
  assert ((length b <=? length b + length rest) = true) as -> by (apply Nat.leb_le; lia).
  by rewrite take_app_length, drop_app_length.
Qed.

Lemma read_frame_encoded c p f rest e :
  codec_ok c -> encode_frame c p = Ok f ->
  read_frame c (mkReader (f ++ rest) e) = Ok (p, mkReader rest e).
Proof.
  intros Hc. rewrite encode_frame_ok by done. unfold codec_ok in Hc. intros [Hn ->]. unfold read_frame.
  rewrite <- app_assoc. change 4 with (length (be_bytes 4 (Z.of_nat (length p)))) at 2.
  rewrite read_exact_app. cbn [res_bind]. rewrite header_value by lia.
  rewrite (proj2 (check_size_ok _ _) Hn). cbn [res_bind]. rewrite Nat2Z.id. apply read_exact_app.
Qed.

Lemma read_frame_truncated c p f n e :
  codec_ok c -> encode_frame c p = Ok f -> n < length f ->
  read_frame c (mkReader (take n f) e) = Err (Io e).
Proof.
  intros Hc. rewrite encode_frame_ok by done. unfold codec_ok in Hc. intros [Hp ->] Hn.
  rewrite length_app, length_be_bytes in Hn. unfold read_frame, read_exact. cbn [rd_bytes rd_error].
  rewrite length_take, length_app, length_be_bytes.
  destruct (Nat.leb_spec 4 (n `min` (4 + length p))); [|done]. cbn [res_bind rd_bytes rd_error].
  rewrite take_take, Nat.min_l, take_header, header_value by lia.
  rewrite (proj2 (check_size_ok _ _) Hp). cbn [res_bind].
  rewrite length_drop, length_take, length_app, length_be_bytes, Nat2Z.id.
  destruct (Nat.leb_spec (length p) (n `min` (4 + length p) - 4)); [lia | done].
Qed.

(** A writer that appends to a byte list. *)
Definition buffer_write (w b : bytes) : res string bytes := Ok (w ++ b).
Definition buffer_flush (w : bytes) : res string bytes := Ok w.

Lemma write_frame_buffer c w p :
  write_frame buffer_write buffer_flush c w p = (let? f := encode_frame c p in Ok (w ++ f)).
Proof.
  unfold write_frame, encode_frame. destruct (check_size c _); [|done|done]. cbn [res_bind].
  destruct (frame_length c p); [|done|done]. simpl. by rewrite <- app_assoc.
Qed.

(** ** The two readers agree *)

(** Outcomes of the protocol's visitor and of the canonical-document visitor:
    the same value, or both refuse. *)
Definition same_verdict {E F A} (x : res E A) (y : res F A) : Prop :=
  match x, y with
  | Ok a, Ok b => a = b
  | Err _, Err _ => True
  | Panic, Panic => True
  | _, _ => False
  end.

Lemma same_verdict_bind {E F A B} (x : res E A) (y : res F A) (f : A -> res E B) (g : A -> res F B) :
  same_verdict x y -> (forall a, same_verdict (f a) (g a)) -> same_verdict (res_bind x f) (res_bind y g).
Proof. intros Hxy Hfg. destruct x, y; simpl in *; subst; done. Qed.

Section JsonInd.
  Variable P : Json -> Prop.
  Hypothesis HUnit : P JUnit.
  Hypothesis HBool : forall b, P (JBool b).
  Hypothesis HI : forall z, P (JI64 z).
  Hypothesis HU : forall z, P (JU64 z).
  Hypothesis HF : P JF64.
  Hypothesis HS : forall s, P (JStr s).
  Hypothesis HSeq : forall l f, Forall P l -> P (JSeq l f).
  Hypothesis HMap : forall l f, Forall (fun kv => P kv.2) l -> P (JMap l f).
  Hypothesis HFail : forall m, P (JFail m).

Lemma Json_nested_ind : forall j, P j.
Proof using All.
  fix IH 1. intros [|b|z|z| |s|l f|l f|m];
    [exact HUnit | apply HBool | apply HI | apply HU | exact HF | apply HS | apply HSeq | apply HMap | apply HFail].
  - induction l as [|x l IHl]; constructor; [apply IH | exact IHl].
  - induction l as [|[k x] l IHl]; constructor; [apply IH | exact IHl].
Qed.

End JsonInd.

Lemma unique_value_strict j : forall path, same_verdict (unique_value path j) (strict_value j).
Proof.
  induction j as [| | | | | |l f IH|l f IH|] using Json_nested_ind; intros path; try done; simpl.
  - generalize ([] : list Value) as acc. induction IH as [|x l Hx Hl IHl]; intros acc; simpl.
    + by destruct f.
    + apply same_verdict_bind; [apply Hx|]. intros v. apply IHl.
  - generalize ([] : list string) as keys, ([] : list (string * Value)) as acc.
    induction IH as [|[k x] l Hx Hl IHl]; intros keys acc; simpl.
    + by destruct f.
    + destruct (bool_decide (k ∈ keys)); [done|]. apply same_verdict_bind; [apply Hx|]. intros v. apply IHl.
Qed.

Lemma parse_duplicate_free_iff `{Deps} b v :
  parse_duplicate_free_value b = Ok v <-> parse_strict_value b = Ok v.
Proof.
  unfold parse_duplicate_free_value, parse_strict_value. destruct (json_events b) as [tree e].
  pose proof (unique_value_strict tree EmptyString) as Hs.
  destruct (unique_value EmptyString tree) as [x|[]|], (strict_value tree) as [y| |]; simpl in *; try done;
    subst; repeat case_match; split; congruence.
Qed.

(** ** Unknown paths *)

Inductive Segment : Type := Key (k : string) | Index (i : nat).

(** The JSON pointer of a sequence of segments below a path. *)
Definition segment_str (s : Segment) : string :=
  match s with Key k => json_pointer_escape k | Index i => index_str i end.
Definition render (path : string) (l : list Segment) : string :=
  fold_left (fun p s => child p (segment_str s)) l path.

(** The member at the end of the segments is in the input and has no
    counterpart in the normalized value. *)
Inductive ignored : Value -> Value -> list Segment -> Prop :=
  | ignored_here l m k v :
      (k, v) ∈ l -> btree_get k m = None -> ignored (VObject l) (VObject m) [Key k]
  | ignored_member l m k v w segs :
      (k, v) ∈ l -> btree_get k m = Some w -> ignored v w segs -> ignored (VObject l) (VObject m) (Key k :: segs)
  | ignored_element l m i v w segs :
      l !! i = Some v -> m !! i = Some w -> ignored v w segs -> ignored (VArray l) (VArray m) (Index i :: segs).

Lemma collect_object l m path s :
  s ∈ collect_unknown_paths (VObject l) (VObject m) path <->
  exists k v, (k, v) ∈ l /\
    match btree_get k m with
    | Some w => s ∈ collect_unknown_paths v w (child path (json_pointer_escape k))
    | None => s = child path (json_pointer_escape k)
    end.
Proof.
  simpl. induction l as [|[k v] l IH]; simpl.
  - rewrite elem_of_nil. split; [done|]. intros (k & v & Hin%elem_of_nil & _). done.
  - rewrite elem_of_app, IH. split.
    + intros [Hs|(k' & v' & Hin & Hs)].
      * exists k, v. split; [by left|]. destruct (btree_get k m); [done|]. by apply list_elem_of_singleton in Hs.
      * exists k', v'. split; [by right | done].
    + intros (k' & v' & Hin & Hs). apply elem_of_cons in Hin as [[= -> ->]|Hin]; [left | right; eauto].
      destruct (btree_get k m); [done|]. by apply list_elem_of_singleton.
Qed.

Lemma collect_array l m path s :
  s ∈ collect_unknown_paths (VArray l) (VArray m) path <->
  exists i v w, l !! i = Some v /\ m !! i = Some w /\ s ∈ collect_unknown_paths v w (child path (index_str i)).
Proof.
  simpl.
  cut (forall n, s ∈ (fix go l m i := match l, m with
       | value :: l', normalized_value :: m' =>
           collect_unknown_paths value normalized_value (child path (index_str i)) ++ go l' m' (S i)
       | _, _ => []
       end) l m n <->
    exists i v w, l !! i = Some v /\ m !! i = Some w /\ s ∈ collect_unknown_paths v w (child path (index_str (n + i)))).
  { intros Hn. apply (Hn 0). }
  revert m. induction l as [|v l IH]; intros m n.
  { rewrite elem_of_nil. split; [done|]. by intros (i & v & w & Hi & _). }
  destruct m as [|w m].
  { rewrite elem_of_nil. split; [done|]. by intros (i & v' & w & _ & Hi & _). }
  rewrite elem_of_app, IH. split.
  - intros [Hs|(i & v' & w' & Hv & Hw & Hs)].
    + exists 0, v, w. by rewrite Nat.add_0_r.
    + exists (S i), v', w'. by rewrite Nat.add_succ_r.
  - intros ([|i] & v' & w' & Hv & Hw & Hs); simpl in *.
    + left. simplify_eq. by rewrite Nat.add_0_r in Hs.
    + right. exists i, v', w'. by rewrite <- Nat.add_succ_r.
Qed.

Lemma collect_unknown_spec input : forall normalized path s,
  s ∈ collect_unknown_paths input normalized path <->
  exists segs, ignored input normalized segs /\ s = render path segs.
Proof.
  induction input as [|b|z|t|l IH|l IH] using Value_nested_ind; intros normalized path s.
  1-4: destruct normalized; simpl; rewrite elem_of_nil; (split; [done | by intros (? & Hi & _); inversion Hi]).
  - destruct normalized as [| | | |m|m];
      try (simpl; rewrite elem_of_nil; split; [done | by intros (? & Hi & _); inversion Hi]).
    rewrite collect_array. rewrite List.Forall_forall in IH. split.
    + intros (i & v & w & Hv & Hw & Hs). apply (IH v) in Hs as (segs & Hi & ->);
        [|apply list_elem_of_In; by eapply list_elem_of_lookup_2].
      exists (Index i :: segs). split; [by econstructor | done].
    + intros (segs & Hi & ->). inversion Hi as [| |? ? i v w segs' Hv Hw Hi']; subst.
      exists i, v, w. split_all; [done|done|]. apply (IH v); [|by exists segs'].
      apply list_elem_of_In. by eapply list_elem_of_lookup_2.
  - destruct normalized as [| | | |m|m];
      try (simpl; rewrite elem_of_nil; split; [done | by intros (? & Hi & _); inversion Hi]).
    rewrite collect_object. rewrite List.Forall_forall in IH. split.
    + intros (k & v & Hin & Hs). destruct (btree_get k m) as [w|] eqn:Hk.
      * apply (IH (k, v)) in Hs as (segs & Hi & ->); [|by apply list_elem_of_In].
        exists (Key k :: segs). split; [by eapply ignored_member | done].
      * exists [Key k]. split; [by eapply ignored_here | done].
    + intros (segs & Hi & ->). inversion Hi as [? ? k v Hin Hk|? ? k v w segs' Hin Hk Hi'|]; subst;
        exists k, v; rewrite Hk; [done|]. split; [done|].
      apply (IH (k, v)); [by apply list_elem_of_In | by exists segs'].
Qed.

Lemma btree_get_member k (x : Value) l : btree_sorted l -> (k, x) ∈ l -> btree_get k l = Some x.
Proof.
  intros Hs Hin. pose proof (btree_get_of k x l (btree_sorted_NoDup l Hs) Hin) as Hx.
  by rewrite (btree_of_sorted l Hs) in Hx.
Qed.

Lemma collect_self_nil v path : ordered v -> collect_unknown_paths v v path = [].
Proof.
  intros Ho. apply elem_of_nil_inv. intros s Hs. apply collect_unknown_spec in Hs as (segs & Hi & _).
  revert v Ho Hi. induction segs as [|sg segs IH]; intros v Ho Hi; [inversion Hi|].
  inversion Hi as [l m k x Hin Hk|l m k x w ? Hin Hk Hi'|l m i x w ? Hv Hw Hi']; subst.
  - apply ordered_object in Ho as [Hs _]. rewrite (btree_get_member k x l) in Hk; done.
  - apply ordered_object in Ho as [Hs Hall]. rewrite (btree_get_member k x l) in Hk by done.
    injection Hk as <-. apply (IH x); [|done].
    rewrite List.Forall_forall in Hall. apply (Hall (k, x)). by apply list_elem_of_In.
  - apply ordered_array in Ho. assert (w = x) as -> by congruence. apply (IH x); [|done].
    rewrite List.Forall_forall in Ho. apply Ho, list_elem_of_In. by eapply list_elem_of_lookup_2.
Qed.

(** ** Streams of frames *)

Lemma read_frames_encoded c ps fs rest e :
  codec_ok c -> Forall2 (fun p f => encode_frame c p = Ok f) ps fs ->
  read_frames c (length ps) (mkReader (concat fs ++ rest) e) = Ok (ps, mkReader rest e).
Proof.
  intros Hc. induction 1 as [|p f ps fs Hp Hps IH]; simpl; [done|].
  rewrite <- app_assoc, (read_frame_encoded c p f) by done. cbn [res_bind]. rewrite IH. done.
Qed.

Lemma read_frames_app c n m r :
  read_frames c (n + m) r =
  (let? (ps, r) := read_frames c n r in let? (qs, r) := read_frames c m r in Ok (ps ++ qs, r)).
Proof.
  revert r. induction n as [|n IH]; intros r; simpl.
  - by destruct (read_frames c m r) as [[]| |].
  - destruct (read_frame c r) as [[p r1]| |]; [|done|done]. cbn [res_bind]. rewrite IH.
    destruct (read_frames c n r1) as [[ps r2]| |]; [|done|done]. cbn [res_bind].
    by destruct (read_frames c m r2) as [[]| |].
Qed.

(** Writing payloads one after the other. *)
Fixpoint write_frames {W} (write_all : W -> bytes -> res string W) (flush : W -> res string W)
    (c : FrameCodec) (w : W) (ps : list bytes) : res ProtocolError W :=
  match ps with
  | [] => Ok w
  | p :: ps' => let? w := write_frame write_all flush c w p in write_frames write_all flush c w ps'
  end.

Lemma write_frames_buffer c w ps fs :
  Forall2 (fun p f => encode_frame c p = Ok f) ps fs ->
  write_frames buffer_write buffer_flush c w ps = Ok (w ++ concat fs).
Proof.
  intros Hf. revert w. induction Hf as [|p f ps fs Hp Hps IH]; intros w; simpl.
  - by rewrite app_nil_r.
  - rewrite write_frame_buffer, Hp. cbn [res_bind]. by rewrite IH, app_assoc.
Qed.

(** ** Strict decoding *)

Section Strict.
  Context `{Deps} `{Serialize T, !Decode T}.
  Implicit Types (x : T) (v : Value).

Lemma strict_json_accepts b x :
  strict_json_from_slice b = Ok x <->
  utf8_valid b = true /\ exists v, parse_strict_value b = Ok v /\ from_value v = inr x /\
    forall segs, ~ ignored v (canon (to_value x)) segs.
Proof.
  unfold strict_json_from_slice. rewrite guard_ok, negb_false_iff. apply and_iff_compat_l.
  rewrite res_bind_ok. setoid_rewrite parse_duplicate_free_iff. split.
  - intros (v & Hv & Hk). exists v. split; [done|]. destruct (from_value v) as [m|y]; [done|].
    cbn [res_bind] in Hk.
    destruct (sort_dedup (collect_unknown_paths v (canon (to_value y)) EmptyString)) eqn:Hs; [|done].
    injection Hk as ->. split; [done|]. intros segs Hi. apply (proj1 (sort_dedup_nil _)) in Hs.
    assert (render EmptyString segs ∈ collect_unknown_paths v (canon (to_value x)) EmptyString) as Hin
      by (apply collect_unknown_spec; by exists segs).
    rewrite Hs in Hin. by apply elem_of_nil in Hin.
  - intros (v & Hv & Hx & Hn). exists v. split; [done|]. rewrite Hx. cbn [res_bind].
    replace (collect_unknown_paths v (canon (to_value x)) EmptyString) with ([] : list string); [done|].
    symmetry. apply elem_of_nil_inv. intros s (segs & Hi & _)%collect_unknown_spec. by apply (Hn segs).
Qed.

Lemma strict_json_unknown b l :
  strict_json_from_slice (T := T) b = Err (UnknownFields l) ->
  exists v x, parse_strict_value b = Ok v /\ from_value v = inr x /\ l <> [] /\
    forall s, s ∈ l <-> exists segs, ignored v (canon (to_value x)) segs /\ s = render EmptyString segs.
Proof.
  unfold strict_json_from_slice, reject_if. destruct (negb (utf8_valid b)); [done|]. cbn [res_bind].
  destruct (parse_duplicate_free_value b) as [v|e|] eqn:Hv; cbn [res_bind]; [| |done].
  2:{ intros [= ->]. exfalso. revert Hv. unfold parse_duplicate_free_value.
      destruct (json_events b) as [tree end_failure].
      destruct (unique_value EmptyString tree) as [?|[]|]; [destruct end_failure| | |]; done. }
  apply parse_duplicate_free_iff in Hv.
  destruct (from_value v) as [m|x] eqn:Hx; [done|]. cbn [res_bind].
  remember (sort_dedup (collect_unknown_paths v (canon (to_value x)) EmptyString)) as u eqn:Hu.
  intros Hl. exists v, x. split_all; [done | done | by destruct u; [|congruence] |].
  assert (l = u) as -> by (destruct u; congruence).
  intros s. by rewrite Hu, elem_sort_dedup, collect_unknown_spec.
Qed.

End Strict.

Lemma canonical_json_ijson `{JcsLaws, Serialize T} (x : T) :
  ijson (to_value x) = true ->
  exists b, jcs_to_vec (to_value x) = inr b /\ canonical_json x = Ok b.
Proof.
  intros Hx. destruct (canonicalize_ijson _ Hx) as (b & Hb & Hc & _). exists b.
  split; [done|]. unfold canonical_json. rewrite Hc. done.
Qed.

Lemma strict_json_canonical `{JcsLaws, Serialize T, !Decode T} (x : T) b :
  ijson (to_value x) = true -> canonical_json x = Ok b -> utf8_valid b = true ->
  from_value (canon (to_value x)) = inr x -> strict_json_from_slice b = Ok x.
Proof.
  intros Hx Hb Hu Hd. destruct (canonical_json_ijson x Hx) as (b' & Hb' & Hc).
  assert (b' = b) as -> by congruence. apply strict_json_accepts. split; [done|].
  exists (canon (to_value x)). split_all; [by apply parse_strict_of_jcs | done |].
  intros segs Hi. pose proof (collect_self_nil _ EmptyString (canon_ordered (to_value x))) as Hn.
  assert (render EmptyString segs ∈ ([] : list string)) as Hin%elem_of_nil; [|done].
  rewrite <- Hn. apply collect_unknown_spec. by exists segs.
Qed.

(** ** Envelopes: lemmas *)

Lemma canonical_json_digest_ok `{JcsLaws, Serialize T} domain (x : T) b :
  encodes x b -> canonical_json_digest domain x = Ok (hash_domain domain b).
Proof.
  intros (Hx & Hb & _). unfold canonical_json_digest.
  destruct (canonical_json_ijson x Hx) as (b' & Hb' & ->). simpl. congruence.
Qed.

Lemma request_validate_ok `{JcsLaws, Serialize T} (r : RequestEnvelopeV1 T) b :
  encodes (rq_body r) b ->
  request_validate r = Ok tt <->
  ec_protocol_version (rq_echo r) = version_current /\
  ec_request_digest (rq_echo r) = hash_domain REQUEST_DOMAIN b.
Proof.
  intros Hb. unfold request_validate. rewrite guard_ok, (canonical_json_digest_ok _ _ b Hb).
  cbn [res_bind]. rewrite guard_ok, !negb_bool_decide_false.
  assert (version_str (ec_protocol_version (rq_echo r)) = CURRENT_PROTOCOL_VERSION <->
    ec_protocol_version (rq_echo r) = version_current) as ->.
  { destruct (ec_protocol_version (rq_echo r)); simpl. split; [by intros -> | by intros [= ->]]. }
  intuition congruence.
Qed.

(** [RequestId] serializes as its text and reads back through [RequestId::new]. *)
#[global] Instance RequestId_serialize : Serialize RequestId := fun r => VString (request_id_str r).
#[global] Instance RequestId_serialize_inj : SerializeInj RequestId.
Proof. intros [x] [y] Hv. apply string_equiv in Hv. simpl in Hv. by subst. Qed.
#[global] Instance RequestId_decode : Decode RequestId := fun v =>
  match v with
  | VString s => match RequestId_new s with Ok r => inr r | _ => inl "invalid request identifier" end
  | _ => inl "invalid type: expected a string"
  end.

(** ** The properties *)

(** Framing is a bijection onto the accepted frames: [decode_frame] accepts
    a byte string exactly when it is what [encode_frame] writes for the payload
    it returns, and a payload is framed exactly when it is within the maximum;
    otherwise the error is [FrameTooLarge] with both sizes. *)
Theorem frame_decode_iff_encode c f p :
  codec_ok c ->
  (decode_frame c f = Ok p <-> encode_frame c p = Ok f) /\
  ((exists g, encode_frame c p = Ok g) <-> (Z.of_nat (length p) <= maximum c)%Z) /\
  ((maximum c < Z.of_nat (length p))%Z ->
     encode_frame c p = Err (FrameTooLarge (Z.of_nat (length p)) (maximum c))).
Proof.
  intros Hc. split_all.
  - by rewrite decode_frame_ok, encode_frame_ok.
  - split; [intros [g Hg]; by apply encode_frame_ok in Hg as [? _]|].
    intros Hp. eexists. by apply encode_frame_ok.
  - intros Hp. unfold encode_frame, check_size. apply Z.ltb_lt in Hp. by rewrite Hp.
Qed.

Lemma frame_decode_iff_encode_witness :
  decode_frame (mkCodec 2) (be_bytes 4 1 ++ [Byte.x41]) = Ok [Byte.x41] <->
  encode_frame (mkCodec 2) [Byte.x41] = Ok (be_bytes 4 1 ++ [Byte.x41]).
Proof. apply (frame_decode_iff_encode (mkCodec 2)). vm_compute. congruence. Defined.

(** A stream of frames reads back: writing payloads one after the other and
    reading as many frames returns exactly these payloads and leaves exactly the
    bytes behind them, and when the stream ends inside a further frame, the read
    of that frame fails with the error of the stream, whatever the prefix. *)
Theorem frame_stream_roundtrip c ps fs p f w e :
  codec_ok c ->
  Forall2 (fun p f => encode_frame c p = Ok f) ps fs -> encode_frame c p = Ok f ->
  write_frames buffer_write buffer_flush c w ps = Ok (w ++ concat fs) /\
  (forall rest, read_frames c (length ps) (mkReader (concat fs ++ rest) e) = Ok (ps, mkReader rest e)) /\
  (forall n, n < length f ->
     read_frames c (length ps + 1) (mkReader (concat fs ++ take n f) e) = Err (Io e)).
Proof.
  intros Hc Hfs Hf. split_all; [by apply write_frames_buffer | intros rest; by apply read_frames_encoded |].
  intros n Hn. rewrite read_frames_app, (read_frames_encoded c ps fs) by done. cbn [res_bind read_frames].
  by rewrite (read_frame_truncated c p f n e).
Qed.

Lemma frame_stream_roundtrip_witness :
  read_frames (mkCodec 9) 1 (mkReader (concat [be_bytes 4 1 ++ [Byte.x41]] ++ [Byte.x00]) "eof")
    = Ok ([[Byte.x41]], mkReader [Byte.x00] "eof").
Proof.
  destruct (frame_stream_roundtrip (mkCodec 9) [[Byte.x41]] [be_bytes 4 1 ++ [Byte.x41]]
    [] (be_bytes 4 0) [] "eof") as (_ & Hr & _);
    [vm_compute; congruence | repeat constructor | reflexivity | apply (Hr [Byte.x00])].
Defined.

(** C39. The strict reader accepts exactly the documents that are valid UTF-8,
    parse as a duplicate-free float-free value, decode into the destination
    type, and of which no member at any depth is missing from the decoded
    value's own serialization; an [UnknownFields] error lists exactly the JSON
    pointers of the members that are. *)
Theorem strict_json_exact `{Deps, Serialize T, !Decode T} b :
  (forall x : T, strict_json_from_slice b = Ok x <->
     utf8_valid b = true /\ exists v, parse_strict_value b = Ok v /\ from_value v = inr x /\
       forall segs, ~ ignored v (canon (to_value x)) segs) /\
  (forall l, strict_json_from_slice (T := T) b = Err (UnknownFields l) ->
     exists v (x : T), parse_strict_value b = Ok v /\ from_value v = inr x /\ l <> [] /\
       forall s, s ∈ l <->
         exists segs, ignored v (canon (to_value x)) segs /\ s = render EmptyString segs).
Proof. split; [apply strict_json_accepts | apply strict_json_unknown]. Qed.

(** A value that is framed as canonical JSON is read back as itself, when its
    decoder inverts its serializer and the canonical text is UTF-8. *)
Theorem json_frame_roundtrip `{JcsLaws, Serialize T, !Decode T} c (x : T) b :
  codec_ok c -> ijson (to_value x) = true -> from_value (canon (to_value x)) = inr x ->
  jcs_to_vec (to_value x) = inr b -> utf8_valid b = true -> (Z.of_nat (length b) <= maximum c)%Z ->
  exists f, encode_json c x = Ok f /\ decode_json c f = Ok x.
Proof.
  intros Hc Hx Hd Hb Hu Hl. destruct (canonical_json_ijson x Hx) as (b' & Hb' & Hj).
  assert (b' = b) as -> by congruence. exists (be_bytes 4 (Z.of_nat (length b)) ++ b).
  unfold encode_json, decode_json. rewrite Hj. cbn [res_bind]. split; [by apply encode_frame_ok|].
  apply res_bind_ok. exists b. split; [by apply decode_frame_ok | by apply strict_json_canonical].
Qed.

Lemma json_frame_roundtrip_witness :
  exists f, encode_json FrameCodec_default (mkRequestId "request-1") = Ok f /\
            decode_json FrameCodec_default f = Ok (mkRequestId "request-1").
Proof.
  apply (json_frame_roundtrip FrameCodec_default (mkRequestId "request-1") (toy_encoding (mkRequestId "request-1")));
    vm_compute; first [reflexivity | congruence].
Defined.

(** A request envelope binds its body: a constructed envelope validates;
    validation succeeds exactly for the current version and the digest of the
    body; two validated requests with one digest carry the same body, or exhibit
    a hash collision; and a response is accepted for a request exactly when it
    echoes that request's version, identifier and digest. *)
Theorem request_envelope_binds `{JcsLaws, !HexLaws, !Sha256Laws, SerializeInj T} {U}
    (r r' : RequestEnvelopeV1 T) b b' :
  encodes (rq_body r) b -> encodes (rq_body r') b' ->
  (forall id, exists q, RequestEnvelopeV1_new id (rq_body r) = Ok q /\ request_validate q = Ok tt /\
     rq_body q = rq_body r /\ ec_request_id (rq_echo q) = id) /\
  (request_validate r = Ok tt <->
     ec_protocol_version (rq_echo r) = version_current /\
     ec_request_digest (rq_echo r) = hash_domain REQUEST_DOMAIN b) /\
  (request_validate r = Ok tt -> request_validate r' = Ok tt ->
     ec_request_digest (rq_echo r) = ec_request_digest (rq_echo r') ->
     rq_body r = rq_body r' \/ collision (domain_preimage REQUEST_DOMAIN b) (domain_preimage REQUEST_DOMAIN b')) /\
  (forall s : ResponseEnvelopeV1 U, validate_echo s r = Ok tt <-> s = for_request r (rs_body s)).
Proof.
  intros Hb Hb'. split_all.
  - intros id. eexists. unfold RequestEnvelopeV1_new. rewrite (canonical_json_digest_ok _ _ b Hb).
    split_all; [done | by apply (request_validate_ok _ b) | done | done].
  - by apply request_validate_ok.
  - rewrite (request_validate_ok r b Hb), (request_validate_ok r' b' Hb'). intros [_ Hd] [_ Hd'] He.
    rewrite Hd, Hd' in He. destruct Hb as (Hx & Hbx & Hl), Hb' as (Hy & Hby & Hl').
    destruct (hash_domain_binds REQUEST_DOMAIN b REQUEST_DOMAIN b') as [[_ <-]|Hc]; try done; [|by right].
    left. by apply to_value_inj, (canon_injective_encoding _ _ b).
  - intros [e body]. unfold validate_echo, for_request. rewrite guard_ok, negb_bool_decide_false. simpl.
    split; [by intros [-> _] | by intros [= ->]].
Qed.

Lemma request_envelope_binds_witness :
  let body := mkRequestId "body" in
  let r := mkRequest (mkEcho version_current (mkRequestId "a") (hash_domain REQUEST_DOMAIN (toy_encoding body))) body in
  request_validate r = Ok tt.
Proof.
  intros body r.
  destruct (request_envelope_binds (U := unit) r r (toy_encoding body) (toy_encoding body)) as (_ & Hv & _);
    [toy_encoded | toy_encoded | apply Hv; split; reflexivity].
Defined.
