(* ===== verification/Paths.v ===== *)
(** * Paths, references and object names (ag-effect/src/lib.rs)

    The syntactic gates of the effect catalog: absolute roots, relative
    repository paths, Git references, Git object names and target identifiers,
    with the part of [std::path] they use.  The theorems say which texts the
    path gates accept. *)

From S2P Require Import Prelude.

(** ** Segments of a text between slashes *)

(** [str::split('/')]. *)
Fixpoint split_slash (s : string) : list string :=
  match s with
  | EmptyString => [EmptyString]
  | String c s' =>
      if Ascii.eqb c "/" then EmptyString :: split_slash s'
      else match split_slash s' with
           | seg :: rest => String c seg :: rest
           | [] => [String c EmptyString]
           end
  end.

Fixpoint join_slash (l : list string) : string :=
  match l with
  | [] => EmptyString
  | [s] => s
  | s :: l' => s +:+ "/" +:+ join_slash l'
  end.

Definition slash_free (s : string) : bool := str_all (fun c => negb (Ascii.eqb c "/")) s.

(** ** [std::path::Path] on Unix *)

Inductive Component : Type := RootDir | CurDir | ParentDir | Normal (s : string).
#[global] Instance Component_eq_dec : EqDecision Component.
Proof. solve_decision. Defined.

(** One segment after the start: empty segments and [.] vanish. *)
Definition segment_component (s : string) : list Component :=
  if String.eqb s EmptyString then [] else if String.eqb s "." then []
  else if String.eqb s ".." then [ParentDir] else [Normal s].

(** [Path::components]: a leading [.] of a relative path is kept. *)
Definition components (s : string) : list Component :=
  if starts_with s "/" then RootDir :: flat_map segment_component (split_slash s)
  else match split_slash s with
  | first :: rest =>
      (if String.eqb first "." then [CurDir] else segment_component first)
      ++ flat_map segment_component rest
  | [] => []
  end.

(** [Path::is_absolute], [Path]'s equality and [Path::starts_with]. *)
Definition is_absolute (s : string) : bool := starts_with s "/".
Definition path_eq (a b : string) : bool := components a == components b.
Definition path_starts_with (path base : string) : bool :=
  take (length (components base)) (components path) == components base.

(** ** The gates *)

Definition is_nul (c : ascii) : bool := (code c =? 0)%Z.
Definition root_component (c : Component) : bool :=
  match c with RootDir | Normal _ => true | _ => false end.
Definition normal_component (c : Component) : bool := match c with Normal _ => true | _ => false end.

(** [is_canonical_absolute_root].  The slice [value[1..]] is only evaluated on a
    text that starts with a slash. *)
Definition is_canonical_absolute_root (value : string) : bool :=
  is_absolute value
  && negb (path_eq value "/")
  && negb (ends_with value "/")
  && negb (contains (str_drop 1 value) "//")
  && negb (contains value "/./")
  && negb (ends_with value "/.")
  && str_all (fun c => negb (is_nul c)) value
  && forallb root_component (components value).

(** [is_canonical_relative_path]. *)
Definition is_canonical_relative_path (value : string) : bool :=
  (value != EmptyString)
  && negb (is_absolute value)
  && negb (starts_with value "./")
  && negb (ends_with value "/")
  && negb (ends_with value "/.")
  && negb (contains value "//")
  && negb (contains value "/./")
  && str_all (fun c => negb (is_nul c)) value
  && forallb normal_component (components value).

Definition git_reference_char (c : ascii) : bool :=
  negb (is_ascii_control c) && negb (one_of " ~^:?*[\" c).

(** [is_canonical_git_reference]. *)
Definition is_canonical_git_reference (value : string) : bool :=
  starts_with value "refs/"
  && negb (ends_with value "/")
  && negb (ends_with value ".")
  && negb (ends_with value ".lock")
  && negb (contains value "..")
  && negb (contains value "@{")
  && negb (contains value "//")
  && str_all git_reference_char value.

(** [enum GitObjectFormatV1] and [object_name_length]. *)
Inductive GitObjectFormatV1 : Type := Sha1 | Sha256.
#[global] Instance GitObjectFormatV1_eq_dec : EqDecision GitObjectFormatV1.
Proof. solve_decision. Defined.
Definition object_name_length (f : GitObjectFormatV1) : nat := match f with Sha1 => 40 | Sha256 => 64 end.

(** The characters of an object name: a digit or [a]..[f]. *)
Definition is_object_char (c : ascii) : bool :=
  is_ascii_digit c || ((97 <=? code c)%Z && (code c <=? 102)%Z).

(** The test of [validate_git_object]. *)
Definition is_git_object (value : string) (f : GitObjectFormatV1) : bool :=
  (String.length value == object_name_length f) && str_all is_object_char value.

(** ** Strings *)

Lemma str_app_cons c a b : String c a +:+ b = String c (a +:+ b).
Proof. done. Qed.
Lemma str_app_empty b : EmptyString +:+ b = b.
Proof. done. Qed.
Lemma str_app_assoc a b c : (a +:+ b) +:+ c = a +:+ (b +:+ c).
Proof. induction a as [|d a IH]; [done|]. by rewrite !str_app_cons, IH. Qed.
Lemma str_all_app p a b : str_all p (a +:+ b) = str_all p a && str_all p b.
Proof.
  unfold str_all. induction a as [|c a IH]; [done|]. rewrite str_app_cons. simpl. rewrite IH. by rewrite andb_assoc.
Qed.

Lemma contains_spec s p : contains s p = true <-> exists a b, s = a +:+ p +:+ b.
Proof.
  induction s as [|c s IH]; simpl; rewrite orb_true_iff.
  - rewrite (starts_with_spec EmptyString p : String.prefix p EmptyString = true <-> _). split.
    + intros [[t Ht]|]; [by exists EmptyString, t | done].
    + intros ([|] & b & Hs); [left; by exists b | done].
  - rewrite IH, (starts_with_spec (String c s) p : String.prefix p (String c s) = true <-> _). split.
    + intros [[t ->]|(a & b & ->)]; [by exists EmptyString, t | by exists (String c a), b].
    + intros ([|d a] & b & Hs); simpl in Hs; [left; by exists b|].
      injection Hs as -> ->. right. by exists a, b.
Qed.

Lemma substring_full s : String.substring 0 (String.length s) s = s.
Proof. induction s; simpl; congruence. Qed.
Lemma substring_drop n s : String.substring n (String.length s - n) s = str_drop n s.
Proof.
  revert n. induction s as [|c s IH]; intros [|n]; [done|done| |].
  - rewrite Nat.sub_0_r. apply substring_full.
  - apply IH.
Qed.
Lemma str_drop_split n s : n <= String.length s -> exists a, s = a +:+ str_drop n s /\ String.length a = n.
Proof.
  revert s. induction n as [|n IH]; intros s Hn.
  - exists EmptyString. by destruct s.
  - destruct s as [|c s]; simpl in Hn; [lia|]. destruct (IH s) as (a & Ha & Hl); [lia|].
    exists (String c a). simpl. by rewrite Hl, Ha at 1.
Qed.

Lemma ends_with_spec s p : ends_with s p = true <-> exists a, s = a +:+ p.
Proof.
  unfold ends_with. rewrite andb_true_iff, String.eqb_eq, Nat.leb_le. split.
  - intros [He Hl]. destruct (str_drop_split (String.length s - String.length p) s) as (a & Ha & _); [lia|].
    rewrite <- substring_drop in Ha.
    replace (String.length s - (String.length s - String.length p)) with (String.length p) in Ha by lia.
    rewrite He in Ha. by exists a.
  - intros [a ->]. rewrite str_length_app. split; [|lia].
    pose proof (substring_drop (String.length a) (a +:+ p)) as Hd.
    rewrite str_length_app, str_drop_app in Hd.
    replace (String.length a + String.length p - String.length p) with (String.length a) by lia.
    by replace (String.length a + String.length p - String.length a) with (String.length p) in Hd by lia.
Qed.

(** ** Splitting and joining *)

Lemma split_slash_nonempty s : split_slash s <> [].
Proof. destruct s as [|c s]; simpl; [done|]. by destruct (Ascii.eqb c "/"), (split_slash s). Qed.

Lemma split_slash_app a b : split_slash (a +:+ "/" +:+ b) = split_slash a ++ split_slash b.
Proof.
  induction a as [|c a IH]; [done|]. rewrite str_app_cons. simpl. rewrite IH. destruct (Ascii.eqb c "/"); [done|].
  pose proof (split_slash_nonempty a). by destruct (split_slash a).
Qed.

Lemma split_slash_free s : slash_free s = true -> split_slash s = [s].
Proof.
  unfold slash_free, str_all. induction s as [|c s IH]; [done|]. simpl.
  rewrite andb_true_iff, negb_true_iff. intros [-> Hs]. by rewrite IH.
Qed.

Lemma join_split s : join_slash (split_slash s) = s.
Proof.
  induction s as [|c s IH]; [done|]. simpl. pose proof (split_slash_nonempty s) as Hn.
  destruct (Ascii.eqb_spec c "/") as [->|_]; destruct (split_slash s) as [|x l]; try done; simpl in *.
  - by rewrite IH.
  - destruct l; by rewrite <- IH.
Qed.

Lemma split_slash_segments s : Forall (fun x => slash_free x = true) (split_slash s).
Proof.
  induction s as [|c s IH]; simpl; [by constructor|].
  destruct (Ascii.eqb c "/") eqn:Hc; [by constructor|].
  destruct (split_slash s) as [|x l]; repeat constructor; inversion IH; subst; try done;
    unfold slash_free, str_all in *; simpl; by rewrite Hc.
Qed.

Lemma join_slash_app a b : a <> [] -> b <> [] -> join_slash (a ++ b) = join_slash a +:+ "/" +:+ join_slash b.
Proof.
  intros Ha Hb. induction a as [|x [|y a] IH]; [done| |].
  - by destruct b.
  - change ((x :: y :: a) ++ b) with (x :: (y :: a) ++ b).
    change (join_slash (x :: (y :: a) ++ b)) with (x +:+ "/" +:+ join_slash ((y :: a) ++ b)).
    rewrite IH by done. simpl join_slash at 3. by rewrite !str_app_assoc.
Qed.

Lemma split_join l : l <> [] -> Forall (fun x => slash_free x = true) l -> split_slash (join_slash l) = l.
Proof.
  intros Hl. induction 1 as [|x [|y l] Hx Hf IH]; [done | by apply split_slash_free |].
  change (join_slash (x :: y :: l)) with (x +:+ "/" +:+ join_slash (y :: l)).
  by rewrite split_slash_app, IH, split_slash_free.
Qed.

Lemma contains_segment s m :
  slash_free m = true ->
  contains s ("/" +:+ m +:+ "/") = true <-> exists a b, a <> [] /\ b <> [] /\ split_slash s = a ++ m :: b.
Proof.
  intros Hm. rewrite contains_spec. split.
  - intros (a & b & ->). exists (split_slash a), (split_slash b). split_all; try apply split_slash_nonempty.
    rewrite (str_app_assoc "/"), (str_app_assoc m), split_slash_app, split_slash_app.
    by rewrite (split_slash_free m).
  - intros (a & b & Ha & Hb & Hs). exists (join_slash a), (join_slash b).
    rewrite <- (join_split s), Hs. rewrite join_slash_app by done.
    change (m :: b) with ([m] ++ b). rewrite join_slash_app by done.
    change (join_slash [m]) with m. by rewrite (str_app_assoc "/"), (str_app_assoc m).
Qed.

Lemma ends_segment s m :
  slash_free m = true ->
  ends_with s ("/" +:+ m) = true <-> exists a, a <> [] /\ split_slash s = a ++ [m].
Proof.
  intros Hm. rewrite ends_with_spec. split.
  - intros (a & ->). exists (split_slash a). split; [apply split_slash_nonempty|].
    by rewrite split_slash_app, (split_slash_free m).
  - intros (a & Ha & Hs). exists (join_slash a).
    rewrite <- (join_split s), Hs. by rewrite join_slash_app.
Qed.

(** ** What the gates accept *)

(** A segment that names something: not empty, not [.] or [..], no slash, no
    zero byte. *)
Definition plain_segment (s : string) : Prop :=
  s <> EmptyString /\ s <> "." /\ s <> ".." /\ slash_free s = true /\ str_all (fun c => negb (is_nul c)) s = true.

Definition names (s : string) : Prop := s <> EmptyString /\ s <> ".".

Lemma no_segment {A} (P : list A -> list A -> Prop) (b : bool) :
  (b = true <-> exists x y, P x y) -> b = false <-> forall x y, ~ P x y.
Proof.
  intros Hb. destruct b; split; try done.
  - intros Hn. destruct (proj1 Hb eq_refl) as (x & y & Hp). by destruct (Hn x y).
  - intros _ x y Hp. assert (false = true) by (apply Hb; eauto). done.
Qed.

Lemma no_contains s m : slash_free m = true ->
  contains s ("/" +:+ m +:+ "/") = false <->
  forall a b, ~ (a <> [] /\ b <> [] /\ split_slash s = a ++ m :: b).
Proof. intros Hm. by apply no_segment, contains_segment. Qed.

Lemma no_ends s m : slash_free m = true ->
  ends_with s ("/" +:+ m) = false <-> forall a : list string, ~ (a <> [] /\ split_slash s = a ++ [m]).
Proof.
  intros Hm. pose proof (ends_segment s m Hm) as He. destruct (ends_with s ("/" +:+ m)); split; try done.
  - intros Hn. destruct (proj1 He eq_refl) as (a & Ha). by destruct (Hn a).
  - intros _ a Ha. assert (false = true) by (apply He; eauto). done.
Qed.

(** The four textual tests together speak of the segments after the first. *)
Lemma tail_gate v first rest :
  split_slash v = first :: rest ->
  (ends_with v "/" = false /\ ends_with v "/." = false /\ contains v "//" = false /\ contains v "/./" = false)
  <-> Forall names rest.
Proof.
  intros Hv. pose proof (no_ends v EmptyString eq_refl) as H1. pose proof (no_ends v "." eq_refl) as H2.
  pose proof (no_contains v EmptyString eq_refl) as H3. pose proof (no_contains v "." eq_refl) as H4.
  simpl in H1, H2, H3, H4. rewrite H1, H2, H3, H4, Hv. clear. split.
  - intros (He & Hd & Ce & Cd). apply Forall_forall. intros x (a & b & ->)%list_elem_of_split.
    split; intros ->; destruct b as [|y b];
      [apply (He (first :: a)) | apply (Ce (first :: a) (y :: b))
      |apply (Hd (first :: a)) | apply (Cd (first :: a) (y :: b))]; done.
  - intros Hf.
    assert (forall m a b, a <> [] -> first :: rest = a ++ m :: b -> names m) as Hm.
    { intros m [|z a] b Ha [= -> ->]; [done|]. rewrite Forall_app, Forall_cons in Hf. tauto. }
    split_all; [intros a [Ha Hs] | intros a [Ha Hs] | intros a b (Ha & _ & Hs) | intros a b (Ha & _ & Hs)];
      destruct (Hm _ _ _ Ha Hs); done.
Qed.

Lemma is_absolute_cons s : is_absolute s = true <-> exists t, s = String "/" t.
Proof. unfold is_absolute. rewrite starts_with_spec. done. Qed.

Lemma segment_components_normal l :
  forallb normal_component (flat_map segment_component l) = true <-> Forall (fun x => x <> "..") l.
Proof.
  induction l as [|x l IH]; simpl; [by split|]. rewrite forallb_app, andb_true_iff, IH, Forall_cons.
  apply and_iff_compat_r. unfold segment_component.
  destruct (String.eqb_spec x EmptyString) as [->|]; [done|].
  destruct (String.eqb_spec x ".") as [->|]; [done|]. by destruct (String.eqb_spec x "..") as [->|].
Qed.

Lemma segment_components_root l :
  forallb root_component (flat_map segment_component l) = forallb normal_component (flat_map segment_component l).
Proof.
  induction l as [|x l IH]; simpl; [done|]. rewrite !forallb_app, IH. f_equal. unfold segment_component.
  by destruct (String.eqb x EmptyString), (String.eqb x "."), (String.eqb x "..").
Qed.

Lemma plain_components l : Forall plain_segment l -> flat_map segment_component l = map Normal l.
Proof.
  induction 1 as [|x l (He & Hd & Hdd & _) Hl IH]; [done|]. simpl. rewrite IH. unfold segment_component.
  destruct (String.eqb_spec x EmptyString); [done|]. destruct (String.eqb_spec x "."); [done|].
  by destruct (String.eqb_spec x "..").
Qed.

Lemma str_all_segments p l :
  p "/"%char = true -> str_all p (join_slash l) = true <-> Forall (fun x => str_all p x = true) l.
Proof.
  intros Hp. induction l as [|x [|y l] IH]; [by split | by rewrite Forall_singleton |].
  change (join_slash (x :: y :: l)) with (x +:+ "/" +:+ join_slash (y :: l)).
  rewrite !str_all_app, !andb_true_iff, IH, (Forall_cons _ x). unfold str_all at 2. simpl. rewrite Hp. tauto.
Qed.

Lemma plain_slash_free l : Forall plain_segment l -> Forall (fun x => slash_free x = true) l.
Proof. intros Hl. eapply Forall_impl; [exact Hl|]. by intros x (_ & _ & _ & ? & _). Qed.
Lemma plain_no_nul l : Forall plain_segment l -> Forall (fun x => str_all (fun c => negb (is_nul c)) x = true) l.
Proof. intros Hl. eapply Forall_impl; [exact Hl|]. by intros x (_ & _ & _ & _ & ?). Qed.
Lemma plain_names l : Forall plain_segment l -> Forall names l.
Proof. intros Hl. eapply Forall_impl; [exact Hl|]. by intros x (? & ? & _). Qed.
Lemma plain_no_parent l : Forall plain_segment l -> Forall (fun x => x <> "..") l.
Proof. intros Hl. eapply Forall_impl; [exact Hl|]. by intros x (_ & _ & ? & _). Qed.
Lemma plain_intro l :
  Forall names l -> Forall (fun x => x <> "..") l -> Forall (fun x => slash_free x = true) l ->
  Forall (fun x => str_all (fun c => negb (is_nul c)) x = true) l -> Forall plain_segment l.
Proof.
  rewrite !Forall_forall. intros H1 H2 H3 H4 x Hx. destruct (H1 x Hx). unfold plain_segment. eauto 10.
Qed.

Lemma relative_components first rest :
  forallb normal_component
    ((if String.eqb first "." then [CurDir] else segment_component first) ++ flat_map segment_component rest) = true
  <-> first <> "." /\ Forall (fun x => x <> "..") (first :: rest).
Proof.
  rewrite forallb_app, andb_true_iff, segment_components_normal, Forall_cons.
  destruct (String.eqb_spec first ".") as [->|Hd]; [simpl; intuition congruence|].
  pose proof (segment_components_normal [first]) as Hs. simpl in Hs. rewrite app_nil_r, Forall_singleton in Hs.
  rewrite Hs. tauto.
Qed.

Lemma starts_with_segment v m :
  starts_with v (m +:+ "/") = true -> slash_free m = true -> exists rest, split_slash v = m :: rest.
Proof.
  rewrite starts_with_spec. intros [t ->] Hm. rewrite str_app_assoc, split_slash_app, split_slash_free by done.
  by exists (split_slash t).
Qed.

(** The relative gate accepts exactly the joins of plain segments. *)
Lemma relative_path_spec v :
  is_canonical_relative_path v = true <->
  exists segs, segs <> [] /\ Forall plain_segment segs /\ v = join_slash segs.
Proof.
  unfold is_canonical_relative_path. rewrite !andb_true_iff, !negb_true_iff, bool_decide_eq_false. split.
  - intros ((((((((Hne & Ha) & _) & He) & Hd) & Ce) & Cd) & Hn) & Hc).
    exists (split_slash v). split_all; [apply split_slash_nonempty | | by rewrite join_split].
    pose proof (split_slash_segments v) as Hf. rewrite <- (join_split v) in Hn. apply str_all_segments in Hn; [|done].
    unfold components in Hc. rewrite (Ha : starts_with v "/" = false) in Hc.
    destruct (split_slash v) as [|first rest] eqn:Hv; [by apply split_slash_nonempty in Hv|].
    apply relative_components in Hc as [Hfd Hp].
    apply plain_intro; try done. constructor; [|by apply (tail_gate v first)]. split; [|done]. intros ->.
    destruct rest as [|y rest]; pose proof (join_split v) as Hj; rewrite Hv in Hj; [by subst|].
    assert (is_absolute v = true) by (apply is_absolute_cons; eexists; by rewrite <- Hj). congruence.
  - intros (segs & Hs & Hf & ->). destruct segs as [|first rest]; [done|].
    pose proof (plain_slash_free _ Hf) as Hsf. pose proof (split_join _ Hs Hsf) as Hv.
    destruct (proj2 (tail_gate _ _ _ Hv)) as (He & Hd & Ce & Cd).
    { apply plain_names in Hf. by inversion Hf. }
    set (v := join_slash (first :: rest)) in *. inversion Hf as [|? ? (Hfe & Hfd & _) _]; subst.
    assert (is_absolute v = false) as Ha.
    { apply not_true_is_false. intros (t & Ht)%is_absolute_cons. rewrite Ht in Hv. simpl in Hv. congruence. }
    split_all; try done.
    + intros Hv0. rewrite Hv0 in Hv. simpl in Hv. congruence.
    + apply not_true_is_false. intros (r & Hr)%(starts_with_segment v "."); [|done]. congruence.
    + apply str_all_segments; [done|]. by apply plain_no_nul.
    + unfold components. rewrite (Ha : starts_with v "/" = false), Hv. apply relative_components.
      split; [done | by apply plain_no_parent].
Qed.

(** The tests of the absolute gate: the doubled slash is looked for after the
    first character only. *)
Lemma root_gate t first rest :
  split_slash t = first :: rest ->
  (ends_with (String "/" t) "/" = false /\ contains t "//" = false /\
   contains (String "/" t) "/./" = false /\ ends_with (String "/" t) "/." = false)
  <-> Forall names rest /\ first <> "." /\ (first = EmptyString -> rest <> []).
Proof.
  intros Ht. set (v := String "/" t).
  pose proof (no_ends v EmptyString eq_refl) as H1. pose proof (no_ends v "." eq_refl) as H2.
  pose proof (no_contains t EmptyString eq_refl) as H3. pose proof (no_contains v "." eq_refl) as H4.
  change (split_slash v) with (EmptyString :: split_slash t) in *.
  change ("/" +:+ EmptyString +:+ "/") with "//" in H3. change ("/" +:+ "." +:+ "/") with "/./" in H4.
  change ("/" +:+ EmptyString) with "/" in H1. change ("/" +:+ ".") with "/." in H2.
  rewrite H1, H2, H3, H4, Ht. clear. split.
  - intros (He & Ce & Cd & Hd). split_all.
    + apply Forall_forall. intros x (a & b & ->)%list_elem_of_split. split; intros ->; destruct b as [|y b];
        [apply (He (EmptyString :: first :: a)) | apply (Ce (first :: a) (y :: b))
        |apply (Hd (EmptyString :: first :: a)) | apply (Cd (EmptyString :: first :: a) (y :: b))]; done.
    + intros ->. destruct rest as [|y rest]; [by apply (Hd [EmptyString]) | by apply (Cd [EmptyString] (y :: rest))].
    + intros -> ->. by apply (He [EmptyString]).
  - intros (Hf & Hdot & Hempty).
    assert (forall m a b, a <> [] -> first :: rest = a ++ m :: b -> names m) as Hm.
    { intros m [|z a] b Ha [= -> ->]; [done|]. rewrite Forall_app, Forall_cons in Hf. tauto. }
    assert (forall m a b, a <> [] -> EmptyString :: first :: rest = a ++ m :: b ->
      names m \/ m = first /\ b = rest) as Hv.
    { intros m [|z [|y a]] b Ha Hs; [done | injection Hs as <- <- <-; by right |].
      injection Hs as <- <- Hs. left. apply (Hm m (first :: a) b); [done|]. by rewrite Hs. }
    split_all; [intros a [Ha Hs] | intros a b (Ha & Hb & Hs) | intros a b (Ha & Hb & Hs) | intros a [Ha Hs]].
    + destruct (Hv _ _ _ Ha Hs) as [[]|[<- <-]]; [done|]. by apply Hempty.
    + by destruct (Hm _ _ _ Ha Hs).
    + destruct (Hv _ _ _ Ha Hs) as [[]|[<- <-]]; done.
    + destruct (Hv _ _ _ Ha Hs) as [[]|[<- <-]]; done.
Qed.

Lemma components_root t : components (String "/" t) = RootDir :: flat_map segment_component (split_slash t).
Proof. by destruct t. Qed.

(** The absolute gate accepts the joins of plain segments behind one slash, and
    also behind two. *)
Lemma absolute_root_spec v :
  is_canonical_absolute_root v = true <->
  exists segs, segs <> [] /\ Forall plain_segment segs /\
    (v = "/" +:+ join_slash segs \/ v = "//" +:+ join_slash segs).
Proof.
  unfold is_canonical_absolute_root. rewrite !andb_true_iff, !negb_true_iff. split.
  - intros (((((((Ha & Hp) & He) & Ce) & Cd) & Hd) & Hn) & Hc).
    apply is_absolute_cons in Ha as [t ->]. rewrite components_root in Hc.
    change (forallb root_component (flat_map segment_component (split_slash t)) = true) in Hc.
    rewrite segment_components_root, segment_components_normal in Hc.
    pose proof (split_slash_segments t) as Hf. pose proof (join_split t) as Hj.
    change (str_all (fun c => negb (is_nul c)) t = true) in Hn.
    rewrite <- Hj in Hn. apply str_all_segments in Hn; [|done].
    destruct (split_slash t) as [|first rest] eqn:Ht; [by apply split_slash_nonempty in Ht|].
    destruct (proj1 (root_gate t first rest Ht)) as (Hr & Hdot & Hempty); [done|].
    destruct (decide (first = EmptyString)) as [->|Hne].
    + exists rest. apply Forall_cons in Hf as [_ Hf], Hn as [_ Hn], Hc as [_ Hc].
      split_all; [by apply Hempty | by apply plain_intro|]. right. rewrite <- Hj.
      destruct rest; [by destruct Hempty | done].
    + exists (first :: rest). split_all; [done | | left; by rewrite Hj]. apply plain_intro; try done.
      by constructor.
  - intros (segs & Hs & Hf & Hv).
    assert (exists t, v = String "/" t /\ exists first rest, split_slash t = first :: rest /\
      Forall names rest /\ first <> "." /\ (first = EmptyString -> rest <> []) /\
      flat_map segment_component (split_slash t) = map Normal segs /\
      str_all (fun c => negb (is_nul c)) t = true) as (t & -> & first & rest & Ht & Hr & Hdot & Hempty & Hc & Hn).
    { pose proof (split_join _ Hs (plain_slash_free _ Hf)) as Hj.
      assert (str_all (fun c => negb (is_nul c)) (join_slash segs) = true) as Hn
        by (apply str_all_segments; [done | by apply plain_no_nul]).
      destruct Hv as [->| ->].
      - exists (join_slash segs). split; [done|]. destruct segs as [|x l]; [done|]. exists x, l.
        inversion Hf as [|? ? (Hxe & Hxd & _) Hl]; subst. rewrite Hj, plain_components by done.
        split_all; try done. by apply plain_names.
      - exists ("/" +:+ join_slash segs). split; [done|]. exists EmptyString, segs.
        change (split_slash ("/" +:+ join_slash segs)) with (EmptyString :: split_slash (join_slash segs)).
        rewrite Hj. simpl. rewrite plain_components by done. split_all; try done. by apply plain_names. }
    destruct (proj2 (root_gate t first rest Ht)) as (He & Ce & Cd & Hd); [done|].
    assert (components (String "/" t) = RootDir :: map Normal segs) as Hcomp
      by (by rewrite components_root, Hc).
    split_all; try done; [apply is_absolute_cons; by eexists | |].
    + unfold path_eq. apply bool_decide_eq_false. rewrite Hcomp. by destruct segs.
    + rewrite Hcomp. simpl. clear. by induction segs.
Qed.

(** Both spellings of an accepted root have the same components. *)
Lemma root_components segs :
  segs <> [] -> Forall plain_segment segs ->
  components ("/" +:+ join_slash segs) = RootDir :: map Normal segs /\
  components ("//" +:+ join_slash segs) = RootDir :: map Normal segs.
Proof.
  intros Hs Hf. pose proof (split_join _ Hs (plain_slash_free _ Hf)) as Hj.
  change ("/" +:+ join_slash segs) with (String "/" (join_slash segs)).
  change ("//" +:+ join_slash segs) with (String "/" (String "/" (join_slash segs))).
  rewrite !components_root, Hj. simpl split_slash. rewrite Hj. simpl. by rewrite plain_components.
Qed.

Lemma take_prefix {A} `{EqDecision A} (a b : list A) : take (length a) b = a <-> a `prefix_of` b.
Proof.
  split.
  - intros Ht. exists (drop (length a) b). rewrite <- Ht at 1. by rewrite take_drop.
  - intros [k ->]. by rewrite take_app_length.
Qed.

Lemma prefix_map {A B} (f : A -> B) (a b : list A) :
  (forall x y, f x = f y -> x = y) -> map f a `prefix_of` map f b <-> a `prefix_of` b.
Proof.
  intros Hf. split.
  - revert b. induction a as [|x a IH]; intros b Hp; [by apply prefix_nil|].
    destruct b as [|y b]; [by apply prefix_nil_inv in Hp|]. simpl in Hp.
    pose proof (prefix_cons_inv_1 _ _ _ _ Hp) as ->%Hf. apply prefix_cons_inv_2 in Hp.
    by apply prefix_cons, IH.
  - intros [k ->]. rewrite map_app. by eexists.
Qed.

Lemma starts_with_roots a b sa sb :
  components a = RootDir :: map Normal sa -> components b = RootDir :: map Normal sb ->
  path_starts_with b a = true <-> sa `prefix_of` sb.
Proof.
  intros Ha Hb. unfold path_starts_with. rewrite bool_decide_eq_true, take_prefix, Ha, Hb. split.
  - intros Hp%prefix_cons_inv_2. apply (prefix_map Normal); [by intros x y [=] | done].
  - intros Hp. apply prefix_cons. by apply prefix_map; [intros x y [=]|].
Qed.

(** ** The properties *)

(** The path gates accept exactly the normal spellings: a relative path
    passes exactly when it is a slash-separated list of segments none of which
    is empty, [.], [..] or holds a zero byte; an absolute root passes exactly
    when such a list follows one slash, or two; and for accepted roots the
    containment test [Path::starts_with] is exactly the prefix order on the
    segments, whichever of the two spellings each has. *)
Theorem path_gates_exact :
  (forall v, is_canonical_relative_path v = true <->
     exists segs, segs <> [] /\ Forall plain_segment segs /\ v = join_slash segs) /\
  (forall v, is_canonical_absolute_root v = true <->
     exists segs, segs <> [] /\ Forall plain_segment segs /\
       (v = "/" +:+ join_slash segs \/ v = "//" +:+ join_slash segs)) /\
  (forall a b, is_canonical_absolute_root a = true -> is_canonical_absolute_root b = true ->
     exists sa sb, components a = RootDir :: map Normal sa /\ components b = RootDir :: map Normal sb /\
       (path_starts_with b a = true <-> sa `prefix_of` sb)).
Proof.
  split_all; [apply relative_path_spec | apply absolute_root_spec |].
  intros a b (sa & Hsa & Hfa & Ha)%absolute_root_spec (sb & Hsb & Hfb & Hb)%absolute_root_spec.
  pose proof (root_components sa Hsa Hfa) as [Ha1 Ha2]. pose proof (root_components sb Hsb Hfb) as [Hb1 Hb2].
  assert (components a = RootDir :: map Normal sa) as Hca by (by destruct Ha as [->| ->]).
  assert (components b = RootDir :: map Normal sb) as Hcb by (by destruct Hb as [->| ->]).
  exists sa, sb. split_all; [done | done | by apply starts_with_roots].
Qed.

(** A root spelled with two leading slashes passes the gate although a one-slash
    spelling of the same path does too: the doubled-slash test starts at the
    second character. *)
Lemma double_slash_root_accepted :
  is_canonical_absolute_root "//srv/git" = true /\ is_canonical_absolute_root "/srv/git" = true /\
  path_eq "//srv/git" "/srv/git" = true.
Proof. by vm_compute. Qed.
