(* ===== verification/Effect.v ===== *)
(** * Effect proposals: data and prepared candidates (ag-effect/src/lib.rs)

    The untrusted intents, the root-owned catalog, the broker's observations,
    the canonical effects and proposal bodies, and the four linked preparation
    records of a managed-pointer candidate with their identities.  Struct
    variants with many fields carry a record.  A [BTreeSet] is the list of its
    elements in order, a [BTreeMap<TargetId, _>] the list of its entries in
    order of the target's text. *)

From S2P Require Import Prelude Wire Fixture Digest Names Origin Capability Identity Paths.

Definition EFFECT_SCHEMA_V1 : string := "ag.effect/v1".
Definition EFFECT_CATALOG_SCHEMA_V1 : string := "ag.effect-catalog/v1".
Definition MANAGED_POINTER_PROMOTION_SCHEMA_V2 : string := "ag.managed-pointer-promotion/v2".
Definition MANAGED_POINTER_EXACT_BASIS_SCHEMA_V1 : string := "ag.managed-pointer.exact-basis/v1".
Definition MANAGED_POINTER_COMPLETE_INPUTS_SCHEMA_V1 : string := "ag.managed-pointer.complete-inputs/v1".
Definition MANAGED_POINTER_PREPARATION_STANDING_SCHEMA_V1 : string :=
  "ag.managed-pointer.preparation-standing-receipt/v1".
Definition MANAGED_POINTER_PREPARATION_EFFECTS_SCHEMA_V1 : string := "ag.managed-pointer.preparation-effects/v1".
Definition MANAGED_POINTER_CANDIDATE_PREPARATION_SCHEMA_V1 : string :=
  "ag.managed-pointer.candidate-preparation/v1".
Definition MANAGED_POINTER_PREPARED_CANDIDATE_SCHEMA_V1 : string := "ag.managed-pointer.prepared-candidate/v1".
Definition MANAGED_POINTER_CANDIDATE_RATIFICATION_SCHEMA_V1 : string :=
  "ag.managed-pointer.candidate-ratification/v1".
Definition MANAGED_POINTER_PROMOTION_REFUSAL_SCHEMA_V1 : string := "ag.managed-pointer.promotion-refusal/v1".
Definition HOST_MANDATE_SCHEMA_V1 : string := "ag.host-mandate/v1".
Definition RECONCILIATION_EVIDENCE_SCHEMA_V1 : string := "ag.reconciliation-evidence/v1".
Definition RECONCILIATION_RECORD_SCHEMA_V1 : string := "ag.reconciliation-record/v1".

(** ** Targets, actions, families *)

(** [struct TargetId(String)]. *)
Record TargetId : Type := mkTargetId { target_str : string }.
#[global] Instance TargetId_eq_dec : EqDecision TargetId.
Proof. solve_decision. Defined.
#[global] Instance TargetId_serialize : Serialize TargetId := fun t => VString (target_str t).
#[global] Instance TargetId_inj : SerializeInj TargetId.
Proof. intros [x] [y] Hv. apply string_equiv in Hv. simpl in Hv. by subst. Qed.

Inductive SystemdUnitActionV1 : Type := Start | Stop | Restart | Reload | Enable | Disable.
#[global] Instance SystemdUnitActionV1_eq_dec : EqDecision SystemdUnitActionV1.
Proof. solve_decision. Defined.
#[global] Instance SystemdUnitActionV1_serialize : Serialize SystemdUnitActionV1 := fun a =>
  VString match a with
          | Start => "start" | Stop => "stop" | Restart => "restart"
          | Reload => "reload" | Enable => "enable" | Disable => "disable"
          end.
#[global] Instance SystemdUnitActionV1_inj : SerializeInj SystemdUnitActionV1.
Proof. ser_unit_enum. Qed.

Inductive EffectFamilyV1 : Type := CodePromotion | FamilyManagedFile | FamilySystemd.
#[global] Instance EffectFamilyV1_eq_dec : EqDecision EffectFamilyV1.
Proof. solve_decision. Defined.
#[global] Instance EffectFamilyV1_serialize : Serialize EffectFamilyV1 := fun f =>
  VString match f with
          | CodePromotion => "code_promotion" | FamilyManagedFile => "managed_file"
          | FamilySystemd => "systemd"
          end.
#[global] Instance EffectFamilyV1_inj : SerializeInj EffectFamilyV1.
Proof. ser_unit_enum. Qed.

#[global] Instance GitObjectFormatV1_serialize : Serialize GitObjectFormatV1 := fun f =>
  VString match f with Sha1 => "sha1" | Sha256 => "sha256" end.
#[global] Instance GitObjectFormatV1_inj : SerializeInj GitObjectFormatV1.
Proof. ser_unit_enum. Qed.

(** ** The proposal lifecycle's states and events *)

Inductive ProposalStateV1 : Type :=
  | Received
  | Ready (proposal : Digest)
  | Refused (refusal : Digest)
  | Indeterminate (envelope : Digest)
  | AuthorizationBurned (proposal authorization : Digest) (family : EffectFamilyV1)
  | Preparing (proposal attempt : Digest)
  | Executing (proposal attempt : Digest) (preparation_checkpoint : option Digest)
  | Succeeded (receipt : Digest)
  | Failed (receipt : Digest)
  | ReconciliationRequired (envelope : Digest)
  | Reconciled (receipt : Digest).
#[global] Instance ProposalStateV1_eq_dec : EqDecision ProposalStateV1.
Proof. solve_decision. Defined.

Inductive ProposalEventV1 : Type :=
  | Compiled (proposal : Digest)
  | EvRefused (refusal : Digest)
  | EvIndeterminate (envelope : Digest)
  | BurnAuthorization (proposal authorization : Digest) (family : EffectFamilyV1)
  | BeginPreparation (attempt : Digest)
  | CommitMayProceed (checkpoint : Digest)
  | PreparationFailed (receipt : Digest)
  | PreparationAbandoned (receipt : Digest)
  | PreparationIndeterminate (envelope : Digest)
  | BeginExecution (attempt : Digest)
  | ExecutionAbandoned (receipt : Digest)
  | ExecutionSucceeded (receipt : Digest)
  | ExecutionFailed (receipt : Digest)
  | ExecutionIndeterminate (envelope : Digest)
  | EvReconciled (receipt : Digest).
#[global] Instance ProposalEventV1_eq_dec : EqDecision ProposalEventV1.
Proof. solve_decision. Defined.

(** [enum EffectError]; [InvalidTransition] carries the state and the event
    whose debug texts the source formats. *)
Inductive EffectError : Type :=
  | InvalidTargetId (value : string)
  | UnknownSchema (schema : string)
  | UnknownCatalogSchema (schema : string)
  | MalformedIntent
  | ArtifactNotAdmitted (artifact : Digest)
  | UnknownTarget (target : TargetId)
  | MissingObservation (target : TargetId)
  | TargetKindMismatch (target : TargetId)
  | TargetIdentityMismatch (target : TargetId)
  | PromotionTargetDirty (target : TargetId)
  | PromotionReferenceCheckedOut (target : TargetId)
  | PromotionBaseMismatch (target : TargetId)
  | MissingPreparedCandidate (target : TargetId)
  | InvalidPreparedCandidate
  | PreparedCandidateBindingMismatch
  | CandidateRatificationMismatch
  | InvalidPromotionDefinition (target : TargetId)
  | PromotionExpiryOverflow
  | UnsafeTarget (target : TargetId)
  | ActionNotAllowed (target : TargetId)
  | InvalidGitObject (value : string)
  | Canonical (message : string)
  | CanonicalDigestMismatch
  | MandateNotApplicable
  | InvalidHostMandate
  | MandateDigestMismatch
  | PromotionRequiresSeparateAuthority
  | InvalidTransition (state : ProposalStateV1) (event : ProposalEventV1).
#[global] Instance EffectError_eq_dec : EqDecision EffectError.
Proof. solve_decision. Defined.

(** [EffectError::is_semantic_compilation_refusal]. *)
Definition is_semantic_compilation_refusal (e : EffectError) : bool :=
  match e with
  | InvalidTargetId _ | UnknownSchema _ | MalformedIntent | ArtifactNotAdmitted _ | UnknownTarget _
  | TargetKindMismatch _ | TargetIdentityMismatch _ | PromotionTargetDirty _
  | PromotionReferenceCheckedOut _ | PromotionBaseMismatch _ | InvalidPreparedCandidate
  | PreparedCandidateBindingMismatch | UnsafeTarget _ | ActionNotAllowed _ | InvalidGitObject _ => true
  | _ => false
  end.

(** [TargetId::parse]. *)
Definition TargetId_parse (value : string) : res EffectError TargetId :=
  let valid := (value != EmptyString) && (String.length value <=? 128)
               && str_all (fun c => is_ascii_alphanumeric c || one_of "._-" c) value in
  reject_if (negb valid) (InvalidTargetId value) ;?
  Ok (mkTargetId value).

(** [validate_git_object]. *)
Definition validate_git_object (value : string) (f : GitObjectFormatV1) : res EffectError unit :=
  reject_if (negb (is_git_object value f)) (InvalidGitObject value).

(** [digest_serializable]. *)
Definition digest_serializable `{Deps} `{Serialize T} (x : T) : res EffectError Digest :=
  let? b := map_err Canonical (to_vec (to_value x)) in
  Ok (hash_bytes b).

(** ** Intents *)

Inductive EffectIntentV1 : Type :=
  | IntentManagedPointerPromotion (target : TargetId) (artifact : Digest)
  | IntentManagedFilePut (target : TargetId) (content : Digest)
  | IntentManagedFileDelete (target : TargetId)
  | IntentSystemdUnit (target : TargetId) (action : SystemdUnitActionV1)
  | IntentSystemdManagerReload (target : TargetId).
#[global] Instance EffectIntentV1_serialize : Serialize EffectIntentV1 := fun e =>
  VObject match e with
  | IntentManagedPointerPromotion t a =>
      [("kind", VString "managed_pointer_promotion"); ("target", to_value t); ("artifact", to_value a)]
  | IntentManagedFilePut t c =>
      [("kind", VString "managed_file_put"); ("target", to_value t); ("content", to_value c)]
  | IntentManagedFileDelete t => [("kind", VString "managed_file_delete"); ("target", to_value t)]
  | IntentSystemdUnit t a =>
      [("kind", VString "systemd_unit"); ("target", to_value t); ("action", to_value a)]
  | IntentSystemdManagerReload t => [("kind", VString "systemd_manager_reload"); ("target", to_value t)]
  end.

(** [EffectIntentV1::target] and [::family]. *)
Definition intent_target (e : EffectIntentV1) : TargetId :=
  match e with
  | IntentManagedPointerPromotion t _ | IntentManagedFilePut t _ | IntentManagedFileDelete t
  | IntentSystemdUnit t _ | IntentSystemdManagerReload t => t
  end.
Definition intent_family (e : EffectIntentV1) : EffectFamilyV1 :=
  match e with
  | IntentManagedPointerPromotion _ _ => CodePromotion
  | IntentManagedFilePut _ _ | IntentManagedFileDelete _ => FamilyManagedFile
  | IntentSystemdUnit _ _ | IntentSystemdManagerReload _ => FamilySystemd
  end.

Record ProposalIntentV1 : Type := mkIntent {
  in_schema : string;
  in_intent_id : string;
  in_authority_domain : AuthorityDomainId;
  in_epoch : EpochId;
  in_proposer : PrincipalChainV1;
  in_judgment : Digest;
  in_admitted_artifacts : list Digest;
  in_effects : list EffectIntentV1
}.
#[global] Instance ProposalIntentV1_serialize : Serialize ProposalIntentV1 := fun i =>
  VObject [("schema", to_value (in_schema i)); ("intent_id", to_value (in_intent_id i));
           ("authority_domain", to_value (in_authority_domain i)); ("epoch", to_value (in_epoch i));
           ("proposer", to_value (in_proposer i)); ("judgment", to_value (in_judgment i));
           ("admitted_artifacts", to_value (in_admitted_artifacts i)); ("effects", to_value (in_effects i))].

(** The artifact an effect needs in custody. *)
Definition required_artifact (e : EffectIntentV1) : option Digest :=
  match e with
  | IntentManagedPointerPromotion _ artifact => Some artifact
  | IntentManagedFilePut _ content => Some content
  | IntentManagedFileDelete _ | IntentSystemdUnit _ _ | IntentSystemdManagerReload _ => None
  end.

Fixpoint validate_artifacts (admitted : list Digest) (l : list EffectIntentV1) : res EffectError unit :=
  match l with
  | [] => Ok tt
  | e :: l' =>
      match required_artifact e with
      | Some required =>
          reject_if (negb (bool_decide (required ∈ admitted))) (ArtifactNotAdmitted required) ;?
          validate_artifacts admitted l'
      | None => validate_artifacts admitted l'
      end
  end.

(** [ProposalIntentV1::validate_shape]. *)
Definition validate_shape (i : ProposalIntentV1) : res EffectError unit :=
  reject_if (in_schema i != EFFECT_SCHEMA_V1) (UnknownSchema (in_schema i)) ;?
  reject_if ((in_intent_id i == EmptyString) || (length (in_effects i) =? 0)) MalformedIntent ;?
  validate_artifacts (in_admitted_artifacts i) (in_effects i).

(** The local struct [JudgmentSubject]. *)
Record JudgmentSubject : Type := mkSubject {
  js_schema : string;
  js_authority_domain : AuthorityDomainId;
  js_epoch : EpochId;
  js_proposer : PrincipalChainV1;
  js_admitted_artifacts : list Digest;
  js_effects : list EffectIntentV1
}.
#[global] Instance JudgmentSubject_serialize : Serialize JudgmentSubject := fun s =>
  VObject [("schema", to_value (js_schema s)); ("authority_domain", to_value (js_authority_domain s));
           ("epoch", to_value (js_epoch s)); ("proposer", to_value (js_proposer s));
           ("admitted_artifacts", to_value (js_admitted_artifacts s)); ("effects", to_value (js_effects s))].

Definition judgment_subject (i : ProposalIntentV1) : JudgmentSubject :=
  mkSubject EFFECT_SCHEMA_V1 (in_authority_domain i) (in_epoch i) (in_proposer i)
    (in_admitted_artifacts i) (in_effects i).

(** [ProposalIntentV1::judgment_subject_digest]. *)
Definition judgment_subject_digest `{Deps} (i : ProposalIntentV1) : res EffectError Digest :=
  digest_serializable (judgment_subject i).

(** ** The catalog and the broker's observations *)

(** The fields of [TargetDefinitionV1::ManagedPointer]. *)
Record ManagedPointerDefinition : Type := mkPointerDefinition {
  pd_allowed_root : string;
  pd_repository : string;
  pd_reference : string;
  pd_repository_identity : Digest;
  pd_uid : Z;
  pd_gid : Z;
  pd_staging_root : string;
  pd_promotion_ttl_ms : Z;
  pd_helper_executable : Digest;
  pd_helper_launch_profile : Digest
}.

Inductive TargetDefinitionV1 : Type :=
  | DefManagedPointer (d : ManagedPointerDefinition)
  | DefManagedFile (path : string) (mode uid gid : Z)
  | DefSystemdUnit (unit : string) (allowed_actions : list SystemdUnitActionV1)
  | DefSystemdManager.

Record EffectCatalogV1 : Type := mkCatalog {
  ct_schema : string;
  ct_identity : Digest;
  ct_targets : list (string * TargetDefinitionV1)
}.

(** The fields of [TargetObservationV1::ManagedPointer]. *)
Record ManagedPointerObservation : Type := mkPointerObservation {
  po_current_object : string;
  po_current_tree : string;
  po_candidate_object : string;
  po_candidate_tree : string;
  po_candidate_parent : string;
  po_candidate_pack_digest : Digest;
  po_object_format : GitObjectFormatV1;
  po_repository_identity : Digest;
  po_prestate_identity : Digest;
  po_repository_device : Z;
  po_repository_inode : Z;
  po_git_directory_device : Z;
  po_git_directory_inode : Z;
  po_repository_uid : Z;
  po_repository_gid : Z;
  po_clean : bool;
  po_reference_checked_out : bool
}.

Inductive TargetObservationV1 : Type :=
  | ObsManagedPointer (o : ManagedPointerObservation)
  | ObsManagedFile (current_content : option Digest) (regular_file : bool)
  | ObsSystemdUnit (active_state unit_file_state : string)
  | ObsSystemdManager (machine_identity : string) (generation : Z).
#[global] Instance TargetObservationV1_serialize : Serialize TargetObservationV1 := fun t =>
  VObject match t with
  | ObsManagedPointer o =>
      [("kind", VString "managed_pointer");
       ("current_object", to_value (po_current_object o)); ("current_tree", to_value (po_current_tree o));
       ("candidate_object", to_value (po_candidate_object o)); ("candidate_tree", to_value (po_candidate_tree o));
       ("candidate_parent", to_value (po_candidate_parent o));
       ("candidate_pack_digest", to_value (po_candidate_pack_digest o));
       ("object_format", to_value (po_object_format o));
       ("repository_identity", to_value (po_repository_identity o));
       ("prestate_identity", to_value (po_prestate_identity o));
       ("repository_device", to_value (po_repository_device o));
       ("repository_inode", to_value (po_repository_inode o));
       ("git_directory_device", to_value (po_git_directory_device o));
       ("git_directory_inode", to_value (po_git_directory_inode o));
       ("repository_uid", to_value (po_repository_uid o)); ("repository_gid", to_value (po_repository_gid o));
       ("clean", to_value (po_clean o)); ("reference_checked_out", to_value (po_reference_checked_out o))]
  | ObsManagedFile c r =>
      [("kind", VString "managed_file"); ("current_content", to_value c); ("regular_file", to_value r)]
  | ObsSystemdUnit a u =>
      [("kind", VString "systemd_unit"); ("active_state", to_value a); ("unit_file_state", to_value u)]
  | ObsSystemdManager m g =>
      [("kind", VString "systemd_manager"); ("machine_identity", to_value m); ("generation", to_value g)]
  end.

(** ** Preparation records *)

Record ManagedPointerExactBasisV1 : Type := mkBasis {
  eb_schema : string;
  eb_authority_domain : AuthorityDomainId;
  eb_epoch : EpochId;
  eb_target : TargetId;
  eb_catalog_identity : Digest;
  eb_security_profile_identity : Digest;
  eb_reference : string;
  eb_repository_identity : Digest;
  eb_prestate_identity : Digest;
  eb_repository_device : Z;
  eb_repository_inode : Z;
  eb_git_directory_device : Z;
  eb_git_directory_inode : Z;
  eb_uid : Z;
  eb_gid : Z;
  eb_object_format : GitObjectFormatV1;
  eb_current_object : string;
  eb_current_tree : string
}.
#[global] Instance ManagedPointerExactBasisV1_serialize : Serialize ManagedPointerExactBasisV1 := fun b =>
  VObject [("schema", to_value (eb_schema b)); ("authority_domain", to_value (eb_authority_domain b));
           ("epoch", to_value (eb_epoch b)); ("target", to_value (eb_target b));
           ("catalog_identity", to_value (eb_catalog_identity b));
           ("security_profile_identity", to_value (eb_security_profile_identity b));
           ("reference", to_value (eb_reference b)); ("repository_identity", to_value (eb_repository_identity b));
           ("prestate_identity", to_value (eb_prestate_identity b));
           ("repository_device", to_value (eb_repository_device b));
           ("repository_inode", to_value (eb_repository_inode b));
           ("git_directory_device", to_value (eb_git_directory_device b));
           ("git_directory_inode", to_value (eb_git_directory_inode b));
           ("uid", to_value (eb_uid b)); ("gid", to_value (eb_gid b));
           ("object_format", to_value (eb_object_format b));
           ("current_object", to_value (eb_current_object b)); ("current_tree", to_value (eb_current_tree b))].

Record ManagedPointerCompleteInputsV1 : Type := mkInputs {
  ci_schema : string;
  ci_exact_basis : Digest;
  ci_artifact : Digest;
  ci_artifact_byte_length : Z;
  ci_candidate_pack_digest : Digest;
  ci_candidate_object : string;
  ci_candidate_tree : string;
  ci_candidate_parent : string;
  ci_staging_root : string;
  ci_helper_executable : Digest;
  ci_helper_launch_profile : Digest;
  ci_max_artifact_bytes : Z;
  ci_quarantine_budget_bytes : Z
}.
#[global] Instance ManagedPointerCompleteInputsV1_serialize : Serialize ManagedPointerCompleteInputsV1 := fun c =>
  VObject [("schema", to_value (ci_schema c)); ("exact_basis", to_value (ci_exact_basis c));
           ("artifact", to_value (ci_artifact c)); ("artifact_byte_length", to_value (ci_artifact_byte_length c));
           ("candidate_pack_digest", to_value (ci_candidate_pack_digest c));
           ("candidate_object", to_value (ci_candidate_object c)); ("candidate_tree", to_value (ci_candidate_tree c));
           ("candidate_parent", to_value (ci_candidate_parent c)); ("staging_root", to_value (ci_staging_root c));
           ("helper_executable", to_value (ci_helper_executable c));
           ("helper_launch_profile", to_value (ci_helper_launch_profile c));
           ("max_artifact_bytes", to_value (ci_max_artifact_bytes c));
           ("quarantine_budget_bytes", to_value (ci_quarantine_budget_bytes c))].

Record ManagedPointerPreparationStandingReceiptV1 : Type := mkStanding {
  ps_schema : string;
  ps_authority_domain : AuthorityDomainId;
  ps_epoch : EpochId;
  ps_target : TargetId;
  ps_catalog_identity : Digest;
  ps_security_profile_identity : Digest;
  ps_issued_at_unix_ms : Z;
  ps_expires_at_unix_ms : Z;
  ps_max_artifact_bytes : Z;
  ps_quarantine_budget_bytes : Z;
  ps_nonce : string
}.
#[global] Instance ManagedPointerPreparationStandingReceiptV1_serialize
    : Serialize ManagedPointerPreparationStandingReceiptV1 := fun s =>
  VObject [("schema", to_value (ps_schema s)); ("authority_domain", to_value (ps_authority_domain s));
           ("epoch", to_value (ps_epoch s)); ("target", to_value (ps_target s));
           ("catalog_identity", to_value (ps_catalog_identity s));
           ("security_profile_identity", to_value (ps_security_profile_identity s));
           ("issued_at_unix_ms", to_value (ps_issued_at_unix_ms s));
           ("expires_at_unix_ms", to_value (ps_expires_at_unix_ms s));
           ("max_artifact_bytes", to_value (ps_max_artifact_bytes s));
           ("quarantine_budget_bytes", to_value (ps_quarantine_budget_bytes s));
           ("nonce", to_value (ps_nonce s))].

Record ManagedPointerPreparationEffectsV1 : Type := mkEffects {
  pe_schema : string;
  pe_candidate_custody_bytes : Z;
  pe_charged_quarantine_bytes : Z;
  pe_target_object_database_bytes : Z;
  pe_authoritative_pointer_writes : Z;
  pe_network_requests : Z
}.
#[global] Instance ManagedPointerPreparationEffectsV1_serialize
    : Serialize ManagedPointerPreparationEffectsV1 := fun e =>
  VObject [("schema", to_value (pe_schema e)); ("candidate_custody_bytes", to_value (pe_candidate_custody_bytes e));
           ("charged_quarantine_bytes", to_value (pe_charged_quarantine_bytes e));
           ("target_object_database_bytes", to_value (pe_target_object_database_bytes e));
           ("authoritative_pointer_writes", to_value (pe_authoritative_pointer_writes e));
           ("network_requests", to_value (pe_network_requests e))].

Record ManagedPointerCandidatePreparationReceiptV1 : Type := mkReceipt {
  pr_schema : string;
  pr_standing : Digest;
  pr_exact_basis : Digest;
  pr_complete_inputs : Digest;
  pr_artifact : Digest;
  pr_protected_prestate : Digest;
  pr_protected_poststate : Digest;
  pr_effects : ManagedPointerPreparationEffectsV1
}.
#[global] Instance ManagedPointerCandidatePreparationReceiptV1_serialize
    : Serialize ManagedPointerCandidatePreparationReceiptV1 := fun r =>
  VObject [("schema", to_value (pr_schema r)); ("standing", to_value (pr_standing r));
           ("exact_basis", to_value (pr_exact_basis r)); ("complete_inputs", to_value (pr_complete_inputs r));
           ("artifact", to_value (pr_artifact r)); ("protected_prestate", to_value (pr_protected_prestate r));
           ("protected_poststate", to_value (pr_protected_poststate r)); ("effects", to_value (pr_effects r))].

Record PreparedManagedPointerCandidateV1 : Type := mkCandidate {
  ca_schema : string;
  ca_preparation_standing : ManagedPointerPreparationStandingReceiptV1;
  ca_exact_basis : ManagedPointerExactBasisV1;
  ca_complete_inputs : ManagedPointerCompleteInputsV1;
  ca_preparation_receipt : ManagedPointerCandidatePreparationReceiptV1
}.
#[global] Instance PreparedManagedPointerCandidateV1_serialize
    : Serialize PreparedManagedPointerCandidateV1 := fun c =>
  VObject [("schema", to_value (ca_schema c)); ("preparation_standing", to_value (ca_preparation_standing c));
           ("exact_basis", to_value (ca_exact_basis c)); ("complete_inputs", to_value (ca_complete_inputs c));
           ("preparation_receipt", to_value (ca_preparation_receipt c))].

#[global] Instance ManagedPointerExactBasisV1_inj : SerializeInj ManagedPointerExactBasisV1.
Proof. ser_struct. Qed.
#[global] Instance ManagedPointerCompleteInputsV1_inj : SerializeInj ManagedPointerCompleteInputsV1.
Proof. ser_struct. Qed.
#[global] Instance ManagedPointerPreparationStandingReceiptV1_inj
  : SerializeInj ManagedPointerPreparationStandingReceiptV1.
Proof. ser_struct. Qed.
#[global] Instance ManagedPointerPreparationEffectsV1_inj : SerializeInj ManagedPointerPreparationEffectsV1.
Proof. ser_struct. Qed.
#[global] Instance ManagedPointerCandidatePreparationReceiptV1_inj
  : SerializeInj ManagedPointerCandidatePreparationReceiptV1.
Proof. ser_struct. Qed.
#[global] Instance PreparedManagedPointerCandidateV1_inj : SerializeInj PreparedManagedPointerCandidateV1.
Proof. ser_struct. Qed.

(** ** Identities of the preparation records *)

Section Identities.
  Context `{Deps}.

(** [ManagedPointerExactBasisV1::identity]. *)
Definition basis_identity (b : ManagedPointerExactBasisV1) : res EffectError Digest :=
  reject_if ((eb_schema b != MANAGED_POINTER_EXACT_BASIS_SCHEMA_V1)
             || (eb_repository_inode b =? 0)%Z
             || (eb_git_directory_inode b =? 0)%Z
             || (eb_uid b =? U32_MAX)%Z
             || (eb_gid b =? U32_MAX)%Z
             || negb (is_canonical_git_reference (eb_reference b))) InvalidPreparedCandidate ;?
  validate_git_object (eb_current_object b) (eb_object_format b) ;?
  validate_git_object (eb_current_tree b) (eb_object_format b) ;?
  digest_serializable b.

(** [ManagedPointerCompleteInputsV1::identity]. *)
Definition inputs_identity (c : ManagedPointerCompleteInputsV1) (f : GitObjectFormatV1)
    : res EffectError Digest :=
  reject_if ((ci_schema c != MANAGED_POINTER_COMPLETE_INPUTS_SCHEMA_V1)
             || (ci_artifact_byte_length c =? 0)%Z
             || (ci_max_artifact_bytes c <? ci_artifact_byte_length c)%Z
             || (ci_quarantine_budget_bytes c <? ci_max_artifact_bytes c)%Z
             || negb (is_canonical_absolute_root (ci_staging_root c))) InvalidPreparedCandidate ;?
  validate_git_object (ci_candidate_object c) f ;?
  validate_git_object (ci_candidate_tree c) f ;?
  validate_git_object (ci_candidate_parent c) f ;?
  digest_serializable c.

(** [ManagedPointerPreparationStandingReceiptV1::identity]. *)
Definition standing_identity (s : ManagedPointerPreparationStandingReceiptV1) : res EffectError Digest :=
  reject_if ((ps_schema s != MANAGED_POINTER_PREPARATION_STANDING_SCHEMA_V1)
             || (ps_nonce s == EmptyString)
             || (ps_max_artifact_bytes s =? 0)%Z
             || (ps_quarantine_budget_bytes s =? 0)%Z
             || (ps_expires_at_unix_ms s <=? ps_issued_at_unix_ms s)%Z) InvalidPreparedCandidate ;?
  digest_serializable s.

(** [ManagedPointerPreparationEffectsV1::validate]. *)
Definition effects_validate (e : ManagedPointerPreparationEffectsV1) : res EffectError unit :=
  reject_if ((pe_schema e != MANAGED_POINTER_PREPARATION_EFFECTS_SCHEMA_V1)
             || (pe_candidate_custody_bytes e =? 0)%Z
             || (pe_charged_quarantine_bytes e <? pe_candidate_custody_bytes e)%Z
             || negb (pe_target_object_database_bytes e =? 0)%Z
             || negb (pe_authoritative_pointer_writes e =? 0)%Z
             || negb (pe_network_requests e =? 0)%Z) InvalidPreparedCandidate ;?
  Ok tt.

(** [ManagedPointerCandidatePreparationReceiptV1::identity]. *)
Definition receipt_identity (r : ManagedPointerCandidatePreparationReceiptV1) : res EffectError Digest :=
  effects_validate (pr_effects r) ;?
  reject_if ((pr_schema r != MANAGED_POINTER_CANDIDATE_PREPARATION_SCHEMA_V1)
             || (pr_protected_prestate r != pr_protected_poststate r)
             || (pr_protected_prestate r != pr_exact_basis r)) InvalidPreparedCandidate ;?
  digest_serializable r.

(** The binding test of [PreparedManagedPointerCandidateV1::identity]. *)
Definition candidate_mismatch (c : PreparedManagedPointerCandidateV1) (basis inputs standing : Digest) : bool :=
  let st := ca_preparation_standing c in
  let eb := ca_exact_basis c in
  let ci := ca_complete_inputs c in
  let pr := ca_preparation_receipt c in
  (ci_exact_basis ci != basis)
  || (ps_authority_domain st != eb_authority_domain eb)
  || (ps_epoch st != eb_epoch eb)
  || (ps_target st != eb_target eb)
  || (ps_catalog_identity st != eb_catalog_identity eb)
  || (ps_security_profile_identity st != eb_security_profile_identity eb)
  || negb (ps_max_artifact_bytes st =? ci_max_artifact_bytes ci)%Z
  || negb (ps_quarantine_budget_bytes st =? ci_quarantine_budget_bytes ci)%Z
  || (pr_standing pr != standing)
  || (ci_candidate_parent ci != eb_current_object eb)
  || (pr_exact_basis pr != basis)
  || (pr_complete_inputs pr != inputs)
  || (pr_artifact pr != ci_artifact ci)
  || negb (pe_candidate_custody_bytes (pr_effects pr) =? ci_artifact_byte_length ci)%Z
  || (ci_quarantine_budget_bytes ci <? pe_charged_quarantine_bytes (pr_effects pr))%Z.

(** [PreparedManagedPointerCandidateV1::identity]. *)
Definition candidate_identity (c : PreparedManagedPointerCandidateV1) : res EffectError Digest :=
  reject_if (ca_schema c != MANAGED_POINTER_PREPARED_CANDIDATE_SCHEMA_V1) InvalidPreparedCandidate ;?
  let? basis := basis_identity (ca_exact_basis c) in
  let? inputs := inputs_identity (ca_complete_inputs c) (eb_object_format (ca_exact_basis c)) in
  let? _ := receipt_identity (ca_preparation_receipt c) in
  let? standing := standing_identity (ca_preparation_standing c) in
  reject_if (candidate_mismatch c basis inputs standing) PreparedCandidateBindingMismatch ;?
  digest_serializable c.

End Identities.

(** ** Reconciliation records *)

Inductive ReconciliationClassificationV1 : Type := Applied | NotApplied | Foreign.
#[global] Instance ReconciliationClassificationV1_serialize : Serialize ReconciliationClassificationV1 := fun c =>
  VString match c with Applied => "applied" | NotApplied => "not_applied" | Foreign => "foreign" end.

Record ReconciliationEvidenceV1 : Type := mkEvidence {
  re_schema : string;
  re_proposal : Digest;
  re_attempt : Digest;
  re_uncertainty_envelope : Digest;
  re_step_receipts : list Digest;
  re_observed_poststate : list (string * TargetObservationV1);
  re_classification : ReconciliationClassificationV1
}.
#[global] Instance ReconciliationEvidenceV1_serialize : Serialize ReconciliationEvidenceV1 := fun e =>
  VObject [("schema", to_value (re_schema e)); ("proposal", to_value (re_proposal e));
           ("attempt", to_value (re_attempt e)); ("uncertainty_envelope", to_value (re_uncertainty_envelope e));
           ("step_receipts", to_value (re_step_receipts e));
           ("observed_poststate", VObject (map (fun kv => (kv.1, to_value kv.2)) (re_observed_poststate e)));
           ("classification", to_value (re_classification e))].

Record ReconciliationRecordV1 : Type := mkReconciliation {
  rr_schema : string;
  rr_evidence : ReconciliationEvidenceV1;
  rr_ratifier : PrincipalChainV1;
  rr_signed_request : Digest
}.
#[global] Instance ReconciliationRecordV1_serialize : Serialize ReconciliationRecordV1 := fun r =>
  VObject [("schema", to_value (rr_schema r)); ("evidence", to_value (rr_evidence r));
           ("ratifier", to_value (rr_ratifier r)); ("signed_request", to_value (rr_signed_request r))].

(** [ReconciliationRecordV1::digest]. *)
Definition reconciliation_digest `{Deps} (r : ReconciliationRecordV1) : res EffectError Digest :=
  digest_serializable r.

(** ** Digests bind the record *)

Section Binding.
  Context `{JcsLaws, !HexLaws, !Sha256Laws}.

(** The bytes whose hash is the identity of [x]. *)
Definition preimage `{Serialize T} (x : T) (b : bytes) : Prop :=
  ijson (to_value x) = true /\ jcs_to_vec (to_value x) = inr b.

Lemma digest_serializable_ok `{Serialize T} (x : T) b :
  preimage x b -> digest_serializable x = Ok (hash_bytes b).
Proof. intros [_ Hb]. unfold digest_serializable, to_vec. by rewrite Hb. Qed.

Lemma digest_serializable_binds `{SerializeInj T} (x y : T) bx by' d :
  preimage x bx -> preimage y by' -> digest_serializable x = Ok d -> digest_serializable y = Ok d ->
  x = y \/ collision bx by'.
Proof.
  intros Hx Hy. rewrite (digest_serializable_ok x bx), (digest_serializable_ok y by') by done.
  intros Hdx Hdy. assert (hash_bytes bx = hash_bytes by') as Hh by congruence.
  apply hash_bytes_binds in Hh as [<-|]; [left | by right].
  destruct Hx, Hy. by apply to_value_inj, (canon_injective_encoding _ _ bx).
Qed.

End Binding.

Lemma validate_git_object_ok s f : validate_git_object s f = Ok tt <-> is_git_object s f = true.
Proof. unfold validate_git_object. by rewrite reject_if_ok, negb_false_iff. Qed.

(** What each identity checks, as propositions. *)
Definition basis_valid (b : ManagedPointerExactBasisV1) : Prop :=
  eb_schema b = MANAGED_POINTER_EXACT_BASIS_SCHEMA_V1 /\
  eb_repository_inode b <> 0%Z /\ eb_git_directory_inode b <> 0%Z /\ eb_uid b <> U32_MAX /\ eb_gid b <> U32_MAX /\
  is_canonical_git_reference (eb_reference b) = true /\
  is_git_object (eb_current_object b) (eb_object_format b) = true /\
  is_git_object (eb_current_tree b) (eb_object_format b) = true.

Definition inputs_valid (c : ManagedPointerCompleteInputsV1) (f : GitObjectFormatV1) : Prop :=
  ci_schema c = MANAGED_POINTER_COMPLETE_INPUTS_SCHEMA_V1 /\
  ci_artifact_byte_length c <> 0%Z /\
  (ci_artifact_byte_length c <= ci_max_artifact_bytes c <= ci_quarantine_budget_bytes c)%Z /\
  is_canonical_absolute_root (ci_staging_root c) = true /\
  is_git_object (ci_candidate_object c) f = true /\ is_git_object (ci_candidate_tree c) f = true /\
  is_git_object (ci_candidate_parent c) f = true.

Definition standing_valid (s : ManagedPointerPreparationStandingReceiptV1) : Prop :=
  ps_schema s = MANAGED_POINTER_PREPARATION_STANDING_SCHEMA_V1 /\ ps_nonce s <> EmptyString /\
  ps_max_artifact_bytes s <> 0%Z /\ ps_quarantine_budget_bytes s <> 0%Z /\
  (ps_issued_at_unix_ms s < ps_expires_at_unix_ms s)%Z.

(** Preparation changed nothing outside quarantine. *)
Definition effects_inert (e : ManagedPointerPreparationEffectsV1) : Prop :=
  pe_schema e = MANAGED_POINTER_PREPARATION_EFFECTS_SCHEMA_V1 /\
  pe_candidate_custody_bytes e <> 0%Z /\ (pe_candidate_custody_bytes e <= pe_charged_quarantine_bytes e)%Z /\
  pe_target_object_database_bytes e = 0%Z /\ pe_authoritative_pointer_writes e = 0%Z /\ pe_network_requests e = 0%Z.

Definition receipt_valid (r : ManagedPointerCandidatePreparationReceiptV1) : Prop :=
  effects_inert (pr_effects r) /\ pr_schema r = MANAGED_POINTER_CANDIDATE_PREPARATION_SCHEMA_V1 /\
  pr_protected_poststate r = pr_protected_prestate r /\ pr_protected_prestate r = pr_exact_basis r.

(** The cross-references of the four records. *)
Definition candidate_coherent `{Deps} (c : PreparedManagedPointerCandidateV1) : Prop :=
  let st := ca_preparation_standing c in
  let eb := ca_exact_basis c in
  let ci := ca_complete_inputs c in
  let pr := ca_preparation_receipt c in
  digest_serializable eb = Ok (pr_exact_basis pr) /\ ci_exact_basis ci = pr_exact_basis pr /\
  digest_serializable ci = Ok (pr_complete_inputs pr) /\ digest_serializable st = Ok (pr_standing pr) /\
  (exists r, digest_serializable pr = Ok r) /\
  (ps_authority_domain st, ps_epoch st, ps_target st, ps_catalog_identity st, ps_security_profile_identity st) =
  (eb_authority_domain eb, eb_epoch eb, eb_target eb, eb_catalog_identity eb, eb_security_profile_identity eb) /\
  (ps_max_artifact_bytes st, ps_quarantine_budget_bytes st) =
  (ci_max_artifact_bytes ci, ci_quarantine_budget_bytes ci) /\
  ci_candidate_parent ci = eb_current_object eb /\ pr_artifact pr = ci_artifact ci /\
  pe_candidate_custody_bytes (pr_effects pr) = ci_artifact_byte_length ci /\
  (pe_charged_quarantine_bytes (pr_effects pr) <= ci_quarantine_budget_bytes ci)%Z.

Section IdentitySpecs.
  Context `{Deps}.

Lemma basis_identity_ok b d : basis_identity b = Ok d <-> basis_valid b /\ digest_serializable b = Ok d.
Proof.
  unfold basis_identity, basis_valid. rewrite guard_ok, !then_ok, !validate_git_object_ok. guards. tauto.
Qed.

Lemma inputs_identity_ok c f d : inputs_identity c f = Ok d <-> inputs_valid c f /\ digest_serializable c = Ok d.
Proof.
  unfold inputs_identity, inputs_valid. rewrite guard_ok, !then_ok, !validate_git_object_ok. guards. tauto.
Qed.

Lemma standing_identity_ok s d : standing_identity s = Ok d <-> standing_valid s /\ digest_serializable s = Ok d.
Proof. unfold standing_identity, standing_valid. rewrite guard_ok. guards. tauto. Qed.

Lemma effects_validate_ok e : effects_validate e = Ok tt <-> effects_inert e.
Proof. unfold effects_validate, effects_inert. rewrite guard_ok. guards. tauto. Qed.

Lemma receipt_identity_ok r d : receipt_identity r = Ok d <-> receipt_valid r /\ digest_serializable r = Ok d.
Proof.
  unfold receipt_identity, receipt_valid. rewrite then_ok, effects_validate_ok, guard_ok. guards.
  intuition congruence.
Qed.

Lemma candidate_mismatch_false c basis inputs standing :
  candidate_mismatch c basis inputs standing = false <->
  let st := ca_preparation_standing c in let eb := ca_exact_basis c in
  let ci := ca_complete_inputs c in let pr := ca_preparation_receipt c in
  ci_exact_basis ci = basis /\ pr_exact_basis pr = basis /\ pr_complete_inputs pr = inputs /\
  pr_standing pr = standing /\
  (ps_authority_domain st, ps_epoch st, ps_target st, ps_catalog_identity st, ps_security_profile_identity st) =
  (eb_authority_domain eb, eb_epoch eb, eb_target eb, eb_catalog_identity eb, eb_security_profile_identity eb) /\
  (ps_max_artifact_bytes st, ps_quarantine_budget_bytes st) =
  (ci_max_artifact_bytes ci, ci_quarantine_budget_bytes ci) /\
  ci_candidate_parent ci = eb_current_object eb /\ pr_artifact pr = ci_artifact ci /\
  pe_candidate_custody_bytes (pr_effects pr) = ci_artifact_byte_length ci /\
  (pe_charged_quarantine_bytes (pr_effects pr) <= ci_quarantine_budget_bytes ci)%Z.
Proof. unfold candidate_mismatch. cbv zeta. guards. rewrite !pair_equal_spec. tauto. Qed.

Lemma candidate_identity_ok c d :
  candidate_identity c = Ok d <->
  ca_schema c = MANAGED_POINTER_PREPARED_CANDIDATE_SCHEMA_V1 /\
  basis_valid (ca_exact_basis c) /\ inputs_valid (ca_complete_inputs c) (eb_object_format (ca_exact_basis c)) /\
  receipt_valid (ca_preparation_receipt c) /\ standing_valid (ca_preparation_standing c) /\
  candidate_coherent c /\ digest_serializable c = Ok d.
Proof.
  unfold candidate_identity, candidate_coherent. rewrite guard_ok, negb_bool_decide_false. split.
  - intros (Hs & Hi). apply res_bind_ok in Hi as (basis & Hb & Hi). apply res_bind_ok in Hi as (inputs & Hin & Hi).
    apply res_bind_ok in Hi as (receipt & Hr & Hi). apply res_bind_ok in Hi as (standing & Hst & Hi).
    apply basis_identity_ok in Hb as [Hb Hbd]. apply inputs_identity_ok in Hin as [Hin Hind].
    apply receipt_identity_ok in Hr as [Hr Hrd]. apply standing_identity_ok in Hst as [Hst Hstd].
    apply guard_ok in Hi as [Hm Hd]. apply candidate_mismatch_false in Hm. cbv zeta in Hm.
    destruct Hm as (H1 & H2 & H3 & H4 & Hrest). split_all; try tauto; try congruence. by exists receipt.
  - intros (Hs & Hb & Hin & Hr & Hst & (Hbd & Hbb & Hid & Hsd & [r Hrd] & Hrest) & Hd). split; [done|].
    apply res_bind_ok. eexists. split; [by apply basis_identity_ok|].
    apply res_bind_ok. eexists. split; [by apply inputs_identity_ok|].
    apply res_bind_ok. eexists. split; [by apply receipt_identity_ok|].
    apply res_bind_ok. eexists. split; [by apply standing_identity_ok|].
    apply guard_ok. split; [|done]. apply candidate_mismatch_false. cbv zeta. tauto.
Qed.

End IdentitySpecs.

(** ** The property *)

(** The identity of a prepared candidate is computed exactly for coherent
    records: it is defined iff the four records are each well formed, the
    receipt shows an unchanged protected state and no target or network write,
    and every cross-reference (basis, inputs, standing, artifact, parent
    commit, budgets) holds; it is then the digest of the whole record, so two
    candidates with one identity are equal, including their basis, or exhibit a
    hash collision. *)
Theorem prepared_candidate_identity_exact `{JcsLaws, !HexLaws, !Sha256Laws} c d :
  (candidate_identity c = Ok d <->
     ca_schema c = MANAGED_POINTER_PREPARED_CANDIDATE_SCHEMA_V1 /\
     basis_valid (ca_exact_basis c) /\ inputs_valid (ca_complete_inputs c) (eb_object_format (ca_exact_basis c)) /\
     receipt_valid (ca_preparation_receipt c) /\ standing_valid (ca_preparation_standing c) /\
     candidate_coherent c /\ digest_serializable c = Ok d) /\
  (forall c' b b', preimage c b -> preimage c' b' ->
     candidate_identity c = Ok d -> candidate_identity c' = Ok d ->
     ca_exact_basis c = ca_exact_basis c' /\ c = c' \/ collision b b').
Proof.
  split; [apply candidate_identity_ok|].
  intros c' b b' Hb Hb' (_ & _ & _ & _ & _ & _ & Hd)%candidate_identity_ok (_ & _ & _ & _ & _ & _ & Hd')%candidate_identity_ok.
  destruct (digest_serializable_binds c c' b b' d Hb Hb' Hd Hd') as [->|]; [by left | by right].
Qed.

(** A concrete candidate. *)
Definition toy_digest (n : Z) : Digest := hash_bytes [byte_of n].
Definition toy_object (c : string) : string := String.concat EmptyString (repeat c 40).
Definition toy_target : TargetId := mkTargetId "repo-main".

Definition toy_basis : ManagedPointerExactBasisV1 :=
  mkBasis MANAGED_POINTER_EXACT_BASIS_SCHEMA_V1 toy_domain (mkEpochId 7) toy_target (toy_digest 1) (toy_digest 2)
    "refs/heads/main" (toy_digest 3) (toy_digest 4) 8 9 10 11 1000 1000 Sha1 (toy_object "a") (toy_object "b").
Definition toy_inputs : ManagedPointerCompleteInputsV1 :=
  mkInputs MANAGED_POINTER_COMPLETE_INPUTS_SCHEMA_V1 (hash_bytes (toy_encoding toy_basis)) (toy_digest 5) 64
    (toy_digest 6) (toy_object "c") (toy_object "d") (toy_object "a") "/var/lib/ag/staging"
    (toy_digest 7) (toy_digest 8) 128 512.
Definition toy_standing : ManagedPointerPreparationStandingReceiptV1 :=
  mkStanding MANAGED_POINTER_PREPARATION_STANDING_SCHEMA_V1 toy_domain (mkEpochId 7) toy_target
    (toy_digest 1) (toy_digest 2) 1000 2000 128 512 "nonce".
Definition toy_receipt : ManagedPointerCandidatePreparationReceiptV1 :=
  mkReceipt MANAGED_POINTER_CANDIDATE_PREPARATION_SCHEMA_V1 (hash_bytes (toy_encoding toy_standing))
    (hash_bytes (toy_encoding toy_basis)) (hash_bytes (toy_encoding toy_inputs)) (toy_digest 5)
    (hash_bytes (toy_encoding toy_basis)) (hash_bytes (toy_encoding toy_basis))
    (mkEffects MANAGED_POINTER_PREPARATION_EFFECTS_SCHEMA_V1 64 100 0 0 0).
Definition toy_prepared : PreparedManagedPointerCandidateV1 :=
  mkCandidate MANAGED_POINTER_PREPARED_CANDIDATE_SCHEMA_V1 toy_standing toy_basis toy_inputs toy_receipt.

Lemma prepared_candidate_identity_exact_witness : candidate_coherent toy_prepared.
Proof.
  destruct (prepared_candidate_identity_exact toy_prepared (hash_bytes (toy_encoding toy_prepared))) as [Hi _].
  apply Hi. vm_compute. reflexivity.
Defined.
