(* ===== verification/Compile.v ===== *)
(** * The effect compiler (ag-effect/src/lib.rs)

    [EffectCompilerV1::compile] turns an untrusted intent, the root-owned
    catalog, and one cut of broker observations and prepared candidates into
    the canonical proposal whose digest is ratified.  The theorems say what a
    compiled proposal guarantees and which errors compilation can return. *)

From S2P Require Import Prelude Wire Fixture Digest Names Origin Capability Identity Paths Effect.

(** ** Canonical effects *)

(** The fields of [CanonicalEffectV1::ManagedPointerPromotion]. *)
Record PromotionEffect : Type := mkPromotion {
  pp_schema : string;
  pp_operation_id : Digest;
  pp_prepared_candidate : Digest;
  pp_exact_basis : Digest;
  pp_complete_inputs : Digest;
  pp_candidate_preparation_receipt : Digest;
  pp_target : TargetId;
  pp_allowed_root : string;
  pp_repository : string;
  pp_reference : string;
  pp_repository_identity : Digest;
  pp_prestate_identity : Digest;
  pp_repository_device : Z;
  pp_repository_inode : Z;
  pp_git_directory_device : Z;
  pp_git_directory_inode : Z;
  pp_uid : Z;
  pp_gid : Z;
  pp_staging_root : string;
  pp_artifact : Digest;
  pp_candidate_pack_digest : Digest;
  pp_object_format : GitObjectFormatV1;
  pp_expected_object : string;
  pp_expected_tree : string;
  pp_new_object : string;
  pp_expected_post_tree : string;
  pp_expires_unix_ms : Z;
  pp_helper_executable : Digest;
  pp_helper_launch_profile : Digest
}.

Inductive CanonicalEffectV1 : Type :=
  | EffManagedPointerPromotion (p : PromotionEffect)
  | EffManagedFilePut (target : TargetId) (path : string) (expected_content : option Digest)
      (content : Digest) (mode uid gid : Z)
  | EffManagedFileDelete (target : TargetId) (path : string) (expected_content : Digest)
  | EffSystemdUnit (target : TargetId) (unit : string) (action : SystemdUnitActionV1)
      (expected_active_state expected_unit_file_state : string)
  | EffSystemdManagerReload (target : TargetId) (machine_identity : string) (expected_generation : Z).

#[global] Instance PromotionEffect_eq_dec : EqDecision PromotionEffect.
Proof. solve_decision. Defined.
#[global] Instance CanonicalEffectV1_eq_dec : EqDecision CanonicalEffectV1.
Proof. solve_decision. Defined.

#[global] Instance PromotionEffect_serialize : Serialize PromotionEffect := fun p =>
  VObject [("kind", VString "managed_pointer_promotion"); ("schema", to_value (pp_schema p));
    ("operation_id", to_value (pp_operation_id p)); ("prepared_candidate", to_value (pp_prepared_candidate p));
    ("exact_basis", to_value (pp_exact_basis p)); ("complete_inputs", to_value (pp_complete_inputs p));
    ("candidate_preparation_receipt", to_value (pp_candidate_preparation_receipt p));
    ("target", to_value (pp_target p)); ("allowed_root", to_value (pp_allowed_root p));
    ("repository", to_value (pp_repository p)); ("reference", to_value (pp_reference p));
    ("repository_identity", to_value (pp_repository_identity p));
    ("prestate_identity", to_value (pp_prestate_identity p));
    ("repository_device", to_value (pp_repository_device p)); ("repository_inode", to_value (pp_repository_inode p));
    ("git_directory_device", to_value (pp_git_directory_device p));
    ("git_directory_inode", to_value (pp_git_directory_inode p));
    ("uid", to_value (pp_uid p)); ("gid", to_value (pp_gid p)); ("staging_root", to_value (pp_staging_root p));
    ("artifact", to_value (pp_artifact p)); ("candidate_pack_digest", to_value (pp_candidate_pack_digest p));
    ("object_format", to_value (pp_object_format p)); ("expected_object", to_value (pp_expected_object p));
    ("expected_tree", to_value (pp_expected_tree p)); ("new_object", to_value (pp_new_object p));
    ("expected_post_tree", to_value (pp_expected_post_tree p)); ("expires_unix_ms", to_value (pp_expires_unix_ms p));
    ("helper_executable", to_value (pp_helper_executable p));
    ("helper_launch_profile", to_value (pp_helper_launch_profile p))].
#[global] Instance CanonicalEffectV1_serialize : Serialize CanonicalEffectV1 := fun e =>
  match e with
  | EffManagedPointerPromotion p => to_value p
  | EffManagedFilePut t p e c m u g =>
      VObject [("kind", VString "managed_file_put"); ("target", to_value t); ("path", to_value p);
               ("expected_content", to_value e); ("content", to_value c); ("mode", to_value m);
               ("uid", to_value u); ("gid", to_value g)]
  | EffManagedFileDelete t p e =>
      VObject [("kind", VString "managed_file_delete"); ("target", to_value t); ("path", to_value p);
               ("expected_content", to_value e)]
  | EffSystemdUnit t u a s f =>
      VObject [("kind", VString "systemd_unit"); ("target", to_value t); ("unit", to_value u);
               ("action", to_value a); ("expected_active_state", to_value s);
               ("expected_unit_file_state", to_value f)]
  | EffSystemdManagerReload t m g =>
      VObject [("kind", VString "systemd_manager_reload"); ("target", to_value t);
               ("machine_identity", to_value m); ("expected_generation", to_value g)]
  end.

(** [CanonicalEffectV1::family] and [::target]. *)
Definition effect_family (e : CanonicalEffectV1) : EffectFamilyV1 :=
  match e with
  | EffManagedPointerPromotion _ => CodePromotion
  | EffManagedFilePut _ _ _ _ _ _ _ | EffManagedFileDelete _ _ _ => FamilyManagedFile
  | EffSystemdUnit _ _ _ _ _ | EffSystemdManagerReload _ _ _ => FamilySystemd
  end.
Definition effect_target (e : CanonicalEffectV1) : TargetId :=
  match e with
  | EffManagedPointerPromotion p => pp_target p
  | EffManagedFilePut t _ _ _ _ _ _ | EffManagedFileDelete t _ _
  | EffSystemdUnit t _ _ _ _ | EffSystemdManagerReload t _ _ => t
  end.

Record CanonicalProposalBodyV1 : Type := mkBody {
  pb_schema : string;
  pb_proposal_id : string;
  pb_intent_digest : Digest;
  pb_governor_authentication : Digest;
  pb_authority_domain : AuthorityDomainId;
  pb_epoch : EpochId;
  pb_compiled_at_unix_ms : Z;
  pb_proposer : PrincipalChainV1;
  pb_catalog_schema : string;
  pb_catalog_identity : Digest;
  pb_security_profile_identity : Digest;
  pb_judgment : Digest;
  pb_effects : list CanonicalEffectV1
}.
#[global] Instance CanonicalProposalBodyV1_serialize : Serialize CanonicalProposalBodyV1 := fun b =>
  VObject [("schema", to_value (pb_schema b)); ("proposal_id", to_value (pb_proposal_id b));
    ("intent_digest", to_value (pb_intent_digest b));
    ("governor_authentication", to_value (pb_governor_authentication b));
    ("authority_domain", to_value (pb_authority_domain b)); ("epoch", to_value (pb_epoch b));
    ("compiled_at_unix_ms", to_value (pb_compiled_at_unix_ms b)); ("proposer", to_value (pb_proposer b));
    ("catalog_schema", to_value (pb_catalog_schema b)); ("catalog_identity", to_value (pb_catalog_identity b));
    ("security_profile_identity", to_value (pb_security_profile_identity b));
    ("judgment", to_value (pb_judgment b)); ("effects", to_value (pb_effects b))].

(** [struct CanonicalEffectProposalV1]. *)
Record CanonicalEffectProposalV1 : Type := mkProposal { cp_digest : Digest; cp_body : CanonicalProposalBodyV1 }.
#[global] Instance CanonicalProposalBodyV1_eq_dec : EqDecision CanonicalProposalBodyV1.
Proof. solve_decision. Defined.
#[global] Instance CanonicalEffectProposalV1_eq_dec : EqDecision CanonicalEffectProposalV1.
Proof. solve_decision. Defined.

#[global] Instance PromotionEffect_inj : SerializeInj PromotionEffect.
Proof. ser_struct. Qed.
Definition effect_kind (e : CanonicalEffectV1) : string :=
  match e with
  | EffManagedPointerPromotion _ => "managed_pointer_promotion"
  | EffManagedFilePut _ _ _ _ _ _ _ => "managed_file_put"
  | EffManagedFileDelete _ _ _ => "managed_file_delete"
  | EffSystemdUnit _ _ _ _ _ => "systemd_unit"
  | EffSystemdManagerReload _ _ _ => "systemd_manager_reload"
  end.

Lemma effect_kind_equiv e e' : value_equiv (to_value e) (to_value e') -> effect_kind e = effect_kind e'.
Proof.
  assert (forall e, exists l, to_value e = VObject (("kind", VString (effect_kind e)) :: l) /\
    NoDup ("kind" :: map fst l)) as Hk.
  { intros []; eexists; (split; [reflexivity | ser_nodup]). }
  intros Hv. destruct (Hk e) as (l & Hl & Hn), (Hk e') as (l' & Hl' & Hn'). rewrite Hl, Hl' in Hv.
  apply string_equiv. eapply (object_equiv_member "kind"); [| | | | exact Hv]; [exact Hn | exact Hn' | by left | by left].
Qed.

#[global] Instance CanonicalEffectV1_inj : SerializeInj CanonicalEffectV1.
Proof.
  intros e e' Hv. pose proof (effect_kind_equiv e e' Hv) as Hk.
  destruct e, e'; try discriminate Hk; clear Hk; [f_equal; by apply to_value_inj | | | |]; ser_fields Hv; reflexivity.
Qed.
#[global] Instance CanonicalProposalBodyV1_inj : SerializeInj CanonicalProposalBodyV1.
Proof. ser_struct. Qed.

Lemma intent_effect_kind_equiv (e e' : EffectIntentV1) :
  value_equiv (to_value e) (to_value e') -> e = e'.
Proof.
  destruct e, e'; intros Hv; ser_member Hv "kind"; apply string_equiv in E; try discriminate E; clear E;
    ser_fields Hv; reflexivity.
Qed.
#[global] Instance EffectIntentV1_inj : SerializeInj EffectIntentV1 := intent_effect_kind_equiv.
#[global] Instance ProposalIntentV1_inj : SerializeInj ProposalIntentV1.
Proof. ser_struct. Qed.
#[global] Instance JudgmentSubject_inj : SerializeInj JudgmentSubject.
Proof. ser_struct. Qed.

(** ** The compiler *)

(** [struct EffectCompilerV1] and [struct EffectCompilationCutV1]. *)
Record EffectCompilerV1 : Type := mkCompiler {
  co_catalog : EffectCatalogV1;
  co_security_profile_identity : Digest
}.
Record EffectCompilationCutV1 : Type := mkCut {
  cu_compiled_at_unix_ms : Z;
  cu_observations : list (string * TargetObservationV1);
  cu_prepared_candidates : list (string * PreparedManagedPointerCandidateV1)
}.

(** [struct CompileOneContextV1]. *)
Record CompileOneContextV1 : Type := mkContext {
  cx_prepared_candidate : option PreparedManagedPointerCandidateV1;
  cx_authority_domain : AuthorityDomainId;
  cx_epoch : EpochId;
  cx_catalog_identity : Digest;
  cx_security_profile_identity : Digest;
  cx_operation_id : option Digest;
  cx_compiled_at_unix_ms : Z
}.

(** The tuple whose digest is a promotion's operation id. *)
Record OperationSubject : Type := mkOperation {
  os_authority_domain : AuthorityDomainId;
  os_epoch : EpochId;
  os_proposal_id : string;
  os_index : Z;
  os_target : TargetId;
  os_artifact : Digest
}.
#[global] Instance OperationSubject_serialize : Serialize OperationSubject := fun s =>
  VArray [VString "ag.effect.managed-pointer-operation/v1"; to_value (os_authority_domain s);
          to_value (os_epoch s); to_value (os_proposal_id s); to_value (os_index s);
          to_value (os_target s); to_value (os_artifact s)].

Section Compiler.
  Context `{Deps}.

(** [CanonicalEffectProposalV1::verify_digest]. *)
Definition verify_digest (p : CanonicalEffectProposalV1) : res EffectError unit :=
  let? digest := digest_serializable (cp_body p) in
  reject_if (digest != cp_digest p) CanonicalDigestMismatch ;?
  Ok tt.

(** The tests of [compile_one] on a promotion's definition. *)
Definition definition_refused (d : ManagedPointerDefinition) : bool :=
  negb (is_canonical_absolute_root (pd_allowed_root d))
  || negb (is_canonical_relative_path (pd_repository d))
  || negb (is_canonical_git_reference (pd_reference d))
  || negb (is_canonical_absolute_root (pd_staging_root d))
  || path_starts_with (pd_staging_root d) (pd_allowed_root d)
  || (pd_uid d =? U32_MAX)%Z
  || (pd_gid d =? U32_MAX)%Z
  || (pd_promotion_ttl_ms d =? 0)%Z.

(** The comparison of the prepared candidate with the definition, the
    observation and the context. *)
Definition preparation_refused (target : TargetId) (artifact : Digest) (d : ManagedPointerDefinition)
    (o : ManagedPointerObservation) (cx : CompileOneContextV1) (c : PreparedManagedPointerCandidateV1)
    (exact_basis_identity : Digest) : bool :=
  let basis := ca_exact_basis c in
  let inputs := ca_complete_inputs c in
  (eb_authority_domain basis != cx_authority_domain cx)
  || (eb_epoch basis != cx_epoch cx)
  || (eb_target basis != target)
  || (eb_catalog_identity basis != cx_catalog_identity cx)
  || (eb_security_profile_identity basis != cx_security_profile_identity cx)
  || (eb_reference basis != pd_reference d)
  || (eb_repository_identity basis != po_repository_identity o)
  || (eb_prestate_identity basis != po_prestate_identity o)
  || negb (eb_repository_device basis =? po_repository_device o)%Z
  || negb (eb_repository_inode basis =? po_repository_inode o)%Z
  || negb (eb_git_directory_device basis =? po_git_directory_device o)%Z
  || negb (eb_git_directory_inode basis =? po_git_directory_inode o)%Z
  || negb (eb_uid basis =? po_repository_uid o)%Z
  || negb (eb_gid basis =? po_repository_gid o)%Z
  || (eb_object_format basis != po_object_format o)
  || (eb_current_object basis != po_current_object o)
  || (eb_current_tree basis != po_current_tree o)
  || (ci_exact_basis inputs != exact_basis_identity)
  || (ci_artifact inputs != artifact)
  || (ci_candidate_pack_digest inputs != po_candidate_pack_digest o)
  || (ci_candidate_object inputs != po_candidate_object o)
  || (ci_candidate_tree inputs != po_candidate_tree o)
  || (ci_candidate_parent inputs != po_candidate_parent o)
  || (ci_staging_root inputs != pd_staging_root d)
  || (ci_helper_executable inputs != pd_helper_executable d)
  || (ci_helper_launch_profile inputs != pd_helper_launch_profile d)
  || (cx_compiled_at_unix_ms cx <? ps_issued_at_unix_ms (ca_preparation_standing c))%Z
  || (ps_expires_at_unix_ms (ca_preparation_standing c) <=? cx_compiled_at_unix_ms cx)%Z.

(** The managed-pointer arm of [compile_one]. *)
Definition compile_promotion (target : TargetId) (artifact : Digest) (d : ManagedPointerDefinition)
    (o : ManagedPointerObservation) (cx : CompileOneContextV1) : res EffectError CanonicalEffectV1 :=
  let? prepared := ok_or (MissingPreparedCandidate target) (cx_prepared_candidate cx) in
  let? prepared_candidate_identity := candidate_identity prepared in
  let? exact_basis_identity := basis_identity (ca_exact_basis prepared) in
  let? complete_inputs_identity := inputs_identity (ca_complete_inputs prepared) (po_object_format o) in
  let? candidate_preparation_receipt := receipt_identity (ca_preparation_receipt prepared) in
  reject_if ((pd_repository_identity d != po_repository_identity o)
             || negb (pd_uid d =? po_repository_uid o)%Z
             || negb (pd_gid d =? po_repository_gid o)%Z
             || (po_repository_inode o =? 0)%Z
             || (po_git_directory_inode o =? 0)%Z) (TargetIdentityMismatch target) ;?
  reject_if (negb (po_clean o)) (PromotionTargetDirty target) ;?
  reject_if (po_reference_checked_out o) (PromotionReferenceCheckedOut target) ;?
  validate_git_object (po_current_object o) (po_object_format o) ;?
  validate_git_object (po_current_tree o) (po_object_format o) ;?
  validate_git_object (po_candidate_object o) (po_object_format o) ;?
  validate_git_object (po_candidate_tree o) (po_object_format o) ;?
  validate_git_object (po_candidate_parent o) (po_object_format o) ;?
  reject_if (po_candidate_parent o != po_current_object o) (PromotionBaseMismatch target) ;?
  reject_if (definition_refused d) (InvalidPromotionDefinition target) ;?
  reject_if (preparation_refused target artifact d o cx prepared exact_basis_identity)
    PreparedCandidateBindingMismatch ;?
  let? expires_unix_ms := ok_or PromotionExpiryOverflow
    (checked_add_u64 (cx_compiled_at_unix_ms cx) (pd_promotion_ttl_ms d)) in
  let? operation_id := ok_or MalformedIntent (cx_operation_id cx) in
  Ok (EffManagedPointerPromotion (mkPromotion MANAGED_POINTER_PROMOTION_SCHEMA_V2 operation_id
    prepared_candidate_identity exact_basis_identity complete_inputs_identity candidate_preparation_receipt
    target (pd_allowed_root d) (pd_repository d) (pd_reference d) (pd_repository_identity d)
    (po_prestate_identity o) (po_repository_device o) (po_repository_inode o)
    (po_git_directory_device o) (po_git_directory_inode o) (pd_uid d) (pd_gid d) (pd_staging_root d)
    artifact (po_candidate_pack_digest o) (po_object_format o)
    (po_current_object o) (po_current_tree o) (po_candidate_object o) (po_candidate_tree o)
    expires_unix_ms (pd_helper_executable d) (pd_helper_launch_profile d))).

(** [compile_one]. *)
Definition compile_one (intent : EffectIntentV1) (definition : TargetDefinitionV1)
    (observation : TargetObservationV1) (cx : CompileOneContextV1) : res EffectError CanonicalEffectV1 :=
  match intent, definition, observation with
  | IntentManagedPointerPromotion target artifact, DefManagedPointer d, ObsManagedPointer o =>
      compile_promotion target artifact d o cx
  | IntentManagedFilePut target content, DefManagedFile path mode uid gid, ObsManagedFile current regular =>
      reject_if (negb regular) (UnsafeTarget target) ;?
      Ok (EffManagedFilePut target path current content mode uid gid)
  | IntentManagedFileDelete target, DefManagedFile path _ _ _, ObsManagedFile (Some current) true =>
      Ok (EffManagedFileDelete target path current)
  | IntentSystemdUnit target action, DefSystemdUnit unit allowed, ObsSystemdUnit active file_state =>
      reject_if (negb (bool_decide (action ∈ allowed))) (ActionNotAllowed target) ;?
      Ok (EffSystemdUnit target unit action active file_state)
  | IntentSystemdManagerReload target, DefSystemdManager, ObsSystemdManager machine generation =>
      Ok (EffSystemdManagerReload target machine generation)
  | _, _, _ => Err (TargetKindMismatch (intent_target intent))
  end.

(** The operation id of the effect at [index]. *)
Definition operation_id_of (intent : ProposalIntentV1) (proposal_id : string) (index : nat)
    (requested : EffectIntentV1) : res EffectError (option Digest) :=
  match requested with
  | IntentManagedPointerPromotion target artifact =>
      reject_if (U32_MAX <? Z.of_nat index)%Z MalformedIntent ;?
      let? d := digest_serializable (mkOperation (in_authority_domain intent) (in_epoch intent) proposal_id
                  (Z.of_nat index) target artifact) in
      Ok (Some d)
  | _ => Ok None
  end.

(** The loop of [compile] over the requested effects. *)
Fixpoint compile_effects (c : EffectCompilerV1) (intent : ProposalIntentV1) (proposal_id : string)
    (cut : EffectCompilationCutV1) (index : nat) (l : list EffectIntentV1)
    : res EffectError (list CanonicalEffectV1) :=
  match l with
  | [] => Ok []
  | requested :: l' =>
      let key := target_str (intent_target requested) in
      let? definition := ok_or (UnknownTarget (intent_target requested)) (btree_get key (ct_targets (co_catalog c))) in
      let? observation := ok_or (MissingObservation (intent_target requested)) (btree_get key (cu_observations cut)) in
      let? operation_id := operation_id_of intent proposal_id index requested in
      let? e := compile_one requested definition observation
        (mkContext (btree_get key (cu_prepared_candidates cut)) (in_authority_domain intent) (in_epoch intent)
           (ct_identity (co_catalog c)) (co_security_profile_identity c) operation_id
           (cu_compiled_at_unix_ms cut)) in
      let? rest := compile_effects c intent proposal_id cut (S index) l' in
      Ok (e :: rest)
  end.

(** The target of a promotion. *)
Definition promotion_target (e : EffectIntentV1) : option string :=
  match e with IntentManagedPointerPromotion t _ => Some (target_str t) | _ => None end.

Definition expected_prepared_targets (l : list EffectIntentV1) : list string :=
  sort_dedup (omap promotion_target l).

(** [EffectCompilerV1::compile]. *)
Definition compile (c : EffectCompilerV1) (proposal_id : string) (intent : ProposalIntentV1)
    (proposer : PrincipalChainV1) (governor_authentication : Digest) (cut : EffectCompilationCutV1)
    : res EffectError CanonicalEffectProposalV1 :=
  validate_shape intent ;?
  reject_if (ct_schema (co_catalog c) != EFFECT_CATALOG_SCHEMA_V1)
    (UnknownCatalogSchema (ct_schema (co_catalog c))) ;?
  reject_if ((proposal_id == EmptyString)
             || (in_proposer intent != proposer)
             || (in_authority_domain intent != pc_authority_domain proposer)
             || (in_epoch intent != pc_epoch proposer)) MalformedIntent ;?
  reject_if (sort_dedup (map fst (cu_prepared_candidates cut)) != expected_prepared_targets (in_effects intent))
    PreparedCandidateBindingMismatch ;?
  let? effects := compile_effects c intent proposal_id cut 0 (in_effects intent) in
  let? intent_digest := digest_serializable intent in
  let body := mkBody EFFECT_SCHEMA_V1 proposal_id intent_digest governor_authentication
    (in_authority_domain intent) (in_epoch intent) (cu_compiled_at_unix_ms cut) proposer
    (ct_schema (co_catalog c)) (ct_identity (co_catalog c)) (co_security_profile_identity c)
    (in_judgment intent) effects in
  let? digest := digest_serializable body in
  Ok (mkProposal digest body).

End Compiler.

(** ** What a compiled effect is *)

(** The facts a ratifier of the effect [e] relies on, per kind of effect: it
    came from the requested effect [r], the catalog's definition and the
    broker's observation of the same target. *)
Definition promotion_spec `{Deps} (c : EffectCompilerV1) (intent : ProposalIntentV1) (proposal_id : string) (index : nat)
    (cut : EffectCompilationCutV1) (d : ManagedPointerDefinition) (o : ManagedPointerObservation) (p : PromotionEffect)
    (k : PreparedManagedPointerCandidateV1) : Prop :=
  let basis := ca_exact_basis k in
  let inputs := ca_complete_inputs k in
  pp_schema p = MANAGED_POINTER_PROMOTION_SCHEMA_V2 /\
  digest_serializable (mkOperation (in_authority_domain intent) (in_epoch intent) proposal_id (Z.of_nat index)
                         (pp_target p) (pp_artifact p)) = Ok (pp_operation_id p) /\
  (* the place, the reference, the helper and the owner are the catalog's *)
  (pp_allowed_root p, pp_repository p, pp_reference p, pp_staging_root p, pp_helper_executable p, pp_helper_launch_profile p) =
  (pd_allowed_root d, pd_repository d, pd_reference d, pd_staging_root d, pd_helper_executable d, pd_helper_launch_profile d) /\
  (pp_repository_identity p, pp_uid p, pp_gid p) = (pd_repository_identity d, pd_uid d, pd_gid d) /\
  (* and they are what is observed there *)
  (pp_repository_identity p, pp_uid p, pp_gid p) = (po_repository_identity o, po_repository_uid o, po_repository_gid o) /\
  (pp_prestate_identity p, pp_repository_device p, pp_repository_inode p, pp_git_directory_device p, pp_git_directory_inode p) =
  (po_prestate_identity o, po_repository_device o, po_repository_inode o, po_git_directory_device o, po_git_directory_inode o) /\
  (pp_repository_inode p <> 0 /\ pp_git_directory_inode p <> 0)%Z /\
  (* the compare-and-swap goes from the observed clean state to its child *)
  (pp_expected_object p, pp_expected_tree p) = (po_current_object o, po_current_tree o) /\
  (pp_new_object p, pp_expected_post_tree p, pp_candidate_pack_digest p, pp_object_format p) =
  (po_candidate_object o, po_candidate_tree o, po_candidate_pack_digest o, po_object_format o) /\
  po_candidate_parent o = pp_expected_object p /\ po_clean o = true /\ po_reference_checked_out o = false /\
  Forall (fun x => is_git_object x (pp_object_format p) = true)
    [pp_expected_object p; pp_expected_tree p; pp_new_object p; pp_expected_post_tree p] /\
  (* the ratified identities are those of the prepared candidate *)
  candidate_identity k = Ok (pp_prepared_candidate p) /\ basis_identity basis = Ok (pp_exact_basis p) /\
  inputs_identity inputs (pp_object_format p) = Ok (pp_complete_inputs p) /\
  receipt_identity (ca_preparation_receipt k) = Ok (pp_candidate_preparation_receipt p) /\
  (* prepared in this context, for this effect, and still standing *)
  (eb_authority_domain basis, eb_epoch basis, eb_target basis, eb_catalog_identity basis,
   eb_security_profile_identity basis) =
  (in_authority_domain intent, in_epoch intent, pp_target p, ct_identity (co_catalog c),
   co_security_profile_identity c) /\
  (eb_reference basis, eb_repository_identity basis, eb_prestate_identity basis, eb_uid basis, eb_gid basis) =
  (pp_reference p, pp_repository_identity p, pp_prestate_identity p, pp_uid p, pp_gid p) /\
  (eb_repository_device basis, eb_repository_inode basis, eb_git_directory_device basis, eb_git_directory_inode basis) =
  (pp_repository_device p, pp_repository_inode p, pp_git_directory_device p, pp_git_directory_inode p) /\
  (eb_object_format basis, eb_current_object basis, eb_current_tree basis) =
  (pp_object_format p, pp_expected_object p, pp_expected_tree p) /\
  (ci_exact_basis inputs, ci_artifact inputs, ci_candidate_pack_digest inputs, ci_candidate_object inputs, ci_candidate_tree inputs,
   ci_candidate_parent inputs) =
  (pp_exact_basis p, pp_artifact p, pp_candidate_pack_digest p, pp_new_object p, pp_expected_post_tree p, pp_expected_object p) /\
  (ci_staging_root inputs, ci_helper_executable inputs, ci_helper_launch_profile inputs) =
  (pp_staging_root p, pp_helper_executable p, pp_helper_launch_profile p) /\
  (ps_issued_at_unix_ms (ca_preparation_standing k) <= cu_compiled_at_unix_ms cut
     < ps_expires_at_unix_ms (ca_preparation_standing k))%Z /\
  (* roots, owner, and the bounded expiry *)
  is_canonical_absolute_root (pp_allowed_root p) = true /\ is_canonical_relative_path (pp_repository p) = true /\
  is_canonical_git_reference (pp_reference p) = true /\ is_canonical_absolute_root (pp_staging_root p) = true /\
  path_starts_with (pp_staging_root p) (pp_allowed_root p) = false /\
  (pp_uid p <> U32_MAX /\ pp_gid p <> U32_MAX /\ pd_promotion_ttl_ms d <> 0)%Z /\
  pp_expires_unix_ms p = (cu_compiled_at_unix_ms cut + pd_promotion_ttl_ms d)%Z /\
  (pp_expires_unix_ms p <= U64_MAX)%Z.

Definition effect_spec `{Deps} (c : EffectCompilerV1) (intent : ProposalIntentV1) (proposal_id : string)
    (cut : EffectCompilationCutV1) (index : nat) (r : EffectIntentV1) (e : CanonicalEffectV1) : Prop :=
  let key := target_str (intent_target r) in
  effect_target e = intent_target r /\ effect_family e = intent_family r /\
  exists definition observation,
    btree_get key (ct_targets (co_catalog c)) = Some definition /\
    btree_get key (cu_observations cut) = Some observation /\
    match e with
    | EffManagedPointerPromotion p =>
        r = IntentManagedPointerPromotion (pp_target p) (pp_artifact p) /\
        pp_artifact p ∈ in_admitted_artifacts intent /\
        exists d o k, definition = DefManagedPointer d /\ observation = ObsManagedPointer o /\
          btree_get key (cu_prepared_candidates cut) = Some k /\ promotion_spec c intent proposal_id index cut d o p k
    | EffManagedFilePut t path expected content mode uid gid =>
        r = IntentManagedFilePut t content /\ content ∈ in_admitted_artifacts intent /\
        definition = DefManagedFile path mode uid gid /\ observation = ObsManagedFile expected true
    | EffManagedFileDelete t path expected =>
        r = IntentManagedFileDelete t /\ observation = ObsManagedFile (Some expected) true /\
        exists mode uid gid, definition = DefManagedFile path mode uid gid
    | EffSystemdUnit t unit action active file_state =>
        r = IntentSystemdUnit t action /\ observation = ObsSystemdUnit active file_state /\
        exists allowed, definition = DefSystemdUnit unit allowed /\ action ∈ allowed
    | EffSystemdManagerReload t machine generation =>
        r = IntentSystemdManagerReload t /\ definition = DefSystemdManager /\
        observation = ObsSystemdManager machine generation
    end.
(** One effect per requested effect, from position [index] on. *)
Fixpoint effects_spec `{Deps} (c : EffectCompilerV1) (intent : ProposalIntentV1) (proposal_id : string)
    (cut : EffectCompilationCutV1) (index : nat) (l : list EffectIntentV1) (es : list CanonicalEffectV1) : Prop :=
  match l, es with
  | [], [] => True
  | r :: l', e :: es' => effect_spec c intent proposal_id cut index r e /\ effects_spec c intent proposal_id cut (S index) l' es'
  | _, _ => False
  end.

Section CompilerLemmas.
  Context `{Deps}.

Lemma validate_artifacts_ok admitted l :
  validate_artifacts admitted l = Ok tt <->
  forall e a, e ∈ l -> required_artifact e = Some a -> a ∈ admitted.
Proof.
  induction l as [|e l IH]; simpl; [split; [intros _ e a He; by apply elem_of_nil in He | done]|].
  destruct (required_artifact e) as [a|] eqn:Ha; [rewrite guard_ok, negb_false_iff, bool_decide_eq_true, IH|rewrite IH].
  - split.
    + intros [Hin Hl] e' a' He Ha'. apply elem_of_cons in He as [->|He]; [congruence | eauto].
    + intros Hall. split; [apply (Hall e); [by left | done] |]. intros e' a' He. apply Hall. by right.
  - split; intros Hall e' a' He; [|apply Hall; by right].
    apply elem_of_cons in He as [->|He]; [congruence | eauto].
Qed.

Lemma definition_refused_false d :
  definition_refused d = false ->
  is_canonical_absolute_root (pd_allowed_root d) = true /\ is_canonical_relative_path (pd_repository d) = true /\
  is_canonical_git_reference (pd_reference d) = true /\ is_canonical_absolute_root (pd_staging_root d) = true /\
  path_starts_with (pd_staging_root d) (pd_allowed_root d) = false /\
  (pd_uid d <> U32_MAX /\ pd_gid d <> U32_MAX /\ pd_promotion_ttl_ms d <> 0)%Z.
Proof. unfold definition_refused. intros Hd. guards_in Hd. tauto. Qed.

Lemma preparation_refused_false target artifact d o cx k b :
  preparation_refused target artifact d o cx k b = false ->
  let basis := ca_exact_basis k in
  let inputs := ca_complete_inputs k in
  (eb_authority_domain basis, eb_epoch basis, eb_target basis, eb_catalog_identity basis,
   eb_security_profile_identity basis) =
  (cx_authority_domain cx, cx_epoch cx, target, cx_catalog_identity cx, cx_security_profile_identity cx) /\
  (eb_reference basis, eb_repository_identity basis, eb_prestate_identity basis, eb_uid basis, eb_gid basis) =
  (pd_reference d, po_repository_identity o, po_prestate_identity o, po_repository_uid o, po_repository_gid o) /\
  (eb_repository_device basis, eb_repository_inode basis, eb_git_directory_device basis, eb_git_directory_inode basis) =
  (po_repository_device o, po_repository_inode o, po_git_directory_device o, po_git_directory_inode o) /\
  (eb_object_format basis, eb_current_object basis, eb_current_tree basis) = (po_object_format o, po_current_object o, po_current_tree o) /\
  (ci_exact_basis inputs, ci_artifact inputs, ci_candidate_pack_digest inputs, ci_candidate_object inputs, ci_candidate_tree inputs,
   ci_candidate_parent inputs) =
  (b, artifact, po_candidate_pack_digest o, po_candidate_object o, po_candidate_tree o, po_candidate_parent o) /\
  (ci_staging_root inputs, ci_helper_executable inputs, ci_helper_launch_profile inputs) =
  (pd_staging_root d, pd_helper_executable d, pd_helper_launch_profile d) /\
  (ps_issued_at_unix_ms (ca_preparation_standing k) <= cx_compiled_at_unix_ms cx
     < ps_expires_at_unix_ms (ca_preparation_standing k))%Z.
Proof.
  unfold preparation_refused. cbv zeta. intros Hp. guards_in Hp. rewrite !pair_equal_spec.
  decompose [and] Hp. split_all; done.
Qed.

Lemma compile_promotion_ok c intent pid cut target artifact d o oid k e index :
  operation_id_of intent pid index (IntentManagedPointerPromotion target artifact) = Ok oid ->
  compile_promotion target artifact d o
    (mkContext k (in_authority_domain intent) (in_epoch intent) (ct_identity (co_catalog c))
       (co_security_profile_identity c) oid (cu_compiled_at_unix_ms cut)) = Ok e ->
  exists p cand, e = EffManagedPointerPromotion p /\ k = Some cand /\
    pp_target p = target /\ pp_artifact p = artifact /\ promotion_spec c intent pid index cut d o p cand.
Proof.
  intros Hoid. unfold compile_promotion. cbn [cx_prepared_candidate cx_operation_id cx_compiled_at_unix_ms]. intros He.
  apply res_bind_ok in He as (cand & Hk%ok_or_ok & He). apply res_bind_ok in He as (ci & Hci & He).
  apply res_bind_ok in He as (bi & Hbi & He). apply res_bind_ok in He as (ii & Hii & He).
  apply res_bind_ok in He as (ri & Hri & He).
  rewrite !then_ok, !validate_git_object_ok, !reject_if_ok in He.
  destruct He as (Hid & Hclean & Hout & Hg1 & Hg2 & Hg3 & Hg4 & _ & Hbase & Hdef & Hprep & He).
  apply res_bind_ok in He as (expires & Hexp%ok_or_ok & He). apply res_bind_ok in He as (op & Hop%ok_or_ok & [= <-]).
  apply definition_refused_false in Hdef. apply preparation_refused_false in Hprep. cbv zeta in *.
  apply checked_add_u64_Some in Hexp as [Hsum Hmax]. guards_in Hid.
  apply negb_false_iff in Hclean. apply negb_bool_decide_false in Hbase.
  unfold operation_id_of in Hoid. apply then_ok in Hoid as [_ Hoid]. apply res_bind_ok in Hoid as (op' & Hop' & [= <-]). injection Hop as ->.
  eexists _, cand. split; [reflexivity|]. split_all; [done | done | done |].
  cbn [cx_authority_domain cx_epoch cx_catalog_identity cx_security_profile_identity cx_compiled_at_unix_ms] in *.
  rewrite !pair_equal_spec in Hprep. decompose [and] Hprep. decompose [and] Hdef. decompose [and] Hid. clear Hprep Hdef Hid.
  unfold promotion_spec. cbv zeta. cbn. rewrite !pair_equal_spec. split_all; try done; try congruence. by repeat constructor.
Qed.

Lemma compile_one_ok c intent pid cut index r definition observation oid e :
  let key := target_str (intent_target r) in
  operation_id_of intent pid index r = Ok oid ->
  (forall a, required_artifact r = Some a -> a ∈ in_admitted_artifacts intent) ->
  btree_get key (ct_targets (co_catalog c)) = Some definition ->
  btree_get key (cu_observations cut) = Some observation ->
  compile_one r definition observation
    (mkContext (btree_get key (cu_prepared_candidates cut)) (in_authority_domain intent) (in_epoch intent)
       (ct_identity (co_catalog c)) (co_security_profile_identity c) oid (cu_compiled_at_unix_ms cut)) = Ok e ->
  effect_spec c intent pid cut index r e.
Proof.
  intros key Hoid Had Hdef Hobs He. unfold effect_spec. fold key.
  destruct r as [t a|t a|t|t a|t], definition as [d|path mode uid gid|unit allowed|],
    observation as [o|cur [|]|act fs|m g]; simpl in He; try discriminate He;
    try (destruct cur; discriminate He).
  - apply (compile_promotion_ok _ _ pid _ _ _ _ _ _ _ _ index Hoid) in He as (p & k & -> & Hk & Ht & Ha & Hp).
    split_all; [done | done|]. exists (DefManagedPointer d), (ObsManagedPointer o). split_all; try done.
    + by rewrite Ht, Ha.
    + rewrite Ha. by apply Had.
    + by exists d, o, k.
  - injection He as <-. split_all; [done | done|]. eexists _, _. split_all; try done. by apply Had.
  - destruct cur as [cur|]; [|discriminate He]. injection He as <-. split_all; [done | done|].
    eexists _, _. split_all; try done. by exists mode, uid, gid.
  - apply guard_ok in He as [Hal%negb_false_iff%bool_decide_eq_true [= <-]]. split_all; [done | done|].
    eexists _, _. split_all; try done. by exists allowed.
  - injection He as <-. split_all; [done | done|]. eexists _, _. split_all; done.
Qed.

Lemma compile_effects_ok c intent pid cut index l es :
  (forall e a, e ∈ l -> required_artifact e = Some a -> a ∈ in_admitted_artifacts intent) ->
  compile_effects c intent pid cut index l = Ok es -> effects_spec c intent pid cut index l es.
Proof.
  revert index es. induction l as [|r l IH]; intros index es Had He; simpl in He; [by injection He as <-|].
  apply res_bind_ok in He as (d & Hd%ok_or_ok & He). apply res_bind_ok in He as (o & Ho%ok_or_ok & He).
  apply res_bind_ok in He as (oid & Hoid & He). apply res_bind_ok in He as (e & Hone & He).
  apply res_bind_ok in He as (rest & Hrest & [= <-]). split.
  - eapply compile_one_ok; [exact Hoid| |exact Hd|exact Ho|exact Hone]. intros a. apply Had. by left.
  - apply (IH (S index)); [|done]. intros e' a He'. apply Had. by right.
Qed.

Lemma validate_shape_ok i :
  validate_shape i = Ok tt <->
  in_schema i = EFFECT_SCHEMA_V1 /\ in_intent_id i <> EmptyString /\ in_effects i <> [] /\
  forall e a, e ∈ in_effects i -> required_artifact e = Some a -> a ∈ in_admitted_artifacts i.
Proof.
  unfold validate_shape. rewrite !guard_ok, validate_artifacts_ok, negb_bool_decide_false, orb_false,
    bool_decide_eq_false, Nat.eqb_neq.
  assert (length (in_effects i) <> 0 <-> in_effects i <> []) as -> by (by destruct (in_effects i)). tauto.
Qed.

(** ** Which errors compilation returns *)

(** Failures of custody, observation or encoding rather than of the intent. *)
Definition operational (e : EffectError) : bool :=
  match e with
  | UnknownCatalogSchema _ | MissingObservation _ | InvalidPromotionDefinition _ | PromotionExpiryOverflow
  | Canonical _ => true
  | _ => false
  end.
Definition classified (e : EffectError) : bool := is_semantic_compilation_refusal e || operational e.

(** Every error of [m] is classified, and it does not panic. *)
Definition fails_classified {A} (m : res EffectError A) : Prop :=
  match m with Ok _ => True | Err e => classified e = true | Panic => False end.

Lemma classified_bind {A B} (m : res EffectError A) (k : A -> res EffectError B) :
  fails_classified m -> (forall a, m = Ok a -> fails_classified (k a)) -> fails_classified (res_bind m k).
Proof. destruct m; simpl; auto. Qed.
Lemma classified_guard c e : classified e = true -> fails_classified (reject_if c e).
Proof. by destruct c. Qed.
Lemma classified_ok_or {A} e (o : option A) : classified e = true -> fails_classified (ok_or e o).
Proof. by destruct o. Qed.
Lemma classified_digest `{Serialize T} (x : T) : fails_classified (digest_serializable x).
Proof. unfold digest_serializable, to_vec. by destruct (jcs_to_vec (to_value x)). Qed.

Ltac classify :=
  repeat lazymatch goal with
    | |- fails_classified (reject_if _ _) => apply classified_guard; reflexivity
    | |- fails_classified (ok_or _ _) => apply classified_ok_or; reflexivity
    | |- fails_classified (digest_serializable _) => apply classified_digest
    | |- fails_classified (res_bind _ _) => apply classified_bind; [|intros ? _]
    | |- fails_classified (Ok _) => exact I
    | |- fails_classified (let _ := _ in _) => cbv zeta
    end.

Lemma validate_git_classified v f : fails_classified (validate_git_object v f).
Proof. by apply classified_guard. Qed.
Lemma basis_classified b : fails_classified (basis_identity b).
Proof. unfold basis_identity, validate_git_object. classify. Qed.
Lemma inputs_classified i f : fails_classified (inputs_identity i f).
Proof. unfold inputs_identity, validate_git_object. classify. Qed.
Lemma receipt_classified r : fails_classified (receipt_identity r).
Proof. unfold receipt_identity, effects_validate. classify. Qed.
Lemma standing_classified st : fails_classified (standing_identity st).
Proof. unfold standing_identity. classify. Qed.
Lemma candidate_classified k : fails_classified (candidate_identity k).
Proof.
  unfold candidate_identity.
  apply classified_bind; [classify|intros _ _]. apply classified_bind; [apply basis_classified|intros ? _].
  apply classified_bind; [apply inputs_classified|intros ? _].
  apply classified_bind; [apply receipt_classified|intros ? _].
  apply classified_bind; [apply standing_classified|intros ? _]. classify.
Qed.

Lemma compile_promotion_classified t a d o cx k :
  cx_prepared_candidate cx = Some k -> fails_classified (compile_promotion t a d o cx).
Proof.
  intros Hk. unfold compile_promotion. rewrite Hk. cbn [ok_or res_bind].
  apply classified_bind; [apply candidate_classified|intros ? _].
  apply classified_bind; [apply basis_classified|intros ? _].
  apply classified_bind; [apply inputs_classified|intros ? _].
  apply classified_bind; [apply receipt_classified|intros ? _].
  unfold validate_git_object. classify.
Qed.

Lemma compile_one_classified r d o cx :
  (forall t, promotion_target r = Some t -> exists k, cx_prepared_candidate cx = Some k) ->
  fails_classified (compile_one r d o cx).
Proof.
  intros Hk. unfold compile_one. destruct r as [t a|t a|t|t a|t], d, o as [o|cur reg|act fs|m g]; try done.
  - destruct (Hk _ eq_refl) as [k Hk']. by apply (compile_promotion_classified _ _ _ _ _ k).
  - classify.
  - by destruct cur, reg.
  - classify.
Qed.

Lemma compile_effects_classified c intent pid cut index l :
  (forall r t, r ∈ l -> promotion_target r = Some t -> exists k, btree_get t (cu_prepared_candidates cut) = Some k) ->
  fails_classified (compile_effects c intent pid cut index l).
Proof.
  revert index. induction l as [|r l IH]; intros index Hk; simpl; [done|].
  apply classified_bind; [classify|intros d _]. apply classified_bind; [classify|intros o _].
  apply classified_bind; [unfold operation_id_of; destruct r; classify|intros oid _].
  apply classified_bind.
  { apply compile_one_classified. intros t Ht. destruct (Hk r t) as [k Hk']; [by left | done |]. exists k. cbn.
    destruct r; try done. injection Ht as <-. done. }
  intros e _. apply classified_bind; [|intros; classify]. apply IH. intros r' t Hr'. apply Hk. by right.
Qed.

Lemma btree_get_key {V} k (l : list (string * V)) : k ∈ map fst l -> exists v, btree_get k l = Some v.
Proof.
  induction l as [|[j v] l IH]; simpl; [by intros Hk%elem_of_nil|]. rewrite elem_of_cons.
  destruct (String.eqb_spec k j) as [->|]; [by exists v|]. intros [?|Hk]; [done | by apply IH].
Qed.

(** The check on the prepared targets leaves no promotion without candidate. *)
Lemma prepared_targets_cover l (m : list (string * PreparedManagedPointerCandidateV1)) r t :
  sort_dedup (map fst m) = expected_prepared_targets l -> r ∈ l -> promotion_target r = Some t ->
  exists k, btree_get t m = Some k.
Proof.
  intros He Hr Ht. apply btree_get_key, elem_sort_dedup. rewrite He. apply elem_sort_dedup.
  apply list_elem_of_omap. eauto.
Qed.

Lemma compile_classified c pid intent proposer governor cut :
  fails_classified (compile c pid intent proposer governor cut).
Proof.
  unfold compile, validate_shape. apply classified_bind.
  { do 2 (apply classified_bind; [classify|intros _ _]). generalize (in_effects intent) as l.
    induction l as [|e l IH]; simpl; [done|]. destruct (required_artifact e); [|exact IH].
    apply classified_bind; [classify | intros; exact IH]. }
  intros _ _. do 2 (apply classified_bind; [classify|intros _ _]).
  apply classified_bind; [classify|intros [] Hprep].
  apply reject_if_ok, negb_bool_decide_false in Hprep. apply classified_bind; [|intros; classify].
  apply compile_effects_classified. intros r t. by apply prepared_targets_cover.
Qed.

End CompilerLemmas.

(** ** The properties *)

(** C22. A compiled proposal is what the broker observed, not what the intent
    claims: when [compile] succeeds the digest is that of the body, the body
    carries the authenticated proposer with its domain and epoch, the catalog's
    and the broker's identities and the intent's judgment, and its effects are,
    in order, one per requested effect, each built from the catalog definition
    and the observation of the requested target, with its artifact admitted.  Every
    field of a promotion is fixed: place, reference, staging root, helper and owner by
    the catalog, repository, devices, inodes, objects and trees by the observation, the
    identities by a coherent candidate prepared in the same context for the same
    effect, the operation id by the proposal and the position; it moves the observed
    clean reference to a direct child, and its expiry is bounded without wrapping. *)
Theorem compile_sound `{Deps} c pid intent proposer governor cut p :
  compile c pid intent proposer governor cut = Ok p ->
  verify_digest p = Ok tt /\
  effects_spec c intent pid cut 0 (in_effects intent) (pb_effects (cp_body p)) /\
  pb_effects (cp_body p) <> [] /\
  pb_schema (cp_body p) = EFFECT_SCHEMA_V1 /\ pb_proposal_id (cp_body p) = pid /\
  in_proposer intent = proposer /\ pb_proposer (cp_body p) = proposer /\
  (pb_authority_domain (cp_body p), pb_epoch (cp_body p)) = (pc_authority_domain proposer, pc_epoch proposer) /\
  digest_serializable intent = Ok (pb_intent_digest (cp_body p)) /\
  (pb_judgment (cp_body p), pb_governor_authentication (cp_body p), pb_compiled_at_unix_ms (cp_body p)) =
  (in_judgment intent, governor, cu_compiled_at_unix_ms cut) /\
  (pb_catalog_schema (cp_body p), pb_catalog_identity (cp_body p), pb_security_profile_identity (cp_body p)) =
  (EFFECT_CATALOG_SCHEMA_V1, ct_identity (co_catalog c), co_security_profile_identity c).
Proof.
  unfold compile. rewrite then_ok, validate_shape_ok, !guard_ok, !orb_false, !negb_bool_decide_false.
  intros ((_ & _ & Hne & Had) & Hcat & [[[_ Hprop] Hdom] Hep] & _ & Hp).
  apply res_bind_ok in Hp as (es & Hes & Hp). apply res_bind_ok in Hp as (idg & Hid & Hp).
  cbv zeta in Hp. apply res_bind_ok in Hp as (d & Hd & [= <-]). cbn.
  pose proof (compile_effects_ok _ _ _ _ _ _ _ Had Hes) as Hf.
  split_all; try done; try congruence.
  - unfold verify_digest. cbn. rewrite Hd. cbn. by rewrite bool_decide_eq_true_2.
  - intros ->. by destruct (in_effects intent).
Qed.

(** Every failure of the compiler is classified: an error is either a
    semantic refusal ([is_semantic_compilation_refusal]) or one of the five
    operational failures (foreign catalog schema, missing observation, invalid
    catalog definition, expiry overflow, encoding); in particular a missing
    prepared candidate is never reported from the compilation loop, because the
    comparison of the prepared targets comes first, and nothing panics. *)
Theorem compile_failures_classified `{Deps} c pid intent proposer governor cut :
  match compile c pid intent proposer governor cut with
  | Ok _ => True
  | Err e => is_semantic_compilation_refusal e = true \/ operational e = true
  | Panic => False
  end.
Proof.
  cut (fails_classified (compile c pid intent proposer governor cut)).
  { unfold fails_classified, classified. destruct (compile _ _ _ _ _ _); [done | | done]. apply orb_true_iff. }
  apply compile_classified.
Qed.

(** A concrete compilation: one promotion and one file. *)
Definition toy_definition : ManagedPointerDefinition :=
  mkPointerDefinition "/srv/git" "repo" "refs/heads/main" (toy_digest 3) 1000 1000 "/var/lib/ag/staging" 60000
    (toy_digest 7) (toy_digest 8).
Definition toy_catalog : EffectCatalogV1 :=
  mkCatalog EFFECT_CATALOG_SCHEMA_V1 (toy_digest 1)
    [("motd", DefManagedFile "/etc/motd" 420 0 0); ("repo-main", DefManagedPointer toy_definition)].
Definition toy_compiler : EffectCompilerV1 := mkCompiler toy_catalog (toy_digest 2).
Definition toy_observation : ManagedPointerObservation :=
  mkPointerObservation (toy_object "a") (toy_object "b") (toy_object "c") (toy_object "d") (toy_object "a")
    (toy_digest 6) Sha1 (toy_digest 3) (toy_digest 4) 8 9 10 11 1000 1000 true false.
Definition toy_cut : EffectCompilationCutV1 :=
  mkCut 1500 [("motd", ObsManagedFile None true); ("repo-main", ObsManagedPointer toy_observation)]
    [("repo-main", toy_prepared)].
Definition toy_proposer : PrincipalChainV1 := mkChain toy_domain (mkEpochId 7) (pc_nodes (toy_chain 1 2)).
Definition toy_intent : ProposalIntentV1 :=
  mkIntent EFFECT_SCHEMA_V1 "intent-1" toy_domain (mkEpochId 7) toy_proposer (toy_digest 9)
    [toy_digest 5; toy_digest 12]
    [IntentManagedPointerPromotion toy_target (toy_digest 5); IntentManagedFilePut (mkTargetId "motd") (toy_digest 12)].
Definition toy_proposal : CanonicalEffectProposalV1 :=
  match compile toy_compiler "proposal-1" toy_intent toy_proposer (toy_digest 13) toy_cut with
  | Ok p => p
  | _ => mkProposal (toy_digest 0) (mkBody EmptyString EmptyString (toy_digest 0) (toy_digest 0) toy_domain
           (mkEpochId 1) 0 toy_proposer EmptyString (toy_digest 0) (toy_digest 0) (toy_digest 0) [])
  end.

Lemma compile_sound_witness :
  verify_digest toy_proposal = Ok tt /\ length (pb_effects (cp_body toy_proposal)) = 2.
Proof.
  destruct (compile_sound toy_compiler "proposal-1" toy_intent toy_proposer (toy_digest 13) toy_cut toy_proposal)
    as (Hd & _ & _); [vm_compute; reflexivity|].
  split; [exact Hd | vm_compute; reflexivity].
Defined.
