(* ===== verification/Proposal.v ===== *)
(** * Ratification, mandates and the proposal lifecycle (ag-effect/src/lib.rs)

    The authorization records, the candidate ratification that binds one
    prepared candidate, the promotion refusal, the bounded host mandate, and the
    durable proposal state machine. *)

From S2P Require Import Prelude Wire Fixture Digest Names Origin Capability Identity Paths Effect Compile.

(** ** Ratification *)

Inductive RatificationV1 : Type :=
  | HumanExact (proposal : Digest) (ratifier : PrincipalChainV1) (challenge : string) (signed_request : Digest)
  | BoundedMandate (mandate proposal : Digest) (actor : PrincipalV1)
  | DerivedCodePromotion (proposal verifier_executable verifier_launch_profile verifier_receipt : Digest)
      (adapter : PrincipalChainV1).
#[global] Instance RatificationV1_serialize `{Deps} : Serialize RatificationV1 := fun r =>
  VObject match r with
  | HumanExact p r c s =>
      [("kind", VString "human_exact"); ("proposal", to_value p); ("ratifier", to_value r);
       ("challenge", to_value c); ("signed_request", to_value s)]
  | BoundedMandate m p a =>
      [("kind", VString "bounded_mandate"); ("mandate", to_value m); ("proposal", to_value p); ("actor", to_value a)]
  | DerivedCodePromotion p e l v a =>
      [("kind", VString "derived_code_promotion"); ("proposal", to_value p); ("verifier_executable", to_value e);
       ("verifier_launch_profile", to_value l); ("verifier_receipt", to_value v); ("adapter", to_value a)]
  end.

(** [RatificationV1::proposal]. *)
Definition ratification_proposal (r : RatificationV1) : Digest :=
  match r with
  | HumanExact p _ _ _ | BoundedMandate _ p _ | DerivedCodePromotion p _ _ _ _ => p
  end.

Record ManagedPointerCandidateRatificationV1 : Type := mkCandidateRatification {
  cr_schema : string;
  cr_proposal : Digest;
  cr_candidate : Digest;
  cr_exact_basis : Digest;
  cr_complete_inputs : Digest;
  cr_preparation_receipt : Digest;
  cr_authorization : Digest
}.
#[global] Instance ManagedPointerCandidateRatificationV1_serialize
    : Serialize ManagedPointerCandidateRatificationV1 := fun r =>
  VObject [("schema", to_value (cr_schema r)); ("proposal", to_value (cr_proposal r));
           ("candidate", to_value (cr_candidate r)); ("exact_basis", to_value (cr_exact_basis r));
           ("complete_inputs", to_value (cr_complete_inputs r));
           ("preparation_receipt", to_value (cr_preparation_receipt r));
           ("authorization", to_value (cr_authorization r))].

Inductive ManagedPointerPromotionRefusalCodeV1 : Type :=
  CurrentBasisMismatch | CandidateBindingMismatch | StandingUnavailable.
#[global] Instance ManagedPointerPromotionRefusalCodeV1_serialize
    : Serialize ManagedPointerPromotionRefusalCodeV1 := fun c =>
  VString match c with
          | CurrentBasisMismatch => "current_basis_mismatch"
          | CandidateBindingMismatch => "candidate_binding_mismatch"
          | StandingUnavailable => "standing_unavailable"
          end.

Record ManagedPointerPromotionRefusalV1 : Type := mkPromotionRefusal {
  rf_schema : string;
  rf_proposal : Digest;
  rf_candidate : Digest;
  rf_exact_basis : Digest;
  rf_candidate_ratification : ManagedPointerCandidateRatificationV1;
  rf_attempted_authorization : RatificationV1;
  rf_observed_at_unix_ms : Z;
  rf_code : ManagedPointerPromotionRefusalCodeV1;
  rf_detail : string
}.
#[global] Instance ManagedPointerPromotionRefusalV1_serialize `{Deps}
    : Serialize ManagedPointerPromotionRefusalV1 := fun r =>
  VObject [("schema", to_value (rf_schema r)); ("proposal", to_value (rf_proposal r));
           ("candidate", to_value (rf_candidate r)); ("exact_basis", to_value (rf_exact_basis r));
           ("candidate_ratification", to_value (rf_candidate_ratification r));
           ("attempted_authorization", to_value (rf_attempted_authorization r));
           ("observed_at_unix_ms", to_value (rf_observed_at_unix_ms r)); ("code", to_value (rf_code r));
           ("detail", to_value (rf_detail r))].

(** ** Mandates *)

Record HostMandateBodyV1 : Type := mkMandateBody {
  mb_schema : string;
  mb_authority_domain : AuthorityDomainId;
  mb_epoch : EpochId;
  mb_grantee : PrincipalV1;
  mb_targets : list TargetId;
  mb_families : list EffectFamilyV1;
  mb_expires_unix_ms : Z;
  mb_max_uses : Z
}.
#[global] Instance HostMandateBodyV1_serialize `{Deps} : Serialize HostMandateBodyV1 := fun b =>
  VObject [("schema", to_value (mb_schema b)); ("authority_domain", to_value (mb_authority_domain b));
           ("epoch", to_value (mb_epoch b)); ("grantee", to_value (mb_grantee b));
           ("targets", to_value (mb_targets b)); ("families", to_value (mb_families b));
           ("expires_unix_ms", to_value (mb_expires_unix_ms b)); ("max_uses", to_value (mb_max_uses b))].
#[global] Instance HostMandateBodyV1_inj `{HexLaws} : SerializeInj HostMandateBodyV1.
Proof. ser_struct. Qed.

(** The pair [(HOST_MANDATE_SCHEMA_V1, &body)] whose digest is the identity. *)
Record MandateSubject : Type := mkMandateSubject { ms_body : HostMandateBodyV1 }.
#[global] Instance MandateSubject_serialize `{Deps} : Serialize MandateSubject := fun s =>
  VArray [VString HOST_MANDATE_SCHEMA_V1; to_value (ms_body s)].
#[global] Instance MandateSubject_inj `{HexLaws} : SerializeInj MandateSubject.
Proof.
  intros [x] [y] Hv. apply array_equiv in Hv. inversion Hv as [|? ? ? ? _ Hv']; subst.
  inversion Hv' as [|? ? ? ? Hb _]; subst. f_equal. by apply to_value_inj.
Qed.

(** [struct HostMandateV1]. *)
Record HostMandateV1 : Type := mkMandate { hm_digest : Digest; hm_body : HostMandateBodyV1 }.

Section Authorities.
  Context `{Deps}.

(** [ManagedPointerCandidateRatificationV1::verify_bindings]. *)
Definition verify_bindings (self : ManagedPointerCandidateRatificationV1) (proposal : Digest)
    (candidate : PreparedManagedPointerCandidateV1) (authorization : Digest) : res EffectError unit :=
  let? identity := candidate_identity candidate in
  let? exact_basis := basis_identity (ca_exact_basis candidate) in
  let? complete_inputs := inputs_identity (ca_complete_inputs candidate) (eb_object_format (ca_exact_basis candidate)) in
  let? preparation_receipt := receipt_identity (ca_preparation_receipt candidate) in
  reject_if ((cr_schema self != MANAGED_POINTER_CANDIDATE_RATIFICATION_SCHEMA_V1)
             || (cr_proposal self != proposal)
             || (cr_candidate self != identity)
             || (cr_exact_basis self != exact_basis)
             || (cr_complete_inputs self != complete_inputs)
             || (cr_preparation_receipt self != preparation_receipt)
             || (cr_authorization self != authorization)) CandidateRatificationMismatch ;?
  Ok tt.

(** [ManagedPointerCandidateRatificationV1::identity]. *)
Definition ratification_identity (self : ManagedPointerCandidateRatificationV1) : res EffectError Digest :=
  reject_if (cr_schema self != MANAGED_POINTER_CANDIDATE_RATIFICATION_SCHEMA_V1) CandidateRatificationMismatch ;?
  digest_serializable self.

(** [ManagedPointerPromotionRefusalV1::identity]. *)
Definition refusal_identity (self : ManagedPointerPromotionRefusalV1) : res EffectError Digest :=
  let? authorization := digest_serializable (rf_attempted_authorization self) in
  let? _ := ratification_identity (rf_candidate_ratification self) in
  reject_if ((rf_schema self != MANAGED_POINTER_PROMOTION_REFUSAL_SCHEMA_V1)
             || (rf_detail self == EmptyString)
             || (512 <? String.length (rf_detail self))
             || (ratification_proposal (rf_attempted_authorization self) != rf_proposal self)
             || (cr_proposal (rf_candidate_ratification self) != rf_proposal self)
             || (cr_candidate (rf_candidate_ratification self) != rf_candidate self)
             || (cr_exact_basis (rf_candidate_ratification self) != rf_exact_basis self)
             || (cr_authorization (rf_candidate_ratification self) != authorization)) CandidateRatificationMismatch ;?
  digest_serializable self.

(** [validate_host_mandate_body]. *)
Definition validate_host_mandate_body (b : HostMandateBodyV1) : res EffectError unit :=
  reject_if ((mb_schema b != HOST_MANDATE_SCHEMA_V1)
             || (length (mb_targets b) =? 0)
             || (length (mb_families b) =? 0)
             || (mb_max_uses b =? 0)%Z
             || bool_decide (CodePromotion ∈ mb_families b)
             || (PrincipalV1_authority_domain (mb_grantee b) != mb_authority_domain b)
             || (PrincipalV1_epoch (mb_grantee b) != mb_epoch b)) InvalidHostMandate ;?
  Ok tt.

(** [HostMandateV1::new] and [::verify_digest]. *)
Definition HostMandateV1_new (body : HostMandateBodyV1) : res EffectError HostMandateV1 :=
  validate_host_mandate_body body ;?
  let? digest := digest_serializable (mkMandateSubject body) in
  Ok (mkMandate digest body).
Definition mandate_verify_digest (m : HostMandateV1) : res EffectError unit :=
  validate_host_mandate_body (hm_body m) ;?
  let? digest := digest_serializable (mkMandateSubject (hm_body m)) in
  reject_if (digest != hm_digest m) MandateDigestMismatch ;?
  Ok tt.

(** The loop of [permits] over the proposal's effects. *)
Fixpoint permits_effects (b : HostMandateBodyV1) (l : list CanonicalEffectV1) : res EffectError unit :=
  match l with
  | [] => Ok tt
  | e :: l' =>
      reject_if (effect_family e == CodePromotion) PromotionRequiresSeparateAuthority ;?
      reject_if (negb (bool_decide (effect_target e ∈ mb_targets b))
                 || negb (bool_decide (effect_family e ∈ mb_families b))) MandateNotApplicable ;?
      permits_effects b l'
  end.

(** [HostMandateV1::permits]. *)
Definition permits (m : HostMandateV1) (proposal : CanonicalEffectProposalV1) (actor : PrincipalV1)
    (now_unix_ms uses : Z) : res EffectError unit :=
  let b := hm_body m in
  mandate_verify_digest m ;?
  reject_if ((mb_grantee b != actor)
             || (mb_authority_domain b != pb_authority_domain (cp_body proposal))
             || (mb_epoch b != pb_epoch (cp_body proposal))
             || (mb_expires_unix_ms b <? now_unix_ms)%Z
             || (mb_max_uses b <=? uses)%Z) MandateNotApplicable ;?
  permits_effects b (pb_effects (cp_body proposal)).

End Authorities.

(** ** The lifecycle *)

(** [ProposalStateV1::apply]. *)
Definition proposal_apply (state : ProposalStateV1) (event : ProposalEventV1) : res EffectError ProposalStateV1 :=
  match state, event with
  | Received, Compiled proposal => Ok (Ready proposal)
  | Received, EvRefused refusal => Ok (Refused refusal)
  | Received, EvIndeterminate envelope => Ok (Indeterminate envelope)
  | Ready expected, BurnAuthorization proposal authorization family =>
      if expected == proposal then Ok (AuthorizationBurned proposal authorization family)
      else Err (InvalidTransition state event)
  | AuthorizationBurned proposal _ CodePromotion, BeginPreparation attempt => Ok (Preparing proposal attempt)
  | AuthorizationBurned proposal _ family, BeginExecution attempt =>
      if family != CodePromotion then Ok (Executing proposal attempt None)
      else Err (InvalidTransition state event)
  | Preparing proposal attempt, CommitMayProceed checkpoint => Ok (Executing proposal attempt (Some checkpoint))
  | AuthorizationBurned _ _ _, ExecutionAbandoned receipt => Ok (Failed receipt)
  | Preparing _ _, PreparationFailed receipt => Ok (Failed receipt)
  | Preparing _ _, PreparationAbandoned receipt => Ok (Failed receipt)
  | Executing _ _ _, ExecutionFailed receipt => Ok (Failed receipt)
  | Preparing _ _, PreparationIndeterminate envelope => Ok (ReconciliationRequired envelope)
  | Executing _ _ _, ExecutionIndeterminate envelope => Ok (ReconciliationRequired envelope)
  | Executing _ _ _, ExecutionSucceeded receipt => Ok (Succeeded receipt)
  | ReconciliationRequired _, EvReconciled receipt => Ok (Reconciled receipt)
  | _, _ => Err (InvalidTransition state event)
  end.

(** Applying a sequence of events. *)
Fixpoint proposal_run (state : ProposalStateV1) (events : list ProposalEventV1) : res EffectError ProposalStateV1 :=
  match events with
  | [] => Ok state
  | e :: rest => let? state := proposal_apply state e in proposal_run state rest
  end.

(** ** Lifecycle lemmas *)

(** The transitions, as a relation. *)
Inductive step : ProposalStateV1 -> ProposalEventV1 -> ProposalStateV1 -> Prop :=
  | step_compiled p : step Received (Compiled p) (Ready p)
  | step_refused r : step Received (EvRefused r) (Refused r)
  | step_indeterminate e : step Received (EvIndeterminate e) (Indeterminate e)
  | step_burn p a f : step (Ready p) (BurnAuthorization p a f) (AuthorizationBurned p a f)
  | step_prepare p a at_ : step (AuthorizationBurned p a CodePromotion) (BeginPreparation at_) (Preparing p at_)
  | step_execute p a f at_ :
      f <> CodePromotion -> step (AuthorizationBurned p a f) (BeginExecution at_) (Executing p at_ None)
  | step_commit p at_ ck : step (Preparing p at_) (CommitMayProceed ck) (Executing p at_ (Some ck))
  | step_abandon p a f r : step (AuthorizationBurned p a f) (ExecutionAbandoned r) (Failed r)
  | step_prep_fail p at_ r : step (Preparing p at_) (PreparationFailed r) (Failed r)
  | step_prep_abandon p at_ r : step (Preparing p at_) (PreparationAbandoned r) (Failed r)
  | step_prep_unknown p at_ e : step (Preparing p at_) (PreparationIndeterminate e) (ReconciliationRequired e)
  | step_exec_fail p at_ c r : step (Executing p at_ c) (ExecutionFailed r) (Failed r)
  | step_exec_unknown p at_ c e : step (Executing p at_ c) (ExecutionIndeterminate e) (ReconciliationRequired e)
  | step_succeed p at_ c r : step (Executing p at_ c) (ExecutionSucceeded r) (Succeeded r)
  | step_reconcile e r : step (ReconciliationRequired e) (EvReconciled r) (Reconciled r).

Lemma proposal_apply_step s e s' : proposal_apply s e = Ok s' <-> step s e s'.
Proof.
  split.
  - intros Ha. destruct s as [| | | |p a []| | | | | |], e; simpl in Ha; try discriminate Ha;
      try (injection Ha as <-; by constructor).
    destruct (bool_decide_reflect (proposal = proposal0)) as [->|]; [injection Ha as <-; constructor | done].
  - destruct 1; simpl; try done.
    + by rewrite bool_decide_eq_true_2.
    + by destruct f.
    + by destruct f.
Qed.

Lemma run_cons s e l s' : proposal_run s (e :: l) = Ok s' <-> exists t, step s e t /\ proposal_run t l = Ok s'.
Proof. simpl. rewrite res_bind_ok. setoid_rewrite proposal_apply_step. done. Qed.

(** How many events a state can still see. *)
Definition rank (s : ProposalStateV1) : nat :=
  match s with
  | Received => 6 | Ready _ => 5 | AuthorizationBurned _ _ _ => 4 | Preparing _ _ => 3
  | Executing _ _ _ => 2 | ReconciliationRequired _ => 1
  | _ => 0
  end.

Definition is_burn (e : ProposalEventV1) : bool := match e with BurnAuthorization _ _ _ => true | _ => false end.
Definition is_attempt (e : ProposalEventV1) : bool :=
  match e with BeginPreparation _ | BeginExecution _ => true | _ => false end.
Definition count (f : ProposalEventV1 -> bool) (l : list ProposalEventV1) : nat := length (List.filter f l).

(** An event class that each state allows at most [w s] more times. *)
Lemma count_bounded (f : ProposalEventV1 -> bool) (w : ProposalStateV1 -> nat) :
  (forall s e s', step s e s' -> (if f e then 1 else 0) + w s' <= w s) ->
  forall l s s', proposal_run s l = Ok s' -> count f l + w s' <= w s.
Proof.
  intros Hw. induction l as [|e l IH]; intros s s' Hr.
  - injection Hr as <-. done.
  - apply run_cons in Hr as (t & Hs & Hr). specialize (Hw _ _ _ Hs). specialize (IH _ _ Hr).
    unfold count in *. simpl. destruct (f e); simpl in *; lia.
Qed.

Definition burns_left (s : ProposalStateV1) : nat := match s with Received | Ready _ => 1 | _ => 0 end.
Definition attempts_left (s : ProposalStateV1) : nat :=
  match s with Received | Ready _ | AuthorizationBurned _ _ _ => 1 | _ => 0 end.

Lemma count_length l : count (fun _ => true) l = length l.
Proof. unfold count. induction l; simpl; congruence. Qed.

Lemma run_length s l s' : proposal_run s l = Ok s' -> length l + rank s' <= rank s.
Proof.
  intros Hr. rewrite <- count_length. revert Hr. apply (count_bounded _ rank). intros ? ? ? []; simpl; lia.
Qed.
Lemma run_burns s l s' : proposal_run s l = Ok s' -> count is_burn l + burns_left s' <= burns_left s.
Proof. apply (count_bounded _ burns_left). intros ? ? ? []; simpl; lia. Qed.
Lemma run_attempts s l s' : proposal_run s l = Ok s' -> count is_attempt l + attempts_left s' <= attempts_left s.
Proof. apply (count_bounded _ attempts_left). intros ? ? ? []; simpl; lia. Qed.

Lemma rank_zero_final s : rank s = 0 <-> forall e, proposal_apply s e = Err (InvalidTransition s e).
Proof.
  split; [by destruct s|]. destruct s; simpl; try done; intros He; exfalso.
  - discriminate (He (Compiled (mkDigest EmptyString))).
  - specialize (He (BurnAuthorization proposal proposal CodePromotion)). simpl in He.
    by rewrite bool_decide_eq_true_2 in He.
  - specialize (He (ExecutionAbandoned proposal)). by destruct family.
  - discriminate (He (PreparationFailed proposal)).
  - discriminate (He (ExecutionFailed proposal)).
  - discriminate (He (EvReconciled envelope)).
Qed.

(** ** Successful runs, backwards from the end *)

Lemma run_final s l s' : rank s = 0 -> proposal_run s l = Ok s' -> l = [] /\ s' = s.
Proof.
  intros Hs Hr. destruct l as [|e l]; [by injection Hr as <-|].
  apply run_length in Hr. simpl in Hr. lia.
Qed.

Lemma run_executing p a c l r :
  proposal_run (Executing p a c) l = Ok (Succeeded r) <-> l = [ExecutionSucceeded r].
Proof.
  split; [|by intros ->]. destruct l as [|e l]; [done|].
  intros (t & Hs & Hr)%run_cons. inversion Hs; subst.
  - by apply run_final in Hr as [-> ?].
  - destruct l as [|e' l]; [done|]. apply run_cons in Hr as (t & Hs' & Hr). inversion Hs'; subst.
    by apply run_final in Hr as [-> ?].
  - by apply run_final in Hr as [-> [= ->]].
Qed.

Lemma run_preparing p a l r :
  proposal_run (Preparing p a) l = Ok (Succeeded r) <-> exists ck, l = [CommitMayProceed ck; ExecutionSucceeded r].
Proof.
  split; [|by intros [ck ->]]. destruct l as [|e l]; [done|].
  intros (t & Hs & Hr)%run_cons. inversion Hs; subst;
    [apply run_executing in Hr as ->; by eexists | by apply run_final in Hr as [-> ?]
    |by apply run_final in Hr as [-> ?] |].
  destruct l as [|e' l]; [done|]. apply run_cons in Hr as (t & Hs' & Hr). inversion Hs'; subst.
  by apply run_final in Hr as [-> ?].
Qed.

(** The path of a successful attempt after its authorization. *)
Definition attempt_path (f : EffectFamilyV1) (l : list ProposalEventV1) : Prop :=
  match f with
  | CodePromotion => exists attempt checkpoint, l = [BeginPreparation attempt; CommitMayProceed checkpoint]
  | _ => exists attempt, l = [BeginExecution attempt]
  end.

Lemma run_burned p a f l r :
  proposal_run (AuthorizationBurned p a f) l = Ok (Succeeded r) <->
  exists path, attempt_path f path /\ l = path ++ [ExecutionSucceeded r].
Proof.
  split.
  - destruct l as [|e l]; [done|]. intros (t & Hs & Hr)%run_cons. inversion Hs; subst.
    + apply run_preparing in Hr as [ck ->]. exists [BeginPreparation at_; CommitMayProceed ck].
      split; [by eexists _, _ | done].
    + apply run_executing in Hr as ->. exists [BeginExecution at_].
      split; [destruct f; try done; by eexists | done].
    + by apply run_final in Hr as [-> ?].
  - intros (path & Hp & ->). destruct f; destruct Hp as [at_ Hp]; [destruct Hp as [ck ->] | subst | subst]; done.
Qed.

(** ** Mandate and ratification lemmas *)

Section AuthorityLemmas.
  Context `{Deps}.

(** The effect is covered by the mandate. *)
Definition covered (b : HostMandateBodyV1) (e : CanonicalEffectV1) : Prop :=
  effect_family e <> CodePromotion /\ effect_target e ∈ mb_targets b /\ effect_family e ∈ mb_families b.

Lemma permits_effects_ok b l : permits_effects b l = Ok tt <-> Forall (covered b) l.
Proof.
  induction l as [|e l IH]; simpl; [by split|].
  rewrite !guard_ok, orb_false, !negb_false_iff, !bool_decide_eq_true, bool_decide_eq_false, IH, Forall_cons.
  unfold covered. tauto.
Qed.

(** The guards of [permits] before its loop. *)
Definition applicable (m : HostMandateV1) (p : CanonicalEffectProposalV1) (actor : PrincipalV1) (now uses : Z) : Prop :=
  mb_grantee (hm_body m) = actor /\
  (mb_authority_domain (hm_body m), mb_epoch (hm_body m)) =
    (pb_authority_domain (cp_body p), pb_epoch (cp_body p)) /\
  (now <= mb_expires_unix_ms (hm_body m))%Z /\ (uses < mb_max_uses (hm_body m))%Z.

Lemma applicable_guard m p actor now uses :
  (mb_grantee (hm_body m) != actor)
  || (mb_authority_domain (hm_body m) != pb_authority_domain (cp_body p))
  || (mb_epoch (hm_body m) != pb_epoch (cp_body p))
  || (mb_expires_unix_ms (hm_body m) <? now)%Z
  || (mb_max_uses (hm_body m) <=? uses)%Z = false <-> applicable m p actor now uses.
Proof.
  unfold applicable. rewrite !orb_false, !negb_bool_decide_false, Z.ltb_ge, Z.leb_gt, pair_equal_spec. tauto.
Qed.

Lemma permits_effects_err b l e :
  permits_effects b l = Err e -> e = PromotionRequiresSeparateAuthority \/ e = MandateNotApplicable.
Proof.
  induction l as [|x l IH]; simpl; [done|].
  intros [[_ ->]|[_ [[_ ->]|[_ He]]%guard_err]]%guard_err; auto.
Qed.

Lemma permits_effects_promotion b l :
  permits_effects b l = Err PromotionRequiresSeparateAuthority <->
  exists before e after, l = before ++ e :: after /\ Forall (covered b) before /\ effect_family e = CodePromotion.
Proof.
  induction l as [|x l IH]; simpl.
  { split; [done|]. by intros ([|] & e & after & ? & _). }
  rewrite guard_err, guard_err, bool_decide_eq_true, bool_decide_eq_false, orb_false, !negb_false_iff,
    !bool_decide_eq_true, IH. split.
  - intros [[Hx _]|(Hx & [[_ ?]|[Hc (before & e & after & -> & Hb & He)]])]; [|done|].
    + by exists [], x, l.
    + exists (x :: before), e, after. split_all; [done | constructor; [unfold covered; tauto | done] | done].
  - intros ([|y before] & e & after & [= -> ->] & Hb & He); [by left|]. right.
    apply Forall_cons in Hb as [Hy Hb]. unfold covered in Hy. split; [tauto|]. right. split; [tauto|].
    by exists before, e, after.
Qed.

Definition mandate_body_valid (b : HostMandateBodyV1) : Prop :=
  mb_schema b = HOST_MANDATE_SCHEMA_V1 /\ mb_targets b <> [] /\ mb_families b <> [] /\ mb_max_uses b <> 0%Z /\
  (CodePromotion ∉ mb_families b) /\ PrincipalV1_authority_domain (mb_grantee b) = mb_authority_domain b /\
  PrincipalV1_epoch (mb_grantee b) = mb_epoch b.

Lemma length_zero_nil {A} (l : list A) : (length l =? 0) = false <-> l <> [].
Proof. by destruct l. Qed.

Lemma validate_mandate_ok b : validate_host_mandate_body b = Ok tt <-> mandate_body_valid b.
Proof.
  unfold validate_host_mandate_body, mandate_body_valid.
  rewrite guard_ok, !orb_false, !negb_bool_decide_false, !length_zero_nil, Z.eqb_neq, bool_decide_eq_false. tauto.
Qed.

Lemma mandate_verify_ok m :
  mandate_verify_digest m = Ok tt <->
  mandate_body_valid (hm_body m) /\ digest_serializable (mkMandateSubject (hm_body m)) = Ok (hm_digest m).
Proof.
  unfold mandate_verify_digest. rewrite then_ok, validate_mandate_ok. apply and_iff_compat_l.
  rewrite res_bind_ok. split.
  - intros (d & Hd & Hk). apply guard_ok in Hk as [He%negb_bool_decide_false _]. by subst.
  - intros Hd. eexists. split; [exact Hd|]. apply guard_ok. by rewrite negb_bool_decide_false.
Qed.

Lemma mandate_new_ok b m :
  HostMandateV1_new b = Ok m <-> hm_body m = b /\ mandate_verify_digest m = Ok tt.
Proof.
  rewrite mandate_verify_ok. unfold HostMandateV1_new. rewrite then_ok, validate_mandate_ok. split.
  - intros [Hb Hd]. apply res_bind_ok in Hd as (d & Hd & [= <-]). done.
  - intros (<- & Hb & Hd). split; [done|]. rewrite Hd. by destruct m.
Qed.

Lemma verify_bindings_ok r p c a :
  verify_bindings r p c a = Ok tt <->
  cr_schema r = MANAGED_POINTER_CANDIDATE_RATIFICATION_SCHEMA_V1 /\ cr_proposal r = p /\ cr_authorization r = a /\
  candidate_identity c = Ok (cr_candidate r) /\ basis_identity (ca_exact_basis c) = Ok (cr_exact_basis r) /\
  inputs_identity (ca_complete_inputs c) (eb_object_format (ca_exact_basis c)) = Ok (cr_complete_inputs r) /\
  receipt_identity (ca_preparation_receipt c) = Ok (cr_preparation_receipt r).
Proof.
  unfold verify_bindings. split.
  - intros Hv. apply res_bind_ok in Hv as (ci & Hci & Hv). apply res_bind_ok in Hv as (bi & Hbi & Hv).
    apply res_bind_ok in Hv as (ii & Hii & Hv). apply res_bind_ok in Hv as (ri & Hri & Hv).
    rewrite guard_ok, !orb_false, !negb_bool_decide_false in Hv. intuition congruence.
  - intros (Hs & Hp & Ha & -> & -> & -> & ->). cbn [res_bind].
    rewrite guard_ok, !orb_false, !negb_bool_decide_false. tauto.
Qed.

End AuthorityLemmas.

(** ** The properties *)

(** C10. The lifecycle has no retry: from [Received] at most six events are ever
    accepted, at most one of them burns an authorization and at most one begins
    an attempt; a state refuses every event exactly when it is terminal; and a
    proposal reaches [Succeeded] exactly by being compiled, having that same
    proposal's authorization burned, and one attempt, which for a code promotion
    passes a preparation checkpoint before the execution boundary. *)
Theorem lifecycle_single_attempt :
  (forall l s, proposal_run Received l = Ok s ->
     length l <= 6 /\ count is_burn l <= 1 /\ count is_attempt l <= 1) /\
  (forall s, rank s = 0 <-> forall e, proposal_apply s e = Err (InvalidTransition s e)) /\
  (forall l r, proposal_run Received l = Ok (Succeeded r) <->
     exists proposal authorization family path, attempt_path family path /\
       l = Compiled proposal :: BurnAuthorization proposal authorization family :: path ++ [ExecutionSucceeded r]).
Proof.
  split_all; [|apply rank_zero_final|].
  - intros l s Hr. pose proof (run_length _ _ _ Hr). pose proof (run_burns _ _ _ Hr).
    pose proof (run_attempts _ _ _ Hr). simpl in *. lia.
  - intros l r. split.
    + destruct l as [|e l]; [done|]. intros (t & Hs & Hr)%run_cons. inversion Hs as [p| | | | | | | | | | | | | | ]; subst;
        [|by apply run_final in Hr as [-> ?]..].
      destruct l as [|e l]; [done|]. apply run_cons in Hr as (t & Hs' & Hr).
      inversion Hs' as [| | |q a f| | | | | | | | | | | ]; subst.
      apply run_burned in Hr as (path & Hp & ->). by exists p, a, f, path.
    + intros (p & a & f & path & Hp & ->). apply run_cons. eexists. split; [constructor|].
      apply run_cons. eexists. split; [constructor|]. apply run_burned. by exists path.
Qed.

(** A bounded mandate authorizes exactly its scope: [permits] accepts iff the
    mandate is intact, the actor is the grantee, domain and epoch are the
    proposal's, it has not expired and uses remain, and every effect is a
    non-promotion effect on a granted target in a granted family; an intact
    mandate never lists code promotion; [new] returns exactly the intact
    mandate of a body; and two intact mandates with one identity are equal, or
    exhibit a hash collision. *)
Theorem mandate_permits_exact `{JcsLaws, !HexLaws, !Sha256Laws} m :
  (forall p actor now uses, permits m p actor now uses = Ok tt <->
     mandate_verify_digest m = Ok tt /\ mb_grantee (hm_body m) = actor /\
     (mb_authority_domain (hm_body m), mb_epoch (hm_body m)) =
       (pb_authority_domain (cp_body p), pb_epoch (cp_body p)) /\
     (now <= mb_expires_unix_ms (hm_body m))%Z /\ (uses < mb_max_uses (hm_body m))%Z /\
     Forall (covered (hm_body m)) (pb_effects (cp_body p))) /\
  (mandate_verify_digest m = Ok tt -> CodePromotion ∉ mb_families (hm_body m)) /\
  (forall b, HostMandateV1_new b = Ok m <-> hm_body m = b /\ mandate_verify_digest m = Ok tt) /\
  (forall m' x x', preimage (mkMandateSubject (hm_body m)) x -> preimage (mkMandateSubject (hm_body m')) x' ->
     mandate_verify_digest m = Ok tt -> mandate_verify_digest m' = Ok tt -> hm_digest m = hm_digest m' ->
     m = m' \/ collision x x').
Proof.
  split_all.
  - intros p actor now uses. unfold permits.
    rewrite then_ok, guard_ok, !orb_false, !negb_bool_decide_false, Z.ltb_ge, Z.leb_gt, permits_effects_ok,
      pair_equal_spec. tauto.
  - intros Hv. apply mandate_verify_ok in Hv as [Hb _]. unfold mandate_body_valid in Hb. tauto.
  - intros b. apply mandate_new_ok.
  - intros m' x x' Hx Hx' [_ Hd]%mandate_verify_ok [_ Hd']%mandate_verify_ok He. rewrite <- He in Hd'.
    destruct (digest_serializable_binds _ _ _ _ _ Hx Hx' Hd Hd') as [Hs|]; [left | by right].
    destruct m, m'. simpl in *. by injection Hs as ->; subst.
Qed.

(** Which error a proposal with a promotion meets: against an intact mandate
    [permits] only ever answers [PromotionRequiresSeparateAuthority] or
    [MandateNotApplicable]; it answers the first exactly when the actor, the
    context, the expiry and the use count all pass and the first effect that is
    not covered is a promotion, so a promotion behind another failure is
    answered with the second. *)
Theorem mandate_errors_exact `{Deps} m p actor now uses :
  mandate_verify_digest m = Ok tt ->
  (permits m p actor now uses = Err PromotionRequiresSeparateAuthority <->
     applicable m p actor now uses /\
     exists before e after, pb_effects (cp_body p) = before ++ e :: after /\
       Forall (covered (hm_body m)) before /\ effect_family e = CodePromotion) /\
  (~ applicable m p actor now uses -> permits m p actor now uses = Err MandateNotApplicable) /\
  (forall e, permits m p actor now uses = Err e ->
     e = PromotionRequiresSeparateAuthority \/ e = MandateNotApplicable).
Proof.
  intros Hv. unfold permits. rewrite Hv. cbn [res_bind]. cbv zeta.
  pose proof (applicable_guard m p actor now uses) as Ha.
  destruct (_ || _ : bool) eqn:Hg at 1; cbn [reject_if res_bind].
  - rewrite Hg. cbn. assert (~ applicable m p actor now uses) as Hn by (rewrite <- Ha; congruence).
    split_all; [split; [done | by intros [? _]] | done | intros e [= <-]; by right].
  - rewrite Hg. cbn. assert (applicable m p actor now uses) as Hn by (by apply Ha).
    split_all; [rewrite permits_effects_promotion; tauto | done | apply permits_effects_err].
Qed.

(** A candidate ratification is not transportable: it verifies exactly for
    the proposal, the authorization and the four identities it names, so when
    one ratification verifies against two prepared candidates they are the same
    candidate on the same basis, for the same proposal and authorization, or
    their encodings exhibit a hash collision. *)
Theorem candidate_ratification_not_transportable `{JcsLaws, !HexLaws, !Sha256Laws} r p c a :
  (verify_bindings r p c a = Ok tt <->
     cr_schema r = MANAGED_POINTER_CANDIDATE_RATIFICATION_SCHEMA_V1 /\ cr_proposal r = p /\ cr_authorization r = a /\
     candidate_identity c = Ok (cr_candidate r) /\ basis_identity (ca_exact_basis c) = Ok (cr_exact_basis r) /\
     inputs_identity (ca_complete_inputs c) (eb_object_format (ca_exact_basis c)) = Ok (cr_complete_inputs r) /\
     receipt_identity (ca_preparation_receipt c) = Ok (cr_preparation_receipt r)) /\
  (forall p' c' a' x x', preimage c x -> preimage c' x' ->
     verify_bindings r p c a = Ok tt -> verify_bindings r p' c' a' = Ok tt ->
     p = p' /\ a = a' /\ (c = c' \/ collision x x')).
Proof.
  split; [apply verify_bindings_ok|]. intros p' c' a' x x' Hx Hx'.
  intros (_ & Hp & Ha & Hc & _)%verify_bindings_ok (_ & Hp' & Ha' & Hc' & _)%verify_bindings_ok.
  split_all; [congruence | congruence |].
  apply candidate_identity_ok in Hc as (_ & _ & _ & _ & _ & _ & Hd), Hc' as (_ & _ & _ & _ & _ & _ & Hd').
  by apply (digest_serializable_binds c c' x x' (cr_candidate r)).
Qed.

(** Concrete records. *)
Definition toy_grantee : PrincipalV1 := toy_operator "operator-1".
Definition toy_mandate_body : HostMandateBodyV1 :=
  mkMandateBody HOST_MANDATE_SCHEMA_V1 (PrincipalV1_authority_domain toy_grantee) (PrincipalV1_epoch toy_grantee)
    toy_grantee [mkTargetId "motd"] [FamilyManagedFile] 5000 3.
Definition toy_mandate : HostMandateV1 :=
  mkMandate (hash_bytes (toy_encoding (mkMandateSubject toy_mandate_body))) toy_mandate_body.

Lemma mandate_permits_exact_witness : CodePromotion ∉ mb_families (hm_body toy_mandate).
Proof.
  destruct (mandate_permits_exact toy_mandate) as (_ & Hn & _). apply Hn. vm_compute. reflexivity.
Defined.

Lemma candidate_ratification_not_transportable_witness :
  let r := mkCandidateRatification MANAGED_POINTER_CANDIDATE_RATIFICATION_SCHEMA_V1 (toy_digest 20)
    (hash_bytes (toy_encoding toy_prepared)) (hash_bytes (toy_encoding toy_basis))
    (hash_bytes (toy_encoding toy_inputs)) (hash_bytes (toy_encoding toy_receipt)) (toy_digest 21) in
  cr_proposal r = toy_digest 20 /\ candidate_identity toy_prepared = Ok (cr_candidate r).
Proof.
  intros r.
  destruct (candidate_ratification_not_transportable r (toy_digest 20) toy_prepared (toy_digest 21)) as [Hi _].
  destruct Hi as [Hi _]. destruct Hi as (_ & Hp & _ & Hc & _); [vm_compute; reflexivity|]. split; [exact Hp | exact Hc].
Defined.


(** A promotion in a mandate-shaped proposal meets its own error only when
    everything before it passes. *)
Lemma mandate_errors_exact_witness :
  permits toy_mandate toy_proposal (toy_operator "operator-2") 1000 0 = Err MandateNotApplicable /\
  existsb (fun e => effect_family e == CodePromotion) (pb_effects (cp_body toy_proposal)) = true.
Proof.
  split; [|vm_compute; reflexivity].
  destruct (mandate_errors_exact toy_mandate toy_proposal (toy_operator "operator-2") 1000 0) as (_ & Hn & _);
    [vm_compute; reflexivity|].
  apply Hn. intros [Ha _]. vm_compute in Ha. discriminate Ha.
Defined.
