(* ===== verification/RpcAuth.v ===== *)
(** * Signed local RPC (ag-app/src/rpc_auth.rs)

    The three-frame exchange (server challenge, signed request, signed
    response): the proof objects, the statements that are signed, the bounded
    replay guard, and every verification function.  Ed25519, base64url and the
    source of randomness are parameters ([RpcDeps]); a fresh nonce is an argument
    of the functions that draw one.  The guard's mutex makes each call atomic, so
    a guard is a value and its history a sequence of calls; no call panics while
    it holds the lock, so the poisoned-lock error does not occur. *)

From S2P Require Import Prelude Wire Fixture Digest Paths Protocol.

(** ** Third-party code *)

Class RpcDeps := {
  (** [URL_SAFE_NO_PAD.encode] and [.decode]. *)
  b64_encode : bytes -> string;
  b64_decode : string -> option bytes;
  (** [Ed25519KeyPair]: parsing, the public half, signing. *)
  KeyPair : Type;
  key_from_pkcs8 : bytes -> option KeyPair;
  key_public : KeyPair -> bytes;
  key_sign : KeyPair -> bytes -> bytes;
  (** [UnparsedPublicKey::new(&ED25519, key).verify(message, signature)]. *)
  ed25519_verify : bytes -> bytes -> bytes -> bool
}.

(** Decoding inverts encoding; keys have 32 bytes and signatures 64; what a key
    pair signs verifies under its public half. *)
Class RpcLaws `{RpcDeps} := {
  b64_decode_encode : forall b, b64_decode (b64_encode b) = Some b;
  key_public_length : forall k, length (key_public k) = 32;
  key_sign_length : forall k m, length (key_sign k m) = 64;
  ed25519_sign_verify : forall k m, ed25519_verify (key_public k) m (key_sign k m) = true
}.

Definition ED25519_PUBLIC_KEY_LEN : nat := 32.
Definition ED25519_SIGNATURE_LEN : nat := 64.
Definition RPC_NONCE_LEN : nat := 32.
Definition MAX_CREDENTIAL_BYTES : Z := 4096.
Definition SIGNATURE_PREFIX : bytes :=
  str_bytes "ag-ng" ++ Byte.x00 :: str_bytes "local-rpc-signature" ++ Byte.x00 :: str_bytes "v1" ++ [Byte.x00].

(** ** Identifiers and fixed-length values *)

Record RpcKeyIdV1 : Type := mkKeyId { key_id_str : string }.
Record RpcPublicKeyV1 : Type := mkPublicKey { public_key_bytes : bytes }.
Record RpcSignatureV1 : Type := mkSignature { signature_bytes : bytes }.
Record RpcNonceV1 : Type := mkRpcNonce { rpc_nonce_bytes : bytes }.

#[global] Instance RpcKeyIdV1_eq_dec : EqDecision RpcKeyIdV1.
Proof. solve_decision. Defined.
#[global] Instance RpcPublicKeyV1_eq_dec : EqDecision RpcPublicKeyV1.
Proof. solve_decision. Defined.
#[global] Instance RpcSignatureV1_eq_dec : EqDecision RpcSignatureV1.
Proof. solve_decision. Defined.
#[global] Instance RpcNonceV1_eq_dec : EqDecision RpcNonceV1.
Proof. solve_decision. Defined.

(** [enum RpcAuthError]; [CredentialIo] carries the text of the I/O error. *)
Inductive RpcAuthError : Type :=
  | InvalidKeyId | InvalidBase64 | InvalidEncodedLength | NonCanonicalBase64
  | UnsafeCredentialPath | CredentialIo (source : string) | InvalidCredentialFile | InvalidPrivateKey
  | CredentialPublicKeyMismatch | Randomness | Clock | InvalidClockSkewPolicy | TimestampOutsideWindow
  | InvalidReplayCapacity | ReplayState | Replay | ReplayCapacityExhausted | Schema
  | ProtocolVersion | WrongDirection | SignerMismatch | AudienceMismatch | ChallengeMismatch
  | RequestBindingMismatch | ResponseBodyDigestMismatch | SignatureInvalid
  | Protocol (e : ProtocolError).

(** [RpcKeyIdV1::new]. *)
Definition RpcKeyIdV1_new (value : string) : res RpcAuthError RpcKeyIdV1 :=
  reject_if ((value == EmptyString) || (128 <? String.length value)
             || negb (str_all (fun c => is_ascii_alphanumeric c || one_of "-_.:" c) value)) InvalidKeyId ;?
  Ok (mkKeyId value).

(** The [parse] of the fixed-length base64url types: the bytes. *)
Definition fixed_parse `{RpcDeps} (len : nat) (value : string) : res RpcAuthError bytes :=
  let? b := ok_or InvalidBase64 (b64_decode value) in
  reject_if (length b != len) InvalidEncodedLength ;?
  reject_if (b64_encode b != value) NonCanonicalBase64 ;?
  Ok b.
Definition RpcPublicKeyV1_parse `{RpcDeps} (value : string) : res RpcAuthError RpcPublicKeyV1 :=
  let? b := fixed_parse ED25519_PUBLIC_KEY_LEN value in Ok (mkPublicKey b).
Definition RpcNonceV1_parse `{RpcDeps} (value : string) : res RpcAuthError RpcNonceV1 :=
  let? b := fixed_parse RPC_NONCE_LEN value in Ok (mkRpcNonce b).

#[global] Instance RpcKeyIdV1_serialize : Serialize RpcKeyIdV1 := fun k => VString (key_id_str k).
#[global] Instance RpcPublicKeyV1_serialize `{RpcDeps} : Serialize RpcPublicKeyV1 := fun k =>
  VString (b64_encode (public_key_bytes k)).
#[global] Instance RpcSignatureV1_serialize `{RpcDeps} : Serialize RpcSignatureV1 := fun s =>
  VString (b64_encode (signature_bytes s)).
#[global] Instance RpcNonceV1_serialize `{RpcDeps} : Serialize RpcNonceV1 := fun n =>
  VString (b64_encode (rpc_nonce_bytes n)).
#[global] Instance ProtocolVersionV1_serialize : Serialize ProtocolVersionV1 := fun v => VString (version_str v).

(** ** Enrollment *)

Record RpcPeerKeyPolicyV1 : Type := mkKeyPolicy {
  kp_principal : Digest;
  kp_key_id : RpcKeyIdV1;
  kp_public_key : RpcPublicKeyV1;
  kp_maximum_clock_skew_ms : Z
}.
Record RpcSigningIdentityConfigV1 : Type := mkSigningConfig {
  si_principal : Digest;
  si_key_id : RpcKeyIdV1;
  si_public_key : RpcPublicKeyV1;
  si_private_key_credential : string
}.
Record RpcPeerEnrollmentV1 : Type := mkEnrollment { pe_principal : Digest; pe_key : RpcPeerKeyPolicyV1 }.
Record VerifiedRpcPrincipalV1 : Type := mkVerified { vp_principal : Digest; vp_key_id : RpcKeyIdV1 }.
#[global] Instance VerifiedRpcPrincipalV1_serialize : Serialize VerifiedRpcPrincipalV1 := fun v =>
  VObject [("principal", to_value (vp_principal v)); ("key_id", to_value (vp_key_id v))].

(** [RpcPeerKeyPolicyV1::validate]. *)
Definition policy_validate (p : RpcPeerKeyPolicyV1) : res RpcAuthError unit :=
  reject_if ((kp_maximum_clock_skew_ms p =? 0)%Z || (300000 <? kp_maximum_clock_skew_ms p)%Z)
    InvalidClockSkewPolicy ;?
  Ok tt.

(** The tuple of [candidate_ingress_key_identity]. *)
Definition ingress_key_value `{RpcDeps} (p : RpcPeerKeyPolicyV1) : Value :=
  VArray [VString "worker_candidate_ingress"; to_value (kp_key_id p); to_value (kp_public_key p);
          to_value (kp_maximum_clock_skew_ms p)].
#[global] Instance Value_serialize : Serialize Value := fun v => v.

(** [RpcPeerEnrollmentV1::new]. *)
Definition RpcPeerEnrollmentV1_new (principal : Digest) (key : RpcPeerKeyPolicyV1)
    : res RpcAuthError RpcPeerEnrollmentV1 :=
  policy_validate key ;?
  reject_if (principal != kp_principal key) SignerMismatch ;?
  Ok (mkEnrollment principal key).

(** [PathBuf::push] of a normal component, and the loop of
    [RpcSigningIdentityConfigV1::validate]. *)
Definition path_push_normal (path component : string) : string :=
  if path == "/" then path +:+ component else path +:+ "/" +:+ component.
Fixpoint normalize_components (normalized : string) (l : list Component) : res RpcAuthError string :=
  match l with
  | [] => Ok normalized
  | Normal c :: l' => normalize_components (path_push_normal normalized c) l'
  | _ :: _ => Err UnsafeCredentialPath
  end.

(** [RpcSigningIdentityConfigV1::validate]. *)
Definition signing_config_validate (c : RpcSigningIdentityConfigV1) : res RpcAuthError unit :=
  let path := si_private_key_credential c in
  match components path with
  | RootDir :: rest =>
      let? normalized := normalize_components "/" rest in
      reject_if ((normalized != path) || path_eq normalized "/") UnsafeCredentialPath ;?
      Ok tt
  | _ => Err UnsafeCredentialPath
  end.

(** ** Proof objects *)

Inductive RpcDirectionV1 : Type := ServerChallenge | Request | Response.
#[global] Instance RpcDirectionV1_eq_dec : EqDecision RpcDirectionV1.
Proof. solve_decision. Defined.
#[global] Instance RpcDirectionV1_serialize : Serialize RpcDirectionV1 := fun d =>
  VString match d with ServerChallenge => "server_challenge" | Request => "request" | Response => "response" end.
#[global] Instance RpcDirectionV1_inj : SerializeInj RpcDirectionV1.
Proof. ser_unit_enum. Qed.

Record ChallengeProofV1 : Type := mkChallengeProof {
  cp_signer_principal : Digest;
  cp_signer_key_id : RpcKeyIdV1;
  cp_audience_principal : Digest;
  cp_audience_key_id : RpcKeyIdV1;
  cp_direction : RpcDirectionV1;
  cp_nonce : RpcNonceV1;
  cp_issued_at_unix_ms : Z;
  cp_signature : RpcSignatureV1
}.
Record SignedServerChallengeV1 : Type := mkChallenge {
  sc_schema : string;
  sc_protocol_version : ProtocolVersionV1;
  sc_authentication : ChallengeProofV1
}.
Record RequestProofV1 : Type := mkRequestProof {
  rp_signer_principal : Digest;
  rp_signer_key_id : RpcKeyIdV1;
  rp_audience_principal : Digest;
  rp_audience_key_id : RpcKeyIdV1;
  rp_direction : RpcDirectionV1;
  rp_nonce : RpcNonceV1;
  rp_issued_at_unix_ms : Z;
  rp_challenge_digest : Digest;
  rp_signature : RpcSignatureV1
}.
Record SignedRequestEnvelopeV1 (T : Type) : Type := mkSignedRequest {
  sr_schema : string;
  sr_request : RequestEnvelopeV1 T;
  sr_authentication : RequestProofV1
}.
Arguments mkSignedRequest {T} _ _ _.
Arguments sr_schema {T} _.
Arguments sr_request {T} _.
Arguments sr_authentication {T} _.
Record ResponseProofV1 : Type := mkResponseProof {
  sp_signer_principal : Digest;
  sp_signer_key_id : RpcKeyIdV1;
  sp_audience_principal : Digest;
  sp_audience_key_id : RpcKeyIdV1;
  sp_direction : RpcDirectionV1;
  sp_nonce : RpcNonceV1;
  sp_issued_at_unix_ms : Z;
  sp_signed_request_digest : Digest;
  sp_request_nonce : RpcNonceV1;
  sp_response_body_digest : Digest;
  sp_signature : RpcSignatureV1
}.
Record SignedResponseEnvelopeV1 (T : Type) : Type := mkSignedResponse {
  ss_schema : string;
  ss_response : ResponseEnvelopeV1 T;
  ss_authentication : ResponseProofV1
}.
Arguments mkSignedResponse {T} _ _ _.
Arguments ss_schema {T} _.
Arguments ss_response {T} _.
Arguments ss_authentication {T} _.

(** ** Serialized form of the proof objects *)

Section Forms.
  Context `{RpcDeps}.

#[global] Instance RequestEchoV1_serialize : Serialize RequestEchoV1 := fun e =>
  VObject [("protocol_version", to_value (ec_protocol_version e)); ("request_id", to_value (ec_request_id e));
           ("request_digest", to_value (ec_request_digest e))].
#[global] Instance RequestEnvelopeV1_serialize `{Serialize T} : Serialize (RequestEnvelopeV1 T) := fun r =>
  VObject [("echo", to_value (rq_echo r)); ("body", to_value (rq_body r))].

#[global] Instance ChallengeProofV1_serialize : Serialize ChallengeProofV1 := fun p =>
  VObject [("signer_principal", to_value (cp_signer_principal p)); ("signer_key_id", to_value (cp_signer_key_id p));
           ("audience_principal", to_value (cp_audience_principal p));
           ("audience_key_id", to_value (cp_audience_key_id p)); ("direction", to_value (cp_direction p));
           ("nonce", to_value (cp_nonce p)); ("issued_at_unix_ms", to_value (cp_issued_at_unix_ms p));
           ("signature", to_value (cp_signature p))].
#[global] Instance SignedServerChallengeV1_serialize : Serialize SignedServerChallengeV1 := fun c =>
  VObject [("schema", to_value (sc_schema c)); ("protocol_version", to_value (sc_protocol_version c));
           ("authentication", to_value (sc_authentication c))].
#[global] Instance RequestProofV1_serialize : Serialize RequestProofV1 := fun p =>
  VObject [("signer_principal", to_value (rp_signer_principal p)); ("signer_key_id", to_value (rp_signer_key_id p));
           ("audience_principal", to_value (rp_audience_principal p));
           ("audience_key_id", to_value (rp_audience_key_id p)); ("direction", to_value (rp_direction p));
           ("nonce", to_value (rp_nonce p)); ("issued_at_unix_ms", to_value (rp_issued_at_unix_ms p));
           ("challenge_digest", to_value (rp_challenge_digest p)); ("signature", to_value (rp_signature p))].
#[global] Instance SignedRequestEnvelopeV1_serialize `{Serialize T} : Serialize (SignedRequestEnvelopeV1 T) := fun r =>
  VObject [("schema", to_value (sr_schema r)); ("request", to_value (sr_request r));
           ("authentication", to_value (sr_authentication r))].

(** ** The statements that are signed *)

Record ChallengeStatementV1 : Type := mkChallengeStatement {
  cs_context : string;
  cs_protocol_version : ProtocolVersionV1;
  cs_signer_principal : Digest;
  cs_signer_key_id : RpcKeyIdV1;
  cs_audience_principal : Digest;
  cs_audience_key_id : RpcKeyIdV1;
  cs_direction : RpcDirectionV1;
  cs_nonce : RpcNonceV1;
  cs_issued_at_unix_ms : Z
}.
#[global] Instance ChallengeStatementV1_serialize : Serialize ChallengeStatementV1 := fun s =>
  VObject [("context", to_value (cs_context s)); ("protocol_version", to_value (cs_protocol_version s));
           ("signer_principal", to_value (cs_signer_principal s)); ("signer_key_id", to_value (cs_signer_key_id s));
           ("audience_principal", to_value (cs_audience_principal s));
           ("audience_key_id", to_value (cs_audience_key_id s)); ("direction", to_value (cs_direction s));
           ("nonce", to_value (cs_nonce s)); ("issued_at_unix_ms", to_value (cs_issued_at_unix_ms s))].

Record RequestStatementV1 : Type := mkRequestStatement {
  qs_context : string;
  qs_protocol_version : ProtocolVersionV1;
  qs_request_id : RequestId;
  qs_request_body_digest : Digest;
  qs_signer_principal : Digest;
  qs_signer_key_id : RpcKeyIdV1;
  qs_audience_principal : Digest;
  qs_audience_key_id : RpcKeyIdV1;
  qs_direction : RpcDirectionV1;
  qs_nonce : RpcNonceV1;
  qs_issued_at_unix_ms : Z;
  qs_challenge_digest : Digest
}.
#[global] Instance RequestStatementV1_serialize : Serialize RequestStatementV1 := fun s =>
  VObject [("context", to_value (qs_context s)); ("protocol_version", to_value (qs_protocol_version s));
           ("request_id", to_value (qs_request_id s)); ("request_body_digest", to_value (qs_request_body_digest s));
           ("signer_principal", to_value (qs_signer_principal s)); ("signer_key_id", to_value (qs_signer_key_id s));
           ("audience_principal", to_value (qs_audience_principal s));
           ("audience_key_id", to_value (qs_audience_key_id s)); ("direction", to_value (qs_direction s));
           ("nonce", to_value (qs_nonce s)); ("issued_at_unix_ms", to_value (qs_issued_at_unix_ms s));
           ("challenge_digest", to_value (qs_challenge_digest s))].

Record ResponseStatementV1 : Type := mkResponseStatement {
  ps_context : string;
  ps_protocol_version : ProtocolVersionV1;
  ps_request_id : RequestId;
  ps_request_body_digest : Digest;
  ps_response_body_digest : Digest;
  ps_signer_principal : Digest;
  ps_signer_key_id : RpcKeyIdV1;
  ps_audience_principal : Digest;
  ps_audience_key_id : RpcKeyIdV1;
  ps_direction : RpcDirectionV1;
  ps_nonce : RpcNonceV1;
  ps_issued_at_unix_ms : Z;
  ps_signed_request_digest : Digest;
  ps_request_nonce : RpcNonceV1
}.
#[global] Instance ResponseStatementV1_serialize : Serialize ResponseStatementV1 := fun s =>
  VObject [("context", to_value (ps_context s)); ("protocol_version", to_value (ps_protocol_version s));
           ("request_id", to_value (ps_request_id s)); ("request_body_digest", to_value (ps_request_body_digest s));
           ("response_body_digest", to_value (ps_response_body_digest s));
           ("signer_principal", to_value (ps_signer_principal s)); ("signer_key_id", to_value (ps_signer_key_id s));
           ("audience_principal", to_value (ps_audience_principal s));
           ("audience_key_id", to_value (ps_audience_key_id s)); ("direction", to_value (ps_direction s));
           ("nonce", to_value (ps_nonce s)); ("issued_at_unix_ms", to_value (ps_issued_at_unix_ms s));
           ("signed_request_digest", to_value (ps_signed_request_digest s));
           ("request_nonce", to_value (ps_request_nonce s))].

Definition challenge_statement (challenge : SignedServerChallengeV1) : ChallengeStatementV1 :=
  let proof := sc_authentication challenge in
  mkChallengeStatement "ag.local-rpc.challenge-signature.v1" (sc_protocol_version challenge)
    (cp_signer_principal proof) (cp_signer_key_id proof) (cp_audience_principal proof)
    (cp_audience_key_id proof) (cp_direction proof) (cp_nonce proof) (cp_issued_at_unix_ms proof).
Definition request_statement {T} (signed : SignedRequestEnvelopeV1 T) : RequestStatementV1 :=
  let proof := sr_authentication signed in
  let echo := rq_echo (sr_request signed) in
  mkRequestStatement "ag.local-rpc.request-signature.v1" (ec_protocol_version echo) (ec_request_id echo)
    (ec_request_digest echo) (rp_signer_principal proof) (rp_signer_key_id proof)
    (rp_audience_principal proof) (rp_audience_key_id proof) (rp_direction proof) (rp_nonce proof)
    (rp_issued_at_unix_ms proof) (rp_challenge_digest proof).
Definition response_statement {T} (signed : SignedResponseEnvelopeV1 T) : ResponseStatementV1 :=
  let proof := ss_authentication signed in
  let echo := rs_echo (ss_response signed) in
  mkResponseStatement "ag.local-rpc.response-signature.v1" (ec_protocol_version echo) (ec_request_id echo)
    (ec_request_digest echo) (sp_response_body_digest proof) (sp_signer_principal proof)
    (sp_signer_key_id proof) (sp_audience_principal proof) (sp_audience_key_id proof) (sp_direction proof)
    (sp_nonce proof) (sp_issued_at_unix_ms proof) (sp_signed_request_digest proof) (sp_request_nonce proof).

End Forms.

(** [?] on a [ProtocolError]: [#[from]]. *)
Definition protocol {A} (m : res ProtocolError A) : res RpcAuthError A := map_err Protocol m.

Section Signing.
  Context `{Deps, RpcDeps}.

(** [candidate_ingress_key_identity] and [VerifiedRpcPrincipalV1::binding_digest]. *)
Definition candidate_ingress_key_identity (policy : RpcPeerKeyPolicyV1) : res RpcAuthError Digest :=
  policy_validate policy ;?
  protocol (canonical_json_digest "ag-local-rpc-candidate-ingress-key-identity-v1" (ingress_key_value policy)).
Definition binding_digest (v : VerifiedRpcPrincipalV1) : res RpcAuthError Digest :=
  protocol (canonical_json_digest "ag-local-rpc-verified-principal-v1" v).

(** [signature_message] and its three callers. *)
Definition signature_message `{Serialize T} (statement : T) : res RpcAuthError bytes :=
  let? statement := protocol (canonical_json statement) in
  Ok (SIGNATURE_PREFIX ++ statement).
Definition challenge_message (challenge : SignedServerChallengeV1) : res RpcAuthError bytes :=
  signature_message (challenge_statement challenge).
Definition request_message {T} (signed : SignedRequestEnvelopeV1 T) : res RpcAuthError bytes :=
  signature_message (request_statement signed).
Definition response_message {T} (signed : SignedResponseEnvelopeV1 T) : res RpcAuthError bytes :=
  signature_message (response_statement signed).

(** [verify_signature]. *)
Definition verify_signature (key : RpcPublicKeyV1) (message : bytes) (signature : RpcSignatureV1)
    : res RpcAuthError unit :=
  reject_if (negb (ed25519_verify (public_key_bytes key) message (signature_bytes signature))) SignatureInvalid ;?
  Ok tt.

(** [RpcNonceV1::random]; [random] is what the system's generator filled in. *)
Definition nonce_random (random : option bytes) : res RpcAuthError RpcNonceV1 :=
  let? b := ok_or Randomness random in Ok (mkRpcNonce b).

(** *** The signer *)

Record RpcSignerV1 : Type := mkSigner {
  sg_principal : Digest;
  sg_key_id : RpcKeyIdV1;
  sg_public_key : RpcPublicKeyV1;
  sg_key_pair : KeyPair
}.

(** [RpcSignerV1::from_pkcs8]. *)
Definition from_pkcs8 (principal : Digest) (key_id : RpcKeyIdV1) (b : bytes) : res RpcAuthError RpcSignerV1 :=
  let? key_pair := ok_or InvalidPrivateKey (key_from_pkcs8 b) in
  reject_if (length (key_public key_pair) != ED25519_PUBLIC_KEY_LEN) InvalidPrivateKey ;?
  Ok (mkSigner principal key_id (mkPublicKey (key_public key_pair)) key_pair).

(** [RpcSignerV1::sign]: panics on a signature that is not 64 bytes long. *)
Definition sign (self : RpcSignerV1) (message : bytes) : res RpcAuthError RpcSignatureV1 :=
  let signature := key_sign (sg_key_pair self) message in
  if length signature == ED25519_SIGNATURE_LEN then Ok (mkSignature signature) else Panic.

(** [RpcSignerV1::enrollment]. *)
Definition enrollment (self : RpcSignerV1) (maximum_clock_skew_ms : Z) : res RpcAuthError RpcPeerEnrollmentV1 :=
  RpcPeerEnrollmentV1_new (sg_principal self)
    (mkKeyPolicy (sg_principal self) (sg_key_id self) (sg_public_key self) maximum_clock_skew_ms).

(** The all-zero signature a proof is built with before it is signed. *)
Definition zero_signature : RpcSignatureV1 := mkSignature (replicate ED25519_SIGNATURE_LEN Byte.x00).

(** [proof.signature = ...]. *)
Definition set_challenge_signature (c : SignedServerChallengeV1) (s : RpcSignatureV1) : SignedServerChallengeV1 :=
  let p := sc_authentication c in
  mkChallenge (sc_schema c) (sc_protocol_version c)
    (mkChallengeProof (cp_signer_principal p) (cp_signer_key_id p) (cp_audience_principal p)
       (cp_audience_key_id p) (cp_direction p) (cp_nonce p) (cp_issued_at_unix_ms p) s).
Definition set_request_signature {T} (r : SignedRequestEnvelopeV1 T) (s : RpcSignatureV1) : SignedRequestEnvelopeV1 T :=
  let p := sr_authentication r in
  mkSignedRequest (sr_schema r) (sr_request r)
    (mkRequestProof (rp_signer_principal p) (rp_signer_key_id p) (rp_audience_principal p)
       (rp_audience_key_id p) (rp_direction p) (rp_nonce p) (rp_issued_at_unix_ms p) (rp_challenge_digest p) s).
Definition set_response_signature {T} (r : SignedResponseEnvelopeV1 T) (s : RpcSignatureV1) : SignedResponseEnvelopeV1 T :=
  let p := ss_authentication r in
  mkSignedResponse (ss_schema r) (ss_response r)
    (mkResponseProof (sp_signer_principal p) (sp_signer_key_id p) (sp_audience_principal p)
       (sp_audience_key_id p) (sp_direction p) (sp_nonce p) (sp_issued_at_unix_ms p)
       (sp_signed_request_digest p) (sp_request_nonce p) (sp_response_body_digest p) s).

(** [RpcSignerV1::issue_challenge]. *)
Definition issue_challenge (self : RpcSignerV1) (audience : RpcPeerEnrollmentV1) (issued_at_unix_ms : Z)
    (random : option bytes) : res RpcAuthError SignedServerChallengeV1 :=
  policy_validate (pe_key audience) ;?
  let? nonce := nonce_random random in
  let challenge := mkChallenge "ag.local-rpc.server-challenge.v1" version_current
    (mkChallengeProof (sg_principal self) (sg_key_id self) (pe_principal audience) (kp_key_id (pe_key audience))
       ServerChallenge nonce issued_at_unix_ms zero_signature) in
  let? message := challenge_message challenge in
  let? signature := sign self message in
  Ok (set_challenge_signature challenge signature).

(** [RpcSignerV1::sign_request]. *)
Definition sign_request `{Serialize T} (self : RpcSignerV1) (request : RequestEnvelopeV1 T)
    (challenge : SignedServerChallengeV1) (issued_at_unix_ms : Z) (random : option bytes)
    : res RpcAuthError (SignedRequestEnvelopeV1 T) :=
  protocol (request_validate request) ;?
  let c := sc_authentication challenge in
  reject_if ((cp_audience_principal c != sg_principal self) || (cp_audience_key_id c != sg_key_id self))
    AudienceMismatch ;?
  let? nonce := nonce_random random in
  let? challenge_digest := protocol (canonical_json_digest "ag-local-rpc-server-challenge-v1" challenge) in
  let signed := mkSignedRequest "ag.local-rpc.signed-request.v1" request
    (mkRequestProof (sg_principal self) (sg_key_id self) (cp_signer_principal c) (cp_signer_key_id c)
       Request nonce issued_at_unix_ms challenge_digest zero_signature) in
  let? message := request_message signed in
  let? signature := sign self message in
  Ok (set_request_signature signed signature).

(** [RpcSignerV1::sign_response]. *)
Definition sign_response `{Serialize T, Serialize U} (self : RpcSignerV1) (request : SignedRequestEnvelopeV1 U)
    (body : T) (issued_at_unix_ms : Z) (random : option bytes) : res RpcAuthError (SignedResponseEnvelopeV1 T) :=
  protocol (request_validate (sr_request request)) ;?
  let response := for_request (sr_request request) body in
  let? response_body_digest := protocol (canonical_json_digest "ag-local-rpc-response-body-v1" (rs_body response)) in
  let? nonce := nonce_random random in
  let? signed_request_digest := protocol (canonical_json_digest "ag-local-rpc-signed-request-v1" request) in
  let q := sr_authentication request in
  let signed := mkSignedResponse "ag.local-rpc.signed-response.v1" response
    (mkResponseProof (sg_principal self) (sg_key_id self) (rp_signer_principal q) (rp_signer_key_id q)
       Response nonce issued_at_unix_ms signed_request_digest (rp_nonce q) response_body_digest zero_signature) in
  let? message := response_message signed in
  let? signature := sign self message in
  Ok (set_response_signature signed signature).

End Signing.

(** ** Credentials

    [std::fs::Metadata], as far as the code reads it. *)
Record Metadata : Type := mkMetadata {
  md_is_file : bool;
  md_mode : Z;
  md_nlink : Z;
  md_uid : Z;
  md_dev : Z;
  md_ino : Z;
  md_size : Z;
  md_mtime : Z;
  md_mtime_nsec : Z;
  md_ctime : Z;
  md_ctime_nsec : Z
}.

(** What the system answers while a credential is read: opening the root and the
    file beneath it, the two [fstat] calls, and the bytes the file holds for the
    reader between them; a failure carries its message. *)
Record CredentialIO : Type := mkCredentialIO {
  io_open_root : res string unit;
  io_open_beneath : res string unit;
  io_before : res string Metadata;
  io_content : res string bytes;
  io_after : res string Metadata;
  io_effective_uid : Z
}.

(** [validate_credential_metadata]; [0o077] is 63. *)
Definition validate_credential_metadata (effective_uid : Z) (fstat : res string Metadata)
    : res RpcAuthError Metadata :=
  let? metadata := map_err CredentialIo fstat in
  reject_if (negb (md_is_file metadata)
             || negb (Z.land (md_mode metadata) 63 =? 0)%Z
             || negb (md_nlink metadata =? 1)%Z
             || (negb (md_uid metadata =? 0)%Z && negb (md_uid metadata =? effective_uid)%Z))
    InvalidCredentialFile ;?
  Ok metadata.

(** [reader.take(MAX_CREDENTIAL_BYTES + 1).read_to_end]. *)
Definition take_credential (content : bytes) : bytes := take (Z.to_nat (MAX_CREDENTIAL_BYTES + 1)) content.

(** [read_protected_credential]. *)
Definition read_protected_credential (path : string) (io : CredentialIO) : res RpcAuthError bytes :=
  map_err CredentialIo (io_open_root io) ;?
  reject_if (head (components path) != Some RootDir) UnsafeCredentialPath ;?
  map_err CredentialIo (io_open_beneath io) ;?
  let? before := validate_credential_metadata (io_effective_uid io) (io_before io) in
  let? content := map_err CredentialIo (io_content io) in
  let b := take_credential content in
  let? after := validate_credential_metadata (io_effective_uid io) (io_after io) in
  reject_if ((b == [])
             || (MAX_CREDENTIAL_BYTES <? Z.of_nat (length b))%Z
             || negb (Z.of_nat (length b) =? md_size before)%Z
             || negb (md_dev before =? md_dev after)%Z
             || negb (md_ino before =? md_ino after)%Z
             || negb (md_size before =? md_size after)%Z
             || negb (md_mtime before =? md_mtime after)%Z
             || negb (md_mtime_nsec before =? md_mtime_nsec after)%Z
             || negb (md_ctime before =? md_ctime after)%Z
             || negb (md_ctime_nsec before =? md_ctime_nsec after)%Z)
    InvalidCredentialFile ;?
  Ok b.

Section Credentials.
  Context `{RpcDeps}.

(** [RpcSignerV1::from_systemd_credential]. *)
Definition from_systemd_credential (config : RpcSigningIdentityConfigV1) (io : CredentialIO)
    : res RpcAuthError RpcSignerV1 :=
  signing_config_validate config ;?
  let? b := read_protected_credential (si_private_key_credential config) io in
  let? signer := from_pkcs8 (si_principal config) (si_key_id config) b in
  reject_if (sg_public_key signer != si_public_key config) CredentialPublicKeyMismatch ;?
  Ok signer.

(** [RpcSignerV1::from_ephemeral_candidate_ingress_reader]. *)
Definition from_ephemeral_reader (principal : Digest) (key_id : RpcKeyIdV1) (content : res string bytes)
    : res RpcAuthError RpcSignerV1 :=
  let? content := map_err CredentialIo content in
  let b := take_credential content in
  reject_if ((b == []) || (MAX_CREDENTIAL_BYTES <? Z.of_nat (length b))%Z) InvalidCredentialFile ;?
  from_pkcs8 principal key_id b.

(** [RpcSignerV1::generate_ephemeral_candidate_ingress]; [document] is the key
    the system's generator made, and the second component the private material. *)
Definition generate_ephemeral (principal : Digest) (key_id : RpcKeyIdV1) (document : option bytes)
    : res RpcAuthError (RpcSignerV1 * bytes) :=
  let? material := ok_or Randomness document in
  let? signer := from_pkcs8 principal key_id material in
  Ok (signer, material).

End Credentials.

(** ** The replay guard *)

#[global] Instance byte_countable : Countable Byte.byte.
Proof.
  refine (inj_countable Byte.to_N Byte.of_N _). intros b. apply Byte.of_to_N.
Defined.
#[global] Instance RpcKeyIdV1_countable : Countable RpcKeyIdV1.
Proof. refine (inj_countable' key_id_str mkKeyId _). by intros []. Defined.
#[global] Instance RpcNonceV1_countable : Countable RpcNonceV1.
Proof. refine (inj_countable' rpc_nonce_bytes mkRpcNonce _). by intros []. Defined.
#[global] Instance RpcDirectionV1_countable : Countable RpcDirectionV1.
Proof.
  refine (inj_countable'
    (fun d => match d with ServerChallenge => None | Request => Some false | Response => Some true end)
    (fun o => match o with None => ServerChallenge | Some false => Request | Some true => Response end) _).
  by intros [].
Defined.

Record ReplayKeyV1 : Type := mkReplayKey {
  rk_signer : Digest;
  rk_key_id : RpcKeyIdV1;
  rk_direction : RpcDirectionV1;
  rk_nonce : RpcNonceV1
}.
#[global] Instance ReplayKeyV1_eq_dec : EqDecision ReplayKeyV1.
Proof. solve_decision. Defined.
#[global] Instance ReplayKeyV1_countable : Countable ReplayKeyV1.
Proof.
  refine (inj_countable' (fun k => (rk_signer k, rk_key_id k, rk_direction k, rk_nonce k))
    (fun '(a, b, c, d) => mkReplayKey a b c d) _).
  by intros [].
Defined.

Record ReplayObservationV1 : Type := mkObservation {
  ob_signer : Digest;
  ob_key_id : RpcKeyIdV1;
  ob_direction : RpcDirectionV1;
  ob_nonce : RpcNonceV1;
  ob_issued_at_unix_ms : Z;
  ob_maximum_clock_skew_ms : Z
}.
Record RpcReplayGuardV1 : Type := mkGuard { rg_capacity : nat; rg_entries : gmap ReplayKeyV1 Z }.

(** [RpcReplayGuardV1::new]. *)
Definition RpcReplayGuardV1_new (capacity : nat) : res RpcAuthError RpcReplayGuardV1 :=
  reject_if (capacity == 0) InvalidReplayCapacity ;?
  Ok (mkGuard capacity ∅).

(** [validate_time]. *)
Definition validate_time (issued now skew : Z) : res RpcAuthError unit :=
  reject_if ((skew =? 0)%Z || (saturating_add_u64 now skew <? issued)%Z
             || (saturating_add_u64 issued skew <? now)%Z) TimestampOutsideWindow ;?
  Ok tt.
Fixpoint validate_times (observations : list ReplayObservationV1) (now : Z) : res RpcAuthError unit :=
  match observations with
  | [] => Ok tt
  | o :: l => validate_time (ob_issued_at_unix_ms o) now (ob_maximum_clock_skew_ms o) ;? validate_times l now
  end.

(** The entry an observation becomes. *)
Definition observation_key (o : ReplayObservationV1) : ReplayKeyV1 :=
  mkReplayKey (ob_signer o) (ob_key_id o) (ob_direction o) (ob_nonce o).
Definition observation_expiry (o : ReplayObservationV1) : Z :=
  saturating_add_u64 (ob_issued_at_unix_ms o) (ob_maximum_clock_skew_ms o).
Definition candidate_of (o : ReplayObservationV1) : ReplayKeyV1 * Z := (observation_key o, observation_expiry o).

(** [entries.retain(..)]. *)
Definition retain (now : Z) (entries : gmap ReplayKeyV1 Z) : gmap ReplayKeyV1 Z :=
  filter (fun kv => (now <= kv.2)%Z) entries.
(** [candidates.enumerate().any(..)]: a key equal to an earlier one. *)
Fixpoint repeats_key (seen : list ReplayKeyV1) (candidates : list (ReplayKeyV1 * Z)) : bool :=
  match candidates with
  | [] => false
  | (key, _) :: l => bool_decide (key ∈ seen) || repeats_key (seen ++ [key]) l
  end.
(** [entries.extend(candidates)]. *)
Definition extend (entries : gmap ReplayKeyV1 Z) (candidates : list (ReplayKeyV1 * Z)) : gmap ReplayKeyV1 Z :=
  fold_left (fun m kv => <[kv.1 := kv.2]> m) candidates entries.

(** [RpcReplayGuardV1::check_and_record_all]: the guard it leaves, and its
    result.  Expired entries go even when the call then fails. *)
Definition check_and_record_all (self : RpcReplayGuardV1) (observations : list ReplayObservationV1) (now : Z)
    : RpcReplayGuardV1 * res RpcAuthError unit :=
  match validate_times observations now with
  | Ok _ =>
      let entries := retain now (rg_entries self) in
      let kept := mkGuard (rg_capacity self) entries in
      let candidates := map candidate_of observations in
      if existsb (fun kv => bool_decide (is_Some (entries !! kv.1))) candidates || repeats_key [] candidates
      then (kept, Err Replay)
      else if rg_capacity self <? size entries + length candidates then (kept, Err ReplayCapacityExhausted)
      else (mkGuard (rg_capacity self) (extend entries candidates), Ok tt)
  | failed => (self, failed)
  end.
Definition check_and_record (self : RpcReplayGuardV1) (o : ReplayObservationV1) (now : Z)
    : RpcReplayGuardV1 * res RpcAuthError unit :=
  check_and_record_all self [o] now.

(** ** Verification *)

(** Checks that do not touch the guard, then a step that does. *)
Definition guarded {A} (guard : RpcReplayGuardV1) (checks : res RpcAuthError A)
    (k : A -> RpcReplayGuardV1 * res RpcAuthError unit) : RpcReplayGuardV1 * res RpcAuthError unit :=
  match checks with
  | Ok a => k a
  | Err e => (guard, Err e)
  | Panic => (guard, Panic)
  end.

(** [require_direction] and [require_signer]. *)
Definition require_direction (actual expected : RpcDirectionV1) : res RpcAuthError unit :=
  reject_if (actual != expected) WrongDirection ;? Ok tt.
Definition require_signer (principal : Digest) (key_id : RpcKeyIdV1) (expected : RpcPeerEnrollmentV1)
    : res RpcAuthError unit :=
  reject_if ((principal != pe_principal expected) || (key_id != kp_key_id (pe_key expected))) SignerMismatch ;?
  Ok tt.

(** The observation each verifier records. *)
Definition challenge_observation (p : ChallengeProofV1) (peer : RpcPeerEnrollmentV1) : ReplayObservationV1 :=
  mkObservation (cp_signer_principal p) (cp_signer_key_id p) (cp_direction p) (cp_nonce p)
    (cp_issued_at_unix_ms p) (kp_maximum_clock_skew_ms (pe_key peer)).
Definition request_observation (p : RequestProofV1) (peer : RpcPeerEnrollmentV1) : ReplayObservationV1 :=
  mkObservation (rp_signer_principal p) (rp_signer_key_id p) (rp_direction p) (rp_nonce p)
    (rp_issued_at_unix_ms p) (kp_maximum_clock_skew_ms (pe_key peer)).
Definition response_observation (p : ResponseProofV1) (peer : RpcPeerEnrollmentV1) : ReplayObservationV1 :=
  mkObservation (sp_signer_principal p) (sp_signer_key_id p) (sp_direction p) (sp_nonce p)
    (sp_issued_at_unix_ms p) (kp_maximum_clock_skew_ms (pe_key peer)).

Section Verifying.
  Context `{Deps, RpcDeps}.

(** [verify_server_challenge]. *)
Definition verify_server_challenge (challenge : SignedServerChallengeV1) (server : RpcPeerEnrollmentV1)
    (local_signer : RpcSignerV1) (replay_guard : RpcReplayGuardV1) (now : Z)
    : RpcReplayGuardV1 * res RpcAuthError unit :=
  let proof := sc_authentication challenge in
  guarded replay_guard
    (policy_validate (pe_key server) ;?
     reject_if (sc_schema challenge != "ag.local-rpc.server-challenge.v1") Schema ;?
     reject_if (sc_protocol_version challenge != version_current) ProtocolVersion ;?
     require_direction (cp_direction proof) ServerChallenge ;?
     require_signer (cp_signer_principal proof) (cp_signer_key_id proof) server ;?
     reject_if ((cp_audience_principal proof != sg_principal local_signer)
                || (cp_audience_key_id proof != sg_key_id local_signer)) AudienceMismatch ;?
     let? message := challenge_message challenge in
     verify_signature (kp_public_key (pe_key server)) message (cp_signature proof))
    (fun _ => check_and_record replay_guard (challenge_observation proof server) now).

(** [verify_signed_request]. *)
Definition verify_signed_request `{Serialize T} (signed : SignedRequestEnvelopeV1 T)
    (challenge : SignedServerChallengeV1) (caller : RpcPeerEnrollmentV1) (local_signer : RpcSignerV1)
    (replay_guard : RpcReplayGuardV1) (now : Z) : RpcReplayGuardV1 * res RpcAuthError unit :=
  let proof := sr_authentication signed in
  guarded replay_guard
    (policy_validate (pe_key caller) ;?
     reject_if (sr_schema signed != "ag.local-rpc.signed-request.v1") Schema ;?
     protocol (request_validate (sr_request signed)) ;?
     require_direction (rp_direction proof) Request ;?
     require_signer (rp_signer_principal proof) (rp_signer_key_id proof) caller ;?
     reject_if ((rp_audience_principal proof != sg_principal local_signer)
                || (rp_audience_key_id proof != sg_key_id local_signer)) AudienceMismatch ;?
     let? challenge_digest := protocol (canonical_json_digest "ag-local-rpc-server-challenge-v1" challenge) in
     reject_if (rp_challenge_digest proof != challenge_digest) ChallengeMismatch ;?
     let? message := request_message signed in
     verify_signature (kp_public_key (pe_key caller)) message (rp_signature proof))
    (fun _ => check_and_record replay_guard (request_observation proof caller) now).

(** [verify_forwarded_signed_request_bindings]. *)
Definition verify_forwarded_bindings `{Serialize T} (challenge : SignedServerChallengeV1)
    (signed : SignedRequestEnvelopeV1 T) (governor proposer : RpcPeerEnrollmentV1)
    : res RpcAuthError VerifiedRpcPrincipalV1 :=
  policy_validate (pe_key governor) ;?
  policy_validate (pe_key proposer) ;?
  reject_if ((sc_schema challenge != "ag.local-rpc.server-challenge.v1")
             || (sr_schema signed != "ag.local-rpc.signed-request.v1")) Schema ;?
  reject_if (sc_protocol_version challenge != version_current) ProtocolVersion ;?
  protocol (request_validate (sr_request signed)) ;?
  let challenge_proof := sc_authentication challenge in
  require_direction (cp_direction challenge_proof) ServerChallenge ;?
  require_signer (cp_signer_principal challenge_proof) (cp_signer_key_id challenge_proof) governor ;?
  reject_if ((cp_audience_principal challenge_proof != pe_principal proposer)
             || (cp_audience_key_id challenge_proof != kp_key_id (pe_key proposer))) AudienceMismatch ;?
  (let? message := challenge_message challenge in
   verify_signature (kp_public_key (pe_key governor)) message (cp_signature challenge_proof)) ;?
  let request_proof := sr_authentication signed in
  require_direction (rp_direction request_proof) Request ;?
  require_signer (rp_signer_principal request_proof) (rp_signer_key_id request_proof) proposer ;?
  reject_if ((rp_audience_principal request_proof != pe_principal governor)
             || (rp_audience_key_id request_proof != kp_key_id (pe_key governor))) AudienceMismatch ;?
  let? challenge_digest := protocol (canonical_json_digest "ag-local-rpc-server-challenge-v1" challenge) in
  reject_if (rp_challenge_digest request_proof != challenge_digest) ChallengeMismatch ;?
  (let? message := request_message signed in
   verify_signature (kp_public_key (pe_key proposer)) message (rp_signature request_proof)) ;?
  Ok (mkVerified (pe_principal proposer) (kp_key_id (pe_key proposer))).

(** [record_forwarded_signed_request_freshness]. *)
Definition record_forwarded_freshness {T} (challenge : SignedServerChallengeV1)
    (signed : SignedRequestEnvelopeV1 T) (governor proposer : RpcPeerEnrollmentV1)
    (replay_guard : RpcReplayGuardV1) (now : Z) : RpcReplayGuardV1 * res RpcAuthError unit :=
  check_and_record_all replay_guard
    [challenge_observation (sc_authentication challenge) governor;
     request_observation (sr_authentication signed) proposer] now.

(** [verify_forwarded_signed_request]. *)
Definition verify_forwarded_signed_request `{Serialize T} (challenge : SignedServerChallengeV1)
    (signed : SignedRequestEnvelopeV1 T) (governor proposer : RpcPeerEnrollmentV1)
    (replay_guard : RpcReplayGuardV1) (now : Z) : RpcReplayGuardV1 * res RpcAuthError VerifiedRpcPrincipalV1 :=
  match verify_forwarded_bindings challenge signed governor proposer with
  | Ok verified =>
      let (guard', recorded) := record_forwarded_freshness challenge signed governor proposer replay_guard now in
      (guard', recorded ;? Ok verified)
  | failed => (replay_guard, failed)
  end.

(** [verify_signed_response]. *)
Definition verify_signed_response `{Serialize T, Serialize U} (signed : SignedResponseEnvelopeV1 T)
    (request : SignedRequestEnvelopeV1 U) (server : RpcPeerEnrollmentV1) (local_signer : RpcSignerV1)
    (replay_guard : RpcReplayGuardV1) (now : Z) : RpcReplayGuardV1 * res RpcAuthError unit :=
  let proof := ss_authentication signed in
  guarded replay_guard
    (policy_validate (pe_key server) ;?
     reject_if (ss_schema signed != "ag.local-rpc.signed-response.v1") Schema ;?
     protocol (validate_echo (ss_response signed) (sr_request request)) ;?
     require_direction (sp_direction proof) Response ;?
     require_signer (sp_signer_principal proof) (sp_signer_key_id proof) server ;?
     reject_if ((sp_audience_principal proof != sg_principal local_signer)
                || (sp_audience_key_id proof != sg_key_id local_signer)) AudienceMismatch ;?
     let? expected_request_digest := protocol (canonical_json_digest "ag-local-rpc-signed-request-v1" request) in
     reject_if ((sp_signed_request_digest proof != expected_request_digest)
                || (sp_request_nonce proof != rp_nonce (sr_authentication request))) RequestBindingMismatch ;?
     let? response_body_digest :=
       protocol (canonical_json_digest "ag-local-rpc-response-body-v1" (rs_body (ss_response signed))) in
     reject_if (sp_response_body_digest proof != response_body_digest) ResponseBodyDigestMismatch ;?
     let? message := response_message signed in
     verify_signature (kp_public_key (pe_key server)) message (sp_signature proof))
    (fun _ => check_and_record replay_guard (response_observation proof server) now).

End Verifying.

(** ** The guard: lemmas *)

Lemma retain_lookup now m k e : retain now m !! k = Some e <-> m !! k = Some e /\ (now <= e)%Z.
Proof. unfold retain. rewrite map_lookup_filter_Some. done. Qed.

Lemma repeats_key_spec seen l :
  repeats_key seen l = false <-> NoDup (map fst l) /\ (forall k, k ∈ map fst l -> k ∉ seen).
Proof.
  revert seen. induction l as [|[k e] l IH]; intros seen; simpl.
  { split; [|done]. intros _. split; [constructor | by intros k Hk%elem_of_nil]. }
  rewrite orb_false, bool_decide_eq_false, IH, NoDup_cons. setoid_rewrite elem_of_cons.
  setoid_rewrite elem_of_app. setoid_rewrite list_elem_of_singleton. split.
  - intros (Hk & Hnd & Hl). split_all; [|done|].
    + intros Hin. apply (Hl k Hin). by right.
    + intros j [->|Hj]; [done|]. intros Hs. apply (Hl j Hj). by left.
  - intros ((Hk & Hnd) & Hl). split_all; [apply Hl; by left | done |].
    intros j Hj [Hs| ->]; [|done]. apply (Hl j); [by right | done].
Qed.

Lemma extend_cons m j e l : extend m ((j, e) :: l) = extend (<[j := e]> m) l.
Proof. done. Qed.

Lemma extend_lookup_other l m k : k ∉ map fst l -> extend m l !! k = m !! k.
Proof.
  revert m. induction l as [|[j e] l IH]; intros m Hk; [done|]. rewrite extend_cons. simpl in *.
  apply not_elem_of_cons in Hk as [Hkj Hk]. rewrite IH by done. by apply lookup_insert_ne.
Qed.

Lemma extend_lookup l m k e :
  NoDup (map fst l) ->
  (extend m l !! k = Some e) <-> (k, e) ∈ l \/ ((k ∉ map fst l) /\ m !! k = Some e).
Proof.
  revert m. induction l as [|[j f] l IH]; intros m Hnd; rewrite ?extend_cons; cbn [map] in *.
  { rewrite elem_of_nil. split; [intros Hm; right; by split; [apply not_elem_of_nil|] | naive_solver]. }
  apply NoDup_cons in Hnd as [Hj Hnd]. rewrite (IH _ Hnd), !elem_of_cons.
  assert ((k, e) ∈ l -> k ∈ map fst l) as Hin by (intros Hke; exact (elem_map fst l (k, e) Hke)).
  destruct (decide (k = j)) as [->|Hne].
  - rewrite lookup_insert_eq. simpl in *. split.
    + intros [Hke|[_ [= ->]]]; [naive_solver | by left; left].
    + intros [[[= ->]|Hke]|[Hn _]]; [by right | by left | tauto].
  - rewrite lookup_insert_ne by done. naive_solver.
Qed.

Lemma size_extend l m :
  NoDup (map fst l) -> (forall k, k ∈ map fst l -> m !! k = None) ->
  size (extend m l) = size m + length l.
Proof.
  revert m. induction l as [|[j f] l IH]; intros m Hnd Hf; [by rewrite Nat.add_0_r|].
  rewrite extend_cons. simpl in *. apply NoDup_cons in Hnd as [Hj Hnd]. rewrite IH; [|done|].
  - rewrite map_size_insert_None; [lia|]. apply Hf. by left.
  - intros k Hk. rewrite lookup_insert_ne; [apply Hf; by right|]. intros ->. done.
Qed.

(** The freshness window of an observation: its issue time lies within the
    enrolled skew of the present. *)
Definition in_window (now : Z) (o : ReplayObservationV1) : Prop :=
  (0 < ob_maximum_clock_skew_ms o /\ ob_issued_at_unix_ms o <= now + ob_maximum_clock_skew_ms o
   /\ now <= ob_issued_at_unix_ms o + ob_maximum_clock_skew_ms o)%Z.
Definition observation_ok (o : ReplayObservationV1) : Prop :=
  u64_ok (ob_issued_at_unix_ms o) /\ u64_ok (ob_maximum_clock_skew_ms o).

Lemma validate_time_ok o now :
  u64_ok now -> observation_ok o ->
  validate_time (ob_issued_at_unix_ms o) now (ob_maximum_clock_skew_ms o) = Ok tt <-> in_window now o.
Proof.
  unfold u64_ok, observation_ok, u64_ok, validate_time, in_window, saturating_add_u64. intros Hn [Hi Hs].
  rewrite guard_ok. guards. split; [intros (? & _); lia | intros ?; split; [lia | done]].
Qed.

Lemma validate_time_cases i now s : validate_time i now s = Ok tt \/ validate_time i now s = Err TimestampOutsideWindow.
Proof. unfold validate_time, reject_if. case_match; [by right | by left]. Qed.

Lemma validate_times_cases l now :
  validate_times l now = Ok tt \/ validate_times l now = Err TimestampOutsideWindow.
Proof.
  induction l as [|o l IH]; [by left|]. simpl.
  destruct (validate_time_cases (ob_issued_at_unix_ms o) now (ob_maximum_clock_skew_ms o)) as [-> | ->];
    [exact IH | by right].
Qed.

Lemma validate_times_ok l now :
  u64_ok now -> Forall observation_ok l -> validate_times l now = Ok tt <-> Forall (in_window now) l.
Proof.
  intros Hn. induction 1 as [|o l Ho Hl IH]; [by split|]. simpl.
  by rewrite then_ok, Forall_cons, IH, validate_time_ok.
Qed.

Lemma map_fst_candidates l : map fst (map candidate_of l) = map observation_key l.
Proof. by rewrite map_map. Qed.

(** A key the guard still holds at [now]. *)
Definition live (g : RpcReplayGuardV1) (now : Z) (k : ReplayKeyV1) : Prop :=
  exists e, rg_entries g !! k = Some e /\ (now <= e)%Z.

Lemma live_candidate g now l :
  existsb (fun kv => bool_decide (is_Some (retain now (rg_entries g) !! kv.1))) (map candidate_of l) = false
  <-> (forall o, o ∈ l -> ~ live g now (observation_key o)).
Proof.
  rewrite <- not_true_iff_false, existsb_exists. unfold live. setoid_rewrite in_map_iff.
  setoid_rewrite <- retain_lookup. split.
  - intros Hn o Ho Hl. apply Hn. exists (candidate_of o). split; [|by apply bool_decide_eq_true].
    exists o. split; [done | by apply list_elem_of_In].
  - intros Hn (kv & (o & <- & Ho) & Hb%bool_decide_eq_true). apply (Hn o); [by apply list_elem_of_In | done].
Qed.

(** What [check_and_record_all] asks of an admissible call: fresh timestamps,
    keys that are new and distinct, and room among the unexpired entries. *)
Definition no_replay (g : RpcReplayGuardV1) (l : list ReplayObservationV1) (now : Z) : Prop :=
  NoDup (map observation_key l) /\ (forall o, o ∈ l -> ~ live g now (observation_key o)).
Definition has_room (g : RpcReplayGuardV1) (l : list ReplayObservationV1) (now : Z) : Prop :=
  size (retain now (rg_entries g)) + length l <= rg_capacity g.

Lemma replay_test g l now :
  existsb (fun kv => bool_decide (is_Some (retain now (rg_entries g) !! kv.1))) (map candidate_of l)
  || repeats_key [] (map candidate_of l) = false <-> no_replay g l now.
Proof.
  rewrite orb_false, live_candidate, repeats_key_spec, map_fst_candidates. unfold no_replay.
  split; [naive_solver|]. intros [Hnd Hl]. split_all; [done | done |]. intros k _. apply not_elem_of_nil.
Qed.

(** The four outcomes of a call, with the guard each leaves. *)
Lemma check_and_record_all_cases g l now :
  let kept := mkGuard (rg_capacity g) (retain now (rg_entries g)) in
  (validate_times l now = Err TimestampOutsideWindow /\
   check_and_record_all g l now = (g, Err TimestampOutsideWindow)) \/
  (validate_times l now = Ok tt /\ ~ no_replay g l now /\ check_and_record_all g l now = (kept, Err Replay)) \/
  (validate_times l now = Ok tt /\ no_replay g l now /\ ~ has_room g l now /\
   check_and_record_all g l now = (kept, Err ReplayCapacityExhausted)) \/
  (validate_times l now = Ok tt /\ no_replay g l now /\ has_room g l now /\
   check_and_record_all g l now =
     (mkGuard (rg_capacity g) (extend (retain now (rg_entries g)) (map candidate_of l)), Ok tt)).
Proof.
  unfold check_and_record_all. destruct (validate_times_cases l now) as [Hv|Hv]; rewrite Hv; [right | by left].
  rewrite <- replay_test. destruct (_ || _); [left; by split_all | right].
  unfold has_room. rewrite length_map.
  destruct (Nat.ltb_spec (rg_capacity g) (size (retain now (rg_entries g)) + length l)); [left | right];
    split_all; done || lia.
Qed.

Lemma no_replay_fresh g l now k :
  no_replay g l now -> k ∈ map observation_key l -> retain now (rg_entries g) !! k = None.
Proof.
  intros [_ Hl] (o & Ho & <-)%elem_map_iff. destruct (retain now (rg_entries g) !! observation_key o) eqn:He; [|done].
  apply retain_lookup in He. destruct (Hl o Ho). by exists z.
Qed.

(** The entries after a successful call: the unexpired ones and the new ones. *)
Lemma recorded_lookup g l now k e :
  no_replay g l now ->
  extend (retain now (rg_entries g)) (map candidate_of l) !! k = Some e <->
  (exists o, o ∈ l /\ k = observation_key o /\ e = observation_expiry o) \/
  (rg_entries g !! k = Some e /\ (now <= e)%Z).
Proof.
  intros Hr. pose proof Hr as [Hnd _]. rewrite extend_lookup, map_fst_candidates, retain_lookup by (by rewrite map_fst_candidates).
  rewrite elem_map_iff. unfold candidate_of. split.
  - intros [(o & Ho & [= <- <-])|[_ Hm]]; [left; by exists o | by right].
  - intros [(o & Ho & -> & ->)|Hm]; [left; by exists o|]. right. split; [|done].
    intros Hk. apply (no_replay_fresh _ _ _ _ Hr) in Hk. apply retain_lookup in Hm. congruence.
Qed.

Lemma guard_capacity_kept g l now : rg_capacity (check_and_record_all g l now).1 = rg_capacity g.
Proof. by destruct (check_and_record_all_cases g l now) as [(_ & ->)|[(_ & _ & ->)|[(_ & _ & _ & ->)|(_ & _ & _ & ->)]]]. Qed.

Definition guard_bounded (g : RpcReplayGuardV1) : Prop := size (rg_entries g) <= rg_capacity g.

Lemma size_retain now m : size (retain now m) <= size m.
Proof. apply map_subseteq_size, map_filter_subseteq. Qed.

Lemma guard_stays_bounded g l now : guard_bounded g -> guard_bounded (check_and_record_all g l now).1.
Proof.
  unfold guard_bounded. intros Hb. pose proof (size_retain now (rg_entries g)) as Hs.
  destruct (check_and_record_all_cases g l now) as [(_ & ->)|[(_ & _ & ->)|[(_ & _ & _ & ->)|(_ & Hr & Hroom & ->)]]];
    simpl; try lia.
  rewrite size_extend, length_map; [exact Hroom | |].
  - rewrite map_fst_candidates. apply Hr.
  - intros k Hk. rewrite map_fst_candidates in Hk. by apply (no_replay_fresh _ _ _ _ Hr).
Qed.

(** No call drops or changes an entry that has not expired. *)
Lemma guard_keeps_live g l now k e :
  rg_entries g !! k = Some e -> (now <= e)%Z -> rg_entries (check_and_record_all g l now).1 !! k = Some e.
Proof.
  intros Hk He.
  destruct (check_and_record_all_cases g l now) as [(_ & ->)|[(_ & _ & ->)|[(_ & _ & _ & ->)|(_ & Hr & _ & ->)]]];
    simpl; [done | by apply retain_lookup | by apply retain_lookup|].
  apply recorded_lookup; [done|]. by right.
Qed.

Lemma guard_records g l now o :
  (check_and_record_all g l now).2 = Ok tt -> o ∈ l ->
  rg_entries (check_and_record_all g l now).1 !! observation_key o = Some (observation_expiry o).
Proof.
  destruct (check_and_record_all_cases g l now) as [(_ & ->)|[(_ & _ & ->)|[(_ & _ & _ & ->)|(_ & Hr & _ & ->)]]];
    simpl; try done.
  intros _ Ho. apply recorded_lookup; [done|]. left. by exists o.
Qed.

(** A live key is refused: as a replay, unless a timestamp is refused first. *)
Lemma guard_refuses_live g l now o :
  o ∈ l -> live g now (observation_key o) ->
  (check_and_record_all g l now).2 = Err Replay \/ (check_and_record_all g l now).2 = Err TimestampOutsideWindow.
Proof.
  intros Ho Hl.
  destruct (check_and_record_all_cases g l now) as [(_ & ->)|[(_ & _ & ->)|[(_ & Hr & _ & ->)|(_ & Hr & _ & ->)]]];
    simpl; [by right | by left | |]; by destruct (proj2 Hr o Ho).
Qed.

(** The guard after a sequence of calls, whatever their results. *)
Definition Call : Type := list ReplayObservationV1 * Z.
Definition guard_run (g : RpcReplayGuardV1) (calls : list Call) : RpcReplayGuardV1 :=
  fold_left (fun g c => (check_and_record_all g c.1 c.2).1) calls g.

Lemma guard_run_keeps calls g k e :
  rg_entries g !! k = Some e -> Forall (fun c : Call => c.2 <= e)%Z calls ->
  rg_entries (guard_run g calls) !! k = Some e.
Proof.
  intros Hk Hc. revert g Hk. induction Hc as [|c calls Hc _ IH]; intros g Hk; [done|].
  simpl. apply IH. by apply guard_keeps_live.
Qed.

Lemma guard_run_bounded calls g : guard_bounded g -> guard_bounded (guard_run g calls).
Proof.
  revert g. induction calls as [|c calls IH]; intros g Hg; [done|]. simpl. by apply IH, guard_stays_bounded.
Qed.

Lemma guard_run_capacity calls g : rg_capacity (guard_run g calls) = rg_capacity g.
Proof.
  revert g. induction calls as [|c calls IH]; intros g; [done|]. simpl. by rewrite IH, guard_capacity_kept.
Qed.

Lemma guard_new_bounded capacity g :
  RpcReplayGuardV1_new capacity = Ok g -> guard_bounded g /\ rg_capacity g = capacity.
Proof.
  unfold RpcReplayGuardV1_new. rewrite guard_ok. intros [_ [= <-]]. split; [|done].
  unfold guard_bounded. simpl. rewrite map_size_empty. lia.
Qed.

Lemma validate_times_elem l now o :
  validate_times l now = Ok tt -> o ∈ l -> (now <= observation_expiry o)%Z.
Proof.
  induction l as [|x l IH]; intros Hv Ho; [by apply elem_of_nil in Ho|]. simpl in Hv.
  apply then_ok in Hv as [Hx Hv]. apply elem_of_cons in Ho as [->|Ho]; [|by apply IH].
  unfold validate_time in Hx. apply guard_ok in Hx as [Hx _]. guards_in Hx. apply Hx.
Qed.

(** An observation accepted once is refused from then on, as long as the clock
    does not fall behind what the guard has seen. *)
Lemma guard_never_repeats g l now calls l' now' o o' :
  (check_and_record_all g l now).2 = Ok tt -> o ∈ l ->
  Forall (fun c : Call => c.2 <= now')%Z calls ->
  o' ∈ l' -> observation_key o' = observation_key o ->
  observation_expiry o' = observation_expiry o \/ (now' <= observation_expiry o)%Z ->
  let result := (check_and_record_all (guard_run (check_and_record_all g l now).1 calls) l' now').2 in
  result = Err Replay \/ result = Err TimestampOutsideWindow.
Proof.
  intros Hok Ho Hcalls Ho' Hkey Hexp result. subst result.
  set (g' := guard_run _ _). destruct (validate_times_cases l' now') as [Hv|Hv].
  - assert (now' <= observation_expiry o)%Z as He.
    { destruct Hexp as [Hexp|]; [|done]. rewrite <- Hexp. by apply (validate_times_elem l'). }
    apply (guard_refuses_live _ _ _ o' Ho'). rewrite Hkey. exists (observation_expiry o). split; [|done].
    subst g'. apply guard_run_keeps; [by apply guard_records|].
    eapply Forall_impl; [exact Hcalls|]. simpl. lia.
  - right. unfold check_and_record_all. by rewrite Hv.
Qed.

(** ** Signed statements: lemmas *)

#[global] Instance RpcKeyIdV1_inj : SerializeInj RpcKeyIdV1.
Proof. intros [x] [y] Hv. apply string_equiv in Hv. simpl in Hv. by subst. Qed.
#[global] Instance ProtocolVersionV1_inj : SerializeInj ProtocolVersionV1.
Proof. intros [x] [y] Hv. apply string_equiv in Hv. simpl in Hv. by subst. Qed.

Section Binding.
  Context `{RpcDeps, !RpcLaws}.

Lemma b64_encode_inj a b : b64_encode a = b64_encode b -> a = b.
Proof. intros He. apply (f_equal b64_decode) in He. rewrite !b64_decode_encode in He. by injection He. Qed.

#[global] Instance RpcPublicKeyV1_inj : SerializeInj RpcPublicKeyV1.
Proof. intros [x] [y] Hv. apply string_equiv, b64_encode_inj in Hv. simpl in Hv. by subst. Qed.
#[global] Instance RpcSignatureV1_inj : SerializeInj RpcSignatureV1.
Proof. intros [x] [y] Hv. apply string_equiv, b64_encode_inj in Hv. simpl in Hv. by subst. Qed.
#[global] Instance RpcNonceV1_inj : SerializeInj RpcNonceV1.
Proof. intros [x] [y] Hv. apply string_equiv, b64_encode_inj in Hv. simpl in Hv. by subst. Qed.

#[global] Instance RequestEchoV1_inj : SerializeInj RequestEchoV1.
Proof. ser_struct. Qed.
#[global] Instance RequestEnvelopeV1_inj `{SerializeInj T} : SerializeInj (RequestEnvelopeV1 T).
Proof. ser_struct. Qed.
#[global] Instance ChallengeProofV1_inj : SerializeInj ChallengeProofV1.
Proof. ser_struct. Qed.
#[global] Instance SignedServerChallengeV1_inj : SerializeInj SignedServerChallengeV1.
Proof. ser_struct. Qed.
#[global] Instance RequestProofV1_inj : SerializeInj RequestProofV1.
Proof. ser_struct. Qed.
#[global] Instance SignedRequestEnvelopeV1_inj `{SerializeInj T} : SerializeInj (SignedRequestEnvelopeV1 T).
Proof. ser_struct. Qed.
#[global] Instance ChallengeStatementV1_inj : SerializeInj ChallengeStatementV1.
Proof. ser_struct. Qed.
#[global] Instance RequestStatementV1_inj : SerializeInj RequestStatementV1.
Proof. ser_struct. Qed.
#[global] Instance ResponseStatementV1_inj : SerializeInj ResponseStatementV1.
Proof. ser_struct. Qed.

End Binding.

Section Messages.
  Context `{JcsLaws, RpcDeps, !RpcLaws}.

Lemma challenge_statement_ijson c :
  json_time (cp_issued_at_unix_ms (sc_authentication c)) -> ijson (to_value (challenge_statement c)) = true.
Proof. intros Ht. ijson_struct. Qed.
Lemma request_statement_ijson {T} (r : SignedRequestEnvelopeV1 T) :
  json_time (rp_issued_at_unix_ms (sr_authentication r)) -> ijson (to_value (request_statement r)) = true.
Proof. intros Ht. ijson_struct. Qed.
Lemma response_statement_ijson {T} (r : SignedResponseEnvelopeV1 T) :
  json_time (sp_issued_at_unix_ms (ss_authentication r)) -> ijson (to_value (response_statement r)) = true.
Proof. intros Ht. ijson_struct. Qed.
Lemma challenge_ijson c :
  json_time (cp_issued_at_unix_ms (sc_authentication c)) -> ijson (to_value c) = true.
Proof. intros Ht. ijson_struct. ijson_struct. Qed.
Lemma request_ijson `{Serialize T} (r : SignedRequestEnvelopeV1 T) :
  json_time (rp_issued_at_unix_ms (sr_authentication r)) -> ijson (to_value (rq_body (sr_request r))) = true ->
  ijson (to_value r) = true.
Proof. intros Ht Hb. ijson_struct; ijson_struct. Qed.

Lemma signature_message_total `{Serialize T} (x : T) :
  ijson (to_value x) = true ->
  exists b, jcs_to_vec (to_value x) = inr b /\ signature_message x = Ok (SIGNATURE_PREFIX ++ b).
Proof.
  intros Hx. destruct (canonical_json_ijson x Hx) as (b & Hb & Hc). exists b. split; [done|].
  unfold signature_message, protocol. by rewrite Hc.
Qed.

(** One message comes from one statement, up to the order of members. *)
Lemma signature_message_binds `{Serialize A, Serialize B} (x : A) (y : B) m :
  ijson (to_value x) = true -> ijson (to_value y) = true ->
  signature_message x = Ok m -> signature_message y = Ok m -> value_equiv (to_value x) (to_value y).
Proof.
  intros Hx Hy Hmx Hmy.
  destruct (signature_message_total x Hx) as (b & Hb & Hsx). destruct (signature_message_total y Hy) as (b' & Hb' & Hsy).
  assert (SIGNATURE_PREFIX ++ b = SIGNATURE_PREFIX ++ b') as He by congruence.
  apply app_inv_head in He as <-. by apply (canon_injective_encoding _ _ b).
Qed.

End Messages.

(** ** Verification: lemmas *)

Lemma guarded_ok g (checks : res RpcAuthError unit) k g' :
  guarded g checks (fun _ => k) = (g', Ok tt) <-> checks = Ok tt /\ k = (g', Ok tt).
Proof. unfold guarded. destruct checks as [[]| |]; naive_solver. Qed.

Lemma require_direction_ok a b : require_direction a b = Ok tt <-> a = b.
Proof. unfold require_direction. rewrite guard_ok, negb_bool_decide_false. naive_solver. Qed.

Lemma require_signer_ok p k e :
  require_signer p k e = Ok tt <-> p = pe_principal e /\ k = kp_key_id (pe_key e).
Proof. unfold require_signer. rewrite guard_ok. guards. naive_solver. Qed.

Lemma policy_validate_ok p : (0 <= kp_maximum_clock_skew_ms p)%Z ->
  policy_validate p = Ok tt <-> (0 < kp_maximum_clock_skew_ms p <= 300000)%Z.
Proof.
  intros Hp. unfold policy_validate. rewrite guard_ok. guards.
  split; [intros [? _]; lia | intros ?; split; [lia | done]].
Qed.

Lemma protocol_ok {A} (m : res ProtocolError A) a : protocol m = Ok a <-> m = Ok a.
Proof. apply map_err_ok. Qed.

(** A recomputed digest compared with the one a proof carries. *)
Lemma digest_check_ok {A} (m : res ProtocolError Digest) (d : Digest) e (k : res RpcAuthError A) v :
  (let? actual := protocol m in reject_if (d != actual) e ;? k) = Ok v <-> m = Ok d /\ k = Ok v.
Proof.
  rewrite res_bind_ok. setoid_rewrite protocol_ok. setoid_rewrite guard_ok.
  setoid_rewrite negb_bool_decide_false. naive_solver.
Qed.

Lemma digest_checks_ok {A} (m : res ProtocolError Digest) (d : Digest) more e (k : res RpcAuthError A) v :
  (let? actual := protocol m in reject_if ((d != actual) || more) e ;? k) = Ok v <->
  m = Ok d /\ more = false /\ k = Ok v.
Proof.
  rewrite res_bind_ok. setoid_rewrite protocol_ok. setoid_rewrite guard_ok. setoid_rewrite orb_false.
  setoid_rewrite negb_bool_decide_false. naive_solver.
Qed.

Section Verified.
  Context `{Deps, RpcDeps}.

Definition CHALLENGE_DOMAIN : string := "ag-local-rpc-server-challenge-v1".
Definition SIGNED_REQUEST_DOMAIN : string := "ag-local-rpc-signed-request-v1".
Definition RESPONSE_BODY_DOMAIN : string := "ag-local-rpc-response-body-v1".

(** [signature] verifies under the enrolled key for the message. *)
Definition signed_by (peer : RpcPeerEnrollmentV1) (message : res RpcAuthError bytes) (signature : RpcSignatureV1) : Prop :=
  exists m, message = Ok m /\
    ed25519_verify (public_key_bytes (kp_public_key (pe_key peer))) m (signature_bytes signature) = true.

Lemma signed_by_ok peer message signature :
  (let? m := message in verify_signature (kp_public_key (pe_key peer)) m signature) = Ok tt <->
  signed_by peer message signature.
Proof.
  rewrite res_bind_ok. unfold signed_by, verify_signature. setoid_rewrite guard_ok.
  setoid_rewrite negb_false_iff. naive_solver.
Qed.

(** [auth_ok]: an accepted verification as the conjunction of its checks. *)
Ltac auth_ok :=
  cbv zeta;
  repeat first [rewrite guarded_ok | rewrite digest_check_ok | rewrite digest_checks_ok | rewrite then_ok];
  rewrite ?signed_by_ok, ?protocol_ok, ?require_direction_ok, ?require_signer_ok, ?reject_if_ok;
  guards.

Lemma verify_server_challenge_ok c server signer g now g' :
  verify_server_challenge c server signer g now = (g', Ok tt) <->
  let p := sc_authentication c in
  policy_validate (pe_key server) = Ok tt /\
  sc_schema c = "ag.local-rpc.server-challenge.v1" /\ sc_protocol_version c = version_current /\
  cp_direction p = ServerChallenge /\
  (cp_signer_principal p = pe_principal server /\ cp_signer_key_id p = kp_key_id (pe_key server)) /\
  (cp_audience_principal p = sg_principal signer /\ cp_audience_key_id p = sg_key_id signer) /\
  signed_by server (challenge_message c) (cp_signature p) /\
  check_and_record g (challenge_observation p server) now = (g', Ok tt).
Proof.
  unfold verify_server_challenge. auth_ok. tauto.
Qed.

Lemma verify_signed_request_ok `{Serialize T} (r : SignedRequestEnvelopeV1 T) c caller signer g now g' :
  verify_signed_request r c caller signer g now = (g', Ok tt) <->
  let p := sr_authentication r in
  policy_validate (pe_key caller) = Ok tt /\
  sr_schema r = "ag.local-rpc.signed-request.v1" /\ request_validate (sr_request r) = Ok tt /\
  rp_direction p = Request /\
  (rp_signer_principal p = pe_principal caller /\ rp_signer_key_id p = kp_key_id (pe_key caller)) /\
  (rp_audience_principal p = sg_principal signer /\ rp_audience_key_id p = sg_key_id signer) /\
  canonical_json_digest CHALLENGE_DOMAIN c = Ok (rp_challenge_digest p) /\
  signed_by caller (request_message r) (rp_signature p) /\
  check_and_record g (request_observation p caller) now = (g', Ok tt).
Proof.
  unfold verify_signed_request, CHALLENGE_DOMAIN. auth_ok. tauto.
Qed.

Lemma verify_signed_response_ok `{Serialize T, Serialize U} (s : SignedResponseEnvelopeV1 T)
    (q : SignedRequestEnvelopeV1 U) server signer g now g' :
  verify_signed_response s q server signer g now = (g', Ok tt) <->
  let p := ss_authentication s in
  policy_validate (pe_key server) = Ok tt /\
  ss_schema s = "ag.local-rpc.signed-response.v1" /\ rs_echo (ss_response s) = rq_echo (sr_request q) /\
  sp_direction p = Response /\
  (sp_signer_principal p = pe_principal server /\ sp_signer_key_id p = kp_key_id (pe_key server)) /\
  (sp_audience_principal p = sg_principal signer /\ sp_audience_key_id p = sg_key_id signer) /\
  canonical_json_digest SIGNED_REQUEST_DOMAIN q = Ok (sp_signed_request_digest p) /\
  sp_request_nonce p = rp_nonce (sr_authentication q) /\
  canonical_json_digest RESPONSE_BODY_DOMAIN (rs_body (ss_response s)) = Ok (sp_response_body_digest p) /\
  signed_by server (response_message s) (sp_signature p) /\
  check_and_record g (response_observation p server) now = (g', Ok tt).
Proof.
  unfold verify_signed_response, SIGNED_REQUEST_DOMAIN, RESPONSE_BODY_DOMAIN.
  assert (validate_echo (ss_response s) (sr_request q) = Ok tt <->
          rs_echo (ss_response s) = rq_echo (sr_request q)) as Hecho.
  { unfold validate_echo. rewrite guard_ok, negb_bool_decide_false. naive_solver. }
  auth_ok. rewrite Hecho. tauto.
Qed.

Lemma verify_forwarded_bindings_ok `{Serialize T} c (r : SignedRequestEnvelopeV1 T) governor proposer v :
  verify_forwarded_bindings c r governor proposer = Ok v <->
  let p := sc_authentication c in
  let q := sr_authentication r in
  policy_validate (pe_key governor) = Ok tt /\ policy_validate (pe_key proposer) = Ok tt /\
  (sc_schema c = "ag.local-rpc.server-challenge.v1" /\ sr_schema r = "ag.local-rpc.signed-request.v1") /\
  sc_protocol_version c = version_current /\ request_validate (sr_request r) = Ok tt /\
  cp_direction p = ServerChallenge /\
  (cp_signer_principal p = pe_principal governor /\ cp_signer_key_id p = kp_key_id (pe_key governor)) /\
  (cp_audience_principal p = pe_principal proposer /\ cp_audience_key_id p = kp_key_id (pe_key proposer)) /\
  signed_by governor (challenge_message c) (cp_signature p) /\
  rp_direction q = Request /\
  (rp_signer_principal q = pe_principal proposer /\ rp_signer_key_id q = kp_key_id (pe_key proposer)) /\
  (rp_audience_principal q = pe_principal governor /\ rp_audience_key_id q = kp_key_id (pe_key governor)) /\
  canonical_json_digest CHALLENGE_DOMAIN c = Ok (rp_challenge_digest q) /\
  signed_by proposer (request_message r) (rp_signature q) /\
  v = mkVerified (pe_principal proposer) (kp_key_id (pe_key proposer)).
Proof.
  unfold verify_forwarded_bindings, CHALLENGE_DOMAIN. auth_ok.
  assert (forall w : VerifiedRpcPrincipalV1, Ok (E := RpcAuthError) w = Ok v <-> v = w) as Hv by naive_solver.
  rewrite Hv. tauto.
Qed.

End Verified.

(** ** Concrete keys, for the witnesses

    Hexadecimal in the place of base64url, and checksums in the place of
    Ed25519: they satisfy the laws and evaluate. *)

Definition toy_key_sign (public m : bytes) : bytes := toy_sha256 (public ++ m) ++ toy_sha256 (m ++ public).
#[global] Instance toy_rpc_deps : RpcDeps := {|
  b64_encode := toy_hex_encode;
  b64_decode := toy_hex_decode;
  KeyPair := bytes;
  key_from_pkcs8 := fun b => match b with [] => None | _ => Some b end;
  key_public := toy_sha256;
  key_sign := fun k m => toy_key_sign (toy_sha256 k) m;
  ed25519_verify := fun public m s => s == toy_key_sign public m
|}.

#[global] Instance toy_rpc_laws : RpcLaws.
Proof.
  split.
  - apply toy_hex_decode_encode.
  - intros k. apply toy_sha256_length.
  - intros k m. unfold key_sign, toy_rpc_deps, toy_key_sign. by rewrite length_app, !toy_sha256_length.
  - intros k m. by apply bool_decide_eq_true.
Qed.

Module Toy.

Definition digest (s : string) : Digest := hash_bytes (str_bytes s).
Definition signer (name : string) : RpcSignerV1 :=
  mkSigner (digest name) (mkKeyId name) (mkPublicKey (toy_sha256 (str_bytes name))) (str_bytes name).
Definition enrolled (name : string) : RpcPeerEnrollmentV1 :=
  mkEnrollment (digest name) (mkKeyPolicy (digest name) (mkKeyId name) (sg_public_key (signer name)) 1000).
Definition server : RpcSignerV1 := signer "server".
Definition client : RpcSignerV1 := signer "client".
Definition guard : RpcReplayGuardV1 := mkGuard 4 ∅.
Definition nonce (s : string) : bytes := toy_sha256 (str_bytes s).
Definition body : RequestId := mkRequestId "body".
Definition request : RequestEnvelopeV1 RequestId :=
  mkRequest (mkEcho version_current (mkRequestId "r-1") (hash_domain REQUEST_DOMAIN (toy_encoding body))) body.
Definition unwrap {A} (default : A) (m : res RpcAuthError A) : A := match m with Ok a => a | _ => default end.
Definition no_challenge : SignedServerChallengeV1 :=
  mkChallenge "" version_current
    (mkChallengeProof (digest "") (mkKeyId "") (digest "") (mkKeyId "") Request (mkRpcNonce []) 0 zero_signature).
Definition challenge : SignedServerChallengeV1 :=
  unwrap no_challenge (issue_challenge server (enrolled "client") 5000 (Some (nonce "a"))).
Definition no_request : SignedRequestEnvelopeV1 RequestId :=
  mkSignedRequest "" request
    (mkRequestProof (digest "") (mkKeyId "") (digest "") (mkKeyId "") Request (mkRpcNonce []) 0 (digest "") zero_signature).
Definition signed_request : SignedRequestEnvelopeV1 RequestId :=
  unwrap no_request (sign_request client request challenge 5010 (Some (nonce "b"))).
Definition no_response : SignedResponseEnvelopeV1 RequestId :=
  mkSignedResponse "" (for_request request body)
    (mkResponseProof (digest "") (mkKeyId "") (digest "") (mkKeyId "") Response (mkRpcNonce []) 0 (digest "")
       (mkRpcNonce []) (digest "") zero_signature).
Definition signed_response : SignedResponseEnvelopeV1 RequestId :=
  unwrap no_response (sign_response server signed_request body 5020 (Some (nonce "c"))).

Definition after_request : RpcReplayGuardV1 :=
  (verify_signed_request signed_request challenge (enrolled "client") server guard 5015).1.

Definition after_response : RpcReplayGuardV1 :=
  (verify_signed_response signed_response signed_request (enrolled "server") client guard 5025).1.
Definition after_forwarded : RpcReplayGuardV1 :=
  (verify_forwarded_signed_request challenge signed_request (enrolled "server") (enrolled "client") guard 5030).1.

End Toy.

Ltac toy_time := unfold json_time; apply (bool_decide_unpack _); vm_compute; exact I.

Example toy_exchange :
  (verify_server_challenge Toy.challenge (Toy.enrolled "server") Toy.client Toy.guard 5005).2 = Ok tt /\
  (verify_signed_request Toy.signed_request Toy.challenge (Toy.enrolled "client") Toy.server Toy.guard 5015).2 = Ok tt /\
  (verify_signed_response Toy.signed_response Toy.signed_request (Toy.enrolled "server") Toy.client Toy.guard 5025).2 = Ok tt.
Proof. vm_compute. done. Qed.

Lemma pair_of_snd {A B} (p : A * B) b : p.2 = b -> p = (p.1, b).
Proof. destruct p. by intros <-. Qed.

Lemma toy_body_encodes :
  encodes (rq_body (sr_request Toy.signed_request)) (toy_encoding (rq_body (sr_request Toy.signed_request))).
Proof. toy_encoded. Qed.
Lemma toy_challenge_encodes : encodes Toy.challenge (toy_encoding Toy.challenge).
Proof. toy_encoded. Qed.
Lemma toy_request_time : json_time (rp_issued_at_unix_ms (sr_authentication Toy.signed_request)).
Proof. toy_time. Qed.
Lemma toy_request_accepted :
  verify_signed_request Toy.signed_request Toy.challenge (Toy.enrolled "client") Toy.server Toy.guard 5015
  = (Toy.after_request, Ok tt).
Proof. unfold Toy.after_request. apply pair_of_snd. vm_compute. reflexivity. Qed.

Lemma toy_request_encodes : encodes Toy.signed_request (toy_encoding Toy.signed_request).
Proof. toy_encoded. Qed.
Lemma toy_answer_encodes :
  encodes (rs_body (ss_response Toy.signed_response)) (toy_encoding (rs_body (ss_response Toy.signed_response))).
Proof. toy_encoded. Qed.
Lemma toy_response_time : json_time (sp_issued_at_unix_ms (ss_authentication Toy.signed_response)).
Proof. toy_time. Qed.
Lemma toy_response_accepted :
  verify_signed_response Toy.signed_response Toy.signed_request (Toy.enrolled "server") Toy.client Toy.guard 5025
  = (Toy.after_response, Ok tt).
Proof. unfold Toy.after_response. apply pair_of_snd. vm_compute. reflexivity. Qed.
Lemma toy_forwarded_accepted :
  verify_forwarded_signed_request Toy.challenge Toy.signed_request (Toy.enrolled "server") (Toy.enrolled "client")
    Toy.guard 5030 = (Toy.after_forwarded, Ok (mkVerified (Toy.digest "client") (mkKeyId "client"))).
Proof. unfold Toy.after_forwarded. apply pair_of_snd. vm_compute. reflexivity. Qed.

(** ** The properties *)

(** C21. The replay guard decides exactly.  A call succeeds when every timestamp is
    within its window, the keys are distinct and none of them is held unexpired,
    and the unexpired entries leave room; otherwise it fails with the first of
    the three errors that applies, in that order.  Afterwards the guard holds the
    unexpired entries, and the new ones only after success; a call refused for a
    timestamp leaves it as it was. *)
Theorem replay_guard_exact g l now :
  u64_ok now -> Forall observation_ok l ->
  let (g', result) := check_and_record_all g l now in
  (result = Ok tt <-> Forall (in_window now) l /\ no_replay g l now /\ has_room g l now) /\
  (result = Err TimestampOutsideWindow <-> ~ Forall (in_window now) l) /\
  (result = Err Replay <-> Forall (in_window now) l /\ ~ no_replay g l now) /\
  (result = Err ReplayCapacityExhausted <-> Forall (in_window now) l /\ no_replay g l now /\ ~ has_room g l now) /\
  (forall k e, rg_entries g' !! k = Some e <->
     (result = Ok tt /\ exists o, o ∈ l /\ k = observation_key o /\ e = observation_expiry o) \/
     (rg_entries g !! k = Some e /\ (result = Err TimestampOutsideWindow \/ (now <= e)%Z))) /\
  rg_capacity g' = rg_capacity g.
Proof.
  intros Hn Hl. pose proof (validate_times_ok l now Hn Hl) as Hw.
  destruct (check_and_record_all_cases g l now)
    as [(Hv & ->)|[(Hv & Hr & ->)|[(Hv & Hr & Hroom & ->)|(Hv & Hr & Hroom & ->)]]]; rewrite <- Hw, Hv; clear Hw Hv;
    cbn [rg_entries rg_capacity].
  4: pose proof (fun k e => recorded_lookup g l now k e Hr) as Hk.
  all: split_all; intros; rewrite ?retain_lookup; try naive_solver.
Qed.

Lemma replay_guard_exact_witness :
  let o := challenge_observation (sc_authentication Toy.challenge) (Toy.enrolled "server") in
  (check_and_record_all Toy.guard [o] 5005).2 = Ok tt.
Proof.
  intros o. pose proof (replay_guard_exact Toy.guard [o] 5005) as Ht.
  destruct (check_and_record_all Toy.guard [o] 5005) as [g' result] eqn:He.
  assert (u64_ok 5005) as Hu by (unfold u64_ok, U64_MAX; lia).
  assert (Forall observation_ok [o]) as Ho.
  { unfold observation_ok. apply (bool_decide_unpack _). vm_compute. exact I. }
  destruct (Ht Hu Ho) as ((_ & Hok) & _). cbn. apply Hok. clear. split; [|split].
  - unfold in_window. apply (bool_decide_unpack _). vm_compute. exact I.
  - split; [apply NoDup_singleton|]. intros o' _ (e & He & _). done.
  - unfold has_room. vm_compute. lia.
Defined.

(** C24. No signed message is accepted twice.  Once a call has accepted an
    observation, every later call that presents the same signer, key, direction
    and nonce before the recorded expiry, or the same observation at any time, is
    refused, whatever calls came in between, provided the clock of that later
    call has not fallen behind one of theirs.  The guard never exceeds its
    capacity. *)
Theorem accepted_observation_never_replayed capacity g before l now calls l' now' o o' :
  RpcReplayGuardV1_new capacity = Ok g ->
  let first := check_and_record_all (guard_run g before) l now in
  let later := guard_run first.1 calls in
  first.2 = Ok tt -> o ∈ l -> Forall (fun c : Call => c.2 <= now')%Z calls ->
  o' ∈ l' -> observation_key o' = observation_key o ->
  observation_expiry o' = observation_expiry o \/ (now' <= observation_expiry o)%Z ->
  ((check_and_record_all later l' now').2 = Err Replay \/
   (check_and_record_all later l' now').2 = Err TimestampOutsideWindow) /\
  size (rg_entries later) <= capacity.
Proof.
  intros Hg first later Hok Ho Hc Ho' Hk Hx.
  split; [by apply (guard_never_repeats (guard_run g before) l now calls l' now' o o')|].
  destruct (guard_new_bounded _ _ Hg) as [Hb Hcap].
  assert (guard_bounded later) as Hb' by by apply guard_run_bounded, guard_stays_bounded, guard_run_bounded.
  unfold guard_bounded in Hb'. subst later first.
  by rewrite guard_run_capacity, guard_capacity_kept, guard_run_capacity, Hcap in Hb'.
Qed.

Lemma accepted_observation_never_replayed_witness :
  let o := challenge_observation (sc_authentication Toy.challenge) (Toy.enrolled "server") in
  let later := guard_run (check_and_record_all Toy.guard [o] 5005).1 [([], 5100%Z)] in
  ((check_and_record_all later [o] 5200).2 = Err Replay \/
   (check_and_record_all later [o] 5200).2 = Err TimestampOutsideWindow) /\ size (rg_entries later) <= 4.
Proof.
  intros o.
  refine (accepted_observation_never_replayed 4 Toy.guard [] [o] 5005 [([], 5100%Z)] [o] 5200 o o
    eq_refl _ (list_elem_of_here _ _) _ (list_elem_of_here _ _) eq_refl (or_introl eq_refl)).
  - vm_compute. reflexivity.
  - apply Forall_singleton. cbn. lia.
Defined.

(** The condition on the clock is needed: expired entries are dropped, so a clock
    that is set back admits the same observation again. *)
Example clock_set_back_admits_again :
  let o := challenge_observation (sc_authentication Toy.challenge) (Toy.enrolled "server") in
  let g2 := (check_and_record_all Toy.guard [o] 5005).1 in
  (check_and_record_all (guard_run g2 [([], 9000%Z)]) [o] 5200).2 = Ok tt.
Proof. vm_compute. reflexivity. Qed.

Section Statements.
  Context `{JcsLaws, RpcDeps, !RpcLaws}.

(** Statements with different contexts have different messages. *)
Lemma messages_differ `{Serialize A, Serialize B} (x : A) (y : B) l l' c c' :
  ijson (to_value x) = true -> ijson (to_value y) = true ->
  to_value x = VObject (("context", VString c) :: l) -> to_value y = VObject (("context", VString c') :: l') ->
  c <> c' -> signature_message x <> signature_message y.
Proof.
  intros Hx Hy Ex Ey Hc He. destruct (signature_message_total x Hx) as (b & _ & Hm).
  rewrite Hm in He. pose proof (signature_message_binds x y _ Hx Hy Hm (eq_sym He)) as Hv.
  rewrite Ex, Ey in *. destruct Hc. apply string_equiv. eapply (object_equiv_member "context"); [..|exact Hv].
  - cbn [ijson] in Hx. apply andb_true_iff in Hx as [_ Hx]. by apply bool_decide_eq_true in Hx.
  - cbn [ijson] in Hy. apply andb_true_iff in Hy as [_ Hy]. by apply bool_decide_eq_true in Hy.
  - apply list_elem_of_here.
  - apply list_elem_of_here.
Qed.

Lemma message_statement `{SerializeInj A} (x y : A) :
  ijson (to_value x) = true -> ijson (to_value y) = true ->
  signature_message x = signature_message y -> x = y.
Proof.
  intros Hx Hy He. destruct (signature_message_total x Hx) as (b & _ & Hm). rewrite Hm in He.
  apply to_value_inj. by apply (signature_message_binds x y _ Hx Hy Hm).
Qed.

(** A digest names one document, up to a hash collision. *)
Lemma json_digest_binds `{!HexLaws, !Sha256Laws, SerializeInj A} domain (x y : A) bx by' d :
  u128_length (String.length domain) -> encodes x bx -> encodes y by' ->
  canonical_json_digest domain x = Ok d -> canonical_json_digest domain y = Ok d ->
  x = y \/ collision (domain_preimage domain bx) (domain_preimage domain by').
Proof.
  intros Hdom Hx Hy Hdx Hdy.
  rewrite (canonical_json_digest_ok _ _ _ Hx) in Hdx. rewrite (canonical_json_digest_ok _ _ _ Hy) in Hdy.
  destruct Hx as (Hx & Hbx & Hlx), Hy as (Hy & Hby & Hly).
  destruct (hash_domain_binds domain bx domain by' Hdom Hdom Hlx Hly) as [[_ <-]|Hc]; [congruence | |by right].
  left. by apply to_value_inj, (canon_injective_encoding _ _ bx).
Qed.

End Statements.

(** What is signed is unambiguous: no challenge, request or response has the
    message of a message of another kind, so a signature cannot be reflected
    between kinds; and two messages of one kind are equal only when every signed
    field is. *)
Theorem signed_statements_unambiguous `{JcsLaws, RpcDeps, !RpcLaws} {T U} (c c' : SignedServerChallengeV1)
    (r r' : SignedRequestEnvelopeV1 T) (s s' : SignedResponseEnvelopeV1 U) :
  json_time (cp_issued_at_unix_ms (sc_authentication c)) ->
  json_time (cp_issued_at_unix_ms (sc_authentication c')) ->
  json_time (rp_issued_at_unix_ms (sr_authentication r)) ->
  json_time (rp_issued_at_unix_ms (sr_authentication r')) ->
  json_time (sp_issued_at_unix_ms (ss_authentication s)) ->
  json_time (sp_issued_at_unix_ms (ss_authentication s')) ->
  (challenge_message c <> request_message r /\ challenge_message c <> response_message s /\
   request_message r <> response_message s) /\
  (challenge_message c = challenge_message c' -> challenge_statement c = challenge_statement c') /\
  (request_message r = request_message r' -> request_statement r = request_statement r') /\
  (response_message s = response_message s' -> response_statement s = response_statement s').
Proof.
  intros Hc%challenge_statement_ijson Hc'%challenge_statement_ijson Hr%request_statement_ijson
    Hr'%request_statement_ijson Hs%response_statement_ijson Hs'%response_statement_ijson.
  split_all; try (eapply messages_differ; [done | done | reflexivity | reflexivity | done]); by apply message_statement.
Qed.

Lemma signed_statements_unambiguous_witness :
  challenge_message Toy.challenge <> request_message Toy.signed_request.
Proof.
  destruct (signed_statements_unambiguous Toy.challenge Toy.challenge Toy.signed_request Toy.signed_request
    Toy.signed_response Toy.signed_response) as ((Hd & _) & _); [toy_time.. | exact Hd].
Defined.

(** An accepted request is not transferable.  When two accepted verifications,
    by the same or by different servers at any times, rest on one signed message,
    they accepted the same request for the same challenge, or SHA-256 collides on
    the two bodies or on the two challenges. *)
Theorem accepted_request_binds `{JcsLaws, !HexLaws, !Sha256Laws, RpcDeps, !RpcLaws, SerializeInj T}
    (r r' : SignedRequestEnvelopeV1 T) c c' caller caller' signer signer' g g' now now' g1 g1' b b' bc bc' :
  encodes (rq_body (sr_request r)) b -> encodes (rq_body (sr_request r')) b' ->
  encodes c bc -> encodes c' bc' ->
  json_time (rp_issued_at_unix_ms (sr_authentication r)) ->
  json_time (rp_issued_at_unix_ms (sr_authentication r')) ->
  verify_signed_request r c caller signer g now = (g1, Ok tt) ->
  verify_signed_request r' c' caller' signer' g' now' = (g1', Ok tt) ->
  request_message r = request_message r' ->
  (r' = set_request_signature r (rp_signature (sr_authentication r')) /\ c' = c /\
   pe_principal caller' = pe_principal caller /\ sg_principal signer' = sg_principal signer) \/
  collision (domain_preimage REQUEST_DOMAIN b) (domain_preimage REQUEST_DOMAIN b') \/
  collision (domain_preimage CHALLENGE_DOMAIN bc) (domain_preimage CHALLENGE_DOMAIN bc').
Proof.
  intros Hb Hb' Hc Hc' Ht%request_statement_ijson Ht'%request_statement_ijson Hv Hv' Hm.
  apply (message_statement _ _ Ht Ht') in Hm.
  apply verify_signed_request_ok in Hv as (_ & Hsch & Hq & _ & (Hp & _) & (Ha & _) & Hd & _).
  apply verify_signed_request_ok in Hv' as (_ & Hsch' & Hq' & _ & (Hp' & _) & (Ha' & _) & Hd' & _).
  apply (request_validate_ok _ b Hb) in Hq as [_ Hq]. apply (request_validate_ok _ b' Hb') in Hq' as [_ Hq'].
  destruct r as [sch [[ver id dig] body] []], r' as [sch' [[ver' id' dig'] body'] []].
  clear Ht Ht'. cbn in *. injection Hm as -> -> -> -> -> -> -> -> -> -> ->. subst.
  destruct (json_digest_binds CHALLENGE_DOMAIN c c' bc bc' _ eq_refl Hc Hc' Hd Hd') as [->|]; [|by right; right].
  destruct Hb as (Hi & Hj & Hl), Hb' as (Hi' & Hj' & Hl').
  destruct (hash_domain_binds REQUEST_DOMAIN b REQUEST_DOMAIN b') as [[_ <-]|Hcol]; try done; [|by right; left].
  left. rewrite (to_value_inj body body'); [split_all; done|]. by apply (canon_injective_encoding _ _ b).
Qed.

Lemma accepted_request_binds_witness :
  let b := toy_encoding (rq_body (sr_request Toy.signed_request)) in
  let bc := toy_encoding Toy.challenge in
  (Toy.signed_request = set_request_signature Toy.signed_request (rp_signature (sr_authentication Toy.signed_request)) /\
   Toy.challenge = Toy.challenge /\ pe_principal (Toy.enrolled "client") = pe_principal (Toy.enrolled "client") /\
   sg_principal Toy.server = sg_principal Toy.server) \/
  collision (domain_preimage REQUEST_DOMAIN b) (domain_preimage REQUEST_DOMAIN b) \/
  collision (domain_preimage CHALLENGE_DOMAIN bc) (domain_preimage CHALLENGE_DOMAIN bc).
Proof.
  exact (accepted_request_binds Toy.signed_request Toy.signed_request Toy.challenge Toy.challenge
    (Toy.enrolled "client") (Toy.enrolled "client") Toy.server Toy.server Toy.guard Toy.guard 5015 5015
    _ _ _ _ _ _ toy_body_encodes toy_body_encodes toy_challenge_encodes toy_challenge_encodes
    toy_request_time toy_request_time toy_request_accepted toy_request_accepted eq_refl).
Defined.

(** An accepted response answers one request.  When two accepted verifications
    rest on one signed message, the responses are equal but for their signatures,
    and they answered the same signed request, or SHA-256 collides on the two
    response bodies or on the two requests. *)
Theorem accepted_response_binds
    `{JcsLaws, !HexLaws, !Sha256Laws, RpcDeps, !RpcLaws, SerializeInj T, SerializeInj U}
    (s s' : SignedResponseEnvelopeV1 T) (q q' : SignedRequestEnvelopeV1 U)
    server server' signer signer' g g' now now' g1 g1' b b' bq bq' :
  encodes (rs_body (ss_response s)) b -> encodes (rs_body (ss_response s')) b' ->
  encodes q bq -> encodes q' bq' ->
  json_time (sp_issued_at_unix_ms (ss_authentication s)) ->
  json_time (sp_issued_at_unix_ms (ss_authentication s')) ->
  verify_signed_response s q server signer g now = (g1, Ok tt) ->
  verify_signed_response s' q' server' signer' g' now' = (g1', Ok tt) ->
  response_message s = response_message s' ->
  (s' = set_response_signature s (sp_signature (ss_authentication s')) /\ q' = q) \/
  collision (domain_preimage RESPONSE_BODY_DOMAIN b) (domain_preimage RESPONSE_BODY_DOMAIN b') \/
  collision (domain_preimage SIGNED_REQUEST_DOMAIN bq) (domain_preimage SIGNED_REQUEST_DOMAIN bq').
Proof.
  intros Hb Hb' Hq Hq' Ht%response_statement_ijson Ht'%response_statement_ijson Hv Hv' Hm.
  apply (message_statement _ _ Ht Ht') in Hm. clear Ht Ht'.
  apply verify_signed_response_ok in Hv as (_ & Hsch & Hecho & _ & _ & _ & Hd & _ & Hr & _).
  apply verify_signed_response_ok in Hv' as (_ & Hsch' & Hecho' & _ & _ & _ & Hd' & _ & Hr' & _).
  destruct s as [sch [[ver id dig] body] []], s' as [sch' [[ver' id' dig'] body'] []].
  cbn in *. injection Hm as -> -> -> -> -> -> -> -> -> -> -> -> ->. subst.
  destruct (json_digest_binds SIGNED_REQUEST_DOMAIN q q' bq bq' _ eq_refl Hq Hq' Hd Hd') as [->|]; [|by right; right].
  destruct (json_digest_binds RESPONSE_BODY_DOMAIN body body' b b' _ eq_refl Hb Hb' Hr Hr') as [->|]; [|by right; left].
  left. by split.
Qed.

Lemma accepted_response_binds_witness :
  let b := toy_encoding (rs_body (ss_response Toy.signed_response)) in
  let bq := toy_encoding Toy.signed_request in
  (Toy.signed_response = set_response_signature Toy.signed_response (sp_signature (ss_authentication Toy.signed_response)) /\
   Toy.signed_request = Toy.signed_request) \/
  collision (domain_preimage RESPONSE_BODY_DOMAIN b) (domain_preimage RESPONSE_BODY_DOMAIN b) \/
  collision (domain_preimage SIGNED_REQUEST_DOMAIN bq) (domain_preimage SIGNED_REQUEST_DOMAIN bq).
Proof.
  exact (accepted_response_binds Toy.signed_response Toy.signed_response Toy.signed_request Toy.signed_request
    (Toy.enrolled "server") (Toy.enrolled "server") Toy.client Toy.client Toy.guard Toy.guard 5025 5025
    _ _ _ _ _ _ toy_answer_encodes toy_answer_encodes toy_request_encodes toy_request_encodes
    toy_response_time toy_response_time toy_response_accepted toy_response_accepted eq_refl).
Defined.

(** What both parties signed: the governor a challenge for the proposer, the proposer
    a request for the governor that names the challenge by its digest. *)
Definition exchange_signed `{Deps, RpcDeps, Serialize T} (c : SignedServerChallengeV1) (r : SignedRequestEnvelopeV1 T)
    (governor proposer : RpcPeerEnrollmentV1) : Prop :=
  let p := sc_authentication c in
  let q := sr_authentication r in
  (cp_direction p = ServerChallenge /\ cp_signer_principal p = pe_principal governor /\ cp_signer_key_id p = kp_key_id (pe_key governor) /\
   cp_audience_principal p = pe_principal proposer /\ cp_audience_key_id p = kp_key_id (pe_key proposer) /\
   exists m, signature_message (challenge_statement c) = Ok m /\
     ed25519_verify (public_key_bytes (kp_public_key (pe_key governor))) m (signature_bytes (cp_signature p)) = true) /\
  (rp_direction q = Request /\ rp_signer_principal q = pe_principal proposer /\ rp_signer_key_id q = kp_key_id (pe_key proposer) /\
   rp_audience_principal q = pe_principal governor /\ rp_audience_key_id q = kp_key_id (pe_key governor) /\
   canonical_json_digest CHALLENGE_DOMAIN c = Ok (rp_challenge_digest q) /\
   exists m, signature_message (request_statement r) = Ok m /\
     ed25519_verify (public_key_bytes (kp_public_key (pe_key proposer))) m (signature_bytes (rp_signature q)) = true).
Lemma bindings_exchange_signed `{Deps, RpcDeps, Serialize T} c (r : SignedRequestEnvelopeV1 T) governor proposer v :
  verify_forwarded_bindings c r governor proposer = Ok v -> exchange_signed c r governor proposer.
Proof.
  intros (_ & _ & _ & _ & _ & Hd & [Hs Hsk] & [Ha Hak] & Hsig & Hd' & [Hs' Hsk'] & [Ha' Hak'] & Hch & Hsig' & _)%verify_forwarded_bindings_ok.
  by split_all.
Qed.

(** C25. A forwarded exchange is authenticated on both sides and used once.  In an
    accepted one the governor's challenge for the proposer verifies under the
    governor's enrolled key, and the proposer's request for the governor, bound to
    that challenge, under the proposer's; and no exchange that carries the same
    request proof or the same challenge proof is accepted again, whatever the
    guard saw in between, as long as the clock has not fallen behind. *)
Theorem forwarded_exchange_once `{Deps, RpcDeps, Serialize T} c (r : SignedRequestEnvelopeV1 T) governor proposer
    g now g1 v calls now' c' (r' : SignedRequestEnvelopeV1 T) v' :
  verify_forwarded_signed_request c r governor proposer g now = (g1, Ok v) ->
  Forall (fun c : Call => c.2 <= now')%Z calls ->
  sc_authentication c' = sc_authentication c \/ sr_authentication r' = sr_authentication r ->
  v = mkVerified (pe_principal proposer) (kp_key_id (pe_key proposer)) /\ exchange_signed c r governor proposer /\
  verify_forwarded_bindings c r governor proposer = Ok v /\
  (verify_forwarded_signed_request c' r' governor proposer (guard_run g1 calls) now').2 <> Ok v'.
Proof.
  intros Hv Hcalls Hsame. unfold verify_forwarded_signed_request in Hv.
  destruct (verify_forwarded_bindings c r governor proposer) as [w| |] eqn:Hb; [|done|done].
  destruct (record_forwarded_freshness c r governor proposer g now) as [g2 rec] eqn:Hrec.
  injection Hv as -> Hv. apply then_ok in Hv as [-> [= ->]].
  pose proof (proj1 (verify_forwarded_bindings_ok c r governor proposer v) Hb) as Hbo.
  split; [apply Hbo|]. split; [by eapply bindings_exchange_signed|]. split; [done|]. intros Hagain. unfold verify_forwarded_signed_request in Hagain.
  destruct (verify_forwarded_bindings c' r' governor proposer) as [w'| |]; [|done|done].
  unfold record_forwarded_freshness in *. set (l := [_; _]) in Hrec. set (l' := [_; _]) in Hagain.
  assert (exists o, o ∈ l /\ o ∈ l') as (o & Ho & Ho').
  { subst l l'. destruct Hsame as [-> | ->]; eexists; split.
    1, 2: apply list_elem_of_here.
    all: apply list_elem_of_further, list_elem_of_here. }
  pose proof (guard_never_repeats g l now calls l' now' o o) as Hn. rewrite Hrec in Hn. cbn [fst snd] in Hn.
  specialize (Hn eq_refl Ho Hcalls Ho' eq_refl (or_introl eq_refl)). cbv zeta in Hn.
  destruct (check_and_record_all (guard_run g1 calls) l' now') as [g3 rec']. cbn in Hn, Hagain.
  destruct Hn as [-> | ->]; done.
Qed.

Lemma forwarded_exchange_once_witness :
  (verify_forwarded_signed_request Toy.challenge Toy.signed_request (Toy.enrolled "server") (Toy.enrolled "client")
     (guard_run Toy.after_forwarded [([], 5040%Z)]) 5050).2 <> Ok (mkVerified (Toy.digest "client") (mkKeyId "client")).
Proof.
  refine (proj2 (proj2 (proj2 (forwarded_exchange_once Toy.challenge Toy.signed_request (Toy.enrolled "server")
    (Toy.enrolled "client") Toy.guard 5030 _ _ [([], 5040%Z)] 5050 Toy.challenge Toy.signed_request
    (mkVerified (Toy.digest "client") (mkKeyId "client")) toy_forwarded_accepted _ (or_introl eq_refl))))).
  apply Forall_singleton. cbn. lia.
Defined.

(** ** Honest exchanges *)

Section Honest.
  Context `{JcsLaws, RpcDeps, !RpcLaws}.

(** The public half a signer presents is that of its key pair, as [from_pkcs8]
    makes it. *)
Definition own_key (s : RpcSignerV1) : Prop := public_key_bytes (sg_public_key s) = key_public (sg_key_pair s).

Lemma from_pkcs8_own_key principal key_id b s : from_pkcs8 principal key_id b = Ok s -> own_key s.
Proof. unfold from_pkcs8. intros Hs. res_inv. done. Qed.

(** An observation that the guard admits at [now]. *)
Definition admissible (g : RpcReplayGuardV1) (o : ReplayObservationV1) (now : Z) : Prop :=
  u64_ok now /\ observation_ok o /\ in_window now o /\ ~ live g now (observation_key o) /\ has_room g [o] now.

Lemma admissible_recorded g o now :
  admissible g o now -> check_and_record g o now = ((check_and_record g o now).1, Ok tt).
Proof.
  intros (Hn & Ho & Hw & Hl & Hr). unfold check_and_record.
  assert (Forall observation_ok [o]) as Hos by by apply Forall_singleton.
  assert (no_replay g [o] now) as Hnr.
  { split; [apply NoDup_singleton|]. by intros o' ->%list_elem_of_singleton. }
  pose proof (proj2 (validate_times_ok [o] now Hn Hos)) as Hv.
  specialize (Hv (proj2 (Forall_singleton _ _) Hw)).
  destruct (check_and_record_all_cases g [o] now) as [(Hv' & _)|[(_ & Hnr' & _)|[(_ & _ & Hr' & _)|(_ & _ & _ & ->)]]];
    [congruence | done | done | done].
Qed.

Lemma sign_verifies s peer message m :
  own_key s -> kp_public_key (pe_key peer) = sg_public_key s -> message = Ok m ->
  exists signature, sign s m = Ok signature /\ signed_by peer message signature.
Proof.
  intros Hk Hp ->. unfold sign. rewrite key_sign_length, bool_decide_eq_true_2 by done.
  eexists. split; [done|]. exists m. split; [done|]. rewrite Hp, Hk. apply ed25519_sign_verify.
Qed.

Lemma enrollment_ok s skew e :
  enrollment s skew = Ok e ->
  pe_principal e = sg_principal s /\ kp_key_id (pe_key e) = sg_key_id s /\
  kp_public_key (pe_key e) = sg_public_key s /\ kp_maximum_clock_skew_ms (pe_key e) = skew /\
  policy_validate (pe_key e) = Ok tt.
Proof.
  unfold enrollment, RpcPeerEnrollmentV1_new. rewrite then_ok, guard_ok. intros (Hp & _ & [= <-]). done.
Qed.

Lemma json_digest_total `{Serialize T} domain (x : T) :
  ijson (to_value x) = true -> exists d, canonical_json_digest domain x = Ok d.
Proof.
  intros Hx. destruct (canonical_json_ijson x Hx) as (b & _ & Hb). unfold canonical_json_digest. rewrite Hb.
  by eexists.
Qed.

(** The challenge a server issues is the one its client accepts. *)
Lemma issued_challenge_verifies server client es ec skew_s skew_c n t g now :
  own_key server -> enrollment server skew_s = Ok es -> enrollment client skew_c = Ok ec -> json_time t ->
  let o := mkObservation (sg_principal server) (sg_key_id server) ServerChallenge (mkRpcNonce n) t skew_s in
  admissible g o now ->
  exists c, issue_challenge server ec t (Some n) = Ok c /\
    cp_audience_principal (sc_authentication c) = sg_principal client /\
    cp_audience_key_id (sc_authentication c) = sg_key_id client /\
    cp_signer_principal (sc_authentication c) = sg_principal server /\
    cp_signer_key_id (sc_authentication c) = sg_key_id server /\
    json_time (cp_issued_at_unix_ms (sc_authentication c)) /\
    verify_server_challenge c es client g now = ((check_and_record g o now).1, Ok tt).
Proof.
  intros Hk (Hsp & Hsk & Hspub & Hss & Hsv)%enrollment_ok (Hcp & Hck & Hcpub & Hcs & Hcv)%enrollment_ok Ht o Ho.
  unfold issue_challenge. rewrite Hcv. cbn [res_bind nonce_random ok_or]. set (c0 := mkChallenge _ _ _).
  destruct (signature_message_total (challenge_statement c0) (challenge_statement_ijson c0 Ht)) as (b & _ & Hm).
  change (challenge_message c0 = Ok (SIGNATURE_PREFIX ++ b)) in Hm.
  destruct (sign_verifies server es _ _ Hk Hspub Hm) as (signature & Hsign & Hby).
  rewrite Hm. cbn [res_bind]. rewrite Hsign. cbn [res_bind]. eexists. split_all; [reflexivity | ..]; try done.
  apply verify_server_challenge_ok. cbn. split_all; try done.
  unfold challenge_observation. cbn. rewrite Hss. by apply admissible_recorded.
Qed.

(** The request a client signs for a challenge is accepted for that challenge. *)
Lemma signed_request_verifies `{Serialize T} client server ec skew_c (q : RequestEnvelopeV1 T) c n t g now :
  own_key client -> enrollment client skew_c = Ok ec -> json_time t ->
  request_validate q = Ok tt ->
  cp_audience_principal (sc_authentication c) = sg_principal client ->
  cp_audience_key_id (sc_authentication c) = sg_key_id client ->
  cp_signer_principal (sc_authentication c) = sg_principal server ->
  cp_signer_key_id (sc_authentication c) = sg_key_id server ->
  json_time (cp_issued_at_unix_ms (sc_authentication c)) ->
  let o := mkObservation (sg_principal client) (sg_key_id client) Request (mkRpcNonce n) t skew_c in
  admissible g o now ->
  exists r, sign_request client q c t (Some n) = Ok r /\ sr_request r = q /\
    rp_signer_principal (sr_authentication r) = sg_principal client /\
    rp_signer_key_id (sr_authentication r) = sg_key_id client /\
    json_time (rp_issued_at_unix_ms (sr_authentication r)) /\
    verify_signed_request r c ec server g now = ((check_and_record g o now).1, Ok tt).
Proof.
  intros Hk (Hcp & Hck & Hcpub & Hcs & Hcv)%enrollment_ok Ht Hq Hap Hak Hsp Hsk Htc o Ho.
  destruct (json_digest_total CHALLENGE_DOMAIN c (challenge_ijson c Htc)) as (d & Hd).
  unfold sign_request, protocol. rewrite Hq. cbn [map_err res_bind]. rewrite Hap, Hak, !bool_decide_eq_true_2 by done.
  cbn [negb orb reject_if res_bind nonce_random ok_or].
  change (canonical_json_digest _ c) with (canonical_json_digest CHALLENGE_DOMAIN c). rewrite Hd.
  cbn [map_err res_bind]. set (r0 := mkSignedRequest _ _ _).
  destruct (signature_message_total (request_statement r0) (request_statement_ijson r0 Ht)) as (b & _ & Hm).
  change (request_message r0 = Ok (SIGNATURE_PREFIX ++ b)) in Hm.
  destruct (sign_verifies client ec _ _ Hk Hcpub Hm) as (signature & Hsign & Hby).
  rewrite Hm. cbn [res_bind]. rewrite Hsign. cbn [res_bind]. eexists. split_all; [reflexivity | ..]; try done.
  apply verify_signed_request_ok. cbn. split_all; try done.
  unfold request_observation. cbn. rewrite Hcs. by apply admissible_recorded.
Qed.

(** The response a server signs is accepted for its request. *)
Lemma signed_response_verifies `{Serialize T, Serialize U} server client es skew_s (r : SignedRequestEnvelopeV1 U)
    (body : T) n t g now :
  own_key server -> enrollment server skew_s = Ok es -> json_time t ->
  request_validate (sr_request r) = Ok tt ->
  rp_signer_principal (sr_authentication r) = sg_principal client ->
  rp_signer_key_id (sr_authentication r) = sg_key_id client ->
  json_time (rp_issued_at_unix_ms (sr_authentication r)) ->
  ijson (to_value (rq_body (sr_request r))) = true -> ijson (to_value body) = true ->
  let o := mkObservation (sg_principal server) (sg_key_id server) Response (mkRpcNonce n) t skew_s in
  admissible g o now ->
  exists s, sign_response server r body t (Some n) = Ok s /\ rs_body (ss_response s) = body /\
    verify_signed_response s r es client g now = ((check_and_record g o now).1, Ok tt).
Proof.
  intros Hk (Hsp & Hsk & Hspub & Hss & Hsv)%enrollment_ok Ht Hq Hrp Hrk Htr Hbq Hb o Ho.
  destruct (json_digest_total SIGNED_REQUEST_DOMAIN r (request_ijson r Htr Hbq)) as (d & Hd).
  destruct (json_digest_total RESPONSE_BODY_DOMAIN body Hb) as (db & Hdb).
  unfold sign_response, protocol. rewrite Hq. cbn [map_err res_bind for_request rs_body].
  change (canonical_json_digest _ body) with (canonical_json_digest RESPONSE_BODY_DOMAIN body). rewrite Hdb.
  cbn [map_err res_bind nonce_random ok_or].
  change (canonical_json_digest _ r) with (canonical_json_digest SIGNED_REQUEST_DOMAIN r). rewrite Hd.
  cbn [map_err res_bind]. set (s0 := mkSignedResponse _ _ _).
  destruct (signature_message_total (response_statement s0) (response_statement_ijson s0 Ht)) as (b & _ & Hm).
  change (response_message s0 = Ok (SIGNATURE_PREFIX ++ b)) in Hm.
  destruct (sign_verifies server es _ _ Hk Hspub Hm) as (signature & Hsign & Hby).
  rewrite Hm. cbn [res_bind]. rewrite Hsign. cbn [res_bind]. eexists. split_all; [reflexivity | done |].
  apply verify_signed_response_ok. cbn. split_all; try done.
  unfold response_observation. cbn. rewrite Hss. by apply admissible_recorded.
Qed.

End Honest.

(** C26. An honest exchange goes through.  A server and a client that hold the keys
    they are enrolled with, a valid request and an answer: the challenge is
    issued and accepted, the request is signed and accepted, the response is
    signed and accepted, each by the peer's own verification, whenever the
    timestamps are within their windows and the nonces are new to guards that
    have room. *)
Theorem signed_exchange_completes `{JcsLaws, RpcDeps, !RpcLaws, Serialize T, Serialize U}
    server client es ec skew_s skew_c (q : RequestEnvelopeV1 U) (body : T) n0 n1 n2 t0 t1 t2 gc gs now0 now1 now2 :
  own_key server -> own_key client ->
  enrollment server skew_s = Ok es -> enrollment client skew_c = Ok ec ->
  json_time t0 -> json_time t1 -> json_time t2 ->
  request_validate q = Ok tt -> ijson (to_value (rq_body q)) = true -> ijson (to_value body) = true ->
  let o0 := mkObservation (sg_principal server) (sg_key_id server) ServerChallenge (mkRpcNonce n0) t0 skew_s in
  let o1 := mkObservation (sg_principal client) (sg_key_id client) Request (mkRpcNonce n1) t1 skew_c in
  let o2 := mkObservation (sg_principal server) (sg_key_id server) Response (mkRpcNonce n2) t2 skew_s in
  let gc' := (check_and_record gc o0 now0).1 in
  admissible gc o0 now0 -> admissible gs o1 now1 -> admissible gc' o2 now2 ->
  exists c r s,
    issue_challenge server ec t0 (Some n0) = Ok c /\
    verify_server_challenge c es client gc now0 = (gc', Ok tt) /\
    sign_request client q c t1 (Some n1) = Ok r /\
    (verify_signed_request r c ec server gs now1).2 = Ok tt /\
    sign_response server r body t2 (Some n2) = Ok s /\
    (verify_signed_response s r es client gc' now2).2 = Ok tt /\
    sr_request r = q /\ rs_body (ss_response s) = body.
Proof.
  intros Hks Hkc Hes Hec Ht0 Ht1 Ht2 Hq Hbq Hb o0 o1 o2 gc' Ho0 Ho1 Ho2.
  destruct (issued_challenge_verifies server client es ec skew_s skew_c n0 t0 gc now0 Hks Hes Hec Ht0 Ho0)
    as (c & Hc & Hap & Hak & Hsp & Hsk & Htc & Hvc).
  destruct (signed_request_verifies client server ec skew_c q c n1 t1 gs now1 Hkc Hec Ht1 Hq Hap Hak Hsp Hsk Htc Ho1)
    as (r & Hr & <- & Hrp & Hrk & Htr & Hvr).
  destruct (signed_response_verifies server client es skew_s r body n2 t2 gc' now2 Hks Hes Ht2 Hq Hrp Hrk Htr Hbq Hb Ho2)
    as (s & Hs & Hbody & Hvs).
  exists c, r, s. rewrite Hvr, Hvs. by split_all.
Qed.

Lemma toy_admissible g o now :
  u64_ok now -> observation_ok o -> in_window now o -> rg_entries g !! observation_key o = None ->
  size (rg_entries g) < rg_capacity g -> admissible g o now.
Proof.
  intros Hn Ho Hw Hl Hr. unfold admissible. split_all; try done.
  - intros (e & He & _). congruence.
  - unfold has_room. pose proof (size_retain now (rg_entries g)). simpl. lia.
Qed.

Lemma signed_exchange_completes_witness :
  exists c r s,
    issue_challenge Toy.server (Toy.enrolled "client") 5000 (Some (Toy.nonce "a")) = Ok c /\
    sign_request Toy.client Toy.request c 5010 (Some (Toy.nonce "b")) = Ok r /\
    sign_response Toy.server r Toy.body 5020 (Some (Toy.nonce "c")) = Ok s /\
    sr_request r = Toy.request /\ rs_body (ss_response s) = Toy.body.
Proof.
  destruct (signed_exchange_completes Toy.server Toy.client (Toy.enrolled "server") (Toy.enrolled "client") 1000 1000
    Toy.request Toy.body (Toy.nonce "a") (Toy.nonce "b") (Toy.nonce "c") 5000 5010 5020 Toy.guard Toy.guard 5005 5015 5025)
    as (c & r & s & Hc & _ & Hr & _ & Hs & _ & Hq & Hb).
  1, 2: reflexivity.
  1, 2, 6: vm_compute; reflexivity.
  1, 2, 3: toy_time.
  1, 2: vm_compute; reflexivity.
  1, 2, 3: apply toy_admissible;
    [toy_time | unfold observation_ok; toy_time | unfold in_window; toy_time | vm_compute; reflexivity | vm_compute; lia].
  exists c, r, s. split; [exact Hc|]. split; [exact Hr|]. split; [exact Hs|]. split; [exact Hq | exact Hb].
Defined.

(** ** Credentials: what a loaded signer stands for *)

(** What [validate_credential_metadata] asks of a file. *)
Definition protected_file (uid : Z) (m : Metadata) : Prop :=
  md_is_file m = true /\ Z.land (md_mode m) 63 = 0%Z /\ md_nlink m = 1%Z /\ (md_uid m = 0%Z \/ md_uid m = uid).
(** The two observations of the file agree. *)
Definition unchanged (a b : Metadata) : Prop :=
  md_dev a = md_dev b /\ md_ino a = md_ino b /\ md_size a = md_size b /\ md_mtime a = md_mtime b /\
  md_mtime_nsec a = md_mtime_nsec b /\ md_ctime a = md_ctime b /\ md_ctime_nsec a = md_ctime_nsec b.

Lemma credential_metadata_ok uid fstat m :
  validate_credential_metadata uid fstat = Ok m <-> fstat = Ok m /\ protected_file uid m.
Proof.
  unfold validate_credential_metadata, protected_file. rewrite res_bind_ok. setoid_rewrite guard_ok.
  setoid_rewrite map_err_ok. setoid_rewrite orb_false. setoid_rewrite orb_false. setoid_rewrite orb_false.
  setoid_rewrite andb_false_iff. setoid_rewrite negb_false_iff. setoid_rewrite Z.eqb_eq.
  naive_solver.
Qed.

Lemma take_credential_whole content :
  (Z.of_nat (length (take_credential content)) <= MAX_CREDENTIAL_BYTES)%Z -> take_credential content = content.
Proof.
  unfold take_credential, MAX_CREDENTIAL_BYTES. rewrite length_take. intros Hl. apply take_ge. lia.
Qed.

Lemma read_credential_ok path io b :
  read_protected_credential path io = Ok b ->
  exists before after, io_before io = Ok before /\ io_after io = Ok after /\ io_content io = Ok b /\
    protected_file (io_effective_uid io) before /\ protected_file (io_effective_uid io) after /\
    unchanged before after /\ (0 < Z.of_nat (length b) <= MAX_CREDENTIAL_BYTES)%Z /\
    Z.of_nat (length b) = md_size before.
Proof.
  unfold read_protected_credential, unchanged. intros Hr. apply res_bind_ok in Hr as (? & _ & Hr).
  apply guard_ok in Hr as [_ Hr]. apply res_bind_ok in Hr as (? & _ & Hr).
  apply res_bind_ok in Hr as (before & [Hb Hpb]%credential_metadata_ok & Hr).
  apply res_bind_ok in Hr as (content & Hc%map_err_ok & Hr). cbv zeta in Hr.
  apply res_bind_ok in Hr as (after & [Ha Hpa]%credential_metadata_ok & Hr).
  apply guard_ok in Hr as [Hg [= <-]]. guards_in Hg.
  destruct Hg as (((((((((Hne & Hmax) & Hsize) & ?) & ?) & ?) & ?) & ?) & ?) & ?).
  pose proof (take_credential_whole _ Hmax) as Hw. rewrite Hw in *. exists before, after. split_all; try done.
  destruct content; [done | simpl; lia].
Qed.

(** A signer comes out of a credential file only when the configured path is the
    normalized absolute path of a protected file that did not change while it was
    read, whose whole content of at most 4096 bytes was read, and whose key has
    the configured public half. *)
Theorem credential_signer_protected `{RpcDeps} config io s :
  from_systemd_credential config io = Ok s ->
  signing_config_validate config = Ok tt /\
  sg_principal s = si_principal config /\ sg_key_id s = si_key_id config /\
  sg_public_key s = si_public_key config /\ own_key s /\
  exists b before after, io_before io = Ok before /\ io_after io = Ok after /\ io_content io = Ok b /\
    key_from_pkcs8 b = Some (sg_key_pair s) /\
    protected_file (io_effective_uid io) before /\ unchanged before after /\
    (0 < Z.of_nat (length b) <= MAX_CREDENTIAL_BYTES)%Z /\ Z.of_nat (length b) = md_size before.
Proof.
  unfold from_systemd_credential. intros (Hv & Hs)%then_ok.
  apply res_bind_ok in Hs as (b & (before & after & Hb & Ha & Hc & Hp & _ & Hu & Hl & Hsz)%read_credential_ok & Hs).
  apply res_bind_ok in Hs as (signer & Hkey & Hs). apply guard_ok in Hs as [Hpub%negb_bool_decide_false [= <-]].
  pose proof (from_pkcs8_own_key _ _ _ _ Hkey) as Hown. unfold from_pkcs8 in Hkey.
  apply res_bind_ok in Hkey as (kp & Hkp%ok_or_ok & Hkey). apply guard_ok in Hkey as [_ [= <-]].
  split_all; try done. by exists b, before, after.
Qed.
