(* ===== verification/Store.v ===== *)
(** * The durable store: events and states (ag-store/src/lib.rs)

    One database per daemon: an append-only, hash-chained event table, the current
    state of every entity with its revision, and the tables of blobs and backup
    cuts.  [Database] has one field per table; a table is the list of its rows in
    rowid order, a statement that the code executes is a function on the
    [Database] that enforces the constraints the schema declares, and a
    transaction is a computation that returns the new database only when it
    commits, so that an error leaves the old one.  SQLite and the file system do
    not fail by themselves here.

    The abstract view of a store is a [Log], the list of committed events with
    the states they installed; [represents] relates a database to it. *)

From S2P Require Import Prelude Wire Fixture Digest Names Origin.

(** ** Schema *)

Definition STORE_SCHEMA_VERSION : Z := 2.
Definition STORE_SCHEMA_NAME : string := "ag-store-event-v1".

Definition SCHEMA_SQL : string := "
CREATE TABLE store_identity (
    singleton INTEGER PRIMARY KEY CHECK (singleton = 1),
    application_id INTEGER NOT NULL,
    application_name TEXT NOT NULL,
    schema_name TEXT NOT NULL,
    schema_version INTEGER NOT NULL,
    schema_digest TEXT NOT NULL
) STRICT;

CREATE TABLE writer_fence (
    singleton INTEGER PRIMARY KEY CHECK (singleton = 1),
    generation INTEGER NOT NULL CHECK (generation >= 0),
    writer_id TEXT NOT NULL,
    principal_digest TEXT NOT NULL,
    process_nonce TEXT NOT NULL,
    claimed_at_unix_ms INTEGER NOT NULL
) STRICT;

CREATE TABLE store_activation (
    singleton INTEGER PRIMARY KEY CHECK (singleton = 1),
    activation_jcs BLOB NOT NULL,
    activation_digest TEXT NOT NULL,
    activated_at_unix_ms INTEGER NOT NULL
) STRICT;

CREATE TABLE chain_head (
    singleton INTEGER PRIMARY KEY CHECK (singleton = 1),
    sequence INTEGER NOT NULL CHECK (sequence >= 0),
    digest TEXT NOT NULL
) STRICT;

CREATE TABLE events (
    sequence INTEGER PRIMARY KEY CHECK (sequence > 0),
    event_id TEXT NOT NULL UNIQUE,
    entity_id TEXT NOT NULL,
    event_kind TEXT NOT NULL,
    occurred_at_unix_ms INTEGER NOT NULL,
    previous_digest TEXT NOT NULL,
    payload_jcs BLOB NOT NULL,
    payload_digest TEXT NOT NULL,
    state_digest TEXT NOT NULL,
    event_digest TEXT NOT NULL UNIQUE
) STRICT;

CREATE INDEX events_by_entity ON events(entity_id, sequence);

CREATE TABLE materialized_state (
    entity_id TEXT PRIMARY KEY,
    revision INTEGER NOT NULL CHECK (revision > 0),
    state_jcs BLOB NOT NULL,
    state_digest TEXT NOT NULL,
    last_event_sequence INTEGER NOT NULL UNIQUE,
    last_event_digest TEXT NOT NULL,
    FOREIGN KEY(last_event_sequence) REFERENCES events(sequence)
) STRICT;

CREATE TABLE blobs (
    digest TEXT PRIMARY KEY,
    byte_length INTEGER NOT NULL CHECK (byte_length >= 0),
    installed_at_unix_ms INTEGER NOT NULL
) STRICT;

CREATE TABLE backup_cuts (
    cut_id TEXT PRIMARY KEY,
    authority_domain TEXT NOT NULL,
    epoch INTEGER NOT NULL CHECK (epoch > 0),
    quiescence_barrier_id TEXT NOT NULL UNIQUE,
    state TEXT NOT NULL CHECK (state IN ('preparing', 'prepared', 'sealed', 'released', 'aborted')),
    begin_request_digest TEXT NOT NULL,
    begin_event_sequence INTEGER NOT NULL UNIQUE,
    begin_event_digest TEXT NOT NULL UNIQUE,
    manifest_digest TEXT,
    seal_event_sequence INTEGER UNIQUE,
    seal_event_digest TEXT UNIQUE,
    release_bundle_digest TEXT,
    release_event_sequence INTEGER UNIQUE,
    release_event_digest TEXT UNIQUE,
    abort_reason TEXT,
    abort_event_sequence INTEGER UNIQUE,
    abort_event_digest TEXT UNIQUE,
    created_at_unix_ms INTEGER NOT NULL,
    updated_at_unix_ms INTEGER NOT NULL,
    FOREIGN KEY(begin_event_sequence) REFERENCES events(sequence),
    FOREIGN KEY(seal_event_sequence) REFERENCES events(sequence),
    FOREIGN KEY(release_event_sequence) REFERENCES events(sequence),
    FOREIGN KEY(abort_event_sequence) REFERENCES events(sequence),
    CHECK (state NOT IN ('sealed', 'released') OR manifest_digest IS NOT NULL),
    CHECK (state NOT IN ('preparing', 'prepared') OR manifest_digest IS NULL),
    CHECK ((state = 'released') = (release_bundle_digest IS NOT NULL)),
    CHECK ((state = 'aborted') = (abort_reason IS NOT NULL))
) STRICT;

CREATE UNIQUE INDEX one_active_backup_cut
ON backup_cuts((1)) WHERE state IN ('preparing', 'prepared', 'sealed');

CREATE TABLE backup_participants (
    cut_id TEXT NOT NULL,
    participant TEXT NOT NULL CHECK (participant IN ('agd', 'ag-effectd', 'ag-providerd')),
    component_identity TEXT NOT NULL,
    checkpoint_jcs BLOB,
    checkpoint_digest TEXT,
    prepared_event_sequence INTEGER UNIQUE,
    prepared_event_digest TEXT UNIQUE,
    PRIMARY KEY(cut_id, participant),
    FOREIGN KEY(cut_id) REFERENCES backup_cuts(cut_id),
    FOREIGN KEY(prepared_event_sequence) REFERENCES events(sequence),
    CHECK ((checkpoint_jcs IS NULL) = (checkpoint_digest IS NULL)),
    CHECK ((checkpoint_jcs IS NULL) = (prepared_event_sequence IS NULL)),
    CHECK ((checkpoint_jcs IS NULL) = (prepared_event_digest IS NULL))
) STRICT;
".

(** [struct StoreDigestV1(Digest)], transparent. *)
Abbreviation StoreDigestV1 := Digest.

(** ** Identities *)

Record StoreIdentityV1 : Type := mkStoreIdentity {
  sid_application_id : Z;
  sid_application_name : string;
  sid_schema_name : string;
  sid_schema_version : Z;
  sid_schema_digest : StoreDigestV1
}.
#[global] Instance StoreIdentityV1_eq_dec : EqDecision StoreIdentityV1.
Proof. solve_decision. Defined.
#[global] Instance StoreIdentityV1_serialize : Serialize StoreIdentityV1 := fun i =>
  VObject [("application_id", to_value (sid_application_id i)); ("application_name", to_value (sid_application_name i));
           ("schema_name", to_value (sid_schema_name i)); ("schema_version", to_value (sid_schema_version i));
           ("schema_digest", to_value (sid_schema_digest i))].
#[global] Instance StoreIdentityV1_inj : SerializeInj StoreIdentityV1.
Proof. ser_struct. Qed.

Record WriterIdentityV1 : Type := mkWriter {
  wr_writer_id : string;
  wr_principal_digest : Digest;
  wr_process_nonce : string;
  wr_claimed_at_unix_ms : Z
}.

Record StoreActivationIdentityV1 : Type := mkActivation {
  ac_schema : string;
  ac_authority_domain : AuthorityDomainId;
  ac_epoch : EpochId;
  ac_config_identity : Digest;
  ac_security_profile_identity : Digest;
  ac_build_identity : Digest;
  ac_authority_catalog_identity : option Digest
}.
#[global] Instance StoreActivationIdentityV1_eq_dec : EqDecision StoreActivationIdentityV1.
Proof. solve_decision. Defined.
#[global] Instance StoreActivationIdentityV1_serialize : Serialize StoreActivationIdentityV1 := fun a =>
  VObject [("schema", to_value (ac_schema a)); ("authority_domain", to_value (ac_authority_domain a));
           ("epoch", to_value (ac_epoch a)); ("config_identity", to_value (ac_config_identity a));
           ("security_profile_identity", to_value (ac_security_profile_identity a));
           ("build_identity", to_value (ac_build_identity a));
           ("authority_catalog_identity", to_value (ac_authority_catalog_identity a))].
#[global] Instance StoreActivationIdentityV1_inj : SerializeInj StoreActivationIdentityV1.
Proof. ser_struct. Qed.

Record StoreActivationRecordV1 : Type := mkActivationRecord {
  ar_identity : StoreActivationIdentityV1;
  ar_activation_digest : StoreDigestV1;
  ar_activated_at_unix_ms : Z
}.

(** ** Events, blobs, backup roles and states *)

Record ChainHeadV1 : Type := mkHead { ch_sequence : Z; ch_digest : StoreDigestV1 }.
#[global] Instance ChainHeadV1_eq_dec : EqDecision ChainHeadV1.
Proof. solve_decision. Defined.

Record NewEventV1 (T : Type) : Type := mkNewEvent {
  ne_event_id : string;
  ne_entity_id : string;
  ne_event_kind : string;
  ne_occurred_at_unix_ms : Z;
  ne_payload : T
}.
Arguments mkNewEvent {T} _ _ _ _ _.
Arguments ne_event_id {T} _.
Arguments ne_entity_id {T} _.
Arguments ne_event_kind {T} _.
Arguments ne_occurred_at_unix_ms {T} _.
Arguments ne_payload {T} _.

Record EventReceiptV1 : Type := mkReceipt {
  rc_sequence : Z;
  rc_event_id : string;
  rc_previous_digest : StoreDigestV1;
  rc_event_digest : StoreDigestV1;
  rc_entity_revision : Z;
  rc_state_digest : StoreDigestV1
}.

Record MaterializedStateV1 (T : Type) : Type := mkMaterialized {
  ms_entity_id : string;
  ms_revision : Z;
  ms_state : T;
  ms_state_digest : StoreDigestV1;
  ms_last_event_sequence : Z;
  ms_last_event_digest : StoreDigestV1
}.
Arguments mkMaterialized {T} _ _ _ _ _ _.

Record BlobDescriptorV1 : Type := mkBlobDescriptor { bd_digest : Digest; bd_byte_length : Z }.
#[global] Instance BlobDescriptorV1_eq_dec : EqDecision BlobDescriptorV1.
Proof. solve_decision. Defined.

Inductive BackupParticipantV1 : Type := Agd | AgEffectd | AgProviderd.
#[global] Instance BackupParticipantV1_eq_dec : EqDecision BackupParticipantV1.
Proof. solve_decision. Defined.
Inductive BackupCutStateV1 : Type := Preparing | Prepared | Sealed | Released | Aborted.
#[global] Instance BackupCutStateV1_eq_dec : EqDecision BackupCutStateV1.
Proof. solve_decision. Defined.

(** ** Errors *)

(** Which message a [Corrupt] error carries, with the values formatted into it. *)
Inductive CorruptReason : Type :=
  | EventSequenceGap (expected found : Z)
  | PredecessorMismatch (sequence : Z)
  | PayloadDigestMismatch (sequence : Z)
  | EventDigestMismatch (sequence : Z)
  | HeadMismatch
  | StateDigestMismatch (entity_id : string)
  | StateBindingMismatch (entity_id : string)
  | NotCanonicalJson (label : string) (e : JcsError)
  | Negative (field : string)
  | ExceedsSigned (field : string)
  | EntityRevisionOverflow
  | EventSequenceOverflow
  | ChainCasFailed
  | PragmaIdentityMismatch
  | ActivationDigestMismatch
  | UnknownParticipant (value : string)
  | UnknownBackupState (value : string)
  | PreparedLacksSequence | SealedLacksSequence | ReleasedLacksSequence | AbortedLacksSequence
  | PreparedCountOverflow
  | CheckpointRoleMismatch
  | StoredIdentifier (e : IdentifierError)
  | InvalidStoredDomain (e : IdentifierError)
  | InvalidStoredEpoch (e : IdentifierError)
  | SealedLacksManifest | SealedManifestMismatch | CaptureChanged
  | CatalogSizeMismatch (digest : Digest)
  | ConcurrentCatalogMismatch (digest : Digest)
  | NotCatalogued (digest : Digest)
  | NotImmutableFile (digest : Digest)
  | BlobCountOverflow.

(** The failures of a statement that stored data can provoke. *)
Inductive SqliteError : Type := ConstraintViolation | QueryReturnedNoRows | FromSqlConversionFailure.

Inductive StoreError : Type :=
  | StoreIo (message : string)
  | Sqlite (e : SqliteError)
  | WriterFenced (path : string)
  | IdentityMismatch (expected actual : StoreIdentityV1)
  | ActivationIdentityMissing
  | ActivationIdentityRequired
  | ActivationIdentityMismatch (expected actual : StoreActivationIdentityV1)
  | InvalidActivationIdentity (reason : string)
  | UnrecognizedExistingDatabase
  | PreparedDatabaseDrift
  | DatabaseCustodyMismatch
  | InvalidIdentity (reason : string)
  | InvalidIdentifier (field reason : string)
  | InvalidDigest (text : string)
  | Canonicalization (e : JcsError)
  | InvalidStoredJson (message : string)
  | RevisionConflict (entity_id : string) (expected actual : Z)
  | DuplicateEvent (event_id : string)
  | BackupBarrierActive (cut_id : string)
  | InvalidBackupParticipants
  | BackupCutNotFound (cut_id : string)
  | BackupCutAlreadyActive
  | BackupCutConflict (cut_id : string)
  | InvalidBackupTransition (action : string) (state : BackupCutStateV1)
  | BackupParticipantMismatch (participant : BackupParticipantV1)
  | InvalidQuiescenceAttestation (participant : BackupParticipantV1)
  | BackupSchemaIdentityMismatch (participant : BackupParticipantV1)
  | BackupCheckpointConflict (participant : BackupParticipantV1)
  | BackupNotPrepared
  | BackupManifestMismatch
  | BackupCaptureRequiresSealed (cut_id : string)
  | BackupCaptureDestinationExists
  | IncoherentBackupBundle
  | IncoherentBackupPublication
  | BackupPublicationDestinationExists
  | BlobMismatch (expected actual : BlobDescriptorV1)
  | BlobReadLimitExceeded (digest : Digest) (actual maximum : Z)
  | Corrupt (reason : CorruptReason).

(** ** The tables *)

Record IdentityRow : Type := mkIdentityRow {
  ir_application_id : Z;
  ir_application_name : string;
  ir_schema_name : string;
  ir_schema_version : Z;
  ir_schema_digest : string
}.
Record EventRow : Type := mkEventRow {
  er_sequence : Z;
  er_event_id : string;
  er_entity_id : string;
  er_event_kind : string;
  er_occurred_at_unix_ms : Z;
  er_previous_digest : string;
  er_payload_jcs : bytes;
  er_payload_digest : string;
  er_state_digest : string;
  er_event_digest : string
}.
Record StateRow : Type := mkStateRow {
  st_entity_id : string;
  st_revision : Z;
  st_state_jcs : bytes;
  st_state_digest : string;
  st_last_event_sequence : Z;
  st_last_event_digest : string
}.
Record HeadRow : Type := mkHeadRow { hr_sequence : Z; hr_digest : string }.
Record FenceRow : Type := mkFenceRow { fr_generation : Z; fr_writer : WriterIdentityV1 }.
Record ActivationRow : Type := mkActivationRow {
  av_activation_jcs : bytes;
  av_activation_digest : string;
  av_activated_at_unix_ms : Z
}.
Record BlobRow : Type := mkBlobRow { br_digest : string; br_byte_length : Z; br_installed_at_unix_ms : Z }.
Record CutRow : Type := mkCutRow {
  cr_cut_id : string;
  cr_authority_domain : string;
  cr_epoch : Z;
  cr_quiescence_barrier_id : string;
  cr_state : string;
  cr_begin_request_digest : string;
  cr_begin_event_sequence : Z;
  cr_begin_event_digest : string;
  cr_manifest_digest : option string;
  cr_seal_event : option (Z * string);
  cr_release_bundle_digest : option string;
  cr_release_event : option (Z * string);
  cr_abort_reason : option string;
  cr_abort_event : option (Z * string);
  cr_created_at_unix_ms : Z;
  cr_updated_at_unix_ms : Z
}.
(** The checkpoint columns are all set or all [NULL]; [CheckpointColumns] are the
    set ones. *)
Record CheckpointColumns : Type := mkCheckpointColumns {
  cc_checkpoint_jcs : bytes;
  cc_checkpoint_digest : string;
  cc_prepared_event_sequence : Z;
  cc_prepared_event_digest : string
}.
Record ParticipantRow : Type := mkParticipantRow {
  pr_cut_id : string;
  pr_participant : string;
  pr_component_identity : string;
  pr_checkpoint : option CheckpointColumns
}.

Record Database : Type := mkDatabase {
  db_store_identity : option IdentityRow;
  db_pragma_application_id : Z;
  db_pragma_user_version : Z;
  db_writer_fence : option FenceRow;
  db_activation : option ActivationRow;
  db_chain_head : option HeadRow;
  db_events : list EventRow;
  db_states : list StateRow;
  db_blobs : list BlobRow;
  db_cuts : list CutRow;
  db_participants : list ParticipantRow
}.

(** A file that SQLite has not written to. *)
Definition empty_database : Database := mkDatabase None 0 0 None None None [] [] [] [] [].

Definition set_head (db : Database) (h : HeadRow) : Database :=
  mkDatabase (db_store_identity db) (db_pragma_application_id db) (db_pragma_user_version db) (db_writer_fence db)
    (db_activation db) (Some h) (db_events db) (db_states db) (db_blobs db) (db_cuts db) (db_participants db).
Definition set_events (db : Database) (l : list EventRow) : Database :=
  mkDatabase (db_store_identity db) (db_pragma_application_id db) (db_pragma_user_version db) (db_writer_fence db)
    (db_activation db) (db_chain_head db) l (db_states db) (db_blobs db) (db_cuts db) (db_participants db).
Definition set_states (db : Database) (l : list StateRow) : Database :=
  mkDatabase (db_store_identity db) (db_pragma_application_id db) (db_pragma_user_version db) (db_writer_fence db)
    (db_activation db) (db_chain_head db) (db_events db) l (db_blobs db) (db_cuts db) (db_participants db).
Definition set_blobs (db : Database) (l : list BlobRow) : Database :=
  mkDatabase (db_store_identity db) (db_pragma_application_id db) (db_pragma_user_version db) (db_writer_fence db)
    (db_activation db) (db_chain_head db) (db_events db) (db_states db) l (db_cuts db) (db_participants db).
Definition set_cuts (db : Database) (l : list CutRow) : Database :=
  mkDatabase (db_store_identity db) (db_pragma_application_id db) (db_pragma_user_version db) (db_writer_fence db)
    (db_activation db) (db_chain_head db) (db_events db) (db_states db) (db_blobs db) l (db_participants db).
Definition set_participants (db : Database) (l : list ParticipantRow) : Database :=
  mkDatabase (db_store_identity db) (db_pragma_application_id db) (db_pragma_user_version db) (db_writer_fence db)
    (db_activation db) (db_chain_head db) (db_events db) (db_states db) (db_blobs db) (db_cuts db) l.
Definition set_fence (db : Database) (f : FenceRow) : Database :=
  mkDatabase (db_store_identity db) (db_pragma_application_id db) (db_pragma_user_version db) (Some f)
    (db_activation db) (db_chain_head db) (db_events db) (db_states db) (db_blobs db) (db_cuts db) (db_participants db).
Definition set_activation (db : Database) (a : ActivationRow) : Database :=
  mkDatabase (db_store_identity db) (db_pragma_application_id db) (db_pragma_user_version db) (db_writer_fence db)
    (Some a) (db_chain_head db) (db_events db) (db_states db) (db_blobs db) (db_cuts db) (db_participants db).

(** Statements run in a transaction: each sees the database its predecessor left,
    and an error rolls everything back. *)
Definition Tx (A : Type) : Type := Database -> res StoreError (Database * A).

(** A method of the store: the database it leaves, and its result. *)
Definition Op (A : Type) : Type := Database -> Database * res StoreError A.
Definition commit {A} (tx : Tx A) : Op A := fun db =>
  match tx db with
  | Ok (db', a) => (db', Ok a)
  | Err e => (db, Err e)
  | Panic => (db, Panic)
  end.
Definition and_then {A B} (first : Database * res StoreError A) (k : A -> Op B) : Database * res StoreError B :=
  match first with
  | (db, Ok a) => k a db
  | (db, Err e) => (db, Err e)
  | (db, Panic) => (db, Panic)
  end.

Section Store.
  Context `{Deps}.

(** ** Shared helpers *)

(** [to_i64] and [to_u64]. *)
Definition I64_MAX : Z := 9223372036854775807.
Definition to_i64 (value : Z) (field : string) : res StoreError Z :=
  reject_if (I64_MAX <? value)%Z (Corrupt (ExceedsSigned field)) ;? Ok value.
Definition to_u64 (value : Z) (field : string) : res StoreError Z :=
  reject_if (value <? 0)%Z (Corrupt (Negative field)) ;? Ok value.

(** [validate_identifier]. *)
Definition store_identifier_char (c : ascii) : bool := is_ascii_alphanumeric c || one_of "-_.:/" c.
Definition validate_store_identifier (field value : string) (maximum : nat) : res StoreError unit :=
  reject_if (value == EmptyString) (InvalidIdentifier field "must not be empty") ;?
  reject_if (maximum <? String.length value)
    (InvalidIdentifier field ("exceeds " +:+ u64_to_string (Z.of_nat maximum) +:+ " bytes")) ;?
  reject_if (negb (str_all store_identifier_char value))
    (InvalidIdentifier field "contains non-canonical characters") ;?
  Ok tt.

(** [<StoreDigestV1 as FromStr>::from_str]. *)
Definition store_digest_parse (value : string) : res StoreError StoreDigestV1 :=
  map_err (fun _ => InvalidDigest value) (digest_parse value).

(** [jcs], [digest_jcs] and [verify_canonical_stored_json]. *)
Definition jcs `{Serialize T} (value : T) : res StoreError bytes :=
  let? document := map_err Canonicalization (canonicalize (to_value value)) in
  Ok (jcs_bytes document).
Definition digest_jcs `{Serialize T} (domain : string) (value : T) : res StoreError StoreDigestV1 :=
  let? b := jcs value in Ok (hash_domain domain b).
Definition verify_canonical_stored_json (b : bytes) (label : string) : res StoreError unit :=
  map_err (fun e => Corrupt (NotCanonicalJson label e)) (from_canonical_bytes b) ;? Ok tt.

(** ** Identity *)

Definition I32_MAX : Z := 2147483647.
Definition compiled_schema_digest : StoreDigestV1 := hash_domain "ag-store-schema-v2" (str_bytes SCHEMA_SQL).

(** [StoreIdentityV1::validate] and [::current]. *)
Definition identity_validate (i : StoreIdentityV1) : res StoreError unit :=
  reject_if ((sid_application_id i =? 0)%Z || (I32_MAX <? sid_application_id i)%Z)
    (InvalidIdentity "application_id must be in 1..=i32::MAX") ;?
  validate_store_identifier "application_name" (sid_application_name i) 128 ;?
  validate_store_identifier "schema_name" (sid_schema_name i) 128 ;?
  reject_if ((sid_schema_version i =? 0)%Z || (I32_MAX <? sid_schema_version i)%Z)
    (InvalidIdentity "schema_version must be in 1..=i32::MAX") ;?
  reject_if ((sid_schema_name i != STORE_SCHEMA_NAME) || negb (sid_schema_version i =? STORE_SCHEMA_VERSION)%Z
             || (sid_schema_digest i != compiled_schema_digest))
    (InvalidIdentity "schema identity does not match the schema compiled into ag-store") ;?
  Ok tt.
Definition StoreIdentityV1_current (application_id : Z) (application_name : string) : res StoreError StoreIdentityV1 :=
  let identity := mkStoreIdentity application_id application_name STORE_SCHEMA_NAME STORE_SCHEMA_VERSION
                    compiled_schema_digest in
  identity_validate identity ;? Ok identity.

(** [WriterIdentityV1::validate], [StoreActivationIdentityV1::validate]. *)
Definition writer_validate (w : WriterIdentityV1) : res StoreError unit :=
  validate_store_identifier "writer_id" (wr_writer_id w) 192 ;?
  validate_store_identifier "process_nonce" (wr_process_nonce w) 192.
Definition ACTIVATION_SCHEMA : string := "ag-store-activation-identity-v1".
Definition activation_validate (a : StoreActivationIdentityV1) : res StoreError unit :=
  reject_if (ac_schema a != ACTIVATION_SCHEMA)
    (InvalidActivationIdentity "unsupported activation identity schema") ;?
  Ok tt.

(** [genesis_digest]. *)
Definition genesis_digest (i : StoreIdentityV1) : res StoreError StoreDigestV1 :=
  digest_jcs "ag-store-event-chain-genesis-v1" i.

(** ** The event chain *)

Record EventHashInputV1 : Type := mkHashInput {
  hi_sequence : Z;
  hi_event_id : string;
  hi_entity_id : string;
  hi_event_kind : string;
  hi_occurred_at_unix_ms : Z;
  hi_previous_digest : StoreDigestV1;
  hi_payload_digest : StoreDigestV1;
  hi_state_digest : StoreDigestV1
}.
#[global] Instance EventHashInputV1_serialize : Serialize EventHashInputV1 := fun i =>
  VObject [("sequence", to_value (hi_sequence i)); ("event_id", to_value (hi_event_id i));
           ("entity_id", to_value (hi_entity_id i)); ("event_kind", to_value (hi_event_kind i));
           ("occurred_at_unix_ms", to_value (hi_occurred_at_unix_ms i));
           ("previous_digest", to_value (hi_previous_digest i)); ("payload_digest", to_value (hi_payload_digest i));
           ("state_digest", to_value (hi_state_digest i))].

(** [event_digest_for]. *)
Definition event_digest_for (input : EventHashInputV1) : res StoreError StoreDigestV1 :=
  digest_jcs "ag-store-event-v1" input.
Definition PAYLOAD_DOMAIN : string := "ag-store-event-payload-v1".
Definition STATE_DOMAIN : string := "ag-store-materialized-state-v1".

(** [validate_event]. *)
Definition validate_event {T} (event : NewEventV1 T) : res StoreError unit :=
  validate_store_identifier "event_id" (ne_event_id event) 256 ;?
  validate_store_identifier "entity_id" (ne_entity_id event) 256 ;?
  validate_store_identifier "event_kind" (ne_event_kind event) 192.

(** [chain_head_from_connection] and [materialized_revision]. *)
Definition chain_head (db : Database) : res StoreError ChainHeadV1 :=
  let? row := ok_or (Sqlite QueryReturnedNoRows) (db_chain_head db) in
  let? sequence := to_u64 (hr_sequence row) "chain-head sequence" in
  let? digest := store_digest_parse (hr_digest row) in
  Ok (mkHead sequence digest).
Definition find_state (entity_id : string) (l : list StateRow) : option StateRow :=
  List.find (fun r => st_entity_id r == entity_id) l.
Definition materialized_revision (db : Database) (entity_id : string) : res StoreError Z :=
  to_u64 (match find_state entity_id (db_states db) with Some r => st_revision r | None => 0%Z end)
    "materialized revision".

(** *** Statements *)

(** [INSERT INTO events]: the row takes its place in [sequence] order. *)
Fixpoint insert_by_sequence (row : EventRow) (l : list EventRow) : list EventRow :=
  match l with
  | [] => [row]
  | r :: l' => if (er_sequence row <? er_sequence r)%Z then row :: l else r :: insert_by_sequence row l'
  end.
Definition insert_event (row : EventRow) : Tx unit := fun db =>
  reject_if ((er_sequence row <=? 0)%Z
             || existsb (fun r => (er_sequence r =? er_sequence row)%Z
                                  || (er_event_id r == er_event_id row)
                                  || (er_event_digest r == er_event_digest row)) (db_events db))
    (Sqlite ConstraintViolation) ;?
  Ok (set_events db (insert_by_sequence row (db_events db)), tt).

(** [INSERT INTO materialized_state ... ON CONFLICT(entity_id) DO UPDATE]. *)
Fixpoint upsert_row (row : StateRow) (l : list StateRow) : list StateRow :=
  match l with
  | [] => [row]
  | r :: l' => if st_entity_id r == st_entity_id row then row :: l' else r :: upsert_row row l'
  end.
Definition upsert_state (row : StateRow) : Tx unit := fun db =>
  reject_if ((st_revision row <=? 0)%Z
             || existsb (fun r => (st_entity_id r != st_entity_id row)
                                  && (st_last_event_sequence r =? st_last_event_sequence row)%Z) (db_states db)
             || negb (existsb (fun r => (er_sequence r =? st_last_event_sequence row)%Z) (db_events db)))
    (Sqlite ConstraintViolation) ;?
  Ok (set_states db (upsert_row row (db_states db)), tt).

(** [UPDATE chain_head ... WHERE sequence = ?3 AND digest = ?4]: the number of
    rows changed. *)
Definition update_chain_head (new old : HeadRow) : Tx nat := fun db =>
  match db_chain_head db with
  | Some row =>
      if (hr_sequence row =? hr_sequence old)%Z && (hr_digest row == hr_digest old)
      then reject_if (hr_sequence new <? 0)%Z (Sqlite ConstraintViolation) ;? Ok (set_head db new, 1)
      else Ok (db, 0)
  | None => Ok (db, 0)
  end.

(** [append_event_in_transaction]. *)
Definition append_event_in_transaction `{Serialize P, Serialize A} (event : NewEventV1 P) (state : A)
    (expected_revision : Z) : Tx EventReceiptV1 := fun db =>
  validate_event event ;?
  reject_if (existsb (fun r => er_event_id r == ne_event_id event) (db_events db))
    (DuplicateEvent (ne_event_id event)) ;?
  let? head := chain_head db in
  let? actual_revision := materialized_revision db (ne_entity_id event) in
  reject_if (negb (actual_revision =? expected_revision)%Z)
    (RevisionConflict (ne_entity_id event) expected_revision actual_revision) ;?
  let? entity_revision := ok_or (Corrupt EntityRevisionOverflow) (checked_add_u64 actual_revision 1) in
  let? sequence := ok_or (Corrupt EventSequenceOverflow) (checked_add_u64 (ch_sequence head) 1) in
  let? payload_jcs := jcs (ne_payload event) in
  let? state_jcs := jcs state in
  let payload_digest := hash_domain PAYLOAD_DOMAIN payload_jcs in
  let state_digest := hash_domain STATE_DOMAIN state_jcs in
  let? event_digest := event_digest_for
    (mkHashInput sequence (ne_event_id event) (ne_entity_id event) (ne_event_kind event)
       (ne_occurred_at_unix_ms event) (ch_digest head) payload_digest state_digest) in
  let? sequence_i64 := to_i64 sequence "event sequence" in
  let? (db, _) := insert_event
    (mkEventRow sequence_i64 (ne_event_id event) (ne_entity_id event) (ne_event_kind event)
       (ne_occurred_at_unix_ms event) (digest_str (ch_digest head)) payload_jcs (digest_str payload_digest)
       (digest_str state_digest) (digest_str event_digest)) db in
  let? revision_i64 := to_i64 entity_revision "entity revision" in
  let? (db, _) := upsert_state
    (mkStateRow (ne_entity_id event) revision_i64 state_jcs (digest_str state_digest) sequence_i64
       (digest_str event_digest)) db in
  let? head_i64 := to_i64 (ch_sequence head) "event sequence" in
  let? (db, changed) := update_chain_head (mkHeadRow sequence_i64 (digest_str event_digest))
    (mkHeadRow head_i64 (digest_str (ch_digest head))) db in
  reject_if (changed != 1) (Corrupt ChainCasFailed) ;?
  Ok (db, mkReceipt sequence (ne_event_id event) (ch_digest head) event_digest entity_revision state_digest).

(** *** Backup barrier *)

(** [active_backup_cut], [ensure_no_backup_barrier]. *)
Definition active_state (state : string) : bool :=
  (state == "preparing") || (state == "prepared") || (state == "sealed").
Definition active_backup_cut (db : Database) : option string :=
  option_map cr_cut_id (List.find (fun c => active_state (cr_state c)) (db_cuts db)).
Definition ensure_no_backup_barrier (db : Database) : res StoreError unit :=
  match active_backup_cut db with
  | Some cut_id => Err (BackupBarrierActive cut_id)
  | None => Ok tt
  end.

(** *** Operations *)

(** [Store::append_event]. *)
Definition append_event `{Serialize P, Serialize A} (event : NewEventV1 P) (state : A) (expected_revision : Z)
    : Tx EventReceiptV1 := fun db =>
  validate_event event ;?
  ensure_no_backup_barrier db ;?
  append_event_in_transaction event state expected_revision db.

(** [Store::append_distinct_event_pair]. *)
Definition append_distinct_event_pair `{Serialize P1, Serialize S1, Serialize P2, Serialize S2}
    (first_event : NewEventV1 P1) (first_state : S1) (first_expected : Z)
    (second_event : NewEventV1 P2) (second_state : S2) (second_expected : Z)
    : Tx (EventReceiptV1 * EventReceiptV1) := fun db =>
  validate_event first_event ;?
  validate_event second_event ;?
  reject_if (ne_entity_id first_event == ne_entity_id second_event)
    (InvalidIdentifier "event_pair" "paired events must update distinct entities") ;?
  ensure_no_backup_barrier db ;?
  let? (db, first) := append_event_in_transaction first_event first_state first_expected db in
  let? (db, second) := append_event_in_transaction second_event second_state second_expected db in
  Ok (db, (first, second)).

(** [Store::materialized_state]; [decode] is [serde_json::from_slice] for the
    caller's type. *)
Definition materialized_state {T} (decode : bytes -> string + T) (db : Database) (entity_id : string)
    : res StoreError (option (MaterializedStateV1 T)) :=
  match find_state entity_id (db_states db) with
  | None => Ok None
  | Some r =>
      let? state := match decode (st_state_jcs r) with inl m => Err (InvalidStoredJson m) | inr x => Ok x end in
      let? revision := to_u64 (st_revision r) "materialized revision" in
      let? state_digest := store_digest_parse (st_state_digest r) in
      let? sequence := to_u64 (st_last_event_sequence r) "materialized event sequence" in
      let? event_digest := store_digest_parse (st_last_event_digest r) in
      Ok (Some (mkMaterialized entity_id revision state state_digest sequence event_digest))
  end.

(** [Store::entity_ids_after] and [Store::entity_ids].  [entity_id] is the primary
    key of its table, so the sorted column has no duplicates to drop. *)
Definition entity_ids_after (db : Database) (prefix : string) (after_exclusive : option string) (limit : Z)
    : res StoreError (list string) :=
  validate_store_identifier "entity_prefix" prefix 256 ;?
  match after_exclusive with
  | None => Ok tt
  | Some cursor =>
      validate_store_identifier "entity_cursor" cursor 256 ;?
      reject_if (negb (starts_with cursor prefix))
        (InvalidIdentifier "entity_cursor" "must have the requested literal prefix") ;?
      Ok tt
  end ;?
  reject_if ((limit =? 0)%Z || (10000 <? limit)%Z) (InvalidIdentifier "entity_limit" "must be in 1..=10000") ;?
  let selected := List.filter
    (fun id => starts_with id prefix
               && match after_exclusive with None => true | Some cursor => str_ltb cursor id end)
    (map st_entity_id (db_states db)) in
  Ok (take (Z.to_nat limit) (sort_dedup selected)).
Definition entity_ids (db : Database) (prefix : string) (limit : Z) : res StoreError (list string) :=
  entity_ids_after db prefix None limit.

(** *** Verification *)

(** The loop of [Store::verify_chain] over the rows of [events]. *)
Fixpoint verify_events (rows : list EventRow) (expected_previous : StoreDigestV1) (expected_sequence : Z)
    : res StoreError (StoreDigestV1 * Z) :=
  match rows with
  | [] => Ok (expected_previous, expected_sequence)
  | row :: rows' =>
      let? sequence := to_u64 (er_sequence row) "event sequence" in
      reject_if (negb (sequence =? expected_sequence)%Z) (Corrupt (EventSequenceGap expected_sequence sequence)) ;?
      let? previous_digest := store_digest_parse (er_previous_digest row) in
      verify_canonical_stored_json (er_payload_jcs row) "event payload" ;?
      let? payload_digest := store_digest_parse (er_payload_digest row) in
      let? state_digest := store_digest_parse (er_state_digest row) in
      let? event_digest := store_digest_parse (er_event_digest row) in
      reject_if (previous_digest != expected_previous) (Corrupt (PredecessorMismatch sequence)) ;?
      reject_if (hash_domain PAYLOAD_DOMAIN (er_payload_jcs row) != payload_digest)
        (Corrupt (PayloadDigestMismatch sequence)) ;?
      let? actual_event := event_digest_for
        (mkHashInput sequence (er_event_id row) (er_entity_id row) (er_event_kind row) (er_occurred_at_unix_ms row)
           previous_digest payload_digest state_digest) in
      reject_if (actual_event != event_digest) (Corrupt (EventDigestMismatch sequence)) ;?
      verify_events rows' event_digest (expected_sequence + 1)
  end.

(** The loop over the rows of [materialized_state]. *)
Definition find_event (sequence : Z) (l : list EventRow) : option EventRow :=
  List.find (fun r => (er_sequence r =? sequence)%Z) l.
Fixpoint verify_states (events : list EventRow) (rows : list StateRow) : res StoreError unit :=
  match rows with
  | [] => Ok tt
  | row :: rows' =>
      verify_canonical_stored_json (st_state_jcs row) "materialized state" ;?
      let? state_digest := store_digest_parse (st_state_digest row) in
      let? event_digest := store_digest_parse (st_last_event_digest row) in
      reject_if (hash_domain STATE_DOMAIN (st_state_jcs row) != state_digest)
        (Corrupt (StateDigestMismatch (st_entity_id row))) ;?
      let linked := option_map (fun e => (er_entity_id e, er_state_digest e, er_event_digest e))
                      (find_event (st_last_event_sequence row) events) in
      reject_if (linked != Some (st_entity_id row, digest_str state_digest, digest_str event_digest))
        (Corrupt (StateBindingMismatch (st_entity_id row))) ;?
      verify_states events rows'
  end.

(** [verify_chain_connection]; [Store::verify_chain] repeats its text. *)
Definition verify_chain_connection (db : Database) (identity : StoreIdentityV1) : res StoreError ChainHeadV1 :=
  let? genesis := genesis_digest identity in
  let? (expected_previous, expected_sequence) := verify_events (db_events db) genesis 1 in
  let? head := chain_head db in
  reject_if (negb (ch_sequence head =? expected_sequence - 1)%Z || (ch_digest head != expected_previous))
    (Corrupt HeadMismatch) ;?
  verify_states (db_events db) (db_states db) ;?
  Ok head.
Definition verify_chain (identity : StoreIdentityV1) (db : Database) : res StoreError ChainHeadV1 :=
  verify_chain_connection db identity.

(** [event_receipt_by_sequence]. *)
Definition event_receipt_by_sequence (db : Database) (sequence : Z) : res StoreError EventReceiptV1 :=
  let? row := ok_or (Sqlite QueryReturnedNoRows) (find_event sequence (db_events db)) in
  let entity_revision := Z.of_nat (length (List.filter
    (fun r => (er_entity_id r == er_entity_id row) && (er_sequence r <=? sequence)%Z) (db_events db))) in
  let? sequence_u64 := to_u64 sequence "event sequence" in
  let? previous := store_digest_parse (er_previous_digest row) in
  let? event_digest := store_digest_parse (er_event_digest row) in
  let? revision := to_u64 entity_revision "entity revision" in
  let? state_digest := store_digest_parse (er_state_digest row) in
  Ok (mkReceipt sequence_u64 (er_event_id row) previous event_digest revision state_digest).

(** ** Opening *)

(** [insert_activation]. *)
Definition insert_activation (identity : StoreActivationIdentityV1) (activated_at_unix_ms : Z) : Tx unit := fun db =>
  activation_validate identity ;?
  let? identity_jcs := jcs identity in
  let activation_digest := hash_domain ACTIVATION_SCHEMA identity_jcs in
  reject_if (match db_activation db with Some _ => true | None => false end) (Sqlite ConstraintViolation) ;?
  Ok (set_activation db (mkActivationRow identity_jcs (digest_str activation_digest) activated_at_unix_ms), tt).

(** [load_activation]; [decode] is [serde_json::from_slice] for the identity. *)
Definition load_activation (decode : bytes -> string + StoreActivationIdentityV1) (db : Database)
    : res StoreError (option StoreActivationRecordV1) :=
  match db_activation db with
  | None => Ok None
  | Some row =>
      verify_canonical_stored_json (av_activation_jcs row) "store activation identity" ;?
      let? identity := match decode (av_activation_jcs row) with
                       | inl m => Err (InvalidStoredJson m)
                       | inr x => Ok x
                       end in
      activation_validate identity ;?
      let? stored_digest := store_digest_parse (av_activation_digest row) in
      let actual_digest := hash_domain ACTIVATION_SCHEMA (av_activation_jcs row) in
      reject_if (stored_digest != actual_digest) (Corrupt ActivationDigestMismatch) ;?
      Ok (Some (mkActivationRecord identity stored_digest (av_activated_at_unix_ms row)))
  end.

(** The transaction that creates the schema, in [initialize_or_validate]. *)
Definition initialize (expected : StoreIdentityV1) (expected_activation : option (StoreActivationIdentityV1 * Z))
    : Tx unit := fun db =>
  let? genesis := genesis_digest expected in
  let created := mkDatabase
    (Some (mkIdentityRow (sid_application_id expected) (sid_application_name expected) (sid_schema_name expected)
             (sid_schema_version expected) (digest_str (sid_schema_digest expected))))
    (sid_application_id expected) (sid_schema_version expected) None None
    (Some (mkHeadRow 0 (digest_str genesis))) [] [] [] [] [] in
  match expected_activation with
  | Some (activation, activated_at) => insert_activation activation activated_at created
  | None => Ok (created, tt)
  end.

(** The checks of [initialize_or_validate] on a database that has its tables. *)
Definition validate_opened (decode : bytes -> string + StoreActivationIdentityV1)
    (expected : StoreIdentityV1) (expected_activation : option (StoreActivationIdentityV1 * Z))
    (allow_initialization : bool) (db : Database) : res StoreError (option StoreActivationRecordV1) :=
  let? row := ok_or (Sqlite QueryReturnedNoRows) (db_store_identity db) in
  let? schema_digest := map_err (fun _ => Sqlite FromSqlConversionFailure) (store_digest_parse (ir_schema_digest row)) in
  let actual := mkStoreIdentity (ir_application_id row) (ir_application_name row) (ir_schema_name row)
                  (ir_schema_version row) schema_digest in
  reject_if ((actual != expected) || negb (db_pragma_application_id db =? sid_application_id expected)%Z
             || negb (db_pragma_user_version db =? sid_schema_version expected)%Z)
    (IdentityMismatch expected actual) ;?
  let? actual_activation := load_activation decode db in
  match expected_activation, actual_activation with
  | None, None => if allow_initialization then Ok None else Err ActivationIdentityMissing
  | Some _, None => Err ActivationIdentityMissing
  | Some (e, _), Some a =>
      if ar_identity a != e then Err (ActivationIdentityMismatch e (ar_identity a)) else Ok (Some a)
  | None, Some _ => Err ActivationIdentityRequired
  end.

(** [initialize_or_validate]: what the first transaction committed stays when a
    later check fails. *)
Definition initialize_or_validate (decode : bytes -> string + StoreActivationIdentityV1)
    (expected : StoreIdentityV1) (expected_activation : option (StoreActivationIdentityV1 * Z))
    (allow_initialization : bool) : Op (option StoreActivationRecordV1) := fun db =>
  and_then
    (match db_store_identity db with
     | Some _ => (db, Ok tt)
     | None =>
         if allow_initialization then commit (initialize expected expected_activation) db
         else (db, Err UnrecognizedExistingDatabase)
     end)
    (fun _ db => (db, validate_opened decode expected expected_activation allow_initialization db)).

(** [claim_writer]. *)
Definition claim_writer (writer : WriterIdentityV1) : Tx unit := fun db =>
  let generation := match db_writer_fence db with Some f => (fr_generation f + 1)%Z | None => 1%Z end in
  Ok (set_fence db (mkFenceRow generation writer), tt).

(** [read_store_identity]. *)
Definition read_store_identity (db : Database) : res StoreError StoreIdentityV1 :=
  let? row := ok_or (Sqlite QueryReturnedNoRows) (db_store_identity db) in
  let? schema_digest := store_digest_parse (ir_schema_digest row) in
  let identity := mkStoreIdentity (ir_application_id row) (ir_application_name row) (ir_schema_name row)
                    (ir_schema_version row) schema_digest in
  identity_validate identity ;?
  reject_if (negb (db_pragma_application_id db =? sid_application_id identity)%Z
             || negb (db_pragma_user_version db =? sid_schema_version identity)%Z)
    (Corrupt PragmaIdentityMismatch) ;?
  Ok identity.

(** The database part of [Store::open_prepared_internal], behind the guards of
    [Store::open], [::open_activated] and [::open_activated_prepared]:
    [created_new] says whether the preparation created the file. *)
Definition open_prepared (decode : bytes -> string + StoreActivationIdentityV1) (created_new : bool)
    (identity : StoreIdentityV1) (activation : option StoreActivationIdentityV1) (writer : WriterIdentityV1)
    : Op (option StoreActivationRecordV1) := fun db =>
  let expected_activation := option_map (fun a => (a, wr_claimed_at_unix_ms writer)) activation in
  and_then (initialize_or_validate decode identity expected_activation created_new db)
    (fun enrolled db => and_then (commit (claim_writer writer) db) (fun _ db => (db, Ok enrolled))).
Definition open_store (decode : bytes -> string + StoreActivationIdentityV1) (created_new : bool)
    (identity : StoreIdentityV1) (activation : option StoreActivationIdentityV1) (writer : WriterIdentityV1)
    : Op (option StoreActivationRecordV1) := fun db =>
  match (identity_validate identity ;?
         match activation with Some a => activation_validate a | None => Ok tt end ;?
         writer_validate writer) with
  | Ok _ => open_prepared decode created_new identity activation writer db
  | Err e => (db, Err e)
  | Panic => (db, Panic)
  end.

End Store.
