(* ===== verification/StoreLog.v ===== *)
(** * The store as an append-only log (ag-store/src/lib.rs)

    The abstract view of the event and state tables is a [Log]: the committed
    events, each with the canonical bytes of its payload and of the state it
    installed.  [represents] says that a database is the image of a log; the
    operations are shown to extend the log by one event or to leave it alone,
    [verify_chain] to accept every image, and two verified stores with one head
    to have one history, up to a hash collision. *)

From S2P Require Import Prelude Wire Fixture Digest Names Origin Store.

Record Committed : Type := mkCommitted {
  cm_event_id : string;
  cm_entity_id : string;
  cm_event_kind : string;
  cm_occurred_at_unix_ms : Z;
  cm_payload : bytes;
  cm_state : bytes
}.
Definition Log : Type := list Committed.

(** How often an entity was written, and the last state it was given. *)
Definition log_count (entity_id : string) (L : Log) : nat :=
  length (List.filter (fun c => cm_entity_id c == entity_id) L).
Definition log_last (entity_id : string) (L : Log) : option Committed :=
  last (List.filter (fun c => cm_entity_id c == entity_id) L).

Definition EVENT_DOMAIN : string := "ag-store-event-v1".

(** The tables a log determines. *)
Record View : Type := mkView { vw_events : list EventRow; vw_states : list StateRow; vw_head : StoreDigestV1 }.

Section Log.
  Context `{Deps}.

Definition input_of (sequence : Z) (previous : StoreDigestV1) (c : Committed) : EventHashInputV1 :=
  mkHashInput sequence (cm_event_id c) (cm_entity_id c) (cm_event_kind c) (cm_occurred_at_unix_ms c) previous
    (hash_domain PAYLOAD_DOMAIN (cm_payload c)) (hash_domain STATE_DOMAIN (cm_state c)).
Definition event_row (sequence : Z) (previous digest : StoreDigestV1) (c : Committed) : EventRow :=
  mkEventRow sequence (cm_event_id c) (cm_entity_id c) (cm_event_kind c) (cm_occurred_at_unix_ms c)
    (digest_str previous) (cm_payload c) (digest_str (hash_domain PAYLOAD_DOMAIN (cm_payload c)))
    (digest_str (hash_domain STATE_DOMAIN (cm_state c))) (digest_str digest).
(** The record a row's digest is computed from. *)
Definition row_input (r : EventRow) : EventHashInputV1 :=
  mkHashInput (er_sequence r) (er_event_id r) (er_entity_id r) (er_event_kind r) (er_occurred_at_unix_ms r)
    (mkDigest (er_previous_digest r)) (mkDigest (er_payload_digest r)) (mkDigest (er_state_digest r)).
Definition state_row (revision sequence : Z) (digest : StoreDigestV1) (c : Committed) : StateRow :=
  mkStateRow (cm_entity_id c) revision (cm_state c) (digest_str (hash_domain STATE_DOMAIN (cm_state c))) sequence
    (digest_str digest).

(** One more event. *)
Definition view_append (L : Log) (v : View) (c : Committed) (digest : StoreDigestV1) : View :=
  let sequence := (Z.of_nat (length L) + 1)%Z in
  mkView (vw_events v ++ [event_row sequence (vw_head v) digest c])
    (upsert_row (state_row (Z.of_nat (log_count (cm_entity_id c) L) + 1) sequence digest c) (vw_states v))
    digest.

(** Canonical bytes, as the store writes them. *)
Definition committed_ok (c : Committed) : Prop :=
  from_canonical_bytes (cm_payload c) = Ok (mkJcsDocument (cm_payload c)) /\
  from_canonical_bytes (cm_state c) = Ok (mkJcsDocument (cm_state c)).

(** The tables of a log over the genesis digest [g]; every hashed record is
    I-JSON data. *)
Inductive chain (g : StoreDigestV1) : Log -> View -> Prop :=
  | chain_nil : chain g [] (mkView [] [] g)
  | chain_snoc L v c b :
      chain g L v -> committed_ok c -> cm_event_id c ∉ map cm_event_id L ->
      encodes (input_of (Z.of_nat (length L) + 1) (vw_head v) c) b ->
      chain g (L ++ [c]) (view_append L v c (hash_domain EVENT_DOMAIN b)).

(** The database is the image of the log. *)
Definition represents (identity : StoreIdentityV1) (db : Database) (L : Log) : Prop :=
  exists bg v, encodes identity bg /\
    chain (hash_domain "ag-store-event-chain-genesis-v1" bg) L v /\
    db_events db = vw_events v /\ db_states db = vw_states v /\
    db_chain_head db = Some (mkHeadRow (Z.of_nat (length L)) (digest_str (vw_head v))).

(** ** Lemmas on chains *)

Lemma jcs_encodes `{!JcsLaws} `{Serialize T} (x : T) b : encodes x b -> jcs x = Ok b.
Proof.
  intros (Hx & Hb & _). unfold jcs. destruct (canonicalize_ijson _ Hx) as (b' & Hb' & -> & _).
  simpl. congruence.
Qed.

Lemma encoded_canonical `{!JcsLaws} `{Serialize T} (x : T) b :
  encodes x b -> from_canonical_bytes b = Ok (mkJcsDocument b).
Proof.
  intros (Hx & Hb & _). destruct (canonicalize_ijson _ Hx) as (b' & Hb' & _ & Hp).
  assert (b' = b) as -> by congruence. unfold from_canonical_bytes. rewrite Hp. simpl.
  by rewrite bool_decide_eq_true_2.
Qed.

Lemma digest_jcs_encodes `{!JcsLaws} `{Serialize T} domain (x : T) b :
  encodes x b -> digest_jcs domain x = Ok (hash_domain domain b).
Proof. intros Hx. unfold digest_jcs. by rewrite (jcs_encodes x b Hx). Qed.

Lemma store_digest_hash `{!HexLaws, !Sha256Laws} domain b :
  store_digest_parse (digest_str (hash_domain domain b)) = Ok (hash_domain domain b).
Proof.
  unfold store_digest_parse. apply map_err_ok, digest_parse_spec. split; [|apply hash_bytes_canonical].
  by destruct (hash_domain domain b).
Qed.

Lemma chain_length g L v : chain g L v -> length (vw_events v) = length L.
Proof. induction 1 as [|L v c b Hc IH]; [done|]. simpl. rewrite !length_app. simpl. lia. Qed.

(** The rows carry the sequence numbers 1, 2, ... and the log's identifiers. *)
Lemma chain_rows g L v :
  chain g L v ->
  map er_event_id (vw_events v) = map cm_event_id L /\
  map er_entity_id (vw_events v) = map cm_entity_id L /\
  forall i row, vw_events v !! i = Some row -> er_sequence row = (Z.of_nat i + 1)%Z.
Proof.
  induction 1 as [|L v c b Hc (IH1 & IH2 & IH3)]; [done|]. simpl. rewrite !map_app, IH1, IH2. split_all; [done..|].
  intros i row Hi. apply lookup_app_Some in Hi as [Hi|[Hl Hi]]; [by apply IH3|].
  apply list_lookup_singleton_Some in Hi as [Hi <-]. simpl. rewrite (chain_length _ _ _ Hc) in *. lia.
Qed.

Lemma chain_sequences g L v row :
  chain g L v -> row ∈ vw_events v -> (0 < er_sequence row <= Z.of_nat (length L))%Z.
Proof.
  intros Hc (i & Hi)%list_elem_of_lookup. rewrite (proj2 (proj2 (chain_rows _ _ _ Hc)) i row Hi).
  apply lookup_lt_Some in Hi. rewrite (chain_length _ _ _ Hc) in Hi. lia.
Qed.

Lemma row_input_event sequence previous digest c : row_input (event_row sequence previous digest c) = input_of sequence previous c.
Proof. unfold row_input, event_row, input_of. cbn. by destruct previous. Qed.
(** Every row's digest is the hash of its input. *)
Lemma chain_digests g L v row :
  chain g L v -> row ∈ vw_events v ->
  exists b, encodes (row_input row) b /\ er_event_digest row = digest_str (hash_domain EVENT_DOMAIN b).
Proof.
  intros Hc. induction Hc as [|L v c b Hc IH Hok Hfresh Hb]; [by intros ?%elem_of_nil|].
  simpl. rewrite elem_of_app, list_elem_of_singleton. intros [Hr| ->]; [by apply IH|].
  exists b. by rewrite row_input_event.
Qed.

Lemma chain_head_hash g bg L v :
  g = hash_domain "ag-store-event-chain-genesis-v1" bg -> chain g L v ->
  exists domain b, vw_head v = hash_domain domain b.
Proof. intros -> []; simpl; eauto. Qed.

Lemma find_state_upsert e row l :
  find_state e (upsert_row row l) = if st_entity_id row == e then Some row else find_state e l.
Proof.
  unfold find_state. induction l as [|r l IH]; simpl.
  { by destruct (st_entity_id row == e). }
  destruct (decide (st_entity_id r = st_entity_id row)) as [Hr|Hr].
  - rewrite (bool_decide_eq_true_2 (st_entity_id r = st_entity_id row)) by done. simpl. rewrite Hr.
    by destruct (st_entity_id row == e).
  - rewrite (bool_decide_eq_false_2 (st_entity_id r = st_entity_id row)) by done. simpl.
    destruct (decide (st_entity_id r = e)) as [He|He].
    + rewrite (bool_decide_eq_true_2 (st_entity_id r = e)) by done.
      rewrite bool_decide_eq_false_2; [done | congruence].
    + by rewrite (bool_decide_eq_false_2 (st_entity_id r = e)).
Qed.

Lemma log_count_snoc e L c :
  log_count e (L ++ [c]) = log_count e L + (if cm_entity_id c == e then 1 else 0).
Proof.
  unfold log_count. rewrite List.filter_app, length_app. simpl. by destruct (cm_entity_id c == e).
Qed.

Lemma log_last_snoc e L c :
  log_last e (L ++ [c]) = if cm_entity_id c == e then Some c else log_last e L.
Proof.
  unfold log_last. rewrite List.filter_app. simpl. destruct (cm_entity_id c == e); [|by rewrite app_nil_r].
  apply last_snoc.
Qed.

Lemma log_count_le e L : log_count e L <= length L.
Proof. unfold log_count. induction L as [|c L IH]; simpl; [lia|]. destruct (cm_entity_id c == e); simpl; lia. Qed.

(** The state table holds the last state of every entity written, with the number
    of writes as its revision. *)
Lemma chain_states g L v e :
  chain g L v ->
  match find_state e (vw_states v), log_last e L with
  | Some r, Some c =>
      st_entity_id r = e /\ st_revision r = Z.of_nat (log_count e L) /\ st_state_jcs r = cm_state c /\ 0 < log_count e L
  | None, None => log_count e L = 0
  | _, _ => False
  end.
Proof.
  induction 1 as [|L v c b Hc IH]; [done|]. simpl. rewrite find_state_upsert, log_last_snoc, log_count_snoc. simpl.
  destruct (decide (cm_entity_id c = e)) as [He|He].
  - rewrite !(bool_decide_eq_true_2 (cm_entity_id c = e)) by done. subst e. simpl. split_all; [done | lia | done | lia].
  - rewrite !(bool_decide_eq_false_2 (cm_entity_id c = e)) by done. rewrite Nat.add_0_r. exact IH.
Qed.

Lemma chain_revision g L v e :
  chain g L v ->
  match find_state e (vw_states v) with Some r => st_revision r | None => 0%Z end = Z.of_nat (log_count e L).
Proof.
  intros Hc. pose proof (chain_states g L v e Hc) as Hs.
  destruct (find_state e (vw_states v)), (log_last e L); [tauto | done | done | by rewrite Hs].
Qed.

(** A state row is backed by the event that installed it. *)
Definition backed (events : list EventRow) (r : StateRow) : Prop :=
  exists row b, row ∈ events /\ er_sequence row = st_last_event_sequence r /\
    er_entity_id row = st_entity_id r /\ er_state_digest row = st_state_digest r /\
    er_event_digest row = st_last_event_digest r /\
    st_last_event_digest r = digest_str (hash_domain EVENT_DOMAIN b) /\
    st_state_digest r = digest_str (hash_domain STATE_DOMAIN (st_state_jcs r)) /\
    from_canonical_bytes (st_state_jcs r) = Ok (mkJcsDocument (st_state_jcs r)).

Lemma backed_mono events events' r : events ⊆ events' -> backed events r -> backed events' r.
Proof. intros He (row & b & Hr & Hrest). exists row, b. split; [by apply He | done]. Qed.

Lemma elem_of_upsert r row l : r ∈ upsert_row row l -> r = row \/ r ∈ l.
Proof.
  induction l as [|x l IH]; simpl; [rewrite list_elem_of_singleton; by left|].
  destruct (st_entity_id x == st_entity_id row); rewrite !elem_of_cons; naive_solver.
Qed.

Lemma chain_backed g L v r : chain g L v -> r ∈ vw_states v -> backed (vw_events v) r.
Proof.
  induction 1 as [|L v c b Hc IH Hok Hfresh Hb]; [by intros ?%elem_of_nil|]. simpl.
  intros [->|Hr]%elem_of_upsert.
  - eexists _, b. split; [by apply elem_of_app; right; apply list_elem_of_singleton|]. simpl. by destruct Hok.
  - eapply backed_mono; [|by apply IH]. intros x Hx. apply elem_of_app. by left.
Qed.

Lemma find_event_chain g L v row :
  chain g L v -> row ∈ vw_events v -> find_event (er_sequence row) (vw_events v) = Some row.
Proof.
  intros Hc Hr. destruct (find_event (er_sequence row) (vw_events v)) as [x|] eqn:Hf.
  - unfold find_event in Hf. apply find_some in Hf as [Hx Hs%Z.eqb_eq].
    apply list_elem_of_In in Hx. apply list_elem_of_lookup in Hx as [i Hi], Hr as [j Hj].
    pose proof (proj2 (proj2 (chain_rows _ _ _ Hc))) as Hseq.
    rewrite (Hseq i x Hi), (Hseq j row Hj) in Hs. assert (i = j) as -> by lia. congruence.
  - apply list_elem_of_In in Hr. eapply find_none in Hf; [|exact Hr]. simpl in Hf. lia.
Qed.

(** ** Verification accepts every image *)

Section Verifies.
  Context `{!JcsLaws, !HexLaws, !Sha256Laws}.

Lemma to_u64_nonneg z field : (0 <= z)%Z -> to_u64 z field = Ok z.
Proof. intros Hz. unfold to_u64. by rewrite (proj2 (Z.ltb_ge z 0) Hz). Qed.

Lemma to_i64_small z field : (z <= I64_MAX)%Z -> to_i64 z field = Ok z.
Proof. intros Hz. unfold to_i64. by rewrite (proj2 (Z.ltb_ge I64_MAX z) Hz). Qed.

Lemma verify_canonical_ok b label :
  from_canonical_bytes b = Ok (mkJcsDocument b) -> verify_canonical_stored_json b label = Ok tt.
Proof. intros Hb. unfold verify_canonical_stored_json. by rewrite Hb. Qed.

Lemma event_digest_encodes i b : encodes i b -> event_digest_for i = Ok (hash_domain EVENT_DOMAIN b).
Proof. apply digest_jcs_encodes. Qed.

Lemma verify_events_app l l' previous n :
  verify_events (l ++ l') previous n =
  (let? (previous', n') := verify_events l previous n in verify_events l' previous' n').
Proof.
  revert previous n. induction l as [|row l IH]; intros previous n; [done|]. simpl.
  repeat (match goal with |- res_bind ?m _ = _ => destruct m; simpl; [|done|done] end). apply IH.
Qed.

Lemma verify_events_chain g bg L v :
  g = hash_domain "ag-store-event-chain-genesis-v1" bg -> chain g L v ->
  verify_events (vw_events v) g 1 = Ok (vw_head v, Z.of_nat (length L) + 1)%Z.
Proof.
  intros Hg Hc. induction Hc as [|L v c b Hc IH [Hp Hs] Hfresh Hb]; [done|]. simpl.
  rewrite verify_events_app, IH. cbn [res_bind verify_events event_row er_sequence er_previous_digest er_payload_jcs
    er_payload_digest er_state_digest er_event_digest er_event_id er_entity_id er_event_kind er_occurred_at_unix_ms].
  rewrite to_u64_nonneg by lia. cbn [res_bind]. rewrite Z.eqb_refl. cbn [negb reject_if res_bind].
  destruct (chain_head_hash g bg L v Hg Hc) as (dom & bh & Hh). rewrite Hh, store_digest_hash. cbn [res_bind].
  rewrite (verify_canonical_ok _ _ Hp). cbn [res_bind]. rewrite !store_digest_hash. cbn [res_bind].
  rewrite !bool_decide_eq_true_2 by done. cbn [negb reject_if res_bind]. rewrite Hh in Hb.
  rewrite (event_digest_encodes _ b Hb : event_digest_for (mkHashInput _ _ _ _ _ _ _ _) = _). cbn [res_bind].
  rewrite bool_decide_eq_true_2 by done. cbn [negb reject_if res_bind]. rewrite length_app. simpl. do 2 f_equal. lia.
Qed.

Lemma verify_states_backed g L v rows :
  chain g L v -> (forall r, r ∈ rows -> backed (vw_events v) r) -> verify_states (vw_events v) rows = Ok tt.
Proof.
  intros Hc. induction rows as [|r rows IH]; intros Hb; [done|]. simpl.
  destruct (Hb r) as (row & b & Hrow & Hseq & Hent & Hsd & Hed & Hevent & Hstate & Hcan); [by left|].
  rewrite (verify_canonical_ok _ _ Hcan). cbn [res_bind]. rewrite Hstate, Hevent, !store_digest_hash. cbn [res_bind].
  rewrite bool_decide_eq_true_2 by done. cbn [negb reject_if res_bind].
  rewrite <- Hseq, (find_event_chain g L v row Hc Hrow). cbn [option_map].
  rewrite bool_decide_eq_true_2 by congruence. cbn [negb reject_if res_bind].
  apply IH. intros x Hx. apply Hb. by right.
Qed.

Lemma chain_head_of db domain b n :
  db_chain_head db = Some (mkHeadRow (Z.of_nat n) (digest_str (hash_domain domain b))) ->
  chain_head db = Ok (mkHead (Z.of_nat n) (hash_domain domain b)).
Proof.
  intros Hh. unfold chain_head. rewrite Hh. cbn [ok_or res_bind hr_sequence hr_digest].
  rewrite to_u64_nonneg by lia. cbn [res_bind]. by rewrite store_digest_hash.
Qed.

Lemma verify_chain_represents identity db L :
  represents identity db L ->
  exists head, verify_chain identity db = Ok head /\ ch_sequence head = Z.of_nat (length L).
Proof.
  intros (bg & v & Hid & Hc & He & Hs & Hh).
  destruct (chain_head_hash _ bg L v eq_refl Hc) as (dom & b & Hhead). exists (mkHead (Z.of_nat (length L)) (vw_head v)).
  split; [|done]. unfold verify_chain, verify_chain_connection, genesis_digest.
  rewrite (digest_jcs_encodes _ _ _ Hid). cbn [res_bind]. rewrite He, Hs, (verify_events_chain _ bg L v eq_refl Hc).
  cbn [res_bind]. rewrite Hhead in Hh |- *. rewrite (chain_head_of db _ _ _ Hh). cbn [res_bind ch_sequence ch_digest].
  rewrite (proj2 (Z.eqb_eq _ _)), bool_decide_eq_true_2 by (done || lia). cbn [negb orb reject_if res_bind].
  rewrite (verify_states_backed _ L v _ Hc); [done|]. intros r. by apply (chain_backed _ L v r Hc).
Qed.

End Verifies.

(** ** Appending *)

#[global] Instance EventHashInputV1_inj : SerializeInj EventHashInputV1.
Proof. ser_struct. Qed.

Definition committed_of {T} (event : NewEventV1 T) (payload state : bytes) : Committed :=
  mkCommitted (ne_event_id event) (ne_entity_id event) (ne_event_kind event) (ne_occurred_at_unix_ms event) payload state.

Lemma insert_at_end row l :
  (forall r, r ∈ l -> er_sequence r < er_sequence row)%Z -> insert_by_sequence row l = l ++ [row].
Proof.
  induction l as [|r l IH]; intros Hl; simpl; [done|].
  rewrite (proj2 (Z.ltb_ge _ _)); [|apply Z.lt_le_incl, Hl; by left]. rewrite IH; [done|].
  intros x Hx. apply Hl. by right.
Qed.

Lemma existsb_none {X} (f : X -> bool) l : (forall x, x ∈ l -> f x = false) -> existsb f l = false.
Proof.
  intros Hf. apply not_true_iff_false. rewrite existsb_exists. intros (x & Hx%list_elem_of_In & Ht).
  by rewrite (Hf x Hx) in Ht.
Qed.

Lemma insert_event_ok db row :
  (0 < er_sequence row)%Z ->
  (forall r, r ∈ db_events db -> (er_sequence r < er_sequence row)%Z /\ er_event_id r <> er_event_id row /\
     er_event_digest r <> er_event_digest row) ->
  insert_event row db = Ok (set_events db (db_events db ++ [row]), tt).
Proof.
  intros Hpos Hr. unfold insert_event. rewrite (proj2 (Z.leb_gt _ _)) by done. cbn [orb].
  assert (existsb (fun r => (er_sequence r =? er_sequence row)%Z || (er_event_id r == er_event_id row)
    || (er_event_digest r == er_event_digest row)) (db_events db) = false) as ->.
  { apply not_true_iff_false. rewrite existsb_exists. intros (r & Hin%list_elem_of_In & Ht).
    destruct (Hr r Hin) as (Hs & Hid & Hd). rewrite !orb_true_iff, Z.eqb_eq, !bool_decide_eq_true in Ht. intuition lia. }
  cbn [reject_if res_bind]. rewrite insert_at_end; [done|]. intros r Hin. by apply Hr.
Qed.

Lemma upsert_state_ok db row :
  (0 < st_revision row)%Z ->
  (forall r, r ∈ db_states db -> st_last_event_sequence r <> st_last_event_sequence row) ->
  (exists e, e ∈ db_events db /\ er_sequence e = st_last_event_sequence row) ->
  upsert_state row db = Ok (set_states db (upsert_row row (db_states db)), tt).
Proof.
  intros Hpos Hs (e & He & Hseq). unfold upsert_state. rewrite (proj2 (Z.leb_gt _ _)) by done. cbn [orb].
  assert (existsb (fun r => (st_entity_id r != st_entity_id row)
    && (st_last_event_sequence r =? st_last_event_sequence row)%Z) (db_states db) = false) as ->.
  { apply not_true_iff_false. rewrite existsb_exists. intros (r & Hin%list_elem_of_In & Ht).
    apply andb_true_iff in Ht as [_ Ht%Z.eqb_eq]. by apply (Hs r). }
  assert (existsb (fun r => (er_sequence r =? st_last_event_sequence row)%Z) (db_events db) = true) as ->.
  { apply existsb_exists. exists e. split; [by apply list_elem_of_In | by apply Z.eqb_eq]. }
  done.
Qed.

Section Appends.
  Context `{!JcsLaws, !HexLaws, !Sha256Laws}.

(** The hashed form of an event collides with that of a stored row. *)
Definition clashes (rows : list EventRow) (b : bytes) : Prop :=
  exists row b', row ∈ rows /\ encodes (row_input row) b' /\ collision (domain_preimage EVENT_DOMAIN b) (domain_preimage EVENT_DOMAIN b').
(** A new event's digest repeats an old one only at the price of a collision. *)
Lemma fresh_digest g L v c b :
  chain g L v -> encodes (input_of (Z.of_nat (length L) + 1) (vw_head v) c) b ->
  (forall row, row ∈ vw_events v -> er_event_digest row <> digest_str (hash_domain EVENT_DOMAIN b)) \/
  clashes (vw_events v) b.
Proof.
  intros Hc Hb.
  destruct (decide (Exists (fun row => er_event_digest row = digest_str (hash_domain EVENT_DOMAIN b)) (vw_events v)))
    as [(row & Hrow & Hd)%Exists_exists|Hn].
  - right. destruct (chain_digests _ _ _ row Hc Hrow) as (b' & Hb' & Hd'). exists row, b'. split; [done|]. split; [done|].
    assert (hash_domain EVENT_DOMAIN b = hash_domain EVENT_DOMAIN b') as He.
    { destruct (hash_domain EVENT_DOMAIN b), (hash_domain EVENT_DOMAIN b'). simpl in *. congruence. }
    pose proof Hb as (Hx & Hj & Hl). pose proof Hb' as (Hx' & Hj' & Hl').
    destruct (hash_domain_binds EVENT_DOMAIN b EVENT_DOMAIN b') as [[_ <-]|]; try done. exfalso.
    pose proof (to_value_inj _ _ (canon_injective_encoding _ _ b Hx Hx' Hj Hj')) as Hi.
    apply (f_equal hi_sequence) in Hi. simpl in Hi. pose proof (chain_sequences _ _ _ row Hc Hrow). lia.
  - left. intros row Hrow Hd. apply Hn, Exists_exists. by exists row.
Qed.

Lemma hash_input_sequence (i : EventHashInputV1) b : encodes i b -> (Z.abs (hi_sequence i) <= JSON_SAFE_MAX)%Z.
Proof.
  intros (Hi & _). eapply (ijson_member "sequence" (VNumber (hi_sequence i))) in Hi; [|apply list_elem_of_here].
  by apply Z.leb_le.
Qed.

(** What an append reads from an image. *)
Lemma image_reads db bg L v e :
  let g := hash_domain "ag-store-event-chain-genesis-v1" bg in
  chain g L v -> db_states db = vw_states v ->
  db_chain_head db = Some (mkHeadRow (Z.of_nat (length L)) (digest_str (vw_head v))) ->
  chain_head db = Ok (mkHead (Z.of_nat (length L)) (vw_head v)) /\
  materialized_revision db e = Ok (Z.of_nat (log_count e L)).
Proof.
  intros g Hc Hs Hh. destruct (chain_head_hash _ bg L v eq_refl Hc) as (dom & b & Hvh). split.
  - rewrite Hvh in *. by apply chain_head_of.
  - unfold materialized_revision. rewrite Hs, (chain_revision _ L v e Hc). apply to_u64_nonneg. lia.
Qed.

(** The tables an accepted append leaves. *)
Lemma append_accepts db bg L v `{Serialize P, Serialize A} (event : NewEventV1 P) (state : A) bp bs b :
  let g := hash_domain "ag-store-event-chain-genesis-v1" bg in
  let c := committed_of event bp bs in
  let count := Z.of_nat (log_count (ne_entity_id event) L) in
  let d := hash_domain EVENT_DOMAIN b in
  let v' := view_append L v c d in
  chain g L v -> db_events db = vw_events v -> db_states db = vw_states v ->
  db_chain_head db = Some (mkHeadRow (Z.of_nat (length L)) (digest_str (vw_head v))) ->
  encodes (ne_payload event) bp -> encodes state bs ->
  encodes (input_of (Z.of_nat (length L) + 1) (vw_head v) c) b ->
  validate_event event = Ok tt -> ne_event_id event ∉ map cm_event_id L ->
  (forall row, row ∈ vw_events v -> er_event_digest row <> digest_str d) ->
  append_event_in_transaction event state count db =
  Ok (set_head (set_states (set_events db (vw_events v')) (vw_states v')) (mkHeadRow (Z.of_nat (length L) + 1) (digest_str d)),
      mkReceipt (Z.of_nat (length L) + 1) (ne_event_id event) (vw_head v) d (count + 1) (hash_domain STATE_DOMAIN bs)).
Proof.
  intros g c count d v' Hc He Hs Hh Hbp Hbs Hb Hvalid Hnew Hfresh.
  destruct (image_reads db bg L v (ne_entity_id event) Hc Hs Hh) as [Hhead Hrev].
  pose proof (hash_input_sequence _ _ Hb) as Hlen. simpl in Hlen.
  pose proof (log_count_le (ne_entity_id event) L) as Hle.
  assert (JSON_SAFE_MAX < I64_MAX /\ I64_MAX < U64_MAX)%Z as [Hm1 Hm2] by done.
  pose proof (chain_rows _ _ _ Hc) as (Hids & _ & _).
  assert (forall r, r ∈ db_events db -> er_event_id r <> ne_event_id event) as Hid.
  { intros r Hr Hre. apply Hnew. rewrite <- Hids, <- He. apply elem_map_iff. by exists r. }
  unfold append_event_in_transaction. rewrite Hvalid. cbn [res_bind].
  rewrite existsb_none.
  2: { intros r Hr. by apply bool_decide_eq_false, Hid. }
  cbn [reject_if res_bind]. rewrite Hhead, Hrev. cbn [res_bind]. fold count. rewrite Z.eqb_refl.
  cbn [negb reject_if res_bind ch_sequence ch_digest]. unfold checked_add_u64.
  rewrite !(proj2 (Z.leb_le _ _)) by lia. cbn [ok_or res_bind].
  rewrite (jcs_encodes _ _ Hbp), (jcs_encodes _ _ Hbs). cbn [res_bind].
  change (event_digest_for _) with (event_digest_for (input_of (Z.of_nat (length L) + 1) (vw_head v) c)).
  rewrite (event_digest_encodes _ b Hb). cbn [res_bind]. fold d.
  rewrite to_i64_small by lia. cbn [res_bind]. rewrite insert_event_ok; cbn [er_sequence er_event_id er_event_digest]; [|lia|].
  2: { intros r Hr. split_all; [|by apply Hid|by apply Hfresh; rewrite <- He].
       rewrite He in Hr. pose proof (chain_sequences _ _ _ r Hc Hr). lia. }
  cbn [res_bind]. rewrite to_i64_small by lia. cbn [res_bind].
  rewrite upsert_state_ok; cbn [st_revision st_last_event_sequence]; [|lia| |].
  2: { simpl. rewrite Hs. intros r Hr. destruct (chain_backed _ _ _ r Hc Hr) as (row & ? & Hrow & <- & _).
       pose proof (chain_sequences _ _ _ row Hc Hrow). lia. }
  2: { simpl. eexists. split; [apply elem_of_app; right; by apply list_elem_of_singleton | done]. }
  cbn [res_bind]. rewrite to_i64_small by lia. cbn [res_bind].
  unfold update_chain_head. simpl. rewrite Hh. simpl. rewrite Z.eqb_refl, bool_decide_eq_true_2 by done. simpl.
  rewrite (proj2 (Z.ltb_ge _ _)) by lia. simpl. rewrite He, Hs. done.
Qed.

(** The outcome of an append to an image: the next image, or one of the errors. *)
Lemma append_in_tx_spec identity db L head `{Serialize P, Serialize A} (event : NewEventV1 P) (state : A) expected bp bs b :
  represents identity db L -> chain_head db = Ok head ->
  encodes (ne_payload event) bp -> encodes state bs ->
  let c := committed_of event bp bs in
  encodes (input_of (Z.of_nat (length L) + 1) (ch_digest head) c) b ->
  validate_event event = Ok tt ->
  let result := append_event_in_transaction event state expected db in
  let count := Z.of_nat (log_count (ne_entity_id event) L) in
  let fresh := ne_event_id event ∉ map cm_event_id L in
  (~ fresh /\ result = Err (DuplicateEvent (ne_event_id event))) \/
  (fresh /\ count <> expected /\ result = Err (RevisionConflict (ne_entity_id event) expected count)) \/
  (fresh /\ count = expected /\
   exists db', result = Ok (db', mkReceipt (Z.of_nat (length L) + 1) (ne_event_id event) (ch_digest head)
                              (hash_domain EVENT_DOMAIN b) (count + 1) (hash_domain STATE_DOMAIN bs)) /\
     represents identity db' (L ++ [c]) /\
     db_events db' = db_events db ++ [event_row (Z.of_nat (length L) + 1) (ch_digest head) (hash_domain EVENT_DOMAIN b) c] /\
     db' = set_head (set_states (set_events db (db_events db')) (db_states db'))
             (mkHeadRow (Z.of_nat (length L) + 1) (digest_str (hash_domain EVENT_DOMAIN b)))) \/
  clashes (db_events db) b.
Proof.
  intros (bg & v & Hidn & Hc & He & Hs & Hh) Hhead Hbp Hbs c Hb Hvalid result count fresh.
  destruct (image_reads db bg L v (ne_entity_id event) Hc Hs Hh) as [Hhead' Hrev].
  rewrite Hhead' in Hhead. injection Hhead as <-. cbn [ch_digest] in *.
  destruct (fresh_digest _ L v c b Hc Hb) as [Hfresh|]; [|right; right; right; by rewrite He].
  pose proof (chain_rows _ _ _ Hc) as (Hids & _ & _).
  assert (existsb (fun r => er_event_id r == ne_event_id event) (db_events db) = true <-> ~ fresh) as Hdup.
  { subst fresh. rewrite <- Hids, <- He, existsb_exists. setoid_rewrite bool_decide_eq_true.
    setoid_rewrite <- list_elem_of_In. rewrite <- (elem_map_iff er_event_id).
    destruct (decide (ne_event_id event ∈ map er_event_id (db_events db))); tauto. }
  destruct (decide fresh) as [Hnew|Hold].
  - right. destruct (decide (count = expected)) as [<-|Hne]; [right; left | left].
    + split_all; [done..|]. eexists. split; [by apply (append_accepts db bg L v event state bp bs b)|]. split; [|split; [by cbn; rewrite He|done]].
      exists bg. eexists. split_all; [done | | done | done |].
      { apply (chain_snoc _ L v c b Hc); [|done|done].
        split; [exact (encoded_canonical _ _ Hbp) | exact (encoded_canonical _ _ Hbs)]. }
      simpl. rewrite length_app. simpl. do 2 f_equal. lia.
    + split_all; [done..|]. subst result. unfold append_event_in_transaction. rewrite Hvalid. cbn [res_bind].
      destruct (existsb _ _); [by destruct (proj1 Hdup eq_refl)|]. cbn [reject_if res_bind].
      rewrite Hhead', Hrev. cbn [res_bind]. fold count. by rewrite (proj2 (Z.eqb_neq _ _) Hne).
  - left. split; [done|]. subst result. unfold append_event_in_transaction. rewrite Hvalid. cbn [res_bind].
    by rewrite (proj2 Hdup Hold).
Qed.

End Appends.

End Log.

(** ** Histories are bound by their heads *)

Section Histories.
  Context `{JcsLaws, !HexLaws, !Sha256Laws}.

Definition row_encodes (r : EventRow) : Prop :=
  (exists b, encodes (row_input r) b) /\ u128_length (length (er_payload_jcs r)).

Lemma store_digest_parse_ok s d : store_digest_parse s = Ok d -> d = mkDigest s.
Proof. unfold store_digest_parse. intros Hd%map_err_ok. by apply digest_parse_spec in Hd as [-> _]. Qed.

(** What a verified row says about itself. *)
Lemma verified_row r rows previous n result :
  verify_events (r :: rows) previous n = Ok result ->
  er_sequence r = n /\ er_previous_digest r = digest_str previous /\
  hash_domain PAYLOAD_DOMAIN (er_payload_jcs r) = mkDigest (er_payload_digest r) /\
  event_digest_for (row_input r) = Ok (mkDigest (er_event_digest r)) /\
  verify_events rows (mkDigest (er_event_digest r)) (n + 1) = Ok result.
Proof.
  cbn [verify_events]. intros Hv. apply res_bind_ok in Hv as (seq & Hseq & Hv).
  unfold to_u64 in Hseq. apply guard_ok in Hseq as [_ [= <-]].
  apply guard_ok in Hv as [Hn%negb_false_iff%Z.eqb_eq Hv].
  apply res_bind_ok in Hv as (pd & Hpd%store_digest_parse_ok & Hv). apply res_bind_ok in Hv as (? & _ & Hv).
  apply res_bind_ok in Hv as (yd & Hyd%store_digest_parse_ok & Hv).
  apply res_bind_ok in Hv as (sd & Hsd%store_digest_parse_ok & Hv).
  apply res_bind_ok in Hv as (ed & Hed%store_digest_parse_ok & Hv).
  apply guard_ok in Hv as [Hprev%negb_bool_decide_false Hv]. apply guard_ok in Hv as [Hpay%negb_bool_decide_false Hv].
  apply res_bind_ok in Hv as (actual & Hact & Hv). apply guard_ok in Hv as [Ha%negb_bool_decide_false Hv].
  subst. split_all; try done; by rewrite Hpay.
Qed.

(** What the digests of a chain are computed from. *)
Inductive chain_hashes (domain : string) (bg : bytes) (rows : list EventRow) : bytes -> Prop :=
  | hashes_genesis : chain_hashes domain bg rows (domain_preimage domain bg)
  | hashes_event r b : r ∈ rows -> encodes (row_input r) b -> chain_hashes domain bg rows (domain_preimage EVENT_DOMAIN b)
  | hashes_payload r : r ∈ rows -> chain_hashes domain bg rows (domain_preimage PAYLOAD_DOMAIN (er_payload_jcs r)).
Definition chains_collide (domain : string) (bg : bytes) (rows rows' : list EventRow) : Prop :=
  exists a b, chain_hashes domain bg rows a /\ chain_hashes domain bg rows' b /\ collision a b.
Lemma chain_hashes_more domain bg rows rows' a : rows ⊆ rows' -> chain_hashes domain bg rows a -> chain_hashes domain bg rows' a.
Proof.
  intros Hs [|r b Hr Hb|r Hr]; [apply hashes_genesis|apply (hashes_event _ _ _ r); [by apply Hs|done]|apply hashes_payload; by apply Hs].
Qed.
Lemma chains_collide_more domain bg r r' s s' : r ⊆ s -> r' ⊆ s' -> chains_collide domain bg r r' -> chains_collide domain bg s s'.
Proof. intros Hs Hs' (a & b & Ha & Hb & Hc). exists a, b. split; [|split; [|done]]; by eapply chain_hashes_more. Qed.

(** Two verified chains that end in the same digest are the same chain. *)
Lemma verified_rows_unique domain bg rows : forall rows' h n n',
  let g := hash_domain domain bg in
  domain <> EVENT_DOMAIN -> u128_length (String.length domain) -> u128_length (length bg) ->
  Forall row_encodes rows -> Forall row_encodes rows' ->
  verify_events rows g 1 = Ok (h, n) -> verify_events rows' g 1 = Ok (h, n') ->
  rows = rows' \/ chains_collide domain bg rows rows'.
Proof.
  induction rows as [|r rows IH] using rev_ind; intros rows' h n n' g Hdom Hld Hlb Hr Hr' Hv Hv'; subst g.
  - assert (hash_domain domain bg = h) as Hg by (cbn [verify_events] in Hv; congruence).
    destruct rows' as [|r' rows' _] using rev_ind; [by left|]. right.
    rewrite verify_events_app in Hv'. apply res_bind_ok in Hv' as ([p m] & _ & Hv').
    apply verified_row in Hv' as (_ & _ & _ & Hd & Hres). cbn [verify_events] in Hres.
    apply Forall_app in Hr' as [_ [[[b Hb] _] _]%Forall_cons]. rewrite (event_digest_encodes _ b Hb) in Hd.
    assert (hash_domain domain bg = hash_domain EVENT_DOMAIN b) as Hbh by congruence. pose proof Hb as (_ & _ & Hl).
    destruct (hash_domain_binds domain bg EVENT_DOMAIN b) as [[He _]|Hc]; try done. exists (domain_preimage domain bg), (domain_preimage EVENT_DOMAIN b).
    split; [apply hashes_genesis|]. split; [|done]. apply (hashes_event _ _ _ r'); [|done]. apply elem_of_app. right. by left.
  - rewrite verify_events_app in Hv. apply res_bind_ok in Hv as ([p m] & Hpre & Hv).
    apply verified_row in Hv as (Hseq & Hprev & Hpay & Hd & Hres). cbn [verify_events] in Hres.
    apply Forall_app in Hr as [Hrs [[[b Hb] Hl] _]%Forall_cons]. rewrite (event_digest_encodes _ b Hb) in Hd.
    assert (hash_domain EVENT_DOMAIN b = h) as Hbh by congruence.
    destruct rows' as [|r' rows' _] using rev_ind.
    { right. assert (hash_domain EVENT_DOMAIN b = hash_domain domain bg) as Hbg.
      { cbn [verify_events] in Hv'. congruence. }
      pose proof Hb as (_ & _ & Hlb').
      destruct (hash_domain_binds EVENT_DOMAIN b domain bg) as [[He _]|Hc]; try done. exists (domain_preimage EVENT_DOMAIN b), (domain_preimage domain bg).
      split; [|split; [apply hashes_genesis|done]]. apply (hashes_event _ _ _ r); [|done]. apply elem_of_app. right. by left. }
    rewrite verify_events_app in Hv'. apply res_bind_ok in Hv' as ([p' m'] & Hpre' & Hv').
    apply verified_row in Hv' as (Hseq' & Hprev' & Hpay' & Hd' & Hres'). cbn [verify_events] in Hres'.
    apply Forall_app in Hr' as [Hrs' [[[b' Hb'] Hl'] _]%Forall_cons].
    rewrite (event_digest_encodes _ b' Hb') in Hd'.
    assert (hash_domain EVENT_DOMAIN b = hash_domain EVENT_DOMAIN b') as Heq by congruence.
    assert (mkDigest (er_event_digest r) = mkDigest (er_event_digest r')) as Hsame by congruence.
    pose proof Hb as (Hx & Hj & Hbl). pose proof Hb' as (Hx' & Hj' & Hbl').
    destruct (hash_domain_binds EVENT_DOMAIN b EVENT_DOMAIN b') as [[_ <-]|Hc]; try done.
    2: { right. exists (domain_preimage EVENT_DOMAIN b), (domain_preimage EVENT_DOMAIN b').
      split; [apply (hashes_event _ _ _ r)|split; [apply (hashes_event _ _ _ r')|done]]; [|done| |done]; apply elem_of_app; right; by left. }
    pose proof (to_value_inj _ _ (canon_injective_encoding _ _ b Hx Hx' Hj Hj')) as Hi.
    destruct r, r'. unfold row_input in Hi. simpl in *. injection Hi as -> -> -> -> -> -> -> ->.
    destruct (hash_domain_binds PAYLOAD_DOMAIN er_payload_jcs PAYLOAD_DOMAIN er_payload_jcs0) as [[_ ->]|Hc];
      try done; [congruence| |].
    2: { right. do 2 eexists. split; [|split; [|exact Hc]].
      - eapply (hashes_payload _ _ _ (mkEventRow _ _ _ _ _ _ _ _ _ _)). apply elem_of_app. right. by left.
      - eapply (hashes_payload _ _ _ (mkEventRow _ _ _ _ _ _ _ _ _ _)). apply elem_of_app. right. by left. }
    assert (p = p') as <- by (destruct p, p'; simpl in *; congruence).
    destruct (IH rows' p m m' Hdom Hld Hlb Hrs Hrs' Hpre Hpre') as [->|Hc].
    2: { right. eapply chains_collide_more; [..|exact Hc]; intros x Hin; apply elem_of_app; by left. }
    left. injection Hsame as ->. done.
Qed.

End Histories.

(** ** Pages of identifiers *)

Definition str_sorted (l : list string) : Prop := Sorted.StronglySorted (fun a b => str_ltb a b = true) l.

Lemma sort_dedup_sorted l : str_sorted (sort_dedup l).
Proof.
  unfold sort_dedup, str_sorted. pose proof (btree_of_is_sorted (map (fun s => (s, tt)) l)) as Hs.
  induction Hs as [|[k u] m Hm IH Hf]; simpl; constructor; [done|].
  apply List.Forall_forall. intros x ([k' u'] & <- & Hin)%in_map_iff.
  rewrite List.Forall_forall in Hf. exact (Hf _ Hin).
Qed.

(** A sorted list is determined by its elements. *)
Lemma str_sorted_unique l l' :
  str_sorted l -> str_sorted l' -> (forall x, x ∈ l <-> x ∈ l') -> l = l'.
Proof.
  intros Hl. revert l'. induction Hl as [|x l Hs IH Hx]; intros l' Hl' He.
  - destruct l' as [|y l']; [done|]. exfalso. apply (elem_of_nil y), He. by left.
  - rewrite List.Forall_forall in Hx. destruct Hl' as [|y l' Hs' Hy].
    { exfalso. apply (elem_of_nil x), He. by left. }
    rewrite List.Forall_forall in Hy. setoid_rewrite list_elem_of_In in He.
    assert (x = y) as ->.
    { destruct (proj1 (He x) (or_introl eq_refl)) as [|Hxin]; [done|].
      destruct (proj2 (He y) (or_introl eq_refl)) as [|Hyin]; [done|].
      pose proof (str_ltb_trans _ _ _ (Hx y Hyin) (Hy x Hxin)) as Ht. by rewrite str_ltb_irrefl in Ht. }
    f_equal. apply IH; [done|]. intros z. rewrite !list_elem_of_In. split; intros Hz.
    + destruct (proj1 (He z) (or_intror Hz)) as [<-|]; [|done]. specialize (Hx _ Hz). by rewrite str_ltb_irrefl in Hx.
    + destruct (proj2 (He z) (or_intror Hz)) as [<-|]; [|done]. specialize (Hy _ Hz). by rewrite str_ltb_irrefl in Hy.
Qed.

Lemma str_sorted_app l l' :
  str_sorted (l ++ l') -> str_sorted l' /\ forall x y, x ∈ l -> y ∈ l' -> str_ltb x y = true.
Proof.
  induction l as [|a l IH]; simpl; intros Hs; [split; [done | by intros x y Hx%elem_of_nil]|].
  inversion Hs as [|? ? Hs' Ha]; subst. destruct (IH Hs') as [Hl' Hlt]. split; [done|].
  intros x y [->|Hx]%elem_of_cons Hy; [|by apply Hlt]. rewrite List.Forall_forall in Ha.
  apply Ha, in_or_app. right. by apply list_elem_of_In.
Qed.

(** All identifiers with a prefix, in order. *)
Definition prefixed_ids (db : Database) (prefix : string) : list string :=
  sort_dedup (List.filter (fun id => starts_with id prefix) (map st_entity_id (db_states db))).

(** The identifiers after a cursor are those that follow it. *)
Lemma ids_after_cursor l prefix before cursor rest :
  sort_dedup (List.filter (fun id => starts_with id prefix) l) = before ++ cursor :: rest ->
  sort_dedup (List.filter (fun id => starts_with id prefix && str_ltb cursor id) l) = rest.
Proof.
  intros He. pose proof (sort_dedup_sorted (List.filter (fun id => starts_with id prefix) l)) as Hs.
  rewrite He in Hs. destruct (str_sorted_app _ _ Hs) as [Hcr Hlt]. inversion Hcr as [|? ? Hrest Hc]; subst.
  apply str_sorted_unique; [apply sort_dedup_sorted | done|]. intros x.
  rewrite elem_sort_dedup, list_elem_of_In, filter_In, andb_true_iff, <- list_elem_of_In.
  assert (x ∈ l /\ starts_with x prefix = true <-> x ∈ before ++ cursor :: rest) as Hx.
  { rewrite <- He, elem_sort_dedup, !list_elem_of_In, filter_In. done. }
  rewrite elem_of_app, elem_of_cons in Hx. rewrite List.Forall_forall in Hc. split.
  - intros (Hl & Hp & Hgt). destruct (proj1 Hx (conj Hl Hp)) as [Hb|[->|Hr]]; [| by rewrite str_ltb_irrefl in Hgt | done].
    pose proof (Hlt x cursor Hb ltac:(by left)) as Hxc.
    pose proof (str_ltb_trans _ _ _ Hxc Hgt) as Ht. by rewrite str_ltb_irrefl in Ht.
  - intros Hr. destruct (proj2 Hx (or_intror (or_intror Hr))) as [Hl Hp]. split_all; [done | done|].
    by apply Hc, list_elem_of_In.
Qed.

(** The loop every daemon walks a prefix with (effectd.rs,
    [reconstruct_managed_pointer_activation_heads] and others): read a page after
    the cursor, stop when it is empty, move the cursor to its last element.
    [None] is running out of fuel. *)
Fixpoint walk_pages (fuel : nat) (db : Database) (prefix : string) (cursor : option string) (limit : Z)
    : option (res StoreError (list string)) :=
  match fuel with
  | O => None
  | S f =>
      match entity_ids_after db prefix cursor limit with
      | Ok page =>
          match last page with
          | None => Some (Ok [])
          | Some next =>
              match walk_pages f db prefix (Some next) limit with
              | Some (Ok rest) => Some (Ok (page ++ rest))
              | other => other
              end
          end
      | Err e => Some (Err e)
      | Panic => Some Panic
      end
  end.

(** The guards of a page request. *)
Definition page_request_ok (db : Database) (prefix : string) (limit : Z) : Prop :=
  validate_store_identifier "entity_prefix" prefix 256 = Ok tt /\ (0 < limit <= 10000)%Z /\
  forall id, id ∈ map st_entity_id (db_states db) -> validate_store_identifier "entity_cursor" id 256 = Ok tt.

Lemma prefixed_ids_elem db prefix id :
  id ∈ prefixed_ids db prefix <-> id ∈ map st_entity_id (db_states db) /\ starts_with id prefix = true.
Proof. unfold prefixed_ids. by rewrite elem_sort_dedup, !list_elem_of_In, filter_In. Qed.

Lemma first_page db prefix limit :
  page_request_ok db prefix limit ->
  entity_ids_after db prefix None limit = Ok (take (Z.to_nat limit) (prefixed_ids db prefix)).
Proof.
  intros (Hp & Hl & _). unfold entity_ids_after, prefixed_ids. rewrite Hp. cbn [res_bind].
  rewrite (proj2 (Z.eqb_neq _ _)), (proj2 (Z.ltb_ge _ _)) by lia. cbn [orb reject_if res_bind]. do 3 f_equal.
  apply List.filter_ext. intros id. apply andb_true_r.
Qed.

Lemma next_page db prefix limit before cursor rest :
  page_request_ok db prefix limit -> prefixed_ids db prefix = before ++ cursor :: rest ->
  entity_ids_after db prefix (Some cursor) limit = Ok (take (Z.to_nat limit) rest).
Proof.
  intros (Hp & Hl & Hv) He. assert (cursor ∈ prefixed_ids db prefix) as [Hin Hpre]%prefixed_ids_elem.
  { rewrite He. apply elem_of_app. right. by left. }
  unfold entity_ids_after. rewrite Hp. cbn [res_bind]. rewrite (Hv _ Hin). cbn [res_bind]. rewrite Hpre.
  cbn [negb reject_if res_bind]. rewrite (proj2 (Z.eqb_neq _ _)), (proj2 (Z.ltb_ge _ _)) by lia.
  cbn [orb reject_if res_bind]. by rewrite (ids_after_cursor _ _ before cursor rest).
Qed.

Lemma last_take {X} (l : list X) n : l <> [] -> 0 < n -> exists before x, take n l = before ++ [x] /\ last (take n l) = Some x.
Proof.
  intros Hl Hn. assert (take n l <> []) as Ht by (destruct l, n; done || lia).
  destruct (take n l) as [|x before _] using rev_ind; [done|]. eauto using last_snoc.
Qed.

(** Which identifiers are stored. *)
Lemma find_state_ids e l : find_state e l <> None <-> e ∈ map st_entity_id l.
Proof.
  unfold find_state. induction l as [|r l IH]; cbn; [split; [done|by intros ?%elem_of_nil]|]. rewrite elem_of_cons.
  destruct (bool_decide_reflect (st_entity_id r = e)) as [->|Hne]; [naive_solver|]. rewrite IH. naive_solver.
Qed.

(** What a page holds: identifiers with the prefix, after the cursor; and it leaves
    out only what comes after its last one. *)
Lemma page_spec db prefix after limit page :
  (0 < limit)%Z -> entity_ids_after db prefix after limit = Ok page ->
  (forall e, e ∈ page -> e ∈ map st_entity_id (db_states db) /\ starts_with e prefix = true /\
     match after with None => True | Some cursor => str_ltb cursor e = true end) /\
  (forall e, e ∈ map st_entity_id (db_states db) -> starts_with e prefix = true ->
     match after with None => True | Some cursor => str_ltb cursor e = true end ->
     e ∈ page \/ exists x, last page = Some x /\ str_ltb x e = true).
Proof.
  unfold entity_ids_after. intros Hlim [_ Hr]%then_ok. apply then_ok in Hr as [_ Hr]. apply guard_ok in Hr as [_ [= <-]].
  set (sel := List.filter _ _). assert (forall e, e ∈ sort_dedup sel <-> e ∈ map st_entity_id (db_states db) /\ starts_with e prefix = true /\
    match after with None => True | Some cursor => str_ltb cursor e = true end) as Hsel.
  { intros e. rewrite elem_sort_dedup, list_elem_of_In. unfold sel. rewrite filter_In, andb_true_iff, <- list_elem_of_In. destruct after; naive_solver. }
  clearbody sel. pose proof (sort_dedup_sorted sel) as Hs. pose proof (take_drop (Z.to_nat limit) (sort_dedup sel)) as Hsplit.
  split; [intros e He; apply Hsel; rewrite <- Hsplit; by apply elem_of_app; left|].
  intros e Hin Hp Ha. assert (e ∈ sort_dedup sel) as He by (by apply Hsel). rewrite <- Hsplit in Hs, He.
  apply str_sorted_app in Hs as [_ Hlt]. apply elem_of_app in He as [He|He]; [by left|]. right.
  destruct (last_take (sort_dedup sel) (Z.to_nat limit)) as (before & x & Ht & Hx).
  - intros Hn. rewrite Hn, drop_nil in He. by apply elem_of_nil in He.
  - lia.
  - exists x. split; [done|]. apply Hlt; [|done]. rewrite Ht. set_solver.
Qed.

Lemma walk_pages_rest fuel db prefix limit before cursor rest :
  page_request_ok db prefix limit -> prefixed_ids db prefix = before ++ cursor :: rest -> length rest < fuel ->
  walk_pages fuel db prefix (Some cursor) limit = Some (Ok rest).
Proof.
  intros Hok. revert before cursor rest. induction fuel as [|f IH]; intros before cursor rest He Hf; [lia|].
  cbn [walk_pages]. rewrite (next_page db prefix limit before cursor rest Hok He).
  assert (0 < Z.to_nat limit) as Hn by (destruct Hok as (_ & ? & _); lia).
  destruct (decide (rest = [])) as [->|Hne]; [by rewrite take_nil|].
  destruct (last_take rest _ Hne Hn) as (pre & x & Ht & Hlast). rewrite Hlast.
  pose proof (take_drop (Z.to_nat limit) rest) as Hsplit. rewrite Ht in Hsplit.
  rewrite (IH (before ++ cursor :: pre) x (drop (Z.to_nat limit) rest)).
  - by rewrite Ht, Hsplit.
  - rewrite He, <- Hsplit at 1. by rewrite <- !app_assoc.
  - rewrite length_drop. destruct rest; [done|]. simpl in *. lia.
Qed.

Lemma walk_pages_all fuel db prefix limit :
  page_request_ok db prefix limit -> length (prefixed_ids db prefix) < fuel ->
  walk_pages fuel db prefix None limit = Some (Ok (prefixed_ids db prefix)).
Proof.
  intros Hok Hf. destruct fuel as [|f]; [lia|]. cbn [walk_pages]. rewrite first_page by done.
  assert (0 < Z.to_nat limit) as Hn by (destruct Hok as (_ & ? & _); lia).
  destruct (decide (prefixed_ids db prefix = [])) as [->|Hne]; [by rewrite take_nil|].
  destruct (last_take _ _ Hne Hn) as (pre & x & Ht & Hlast). rewrite Hlast.
  pose proof (take_drop (Z.to_nat limit) (prefixed_ids db prefix)) as Hsplit. rewrite Ht in Hsplit.
  rewrite (walk_pages_rest f db prefix limit pre x (drop (Z.to_nat limit) (prefixed_ids db prefix))); [|done| |].
  - by rewrite Ht, Hsplit.
  - rewrite <- Hsplit at 1. by rewrite <- app_assoc.
  - rewrite length_drop. destruct (prefixed_ids db prefix); [done|]. simpl in *. lia.
Qed.
