(* ===== verification/StoreSpec.v ===== *)
(** * What the store promises (ag-store/src/lib.rs)

    The abstract store is a log with one partial operation, [log_append].  The
    theorems: appends refine it, alone and in pairs; reads return the log's last
    states; verified stores with one head have one history; a store opened once
    opens again only under the same identity and activation; and the walk over
    pages of identifiers ends with all of them. *)

From S2P Require Import Prelude Wire Fixture Digest Names Origin Store StoreLog.

(** ** The abstract store *)

(** One append: the event identifier is new and the caller knows the revision. *)
Definition log_append (L : Log) (c : Committed) (expected_revision : Z) : res StoreError Log :=
  let revision := Z.of_nat (log_count (cm_entity_id c) L) in
  if decide (cm_event_id c ∈ map cm_event_id L) then Err (DuplicateEvent (cm_event_id c))
  else if decide (revision = expected_revision) then Ok (L ++ [c])
  else Err (RevisionConflict (cm_entity_id c) expected_revision revision).

Section Promises.
  Context `{JcsLaws, !HexLaws, !Sha256Laws}.

(** The receipt of the event appended to a log. *)
Definition receipt_of (L : Log) (previous digest : StoreDigestV1) (c : Committed) : EventReceiptV1 :=
  mkReceipt (Z.of_nat (length L) + 1) (cm_event_id c) previous digest
    (Z.of_nat (log_count (cm_entity_id c) L) + 1) (hash_domain STATE_DOMAIN (cm_state c)).

(** [tx], run on [db], does what the abstract outcome says: on success it leaves
    an image of the new log with the head [d] and the event rows [rows], and keeps
    the tables of backup cuts, on failure it reports the same error. *)
Definition refines {A} (identity : StoreIdentityV1) (db : Database) (tx : Tx A) (outcome : res StoreError Log)
    (d : StoreDigestV1) (rows : list EventRow) (a : A) : Prop :=
  match outcome with
  | Ok L' => exists db', tx db = Ok (db', a) /\ represents identity db' L' /\
      chain_head db' = Ok (mkHead (Z.of_nat (length L')) d) /\
      db_cuts db' = db_cuts db /\ db_participants db' = db_participants db /\ db_events db' = rows
  | Err e => tx db = Err e
  | Panic => False
  end.

Lemma append_refines identity db L head `{Serialize P, Serialize A} (event : NewEventV1 P) (state : A) expected bp bs b :
  represents identity db L -> chain_head db = Ok head ->
  encodes (ne_payload event) bp -> encodes state bs ->
  let c := committed_of event bp bs in
  encodes (input_of (Z.of_nat (length L) + 1) (ch_digest head) c) b ->
  validate_event event = Ok tt ->
  refines identity db (append_event_in_transaction event state expected) (log_append L c expected)
    (hash_domain EVENT_DOMAIN b) (db_events db ++ [event_row (Z.of_nat (length L) + 1) (ch_digest head) (hash_domain EVENT_DOMAIN b) c])
    (receipt_of L (ch_digest head) (hash_domain EVENT_DOMAIN b) c) \/
  clashes (db_events db) b.
Proof.
  intros Hr Hh Hbp Hbs c Hb Hv.
  destruct (append_in_tx_spec identity db L head event state expected bp bs b Hr Hh Hbp Hbs Hb Hv)
    as [[Hd Hres]|[(Hf & Hc & Hres)|[(Hf & Hc & db' & Hres & Hr' & Hrows & Hset)|Hcol]]]; [left..|by right];
    unfold log_append, refines; cbn [cm_event_id cm_entity_id c committed_of].
  - by rewrite decide_True by (by apply dec_stable).
  - by rewrite decide_False, decide_False by done.
  - rewrite decide_False, decide_True by done. exists db'. split_all; [exact Hres | done | | by rewrite Hset.. | exact Hrows].
    apply chain_head_of. rewrite Hset, length_app. simpl. do 2 f_equal. lia.
Qed.

Lemma validate_identifier_total field value maximum : no_panic (validate_store_identifier field value maximum).
Proof.
  unfold validate_store_identifier. repeat (apply res_bind_no_panic; [apply reject_if_no_panic | intros ? _]). intros [=].
Qed.

Lemma validate_event_total {T} (event : NewEventV1 T) : no_panic (validate_event event).
Proof.
  unfold validate_event. repeat (apply res_bind_no_panic; [apply validate_identifier_total | intros ? _]).
  apply validate_identifier_total.
Qed.

(** C4. [Store::append_event] refines the abstract append: on the image of a log
    it fails with the first of the errors that apply (an invalid event, an active
    backup cut, a repeated event identifier, a stale revision) and then changes
    nothing, or it leaves the image of the log with the event at its end and
    returns that event's receipt; otherwise the hashed form of the event collides
    with that of an event the store holds. *)
Theorem append_event_refines_log identity db L head `{Serialize P, Serialize A} (event : NewEventV1 P) (state : A)
    expected bp bs b :
  represents identity db L -> chain_head db = Ok head ->
  encodes (ne_payload event) bp -> encodes state bs ->
  let c := committed_of event bp bs in
  encodes (input_of (Z.of_nat (length L) + 1) (ch_digest head) c) b ->
  let outcome :=
    validate_event event ;?
    match active_backup_cut db with Some cut_id => Err (BackupBarrierActive cut_id) | None => Ok tt end ;?
    log_append L c expected in
  match outcome with
  | Ok L' => exists db',
      commit (append_event event state expected) db =
        (db', Ok (receipt_of L (ch_digest head) (hash_domain EVENT_DOMAIN b) c)) /\
      L' = L ++ [c] /\ represents identity db' L' /\ active_backup_cut db' = None
  | Err e => commit (append_event event state expected) db = (db, Err e)
  | Panic => False
  end \/ clashes (db_events db) b.
Proof.
  intros Hr Hh Hbp Hbs c Hb outcome. subst outcome. unfold commit, append_event, ensure_no_backup_barrier.
  pose proof (validate_event_total event) as Hnp.
  destruct (validate_event event) as [[]|e|] eqn:Hv; [|by left|done]. cbn [res_bind]. destruct (active_backup_cut db) as [cut|] eqn:Hcut; [by left|]. cbn [res_bind].
  destruct (append_refines identity db L head event state expected bp bs b Hr Hh Hbp Hbs Hb Hv) as [Href|]; [left|by right].
  unfold refines in Href. fold c in Href |- *. unfold log_append in *.
  destruct (decide (_ ∈ _)); [by rewrite Href|]. destruct (decide (_ = _)); [|by rewrite Href].
  destruct Href as (db' & -> & Hr' & _ & Hc & _). exists db'. split_all; [done..|].
  unfold active_backup_cut in *. by rewrite Hc.
Qed.

(** Appends to distinct entities do not see each other's revision. *)
Lemma log_append_pair L c1 c2 e1 e2 L2 :
  cm_entity_id c1 <> cm_entity_id c2 ->
  (let? L1 := log_append L c1 e1 in log_append L1 c2 e2) = Ok L2 <->
  (L2 = L ++ [c1; c2]) /\ (cm_event_id c1 ∉ map cm_event_id L) /\ (cm_event_id c2 ∉ map cm_event_id L) /\
  cm_event_id c1 <> cm_event_id c2 /\
  Z.of_nat (log_count (cm_entity_id c1) L) = e1 /\ Z.of_nat (log_count (cm_entity_id c2) L) = e2.
Proof.
  intros Hne. unfold log_append. destruct (decide (cm_event_id c1 ∈ _)); [naive_solver|].
  destruct (decide (_ = e1)); [|naive_solver]. cbn [res_bind].
  rewrite log_count_snoc, bool_decide_eq_false_2, Nat.add_0_r, map_app by done. cbn [map].
  destruct (decide (cm_event_id c2 ∈ _)) as [Hin|Hout].
  - rewrite elem_of_app, list_elem_of_singleton in Hin. naive_solver.
  - rewrite elem_of_app, list_elem_of_singleton in Hout. destruct (decide (_ = e2)); [|naive_solver].
    rewrite <- app_assoc. simpl. naive_solver congruence.
Qed.

(** [Store::append_distinct_event_pair] is one step: on the image of a log it
    refines two abstract appends, so it leaves both events at the end of the log,
    or neither of them and the database as it was, with the error of the first
    append that fails; otherwise the hashed form of one of the events collides with
    that of an event before it. *)
Theorem append_pair_atomic identity db L head `{Serialize P1, Serialize A1, Serialize P2, Serialize A2}
    (event1 : NewEventV1 P1) (state1 : A1) expected1 (event2 : NewEventV1 P2) (state2 : A2) expected2
    bp1 bs1 b1 bp2 bs2 b2 :
  represents identity db L -> chain_head db = Ok head ->
  encodes (ne_payload event1) bp1 -> encodes state1 bs1 -> encodes (ne_payload event2) bp2 -> encodes state2 bs2 ->
  let c1 := committed_of event1 bp1 bs1 in
  let c2 := committed_of event2 bp2 bs2 in
  let d1 := hash_domain EVENT_DOMAIN b1 in
  encodes (input_of (Z.of_nat (length L) + 1) (ch_digest head) c1) b1 ->
  encodes (input_of (Z.of_nat (length L) + 2) d1 c2) b2 ->
  validate_event event1 = Ok tt -> validate_event event2 = Ok tt ->
  ne_entity_id event1 <> ne_entity_id event2 -> active_backup_cut db = None ->
  let call := commit (append_distinct_event_pair event1 state1 expected1 event2 state2 expected2) db in
  match (let? L1 := log_append L c1 expected1 in log_append L1 c2 expected2) with
  | Ok L2 => exists db', L2 = L ++ [c1; c2] /\ represents identity db' L2 /\
      call = (db', Ok (receipt_of L (ch_digest head) d1 c1,
                       receipt_of (L ++ [c1]) d1 (hash_domain EVENT_DOMAIN b2) c2))
  | Err e => call = (db, Err e)
  | Panic => False
  end \/ clashes (db_events db) b1 \/ clashes (db_events db ++ [event_row (Z.of_nat (length L) + 1) (ch_digest head) d1 c1]) b2.
Proof.
  intros Hr Hh Hbp1 Hbs1 Hbp2 Hbs2 c1 c2 d1 Hb1 Hb2 Hv1 Hv2 Hne Hcut call. subst call.
  unfold commit, append_distinct_event_pair, ensure_no_backup_barrier. rewrite Hv1, Hv2, Hcut. cbn [res_bind].
  rewrite bool_decide_eq_false_2 by done. cbn [reject_if res_bind].
  destruct (append_refines identity db L head event1 state1 expected1 bp1 bs1 b1 Hr Hh Hbp1 Hbs1 Hb1 Hv1)
    as [Href|]; [|by right; left]. unfold refines in Href. fold c1 in Href. fold d1 in Href.
  destruct (log_append L c1 expected1) as [L1|e|] eqn:HL1; [|left; by rewrite Href|done]. cbn [res_bind].
  destruct Href as (db1 & -> & Hr1 & Hh1 & Hc & _ & Hrows). cbn [res_bind].
  assert (L1 = L ++ [c1]) as ->.
  { unfold log_append in HL1. destruct (decide _); [done|]. destruct (decide _); [congruence | done]. }
  assert (encodes (input_of (Z.of_nat (length (L ++ [c1])) + 1) d1 c2) b2) as Hb2'.
  { rewrite length_app. simpl. replace (Z.of_nat (length L + 1) + 1)%Z with (Z.of_nat (length L) + 2)%Z by lia. done. }
  destruct (append_refines identity db1 (L ++ [c1]) _ event2 state2 expected2 bp2 bs2 b2 Hr1 Hh1 Hbp2 Hbs2 Hb2' Hv2)
    as [Href|]; [left|right; right; by rewrite <- Hrows]. unfold refines in Href. fold c2 in Href. cbn [ch_digest] in Href.
  destruct (log_append (L ++ [c1]) c2 expected2) as [L2|e|] eqn:HL2; [|by rewrite Href|done].
  destruct Href as (db2 & -> & Hr2 & _). exists db2. split_all; [|done|done].
  eapply log_append_pair; [exact Hne|]. rewrite HL1. cbn [res_bind]. exact HL2.
Qed.

(** Reads return what was last written: [Store::materialized_state] on the
    image of a log finds an entity exactly when the log wrote it, decodes the
    canonical bytes of its last state, and reports the number of writes as its
    revision, the digest of those bytes, and an event of that entity. *)
Theorem reads_latest_state {T} (decode : bytes -> string + T) identity db L e :
  represents identity db L ->
  match log_last e L with
  | None => materialized_state decode db e = Ok None
  | Some c =>
      match decode (cm_state c) with
      | inl message => materialized_state decode db e = Err (InvalidStoredJson message)
      | inr state => exists sequence digest row,
          materialized_state decode db e =
            Ok (Some (mkMaterialized e (Z.of_nat (log_count e L)) state (hash_domain STATE_DOMAIN (cm_state c))
                        sequence digest)) /\
          find_event sequence (db_events db) = Some row /\ er_entity_id row = e /\
          er_event_digest row = digest_str digest
      end
  end.
Proof.
  intros (bg & v & Hid & Hc & He & Hs & Hh). unfold materialized_state. rewrite Hs.
  pose proof (chain_states _ L v e Hc) as Hst.
  destruct (find_state e (vw_states v)) as [r|] eqn:Hf, (log_last e L) as [c|]; try done.
  destruct Hst as (Hent & Hrev & Hjcs & Hpos). rewrite Hjcs. destruct (decode (cm_state c)) as [m|state]; [done|].
  unfold find_state in Hf. apply find_some in Hf as [Hin _]. apply list_elem_of_In in Hin.
  destruct (chain_backed _ L v r Hc Hin) as (row & b & Hrow & Hseq & Hre & _ & Hed & Hd & Hsd & _).
  pose proof (chain_sequences _ L v row Hc Hrow) as Hpos'. rewrite Hseq in Hpos'.
  exists (st_last_event_sequence r), (hash_domain EVENT_DOMAIN b), row. cbn [res_bind].
  rewrite to_u64_nonneg by lia. cbn [res_bind]. rewrite Hsd, Hjcs, store_digest_hash. cbn [res_bind].
  rewrite to_u64_nonneg by lia. cbn [res_bind]. rewrite Hd, store_digest_hash. cbn [res_bind].
  split_all; [by rewrite Hrev | | congruence | congruence].
  rewrite He, <- Hseq. by eapply find_event_chain.
Qed.

(** C23. A chain head pins the history: two databases that [Store::verify_chain]
    accepts under one store identity, with the same head, have the same event
    rows, or two of the strings their digests are computed from (the identity, the
    hashed forms of the events, the payloads), one of each database, collide.
    (The rows are I-JSON data.) *)
Theorem head_pins_history identity bg db db' head :
  encodes identity bg -> Forall row_encodes (db_events db) -> Forall row_encodes (db_events db') ->
  verify_chain identity db = Ok head -> verify_chain identity db' = Ok head ->
  db_events db = db_events db' \/
  chains_collide "ag-store-event-chain-genesis-v1" bg (db_events db) (db_events db').
Proof.
  intros Hid Hr Hr' Hv Hv'. unfold verify_chain, verify_chain_connection, genesis_digest in *.
  rewrite (digest_jcs_encodes _ _ _ Hid) in Hv, Hv'. cbn [res_bind] in Hv, Hv'.
  apply res_bind_ok in Hv as ([p n] & Hev & Hv), Hv' as ([p' n'] & Hev' & Hv').
  apply res_bind_ok in Hv as (h & _ & Hv), Hv' as (h' & _ & Hv').
  apply guard_ok in Hv as [Hg Hv], Hv' as [Hg' Hv']. apply orb_false in Hg as [_ Hg%negb_bool_decide_false],
    Hg' as [_ Hg'%negb_bool_decide_false].
  apply res_bind_ok in Hv as (? & _ & [= ->]), Hv' as (? & _ & [= ->]). subst p p'.
  refine (verified_rows_unique _ _ _ _ _ _ _ _ _ (proj2 (proj2 Hid)) Hr Hr' Hev Hev');
    vm_compute; [discriminate | reflexivity].
Qed.

(** ** Rolled-back states *)

Lemma chain_prefix g L1 L0 v :
  chain g (L0 ++ L1) v -> exists v0, chain g L0 v0 /\ vw_events v0 ⊆ vw_events v.
Proof.
  revert v. induction L1 as [|c L1 IH] using rev_ind; intros v Hc; [rewrite app_nil_r in Hc; by exists v|].
  rewrite app_assoc in Hc. inversion Hc as [Hnil|L v1 c' b Hc1 _ _ _ Hl Hv].
  { by destruct (app_cons_not_nil (L0 ++ L1) [] c). }
  apply app_inj_tail in Hl as [-> ->]. destruct (IH v1 Hc1) as (v0 & Hv0 & Hsub). exists v0. split; [done|].
  simpl. intros x Hx. apply elem_of_app. left. by apply Hsub.
Qed.

(** [Store::verify_chain] does not see a state table that was rolled back: for
    every earlier point of a store's history, putting back the whole state table
    of that point leaves a database that still verifies, with the same head.
    Every state row is tied to an event of its entity, not to the last one, and
    entities without a row are not missed. *)
Theorem rolled_back_states_verify identity db L0 L1 :
  represents identity db (L0 ++ L1) ->
  exists db0 head, represents identity db0 L0 /\
    verify_chain identity db = Ok head /\ ch_sequence head = Z.of_nat (length (L0 ++ L1)) /\
    verify_chain identity (set_states db (db_states db0)) = Ok head.
Proof.
  intros Hr. destruct (verify_chain_represents identity db _ Hr) as (head & Hv & Hseq).
  destruct Hr as (bg & v & Hid & Hc & He & Hs & Hh). destruct (chain_prefix _ L1 L0 v Hc) as (v0 & Hc0 & Hsub).
  exists (set_head (set_states (set_events db (vw_events v0)) (vw_states v0))
            (mkHeadRow (Z.of_nat (length L0)) (digest_str (vw_head v0)))), head.
  split; [by exists bg, v0|]. split_all; [done..|]. simpl.
  unfold verify_chain, verify_chain_connection in *. cbn [set_states db_events db_states].
  change (chain_head (set_states db (vw_states v0))) with (chain_head db).
  apply res_bind_ok in Hv as (g & -> & Hv). cbn [res_bind]. apply res_bind_ok in Hv as ([p n] & -> & Hv). cbn [res_bind].
  apply res_bind_ok in Hv as (h & -> & Hv). cbn [res_bind]. apply guard_ok in Hv as [-> Hv]. cbn [reject_if res_bind].
  apply res_bind_ok in Hv as (u & _ & Hv). rewrite He, (verify_states_backed _ _ v _ Hc); [exact Hv|].
  intros r Hrow. eapply backed_mono; [exact Hsub|]. exact (chain_backed _ L0 v0 r Hc0 Hrow).
Qed.

(** ** Opening *)

Lemma initialize_represents expected activation bg db db' :
  encodes expected bg -> initialize expected activation db = Ok (db', tt) -> represents expected db' [].
Proof.
  intros Hid Hi. unfold initialize, genesis_digest in Hi. rewrite (digest_jcs_encodes _ _ _ Hid) in Hi.
  cbn [res_bind] in Hi. exists bg. eexists. split; [done|]. split; [apply chain_nil|].
  destruct activation as [[a at_]|]; [|by injection Hi as <-].
  unfold insert_activation in Hi. apply res_bind_ok in Hi as (? & _ & Hi). apply res_bind_ok in Hi as (j & _ & Hi).
  cbn [db_activation reject_if res_bind] in Hi. by injection Hi as <-.
Qed.

(** The rows a first opening writes, which no operation changes. *)
Definition enrolled (identity : StoreIdentityV1) (activation : StoreActivationIdentityV1) (ba : bytes) (at_ : Z)
    (db : Database) : Prop :=
  db_store_identity db = Some (mkIdentityRow (sid_application_id identity) (sid_application_name identity)
    (sid_schema_name identity) (sid_schema_version identity) (digest_str (sid_schema_digest identity))) /\
  db_pragma_application_id db = sid_application_id identity /\
  db_pragma_user_version db = sid_schema_version identity /\
  db_activation db = Some (mkActivationRow ba (digest_str (hash_domain ACTIVATION_SCHEMA ba)) at_).

Lemma identity_schema_digest i : identity_validate i = Ok tt -> sid_schema_digest i = compiled_schema_digest.
Proof.
  unfold identity_validate. intros Hi. apply guard_ok in Hi as [_ Hi]. apply then_ok in Hi as [_ Hi].
  apply then_ok in Hi as [_ Hi]. apply guard_ok in Hi as [_ Hi]. apply guard_ok in Hi as [Hi _].
  apply orb_false in Hi as [_ Hi]. by apply negb_bool_decide_false in Hi.
Qed.

Lemma load_enrolled decode identity activation ba at_ db :
  enrolled identity activation ba at_ db -> encodes activation ba -> decode ba = inr activation ->
  activation_validate activation = Ok tt ->
  load_activation decode db =
    Ok (Some (mkActivationRecord activation (hash_domain ACTIVATION_SCHEMA ba) at_)).
Proof.
  intros (_ & _ & _ & Ha) Hb Hd Hv. unfold load_activation. rewrite Ha. cbn [av_activation_jcs av_activation_digest].
  rewrite (verify_canonical_ok _ _ (encoded_canonical _ _ Hb)). cbn [res_bind]. rewrite Hd. cbn [res_bind].
  rewrite Hv. cbn [res_bind]. rewrite store_digest_hash. cbn [res_bind]. by rewrite bool_decide_eq_true_2.
Qed.

Lemma validate_enrolled decode identity activation ba at_ db identity' activation' created :
  enrolled identity activation ba at_ db -> encodes activation ba -> decode ba = inr activation ->
  activation_validate activation = Ok tt -> identity_validate identity = Ok tt ->
  validate_opened decode identity' activation' created db =
    if decide (identity = identity') then
      match activation' with
      | None => Err ActivationIdentityRequired
      | Some (a, _) =>
          if decide (activation = a)
          then Ok (Some (mkActivationRecord activation (hash_domain ACTIVATION_SCHEMA ba) at_))
          else Err (ActivationIdentityMismatch a activation)
      end
    else Err (IdentityMismatch identity' identity).
Proof.
  intros He Hb Hd Hva Hvi. unfold validate_opened. pose proof (load_enrolled decode _ _ _ _ _ He Hb Hd Hva) as Hload.
  destruct He as (Hi & Hpa & Hpu & _). rewrite Hi. cbn [ok_or res_bind ir_schema_digest].
  pose proof (identity_schema_digest _ Hvi) as Hs.
  assert (store_digest_parse (digest_str (sid_schema_digest identity)) = Ok (sid_schema_digest identity)) as ->
    by (rewrite Hs; apply store_digest_hash).
  cbn [map_err res_bind ir_application_id ir_application_name ir_schema_name ir_schema_version].
  replace (mkStoreIdentity _ _ _ _ _) with identity by (by destruct identity).
  destruct (decide (identity = identity')) as [<-|Hne].
  - rewrite bool_decide_eq_true_2, Hpa, Hpu, !Z.eqb_refl by done. cbn [negb orb reject_if res_bind].
    rewrite Hload. cbn [res_bind]. destruct activation' as [[a at']|]; [|done]. cbn [ar_identity].
    destruct (decide (activation = a)) as [<-|Hna]; [by rewrite bool_decide_eq_true_2|].
    by rewrite bool_decide_eq_false_2.
  - by rewrite bool_decide_eq_false_2.
Qed.

(** A store keeps the identity and the activation it was created under.
    Opening a new file under a valid identity and activation succeeds and leaves
    an empty log; afterwards opening that store, whatever was appended in
    between, succeeds exactly under the same identity and activation (then only
    the writer fence changes, its generation one higher), and otherwise fails
    with the mismatch and changes nothing. *)
Theorem activation_is_fixed decode identity activation bg ba writer :
  identity_validate identity = Ok tt -> activation_validate activation = Ok tt -> writer_validate writer = Ok tt ->
  encodes identity bg -> encodes activation ba -> decode ba = inr activation ->
  let at_ := wr_claimed_at_unix_ms writer in
  let record := mkActivationRecord activation (hash_domain ACTIVATION_SCHEMA ba) at_ in
  (exists db, open_store decode true identity (Some activation) writer empty_database = (db, Ok (Some record)) /\
     enrolled identity activation ba at_ db /\ represents identity db [] /\
     db_writer_fence db = Some (mkFenceRow 1 writer)) /\
  forall db created identity' activation' writer',
    enrolled identity activation ba at_ db ->
    identity_validate identity' = Ok tt -> writer_validate writer' = Ok tt ->
    match activation' with Some a => activation_validate a | None => Ok tt end = Ok tt ->
    open_store decode created identity' activation' writer' db =
    if decide (identity = identity') then
      match activation' with
      | None => (db, Err ActivationIdentityRequired)
      | Some a =>
          if decide (activation = a)
          then (set_fence db (mkFenceRow (match db_writer_fence db with Some f => fr_generation f + 1 | None => 1 end)
                                writer'), Ok (Some record))
          else (db, Err (ActivationIdentityMismatch a activation))
      end
    else (db, Err (IdentityMismatch identity' identity)).
Proof.
  intros Hvi Hva Hvw Hbi Hba Hdec at_ record. split.
  - unfold open_store. rewrite Hvi, Hva, Hvw. cbn [res_bind]. unfold open_prepared, initialize_or_validate.
    cbn [db_store_identity empty_database option_map]. unfold commit.
    destruct (initialize identity (Some (activation, wr_claimed_at_unix_ms writer)) empty_database)
      as [[db' []]|e|] eqn:Hi.
    2, 3: exfalso; unfold initialize, genesis_digest, insert_activation in Hi;
      rewrite (digest_jcs_encodes _ _ _ Hbi), Hva, (jcs_encodes _ _ Hba) in Hi; done.
    pose proof (initialize_represents _ _ _ _ _ Hbi Hi) as Hr.
    assert (enrolled identity activation ba at_ db' /\ db_writer_fence db' = None) as [He Hf].
    { unfold initialize, genesis_digest, insert_activation in Hi.
      rewrite (digest_jcs_encodes _ _ _ Hbi), Hva, (jcs_encodes _ _ Hba) in Hi. cbn in Hi. by injection Hi as <-. }
    cbn [and_then]. rewrite (validate_enrolled decode _ _ _ _ _ _ _ _ He Hba Hdec Hva Hvi), !decide_True by done.
    cbn [and_then commit claim_writer]. rewrite Hf. eexists. split; [done|]. split; [exact He|]. split; [|done].
    destruct Hr as (bg' & v & Hr). by exists bg', v.
  - intros db created identity' activation' writer' He Hvi' Hvw' Hva'. unfold open_store. rewrite Hvi', Hva', Hvw'.
    cbn [res_bind]. unfold open_prepared, initialize_or_validate. rewrite (proj1 He). cbn [and_then].
    rewrite (validate_enrolled decode _ _ _ _ _ _ _ _ He Hba Hdec Hva Hvi).
    destruct (decide (identity = identity')); [|done]. destruct activation' as [a|]; [|done]. cbn [option_map].
    by destruct (decide (activation = a)).
Qed.

(** Blobs are outside the chain. *)
Lemma blobs_not_chained identity db l head :
  verify_chain identity db = Ok head -> verify_chain identity (set_blobs db l) = Ok head.
Proof.
  unfold verify_chain, verify_chain_connection, chain_head. cbn [set_blobs db_events db_chain_head db_states].
  intros Hv. exact Hv.
Qed.
Lemma blobs_keep_rows db l : Forall row_encodes (db_events db) -> Forall row_encodes (db_events (set_blobs db l)).
Proof. intros Hl. exact Hl. Qed.

End Promises.

(** ** Concrete stores *)

(** [Result::unwrap_or]. *)
Definition unwrap_or {E A} (d : A) (m : res E A) : A := match m with Ok a => a | _ => d end.

Module ToyStore.
Definition identity : StoreIdentityV1 :=
  mkStoreIdentity 1095189061 "ag-effectd" STORE_SCHEMA_NAME STORE_SCHEMA_VERSION compiled_schema_digest.
Definition activation : StoreActivationIdentityV1 :=
  mkActivation ACTIVATION_SCHEMA (mkText "lab") (mkEpochId 3) (hash_bytes (str_bytes "config"))
    (hash_bytes (str_bytes "profile")) (hash_bytes (str_bytes "build")) None.
Definition writer : WriterIdentityV1 := mkWriter "ag-effectd" (hash_bytes (str_bytes "writer")) "nonce-1" 1000.
Definition decode (b : bytes) : string + StoreActivationIdentityV1 := inr activation.
Definition opened : Database := (open_store decode true identity (Some activation) writer empty_database).1.
Definition event (id entity : string) (n : Z) : NewEventV1 Z := mkNewEvent id entity "step" 1001 n.
Definition committed (id entity : string) (n m : Z) : Committed :=
  committed_of (event id entity n) (toy_encoding n) (toy_encoding m).
Definition created : Database := (unwrap_or (empty_database, tt) (initialize identity None empty_database)).1.
Definition genesis : StoreDigestV1 := hash_domain "ag-store-event-chain-genesis-v1" (toy_encoding identity).
Definition first : Committed := committed "e-1" "proposal:a" 7 1.
Definition first_input : EventHashInputV1 := input_of 1 genesis first.
Definition first_digest : StoreDigestV1 := hash_domain EVENT_DOMAIN (toy_encoding first_input).
Definition second : Committed := committed "e-2" "proposal:b" 8 2.
Definition second_input : EventHashInputV1 := input_of 2 first_digest second.
End ToyStore.

Lemma toy_identity_encodes : encodes ToyStore.identity (toy_encoding ToyStore.identity).
Proof. toy_encoded. Qed.
Lemma toy_created_represents : represents ToyStore.identity ToyStore.created [].
Proof. apply (initialize_represents _ None _ empty_database _ toy_identity_encodes). vm_compute. reflexivity. Qed.
Lemma toy_created_head : chain_head ToyStore.created = Ok (mkHead 0 ToyStore.genesis).
Proof. vm_compute. reflexivity. Qed.
Lemma toy_first_encodes : encodes ToyStore.first_input (toy_encoding ToyStore.first_input).
Proof. toy_encoded. Qed.
Lemma toy_second_encodes : encodes ToyStore.second_input (toy_encoding ToyStore.second_input).
Proof. toy_encoded. Qed.
Lemma toy_number_encodes : Forall (fun n : Z => encodes n (toy_encoding n)) [1; 2; 7; 8]%Z.
Proof. repeat (apply Forall_cons; split; [toy_encoded|]). apply Forall_nil_2. Qed.
Ltac toy_number := first [exact (Forall_inv toy_number_encodes) | exact (Forall_inv (Forall_inv_tail toy_number_encodes))
  | exact (Forall_inv (Forall_inv_tail (Forall_inv_tail toy_number_encodes)))
  | exact (Forall_inv (Forall_inv_tail (Forall_inv_tail (Forall_inv_tail toy_number_encodes))))].

(** Evaluates the abstract outcome that a hypothesis matches on. *)
Ltac toy_outcome H L :=
  cbv zeta in H;
  lazymatch type of H with
  | match ?o with Ok _ => _ | Err _ => _ | Panic => _ end =>
      let E := fresh in assert (o = Ok L) as E by (vm_compute; reflexivity); rewrite E in H; clear E
  end.

Lemma append_event_refines_log_witness :
  let event := ToyStore.event "e-1" "proposal:a" 7 in
  (exists db', commit (append_event event 1%Z 0) ToyStore.created =
     (db', Ok (receipt_of [] ToyStore.genesis ToyStore.first_digest ToyStore.first)) /\
     represents ToyStore.identity db' [ToyStore.first]).
Proof.
  pose proof (append_event_refines_log ToyStore.identity ToyStore.created [] (mkHead 0 ToyStore.genesis)
    (ToyStore.event "e-1" "proposal:a" 7) 1%Z 0 (toy_encoding 7%Z) (toy_encoding 1%Z)
    (toy_encoding ToyStore.first_input) toy_created_represents toy_created_head
    ltac:(toy_number) ltac:(toy_number) toy_first_encodes)
    as [Hw|(row & b' & Hrow & _)]; [|by apply elem_of_nil in Hrow].
  toy_outcome Hw [ToyStore.first]. destruct Hw as (db' & Hc & _ & Hr & _). exists db'. exact (conj Hc Hr).
Defined.

Lemma append_pair_atomic_witness :
  (exists db', represents ToyStore.identity db' [ToyStore.first; ToyStore.second] /\
     commit (append_distinct_event_pair (ToyStore.event "e-1" "proposal:a" 7) 1%Z 0
               (ToyStore.event "e-2" "proposal:b" 8) 2%Z 0) ToyStore.created =
     (db', Ok (receipt_of [] ToyStore.genesis ToyStore.first_digest ToyStore.first,
               receipt_of [ToyStore.first] ToyStore.first_digest
                 (hash_domain EVENT_DOMAIN (toy_encoding ToyStore.second_input)) ToyStore.second))) \/
  clashes [event_row 1 ToyStore.genesis ToyStore.first_digest ToyStore.first] (toy_encoding ToyStore.second_input).
Proof.
  pose proof (append_pair_atomic ToyStore.identity ToyStore.created [] (mkHead 0 ToyStore.genesis)
    (ToyStore.event "e-1" "proposal:a" 7) 1%Z 0 (ToyStore.event "e-2" "proposal:b" 8) 2%Z 0
    (toy_encoding 7%Z) (toy_encoding 1%Z) (toy_encoding ToyStore.first_input)
    (toy_encoding 8%Z) (toy_encoding 2%Z) (toy_encoding ToyStore.second_input)
    toy_created_represents toy_created_head ltac:(toy_number) ltac:(toy_number) ltac:(toy_number) ltac:(toy_number)
    toy_first_encodes toy_second_encodes eq_refl eq_refl ltac:(discriminate) eq_refl)
    as [Hw|[(row & b' & Hrow & _)|Hcol]]; [left|by apply elem_of_nil in Hrow|right; exact Hcol].
  toy_outcome Hw [ToyStore.first; ToyStore.second]. destruct Hw as (db' & _ & Hr & Hc). exists db'. exact (conj Hr Hc).
Defined.

(** A store with two writes of one entity. *)
Definition toy_written : Database :=
  let first := (commit (append_event (ToyStore.event "e-1" "proposal:a" 7) 1%Z 0) ToyStore.created).1 in
  (commit (append_event (ToyStore.event "e-2" "proposal:a" 8) 2%Z 1) first).1.
Definition toy_log : Log := [ToyStore.first; ToyStore.committed "e-2" "proposal:a" 8 2].

Lemma toy_written_represents : represents ToyStore.identity toy_written toy_log.
Proof.
  exists (toy_encoding ToyStore.identity).
  pose (v0 := mkView [] [] ToyStore.genesis).
  pose (v1 := view_append [] v0 ToyStore.first ToyStore.first_digest).
  pose (c2 := ToyStore.committed "e-2" "proposal:a" 8 2).
  pose (b2 := toy_encoding (input_of 2 ToyStore.first_digest c2)).
  exists (view_append [ToyStore.first] v1 c2 (hash_domain EVENT_DOMAIN b2)).
  split; [exact toy_identity_encodes|]. split.
  { apply (chain_snoc _ [ToyStore.first] v1 c2 b2).
    - apply (chain_snoc _ [] v0 ToyStore.first (toy_encoding ToyStore.first_input)); [apply chain_nil| | |].
      + split; vm_compute; reflexivity.
      + apply not_elem_of_nil.
      + exact toy_first_encodes.
    - split; vm_compute; reflexivity.
    - apply (bool_decide_unpack _). vm_compute. exact I.
    - toy_encoded. }
  split; [|split]; vm_compute; reflexivity.
Qed.

Lemma reads_latest_state_witness :
  exists sequence digest row,
    materialized_state (fun _ => inr 2%Z) toy_written "proposal:a" =
      Ok (Some (mkMaterialized "proposal:a" 2 2%Z (hash_domain STATE_DOMAIN (toy_encoding 2%Z)) sequence digest)) /\
    find_event sequence (db_events toy_written) = Some row /\ er_entity_id row = "proposal:a" /\
    er_event_digest row = digest_str digest.
Proof.
  exact (reads_latest_state (fun _ => inr 2%Z) ToyStore.identity toy_written toy_log "proposal:a" toy_written_represents).
Defined.

Lemma toy_verifies : exists head, verify_chain ToyStore.identity toy_written = Ok head.
Proof. eexists. vm_compute. reflexivity. Qed.
Definition toy_row_encodes (r : EventRow) : bool :=
  ijson (to_value (row_input r)) && (Z.of_nat (length (toy_encoding (row_input r))) <? 256 ^ 16)%Z
  && (Z.of_nat (length (er_payload_jcs r)) <? 256 ^ 16)%Z.
Lemma toy_rows_encode : Forall row_encodes (db_events toy_written).
Proof.
  assert (forallb toy_row_encodes (db_events toy_written) = true) as Hall by (vm_compute; reflexivity).
  rewrite forallb_forall in Hall. apply List.Forall_forall. intros r Hr. apply Hall in Hr.
  unfold toy_row_encodes in Hr. apply andb_true_iff in Hr as [[Hi Hl]%andb_true_iff Hp].
  split; [eexists; by apply toy_encodes | by apply Z.ltb_lt].
Qed.

Lemma head_pins_history_witness :
  exists head, verify_chain ToyStore.identity toy_written = Ok head /\
    (db_events toy_written = db_events (set_blobs toy_written []) \/
     chains_collide "ag-store-event-chain-genesis-v1" (toy_encoding ToyStore.identity) (db_events toy_written)
       (db_events (set_blobs toy_written []))).
Proof.
  destruct toy_verifies as [head Hv]. exists head. split; [exact Hv|].
  exact (head_pins_history ToyStore.identity (toy_encoding ToyStore.identity) toy_written (set_blobs toy_written [])
    head toy_identity_encodes toy_rows_encode (blobs_keep_rows _ [] toy_rows_encode)
    Hv (blobs_not_chained _ _ [] _ Hv)).
Defined.

Lemma rolled_back_states_verify_witness :
  exists db0 head, represents ToyStore.identity db0 [ToyStore.first] /\
    verify_chain ToyStore.identity (set_states toy_written (db_states db0)) = Ok head /\ ch_sequence head = 2%Z.
Proof.
  destruct (rolled_back_states_verify ToyStore.identity toy_written [ToyStore.first]
    [ToyStore.committed "e-2" "proposal:a" 8 2] toy_written_represents) as (db0 & head & Hr & _ & Hs & Hv).
  exists db0, head. exact (conj Hr (conj Hv Hs)).
Defined.

Lemma toy_identity_valid : identity_validate ToyStore.identity = Ok tt.
Proof. vm_compute. reflexivity. Qed.
Lemma toy_activation_encodes : encodes ToyStore.activation (toy_encoding ToyStore.activation).
Proof. toy_encoded. Qed.
Lemma toy_opened_enrolled :
  enrolled ToyStore.identity ToyStore.activation (toy_encoding ToyStore.activation) 1000 ToyStore.opened.
Proof. unfold enrolled. split_all; vm_compute; reflexivity. Qed.

Lemma activation_is_fixed_witness :
  open_store ToyStore.decode false ToyStore.identity None ToyStore.writer ToyStore.opened =
  (ToyStore.opened, Err ActivationIdentityRequired).
Proof.
  destruct (activation_is_fixed ToyStore.decode ToyStore.identity ToyStore.activation
    (toy_encoding ToyStore.identity) (toy_encoding ToyStore.activation) ToyStore.writer
    toy_identity_valid eq_refl eq_refl toy_identity_encodes toy_activation_encodes eq_refl) as [_ Hopen].
  rewrite (Hopen ToyStore.opened false ToyStore.identity None ToyStore.writer toy_opened_enrolled toy_identity_valid
    eq_refl eq_refl).
  by rewrite decide_True.
Defined.

Lemma str_sorted_NoDup l : str_sorted l -> NoDup l.
Proof.
  induction 1 as [|x l Hs IH Hx]; constructor; [|done]. intros Hin. rewrite List.Forall_forall in Hx.
  apply list_elem_of_In in Hin. specialize (Hx _ Hin). by rewrite str_ltb_irrefl in Hx.
Qed.

Lemma prefixed_ids_length db prefix : length (prefixed_ids db prefix) <= length (db_states db).
Proof.
  rewrite <- (List.length_map st_entity_id (db_states db)).
  apply submseteq_length, NoDup_submseteq; [apply str_sorted_NoDup, sort_dedup_sorted|].
  by intros id [Hin _]%prefixed_ids_elem.
Qed.

(** Walking a prefix in pages terminates with everything: with more fuel than
    there are identifiers, the daemons' loop over [Store::entity_ids_after] ends
    without an error, and the pages it read are, in order and without repetition,
    exactly the identifiers of the state table that have the prefix. *)
Theorem page_walk_complete fuel db prefix limit :
  page_request_ok db prefix limit -> length (db_states db) < fuel ->
  exists ids, walk_pages fuel db prefix None limit = Some (Ok ids) /\
    str_sorted ids /\ NoDup ids /\
    forall id, id ∈ ids <-> id ∈ map st_entity_id (db_states db) /\ starts_with id prefix = true.
Proof.
  intros Hok Hf. exists (prefixed_ids db prefix). split_all.
  - apply walk_pages_all; [done|]. pose proof (prefixed_ids_length db prefix). lia.
  - apply sort_dedup_sorted.
  - apply str_sorted_NoDup, sort_dedup_sorted.
  - apply prefixed_ids_elem.
Qed.

Lemma page_walk_complete_witness :
  exists ids, walk_pages 2 toy_written "proposal:" None 1 = Some (Ok ids) /\ "proposal:a" ∈ ids.
Proof.
  destruct (page_walk_complete 2 toy_written "proposal:" 1) as (ids & Hw & _ & _ & Hin).
  - split; [vm_compute; reflexivity|]. split; [done|]. intros id. 
    assert (map st_entity_id (db_states toy_written) = ["proposal:a"]) as -> by (vm_compute; reflexivity).
    intros ->%list_elem_of_singleton. vm_compute. reflexivity.
  - vm_compute. lia.
  - exists ids. split; [exact Hw|]. apply Hin. split; [|reflexivity]. vm_compute. left.
Defined.
