(* ===== verification/StoreBackup.v ===== *)
(** * Coherent backup cuts (ag-store/src/lib.rs)

    A backup cut is a barrier: from its begin to its release or abort the store
    refuses ordinary appends, while three participants hand in checkpoints, a
    manifest of exactly those is sealed, and a bundle of three captures is
    published.  Each method is a transaction on the [Database] of Store.v; the
    constraints the schema puts on the two backup tables are part of the
    statements.  Reading back a stored checkpoint is [serde_json::from_slice], a
    parameter of the operations that do it. *)

From S2P Require Import Prelude Wire Fixture Digest Names Origin Store.

(** ** Roles and states *)

Definition REQUIRED_BACKUP_PARTICIPANTS : list BackupParticipantV1 := [Agd; AgEffectd; AgProviderd].

(** [BackupParticipantV1::as_str] and [from_str]. *)
Definition participant_as_str (p : BackupParticipantV1) : string :=
  match p with Agd => "agd" | AgEffectd => "ag-effectd" | AgProviderd => "ag-providerd" end.
Definition participant_from_str (value : string) : res StoreError BackupParticipantV1 :=
  if value == "agd" then Ok Agd
  else if value == "ag-effectd" then Ok AgEffectd
  else if value == "ag-providerd" then Ok AgProviderd
  else Err (Corrupt (UnknownParticipant value)).

(** [BackupCutStateV1::as_str] and [from_str]. *)
Definition state_as_str (s : BackupCutStateV1) : string :=
  match s with
  | Preparing => "preparing" | Prepared => "prepared" | Sealed => "sealed" | Released => "released" | Aborted => "aborted"
  end.
Definition state_from_str (value : string) : res StoreError BackupCutStateV1 :=
  if value == "preparing" then Ok Preparing
  else if value == "prepared" then Ok Prepared
  else if value == "sealed" then Ok Sealed
  else if value == "released" then Ok Released
  else if value == "aborted" then Ok Aborted
  else Err (Corrupt (UnknownBackupState value)).

#[global] Instance BackupParticipantV1_serialize : Serialize BackupParticipantV1 := fun p => VString (participant_as_str p).
#[global] Instance BackupParticipantV1_inj : SerializeInj BackupParticipantV1.
Proof. ser_unit_enum. Qed.
#[global] Instance BackupCutStateV1_serialize : Serialize BackupCutStateV1 := fun s => VString (state_as_str s).
#[global] Instance BackupCutStateV1_inj : SerializeInj BackupCutStateV1.
Proof. ser_unit_enum. Qed.
#[global] Instance ChainHeadV1_serialize : Serialize ChainHeadV1 := fun h =>
  VObject [("sequence", to_value (ch_sequence h)); ("digest", to_value (ch_digest h))].
#[global] Instance ChainHeadV1_inj : SerializeInj ChainHeadV1.
Proof. ser_struct. Qed.
#[global] Instance BlobDescriptorV1_serialize : Serialize BlobDescriptorV1 := fun b =>
  VObject [("digest", to_value (bd_digest b)); ("byte_length", to_value (bd_byte_length b))].
#[global] Instance BlobDescriptorV1_inj : SerializeInj BlobDescriptorV1.
Proof. ser_struct. Qed.

(** ** Requests and records *)

Record BackupParticipantRegistrationV1 : Type := mkRegistration {
  rg_participant : BackupParticipantV1;
  rg_component_identity : Digest
}.
#[global] Instance BackupParticipantRegistrationV1_serialize : Serialize BackupParticipantRegistrationV1 := fun r =>
  VObject [("participant", to_value (rg_participant r)); ("component_identity", to_value (rg_component_identity r))].
#[global] Instance BackupParticipantRegistrationV1_inj : SerializeInj BackupParticipantRegistrationV1.
Proof. ser_struct. Qed.

Record BeginBackupCutV1 : Type := mkBegin {
  bc_cut_id : string;
  bc_authority_domain : AuthorityDomainId;
  bc_epoch : EpochId;
  bc_quiescence_barrier_id : string;
  bc_participants : list BackupParticipantRegistrationV1;
  bc_created_at_unix_ms : Z
}.
#[global] Instance BeginBackupCutV1_serialize : Serialize BeginBackupCutV1 := fun r =>
  VObject [("cut_id", to_value (bc_cut_id r)); ("authority_domain", to_value (bc_authority_domain r));
           ("epoch", to_value (bc_epoch r)); ("quiescence_barrier_id", to_value (bc_quiescence_barrier_id r));
           ("participants", to_value (bc_participants r)); ("created_at_unix_ms", to_value (bc_created_at_unix_ms r))].
#[global] Instance BeginBackupCutV1_inj : SerializeInj BeginBackupCutV1.
Proof. ser_struct. Qed.

Inductive QuiescenceBoundaryV1 : Type := OfflineServicesStopped.
#[global] Instance QuiescenceBoundaryV1_eq_dec : EqDecision QuiescenceBoundaryV1.
Proof. solve_decision. Defined.
#[global] Instance QuiescenceBoundaryV1_serialize : Serialize QuiescenceBoundaryV1 :=
  fun _ => VString "offline_services_stopped".
#[global] Instance QuiescenceBoundaryV1_inj : SerializeInj QuiescenceBoundaryV1.
Proof. ser_unit_enum. Qed.

Record QuiescenceBarrierAttestationV1 : Type := mkAttestation {
  qa_schema : string;
  qa_cut_id : string;
  qa_authority_domain : AuthorityDomainId;
  qa_epoch : EpochId;
  qa_quiescence_barrier_id : string;
  qa_participant : BackupParticipantV1;
  qa_boundary : QuiescenceBoundaryV1;
  qa_boundary_summary : Digest;
  qa_attesting_principal : Digest;
  qa_attested_at_unix_ms : Z
}.
#[global] Instance QuiescenceBarrierAttestationV1_eq_dec : EqDecision QuiescenceBarrierAttestationV1.
Proof. solve_decision. Defined.
#[global] Instance QuiescenceBarrierAttestationV1_serialize : Serialize QuiescenceBarrierAttestationV1 := fun a =>
  VObject [("schema", to_value (qa_schema a)); ("cut_id", to_value (qa_cut_id a));
           ("authority_domain", to_value (qa_authority_domain a)); ("epoch", to_value (qa_epoch a));
           ("quiescence_barrier_id", to_value (qa_quiescence_barrier_id a));
           ("participant", to_value (qa_participant a)); ("boundary", to_value (qa_boundary a));
           ("boundary_summary", to_value (qa_boundary_summary a));
           ("attesting_principal", to_value (qa_attesting_principal a));
           ("attested_at_unix_ms", to_value (qa_attested_at_unix_ms a))].
#[global] Instance QuiescenceBarrierAttestationV1_inj : SerializeInj QuiescenceBarrierAttestationV1.
Proof. ser_struct. Qed.

Record BackupCheckpointV1 : Type := mkCheckpoint {
  cp_participant : BackupParticipantV1;
  cp_component_identity : Digest;
  cp_chain_head : ChainHeadV1;
  cp_blob_root : StoreDigestV1;
  cp_config_identity : Digest;
  cp_schema_identity : Digest;
  cp_profile_identity : Digest;
  cp_build_identity : Digest;
  cp_quiescence_attestation : QuiescenceBarrierAttestationV1
}.
#[global] Instance BackupCheckpointV1_eq_dec : EqDecision BackupCheckpointV1.
Proof. solve_decision. Defined.
#[global] Instance BackupCheckpointV1_serialize : Serialize BackupCheckpointV1 := fun c =>
  VObject [("participant", to_value (cp_participant c)); ("component_identity", to_value (cp_component_identity c));
           ("chain_head", to_value (cp_chain_head c)); ("blob_root", to_value (cp_blob_root c));
           ("config_identity", to_value (cp_config_identity c)); ("schema_identity", to_value (cp_schema_identity c));
           ("profile_identity", to_value (cp_profile_identity c)); ("build_identity", to_value (cp_build_identity c));
           ("quiescence_attestation", to_value (cp_quiescence_attestation c))].
#[global] Instance BackupCheckpointV1_inj : SerializeInj BackupCheckpointV1.
Proof. ser_struct. Qed.

Record PreparedParticipantV1 : Type := mkPrepared {
  pp_checkpoint : BackupCheckpointV1;
  pp_prepared_event_sequence : Z;
  pp_prepared_event_digest : StoreDigestV1
}.
#[global] Instance PreparedParticipantV1_eq_dec : EqDecision PreparedParticipantV1.
Proof. solve_decision. Defined.
#[global] Instance PreparedParticipantV1_serialize : Serialize PreparedParticipantV1 := fun p =>
  VObject [("checkpoint", to_value (pp_checkpoint p)); ("prepared_event_sequence", to_value (pp_prepared_event_sequence p));
           ("prepared_event_digest", to_value (pp_prepared_event_digest p))].
#[global] Instance PreparedParticipantV1_inj : SerializeInj PreparedParticipantV1.
Proof. ser_struct. Qed.

Record BackupCutManifestV1 : Type := mkManifest {
  mf_version : string;
  mf_cut_id : string;
  mf_authority_domain : AuthorityDomainId;
  mf_epoch : EpochId;
  mf_quiescence_barrier_id : string;
  mf_participants : list PreparedParticipantV1
}.
#[global] Instance BackupCutManifestV1_eq_dec : EqDecision BackupCutManifestV1.
Proof. solve_decision. Defined.
#[global] Instance BackupCutManifestV1_serialize : Serialize BackupCutManifestV1 := fun m =>
  VObject [("version", to_value (mf_version m)); ("cut_id", to_value (mf_cut_id m));
           ("authority_domain", to_value (mf_authority_domain m)); ("epoch", to_value (mf_epoch m));
           ("quiescence_barrier_id", to_value (mf_quiescence_barrier_id m));
           ("participants", to_value (mf_participants m))].
#[global] Instance BackupCutManifestV1_inj : SerializeInj BackupCutManifestV1.
Proof. ser_struct. Qed.

Record BackupCutRecordV1 : Type := mkCutRecord {
  bk_cut_id : string;
  bk_state : BackupCutStateV1;
  bk_prepared_participants : Z;
  bk_manifest_digest : option StoreDigestV1;
  bk_release_bundle_digest : option Digest;
  bk_abort_reason : option string
}.

(** The state row of a cut, and the payloads of its last events. *)
Record BackupCutMaterializedV1 : Type := mkCutMaterialized {
  bm_cut_id : string;
  bm_state : BackupCutStateV1;
  bm_prepared_participants : Z;
  bm_manifest_digest : option StoreDigestV1;
  bm_release_bundle_digest : option Digest;
  bm_abort_reason : option string
}.
#[global] Instance BackupCutMaterializedV1_serialize : Serialize BackupCutMaterializedV1 := fun b =>
  VObject [("cut_id", to_value (bm_cut_id b)); ("state", to_value (bm_state b));
           ("prepared_participants", to_value (bm_prepared_participants b));
           ("manifest_digest", to_value (bm_manifest_digest b));
           ("release_bundle_digest", to_value (bm_release_bundle_digest b));
           ("abort_reason", to_value (bm_abort_reason b))].

Record BackupAbortPayloadV1 : Type := mkAbortPayload { ab_cut_id : string; ab_reason : string }.
#[global] Instance BackupAbortPayloadV1_serialize : Serialize BackupAbortPayloadV1 := fun p =>
  VObject [("cut_id", to_value (ab_cut_id p)); ("reason", to_value (ab_reason p))].
Record BackupReleasePayloadV1 : Type := mkReleasePayload { rl_cut_id : string; rl_bundle_digest : Digest }.
#[global] Instance BackupReleasePayloadV1_serialize : Serialize BackupReleasePayloadV1 := fun p =>
  VObject [("cut_id", to_value (rl_cut_id p)); ("bundle_digest", to_value (rl_bundle_digest p))].

(** ** Validation *)

(** A set of roles, and a set of digests, as the [BTreeSet]s of the code compare. *)
Definition same_roles (l l' : list BackupParticipantV1) : bool :=
  forallb (fun p => bool_decide (p ∈ l')) l && forallb (fun p => bool_decide (p ∈ l)) l'.

(** [BeginBackupCutV1::validate]. *)
Definition begin_validate (r : BeginBackupCutV1) : res StoreError unit :=
  validate_store_identifier "cut_id" (bc_cut_id r) 192 ;?
  validate_store_identifier "quiescence_barrier_id" (bc_quiescence_barrier_id r) 192 ;?
  reject_if (negb (length (bc_participants r) =? length REQUIRED_BACKUP_PARTICIPANTS)
             || negb (same_roles (map rg_participant (bc_participants r)) REQUIRED_BACKUP_PARTICIPANTS))
    InvalidBackupParticipants ;?
  reject_if (negb (length (remove_dups (map rg_component_identity (bc_participants r)))
                   =? length REQUIRED_BACKUP_PARTICIPANTS))
    InvalidBackupParticipants ;?
  Ok tt.

(** [QuiescenceBarrierAttestationV1::validate_for]. *)
Definition ATTESTATION_SCHEMA : string := "ag-store-offline-quiescence-attestation-v1".
Definition attestation_validate_for (a : QuiescenceBarrierAttestationV1) (cut_id : string)
    (authority_domain : AuthorityDomainId) (epoch : EpochId) (barrier_id : string) (participant : BackupParticipantV1)
    : res StoreError unit :=
  reject_if ((qa_schema a != ATTESTATION_SCHEMA) || (qa_cut_id a != cut_id)
             || (qa_authority_domain a != authority_domain) || (qa_epoch a != epoch)
             || (qa_quiescence_barrier_id a != barrier_id) || (qa_participant a != participant)
             || (qa_boundary a != OfflineServicesStopped))
    (InvalidQuiescenceAttestation participant) ;?
  Ok tt.

(** ** Statements on the backup tables *)

Definition find_cut (cut_id : string) (db : Database) : option CutRow :=
  List.find (fun r => cr_cut_id r == cut_id) (db_cuts db).
Definition is_participant (cut_id role : string) (r : ParticipantRow) : bool :=
  (pr_cut_id r == cut_id) && (pr_participant r == role).
Definition find_participant (cut_id role : string) (db : Database) : option ParticipantRow :=
  List.find (is_participant cut_id role) (db_participants db).
Definition event_exists (db : Database) (sequence : Z) : bool :=
  existsb (fun e => (er_sequence e =? sequence)%Z) (db_events db).

(** The CHECK clauses of [backup_cuts]. *)
Definition set {A} (o : option A) : bool := match o with Some _ => true | None => false end.
Definition cut_checks (r : CutRow) : bool :=
  (0 <? cr_epoch r)%Z
  && (active_state (cr_state r) || (cr_state r == "released") || (cr_state r == "aborted"))
  && (negb ((cr_state r == "sealed") || (cr_state r == "released")) || set (cr_manifest_digest r))
  && (negb ((cr_state r == "preparing") || (cr_state r == "prepared")) || negb (set (cr_manifest_digest r)))
  && Bool.eqb (cr_state r == "released") (set (cr_release_bundle_digest r))
  && Bool.eqb (cr_state r == "aborted") (set (cr_abort_reason r)).

(** The UNIQUE columns, and the index [one_active_backup_cut]. *)
Definition event_clash (a b : option (Z * string)) : bool :=
  match a, b with
  | Some (s, d), Some (s', d') => (s =? s')%Z || (d == d')
  | _, _ => false
  end.
Definition cut_clash (r s : CutRow) : bool :=
  (cr_quiescence_barrier_id r == cr_quiescence_barrier_id s)
  || event_clash (Some (cr_begin_event_sequence r, cr_begin_event_digest r))
       (Some (cr_begin_event_sequence s, cr_begin_event_digest s))
  || event_clash (cr_seal_event r) (cr_seal_event s)
  || event_clash (cr_release_event r) (cr_release_event s)
  || event_clash (cr_abort_event r) (cr_abort_event s)
  || (active_state (cr_state r) && active_state (cr_state s)).

(** The foreign keys. *)
Definition cut_events (r : CutRow) : list Z :=
  cr_begin_event_sequence r
  :: flat_map (fun o => match o with Some (s, _) => [s] | None => [] end)
       [cr_seal_event r; cr_release_event r; cr_abort_event r].

Definition cut_admissible (db : Database) (r : CutRow) : bool :=
  cut_checks r && forallb (event_exists db) (cut_events r)
  && forallb (fun s => (cr_cut_id s == cr_cut_id r) || negb (cut_clash r s)) (db_cuts db).

(** [INSERT INTO backup_cuts] and [UPDATE backup_cuts ... WHERE cut_id = ?1]. *)
Definition insert_cut (r : CutRow) : Tx unit := fun db =>
  reject_if (set (find_cut (cr_cut_id r) db) || negb (cut_admissible db r)) (Sqlite ConstraintViolation) ;?
  Ok (set_cuts db (db_cuts db ++ [r]), tt).
Definition update_cut (cut_id : string) (f : CutRow -> CutRow) : Tx unit := fun db =>
  match find_cut cut_id db with
  | None => Ok (db, tt)
  | Some r =>
      reject_if (negb (cut_admissible db (f r))) (Sqlite ConstraintViolation) ;?
      Ok (set_cuts db (map (fun s => if cr_cut_id s == cut_id then f r else s) (db_cuts db)), tt)
  end.

(** [INSERT INTO backup_participants] and the [UPDATE] that fills the checkpoint
    columns of a row that has none; the number of rows changed. *)
Definition insert_participant (r : ParticipantRow) : Tx unit := fun db =>
  reject_if (set (find_participant (pr_cut_id r) (pr_participant r) db)
             || negb (bool_decide (pr_participant r ∈ map participant_as_str REQUIRED_BACKUP_PARTICIPANTS))
             || negb (set (find_cut (pr_cut_id r) db)))
    (Sqlite ConstraintViolation) ;?
  Ok (set_participants db (db_participants db ++ [r]), tt).
Definition checkpoint_clash (c : CheckpointColumns) (r : ParticipantRow) : bool :=
  match pr_checkpoint r with
  | Some c' => (cc_prepared_event_sequence c =? cc_prepared_event_sequence c')%Z
               || (cc_prepared_event_digest c == cc_prepared_event_digest c')
  | None => false
  end.
Definition fill_checkpoint (cut_id role : string) (c : CheckpointColumns) : Tx nat := fun db =>
  match find_participant cut_id role db with
  | Some (mkParticipantRow _ _ component None) =>
      reject_if (existsb (checkpoint_clash c) (db_participants db)
                 || negb (event_exists db (cc_prepared_event_sequence c)))
        (Sqlite ConstraintViolation) ;?
      Ok (set_participants db
            (map (fun r => if is_participant cut_id role r
                           then mkParticipantRow cut_id role component (Some c) else r) (db_participants db)), 1)
  | _ => Ok (db, 0)
  end.

(** [SELECT COUNT ... checkpoint_digest IS NOT NULL]. *)
Definition prepared_rows (cut_id : string) (db : Database) : list ParticipantRow :=
  List.filter (fun r => (pr_cut_id r == cut_id) && set (pr_checkpoint r)) (db_participants db).
Definition prepared_count (cut_id : string) (db : Database) : Z := Z.of_nat (length (prepared_rows cut_id db)).

(** Columns of a cut as the statements set them. *)
Definition cut_with_state (state : string) (now : Z) (r : CutRow) : CutRow :=
  mkCutRow (cr_cut_id r) (cr_authority_domain r) (cr_epoch r) (cr_quiescence_barrier_id r) state
    (cr_begin_request_digest r) (cr_begin_event_sequence r) (cr_begin_event_digest r) (cr_manifest_digest r)
    (cr_seal_event r) (cr_release_bundle_digest r) (cr_release_event r) (cr_abort_reason r) (cr_abort_event r)
    (cr_created_at_unix_ms r) now.
Definition cut_sealed (manifest : string) (event : Z * string) (now : Z) (r : CutRow) : CutRow :=
  mkCutRow (cr_cut_id r) (cr_authority_domain r) (cr_epoch r) (cr_quiescence_barrier_id r) "sealed"
    (cr_begin_request_digest r) (cr_begin_event_sequence r) (cr_begin_event_digest r) (Some manifest)
    (Some event) (cr_release_bundle_digest r) (cr_release_event r) (cr_abort_reason r) (cr_abort_event r)
    (cr_created_at_unix_ms r) now.
Definition cut_released (bundle : string) (event : Z * string) (now : Z) (r : CutRow) : CutRow :=
  mkCutRow (cr_cut_id r) (cr_authority_domain r) (cr_epoch r) (cr_quiescence_barrier_id r) "released"
    (cr_begin_request_digest r) (cr_begin_event_sequence r) (cr_begin_event_digest r) (cr_manifest_digest r)
    (cr_seal_event r) (Some bundle) (Some event) (cr_abort_reason r) (cr_abort_event r)
    (cr_created_at_unix_ms r) now.
Definition cut_aborted (reason : string) (event : Z * string) (now : Z) (r : CutRow) : CutRow :=
  mkCutRow (cr_cut_id r) (cr_authority_domain r) (cr_epoch r) (cr_quiescence_barrier_id r) "aborted"
    (cr_begin_request_digest r) (cr_begin_event_sequence r) (cr_begin_event_digest r) (cr_manifest_digest r)
    (cr_seal_event r) (cr_release_bundle_digest r) (cr_release_event r) (Some reason) (Some event)
    (cr_created_at_unix_ms r) now.

(** [backup_entity_id] and the event identifiers. *)
Definition backup_entity_id (cut_id : string) : string := "backup-cut:" +:+ cut_id.
Definition backup_event_id (cut_id suffix : string) : string := "backup:" +:+ cut_id +:+ ":" +:+ suffix.
Definition required_backup_participant_count : Z := 3.

(** [.map(parse).transpose()] of a column that may be [NULL]. *)
Definition parse_optional {A} (parse : string -> res StoreError A) (o : option string) : res StoreError (option A) :=
  match o with None => Ok None | Some text => let? d := parse text in Ok (Some d) end.

(** [u8::try_from] of a count. *)
Definition count_u8 (count : Z) : res StoreError Z :=
  reject_if (255 <? count)%Z (Corrupt PreparedCountOverflow) ;? Ok count.

Section Cuts.
  Context `{Deps}.

(** ** Operations *)

(** [backup_state_in_transaction]. *)
Definition backup_state_in_transaction (db : Database) (cut_id : string) : res StoreError BackupCutStateV1 :=
  let? row := ok_or (BackupCutNotFound cut_id) (find_cut cut_id db) in
  state_from_str (cr_state row).

Definition BEGIN_DOMAIN : string := "ag-store-backup-begin-request-v1".
Definition CHECKPOINT_DOMAIN : string := "ag-store-backup-checkpoint-v1".
Definition MANIFEST_DOMAIN : string := "ag-store-backup-manifest-v1".

(** The loop that registers the participants. *)
Fixpoint insert_registrations (cut_id : string) (l : list BackupParticipantRegistrationV1) : Tx unit := fun db =>
  match l with
  | [] => Ok (db, tt)
  | r :: l' =>
      let? (db, _) := insert_participant
        (mkParticipantRow cut_id (participant_as_str (rg_participant r)) (digest_str (rg_component_identity r)) None) db in
      insert_registrations cut_id l' db
  end.

(** [Store::begin_backup_cut]. *)
Definition begin_backup_cut (request : BeginBackupCutV1) : Tx EventReceiptV1 := fun db =>
  begin_validate request ;?
  let? request_digest := digest_jcs BEGIN_DOMAIN request in
  let cut_id := bc_cut_id request in
  match find_cut cut_id db with
  | Some row =>
      reject_if (cr_begin_request_digest row != digest_str request_digest) (BackupCutConflict cut_id) ;?
      let? receipt := event_receipt_by_sequence db (cr_begin_event_sequence row) in
      Ok (db, receipt)
  | None =>
      reject_if (set (active_backup_cut db)) BackupCutAlreadyActive ;?
      let state := mkCutMaterialized cut_id Preparing 0 None None None in
      let? (db, receipt) := append_event_in_transaction
        (mkNewEvent (backup_event_id cut_id "begin") (backup_entity_id cut_id) "backup-cut.begin.v1"
           (bc_created_at_unix_ms request) request) state 0 db in
      let? epoch := to_i64 (epoch_get (bc_epoch request)) "backup epoch" in
      let? sequence := to_i64 (rc_sequence receipt) "event sequence" in
      let? (db, _) := insert_cut
        (mkCutRow cut_id (as_str (bc_authority_domain request)) epoch (bc_quiescence_barrier_id request) "preparing"
           (digest_str request_digest) sequence (digest_str (rc_event_digest receipt)) None None None None None None
           (bc_created_at_unix_ms request) (bc_created_at_unix_ms request)) db in
      let? (db, _) := insert_registrations cut_id (bc_participants request) db in
      Ok (db, receipt)
  end.

(** [Store::prepare_backup_participant]. *)
Definition prepare_backup_participant (cut_id : string) (checkpoint : BackupCheckpointV1) (occurred_at_unix_ms : Z)
    : Tx EventReceiptV1 := fun db =>
  let? row := ok_or (BackupCutNotFound cut_id) (find_cut cut_id db) in
  let? authority_domain := map_err (fun e => Corrupt (StoredIdentifier e))
                             (identifier_new AuthorityDomainId_k (cr_authority_domain row)) in
  let? epoch_u64 := to_u64 (cr_epoch row) "backup epoch" in
  let? epoch := map_err (fun e => Corrupt (StoredIdentifier e)) (EpochId_new epoch_u64) in
  let participant := cp_participant checkpoint in
  let role := participant_as_str participant in
  attestation_validate_for (cp_quiescence_attestation checkpoint) cut_id authority_domain epoch
    (cr_quiescence_barrier_id row) participant ;?
  let? checkpoint_jcs := jcs checkpoint in
  let checkpoint_digest := hash_domain CHECKPOINT_DOMAIN checkpoint_jcs in
  let? registered := ok_or (BackupParticipantMismatch participant) (find_participant cut_id role db) in
  reject_if (pr_component_identity registered != digest_str (cp_component_identity checkpoint))
    (BackupParticipantMismatch participant) ;?
  match pr_checkpoint registered with
  | Some prior =>
      reject_if (cc_checkpoint_digest prior != digest_str checkpoint_digest) (BackupCheckpointConflict participant) ;?
      let? receipt := event_receipt_by_sequence db (cc_prepared_event_sequence prior) in
      Ok (db, receipt)
  | None =>
      let? state := backup_state_in_transaction db cut_id in
      reject_if (negb ((state == Preparing) || (state == Prepared)))
        (InvalidBackupTransition "prepare participant" state) ;?
      let resulting_count := (prepared_count cut_id db + 1)%Z in
      let resulting_state :=
        if (resulting_count =? Z.of_nat (length REQUIRED_BACKUP_PARTICIPANTS))%Z then Prepared else Preparing in
      let? current_revision := materialized_revision db (backup_entity_id cut_id) in
      let? prepared_participants := count_u8 resulting_count in
      let materialized := mkCutMaterialized cut_id resulting_state prepared_participants None None None in
      let? (db, receipt) := append_event_in_transaction
        (mkNewEvent (backup_event_id cut_id ("prepared:" +:+ role)) (backup_entity_id cut_id)
           "backup-cut.participant-prepared.v1" occurred_at_unix_ms checkpoint) materialized current_revision db in
      let? sequence := to_i64 (rc_sequence receipt) "event sequence" in
      let? (db, changed) := fill_checkpoint cut_id role
        (mkCheckpointColumns checkpoint_jcs (digest_str checkpoint_digest) sequence
           (digest_str (rc_event_digest receipt))) db in
      reject_if (negb (changed =? 1)) (BackupCheckpointConflict participant) ;?
      let? (db, _) := update_cut cut_id (cut_with_state (state_as_str resulting_state) occurred_at_unix_ms) db in
      Ok (db, receipt)
  end.

(** [build_backup_manifest_from_connection]: rows in the order of their role's
    text, one map entry per role, then the required roles are taken out. *)
Fixpoint insert_by_role (r : ParticipantRow) (l : list ParticipantRow) : list ParticipantRow :=
  match l with
  | [] => [r]
  | s :: l' => if str_ltb (pr_participant r) (pr_participant s) then r :: l else s :: insert_by_role r l'
  end.
Definition participant_rows (cut_id : string) (db : Database) : list ParticipantRow :=
  foldr insert_by_role [] (List.filter (fun r => pr_cut_id r == cut_id) (db_participants db)).
Definition RoleMap : Type := list (BackupParticipantV1 * PreparedParticipantV1).
Definition role_get (role : BackupParticipantV1) (m : RoleMap) : option PreparedParticipantV1 :=
  option_map snd (List.find (fun kv => kv.1 == role) m).
Definition role_remove (role : BackupParticipantV1) (m : RoleMap) : RoleMap :=
  List.filter (fun kv => kv.1 != role) m.
Fixpoint read_prepared (decode : bytes -> string + BackupCheckpointV1) (rows : list ParticipantRow) (by_role : RoleMap)
    : res StoreError RoleMap :=
  match rows with
  | [] => Ok by_role
  | row :: rows' =>
      let? role := participant_from_str (pr_participant row) in
      let? columns := ok_or BackupNotPrepared (pr_checkpoint row) in
      let? checkpoint := match decode (cc_checkpoint_jcs columns) with
                         | inl m => Err (InvalidStoredJson m)
                         | inr c => Ok c
                         end in
      reject_if (cp_participant checkpoint != role) (Corrupt CheckpointRoleMismatch) ;?
      let? sequence := to_u64 (cc_prepared_event_sequence columns) "prepared event sequence" in
      let? digest := store_digest_parse (cc_prepared_event_digest columns) in
      read_prepared decode rows' ((role, mkPrepared checkpoint sequence digest) :: role_remove role by_role)
  end.
Fixpoint take_roles (roles : list BackupParticipantV1) (by_role : RoleMap)
    : res StoreError (list PreparedParticipantV1 * RoleMap) :=
  match roles with
  | [] => Ok ([], by_role)
  | role :: roles' =>
      let? prepared := ok_or BackupNotPrepared (role_get role by_role) in
      let? (rest, others) := take_roles roles' (role_remove role by_role) in
      Ok (prepared :: rest, others)
  end.
Definition build_backup_manifest (decode : bytes -> string + BackupCheckpointV1) (db : Database) (cut_id : string)
    : res StoreError BackupCutManifestV1 :=
  let? row := ok_or (BackupCutNotFound cut_id) (find_cut cut_id db) in
  let? state := state_from_str (cr_state row) in
  reject_if (negb ((state == Prepared) || (state == Sealed) || (state == Released))) BackupNotPrepared ;?
  let? by_role := read_prepared decode (participant_rows cut_id db) [] in
  let? (participants, others) := take_roles REQUIRED_BACKUP_PARTICIPANTS by_role in
  reject_if (negb (match others with [] => true | _ => false end)) InvalidBackupParticipants ;?
  let? authority_domain := map_err (fun e => Corrupt (InvalidStoredDomain e))
                             (identifier_new AuthorityDomainId_k (cr_authority_domain row)) in
  let? epoch_u64 := to_u64 (cr_epoch row) "backup epoch" in
  let? epoch := map_err (fun e => Corrupt (InvalidStoredEpoch e)) (EpochId_new epoch_u64) in
  Ok (mkManifest "backup-cut/v1" cut_id authority_domain epoch (cr_quiescence_barrier_id row) participants).

(** [Store::seal_backup_cut]. *)
Definition seal_backup_cut (decode : bytes -> string + BackupCheckpointV1) (manifest : BackupCutManifestV1)
    (occurred_at_unix_ms : Z) : Tx EventReceiptV1 := fun db =>
  let? manifest_digest := digest_jcs MANIFEST_DOMAIN manifest in
  let cut_id := mf_cut_id manifest in
  let? row := ok_or (BackupCutNotFound cut_id) (find_cut cut_id db) in
  state_from_str (cr_state row) ;?
  match cr_manifest_digest row with
  | Some stored =>
      reject_if (stored != digest_str manifest_digest) BackupManifestMismatch ;?
      let? sequence := ok_or (Corrupt SealedLacksSequence) (option_map fst (cr_seal_event row)) in
      let? receipt := event_receipt_by_sequence db sequence in
      Ok (db, receipt)
  | None =>
      let? expected := build_backup_manifest decode db cut_id in
      let? expected_jcs := jcs expected in
      let? manifest_jcs := jcs manifest in
      reject_if (expected_jcs != manifest_jcs) BackupManifestMismatch ;?
      let? state := backup_state_in_transaction db cut_id in
      reject_if (state != Prepared) (InvalidBackupTransition "seal" state) ;?
      let? current_revision := materialized_revision db (backup_entity_id cut_id) in
      let materialized := mkCutMaterialized cut_id Sealed required_backup_participant_count (Some manifest_digest) None None in
      let? (db, receipt) := append_event_in_transaction
        (mkNewEvent (backup_event_id cut_id "sealed") (backup_entity_id cut_id) "backup-cut.sealed.v1"
           occurred_at_unix_ms manifest) materialized current_revision db in
      let? sequence := to_i64 (rc_sequence receipt) "event sequence" in
      let? (db, _) := update_cut cut_id
        (cut_sealed (digest_str manifest_digest) (sequence, digest_str (rc_event_digest receipt)) occurred_at_unix_ms) db in
      Ok (db, receipt)
  end.

(** [Store::release_backup_cut]. *)
Definition release_backup_cut (cut_id : string) (bundle_digest : Digest) (occurred_at_unix_ms : Z)
    : Tx EventReceiptV1 := fun db =>
  let? row := ok_or (BackupCutNotFound cut_id) (find_cut cut_id db) in
  let? state := state_from_str (cr_state row) in
  if state == Released then
    reject_if (cr_release_bundle_digest row != Some (digest_str bundle_digest)) (BackupCutConflict cut_id) ;?
    let? sequence := ok_or (Corrupt ReleasedLacksSequence) (option_map fst (cr_release_event row)) in
    let? receipt := event_receipt_by_sequence db sequence in
    Ok (db, receipt)
  else
    let? state := backup_state_in_transaction db cut_id in
    reject_if (state != Sealed) (InvalidBackupTransition "release" state) ;?
    let? manifest_text := ok_or (Sqlite FromSqlConversionFailure) (cr_manifest_digest row) in
    let? manifest_digest := store_digest_parse manifest_text in
    let? current_revision := materialized_revision db (backup_entity_id cut_id) in
    let materialized := mkCutMaterialized cut_id Released required_backup_participant_count (Some manifest_digest)
                          (Some bundle_digest) None in
    let? (db, receipt) := append_event_in_transaction
      (mkNewEvent (backup_event_id cut_id "released") (backup_entity_id cut_id) "backup-cut.released.v1"
         occurred_at_unix_ms (mkReleasePayload cut_id bundle_digest)) materialized current_revision db in
    let? sequence := to_i64 (rc_sequence receipt) "event sequence" in
    let? (db, _) := update_cut cut_id
      (cut_released (digest_str bundle_digest) (sequence, digest_str (rc_event_digest receipt)) occurred_at_unix_ms) db in
    Ok (db, receipt).

(** [Store::abort_backup_cut]. *)
Definition abort_backup_cut (cut_id reason : string) (occurred_at_unix_ms : Z) : Tx EventReceiptV1 := fun db =>
  validate_store_identifier "abort_reason" reason 256 ;?
  let? row := ok_or (BackupCutNotFound cut_id) (find_cut cut_id db) in
  let? state := state_from_str (cr_state row) in
  if state == Aborted then
    reject_if (cr_abort_reason row != Some reason) (BackupCutConflict cut_id) ;?
    let? sequence := ok_or (Corrupt AbortedLacksSequence) (option_map fst (cr_abort_event row)) in
    let? receipt := event_receipt_by_sequence db sequence in
    Ok (db, receipt)
  else
    let? state := backup_state_in_transaction db cut_id in
    reject_if (negb ((state == Preparing) || (state == Prepared) || (state == Sealed)))
      (InvalidBackupTransition "abort" state) ;?
    let? current_revision := materialized_revision db (backup_entity_id cut_id) in
    let? manifest_digest := parse_optional store_digest_parse (cr_manifest_digest row) in
    let? count := count_u8 (prepared_count cut_id db) in
    let materialized := mkCutMaterialized cut_id Aborted count manifest_digest None (Some reason) in
    let? (db, receipt) := append_event_in_transaction
      (mkNewEvent (backup_event_id cut_id "aborted") (backup_entity_id cut_id) "backup-cut.aborted.v1"
         occurred_at_unix_ms (mkAbortPayload cut_id reason)) materialized current_revision db in
    let? sequence := to_i64 (rc_sequence receipt) "event sequence" in
    let? (db, _) := update_cut cut_id
      (cut_aborted reason (sequence, digest_str (rc_event_digest receipt)) occurred_at_unix_ms) db in
    Ok (db, receipt).

(** [backup_cut_from_connection]. *)
Definition backup_cut (db : Database) (cut_id : string) : res StoreError BackupCutRecordV1 :=
  let? row := ok_or (BackupCutNotFound cut_id) (find_cut cut_id db) in
  let? state := state_from_str (cr_state row) in
  let? count := count_u8 (prepared_count cut_id db) in
  let? manifest_digest := parse_optional store_digest_parse (cr_manifest_digest row) in
  let? bundle_digest := parse_optional store_digest_parse (cr_release_bundle_digest row) in
  Ok (mkCutRecord cut_id state count manifest_digest bundle_digest (cr_abort_reason row)).

End Cuts.
