(* ===== verification/StoreCuts.v ===== *)
(** * The backup barrier as a state machine (ag-store/src/lib.rs)

    What the calls on backup cuts do to the two backup tables, stated on
    sequences of calls: the tables stay coherent, a cut moves only along the
    edges of its lifecycle and never out of a final state, at most one cut is
    active, and while one is, ordinary appends are refused. *)

From S2P Require Import Prelude Wire Fixture Digest Names Origin Store StoreLog StoreSpec StoreBackup.

(** ** The lifecycle *)

Inductive cut_edge : BackupCutStateV1 -> BackupCutStateV1 -> Prop :=
  | edge_checkpoint : cut_edge Preparing Preparing
  | edge_prepared : cut_edge Preparing Prepared
  | edge_seal : cut_edge Prepared Sealed
  | edge_release : cut_edge Sealed Released
  | edge_abort s : active_state (state_as_str s) = true -> cut_edge s Aborted.

(** ** Coherent tables *)

Definition cut_rows (cut_id : string) (l : list ParticipantRow) : list ParticipantRow :=
  List.filter (fun r => pr_cut_id r == cut_id) l.
Definition participant_key (r : ParticipantRow) : string * string := (pr_cut_id r, pr_participant r).

(** How many participants a cut in each state has prepared. *)
Definition count_fits (state : BackupCutStateV1) (count : Z) : Prop :=
  match state with
  | Preparing => (count < 3)%Z
  | Prepared | Sealed | Released => count = 3%Z
  | Aborted => True
  end.
Definition cut_coherent (db : Database) (r : CutRow) : Prop :=
  cut_checks r = true /\ length (cut_rows (cr_cut_id r) (db_participants db)) = 3 /\
  exists state, cr_state r = state_as_str state /\ count_fits state (prepared_count (cr_cut_id r) db).

Record cuts_ok (db : Database) : Prop := {
  cuts_distinct : NoDup (map cr_cut_id (db_cuts db));
  cuts_one_active : forall r s, r ∈ db_cuts db -> s ∈ db_cuts db ->
    active_state (cr_state r) = true -> active_state (cr_state s) = true -> r = s;
  cuts_coherent : Forall (cut_coherent db) (db_cuts db);
  participants_distinct : NoDup (map participant_key (db_participants db));
  participants_belong : forall p, p ∈ db_participants db -> pr_cut_id p ∈ map cr_cut_id (db_cuts db)
}.

(** ** Rows *)

Lemma find_cut_some cut_id db r : find_cut cut_id db = Some r -> r ∈ db_cuts db /\ cr_cut_id r = cut_id.
Proof. intros [Hin Hid]%find_some. apply bool_decide_eq_true in Hid. by apply list_elem_of_In in Hin. Qed.

Lemma find_cut_none cut_id db : find_cut cut_id db = None <-> cut_id ∉ map cr_cut_id (db_cuts db).
Proof.
  unfold find_cut. rewrite elem_map_iff. split.
  - intros Hn (r & Hr & Hid). apply list_elem_of_In in Hr. apply (find_none _ _ Hn) in Hr.
    by apply bool_decide_eq_false in Hr.
  - intros Hn. destruct (List.find _ _) as [r|] eqn:Hf; [|done]. exfalso. apply Hn. exists r.
    by apply find_cut_some.
Qed.

Lemma find_cut_in db r : NoDup (map cr_cut_id (db_cuts db)) -> r ∈ db_cuts db -> find_cut (cr_cut_id r) db = Some r.
Proof.
  intros Hn Hr. destruct (find_cut (cr_cut_id r) db) as [s|] eqn:Hf.
  - apply find_cut_some in Hf as [Hs Hid]. f_equal. by apply (NoDup_map_inj cr_cut_id (db_cuts db)).
  - apply find_cut_none in Hf. destruct Hf. by apply elem_map.
Qed.

(** Appending an event leaves the backup tables alone. *)
Lemma append_keeps_cuts `{Deps} `{Serialize P, Serialize A} (event : NewEventV1 P) (state : A) expected db db' receipt :
  append_event_in_transaction event state expected db = Ok (db', receipt) ->
  db_cuts db' = db_cuts db /\ db_participants db' = db_participants db.
Proof.
  unfold append_event_in_transaction. intros Hr.
  apply res_bind_ok in Hr as (? & _ & Hr). apply guard_ok in Hr as [_ Hr]. apply res_bind_ok in Hr as (head & _ & Hr).
  apply res_bind_ok in Hr as (? & _ & Hr). apply guard_ok in Hr as [_ Hr].
  do 6 (apply res_bind_ok in Hr as (? & _ & Hr)).
  apply res_bind_ok in Hr as ([db1 ?] & Hins & Hr). apply res_bind_ok in Hr as (? & _ & Hr).
  apply res_bind_ok in Hr as ([db2 ?] & Hups & Hr). apply res_bind_ok in Hr as (? & _ & Hr).
  apply res_bind_ok in Hr as ([db3 changed] & Hcas & Hr). apply guard_ok in Hr as [_ [= <- _]].
  unfold insert_event in Hins. apply guard_ok in Hins as [_ [= <- _]].
  unfold upsert_state in Hups. apply guard_ok in Hups as [_ [= <- _]].
  unfold update_chain_head in Hcas. destruct (db_chain_head _); [|by injection Hcas as <- _].
  destruct (_ && _); [apply guard_ok in Hcas as [_ [= <- _]] | injection Hcas as <- _]; done.
Qed.

(** ** What a successful call does to the tables *)

(** One cut row is replaced by an admissible one. *)
Definition cut_moved (db db' : Database) (cut_id : string) (f : CutRow -> CutRow) : Prop :=
  exists r, find_cut cut_id db = Some r /\ cr_cut_id (f r) = cut_id /\ cut_checks (f r) = true /\
    (forall s, s ∈ db_cuts db -> cr_cut_id s <> cut_id -> active_state (cr_state (f r)) = true ->
       active_state (cr_state s) = false) /\
    db_cuts db' = map (fun s => if cr_cut_id s == cut_id then f r else s) (db_cuts db).

Lemma update_cut_moved cut_id f db0 db db' r :
  update_cut cut_id f db = Ok (db', tt) ->
  find_cut cut_id db0 = Some r -> db_cuts db = db_cuts db0 -> cr_cut_id (f r) = cut_id ->
  cut_moved db0 db' cut_id f /\ db_participants db' = db_participants db.
Proof.
  intros Hup Hf Hc Hid. revert Hup. unfold update_cut.
  assert (find_cut cut_id db = Some r) as -> by (unfold find_cut in *; by rewrite Hc).
  intros [Hadm [= <-]]%guard_ok. split; [|done]. apply negb_false_iff in Hadm. unfold cut_admissible in Hadm.
  apply andb_true_iff in Hadm as [[Hck _]%andb_true_iff Hcl]. rewrite forallb_forall, Hc in Hcl.
  exists r. split_all; try done; [|by rewrite <- Hc].
  intros s Hs Hne Hact. apply list_elem_of_In, Hcl in Hs. rewrite Hid, bool_decide_eq_false_2 in Hs by done.
  unfold cut_clash in Hs. rewrite Hact in Hs. cbn [orb andb] in Hs. rewrite !negb_orb, !andb_true_iff in Hs.
  by destruct Hs as [_ ?%negb_true_iff].
Qed.

Lemma state_from_str_ok text s : state_from_str text = Ok s -> text = state_as_str s.
Proof. unfold state_from_str. repeat case_bool_decide; intros [= <-]; done. Qed.

Lemma state_as_str_inj s t : state_as_str s = state_as_str t -> s = t.
Proof. destruct s, t; simpl; first [done | discriminate]. Qed.

Section Effects.
  Context `{Deps}.

(** A call that changed nothing but perhaps moved one cut along an edge. *)
Definition cut_transition (db db' : Database) (cut_id : string) (f : CutRow -> CutRow) : Prop :=
  cut_moved db db' cut_id f /\ db_participants db' = db_participants db /\
  exists r s s', find_cut cut_id db = Some r /\ cr_state r = state_as_str s /\ cr_state (f r) = state_as_str s' /\
    cut_edge s s' /\ s' <> Preparing /\ s' <> Prepared.

Lemma seal_effect decode manifest now db db' receipt :
  seal_backup_cut decode manifest now db = Ok (db', receipt) ->
  db' = db \/ exists d e, cut_transition db db' (mf_cut_id manifest) (cut_sealed d e now).
Proof.
  unfold seal_backup_cut. intros Hr. apply res_bind_ok in Hr as (md & _ & Hr).
  apply res_bind_ok in Hr as (row & Hrow%ok_or_ok & Hr). apply res_bind_ok in Hr as (st & _ & Hr).
  destruct (cr_manifest_digest row).
  { left. apply guard_ok in Hr as [_ Hr]. apply res_bind_ok in Hr as (? & _ & Hr).
    apply res_bind_ok in Hr as (? & _ & Hr). congruence. }
  right. do 3 (apply res_bind_ok in Hr as (? & _ & Hr)). apply guard_ok in Hr as [_ Hr].
  apply res_bind_ok in Hr as (state & Hst & Hr). apply guard_ok in Hr as [Hs%negb_bool_decide_false Hr].
  unfold backup_state_in_transaction in Hst. rewrite Hrow in Hst. apply state_from_str_ok in Hst.
  apply res_bind_ok in Hr as (rev & _ & Hr). apply res_bind_ok in Hr as ([db1 rc] & Happ & Hr).
  apply res_bind_ok in Hr as (seq & _ & Hr). apply res_bind_ok in Hr as ([db2 []] & Hup & [= <- <-]).
  apply append_keeps_cuts in Happ as [Hc Hp]. eexists _, _.
  destruct (update_cut_moved _ _ db _ _ row Hup Hrow Hc (proj2 (find_cut_some _ _ _ Hrow))) as [Hm Hp'].
  unfold cut_transition. split_all; [exact Hm | congruence|]. exists row, Prepared, Sealed. subst state. split_all; try done. constructor.
Qed.

Lemma release_effect cut_id bundle now db db' receipt :
  release_backup_cut cut_id bundle now db = Ok (db', receipt) ->
  (db' = db /\ exists r, find_cut cut_id db = Some r /\ cr_state r = state_as_str Released) \/
  exists e, cut_transition db db' cut_id (cut_released (digest_str bundle) e now).
Proof.
  unfold release_backup_cut. intros Hr. apply res_bind_ok in Hr as (row & Hrow%ok_or_ok & Hr).
  apply res_bind_ok in Hr as (st & Hst%state_from_str_ok & Hr). destruct (decide (st = Released)) as [->|Hn].
  { rewrite bool_decide_eq_true_2 in Hr by done. left. apply guard_ok in Hr as [_ Hr].
    apply res_bind_ok in Hr as (? & _ & Hr). apply res_bind_ok in Hr as (? & _ & Hr). split; [congruence | by exists row]. }
  rewrite bool_decide_eq_false_2 in Hr by done. clear Hst.
  right. apply res_bind_ok in Hr as (state & Hst & Hr). apply guard_ok in Hr as [Hs%negb_bool_decide_false Hr].
  unfold backup_state_in_transaction in Hst. rewrite Hrow in Hst. apply state_from_str_ok in Hst.
  do 3 (apply res_bind_ok in Hr as (? & _ & Hr)). apply res_bind_ok in Hr as ([db1 rc] & Happ & Hr).
  apply res_bind_ok in Hr as (seq & _ & Hr). apply res_bind_ok in Hr as ([db2 []] & Hup & [= <- <-]).
  apply append_keeps_cuts in Happ as [Hc Hp]. eexists.
  destruct (update_cut_moved _ _ db _ _ row Hup Hrow Hc (proj2 (find_cut_some _ _ _ Hrow))) as [Hm Hp'].
  unfold cut_transition. split_all; [exact Hm | congruence|]. exists row, Sealed, Released. subst state. split_all; try done. constructor.
Qed.

Lemma abort_effect cut_id reason now db db' receipt :
  abort_backup_cut cut_id reason now db = Ok (db', receipt) ->
  (db' = db /\ exists r, find_cut cut_id db = Some r /\ cr_state r = state_as_str Aborted) \/
  exists e, cut_transition db db' cut_id (cut_aborted reason e now).
Proof.
  unfold abort_backup_cut. intros Hr. apply then_ok in Hr as [_ Hr]. apply res_bind_ok in Hr as (row & Hrow%ok_or_ok & Hr).
  apply res_bind_ok in Hr as (st & Hst%state_from_str_ok & Hr). destruct (decide (st = Aborted)) as [->|Hn].
  { rewrite bool_decide_eq_true_2 in Hr by done. left. apply guard_ok in Hr as [_ Hr].
    apply res_bind_ok in Hr as (? & _ & Hr). apply res_bind_ok in Hr as (? & _ & Hr). split; [congruence | by exists row]. }
  rewrite bool_decide_eq_false_2 in Hr by done. clear Hst.
  right. apply res_bind_ok in Hr as (state & Hst & Hr). apply guard_ok in Hr as [Hs Hr].
  unfold backup_state_in_transaction in Hst. rewrite Hrow in Hst. apply state_from_str_ok in Hst.
  do 3 (apply res_bind_ok in Hr as (? & _ & Hr)). apply res_bind_ok in Hr as ([db1 rc] & Happ & Hr).
  apply res_bind_ok in Hr as (seq & _ & Hr). apply res_bind_ok in Hr as ([db2 []] & Hup & [= <- <-]).
  apply append_keeps_cuts in Happ as [Hc Hp]. eexists.
  destruct (update_cut_moved _ _ db _ _ row Hup Hrow Hc (proj2 (find_cut_some _ _ _ Hrow))) as [Hm Hp'].
  unfold cut_transition. split_all; [exact Hm | congruence|]. exists row, state, Aborted. split_all; try done. constructor.
  by destruct state.
Qed.

Definition registration_row (cut_id : string) (g : BackupParticipantRegistrationV1) : ParticipantRow :=
  mkParticipantRow cut_id (participant_as_str (rg_participant g)) (digest_str (rg_component_identity g)) None.

Lemma insert_participant_ok row db db' :
  insert_participant row db = Ok (db', tt) ->
  db' = set_participants db (db_participants db ++ [row]) /\
  participant_key row ∉ map participant_key (db_participants db).
Proof.
  unfold insert_participant. intros [Hg [= <-]]%guard_ok. split; [done|].
  apply orb_false in Hg as [[Hg _]%orb_false _]. unfold find_participant in Hg.
  destruct (List.find _ _) eqn:Hf; [done|]. intros (p & Hp & Hk)%elem_map_iff.
  apply list_elem_of_In in Hp. apply (find_none _ _ Hf) in Hp. unfold is_participant in Hp.
  injection Hk as Hk1 Hk2. by rewrite Hk1, Hk2, !bool_decide_eq_true_2 in Hp.
Qed.

Lemma insert_registrations_ok cut_id l : forall db db',
  insert_registrations cut_id l db = Ok (db', tt) ->
  db_cuts db' = db_cuts db /\ db_participants db' = db_participants db ++ map (registration_row cut_id) l /\
  (NoDup (map participant_key (db_participants db)) -> NoDup (map participant_key (db_participants db'))).
Proof.
  induction l as [|g l IH]; intros db db' Hi.
  - injection Hi as <-. simpl. by rewrite app_nil_r.
  - cbn [insert_registrations] in Hi. apply res_bind_ok in Hi as ([db1 []] & [Hd Hk]%insert_participant_ok & Hi).
    apply IH in Hi as (Hc & Hp & Hn). subst db1. simpl in *. split_all; [done | by rewrite Hp, <- app_assoc|].
    intros Hnd. apply Hn. rewrite map_app. apply NoDup_app. split_all; [done | | apply NoDup_singleton].
    intros k Hin ->%list_elem_of_singleton. by apply Hk.
Qed.

Lemma begin_effect request db db' receipt :
  begin_backup_cut request db = Ok (db', receipt) ->
  db' = db \/
  exists row, cr_cut_id row = bc_cut_id request /\ cr_state row = "preparing" /\ cut_checks row = true /\
    find_cut (bc_cut_id request) db = None /\ active_backup_cut db = None /\
    db_cuts db' = db_cuts db ++ [row] /\ length (bc_participants request) = 3 /\
    db_participants db' = db_participants db ++ map (registration_row (bc_cut_id request)) (bc_participants request) /\
    (NoDup (map participant_key (db_participants db)) -> NoDup (map participant_key (db_participants db'))).
Proof.
  unfold begin_backup_cut. intros Hr. apply then_ok in Hr as [Hv Hr]. apply res_bind_ok in Hr as (rd & _ & Hr).
  destruct (find_cut (bc_cut_id request) db) as [row|] eqn:Hf.
  { left. apply guard_ok in Hr as [_ Hr]. apply res_bind_ok in Hr as (? & _ & Hr). congruence. }
  right. apply guard_ok in Hr as [Hact Hr]. apply res_bind_ok in Hr as ([db1 rc] & Happ & Hr).
  apply append_keeps_cuts in Happ as [Hc Hp].
  apply res_bind_ok in Hr as (epoch & _ & Hr). apply res_bind_ok in Hr as (seq & _ & Hr).
  apply res_bind_ok in Hr as ([db2 []] & Hins & Hr). apply res_bind_ok in Hr as ([db3 []] & Hreg & [= <- <-]).
  apply insert_registrations_ok in Hreg as (Hc3 & Hp3 & Hn3). unfold insert_cut in Hins.
  apply guard_ok in Hins as [Hadm%orb_false [= <-]]. destruct Hadm as [_ Hadm%negb_false_iff].
  unfold cut_admissible in Hadm. apply andb_true_iff in Hadm as [[Hck _]%andb_true_iff _].
  eexists. cbn [set_cuts db_cuts db_participants] in *. rewrite Hc3, Hp3, Hc, Hp in *.
  split_all; [| | exact Hck | done | by destruct (active_backup_cut db) | done | | done | done]; [done..|].
  unfold begin_validate in Hv. apply then_ok in Hv as [_ Hv]. apply then_ok in Hv as [_ Hv].
  apply guard_ok in Hv as [[Hl _]%orb_false _]. by apply negb_false_iff, Nat.eqb_eq in Hl.
Qed.

(** The participant row a checkpoint fills. *)
Definition filled (cut_id role : string) (component : string) (c : CheckpointColumns) (r : ParticipantRow) : ParticipantRow :=
  if is_participant cut_id role r then mkParticipantRow cut_id role component (Some c) else r.

Lemma prepare_effect cut_id checkpoint now db db' receipt :
  prepare_backup_participant cut_id checkpoint now db = Ok (db', receipt) ->
  db' = db \/
  exists r p c s,
    let role := participant_as_str (cp_participant checkpoint) in
    let s' := if (prepared_count cut_id db + 1 =? 3)%Z then Prepared else Preparing in
    find_cut cut_id db = Some r /\ cr_state r = state_as_str s /\ (s = Preparing \/ s = Prepared) /\
    find_participant cut_id role db = Some p /\ pr_checkpoint p = None /\
    cut_moved db db' cut_id (cut_with_state (state_as_str s') now) /\
    db_participants db' = map (filled cut_id role (pr_component_identity p) c) (db_participants db).
Proof.
  unfold prepare_backup_participant. intros Hr. apply res_bind_ok in Hr as (row & Hrow%ok_or_ok & Hr).
  do 3 (apply res_bind_ok in Hr as (? & _ & Hr)). apply then_ok in Hr as [_ Hr].
  apply res_bind_ok in Hr as (cj & _ & Hr). apply res_bind_ok in Hr as (p & Hp%ok_or_ok & Hr).
  apply guard_ok in Hr as [_ Hr]. destruct (pr_checkpoint p) as [prior|] eqn:Hck.
  { left. apply guard_ok in Hr as [_ Hr]. apply res_bind_ok in Hr as (? & _ & Hr). congruence. }
  right. apply res_bind_ok in Hr as (state & Hst & Hr). apply guard_ok in Hr as [Hs Hr].
  unfold backup_state_in_transaction in Hst. rewrite Hrow in Hst. apply state_from_str_ok in Hst.
  do 2 (apply res_bind_ok in Hr as (? & _ & Hr)). apply res_bind_ok in Hr as ([db1 rc] & Happ & Hr).
  apply append_keeps_cuts in Happ as [Hc Hpp]. apply res_bind_ok in Hr as (seq & _ & Hr).
  apply res_bind_ok in Hr as ([db2 changed] & Hfill & Hr). apply guard_ok in Hr as [Hch Hr].
  apply res_bind_ok in Hr as ([db3 []] & Hup & [= <- <-]).
  assert (find_participant cut_id (participant_as_str (cp_participant checkpoint)) db1 = Some p) as Hp1.
  { unfold find_participant in *. by rewrite Hpp. }
  unfold fill_checkpoint in Hfill. rewrite Hp1 in Hfill. destruct p as [pc pr comp ck]. simpl in Hck. subst ck.
  apply guard_ok in Hfill as [_ [= <- <-]].
  destruct (update_cut_moved _ _ db _ _ row Hup Hrow Hc (proj2 (find_cut_some _ _ _ Hrow))) as [Hm Hp'].
  eexists row, _, _, state. cbv zeta. split_all; [done | done | | exact Hp | done | exact Hm |].
  - apply negb_false_iff, orb_true_iff in Hs as [Hs%bool_decide_eq_true|Hs%bool_decide_eq_true]; auto.
  - rewrite Hp'. simpl. by rewrite Hpp.
Qed.

End Effects.

(** ** Preservation *)

Lemma filled_key cut_id role component c r : participant_key (filled cut_id role component c r) = participant_key r.
Proof.
  unfold filled, is_participant, participant_key. repeat case_bool_decide; simpl; by subst.
Qed.

Lemma filled_rows cut_id role component c e l :
  length (cut_rows e (map (filled cut_id role component c) l)) = length (cut_rows e l).
Proof.
  unfold cut_rows. induction l as [|r l IH]; [done|]. simpl.
  pose proof (filled_key cut_id role component c r) as [= Hk _]. rewrite Hk.
  destruct (pr_cut_id r == e); simpl; by rewrite IH.
Qed.

Definition prepared_in (e : string) (r : ParticipantRow) : bool := (pr_cut_id r == e) && set (pr_checkpoint r).

(** Exactly one more row of that cut has a checkpoint. *)
Lemma filled_count cut_id role component c e l p :
  NoDup (map participant_key l) -> List.find (is_participant cut_id role) l = Some p -> pr_checkpoint p = None ->
  length (List.filter (prepared_in e) (map (filled cut_id role component c) l)) =
  length (List.filter (prepared_in e) l) + (if cut_id == e then 1 else 0).
Proof.
  induction l as [|r l IH]; [done|]. intros [Hnin Hnd]%NoDup_cons Hf Hck. cbn [map List.find List.filter] in *.
  change (filled cut_id role component c r) with
    (if is_participant cut_id role r then mkParticipantRow cut_id role component (Some c) else r).
  destruct (is_participant cut_id role r) eqn:Hr.
  - injection Hf as ->. apply andb_true_iff in Hr as [Hc%bool_decide_eq_true Hro%bool_decide_eq_true].
    assert (map (filled cut_id role component c) l = l) as ->.
    { rewrite <- (List.map_id l) at 2. apply map_ext_in. intros q Hq. unfold filled.
      destruct (is_participant cut_id role q) eqn:Hpq; [|done].
      apply andb_true_iff in Hpq as [Hqc%bool_decide_eq_true Hqr%bool_decide_eq_true].
      destruct Hnin. apply elem_map_iff. exists q. split; [by apply list_elem_of_In|].
      unfold participant_key. congruence. }
    assert (prepared_in e (mkParticipantRow cut_id role component (Some c)) = (cut_id == e)) as -> by apply andb_true_r.
    assert (prepared_in e p = false) as -> by (unfold prepared_in; rewrite Hck; apply andb_false_r).
    destruct (cut_id == e); simpl; lia.
  - cbn [map List.filter]. destruct (prepared_in e r); simpl; rewrite IH by done; lia.
Qed.

Section Preservation.
  Context `{Deps}.

Lemma moved_ids db db' cut_id f :
  cut_moved db db' cut_id f -> map cr_cut_id (db_cuts db') = map cr_cut_id (db_cuts db).
Proof.
  intros (r & _ & Hid & _ & _ & ->). rewrite map_map. apply map_ext. intros s.
  destruct (decide (cr_cut_id s = cut_id)) as [Hs|Hs]; [rewrite bool_decide_eq_true_2 by done; congruence|].
  by rewrite bool_decide_eq_false_2.
Qed.

Lemma moved_row db db' cut_id f x :
  cut_moved db db' cut_id f -> x ∈ db_cuts db' ->
  (exists r, find_cut cut_id db = Some r /\ x = f r) \/ (x ∈ db_cuts db /\ cr_cut_id x <> cut_id).
Proof.
  intros (r & Hf & Hid & _ & _ & ->) (s & Hs & <-)%elem_map_iff.
  destruct (decide (cr_cut_id s = cut_id)) as [He|He]; [left|right].
  - exists r. by rewrite bool_decide_eq_true_2.
  - by rewrite bool_decide_eq_false_2.
Qed.

Lemma moved_find db db' cut_id f e :
  cuts_ok db -> cut_moved db db' cut_id f ->
  find_cut e db' = if cut_id == e then option_map f (find_cut cut_id db) else find_cut e db.
Proof.
  intros Hok Hm. pose proof Hm as (r & Hf & Hid & _ & _ & Hc). destruct (decide (cut_id = e)) as [<-|Hne].
  - rewrite bool_decide_eq_true_2, Hf by done. simpl. rewrite <- Hid. apply find_cut_in.
    + rewrite (moved_ids _ _ _ _ Hm). apply Hok.
    + rewrite Hc. apply elem_map_iff. exists r. pose proof (find_cut_some _ _ _ Hf) as [Hin Hrid].
      split; [done|]. by rewrite bool_decide_eq_true_2.
  - rewrite bool_decide_eq_false_2 by done. unfold find_cut. rewrite Hc. clear -Hne Hid.
    induction (db_cuts db) as [|s l IH]; [done|]. simpl. destruct (decide (cr_cut_id s = cut_id)) as [Hs|Hs].
    + rewrite (bool_decide_eq_true_2 (cr_cut_id s = cut_id)) by done.
      rewrite !bool_decide_eq_false_2 by congruence. exact IH.
    + rewrite (bool_decide_eq_false_2 (cr_cut_id s = cut_id)) by done. destruct (cr_cut_id s == e); [done | exact IH].
Qed.

Lemma moved_one_active db db' cut_id f :
  cuts_ok db -> cut_moved db db' cut_id f ->
  forall x y, x ∈ db_cuts db' -> y ∈ db_cuts db' ->
    active_state (cr_state x) = true -> active_state (cr_state y) = true -> x = y.
Proof.
  intros Hok Hm x y Hx Hy Hax Hay. pose proof Hm as (r & Hf & _ & _ & Hother & _).
  apply (moved_row _ _ _ _ x Hm) in Hx. apply (moved_row _ _ _ _ y Hm) in Hy.
  destruct Hx as [(r1 & Hr1 & ->)|[Hx Hxi]], Hy as [(r2 & Hr2 & ->)|[Hy Hyi]].
  - congruence.
  - assert (r1 = r) as -> by congruence. by rewrite (Hother y Hy Hyi Hax) in Hay.
  - assert (r2 = r) as -> by congruence. by rewrite (Hother x Hx Hxi Hay) in Hax.
  - by apply (cuts_one_active db Hok).
Qed.

(** A moved cut keeps the tables coherent when its own row is. *)
Lemma moved_ok db db' cut_id f :
  cuts_ok db -> cut_moved db db' cut_id f ->
  map participant_key (db_participants db') = map participant_key (db_participants db) ->
  (forall r, r ∈ db_cuts db -> cr_cut_id r <> cut_id -> cut_coherent db r -> cut_coherent db' r) ->
  (forall r, find_cut cut_id db = Some r -> cut_coherent db' (f r)) ->
  cuts_ok db'.
Proof.
  intros Hok Hm Hkeys Hothers Hown. pose proof (moved_ids _ _ _ _ Hm) as Hids. constructor.
  - rewrite Hids. apply Hok.
  - by apply (moved_one_active db db' cut_id f).
  - apply Forall_forall. intros x Hx. destruct (moved_row _ _ _ _ x Hm Hx) as [(r & Hf & ->)|[Hin Hne]]; [by apply Hown|].
    apply Hothers; [done | done|]. by apply (proj1 (Forall_forall _ _) (cuts_coherent db Hok)).
  - rewrite Hkeys. apply Hok.
  - intros p Hp. rewrite Hids. apply (elem_map participant_key) in Hp. rewrite Hkeys in Hp.
    apply elem_map_iff in Hp as (q & Hq & Hk). assert (pr_cut_id q = pr_cut_id p) as <- by (unfold participant_key in Hk; congruence).
    by apply (participants_belong db Hok).
Qed.

Lemma coherent_same db db' r :
  db_participants db' = db_participants db -> cut_coherent db r -> cut_coherent db' r.
Proof. unfold cut_coherent, prepared_count, prepared_rows. by intros ->. Qed.

Lemma transition_ok db db' cut_id f :
  cuts_ok db -> cut_transition db db' cut_id f -> cuts_ok db'.
Proof.
  intros Hok (Hm & Hp & r & s & s' & Hf & Hs & Hs' & He & Hn1 & Hn2).
  apply (moved_ok db db' cut_id f Hok Hm); [by rewrite Hp | intros x _ _; by apply coherent_same|].
  intros r' Hr'. assert (r' = r) as -> by congruence. pose proof Hm as (r'' & Hf' & Hid & Hck & _).
  assert (r'' = r) as -> by congruence. apply find_cut_some in Hf as [Hin Hrid].
  destruct (proj1 (Forall_forall _ _) (cuts_coherent db Hok) r Hin) as (_ & Hlen & s0 & Hs0 & Hfit).
  assert (s0 = s) as -> by (apply state_as_str_inj; congruence).
  unfold cut_coherent, prepared_count, prepared_rows in *. rewrite Hp, Hid, <- Hrid. split_all; [done | done|].
  exists s'. split; [done|]. by destruct He.
Qed.

Lemma rows_bound db e : (prepared_count e db <= Z.of_nat (length (cut_rows e (db_participants db))))%Z.
Proof.
  unfold prepared_count, prepared_rows, cut_rows. apply inj_le.
  induction (db_participants db) as [|p l IH]; simpl; [lia|].
  destruct (pr_cut_id p == e); simpl; [|lia]. destruct (set (pr_checkpoint p)); simpl; lia.
Qed.

Lemma prepare_ok db db' cut_id r p c s role now :
  cuts_ok db ->
  let s' := if (prepared_count cut_id db + 1 =? 3)%Z then Prepared else Preparing in
  find_cut cut_id db = Some r -> cr_state r = state_as_str s ->
  find_participant cut_id role db = Some p -> pr_checkpoint p = None ->
  cut_moved db db' cut_id (cut_with_state (state_as_str s') now) ->
  db_participants db' = map (filled cut_id role (pr_component_identity p) c) (db_participants db) ->
  cuts_ok db' /\ (s = Preparing \/ s = Prepared -> cut_edge s s').
Proof.
  intros Hok s' Hf Hs Hp Hck Hm Hpp.
  assert (forall e, prepared_count e db' = (prepared_count e db + if cut_id == e then 1 else 0)%Z) as Hcount.
  { intros e. unfold prepared_count, prepared_rows. rewrite Hpp.
    pose proof (filled_count cut_id role (pr_component_identity p) c e _ p (participants_distinct db Hok) Hp Hck) as Hfc.
    unfold prepared_in in Hfc. rewrite Hfc, Nat2Z.inj_add. f_equal. by destruct (cut_id == e). }
  assert (forall e, length (cut_rows e (db_participants db')) = length (cut_rows e (db_participants db))) as Hlen.
  { intros e. rewrite Hpp. apply filled_rows. }
  pose proof (find_cut_some _ _ _ Hf) as [Hin Hrid].
  destruct (proj1 (Forall_forall _ _) (cuts_coherent db Hok) r Hin) as (_ & Hl3 & s0 & Hs0 & Hfit).
  assert (s0 = s) as -> by (apply state_as_str_inj; congruence). rewrite Hrid in *.
  pose proof (rows_bound db' cut_id) as Hb. rewrite Hlen, Hl3, Hcount, bool_decide_eq_true_2 in Hb by done.
  split.
  - apply (moved_ok db db' cut_id _ Hok Hm).
    + rewrite Hpp, map_map. apply map_ext. intros q. apply filled_key.
    + intros x _ Hne (Hx1 & Hx2 & sx & Hsx & Hfx). unfold cut_coherent. split_all; [done | by rewrite Hlen|]. exists sx. split; [done|].
      rewrite Hcount, bool_decide_eq_false_2 by congruence. by rewrite Z.add_0_r.
    + intros r' Hr'. assert (r' = r) as -> by congruence. pose proof Hm as (r'' & Hf' & _ & Hck' & _).
      assert (r'' = r) as -> by congruence. unfold cut_coherent. split_all; [done | simpl; by rewrite Hlen, Hrid|].
      exists s'. split; [done|]. simpl. rewrite Hrid, Hcount, bool_decide_eq_true_2 by done. subst s'.
      destruct (Z.eqb_spec (prepared_count cut_id db + 1) 3); simpl; lia.
  - intros Hs'. subst s'. destruct Hs' as [->| ->]; simpl in Hfit; [|lia].
    destruct (prepared_count cut_id db + 1 =? 3)%Z; constructor.
Qed.

Lemma active_cut_none db :
  active_backup_cut db = None -> forall r, r ∈ db_cuts db -> active_state (cr_state r) = false.
Proof.
  unfold active_backup_cut. intros Ha r Hr. apply list_elem_of_In in Hr.
  destruct (List.find _ _) eqn:Hf; [done|]. exact (find_none _ _ Hf r Hr).
Qed.

Lemma fresh_cut_rows db e :
  cuts_ok db -> find_cut e db = None -> cut_rows e (db_participants db) = [].
Proof.
  intros Hok Hn%find_cut_none. unfold cut_rows.
  assert (forall p, p ∈ db_participants db -> pr_cut_id p <> e) as Hp.
  { intros p Hp <-. by apply Hn, (participants_belong db Hok). }
  induction (db_participants db) as [|p l IH]; [done|]. simpl.
  rewrite bool_decide_eq_false_2 by (apply Hp; by left). apply IH. intros q Hq. apply Hp. by right.
Qed.

Lemma registration_rows e e' l :
  length (cut_rows e (map (registration_row e') l)) = (if e' == e then length l else 0) /\
  List.filter (prepared_in e) (map (registration_row e') l) = [].
Proof.
  unfold cut_rows. induction l as [|g l [IH1 IH2]]; simpl; [by destruct (e' == e)|].
  unfold prepared_in at 1. simpl. rewrite andb_false_r, IH2. split; [|done].
  destruct (e' == e); simpl; by rewrite IH1.
Qed.

Lemma begin_ok db db' row request :
  cuts_ok db -> cr_cut_id row = bc_cut_id request -> cr_state row = "preparing" -> cut_checks row = true ->
  find_cut (bc_cut_id request) db = None -> active_backup_cut db = None ->
  db_cuts db' = db_cuts db ++ [row] -> length (bc_participants request) = 3 ->
  db_participants db' = db_participants db ++ map (registration_row (bc_cut_id request)) (bc_participants request) ->
  (NoDup (map participant_key (db_participants db)) -> NoDup (map participant_key (db_participants db'))) ->
  cuts_ok db'.
Proof.
  intros Hok Hid Hs Hck Hnew Hact Hc Hlen Hp Hkeys.
  assert (forall e, length (cut_rows e (db_participants db')) =
    length (cut_rows e (db_participants db)) + if bc_cut_id request == e then 3 else 0) as Hrows.
  { intros e. unfold cut_rows. rewrite Hp, List.filter_app, length_app. f_equal.
    rewrite <- Hlen. apply (registration_rows e (bc_cut_id request)). }
  assert (forall e, prepared_count e db' = prepared_count e db) as Hcount.
  { intros e. unfold prepared_count, prepared_rows. rewrite Hp, List.filter_app.
    destruct (registration_rows e (bc_cut_id request) (bc_participants request)) as [_ Hr].
    unfold prepared_in in Hr. by rewrite Hr, app_nil_r. }
  pose proof (fresh_cut_rows db _ Hok Hnew) as Hfresh. pose proof (proj1 (find_cut_none _ _) Hnew) as Hnin. constructor.
  - rewrite Hc, map_app. apply NoDup_app. split_all; [apply Hok | | apply NoDup_singleton].
    intros x Hx ->%list_elem_of_singleton. rewrite Hid in Hx. done.
  - intros x y. rewrite Hc, !elem_of_app, !list_elem_of_singleton.
    intros [Hx| ->] [Hy| ->] Hax Hay; [by apply (cuts_one_active db Hok) | | | done].
    + by rewrite (active_cut_none db Hact x Hx) in Hax.
    + by rewrite (active_cut_none db Hact y Hy) in Hay.
  - rewrite Hc. apply Forall_app. split; [|apply Forall_singleton].
    + apply Forall_forall. intros x Hx. pose proof (proj1 (Forall_forall _ _) (cuts_coherent db Hok) x Hx) as (H1 & H2 & H3).
      unfold cut_coherent. rewrite Hrows, Hcount, bool_decide_eq_false_2, Nat.add_0_r; [done|].
      intros He. apply Hnin. rewrite He. by apply elem_map.
    + unfold cut_coherent. rewrite Hrows, Hcount, Hid, Hfresh, bool_decide_eq_true_2 by done. split_all; [done | done|].
      exists Preparing. split; [done|]. simpl. pose proof (rows_bound db (bc_cut_id request)) as Hb. rewrite Hfresh in Hb.
      simpl in Hb. lia.
  - apply Hkeys, Hok.
  - intros p. rewrite Hp, Hc, map_app. intros [Hin|Hin]%elem_of_app; apply elem_of_app; [left|right].
    + by apply (participants_belong db Hok).
    + apply elem_map_iff in Hin as (g & _ & <-). apply list_elem_of_singleton. by rewrite Hid.
Qed.

End Preservation.

(** ** Runs *)

(** The calls that change a store; [decode] reads a stored checkpoint back. *)
Inductive StoreCall : Type :=
  | CallAppend {P A : Type} (SP : Serialize P) (SA : Serialize A) (event : NewEventV1 P) (state : A) (expected : Z)
  | CallAppendPair {P1 A1 P2 A2 : Type} (SP1 : Serialize P1) (SA1 : Serialize A1) (SP2 : Serialize P2) (SA2 : Serialize A2)
      (event1 : NewEventV1 P1) (state1 : A1) (expected1 : Z) (event2 : NewEventV1 P2) (state2 : A2) (expected2 : Z)
  | CallBegin (request : BeginBackupCutV1)
  | CallPrepare (cut_id : string) (checkpoint : BackupCheckpointV1) (now : Z)
  | CallSeal (manifest : BackupCutManifestV1) (now : Z)
  | CallRelease (cut_id : string) (bundle : Digest) (now : Z)
  | CallAbort (cut_id reason : string) (now : Z).

Section Runs.
  Context `{Deps} (decode : bytes -> string + BackupCheckpointV1).

Definition discard {A} (tx : Tx A) : Tx unit := fun db => let? (db, _) := tx db in Ok (db, tt).
Definition run_call (call : StoreCall) : Op unit :=
  commit match call with
  | CallAppend SP SA event state expected => discard (append_event event state expected)
  | CallAppendPair _ _ _ _ e1 s1 x1 e2 s2 x2 => discard (append_distinct_event_pair e1 s1 x1 e2 s2 x2)
  | CallBegin request => discard (begin_backup_cut request)
  | CallPrepare cut_id checkpoint now => discard (prepare_backup_participant cut_id checkpoint now)
  | CallSeal manifest now => discard (seal_backup_cut decode manifest now)
  | CallRelease cut_id bundle now => discard (release_backup_cut cut_id bundle now)
  | CallAbort cut_id reason now => discard (abort_backup_cut cut_id reason now)
  end.
Definition run_calls (calls : list StoreCall) (db : Database) : Database :=
  fold_left (fun db call => (run_call call db).1) calls db.

(** The state of a cut, and how it may change. *)
Definition cut_state (db : Database) (cut_id : string) : option string := option_map cr_state (find_cut cut_id db).
Definition cut_step (before after : option string) : Prop :=
  before = after \/
  (before = None /\ after = Some (state_as_str Preparing)) \/
  exists s s', before = Some (state_as_str s) /\ after = Some (state_as_str s') /\ cut_edge s s'.

Lemma moved_state db db' cut_id f e :
  cuts_ok db -> cut_moved db db' cut_id f ->
  cut_state db' e = if cut_id == e then option_map (fun r => cr_state (f r)) (find_cut cut_id db) else cut_state db e.
Proof.
  intros Hok Hm. unfold cut_state. rewrite (moved_find db db' cut_id f e Hok Hm).
  destruct (cut_id == e); [by destruct (find_cut cut_id db) | done].
Qed.

Lemma transition_step db db' cut_id f e :
  cuts_ok db -> cut_transition db db' cut_id f -> cut_step (cut_state db e) (cut_state db' e).
Proof.
  intros Hok (Hm & _ & r & s & s' & Hf & Hs & Hs' & He & _). rewrite (moved_state db db' cut_id f e Hok Hm).
  destruct (decide (cut_id = e)) as [<-|Hne].
  - rewrite bool_decide_eq_true_2 by done. right; right. exists s, s'. unfold cut_state. rewrite Hf. simpl.
    by rewrite Hs, Hs'.
  - rewrite bool_decide_eq_false_2 by done. by left.
Qed.

Lemma append_tx_ok db db' :
  cuts_ok db -> db_cuts db' = db_cuts db -> db_participants db' = db_participants db ->
  cuts_ok db' /\ forall e, cut_step (cut_state db e) (cut_state db' e).
Proof.
  intros [H1 H2 H3 H4 H5] Hc Hp. split.
  - constructor; rewrite ?Hc, ?Hp; try done. apply Forall_forall. intros r Hr. apply (coherent_same db); [done|].
    by apply (proj1 (Forall_forall _ _) H3).
  - intros e. left. unfold cut_state, find_cut. by rewrite Hc.
Qed.

Lemma call_step call db :
  cuts_ok db ->
  let db' := (run_call call db).1 in
  cuts_ok db' /\ forall e, cut_step (cut_state db e) (cut_state db' e).
Proof.
  intros Hok. unfold run_call, commit.
  match goal with |- context [match ?m db with Ok _ => _ | Err _ => _ | Panic => _ end] => set (tx := m) end.
  assert (cuts_ok db /\ forall e, cut_step (cut_state db e) (cut_state db e)) as Hsame by (split; [done | by left]).
  destruct (tx db) as [[db' []]|err|] eqn:Hr; [|exact Hsame|exact Hsame]. simpl. subst tx.
  destruct call; unfold discard in Hr; apply res_bind_ok in Hr as ([db1 rc] & Hr & [= ->]).
  - unfold append_event in Hr. apply then_ok in Hr as [_ Hr]. apply then_ok in Hr as [_ Hr].
    apply append_keeps_cuts in Hr as [Hc Hp]. by apply append_tx_ok.
  - unfold append_distinct_event_pair in Hr. apply then_ok in Hr as [_ Hr]. apply then_ok in Hr as [_ Hr].
    apply guard_ok in Hr as [_ Hr]. apply then_ok in Hr as [_ Hr].
    apply res_bind_ok in Hr as ([db2 ?] & [Hc Hp]%append_keeps_cuts & Hr).
    apply res_bind_ok in Hr as ([db3 ?] & [Hc' Hp']%append_keeps_cuts & [= <- _]).
    apply append_tx_ok; [done | congruence..].
  - apply begin_effect in Hr as [->|(row & Hid & Hs & Hck & Hn & Ha & Hc & Hl & Hp & Hk)]; [done|]. split.
    { by apply (begin_ok db db' row request). }
    intros e. unfold cut_state, find_cut. rewrite Hc. destruct (decide (e = bc_cut_id request)) as [->|Hne].
    + right; left. fold (find_cut (bc_cut_id request) db). rewrite Hn. split; [done|].
      clear -Hn Hid Hs. unfold find_cut in Hn. induction (db_cuts db) as [|s l IH]; simpl in *.
      * rewrite bool_decide_eq_true_2 by done. simpl. by rewrite Hs.
      * destruct (cr_cut_id s == bc_cut_id request); [done | by apply IH].
    + left. clear -Hne Hid. induction (db_cuts db) as [|s l IH]; simpl.
      * by rewrite bool_decide_eq_false_2 by congruence.
      * destruct (cr_cut_id s == e); [done | exact IH].
  - apply prepare_effect in Hr as [->|(r & p & c & s & Hf & Hs & Hs01 & Hp & Hck & Hm & Hpp)]; [done|].
    destruct (prepare_ok db db' cut_id r p c s _ now Hok Hf Hs Hp Hck Hm Hpp) as [Hok' Hedge]. split; [done|].
    intros e. rewrite (moved_state db db' cut_id _ e Hok Hm). destruct (decide (cut_id = e)) as [<-|Hne].
    + rewrite bool_decide_eq_true_2 by done. right; right. unfold cut_state. rewrite Hf. simpl. rewrite Hs.
      eexists _, _. split_all; [done | done | by apply Hedge].
    + rewrite bool_decide_eq_false_2 by done. by left.
  - apply seal_effect in Hr as [->|(d & ev & Ht)]; [done|]. split; [by eapply transition_ok|].
    intros e. by eapply transition_step.
  - apply release_effect in Hr as [[-> _]|(ev & Ht)]; [done|]. split; [by eapply transition_ok|].
    intros e. by eapply transition_step.
  - apply abort_effect in Hr as [[-> _]|(ev & Ht)]; [done|]. split; [by eapply transition_ok|].
    intros e. by eapply transition_step.
Qed.

End Runs.

(** ** Theorems *)

Section Lifecycle.
  Context `{Deps} (decode : bytes -> string + BackupCheckpointV1).

Lemma calls_ok calls : forall db, cuts_ok db -> cuts_ok (run_calls decode calls db).
Proof.
  induction calls as [|call calls IH]; intros db Hok; [done|]. simpl. apply IH. by apply (call_step decode call db).
Qed.

Lemma final_edge s s' : cut_edge s s' -> s <> Released /\ s <> Aborted.
Proof. by destruct 1 as [| | | |[]]. Qed.

(** C27. The life of a backup cut: over any sequence of store calls, successful or
    not, the backup tables stay coherent (distinct cuts, at most one of them
    active, three registered participants per cut, all three prepared from
    [prepared] on, the schema's checks), and every cut moves only along the edges
    preparing, prepared, sealed, released, or to aborted while it is active; it
    never disappears and never leaves a final state. *)
Theorem backup_cut_lifecycle calls : forall db,
  cuts_ok db ->
  let db' := run_calls decode calls db in
  cuts_ok db' /\
  forall e s, cut_state db e = Some (state_as_str s) ->
    exists s', cut_state db' e = Some (state_as_str s') /\ rtc cut_edge s s' /\
      (s = Released \/ s = Aborted -> s' = s).
Proof.
  induction calls as [|call calls IH]; intros db Hok; [split; [done|]; intros e s Hs; exists s; by repeat constructor|].
  simpl. destruct (call_step decode call db Hok) as [Hok1 Hstep]. destruct (IH _ Hok1) as [Hok' Hrest].
  split; [done|]. intros e s Hs. specialize (Hstep e). rewrite Hs in Hstep.
  destruct Hstep as [Heq|[[? _]|(t & t' & Ht & Ht' & He)]]; [|done|].
  - destruct (Hrest e s (eq_sym Heq)) as (s' & ? & ? & ?). by exists s'.
  - assert (t = s) as -> by (apply state_as_str_inj; congruence). destruct (Hrest e t' Ht') as (s' & Hs' & Hrtc & _).
    exists s'. split_all; [done | by eapply rtc_l|]. intros Hfin. apply final_edge in He. tauto.
Qed.

Lemma active_cut_unique db r :
  cuts_ok db -> r ∈ db_cuts db -> active_state (cr_state r) = true -> active_backup_cut db = Some (cr_cut_id r).
Proof.
  intros Hok Hr Ha. unfold active_backup_cut. destruct (List.find _ _) as [s|] eqn:Hf.
  - apply find_some in Hf as [Hs%list_elem_of_In Hsa]. simpl. f_equal. f_equal.
    by apply (cuts_one_active db Hok).
  - apply list_elem_of_In in Hr. pose proof (find_none _ _ Hf r Hr) as Hn. by rewrite Hn in Ha.
Qed.

(** The barrier holds: while a cut is active, every valid append and every
    valid pair of appends is refused with the barrier error naming that cut, no
    other cut can begin, and the database stays as it is; and a release or an
    abort that succeeds in ending the active cut leaves no cut active. *)
Theorem barrier_blocks_mutation db r :
  cuts_ok db -> r ∈ db_cuts db -> active_state (cr_state r) = true ->
  (forall (P A : Type) (SP : Serialize P) (SA : Serialize A) (event : NewEventV1 P) (state : A) expected,
     validate_event event = Ok tt ->
     commit (append_event event state expected) db = (db, Err (BackupBarrierActive (cr_cut_id r)))) /\
  (forall (P1 A1 P2 A2 : Type) (SP1 : Serialize P1) (SA1 : Serialize A1) (SP2 : Serialize P2) (SA2 : Serialize A2)
     (event1 : NewEventV1 P1) (state1 : A1) expected1 (event2 : NewEventV1 P2) (state2 : A2) expected2,
     validate_event event1 = Ok tt -> validate_event event2 = Ok tt -> ne_entity_id event1 <> ne_entity_id event2 ->
     commit (append_distinct_event_pair event1 state1 expected1 event2 state2 expected2) db =
       (db, Err (BackupBarrierActive (cr_cut_id r)))) /\
  (forall request d, begin_validate request = Ok tt -> digest_jcs BEGIN_DOMAIN request = Ok d ->
     find_cut (bc_cut_id request) db = None ->
     commit (begin_backup_cut request) db = (db, Err BackupCutAlreadyActive)) /\
  (forall db' bundle reason now receipt,
     release_backup_cut (cr_cut_id r) bundle now db = Ok (db', receipt) \/
     abort_backup_cut (cr_cut_id r) reason now db = Ok (db', receipt) ->
     active_backup_cut db' = None).
Proof.
  intros Hok Hr Ha. pose proof (active_cut_unique db r Hok Hr Ha) as Hact. split_all.
  - intros P A SP SA event state expected Hv. unfold commit, append_event, ensure_no_backup_barrier. by rewrite Hv, Hact.
  - intros P1 A1 P2 A2 SP1 SA1 SP2 SA2 e1 s1 x1 e2 s2 x2 Hv1 Hv2 Hne.
    unfold commit, append_distinct_event_pair, ensure_no_backup_barrier. rewrite Hv1, Hv2, Hact. cbn [res_bind].
    by rewrite bool_decide_eq_false_2.
  - intros request d Hv Hd Hn. unfold commit, begin_backup_cut. rewrite Hv, Hd. cbn [res_bind]. by rewrite Hn, Hact.
  - intros db' bundle reason now receipt Hend. pose proof (find_cut_in db r (cuts_distinct db Hok) Hr) as Hfind.
    assert (exists f, cut_transition db db' (cr_cut_id r) f /\ forall x, active_state (cr_state (f x)) = false)
      as (f & Ht & Hf).
    { destruct Hend as [Hend|Hend];
        [apply release_effect in Hend as [(_ & x & Hx & Hsx)|[ev Ht]] | apply abort_effect in Hend as [(_ & x & Hx & Hsx)|[ev Ht]]];
        try (eexists; split; [exact Ht | done]); assert (x = r) as -> by congruence; by rewrite Hsx in Ha. }
    unfold active_backup_cut. destruct (List.find _ _) as [s|] eqn:Hfd; [|done]. exfalso.
    apply find_some in Hfd as [Hs%list_elem_of_In Hsa]. destruct Ht as (Hm & _).
    destruct (moved_row _ _ _ _ s Hm Hs) as [(r' & _ & ->)|[Hin Hne]]; [by rewrite Hf in Hsa|].
    apply Hne. f_equal. by apply (cuts_one_active db Hok).
Qed.

End Lifecycle.

(** ** Sealed cuts are immutable *)

(** The columns a manifest is built from, and its digest. *)
Definition same_terms (r r' : CutRow) : Prop :=
  cr_cut_id r' = cr_cut_id r /\ cr_authority_domain r' = cr_authority_domain r /\ cr_epoch r' = cr_epoch r /\
  cr_quiescence_barrier_id r' = cr_quiescence_barrier_id r /\ cr_manifest_digest r' = cr_manifest_digest r.

(** What stays of a cut that has been sealed. *)
Definition sealed_facts (e : string) (rows : list ParticipantRow) (r : CutRow) (db : Database) : Prop :=
  cut_rows e (db_participants db) = rows /\ prepared_count e db = 3%Z /\
  exists r' s, find_cut e db = Some r' /\ same_terms r r' /\ cr_state r' = state_as_str s /\ s <> Preparing /\ s <> Prepared.

Lemma filled_other cut_id role component c e l :
  cut_id <> e -> cut_rows e (map (filled cut_id role component c) l) = cut_rows e l.
Proof.
  intros Hne. unfold cut_rows. induction l as [|r l IH]; [done|]. simpl. rewrite IH. unfold filled, is_participant.
  destruct (decide (pr_cut_id r = cut_id)) as [Hr|Hr].
  - rewrite (bool_decide_eq_true_2 (pr_cut_id r = cut_id)) by done.
    destruct (pr_participant r == role); simpl; rewrite !bool_decide_eq_false_2 by congruence; done.
  - by rewrite (bool_decide_eq_false_2 (pr_cut_id r = cut_id)).
Qed.

Lemma count_of_rows e db :
  prepared_count e db = Z.of_nat (length (List.filter (fun r => set (pr_checkpoint r)) (cut_rows e (db_participants db)))).
Proof.
  unfold prepared_count, prepared_rows, cut_rows. f_equal. induction (db_participants db) as [|p l IH]; [done|]. simpl.
  destruct (pr_cut_id p == e); simpl; [|done]. destruct (set (pr_checkpoint p)); simpl; by rewrite IH.
Qed.

Section Sealed.
  Context `{Deps} (decode : bytes -> string + BackupCheckpointV1).

Lemma facts_unchanged e rows r db db' :
  db_cuts db' = db_cuts db -> db_participants db' = db_participants db ->
  sealed_facts e rows r db -> sealed_facts e rows r db'.
Proof. unfold sealed_facts, prepared_count, prepared_rows, find_cut. by intros -> ->. Qed.

Lemma facts_transition e rows r db db' cut_id f :
  cuts_ok db -> cut_transition db db' cut_id f ->
  (forall x, same_terms x (f x) \/ cr_state (f x) = state_as_str Sealed) ->
  sealed_facts e rows r db -> sealed_facts e rows r db'.
Proof.
  intros Hok (Hm & Hp & x & s & s' & Hx & Hs & Hs' & He & Hn1 & Hn2) Hf (Hrows & Hcount & r' & t & Hr' & Ht & Hst & Ht1 & Ht2).
  unfold sealed_facts, prepared_count, prepared_rows. rewrite Hp. split_all; [done | done|].
  rewrite (moved_find db db' cut_id f e Hok Hm). destruct (decide (cut_id = e)) as [->|Hne].
  - rewrite bool_decide_eq_true_2, Hr' by done. assert (x = r') as -> by congruence.
    assert (s = t) as -> by (apply state_as_str_inj; congruence). exists (f r'), s'. simpl. split_all; try done.
    destruct (Hf r') as [Hsame|Hseal].
    + unfold same_terms in *. intuition congruence.
    + assert (s' = Sealed) as -> by (apply state_as_str_inj; congruence). inversion He; subst; done.
  - rewrite bool_decide_eq_false_2 by done. by exists r', t.
Qed.

Lemma facts_step e rows r call db :
  cuts_ok db -> sealed_facts e rows r db -> sealed_facts e rows r (run_call decode call db).1.
Proof.
  intros Hok Hfacts. unfold run_call, commit.
  match goal with |- context [match ?m db with Ok _ => _ | Err _ => _ | Panic => _ end] => set (tx := m) end.
  destruct (tx db) as [[db' []]|err|] eqn:Hr; [|exact Hfacts|exact Hfacts]. simpl. subst tx.
  destruct call; unfold discard in Hr; apply res_bind_ok in Hr as ([db1 rc] & Hr & [= ->]).
  - unfold append_event in Hr. apply then_ok in Hr as [_ Hr]. apply then_ok in Hr as [_ Hr].
    apply append_keeps_cuts in Hr as [Hc Hp]. by apply (facts_unchanged e rows r db).
  - unfold append_distinct_event_pair in Hr. apply then_ok in Hr as [_ Hr]. apply then_ok in Hr as [_ Hr].
    apply guard_ok in Hr as [_ Hr]. apply then_ok in Hr as [_ Hr].
    apply res_bind_ok in Hr as ([db2 ?] & [Hc Hp]%append_keeps_cuts & Hr).
    apply res_bind_ok in Hr as ([db3 ?] & [Hc' Hp']%append_keeps_cuts & [= <- _]).
    apply (facts_unchanged e rows r db); congruence.
  - apply begin_effect in Hr as [->|(row & Hid & Hs & Hck & Hn & Ha & Hc & Hl & Hp & Hk)]; [done|].
    destruct Hfacts as (Hrows & Hcount & r' & t & Hr' & Ht & Hst & Ht1 & Ht2).
    assert (bc_cut_id request <> e) as Hne by (intros <-; congruence).
    assert (cut_rows e (db_participants db') = cut_rows e (db_participants db)) as Hsame.
    { unfold cut_rows. rewrite Hp, List.filter_app. destruct (registration_rows e (bc_cut_id request) (bc_participants request)) as [Hz _].
      rewrite bool_decide_eq_false_2 in Hz by done. apply nil_length_inv in Hz. unfold cut_rows in Hz. by rewrite Hz, app_nil_r. }
    unfold sealed_facts. rewrite count_of_rows, Hsame, <- count_of_rows. split_all; [done | done|].
    exists r', t. split_all; try done. unfold find_cut in *. rewrite Hc. clear -Hr'.
    induction (db_cuts db) as [|s l IH]; simpl in *; [done|]. destruct (cr_cut_id s == e); [done | by apply IH].
  - apply prepare_effect in Hr as [->|(x & p & c & s & Hf & Hs & Hs01 & Hp & Hck & Hm & Hpp)]; [done|].
    destruct Hfacts as (Hrows & Hcount & r' & t & Hr' & Ht & Hst & Ht1 & Ht2).
    assert (cut_id <> e) as Hne.
    { intros ->. assert (x = r') as -> by congruence. assert (s = t) as -> by (apply state_as_str_inj; congruence). tauto. }
    unfold sealed_facts. rewrite count_of_rows, Hpp, filled_other, <- count_of_rows by done. split_all; [done | done|].
    rewrite (moved_find db db' cut_id _ e Hok Hm), bool_decide_eq_false_2 by done. by exists r', t.
  - apply seal_effect in Hr as [->|(d & ev & Htr)]; [done|]. eapply facts_transition; [done | exact Htr | by right | done].
  - apply release_effect in Hr as [[-> _]|(ev & Htr)]; [done|]. eapply facts_transition; [done | exact Htr | by left | done].
  - apply abort_effect in Hr as [[-> _]|(ev & Htr)]; [done|]. eapply facts_transition; [done | exact Htr | by left | done].
Qed.

Lemma facts_run e rows r calls : forall db,
  cuts_ok db -> sealed_facts e rows r db -> sealed_facts e rows r (run_calls decode calls db).
Proof.
  induction calls as [|call calls IH]; intros db Hok Hf; [done|]. simpl.
  apply IH; [by apply (call_step decode call db) | by apply facts_step].
Qed.

(** A manifest is a function of the participant rows and of the cut's terms. *)
Definition manifest_from (e : string) (rows : list ParticipantRow) (r : CutRow) : res StoreError BackupCutManifestV1 :=
  let? by_role := read_prepared decode (foldr insert_by_role [] rows) [] in
  let? (participants, others) := take_roles REQUIRED_BACKUP_PARTICIPANTS by_role in
  reject_if (negb (match others with [] => true | _ => false end)) InvalidBackupParticipants ;?
  let? authority_domain := map_err (fun e => Corrupt (InvalidStoredDomain e))
                             (identifier_new AuthorityDomainId_k (cr_authority_domain r)) in
  let? epoch_u64 := to_u64 (cr_epoch r) "backup epoch" in
  let? epoch := map_err (fun e => Corrupt (InvalidStoredEpoch e)) (EpochId_new epoch_u64) in
  Ok (mkManifest "backup-cut/v1" e authority_domain epoch (cr_quiescence_barrier_id r) participants).

Lemma state_round s : state_from_str (state_as_str s) = Ok s.
Proof. by destruct s. Qed.

Lemma build_manifest_eq e db r s :
  find_cut e db = Some r -> cr_state r = state_as_str s -> s = Prepared \/ s = Sealed \/ s = Released ->
  build_backup_manifest decode db e = manifest_from e (cut_rows e (db_participants db)) r.
Proof.
  intros Hr Hs Hs'. unfold build_backup_manifest. rewrite Hr. cbn [ok_or res_bind]. rewrite Hs, state_round.
  by destruct Hs' as [->|[->| ->]].
Qed.

Lemma manifest_same_terms e rows r r' :
  cr_authority_domain r' = cr_authority_domain r -> cr_epoch r' = cr_epoch r ->
  cr_quiescence_barrier_id r' = cr_quiescence_barrier_id r -> manifest_from e rows r' = manifest_from e rows r.
Proof. unfold manifest_from. by intros -> -> ->. Qed.

(** What the first seal of a cut leaves. *)
Lemma seal_first manifest now db db1 receipt :
  let e := mf_cut_id manifest in
  cuts_ok db -> cut_state db e = Some (state_as_str Prepared) ->
  seal_backup_cut decode manifest now db = Ok (db1, receipt) ->
  exists expected d r, build_backup_manifest decode db e = Ok expected /\ jcs expected = jcs manifest /\
    digest_jcs MANIFEST_DOMAIN manifest = Ok d /\ cr_manifest_digest r = Some (digest_str d) /\
    manifest_from e (cut_rows e (db_participants db1)) r = Ok expected /\
    sealed_facts e (cut_rows e (db_participants db1)) r db1.
Proof.
  intros e Hok Hst Hr. unfold cut_state in Hst. destruct (find_cut e db) as [row|] eqn:Hrow; [|done].
  injection Hst as Hst. pose proof (find_cut_some _ _ _ Hrow) as [Hin Hrid].
  destruct (proj1 (Forall_forall _ _) (cuts_coherent db Hok) row Hin) as (Hck & _ & s0 & Hs0 & Hfit).
  assert (s0 = Prepared) as -> by (apply state_as_str_inj; rewrite <- Hs0; exact Hst). rewrite Hrid in Hfit.
  unfold seal_backup_cut in Hr. apply res_bind_ok in Hr as (d & Hd & Hr). fold e in Hr. rewrite Hrow in Hr.
  cbn [ok_or res_bind] in Hr. rewrite Hs0, state_round in Hr. cbn [res_bind] in Hr.
  destruct (cr_manifest_digest row) as [md|] eqn:Hmd.
  { unfold cut_checks in Hck. rewrite Hs0, Hmd, !andb_true_iff in Hck. by destruct Hck as [[[_ Hnone] _] _]. }
  apply res_bind_ok in Hr as (expected & Hb & Hr). apply res_bind_ok in Hr as (je & Hje & Hr).
  apply res_bind_ok in Hr as (jm & Hjm & Hr). apply guard_ok in Hr as [Hj%negb_bool_decide_false Hr].
  do 2 (apply res_bind_ok in Hr as (? & _ & Hr); try (apply guard_ok in Hr as [_ Hr])).
  apply res_bind_ok in Hr as ([db2 rc] & Happ & Hr). apply res_bind_ok in Hr as (seq & _ & Hr).
  apply res_bind_ok in Hr as ([db3 []] & Hup & [= <- <-]). apply append_keeps_cuts in Happ as [Hc Hp].
  destruct (update_cut_moved _ _ db _ _ row Hup Hrow Hc Hrid) as [Hm Hp']. rewrite Hp in Hp'.
  eexists expected, d, (cut_sealed _ _ now row). split_all; [done | by rewrite Hje, Hjm, Hj | done | done | |].
  - rewrite (manifest_same_terms _ _ row) by done. rewrite Hp', <- Hb. symmetry.
    apply (build_manifest_eq e db row Prepared); [done | done | by left].
  - unfold sealed_facts. rewrite count_of_rows, Hp', <- count_of_rows. split_all; [done | done|].
    eexists _, Sealed. rewrite (moved_find db db3 e _ e Hok Hm), bool_decide_eq_true_2, Hrow by done.
    split; [done|]. by repeat split.
Qed.

(** A sealed manifest is permanent.  When [Store::seal_backup_cut] seals a
    prepared cut, the manifest it was given has the canonical bytes of the one
    built from the three prepared checkpoints; and whatever calls follow, as long
    as the cut is sealed or released, [build_backup_manifest] returns that same
    manifest and the stored digest is its digest, so that the check of
    [Store::capture_sealed_database] cannot fail. *)
Theorem sealed_manifest_permanent manifest now db db1 receipt calls :
  let cut_id := mf_cut_id manifest in
  cuts_ok db -> cut_state db cut_id = Some (state_as_str Prepared) ->
  seal_backup_cut decode manifest now db = Ok (db1, receipt) ->
  let db' := run_calls decode calls db1 in
  (exists s, cut_state db' cut_id = Some (state_as_str s) /\ (s = Sealed \/ s = Released)) ->
  exists expected d row,
    build_backup_manifest decode db cut_id = Ok expected /\
    build_backup_manifest decode db' cut_id = Ok expected /\ jcs expected = jcs manifest /\
    digest_jcs MANIFEST_DOMAIN expected = Ok d /\
    find_cut cut_id db' = Some row /\ cr_manifest_digest row = Some (digest_str d).
Proof.
  intros cut_id Hok Hprep Hseal db' (s & Hs & Hs').
  destruct (seal_first manifest now db db1 receipt Hok Hprep Hseal) as (expected & d & r & Hb & Hj & Hd & Hmd & Hm & Hf).
  assert (cuts_ok db1) as Hok1.
  { pose proof Hseal as [->|(d' & ev & Ht)]%seal_effect; [done | by eapply transition_ok]. }
  pose proof (facts_run cut_id _ r calls db1 Hok1 Hf) as Hf'. fold db' in Hf'.
  pose proof Hf' as (Hrows & _ & r' & t & Hr' & (_ & Hdom & Hep & Hbar & Hmd') & _). exists expected, d, r'.
  split_all; [done | | done | | done | congruence].
  - rewrite (build_manifest_eq cut_id db' r' s Hr'); [| |tauto].
    + by rewrite Hrows, (manifest_same_terms _ _ r).
    + unfold cut_state in Hs. rewrite Hr' in Hs. simpl in Hs. congruence.
  - unfold digest_jcs in *. by rewrite Hj.
Qed.

End Sealed.

(** ** Concrete cuts *)

Module ToyCut.
Definition digest (s : string) : Digest := hash_bytes (str_bytes s).
Definition domain : AuthorityDomainId := mkText "lab".
Definition registration (p : BackupParticipantV1) : BackupParticipantRegistrationV1 :=
  mkRegistration p (digest (participant_as_str p)).
Definition request : BeginBackupCutV1 :=
  mkBegin "cut-1" domain (mkEpochId 3) "barrier-1" (map registration REQUIRED_BACKUP_PARTICIPANTS) 2000.
Definition checkpoint (p : BackupParticipantV1) : BackupCheckpointV1 :=
  mkCheckpoint p (digest (participant_as_str p)) (mkHead 4 (digest "head")) (digest "blobs") (digest "config")
    (digest "schema") (digest "profile") (digest "build")
    (mkAttestation ATTESTATION_SCHEMA "cut-1" domain (mkEpochId 3) "barrier-1" p OfflineServicesStopped
       (digest "summary") (digest "operator") 2001).
(** Reads back one of the three checkpoints. *)
Definition decode (b : bytes) : string + BackupCheckpointV1 :=
  match List.find (fun p => toy_encoding (checkpoint p) == b) REQUIRED_BACKUP_PARTICIPANTS with
  | Some p => inr (checkpoint p)
  | None => inl "not a checkpoint"
  end.
Definition prepare_calls : list StoreCall :=
  CallBegin request :: map (fun p => CallPrepare "cut-1" (checkpoint p) 2002) REQUIRED_BACKUP_PARTICIPANTS.
Definition begun : Database := run_calls decode [CallBegin request] ToyStore.created.
Definition prepared : Database := run_calls decode prepare_calls ToyStore.created.
Definition manifest : BackupCutManifestV1 :=
  unwrap_or (mkManifest "" "" domain (mkEpochId 1) "" []) (build_backup_manifest decode prepared "cut-1").
Definition seal : Database * EventReceiptV1 :=
  unwrap_or (prepared, mkReceipt 0 "" (digest "") (digest "") 0 (digest "")) (seal_backup_cut decode manifest 2003 prepared).
Definition sealed : Database := seal.1.
Definition receipt : EventReceiptV1 := seal.2.
End ToyCut.

Lemma toy_created_cuts : cuts_ok ToyStore.created.
Proof.
  assert (db_cuts ToyStore.created = [] /\ db_participants ToyStore.created = []) as [Hc Hp]
    by (vm_compute; by split).
  constructor; rewrite ?Hc, ?Hp; simpl;
    [constructor | intros r s Hr; by apply elem_of_nil in Hr | constructor | constructor | intros p Hr; by apply elem_of_nil in Hr].
Qed.

Lemma backup_cut_lifecycle_witness :
  exists s', cut_state (run_calls ToyCut.decode [CallAbort "cut-1" "done" 3000] ToyCut.begun) "cut-1" =
      Some (state_as_str s') /\ rtc cut_edge Preparing s'.
Proof.
  destruct (backup_cut_lifecycle ToyCut.decode [CallAbort "cut-1" "done" 3000] ToyCut.begun
    (calls_ok _ _ _ toy_created_cuts)) as [_ Hrun].
  destruct (Hrun "cut-1" Preparing) as (s' & Hs & He & _); [vm_compute; reflexivity|].
  exists s'. exact (conj Hs He).
Defined.

Lemma toy_begun_active : exists r, find_cut "cut-1" ToyCut.begun = Some r /\ active_state (cr_state r) = true.
Proof. eexists. split; vm_compute; reflexivity. Qed.

Lemma barrier_blocks_mutation_witness :
  commit (append_event (ToyStore.event "e-9" "proposal:z" 1) 1%Z 0) ToyCut.begun =
  (ToyCut.begun, Err (BackupBarrierActive "cut-1")).
Proof.
  destruct toy_begun_active as (r & Hr & Ha). apply find_cut_some in Hr as [Hin Hid]. rewrite <- Hid.
  exact (proj1 (barrier_blocks_mutation ToyCut.begun r (calls_ok _ _ _ toy_created_cuts) Hin Ha)
    Z Z _ _ (ToyStore.event "e-9" "proposal:z" 1) 1%Z 0%Z eq_refl).
Defined.

Lemma toy_prepared_state : cut_state ToyCut.prepared "cut-1" = Some (state_as_str Prepared).
Proof. vm_compute. reflexivity. Qed.
Lemma toy_manifest_cut : mf_cut_id ToyCut.manifest = "cut-1".
Proof. vm_compute. reflexivity. Qed.
Lemma toy_sealed : seal_backup_cut ToyCut.decode ToyCut.manifest 2003 ToyCut.prepared = Ok (ToyCut.sealed, ToyCut.receipt).
Proof. vm_compute. reflexivity. Qed.
Lemma toy_released_state :
  cut_state (run_calls ToyCut.decode [CallRelease "cut-1" (ToyCut.digest "bundle") 2004] ToyCut.sealed) "cut-1" =
  Some (state_as_str Released).
Proof. vm_compute. reflexivity. Qed.

Lemma sealed_manifest_permanent_witness :
  exists expected d row,
    let db' := run_calls ToyCut.decode [CallRelease "cut-1" (ToyCut.digest "bundle") 2004] ToyCut.sealed in
    build_backup_manifest ToyCut.decode db' "cut-1" = Ok expected /\ jcs expected = jcs ToyCut.manifest /\
    digest_jcs MANIFEST_DOMAIN expected = Ok d /\
    find_cut "cut-1" db' = Some row /\ cr_manifest_digest row = Some (digest_str d).
Proof.
  destruct (sealed_manifest_permanent ToyCut.decode ToyCut.manifest 2003 ToyCut.prepared ToyCut.sealed ToyCut.receipt
    [CallRelease "cut-1" (ToyCut.digest "bundle") 2004]) as (expected & d & row & _ & Hrest).
  - exact (calls_ok _ _ _ toy_created_cuts).
  - rewrite toy_manifest_cut. exact toy_prepared_state.
  - exact toy_sealed.
  - rewrite toy_manifest_cut. exists Released. split; [exact toy_released_state | by right].
  - exists expected, d, row. rewrite toy_manifest_cut in Hrest. exact Hrest.
Defined.
