(* ===== verification/StoreRetry.v ===== *)
(** * Exact retries of backup calls (ag-store/src/lib.rs)

    Every backup call records the sequence number of the event it committed; a
    repeated call looks that event up and answers with its receipt.  Here: the
    receipt so recovered is the one the first call returned. *)

From S2P Require Import Prelude Wire Fixture Digest Names Origin Store StoreLog StoreSpec StoreBackup StoreCuts.

Section Receipts.
  Context `{JcsLaws, !HexLaws, !Sha256Laws}.

(** What a successful append wrote, and what it answered. *)
Lemma append_inv `{Serialize P, Serialize A} (event : NewEventV1 P) (state : A) expected db db' receipt :
  append_event_in_transaction event state expected db = Ok (db', receipt) ->
  exists head revision payload_jcs state_jcs b,
    chain_head db = Ok head /\ materialized_revision db (ne_entity_id event) = Ok revision /\
    let sd := hash_domain STATE_DOMAIN state_jcs in
    let ed := hash_domain EVENT_DOMAIN b in
    receipt = mkReceipt (ch_sequence head + 1) (ne_event_id event) (ch_digest head) ed (revision + 1) sd /\
    db_events db' = insert_by_sequence
      (mkEventRow (ch_sequence head + 1) (ne_event_id event) (ne_entity_id event) (ne_event_kind event)
         (ne_occurred_at_unix_ms event) (digest_str (ch_digest head)) payload_jcs
         (digest_str (hash_domain PAYLOAD_DOMAIN payload_jcs)) (digest_str sd) (digest_str ed)) (db_events db).
Proof.
  unfold append_event_in_transaction. intros Hr. apply then_ok in Hr as [_ Hr]. apply guard_ok in Hr as [_ Hr].
  apply res_bind_ok in Hr as (head & Hh & Hr). apply res_bind_ok in Hr as (rev & Hrev & Hr). apply guard_ok in Hr as [_ Hr].
  apply res_bind_ok in Hr as (rev' & Hrev'%ok_or_ok & Hr). apply res_bind_ok in Hr as (seq & Hseq%ok_or_ok & Hr).
  apply checked_add_u64_Some in Hrev' as [-> _], Hseq as [-> _].
  apply res_bind_ok in Hr as (pj & _ & Hr). apply res_bind_ok in Hr as (sj & _ & Hr).
  apply res_bind_ok in Hr as (ed & Hed & Hr). apply res_bind_ok in Hr as (seq & Hseq & Hr).
  apply res_bind_ok in Hr as ([db1 []] & Hins & Hr). apply res_bind_ok in Hr as (? & _ & Hr).
  apply res_bind_ok in Hr as ([db2 []] & Hups & Hr). apply res_bind_ok in Hr as (? & _ & Hr).
  apply res_bind_ok in Hr as ([db3 changed] & Hcas & Hr). apply guard_ok in Hr as [_ [= <- <-]].
  unfold event_digest_for, digest_jcs in Hed. apply res_bind_ok in Hed as (b & _ & [= <-]).
  unfold to_i64 in Hseq. apply guard_ok in Hseq as [_ [= <-]].
  exists head, rev, pj, sj, b. split_all; [done | done | done|].
  unfold insert_event in Hins. apply guard_ok in Hins as [_ [= <-]].
  unfold upsert_state in Hups. apply guard_ok in Hups as [_ [= <-]].
  unfold update_chain_head in Hcas. destruct (db_chain_head _); [|by injection Hcas as <- _].
  destruct (_ && _); [apply guard_ok in Hcas as [_ [= <- _]] | injection Hcas as <- _]; done.
Qed.

Lemma filter_map_length {X Y} (f : X -> Y) (p : Y -> bool) l :
  length (List.filter (fun x => p (f x)) l) = length (List.filter p (map f l)).
Proof. induction l as [|x l IH]; [done|]. simpl. destruct (p (f x)); simpl; by rewrite IH. Qed.

Lemma find_app_none {X} (p : X -> bool) l l' : List.find p l = None -> List.find p (l ++ l') = List.find p l'.
Proof. induction l as [|x l IH]; [done|]. simpl. destruct (p x); [done | exact IH]. Qed.

(** The receipt of an append to an image can be looked up by its sequence. *)
Lemma receipt_recovered identity db L `{Serialize P, Serialize A} (event : NewEventV1 P) (state : A) expected db' receipt :
  represents identity db L -> append_event_in_transaction event state expected db = Ok (db', receipt) ->
  forall db'', db_events db'' = db_events db' -> event_receipt_by_sequence db'' (rc_sequence receipt) = Ok receipt.
Proof.
  intros (bg & v & Hid & Hc & He & Hs & Hh) Happ db'' Hev.
  destruct (append_inv event state expected db db' receipt Happ) as (head & rev & pj & sj & b & Hhead & Hrev & -> & Hev').
  destruct (image_reads db bg L v (ne_entity_id event) Hc Hs Hh) as [Hhead' Hrev'].
  rewrite Hhead in Hhead'. injection Hhead' as ->. rewrite Hrev in Hrev'. injection Hrev' as ->.
  destruct (chain_head_hash _ bg L v eq_refl Hc) as (dom & bh & Hvh).
  cbn [ch_sequence ch_digest rc_sequence] in *. 
  assert (forall r, r ∈ vw_events v -> (0 < er_sequence r <= Z.of_nat (length L))%Z) as Hseqs
    by (intros r; by eapply chain_sequences).
  rewrite insert_at_end in Hev'; [|rewrite He; intros r Hr; cbn [er_sequence]; specialize (Hseqs r Hr); lia].
  unfold event_receipt_by_sequence, find_event. rewrite Hev, Hev', He.
  assert (List.find (fun r => (er_sequence r =? Z.of_nat (length L) + 1)%Z) (vw_events v) = None) as Hnone.
  { destruct (List.find _ _) as [r|] eqn:Hf; [|done]. apply find_some in Hf as [Hr%list_elem_of_In Hq%Z.eqb_eq].
    specialize (Hseqs r Hr). lia. }
  rewrite find_app_none by done. cbn [List.find er_sequence]. rewrite Z.eqb_refl. cbn [ok_or res_bind er_entity_id
    er_previous_digest er_event_digest er_state_digest er_event_id].
  rewrite List.filter_app, length_app. cbn [List.filter er_entity_id er_sequence].
  rewrite bool_decide_eq_true_2, Z.leb_refl by done. cbn [andb length].
  assert (List.filter (fun r => (er_entity_id r == ne_entity_id event) && (er_sequence r <=? Z.of_nat (length L) + 1)%Z)
    (vw_events v) = List.filter (fun r => er_entity_id r == ne_entity_id event) (vw_events v)) as ->.
  { apply filter_ext_in. intros r Hr%list_elem_of_In. specialize (Hseqs r Hr).
    by rewrite (proj2 (Z.leb_le _ _)), andb_true_r by lia. }
  assert (length (List.filter (fun r => er_entity_id r == ne_entity_id event) (vw_events v)) =
    log_count (ne_entity_id event) L) as ->.
  { set (p := fun e : string => e == ne_entity_id event).
    pose proof (filter_map_length er_entity_id p (vw_events v)) as Hrows.
    pose proof (filter_map_length cm_entity_id p L) as Hlog.
    rewrite (proj1 (proj2 (chain_rows _ _ _ Hc))) in Hrows. exact (eq_trans Hrows (eq_sym Hlog)). }
  rewrite to_u64_nonneg by lia. cbn [res_bind]. rewrite Hvh, !store_digest_hash. cbn [res_bind].
  rewrite to_u64_nonneg by lia. cbn [res_bind]. do 2 f_equal. lia.
Qed.

(** ** Statements on the backup tables leave the events alone *)

Lemma to_i64_ok z field z' : to_i64 z field = Ok z' -> z' = z.
Proof. unfold to_i64. by intros [_ [= ->]]%guard_ok. Qed.

Lemma update_cut_events cut_id f db db' : update_cut cut_id f db = Ok (db', tt) -> db_events db' = db_events db.
Proof. unfold update_cut. destruct (find_cut cut_id db); [by intros [_ [= <-]]%guard_ok | by intros [= <-]]. Qed.

Lemma insert_registrations_events cut_id l : forall db db',
  insert_registrations cut_id l db = Ok (db', tt) -> db_events db' = db_events db.
Proof.
  induction l as [|g l IH]; intros db db' Hi; [by injection Hi as <-|].
  cbn [insert_registrations] in Hi. apply res_bind_ok in Hi as ([db1 []] & [-> _]%insert_participant_ok & Hi).
  by apply IH in Hi.
Qed.

Lemma find_filled cut_id role component c l p :
  List.find (is_participant cut_id role) l = Some p ->
  List.find (is_participant cut_id role) (map (filled cut_id role component c) l) =
  Some (mkParticipantRow cut_id role component (Some c)).
Proof.
  induction l as [|r l IH]; [done|]. simpl. assert (filled cut_id role component c r = if is_participant cut_id role r
    then mkParticipantRow cut_id role component (Some c) else r) as Hfill by done.
  destruct (is_participant cut_id role r) eqn:Hr; rewrite Hfill.
  - intros _. unfold is_participant at 1. cbn [pr_cut_id pr_participant]. by rewrite !bool_decide_eq_true_2.
  - rewrite Hr. exact IH.
Qed.

(** ** Retries *)

Variable decode : bytes -> string + BackupCheckpointV1.

Inductive BackupCall : Type :=
  | BeginCut (request : BeginBackupCutV1)
  | PrepareCut (cut_id : string) (checkpoint : BackupCheckpointV1) (now : Z)
  | SealCut (manifest : BackupCutManifestV1) (now : Z)
  | ReleaseCut (cut_id : string) (bundle : Digest) (now : Z)
  | AbortCut (cut_id reason : string) (now : Z).
Definition backup_call (call : BackupCall) : Tx EventReceiptV1 :=
  match call with
  | BeginCut request => begin_backup_cut request
  | PrepareCut cut_id checkpoint now => prepare_backup_participant cut_id checkpoint now
  | SealCut manifest now => seal_backup_cut decode manifest now
  | ReleaseCut cut_id bundle now => release_backup_cut cut_id bundle now
  | AbortCut cut_id reason now => abort_backup_cut cut_id reason now
  end.

Section Retry.
  Context (identity : StoreIdentityV1) (db : Database) (L : Log).
  Context (Hrep : represents identity db L) (Hok : cuts_ok db).

Lemma retry_begin request db' receipt :
  begin_backup_cut request db = Ok (db', receipt) -> begin_backup_cut request db' = Ok (db', receipt).
Proof.
  intros Hcall. pose proof Hcall as Hr. unfold begin_backup_cut in Hr. apply then_ok in Hr as [Hv Hr].
  apply res_bind_ok in Hr as (rd & Hrd & Hr). destruct (find_cut (bc_cut_id request) db) as [row|] eqn:Hf.
  { assert (db' = db) as -> by (apply guard_ok in Hr as [_ Hr]; apply res_bind_ok in Hr as (? & _ & Hr); congruence). done. }
  apply guard_ok in Hr as [_ Hr]. apply res_bind_ok in Hr as ([db1 rc] & Happ & Hr).
  apply res_bind_ok in Hr as (epoch & _ & Hr). apply res_bind_ok in Hr as (seq & ->%to_i64_ok & Hr).
  apply res_bind_ok in Hr as ([db2 []] & Hins & Hr). apply res_bind_ok in Hr as ([db3 []] & Hreg & [= <- <-]).
  unfold insert_cut in Hins. apply guard_ok in Hins as [_ [= <-]].
  pose proof (insert_registrations_events _ _ _ _ Hreg) as Hev. apply insert_registrations_ok in Hreg as (Hc3 & _ & _).
  pose proof (append_keeps_cuts _ _ _ _ _ _ Happ) as [Hc _].
  unfold begin_backup_cut. rewrite Hv, Hrd. cbn [res_bind]. unfold find_cut in *. rewrite Hc3. cbn [set_cuts db_cuts].
  rewrite Hc, find_app_none by done. cbn [List.find cr_cut_id]. rewrite bool_decide_eq_true_2 by done.
  cbn [cr_begin_request_digest cr_begin_event_sequence]. rewrite bool_decide_eq_true_2 by done. cbn [negb reject_if res_bind].
  by rewrite (receipt_recovered identity db L _ _ _ _ _ Hrep Happ db3 Hev).
Qed.

Lemma retry_prepare cut_id checkpoint now db' receipt :
  prepare_backup_participant cut_id checkpoint now db = Ok (db', receipt) ->
  prepare_backup_participant cut_id checkpoint now db' = Ok (db', receipt).
Proof.
  intros Hcall. pose proof Hcall as Hr. unfold prepare_backup_participant in Hr.
  apply res_bind_ok in Hr as (row & Hrow%ok_or_ok & Hr). apply res_bind_ok in Hr as (dom & Hdom & Hr).
  apply res_bind_ok in Hr as (eu & Heu & Hr). apply res_bind_ok in Hr as (ep & Hep & Hr). apply then_ok in Hr as [Hatt Hr].
  apply res_bind_ok in Hr as (cj & Hcj & Hr). apply res_bind_ok in Hr as (p & Hp%ok_or_ok & Hr).
  apply guard_ok in Hr as [Hcomp Hr]. destruct (pr_checkpoint p) as [prior|] eqn:Hck.
  { assert (db' = db) as -> by (apply guard_ok in Hr as [_ Hr]; apply res_bind_ok in Hr as (? & _ & Hr); congruence). done. }
  apply res_bind_ok in Hr as (state & _ & Hr). apply guard_ok in Hr as [_ Hr].
  do 2 (apply res_bind_ok in Hr as (? & _ & Hr)). apply res_bind_ok in Hr as ([db1 rc] & Happ & Hr).
  pose proof (append_keeps_cuts _ _ _ _ _ _ Happ) as [Hc Hpp]. apply res_bind_ok in Hr as (seq & ->%to_i64_ok & Hr).
  apply res_bind_ok in Hr as ([db2 changed] & Hfill & Hr). apply guard_ok in Hr as [_ Hr].
  apply res_bind_ok in Hr as ([db3 []] & Hup & [= <- <-]).
  assert (find_participant cut_id (participant_as_str (cp_participant checkpoint)) db1 = Some p) as Hp1.
  { unfold find_participant in *. by rewrite Hpp. }
  unfold fill_checkpoint in Hfill. rewrite Hp1 in Hfill. destruct p as [pc pr comp ck]. simpl in Hck. subst ck.
  apply guard_ok in Hfill as [_ [= <- <-]]. pose proof (update_cut_events _ _ _ _ Hup) as Hev.
  destruct (update_cut_moved _ _ db _ _ row Hup Hrow Hc (proj2 (find_cut_some _ _ _ Hrow))) as [Hm Hp'].
  assert (exists c, cc_checkpoint_digest c = digest_str (hash_domain CHECKPOINT_DOMAIN cj) /\
    cc_prepared_event_sequence c = rc_sequence rc /\
    find_participant cut_id (participant_as_str (cp_participant checkpoint)) db3 =
      Some (mkParticipantRow cut_id (participant_as_str (cp_participant checkpoint)) comp (Some c))) as (c & Hc1 & Hc2 & Hfp).
  { eexists. split; [|split].
    3: { unfold find_participant in *. rewrite Hp'. cbn [set_participants db_participants]. rewrite Hpp.
         exact (find_filled _ _ _ _ _ _ Hp). }
    all: done. }
  unfold prepare_backup_participant. rewrite (moved_find db db3 cut_id _ cut_id Hok Hm), bool_decide_eq_true_2, Hrow by done.
  cbn [option_map ok_or res_bind cut_with_state cr_authority_domain cr_epoch cr_quiescence_barrier_id].
  rewrite Hdom. cbn [res_bind]. rewrite Heu. cbn [res_bind]. rewrite Hep. cbn [res_bind]. rewrite Hatt. cbn [res_bind].
  rewrite Hcj. cbn [res_bind]. rewrite Hfp. cbn [ok_or res_bind pr_component_identity pr_checkpoint] in *.
  rewrite Hcomp. cbn [reject_if res_bind]. rewrite Hc1, Hc2, bool_decide_eq_true_2 by done. cbn [negb reject_if res_bind].
  by rewrite (receipt_recovered identity db L _ _ _ _ _ Hrep Happ db3 Hev).
Qed.

Lemma retry_seal manifest now db' receipt :
  seal_backup_cut decode manifest now db = Ok (db', receipt) ->
  seal_backup_cut decode manifest now db' = Ok (db', receipt).
Proof.
  intros Hcall. pose proof Hcall as Hr. unfold seal_backup_cut in Hr. apply res_bind_ok in Hr as (md & Hmd & Hr).
  apply res_bind_ok in Hr as (row & Hrow%ok_or_ok & Hr). apply res_bind_ok in Hr as (st & _ & Hr).
  destruct (cr_manifest_digest row).
  { assert (db' = db) as ->; [|done]. apply guard_ok in Hr as [_ Hr]. apply res_bind_ok in Hr as (? & _ & Hr).
    apply res_bind_ok in Hr as (? & _ & Hr). congruence. }
  do 3 (apply res_bind_ok in Hr as (? & _ & Hr)). apply guard_ok in Hr as [_ Hr].
  apply res_bind_ok in Hr as (state & _ & Hr). apply guard_ok in Hr as [_ Hr].
  apply res_bind_ok in Hr as (rev & _ & Hr). apply res_bind_ok in Hr as ([db1 rc] & Happ & Hr).
  apply res_bind_ok in Hr as (seq & ->%to_i64_ok & Hr). apply res_bind_ok in Hr as ([db2 []] & Hup & [= <- <-]).
  pose proof (append_keeps_cuts _ _ _ _ _ _ Happ) as [Hc Hp]. pose proof (update_cut_events _ _ _ _ Hup) as Hev.
  destruct (update_cut_moved _ _ db _ _ row Hup Hrow Hc (proj2 (find_cut_some _ _ _ Hrow))) as [Hm _].
  unfold seal_backup_cut. rewrite Hmd. cbn [res_bind].
  rewrite (moved_find db db2 _ _ (mf_cut_id manifest) Hok Hm), bool_decide_eq_true_2, Hrow by done.
  cbn [option_map ok_or res_bind cut_sealed cr_state cr_manifest_digest cr_seal_event fst].
  rewrite bool_decide_eq_true_2 by done. cbn.
  by rewrite (receipt_recovered identity db L _ _ _ _ _ Hrep Happ db2 Hev).
Qed.

Lemma retry_release cut_id bundle now db' receipt :
  release_backup_cut cut_id bundle now db = Ok (db', receipt) -> release_backup_cut cut_id bundle now db' = Ok (db', receipt).
Proof.
  intros Hcall. pose proof Hcall as Hr. unfold release_backup_cut in Hr. apply res_bind_ok in Hr as (row & Hrow%ok_or_ok & Hr).
  apply res_bind_ok in Hr as (st & _ & Hr). destruct (decide (st = Released)) as [->|Hn].
  { rewrite bool_decide_eq_true_2 in Hr by done. assert (db' = db) as ->; [|done]. apply guard_ok in Hr as [_ Hr].
    apply res_bind_ok in Hr as (? & _ & Hr). apply res_bind_ok in Hr as (? & _ & Hr). congruence. }
  rewrite bool_decide_eq_false_2 in Hr by done. apply res_bind_ok in Hr as (state & _ & Hr). apply guard_ok in Hr as [_ Hr].
  do 3 (apply res_bind_ok in Hr as (? & _ & Hr)). apply res_bind_ok in Hr as ([db1 rc] & Happ & Hr).
  apply res_bind_ok in Hr as (seq & ->%to_i64_ok & Hr). apply res_bind_ok in Hr as ([db2 []] & Hup & [= <- <-]).
  pose proof (append_keeps_cuts _ _ _ _ _ _ Happ) as [Hc _]. pose proof (update_cut_events _ _ _ _ Hup) as Hev.
  destruct (update_cut_moved _ _ db _ _ row Hup Hrow Hc (proj2 (find_cut_some _ _ _ Hrow))) as [Hm _].
  unfold release_backup_cut. rewrite (moved_find db db2 cut_id _ cut_id Hok Hm), bool_decide_eq_true_2, Hrow by done.
  cbn [option_map ok_or res_bind cut_released cr_state cr_release_bundle_digest cr_release_event fst].
  change (state_from_str _) with (Ok (E := StoreError) Released). cbn [res_bind]. rewrite !bool_decide_eq_true_2 by done.
  cbn [negb reject_if res_bind]. by rewrite (receipt_recovered identity db L _ _ _ _ _ Hrep Happ db2 Hev).
Qed.

Lemma retry_abort cut_id reason now db' receipt :
  abort_backup_cut cut_id reason now db = Ok (db', receipt) -> abort_backup_cut cut_id reason now db' = Ok (db', receipt).
Proof.
  intros Hcall. pose proof Hcall as Hr. unfold abort_backup_cut in Hr. apply then_ok in Hr as [Hv Hr]. apply res_bind_ok in Hr as (row & Hrow%ok_or_ok & Hr).
  apply res_bind_ok in Hr as (st & _ & Hr). destruct (decide (st = Aborted)) as [->|Hn].
  { rewrite bool_decide_eq_true_2 in Hr by done. assert (db' = db) as ->; [|done]. apply guard_ok in Hr as [_ Hr].
    apply res_bind_ok in Hr as (? & _ & Hr). apply res_bind_ok in Hr as (? & _ & Hr). congruence. }
  rewrite bool_decide_eq_false_2 in Hr by done. apply res_bind_ok in Hr as (state & _ & Hr). apply guard_ok in Hr as [_ Hr].
  do 3 (apply res_bind_ok in Hr as (? & _ & Hr)). apply res_bind_ok in Hr as ([db1 rc] & Happ & Hr).
  apply res_bind_ok in Hr as (seq & ->%to_i64_ok & Hr). apply res_bind_ok in Hr as ([db2 []] & Hup & [= <- <-]).
  pose proof (append_keeps_cuts _ _ _ _ _ _ Happ) as [Hc _]. pose proof (update_cut_events _ _ _ _ Hup) as Hev.
  destruct (update_cut_moved _ _ db _ _ row Hup Hrow Hc (proj2 (find_cut_some _ _ _ Hrow))) as [Hm _].
  unfold abort_backup_cut. rewrite Hv. cbn [res_bind]. rewrite (moved_find db db2 cut_id _ cut_id Hok Hm), bool_decide_eq_true_2, Hrow by done.
  cbn [option_map ok_or res_bind cut_aborted cr_state cr_abort_reason cr_abort_event fst].
  change (state_from_str _) with (Ok (E := StoreError) Aborted). cbn [res_bind]. rewrite !bool_decide_eq_true_2 by done.
  cbn [negb reject_if res_bind]. by rewrite (receipt_recovered identity db L _ _ _ _ _ Hrep Happ db2 Hev).
Qed.

End Retry.

(** Exact retries are idempotent: whatever backup call succeeds on a store
    with coherent tables, repeating it on the resulting store succeeds with the
    same receipt and changes nothing, and the chain holds one event for both. *)
Theorem backup_retries_idempotent identity db L call db' receipt :
  represents identity db L -> cuts_ok db ->
  backup_call call db = Ok (db', receipt) ->
  commit (backup_call call) db' = (db', Ok receipt).
Proof.
  intros Hrep Hok Hcall. unfold commit. cut (backup_call call db' = Ok (db', receipt)); [by intros ->|].
  destruct call; simpl in *; [eapply retry_begin | eapply retry_prepare | eapply retry_seal | eapply retry_release
    | eapply retry_abort]; eauto.
Qed.

End Receipts.

Definition toy_begin : Database * EventReceiptV1 :=
  unwrap_or (ToyStore.created, ToyCut.receipt) (begin_backup_cut ToyCut.request ToyStore.created).
Lemma toy_begin_ok : backup_call ToyCut.decode (BeginCut ToyCut.request) ToyStore.created = Ok (toy_begin.1, toy_begin.2).
Proof. vm_compute. reflexivity. Qed.

Lemma backup_retries_idempotent_witness :
  commit (backup_call ToyCut.decode (BeginCut ToyCut.request)) toy_begin.1 = (toy_begin.1, Ok toy_begin.2).
Proof.
  exact (backup_retries_idempotent ToyCut.decode ToyStore.identity ToyStore.created [] (BeginCut ToyCut.request)
    toy_begin.1 toy_begin.2 toy_created_represents toy_created_cuts toy_begin_ok).
Defined.
