(* ===== verification/StoreBlob.v ===== *)
(** * Immutable blobs (ag-store/src/lib.rs)

    Content-addressed files beside the database, and the catalog that names them.
    The object directory is a map from paths to nodes; a reader is the list of
    the chunks it will deliver, so that a theorem about every reader is one about
    every way the bytes can arrive.  The result of making the parent directory is
    an argument; renaming the temporary file into place happens in one step. *)

From S2P Require Import Prelude Wire Fixture Digest Names Origin Store StoreLog StoreSpec StoreBackup StoreCuts.

(** ** Readers and files *)

(** What the next [Read::read] calls find: bytes that are there, or an error. *)
Inductive ReadStep : Type := Chunk (b : bytes) | Broken (message : string).
Definition Reader : Type := list ReadStep.

(** [reader.read(&mut buffer[..bound])]: the bytes read, none at the end. *)
Definition read_step (bound : nat) (reader : Reader) : res StoreError (bytes * Reader) :=
  match reader with
  | [] => Ok ([], [])
  | Broken message :: _ => Err (StoreIo message)
  | Chunk b :: rest =>
      match drop bound b with
      | [] => Ok (b, rest)
      | later => Ok (take bound b, Chunk later :: rest)
      end
  end.

(** The bytes a reader that does not fail delivers in all. *)
Definition contents (reader : Reader) : bytes :=
  concat (map (fun s => match s with Chunk b => b | Broken _ => [] end) reader).
Definition sound_reader (reader : Reader) : Prop :=
  Forall (fun s => match s with Chunk b => b <> [] | Broken _ => False end) reader.

(** One object of the file system, as [symlink_metadata] and [read] see it. *)
Record FileNode : Type := mkNode { fn_is_file : bool; fn_nlink : Z; fn_mode : Z; fn_content : bytes }.
Abbreviation ObjectDir := (gmap string FileNode).

Inductive BlobInstallResult : Type := Installed | AlreadyPresent.

Definition BUFFER : Z := 65536.

Section Blobs.
  Context `{Deps}.

(** ** Hashing *)

(** The loop of [copy_and_hash_blob] and [hash_blob_reader]: [seen] are the bytes
    hashed (and copied) so far, their number [actual_size].  [None] is running
    out of fuel. *)
Fixpoint hash_loop (fuel : nat) (reader : Reader) (expected_size actual_size : Z) (seen : bytes)
    : option (res StoreError (BlobDescriptorV1 * bytes)) :=
  match fuel with
  | O => None
  | S f =>
      let done := Some (Ok (mkBlobDescriptor (hash_bytes seen) actual_size, seen)) in
      let maximum_observed := saturating_add_u64 expected_size 1 in
      let remaining := saturating_sub_u64 maximum_observed actual_size in
      if (remaining =? 0)%Z then done
      else
        let read_bound := Z.to_nat (Z.min remaining BUFFER) in
        match read_step read_bound reader with
        | Ok ([], _) => done
        | Ok (data, reader') =>
            match checked_add_u64 actual_size (Z.of_nat (length data)) with
            | None => Some (Err (Corrupt BlobCountOverflow))
            | Some actual_size' =>
                if (expected_size <? actual_size')%Z
                then Some (Ok (mkBlobDescriptor (hash_bytes (seen ++ data)) actual_size', seen ++ data))
                else hash_loop f reader' expected_size actual_size' (seen ++ data)
            end
        | Err e => Some (Err e)
        | Panic => Some Panic
        end
  end.

(** Every read delivers a byte or ends the loop. *)
Definition reader_fuel (reader : Reader) : nat := S (length reader + length (contents reader)).
Definition copy_and_hash_blob (reader : Reader) (expected_size : Z) : res StoreError (BlobDescriptorV1 * bytes) :=
  match hash_loop (reader_fuel reader) reader expected_size 0 [] with Some r => r | None => Panic end.
Definition hash_blob_reader (reader : Reader) (expected_size : Z) : res StoreError BlobDescriptorV1 :=
  let? (descriptor, _) := copy_and_hash_blob reader expected_size in Ok descriptor.

(** ** Files *)

(** [Store::blob_path], below the object root: two digits, then the rest. *)
Definition blob_path (digest : Digest) : res StoreError string :=
  let? hex := expect (if starts_with (digest_str digest) "sha256:"
                      then Some (str_drop (String.length "sha256:") (digest_str digest)) else None) in
  let? _ := expect (if String.length hex <? 2 then None else Some tt) in
  Ok (String.substring 0 2 hex +:+ "/" +:+ str_drop 2 hex).

(** [verify_blob_file]: metadata, then the bytes. *)
Definition WRITE_BITS : Z := 146. (* 0o222 *)
Definition verify_blob_file (files : ObjectDir) (path : string) (expected : BlobDescriptorV1) : res StoreError unit :=
  let? node := ok_or (StoreIo "not found") (files !! path) in
  reject_if (negb (fn_is_file node) || negb (fn_nlink node =? 1)%Z || negb (Z.land (fn_mode node) WRITE_BITS =? 0)%Z)
    (Corrupt (NotImmutableFile (bd_digest expected))) ;?
  let? actual := hash_blob_reader [Chunk (fn_content node)] (bd_byte_length expected) in
  reject_if (actual != expected) (BlobMismatch expected actual) ;?
  Ok tt.

(** [SELECT byte_length FROM blobs WHERE digest = ?1]. *)
Definition catalog_size (digest : Digest) (db : Database) : option Z :=
  option_map br_byte_length (List.find (fun r => br_digest r == digest_str digest) (db_blobs db)).

(** [INSERT OR IGNORE INTO blobs]. *)
Definition insert_blob (row : BlobRow) : Tx unit := fun db =>
  if existsb (fun r => br_digest r == br_digest row) (db_blobs db) || (br_byte_length row <? 0)%Z then Ok (db, tt)
  else Ok (set_blobs db (db_blobs db ++ [row]), tt).

(** The transaction that catalogs a blob. *)
Definition catalog_blob (descriptor : BlobDescriptorV1) (installed_at_unix_ms : Z) : Tx unit := fun db =>
  ensure_no_backup_barrier db ;?
  let? size := to_i64 (bd_byte_length descriptor) "blob byte length" in
  let? (db, _) := insert_blob (mkBlobRow (digest_str (bd_digest descriptor)) size installed_at_unix_ms) db in
  let? stored := ok_or (Sqlite QueryReturnedNoRows) (catalog_size (bd_digest descriptor) db) in
  let? stored_u64 := to_u64 stored "blob byte length" in
  reject_if (negb (stored_u64 =? bd_byte_length descriptor)%Z)
    (Corrupt (ConcurrentCatalogMismatch (bd_digest descriptor))) ;?
  Ok (db, tt).

(** [temporary.set_readonly(true)]: the mode a temporary file has without its
    write bits. *)
Definition READONLY_MODE : Z := 256. (* 0o400 *)

(** [Store::install_blob]: the database, the object directory, and the result. *)
Definition install_blob (parent_ready : res StoreError unit) (descriptor : BlobDescriptorV1) (reader : Reader)
    (installed_at_unix_ms : Z) (db : Database) (files : ObjectDir)
    : Database * ObjectDir * res StoreError BlobInstallResult :=
  match catalog_size (bd_digest descriptor) db with
  | Some size =>
      (db, files,
       let? size_u64 := to_u64 size "blob byte length" in
       reject_if (negb (size_u64 =? bd_byte_length descriptor)%Z) (Corrupt (CatalogSizeMismatch (bd_digest descriptor))) ;?
       let? path := blob_path (bd_digest descriptor) in
       verify_blob_file files path descriptor ;?
       Ok AlreadyPresent)
  | None =>
      match active_backup_cut db with
      | Some cut_id => (db, files, Err (BackupBarrierActive cut_id))
      | None =>
          let placed : res StoreError ObjectDir :=
            let? path := blob_path (bd_digest descriptor) in
            parent_ready ;?
            match files !! path with
            | Some _ => verify_blob_file files path descriptor ;? Ok files
            | None =>
                let? (actual, copied) := copy_and_hash_blob reader (bd_byte_length descriptor) in
                reject_if (actual != descriptor) (BlobMismatch descriptor actual) ;?
                Ok (<[path := mkNode true 1 READONLY_MODE copied]> files)
            end in
          match placed with
          | Ok files' =>
              let (db', result) := commit (catalog_blob descriptor installed_at_unix_ms) db in
              (db', files', let? _ := result in Ok Installed)
          | Err e => (db, files, Err e)
          | Panic => (db, files, Panic)
          end
      end
  end.

(** [Store::read_blob]. *)
Definition read_blob (files : ObjectDir) (db : Database) (digest : Digest) (maximum_bytes : Z) : res StoreError bytes :=
  let? size := ok_or (Corrupt (NotCatalogued digest)) (catalog_size digest db) in
  let? byte_length := to_u64 size "blob byte length" in
  reject_if (maximum_bytes <? byte_length)%Z (BlobReadLimitExceeded digest byte_length maximum_bytes) ;?
  let descriptor := mkBlobDescriptor digest byte_length in
  let? path := blob_path digest in
  verify_blob_file files path descriptor ;?
  let? node := ok_or (StoreIo "not found") (files !! path) in
  let b := fn_content node in
  reject_if ((hash_bytes b != digest) || negb (Z.of_nat (length b) =? byte_length)%Z)
    (BlobMismatch descriptor (mkBlobDescriptor (hash_bytes b) (Z.of_nat (length b)))) ;?
  Ok b.

(** [Store::blob_catalog]: the rows in the order of their digest texts. *)
Fixpoint insert_by_digest (r : BlobRow) (l : list BlobRow) : list BlobRow :=
  match l with
  | [] => [r]
  | s :: l' => if str_ltb (br_digest r) (br_digest s) then r :: l else s :: insert_by_digest r l'
  end.
Fixpoint catalog_rows (files : ObjectDir) (rows : list BlobRow) : res StoreError (list BlobDescriptorV1) :=
  match rows with
  | [] => Ok []
  | row :: rows' =>
      let? digest := store_digest_parse (br_digest row) in
      let? byte_length := to_u64 (br_byte_length row) "blob byte length" in
      let descriptor := mkBlobDescriptor digest byte_length in
      let? path := blob_path digest in
      verify_blob_file files path descriptor ;?
      let? rest := catalog_rows files rows' in
      Ok (descriptor :: rest)
  end.
Definition blob_catalog (files : ObjectDir) (db : Database) : res StoreError (list BlobDescriptorV1) :=
  catalog_rows files (foldr insert_by_digest [] (db_blobs db)).
Definition BLOB_ROOT_DOMAIN : string := "ag-store-blob-root-v1".
Definition blob_root (files : ObjectDir) (db : Database) : res StoreError StoreDigestV1 :=
  let? catalog := blob_catalog files db in digest_jcs BLOB_ROOT_DOMAIN catalog.

End Blobs.

(** ** What the loop computes *)

Section Hashing.
  Context `{HexLaws, !Sha256Laws}.

Definition describe (b : bytes) : BlobDescriptorV1 := mkBlobDescriptor (hash_bytes b) (Z.of_nat (length b)).

(** A read delivers a nonempty prefix of what is left, at most [bound] bytes. *)
Lemma read_step_sound bound reader :
  0 < bound -> sound_reader reader ->
  (reader = [] /\ read_step bound reader = Ok ([], [])) \/
  exists data reader', read_step bound reader = Ok (data, reader') /\ data <> [] /\ length data <= bound /\
    contents reader = data ++ contents reader' /\ sound_reader reader' /\
    length reader' + length (contents reader') < length reader + length (contents reader).
Proof.
  intros Hb Hs. destruct reader as [|[b|m] rest]; [by left| |by inversion Hs]. right.
  apply Forall_cons in Hs as [Hne Hrest]. cbn [read_step]. destruct (drop bound b) as [|x later] eqn:Hd.
  - exists b, rest. split_all; try done.
    + apply skipn_all_iff in Hd. lia.
    + unfold contents. simpl. rewrite length_app. destruct b; [done|]. simpl. lia.
  - assert (bound < length b) as Hl.
    { destruct (decide (bound < length b)) as [|Hn]; [done|]. rewrite drop_ge in Hd by lia. done. }
    exists (take bound b), (Chunk (x :: later) :: rest). pose proof (take_drop bound b) as Hsplit. rewrite Hd in Hsplit.
    assert (contents (Chunk b :: rest) = take bound b ++ contents (Chunk (x :: later) :: rest)) as Hc.
    { unfold contents. cbn [map concat]. rewrite <- Hsplit at 1. by rewrite <- app_assoc. }
    split_all; try done.
    + intros Hn%(f_equal length). rewrite length_take in Hn. simpl in Hn. lia.
    + rewrite length_take. lia.
    + by apply Forall_cons.
    + rewrite Hc, length_app, length_take. simpl. lia.
Qed.

Lemma hash_loop_sound fuel : forall reader expected seen,
  sound_reader reader -> (Z.of_nat (length seen) <= expected < U64_MAX)%Z ->
  length reader + length (contents reader) < fuel ->
  let t := seen ++ take (Z.to_nat (expected + 1 - Z.of_nat (length seen))) (contents reader) in
  hash_loop fuel reader expected (Z.of_nat (length seen)) seen = Some (Ok (describe t, t)).
Proof.
  induction fuel as [|f IH]; intros reader expected seen Hs Hr Hf; [lia|]. cbn [hash_loop].
  unfold saturating_add_u64, saturating_sub_u64.
  rewrite Z.min_l, Z.max_l, (proj2 (Z.eqb_neq _ _)) by lia.
  set (remaining := (expected + 1 - Z.of_nat (length seen))%Z) in *.
  set (bound := Z.to_nat (Z.min remaining BUFFER)). assert (0 < bound) as Hb by (unfold bound, BUFFER; lia).
  destruct (read_step_sound bound reader Hb Hs) as [[-> ->]|(data & reader' & -> & Hne & Hl & Hc & Hs' & Hm)].
  { unfold contents. simpl. by rewrite take_nil, app_nil_r. }
  assert (0 < length data) as Hpos by (destruct data; [done | simpl; lia]).
  assert (length data <= Z.to_nat remaining) as Hlr by (unfold bound in Hl; lia).
  destruct data as [|x data0] eqn:Hdata; [done|]. rewrite <- Hdata in *. clear Hdata Hne. unfold checked_add_u64.
  rewrite (proj2 (Z.leb_le _ _)) by lia. rewrite Hc.
  replace (Z.of_nat (length seen) + Z.of_nat (length data))%Z with (Z.of_nat (length (seen ++ data)))
    by (rewrite length_app; lia).
  destruct (Z.ltb_spec expected (Z.of_nat (length (seen ++ data)))) as [Hgt|Hle]; rewrite length_app in Hgt || rewrite length_app in Hle.
  - rewrite take_app_le, take_ge by lia. done.
  - specialize (IH reader' expected (seen ++ data) Hs'). cbv zeta in IH. rewrite IH; [|rewrite length_app; lia | lia].
    rewrite take_app_ge, <- app_assoc by lia.
    replace (Z.to_nat (expected + 1 - Z.of_nat (length (seen ++ data)))) with (Z.to_nat remaining - length data); [done|].
    rewrite length_app. lia.
Qed.

Lemma copy_and_hash_sound reader expected :
  sound_reader reader -> (0 <= expected < U64_MAX)%Z ->
  let t := take (Z.to_nat (expected + 1)) (contents reader) in
  copy_and_hash_blob reader expected = Ok (describe t, t).
Proof.
  intros Hs He t. unfold copy_and_hash_blob, reader_fuel.
  pose proof (hash_loop_sound (S (length reader + length (contents reader))) reader expected [] Hs) as Hl.
  simpl length in Hl. rewrite Z.sub_0_r in Hl. change (Z.of_nat 0) with 0%Z in Hl. rewrite Hl by lia. done.
Qed.

(** The observed descriptor is the expected one exactly for the exact bytes. *)
Lemma described_exactly b d expected :
  (0 <= expected)%Z ->
  describe (take (Z.to_nat (expected + 1)) b) = mkBlobDescriptor d expected <->
  hash_bytes b = d /\ Z.of_nat (length b) = expected.
Proof.
  intros He. unfold describe. split.
  - intros [= Hd Hl]. rewrite length_take in Hl.
    assert (length b <= Z.to_nat (expected + 1)) as Hb by lia. rewrite take_ge in Hd by done. split; [done | lia].
  - intros [<- <-]. by rewrite take_ge by lia.
Qed.

Lemma copy_and_hash_file b expected :
  (0 <= expected < U64_MAX)%Z ->
  hash_blob_reader [Chunk b] expected = Ok (describe (take (Z.to_nat (expected + 1)) b)).
Proof.
  intros He. unfold hash_blob_reader. destruct b as [|x b].
  - unfold copy_and_hash_blob, reader_fuel. cbn [length hash_loop Nat.add]. unfold saturating_add_u64, saturating_sub_u64.
    rewrite Z.min_l, Z.max_l, (proj2 (Z.eqb_neq _ _)) by lia. cbn [read_step]. by rewrite drop_nil, take_nil.
  - rewrite copy_and_hash_sound; [| |done].
    + unfold contents. simpl concat. by rewrite app_nil_r.
    + by apply Forall_singleton.
Qed.

(** ** Files *)

Definition immutable (node : FileNode) : bool :=
  fn_is_file node && (fn_nlink node =? 1)%Z && (Z.land (fn_mode node) WRITE_BITS =? 0)%Z.

Lemma verify_blob_file_spec files path d size :
  (0 <= size < U64_MAX)%Z ->
  verify_blob_file files path (mkBlobDescriptor d size) = Ok tt <->
  exists node, files !! path = Some node /\ immutable node = true /\
    hash_bytes (fn_content node) = d /\ Z.of_nat (length (fn_content node)) = size.
Proof.
  intros Hs. unfold verify_blob_file, immutable. cbn [bd_digest bd_byte_length]. split.
  - intros Hv. apply res_bind_ok in Hv as (node & Hn%ok_or_ok & Hv). apply guard_ok in Hv as [Hm Hv].
    rewrite copy_and_hash_file in Hv by done. cbn [res_bind] in Hv. apply guard_ok in Hv as [Hd%negb_bool_decide_false _].
    apply described_exactly in Hd as [Hd Hl]; [|lia]. exists node. split_all; try done.
    apply orb_false in Hm as [[Hi1%negb_false_iff Hi2%negb_false_iff]%orb_false Hi3%negb_false_iff]. by rewrite Hi1, Hi2, Hi3.
  - intros (node & -> & Him & Hd & Hl). cbn [ok_or res_bind].
    apply andb_true_iff in Him as [[Hi1 Hi2]%andb_true_iff Hi3]. rewrite Hi1, Hi2, Hi3. cbn [negb orb reject_if res_bind].
    rewrite copy_and_hash_file by done. cbn [res_bind].
    by rewrite (proj2 (described_exactly (fn_content node) d size ltac:(lia)) (conj Hd Hl)), bool_decide_eq_true_2.
Qed.

Lemma blob_path_hash b : exists path, blob_path (hash_bytes b) = Ok path.
Proof.
  destruct (hash_bytes_canonical b) as (h & Hh & Hl & _). unfold blob_path. rewrite Hh.
  assert (starts_with (SHA256_PREFIX +:+ h) "sha256:" = true) as -> by (apply starts_with_spec; by exists h).
  change (String.length "sha256:") with (String.length SHA256_PREFIX). rewrite str_drop_app. cbn [expect res_bind].
  rewrite Hl. eexists. reflexivity.
Qed.

(** A new digest is catalogued with its length. *)
Lemma catalog_fresh d size at_ db :
  catalog_size d db = None -> active_backup_cut db = None -> (0 <= size <= I64_MAX)%Z ->
  exists db', commit (catalog_blob (mkBlobDescriptor d size) at_) db = (db', Ok tt) /\ catalog_size d db' = Some size.
Proof.
  intros Hcat Hact Hs. unfold catalog_size in Hcat. destruct (List.find _ _) as [r|] eqn:Hf; [done|].
  unfold commit, catalog_blob, ensure_no_backup_barrier. rewrite Hact. cbn [res_bind bd_digest bd_byte_length].
  rewrite to_i64_small by lia. cbn [res_bind]. unfold insert_blob. cbn [br_digest br_byte_length].
  rewrite existsb_none, (proj2 (Z.ltb_ge _ _)); [|lia|].
  2: { intros r Hr. apply list_elem_of_In in Hr. exact (find_none _ _ Hf r Hr). }
  cbn [orb res_bind]. set (db' := set_blobs db _).
  assert (catalog_size d db' = Some size) as Hnew.
  { unfold catalog_size, db'. cbn [set_blobs db_blobs]. clear -Hf.
    induction (db_blobs db) as [|r l IH]; simpl in *; [by rewrite bool_decide_eq_true_2|].
    destruct (br_digest r == digest_str d); [done | by apply IH]. }
  rewrite Hnew. cbn [ok_or res_bind]. rewrite to_u64_nonneg by lia. cbn [res_bind]. rewrite Z.eqb_refl.
  cbn [negb reject_if res_bind]. by exists db'.
Qed.

(** Hashing a blob does not depend on how its bytes arrive: for every reader
    that delivers its contents in nonempty chunks, whatever their sizes, the loop
    of [copy_and_hash_blob] ends, has copied and hashed exactly the first
    [expected + 1] bytes, and yields the expected descriptor exactly when the
    contents have the expected length and digest. *)
Theorem blob_hash_chunk_independent reader expected d :
  sound_reader reader -> (0 <= expected < U64_MAX)%Z ->
  let t := take (Z.to_nat (expected + 1)) (contents reader) in
  copy_and_hash_blob reader expected = Ok (describe t, t) /\
  hash_loop (reader_fuel reader) reader expected 0 [] = Some (Ok (describe t, t)) /\
  (describe t = mkBlobDescriptor d expected <->
   hash_bytes (contents reader) = d /\ Z.of_nat (length (contents reader)) = expected).
Proof.
  intros Hs He t. split_all; [by apply copy_and_hash_sound | | by apply described_exactly; lia].
  pose proof (hash_loop_sound (reader_fuel reader) reader expected [] Hs) as Hl. unfold reader_fuel in *.
  simpl length in Hl. rewrite Z.sub_0_r in Hl. change (Z.of_nat 0) with 0%Z in Hl. apply Hl; lia.
Qed.

(** [Store::read_blob] returns exactly what it promises: it yields bytes if
    and only if the digest is catalogued with their length, that length is within
    the caller's bound, and the file at the digest's path is an immutable regular
    file with one link that holds those bytes, and they hash to the digest. *)
Theorem read_blob_exact files db d maximum b :
  (Z.of_nat (length b) < U64_MAX)%Z -> (forall size, catalog_size d db = Some size -> size < U64_MAX)%Z ->
  read_blob files db d maximum = Ok b <->
  hash_bytes b = d /\ (Z.of_nat (length b) <= maximum)%Z /\ catalog_size d db = Some (Z.of_nat (length b)) /\
  exists path node, blob_path d = Ok path /\ files !! path = Some node /\ immutable node = true /\ fn_content node = b.
Proof.
  intros Hb Hcat. unfold read_blob. split.
  - intros Hr. apply res_bind_ok in Hr as (size & Hsize%ok_or_ok & Hr). apply res_bind_ok in Hr as (len & Hlen & Hr).
    unfold to_u64 in Hlen. apply guard_ok in Hlen as [Hpos [= <-]]. apply guard_ok in Hr as [Hmax Hr].
    apply res_bind_ok in Hr as (path & Hpath & Hr). apply then_ok in Hr as [Hv Hr].
    apply res_bind_ok in Hr as (node & Hnode%ok_or_ok & Hr). apply guard_ok in Hr as [Hg [= <-]].
    apply orb_false in Hg as [Hh%negb_bool_decide_false Hl%negb_false_iff%Z.eqb_eq].
    apply verify_blob_file_spec in Hv as (node' & Hn' & Him & _); [|specialize (Hcat _ Hsize); lia].
    assert (node' = node) as -> by congruence. split_all; [done | lia | by rewrite Hl | by exists path, node].
  - intros (<- & Hmax & Hsize & path & node & Hpath & Hnode & Him & <-). rewrite Hsize. cbn [ok_or res_bind].
    rewrite to_u64_nonneg by lia. cbn [res_bind]. rewrite (proj2 (Z.ltb_ge _ _)) by lia. cbn [reject_if res_bind].
    rewrite Hpath. cbn [res_bind].
    rewrite (proj2 (verify_blob_file_spec files path (hash_bytes (fn_content node)) (Z.of_nat (length (fn_content node))) ltac:(lia)))
      by (by exists node).
    cbn [res_bind]. rewrite Hnode. cbn [ok_or res_bind]. by rewrite bool_decide_eq_true_2, Z.eqb_refl.
Qed.

(** C28. A blob installed under its descriptor reads back.  On a store where the
    digest is new and no cut is active, [Store::install_blob] accepts a reader
    exactly when its contents have the declared digest and length; then the blob
    is catalogued, [Store::read_blob] returns those very bytes, and installing it
    again, with any reader, reports it present and changes nothing.  Any other
    contents are refused with the mismatch, and neither the database nor the
    object directory changes. *)
Theorem install_then_read reader d size at_ db files path :
  sound_reader reader -> (0 <= size <= I64_MAX)%Z -> blob_path d = Ok path ->
  catalog_size d db = None -> active_backup_cut db = None -> files !! path = None ->
  let descriptor := mkBlobDescriptor d size in
  let actual := describe (take (Z.to_nat (size + 1)) (contents reader)) in
  if decide (hash_bytes (contents reader) = d /\ Z.of_nat (length (contents reader)) = size) then
    exists db' files', install_blob (Ok tt) descriptor reader at_ db files = (db', files', Ok Installed) /\
      (forall maximum, (size <= maximum)%Z -> read_blob files' db' d maximum = Ok (contents reader)) /\
      forall ready reader' at', install_blob ready descriptor reader' at' db' files' = (db', files', Ok AlreadyPresent)
  else install_blob (Ok tt) descriptor reader at_ db files = (db, files, Err (BlobMismatch descriptor actual)).
Proof.
  intros Hs Hsize Hpath Hcat Hact Hfile descriptor actual.
  assert (I64_MAX < U64_MAX)%Z as Hmax by done.
  unfold install_blob. cbn [bd_digest bd_byte_length descriptor]. rewrite Hcat, Hact, Hpath. cbn [res_bind]. rewrite Hfile.
  rewrite copy_and_hash_sound by (done || lia). cbn [res_bind]. fold actual.
  pose proof (described_exactly (contents reader) d size (proj1 Hsize)) as Hexact.
  destruct (decide (_ /\ _)) as [Hok|Hbad].
  2: { rewrite bool_decide_eq_false_2; [done|]. intros Hn. apply Hbad, Hexact, Hn. }
  rewrite bool_decide_eq_true_2 by (by apply Hexact). cbn [negb reject_if res_bind].
  set (node := mkNode true 1 READONLY_MODE (contents reader)).
  rewrite take_ge by lia.
  destruct (catalog_fresh d size at_ db Hcat Hact Hsize) as (db' & Hc & Hsz). fold descriptor in Hc. rewrite Hc. cbn [res_bind].
  exists db', (<[path := node]> files). split; [done|]. destruct Hok as [Hd Hl].
  assert (verify_blob_file (<[path := node]> files) path descriptor = Ok tt) as Hverify.
  { apply verify_blob_file_spec; [lia|]. exists node. by rewrite lookup_insert_eq. }
  split.
  - intros maximum Hm. unfold read_blob. rewrite Hsz. cbn [ok_or res_bind]. rewrite to_u64_nonneg by lia. cbn [res_bind].
    rewrite (proj2 (Z.ltb_ge _ _)) by lia. cbn [reject_if res_bind]. rewrite Hpath. cbn [res_bind].
    fold descriptor. rewrite Hverify. cbn [res_bind]. rewrite lookup_insert_eq. cbn [ok_or res_bind fn_content node].
    by rewrite Hd, Hl, bool_decide_eq_true_2, Z.eqb_refl.
  - intros ready reader' at'. rewrite Hsz. rewrite to_u64_nonneg by lia. cbn [res_bind]. rewrite Z.eqb_refl.
    cbn [negb reject_if res_bind]. by rewrite Hverify.
Qed.

End Hashing.

(** ** A concrete blob *)

Module ToyBlob.
Definition content : bytes := str_bytes "object".
Definition reader : Reader := [Chunk (str_bytes "ob"); Chunk (str_bytes "ject")].
Definition digest : Digest := hash_bytes content.
Definition path : string := unwrap_or "" (blob_path digest).
Definition node : FileNode := mkNode true 1 READONLY_MODE content.
Definition catalogued : Database := set_blobs ToyStore.created [mkBlobRow (digest_str digest) 6 5].
End ToyBlob.

Lemma toy_reader_sound : sound_reader ToyBlob.reader.
Proof. repeat (apply Forall_cons; split; [discriminate|]). apply Forall_nil_2. Qed.

Lemma blob_hash_chunk_independent_witness :
  copy_and_hash_blob ToyBlob.reader 6 = Ok (describe ToyBlob.content, ToyBlob.content).
Proof.
  exact (proj1 (blob_hash_chunk_independent ToyBlob.reader 6 ToyBlob.digest toy_reader_sound ltac:(done))).
Defined.

Lemma toy_blob_path : blob_path ToyBlob.digest = Ok ToyBlob.path.
Proof. vm_compute. reflexivity. Qed.
Lemma toy_catalogued : catalog_size ToyBlob.digest ToyBlob.catalogued = Some 6%Z.
Proof. vm_compute. reflexivity. Qed.

Lemma read_blob_exact_witness :
  read_blob {[ToyBlob.path := ToyBlob.node]} ToyBlob.catalogued ToyBlob.digest 6 = Ok ToyBlob.content.
Proof.
  apply (read_blob_exact {[ToyBlob.path := ToyBlob.node]} ToyBlob.catalogued ToyBlob.digest 6 ToyBlob.content).
  - reflexivity.
  - intros size. rewrite toy_catalogued. intros [= <-]. reflexivity.
  - split; [reflexivity|]. split; [done|]. split; [exact toy_catalogued|].
    exists ToyBlob.path, ToyBlob.node. split; [exact toy_blob_path|]. split; [apply lookup_singleton_eq|]. done.
Defined.

Lemma toy_uncatalogued : catalog_size ToyBlob.digest ToyStore.created = None.
Proof. vm_compute. reflexivity. Qed.
Lemma toy_no_cut : active_backup_cut ToyStore.created = None.
Proof. vm_compute. reflexivity. Qed.

Lemma install_then_read_witness :
  exists db' files',
    install_blob (Ok tt) (mkBlobDescriptor ToyBlob.digest 6) ToyBlob.reader 5 ToyStore.created ∅ =
      (db', files', Ok Installed) /\
    read_blob files' db' ToyBlob.digest 100 = Ok ToyBlob.content.
Proof.
  pose proof (install_then_read ToyBlob.reader ToyBlob.digest 6 5 ToyStore.created ∅ ToyBlob.path toy_reader_sound
    ltac:(done) toy_blob_path toy_uncatalogued toy_no_cut (lookup_empty _)) as Hw.
  cbv zeta in Hw. rewrite decide_True in Hw by (split; reflexivity).
  destruct Hw as (db' & files' & Hi & Hr & _). exists db', files'. split; [exact Hi|].
  apply (Hr 100%Z). done.
Defined.
