(* ===== verification/StoreBundle.v ===== *)
(** * Captures and the coherent bundle (ag-store/src/lib.rs)

    While a cut is sealed each of the three stores is captured, and the three
    captures are published as one bundle.  [capture_sealed_database] is the part
    of the code that decides what a capture says; SQLite's online backup and the
    checks on the destination path are arguments.  A bundle is accepted exactly
    for three captures of one cut. *)

From S2P Require Import Prelude Wire Fixture Digest Names Origin Store StoreLog StoreSpec StoreBackup StoreCuts StoreBlob.

(** ** Data *)

Record SealedDatabaseCaptureV1 : Type := mkCapture {
  sc_schema : string;
  sc_cut_id : string;
  sc_participant : BackupParticipantV1;
  sc_component_identity : Digest;
  sc_manifest_digest : StoreDigestV1;
  sc_cut_manifest : BackupCutManifestV1;
  sc_store_identity : StoreIdentityV1;
  sc_captured_chain_head : ChainHeadV1;
  sc_blob_root : StoreDigestV1;
  sc_database : BlobDescriptorV1
}.
#[global] Instance SealedDatabaseCaptureV1_serialize : Serialize SealedDatabaseCaptureV1 := fun c =>
  VObject [("schema", to_value (sc_schema c)); ("cut_id", to_value (sc_cut_id c));
           ("participant", to_value (sc_participant c)); ("component_identity", to_value (sc_component_identity c));
           ("manifest_digest", to_value (sc_manifest_digest c)); ("cut_manifest", to_value (sc_cut_manifest c));
           ("store_identity", to_value (sc_store_identity c));
           ("captured_chain_head", to_value (sc_captured_chain_head c)); ("blob_root", to_value (sc_blob_root c));
           ("database", to_value (sc_database c))].
#[global] Instance SealedDatabaseCaptureV1_inj : SerializeInj SealedDatabaseCaptureV1.
Proof. ser_struct. Qed.

Record CoherentBackupBundleBodyV1 : Type := mkBundleBody {
  bb_schema : string;
  bb_cut_id : string;
  bb_authority_domain : AuthorityDomainId;
  bb_epoch : EpochId;
  bb_quiescence_barrier_id : string;
  bb_components : list SealedDatabaseCaptureV1
}.
#[global] Instance CoherentBackupBundleBodyV1_serialize : Serialize CoherentBackupBundleBodyV1 := fun b =>
  VObject [("schema", to_value (bb_schema b)); ("cut_id", to_value (bb_cut_id b));
           ("authority_domain", to_value (bb_authority_domain b)); ("epoch", to_value (bb_epoch b));
           ("quiescence_barrier_id", to_value (bb_quiescence_barrier_id b)); ("components", to_value (bb_components b))].
#[global] Instance CoherentBackupBundleBodyV1_inj : SerializeInj CoherentBackupBundleBodyV1.
Proof. ser_struct. Qed.

Record CoherentBackupBundleV1 : Type := mkBundle { cb_digest : Digest; cb_body : CoherentBackupBundleBodyV1 }.

Definition CAPTURE_SCHEMA : string := "ag-store-sealed-database-capture-v1".
Definition BUNDLE_SCHEMA : string := "ag-store-coherent-backup-bundle-v1".

(** ** Maps from roles *)

(** A [BTreeMap] keyed by role, in the order of the enum. *)
Definition role_index (p : BackupParticipantV1) : nat := match p with Agd => 0 | AgEffectd => 1 | AgProviderd => 2 end.
Definition CheckpointMap : Type := list (BackupParticipantV1 * BackupCheckpointV1).
Definition checkpoint_get (role : BackupParticipantV1) (m : CheckpointMap) : option BackupCheckpointV1 :=
  option_map snd (List.find (fun kv => kv.1 == role) m).
Fixpoint checkpoint_insert (role : BackupParticipantV1) (c : BackupCheckpointV1) (m : CheckpointMap) : CheckpointMap :=
  match m with
  | [] => [(role, c)]
  | (k, v) :: m' =>
      if k == role then (role, c) :: m'
      else if role_index role <? role_index k then (role, c) :: m else (k, v) :: checkpoint_insert role c m'
  end.

(** [checkpoint_bodies]. *)
Fixpoint collect_checkpoints (l : list PreparedParticipantV1) (m : CheckpointMap) : res StoreError CheckpointMap :=
  match l with
  | [] => Ok m
  | prepared :: l' =>
      let role := cp_participant (pp_checkpoint prepared) in
      reject_if (set (checkpoint_get role m)) IncoherentBackupBundle ;?
      collect_checkpoints l' (checkpoint_insert role (pp_checkpoint prepared) m)
  end.
Definition checkpoint_bodies (manifest : BackupCutManifestV1) : res StoreError CheckpointMap :=
  reject_if (negb (length (mf_participants manifest) =? length REQUIRED_BACKUP_PARTICIPANTS)) IncoherentBackupBundle ;?
  let? checkpoints := collect_checkpoints (mf_participants manifest) [] in
  reject_if (negb (same_roles (map fst checkpoints) REQUIRED_BACKUP_PARTICIPANTS)) IncoherentBackupBundle ;?
  Ok checkpoints.

(** [sort_by_key(participant)], stable. *)
Fixpoint insert_capture (c : SealedDatabaseCaptureV1) (l : list SealedDatabaseCaptureV1) : list SealedDatabaseCaptureV1 :=
  match l with
  | [] => [c]
  | d :: l' => if role_index (sc_participant d) <? role_index (sc_participant c) then d :: insert_capture c l' else c :: l
  end.
Definition sort_captures (l : list SealedDatabaseCaptureV1) : list SealedDatabaseCaptureV1 := foldr insert_capture [] l.

Section Bundle.
  Context `{Deps}.

(** [validate_coherent_captures]: the conditions of one capture, then the loop
    with the roles and store identities seen so far. *)
Definition store_key (c : SealedDatabaseCaptureV1) : Z * string :=
  (sid_application_id (sc_store_identity c), sid_application_name (sc_store_identity c)).
Definition validate_capture (first : SealedDatabaseCaptureV1) (expected : CheckpointMap)
    (roles : list BackupParticipantV1) (stores : list (Z * string)) (capture : SealedDatabaseCaptureV1)
    : res StoreError unit :=
  let manifest := sc_cut_manifest capture in
  identity_validate (sc_store_identity capture) ;?
  reject_if ((sc_schema capture != CAPTURE_SCHEMA) || (bd_byte_length (sc_database capture) =? 0)%Z
             || (sc_cut_id capture != mf_cut_id manifest) || (mf_version manifest != "backup-cut/v1")
             || (mf_cut_id manifest != mf_cut_id (sc_cut_manifest first))
             || (mf_authority_domain manifest != mf_authority_domain (sc_cut_manifest first))
             || (mf_epoch manifest != mf_epoch (sc_cut_manifest first))
             || (mf_quiescence_barrier_id manifest != mf_quiescence_barrier_id (sc_cut_manifest first)))
    IncoherentBackupBundle ;?
  let? digest := digest_jcs MANIFEST_DOMAIN manifest in
  reject_if ((digest != sc_manifest_digest capture) || bool_decide (sc_participant capture ∈ roles)
             || bool_decide (store_key capture ∈ stores)) IncoherentBackupBundle ;?
  let? checkpoints := checkpoint_bodies manifest in
  reject_if (checkpoints != expected) IncoherentBackupBundle ;?
  let? own := ok_or IncoherentBackupBundle (checkpoint_get (sc_participant capture) checkpoints) in
  reject_if ((cp_component_identity own != sc_component_identity capture) || (cp_blob_root own != sc_blob_root capture)
             || (ch_sequence (sc_captured_chain_head capture) <? ch_sequence (cp_chain_head own))%Z)
    IncoherentBackupBundle ;?
  Ok tt.
Fixpoint validate_captures (first : SealedDatabaseCaptureV1) (expected : CheckpointMap)
    (captures : list SealedDatabaseCaptureV1) (roles : list BackupParticipantV1) (stores : list (Z * string))
    : res StoreError (list BackupParticipantV1) :=
  match captures with
  | [] => Ok roles
  | capture :: captures' =>
      validate_capture first expected roles stores capture ;?
      validate_captures first expected captures' (sc_participant capture :: roles) (store_key capture :: stores)
  end.
Definition validate_coherent_captures (captures : list SealedDatabaseCaptureV1) : res StoreError unit :=
  reject_if (negb (length captures =? length REQUIRED_BACKUP_PARTICIPANTS)) IncoherentBackupBundle ;?
  let? first := ok_or IncoherentBackupBundle (head captures) in
  let? expected := checkpoint_bodies (sc_cut_manifest first) in
  let? roles := validate_captures first expected captures [] [] in
  reject_if (negb (same_roles roles REQUIRED_BACKUP_PARTICIPANTS)) IncoherentBackupBundle ;?
  Ok tt.

(** [CoherentBackupBundleV1::new] and [::verify]. *)
Definition bundle_new (components : list SealedDatabaseCaptureV1) : res StoreError CoherentBackupBundleV1 :=
  validate_coherent_captures components ;?
  let components := sort_captures components in
  let? first := ok_or IncoherentBackupBundle (head components) in
  let manifest := sc_cut_manifest first in
  let body := mkBundleBody BUNDLE_SCHEMA (mf_cut_id manifest) (mf_authority_domain manifest) (mf_epoch manifest)
                (mf_quiescence_barrier_id manifest) components in
  let? digest := digest_jcs BUNDLE_SCHEMA body in
  Ok (mkBundle digest body).
Definition bundle_verify (b : CoherentBackupBundleV1) : res StoreError unit :=
  let body := cb_body b in
  validate_coherent_captures (bb_components body) ;?
  reject_if ((bb_schema body != BUNDLE_SCHEMA)
             || (map sc_participant (bb_components body) != REQUIRED_BACKUP_PARTICIPANTS)
             || match head (bb_components body) with
                | None => true
                | Some first =>
                    let manifest := sc_cut_manifest first in
                    (bb_cut_id body != mf_cut_id manifest) || (bb_authority_domain body != mf_authority_domain manifest)
                    || (bb_epoch body != mf_epoch manifest)
                    || (bb_quiescence_barrier_id body != mf_quiescence_barrier_id manifest)
                end) IncoherentBackupBundle ;?
  let? digest := digest_jcs BUNDLE_SCHEMA body in
  reject_if (digest != cb_digest b) IncoherentBackupBundle ;?
  Ok tt.

(** [Store::capture_sealed_database]: [destination] is the outcome of the checks
    on the destination path, [backup] the file SQLite's online backup writes. *)
Definition capture_sealed_database (decode : bytes -> string + BackupCheckpointV1) (backup : Database -> bytes)
    (identity : StoreIdentityV1) (files : ObjectDir) (cut_id : string) (participant : BackupParticipantV1)
    (destination : res StoreError unit) (db : Database) : res StoreError SealedDatabaseCaptureV1 :=
  validate_store_identifier "cut_id" cut_id 192 ;?
  let? cut := backup_cut db cut_id in
  reject_if (bk_state cut != Sealed) (BackupCaptureRequiresSealed cut_id) ;?
  let? manifest_digest := ok_or (Corrupt SealedLacksManifest) (bk_manifest_digest cut) in
  let? cut_manifest := build_backup_manifest decode db cut_id in
  let? digest := digest_jcs MANIFEST_DOMAIN cut_manifest in
  reject_if (digest != manifest_digest) (Corrupt SealedManifestMismatch) ;?
  let? registered := ok_or (BackupParticipantMismatch participant)
                       (find_participant cut_id (participant_as_str participant) db) in
  let? component_identity := store_digest_parse (pr_component_identity registered) in
  destination ;?
  let? captured_chain_head := verify_chain identity db in
  let? root := blob_root files db in
  let file := backup db in
  let? head_after := verify_chain identity db in
  let? root_after := blob_root files db in
  reject_if ((head_after != captured_chain_head) || (root_after != root)) (Corrupt CaptureChanged) ;?
  let? database := hash_blob_reader [Chunk file] (Z.of_nat (length file)) in
  Ok (mkCapture CAPTURE_SCHEMA cut_id participant component_identity manifest_digest cut_manifest identity
        captured_chain_head root database).

End Bundle.

(** ** Coherence *)

Section Coherence.
  Context `{JcsLaws, !HexLaws, !Sha256Laws}.

(** One capture of the cut with these terms and these three checkpoints. *)
Record capture_of (cut_id : string) (domain : AuthorityDomainId) (epoch : EpochId) (barrier : string)
    (checkpoints : CheckpointMap) (c : SealedDatabaseCaptureV1) : Prop := {
  co_identity : identity_validate (sc_store_identity c) = Ok tt;
  co_schema : sc_schema c = CAPTURE_SCHEMA;
  co_nonempty : bd_byte_length (sc_database c) <> 0%Z;
  co_version : mf_version (sc_cut_manifest c) = "backup-cut/v1";
  co_cut : sc_cut_id c = cut_id /\ mf_cut_id (sc_cut_manifest c) = cut_id;
  co_terms : mf_authority_domain (sc_cut_manifest c) = domain /\ mf_epoch (sc_cut_manifest c) = epoch /\
    mf_quiescence_barrier_id (sc_cut_manifest c) = barrier;
  co_digest : digest_jcs MANIFEST_DOMAIN (sc_cut_manifest c) = Ok (sc_manifest_digest c);
  co_checkpoints : checkpoint_bodies (sc_cut_manifest c) = Ok checkpoints;
  co_own : exists own, checkpoint_get (sc_participant c) checkpoints = Some own /\
    cp_component_identity own = sc_component_identity c /\ cp_blob_root own = sc_blob_root c /\
    (ch_sequence (cp_chain_head own) <= ch_sequence (sc_captured_chain_head c))%Z
}.

(** Three captures of one cut, one per role, of three different stores. *)
Definition coherent (captures : list SealedDatabaseCaptureV1) : Prop :=
  Permutation (map sc_participant captures) REQUIRED_BACKUP_PARTICIPANTS /\ NoDup (map store_key captures) /\
  exists cut_id domain epoch barrier checkpoints,
    Forall (capture_of cut_id domain epoch barrier checkpoints) captures.

Lemma validate_capture_spec first expected roles stores c :
  let m := sc_cut_manifest first in
  validate_capture first expected roles stores c = Ok tt <->
  capture_of (mf_cut_id m) (mf_authority_domain m) (mf_epoch m) (mf_quiescence_barrier_id m) expected c /\
  (sc_participant c ∉ roles) /\ store_key c ∉ stores.
Proof.
  intros m. unfold validate_capture. fold m. split.
  - intros Hv. apply then_ok in Hv as [Hid Hv]. apply guard_ok in Hv as [Hg Hv]. guards_in Hg.
    apply res_bind_ok in Hv as (d & Hd & Hv). apply guard_ok in Hv as [Hg2 Hv]. guards_in Hg2.
    apply res_bind_ok in Hv as (cps & Hc & Hv). apply guard_ok in Hv as [Hce%negb_bool_decide_false Hv].
    apply res_bind_ok in Hv as (own & Ho%ok_or_ok & Hv). apply guard_ok in Hv as [Hg3 _]. guards_in Hg3.
    subst cps. destruct Hg2 as [[-> ?] ?]. split; [|tauto].
    constructor; try tauto; [intuition congruence|]. exists own. tauto.
  - intros ([Hid Hs Hn Hv [Hc1 Hc2] (Ht1 & Ht2 & Ht3) Hd Hcp (own & Ho & Ho1 & Ho2 & Ho3)] & Hr & Hst).
    rewrite Hid. cbn [res_bind]. rewrite Hs, Hv, Hc1, Hc2, Ht1, Ht2, Ht3, (proj2 (Z.eqb_neq _ _)) by done.
    rewrite !bool_decide_eq_true_2 by done. cbn [negb orb reject_if res_bind]. rewrite Hd. cbn [res_bind].
    rewrite bool_decide_eq_true_2, !bool_decide_eq_false_2 by done. cbn [negb orb reject_if res_bind].
    rewrite Hcp. cbn [res_bind]. rewrite bool_decide_eq_true_2 by done. cbn [negb reject_if res_bind].
    rewrite Ho. cbn [ok_or res_bind]. rewrite Ho1, Ho2, !bool_decide_eq_true_2, (proj2 (Z.ltb_ge _ _)) by done. done.
Qed.

Lemma validate_captures_spec first expected captures : forall roles stores result,
  let m := sc_cut_manifest first in
  validate_captures first expected captures roles stores = Ok result <->
  (result = rev (map sc_participant captures) ++ roles) /\
  Forall (capture_of (mf_cut_id m) (mf_authority_domain m) (mf_epoch m) (mf_quiescence_barrier_id m) expected) captures /\
  NoDup (map sc_participant captures) /\ NoDup (map store_key captures) /\
  (forall r, r ∈ map sc_participant captures -> r ∉ roles) /\ (forall s, s ∈ map store_key captures -> s ∉ stores).
Proof.
  intros roles stores result m. revert roles stores result.
  induction captures as [|c l IH]; intros roles stores result; cbn [validate_captures map rev app].
  { split; [intros [= <-]; split_all; auto; try apply Forall_nil_2; try apply NoDup_nil_2; by intros ? ?%elem_of_nil|].
    by intros [-> _]. }
  rewrite then_ok, validate_capture_spec, IH, Forall_cons, !NoDup_cons. rewrite <- app_assoc. simpl. fold m.
  setoid_rewrite elem_of_cons. split.
  - intros ((Hc & Hr & Hs) & -> & Hall & Hn1 & Hn2 & Hd1 & Hd2). split_all; try done; naive_solver.
  - intros (-> & [Hc Hall] & [Hi1 Hn1] & [Hi2 Hn2] & Hd1 & Hd2). split_all; try done; naive_solver.
Qed.

Lemma role_required p : p ∈ REQUIRED_BACKUP_PARTICIPANTS.
Proof. destruct p; repeat (apply list_elem_of_here || apply list_elem_of_further). Qed.

Lemma roles_complete l : NoDup l -> length l = 3 -> Permutation l REQUIRED_BACKUP_PARTICIPANTS.
Proof.
  intros Hn Hl. apply submseteq_length_Permutation; [|by rewrite Hl].
  apply NoDup_submseteq; [done|]. intros p _. apply role_required.
Qed.

Lemma same_roles_complete l : Permutation l REQUIRED_BACKUP_PARTICIPANTS -> same_roles l REQUIRED_BACKUP_PARTICIPANTS = true.
Proof.
  intros Hp. unfold same_roles. rewrite andb_true_iff, !forallb_forall. split; intros p _; apply bool_decide_eq_true.
  - apply role_required.
  - rewrite Hp. apply role_required.
Qed.

Lemma validate_coherent captures : validate_coherent_captures captures = Ok tt <-> coherent captures.
Proof.
  unfold validate_coherent_captures, coherent. split.
  - intros [Hl%negb_false_iff%Nat.eqb_eq Hv]%guard_ok. apply res_bind_ok in Hv as (first & Hf%ok_or_ok & Hv).
    apply res_bind_ok in Hv as (expected & He & Hv). apply res_bind_ok in Hv as (roles & Hr & _).
    apply validate_captures_spec in Hr as (_ & Hall & Hn1 & Hn2 & _). split_all; [|done|].
    + apply roles_complete; [done|]. by rewrite List.length_map.
    + by eexists _, _, _, _, expected.
  - intros (Hp & Hn & cut & dom & ep & bar & cps & Hall).
    assert (length captures = 3) as Hl by (rewrite <- (List.length_map sc_participant), Hp; done).
    rewrite Hl. cbn [Nat.eqb negb reject_if res_bind length REQUIRED_BACKUP_PARTICIPANTS].
    destruct captures as [|first l]; [done|]. cbn [head ok_or res_bind].
    pose proof (Forall_inv Hall) as Hfirst. rewrite (co_checkpoints _ _ _ _ _ _ Hfirst). cbn [res_bind].
    pose proof (co_cut _ _ _ _ _ _ Hfirst) as [_ Hc]. pose proof (co_terms _ _ _ _ _ _ Hfirst) as (Ht1 & Ht2 & Ht3).
    assert (NoDup (map sc_participant (first :: l))) as Hnd.
    { rewrite Hp. apply (bool_decide_unpack _). vm_compute. exact I. }
    rewrite (proj2 (validate_captures_spec first cps (first :: l) [] [] (rev (map sc_participant (first :: l)) ++ []))).
    2: { split; [reflexivity|]. rewrite Hc, Ht1, Ht2, Ht3. split_all; try done; intros ? _; apply not_elem_of_nil. }
    cbn [res_bind]. rewrite app_nil_r, same_roles_complete; [done|]. by rewrite <- Permutation_rev.
Qed.

(** *** Order *)

Lemma insert_capture_perm c l : Permutation (insert_capture c l) (c :: l).
Proof.
  induction l as [|d l IH]; [done|]. simpl. destruct (_ <? _); [|done]. rewrite IH. constructor.
Qed.
Lemma sort_captures_perm l : Permutation (sort_captures l) l.
Proof. induction l as [|c l IH]; [done|]. simpl. by rewrite insert_capture_perm, IH. Qed.

Lemma sorted_roles l :
  Permutation (map sc_participant l) REQUIRED_BACKUP_PARTICIPANTS ->
  map sc_participant (sort_captures l) = REQUIRED_BACKUP_PARTICIPANTS.
Proof.
  intros Hp. assert (NoDup (map sc_participant l)) as Hn.
  { rewrite Hp. apply (bool_decide_unpack _). vm_compute. exact I. }
  assert (length l = 3) as Hl by (rewrite <- (List.length_map sc_participant), Hp; done). clear Hp.
  destruct l as [|a [|b [|c [|]]]]; try done. unfold sort_captures. simpl in *.
  rewrite !NoDup_cons, !elem_of_cons in Hn.
  destruct (sc_participant a) eqn:Ha, (sc_participant b) eqn:Hb, (sc_participant c) eqn:Hc; try (exfalso; naive_solver);
    repeat (rewrite ?Ha, ?Hb, ?Hc; simpl); by rewrite ?Ha, ?Hb, ?Hc.
Qed.

Lemma same_keys_eq {X K} (f : X -> K) (l l' : list X) :
  NoDup (map f l) -> Permutation l l' -> map f l = map f l' -> l = l'.
Proof.
  intros Hn Hp Hm. apply list_eq. intros i. destruct (l !! i) as [x|] eqn:Hx.
  - assert (map f l' !! i = Some (f x)) as Hy by (rewrite <- Hm, list_lookup_fmap, Hx; done).
    rewrite list_lookup_fmap in Hy. destruct (l' !! i) as [y|] eqn:Hy'; [|done]. injection Hy as Hy. f_equal.
    apply (NoDup_map_inj f l); [done | by eapply list_elem_of_lookup_2 | | done].
    rewrite Hp. by eapply list_elem_of_lookup_2.
  - apply lookup_ge_None in Hx. symmetry. apply lookup_ge_None. by rewrite <- Hp.
Qed.

(** A backup bundle is one joint cut.  [validate_coherent_captures] accepts
    exactly the sets of three captures, one per role and each of a different
    store, that carry the same cut, domain, epoch and barrier, manifests with
    their own digests and the same three checkpoints, and each agrees with its
    own checkpoint; the order of the captures does not matter, neither to the
    check nor to the bundle; and a bundle that was built verifies. *)
Theorem coherent_bundle_exact captures captures' b :
  (validate_coherent_captures captures = Ok tt <-> coherent captures) /\
  (Permutation captures captures' -> bundle_new captures = Ok b -> bundle_new captures' = Ok b) /\
  (bundle_new captures = Ok b -> bundle_verify b = Ok tt).
Proof.
  split; [apply validate_coherent|]. split.
  - intros Hp Hb. unfold bundle_new in *. apply then_ok in Hb as [Hv Hb]. apply validate_coherent in Hv.
    assert (sort_captures captures' = sort_captures captures) as ->.
    { destruct Hv as (Hr & _). symmetry. apply (same_keys_eq sc_participant).
      - rewrite sorted_roles by done. apply (bool_decide_unpack _). vm_compute. exact I.
      - by rewrite !sort_captures_perm.
      - rewrite !sorted_roles; [done | by rewrite <- Hp | done]. }
    assert (coherent captures') as Hv'.
    { destruct Hv as (Hr & Hn & cut & dom & ep & bar & cps & Hall). split; [by rewrite <- Hp|]. split; [by rewrite <- Hp|].
      exists cut, dom, ep, bar, cps. by rewrite <- Hp. }
    rewrite (proj2 (validate_coherent captures') Hv'). exact Hb.
  - intros Hb. unfold bundle_new in Hb. apply then_ok in Hb as [Hv Hb]. apply validate_coherent in Hv.
    apply res_bind_ok in Hb as (first & Hf%ok_or_ok & Hb). apply res_bind_ok in Hb as (d & Hd & [= <-]).
    unfold bundle_verify. cbn [cb_body bb_components bb_schema bb_cut_id bb_authority_domain bb_epoch
      bb_quiescence_barrier_id cb_digest].
    assert (coherent (sort_captures captures)) as Hs.
    { destruct Hv as (Hr & Hn & cut & dom & ep & bar & cps & Hall). pose proof (sort_captures_perm captures) as Hp.
      split; [by rewrite Hp|]. split; [by rewrite Hp|]. exists cut, dom, ep, bar, cps. by rewrite Hp. }
    rewrite (proj2 (validate_coherent _) Hs). cbn [res_bind]. rewrite (sorted_roles captures (proj1 Hv)), Hf.
    rewrite !bool_decide_eq_true_2 by done. cbn [negb orb reject_if res_bind]. rewrite Hd. cbn [res_bind].
    by rewrite bool_decide_eq_true_2.
Qed.

End Coherence.

(** ** A concrete bundle *)

Module ToyBundle.
Definition capture (p : BackupParticipantV1) (application_id : Z) : SealedDatabaseCaptureV1 :=
  mkCapture CAPTURE_SCHEMA "cut-1" p (ToyCut.digest (participant_as_str p))
    (unwrap_or (ToyCut.digest "") (digest_jcs MANIFEST_DOMAIN ToyCut.manifest)) ToyCut.manifest
    (mkStoreIdentity application_id (participant_as_str p) STORE_SCHEMA_NAME STORE_SCHEMA_VERSION compiled_schema_digest)
    (mkHead 9 (ToyCut.digest "captured")) (ToyCut.digest "blobs") (mkBlobDescriptor (ToyCut.digest "file") 4096).
Definition captures : list SealedDatabaseCaptureV1 := [capture AgProviderd 3; capture Agd 1; capture AgEffectd 2].
Definition bundle : CoherentBackupBundleV1 :=
  unwrap_or (mkBundle (ToyCut.digest "") (mkBundleBody "" "" (mkText "") (mkEpochId 0) "" [])) (bundle_new captures).
End ToyBundle.

Lemma toy_bundle_new : bundle_new ToyBundle.captures = Ok ToyBundle.bundle.
Proof. vm_compute. reflexivity. Qed.

Lemma coherent_bundle_exact_witness : bundle_verify ToyBundle.bundle = Ok tt.
Proof.
  exact (proj2 (proj2 (coherent_bundle_exact ToyBundle.captures ToyBundle.captures ToyBundle.bundle)) toy_bundle_new).
Defined.
