(* ===== verification/Docket.v ===== *)
(** * Docket issuance (ag-app/src/docket_issuance.rs)

    The office that decides an external runtime's authorization request against
    its target catalog, burns the decision in a ledger, and emits a signed
    issuance record.  Ed25519 and base64url are the parameters of RpcAuth.v; the
    decoders that serde derives are those of Protocol.v. *)

From S2P Require Import Prelude Wire Fixture Digest Paths Protocol RpcAuth.

Definition SUPPORTED_REQUEST_SCHEMA : string := "gwr:authz-request:v1".
Definition ISSUANCE_SCHEMA : string := "ag.docket-issuance:v1".
Definition SUPPORTED_EFFECT_CLASS : string := "git-ref-update:v1".
Definition BODY_DIGEST_DOMAIN : string := "ag.docket-issuance.body.v1".
Definition REQUEST_DIGEST_DOMAIN : string := "ag.docket-issuance.request.v1".
Definition CONSUMPTION_DIGEST_DOMAIN : string := "ag.docket-issuance.consumption.v1".
Definition DECISION_DIGEST_DOMAIN : string := "ag.docket-issuance.decision.v1".
Definition DECISION_LEDGER : string := "ag-ng.docket-issuance.decision-ledger.v1".
Definition ISSUANCE_SIGNATURE_PREFIX : bytes :=
  str_bytes "ag-ng" ++ Byte.x00 :: str_bytes "docket-issuance-signature" ++ Byte.x00 :: str_bytes "v1" ++ [Byte.x00].

(** ** Records *)

Record DocketAuthzRequestV1 : Type := mkAuthzRequest {
  dr_authz_request_format : string;
  dr_attempt : string;
  dr_attempt_version : Z;
  dr_effect_class : string;
  dr_prepared_attempt_digest : string;
  dr_repository : string;
  dr_target_ref : string;
  dr_basis : string;
  dr_allowed_paths : list string;
  dr_settlement_premises : list string;
  dr_requested_actor : string;
  dr_goal : string;
  dr_work_request : string;
  dr_preparation_run : string;
  dr_candidate : string;
  dr_candidate_digest : string;
  dr_request_created_at_ms : Z;
  dr_admitted_at_ms : Z
}.
#[global] Instance DocketAuthzRequestV1_serialize : Serialize DocketAuthzRequestV1 := fun r =>
  VObject [("authz_request_format", to_value (dr_authz_request_format r)); ("attempt", to_value (dr_attempt r));
           ("attempt_version", to_value (dr_attempt_version r)); ("effect_class", to_value (dr_effect_class r));
           ("prepared_attempt_digest", to_value (dr_prepared_attempt_digest r));
           ("repository", to_value (dr_repository r)); ("target_ref", to_value (dr_target_ref r));
           ("basis", to_value (dr_basis r)); ("allowed_paths", to_value (dr_allowed_paths r));
           ("settlement_premises", to_value (dr_settlement_premises r));
           ("requested_actor", to_value (dr_requested_actor r)); ("goal", to_value (dr_goal r));
           ("work_request", to_value (dr_work_request r)); ("preparation_run", to_value (dr_preparation_run r));
           ("candidate", to_value (dr_candidate r)); ("candidate_digest", to_value (dr_candidate_digest r));
           ("request_created_at_ms", to_value (dr_request_created_at_ms r));
           ("admitted_at_ms", to_value (dr_admitted_at_ms r))].
#[global] Instance DocketAuthzRequestV1_inj : SerializeInj DocketAuthzRequestV1.
Proof. ser_struct. Qed.

Record IssuanceDecisionContextV1 : Type := mkDecisionContext {
  dx_authority_domain : string;
  dx_epoch : Z;
  dx_lifecycle_nonce : string;
  dx_catalog_identity : string
}.
#[global] Instance IssuanceDecisionContextV1_serialize : Serialize IssuanceDecisionContextV1 := fun c =>
  VObject [("authority_domain", to_value (dx_authority_domain c)); ("epoch", to_value (dx_epoch c));
           ("lifecycle_nonce", to_value (dx_lifecycle_nonce c)); ("catalog_identity", to_value (dx_catalog_identity c))].
#[global] Instance IssuanceDecisionContextV1_inj : SerializeInj IssuanceDecisionContextV1.
Proof. ser_struct. Qed.

Record DocketTargetDefinitionV1 : Type := mkDocketTarget {
  dt_target_id : string;
  dt_repository : string;
  dt_target_ref : string;
  dt_effect_class : string;
  dt_admitted_actors : list string;
  dt_admitted_path_prefixes : list string
}.
(** The targets of the catalog in the order of their keys. *)
Record DocketTargetCatalogV1 : Type := mkDocketCatalog {
  dc_identity : string;
  dc_targets : list (string * DocketTargetDefinitionV1)
}.

Record AuthorizationPremiseV1 : Type := mkPremise { ap_kind : string; ap_statement : string }.
#[global] Instance AuthorizationPremiseV1_serialize : Serialize AuthorizationPremiseV1 := fun p =>
  VObject [("kind", to_value (ap_kind p)); ("statement", to_value (ap_statement p))].
#[global] Instance AuthorizationPremiseV1_inj : SerializeInj AuthorizationPremiseV1.
Proof. ser_struct. Qed.

Inductive ResidualStatusV1 : Type := NoneRecorded | Unrepresented | Present.
#[global] Instance ResidualStatusV1_serialize : Serialize ResidualStatusV1 := fun s =>
  VString match s with NoneRecorded => "none_recorded" | Unrepresented => "unrepresented" | Present => "present" end.
#[global] Instance ResidualStatusV1_inj : SerializeInj ResidualStatusV1.
Proof. ser_unit_enum. Qed.

Record UpstreamResidualV1 : Type := mkResidual {
  ur_source_system : string;
  ur_obligation_id : string;
  ur_subject : string;
  ur_kind : string;
  ur_statement : string
}.
#[global] Instance UpstreamResidualV1_serialize : Serialize UpstreamResidualV1 := fun r =>
  VObject [("source_system", to_value (ur_source_system r)); ("obligation_id", to_value (ur_obligation_id r));
           ("subject", to_value (ur_subject r)); ("kind", to_value (ur_kind r)); ("statement", to_value (ur_statement r))].
#[global] Instance UpstreamResidualV1_inj : SerializeInj UpstreamResidualV1.
Proof. ser_struct. Qed.

Record ResidualObligationsV1 : Type := mkResiduals { ro_status : ResidualStatusV1; ro_items : list UpstreamResidualV1 }.
#[global] Instance ResidualObligationsV1_serialize : Serialize ResidualObligationsV1 := fun r =>
  VObject [("status", to_value (ro_status r)); ("items", to_value (ro_items r))].
#[global] Instance ResidualObligationsV1_inj : SerializeInj ResidualObligationsV1.
Proof. ser_struct. Qed.

Record AuthorityConsumptionV1 : Type := mkConsumption { cn_ledger : string; cn_use_digest : string }.
#[global] Instance AuthorityConsumptionV1_serialize : Serialize AuthorityConsumptionV1 := fun c =>
  VObject [("ledger", to_value (cn_ledger c)); ("use_digest", to_value (cn_use_digest c))].
#[global] Instance AuthorityConsumptionV1_inj : SerializeInj AuthorityConsumptionV1.
Proof. ser_struct. Qed.

Record RequestSourceV1 : Type := mkRequestSource {
  qs_schema : string;
  qs_raw_sha256 : string;
  qs_ag_canonical_digest : string
}.
#[global] Instance RequestSourceV1_serialize : Serialize RequestSourceV1 := fun s =>
  VObject [("schema", to_value (qs_schema s)); ("raw_sha256", to_value (qs_raw_sha256 s));
           ("ag_canonical_digest", to_value (qs_ag_canonical_digest s))].
#[global] Instance RequestSourceV1_inj : SerializeInj RequestSourceV1.
Proof. ser_struct. Qed.

Record DocketBindingV1 : Type := mkBinding {
  db_attempt : string;
  db_prepared_attempt_digest : string;
  db_effect_class : string;
  db_repository : string;
  db_target_ref : string;
  db_basis : string;
  db_allowed_paths : list string;
  db_requested_actor : string
}.
#[global] Instance DocketBindingV1_serialize : Serialize DocketBindingV1 := fun d =>
  VObject [("attempt", to_value (db_attempt d)); ("prepared_attempt_digest", to_value (db_prepared_attempt_digest d));
           ("effect_class", to_value (db_effect_class d)); ("repository", to_value (db_repository d));
           ("target_ref", to_value (db_target_ref d)); ("basis", to_value (db_basis d));
           ("allowed_paths", to_value (db_allowed_paths d)); ("requested_actor", to_value (db_requested_actor d))].
#[global] Instance DocketBindingV1_inj : SerializeInj DocketBindingV1.
Proof. ser_struct. Qed.

Record DocketIssuanceBodyV1 : Type := mkIssuanceBody {
  is_issuance_id : string;
  is_decision_id : string;
  is_issuer_principal : string;
  is_issuer_key_id : string;
  is_decision_context : IssuanceDecisionContextV1;
  is_principal_chain : list string;
  is_target_id : string;
  is_request_source : RequestSourceV1;
  is_docket : DocketBindingV1;
  is_issued_at_unix_ms : Z;
  is_expires_at_unix_ms : Z;
  is_premises : list AuthorizationPremiseV1;
  is_residual_obligations : ResidualObligationsV1;
  is_consumption : AuthorityConsumptionV1;
  is_decision : string
}.
#[global] Instance DocketIssuanceBodyV1_serialize : Serialize DocketIssuanceBodyV1 := fun b =>
  VObject [("issuance_id", to_value (is_issuance_id b)); ("decision_id", to_value (is_decision_id b));
           ("issuer_principal", to_value (is_issuer_principal b)); ("issuer_key_id", to_value (is_issuer_key_id b));
           ("decision_context", to_value (is_decision_context b)); ("principal_chain", to_value (is_principal_chain b));
           ("target_id", to_value (is_target_id b)); ("request_source", to_value (is_request_source b));
           ("docket", to_value (is_docket b)); ("issued_at_unix_ms", to_value (is_issued_at_unix_ms b));
           ("expires_at_unix_ms", to_value (is_expires_at_unix_ms b)); ("premises", to_value (is_premises b));
           ("residual_obligations", to_value (is_residual_obligations b));
           ("consumption", to_value (is_consumption b)); ("decision", to_value (is_decision b))].
#[global] Instance DocketIssuanceBodyV1_inj : SerializeInj DocketIssuanceBodyV1.
Proof. ser_struct. Qed.

Record IssuanceAuthenticationV1 : Type := mkIssuanceAuth {
  ia_signer_key_id : string;
  ia_signer_public_key : string;
  ia_signature : string
}.
Record DocketIssuanceEnvelopeV1 : Type := mkIssuanceEnvelope {
  ie_schema : string;
  ie_body_b64 : string;
  ie_authentication : IssuanceAuthenticationV1
}.
Record DocketDecision : Type := mkDecision { dd_decision_id : string; dd_target_id : string }.

(** ** Refusals *)

(** The [detail] texts, with the values formatted into them. *)
Inductive RefusalDetail : Type :=
  | Text (s : string)
  | NotJson (message : string)
  | StrictError (e : ProtocolError)
  | BodyError (e : ProtocolError)
  | AlreadyConsumed (decision_id : string).

Inductive IssuanceRefusal : Type :=
  | UnsupportedRequestSchema (expected found : string)
  | MalformedRequest (detail : RefusalDetail)
  | UnsupportedEffectClass (found : string)
  | TargetNotInCatalog (repository target_ref : string)
  | ActorNotAdmitted (actor target_id : string)
  | PathOutsideScope (path target_id : string)
  | MalformedPrincipalChain (detail : RefusalDetail)
  | AuthorityUnavailable (detail : RefusalDetail)
  | ProductionFailed (detail : RefusalDetail).

(** ** Text *)

(** [hex_lower] and [sha256_prefixed]. *)
Definition hex_nibble (z : Z) : ascii := ascii_of_N (Z.to_N (if (z <? 10)%Z then 48 + z else 87 + z)).
Fixpoint hex_lower (b : bytes) : string :=
  match b with
  | [] => EmptyString
  | x :: b' => String (hex_nibble (byte_val x / 16)) (String (hex_nibble (byte_val x mod 16)) (hex_lower b'))
  end.

(** [s.trim().is_empty()]: nothing but White_Space characters, in UTF-8. *)
Fixpoint blank (l : bytes) : bool :=
  match l with
  | [] => true
  | a :: r =>
      let z := byte_val a in
      if ((9 <=? z)%Z && (z <=? 13)%Z) || (z =? 32)%Z then blank r
      else match r with
      | b :: r2 =>
          let y := byte_val b in
          if (z =? 194)%Z && ((y =? 133)%Z || (y =? 160)%Z) then blank r2
          else match r2 with
          | c :: r3 =>
              let x := byte_val c in
              (((z =? 225)%Z && (y =? 154)%Z && (x =? 128)%Z)
               || ((z =? 226)%Z && (y =? 128)%Z
                   && (((128 <=? x)%Z && (x <=? 138)%Z) || (x =? 168)%Z || (x =? 169)%Z || (x =? 175)%Z))
               || ((z =? 226)%Z && (y =? 129)%Z && (x =? 159)%Z)
               || ((z =? 227)%Z && (y =? 128)%Z && (x =? 128)%Z)) && blank r3
          | [] => false
          end
      | [] => false
      end
  end.

(** [serde_json::from_slice::<Value>] followed by
    [get("authz_request_format").and_then(as_str)]: the first failure of the
    reader, and otherwise the text under that key, of which the last one counts. *)
Fixpoint json_failure (j : Json) : option string :=
  let fix first (l : list Json) : option string :=
    match l with
    | [] => None
    | x :: l' => match json_failure x with Some m => Some m | None => first l' end
    end in
  let fix first_entry (l : list (string * Json)) : option string :=
    match l with
    | [] => None
    | (_, x) :: l' => match json_failure x with Some m => Some m | None => first_entry l' end
    end in
  match j with
  | JFail m => Some m
  | JSeq l f => match first l with Some m => Some m | None => f end
  | JMap l f => match first_entry l with Some m => Some m | None => f end
  | _ => None
  end.
Definition declared_format (j : Json) : option string :=
  match j with
  | JMap l _ =>
      match last (List.filter (fun kv => kv.1 == "authz_request_format") l) with
      | Some (_, JStr s) => Some s
      | _ => None
      end
  | _ => None
  end.

(** ** The decision ledger *)

(** [consumed: BTreeMap<String, String>]. *)
Record IssuanceDecisionLedger : Type := mkLedger { consumed : list (string * string) }.
Definition ledger_new : IssuanceDecisionLedger := mkLedger [].
Definition prior_use (self : IssuanceDecisionLedger) (decision_id : string) : option string :=
  btree_get decision_id (consumed self).

(** [DocketTargetCatalogV1::match_request]. *)
Definition target_matches (r : DocketAuthzRequestV1) (t : DocketTargetDefinitionV1) : bool :=
  (dt_repository t == dr_repository r) && (dt_target_ref t == dr_target_ref r)
  && (dt_effect_class t == dr_effect_class r).
Definition match_request (c : DocketTargetCatalogV1) (r : DocketAuthzRequestV1) : option DocketTargetDefinitionV1 :=
  List.find (target_matches r) (map snd (dc_targets c)).

Record DocketIssuanceOffice : Type := mkOffice {
  of_catalog : DocketTargetCatalogV1;
  of_context : IssuanceDecisionContextV1;
  of_principal_chain : list string;
  of_issuer_principal : string
}.

(** The test of one path against the admitted prefixes. *)
Definition path_admitted (prefixes : list string) (path : string) : bool :=
  existsb (fun prefix => (path == prefix) || starts_with path (prefix +:+ "/")) prefixes.
(** The loop over the requested paths. *)
Fixpoint check_paths (target : DocketTargetDefinitionV1) (paths : list string) : res IssuanceRefusal unit :=
  match paths with
  | [] => Ok tt
  | path :: rest =>
      reject_if (negb (path_admitted (dt_admitted_path_prefixes target) path))
        (PathOutsideScope path (dt_target_id target)) ;?
      check_paths target rest
  end.

Section Office.
  Context `{Deps, RpcDeps}.

(** The [From<ProtocolError>] conversion, the text being that of the error. *)
Definition production {A} (m : res ProtocolError A) : res IssuanceRefusal A :=
  map_err (fun e => ProductionFailed (StrictError e)) m.

Definition use_digest (decision_id : string) (context : IssuanceDecisionContextV1) : res IssuanceRefusal string :=
  let? b := production (canonical_json (VArray [to_value decision_id; to_value context])) in
  Ok (digest_str (hash_domain CONSUMPTION_DIGEST_DOMAIN b)).

(** [IssuanceDecisionLedger::consume]: the ledger it leaves and its result. *)
Definition consume (self : IssuanceDecisionLedger) (decision_id : string) (context : IssuanceDecisionContextV1)
    : IssuanceDecisionLedger * res IssuanceRefusal AuthorityConsumptionV1 :=
  match prior_use self decision_id with
  | Some _ => (self, Err (AuthorityUnavailable (AlreadyConsumed decision_id)))
  | None =>
      match use_digest decision_id context with
      | Ok d => (mkLedger (btree_insert decision_id d (consumed self)),
                 Ok (mkConsumption DECISION_LEDGER d))
      | Err e => (self, Err e)
      | Panic => (self, Panic)
      end
  end.

Definition sha256_prefixed (b : bytes) : string := "sha256:" +:+ hex_lower (sha256 b).

Definition decode_request `{!Decode DocketAuthzRequestV1} (b : bytes) : res IssuanceRefusal DocketAuthzRequestV1 :=
  let (tree, end_failure) := json_events b in
  match match json_failure tree with Some m => Some m | None => end_failure end with
  | Some m => Err (MalformedRequest (NotJson m))
  | None =>
      let found := default "(absent)" (declared_format tree) in
      reject_if (found != SUPPORTED_REQUEST_SCHEMA) (UnsupportedRequestSchema SUPPORTED_REQUEST_SCHEMA found) ;?
      map_err (fun e => MalformedRequest (StrictError e)) (strict_json_from_slice b)
  end.

(** [DocketIssuanceOffice::decide]. *)
Definition decide_identity (context : IssuanceDecisionContextV1) (request : DocketAuthzRequestV1) (target_id : string)
    : res IssuanceRefusal string :=
  let? b := production (canonical_json (VArray [to_value request; to_value context; to_value target_id])) in
  Ok (digest_str (hash_domain DECISION_DIGEST_DOMAIN b)).
Definition decide (self : DocketIssuanceOffice) (request : DocketAuthzRequestV1) : res IssuanceRefusal DocketDecision :=
  reject_if (dr_effect_class request != SUPPORTED_EFFECT_CLASS) (UnsupportedEffectClass (dr_effect_class request)) ;?
  reject_if (match of_principal_chain self with [] => true | _ => false end
             || existsb (fun p => blank (str_bytes p)) (of_principal_chain self))
    (MalformedPrincipalChain (Text "principal chain must be non-empty with non-empty nodes")) ;?
  let? target := ok_or (TargetNotInCatalog (dr_repository request) (dr_target_ref request))
                       (match_request (of_catalog self) request) in
  reject_if (negb (existsb (fun a => a == dr_requested_actor request) (dt_admitted_actors target)))
    (ActorNotAdmitted (dr_requested_actor request) (dt_target_id target)) ;?
  check_paths target (dr_allowed_paths request) ;?
  let? decision_id := decide_identity (of_context self) request (dt_target_id target) in
  Ok (mkDecision decision_id (dt_target_id target)).

(** ** Signing *)

Record IssuanceSigner : Type := mkIssuanceSigner { sg_key_id : string; sg_public_key : bytes; sg_key_pair : KeyPair }.

(** [IssuanceSigner::from_pkcs8]. *)
Definition issuance_signer_from_pkcs8 (key_id : string) (b : bytes) : res IssuanceRefusal IssuanceSigner :=
  let? key_pair := ok_or (ProductionFailed (Text "invalid Ed25519 PKCS#8 v2 key")) (key_from_pkcs8 b) in
  reject_if (length (key_public key_pair) != 32) (ProductionFailed (Text "invalid Ed25519 public key length")) ;?
  Ok (mkIssuanceSigner key_id (key_public key_pair) key_pair).
Definition public_key_base64url (self : IssuanceSigner) : string := b64_encode (sg_public_key self).
Definition issuance_sign (self : IssuanceSigner) (body_bytes : bytes) : string :=
  b64_encode (key_sign (sg_key_pair self) (ISSUANCE_SIGNATURE_PREFIX ++ body_bytes)).

(** ** Issuing *)

Definition request_source (request : DocketAuthzRequestV1) (request_bytes : bytes) : RequestSourceV1 :=
  mkRequestSource (dr_authz_request_format request) (sha256_prefixed request_bytes)
    (digest_str (hash_domain REQUEST_DIGEST_DOMAIN request_bytes)).
Definition docket_binding (r : DocketAuthzRequestV1) : DocketBindingV1 :=
  mkBinding (dr_attempt r) (dr_prepared_attempt_digest r) (dr_effect_class r) (dr_repository r) (dr_target_ref r)
    (dr_basis r) (dr_allowed_paths r) (dr_requested_actor r).

(** The arguments of [issue] besides the request, the decision and the ledger. *)
Record IssueTerms : Type := mkTerms {
  it_issued_at_unix_ms : Z;
  it_expires_at_unix_ms : Z;
  it_premises : list AuthorizationPremiseV1;
  it_residual_obligations : ResidualObligationsV1
}.

Definition identity_input (self : DocketIssuanceOffice) (request : DocketAuthzRequestV1) (request_bytes : bytes)
    (decision : DocketDecision) (signer : IssuanceSigner) (t : IssueTerms) (c : AuthorityConsumptionV1) : Value :=
  VArray [to_value (dd_decision_id decision); to_value (of_issuer_principal self); to_value (sg_key_id signer);
          to_value (of_context self); to_value (of_principal_chain self); to_value (dd_target_id decision);
          to_value (request_source request request_bytes); to_value (docket_binding request);
          to_value (it_issued_at_unix_ms t); to_value (it_expires_at_unix_ms t);
          to_value (it_premises t); to_value (it_residual_obligations t); to_value c].
Definition issuance_body (self : DocketIssuanceOffice) (request : DocketAuthzRequestV1) (request_bytes : bytes)
    (decision : DocketDecision) (signer : IssuanceSigner) (t : IssueTerms) (c : AuthorityConsumptionV1)
    (issuance_id : string) : DocketIssuanceBodyV1 :=
  mkIssuanceBody issuance_id (dd_decision_id decision) (of_issuer_principal self) (sg_key_id signer)
    (of_context self) (of_principal_chain self) (dd_target_id decision) (request_source request request_bytes)
    (docket_binding request) (it_issued_at_unix_ms t) (it_expires_at_unix_ms t) (it_premises t)
    (it_residual_obligations t) c "admitted".

Definition issuance_identity (self : DocketIssuanceOffice) (request : DocketAuthzRequestV1) (request_bytes : bytes)
    (decision : DocketDecision) (signer : IssuanceSigner) (t : IssueTerms) (c : AuthorityConsumptionV1)
    : res IssuanceRefusal string :=
  let? identity := production (canonical_json (identity_input self request request_bytes decision signer t c)) in
  Ok (digest_str (hash_domain BODY_DIGEST_DOMAIN identity)).

(** What [issue] does once the decision is burned. *)
Definition produce (self : DocketIssuanceOffice) (request : DocketAuthzRequestV1) (request_bytes : bytes)
    (decision : DocketDecision) (signer : IssuanceSigner) (t : IssueTerms) (c : AuthorityConsumptionV1)
    : res IssuanceRefusal DocketIssuanceEnvelopeV1 :=
  let? issuance_id := issuance_identity self request request_bytes decision signer t c in
  let? body_bytes := production (canonical_json
    (issuance_body self request request_bytes decision signer t c issuance_id)) in
  Ok (mkIssuanceEnvelope ISSUANCE_SCHEMA (b64_encode body_bytes)
        (mkIssuanceAuth (sg_key_id signer) (public_key_base64url signer) (issuance_sign signer body_bytes))).

(** [DocketIssuanceOffice::issue]. *)
Definition issue (self : DocketIssuanceOffice) (request : DocketAuthzRequestV1) (request_bytes : bytes)
    (decision : DocketDecision) (ledger : IssuanceDecisionLedger) (signer : IssuanceSigner) (t : IssueTerms)
    : IssuanceDecisionLedger * res IssuanceRefusal DocketIssuanceEnvelopeV1 :=
  let (ledger', consumption) := consume ledger (dd_decision_id decision) (of_context self) in
  (ledger', let? c := consumption in produce self request request_bytes decision signer t c).

(** [verify_envelope]. *)
Definition verify_envelope `{!Decode DocketIssuanceBodyV1} (e : DocketIssuanceEnvelopeV1)
    : res IssuanceRefusal DocketIssuanceBodyV1 :=
  reject_if (ie_schema e != ISSUANCE_SCHEMA) (UnsupportedRequestSchema ISSUANCE_SCHEMA (ie_schema e)) ;?
  let? body_bytes := ok_or (MalformedRequest (Text "body_b64 is not canonical base64url-no-pad"))
                           (b64_decode (ie_body_b64 e)) in
  let? public_key := ok_or (MalformedRequest (Text "signer_public_key is not canonical base64url-no-pad"))
                           (b64_decode (ia_signer_public_key (ie_authentication e))) in
  let? signature := ok_or (MalformedRequest (Text "signature is not canonical base64url-no-pad"))
                          (b64_decode (ia_signature (ie_authentication e))) in
  reject_if (negb (ed25519_verify public_key (ISSUANCE_SIGNATURE_PREFIX ++ body_bytes) signature))
    (ProductionFailed (Text "issuance signature is invalid")) ;?
  map_err (fun e => MalformedRequest (BodyError e)) (strict_json_from_slice body_bytes).

End Office.

(** ** Lemmas *)

Lemma path_admitted_spec prefixes path :
  path_admitted prefixes path = true <->
  exists prefix, prefix ∈ prefixes /\ (path = prefix \/ exists rest, path = prefix +:+ "/" +:+ rest).
Proof.
  unfold path_admitted. rewrite existsb_exists. apply exist_proper. intros prefix.
  rewrite <- list_elem_of_In, orb_true_iff, bool_decide_eq_true, starts_with_spec.
  apply and_iff_compat_l, or_iff_compat_l, exist_proper. intros rest. by rewrite str_app_assoc.
Qed.

Lemma check_paths_ok t l :
  check_paths t l = Ok tt <-> Forall (fun p => path_admitted (dt_admitted_path_prefixes t) p = true) l.
Proof.
  induction l as [|p l IH]; simpl; [by split|].
  rewrite guard_ok, IH, Forall_cons, negb_false_iff. done.
Qed.

Lemma check_paths_spec t l :
  check_paths t l = Ok tt <->
  forall path, path ∈ l -> exists prefix, prefix ∈ dt_admitted_path_prefixes t /\
    (path = prefix \/ exists rest, path = prefix +:+ "/" +:+ rest).
Proof. rewrite check_paths_ok, Forall_forall. apply forall_proper. intros p. by rewrite path_admitted_spec. Qed.

Lemma actor_admitted_ok (actor : string) l :
  negb (existsb (fun a => a == actor) l) = false <-> actor ∈ l.
Proof.
  rewrite negb_false_iff, existsb_exists. split.
  - by intros (a & Hin%list_elem_of_In & ->%bool_decide_eq_true).
  - intros Hin. eexists. split; [by apply list_elem_of_In | by apply bool_decide_eq_true].
Qed.

Lemma chain_ok (l : list string) :
  match l with [] => true | _ => false end || existsb (fun p => blank (str_bytes p)) l = false <->
  l <> [] /\ forall p, p ∈ l -> blank (str_bytes p) = false.
Proof.
  rewrite orb_false. assert (match l with [] => true | _ => false end = false <-> l <> []) as -> by (by destruct l).
  apply and_iff_compat_l.
  rewrite <- not_true_iff_false, existsb_exists. split.
  - intros Hn p Hp. apply not_true_iff_false. intros Hb. apply Hn. exists p. split; [by apply list_elem_of_In | done].
  - intros Hn (p & Hp%list_elem_of_In & Hb). rewrite Hn in Hb; done.
Qed.

Lemma find_first {A} (f : A -> bool) l x :
  List.find f l = Some x <-> exists before after, l = before ++ x :: after /\ f x = true /\ Forall (fun y => f y = false) before.
Proof.
  split.
  - induction l as [|y l IH]; simpl; [done|]. destruct (f y) eqn:Hy.
    + intros [= ->]. by exists [], l.
    + intros (before & after & -> & Hx & Hb)%IH. exists (y :: before), after. by split_all; [| |constructor].
  - intros (before & after & -> & Hx & Hb). induction Hb as [|y before Hy Hb IH]; simpl; [by rewrite Hx|].
    by rewrite Hy.
Qed.

Lemma ijson_list `{Serialize T} (l : list T) :
  (forall x, x ∈ l -> ijson (to_value x) = true) -> ijson (to_value l) = true.
Proof.
  intros Hl. change (forallb ijson (map to_value l) = true). apply forallb_forall.
  intros v (x & <- & Hx)%in_map_iff. by apply Hl, list_elem_of_In.
Qed.

Lemma ijson_texts (l : list string) : ijson (to_value l) = true.
Proof. by apply ijson_list. Qed.

Lemma context_ijson c : json_time (dx_epoch c) -> ijson (to_value c) = true.
Proof. intros He. ijson_struct. Qed.
Lemma binding_ijson d : ijson (to_value (d : DocketBindingV1)) = true.
Proof. ijson_struct. apply ijson_texts. Qed.
Lemma request_source_ijson s : ijson (to_value (s : RequestSourceV1)) = true.
Proof. ijson_struct. Qed.
Lemma premises_ijson l : ijson (to_value (l : list AuthorizationPremiseV1)) = true.
Proof. apply ijson_list. intros x _. ijson_struct. Qed.
Lemma residuals_ijson r : ijson (to_value (r : ResidualObligationsV1)) = true.
Proof. ijson_struct. apply ijson_list. intros x _. ijson_struct. Qed.
Lemma consumption_ijson c : ijson (to_value (c : AuthorityConsumptionV1)) = true.
Proof. ijson_struct. Qed.
Lemma authz_request_ijson r :
  json_time (dr_attempt_version r) -> json_time (dr_request_created_at_ms r) -> json_time (dr_admitted_at_ms r) ->
  ijson (to_value r) = true.
Proof. intros Hv Hc Ha. ijson_struct; apply ijson_texts. Qed.

(** One field of an issuance, by its type. *)
Ltac issuance_field :=
  lazymatch goal with
  | |- ijson (@to_value Z _ _) = true => by apply json_time_abs
  | |- ijson (@to_value string _ _) = true => reflexivity
  | |- ijson (@to_value IssuanceDecisionContextV1 _ _) = true => by apply context_ijson
  | |- ijson (@to_value (list string) _ _) = true => apply ijson_texts
  | |- ijson (@to_value RequestSourceV1 _ _) = true => apply request_source_ijson
  | |- ijson (@to_value DocketBindingV1 _ _) = true => apply binding_ijson
  | |- ijson (@to_value (list AuthorizationPremiseV1) _ _) = true => apply premises_ijson
  | |- ijson (@to_value ResidualObligationsV1 _ _) = true => apply residuals_ijson
  | |- ijson (@to_value AuthorityConsumptionV1 _ _) = true => apply consumption_ijson
  end.

Lemma ijson_array l : Forall (fun v => ijson v = true) l -> ijson (VArray l) = true.
Proof. intros Hl. cbn [ijson]. apply forallb_forall. by apply List.Forall_forall. Qed.

Lemma issuance_body_ijson b :
  json_time (dx_epoch (is_decision_context b)) -> json_time (is_issued_at_unix_ms b) ->
  json_time (is_expires_at_unix_ms b) -> ijson (to_value b) = true.
Proof.
  intros He Hi Hx. apply ijson_object; [|ser_nodup].
  repeat (apply Forall_cons; split; [split; [vm_compute; reflexivity | cbn [fst snd]; issuance_field]|]).
  apply Forall_nil_2.
Qed.

(** The numbers that an issuance carries are exact in JSON. *)
Definition terms_ok (self : DocketIssuanceOffice) (t : IssueTerms) : Prop :=
  json_time (dx_epoch (of_context self)) /\ json_time (it_issued_at_unix_ms t) /\ json_time (it_expires_at_unix_ms t).

Section OfficeLemmas.
  Context `{JcsLaws, RpcDeps, !RpcLaws}.

Lemma body_ijson self r rb d s t c id :
  terms_ok self t -> ijson (to_value (issuance_body self r rb d s t c id)) = true.
Proof. intros (He & Hi & Hx). by apply issuance_body_ijson. Qed.

Lemma canonical_value_ijson v :
  ijson v = true -> exists b, jcs_to_vec v = inr b /\ production (canonical_json v) = Ok b.
Proof.
  intros Hv. pose proof (canonical_json_ijson (T := Value) v) as Ht. destruct (Ht Hv) as (b & Hb & Hc).
  exists b. split; [done|]. unfold production. by rewrite Hc.
Qed.

Lemma use_digest_total id c : json_time (dx_epoch c) -> exists d, use_digest id c = Ok d.
Proof.
  intros He. destruct (canonical_value_ijson (VArray [to_value id; to_value c])) as (b & _ & Hb).
  { cbn [ijson forallb]. by rewrite context_ijson. }
  unfold use_digest. rewrite Hb. by eexists.
Qed.

Lemma produce_total self r rb d s t c :
  terms_ok self t -> exists id b,
    issuance_identity self r rb d s t c = Ok id /\
    canonical_json (issuance_body self r rb d s t c id) = Ok b /\
    produce self r rb d s t c = Ok (mkIssuanceEnvelope ISSUANCE_SCHEMA (b64_encode b)
      (mkIssuanceAuth (sg_key_id s) (public_key_base64url s) (issuance_sign s b))).
Proof.
  intros Ht. destruct (canonical_value_ijson (identity_input self r rb d s t c)) as (i & _ & Hi).
  { destruct Ht as (He & Hi & Hx). apply ijson_array.
    repeat (apply Forall_cons; split; [issuance_field|]). apply Forall_nil_2. }
  pose (id := digest_str (hash_domain BODY_DIGEST_DOMAIN i)).
  destruct (canonical_json_ijson _ (body_ijson self r rb d s t c id Ht)) as (b & _ & Hb).
  assert (issuance_identity self r rb d s t c = Ok id) as Hid by (unfold issuance_identity; by rewrite Hi).
  exists id, b. split_all; [done..|]. unfold produce. rewrite Hid. cbn [res_bind]. unfold production. by rewrite Hb.
Qed.

(** What the verifier returns for a produced envelope. *)
Lemma verify_produced `{!Decode DocketIssuanceBodyV1} s body b :
  sg_public_key s = key_public (sg_key_pair s) -> ijson (to_value body) = true ->
  canonical_json body = Ok b -> utf8_valid b = true -> from_value (canon (to_value body)) = inr body ->
  verify_envelope (mkIssuanceEnvelope ISSUANCE_SCHEMA (b64_encode b)
    (mkIssuanceAuth (sg_key_id s) (public_key_base64url s) (issuance_sign s b))) = Ok body.
Proof.
  intros Hk Hj Hb Hu Hd. unfold verify_envelope. rewrite guard_ok. split; [by apply negb_bool_decide_false|].
  cbn [ie_body_b64 ie_authentication ia_signer_public_key ia_signature].
  unfold public_key_base64url, issuance_sign. rewrite !b64_decode_encode. cbn [ok_or res_bind].
  rewrite Hk, ed25519_sign_verify. cbn [negb reject_if res_bind].
  by rewrite (strict_json_canonical body b).
Qed.
Lemma decide_identity_ok c r t b :
  encodes (VArray [to_value r; to_value c; to_value t]) b ->
  decide_identity c r t = Ok (digest_str (hash_domain DECISION_DIGEST_DOMAIN b)).
Proof.
  intros (Hx & Hb & _). destruct (canonical_value_ijson (VArray [to_value r; to_value c; to_value t]) Hx) as (b1 & Hb1 & Hp).
  unfold decide_identity. rewrite Hp. cbn [res_bind]. change (to_value (T := Value) ?v) with v in Hb. congruence.
Qed.
End OfficeLemmas.

(** ** Runs of one ledger *)

Definition ledger_ok (l : IssuanceDecisionLedger) : Prop := btree_sorted (consumed l).

Section Runs.
  Context `{Deps, RpcDeps}.

Lemma consume_refuses l id c u : prior_use l id = Some u ->
  consume l id c = (l, Err (AuthorityUnavailable (AlreadyConsumed id))).
Proof. unfold consume. by intros ->. Qed.

Lemma consume_cases l id c :
  (consume l id c).1 = l /\ (forall x, (consume l id c).2 <> Ok x) \/
  exists u, prior_use l id = None /\ use_digest id c = Ok u /\
    consume l id c = (mkLedger (btree_insert id u (consumed l)),
                      Ok (mkConsumption DECISION_LEDGER u)).
Proof.
  unfold consume. destruct (prior_use l id); [by left|]. destruct (use_digest id c); [|by left..].
  right. by eexists.
Qed.

Lemma prior_use_insert l id id' u : ledger_ok l ->
  prior_use (mkLedger (btree_insert id u (consumed l))) id' = if String.eqb id' id then Some u else prior_use l id'.
Proof. apply btree_get_insert. Qed.

Lemma issuance_consume_ok l id c : ledger_ok l -> ledger_ok (consume l id c).1.
Proof.
  intros Hl. destruct (consume_cases l id c) as [[-> _]|(u & _ & _ & ->)]; [done|]. by apply btree_insert_sorted.
Qed.

(** A record of a use is never lost or changed. *)
Lemma consume_keeps l id c id' u : ledger_ok l -> prior_use l id' = Some u -> prior_use (consume l id c).1 id' = Some u.
Proof.
  intros Hl Hu. destruct (consume_cases l id c) as [[-> _]|(v & Hn & _ & ->)]; [done|].
  cbn [fst]. rewrite prior_use_insert by done. destruct (String.eqb_spec id' id); [congruence|done].
Qed.

(** One call of [issue]. *)
Record IssueCall : Type := mkIssueCall {
  ic_office : DocketIssuanceOffice;
  ic_request : DocketAuthzRequestV1;
  ic_request_bytes : bytes;
  ic_decision : DocketDecision;
  ic_signer : IssuanceSigner;
  ic_terms : IssueTerms
}.
Definition issue_call (l : IssuanceDecisionLedger) (c : IssueCall)
    : IssuanceDecisionLedger * res IssuanceRefusal DocketIssuanceEnvelopeV1 :=
  issue (ic_office c) (ic_request c) (ic_request_bytes c) (ic_decision c) l (ic_signer c) (ic_terms c).

(** A sequence of calls on one ledger: the ledger it leaves, and the decisions
    for which an envelope was issued, with the envelopes. *)
Fixpoint issue_run (l : IssuanceDecisionLedger) (calls : list IssueCall)
    : IssuanceDecisionLedger * list (string * DocketIssuanceEnvelopeV1) :=
  match calls with
  | [] => (l, [])
  | c :: calls' =>
      let (l1, result) := issue_call l c in
      let (l2, issued) := issue_run l1 calls' in
      (l2, match result with Ok e => (dd_decision_id (ic_decision c), e) :: issued | _ => issued end)
  end.

Lemma issue_call_ledger l c :
  (issue_call l c).1 = (consume l (dd_decision_id (ic_decision c)) (of_context (ic_office c))).1.
Proof. unfold issue_call, issue. by destruct (consume _ _ _). Qed.

Lemma issue_call_burns l c e : ledger_ok l -> (issue_call l c).2 = Ok e ->
  prior_use l (dd_decision_id (ic_decision c)) = None /\
  exists u, prior_use (issue_call l c).1 (dd_decision_id (ic_decision c)) = Some u.
Proof.
  intros Hl. rewrite issue_call_ledger. unfold issue_call, issue.
  destruct (consume_cases l (dd_decision_id (ic_decision c)) (of_context (ic_office c)))
    as [[_ Hx]|(u & Hn & _ & ->)].
  - destruct (consume _ _ _) as [l' [x| |]]; [|done..]. by destruct (Hx x).
  - intros _. split; [done|]. exists u. cbn [fst]. rewrite prior_use_insert by done. by rewrite String.eqb_refl.
Qed.

Lemma issue_run_burns calls l : ledger_ok l ->
  let (l', issued) := issue_run l calls in
  ledger_ok l' /\ NoDup (map fst issued) /\
  (forall id, id ∈ map fst issued -> prior_use l id = None /\ exists u, prior_use l' id = Some u) /\
  (forall id u, prior_use l id = Some u -> prior_use l' id = Some u).
Proof.
  revert l. induction calls as [|c calls IH]; intros l Hl; simpl.
  { split_all; [done | constructor | by intros id Hid%elem_of_nil | done]. }
  pose proof (issue_call_burns l c) as Hc. pose proof (issue_call_ledger l c) as Hled.
  destruct (issue_call l c) as [l1 r]. cbn [fst snd] in *.
  assert (ledger_ok l1) as Hl1 by (rewrite Hled; by apply issuance_consume_ok).
  assert (forall id u, prior_use l id = Some u -> prior_use l1 id = Some u) as Hk
    by (intros; rewrite Hled; by apply consume_keeps).
  specialize (IH l1 Hl1). destruct (issue_run l1 calls) as [l2 issued]. destruct IH as (Hl2 & Hn & Hi & Hm).
  assert (forall id, id ∈ map fst issued -> prior_use l id = None /\ exists u, prior_use l2 id = Some u) as Hi'.
  { intros id Hid. destruct (Hi id Hid) as [Hnone Hsome]. split; [|done].
    destruct (prior_use l id) eqn:E; [|done]. apply Hk in E. congruence. }
  destruct r as [e| |]; [|by split_all; eauto..].
  destruct (Hc e Hl eq_refl) as [Hnone [u Hu]]. cbn [map fst]. split_all; [done | | |eauto].
  - apply NoDup_cons. split; [|done]. intros Hid. destruct (Hi _ Hid) as [Hx _]. congruence.
  - intros id [->|Hid]%elem_of_cons; [|by apply Hi']. split; [done|]. exists u. by apply Hm.
Qed.
End Runs.

(** ** Concrete decoders, for the witnesses *)

Module ToyDocket.
Definition R (A : Type) : Type := (string + A)%type.
Definition bindR {A B} (m : R A) (k : A -> R B) : R B := match m with inl e => inl e | inr a => k a end.
Definition member (k : string) (v : Value) : R Value :=
  match v with
  | VObject l => match btree_get k l with Some x => inr x | None => inl ("missing field " +:+ k) end
  | _ => inl "invalid type"
  end.
Definition text (v : Value) : R string := match v with VString s => inr s | _ => inl "invalid type" end.
Definition number (v : Value) : R Z := match v with VNumber z => inr z | _ => inl "invalid type" end.
Fixpoint each {A} (f : Value -> R A) (l : list Value) : R (list A) :=
  match l with
  | [] => inr []
  | v :: l' => bindR (f v) (fun a => bindR (each f l') (fun r => inr (a :: r)))
  end.
Definition array {A} (f : Value -> R A) (v : Value) : R (list A) :=
  match v with VArray l => each f l | _ => inl "invalid type" end.
Definition get {A B} (v : Value) (k : string) (f : Value -> R A) (c : A -> R B) : R B :=
  bindR (bindR (member k v) f) c.

Definition context (v : Value) : R IssuanceDecisionContextV1 :=
  get v "authority_domain" text (fun a => get v "epoch" number (fun e =>
  get v "lifecycle_nonce" text (fun n => get v "catalog_identity" text (fun c => inr (mkDecisionContext a e n c))))).
Definition premise (v : Value) : R AuthorizationPremiseV1 :=
  get v "kind" text (fun k => get v "statement" text (fun s => inr (mkPremise k s))).
Definition status (v : Value) : R ResidualStatusV1 :=
  bindR (text v) (fun s =>
    if s == "none_recorded" then inr NoneRecorded else if s == "unrepresented" then inr Unrepresented
    else if s == "present" then inr Present else inl "unknown variant").
Definition residual (v : Value) : R UpstreamResidualV1 :=
  get v "source_system" text (fun a => get v "obligation_id" text (fun b => get v "subject" text (fun c =>
  get v "kind" text (fun d => get v "statement" text (fun e => inr (mkResidual a b c d e)))))).
Definition residuals (v : Value) : R ResidualObligationsV1 :=
  get v "status" status (fun s => get v "items" (array residual) (fun l => inr (mkResiduals s l))).
Definition consumption (v : Value) : R AuthorityConsumptionV1 :=
  get v "ledger" text (fun l => get v "use_digest" text (fun u => inr (mkConsumption l u))).
Definition source (v : Value) : R RequestSourceV1 :=
  get v "schema" text (fun s => get v "raw_sha256" text (fun r =>
  get v "ag_canonical_digest" text (fun a => inr (mkRequestSource s r a)))).
Definition binding (v : Value) : R DocketBindingV1 :=
  get v "attempt" text (fun a => get v "prepared_attempt_digest" text (fun b => get v "effect_class" text (fun c =>
  get v "repository" text (fun d => get v "target_ref" text (fun e => get v "basis" text (fun f =>
  get v "allowed_paths" (array text) (fun g => get v "requested_actor" text (fun h =>
  inr (mkBinding a b c d e f g h))))))))).
#[global] Instance body_decode : Decode DocketIssuanceBodyV1 := fun v =>
  get v "issuance_id" text (fun a => get v "decision_id" text (fun b => get v "issuer_principal" text (fun c =>
  get v "issuer_key_id" text (fun d => get v "decision_context" context (fun e =>
  get v "principal_chain" (array text) (fun f => get v "target_id" text (fun g =>
  get v "request_source" source (fun h => get v "docket" binding (fun i =>
  get v "issued_at_unix_ms" number (fun j => get v "expires_at_unix_ms" number (fun k =>
  get v "premises" (array premise) (fun l => get v "residual_obligations" residuals (fun m =>
  get v "consumption" consumption (fun n => get v "decision" text (fun o =>
  inr (mkIssuanceBody a b c d e f g h i j k l m n o)))))))))))))))).

Definition target : DocketTargetDefinitionV1 :=
  mkDocketTarget "t1" "repo" "refs/heads/main" SUPPORTED_EFFECT_CLASS ["alice"] ["src"].
Definition office : DocketIssuanceOffice :=
  mkOffice (mkDocketCatalog "catalog" [("k", target)]) (mkDecisionContext "domain" 1 "nonce" "catalog")
    ["root"] "issuer".
Definition request (actor path : string) : DocketAuthzRequestV1 :=
  mkAuthzRequest SUPPORTED_REQUEST_SCHEMA "a1" 1 SUPPORTED_EFFECT_CLASS "sha256:00" "repo" "refs/heads/main" "b"
    [path] [] actor "goal" "w" "p" "c" "sha256:11" 5 6.
Definition admitted : DocketAuthzRequestV1 := request "alice" "src/lib.rs".
Definition refused : DocketAuthzRequestV1 := request "mallory" "etc/passwd".
Definition unwrap {A} (d : A) (m : res IssuanceRefusal A) : A := match m with Ok a => a | _ => d end.
Definition decision : DocketDecision := unwrap (mkDecision "" "") (decide office admitted).
Definition signer : IssuanceSigner := mkIssuanceSigner "key" (toy_sha256 [Byte.x01]) [Byte.x01].
Definition terms : IssueTerms := mkTerms 10 20 [mkPremise "k" "s"] (mkResiduals Unrepresented []).
Definition call (r : DocketAuthzRequestV1) : IssueCall := mkIssueCall office r [] decision signer terms.
End ToyDocket.

Lemma toy_decided : decide ToyDocket.office ToyDocket.admitted = Ok ToyDocket.decision.
Proof. vm_compute. reflexivity. Qed.
Lemma toy_refused :
  decide ToyDocket.office ToyDocket.refused = Err (ActorNotAdmitted "mallory" "t1").
Proof. vm_compute. reflexivity. Qed.

(** ** The properties *)

(** The conditions under which the office admits a request for a target: the one
    effect class, a principal chain of non-blank nodes, the first target of the
    catalog for the repository, reference and class, an admitted actor, and
    every path equal to an admitted prefix or below it. *)
Definition admissible (o : DocketIssuanceOffice) (r : DocketAuthzRequestV1) (t : DocketTargetDefinitionV1) : Prop :=
  dr_effect_class r = SUPPORTED_EFFECT_CLASS /\
  (of_principal_chain o <> [] /\ forall p, p ∈ of_principal_chain o -> blank (str_bytes p) = false) /\
  (exists before after, map snd (dc_targets (of_catalog o)) = before ++ t :: after /\
     target_matches r t = true /\ Forall (fun u => target_matches r u = false) before) /\
  dr_requested_actor r ∈ dt_admitted_actors t /\
  forall path, path ∈ dr_allowed_paths r -> exists prefix, prefix ∈ dt_admitted_path_prefixes t /\
    (path = prefix \/ exists rest, path = prefix +:+ "/" +:+ rest).

(** C31. The office decides exactly: [decide] returns a decision if and only if
    the request is admissible for a target of the catalog and its identity can
    be encoded, and the decision carries that target and that identity. *)
Theorem decide_exact `{Deps} o r d :
  decide o r = Ok d <->
  exists t, admissible o r t /\ decide_identity (of_context o) r (dt_target_id t) = Ok (dd_decision_id d) /\
            dd_target_id d = dt_target_id t.
Proof.
  unfold decide. rewrite guard_ok, negb_bool_decide_false, guard_ok, chain_ok, res_bind_ok.
  unfold admissible. destruct d as [i g]. split.
  - intros (Hc & Hb & t & Ht%ok_or_ok%find_first & Hrest). exists t.
    rewrite guard_ok, then_ok, actor_admitted_ok, check_paths_spec, res_bind_ok in Hrest.
    destruct Hrest as (Hact & Hpath & j & Hj & [= <- <-]). split_all; by try apply Hb.
  - intros (t & (Hc & Hb & Ht%find_first & Hact & Hpath) & Hj & Hg). simpl in *. subst g.
    split; [done|]. split; [done|]. exists t. split; [by apply ok_or_ok|].
    rewrite guard_ok, then_ok, actor_admitted_ok, check_paths_spec, Hj. by split_all.
Qed.

Lemma decide_exact_witness : exists t, admissible ToyDocket.office ToyDocket.admitted t.
Proof.
  destruct (proj1 (decide_exact ToyDocket.office ToyDocket.admitted ToyDocket.decision) toy_decided)
    as (t & Ht & _). by exists t.
Defined.

(** A decision names one request: two decisions with the same identity were
    made for the same request, context and target, or their preimages collide. *)
Theorem decision_names_request `{JcsLaws, !HexLaws, !Sha256Laws} c c' r r' t t' b b' id :
  encodes (VArray [to_value r; to_value c; to_value t]) b ->
  encodes (VArray [to_value r'; to_value c'; to_value t']) b' ->
  decide_identity c r t = Ok id -> decide_identity c' r' t' = Ok id ->
  (r = r' /\ c = c' /\ t = t') \/
  collision (domain_preimage DECISION_DIGEST_DOMAIN b) (domain_preimage DECISION_DIGEST_DOMAIN b').
Proof.
  intros Hb Hb' Hi Hi'. rewrite (decide_identity_ok _ _ _ _ Hb) in Hi. rewrite (decide_identity_ok _ _ _ _ Hb') in Hi'.
  assert (hash_domain DECISION_DIGEST_DOMAIN b = hash_domain DECISION_DIGEST_DOMAIN b') as Hd
    by (apply digest_str_inj; congruence).
  destruct Hb as (Hx & Hb & Hl), Hb' as (Hx' & Hb' & Hl').
  destruct (hash_domain_binds DECISION_DIGEST_DOMAIN b DECISION_DIGEST_DOMAIN b') as [[_ <-]|Hc];
    [vm_compute; reflexivity | vm_compute; reflexivity | done | done | done | | by right].
  left. pose proof (canon_injective_encoding _ _ b Hx Hx' Hb Hb') as He%array_equiv.
  rewrite !Forall2_cons in He. destruct He as (Hr & Hc & Ht & _).
  apply to_value_inj in Hr, Hc, Ht. by subst.
Qed.

Lemma toy_decision_encodes :
  encodes (VArray [to_value ToyDocket.admitted; to_value (of_context ToyDocket.office); to_value "t1"])
    (toy_encoding (VArray [to_value ToyDocket.admitted; to_value (of_context ToyDocket.office); to_value "t1"])).
Proof. toy_encoded. Qed.
Lemma toy_decision_identity :
  decide_identity (of_context ToyDocket.office) ToyDocket.admitted "t1" = Ok (dd_decision_id ToyDocket.decision).
Proof. vm_compute. reflexivity. Qed.

Lemma decision_names_request_witness :
  let p := domain_preimage DECISION_DIGEST_DOMAIN
    (toy_encoding (VArray [to_value ToyDocket.admitted; to_value (of_context ToyDocket.office); to_value "t1"])) in
  (ToyDocket.admitted = ToyDocket.admitted /\ of_context ToyDocket.office = of_context ToyDocket.office /\ "t1" = "t1")
  \/ collision p p.
Proof.
  exact (decision_names_request _ _ _ _ "t1" "t1" _ _ _ toy_decision_encodes toy_decision_encodes
    toy_decision_identity toy_decision_identity).
Defined.

(** One ledger issues at most one record for a decision.  In every sequence of
    [issue] calls on one ledger the decisions of the issued envelopes are
    pairwise different, none was recorded before, each is recorded after, and no
    record of a use is lost or altered. *)
Theorem issuance_burns_once `{Deps, RpcDeps} calls l :
  ledger_ok l ->
  let (l', issued) := issue_run l calls in
  ledger_ok l' /\ NoDup (map fst issued) /\
  (forall id, id ∈ map fst issued -> prior_use l id = None /\ exists u, prior_use l' id = Some u) /\
  (forall id u, prior_use l id = Some u -> prior_use l' id = Some u).
Proof. apply issue_run_burns. Qed.

Lemma toy_run_issued :
  map fst (issue_run ledger_new [ToyDocket.call ToyDocket.admitted; ToyDocket.call ToyDocket.admitted]).2
  = [dd_decision_id ToyDocket.decision].
Proof. vm_compute. reflexivity. Qed.
Lemma toy_ledger_ok : ledger_ok ledger_new.
Proof. constructor. Qed.

Lemma issuance_burns_once_witness :
  exists u, prior_use (issue_run ledger_new [ToyDocket.call ToyDocket.admitted; ToyDocket.call ToyDocket.admitted]).1
              (dd_decision_id ToyDocket.decision) = Some u.
Proof.
  pose proof (issuance_burns_once [ToyDocket.call ToyDocket.admitted; ToyDocket.call ToyDocket.admitted]
    ledger_new toy_ledger_ok) as Hr. pose proof toy_run_issued as Hi.
  destruct (issue_run _ _) as [l' issued]. destruct Hr as (_ & _ & Hr & _). cbn [fst snd] in *.
  apply (Hr (dd_decision_id ToyDocket.decision)). rewrite Hi. apply list_elem_of_here.
Defined.

(** serde reads back the body that [issue] writes for these arguments, and its
    encoding is UTF-8. *)
Definition body_reads_back `{Deps, RpcDeps, !Decode DocketIssuanceBodyV1} (o : DocketIssuanceOffice)
    (r : DocketAuthzRequestV1) (rb : bytes) (d : DocketDecision) (s : IssuanceSigner) (t : IssueTerms) : Prop :=
  forall u id b, let c := mkConsumption DECISION_LEDGER u in let body := issuance_body o r rb d s t c id in
    use_digest (dd_decision_id d) (of_context o) = Ok u -> issuance_identity o r rb d s t c = Ok id ->
    jcs_to_vec (to_value body) = inr b ->
    from_value (canon (to_value body)) = inr body /\ utf8_valid b = true.

Lemma issue_and_verify `{JcsLaws, RpcDeps, !RpcLaws, !Decode DocketIssuanceBodyV1} o r rb d l s t :
  ledger_ok l -> prior_use l (dd_decision_id d) = None -> terms_ok o t ->
  sg_public_key s = key_public (sg_key_pair s) -> body_reads_back o r rb d s t ->
  exists l' e u id,
    issue o r rb d l s t = (l', Ok e) /\ prior_use l' (dd_decision_id d) = Some u /\
    verify_envelope e = Ok (issuance_body o r rb d s t (mkConsumption DECISION_LEDGER u) id).
Proof.
  intros Hl Hn Ht Hk Hdec. destruct (use_digest_total (dd_decision_id d) (of_context o)) as [u Hu]; [apply Ht|].
  set (c := mkConsumption DECISION_LEDGER u).
  destruct (produce_total o r rb d s t c Ht) as (id & b & Hid & Hb & Hp).
  eexists _, _, u, id. unfold issue, consume. rewrite Hn, Hu. cbn [res_bind]. fold c. split; [by rewrite Hp|].
  split; [rewrite prior_use_insert by done; by rewrite String.eqb_refl|].
  pose proof (body_ijson o r rb d s t c id Ht) as Hj. destruct (canonical_json_ijson _ Hj) as (b' & Hb' & Hc').
  assert (b' = b) as -> by congruence. destruct (Hdec u id b Hu Hid Hb') as [Hd Hu8]. by apply verify_produced.
Qed.

(** C32. What is issued verifies.  For a decision that the ledger has not recorded,
    times that JSON carries exactly, a signer that holds its own public key and
    a body that serde reads back, [issue] succeeds and burns the decision, and
    [verify_envelope] returns the body: the request's binding, the decision and
    its target, the digests of the request bytes, and the recorded use. *)
Theorem issuance_verifies `{JcsLaws, RpcDeps, !RpcLaws, !Decode DocketIssuanceBodyV1} o r rb d l s t :
  ledger_ok l -> prior_use l (dd_decision_id d) = None -> terms_ok o t ->
  sg_public_key s = key_public (sg_key_pair s) -> body_reads_back o r rb d s t ->
  exists l' e u id,
    issue o r rb d l s t = (l', Ok e) /\ prior_use l' (dd_decision_id d) = Some u /\
    verify_envelope e = Ok (issuance_body o r rb d s t (mkConsumption DECISION_LEDGER u) id).
Proof. apply issue_and_verify. Qed.

Definition toy_body (r : DocketAuthzRequestV1) : DocketIssuanceBodyV1 :=
  let c := mkConsumption DECISION_LEDGER
    (ToyDocket.unwrap "" (use_digest (dd_decision_id ToyDocket.decision) (of_context ToyDocket.office))) in
  issuance_body ToyDocket.office r [] ToyDocket.decision ToyDocket.signer ToyDocket.terms c
    (ToyDocket.unwrap "" (issuance_identity ToyDocket.office r [] ToyDocket.decision ToyDocket.signer ToyDocket.terms c)).

Lemma toy_terms_ok : terms_ok ToyDocket.office ToyDocket.terms.
Proof. unfold terms_ok, json_time. split_all; apply Z.leb_le; vm_compute; reflexivity. Qed.
Lemma toy_unused id : prior_use ledger_new id = None.
Proof. reflexivity. Qed.
Lemma toy_signer_key : sg_public_key ToyDocket.signer = key_public (sg_key_pair ToyDocket.signer).
Proof. vm_compute. reflexivity. Qed.
Lemma toy_reads_back r :
  utf8_valid (toy_encoding (toy_body r)) = true ->
  from_value (canon (to_value (toy_body r))) = inr (toy_body r) ->
  body_reads_back ToyDocket.office r [] ToyDocket.decision ToyDocket.signer ToyDocket.terms.
Proof.
  intros Hu8 Hd u id b c body Hu Hid Hb. subst c. assert (body = toy_body r) as Hbody.
  { unfold toy_body. rewrite Hu. cbn [ToyDocket.unwrap]. rewrite Hid. reflexivity. }
  rewrite Hbody in *. unfold toy_encoding in Hu8. rewrite Hb in Hu8. by split.
Qed.
Lemma toy_admitted_reads_back :
  body_reads_back ToyDocket.office ToyDocket.admitted [] ToyDocket.decision ToyDocket.signer ToyDocket.terms.
Proof. apply toy_reads_back; vm_compute; reflexivity. Qed.
Lemma toy_refused_reads_back :
  body_reads_back ToyDocket.office ToyDocket.refused [] ToyDocket.decision ToyDocket.signer ToyDocket.terms.
Proof. apply toy_reads_back; vm_compute; reflexivity. Qed.

Lemma issuance_verifies_witness :
  exists l' e u id,
    issue ToyDocket.office ToyDocket.admitted [] ToyDocket.decision ledger_new ToyDocket.signer ToyDocket.terms = (l', Ok e) /\
    prior_use l' (dd_decision_id ToyDocket.decision) = Some u /\
    verify_envelope e = Ok (issuance_body ToyDocket.office ToyDocket.admitted [] ToyDocket.decision ToyDocket.signer
      ToyDocket.terms (mkConsumption DECISION_LEDGER u) id).
Proof.
  exact (issuance_verifies ToyDocket.office ToyDocket.admitted [] ToyDocket.decision ledger_new ToyDocket.signer
    ToyDocket.terms toy_ledger_ok (toy_unused _) toy_terms_ok toy_signer_key toy_admitted_reads_back).
Defined.

(** C33. The decision given to [issue] need not be a decision about the request
    given to it.  A decision that the office made for one request, and that the
    ledger has not recorded, issues a verifiable record that says "admitted" and
    binds a second request, which [decide] refuses: [issue] runs none of the
    checks of [decide] and does not compare the decision with the request. *)
Theorem issue_admits_refused_request
    `{JcsLaws, RpcDeps, !RpcLaws, !Decode DocketIssuanceBodyV1} o r r' rb d refusal l s t :
  decide o r = Ok d -> decide o r' = Err refusal ->
  ledger_ok l -> prior_use l (dd_decision_id d) = None -> terms_ok o t ->
  sg_public_key s = key_public (sg_key_pair s) -> body_reads_back o r' rb d s t ->
  exists l' e body,
    issue o r' rb d l s t = (l', Ok e) /\ verify_envelope e = Ok body /\
    is_decision body = "admitted" /\ is_docket body = docket_binding r' /\ is_decision_id body = dd_decision_id d.
Proof.
  intros _ _ Hl Hn Ht Hk Hd. destruct (issue_and_verify o r' rb d l s t Hl Hn Ht Hk Hd) as (l' & e & u & id & Hi & _ & Hv).
  by eexists l', e, _.
Qed.

Lemma issue_admits_refused_request_witness :
  exists l' e body,
    issue ToyDocket.office ToyDocket.refused [] ToyDocket.decision ledger_new ToyDocket.signer ToyDocket.terms = (l', Ok e) /\
    verify_envelope e = Ok body /\ is_decision body = "admitted" /\
    is_docket body = docket_binding ToyDocket.refused /\ is_decision_id body = dd_decision_id ToyDocket.decision.
Proof.
  exact (issue_admits_refused_request ToyDocket.office ToyDocket.admitted ToyDocket.refused [] ToyDocket.decision _
    ledger_new ToyDocket.signer ToyDocket.terms toy_decided toy_refused toy_ledger_ok (toy_unused _) toy_terms_ok
    toy_signer_key toy_refused_reads_back).
Defined.
