(* ===== verification/Derived.v ===== *)
(** * Verifier-derived promotion authority (ag-app/src/derived.rs)

    A human-installed scope lets a pinned verifier authorize managed-pointer
    promotions.  The verifier and the durable burn ledger are traits of the
    source; here they are classes of operations, and what the documentation of
    the ledger requires of its implementations is the class [BurnLaws].  The
    in-memory ledger of the module's own tests is an instance of both. *)

From S2P Require Import Prelude Wire Fixture Digest Names Origin Capability Identity Paths Effect Compile Proposal.

Definition DERIVED_SCOPE_SCHEMA_V1 : string := "ag.derived-promotion-scope/v1".
Definition DERIVED_VERIFIER_REQUEST_SCHEMA_V1 : string := "ag.derived-promotion-verifier-request/v1".
Definition DERIVED_VERIFIER_RECEIPT_SCHEMA_V1 : string := "ag.derived-promotion-verifier-receipt/v1".
Definition DERIVED_AUTHORIZATION_SCHEMA_V1 : string := "ag.derived-promotion-authorization/v1".

(** ** Data *)

Record PinnedPromotionVerifierIdentityV1 : Type := mkVerifierIdentity {
  vi_executable : ExecutableIdentityV1;
  vi_launch_profile : LaunchProfileIdentityV1
}.
#[global] Instance PinnedPromotionVerifierIdentityV1_eq_dec : EqDecision PinnedPromotionVerifierIdentityV1.
Proof. solve_decision. Defined.
#[global] Instance PinnedPromotionVerifierIdentityV1_serialize : Serialize PinnedPromotionVerifierIdentityV1 := fun v =>
  VObject [("executable", to_value (vi_executable v)); ("launch_profile", to_value (vi_launch_profile v))].

Inductive ExpectedVerifierOutcomeV1 : Type := ExpectEntailed | ExpectNotEntailed.
Inductive VerifierOutcomeClassV1 : Type := Entailed | NotEntailed | UnknownOutcome.
#[global] Instance ExpectedVerifierOutcomeV1_eq_dec : EqDecision ExpectedVerifierOutcomeV1.
Proof. solve_decision. Defined.
#[global] Instance VerifierOutcomeClassV1_eq_dec : EqDecision VerifierOutcomeClassV1.
Proof. solve_decision. Defined.
#[global] Instance ExpectedVerifierOutcomeV1_serialize : Serialize ExpectedVerifierOutcomeV1 := fun e =>
  VString match e with ExpectEntailed => "entailed" | ExpectNotEntailed => "not_entailed" end.
#[global] Instance VerifierOutcomeClassV1_serialize : Serialize VerifierOutcomeClassV1 := fun e =>
  VString match e with Entailed => "entailed" | NotEntailed => "not_entailed" | UnknownOutcome => "unknown" end.

(** [ExpectedVerifierOutcomeV1::matches]. *)
Definition outcome_matches (expected : ExpectedVerifierOutcomeV1) (observed : VerifierOutcomeClassV1) : bool :=
  match expected, observed with
  | ExpectEntailed, Entailed | ExpectNotEntailed, NotEntailed => true
  | _, _ => false
  end.

Inductive PromotionVerifierJudgmentV1 : Type :=
  | JudgedEntailed (evidence : Digest)
  | JudgedNotEntailed (evidence : Digest)
  | JudgedUnknown (evidence : Digest).
#[global] Instance PromotionVerifierJudgmentV1_serialize : Serialize PromotionVerifierJudgmentV1 := fun j =>
  match j with
  | JudgedEntailed e => VObject [("outcome", VString "entailed"); ("evidence", to_value e)]
  | JudgedNotEntailed e => VObject [("outcome", VString "not_entailed"); ("evidence", to_value e)]
  | JudgedUnknown e => VObject [("outcome", VString "unknown"); ("evidence", to_value e)]
  end.
(** [PromotionVerifierJudgmentV1::outcome]. *)
Definition judgment_outcome (j : PromotionVerifierJudgmentV1) : VerifierOutcomeClassV1 :=
  match j with
  | JudgedEntailed _ => Entailed
  | JudgedNotEntailed _ => NotEntailed
  | JudgedUnknown _ => UnknownOutcome
  end.

Record DerivedPromotionScopeBodyV1 : Type := mkScopeBody {
  sb_schema : string;
  sb_authority_domain : AuthorityDomainId;
  sb_epoch : EpochId;
  sb_catalog_identity : Digest;
  sb_allowed_targets : list TargetId;
  sb_verifier : PinnedPromotionVerifierIdentityV1;
  sb_verifier_semantics : Digest;
  sb_hostile_specimens : list (Digest * ExpectedVerifierOutcomeV1);
  sb_adapter_roots : list PrincipalId;
  sb_separation : PrincipalSeparationPredicateV1;
  sb_not_before_unix_ms : Z;
  sb_expires_unix_ms : Z;
  sb_max_uses : Z
}.
#[global] Instance PrincipalSeparationPredicateV1_serialize : Serialize PrincipalSeparationPredicateV1 := fun p =>
  VString match p with DistinctRootsNoSharedLineage => "distinct_roots_no_shared_lineage" end.
(** [BTreeMap<Digest, ExpectedVerifierOutcomeV1>]. *)
Definition specimens_value (l : list (Digest * ExpectedVerifierOutcomeV1)) : Value :=
  VObject (map (fun kv => (digest_str kv.1, to_value kv.2)) l).
#[global] Instance DerivedPromotionScopeBodyV1_serialize : Serialize DerivedPromotionScopeBodyV1 := fun b =>
  VObject [("schema", to_value (sb_schema b)); ("authority_domain", to_value (sb_authority_domain b));
           ("epoch", to_value (sb_epoch b)); ("catalog_identity", to_value (sb_catalog_identity b));
           ("allowed_targets", to_value (sb_allowed_targets b)); ("verifier", to_value (sb_verifier b));
           ("verifier_semantics", to_value (sb_verifier_semantics b));
           ("hostile_specimens", specimens_value (sb_hostile_specimens b));
           ("adapter_roots", to_value (sb_adapter_roots b)); ("separation", to_value (sb_separation b));
           ("not_before_unix_ms", to_value (sb_not_before_unix_ms b));
           ("expires_unix_ms", to_value (sb_expires_unix_ms b)); ("max_uses", to_value (sb_max_uses b))].

Record DerivedPromotionScopeV1 : Type := mkScope { sc_digest : Digest; sc_body : DerivedPromotionScopeBodyV1 }.

Record DerivedVerifierRequestV1 : Type := mkVerifierRequest {
  vr_schema : string;
  vr_invocation_nonce : Digest;
  vr_scope : Digest;
  vr_canonical_proposal : CanonicalEffectProposalV1;
  vr_catalog_identity : Digest;
  vr_judgment : Digest;
  vr_adapter_chain : Digest;
  vr_verifier_semantics : Digest;
  vr_hostile_specimen_catalog : Digest
}.
#[global] Instance CanonicalEffectProposalV1_serialize : Serialize CanonicalEffectProposalV1 := fun p =>
  VObject [("digest", to_value (cp_digest p)); ("body", to_value (cp_body p))].
#[global] Instance DerivedVerifierRequestV1_serialize : Serialize DerivedVerifierRequestV1 := fun r =>
  VObject [("schema", to_value (vr_schema r)); ("invocation_nonce", to_value (vr_invocation_nonce r));
           ("scope", to_value (vr_scope r)); ("canonical_proposal", to_value (vr_canonical_proposal r));
           ("catalog_identity", to_value (vr_catalog_identity r)); ("judgment", to_value (vr_judgment r));
           ("adapter_chain", to_value (vr_adapter_chain r)); ("verifier_semantics", to_value (vr_verifier_semantics r));
           ("hostile_specimen_catalog", to_value (vr_hostile_specimen_catalog r))].

Record HostileSpecimenResultV1 : Type := mkSpecimenResult {
  hr_specimen : Digest;
  hr_observed : VerifierOutcomeClassV1;
  hr_evidence : Digest
}.
#[global] Instance HostileSpecimenResultV1_serialize : Serialize HostileSpecimenResultV1 := fun r =>
  VObject [("specimen", to_value (hr_specimen r)); ("observed", to_value (hr_observed r));
           ("evidence", to_value (hr_evidence r))].

Record DerivedVerifierReceiptBodyV1 : Type := mkReceiptBody {
  rb_schema : string;
  rb_request : Digest;
  rb_invocation_nonce : Digest;
  rb_scope : Digest;
  rb_proposal : Digest;
  rb_catalog_identity : Digest;
  rb_judgment : Digest;
  rb_adapter_chain : Digest;
  rb_verifier : PinnedPromotionVerifierIdentityV1;
  rb_verifier_semantics : Digest;
  rb_hostile_specimen_catalog : Digest;
  rb_proposal_judgment : PromotionVerifierJudgmentV1;
  rb_hostile_specimen_results : list HostileSpecimenResultV1
}.
#[global] Instance DerivedVerifierReceiptBodyV1_serialize : Serialize DerivedVerifierReceiptBodyV1 := fun b =>
  VObject [("schema", to_value (rb_schema b)); ("request", to_value (rb_request b));
           ("invocation_nonce", to_value (rb_invocation_nonce b)); ("scope", to_value (rb_scope b));
           ("proposal", to_value (rb_proposal b)); ("catalog_identity", to_value (rb_catalog_identity b));
           ("judgment", to_value (rb_judgment b)); ("adapter_chain", to_value (rb_adapter_chain b));
           ("verifier", to_value (rb_verifier b)); ("verifier_semantics", to_value (rb_verifier_semantics b));
           ("hostile_specimen_catalog", to_value (rb_hostile_specimen_catalog b));
           ("proposal_judgment", to_value (rb_proposal_judgment b));
           ("hostile_specimen_results", to_value (rb_hostile_specimen_results b))].
Record DerivedVerifierReceiptV1 : Type := mkVerifierReceipt { re_digest : Digest; re_body : DerivedVerifierReceiptBodyV1 }.
Record VerifierInvocationFailureV1 : Type := mkInvocationFailure { vf_evidence : Digest }.

Record DerivedReceiptBurnV1 : Type := mkBurn {
  bu_scope : Digest;
  bu_proposal : Digest;
  bu_verifier_receipt : Digest;
  bu_invocation_nonce : Digest;
  bu_adapter_chain : Digest
}.
#[global] Instance DerivedReceiptBurnV1_serialize : Serialize DerivedReceiptBurnV1 := fun b =>
  VObject [("scope", to_value (bu_scope b)); ("proposal", to_value (bu_proposal b));
           ("verifier_receipt", to_value (bu_verifier_receipt b));
           ("invocation_nonce", to_value (bu_invocation_nonce b)); ("adapter_chain", to_value (bu_adapter_chain b))].

Inductive DerivedReceiptBurnError : Type :=
  | ScopeBindingMismatch
  | ReceiptAlreadyUsed
  | ProposalAlreadyUsed
  | InvocationAlreadyUsed
  | ScopeExhausted
  | BurnIndeterminate (evidence : Digest).

Record DerivedAuthorizationEvidenceV1 : Type := mkEvidence {
  ae_schema : string;
  ae_scope : Digest;
  ae_proposal : Digest;
  ae_verifier_receipt : Digest;
  ae_burn_receipt : Digest;
  ae_adapter_chain : Digest;
  ae_ratification : RatificationV1
}.
Record ValidatedDerivedCodePromotionV1 : Type := mkValidated { vd_evidence : DerivedAuthorizationEvidenceV1 }.
Record DerivedPromotionValidatorV1 : Type := mkValidator { dv_scope : DerivedPromotionScopeV1 }.

Inductive DerivedAuthorityError : Type :=
  | InvalidScope
  | ScopeDigestMismatch
  | ScopeNotCurrentlyValid
  | ProposalDigestMismatch
  | ProposalSchemaMismatch
  | DerivedContextMismatch
  | CatalogNotInScope
  | EmptyProposal
  | NonPromotionEffect
  | TargetNotInScope
  | AdapterNotAdmitted
  | AdapterNotService
  | PrincipalChainsNotIndependent
  | VerifierIdentityMismatch
  | VerifierInvocationIndeterminate (evidence : Digest)
  | VerifierReceiptDigestMismatch
  | VerifierReceiptBindingMismatch
  | VerifierDidNotEntail
  | HostileSpecimenSetMismatch
  | HostileSpecimenFailed
  | DerivedCanonicalization (e : JcsError)
  | Burn (e : DerivedReceiptBurnError).

(** ** The traits *)

(** [trait PinnedPromotionVerifier]: both methods on a state that [verify] may
    change. *)
Class PinnedPromotionVerifier (V : Type) := {
  verifier_identity : V -> PinnedPromotionVerifierIdentityV1;
  verifier_verify : V -> DerivedVerifierRequestV1 -> V * (VerifierInvocationFailureV1 + DerivedVerifierReceiptV1)
}.
(** [trait DerivedReceiptBurnStore]. *)
Class DerivedReceiptBurnStore (B : Type) :=
  burn_once : B -> DerivedPromotionScopeV1 -> DerivedReceiptBurnV1 -> B * (DerivedReceiptBurnError + Digest).

(** ** Operations *)

Section Derived.
  Context `{Deps}.

(** [digest_value]. *)
Definition digest_value `{Serialize T} (domain : string) (value : T) : res DerivedAuthorityError Digest :=
  let? document := map_err DerivedCanonicalization (canonicalize (to_value value)) in
  Ok (hash_domain domain (jcs_bytes document)).

Definition validate_scope_body (body : DerivedPromotionScopeBodyV1) : res DerivedAuthorityError unit :=
  reject_if ((sb_schema body != DERIVED_SCOPE_SCHEMA_V1)
             || match sb_allowed_targets body with [] => true | _ => false end
             || match sb_hostile_specimens body with [] => true | _ => false end
             || match sb_adapter_roots body with [] => true | _ => false end
             || (sb_expires_unix_ms body <=? sb_not_before_unix_ms body)%Z
             || (sb_max_uses body =? 0)%Z
             || (ei_size (vi_executable (sb_verifier body)) =? 0)%Z) InvalidScope.

Definition SCOPE_DOMAIN : string := "ag-ng/derived-promotion-scope/v1".
Definition VERIFIER_REQUEST_DOMAIN : string := "ag-ng/derived-promotion-verifier-request/v1".
Definition VERIFIER_RECEIPT_DOMAIN : string := "ag-ng/derived-promotion-verifier-receipt/v1".
Definition SPECIMENS_DOMAIN : string := "ag-ng/derived-promotion-hostile-specimens/v1".

(** [DerivedPromotionScopeV1::new] and [::verify]. *)
Definition DerivedPromotionScopeV1_new (body : DerivedPromotionScopeBodyV1)
    : res DerivedAuthorityError DerivedPromotionScopeV1 :=
  validate_scope_body body ;?
  let? digest := digest_value SCOPE_DOMAIN body in
  Ok (mkScope digest body).
Definition scope_verify (self : DerivedPromotionScopeV1) : res DerivedAuthorityError unit :=
  validate_scope_body (sc_body self) ;?
  let? observed := digest_value SCOPE_DOMAIN (sc_body self) in
  reject_if (observed != sc_digest self) ScopeDigestMismatch.

(** [DerivedVerifierRequestV1::digest]. *)
Definition request_digest (r : DerivedVerifierRequestV1) : res DerivedAuthorityError Digest :=
  digest_value VERIFIER_REQUEST_DOMAIN r.

(** [DerivedVerifierReceiptV1::new] and [::verify_digest]. *)
Definition DerivedVerifierReceiptV1_new (body : DerivedVerifierReceiptBodyV1)
    : res DerivedAuthorityError DerivedVerifierReceiptV1 :=
  let? digest := digest_value VERIFIER_RECEIPT_DOMAIN body in
  Ok (mkVerifierReceipt digest body).
Definition receipt_verify_digest (self : DerivedVerifierReceiptV1) : res DerivedAuthorityError unit :=
  let? observed := digest_value VERIFIER_RECEIPT_DOMAIN (re_body self) in
  reject_if (observed != re_digest self) VerifierReceiptDigestMismatch.

Definition hostile_specimen_catalog_digest (scope : DerivedPromotionScopeBodyV1) : res DerivedAuthorityError Digest :=
  let? document := map_err DerivedCanonicalization (canonicalize (specimens_value (sb_hostile_specimens scope))) in
  Ok (hash_domain SPECIMENS_DOMAIN (jcs_bytes document)).

(** [DerivedPromotionValidatorV1::new]. *)
Definition DerivedPromotionValidatorV1_new (scope : DerivedPromotionScopeV1)
    : res DerivedAuthorityError DerivedPromotionValidatorV1 :=
  scope_verify scope ;? Ok (mkValidator scope).

Definition validate_adapter (scope : DerivedPromotionScopeBodyV1) (proposal : CanonicalProposalBodyV1)
    (adapter : PrincipalChainV1) : res DerivedAuthorityError unit :=
  reject_if ((pc_authority_domain adapter != sb_authority_domain scope)
             || (pc_epoch adapter != sb_epoch scope)
             || (pb_authority_domain proposal != sb_authority_domain scope)
             || (pb_epoch proposal != sb_epoch scope)) DerivedContextMismatch ;?
  let? leaf := chain_leaf adapter in
  reject_if (pn_kind leaf != KService) AdapterNotService ;?
  let? root := chain_root adapter in
  reject_if (negb (bool_decide (pn_principal_id root ∈ sb_adapter_roots scope))) AdapterNotAdmitted ;?
  map_err (fun _ => PrincipalChainsNotIndependent) (satisfies (pb_proposer proposal) adapter (sb_separation scope)).

(** [scope.hostile_specimens.get]. *)
Definition specimen_get (d : Digest) (l : list (Digest * ExpectedVerifierOutcomeV1)) : option ExpectedVerifierOutcomeV1 :=
  snd <$> List.find (fun kv => kv.1 == d) l.
(** The loop over the specimen results; it returns [seen]. *)
Fixpoint check_specimens (specimens : list (Digest * ExpectedVerifierOutcomeV1)) (seen : gset Digest)
    (results : list HostileSpecimenResultV1) : res DerivedAuthorityError (gset Digest) :=
  match results with
  | [] => Ok seen
  | result :: rest =>
      reject_if (bool_decide (hr_specimen result ∈ seen)) HostileSpecimenSetMismatch ;?
      let? expected := ok_or HostileSpecimenSetMismatch (specimen_get (hr_specimen result) specimens) in
      reject_if (negb (outcome_matches expected (hr_observed result))) HostileSpecimenFailed ;?
      check_specimens specimens ({[hr_specimen result]} ∪ seen) rest
  end.

Definition receipt_mismatch (scope : DerivedPromotionScopeBodyV1) (request : DerivedVerifierRequestV1)
    (request_digest : Digest) (verifier : PinnedPromotionVerifierIdentityV1) (body : DerivedVerifierReceiptBodyV1) : bool :=
  (rb_schema body != DERIVED_VERIFIER_RECEIPT_SCHEMA_V1)
  || (rb_request body != request_digest)
  || (rb_invocation_nonce body != vr_invocation_nonce request)
  || (rb_scope body != vr_scope request)
  || (rb_proposal body != cp_digest (vr_canonical_proposal request))
  || (rb_catalog_identity body != vr_catalog_identity request)
  || (rb_judgment body != vr_judgment request)
  || (rb_adapter_chain body != vr_adapter_chain request)
  || (rb_verifier body != verifier)
  || (rb_verifier body != sb_verifier scope)
  || (rb_verifier_semantics body != vr_verifier_semantics request)
  || (rb_hostile_specimen_catalog body != vr_hostile_specimen_catalog request).

Definition validate_verifier_receipt (scope : DerivedPromotionScopeBodyV1) (request : DerivedVerifierRequestV1)
    (verifier : PinnedPromotionVerifierIdentityV1) (receipt : DerivedVerifierReceiptV1) : res DerivedAuthorityError unit :=
  receipt_verify_digest receipt ;?
  let body := re_body receipt in
  let? digest := request_digest request in
  reject_if (receipt_mismatch scope request digest verifier body) VerifierReceiptBindingMismatch ;?
  reject_if (judgment_outcome (rb_proposal_judgment body) != Entailed) VerifierDidNotEntail ;?
  reject_if (length (rb_hostile_specimen_results body) != length (sb_hostile_specimens scope))
    HostileSpecimenSetMismatch ;?
  let? seen := check_specimens (sb_hostile_specimens scope) ∅ (rb_hostile_specimen_results body) in
  reject_if (size seen != length (sb_hostile_specimens scope)) HostileSpecimenSetMismatch.

(** The loop over the proposal's effects. *)
Fixpoint check_effects (scope : DerivedPromotionScopeBodyV1) (effects : list CanonicalEffectV1)
    : res DerivedAuthorityError unit :=
  match effects with
  | [] => Ok tt
  | effect :: rest =>
      reject_if (effect_family effect != CodePromotion) NonPromotionEffect ;?
      reject_if (negb (bool_decide (effect_target effect ∈ sb_allowed_targets scope))) TargetNotInScope ;?
      check_effects scope rest
  end.

(** The part of [validate_and_burn] before the verifier is asked. *)
Definition check_proposal (self : DerivedPromotionValidatorV1) (proposal : CanonicalEffectProposalV1)
    (now_unix_ms : Z) : res DerivedAuthorityError unit :=
  let scope := sc_body (dv_scope self) in
  let body := cp_body proposal in
  scope_verify (dv_scope self) ;?
  reject_if ((now_unix_ms <? sb_not_before_unix_ms scope)%Z || (sb_expires_unix_ms scope <=? now_unix_ms)%Z)
    ScopeNotCurrentlyValid ;?
  map_err (fun _ => ProposalDigestMismatch) (verify_digest proposal) ;?
  reject_if ((pb_schema body != EFFECT_SCHEMA_V1) || (pb_catalog_schema body != EFFECT_CATALOG_SCHEMA_V1))
    ProposalSchemaMismatch ;?
  reject_if ((pb_authority_domain body != sb_authority_domain scope) || (pb_epoch body != sb_epoch scope)
             || (pc_authority_domain (pb_proposer body) != pb_authority_domain body)
             || (pc_epoch (pb_proposer body) != pb_epoch body)) DerivedContextMismatch ;?
  reject_if (pb_catalog_identity body != sb_catalog_identity scope) CatalogNotInScope ;?
  reject_if (match pb_effects body with [] => true | _ => false end) EmptyProposal ;?
  check_effects scope (pb_effects body).

Definition verifier_request (self : DerivedPromotionValidatorV1) (proposal : CanonicalEffectProposalV1)
    (invocation_nonce adapter_chain hostile_specimen_catalog : Digest) : DerivedVerifierRequestV1 :=
  mkVerifierRequest DERIVED_VERIFIER_REQUEST_SCHEMA_V1 invocation_nonce (sc_digest (dv_scope self)) proposal
    (pb_catalog_identity (cp_body proposal)) (pb_judgment (cp_body proposal)) adapter_chain
    (sb_verifier_semantics (sc_body (dv_scope self))) hostile_specimen_catalog.

(** The request, once every check before the invocation has passed. *)
Definition prepare_request (self : DerivedPromotionValidatorV1) (proposal : CanonicalEffectProposalV1)
    (authenticated_adapter : PrincipalChainV1) (invocation_nonce : Digest) (now_unix_ms : Z)
    (identity : PinnedPromotionVerifierIdentityV1) : res DerivedAuthorityError DerivedVerifierRequestV1 :=
  let scope := sc_body (dv_scope self) in
  check_proposal self proposal now_unix_ms ;?
  validate_adapter scope (cp_body proposal) authenticated_adapter ;?
  reject_if (identity != sb_verifier scope) VerifierIdentityMismatch ;?
  let? adapter_chain := PrincipalChainV1_id authenticated_adapter in
  let? hostile_specimen_catalog := hostile_specimen_catalog_digest scope in
  Ok (verifier_request self proposal invocation_nonce adapter_chain hostile_specimen_catalog).

Definition burn_of (self : DerivedPromotionValidatorV1) (proposal : CanonicalEffectProposalV1)
    (request : DerivedVerifierRequestV1) (receipt : DerivedVerifierReceiptV1) : DerivedReceiptBurnV1 :=
  mkBurn (sc_digest (dv_scope self)) (cp_digest proposal) (re_digest receipt) (vr_invocation_nonce request)
    (vr_adapter_chain request).
Definition evidence_of (self : DerivedPromotionValidatorV1) (proposal : CanonicalEffectProposalV1)
    (authenticated_adapter : PrincipalChainV1) (request : DerivedVerifierRequestV1) (receipt : DerivedVerifierReceiptV1)
    (burn_receipt : Digest) : DerivedAuthorizationEvidenceV1 :=
  let scope := sc_body (dv_scope self) in
  mkEvidence DERIVED_AUTHORIZATION_SCHEMA_V1 (sc_digest (dv_scope self)) (cp_digest proposal) (re_digest receipt)
    burn_receipt (vr_adapter_chain request)
    (DerivedCodePromotion (cp_digest proposal) (ei_sha256 (vi_executable (sb_verifier scope)))
       (lp_profile_digest (vi_launch_profile (sb_verifier scope))) (re_digest receipt) authenticated_adapter).

(** [DerivedPromotionValidatorV1::validate_and_burn]: the verifier and the ledger
    it leaves, and its result. *)
Definition validate_and_burn `{PinnedPromotionVerifier V, DerivedReceiptBurnStore B} (self : DerivedPromotionValidatorV1)
    (proposal : CanonicalEffectProposalV1) (authenticated_adapter : PrincipalChainV1) (invocation_nonce : Digest)
    (now_unix_ms : Z) (verifier : V) (burns : B)
    : V * B * res DerivedAuthorityError ValidatedDerivedCodePromotionV1 :=
  match prepare_request self proposal authenticated_adapter invocation_nonce now_unix_ms (verifier_identity verifier) with
  | Err e => (verifier, burns, Err e)
  | Panic => (verifier, burns, Panic)
  | Ok request =>
      match verifier_verify verifier request with
      | (verifier, inl failure) => (verifier, burns, Err (VerifierInvocationIndeterminate (vf_evidence failure)))
      | (verifier, inr receipt) =>
          match validate_verifier_receipt (sc_body (dv_scope self)) request (verifier_identity verifier) receipt with
          | Err e => (verifier, burns, Err e)
          | Panic => (verifier, burns, Panic)
          | Ok _ =>
              match burn_once burns (dv_scope self) (burn_of self proposal request receipt) with
              | (burns, inl e) => (verifier, burns, Err (Burn e))
              | (burns, inr burn_receipt) =>
                  (verifier, burns,
                   Ok (mkValidated (evidence_of self proposal authenticated_adapter request receipt burn_receipt)))
              end
          end
      end
  end.

End Derived.

(** ** The durable ledger *)

(** What the documentation of [DerivedReceiptBurnStore::burn_once] requires, on
    the list of committed burns that a ledger stands for: a committed burn names
    the digest of a verified scope, its receipt, proposal and nonce are new, and
    the scope had a use left; a refusal commits nothing; an indeterminate answer
    may or may not have committed. *)
Definition scope_uses (d : Digest) (l : list DerivedReceiptBurnV1) : nat :=
  length (List.filter (fun b => bu_scope b == d) l).
Definition burn_admissible `{Deps} (scope : DerivedPromotionScopeV1) (l : list DerivedReceiptBurnV1)
    (burn : DerivedReceiptBurnV1) : Prop :=
  scope_verify scope = Ok tt /\ bu_scope burn = sc_digest scope /\
  (bu_verifier_receipt burn ∉ map bu_verifier_receipt l) /\
  (bu_proposal burn ∉ map bu_proposal l) /\
  (bu_invocation_nonce burn ∉ map bu_invocation_nonce l) /\
  (Z.of_nat (scope_uses (sc_digest scope) l) < sb_max_uses (sc_body scope))%Z.
Class BurnLaws `{Deps} (B : Type) `{DerivedReceiptBurnStore B} := {
  committed : B -> list DerivedReceiptBurnV1;
  burn_once_law : forall b scope burn, match burn_once b scope burn with
    | (b', inr _) => burn_admissible scope (committed b) burn /\ committed b' = committed b ++ [burn]
    | (b', inl (BurnIndeterminate _)) =>
        committed b' = committed b \/
        burn_admissible scope (committed b) burn /\ committed b' = committed b ++ [burn]
    | (b', inl _) => committed b' = committed b
    end
}.

(** ** Lemmas *)

Section Lemmas.
  Context `{Deps}.

Lemma check_effects_ok scope l :
  check_effects scope l = Ok tt <->
  forall e, e ∈ l -> effect_family e = CodePromotion /\ effect_target e ∈ sb_allowed_targets scope.
Proof.
  induction l as [|e l IH]; cbn [check_effects]; [split; [by intros _ e He%elem_of_nil | done]|].
  rewrite !guard_ok, IH, negb_bool_decide_false, negb_false_iff, bool_decide_eq_true. split.
  - intros (Hf & Ht & Hl) x [->|Hx]%elem_of_cons; [by split | by apply Hl].
  - intros Hl. split_all; [apply Hl; left | apply Hl; left | intros x Hx; apply Hl; by right].
Qed.

(** A scope that verifies is bounded and digest-bound. *)
Definition scope_ok (s : DerivedPromotionScopeV1) : Prop :=
  let b := sc_body s in
  sb_schema b = DERIVED_SCOPE_SCHEMA_V1 /\ sb_allowed_targets b <> [] /\ sb_hostile_specimens b <> [] /\
  sb_adapter_roots b <> [] /\ (sb_not_before_unix_ms b < sb_expires_unix_ms b)%Z /\ sb_max_uses b <> 0%Z /\
  ei_size (vi_executable (sb_verifier b)) <> 0%Z /\ digest_value SCOPE_DOMAIN b = Ok (sc_digest s).

Lemma nonempty_test {A} (l : list A) : match l with [] => true | _ => false end = false <-> l <> [].
Proof. by destruct l. Qed.

Lemma scope_verify_ok s : scope_verify s = Ok tt <-> scope_ok s.
Proof.
  unfold scope_verify, validate_scope_body, scope_ok. rewrite then_ok, reject_if_ok, !orb_false, !nonempty_test,
    negb_bool_decide_false, Z.leb_gt, !Z.eqb_neq, res_bind_ok. setoid_rewrite reject_if_ok.
  setoid_rewrite negb_bool_decide_false. split.
  - intros (((((((? & ?) & ?) & ?) & ?) & ?) & ?) & d & Hd & He). subst. by split_all.
  - intros (? & ? & ? & ? & ? & ? & ? & Hd). split_all; try done. by exists (sc_digest s).
Qed.

(** The conditions under which an adapter may exercise a scope. *)
Definition adapter_ok (scope : DerivedPromotionScopeBodyV1) (body : CanonicalProposalBodyV1) (adapter : PrincipalChainV1) : Prop :=
  pc_authority_domain adapter = sb_authority_domain scope /\ pc_epoch adapter = sb_epoch scope /\
  pb_authority_domain body = sb_authority_domain scope /\ pb_epoch body = sb_epoch scope /\
  (exists leaf, last (pc_nodes adapter) = Some leaf /\ pn_kind leaf = KService) /\
  (exists root, pc_nodes adapter !! 0 = Some root /\ pn_principal_id root ∈ sb_adapter_roots scope) /\
  satisfies (pb_proposer body) adapter (sb_separation scope) = Ok tt.

Lemma validate_adapter_ok scope body adapter :
  validate_adapter scope body adapter = Ok tt <-> adapter_ok scope body adapter.
Proof.
  unfold validate_adapter, adapter_ok, chain_leaf, chain_root.
  rewrite guard_ok, !orb_false, !negb_bool_decide_false, res_bind_ok. split.
  - intros ((((? & ?) & ?) & ?) & leaf & Hl%expect_is_ok & Hr).
    rewrite guard_ok, negb_bool_decide_false, res_bind_ok in Hr. destruct Hr as (Hk & root & Hr%expect_is_ok & Hs).
    rewrite guard_ok, negb_false_iff, bool_decide_eq_true, map_err_ok in Hs. destruct Hs as [Hin Hs].
    split_all; eauto.
  - intros (? & ? & ? & ? & (leaf & Hl & Hk) & (root & Hr & Hin) & Hs). split_all; try done.
    exists leaf. rewrite Hl. split; [done|]. rewrite guard_ok, negb_bool_decide_false, res_bind_ok. split; [done|].
    exists root. rewrite Hr. split; [done|]. rewrite guard_ok, negb_false_iff, bool_decide_eq_true, Hs. by split.
Qed.

(** ** Hostile specimens *)

Lemma specimen_get_some d l e : specimen_get d l = Some e -> (d, e) ∈ l.
Proof.
  unfold specimen_get. intros ([k e'] & Hf & Hs)%fmap_Some. apply find_some in Hf as [Hin Hd].
  apply bool_decide_eq_true in Hd. simpl in *. subst. by apply list_elem_of_In.
Qed.
Lemma specimen_get_in d l e : NoDup (map fst l) -> (d, e) ∈ l -> specimen_get d l = Some e.
Proof.
  unfold specimen_get. induction l as [|[k x] l IH]; intros Hn Hin; [by apply elem_of_nil in Hin|].
  cbn [map fst] in Hn. apply NoDup_cons in Hn as [Hk Hn]. simpl. apply elem_of_cons in Hin as [[= -> ->]|Hin].
  - by rewrite bool_decide_eq_true_2.
  - rewrite bool_decide_eq_false_2; [by apply IH|]. intros ->. apply Hk. by apply (elem_map fst _ (d, e)).
Qed.

Lemma check_specimens_ok specimens seen l s :
  check_specimens specimens seen l = Ok s <->
  s = list_to_set (map hr_specimen l) ∪ seen /\ NoDup (map hr_specimen l) /\
  (forall r, r ∈ l -> (hr_specimen r ∉ seen) /\
     exists e, specimen_get (hr_specimen r) specimens = Some e /\ outcome_matches e (hr_observed r) = true).
Proof.
  revert seen. induction l as [|r l IH]; intros seen; cbn [check_specimens].
  { split; [intros [= <-]; split_all; [set_solver | constructor | by intros r Hr%elem_of_nil]|].
    intros (-> & _). f_equal. set_solver. }
  rewrite guard_ok, bool_decide_eq_false, res_bind_ok. setoid_rewrite ok_or_ok. setoid_rewrite guard_ok.
  setoid_rewrite negb_false_iff. setoid_rewrite IH. cbn [map list_to_set foldr]. rewrite NoDup_cons. split.
  - intros (Hr & e & He & Hm & -> & Hn & Hl). split_all; [set_solver | | done |].
    + intros (x & Hx & Hin)%elem_map_iff. destruct (Hl x Hx) as [Hs _]. set_solver.
    + intros x [->|Hx]%elem_of_cons; [by eauto|]. destruct (Hl x Hx) as [Hs He']. split; [set_solver | done].
  - intros (-> & [Hr Hn] & Hl). destruct (Hl r) as (Hs & e & He & Hm); [left|]. split; [done|]. exists e.
    split_all; [done | done | set_solver | done |]. intros x Hx. destruct (Hl x) as (Hs' & He'); [by right|].
    split; [|done]. intros [Hx'%elem_of_singleton|Hx']%elem_of_union; [|done]. apply Hr. rewrite <- Hx'. by apply elem_map.
Qed.

(** Each specimen of the scope has exactly one result, with the expected
    outcome, and there are no others. *)
Definition specimens_answered (specimens : list (Digest * ExpectedVerifierOutcomeV1)) (results : list HostileSpecimenResultV1)
    : Prop :=
  map hr_specimen results ≡ₚ map fst specimens /\
  forall r e, r ∈ results -> (hr_specimen r, e) ∈ specimens -> outcome_matches e (hr_observed r) = true.

Lemma specimens_accept specimens results : NoDup (map fst specimens) ->
  (length results = length specimens /\ exists s, check_specimens specimens ∅ results = Ok s /\ size s = length specimens) <->
  specimens_answered specimens results.
Proof.
  intros Hn. setoid_rewrite check_specimens_ok. split.
  - intros (Hlen & s & (_ & Hnr & Hl) & _). split.
    + apply submseteq_length_Permutation; [|by rewrite !length_map, Hlen].
      apply NoDup_submseteq; [done|]. intros d (r & Hr & <-)%elem_map_iff.
      destruct (Hl r Hr) as (_ & e & He & _). apply specimen_get_some in He. by apply (elem_map fst _ (_, e)).
    + intros r e Hr He. destruct (Hl r Hr) as (_ & e' & He' & Hm).
      rewrite (specimen_get_in _ _ _ Hn He) in He'. by injection He' as ->.
  - intros [Hp Hm]. assert (length results = length specimens) as Hlen
      by (by rewrite <- (length_map hr_specimen), Hp, length_map).
    assert (NoDup (map hr_specimen results)) as Hnr by (by rewrite Hp).
    split; [done|]. exists (list_to_set (map hr_specimen results)). split_all; [set_solver | done | |].
    + intros r Hr. split; [set_solver|]. assert (hr_specimen r ∈ map fst specimens) as Hin
        by (rewrite <- Hp; by apply elem_map).
      apply elem_map_iff in Hin as ([d e] & Hde & Hd). simpl in Hd. subst d. exists e.
      split; [by apply specimen_get_in | by apply Hm].
    + by rewrite size_list_to_set, length_map.
Qed.

End Lemmas.

(** ** What the validator accepts *)

Section Accepts.
  Context `{Deps}.

(** The proposal is an intact, nonempty, all-promotion proposal in the context,
    the catalog, the targets and the interval of an intact scope. *)
Definition promotion_in_scope (self : DerivedPromotionValidatorV1) (proposal : CanonicalEffectProposalV1) (now : Z) : Prop :=
  let scope := sc_body (dv_scope self) in
  let body := cp_body proposal in
  scope_ok (dv_scope self) /\ (sb_not_before_unix_ms scope <= now < sb_expires_unix_ms scope)%Z /\
  verify_digest proposal = Ok tt /\ pb_schema body = EFFECT_SCHEMA_V1 /\ pb_catalog_schema body = EFFECT_CATALOG_SCHEMA_V1 /\
  pb_authority_domain body = sb_authority_domain scope /\ pb_epoch body = sb_epoch scope /\
  pc_authority_domain (pb_proposer body) = pb_authority_domain body /\ pc_epoch (pb_proposer body) = pb_epoch body /\
  pb_catalog_identity body = sb_catalog_identity scope /\ pb_effects body <> [] /\
  forall e, e ∈ pb_effects body -> effect_family e = CodePromotion /\ effect_target e ∈ sb_allowed_targets scope.

Lemma check_proposal_ok self p now : check_proposal self p now = Ok tt <-> promotion_in_scope self p now.
Proof.
  unfold check_proposal, promotion_in_scope.
  rewrite then_ok, scope_verify_ok, guard_ok, orb_false, Z.ltb_ge, Z.leb_gt, then_ok, map_err_ok, guard_ok, orb_false,
    !negb_bool_decide_false, guard_ok, !orb_false, !negb_bool_decide_false, guard_ok, negb_bool_decide_false, guard_ok,
    nonempty_test, check_effects_ok. tauto.
Qed.

(** A receipt that is intact, echoes the request, names the pinned verifier,
    entails, and answers every hostile specimen as expected. *)
Definition receipt_ok (scope : DerivedPromotionScopeBodyV1) (request : DerivedVerifierRequestV1)
    (verifier : PinnedPromotionVerifierIdentityV1) (receipt : DerivedVerifierReceiptV1) : Prop :=
  let body := re_body receipt in
  digest_value VERIFIER_RECEIPT_DOMAIN body = Ok (re_digest receipt) /\
  rb_schema body = DERIVED_VERIFIER_RECEIPT_SCHEMA_V1 /\ request_digest request = Ok (rb_request body) /\
  rb_invocation_nonce body = vr_invocation_nonce request /\ rb_scope body = vr_scope request /\
  rb_proposal body = cp_digest (vr_canonical_proposal request) /\
  rb_catalog_identity body = vr_catalog_identity request /\ rb_judgment body = vr_judgment request /\
  rb_adapter_chain body = vr_adapter_chain request /\ rb_verifier body = verifier /\
  rb_verifier body = sb_verifier scope /\ rb_verifier_semantics body = vr_verifier_semantics request /\
  rb_hostile_specimen_catalog body = vr_hostile_specimen_catalog request /\
  (exists evidence, rb_proposal_judgment body = JudgedEntailed evidence) /\
  specimens_answered (sb_hostile_specimens scope) (rb_hostile_specimen_results body).

Lemma receipt_verify_digest_ok r :
  receipt_verify_digest r = Ok tt <-> digest_value VERIFIER_RECEIPT_DOMAIN (re_body r) = Ok (re_digest r).
Proof.
  unfold receipt_verify_digest. rewrite res_bind_ok. setoid_rewrite reject_if_ok.
  setoid_rewrite negb_bool_decide_false. split; [by intros (d & Hd & <-) | by eauto].
Qed.

Lemma entailed_outcome j : judgment_outcome j = Entailed <-> exists evidence, j = JudgedEntailed evidence.
Proof. destruct j; simpl; split; try done; [by eauto | by intros [? [=]] | by intros [? [=]]]. Qed.

Lemma validate_receipt_ok scope request verifier receipt : NoDup (map fst (sb_hostile_specimens scope)) ->
  validate_verifier_receipt scope request verifier receipt = Ok tt <-> receipt_ok scope request verifier receipt.
Proof.
  intros Hn. unfold validate_verifier_receipt, receipt_ok, receipt_mismatch.
  rewrite <- (specimens_accept _ _ Hn), then_ok, receipt_verify_digest_ok, res_bind_ok. split.
  - intros (Hd & q & Hq & Hr). rewrite !guard_ok, !orb_false, !negb_bool_decide_false, res_bind_ok, entailed_outcome in Hr.
    destruct Hr as (Hm & He & Hl & s & Hs & Hsz). destruct_and! Hm.
    apply reject_if_ok, negb_bool_decide_false in Hsz. subst q. split_all; try done. by exists s.
  - intros (Hd & ? & Hq & ? & ? & ? & ? & ? & ? & ? & ? & ? & ? & He & Hl & s & Hs & Hsz). split; [done|].
    exists (rb_request (re_body receipt)). split; [done|].
    rewrite !guard_ok, !orb_false, !negb_bool_decide_false, res_bind_ok, entailed_outcome. split_all; try done.
    exists s. split; [done|]. by apply reject_if_ok, negb_bool_decide_false.
Qed.

Lemma prepare_request_ok self p adapter nonce now identity request :
  prepare_request self p adapter nonce now identity = Ok request <->
  promotion_in_scope self p now /\ adapter_ok (sc_body (dv_scope self)) (cp_body p) adapter /\
  identity = sb_verifier (sc_body (dv_scope self)) /\
  exists chain catalog, PrincipalChainV1_id (E := DerivedAuthorityError) adapter = Ok chain /\
    hostile_specimen_catalog_digest (sc_body (dv_scope self)) = Ok catalog /\
    request = verifier_request self p nonce chain catalog.
Proof.
  unfold prepare_request. rewrite then_ok, check_proposal_ok, then_ok, validate_adapter_ok, guard_ok,
    negb_bool_decide_false, res_bind_ok.
  do 3 apply and_iff_compat_l. apply exist_proper. intros chain. rewrite res_bind_ok. split.
  - intros (Hc & cat & Hcat & [= <-]). by exists cat.
  - intros (cat & Hc & Hcat & ->). split; [done|]. by exists cat.
Qed.

(** C29. Derived authority is exact.  [validate_and_burn] yields an authorization if
    and only if the scope is intact, bounded and current; the proposal is intact,
    in the scope's context and catalog, and consists of promotions of admitted
    targets; the authenticated adapter is an admitted service, separated from the
    proposer; the verifier is the pinned one, before and after the call; its
    receipt is intact, echoes the request, entails, and answers each hostile
    specimen once and as expected; and the ledger commits the burn.  The evidence
    then names exactly these records. *)
Theorem derived_authorization_exact `{PinnedPromotionVerifier V, DerivedReceiptBurnStore B}
    self p adapter nonce now (v : V) (b : B) v' b' x :
  NoDup (map fst (sb_hostile_specimens (sc_body (dv_scope self)))) ->
  validate_and_burn self p adapter nonce now v b = (v', b', Ok x) <->
  exists chain catalog receipt burn_receipt,
    let request := verifier_request self p nonce chain catalog in
    promotion_in_scope self p now /\ adapter_ok (sc_body (dv_scope self)) (cp_body p) adapter /\
    verifier_identity v = sb_verifier (sc_body (dv_scope self)) /\
    PrincipalChainV1_id (E := DerivedAuthorityError) adapter = Ok chain /\
    hostile_specimen_catalog_digest (sc_body (dv_scope self)) = Ok catalog /\
    verifier_verify v request = (v', inr receipt) /\
    receipt_ok (sc_body (dv_scope self)) request (verifier_identity v') receipt /\
    burn_once b (dv_scope self) (burn_of self p request receipt) = (b', inr burn_receipt) /\
    x = mkValidated (evidence_of self p adapter request receipt burn_receipt).
Proof.
  intros Hn. unfold validate_and_burn. split.
  - destruct (prepare_request _ _ _ _ _ _) as [request| |] eqn:Hp; [|done..].
    apply prepare_request_ok in Hp as (Hs & Ha & Hi & chain & catalog & Hc & Hcat & ->).
    destruct (verifier_verify v _) as [w [f|receipt]] eqn:Hv; [done|].
    destruct (validate_verifier_receipt _ _ _ _) as [[]| |] eqn:Hr; [|done..].
    apply validate_receipt_ok in Hr; [|done].
    destruct (burn_once b _ _) as [b1 [e|d]] eqn:Hb; [done|]. intros [= <- <- <-].
    exists chain, catalog, receipt, d. by split_all.
  - intros (chain & catalog & receipt & d & Hs & Ha & Hi & Hc & Hcat & Hv & Hr & Hb & ->).
    assert (prepare_request self p adapter nonce now (verifier_identity v)
      = Ok (verifier_request self p nonce chain catalog)) as Hp.
    { apply prepare_request_ok. split_all; try done. by exists chain, catalog. }
    rewrite Hp, Hv. apply validate_receipt_ok in Hr; [|done]. by rewrite Hr, Hb.
Qed.

End Accepts.

(** ** Runs on one ledger *)

Definition ledger_wf (l : list DerivedReceiptBurnV1) : Prop :=
  NoDup (map bu_verifier_receipt l) /\ NoDup (map bu_proposal l) /\ NoDup (map bu_invocation_nonce l).

Record DerivedCall : Type := mkDerivedCall {
  ca_validator : DerivedPromotionValidatorV1;
  ca_proposal : CanonicalEffectProposalV1;
  ca_adapter : PrincipalChainV1;
  ca_nonce : Digest;
  ca_now : Z
}.

Section Runs.
  Context `{Deps} `{PinnedPromotionVerifier V, !DerivedReceiptBurnStore B}.

Definition derived_call (v : V) (b : B) (c : DerivedCall) : V * B * res DerivedAuthorityError ValidatedDerivedCodePromotionV1 :=
  validate_and_burn (ca_validator c) (ca_proposal c) (ca_adapter c) (ca_nonce c) (ca_now c) v b.

(** A sequence of calls, by any validators: the ledger it leaves and the
    evidence of the authorizations it granted. *)
Fixpoint derived_run (v : V) (b : B) (calls : list DerivedCall) : B * list DerivedAuthorizationEvidenceV1 :=
  match calls with
  | [] => (b, [])
  | c :: calls' =>
      match derived_call v b c with
      | (v1, b1, result) =>
          let (b2, granted) := derived_run v1 b1 calls' in
          (b2, match result with Ok x => vd_evidence x :: granted | _ => granted end)
      end
  end.

(** Without an answer of the ledger, the ledger is untouched. *)
Lemma call_without_burn v b c v' b' r :
  derived_call v b c = (v', b', r) -> (forall x, r <> Ok x) -> (forall e, r <> Err (Burn e)) -> b' = b.
Proof.
  unfold derived_call, validate_and_burn. intros Hc Hok Hb. repeat case_match; simplify_eq; try done.
  - exfalso. by eapply Hb.
  - exfalso. by eapply Hok.
Qed.

Context `{!BurnLaws B}.

(** What one call does to the committed burns. *)
Lemma call_commits v b c v' b' r :
  derived_call v b c = (v', b', r) ->
  committed b' = committed b /\ (forall x, r <> Ok x) \/
  exists burn, burn_admissible (dv_scope (ca_validator c)) (committed b) burn /\ committed b' = committed b ++ [burn] /\
    forall x, r = Ok x ->
      ae_proposal (vd_evidence x) = bu_proposal burn /\ ae_verifier_receipt (vd_evidence x) = bu_verifier_receipt burn /\
      ae_scope (vd_evidence x) = bu_scope burn.
Proof.
  unfold derived_call, validate_and_burn. intros Hc.
  destruct (prepare_request _ _ _ _ _ _) as [request| |]; [|simplify_eq; by left..].
  destruct (verifier_verify v request) as [w [f|receipt]]; [simplify_eq; by left|].
  destruct (validate_verifier_receipt _ _ _ _); [|simplify_eq; by left..].
  pose proof (burn_once_law b (dv_scope (ca_validator c)) (burn_of (ca_validator c) (ca_proposal c) request receipt)) as Hl.
  destruct (burn_once b _ _) as [b1 [e|d]]; simplify_eq.
  - destruct e; try (by left). destruct Hl as [Hl|[Ha Hl]]; [by left|]. right. by eexists.
  - destruct Hl as [Ha Hl]. right. eexists. split_all; [done | done |]. by intros x [= <-].
Qed.

Lemma admissible_wf s l burn : ledger_wf l -> burn_admissible s l burn -> ledger_wf (l ++ [burn]).
Proof.
  intros (Hr & Hp & Hn) (_ & _ & Hr' & Hp' & Hn' & _). unfold ledger_wf. rewrite !map_app. cbn [map].
  split_all; apply NoDup_app; (split_all; [done | | apply NoDup_singleton]);
    intros x Hx ->%list_elem_of_singleton; done.
Qed.

Lemma scope_uses_snoc d l burn :
  scope_uses d (l ++ [burn]) = scope_uses d l + (if bu_scope burn == d then 1 else 0).
Proof.
  unfold scope_uses. rewrite List.filter_app, length_app. simpl. by destruct (bu_scope burn == d).
Qed.

Definition granted_under (d : Digest) (l : list DerivedAuthorizationEvidenceV1) : nat :=
  length (List.filter (fun e => ae_scope e == d) l).

Lemma derived_run_accounts calls v b : ledger_wf (committed b) ->
  let (b', granted) := derived_run v b calls in
  exists new, committed b' = committed b ++ new /\ ledger_wf (committed b') /\
    (map ae_proposal granted `sublist_of` map bu_proposal new) /\
    (map ae_verifier_receipt granted `sublist_of` map bu_verifier_receipt new) /\
    (forall d, granted_under d granted <= scope_uses d new) /\
    (forall s, Forall (fun c => sc_digest (dv_scope (ca_validator c)) = sc_digest s -> dv_scope (ca_validator c) = s) calls ->
       (Z.of_nat (scope_uses (sc_digest s) (committed b)) <= sb_max_uses (sc_body s))%Z ->
       (Z.of_nat (scope_uses (sc_digest s) (committed b')) <= sb_max_uses (sc_body s))%Z).
Proof.
  revert v b. induction calls as [|c calls IH]; intros v b Hw; simpl.
  { exists []. rewrite app_nil_r. by split_all. }
  destruct (derived_call v b c) as [[v1 b1] r] eqn:Hc. apply call_commits in Hc.
  assert (ledger_wf (committed b1)) as Hw1.
  { destruct Hc as [[-> _]|(burn & Ha & -> & _)]; [done | by eapply admissible_wf]. }
  specialize (IH v1 b1 Hw1). destruct (derived_run v1 b1 calls) as [b2 granted].
  destruct IH as (new & Hb & Hw2 & Hp & Hr & Hs & Hm).
  destruct Hc as [[He Hno]|(burn & Ha & He & Hx)].
  - rewrite He in Hb. exists new. destruct r as [x| |]; [by destruct (Hno x)|..]; split_all; try done;
      intros s [_ Hf]%Forall_cons Hu; (apply Hm; [done|]); by rewrite He.
  - rewrite He, <- app_assoc in Hb. exists (burn :: new).
    assert (forall s, Forall (fun c => sc_digest (dv_scope (ca_validator c)) = sc_digest s -> dv_scope (ca_validator c) = s)
        (c :: calls) -> (Z.of_nat (scope_uses (sc_digest s) (committed b)) <= sb_max_uses (sc_body s))%Z ->
      (Z.of_nat (scope_uses (sc_digest s) (committed b2)) <= sb_max_uses (sc_body s))%Z) as Hmax.
    { intros s [Hs1 Hf]%Forall_cons Hu. apply Hm; [done|]. rewrite He, scope_uses_snoc.
      destruct Ha as (_ & Hbs & _ & _ & _ & Hlt). destruct (bool_decide_reflect (bu_scope burn = sc_digest s)) as [Hd|Hd];
        [|lia]. rewrite Hs1 in Hlt by congruence. lia. }
    assert (forall d, scope_uses d new <= scope_uses d (burn :: new)) as Hle
      by (intros d; unfold scope_uses; simpl; destruct (bu_scope burn == d); simpl; lia).
    destruct r as [x| |]; [destruct (Hx x eq_refl) as (Hx1 & Hx2 & Hx3)|..]; cbn [map]; split_all; try done.
    + rewrite Hx1. by constructor.
    + rewrite Hx2. by constructor.
    + intros d. specialize (Hs d). unfold granted_under, scope_uses in *. simpl. rewrite Hx3.
      destruct (bu_scope burn == d); simpl; lia.
    + by constructor.
    + by constructor.
    + intros d. etrans; [apply Hs | apply Hle].
    + by constructor.
    + by constructor.
    + intros d. etrans; [apply Hs | apply Hle].
Qed.

End Runs.

(** Refusals burn nothing.  Whatever check fails, in the scope, the proposal,
    the adapter, the verifier or its receipt, the ledger is as it was before: only
    the ledger's own answer can end a call that touched it. *)
Theorem derived_refusal_burns_nothing `{Deps} `{PinnedPromotionVerifier V, DerivedReceiptBurnStore B}
    self p adapter nonce now (v : V) (b : B) v' b' r :
  validate_and_burn self p adapter nonce now v b = (v', b', r) ->
  (forall x, r <> Ok x) -> (forall e, r <> Err (Burn e)) -> b' = b.
Proof. apply (call_without_burn v b (mkDerivedCall self p adapter nonce now)). Qed.

(** C30. One authorization per proposal, receipt and use.  On a ledger that keeps
    its contract, whatever calls are made by whatever validators, no two
    authorizations share a proposal or a verifier receipt, none repeats one
    committed before, and the authorizations under a scope never exceed the uses
    that its installer left. *)
Theorem derived_uses_bounded `{Deps} `{PinnedPromotionVerifier V, !DerivedReceiptBurnStore B, !BurnLaws B} calls (v : V) (b : B) s :
  ledger_wf (committed b) ->
  Forall (fun c => sc_digest (dv_scope (ca_validator c)) = sc_digest s -> dv_scope (ca_validator c) = s) calls ->
  (Z.of_nat (scope_uses (sc_digest s) (committed b)) <= sb_max_uses (sc_body s))%Z ->
  let (b', granted) := derived_run v b calls in
  NoDup (map ae_proposal granted) /\ NoDup (map ae_verifier_receipt granted) /\
  (forall e, e ∈ granted -> ~ ae_proposal e ∈ map bu_proposal (committed b)) /\
  (Z.of_nat (scope_uses (sc_digest s) (committed b) + granted_under (sc_digest s) granted) <= sb_max_uses (sc_body s))%Z.
Proof.
  intros Hw Hf Hu. pose proof (derived_run_accounts calls v b Hw) as Hr. destruct (derived_run v b calls) as [b' granted].
  destruct Hr as (new & Hb & (Hwr & Hwp & _) & Hp & Hr & Hs & Hm).
  rewrite Hb, !map_app in *. apply NoDup_app in Hwr as (_ & _ & Hnr), Hwp as (_ & Hdis & Hnp).
  split_all; [exact (sublist_NoDup _ _ Hnp Hp) | exact (sublist_NoDup _ _ Hnr Hr) | |].
  - intros e He Hin. apply (Hdis _ Hin). eapply elem_of_submseteq; [|by apply sublist_submseteq]. by apply elem_map.
  - specialize (Hm s Hf Hu). specialize (Hs (sc_digest s)). unfold scope_uses in *.
    rewrite List.filter_app, length_app in Hm. lia.
Qed.

(** ** A concrete ledger and verifier, for the witnesses *)

Module ToyDerived.
Record Ledger : Type := mkToyLedger { burned : list DerivedReceiptBurnV1 }.
Definition refusal (l : list DerivedReceiptBurnV1) (scope : DerivedPromotionScopeV1) (burn : DerivedReceiptBurnV1)
    : option DerivedReceiptBurnError :=
  if negb (is_ok (scope_verify scope)) || (bu_scope burn != sc_digest scope) then Some ScopeBindingMismatch
  else if bool_decide (bu_verifier_receipt burn ∈ map bu_verifier_receipt l) then Some ReceiptAlreadyUsed
  else if bool_decide (bu_proposal burn ∈ map bu_proposal l) then Some ProposalAlreadyUsed
  else if bool_decide (bu_invocation_nonce burn ∈ map bu_invocation_nonce l) then Some InvocationAlreadyUsed
  else if (sb_max_uses (sc_body scope) <=? Z.of_nat (scope_uses (sc_digest scope) l))%Z then Some ScopeExhausted
  else None.
#[global] Instance ledger_store : DerivedReceiptBurnStore Ledger := fun b scope burn =>
  match refusal (burned b) scope burn with
  | Some e => (b, inl e)
  | None => (mkToyLedger (burned b ++ [burn]), inr (hash_bytes (toy_encoding burn)))
  end.
#[global] Instance ledger_laws : BurnLaws Ledger.
Proof.
  exists burned. intros b scope burn. unfold burn_once, ledger_store.
  destruct (refusal (burned b) scope burn) as [e|] eqn:Hr; [by destruct e; auto|]. split; [|done].
  unfold refusal in Hr. repeat (case_match; [done|]). unfold burn_admissible.
  match goal with H : _ || _ = false |- _ => apply orb_false in H as [Hok Hs] end.
  repeat match goal with
         | H : bool_decide _ = false |- _ => apply bool_decide_eq_false in H
         | H : (_ <=? _)%Z = false |- _ => apply Z.leb_gt in H
         end.
  apply negb_false_iff in Hok. apply negb_bool_decide_false in Hs. split_all; try done.
  destruct (scope_verify scope) as [[]| |]; done.
Defined.

Definition identity : PinnedPromotionVerifierIdentityV1 :=
  mkVerifierIdentity (mkExecutable (toy_digest 20) 4096 None) (mkLaunchProfile (toy_digest 21) (toy_digest 22)).
Definition unwrap {A} (d : A) (m : res DerivedAuthorityError A) : A := match m with Ok a => a | _ => d end.
Definition answer (r : DerivedVerifierRequestV1) : DerivedVerifierReceiptBodyV1 :=
  mkReceiptBody DERIVED_VERIFIER_RECEIPT_SCHEMA_V1 (unwrap (toy_digest 0) (request_digest r)) (vr_invocation_nonce r)
    (vr_scope r) (cp_digest (vr_canonical_proposal r)) (vr_catalog_identity r) (vr_judgment r) (vr_adapter_chain r)
    identity (vr_verifier_semantics r) (vr_hostile_specimen_catalog r) (JudgedEntailed (toy_digest 23))
    [mkSpecimenResult (toy_digest 24) NotEntailed (toy_digest 25)].
#[global] Instance verifier : PinnedPromotionVerifier unit := {
  verifier_identity := fun _ => identity;
  verifier_verify := fun v r =>
    (v, inr (unwrap (mkVerifierReceipt (toy_digest 0) (answer r)) (DerivedVerifierReceiptV1_new (answer r))))
}.

Definition adapter : PrincipalChainV1 :=
  mkChain toy_domain (mkEpochId 7) [node_root (mkPrincipalId (toy_digest 30)) KService].
Definition scope_body : DerivedPromotionScopeBodyV1 :=
  mkScopeBody DERIVED_SCOPE_SCHEMA_V1 toy_domain (mkEpochId 7) (toy_digest 1) [toy_target] identity (toy_digest 26)
    [(toy_digest 24, ExpectNotEntailed)] [mkPrincipalId (toy_digest 30)] DistinctRootsNoSharedLineage 1000 9000 1.
Definition validator : DerivedPromotionValidatorV1 :=
  mkValidator (unwrap (mkScope (toy_digest 0) scope_body) (DerivedPromotionScopeV1_new scope_body)).
Definition intent : ProposalIntentV1 :=
  mkIntent EFFECT_SCHEMA_V1 "intent-1" toy_domain (mkEpochId 7) toy_proposer (toy_digest 9)
    [toy_digest 5] [IntentManagedPointerPromotion toy_target (toy_digest 5)].
Definition cut : EffectCompilationCutV1 :=
  mkCut 1500 [("repo-main", ObsManagedPointer toy_observation)] [("repo-main", toy_prepared)].
Definition proposal : CanonicalEffectProposalV1 :=
  match compile toy_compiler "proposal-1" intent toy_proposer (toy_digest 13) cut with Ok p => p | _ => toy_proposal end.
Definition call : DerivedCall := mkDerivedCall validator proposal adapter (toy_digest 31) 2000.
Definition after : Ledger := (derived_run tt (mkToyLedger []) [call]).1.
End ToyDerived.

Lemma toy_derived_granted :
  is_ok (validate_and_burn ToyDerived.validator ToyDerived.proposal ToyDerived.adapter (toy_digest 31) 2000 tt
    (ToyDerived.mkToyLedger [])).2 = true.
Proof. vm_compute. reflexivity. Qed.

Lemma toy_specimens_distinct : NoDup (map fst (sb_hostile_specimens (sc_body (dv_scope ToyDerived.validator)))).
Proof. apply (bool_decide_unpack _). vm_compute. exact I. Qed.

Lemma granted_split {V B} (o : V * B * res DerivedAuthorityError ValidatedDerivedCodePromotionV1) :
  is_ok o.2 = true -> exists v b x, o = (v, b, Ok x).
Proof. destruct o as [[v b] [x| |]]; [by eauto | done..]. Qed.

Lemma derived_authorization_exact_witness :
  promotion_in_scope ToyDerived.validator ToyDerived.proposal 2000.
Proof.
  destruct (granted_split _ toy_derived_granted) as (v' & b' & x & He).
  destruct (proj1 (derived_authorization_exact ToyDerived.validator ToyDerived.proposal ToyDerived.adapter (toy_digest 31)
    2000 tt (ToyDerived.mkToyLedger []) v' b' x toy_specimens_distinct) He) as (? & ? & ? & ? & Hs & _). exact Hs.
Defined.

Lemma toy_late_refused :
  validate_and_burn ToyDerived.validator ToyDerived.proposal ToyDerived.adapter (toy_digest 31) 9000 tt ToyDerived.after
  = (tt, ToyDerived.after, Err ScopeNotCurrentlyValid).
Proof. vm_compute. reflexivity. Qed.

Lemma derived_refusal_burns_nothing_witness : ToyDerived.after = ToyDerived.after.
Proof.
  apply (derived_refusal_burns_nothing ToyDerived.validator ToyDerived.proposal ToyDerived.adapter (toy_digest 31) 9000 tt
    ToyDerived.after tt ToyDerived.after (Err ScopeNotCurrentlyValid)); [exact toy_late_refused | discriminate | discriminate].
Defined.

Lemma toy_fresh_ledger : ledger_wf (committed (ToyDerived.mkToyLedger [])).
Proof. unfold ledger_wf. split_all; constructor. Qed.
Lemma toy_run_granted :
  length (derived_run tt (ToyDerived.mkToyLedger []) [ToyDerived.call; ToyDerived.call]).2 = 1.
Proof. vm_compute. reflexivity. Qed.

Lemma derived_uses_bounded_witness :
  exists e, (derived_run tt (ToyDerived.mkToyLedger []) [ToyDerived.call; ToyDerived.call]).2 = [e] /\
    (Z.of_nat (granted_under (sc_digest (dv_scope ToyDerived.validator)) [e]) <= 1)%Z.
Proof.
  pose proof (derived_uses_bounded [ToyDerived.call; ToyDerived.call] tt (ToyDerived.mkToyLedger [])
    (dv_scope ToyDerived.validator) toy_fresh_ledger) as Hb. pose proof toy_run_granted as Hg.
  destruct (derived_run tt _ _) as [b' granted]. cbn [snd] in *. destruct granted as [|e [|? ?]]; [discriminate Hg | | discriminate Hg].
  exists e. split; [reflexivity|]. destruct Hb as (_ & _ & _ & Hu).
  - repeat constructor.
  - vm_compute. discriminate.
  - exact Hu.
Defined.
