(* ===== verification/WorkerStore.v ===== *)
(** * Durable worker sessions (ag-app/src/worker_session.rs)

    The governor's coordinator: worker-session records and the immutable index
    from principals to sessions, kept as materialized states of the event store,
    with candidate and proof bytes in its blob directory.  An operation is a
    function of the store that returns the store it leaves and its result.  The
    serialized forms of the ag-session records are here too, since they are what
    the store holds.  [serde_json::from_slice] for the two stored types is a
    parameter. *)

From S2P Require Import Prelude Wire Fixture Digest Names Origin Capability Identity Store StoreBlob Session.

(** ** Serialized forms (ag-session/src/lib.rs) *)

Section Forms.
  Context `{Deps}.

#[global] Instance SecurityProfileV1_serialize : Serialize SecurityProfileV1 := fun p =>
  VString match p with Development => "development" | Production => "production" | HighAssurance => "high_assurance" end.
#[global] Instance IsolationEvidenceV1_serialize : Serialize IsolationEvidenceV1 := fun i =>
  VObject [("user_namespace", to_value (ise_user_namespace i)); ("mount_namespace", to_value (ise_mount_namespace i));
           ("pid_namespace", to_value (ise_pid_namespace i)); ("cgroup", to_value (ise_cgroup i));
           ("seccomp_profile", to_value (ise_seccomp_profile i)); ("landlock_ruleset", to_value (ise_landlock_ruleset i));
           ("network_namespace", to_value (ise_network_namespace i)); ("observed_uid", to_value (ise_observed_uid i));
           ("observed_gid", to_value (ise_observed_gid i)); ("observed_pid", to_value (ise_observed_pid i));
           ("observed_executable", to_value (ise_observed_executable i))].
#[global] Instance WorkerBindingV1_serialize : Serialize WorkerBindingV1 := fun w =>
  VObject [("principal", to_value (wb_principal w)); ("principal_chain", to_value (wb_principal_chain w));
           ("isolation", to_value (wb_isolation w))].
#[global] Instance DescriptorPurposeV1_serialize : Serialize DescriptorPurposeV1 := fun p =>
  VString match p with
          | SourceSnapshot => "source_snapshot" | ArtifactSink => "artifact_sink"
          | CandidateIngressCredential => "candidate_ingress_credential" | CandidateChallenge => "candidate_challenge"
          | CandidateSink => "candidate_sink" | ProviderRequest => "provider_request"
          | ProviderResponse => "provider_response" | StatusSink => "status_sink"
          end.
#[global] Instance DescriptorAccessV1_serialize : Serialize DescriptorAccessV1 := fun a =>
  VString match a with ReadOnly => "read_only" | WriteOnly => "write_only" end.
#[global] Instance AdmittedDescriptorV1_serialize : Serialize AdmittedDescriptorV1 := fun d =>
  VObject [("descriptor", to_value (ad_descriptor d)); ("purpose", to_value (ad_purpose d));
           ("access", to_value (ad_access d)); ("object_identity", to_value (ad_object_identity d))].
#[global] Instance SourceSnapshotV1_serialize : Serialize SourceSnapshotV1 := fun s =>
  VObject [("content", to_value (ss_content s)); ("format", to_value (ss_format s));
           ("source_object", to_value (ss_source_object s))].
#[global] Instance WorkspaceModeV1_serialize : Serialize WorkspaceModeV1 := fun m =>
  VString match m with
          | IndependentRepository => "independent_repository" | IndependentSnapshot => "independent_snapshot"
          end.
#[global] Instance BatchSessionSpecV1_serialize : Serialize BatchSessionSpecV1 := fun s =>
  VObject [("schema", to_value (sp_schema s)); ("session", to_value (sp_session s));
           ("authority_domain", to_value (sp_domain s)); ("epoch", to_value (sp_session_epoch s));
           ("security_profile", to_value (sp_security_profile s));
           ("reviewed_profile_id", to_value (sp_reviewed_profile_id s));
           ("candidate_ingress_key_identity", to_value (sp_candidate_ingress_key_identity s));
           ("worker", to_value (sp_worker s)); ("workspace_mode", to_value (sp_workspace_mode s));
           ("proposal_workspace_identity", to_value (sp_proposal_workspace_identity s));
           ("source", to_value (sp_source s)); ("admitted_descriptors", to_value (sp_admitted_descriptors s));
           ("provider_capability", to_value (sp_provider_capability s));
           ("deadline_unix_ms", to_value (sp_deadline_unix_ms s));
           ("output_budget_bytes", to_value (sp_output_budget_bytes s))].
#[global] Instance WorkerCandidateCustodyV1_serialize : Serialize WorkerCandidateCustodyV1 := fun c =>
  VObject [("content", to_value (wc_content c)); ("byte_length", to_value (wc_byte_length c));
           ("semantic_type", to_value (wc_semantic_type c)); ("workspace_delta", to_value (wc_workspace_delta c));
           ("ingress_proof", to_value (wc_ingress_proof c)); ("custody_record", to_value (wc_custody_record c))].
#[global] Instance WorkerCandidateBrokerOutcomeV1_serialize : Serialize WorkerCandidateBrokerOutcomeV1 := fun o =>
  match o with
  | Canonicalized p => VObject [("outcome", VString "canonicalized"); ("canonical_proposal", to_value p)]
  | BrokerRefused r => VObject [("outcome", VString "refused"); ("refusal", to_value r)]
  | BrokerIndeterminate e => VObject [("outcome", VString "indeterminate"); ("envelope", to_value e)]
  end.
#[global] Instance WorkerCandidateCustodyStateV1_serialize : Serialize WorkerCandidateCustodyStateV1 := fun s =>
  match s with
  | Awaiting => VObject [("state", VString "awaiting")]
  | InCustody c => VObject [("state", VString "in_custody"); ("candidate", to_value c)]
  | BrokerCompleted c o =>
      VObject [("state", VString "broker_completed"); ("candidate", to_value c); ("outcome", to_value o)]
  end.
#[global] Instance WorkerCandidateRefusalCodeV1_serialize : Serialize WorkerCandidateRefusalCodeV1 := fun c =>
  VString match c with
          | MalformedFrame => "malformed_frame" | AuthenticationFailed => "authentication_failed"
          | PrincipalBindingMismatch => "principal_binding_mismatch"
          | ReviewedProfileMismatch => "reviewed_profile_mismatch" | RefusalExpired => "expired"
          end.
#[global] Instance WorkerTerminationReasonV1_serialize : Serialize WorkerTerminationReasonV1 := fun r =>
  match r with
  | CandidateAccepted => VObject [("reason", VString "candidate_accepted")]
  | CandidateRefused c => VObject [("reason", VString "candidate_refused"); ("code", to_value c)]
  | LaunchFailed f => VObject [("reason", VString "launch_failed"); ("failure", to_value f)]
  | WorkerFailedReason f => VObject [("reason", VString "worker_failed"); ("failure", to_value f)]
  | DeadlineExpired => VObject [("reason", VString "deadline_expired")]
  | OutputBudgetExceeded n => VObject [("reason", VString "output_budget_exceeded"); ("observed_bytes", to_value n)]
  | Cancelled d => VObject [("reason", VString "cancelled"); ("reason_digest", to_value d)]
  | RestartRecovery => VObject [("reason", VString "restart_recovery")]
  | ReasonBoundaryIndeterminate e => VObject [("reason", VString "boundary_indeterminate"); ("envelope", to_value e)]
  end.
#[global] Instance WorkerPrincipalTombstoneV1_serialize : Serialize WorkerPrincipalTombstoneV1 := fun t =>
  VObject [("principal_id", to_value (tb_principal_id t)); ("session_id", to_value (tb_session_id t));
           ("session_nonce", to_value (tb_session_nonce t)); ("reason", to_value (tb_reason t));
           ("terminal_since_unix_ms", to_value (tb_terminal_since_unix_ms t))].
#[global] Instance WorkerCleanupStateV1_serialize : Serialize WorkerCleanupStateV1 := fun c =>
  match c with
  | CleanupPending => VObject [("state", VString "pending")]
  | CleanupComplete r t =>
      VObject [("state", VString "complete"); ("receipt", to_value r); ("completed_at_unix_ms", to_value t)]
  end.
#[global] Instance WorkerAuthorityStateV1_serialize : Serialize WorkerAuthorityStateV1 := fun a =>
  match a with
  | Prepared => VObject [("state", VString "prepared")]
  | Active r => VObject [("state", VString "active"); ("launch_receipt", to_value r)]
  | Tombstoned l t c =>
      VObject [("state", VString "tombstoned"); ("launch_receipt", to_value l); ("tombstone", to_value t);
               ("cleanup", to_value c)]
  end.
#[global] Instance WorkerSessionEventV1_serialize : Serialize WorkerSessionEventV1 := fun e =>
  match e with
  | Activate r => VObject [("event", VString "activate"); ("launch_receipt", to_value r)]
  | Tombstone t => VObject [("event", VString "tombstone"); ("tombstone", to_value t)]
  | AcceptCandidate c t =>
      VObject [("event", VString "accept_candidate"); ("candidate", to_value c); ("tombstone", to_value t)]
  | CompleteCleanup r t =>
      VObject [("event", VString "complete_cleanup"); ("receipt", to_value r); ("completed_at_unix_ms", to_value t)]
  | RecordBrokerOutcome o => VObject [("event", VString "record_broker_outcome"); ("outcome", to_value o)]
  end.
#[global] Instance WorkerSessionRecordV1_serialize : Serialize WorkerSessionRecordV1 := fun r =>
  VObject [("schema", to_value (wr_schema r)); ("spec", to_value (wr_spec r)); ("authority", to_value (wr_authority r));
           ("candidate", to_value (wr_candidate r))].

End Forms.

#[global] Instance SecurityProfileV1_eq_dec : EqDecision SecurityProfileV1.
Proof. solve_decision. Defined.
#[global] Instance WorkspaceModeV1_eq_dec : EqDecision WorkspaceModeV1.
Proof. solve_decision. Defined.
#[global] Instance IsolationEvidenceV1_eq_dec : EqDecision IsolationEvidenceV1.
Proof. solve_decision. Defined.
#[global] Instance WorkerBindingV1_eq_dec : EqDecision WorkerBindingV1.
Proof. solve_decision. Defined.
#[global] Instance AdmittedDescriptorV1_eq_dec : EqDecision AdmittedDescriptorV1.
Proof. solve_decision. Defined.
#[global] Instance SourceSnapshotV1_eq_dec : EqDecision SourceSnapshotV1.
Proof. solve_decision. Defined.
#[global] Instance BatchSessionSpecV1_eq_dec : EqDecision BatchSessionSpecV1.
Proof. solve_decision. Defined.
#[global] Instance WorkerPrincipalTombstoneV1_eq_dec : EqDecision WorkerPrincipalTombstoneV1.
Proof. solve_decision. Defined.

(** ** Data *)

Definition SESSION_ENTITY_PREFIX : string := "worker-session:".
Definition PRINCIPAL_ENTITY_PREFIX : string := "worker-principal:".
Definition PRINCIPAL_INDEX_SCHEMA_V1 : string := "ag.worker-principal-index/v1".
Definition RECOVERY_PAGE_SIZE : Z := 128.
Definition INGRESS_PROOF_STRUCTURAL_RESERVE_BYTES : Z := 131072.

Record WorkerPrincipalIndexV1 : Type := mkIndex {
  ix_schema : string;
  ix_principal_id : PrincipalId;
  ix_session_id : SessionId;
  ix_session_nonce : LifecycleNonce;
  ix_session_spec_digest : Digest
}.
#[global] Instance WorkerPrincipalIndexV1_eq_dec : EqDecision WorkerPrincipalIndexV1.
Proof. solve_decision. Defined.
#[global] Instance WorkerPrincipalIndexV1_serialize `{Deps} : Serialize WorkerPrincipalIndexV1 := fun i =>
  VObject [("schema", to_value (ix_schema i)); ("principal_id", to_value (ix_principal_id i));
           ("session_id", to_value (ix_session_id i)); ("session_nonce", to_value (ix_session_nonce i));
           ("session_spec_digest", to_value (ix_session_spec_digest i))].

Record LoadedWorkerSessionV1 : Type := mkLoaded {
  ld_entity_id : string;
  ld_revision : Z;
  ld_state_digest : StoreDigestV1;
  ld_record : WorkerSessionRecordV1
}.
Record WorkerStartupRecoveryReportV1 : Type := mkReport { rr_tombstoned : Z; rr_already_terminal : Z }.

Inductive WorkerSessionStoreError : Type :=
  | StoreFailure (e : StoreError)
  | SessionFailure (e : SessionError)
  | CanonicalizationFailure (e : JcsError)
  | ClockOutOfRange (value : Z)
  | SessionNotFound (session : SessionId)
  | PrincipalNotFound (principal : PrincipalId)
  | SessionEntityBindingMismatch
  | PrincipalIndexBindingMismatch
  | IncompletePreparePair
  | PrepareConflict
  | PrepareRequiresPristineRecord
  | ChangedRetry
  | StorePrincipalTombstoned
  | PrincipalNotTombstoned
  | CandidateNotInCustody
  | CandidateLengthOverflow
  | IngressProofEmpty
  | IngressProofLengthOverflow
  | IngressProofBudgetExceeded
  | IngressProofBudgetOverflow
  | RecoveryCountOverflow.

(** ** The store as a client sees it *)

Record StoreState : Type := mkStoreState { st_db : Database; st_files : ObjectDir }.

(** An operation on the store that may fail. *)
Definition W (A : Type) : Type := ST StoreState WorkerSessionStoreError A.
Definition read {A} (f : Database -> res WorkerSessionStoreError A) : W A := fun s => (s, f (st_db s)).

Definition session_entity (session : SessionId) : string := SESSION_ENTITY_PREFIX +:+ as_str session.
Definition principal_entity (principal : PrincipalId) : string :=
  PRINCIPAL_ENTITY_PREFIX +:+ digest_str (principal_digest principal).
Definition clock_i64 (value : Z) : res WorkerSessionStoreError Z :=
  reject_if (I64_MAX <? value)%Z (ClockOutOfRange value) ;? Ok value.
Definition maximum_ingress_proof_bytes (output_budget_bytes : Z) : res WorkerSessionStoreError Z :=
  ok_or IngressProofBudgetOverflow
    (encoded ← checked_mul_u64 ((output_budget_bytes + 2) / 3) 4;
     checked_add_u64 encoded INGRESS_PROOF_STRUCTURAL_RESERVE_BYTES).

(** [serde_json::from_slice] for the two stored types. *)
Class SessionDecoders := {
  decode_record : bytes -> string + WorkerSessionRecordV1;
  decode_index : bytes -> string + WorkerPrincipalIndexV1
}.

Section Operations.
  Context `{Deps, SessionDecoders}.

Definition event_id (kind : string) (material : Value) : res WorkerSessionStoreError string :=
  let? d := map_err CanonicalizationFailure (canonicalize (VArray [VString kind; material])) in
  Ok (kind +:+ ":" +:+ digest_str (jcs_digest d)).
Definition session_spec_digest (record : WorkerSessionRecordV1) : res WorkerSessionStoreError Digest :=
  map_err CanonicalizationFailure (from_serializable (wr_spec record)).

(** [principal.id()] of a record's worker. *)
Definition worker_id (record : WorkerSessionRecordV1) : res WorkerSessionStoreError PrincipalId :=
  PrincipalV1_id (WorkerSession (wb_principal (sp_worker (wr_spec record)))).
Definition worker_nonce (record : WorkerSessionRecordV1) : LifecycleNonce :=
  wp_session_nonce (wb_principal (sp_worker (wr_spec record))).

Definition principal_index (record : WorkerSessionRecordV1) : res WorkerSessionStoreError WorkerPrincipalIndexV1 :=
  let? id := worker_id record in
  let? digest := session_spec_digest record in
  Ok (mkIndex PRINCIPAL_INDEX_SCHEMA_V1 id (sp_session (wr_spec record)) (worker_nonce record) digest).

(** [validate_index]. *)
Definition validate_index (expected_principal : PrincipalId) (index : WorkerPrincipalIndexV1)
    (record : WorkerSessionRecordV1) : res WorkerSessionStoreError unit :=
  reject_if ((ix_schema index != PRINCIPAL_INDEX_SCHEMA_V1) || (ix_principal_id index != expected_principal))
    PrincipalIndexBindingMismatch ;?
  let? id := worker_id record in
  reject_if ((id != expected_principal) || (ix_session_id index != sp_session (wr_spec record))
             || (ix_session_nonce index != worker_nonce record)) PrincipalIndexBindingMismatch ;?
  let? digest := session_spec_digest record in
  reject_if (ix_session_spec_digest index != digest) PrincipalIndexBindingMismatch.

Definition validate_loaded_session (entity : string) (expected_session : SessionId)
    (loaded : MaterializedStateV1 WorkerSessionRecordV1) : res WorkerSessionStoreError LoadedWorkerSessionV1 :=
  map_err SessionFailure (record_validate (ms_state _ loaded)) ;?
  reject_if ((ms_entity_id _ loaded != entity) || (sp_session (wr_spec (ms_state _ loaded)) != expected_session)
             || (entity != session_entity expected_session)) SessionEntityBindingMismatch ;?
  Ok (mkLoaded (ms_entity_id _ loaded) (ms_revision _ loaded) (ms_state_digest _ loaded) (ms_state _ loaded)).

Definition load_session_optional (session : SessionId) (db : Database)
    : res WorkerSessionStoreError (option LoadedWorkerSessionV1) :=
  let entity := session_entity session in
  let? loaded := map_err StoreFailure (materialized_state decode_record db entity) in
  match loaded with
  | None => Ok None
  | Some loaded => let? l := validate_loaded_session entity session loaded in Ok (Some l)
  end.
Definition load_index_optional (principal : PrincipalId) (db : Database)
    : res WorkerSessionStoreError (option (MaterializedStateV1 WorkerPrincipalIndexV1)) :=
  let entity := principal_entity principal in
  let? loaded := map_err StoreFailure (materialized_state decode_index db entity) in
  reject_if (match loaded with
             | Some l => (ms_entity_id _ l != entity) || (ix_schema (ms_state _ l) != PRINCIPAL_INDEX_SCHEMA_V1)
                         || (ix_principal_id (ms_state _ l) != principal)
             | None => false
             end) PrincipalIndexBindingMismatch ;?
  Ok loaded.

(** The index lookup that [load_session] and [load_session_entity] share. *)
Definition check_index (loaded : LoadedWorkerSessionV1) (db : Database) : res WorkerSessionStoreError LoadedWorkerSessionV1 :=
  let? principal := worker_id (ld_record loaded) in
  let? index := load_index_optional principal db in
  let? index := ok_or IncompletePreparePair index in
  validate_index principal (ms_state _ index) (ld_record loaded) ;?
  Ok loaded.
Definition load_session (session : SessionId) (db : Database) : res WorkerSessionStoreError LoadedWorkerSessionV1 :=
  let? loaded := load_session_optional session db in
  let? loaded := ok_or (SessionNotFound session) loaded in
  check_index loaded db.
Definition load_session_entity (entity : string) (db : Database) : res WorkerSessionStoreError LoadedWorkerSessionV1 :=
  reject_if (negb (starts_with entity SESSION_ENTITY_PREFIX)) SessionEntityBindingMismatch ;?
  let? loaded := map_err StoreFailure (materialized_state decode_record db entity) in
  let? loaded := ok_or SessionEntityBindingMismatch loaded in
  let? loaded := validate_loaded_session entity (sp_session (wr_spec (ms_state _ loaded))) loaded in
  check_index loaded db.
Definition load_by_principal (principal : PrincipalId) (db : Database) : res WorkerSessionStoreError LoadedWorkerSessionV1 :=
  let? loaded_index := load_index_optional principal db in
  let? loaded_index := ok_or (PrincipalNotFound principal) loaded_index in
  let? session := load_session (ix_session_id (ms_state _ loaded_index)) db in
  validate_index principal (ms_state _ loaded_index) (ld_record session) ;?
  Ok session.

(** A method of the store, with its errors converted. *)
Definition store_call {A} (tx : Tx A) : W A := fun s =>
  let (db, r) := commit tx (st_db s) in (mkStoreState db (st_files s), map_err StoreFailure r).
Definition store_install (ready : res StoreError unit) (descriptor : BlobDescriptorV1) (b : bytes) (at_ms : Z)
    : W BlobInstallResult := fun s =>
  match install_blob ready descriptor [Chunk b] at_ms (st_db s) (st_files s) with
  | (db, files, r) => (mkStoreState db files, map_err StoreFailure r)
  end.

(** [WorkerSessionStoreV1::apply_event]. *)
Definition store_apply_event (loaded : LoadedWorkerSessionV1) (event : WorkerSessionEventV1) (event_kind : string)
    (occurred_at_unix_ms : Z) : W LoadedWorkerSessionV1 :=
  let! next := pure (map_err SessionFailure (record_apply (ld_record loaded) event)) in
  let! id := pure (event_id event_kind (VArray [to_value (sp_session (wr_spec (ld_record loaded))); to_value event])) in
  let! at_ms := pure (clock_i64 occurred_at_unix_ms) in
  store_call (append_event (mkNewEvent id (ld_entity_id loaded) event_kind at_ms event) next (ld_revision loaded)) ;!
  read (load_session (sp_session (wr_spec next))).

(** [WorkerSessionStoreV1::prepare]. *)
Definition prepare (record : WorkerSessionRecordV1) (occurred_at_unix_ms : Z) : W LoadedWorkerSessionV1 :=
  pure (map_err SessionFailure (record_validate record)) ;!
  pure (reject_if (match wr_authority record, wr_candidate record with Prepared, Awaiting => false | _, _ => true end)
          PrepareRequiresPristineRecord) ;!
  let! principal := pure (worker_id record) in
  let! index := pure (principal_index record) in
  let! existing_session := read (load_session_optional (sp_session (wr_spec record))) in
  let! existing_index := read (load_index_optional principal) in
  match existing_session, existing_index with
  | Some existing, Some stored_index =>
      pure (validate_index principal (ms_state _ stored_index) (ld_record existing)) ;!
      pure (reject_if ((wr_spec (ld_record existing) != wr_spec record) || (ms_state _ stored_index != index))
              PrepareConflict) ;!
      pure (Ok existing)
  | None, None =>
      let! at_ms := pure (clock_i64 occurred_at_unix_ms) in
      let! prepared_id := pure (event_id "worker-session-prepared" (to_value record)) in
      let! indexed_id := pure (event_id "worker-principal-indexed" (to_value index)) in
      store_call (append_distinct_event_pair
        (mkNewEvent prepared_id (session_entity (sp_session (wr_spec record))) "worker-session.prepared.v1" at_ms record)
        record 0
        (mkNewEvent indexed_id (principal_entity principal) "worker-principal.indexed.v1" at_ms index) index 0) ;!
      read (load_session (sp_session (wr_spec record)))
  | _, _ => pure (Err IncompletePreparePair)
  end.

(** [WorkerSessionStoreV1::activate]. *)
Definition activate (session : SessionId) (launch_receipt : Digest) (occurred_at_unix_ms : Z) : W LoadedWorkerSessionV1 :=
  let! loaded := read (load_session session) in
  match wr_authority (ld_record loaded) with
  | Active existing => if existing == launch_receipt then pure (Ok loaded) else pure (Err ChangedRetry)
  | Tombstoned _ _ _ => pure (Err StorePrincipalTombstoned)
  | Prepared =>
      store_apply_event loaded (Activate launch_receipt) "worker-session.activated.v1" occurred_at_unix_ms
  end.

Definition tombstone_for (loaded : LoadedWorkerSessionV1) (session : SessionId) (reason : WorkerTerminationReasonV1)
    (terminal_since_unix_ms : Z) : res WorkerSessionStoreError WorkerPrincipalTombstoneV1 :=
  let? id := worker_id (ld_record loaded) in
  Ok (mkTombstone id session (worker_nonce (ld_record loaded)) reason terminal_since_unix_ms).

(** [WorkerSessionStoreV1::accept_candidate]; [ready] is what the directory of each
    blob answers.  A length is a [usize], which a [u64] holds. *)
Definition accept_candidate (proof_ready candidate_ready : res StoreError unit) (context : WorkerIngressContextV1)
    (candidate_bytes ingress_proof_bytes : bytes) (semantic_type : string) (workspace_delta : option WorkspaceDeltaV1)
    : W LoadedWorkerSessionV1 :=
  let! loaded := read (load_by_principal (ic_principal_id context)) in
  pure (map_err SessionFailure (validate_active_ingress (ld_record loaded) context)) ;!
  pure (reject_if (match ingress_proof_bytes with [] => true | _ => false end) IngressProofEmpty) ;!
  let proof_byte_length := Z.of_nat (length ingress_proof_bytes) in
  let! maximum_proof_bytes := pure (maximum_ingress_proof_bytes (sp_output_budget_bytes (wr_spec (ld_record loaded)))) in
  pure (reject_if (maximum_proof_bytes <? proof_byte_length)%Z IngressProofBudgetExceeded) ;!
  let byte_length := Z.of_nat (length candidate_bytes) in
  pure (reject_if (sp_output_budget_bytes (wr_spec (ld_record loaded)) <? byte_length)%Z
          (SessionFailure CandidateBudgetExceeded)) ;!
  let ingress_proof_digest := hash_bytes ingress_proof_bytes in
  let candidate_digest := hash_bytes candidate_bytes in
  let! candidate := pure (map_err SessionFailure
    (WorkerCandidateCustodyV1_new candidate_digest byte_length semantic_type workspace_delta ingress_proof_digest)) in
  let! at_ms := pure (clock_i64 (ic_now_unix_ms context)) in
  store_install proof_ready (mkBlobDescriptor ingress_proof_digest proof_byte_length) ingress_proof_bytes at_ms ;!
  store_install candidate_ready (mkBlobDescriptor candidate_digest byte_length) candidate_bytes at_ms ;!
  let! tombstone := pure (tombstone_for loaded (sp_session (wr_spec (ld_record loaded))) CandidateAccepted
                            (ic_now_unix_ms context)) in
  store_apply_event loaded (AcceptCandidate candidate tombstone) "worker-session.candidate-accepted.v1"
    (ic_now_unix_ms context).

(** [WorkerSessionStoreV1::read_ingress_proof]. *)
Definition read_ingress_proof (session : SessionId) : W bytes := fun s =>
  (s, let? loaded := load_session session (st_db s) in
      let? candidate := ok_or CandidateNotInCustody (custody_of (wr_candidate (ld_record loaded))) in
      let? maximum_bytes := maximum_ingress_proof_bytes (sp_output_budget_bytes (wr_spec (ld_record loaded))) in
      map_err StoreFailure (read_blob (st_files s) (st_db s) (wc_ingress_proof candidate) maximum_bytes)).

(** [WorkerSessionStoreV1::tombstone]. *)
Definition tombstone (session : SessionId) (reason : WorkerTerminationReasonV1) (terminal_since_unix_ms : Z)
    : W LoadedWorkerSessionV1 :=
  let! loaded := read (load_session session) in
  let! t := pure (tombstone_for loaded session reason terminal_since_unix_ms) in
  match wr_authority (ld_record loaded) with
  | Tombstoned _ existing _ => if existing == t then pure (Ok loaded) else pure (Err ChangedRetry)
  | _ => store_apply_event loaded (Tombstone t) "worker-session.tombstoned.v1" terminal_since_unix_ms
  end.

(** [WorkerSessionStoreV1::complete_cleanup]. *)
Definition complete_cleanup (session : SessionId) (receipt : Digest) (completed_at_unix_ms : Z) : W LoadedWorkerSessionV1 :=
  let! loaded := read (load_session session) in
  match wr_authority (ld_record loaded) with
  | Tombstoned _ _ (CleanupComplete existing existing_time) =>
      if (existing == receipt) && (existing_time =? completed_at_unix_ms)%Z then pure (Ok loaded) else pure (Err ChangedRetry)
  | Tombstoned _ _ CleanupPending =>
      store_apply_event loaded (CompleteCleanup receipt completed_at_unix_ms) "worker-session.cleanup-completed.v1"
        completed_at_unix_ms
  | _ => pure (Err PrincipalNotTombstoned)
  end.

(** [WorkerSessionStoreV1::record_broker_outcome]. *)
Definition record_broker_outcome (session : SessionId) (outcome : WorkerCandidateBrokerOutcomeV1) (occurred_at_unix_ms : Z)
    : W LoadedWorkerSessionV1 :=
  let! loaded := read (load_session session) in
  match wr_candidate (ld_record loaded) with
  | BrokerCompleted _ existing => if existing == outcome then pure (Ok loaded) else pure (Err ChangedRetry)
  | InCustody _ =>
      store_apply_event loaded (RecordBrokerOutcome outcome) "worker-session.broker-outcome-recorded.v1"
        occurred_at_unix_ms
  | Awaiting => pure (Err CandidateNotInCustody)
  end.

(** The body of the inner loop of [recover_startup]: one entity, counted. *)
Definition recover_entity (terminal_since_unix_ms : Z) (report : WorkerStartupRecoveryReportV1) (entity : string)
    : W WorkerStartupRecoveryReportV1 :=
  let! loaded := read (load_session_entity entity) in
  match wr_authority (ld_record loaded) with
  | Prepared | Active _ =>
      tombstone (sp_session (wr_spec (ld_record loaded))) RestartRecovery terminal_since_unix_ms ;!
      pure (let? n := ok_or RecoveryCountOverflow (checked_add_u64 (rr_tombstoned report) 1) in
            Ok (mkReport n (rr_already_terminal report)))
  | Tombstoned _ _ _ =>
      pure (let? n := ok_or RecoveryCountOverflow (checked_add_u64 (rr_already_terminal report) 1) in
            Ok (mkReport (rr_tombstoned report) n))
  end.

(** The inner loop, over the entities of a page. *)
Fixpoint recover_entities (terminal_since_unix_ms : Z) (report : WorkerStartupRecoveryReportV1) (entities : list string)
    : W WorkerStartupRecoveryReportV1 :=
  match entities with
  | [] => pure (Ok report)
  | entity :: rest =>
      let! report := recover_entity terminal_since_unix_ms report entity in
      recover_entities terminal_since_unix_ms report rest
  end.

(** The loop of [recover_startup]; [None] when the fuel runs out. *)
Fixpoint recover_pages (fuel : nat) (terminal_since_unix_ms : Z) (cursor : option string)
    (report : WorkerStartupRecoveryReportV1) (s : StoreState)
    : option (StoreState * res WorkerSessionStoreError WorkerStartupRecoveryReportV1) :=
  match fuel with
  | O => None
  | S fuel' =>
      match map_err StoreFailure (entity_ids_after (st_db s) SESSION_ENTITY_PREFIX cursor RECOVERY_PAGE_SIZE) with
      | Err e => Some (s, Err e)
      | Panic => Some (s, Panic)
      | Ok [] => Some (s, Ok report)
      | Ok entities =>
          match recover_entities terminal_since_unix_ms report entities s with
          | (s', Ok report') => recover_pages fuel' terminal_since_unix_ms (last entities) report' s'
          | failed => Some failed
          end
      end
  end.
(** [WorkerSessionStoreV1::recover_startup]. *)
Definition recover_startup (fuel : nat) (terminal_since_unix_ms : Z) (s : StoreState)
    : option (StoreState * res WorkerSessionStoreError WorkerStartupRecoveryReportV1) :=
  recover_pages fuel terminal_since_unix_ms None (mkReport 0 0) s.

End Operations.
