(* ===== verification/WorkerSpec.v ===== *)
(** * Durable worker sessions refine worker records (ag-app/src/worker_session.rs)

    The store's view of a session is the record that [load_session] returns for
    it.  Every call of the coordinator moves at most one session, by one event of
    [WorkerSessionRecordV1::apply], and leaves the view alone when it fails; what
    [Session] proves of a record therefore holds of the durable sessions, and
    startup recovery fences every one of them. *)

From S2P Require Import Prelude Wire Fixture Digest Names Origin Capability Identity Store StoreLog StoreSpec StoreBlob Session WorkerStore.

(** ** What an append does to reads *)

Section Reads.
  Context `{JcsLaws, !HexLaws, !Sha256Laws}.

(** After an append the entity reads as the bytes just written, every other one
    as before. *)
Lemma append_reads `{Serialize P, Serialize A} (event : NewEventV1 P) (state : A) expected db db' receipt :
  append_event_in_transaction event state expected db = Ok (db', receipt) ->
  exists b sequence ed, jcs state = Ok b /\
  forall T (decode : bytes -> string + T) e, materialized_state decode db' e =
    if ne_entity_id event == e
    then match decode b with
         | inl m => Err (InvalidStoredJson m)
         | inr x => Ok (Some (mkMaterialized e (expected + 1) x (hash_domain STATE_DOMAIN b) sequence ed))
         end
    else materialized_state decode db e.
Proof.
  unfold append_event_in_transaction. intros Hr. apply then_ok in Hr as [_ Hr]. apply guard_ok in Hr as [_ Hr].
  apply res_bind_ok in Hr as (head & Hh & Hr). apply res_bind_ok in Hr as (rev & Hrev & Hr).
  apply guard_ok in Hr as [Heq%negb_false_iff%Z.eqb_eq Hr]. subst expected.
  apply res_bind_ok in Hr as (rev' & Hrev'%ok_or_ok & Hr). apply res_bind_ok in Hr as (seq & Hseq%ok_or_ok & Hr).
  apply checked_add_u64_Some in Hrev' as [-> Hrb], Hseq as [-> Hsb].
  apply res_bind_ok in Hr as (pj & _ & Hr). apply res_bind_ok in Hr as (sj & Hsj & Hr).
  apply res_bind_ok in Hr as (ed & Hed & Hr). apply res_bind_ok in Hr as (seq & Hseq & Hr).
  apply res_bind_ok in Hr as ([db1 []] & Hins & Hr). apply res_bind_ok in Hr as (rv & Hrv & Hr).
  apply res_bind_ok in Hr as ([db2 []] & Hups & Hr). apply res_bind_ok in Hr as (? & _ & Hr).
  apply res_bind_ok in Hr as ([db3 changed] & Hcas & Hr). apply guard_ok in Hr as [_ [= <- _]].
  unfold event_digest_for, digest_jcs in Hed. apply res_bind_ok in Hed as (b & _ & [= <-]).
  unfold to_i64 in Hseq, Hrv. apply guard_ok in Hseq as [_ [= <-]]. apply guard_ok in Hrv as [_ [= <-]].
  unfold insert_event in Hins. apply guard_ok in Hins as [_ [= <-]].
  unfold upsert_state in Hups. apply guard_ok in Hups as [_ [= <-]].
  assert (db_states db3 = upsert_row (mkStateRow (ne_entity_id event) (rev + 1) sj
            (digest_str (hash_domain STATE_DOMAIN sj)) (ch_sequence head + 1)
            (digest_str (hash_domain EVENT_DOMAIN b))) (db_states db)) as Hst.
  { unfold update_chain_head in Hcas. destruct (db_chain_head _); [|by injection Hcas as <- _].
    destruct (_ && _); [apply guard_ok in Hcas as [_ [= <- _]] | injection Hcas as <- _]; done. }
  assert (0 <= rev)%Z as Hrev0 by (unfold materialized_revision, to_u64 in Hrev; by apply guard_ok in Hrev as [?%Z.ltb_ge [= <-]]).
  assert (0 <= ch_sequence head)%Z as Hseq0.
  { unfold chain_head in Hh. apply res_bind_ok in Hh as (? & _ & Hh). apply res_bind_ok in Hh as (? & Hu & Hh).
    apply res_bind_ok in Hh as (? & _ & [= <-]). unfold to_u64 in Hu. by apply guard_ok in Hu as [?%Z.ltb_ge [= <-]]. }
  exists sj, (ch_sequence head + 1)%Z, (hash_domain EVENT_DOMAIN b). split; [done|]. intros T decode e.
  unfold materialized_state. rewrite Hst, find_state_upsert. cbn [st_entity_id].
  destruct (ne_entity_id event == e); [|done].
  cbn [st_state_jcs st_revision st_state_digest st_last_event_sequence st_last_event_digest].
  destruct (decode sj); [done|]. cbn [res_bind]. rewrite to_u64_nonneg by lia. cbn [res_bind].
  rewrite store_digest_hash. cbn [res_bind]. rewrite to_u64_nonneg by lia. cbn [res_bind]. by rewrite store_digest_hash.
Qed.

Lemma install_keeps_states ready d reader at_ db files db' files' r :
  install_blob ready d reader at_ db files = (db', files', r) -> db_states db' = db_states db.
Proof.
  unfold install_blob. destruct (catalog_size _ _); [by intros [= <- _ _]|].
  destruct (active_backup_cut db); [by intros [= <- _ _]|].
  destruct (res_bind _ _) as [files1| |]; [|by intros [= <- _ _]..].
  unfold commit. destruct (catalog_blob d at_ db) as [[db1 []]| |] eqn:Hc; [|by intros [= <- _ _]..].
  intros [= <- _ _]. unfold catalog_blob in Hc. apply then_ok in Hc as [_ Hc].
  apply res_bind_ok in Hc as (? & _ & Hc). apply res_bind_ok in Hc as ([db2 []] & Hi & Hc).
  apply res_bind_ok in Hc as (? & _ & Hc). apply res_bind_ok in Hc as (? & _ & Hc). apply guard_ok in Hc as [_ [= <-]].
  unfold insert_blob in Hi. destruct (_ || _); by injection Hi as <-.
Qed.

End Reads.

(** ** Views of sessions *)

Section Views.
  Context `{JcsLaws, !HexLaws, !Sha256Laws, SessionDecoders}.

(** The record that the store holds for a session. *)
Definition session_view (db : Database) (session : SessionId) : option WorkerSessionRecordV1 :=
  match load_session session db with Ok l => Some (ld_record l) | _ => None end.

(** serde reads back what it wrote. *)
Definition stored_exactly (r : WorkerSessionRecordV1) : Prop := forall b, jcs r = Ok b -> decode_record b = inr r.
Definition indexed_exactly (i : WorkerPrincipalIndexV1) : Prop := forall b, jcs i = Ok b -> decode_index b = inr i.

Lemma session_entity_inj s s' : session_entity s = session_entity s' -> s = s'.
Proof. unfold session_entity. intros Hs. destruct s, s'. cbn in Hs. by simplify_eq. Qed.
Lemma principal_entity_inj p p' : principal_entity p = principal_entity p' -> p = p'.
Proof. unfold principal_entity. intros Hp. destruct p as [[]], p' as [[]]. cbn in Hp. by simplify_eq. Qed.
Lemma entities_disjoint s p : session_entity s <> principal_entity p.
Proof. unfold session_entity, principal_entity. intros He. cbn in He. simplify_eq. Qed.

Lemma check_index_same l db l' : check_index l db = Ok l' -> l' = l.
Proof.
  unfold check_index. intros Hc. apply res_bind_ok in Hc as (? & _ & Hc). apply res_bind_ok in Hc as (? & _ & Hc).
  apply res_bind_ok in Hc as (? & _ & Hc). by apply then_ok in Hc as [_ [= <-]].
Qed.

Lemma load_session_iff session db l :
  load_session session db = Ok l <-> load_session_optional session db = Ok (Some l) /\ check_index l db = Ok l.
Proof.
  unfold load_session. rewrite res_bind_ok. split.
  - intros (o & Ho & Hc). apply res_bind_ok in Hc as (l0 & ->%ok_or_ok & Hc).
    by pose proof (check_index_same _ _ _ Hc) as <-.
  - intros [Ho Hc]. exists (Some l). by split.
Qed.

Lemma load_optional_some session db l :
  load_session_optional session db = Ok (Some l) ->
  ld_entity_id l = session_entity session /\ sp_session (wr_spec (ld_record l)) = session /\
  record_validate (ld_record l) = Ok tt.
Proof.
  unfold load_session_optional. intros Hl. apply res_bind_ok in Hl as ([m|] & _ & Hl); [|done].
  apply res_bind_ok in Hl as (l0 & Hv & [= ->]). unfold validate_loaded_session in Hv.
  apply then_ok in Hv as [Hr%map_err_ok Hv]. apply guard_ok in Hv as [Hg [= <-]]. guards_in Hg. cbn. naive_solver.
Qed.

(** Checking an index looks at the specification only. *)
Lemma check_index_spec_only l l' db :
  wr_spec (ld_record l) = wr_spec (ld_record l') -> check_index l db = Ok l -> check_index l' db = Ok l'.
Proof.
  intros Hs. assert (worker_id (ld_record l) = worker_id (ld_record l')) as Hw by (unfold worker_id; by rewrite Hs).
  assert (forall p i, validate_index p i (ld_record l) = validate_index p i (ld_record l')) as Hvi.
  { intros p i. unfold validate_index, worker_id, session_spec_digest, worker_nonce. by rewrite Hs. }
  unfold check_index. rewrite Hw. intros Hc. apply res_bind_ok in Hc as (p & -> & Hc). cbn [res_bind].
  apply res_bind_ok in Hc as (i & -> & Hc). cbn [res_bind]. apply res_bind_ok in Hc as (i' & -> & Hc). cbn [res_bind].
  rewrite Hvi in Hc. by apply then_ok in Hc as [-> _].
Qed.

(** Two databases that read alike are alike to the coordinator. *)
Lemma index_reads_alike db db' principal :
  materialized_state decode_index db' (principal_entity principal)
    = materialized_state decode_index db (principal_entity principal) ->
  load_index_optional principal db' = load_index_optional principal db.
Proof. unfold load_index_optional. by intros ->. Qed.
Lemma check_index_alike db db' l :
  (forall p, materialized_state decode_index db' (principal_entity p) = materialized_state decode_index db (principal_entity p)) ->
  check_index l db' = check_index l db.
Proof.
  intros Hi. unfold check_index. destruct (worker_id (ld_record l)) as [p| |]; [|done..]. cbn [res_bind].
  by rewrite (index_reads_alike db db').
Qed.
Lemma load_session_alike db db' session :
  materialized_state decode_record db' (session_entity session) = materialized_state decode_record db (session_entity session) ->
  (forall p, materialized_state decode_index db' (principal_entity p) = materialized_state decode_index db (principal_entity p)) ->
  load_session session db' = load_session session db.
Proof.
  intros Hr Hi. unfold load_session.
  assert (load_session_optional session db' = load_session_optional session db) as ->
    by (unfold load_session_optional; by rewrite Hr).
  destruct (load_session_optional session db) as [[l|]| |]; [|done..]. cbn [res_bind ok_or]. by apply check_index_alike.
Qed.
Lemma same_states_alike db db' session : db_states db' = db_states db -> load_session session db' = load_session session db.
Proof. intros Hs. apply load_session_alike; [|intros p]; unfold materialized_state; by rewrite Hs. Qed.

(** One event, appended: the session reads as the next record, the others as
    before. *)
Lemma applied_views loaded session db e next `{Serialize P} (event : NewEventV1 P) db' receipt :
  load_session session db = Ok loaded -> record_apply (ld_record loaded) e = Ok next -> stored_exactly next ->
  ne_entity_id event = ld_entity_id loaded ->
  append_event event next (ld_revision loaded) db = Ok (db', receipt) ->
  (exists digest, load_session session db' = Ok (mkLoaded (session_entity session) (ld_revision loaded + 1) digest next)) /\
  forall x, x <> session -> load_session x db' = load_session x db.
Proof.
  intros [Ho Hc]%load_session_iff Ha Hx He Happ. destruct (load_optional_some _ _ _ Ho) as (Hent & Hs & _).
  apply record_apply_ok in Ha as [Ha Hv]. apply apply_event_spec_kept in Ha as [Hspec _].
  unfold append_event in Happ. apply then_ok in Happ as [_ Happ]. apply then_ok in Happ as [_ Happ].
  apply append_reads in Happ as (b & sequence & ed & Hb & Hreads). rewrite He, Hent in Hreads.
  assert (forall p, materialized_state decode_index db' (principal_entity p) = materialized_state decode_index db (principal_entity p)) as Hi.
  { intros p. rewrite Hreads, bool_decide_eq_false_2; [done | apply entities_disjoint]. }
  split.
  - exists (hash_domain STATE_DOMAIN b). apply load_session_iff. split.
    + unfold load_session_optional. rewrite Hreads, bool_decide_eq_true_2 by done. rewrite (Hx b Hb).
      cbn [map_err res_bind]. unfold validate_loaded_session. cbn [ms_state ms_entity_id ms_revision ms_state_digest].
      rewrite Hv. cbn [map_err res_bind]. rewrite Hspec, Hs, !bool_decide_eq_true_2 by done. done.
    + rewrite (check_index_alike db db') by done. by apply (check_index_spec_only loaded).
  - intros x Hne. apply load_session_alike; [|done]. rewrite Hreads, bool_decide_eq_false_2; [done|].
    intros <-%session_entity_inj. done.
Qed.

End Views.

(** ** Calls *)

Inductive WorkerCall : Type :=
  | CallPrepare (record : WorkerSessionRecordV1) (at_ms : Z)
  | CallActivate (session : SessionId) (launch_receipt : Digest) (at_ms : Z)
  | CallAccept (proof_ready candidate_ready : res StoreError unit) (context : WorkerIngressContextV1)
      (candidate proof : bytes) (semantic_type : string) (delta : option WorkspaceDeltaV1)
  | CallTombstone (session : SessionId) (reason : WorkerTerminationReasonV1) (at_ms : Z)
  | CallCleanup (session : SessionId) (receipt : Digest) (at_ms : Z)
  | CallOutcome (session : SessionId) (outcome : WorkerCandidateBrokerOutcomeV1) (at_ms : Z).

Section Calls.
  Context `{JcsLaws, !HexLaws, !Sha256Laws, SessionDecoders}.

Definition worker_call (c : WorkerCall) : W LoadedWorkerSessionV1 :=
  match c with
  | CallPrepare record at_ms => prepare record at_ms
  | CallActivate session receipt at_ms => activate session receipt at_ms
  | CallAccept pr cr context candidate proof ty delta => accept_candidate pr cr context candidate proof ty delta
  | CallTombstone session reason at_ms => tombstone session reason at_ms
  | CallCleanup session receipt at_ms => complete_cleanup session receipt at_ms
  | CallOutcome session outcome at_ms => record_broker_outcome session outcome at_ms
  end.

Definition tombstone_of (r : WorkerSessionRecordV1) (reason : WorkerTerminationReasonV1) (at_ms : Z)
    (t : WorkerPrincipalTombstoneV1) : Prop :=
  exists id, worker_id r = Ok id /\ t = mkTombstone id (sp_session (wr_spec r)) (worker_nonce r) reason at_ms.

(** The event that a call makes of a session's record. *)
Definition call_event (c : WorkerCall) (r : WorkerSessionRecordV1) (e : WorkerSessionEventV1) : Prop :=
  match c with
  | CallPrepare _ _ => False
  | CallActivate session receipt _ => sp_session (wr_spec r) = session /\ e = Activate receipt
  | CallAccept _ _ context candidate proof ty delta =>
      validate_active_ingress r context = Ok tt /\ proof <> [] /\
      exists custody t, e = AcceptCandidate custody t /\ tombstone_of r CandidateAccepted (ic_now_unix_ms context) t /\
        WorkerCandidateCustodyV1_new (hash_bytes candidate) (Z.of_nat (length candidate)) ty delta (hash_bytes proof)
          = Ok custody
  | CallTombstone session reason at_ms =>
      sp_session (wr_spec r) = session /\ exists t, e = Tombstone t /\ tombstone_of r reason at_ms t
  | CallCleanup session receipt at_ms => sp_session (wr_spec r) = session /\ e = CompleteCleanup receipt at_ms
  | CallOutcome session outcome _ => sp_session (wr_spec r) = session /\ e = RecordBrokerOutcome outcome
  end.

(** The abstract step: a session appears pristine, or moves by one event. *)
Definition advances (c : WorkerCall) (before : option WorkerSessionRecordV1) (next : WorkerSessionRecordV1) : Prop :=
  match c with
  | CallPrepare record _ =>
      before = None /\ next = record /\ record_validate record = Ok tt /\
      wr_authority record = Prepared /\ wr_candidate record = Awaiting
  | _ => exists r e, before = Some r /\ call_event c r e /\ record_apply r e = Ok next
  end.

(** serde reads back the records that the call may write. *)
Definition exact_call (c : WorkerCall) (s : StoreState) : Prop :=
  match c with
  | CallPrepare record _ =>
      stored_exactly record /\ forall index, principal_index record = Ok index -> indexed_exactly index
  | _ => forall session next, advances c (session_view (st_db s) session) next -> stored_exactly next
  end.

Definition unmoved (s s' : StoreState) : Prop := forall x, load_session x (st_db s') = load_session x (st_db s).
(** Session [session] now reads [next], and every other session as before. *)
Definition moved (s s' : StoreState) (session : SessionId) (l : LoadedWorkerSessionV1) : Prop :=
  load_session session (st_db s') = Ok l /\
  forall x, x <> session -> session_view (st_db s') x = session_view (st_db s) x.

(** What [apply_event] of the coordinator does. *)
Lemma store_apply_event_spec loaded session e kind at_ms s s' result :
  load_session session (st_db s) = Ok loaded ->
  (forall next, record_apply (ld_record loaded) e = Ok next -> stored_exactly next) ->
  store_apply_event loaded e kind at_ms s = (s', result) ->
  s' = s /\ (forall l, result <> Ok l) \/
  exists l, record_apply (ld_record loaded) e = Ok (ld_record l) /\ result = Ok l /\ moved s s' session l /\
    ld_revision l = (ld_revision loaded + 1)%Z.
Proof.
  intros Hl Hx. unfold store_apply_event. rewrite !st_bind_run. unfold pure.
  destruct (record_apply (ld_record loaded) e) as [next| |] eqn:Ha; cbn [map_err];
    [|intros [= <- <-]; by left..].
  rewrite !st_bind_run. destruct (event_id _ _) as [id| |]; [|intros [= <- <-]; by left..].
  rewrite !st_bind_run. destruct (clock_i64 at_ms) as [at_| |]; [|intros [= <- <-]; by left..].
  rewrite st_bind_run. unfold store_call, commit.
  destruct (append_event _ next _ (st_db s)) as [[db' receipt]| |] eqn:Happ; cbn [map_err];
    [|destruct s; intros [= <- <-]; by left..].
  pose proof Happ as Hv. apply (applied_views loaded session (st_db s) e next) in Hv as [[digest Hd] Ho];
    [|done..|by apply Hx | done].
  assert (sp_session (wr_spec next) = session) as ->.
  { apply load_session_iff in Hd as [(_ & ? & _)%load_optional_some _]. done. }
  unfold read. cbn [st_db]. rewrite Hd. intros [= <- <-]. right. eexists. split_all; [|done| |]; [done| |done].
  split; [done|]. intros x Hne. cbn [st_db]. unfold session_view. by rewrite Ho.
Qed.

(** A call that succeeds answers with the session as it now is, and has moved it
    by its own event or not at all; a call that fails has moved nothing. *)
Definition refined (c : WorkerCall) (s s' : StoreState) (result : res WorkerSessionStoreError LoadedWorkerSessionV1) : Prop :=
  match result with
  | Ok l =>
      let session := sp_session (wr_spec (ld_record l)) in
      session_view (st_db s') session = Some (ld_record l) /\
      (forall x, x <> session -> session_view (st_db s') x = session_view (st_db s) x) /\
      (session_view (st_db s) session = Some (ld_record l) \/
       advances c (session_view (st_db s) session) (ld_record l))
  | _ => forall x, session_view (st_db s') x = session_view (st_db s) x
  end.

Lemma view_loaded session db l : load_session session db = Ok l -> session_view db session = Some (ld_record l).
Proof. unfold session_view. by intros ->. Qed.
Lemma loaded_session session db l : load_session session db = Ok l -> sp_session (wr_spec (ld_record l)) = session.
Proof. by intros [(_ & ? & _)%load_optional_some _]%load_session_iff. Qed.
Lemma loaded_valid session db l : load_session session db = Ok l -> record_validate (ld_record l) = Ok tt.
Proof. by intros [(_ & _ & ?)%load_optional_some _]%load_session_iff. Qed.

Lemma refined_failure c s result : (forall l, result <> Ok l) -> refined c s s result.
Proof. intros Hr. unfold refined. destruct result; [by edestruct Hr | done..]. Qed.
Lemma refined_retry c s session l : load_session session (st_db s) = Ok l -> refined c s s (Ok l).
Proof.
  intros Hl. unfold refined. rewrite (loaded_session _ _ _ Hl), (view_loaded _ _ _ Hl). by split_all; [..|left].
Qed.
Lemma refined_moved c s s' session l :
  moved s s' session l -> advances c (session_view (st_db s) session) (ld_record l) -> refined c s s' (Ok l).
Proof.
  intros [Hl Ho] Ha. unfold refined. rewrite (loaded_session _ _ _ Hl). split_all; [by apply view_loaded | done | by right].
Qed.
Lemma refined_unmoved c s s1 s' result :
  (forall x, load_session x (st_db s1) = load_session x (st_db s)) -> refined c s1 s' result -> refined c s s' result.
Proof.
  intros Hu. assert (forall x, session_view (st_db s1) x = session_view (st_db s) x) as Hv.
  { intros x. unfold session_view. by rewrite Hu. }
  unfold refined. destruct result; [|intros Hr x; by rewrite Hr, Hv..].
  intros (Hs & Ho & Ha). rewrite <- Hv. split_all; [done | |done]. intros x Hx. rewrite Ho, Hv; done.
Qed.

(** An event call on a loaded session. *)
Lemma apply_refines c s loaded session e kind at_ms s' result :
  match c with CallPrepare _ _ => False | _ => True end -> exact_call c s ->
  load_session session (st_db s) = Ok loaded -> call_event c (ld_record loaded) e ->
  store_apply_event loaded e kind at_ms s = (s', result) -> refined c s s' result.
Proof.
  intros Hc Hx Hl He Hr.
  assert (forall next, record_apply (ld_record loaded) e = Ok next -> advances c (session_view (st_db s) session) next) as Ha.
  { intros next Hn. rewrite (view_loaded _ _ _ Hl). destruct c; [done|..]; by exists (ld_record loaded), e. }
  apply (store_apply_event_spec loaded session) in Hr as [[-> Hr]|(l & Hl' & -> & Hm & _)];
    [by apply refined_failure | by eapply refined_moved; [|apply Ha] | done |].
  intros next Hn. destruct c; [done|..]; by apply (Hx session), Ha.
Qed.

Lemma activate_refines session receipt at_ms s s' result :
  let c := CallActivate session receipt at_ms in
  exact_call c s -> worker_call c s = (s', result) -> refined c s s' result.
Proof.
  intros c Hx. cbn [worker_call c]. unfold activate. rewrite st_bind_run. unfold read.
  destruct (load_session session (st_db s)) as [l| |] eqn:Hl; [|intros [= <- <-]; by apply refined_failure..].
  pose proof (loaded_session _ _ _ Hl). destruct (wr_authority (ld_record l)) as [|existing|].
  - intros Hr. eapply apply_refines; [done | done | done | | done]. done.
  - destruct (existing == receipt); intros [= <- <-]; [by eapply refined_retry | by apply refined_failure].
  - intros [= <- <-]. by apply refined_failure.
Qed.

Lemma cleanup_refines session receipt at_ms s s' result :
  let c := CallCleanup session receipt at_ms in
  exact_call c s -> worker_call c s = (s', result) -> refined c s s' result.
Proof.
  intros c Hx. cbn [worker_call c]. unfold complete_cleanup. rewrite st_bind_run. unfold read.
  destruct (load_session session (st_db s)) as [l| |] eqn:Hl; [|intros [= <- <-]; by apply refined_failure..].
  pose proof (loaded_session _ _ _ Hl).
  destruct (wr_authority (ld_record l)) as [| |? ? [|er et]]; [intros [= <- <-]; by apply refined_failure..| |].
  - intros Hr. eapply apply_refines; [done | done | done | | done]. done.
  - destruct (_ && _); intros [= <- <-]; [by eapply refined_retry | by apply refined_failure].
Qed.

Lemma outcome_refines session outcome at_ms s s' result :
  let c := CallOutcome session outcome at_ms in
  exact_call c s -> worker_call c s = (s', result) -> refined c s s' result.
Proof.
  intros c Hx. cbn [worker_call c]. unfold record_broker_outcome. rewrite st_bind_run. unfold read.
  destruct (load_session session (st_db s)) as [l| |] eqn:Hl; [|intros [= <- <-]; by apply refined_failure..].
  pose proof (loaded_session _ _ _ Hl).
  destruct (wr_candidate (ld_record l)) as [| |? existing].
  - intros [= <- <-]. by apply refined_failure.
  - intros Hr. eapply apply_refines; [done | done | done | | done]. done.
  - destruct (existing == outcome); intros [= <- <-]; [by eapply refined_retry | by apply refined_failure].
Qed.

Lemma tombstone_refines session reason at_ms s s' result :
  let c := CallTombstone session reason at_ms in
  exact_call c s -> worker_call c s = (s', result) -> refined c s s' result.
Proof.
  intros c Hx. cbn [worker_call c]. unfold tombstone. rewrite st_bind_run. unfold read.
  destruct (load_session session (st_db s)) as [l| |] eqn:Hl; [|intros [= <- <-]; by apply refined_failure..].
  pose proof (loaded_session _ _ _ Hl) as Hs. rewrite st_bind_run. unfold pure, tombstone_for.
  destruct (worker_id (ld_record l)) as [id| |] eqn:Hid; cbn [res_bind]; [|intros [= <- <-]; by apply refined_failure..].
  destruct (wr_authority (ld_record l)) as [| |? existing ?].
  3: { destruct (existing == _); intros [= <- <-]; [by eapply refined_retry | by apply refined_failure]. }
  all: intros Hr; eapply apply_refines; [done | done | done | | done]; split; [done|];
    eexists; split; [done|]; exists id; split; [done|]; by rewrite Hs.
Qed.

Lemma load_by_principal_session principal db l :
  load_by_principal principal db = Ok l -> exists session, load_session session db = Ok l.
Proof.
  unfold load_by_principal. intros Hl. apply res_bind_ok in Hl as (? & _ & Hl). apply res_bind_ok in Hl as (i & _ & Hl).
  apply res_bind_ok in Hl as (l0 & Hs & Hl). apply then_ok in Hl as [_ [= <-]]. eauto.
Qed.

Lemma store_install_spec ready d b at_ms s s' r :
  store_install ready d b at_ms s = (s', r) -> unmoved s s'.
Proof.
  unfold store_install. destruct (install_blob _ _ _ _ _ _) as [[db files] r0] eqn:Hi. intros [= <- _] x.
  apply same_states_alike. by eapply install_keeps_states.
Qed.

(** [accept_candidate] stops before it touches a session, or applies its event. *)
Lemma accept_inv pr cr context candidate proof ty delta s s' result :
  accept_candidate pr cr context candidate proof ty delta s = (s', result) ->
  unmoved s s' /\ (forall l, result <> Ok l) \/
  exists s2 l session e kind at_ms, unmoved s s2 /\ load_session session (st_db s) = Ok l /\
    call_event (CallAccept pr cr context candidate proof ty delta) (ld_record l) e /\
    store_apply_event l e kind at_ms s2 = (s', result).
Proof.
  unfold accept_candidate. rewrite st_bind_run. unfold read.
  destruct (load_by_principal _ (st_db s)) as [l| |] eqn:Hl; [|intros [= <- <-]; by left..].
  apply load_by_principal_session in Hl as [session Hl]. unfold pure.
  rewrite st_bind_run. destruct (validate_active_ingress (ld_record l) context) as [[]| |] eqn:Hv; cbn [map_err];
    [|intros [= <- <-]; by left..].
  rewrite st_bind_run. destruct proof as [|p0 proof]; [intros [= <- <-]; by left|]. cbn [reject_if].
  rewrite st_bind_run. destruct (maximum_ingress_proof_bytes _) as [m| |]; [|intros [= <- <-]; by left..].
  rewrite st_bind_run. destruct (m <? _)%Z; cbn [reject_if]; [intros [= <- <-]; by left|].
  rewrite st_bind_run. destruct (_ <? _)%Z; cbn [reject_if]; [intros [= <- <-]; by left|].
  rewrite st_bind_run. destruct (WorkerCandidateCustodyV1_new _ _ _ _ _) as [custody| |] eqn:Hcu; cbn [map_err];
    [|intros [= <- <-]; by left..].
  rewrite st_bind_run. destruct (clock_i64 _) as [at_| |]; [|intros [= <- <-]; by left..].
  rewrite st_bind_run. destruct (store_install pr _ _ at_ s) as [s1 r1] eqn:Hi1. apply store_install_spec in Hi1.
  destruct r1; [|intros [= <- <-]; by left..].
  rewrite st_bind_run. destruct (store_install cr _ _ at_ s1) as [s2 r2] eqn:Hi2. apply store_install_spec in Hi2.
  assert (unmoved s s2) as Hu by (intros x; by rewrite Hi2, Hi1).
  destruct r2; [|intros [= <- <-]; by left..].
  rewrite st_bind_run. unfold tombstone_for.
  destruct (worker_id (ld_record l)) as [id| |] eqn:Hid; cbn [res_bind]; [|intros [= <- <-]; by left..].
  intros Hr. right. exists s2, l, session. do 3 eexists. split; [done|]. split; [done|]. split; [|exact Hr].
  split; [done|]. split; [done|]. exists custody. eexists. split; [done|]. split; [by exists id | done].
Qed.

Lemma exact_unmoved c s s2 : match c with CallPrepare _ _ => False | _ => True end -> unmoved s s2 -> exact_call c s -> exact_call c s2.
Proof.
  intros Hc Hu Hx. assert (forall session next, advances c (session_view (st_db s2) session) next -> stored_exactly next).
  { intros x next Ha. destruct c; [done|..]; apply (Hx x); unfold session_view in *; by rewrite <- Hu. }
  by destruct c.
Qed.

Lemma accept_refines pr cr context candidate proof ty delta s s' result :
  let c := CallAccept pr cr context candidate proof ty delta in
  exact_call c s -> worker_call c s = (s', result) -> refined c s s' result.
Proof.
  intros c Hx Hr. apply accept_inv in Hr as [[Hu Hne]|(s2 & l & session & e & kind & at_ms & Hu & Hl & He & Hr)].
  - apply (refined_unmoved c s s'); [done | by apply refined_failure].
  - apply (refined_unmoved c s s2); [done|]. eapply (apply_refines c s2 l session); [done | | | done | done].
    + by apply (exact_unmoved c s).
    + by rewrite Hu.
Qed.

(** What reads of the two new entities give, and of the others. *)
Lemma pair_reads record index principal e1 e2 db db' receipts `{Serialize P1, Serialize P2}
    (first : NewEventV1 P1) (second : NewEventV1 P2) :
  ne_entity_id first = session_entity (sp_session (wr_spec record)) -> ne_entity_id second = principal_entity principal ->
  stored_exactly record -> indexed_exactly index ->
  append_distinct_event_pair first record e1 second index e2 db = Ok (db', receipts) ->
  (exists d seq ed, materialized_state decode_record db' (session_entity (sp_session (wr_spec record)))
     = Ok (Some (mkMaterialized (session_entity (sp_session (wr_spec record))) (e1 + 1) record d seq ed))) /\
  (exists d seq ed, materialized_state decode_index db' (principal_entity principal)
     = Ok (Some (mkMaterialized (principal_entity principal) (e2 + 1) index d seq ed))) /\
  (forall x, x <> sp_session (wr_spec record) ->
     materialized_state decode_record db' (session_entity x) = materialized_state decode_record db (session_entity x)) /\
  (forall p, p <> principal ->
     materialized_state decode_index db' (principal_entity p) = materialized_state decode_index db (principal_entity p)).
Proof.
  intros Hf Hs Hr Hi Hp. unfold append_distinct_event_pair in Hp. apply then_ok in Hp as [_ Hp]. apply then_ok in Hp as [_ Hp].
  apply guard_ok in Hp as [_ Hp]. apply then_ok in Hp as [_ Hp].
  apply res_bind_ok in Hp as ([db1 r1] & Hp1 & Hp). apply res_bind_ok in Hp as ([db2 r2] & Hp2 & [= <- _]).
  apply append_reads in Hp1 as (b1 & s1 & d1 & Hb1 & Hr1). apply append_reads in Hp2 as (b2 & s2 & d2 & Hb2 & Hr2).
  rewrite Hf in Hr1. rewrite Hs in Hr2.
  assert (forall x, principal_entity principal <> session_entity x) as Hd by (intros x Hx; by eapply entities_disjoint).
  split_all.
  - do 3 eexists. rewrite Hr2, bool_decide_eq_false_2 by done. rewrite Hr1, bool_decide_eq_true_2 by done. by rewrite (Hr b1).
  - do 3 eexists. rewrite Hr2, bool_decide_eq_true_2 by done. by rewrite (Hi b2).
  - intros x Hx. rewrite Hr2, bool_decide_eq_false_2 by done. rewrite Hr1, bool_decide_eq_false_2; [done|].
    intros <-%session_entity_inj. done.
  - intros p Hx. rewrite Hr2, bool_decide_eq_false_2 by (intros <-%principal_entity_inj; done).
    rewrite Hr1, bool_decide_eq_false_2; [done | apply entities_disjoint].
Qed.

(** A fresh index validates against its record. *)
Lemma principal_index_valid record index principal :
  worker_id record = Ok principal -> principal_index record = Ok index ->
  validate_index principal index record = Ok tt /\ ix_session_id index = sp_session (wr_spec record) /\
  ix_schema index = PRINCIPAL_INDEX_SCHEMA_V1 /\ ix_principal_id index = principal.
Proof.
  intros Hw Hp. unfold principal_index in Hp. rewrite Hw in Hp. cbn [res_bind] in Hp.
  apply res_bind_ok in Hp as (d & Hd & [= <-]). unfold validate_index. cbn [ix_schema ix_principal_id ix_session_id ix_session_nonce ix_session_spec_digest].
  rewrite Hw, Hd, !bool_decide_eq_true_2 by done. cbn. by rewrite !bool_decide_eq_true_2.
Qed.

(** Once both entities are written the new session loads, and no other session's
    view changes. *)
Lemma prepared_views record index principal db db' receipts `{Serialize P1, Serialize P2}
    (first : NewEventV1 P1) (second : NewEventV1 P2) :
  record_validate record = Ok tt -> worker_id record = Ok principal -> principal_index record = Ok index ->
  load_index_optional principal db = Ok None ->
  ne_entity_id first = session_entity (sp_session (wr_spec record)) -> ne_entity_id second = principal_entity principal ->
  stored_exactly record -> indexed_exactly index ->
  append_distinct_event_pair first record 0 second index 0 db = Ok (db', receipts) ->
  (exists l, load_session (sp_session (wr_spec record)) db' = Ok l /\ ld_record l = record) /\
  (exists m, load_index_optional principal db' = Ok (Some m) /\ ms_state _ m = index) /\
  forall x, x <> sp_session (wr_spec record) -> session_view db' x = session_view db x.
Proof.
  intros Hv Hw Hp Hn Hf Hs Hr Hi Happ.
  destruct (pair_reads record index principal 0 0 db db' receipts first second Hf Hs Hr Hi Happ)
    as ((d1 & s1 & e1 & Hr1) & (d2 & s2 & e2 & Hr2) & Hr3 & Hr4).
  destruct (principal_index_valid _ _ _ Hw Hp) as (Hvi & Hsi & Hsch & Hpi).
  assert (load_index_optional principal db' = Ok (Some (mkMaterialized (principal_entity principal) (0 + 1) index d2 s2 e2))) as Hli.
  { unfold load_index_optional. rewrite Hr2. cbn [map_err res_bind ms_entity_id ms_state].
    by rewrite Hsch, Hpi, !bool_decide_eq_true_2. }
  split; [|split; [by eexists|]].
  - exists (mkLoaded (session_entity (sp_session (wr_spec record))) (0 + 1) d1 record). split; [|done].
    apply load_session_iff. split.
    + unfold load_session_optional. rewrite Hr1. cbn [map_err res_bind].
      unfold validate_loaded_session. cbn [ms_state ms_entity_id ms_revision ms_state_digest].
      rewrite Hv. cbn [map_err res_bind]. by rewrite !bool_decide_eq_true_2.
    + unfold check_index. cbn [ld_record]. rewrite Hw. cbn [res_bind]. rewrite Hli. cbn [res_bind ok_or ms_state].
      by rewrite Hvi.
  - intros x Hx. unfold session_view, load_session.
    assert (load_session_optional x db' = load_session_optional x db) as ->
      by (unfold load_session_optional; by rewrite (Hr3 x Hx)).
    destruct (load_session_optional x db) as [[l|]| |] eqn:Hl; [|done..]. cbn [res_bind ok_or].
    apply load_optional_some in Hl as (_ & Hxs & _). unfold check_index.
    destruct (worker_id (ld_record l)) as [p| |] eqn:Hwl; [|done..]. cbn [res_bind].
    destruct (decide (p = principal)) as [->|Hne]; [|by rewrite (index_reads_alike db db') by (apply Hr4; done)].
    rewrite Hli, Hn. cbn [res_bind ok_or ms_state]. unfold validate_index. rewrite Hsch, Hpi, Hsi, Hwl, Hxs.
    rewrite !bool_decide_eq_true_2 by done. cbn [negb orb reject_if res_bind].
    rewrite (bool_decide_eq_true_2 (principal = principal)) by done.
    by rewrite (bool_decide_eq_false_2 (sp_session (wr_spec record) = x)) by done.
Qed.

Lemma prepare_refines record at_ms s s' result :
  let c := CallPrepare record at_ms in
  exact_call c s -> worker_call c s = (s', result) -> refined c s s' result.
Proof.
  intros c [Hx Hxi]. cbn [worker_call c]. unfold prepare, pure, read. rewrite st_bind_run.
  destruct (record_validate record) as [[]| |] eqn:Hv; cbn [map_err]; [|intros [= <- <-]; by apply refined_failure..].
  rewrite st_bind_run. destruct (match wr_authority record, wr_candidate record with Prepared, Awaiting => false | _, _ => true end) eqn:Hpr; cbn [reject_if];
    [intros [= <- <-]; by apply refined_failure|].
  rewrite st_bind_run. destruct (worker_id record) as [principal| |] eqn:Hw; [|intros [= <- <-]; by apply refined_failure..].
  rewrite st_bind_run. destruct (principal_index record) as [index| |] eqn:Hi; [|intros [= <- <-]; by apply refined_failure..].
  rewrite st_bind_run. destruct (load_session_optional _ (st_db s)) as [existing| |] eqn:He; [|intros [= <- <-]; by apply refined_failure..].
  rewrite st_bind_run. destruct (load_index_optional _ (st_db s)) as [stored| |] eqn:Hs; [|intros [= <- <-]; by apply refined_failure..].
  destruct existing as [existing|], stored as [stored|]; [| intros [= <- <-]; by apply refined_failure..|].
  - rewrite st_bind_run. destruct (validate_index _ _ _) as [[]| |] eqn:Hvi; [|intros [= <- <-]; by apply refined_failure..].
    rewrite st_bind_run. destruct (_ || _) eqn:Hg; cbn [reject_if]; intros [= <- <-]; [by apply refined_failure|].
    guards_in Hg. destruct Hg as [Hspec _]. eapply (refined_retry _ _ (sp_session (wr_spec record))).
    apply load_session_iff. split; [done|]. unfold check_index.
    assert (worker_id (ld_record existing) = worker_id record) as -> by (unfold worker_id; by rewrite Hspec).
    rewrite Hw. cbn [res_bind]. rewrite Hs. cbn [res_bind ok_or]. by rewrite Hvi.
  - rewrite st_bind_run. destruct (clock_i64 at_ms) as [at_| |]; [|intros [= <- <-]; by apply refined_failure..].
    rewrite st_bind_run. destruct (event_id _ _) as [id1| |]; [|intros [= <- <-]; by apply refined_failure..].
    rewrite st_bind_run. destruct (event_id _ _) as [id2| |]; [|intros [= <- <-]; by apply refined_failure..].
    rewrite st_bind_run. unfold store_call, commit.
    destruct (append_distinct_event_pair _ _ _ _ _ _ (st_db s)) as [[db' receipts]| |] eqn:Happ; cbn [map_err];
      [|destruct s; intros [= <- <-]; by apply refined_failure..].
    eapply (prepared_views record index principal) in Happ as ((l & Hl & Hrec) & _ & Ho); [|done..|by apply Hxi].
    cbn [st_db]. rewrite Hl. intros [= <- <-]. eapply refined_moved; [split; [exact Hl | exact Ho]|].
    rewrite Hrec. cbn. split_all; [|done | done | by destruct (wr_authority record) | by destruct (wr_authority record), (wr_candidate record)].
    unfold session_view, load_session. by rewrite He.
Qed.

End Calls.

(** ** Runs of calls *)

Section Runs.
  Context `{JcsLaws, !HexLaws, !Sha256Laws, SessionDecoders}.

Lemma call_refines c s s' result : exact_call c s -> worker_call c s = (s', result) -> refined c s s' result.
Proof.
  destruct c; [apply prepare_refines | apply activate_refines | apply accept_refines | apply tombstone_refines
              | apply cleanup_refines | apply outcome_refines].
Qed.

Inductive worker_run : StoreState -> list WorkerCall -> StoreState -> Prop :=
  | run_nil s : worker_run s [] s
  | run_cons s c s1 r cs s' :
      exact_call c s -> worker_call c s = (s1, r) -> worker_run s1 cs s' -> worker_run s (c :: cs) s'.

(** A call moves a session's record by events only. *)
Lemma call_moves c s s' result x r :
  exact_call c s -> worker_call c s = (s', result) -> session_view (st_db s) x = Some r ->
  exists es, session_view (st_db s') x = Some (record_after r es).
Proof.
  intros Hx Hc Hv. pose proof (call_refines c s s' result Hx Hc) as Hr. unfold refined in Hr.
  destruct result as [l| |]; [|exists []; by rewrite Hr..]. destruct Hr as (Hs & Ho & Ha).
  destruct (decide (x = sp_session (wr_spec (ld_record l)))) as [->|Hne]; [|exists []; by rewrite Ho].
  rewrite Hv in Ha. destruct Ha as [[= ->]|Ha]; [by exists []|].
  assert (exists e, record_apply r e = Ok (ld_record l)) as [e He].
  { destruct c; [by destruct Ha as [? _]|..]; destruct Ha as (r0 & e & [= <-] & _ & He); by exists e. }
  exists [e]. rewrite Hs. cbn. unfold record_try. by rewrite He.
Qed.

Lemma run_moves s cs s' x r :
  worker_run s cs s' -> session_view (st_db s) x = Some r ->
  exists es, session_view (st_db s') x = Some (record_after r es).
Proof.
  intros Hrun. revert r. induction Hrun as [s|s c s1 res cs s' Hx Hc _ IH]; intros r Hv; [by exists []|].
  destruct (call_moves _ _ _ _ _ _ Hx Hc Hv) as [es Hes]. destruct (IH _ Hes) as [es' Hes'].
  exists (es ++ es'). rewrite Hes'. unfold record_after. by rewrite fold_left_app.
Qed.

Lemma view_valid db x r : session_view db x = Some r -> record_validate r = Ok tt /\ sp_session (wr_spec r) = x.
Proof.
  unfold session_view. destruct (load_session x db) as [l| |] eqn:Hl; [|done..]. intros [= <-].
  split; [by eapply loaded_valid | by eapply loaded_session].
Qed.

(** The principal index of a loaded session leads back to it. *)
Lemma load_by_own_principal x db l id :
  load_session x db = Ok l -> worker_id (ld_record l) = Ok id -> load_by_principal id db = Ok l.
Proof.
  intros Hl Hw. pose proof (loaded_session _ _ _ Hl) as Hs. pose proof Hl as [_ Hc]%load_session_iff.
  unfold check_index in Hc. rewrite Hw in Hc. cbn [res_bind] in Hc.
  apply res_bind_ok in Hc as (o & Ho & Hc). apply res_bind_ok in Hc as (i & ->%ok_or_ok & Hc).
  apply then_ok in Hc as [Hv _]. unfold load_by_principal. rewrite Ho. cbn [res_bind ok_or].
  assert (ix_session_id (ms_state _ i) = x) as ->.
  { unfold validate_index in Hv. apply guard_ok in Hv as [_ Hv]. apply res_bind_ok in Hv as (? & _ & Hv).
    apply guard_ok in Hv as [Hg _]. guards_in Hg. naive_solver. }
  rewrite Hl. cbn [res_bind]. by rewrite Hv.
Qed.

Lemma accept_when_tombstoned pr cr context candidate proof ty delta s x r launch t cleanup :
  session_view (st_db s) x = Some r -> wr_authority r = Tombstoned launch t cleanup ->
  worker_id r = Ok (ic_principal_id context) ->
  accept_candidate pr cr context candidate proof ty delta s = (s, Err (SessionFailure PrincipalTombstoned)).
Proof.
  intros Hv Ha Hw. pose proof (view_valid _ _ _ Hv) as [Hval _]. unfold session_view in Hv.
  destruct (load_session x (st_db s)) as [l| |] eqn:Hl; [|done..]. injection Hv as <-.
  unfold accept_candidate. rewrite st_bind_run. unfold read. rewrite (load_by_own_principal x _ l) by done.
  rewrite st_bind_run. unfold pure, validate_active_ingress. by rewrite Hval, Ha.
Qed.

End Runs.

(** ** Recovery *)

Definition tombstoned (r : WorkerSessionRecordV1) : bool :=
  match wr_authority r with Tombstoned _ _ _ => true | _ => false end.
Definition same_entities (db db' : Database) : Prop :=
  forall e, e ∈ map st_entity_id (db_states db') <-> e ∈ map st_entity_id (db_states db).

Section Recovery.
  Context `{JcsLaws, !HexLaws, !Sha256Laws, SessionDecoders}.

Lemma entity_read {T} (decode : bytes -> string + T) db e :
  e ∈ map st_entity_id (db_states db) <-> materialized_state decode db e <> Ok None.
Proof.
  unfold materialized_state, find_state. split.
  - intros (r & -> & Hr)%list_elem_of_fmap. destruct (List.find _ _) as [row|] eqn:Hf.
    + destruct (decode _); [done|]. intros Hn. cbn [res_bind] in Hn. by repeat (apply res_bind_ok in Hn as (? & _ & Hn)).
    + exfalso. apply list_elem_of_In in Hr. eapply find_none in Hf; [|exact Hr]. by rewrite bool_decide_eq_true_2 in Hf.
  - destruct (List.find _ _) as [row|] eqn:Hf; [|done]. intros _. apply find_some in Hf as [Hin <-%bool_decide_eq_true].
    apply list_elem_of_fmap. exists row. split; [done | by apply list_elem_of_In].
Qed.

Lemma view_entity db x r : session_view db x = Some r -> session_entity x ∈ map st_entity_id (db_states db).
Proof.
  intros Hr. apply (entity_read decode_record). unfold session_view, load_session, load_session_optional in Hr.
  destruct (materialized_state decode_record db (session_entity x)) as [[m|]| |]; done.
Qed.

Lemma same_entities_ids db db' prefix : same_entities db db' -> prefixed_ids db' prefix = prefixed_ids db prefix.
Proof.
  intros He. apply str_sorted_unique; [apply sort_dedup_sorted.. |]. intros x. by rewrite !prefixed_ids_elem, (He x).
Qed.
Lemma same_entities_page db db' prefix limit :
  same_entities db db' -> page_request_ok db prefix limit -> page_request_ok db' prefix limit.
Proof. intros He (Hp & Hl & Hv). split; [done|]. split; [done|]. intros id Hid. by apply Hv, He. Qed.

(** Applying an event to a loaded session adds no entity. *)
Lemma apply_keeps_entities loaded session e kind at_ms s s' result :
  load_session session (st_db s) = Ok loaded -> store_apply_event loaded e kind at_ms s = (s', result) ->
  same_entities (st_db s) (st_db s').
Proof.
  intros Hl. unfold store_apply_event. rewrite !st_bind_run. unfold pure, read.
  destruct (record_apply (ld_record loaded) e) as [next| |]; cbn [map_err]; [|by intros [= <- _]..].
  rewrite st_bind_run. destruct (event_id _ _) as [id| |]; [|by intros [= <- _]..].
  rewrite st_bind_run. destruct (clock_i64 at_ms) as [at_| |]; [|by intros [= <- _]..].
  rewrite st_bind_run. unfold store_call, commit.
  destruct (append_event _ next _ (st_db s)) as [[db' receipt]| |] eqn:Happ; cbn [map_err]; [|by intros [= <- _]..].
  intros [= <- _]. cbn [st_db]. unfold append_event in Happ.
  apply then_ok in Happ as [_ Happ]. apply then_ok in Happ as [_ Happ].
  apply append_reads in Happ as (b & sequence & ed & _ & Hreads). cbn [ne_entity_id] in Hreads.
  intros x. rewrite !(entity_read decode_record), Hreads. destruct (decide (ld_entity_id loaded = x)) as [<-|Hne];
    [|by rewrite bool_decide_eq_false_2].
  rewrite bool_decide_eq_true_2 by done. split; [|by destruct (decode_record b)]. intros _.
  apply load_session_iff in Hl as [Hl _]. pose proof Hl as (-> & _ & _)%load_optional_some.
  unfold load_session_optional in Hl. destruct (materialized_state decode_record (st_db s) (session_entity session)) as [[m|]| |]; done.
Qed.

Lemma tombstone_keeps_entities session reason at_ms s s' result :
  tombstone session reason at_ms s = (s', result) -> same_entities (st_db s) (st_db s').
Proof.
  unfold tombstone. rewrite st_bind_run. unfold read.
  destruct (load_session session (st_db s)) as [l| |] eqn:Hl; [|by intros [= <- _]..].
  rewrite st_bind_run. unfold pure. destruct (tombstone_for _ _ _ _) as [t| |]; [|by intros [= <- _]..].
  destruct (wr_authority (ld_record l)); [by eapply apply_keeps_entities..|].
  destruct (_ == _); by intros [= <- _].
Qed.

(** What recovery at [now] makes of an open record. *)
Definition restart_fenced (now : Z) (r r' : WorkerSessionRecordV1) : Prop :=
  tombstoned r = false /\ exists t, tombstone_of r RestartRecovery now t /\ record_apply r (Tombstone t) = Ok r'.
(** serde reads back the tombstoned records. *)
Definition recovery_exact (now : Z) (s : StoreState) : Prop :=
  forall x r r', session_view (st_db s) x = Some r -> restart_fenced now r r' -> stored_exactly r'.

(** Recovery under way: the entities of the start, each session untouched or
    fenced. *)
Definition recovering (now : Z) (s0 s : StoreState) : Prop :=
  same_entities (st_db s0) (st_db s) /\
  forall x, session_view (st_db s) x = session_view (st_db s0) x \/
    exists r r', session_view (st_db s0) x = Some r /\ session_view (st_db s) x = Some r' /\ restart_fenced now r r'.

Lemma fenced_tombstoned now r r' : restart_fenced now r r' -> tombstoned r' = true.
Proof.
  intros (Ho & t & _ & [Ha _]%record_apply_ok). unfold tombstoned in *. unfold apply_event in Ha.
  destruct (wr_authority r); [..|done]; cbn [res_bind] in Ha; by apply then_ok in Ha as [_ [= <-]].
Qed.

(** The record at hand while recovering is still the first one if it is open. *)
Lemma recovering_open now s0 s x r :
  recovering now s0 s -> session_view (st_db s) x = Some r -> tombstoned r = false -> session_view (st_db s0) x = Some r.
Proof.
  intros [_ Hv] Hx Ho. destruct (Hv x) as [<-|(r0 & r' & _ & Hr' & Hf)]; [done|].
  apply fenced_tombstoned in Hf. congruence.
Qed.

Lemma tombstone_open x reason now s s1 result l :
  load_session x (st_db s) = Ok l -> tombstoned (ld_record l) = false ->
  (forall t next, tombstone_of (ld_record l) reason now t -> record_apply (ld_record l) (Tombstone t) = Ok next -> stored_exactly next) ->
  tombstone x reason now s = (s1, result) ->
  s1 = s /\ (forall l', result <> Ok l') \/
  exists l' t, result = Ok l' /\ moved s s1 x l' /\ tombstone_of (ld_record l) reason now t /\
    record_apply (ld_record l) (Tombstone t) = Ok (ld_record l').
Proof.
  intros Hl Ho Hx Ht. unfold tombstone in Ht. rewrite st_bind_run in Ht. unfold read in Ht. rewrite Hl, st_bind_run in Ht.
  unfold pure in Ht. destruct (tombstone_for _ _ _ _) as [t| |] eqn:Htf; [|injection Ht as <- <-; by left..].
  assert (tombstone_of (ld_record l) reason now t) as Hof.
  { unfold tombstone_for in Htf. apply res_bind_ok in Htf as (id & Hid & [= <-]). exists id.
    split; [done|]. by rewrite (loaded_session _ _ _ Hl). }
  unfold tombstoned in Ho. destruct (wr_authority (ld_record l)) eqn:Ha; [..|done].
  all: apply (store_apply_event_spec l x) in Ht as [?|(l2 & Happ & -> & Hm & _)];
    [by left | right; by exists l2, t | done | intros next; by apply Hx].
Qed.

(** One session tombstoned. *)
Lemma recovering_step now s0 s l x s1 result :
  recovering now s0 s -> recovery_exact now s0 ->
  load_session x (st_db s) = Ok l -> tombstoned (ld_record l) = false ->
  tombstone x RestartRecovery now s = (s1, result) ->
  recovering now s0 s1 /\
  (forall y r, session_view (st_db s) y = Some r -> tombstoned r = true -> session_view (st_db s1) y = Some r) /\
  (forall l', result = Ok l' -> exists r, session_view (st_db s1) x = Some r /\ tombstoned r = true).
Proof.
  intros Hrec Hx Hl Ho Ht. pose proof (view_loaded _ _ _ Hl) as Hv.
  pose proof (recovering_open _ _ _ _ _ Hrec Hv Ho) as Hv0.
  pose proof (tombstone_keeps_entities _ _ _ _ _ _ Ht) as Hent. destruct Hrec as [He0 Hr0].
  apply (tombstone_open x RestartRecovery now s s1 result l) in Ht as [[-> Hne]|(l' & t & -> & [Hl' Hoth] & Hof & Ha)];
    [| |done..|].
  - split_all; [done | done|]. intros l' Hl'. by edestruct Hne.
  - assert (restart_fenced now (ld_record l) (ld_record l')) as Hf by (split; [done | by exists t]).
    pose proof (view_loaded _ _ _ Hl') as Hv'. split_all.
    + split; [intros e; by rewrite (Hent e)|]. intros y. destruct (decide (y = x)) as [->|Hne].
      * right. by exists (ld_record l), (ld_record l').
      * rewrite (Hoth y Hne). apply Hr0.
    + intros y r Hy Hyt. destruct (decide (y = x)) as [->|Hne]; [congruence | by rewrite Hoth].
    + intros ? [= <-]. exists (ld_record l'). split; [done | by eapply fenced_tombstoned].
  - intros t next Hof Ha. apply (Hx x (ld_record l)); [done|]. split; [done | by exists t].
Qed.

Lemma load_entity_session entity db l :
  load_session_entity entity db = Ok l ->
  load_session (sp_session (wr_spec (ld_record l))) db = Ok l /\ entity = session_entity (sp_session (wr_spec (ld_record l))).
Proof.
  unfold load_session_entity. intros Hl. apply guard_ok in Hl as [_ Hl]. apply res_bind_ok in Hl as (o & Ho%map_err_ok & Hl).
  apply res_bind_ok in Hl as (m & ->%ok_or_ok & Hl). apply res_bind_ok in Hl as (l0 & Hv & Hc).
  pose proof (check_index_same _ _ _ Hc) as ->.
  assert (ld_record l0 = ms_state _ m /\ entity = session_entity (sp_session (wr_spec (ms_state _ m)))) as [Hr ->].
  { unfold validate_loaded_session in Hv. apply then_ok in Hv as [_ Hv]. apply guard_ok in Hv as [Hg [= <-]].
    guards_in Hg. naive_solver. }
  rewrite Hr. split; [|done]. apply load_session_iff. split; [|done]. unfold load_session_optional. rewrite Ho.
  cbn [map_err res_bind]. by rewrite Hv.
Qed.

Definition report_total (report : WorkerStartupRecoveryReportV1) : Z := (rr_tombstoned report + rr_already_terminal report)%Z.

(** Entity [e] belongs to a session that is fenced. *)
Definition entity_fenced (s : StoreState) (e : string) : Prop :=
  exists x r, e = session_entity x /\ session_view (st_db s) x = Some r /\ tombstoned r = true.
Definition keeps_fences (s s' : StoreState) : Prop :=
  forall y r, session_view (st_db s) y = Some r -> tombstoned r = true -> session_view (st_db s') y = Some r.
Lemma keeps_fences_refl s : keeps_fences s s.
Proof. by intros y r. Qed.
Lemma keeps_fences_trans s s1 s' : keeps_fences s s1 -> keeps_fences s1 s' -> keeps_fences s s'.
Proof. intros H1' H2' y r Hy Ht. apply H2'; [by apply H1' | done]. Qed.
#[local] Hint Resolve keeps_fences_refl : core.

Lemma recover_entity_spec now s0 report entity s s' result :
  recovery_exact now s0 -> recovering now s0 s -> recover_entity now report entity s = (s', result) ->
  recovering now s0 s' /\ keeps_fences s s' /\
  forall report', result = Ok report' -> entity_fenced s' entity /\ report_total report' = (report_total report + 1)%Z.
Proof.
  intros Hx Hrec. unfold recover_entity. rewrite st_bind_run. unfold read.
  destruct (load_session_entity entity (st_db s)) as [l| |] eqn:Hl; [|intros [= <- <-]; by split_all..].
  apply load_entity_session in Hl as [Hl ->]. destruct (tombstoned (ld_record l)) eqn:Htomb.
  - destruct (wr_authority (ld_record l)) eqn:Ha; [by unfold tombstoned in Htomb; rewrite Ha in Htomb..|].
    unfold pure. intros [= <- <-]. split_all; [done | done|]. intros report' Hr.
    apply res_bind_ok in Hr as (n & Hn%ok_or_ok & [= <-]). apply checked_add_u64_Some in Hn as [-> _].
    split; [|unfold report_total; simpl; lia]. exists (sp_session (wr_spec (ld_record l))), (ld_record l).
    split_all; [done | by apply view_loaded | done].
  - intros Hr. assert ((tombstone (sp_session (wr_spec (ld_record l))) RestartRecovery now ;!
         pure (let? n := ok_or RecoveryCountOverflow (checked_add_u64 (rr_tombstoned report) 1) in
               Ok (mkReport n (rr_already_terminal report)))) s = (s', result)) as Hr'
      by (unfold tombstoned in Htomb; by destruct (wr_authority (ld_record l))).
    rewrite st_bind_run in Hr'. destruct (tombstone _ RestartRecovery now s) as [s2 r2] eqn:Ht.
    eapply recovering_step in Ht as (Hr2 & Hk2 & Hok2); [|done..].
    destruct r2 as [l2| |]; injection Hr' as <- <-; split_all; try done.
    intros report' Hn. apply res_bind_ok in Hn as (n & Hn%ok_or_ok & [= <-]). apply checked_add_u64_Some in Hn as [-> _].
    split; [|unfold report_total; simpl; lia]. destruct (Hok2 l2 eq_refl) as (r & Hv & Htr).
    by exists (sp_session (wr_spec (ld_record l))), r.
Qed.

(** One page: everything on it ends up fenced, and is counted. *)
Lemma recover_entities_spec now s0 entities : recovery_exact now s0 -> forall report s s' result,
  recovering now s0 s -> recover_entities now report entities s = (s', result) ->
  recovering now s0 s' /\ keeps_fences s s' /\
  forall report', result = Ok report' ->
    Forall (entity_fenced s') entities /\ report_total report' = (report_total report + Z.of_nat (length entities))%Z.
Proof.
  intros Hx. induction entities as [|entity rest IH]; intros report s s' result Hrec; cbn [recover_entities].
  { unfold pure. intros [= <- <-]. split_all; [done | done|]. intros ? [= <-]. split; [done | simpl; lia]. }
  rewrite st_bind_run. destruct (recover_entity now report entity s) as [s1 r1] eqn:Hone.
  apply (recover_entity_spec now s0) in Hone as (Hr1 & Hk1 & Hok1); [|done..].
  destruct r1 as [report1| |]; [|intros [= <- <-]; by split_all..]. destruct (Hok1 report1 eq_refl) as [(x & r & -> & Hv & Htr) Hn1].
  intros Hrest. apply IH in Hrest as (Hr2 & Hk2 & Hres); [|done].
  split_all; [done | by eapply keeps_fences_trans|]. intros report' ->.
  destruct (Hres report' eq_refl) as [Hall Hn2]. split; [|simpl length; lia]. constructor; [|done].
  exists x, r. split_all; [done | by apply Hk2 | done].
Qed.

(** The loop over pages ends, whatever the pages do, with fuel for the entities
    that are left; when it ends well every entity left is fenced. *)
Lemma recover_pages_spec now s0 fuel : recovery_exact now s0 ->
  page_request_ok (st_db s0) SESSION_ENTITY_PREFIX RECOVERY_PAGE_SIZE ->
  forall before cursor rest report s, recovering now s0 s ->
  match cursor with
  | None => before = [] /\ rest = prefixed_ids (st_db s0) SESSION_ENTITY_PREFIX
  | Some c => prefixed_ids (st_db s0) SESSION_ENTITY_PREFIX = before ++ c :: rest
  end ->
  length rest < fuel ->
  exists s' result, recover_pages fuel now cursor report s = Some (s', result) /\
    recovering now s0 s' /\ keeps_fences s s' /\
    forall report', result = Ok report' ->
      Forall (entity_fenced s') rest /\ report_total report' = (report_total report + Z.of_nat (length rest))%Z.
Proof.
  intros Hx Hpage. induction fuel as [|fuel IH]; intros before cursor rest report s Hrec Hcur Hf; [lia|].
  cbn [recover_pages]. pose proof Hrec as [Hent _].
  assert (page_request_ok (st_db s) SESSION_ENTITY_PREFIX RECOVERY_PAGE_SIZE) as Hp by by eapply same_entities_page.
  assert (entity_ids_after (st_db s) SESSION_ENTITY_PREFIX cursor RECOVERY_PAGE_SIZE
          = Ok (take (Z.to_nat RECOVERY_PAGE_SIZE) rest)) as ->.
  { pose proof (same_entities_ids _ _ SESSION_ENTITY_PREFIX Hent) as Hids. destruct cursor as [c|].
    - eapply next_page; [done|]. rewrite Hids. exact Hcur.
    - destruct Hcur as [_ ->]. rewrite <- Hids. by apply first_page. }
  cbn [map_err]. destruct (decide (rest = [])) as [->|Hne].
  { exists s, (Ok report). split; [done|]. split_all; [done | done|]. intros ? [= <-]. split; [done | simpl; lia]. }
  destruct (last_take rest (Z.to_nat RECOVERY_PAGE_SIZE) Hne ltac:(by vm_compute; lia)) as (pre & c & Ht & Hlast).
  pose proof (take_drop (Z.to_nat RECOVERY_PAGE_SIZE) rest) as Hsplit. rewrite Ht in Hsplit.
  destruct (take (Z.to_nat RECOVERY_PAGE_SIZE) rest) as [|e0 page0] eqn:Hpg; [by destruct pre|].
  destruct (recover_entities now report (e0 :: page0) s) as [s1 r1] eqn:Hone.
  apply (recover_entities_spec now s0) in Hone as (Hr1 & Hk1 & Hok1); [|done..].
  destruct r1 as [report1| |]; [|by eexists _, _; split_all..].
  destruct (Hok1 report1 eq_refl) as [Hall1 Hn1]. rewrite Hlast.
  destruct (IH (match cursor with None => pre | Some c0 => before ++ c0 :: pre end) (Some c)
              (drop (Z.to_nat RECOVERY_PAGE_SIZE) rest) report1 s1 Hr1) as (s' & result & Hrun & Hr2 & Hk2 & Hok2).
  - destruct cursor as [c0|]; [rewrite Hcur, <- Hsplit at 1 | destruct Hcur as [_ <-]; rewrite <- Hsplit at 1];
      by rewrite <- !app_assoc.
  - rewrite length_drop. destruct rest; [done|]. simpl in *. change (Z.to_nat RECOVERY_PAGE_SIZE) with 128. lia.
  - exists s', result. split; [done|]. split_all; [done | by eapply keeps_fences_trans|].
    intros report' ->. destruct (Hok2 report' eq_refl) as [Hall2 Hn2]. rewrite <- Hsplit, <- Ht. split.
    + apply Forall_app. split; [|done]. eapply Forall_impl; [done|]. intros e (x & r & -> & Hv & Htr).
      exists x, r. split_all; [done | by apply Hk2 | done].
    + rewrite length_app, Hn2, Hn1. lia.
Qed.

End Recovery.

(** ** Retries *)

Section Retries.
  Context `{JcsLaws, !HexLaws, !Sha256Laws, SessionDecoders}.

Lemma applied_answer c s loaded session e kind at_ms s' l :
  match c with CallPrepare _ _ => False | _ => True end -> exact_call c s ->
  load_session session (st_db s) = Ok loaded -> call_event c (ld_record loaded) e ->
  store_apply_event loaded e kind at_ms s = (s', Ok l) ->
  load_session session (st_db s') = Ok l /\ apply_event (ld_record loaded) e = Ok (ld_record l).
Proof.
  intros Hc Hx Hl He Hr.
  apply (store_apply_event_spec loaded session) in Hr as [[_ Hr]|(l0 & Ha & [= <-] & [Hl' _] & _)];
    [by edestruct Hr | by apply record_apply_ok in Ha as [Ha _] | done|].
  intros next Hn. assert (advances c (session_view (st_db s) session) next).
  { rewrite (view_loaded _ _ _ Hl). destruct c; [done|..]; by exists (ld_record loaded), e. }
  destruct c; [done|..]; by apply (Hx session).
Qed.

Lemma activate_retry session receipt at_ms s s' l :
  exact_call (CallActivate session receipt at_ms) s -> activate session receipt at_ms s = (s', Ok l) ->
  activate session receipt at_ms s' = (s', Ok l).
Proof.
  intros Hx Hr. assert (load_session session (st_db s') = Ok l /\ wr_authority (ld_record l) = Active receipt) as [Hl Ha].
  { unfold activate in Hr. rewrite st_bind_run in Hr. unfold read in Hr.
    destruct (load_session session (st_db s)) as [l0| |] eqn:Hl; [|done..].
    pose proof (loaded_session _ _ _ Hl). destruct (wr_authority (ld_record l0)) as [|existing|] eqn:Ha; [| |done].
    - eapply (applied_answer (CallActivate session receipt at_ms)) in Hr as [Hl' Hr]; [|done..].
      split; [done|]. unfold apply_event in Hr. rewrite Ha in Hr. by injection Hr as <-.
    - destruct (existing == receipt) eqn:He; [|done]. injection Hr as <- <-. apply bool_decide_eq_true in He as ->. done. }
  unfold activate. rewrite st_bind_run. unfold read. rewrite Hl, Ha. by rewrite bool_decide_eq_true_2.
Qed.

Lemma cleanup_retry session receipt at_ms s s' l :
  exact_call (CallCleanup session receipt at_ms) s -> complete_cleanup session receipt at_ms s = (s', Ok l) ->
  complete_cleanup session receipt at_ms s' = (s', Ok l).
Proof.
  intros Hx Hr. assert (load_session session (st_db s') = Ok l /\
    exists launch t, wr_authority (ld_record l) = Tombstoned launch t (CleanupComplete receipt at_ms)) as [Hl (launch & t & Ha)].
  { unfold complete_cleanup in Hr. rewrite st_bind_run in Hr. unfold read in Hr.
    destruct (load_session session (st_db s)) as [l0| |] eqn:Hl; [|done..]. pose proof (loaded_session _ _ _ Hl).
    destruct (wr_authority (ld_record l0)) as [| |launch t [|er et]] eqn:Ha; [done | done | |].
    - eapply (applied_answer (CallCleanup session receipt at_ms)) in Hr as [Hl' Hr]; [|done..].
      split; [done|]. unfold apply_event in Hr. rewrite Ha in Hr. injection Hr as <-. by exists launch, t.
    - destruct (_ && _) eqn:He; [|done]. injection Hr as <- <-.
      apply andb_true_iff in He as [->%bool_decide_eq_true ->%Z.eqb_eq]. eauto. }
  unfold complete_cleanup. rewrite st_bind_run. unfold read. rewrite Hl, Ha, Z.eqb_refl. by rewrite bool_decide_eq_true_2.
Qed.

Lemma outcome_retry session outcome at_ms s s' l :
  exact_call (CallOutcome session outcome at_ms) s -> record_broker_outcome session outcome at_ms s = (s', Ok l) ->
  record_broker_outcome session outcome at_ms s' = (s', Ok l).
Proof.
  intros Hx Hr. assert (load_session session (st_db s') = Ok l /\
    exists cand, wr_candidate (ld_record l) = BrokerCompleted cand outcome) as [Hl (cand & Ha)].
  { unfold record_broker_outcome in Hr. rewrite st_bind_run in Hr. unfold read in Hr.
    destruct (load_session session (st_db s)) as [l0| |] eqn:Hl; [|done..]. pose proof (loaded_session _ _ _ Hl).
    destruct (wr_candidate (ld_record l0)) as [|cand|cand existing] eqn:Ha; [done | |].
    - eapply (applied_answer (CallOutcome session outcome at_ms)) in Hr as [Hl' Hr]; [|done..].
      split; [done|]. unfold apply_event in Hr. rewrite Ha in Hr. injection Hr as <-. by exists cand.
    - destruct (existing == outcome) eqn:He; [|done]. injection Hr as <- <-. apply bool_decide_eq_true in He as ->. eauto. }
  unfold record_broker_outcome. rewrite st_bind_run. unfold read. rewrite Hl, Ha. by rewrite bool_decide_eq_true_2.
Qed.

Lemma tombstone_retry session reason at_ms s s' l :
  exact_call (CallTombstone session reason at_ms) s -> tombstone session reason at_ms s = (s', Ok l) ->
  tombstone session reason at_ms s' = (s', Ok l).
Proof.
  intros Hx Hr. assert (load_session session (st_db s') = Ok l /\ exists launch t cleanup,
    wr_authority (ld_record l) = Tombstoned launch t cleanup /\ tombstone_for l session reason at_ms = Ok t)
    as [Hl (launch & t & cleanup & Ha & Ht)].
  { unfold tombstone in Hr. rewrite st_bind_run in Hr. unfold read in Hr.
    destruct (load_session session (st_db s)) as [l0| |] eqn:Hl; [|done..]. pose proof (loaded_session _ _ _ Hl) as Hs.
    rewrite st_bind_run in Hr. unfold pure in Hr. destruct (tombstone_for _ _ _ _) as [t| |] eqn:Ht; [|done..].
    destruct (wr_authority (ld_record l0)) as [|launch|launch existing cleanup] eqn:Ha.
    3: { destruct (existing == t) eqn:He; [|done]. injection Hr as <- <-. apply bool_decide_eq_true in He as ->. eauto 10. }
    all: eapply (applied_answer (CallTombstone session reason at_ms)) in Hr as [Hl' Hr]; [|done..|].
    2,4: split; [done|]; exists t; split; [done|]; unfold tombstone_for in Ht;
      apply res_bind_ok in Ht as (id & Hid & [= <-]); exists id; by rewrite Hs.
    all: split; [done|]; pose proof Hr as [Hspec _]%apply_event_spec_kept; unfold apply_event in Hr; rewrite Ha in Hr;
      apply then_ok in Hr as [_ [= Hrec]]; rewrite <- Hrec; cbn; do 3 eexists; split; [done|];
      unfold tombstone_for, worker_id, worker_nonce in *; rewrite Hspec; done. }
  unfold tombstone. rewrite st_bind_run. unfold read. rewrite Hl, st_bind_run. unfold pure. rewrite Ht, Ha.
  by rewrite bool_decide_eq_true_2.
Qed.

Lemma prepare_retry record at_ms s s' l :
  exact_call (CallPrepare record at_ms) s -> prepare record at_ms s = (s', Ok l) -> prepare record at_ms s' = (s', Ok l).
Proof.
  intros [Hx Hxi] Hr. pose proof Hr as Hr0. unfold prepare, pure, read in Hr. rewrite st_bind_run in Hr.
  destruct (record_validate record) as [[]| |] eqn:Hv; [|done..]. cbn [map_err] in Hr. rewrite st_bind_run in Hr.
  destruct (match wr_authority record, wr_candidate record with Prepared, Awaiting => false | _, _ => true end) eqn:Hpr; [done|].
  cbn [reject_if] in Hr. rewrite st_bind_run in Hr. destruct (worker_id record) as [principal| |] eqn:Hw; [|done..].
  rewrite st_bind_run in Hr. destruct (principal_index record) as [index| |] eqn:Hi; [|done..].
  rewrite st_bind_run in Hr. destruct (load_session_optional _ (st_db s)) as [existing| |] eqn:He; [|done..].
  rewrite st_bind_run in Hr. destruct (load_index_optional _ (st_db s)) as [stored| |] eqn:Hs; [|done..].
  destruct existing as [existing|], stored as [stored|]; [| done | done|].
  { rewrite st_bind_run in Hr. destruct (validate_index _ _ _); [|done..]. rewrite st_bind_run in Hr.
    destruct (_ || _); [done|]. by injection Hr as <- <-. }
  rewrite st_bind_run in Hr. destruct (clock_i64 at_ms) as [at_| |]; [|done..].
  rewrite st_bind_run in Hr. destruct (event_id _ _) as [id1| |]; [|done..].
  rewrite st_bind_run in Hr. destruct (event_id _ _) as [id2| |]; [|done..].
  rewrite st_bind_run in Hr. unfold store_call, commit in Hr.
  destruct (append_distinct_event_pair _ _ _ _ _ _ (st_db s)) as [[db' receipts]| |] eqn:Happ; [|done..]. cbn [map_err] in Hr.
  eapply (prepared_views record index principal) in Happ as ((l' & Hl & Hrec) & (m & Hm & Hmi) & _); [|done..|by apply Hxi].
  cbn [st_db] in Hr. rewrite Hl in Hr. injection Hr as <- <-. clear Hr0. destruct (principal_index_valid _ _ _ Hw Hi) as (Hvi & _).
  apply load_session_iff in Hl as [Hl _]. unfold prepare, pure, read. rewrite st_bind_run, Hv. cbn [map_err].
  rewrite st_bind_run, Hpr. cbn [reject_if]. rewrite st_bind_run, Hw, st_bind_run, Hi, st_bind_run. cbn [st_db]. rewrite Hl, st_bind_run. cbn [st_db].
  rewrite Hm, st_bind_run, Hmi, Hrec, Hvi, st_bind_run. by rewrite !bool_decide_eq_true_2.
Qed.

Lemma accept_retry pr cr context candidate proof ty delta s s' l :
  exact_call (CallAccept pr cr context candidate proof ty delta) s ->
  accept_candidate pr cr context candidate proof ty delta s = (s', Ok l) ->
  accept_candidate pr cr context candidate proof ty delta s' = (s', Err (SessionFailure PrincipalTombstoned)).
Proof.
  intros Hx Hr. apply accept_inv in Hr as [[_ Hne]|(s2 & l0 & session & e & kind & at_ms & Hu & Hl & He & Hr)];
    [by edestruct Hne|].
  set (c := CallAccept pr cr context candidate proof ty delta) in *.
  apply (applied_answer c s2 l0 session) in Hr as [Hl' Ha]; [|done|by apply (exact_unmoved c s)|by rewrite Hu|done].
  destruct He as (Hv & _ & custody & t & -> & _). pose proof Ha as [Hspec _]%apply_event_spec_kept. unfold apply_event in Ha.
  unfold validate_active_ingress in Hv. apply then_ok in Hv as [_ Hv]. apply then_ok in Hv as [_ Hv].
  apply guard_ok in Hv as [_ Hv]. apply guard_ok in Hv as [_ Hv]. apply res_bind_ok in Hv as (id & Hid & Hv).
  apply guard_ok in Hv as [Hpid _]. guards_in Hpid.
  destruct (wr_authority (ld_record l0)); [done| |done]. destruct (wr_candidate (ld_record l0)); [|done..].
  apply then_ok in Ha as [_ Ha]. apply guard_ok in Ha as [_ Ha]. apply then_ok in Ha as [_ Ha]. apply guard_ok in Ha as [_ Ha].
  injection Ha as Ha. eapply accept_when_tombstoned; [by apply view_loaded | by rewrite <- Ha |].
  unfold worker_id. rewrite Hspec, Hpid. unfold PrincipalV1_id, domain_digest, expect_ok in *.
  destruct (canonicalize _); [|done..]. by injection Hid as <-.
Qed.

End Retries.

(** ** Properties *)

Section Properties.
  Context `{JcsLaws, !HexLaws, !Sha256Laws, SessionDecoders}.

(** C34. The coordinator refines the worker record.  Whatever call is made: if it
    succeeds, it answers with the session as the store now holds it; that session
    is as it was, or appeared pristine ([prepare]), or moved by exactly the event
    the call stands for under [WorkerSessionRecordV1::apply]; every other session
    is as it was.  If it fails, at whatever point, no session has changed.
    ([exact_call]: serde reads back the record that the call writes.) *)
Theorem worker_calls_refine_records c s s' result :
  exact_call c s -> worker_call c s = (s', result) ->
  match result with
  | Ok l =>
      let session := sp_session (wr_spec (ld_record l)) in
      session_view (st_db s') session = Some (ld_record l) /\
      (forall x, x <> session -> session_view (st_db s') x = session_view (st_db s) x) /\
      (session_view (st_db s) session = Some (ld_record l) \/
       advances c (session_view (st_db s) session) (ld_record l))
  | _ => forall x, session_view (st_db s') x = session_view (st_db s) x
  end.
Proof. apply call_refines. Qed.

(** C35. A tombstone in the store is final.  Once a session's record is tombstoned,
    no run of calls revives it or changes its tombstone, its specification or the
    candidate in custody, and [accept_candidate] for its principal is refused,
    with the store untouched, however often it is tried. *)
Theorem stored_tombstone_final s cs s' x r launch t cleanup :
  worker_run s cs s' -> session_view (st_db s) x = Some r -> wr_authority r = Tombstoned launch t cleanup ->
  (exists r', session_view (st_db s') x = Some r' /\ fenced launch t (wr_spec r) (custody_of (wr_candidate r)) r') /\
  forall pr cr context candidate proof ty delta, worker_id r = Ok (ic_principal_id context) ->
    accept_candidate pr cr context candidate proof ty delta s' = (s', Err (SessionFailure PrincipalTombstoned)).
Proof.
  intros Hrun Hv Ha. destruct (run_moves _ _ _ _ _ Hrun Hv) as [es Hes]. pose proof (view_valid _ _ _ Hv) as [Hval _].
  assert (fenced launch t (wr_spec r) (custody_of (wr_candidate r)) (record_after r es)) as Hf
    by (apply fenced_after; split; [done|]; split; [done|]; split; [done | by exists cleanup]).
  split; [eauto|]. intros pr cr context candidate proof ty delta Hw. destruct Hf as (Hs & _ & _ & cleanup' & Ha').
  eapply accept_when_tombstoned; [done | done|]. unfold worker_id. by rewrite Hs.
Qed.

(** C36. Startup recovery ends and fences every session.  With more fuel than there
    are session entities [recover_startup] returns; whatever it returns, every
    session is as it was or was open and is now tombstoned for the restart; and
    when it reports success every session is tombstoned and the two counts add up
    to the number of entities.  ([recovery_exact]: serde reads back the
    tombstoned records.) *)
Theorem recovery_fences_every_session fuel now s :
  recovery_exact now s -> page_request_ok (st_db s) SESSION_ENTITY_PREFIX RECOVERY_PAGE_SIZE ->
  length (prefixed_ids (st_db s) SESSION_ENTITY_PREFIX) < fuel ->
  exists s' result, recover_startup fuel now s = Some (s', result) /\
    (forall x, session_view (st_db s') x = session_view (st_db s) x \/
       exists r r', session_view (st_db s) x = Some r /\ session_view (st_db s') x = Some r' /\ restart_fenced now r r') /\
    forall report, result = Ok report ->
      (forall x r, session_view (st_db s') x = Some r -> tombstoned r = true) /\
      (rr_tombstoned report + rr_already_terminal report)%Z
        = Z.of_nat (length (prefixed_ids (st_db s) SESSION_ENTITY_PREFIX)).
Proof.
  intros Hx Hp Hf. assert (recovering now s s) as Hrec by (split; [done|]; intros x; by left).
  destruct (recover_pages_spec now s fuel Hx Hp [] None (prefixed_ids (st_db s) SESSION_ENTITY_PREFIX) (mkReport 0 0) s Hrec)
    as (s' & result & Hrun & [Hent Hv] & _ & Hok); [done | done|].
  exists s', result. split; [done|]. split; [done|]. intros report ->. destruct (Hok report eq_refl) as [Hall Hn].
  split; [|done]. intros x r Hr.
  assert (session_entity x ∈ prefixed_ids (st_db s) SESSION_ENTITY_PREFIX) as Hin.
  { apply prefixed_ids_elem. split; [|apply starts_with_spec; by eexists]. by eapply Hent, view_entity. }
  rewrite Forall_forall in Hall. destruct (Hall _ Hin) as (y & r' & <-%session_entity_inj & Hy & Ht). congruence.
Qed.

(** Retries are idempotent.  A call that succeeded answers the same when it is
    repeated, and leaves the store as it is; only [accept_candidate] is
    different, whose repetition is refused because its principal is fenced. *)
Theorem worker_retries_idempotent c s s' l :
  exact_call c s -> worker_call c s = (s', Ok l) ->
  worker_call c s' = (s', match c with
                          | CallAccept _ _ _ _ _ _ _ => Err (SessionFailure PrincipalTombstoned)
                          | _ => Ok l
                          end).
Proof.
  intros Hx Hr. destruct c; [by eapply prepare_retry | by eapply activate_retry | by eapply accept_retry
    | by eapply tombstone_retry | by eapply cleanup_retry | by eapply outcome_retry].
Qed.

End Properties.

(** ** A concrete session *)

Module ToyWorker.
Definition pristine : WorkerSessionRecordV1 := mkRecord WORKER_SESSION_RECORD_SCHEMA_V1 toy_spec Prepared Awaiting.
Definition session : SessionId := sp_session toy_spec.
Definition fence : WorkerPrincipalTombstoneV1 := mkTombstone toy_worker_id session (worker_nonce pristine) RestartRecovery 2000.
Definition closed : WorkerSessionRecordV1 := record_try pristine (Tombstone fence).
Definition cleaned : WorkerSessionRecordV1 := record_try closed (CompleteCleanup (toy_d 40) 3000).
Definition index : WorkerPrincipalIndexV1 :=
  unwrap_or (mkIndex "" toy_worker_id session (worker_nonce pristine) (toy_d 0)) (principal_index pristine).
#[global] Instance decoders : SessionDecoders := {
  decode_record b :=
    match List.find (fun r => bool_decide (toy_encoding r = b)) [pristine; closed; cleaned] with
    | Some r => inr r
    | None => inl "not a record"
    end;
  decode_index b := if bool_decide (toy_encoding index = b) then inr index else inl "not an index"
}.
Definition start : StoreState := mkStoreState ToyStore.created ∅.
Definition prepared : StoreState := (worker_call (CallPrepare pristine 1000) start).1.
Definition fenced_store : StoreState := (worker_call (CallTombstone session RestartRecovery 2000) prepared).1.
End ToyWorker.

Lemma toy_prepare_exact : exact_call (CallPrepare ToyWorker.pristine 1000) ToyWorker.start.
Proof.
  split.
  - intros b Hb. vm_compute in Hb. injection Hb as <-. vm_compute. reflexivity.
  - intros index Hi b Hb. vm_compute in Hi. injection Hi as <-. vm_compute in Hb. injection Hb as <-. vm_compute. reflexivity.
Qed.
Lemma toy_prepared : exists l, worker_call (CallPrepare ToyWorker.pristine 1000) ToyWorker.start = (ToyWorker.prepared, Ok l).
Proof. eexists. vm_compute. reflexivity. Qed.

Lemma worker_calls_refine_records_witness :
  exists l, worker_call (CallPrepare ToyWorker.pristine 1000) ToyWorker.start = (ToyWorker.prepared, Ok l) /\
    session_view (st_db ToyWorker.prepared) (sp_session (wr_spec (ld_record l))) = Some (ld_record l).
Proof.
  destruct toy_prepared as [l Hl]. exists l. split; [exact Hl|].
  exact (proj1 (worker_calls_refine_records _ _ _ _ toy_prepare_exact Hl)).
Defined.

Lemma worker_retries_idempotent_witness :
  exists l, worker_call (CallPrepare ToyWorker.pristine 1000) ToyWorker.prepared = (ToyWorker.prepared, Ok l).
Proof.
  destruct toy_prepared as [l Hl]. exists l. exact (worker_retries_idempotent _ _ _ _ toy_prepare_exact Hl).
Defined.

Lemma toy_stored_exactly : Forall stored_exactly [ToyWorker.pristine; ToyWorker.closed; ToyWorker.cleaned].
Proof. repeat constructor; intros b Hb; vm_compute in Hb; injection Hb as <-; vm_compute; reflexivity. Qed.
Lemma toy_prepared_view : session_view (st_db ToyWorker.prepared) ToyWorker.session = Some ToyWorker.pristine.
Proof. vm_compute. reflexivity. Qed.
Lemma toy_fenced_view : session_view (st_db ToyWorker.fenced_store) ToyWorker.session = Some ToyWorker.closed.
Proof. vm_compute. reflexivity. Qed.
Lemma toy_closed_authority : wr_authority ToyWorker.closed = Tombstoned None ToyWorker.fence CleanupPending.
Proof. vm_compute. reflexivity. Qed.

Lemma toy_cleanup_exact : exact_call (CallCleanup ToyWorker.session (toy_d 40) 3000) ToyWorker.fenced_store.
Proof.
  intros x next (r & e & Hv & [Hs ->] & Ha). pose proof (view_valid _ _ _ Hv) as [_ Hx]. rewrite <- Hx, Hs in Hv.
  rewrite toy_fenced_view in Hv. apply (inj Some) in Hv as <-. assert (next = ToyWorker.cleaned) as ->.
  { unfold ToyWorker.cleaned, record_try. by rewrite Ha. }
  apply (proj1 (Forall_forall _ _) toy_stored_exactly). right. right. by left.
Qed.

Lemma stored_tombstone_final_witness :
  exists s' r', worker_run ToyWorker.fenced_store [CallCleanup ToyWorker.session (toy_d 40) 3000] s' /\
    session_view (st_db s') ToyWorker.session = Some r' /\ fenced None ToyWorker.fence toy_spec None r'.
Proof.
  destruct (worker_call (CallCleanup ToyWorker.session (toy_d 40) 3000) ToyWorker.fenced_store) as [s1 r1] eqn:Hc.
  assert (worker_run ToyWorker.fenced_store [CallCleanup ToyWorker.session (toy_d 40) 3000] s1) as Hrun.
  { econstructor; [exact toy_cleanup_exact | exact Hc | constructor]. }
  destruct (stored_tombstone_final _ _ _ ToyWorker.session _ _ _ _ Hrun toy_fenced_view toy_closed_authority)
    as [(r' & Hv & Hf) _]. exists s1, r'. split; [exact Hrun|]. split; [exact Hv | exact Hf].
Defined.

Lemma toy_only_session x r : session_view (st_db ToyWorker.prepared) x = Some r -> x = ToyWorker.session.
Proof.
  intros Hin%view_entity.
  assert (map st_entity_id (db_states (st_db ToyWorker.prepared)) = [session_entity ToyWorker.session; principal_entity toy_worker_id]) as Hm
    by (vm_compute; reflexivity).
  rewrite Hm in Hin. apply elem_of_cons in Hin as [Hx%session_entity_inj|Hin]; [done|].
  apply list_elem_of_singleton in Hin. exfalso. exact (entities_disjoint _ _ Hin).
Qed.
Lemma toy_worker_identified : worker_id ToyWorker.pristine = Ok toy_worker_id.
Proof. vm_compute. reflexivity. Qed.
Lemma toy_recovery_exact : recovery_exact 2000 ToyWorker.prepared.
Proof.
  intros x r r' Hv (_ & t & (id & Hid & ->) & Ha). pose proof (toy_only_session _ _ Hv) as ->.
  rewrite toy_prepared_view in Hv. apply (inj Some) in Hv as <-. rewrite toy_worker_identified in Hid.
  apply (inj Ok) in Hid as <-.
  assert (r' = ToyWorker.closed) as ->.
  { unfold ToyWorker.closed, record_try, ToyWorker.fence. change ToyWorker.session with (sp_session (wr_spec ToyWorker.pristine)).
    by rewrite Ha. }
  apply (proj1 (Forall_forall _ _) toy_stored_exactly). right. by left.
Qed.
Lemma toy_recovery_page : page_request_ok (st_db ToyWorker.prepared) SESSION_ENTITY_PREFIX RECOVERY_PAGE_SIZE.
Proof.
  split; [vm_compute; reflexivity|]. split; [by vm_compute|]. apply Forall_forall. vm_compute. repeat constructor.
Qed.

Lemma recovery_fences_every_session_witness :
  exists s' result, recover_startup 2 2000 ToyWorker.prepared = Some (s', result) /\
    forall report, result = Ok report ->
      (forall x r, session_view (st_db s') x = Some r -> tombstoned r = true) /\
      (rr_tombstoned report + rr_already_terminal report)%Z = 1%Z.
Proof.
  destruct (recovery_fences_every_session 2 2000 ToyWorker.prepared toy_recovery_exact toy_recovery_page)
    as (s' & result & Hrun & _ & Hok).
  - vm_compute. lia.
  - exists s', result. split; [exact Hrun|]. intros report Hr. destruct (Hok report Hr) as [Hall Hn].
    split; [exact Hall|]. rewrite Hn. vm_compute. reflexivity.
Defined.
(** Recovery of the store with one open session. *)
Example toy_recovery_counts : option_map snd (recover_startup 2 2000 ToyWorker.prepared) = Some (Ok (mkReport 1 0)).
Proof. vm_compute. reflexivity. Qed.
