(* ===== verification/Executor.v ===== *)
(** * The effect executor: capabilities and receipts (ag-effect/src/executor.rs)

    The executor consumes one burned permit and answers with one receipt.  The
    helper that moves managed pointers and the systemd backend are the traits
    that the source injects, as classes over a host that a call may change; a
    call's answer is checked against its request field by field before it counts
    as a success.  Managed files are in [ExecutorFiles]. *)

From S2P Require Import Prelude Wire Fixture Digest Names Origin Identity Paths Effect Compile.

Definition EXECUTION_RECEIPT_SCHEMA_V1 : string := "ag.effect.execution-receipt/v1".

(** ** Data *)

Record BurnedExecutionPermitV1 : Type := mkPermit {
  bp_proposal : Digest;
  bp_authorization : Digest;
  bp_attempt : Digest;
  bp_effect_index : Z;
  bp_preparation_checkpoint : option Digest
}.
Definition from_durable_burn (proposal authorization attempt : Digest) (effect_index : Z) : BurnedExecutionPermitV1 :=
  mkPermit proposal authorization attempt effect_index None.
Definition from_durable_preparation (proposal authorization attempt : Digest) (effect_index : Z) (checkpoint : Digest)
    : BurnedExecutionPermitV1 :=
  mkPermit proposal authorization attempt effect_index (Some checkpoint).

Record ManagedFilePolicyV1 : Type := mkFilePolicy {
  fp_max_content_bytes : Z;
  fp_trusted_ancestor_uid : Z;
  fp_trusted_parent_uid : Z;
  fp_require_private_parent_writes : bool
}.
Definition ManagedFilePolicyV1_default : ManagedFilePolicyV1 := mkFilePolicy (64 * 1024 * 1024) 0 0 true.

Record ArtifactReadErrorV1 : Type := mkArtifactError { ae_code : string; ae_detail : string }.

Record CapabilityFailureV1 : Type := mkCapabilityFailure {
  cf_code : string;
  cf_detail : string;
  cf_evidence : option Digest
}.
Record CapabilityIndeterminateV1 : Type := mkCapabilityIndeterminate {
  ci_code : string;
  ci_detail : string;
  ci_evidence : option Digest
}.
Inductive CapabilityOutcomeV1 (T : Type) : Type :=
  | CapSucceeded (x : T)
  | CapFailed (e : CapabilityFailureV1)
  | CapIndeterminate (e : CapabilityIndeterminateV1).
Arguments CapSucceeded {T} _.
Arguments CapFailed {T} _.
Arguments CapIndeterminate {T} _.

Record PinnedHelperIdentityV1 : Type := mkHelperIdentity { hi_executable : Digest; hi_launch_profile : Digest }.

Record PointerPreparationRequestV1 : Type := mkPreparationRequest {
  qr_schema : string;
  qr_operation_id : Digest;
  qr_allowed_root : string;
  qr_repository : string;
  qr_reference : string;
  qr_repository_identity : Digest;
  qr_repository_device : Z;
  qr_repository_inode : Z;
  qr_git_directory_device : Z;
  qr_git_directory_inode : Z;
  qr_uid : Z;
  qr_gid : Z;
  qr_staging_root : string;
  qr_artifact : Digest;
  qr_candidate_pack_digest : Digest;
  qr_object_format : GitObjectFormatV1;
  qr_expected_object : string;
  qr_expected_tree : string;
  qr_new_object : string;
  qr_expected_post_tree : string;
  qr_expires_unix_ms : Z
}.
#[global] Instance PointerPreparationRequestV1_serialize : Serialize PointerPreparationRequestV1 := fun r =>
  VObject [("schema", to_value (qr_schema r)); ("operation_id", to_value (qr_operation_id r));
    ("allowed_root", to_value (qr_allowed_root r)); ("repository", to_value (qr_repository r));
    ("reference", to_value (qr_reference r)); ("repository_identity", to_value (qr_repository_identity r));
    ("repository_device", to_value (qr_repository_device r)); ("repository_inode", to_value (qr_repository_inode r));
    ("git_directory_device", to_value (qr_git_directory_device r));
    ("git_directory_inode", to_value (qr_git_directory_inode r)); ("uid", to_value (qr_uid r));
    ("gid", to_value (qr_gid r)); ("staging_root", to_value (qr_staging_root r)); ("artifact", to_value (qr_artifact r));
    ("candidate_pack_digest", to_value (qr_candidate_pack_digest r)); ("object_format", to_value (qr_object_format r));
    ("expected_object", to_value (qr_expected_object r)); ("expected_tree", to_value (qr_expected_tree r));
    ("new_object", to_value (qr_new_object r)); ("expected_post_tree", to_value (qr_expected_post_tree r));
    ("expires_unix_ms", to_value (qr_expires_unix_ms r))].

Record PointerPreparationSuccessV1 : Type := mkPreparationSuccess {
  ps_request_digest : Digest;
  ps_operation_id : Digest;
  ps_artifact : Digest;
  ps_candidate_pack_digest : Digest;
  ps_current_object : string;
  ps_current_tree : string;
  ps_candidate_object : string;
  ps_candidate_tree : string;
  ps_preparation_checkpoint : Digest;
  ps_evidence : Digest
}.

Record PointerCasRequestV1 : Type := mkCasRequest {
  cq_schema : string;
  cq_operation_id : Digest;
  cq_preparation_checkpoint : Digest;
  cq_allowed_root : string;
  cq_repository : string;
  cq_reference : string;
  cq_repository_identity : Digest;
  cq_prestate_identity : Digest;
  cq_repository_device : Z;
  cq_repository_inode : Z;
  cq_git_directory_device : Z;
  cq_git_directory_inode : Z;
  cq_uid : Z;
  cq_gid : Z;
  cq_staging_root : string;
  cq_artifact : Digest;
  cq_candidate_pack_digest : Digest;
  cq_object_format : GitObjectFormatV1;
  cq_expected_object : string;
  cq_expected_tree : string;
  cq_new_object : string;
  cq_expected_post_tree : string;
  cq_expires_unix_ms : Z
}.
#[global] Instance PointerCasRequestV1_serialize : Serialize PointerCasRequestV1 := fun r =>
  VObject [("schema", to_value (cq_schema r)); ("operation_id", to_value (cq_operation_id r));
    ("preparation_checkpoint", to_value (cq_preparation_checkpoint r));
    ("allowed_root", to_value (cq_allowed_root r)); ("repository", to_value (cq_repository r));
    ("reference", to_value (cq_reference r)); ("repository_identity", to_value (cq_repository_identity r));
    ("prestate_identity", to_value (cq_prestate_identity r));
    ("repository_device", to_value (cq_repository_device r)); ("repository_inode", to_value (cq_repository_inode r));
    ("git_directory_device", to_value (cq_git_directory_device r));
    ("git_directory_inode", to_value (cq_git_directory_inode r)); ("uid", to_value (cq_uid r));
    ("gid", to_value (cq_gid r)); ("staging_root", to_value (cq_staging_root r)); ("artifact", to_value (cq_artifact r));
    ("candidate_pack_digest", to_value (cq_candidate_pack_digest r)); ("object_format", to_value (cq_object_format r));
    ("expected_object", to_value (cq_expected_object r)); ("expected_tree", to_value (cq_expected_tree r));
    ("new_object", to_value (cq_new_object r)); ("expected_post_tree", to_value (cq_expected_post_tree r));
    ("expires_unix_ms", to_value (cq_expires_unix_ms r))].

Record PointerCasSuccessV1 : Type := mkCasSuccess {
  cs_request_digest : Digest;
  cs_operation_id : Digest;
  cs_preparation_checkpoint : Digest;
  cs_repository_identity : Digest;
  cs_prestate_identity : Digest;
  cs_repository_device : Z;
  cs_repository_inode : Z;
  cs_git_directory_device : Z;
  cs_git_directory_inode : Z;
  cs_candidate_pack_digest : Digest;
  cs_previous_object : string;
  cs_previous_tree : string;
  cs_installed_object : string;
  cs_installed_tree : string;
  cs_evidence : Digest;
  cs_poststate_evidence : Digest
}.

Record SystemdUnitRequestV1 : Type := mkUnitRequest {
  ur_unit : string;
  ur_action : SystemdUnitActionV1;
  ur_expected_active_state : string;
  ur_expected_unit_file_state : string
}.
Record SystemdUnitSuccessV1 : Type := mkUnitSuccess {
  us_unit : string;
  us_action : SystemdUnitActionV1;
  us_previous_active_state : string;
  us_previous_unit_file_state : string;
  us_resulting_active_state : string;
  us_resulting_unit_file_state : string;
  us_evidence : Digest
}.
Record SystemdManagerReloadRequestV1 : Type := mkReloadRequest { mr_machine_identity : string; mr_expected_generation : Z }.
Record SystemdManagerReloadSuccessV1 : Type := mkReloadSuccess {
  ms_machine_identity : string;
  ms_resulting_generation : Z;
  ms_evidence : Digest
}.

Inductive EffectSuccessV1 : Type :=
  | FilePutSuccess (previous_content : option Digest) (installed_content : Digest) (quarantine_name : option string)
      (content_fsynced directory_fsynced : bool)
  | FileDeleteSuccess (previous_content : Digest) (quarantine_name : string) (directory_fsynced : bool)
  | PromotionSuccess (operation_id candidate_pack_digest preparation_checkpoint : Digest)
      (previous_object previous_tree installed_object installed_tree : string) (evidence poststate_evidence : Digest)
  | UnitSuccess (resulting_active_state resulting_unit_file_state : string) (evidence : Digest)
  | ReloadSuccess (resulting_generation : Z) (evidence : Digest).
Inductive ExecutionFailureCodeV1 : Type :=
  | ArtifactUnavailable | ArtifactDigestMismatch | InvalidManagedPath | UnsafeTargetFailure | PrestateDrift
  | MetadataRejected | HelperUnavailable | HelperIdentityMismatch | BackendRejected | LocalIoBeforeCommit.
Inductive ExecutionIndeterminateCodeV1 : Type :=
  | BackendOutcomeUnknown | BackendContractViolation | DurabilityAfterCommit | RollbackUnproven.
Inductive ExecutionPhaseV1 : Type :=
  | ReceiptValidation | ArtifactLoad | ParentResolution | PrestateCheck | Staging | PromotionPreparation
  | PromotionObjectImport | PhaseCommit | MetadataTransfer | Quarantine | DirectorySync | HelperIdentity | PointerCas
  | PromotionPoststateVerification | SystemdDbus.
Record ExecutionFailureV1 : Type := mkFailure {
  xf_code : ExecutionFailureCodeV1;
  xf_phase : ExecutionPhaseV1;
  xf_detail : string;
  xf_source_code : option string;
  xf_evidence : option Digest
}.
Record ExecutionIndeterminateV1 : Type := mkIndeterminate {
  xi_code : ExecutionIndeterminateCodeV1;
  xi_phase : ExecutionPhaseV1;
  xi_detail : string;
  xi_source_code : option string;
  xi_evidence : option Digest
}.
Inductive ExecutionOutcomeV1 : Type :=
  | OutSucceeded (success : EffectSuccessV1)
  | OutFailed (failure : ExecutionFailureV1)
  | OutIndeterminate (envelope : ExecutionIndeterminateV1).
Record ExecutionReceiptV1 : Type := mkExecutionReceipt {
  xr_schema : string;
  xr_proposal : Digest;
  xr_authorization : Digest;
  xr_attempt : Digest;
  xr_effect_index : Z;
  xr_effect : CanonicalEffectV1;
  xr_outcome : ExecutionOutcomeV1
}.
Inductive ExecutionReceiptError : Type := ReceiptCanonical (message : string) | BindingMismatch.

#[global] Instance EffectSuccessV1_serialize : Serialize EffectSuccessV1 := fun s =>
  VObject match s with
  | FilePutSuccess p i q c d =>
      [("kind", VString "managed_file_put"); ("previous_content", to_value p); ("installed_content", to_value i);
       ("quarantine_name", to_value q); ("content_fsynced", to_value c); ("directory_fsynced", to_value d)]
  | FileDeleteSuccess p q d =>
      [("kind", VString "managed_file_delete"); ("previous_content", to_value p); ("quarantine_name", to_value q);
       ("directory_fsynced", to_value d)]
  | PromotionSuccess o c p po pt io it e pe =>
      [("kind", VString "managed_pointer_promotion"); ("operation_id", to_value o); ("candidate_pack_digest", to_value c);
       ("preparation_checkpoint", to_value p); ("previous_object", to_value po); ("previous_tree", to_value pt);
       ("installed_object", to_value io); ("installed_tree", to_value it); ("evidence", to_value e);
       ("poststate_evidence", to_value pe)]
  | UnitSuccess a f e =>
      [("kind", VString "systemd_unit"); ("resulting_active_state", to_value a);
       ("resulting_unit_file_state", to_value f); ("evidence", to_value e)]
  | ReloadSuccess g e =>
      [("kind", VString "systemd_manager_reload"); ("resulting_generation", to_value g); ("evidence", to_value e)]
  end.
#[global] Instance ExecutionFailureCodeV1_serialize : Serialize ExecutionFailureCodeV1 := fun c =>
  VString match c with
          | ArtifactUnavailable => "artifact_unavailable" | ArtifactDigestMismatch => "artifact_digest_mismatch"
          | InvalidManagedPath => "invalid_managed_path" | UnsafeTargetFailure => "unsafe_target"
          | PrestateDrift => "prestate_drift" | MetadataRejected => "metadata_rejected"
          | HelperUnavailable => "helper_unavailable" | HelperIdentityMismatch => "helper_identity_mismatch"
          | BackendRejected => "backend_rejected" | LocalIoBeforeCommit => "local_io_before_commit"
          end.
#[global] Instance ExecutionIndeterminateCodeV1_serialize : Serialize ExecutionIndeterminateCodeV1 := fun c =>
  VString match c with
          | BackendOutcomeUnknown => "backend_outcome_unknown" | BackendContractViolation => "backend_contract_violation"
          | DurabilityAfterCommit => "durability_after_commit" | RollbackUnproven => "rollback_unproven"
          end.
#[global] Instance ExecutionPhaseV1_serialize : Serialize ExecutionPhaseV1 := fun p =>
  VString match p with
          | ReceiptValidation => "receipt_validation" | ArtifactLoad => "artifact_load"
          | ParentResolution => "parent_resolution" | PrestateCheck => "prestate_check" | Staging => "staging"
          | PromotionPreparation => "promotion_preparation" | PromotionObjectImport => "promotion_object_import"
          | PhaseCommit => "commit" | MetadataTransfer => "metadata_transfer" | Quarantine => "quarantine"
          | DirectorySync => "directory_sync" | HelperIdentity => "helper_identity" | PointerCas => "pointer_cas"
          | PromotionPoststateVerification => "promotion_poststate_verification" | SystemdDbus => "systemd_dbus"
          end.
#[global] Instance ExecutionFailureV1_serialize : Serialize ExecutionFailureV1 := fun f =>
  VObject [("code", to_value (xf_code f)); ("phase", to_value (xf_phase f)); ("detail", to_value (xf_detail f));
           ("source_code", to_value (xf_source_code f)); ("evidence", to_value (xf_evidence f))].
#[global] Instance ExecutionIndeterminateV1_serialize : Serialize ExecutionIndeterminateV1 := fun f =>
  VObject [("code", to_value (xi_code f)); ("phase", to_value (xi_phase f)); ("detail", to_value (xi_detail f));
           ("source_code", to_value (xi_source_code f)); ("evidence", to_value (xi_evidence f))].
#[global] Instance ExecutionOutcomeV1_serialize : Serialize ExecutionOutcomeV1 := fun o =>
  VObject match o with
  | OutSucceeded s => [("status", VString "succeeded"); ("success", to_value s)]
  | OutFailed f => [("status", VString "failed"); ("failure", to_value f)]
  | OutIndeterminate e => [("status", VString "indeterminate"); ("envelope", to_value e)]
  end.
#[global] Instance ExecutionReceiptV1_serialize : Serialize ExecutionReceiptV1 := fun r =>
  VObject [("schema", to_value (xr_schema r)); ("proposal", to_value (xr_proposal r));
           ("authorization", to_value (xr_authorization r)); ("attempt", to_value (xr_attempt r));
           ("effect_index", to_value (xr_effect_index r)); ("effect", to_value (xr_effect r));
           ("outcome", to_value (xr_outcome r))].

(** The displayed text of errors that end up in a receipt. *)
Class JcsErrorText := jcs_text : JcsError -> string.

(** ** The injected capabilities

    [X] is the world behind the three capabilities; a call may change it. *)

(** [trait ArtifactSourceV1]. *)
Class ArtifactSourceV1 (X : Type) := artifact_load : Digest -> X -> X * (ArtifactReadErrorV1 + bytes).
Definition load_artifact `{ArtifactSourceV1 X} (digest : Digest) : ST X ArtifactReadErrorV1 bytes := fun x =>
  let (x', r) := artifact_load digest x in (x', match r with inl e => Err e | inr b => Ok b end).
Definition Capability (X T : Type) : Type := X -> X * CapabilityOutcomeV1 T.
(** [trait PinnedPointerHelperV1]. *)
Class PinnedPointerHelperV1 (X : Type) := {
  helper_identity : Capability X PinnedHelperIdentityV1;
  helper_prepare : PointerPreparationRequestV1 -> bytes -> Capability X PointerPreparationSuccessV1;
  compare_and_swap : PointerCasRequestV1 -> Capability X PointerCasSuccessV1
}.
(** [trait SystemdDbusBackendV1]. *)
Class SystemdDbusBackendV1 (X : Type) := {
  unit_action : SystemdUnitRequestV1 -> Capability X SystemdUnitSuccessV1;
  reload_manager : SystemdManagerReloadRequestV1 -> Capability X SystemdManagerReloadSuccessV1
}.
(** A call of a capability answers, whatever it answers. *)
Definition invoke {X T E} (c : Capability X T) : ST X E (CapabilityOutcomeV1 T) := fun x => let (x', o) := c x in (x', Ok o).

(** ** Outcomes *)

Definition success (s : EffectSuccessV1) : ExecutionOutcomeV1 := OutSucceeded s.
Definition failure_with_source (code : ExecutionFailureCodeV1) (phase : ExecutionPhaseV1) (detail : string)
    (source_code : option string) (evidence : option Digest) : ExecutionOutcomeV1 :=
  OutFailed (mkFailure code phase detail source_code evidence).
Definition failure (code : ExecutionFailureCodeV1) (phase : ExecutionPhaseV1) (detail : string) (evidence : option Digest)
    : ExecutionOutcomeV1 :=
  failure_with_source code phase detail None evidence.
Definition indeterminate_with_source (code : ExecutionIndeterminateCodeV1) (phase : ExecutionPhaseV1) (detail : string)
    (source_code : option string) (evidence : option Digest) : ExecutionOutcomeV1 :=
  OutIndeterminate (mkIndeterminate code phase detail source_code evidence).
Definition indeterminate (code : ExecutionIndeterminateCodeV1) (phase : ExecutionPhaseV1) (detail : string)
    (evidence : option Digest) : ExecutionOutcomeV1 :=
  indeterminate_with_source code phase detail None evidence.

Section Capabilities.
  Context `{Deps, JcsErrorText}.

(** [ExecutionReceiptV1::digest] and [::verify_bindings]. *)
Definition receipt_digest (r : ExecutionReceiptV1) : res ExecutionReceiptError Digest :=
  map_err (fun e => ReceiptCanonical (jcs_text e)) (from_serializable r).
Definition receipt_verify_bindings (r : ExecutionReceiptV1) (proposal authorization attempt : Digest) (effect_index : Z)
    (effect : CanonicalEffectV1) : res ExecutionReceiptError unit :=
  reject_if ((xr_schema r != EXECUTION_RECEIPT_SCHEMA_V1)
             || (xr_proposal r != proposal)
             || (xr_authorization r != authorization)
             || (xr_attempt r != attempt)
             || (xr_effect_index r != effect_index)
             || (xr_effect r != effect)) BindingMismatch.

Section World.
  Context {X : Type} `{!ArtifactSourceV1 X, !PinnedPointerHelperV1 X, !SystemdDbusBackendV1 X}.

(** The request that [prepare_pointer] builds. *)
Definition preparation_request (p : PromotionEffect) : PointerPreparationRequestV1 :=
  mkPreparationRequest (pp_schema p) (pp_operation_id p) (pp_allowed_root p) (pp_repository p) (pp_reference p)
    (pp_repository_identity p) (pp_repository_device p) (pp_repository_inode p) (pp_git_directory_device p)
    (pp_git_directory_inode p) (pp_uid p) (pp_gid p) (pp_staging_root p) (pp_artifact p) (pp_candidate_pack_digest p)
    (pp_object_format p) (pp_expected_object p) (pp_expected_tree p) (pp_new_object p) (pp_expected_post_tree p)
    (pp_expires_unix_ms p).
(** The guard on its answer. *)
Definition preparation_exact (p : PromotionEffect) (request_digest : Digest) (result : PointerPreparationSuccessV1) : bool :=
  (ps_request_digest result == request_digest) && (ps_operation_id result == pp_operation_id p)
  && (ps_artifact result == pp_artifact p) && (ps_candidate_pack_digest result == pp_candidate_pack_digest p)
  && (ps_current_object result == pp_expected_object p) && (ps_current_tree result == pp_expected_tree p)
  && (ps_candidate_object result == pp_new_object p) && (ps_candidate_tree result == pp_expected_post_tree p).

(** [EffectExecutorV1::prepare_pointer]. *)
Definition prepare_pointer (effect : CanonicalEffectV1) : ST X Empty_set (CapabilityOutcomeV1 PointerPreparationSuccessV1) :=
  returning (
    let! p := pure match effect with
                   | EffManagedPointerPromotion p => Ok p
                   | _ => Err (CapFailed (mkCapabilityFailure "not_managed_pointer_promotion"
                                            "promotion preparation received another effect family" None))
                   end in
    pure (reject_if (pp_schema p != MANAGED_POINTER_PROMOTION_SCHEMA_V2)
            (CapFailed (mkCapabilityFailure "promotion_schema_mismatch"
                          "canonical effect names an unsupported promotion contract" None))) ;!
    let! b := st_map_err (fun error => CapFailed (mkCapabilityFailure (ae_code error) (ae_detail error) None))
                (load_artifact (pp_artifact p)) in
    pure (reject_if (hash_bytes b != pp_artifact p)
            (CapFailed (mkCapabilityFailure "artifact_digest_mismatch"
                          "artifact source returned bytes outside canonical custody" None))) ;!
    let! identity := invoke helper_identity in
    pure match identity with
         | CapSucceeded identity =>
             if (hi_executable identity == pp_helper_executable p)
                && (hi_launch_profile identity == pp_helper_launch_profile p)
             then Ok tt
             else Err (CapFailed (mkCapabilityFailure "helper_identity_mismatch"
                                    "opened helper bytes or profile differ from canonical proposal" None))
         | CapFailed error => Err (CapFailed error)
         | CapIndeterminate error => Err (CapIndeterminate error)
         end ;!
    let request := preparation_request p in
    let! request_digest := pure (map_err (fun error =>
           CapFailed (mkCapabilityFailure "preparation_request_canonicalization_failed" (jcs_text error) None))
           (from_serializable request)) in
    let! answer := invoke (helper_prepare request b) in
    pure (Ok match answer with
             | CapSucceeded result =>
                 if preparation_exact p request_digest result then CapSucceeded result
                 else CapIndeterminate (mkCapabilityIndeterminate "preparation_contract_violation"
                        "helper preparation evidence contradicts canonical promotion" (Some (ps_evidence result)))
             | CapFailed error => CapFailed error
             | CapIndeterminate error => CapIndeterminate error
             end)).

(** The request that [execute_pointer] builds, and the guard on its answer. *)
Definition cas_request (p : PromotionEffect) (checkpoint : Digest) : PointerCasRequestV1 :=
  mkCasRequest (pp_schema p) (pp_operation_id p) checkpoint (pp_allowed_root p) (pp_repository p) (pp_reference p)
    (pp_repository_identity p) (pp_prestate_identity p) (pp_repository_device p) (pp_repository_inode p)
    (pp_git_directory_device p) (pp_git_directory_inode p) (pp_uid p) (pp_gid p) (pp_staging_root p) (pp_artifact p)
    (pp_candidate_pack_digest p) (pp_object_format p) (pp_expected_object p) (pp_expected_tree p) (pp_new_object p)
    (pp_expected_post_tree p) (pp_expires_unix_ms p).
Definition cas_exact (p : PromotionEffect) (checkpoint request_digest : Digest) (result : PointerCasSuccessV1) : bool :=
  (cs_request_digest result == request_digest) && (cs_operation_id result == pp_operation_id p)
  && (cs_preparation_checkpoint result == checkpoint)
  && (cs_repository_identity result == pp_repository_identity p)
  && (cs_prestate_identity result == pp_prestate_identity p)
  && (cs_repository_device result == pp_repository_device p) && (cs_repository_inode result == pp_repository_inode p)
  && (cs_git_directory_device result == pp_git_directory_device p)
  && (cs_git_directory_inode result == pp_git_directory_inode p)
  && (cs_candidate_pack_digest result == pp_candidate_pack_digest p)
  && (cs_previous_object result == pp_expected_object p) && (cs_previous_tree result == pp_expected_tree p)
  && (cs_installed_object result == pp_new_object p) && (cs_installed_tree result == pp_expected_post_tree p).

(** [EffectExecutorV1::execute_pointer]. *)
Definition execute_pointer (permit : BurnedExecutionPermitV1) (effect : CanonicalEffectV1)
    : ST X Empty_set ExecutionOutcomeV1 :=
  returning (
    let! p := pure match effect with
                   | EffManagedPointerPromotion p => Ok p
                   | _ => Err (failure BackendRejected ReceiptValidation "pointer executor received another effect family" None)
                   end in
    pure (reject_if (pp_schema p != MANAGED_POINTER_PROMOTION_SCHEMA_V2)
            (failure BackendRejected ReceiptValidation "canonical effect names an unsupported promotion contract" None)) ;!
    let! preparation_checkpoint := pure (ok_or
           (failure BackendRejected ReceiptValidation "promotion commit lacks a durable preparation checkpoint" None)
           (bp_preparation_checkpoint permit)) in
    let! identity := invoke helper_identity in
    let! identity := pure match identity with
         | CapSucceeded identity => Ok identity
         | CapFailed error => Err (failure_with_source HelperUnavailable HelperIdentity (cf_detail error)
                                     (Some (cf_code error)) (cf_evidence error))
         | CapIndeterminate error => Err (indeterminate_with_source BackendOutcomeUnknown HelperIdentity (ci_detail error)
                                            (Some (ci_code error)) (ci_evidence error))
         end in
    pure (reject_if ((hi_executable identity != pp_helper_executable p)
                     || (hi_launch_profile identity != pp_helper_launch_profile p))
            (failure HelperIdentityMismatch HelperIdentity
               "opened helper bytes or launch profile differ from canonical proposal" None)) ;!
    let request := cas_request p preparation_checkpoint in
    let! request_digest := pure (map_err (fun error => failure BackendRejected ReceiptValidation (jcs_text error) None)
                                   (from_serializable request)) in
    let! answer := invoke (compare_and_swap request) in
    pure (Ok match answer with
             | CapSucceeded result =>
                 if cas_exact p preparation_checkpoint request_digest result
                 then success (PromotionSuccess (pp_operation_id p) (pp_candidate_pack_digest p) preparation_checkpoint
                                 (cs_previous_object result) (cs_previous_tree result) (cs_installed_object result)
                                 (cs_installed_tree result) (cs_evidence result) (cs_poststate_evidence result))
                 else indeterminate BackendContractViolation PromotionPoststateVerification
                        "helper success evidence contradicts the exact CAS request" (Some (cs_evidence result))
             | CapFailed error => failure_with_source BackendRejected PointerCas (cf_detail error) (Some (cf_code error))
                                    (cf_evidence error)
             | CapIndeterminate error => indeterminate_with_source BackendOutcomeUnknown PointerCas (ci_detail error)
                                           (Some (ci_code error)) (ci_evidence error)
             end)).

(** [EffectExecutorV1::execute_systemd_unit]. *)
Definition execute_systemd_unit (unit_ : string) (action : SystemdUnitActionV1)
    (expected_active_state expected_unit_file_state : string) : ST X Empty_set ExecutionOutcomeV1 :=
  let! answer := invoke (unit_action (mkUnitRequest unit_ action expected_active_state expected_unit_file_state)) in
  pure (Ok match answer with
           | CapSucceeded result =>
               if (us_unit result == unit_) && (us_action result == action)
                  && (us_previous_active_state result == expected_active_state)
                  && (us_previous_unit_file_state result == expected_unit_file_state)
               then success (UnitSuccess (us_resulting_active_state result) (us_resulting_unit_file_state result)
                               (us_evidence result))
               else indeterminate BackendContractViolation SystemdDbus
                      "systemd success evidence contradicts the exact unit request" (Some (us_evidence result))
           | CapFailed error => failure_with_source BackendRejected SystemdDbus (cf_detail error) (Some (cf_code error))
                                  (cf_evidence error)
           | CapIndeterminate error => indeterminate_with_source BackendOutcomeUnknown SystemdDbus (ci_detail error)
                                         (Some (ci_code error)) (ci_evidence error)
           end).

(** [EffectExecutorV1::execute_systemd_manager]. *)
Definition execute_systemd_manager (machine_identity : string) (expected_generation : Z)
    : ST X Empty_set ExecutionOutcomeV1 :=
  let! answer := invoke (reload_manager (mkReloadRequest machine_identity expected_generation)) in
  pure (Ok match answer with
           | CapSucceeded result =>
               if (ms_machine_identity result == machine_identity)
                  && (expected_generation <=? ms_resulting_generation result)%Z
               then success (ReloadSuccess (ms_resulting_generation result) (ms_evidence result))
               else indeterminate BackendContractViolation SystemdDbus
                      "systemd success evidence contradicts the exact manager request" (Some (ms_evidence result))
           | CapFailed error => failure_with_source BackendRejected SystemdDbus (cf_detail error) (Some (cf_code error))
                                  (cf_evidence error)
           | CapIndeterminate error => indeterminate_with_source BackendOutcomeUnknown SystemdDbus (ci_detail error)
                                         (Some (ci_code error)) (ci_evidence error)
           end).

End World.
End Capabilities.
