(* ===== verification/HostFiles.v ===== *)
(** * The host's file system, as system calls show it

    What ag-effect/src/executor.rs uses of Linux through rustix and [std::fs]:
    inodes, directory descriptors, [openat2], [fstat], positioned reads and
    writes, [renameat2], [unlinkat], [fchmod], [fchown] and [fsync].  A
    descriptor is the inode it pins.  Every call takes the next entry of a fault
    schedule: it may fail with an error number and no effect, or move fewer
    bytes than asked.  Theorems quantify over the schedule. *)

From S2P Require Import Prelude Paths.

(** ** Errors *)

Inductive Errno : Type := NOENT | EXIST | NOTDIR | ISDIR | LOOP | NOSYS | INVAL | INTR | BADF | OtherErrno (code : Z).
#[global] Instance Errno_eq_dec : EqDecision Errno.
Proof. solve_decision. Defined.
(** [std::io::Error]: what the kernel said, or [WriteZero]. *)
Inductive IoError : Type := Os (e : Errno) | WriteZero.
(** The displayed text of an error number. *)
Class ErrnoText := errno_text : Errno -> string.
Definition io_text `{ErrnoText} (e : IoError) : string :=
  match e with Os e => errno_text e | WriteZero => "failed to write whole buffer" end.

(** ** Inodes *)

Inductive NodeBody : Type :=
  | Regular (content : bytes)
  | Directory (entries : gmap string Z)
  | Symlink (target : string)
  | Special.
(** [nd_mode] holds the permission bits; [nd_dirty] says that a change has not
    been flushed. *)
Record Node : Type := mkNode {
  nd_dev : Z;
  nd_nlink : Z;
  nd_mode : Z;
  nd_uid : Z;
  nd_gid : Z;
  nd_mtime : Z;
  nd_ctime : Z;
  nd_dirty : bool;
  nd_body : NodeBody
}.

(** [struct stat]; the two halves of a time stamp are one number. *)
Record Stat : Type := mkStat {
  st_dev : Z;
  st_ino : Z;
  st_nlink : Z;
  st_mode : Z;
  st_uid : Z;
  st_gid : Z;
  st_size : Z;
  st_mtime : Z;
  st_ctime : Z
}.

Definition S_IFMT : Z := 61440.
Definition S_IFREG : Z := 32768.
Definition S_IFDIR : Z := 16384.
Definition S_IFLNK : Z := 40960.
Definition S_IFIFO : Z := 4096.
Definition S_ISGID : Z := 1024.
Definition type_bits (b : NodeBody) : Z :=
  match b with Regular _ => S_IFREG | Directory _ => S_IFDIR | Symlink _ => S_IFLNK | Special => S_IFIFO end.
Definition body_size (b : NodeBody) : Z :=
  match b with
  | Regular c => Z.of_nat (length c)
  | Directory m => Z.of_nat (size m)
  | Symlink t => Z.of_nat (String.length t)
  | Special => 0
  end.
Definition node_stat (ino : Z) (n : Node) : Stat :=
  mkStat (nd_dev n) ino (nd_nlink n) (Z.lor (type_bits (nd_body n)) (nd_mode n)) (nd_uid n) (nd_gid n)
    (body_size (nd_body n)) (nd_mtime n) (nd_ctime n).
(** [FileType::from_raw_mode(mode).is_file()] and [.is_dir()]. *)
Definition is_file (mode : Z) : bool := (Z.land mode S_IFMT =? S_IFREG)%Z.
Definition is_dir (mode : Z) : bool := (Z.land mode S_IFMT =? S_IFDIR)%Z.

(** ** The state *)

Inductive Fault : Type := NoFault | Fails (e : Errno) | Short (n : nat).
(** What survives a restart, and the process that makes the calls. *)
Record Disk : Type := mkDisk { dk_nodes : gmap Z Node; dk_root : Z; dk_next : Z }.
Record FileSystem : Type := mkFS {
  fs_disk : Disk;
  fs_now : Z;
  fs_faults : list Fault;
  fs_euid : Z;
  fs_egid : Z;
  fs_umask : Z
}.
Definition with_disk (d : Disk) (fs : FileSystem) : FileSystem :=
  mkFS d (fs_now fs) (fs_faults fs) (fs_euid fs) (fs_egid fs) (fs_umask fs).
Definition update_node (i : Z) (f : Node -> Node) (d : Disk) : Disk := mkDisk (alter f i (dk_nodes d)) (dk_root d) (dk_next d).
(** A call begins: time passes and one entry of the schedule is used. *)
Definition begin_call (fs : FileSystem) : FileSystem :=
  mkFS (fs_disk fs) (fs_now fs + 1) (tail (fs_faults fs)) (fs_euid fs) (fs_egid fs) (fs_umask fs).

Definition Fs (A : Type) : Type := ST FileSystem Errno A.
(** A call: what the schedule says, or [body] with the answer and the disk it
    leaves when it succeeds. *)
Definition syscall {A} (body : option nat -> FileSystem -> res Errno (Disk * A)) : Fs A := fun fs =>
  let fs' := begin_call fs in
  let run short :=
    match body short fs' with
    | Ok (d, a) => (with_disk d fs', Ok a)
    | Err e => (fs', Err e)
    | Panic => (fs', Panic)
    end in
  match head (fs_faults fs) with
  | Some (Fails e) => (fs', Err e)
  | Some (Short n) => run (Some n)
  | Some NoFault | None => run None
  end.
(** A call that only reads. *)
Definition query {A} (body : option nat -> Disk -> res Errno A) : Fs A :=
  syscall (fun short fs => let? a := body short (fs_disk fs) in Ok (fs_disk fs, a)).

Definition with_body (b : NodeBody) (n : Node) : Node :=
  mkNode (nd_dev n) (nd_nlink n) (nd_mode n) (nd_uid n) (nd_gid n) (nd_mtime n) (nd_ctime n) (nd_dirty n) b.
Definition with_ctime (now : Z) (n : Node) : Node :=
  mkNode (nd_dev n) (nd_nlink n) (nd_mode n) (nd_uid n) (nd_gid n) (nd_mtime n) now true (nd_body n).
Definition with_mtime (now : Z) (n : Node) : Node :=
  mkNode (nd_dev n) (nd_nlink n) (nd_mode n) (nd_uid n) (nd_gid n) now now true (nd_body n).
Definition with_mode (mode : Z) (n : Node) : Node :=
  mkNode (nd_dev n) (nd_nlink n) mode (nd_uid n) (nd_gid n) (nd_mtime n) (nd_ctime n) (nd_dirty n) (nd_body n).
Definition with_owner (uid gid : Z) (n : Node) : Node :=
  mkNode (nd_dev n) (nd_nlink n) (nd_mode n) uid gid (nd_mtime n) (nd_ctime n) (nd_dirty n) (nd_body n).
Definition with_nlink (k : Z) (n : Node) : Node :=
  mkNode (nd_dev n) k (nd_mode n) (nd_uid n) (nd_gid n) (nd_mtime n) (nd_ctime n) (nd_dirty n) (nd_body n).
Definition with_dirty (d : bool) (n : Node) : Node :=
  mkNode (nd_dev n) (nd_nlink n) (nd_mode n) (nd_uid n) (nd_gid n) (nd_mtime n) (nd_ctime n) d (nd_body n).

(** The entries of a directory, and a name in it. *)
Definition node_of (i : Z) (d : Disk) : res Errno Node := ok_or BADF (dk_nodes d !! i).
Definition node_entries (n : Node) : res Errno (gmap string Z) :=
  match nd_body n with Directory m => Ok m | _ => Err NOTDIR end.
Definition node_content (n : Node) : res Errno bytes :=
  match nd_body n with Regular c => Ok c | Directory _ => Err ISDIR | _ => Err INVAL end.
Definition dir_entries (dir : Z) (d : Disk) : res Errno (gmap string Z) := let? n := node_of dir d in node_entries n.
Definition dir_lookup (dir : Z) (name : string) (d : Disk) : res Errno Z :=
  let? m := dir_entries dir d in ok_or NOENT (m !! name).
(** A directory whose entries change. *)
Definition edit_entries (f : gmap string Z -> gmap string Z) (now : Z) (n : Node) : Node :=
  match nd_body n with Directory m => with_mtime now (with_body (Directory (f m)) n) | _ => n end.

(** ** System calls *)

Inductive OFlag : Type := RDONLY | DIRECTORY | CLOEXEC | NOFOLLOW | NONBLOCK | OPATH.
#[global] Instance OFlag_eq_dec : EqDecision OFlag.
Proof. solve_decision. Defined.
Definition has_flag (f : OFlag) (flags : list OFlag) : bool := existsb (fun g => f == g) flags.

(** The last step of an open, on a name that exists: links are never followed. *)
Definition open_existing (i : Z) (flags : list OFlag) (d : Disk) : res Errno Z :=
  let? n := node_of i d in
  match nd_body n with
  | Directory _ => Ok i
  | Symlink _ => Err (if has_flag DIRECTORY flags then NOTDIR else LOOP)
  | _ => if has_flag DIRECTORY flags then Err NOTDIR else Ok i
  end.
Definition open_entry (dir : Z) (name : string) (flags : list OFlag) (d : Disk) : res Errno Z :=
  let? i := dir_lookup dir name d in open_existing i flags d.
(** [openat] of a name that must exist. *)
Definition openat (dir : Z) (name : string) (flags : list OFlag) : Fs Z := query (fun _ => open_entry dir name flags).
(** [openat2] with [BENEATH], [NO_MAGICLINKS] and [NO_SYMLINKS]: one call for a
    whole relative path. *)
Fixpoint open_path (dir : Z) (components : list Component) (flags : list OFlag) (d : Disk) : res Errno Z :=
  match components with
  | [] => Err NOENT
  | [Normal name] => open_entry dir name flags d
  | Normal name :: rest => let? i := open_entry dir name [OPATH; DIRECTORY; NOFOLLOW] d in open_path i rest flags d
  | _ => Err INVAL
  end.
Definition openat2 (dir : Z) (relative : string) (flags : list OFlag) : Fs Z :=
  query (fun _ => open_path dir (components relative) flags).
(** [open("/")]. *)
Definition open_root : Fs Z := query (fun _ d => Ok (dk_root d)).

(** [openat] with [RDWR], [CREATE], [EXCL], [CLOEXEC] and [NOFOLLOW]: the name must not
    exist, not even as a link. *)
Definition new_file (mode now : Z) (d : Node) (fs : FileSystem) : Node :=
  mkNode (nd_dev d) 1 (Z.land (Z.ldiff mode (fs_umask fs)) 4095) (fs_euid fs)
    (if (Z.land (nd_mode d) S_ISGID =? 0)%Z then fs_egid fs else nd_gid d) now now true (Regular []).
Definition create_new (dir : Z) (name : string) (mode : Z) : Fs Z :=
  syscall (fun _ fs =>
    let d := fs_disk fs in
    let? n := node_of dir d in
    let? m := node_entries n in
    match m !! name with
    | Some _ => Err EXIST
    | None =>
        let i := dk_next d in
        Ok (mkDisk (<[i := new_file mode (fs_now fs) n fs]> (alter (edit_entries <[name := i]> (fs_now fs)) dir (dk_nodes d)))
              (dk_root d) (i + 1), i)
    end).

Definition fstat (fd : Z) : Fs Stat := query (fun _ d => let? n := node_of fd d in Ok (node_stat fd n)).
(** [statat] with [SYMLINK_NOFOLLOW]. *)
Definition statat (dir : Z) (name : string) : Fs Stat :=
  query (fun _ d => let? i := dir_lookup dir name d in let? n := node_of i d in Ok (node_stat i n)).
(** A read of at most [limit] bytes at [offset]. *)
Definition read_at (fd : Z) (offset : nat) (limit : Z) : Fs bytes :=
  query (fun short d =>
    let? n := node_of fd d in
    let? c := node_content n in
    let available := drop offset c in
    let count := Z.to_nat (Z.min limit (Z.of_nat (length available))) in
    Ok (take (match short with Some k => Nat.min k count | None => count end) available)).
(** A write of at most [buffer] at [offset]; the answer is the number of bytes. *)
Definition overwrite (offset : nat) (data c : bytes) : bytes := take offset c ++ data ++ drop (offset + length data) c.
Definition write_at (fd : Z) (offset : nat) (buffer : bytes) : Fs nat :=
  syscall (fun short fs =>
    let? n := node_of fd (fs_disk fs) in
    let? c := node_content n in
    let data := match short with Some k => take k buffer | None => buffer end in
    Ok (update_node fd (fun n => with_mtime (fs_now fs) (with_body (Regular (overwrite offset data c)) n)) (fs_disk fs),
        length data)).
(** A change of the inode behind a descriptor. *)
Definition change_node (fd : Z) (f : Z -> Node -> Node) : Fs unit :=
  syscall (fun _ fs =>
    let? _ := node_of fd (fs_disk fs) in Ok (update_node fd (f (fs_now fs)) (fs_disk fs), tt)).
Definition fchmod (fd mode : Z) : Fs unit := change_node fd (fun now n => with_ctime now (with_mode (Z.land mode 4095) n)).
Definition fchown (fd uid gid : Z) : Fs unit := change_node fd (fun now n => with_ctime now (with_owner uid gid n)).
Definition fsync (fd : Z) : Fs unit := change_node fd (fun _ n => with_dirty false n).

Inductive RenameFlags : Type := NOREPLACE | EXCHANGE.
(** [renameat2] inside one directory. *)
Definition renameat_with (dir : Z) (old new : string) (flags : RenameFlags) : Fs unit :=
  syscall (fun _ fs =>
    let d := fs_disk fs in
    let now := fs_now fs in
    let? m := dir_entries dir d in
    let? i := ok_or NOENT (m !! old) in
    match flags, m !! new with
    | NOREPLACE, Some _ => Err EXIST
    | NOREPLACE, None =>
        Ok (update_node i (with_ctime now)
              (update_node dir (edit_entries (fun m => <[new := i]> (delete old m)) now) d), tt)
    | EXCHANGE, Some j =>
        Ok (update_node i (with_ctime now) (update_node j (with_ctime now)
              (update_node dir (edit_entries (fun m => <[old := j]> (<[new := i]> m)) now) d)), tt)
    | EXCHANGE, None => Err NOENT
    end).
Definition unlinkat (dir : Z) (name : string) : Fs unit :=
  syscall (fun _ fs =>
    let d := fs_disk fs in
    let now := fs_now fs in
    let? i := dir_lookup dir name d in
    let? n := node_of i d in
    match nd_body n with
    | Directory _ => Err ISDIR
    | _ => Ok (update_node i (fun n => with_ctime now (with_nlink (nd_nlink n - 1) n))
                 (update_node dir (edit_entries (delete name) now) d), tt)
    end).
(** [let _ = call]. *)
Definition ignore {S E F A} (m : ST S E A) : ST S F unit := st_try m (fun _ => pure (Ok tt)).

(** ** The loops of [std]

    Each turn uses an entry of the schedule or moves at least one byte, so the
    fuel is what is left of both. *)

(** [Write::write_all]: an interrupted write is repeated, an empty one fails. *)
Fixpoint write_all_loop (fuel : nat) (fd : Z) (offset : nat) (buffer : bytes) : ST FileSystem IoError unit :=
  match buffer, fuel with
  | [], _ => pure (Ok tt)
  | _, O => pure Panic
  | _, S fuel =>
      st_try (write_at fd offset buffer) (fun r =>
        match r with
        | Ok O => pure (Err WriteZero)
        | Ok count => write_all_loop fuel fd (offset + count) (drop count buffer)
        | Err INTR => write_all_loop fuel fd offset buffer
        | Err e => pure (Err (Os e))
        | Panic => pure Panic
        end)
  end.
Definition write_all (fd : Z) (buffer : bytes) : ST FileSystem IoError unit := fun fs =>
  write_all_loop (length buffer + length (fs_faults fs)) fd 0 buffer fs.

(** [Read::take(limit).read_to_end]: an interrupted read is repeated. *)
Fixpoint read_to_end_loop (fuel : nat) (fd : Z) (limit : Z) (acc : bytes) : ST FileSystem IoError bytes :=
  let remaining := (limit - Z.of_nat (length acc))%Z in
  if (remaining <=? 0)%Z then pure (Ok acc)
  else match fuel with
  | O => pure Panic
  | S fuel =>
      st_try (read_at fd (length acc) remaining) (fun r =>
        match r with
        | Ok [] => pure (Ok acc)
        | Ok chunk => read_to_end_loop fuel fd limit (acc ++ chunk)
        | Err INTR => read_to_end_loop fuel fd limit acc
        | Err e => pure (Err (Os e))
        | Panic => pure Panic
        end)
  end.
Definition content_length (fd : Z) (d : Disk) : nat :=
  match dk_nodes d !! fd with
  | Some n => match nd_body n with Regular c => length c | _ => 0 end
  | None => 0
  end.
Definition read_to_end (fd : Z) (limit : Z) : ST FileSystem IoError bytes := fun fs =>
  read_to_end_loop (content_length fd (fs_disk fs) + length (fs_faults fs) + 1) fd limit [] fs.

(** ** Rules for calls *)

(** [st_spec] on predicates of the disk. *)
Definition disk_spec {E A} (P : Disk -> Prop) (m : ST FileSystem E A) (Q : A -> Disk -> Prop) (R : E -> Disk -> Prop) : Prop :=
  st_spec (fun fs => P (fs_disk fs)) m (fun a fs => Q a (fs_disk fs)) (fun e fs => R e (fs_disk fs)).
(** A computation that leaves the disk [d] as it is. *)
Definition reads {E A} (d : Disk) (m : ST FileSystem E A) (Q : A -> Prop) : Prop :=
  disk_spec (fun d' => d' = d) m (fun a d' => d' = d /\ Q a) (fun _ d' => d' = d).

Definition slot_short (f : option Fault) : option nat := match f with Some (Short n) => Some n | _ => None end.

Lemma syscall_run {A} (body : option nat -> FileSystem -> res Errno (Disk * A)) fs :
  (exists e, syscall body fs = (begin_call fs, Err e) /\ fs_faults fs <> []) \/
  syscall body fs = match body (slot_short (head (fs_faults fs))) (begin_call fs) with
                    | Ok (d, a) => (with_disk d (begin_call fs), Ok a)
                    | Err e => (begin_call fs, Err e)
                    | Panic => (begin_call fs, Panic)
                    end.
Proof.
  unfold syscall. destruct (fs_faults fs) as [|[|e|n] l] eqn:Hf; simpl; [by right|by right| |by right].
  left. by exists e.
Qed.

Lemma query_run {A} (body : option nat -> Disk -> res Errno A) fs :
  (exists e, query body fs = (begin_call fs, Err e) /\ fs_faults fs <> []) \/
  query body fs = (begin_call fs, body (slot_short (head (fs_faults fs))) (fs_disk fs)).
Proof.
  unfold query. destruct (syscall_run (fun short fs => let? a := body short (fs_disk fs) in Ok (fs_disk fs, a)) fs)
    as [Hf| ->]; [by left|right]. simpl. by destruct (body _ _).
Qed.

Lemma syscall_spec {A} P (body : option nat -> FileSystem -> res Errno (Disk * A)) (Q : A -> Disk -> Prop)
    (R : Errno -> Disk -> Prop) :
  (forall short fs, P (fs_disk fs) ->
   match body short fs with Ok (d, a) => Q a d | Err e => R e (fs_disk fs) | Panic => False end) ->
  (forall e d, P d -> R e d) ->
  disk_spec P (syscall body) Q R.
Proof.
  intros Hb HR fs Hs. destruct (syscall_run body fs) as [(e & -> & _)| ->]; [by apply HR|].
  specialize (Hb (slot_short (head (fs_faults fs))) (begin_call fs) Hs). by destruct (body _ _) as [[d a]| |].
Qed.

Lemma query_reads {A} d (body : option nat -> Disk -> res Errno A) (Q : A -> Prop) :
  (forall short, match body short d with Ok a => Q a | Err _ => True | Panic => False end) -> reads d (query body) Q.
Proof.
  intros Hb. apply syscall_spec; [|done]. intros short fs ->. specialize (Hb short). by destruct (body short d).
Qed.

Lemma reads_bind {E A B} d (m : ST FileSystem E A) (k : A -> ST FileSystem E B) Q Q' :
  reads d m Q -> (forall a, Q a -> reads d (k a) Q') -> reads d (st_bind m k) Q'.
Proof.
  intros Hm Hk. eapply st_spec_bind; [exact Hm|]. intros a fs [Hd Ha]. by apply Hk.
Qed.

Lemma reads_pure {E A} d (r : res E A) (Q : A -> Prop) :
  match r with Ok a => Q a | Err _ => True | Panic => False end -> reads d (pure r) Q.
Proof. intros Hr. apply st_spec_pure. intros fs Hs. by destruct r. Qed.

(** A guard in front of a computation that only reads. *)
Lemma reads_guard {E A} d c (e : E) (k : ST FileSystem E A) Q :
  (c = false -> reads d k Q) -> reads d (st_bind (pure (reject_if c e)) (fun _ => k)) Q.
Proof.
  intros Hk. apply reads_bind with (Q := fun _ => c = false); [|auto]. apply reads_pure. by destruct c.
Qed.

Lemma reads_map_err {E F A} d (f : E -> F) (m : ST FileSystem E A) Q : reads d m Q -> reads d (st_map_err f m) Q.
Proof. intros Hm. by apply st_spec_map_err. Qed.

Lemma reads_try {E F A B} d (m : ST FileSystem E A) (k : res E A -> ST FileSystem F B) Q Q' :
  reads d m Q -> (forall a, Q a -> reads d (k (Ok a)) Q') -> (forall e, reads d (k (Err e)) Q') ->
  reads d (st_try m k) Q'.
Proof.
  intros Hm Hk He. eapply st_spec_try; [exact Hm| |].
  - intros a fs [Hd Ha]. by apply Hk.
  - intros e fs Hd. by apply He.
Qed.

Lemma reads_weaken {E A} d (m : ST FileSystem E A) (Q Q' : A -> Prop) :
  reads d m Q -> (forall a, Q a -> Q' a) -> reads d m Q'.
Proof. intros Hm HQ. eapply st_spec_weaken; [exact Hm|done| |done]. intros a s [Hd Ha]. auto. Qed.

(** What a computation that only reads tells about the disk it ran on. *)
Lemma reads_spec {E A} (P : Disk -> Prop) (m : ST FileSystem E A) (Q : A -> Disk -> Prop) (R : E -> Disk -> Prop) :
  (forall d, P d -> reads d m (fun a => Q a d)) -> (forall e d, P d -> R e d) -> disk_spec P m Q R.
Proof.
  intros Hm HR fs Hs. specialize (Hm _ Hs fs eq_refl). destruct (m fs) as [fs' [a|e|]]; [|rewrite Hm; auto|done].
  destruct Hm as [-> HQ]. done.
Qed.

(** ** What calls answer *)

(** [binds d dir name i]: [name] in directory [dir] is inode [i]. *)
Definition binds (d : Disk) (dir : Z) (name : string) (i : Z) : Prop :=
  exists n m, dk_nodes d !! dir = Some n /\ nd_body n = Directory m /\ m !! name = Some i.

Lemma dir_lookup_ok d dir name i : dir_lookup dir name d = Ok i -> binds d dir name i.
Proof.
  unfold dir_lookup, dir_entries, node_of, node_entries. intros Hl.
  destruct (dk_nodes d !! dir) as [n|] eqn:Hn; [|done]. simpl in Hl. destruct (nd_body n) as [|m| |] eqn:Hb; try done.
  simpl in Hl. apply ok_or_ok in Hl. by exists n, m.
Qed.

Lemma dir_lookup_no_panic d dir name : dir_lookup dir name d <> Panic.
Proof.
  unfold dir_lookup, dir_entries, node_of, node_entries. destruct (dk_nodes d !! dir) as [n|]; [|done]. simpl.
  destruct (nd_body n) as [|m| |]; try done. simpl. by destruct (m !! name).
Qed.

Lemma open_entry_ok d dir name flags :
  match open_entry dir name flags d with Ok i => binds d dir name i | Err _ => True | Panic => False end.
Proof.
  unfold open_entry, open_existing, node_of. destruct (dir_lookup dir name d) as [i| |] eqn:Hl;
    [|done|by apply dir_lookup_no_panic in Hl]. apply dir_lookup_ok in Hl. simpl.
  destruct (dk_nodes d !! i) as [n|]; [|done]. simpl.
  by destruct (nd_body n), (has_flag DIRECTORY flags).
Qed.

Lemma fstat_reads d fd :
  reads d (fstat fd) (fun s => exists n, dk_nodes d !! fd = Some n /\ s = node_stat fd n).
Proof.
  apply query_reads. intros _. unfold node_of. destruct (dk_nodes d !! fd) as [n|] eqn:Hn; [|done]. simpl. by exists n.
Qed.

Lemma statat_reads d dir name :
  reads d (statat dir name) (fun s => exists i n, binds d dir name i /\ dk_nodes d !! i = Some n /\ s = node_stat i n).
Proof.
  apply query_reads. intros _. destruct (dir_lookup dir name d) as [i| |] eqn:Hl; [|done|by apply dir_lookup_no_panic in Hl].
  apply dir_lookup_ok in Hl. simpl. unfold node_of. destruct (dk_nodes d !! i) as [n|] eqn:Hn; [|done]. simpl. by exists i, n.
Qed.

Lemma open_root_reads d : reads d open_root (fun i => i = dk_root d).
Proof. by apply query_reads. Qed.

(** [has_content d fd c]: descriptor [fd] is a regular file that holds [c]. *)
Definition has_content (d : Disk) (fd : Z) (c : bytes) : Prop :=
  exists n, dk_nodes d !! fd = Some n /\ nd_body n = Regular c.

Lemma has_content_length d fd c : has_content d fd c -> content_length fd d = length c.
Proof. intros (n & Hn & Hb). unfold content_length. by rewrite Hn, Hb. Qed.

Lemma read_at_run fd offset limit fs c :
  has_content (fs_disk fs) fd c ->
  exists r, read_at fd offset limit fs = (begin_call fs, r) /\
  match r with Ok chunk => prefix chunk (drop offset c) | Err _ => fs_faults fs <> [] | Panic => False end.
Proof.
  intros (n & Hn & Hb). unfold read_at.
  edestruct @query_run as [(e & -> & Hf)| ->]; [by exists (Err e)|]. eexists. split; [done|].
  unfold node_of, node_content. rewrite Hn. simpl. rewrite Hb. simpl. apply prefix_take.
Qed.

(** What a loop of reads has collected, with the fuel it has left. *)
Lemma read_to_end_loop_spec fuel fd limit acc fs c :
  has_content (fs_disk fs) fd c -> prefix acc c ->
  length c - length acc + length (fs_faults fs) < fuel ->
  match read_to_end_loop fuel fd limit acc fs with
  | (fs', Ok b) => fs_disk fs' = fs_disk fs /\ prefix b c
  | (fs', Err _) => fs_disk fs' = fs_disk fs
  | (_, Panic) => False
  end.
Proof.
  revert acc fs. induction fuel as [|fuel IH]; intros acc fs Hc Hp Hf; [lia|].
  cbn [read_to_end_loop]. destruct (_ <=? 0)%Z; [done|]. unfold st_try.
  destruct (read_at_run fd (length acc) (limit - Z.of_nat (length acc)) fs c Hc) as (r & -> & Hr).
  destruct r as [[|x chunk]|e|]; [done| | |done].
  - destruct Hp as [rest ->]. rewrite drop_app_length in Hr. destruct Hr as [tl ->].
    apply (IH (acc ++ x :: chunk) (begin_call fs) Hc).
    + exists tl. by rewrite <- app_assoc.
    + simpl. rewrite !length_app in *. destruct (fs_faults fs); simpl in *; rewrite ?length_app in *; lia.
  - destruct e; try done. apply (IH acc (begin_call fs) Hc Hp). simpl. destruct (fs_faults fs); simpl in *; [done|lia].
Qed.

Lemma read_to_end_reads d fd limit c : has_content d fd c -> reads d (read_to_end fd limit) (fun b => prefix b c).
Proof.
  intros Hc fs Hd. subst d. unfold read_to_end.
  pose proof (read_to_end_loop_spec (content_length fd (fs_disk fs) + length (fs_faults fs) + 1) fd limit [] fs c Hc) as Hl.
  rewrite (has_content_length _ _ _ Hc) in *. apply Hl; [apply prefix_nil|simpl; lia].
Qed.

(** ** What calls change *)

(** Inode [fd] becomes [n], and nothing else changes. *)
Definition put_node (fd : Z) (n : Node) (d : Disk) : Disk := mkDisk (<[fd := n]> (dk_nodes d)) (dk_root d) (dk_next d).

(** The same file: everything except the time of the last change of the inode
    and whether it has been flushed. *)
Definition same_file (n n' : Node) : Prop :=
  nd_dev n' = nd_dev n /\ nd_nlink n' = nd_nlink n /\ nd_mode n' = nd_mode n /\ nd_uid n' = nd_uid n /\
  nd_gid n' = nd_gid n /\ nd_mtime n' = nd_mtime n /\ nd_body n' = nd_body n.
Lemma same_file_refl n : same_file n n.
Proof. by split_all. Qed.
Lemma same_file_trans a b c : same_file a b -> same_file b c -> same_file a c.
Proof. unfold same_file. intuition congruence. Qed.
Lemma same_file_ctime now n : same_file n (with_ctime now n).
Proof. by split_all. Qed.
Lemma same_file_dirty b n : same_file n (with_dirty b n).
Proof. by split_all. Qed.
#[export] Hint Resolve same_file_refl same_file_ctime same_file_dirty : ag.

Lemma write_at_run fd offset buffer fs c :
  has_content (fs_disk fs) fd c ->
  (exists e, write_at fd offset buffer fs = (begin_call fs, Err e) /\ fs_faults fs <> []) \/
  exists n data, dk_nodes (fs_disk fs) !! fd = Some n /\ prefix data buffer /\
    write_at fd offset buffer fs =
      (with_disk (put_node fd (with_mtime (fs_now fs + 1) (with_body (Regular (overwrite offset data c)) n)) (fs_disk fs))
         (begin_call fs), Ok (length data)).
Proof.
  intros (n & Hn & Hb). unfold write_at. edestruct @syscall_run as [(e & -> & Hf)| ->]; [left; by exists e|right].
  unfold node_of, node_content. simpl. rewrite Hn. simpl. rewrite Hb. simpl.
  destruct (slot_short _) as [k|]; eexists n, _; (split; [done|]); (split; [|unfold update_node, put_node;
    f_equal; unfold with_disk; f_equal; f_equal; apply map_eq; intros i; destruct (decide (i = fd)) as [->|Hi];
    [by rewrite lookup_alter_eq, lookup_insert_eq, Hn|by rewrite lookup_alter_ne, lookup_insert_ne]]).
  - apply prefix_take.
  - done.
Qed.

Lemma put_node_id fd n d : dk_nodes d !! fd = Some n -> put_node fd n d = d.
Proof. intros Hn. unfold put_node. rewrite insert_id by done. by destruct d. Qed.
Lemma put_node_put_node fd n n' d : put_node fd n (put_node fd n' d) = put_node fd n d.
Proof. unfold put_node. simpl. by rewrite insert_insert_eq. Qed.

(** The same inode, whose content may differ. *)
Definition same_owner (n n' : Node) : Prop :=
  nd_dev n' = nd_dev n /\ nd_nlink n' = nd_nlink n /\ nd_mode n' = nd_mode n /\ nd_uid n' = nd_uid n /\ nd_gid n' = nd_gid n.
Lemma same_owner_trans a b c : same_owner a b -> same_owner b c -> same_owner a c.
Proof. unfold same_owner. intuition congruence. Qed.
Lemma same_file_owner n n' : same_file n n' -> same_owner n n'.
Proof. unfold same_file, same_owner. tauto. Qed.
#[export] Hint Resolve same_file_owner : ag.

Lemma overwrite_end data c : overwrite (length c) data c = c ++ data.
Proof. unfold overwrite. rewrite firstn_all, drop_ge by lia. by rewrite app_nil_r. Qed.

(** A file that is being written holds what has been written. *)
Lemma write_all_loop_spec fuel fd written buffer fs n :
  dk_nodes (fs_disk fs) !! fd = Some n -> nd_body n = Regular written ->
  length buffer + length (fs_faults fs) <= fuel ->
  match write_all_loop fuel fd (length written) buffer fs with
  | (fs', r) => r <> Panic /\ exists n' c, fs_disk fs' = put_node fd n' (fs_disk fs) /\ same_owner n n' /\
      nd_body n' = Regular c /\ (r = Ok tt -> c = written ++ buffer)
  end.
Proof.
  revert written buffer fs n. induction fuel as [|fuel IH]; intros written buffer fs n Hn Hb Hf; destruct buffer as [|x buffer].
  1,3: split; [done|]; exists n, written; rewrite put_node_id, app_nil_r by done; by split_all.
  { simpl in Hf; lia. }
  cbn [write_all_loop]. unfold st_try.
  destruct (write_at_run fd (length written) (x :: buffer) fs written) as [(e & -> & He)|(n0 & data & Hn0 & [rest Hd] & ->)];
    [by exists n| |].
  - assert (forall e : IoError, Err e <> Panic (A := unit) /\ exists n' c, fs_disk (begin_call fs) = put_node fd n' (fs_disk fs) /\
      same_owner n n' /\ nd_body n' = Regular c /\ (Err e = Ok tt -> c = written ++ x :: buffer)) as Hstop.
    { intros e'. split; [done|]. exists n, written. rewrite put_node_id by done. by split_all. }
    destruct e; try apply Hstop. apply (IH written (x :: buffer) (begin_call fs)); [done..|].
    simpl in *. destruct (fs_faults fs); [done|]. simpl in *. lia.
  - simplify_eq. rewrite overwrite_end. set (n1 := with_mtime _ _). set (fs1 := with_disk _ _).
    assert (dk_nodes (fs_disk fs1) !! fd = Some n1) as Hn1 by apply lookup_insert_eq.
    destruct data as [|y data]; simpl length.
    + split; [done|]. exists n1, (written ++ []). by split_all.
    + rewrite Hd. specialize (IH (written ++ y :: data) rest fs1 n1 Hn1 eq_refl).
      change (y :: data ++ rest) with ((y :: data) ++ rest). change (S (length data)) with (length (y :: data)).
      rewrite drop_app_length. rewrite length_app in IH. apply (f_equal length) in Hd. simpl in *. rewrite length_app in Hd.
      destruct (write_all_loop _ _ _ _ _) as [fs2 r].
      destruct IH as (Hr & n' & c & Hd2 & Ho & Hb2 & Hc); [destruct (fs_faults fs); simpl in *; lia|].
      split; [done|]. exists n', c. rewrite Hd2. unfold fs1. simpl. rewrite put_node_put_node. split_all; try done.
      intros Hk. by rewrite Hc, <- app_assoc.
Qed.

Lemma write_all_spec d fd n buffer :
  dk_nodes d !! fd = Some n -> nd_body n = Regular [] ->
  disk_spec (fun d' => d' = d) (write_all fd buffer)
    (fun _ d' => exists n', d' = put_node fd n' d /\ same_owner n n' /\ nd_body n' = Regular buffer)
    (fun _ d' => exists n', d' = put_node fd n' d).
Proof.
  intros Hn Hb fs Hd. subst d. unfold write_all.
  pose proof (write_all_loop_spec (length buffer + length (fs_faults fs)) fd [] buffer fs n Hn Hb) as Hl. simpl in Hl.
  destruct (write_all_loop _ _ _ _ _) as [fs' r]. destruct Hl as (Hr & n' & c & Hd & Ho & Hb' & Hc); [done|].
  destruct r as [[]| |]; [|by exists n'|done]. exists n'. by rewrite <- (Hc eq_refl).
Qed.
