(* ===== verification/ExecutorFiles.v ===== *)
(** * Managed files (ag-effect/src/executor.rs)

    How the executor creates, replaces and deletes a managed file: a trusted
    parent resolved one component at a time, an exact observation of the target,
    a private staged copy, one atomic rename, and verification of the retained
    descriptor before and after ownership is transferred.  Early returns are
    [Err] of the outcome they return. *)

From S2P Require Import Prelude Wire Fixture Digest Names Origin Identity Paths Effect Compile Executor HostFiles.

Definition STAGE_PREFIX : string := ".ag-stage-".
Definition QUARANTINE_PREFIX : string := ".ag-quarantine-".

Record ObservedFile : Type := mkObserved { ob_digest : Digest }.
Record StagedFile : Type := mkStaged {
  sg_file : Z;
  sg_sealed : Stat;
  sg_digest : Digest;
  sg_content_len : Z;
  sg_broker_uid : Z;
  sg_broker_gid : Z
}.
Record FileMetadata : Type := mkMetadata { fm_uid : Z; fm_gid : Z; fm_mode : Z }.
Record InternalNames : Type := mkNames { in_stage : string; in_quarantine : string }.
Record LocalExecutionError : Type := mkLocalError {
  le_code : ExecutionFailureCodeV1;
  le_phase : ExecutionPhaseV1;
  le_detail : string
}.

(** [InternalNames::new]. *)
Definition internal_names (permit : BurnedExecutionPermitV1) : InternalNames :=
  let attempt := digest_str (bp_attempt permit) in
  let suffix := if starts_with attempt "sha256:" then str_drop 7 attempt else attempt in
  let index := u64_to_string (bp_effect_index permit) in
  mkNames (STAGE_PREFIX +:+ suffix +:+ "-" +:+ index) (QUARANTINE_PREFIX +:+ suffix +:+ "-" +:+ index).

(** [LocalExecutionError::into_outcome]. *)
Definition into_outcome (e : LocalExecutionError) : ExecutionOutcomeV1 := failure (le_code e) (le_phase e) (le_detail e) None.

Definition post_commit_metadata_error (detail : string) : ExecutionOutcomeV1 :=
  indeterminate RollbackUnproven MetadataTransfer detail None.
Definition post_commit_drift (detail : string) : ExecutionOutcomeV1 :=
  indeterminate RollbackUnproven MetadataTransfer detail None.

(** ** Stat comparisons *)

Definition same_observed_state (left right : Stat) : bool :=
  (st_dev left =? st_dev right)%Z && (st_ino left =? st_ino right)%Z && (st_nlink left =? st_nlink right)%Z
  && (st_mode left =? st_mode right)%Z && (st_uid left =? st_uid right)%Z && (st_gid left =? st_gid right)%Z
  && (st_size left =? st_size right)%Z && (st_mtime left =? st_mtime right)%Z && (st_ctime left =? st_ctime right)%Z.
Definition validate_staged_stat (staged : StagedFile) (stat : Stat) (metadata : FileMetadata) : res string unit :=
  reject_if (negb (is_file (st_mode stat))
             || negb (st_nlink stat =? 1)%Z
             || negb (st_dev stat =? st_dev (sg_sealed staged))%Z
             || negb (st_ino stat =? st_ino (sg_sealed staged))%Z
             || negb (st_uid stat =? fm_uid metadata)%Z
             || negb (st_gid stat =? fm_gid metadata)%Z
             || negb (Z.land (st_mode stat) 4095 =? fm_mode metadata)%Z
             || negb (st_size stat =? sg_content_len staged)%Z
             || negb (st_mtime stat =? st_mtime (sg_sealed staged))%Z)
    "staging inode content identity or metadata changed".
(** The mode a staged file has until its ownership is transferred, [0o600]. *)
Definition broker_metadata (staged : StagedFile) : FileMetadata :=
  mkMetadata (sg_broker_uid staged) (sg_broker_gid staged) 384.

Section Files.
  Context `{Deps, ErrnoText}.

(** ** Opening beneath a directory *)

Definition validate_relative (relative : string) : res Errno unit :=
  reject_if (String.eqb relative EmptyString
             || existsb (fun c => String.eqb c EmptyString || String.eqb c "." || String.eqb c "..") (split_slash relative)
             || existsb (fun c => negb (normal_component c)) (components relative)) INVAL.

(** [open_beneath_with_openat], after its components have been collected. *)
Fixpoint openat_each (directory : Z) (names : list string) (flags : list OFlag) : Fs Z :=
  match names with
  | [] => pure (Err INVAL)
  | [name] => openat directory name flags
  | name :: rest =>
      let! opened := openat directory name [OPATH; DIRECTORY; CLOEXEC; NOFOLLOW] in
      openat_each opened rest flags
  end.
Fixpoint normal_names (l : list Component) : res Errno (list string) :=
  match l with
  | [] => Ok []
  | Normal name :: rest => let? names := normal_names rest in Ok (name :: names)
  | _ :: _ => Err INVAL
  end.
Definition open_beneath_with_openat (parent : Z) (relative : string) (flags : list OFlag) : Fs Z :=
  let! names := pure (normal_names (components relative)) in
  openat_each parent names flags.
Definition finish_open_beneath (parent : Z) (relative : string) (flags : list OFlag) (attempted : res Errno Z)
    : Fs Z :=
  pure (validate_relative relative) ;!
  match attempted with
  | Err NOSYS => open_beneath_with_openat parent relative flags
  | result => pure result
  end.
Definition open_beneath (parent : Z) (relative : string) (flags : list OFlag) : Fs Z :=
  pure (validate_relative relative) ;!
  st_try (openat2 parent relative flags) (finish_open_beneath parent relative flags).

(** ** The trusted parent *)

Definition local_error (code : ExecutionFailureCodeV1) (phase : ExecutionPhaseV1) (e : Errno) : LocalExecutionError :=
  mkLocalError code phase (errno_text e).

Definition validate_managed_ancestor (directory : Z) (policy : ManagedFilePolicyV1) (final_parent : bool)
    : ST FileSystem LocalExecutionError unit :=
  let! stat := st_map_err (local_error LocalIoBeforeCommit ParentResolution) (fstat directory) in
  let shared_writes := negb (Z.land (st_mode stat) 18 =? 0)%Z in
  let protected_sticky_root :=
    negb final_parent && (st_uid stat =? fp_trusted_ancestor_uid policy)%Z
    && negb (Z.land (st_mode stat) 512 =? 0)%Z && negb (Z.land (st_mode stat) 2 =? 0)%Z in
  pure (reject_if (negb (is_dir (st_mode stat))
                   || (negb (st_uid stat =? fp_trusted_ancestor_uid policy)%Z
                       && negb (st_uid stat =? fp_trusted_parent_uid policy)%Z)
                   || (fp_require_private_parent_writes policy && shared_writes && negb protected_sticky_root)
                   || (final_parent && negb (st_uid stat =? fp_trusted_parent_uid policy)%Z))
          (mkLocalError UnsafeTargetFailure ParentResolution "managed path has an untrusted or rename-capable ancestor")).

(** The loop of [secure_parent] over the components of the parent. *)
Fixpoint resolve_parent (policy : ManagedFilePolicyV1) (parent_fd : Z) (components : list Component)
    : ST FileSystem LocalExecutionError Z :=
  match components with
  | [] => pure (Ok parent_fd)
  | Normal component :: rest =>
      let! next := st_map_err (local_error UnsafeTargetFailure ParentResolution)
                     (open_beneath parent_fd component [RDONLY; DIRECTORY; CLOEXEC; NOFOLLOW]) in
      validate_managed_ancestor next policy (match rest with [] => true | _ => false end) ;!
      resolve_parent policy next rest
  | _ :: _ => pure (Err (mkLocalError InvalidManagedPath ParentResolution "managed parent contains a non-normal component"))
  end.

(** The syntactic part of [secure_parent]: the name and the parent's
    components after the root. *)
Definition exact_segments (raw_path : string) : bool :=
  starts_with raw_path "/"
  && (let tail := str_drop 1 raw_path in
      negb (String.eqb tail EmptyString)
      && forallb (fun s => negb (String.eqb s EmptyString) && negb (String.eqb s ".") && negb (String.eqb s ".."))
           (split_slash tail)).
Definition file_name (path : list Component) : option string :=
  match last path with Some (Normal name) => Some name | _ => None end.
Definition split_managed_path (raw_path : string) : res LocalExecutionError (list Component * string) :=
  reject_if (negb (is_absolute raw_path) || negb (exact_segments raw_path))
    (mkLocalError InvalidManagedPath ParentResolution
       "managed-file path must be absolute with exact non-empty components") ;?
  let path := components raw_path in
  reject_if (negb (bool_decide (head path = Some RootDir)) || existsb (fun c => negb (normal_component c)) (tail path))
    (mkLocalError InvalidManagedPath ParentResolution "managed-file path contains a non-normal component") ;?
  let? name := ok_or (mkLocalError InvalidManagedPath ParentResolution "managed-file path has no UTF-8 file name")
                 (match file_name path with
                  | Some name => if String.eqb name EmptyString || String.eqb name "." || String.eqb name ".." then None
                                 else Some name
                  | None => None
                  end) in
  reject_if (starts_with name STAGE_PREFIX || starts_with name QUARANTINE_PREFIX)
    (mkLocalError InvalidManagedPath ParentResolution "managed target collides with the broker's internal namespace") ;?
  Ok (removelast path, name).
Definition secure_parent (raw_path : string) (policy : ManagedFilePolicyV1)
    : ST FileSystem LocalExecutionError (Z * string) :=
  let! (parent, name) := pure (split_managed_path raw_path) in
  let! root := st_map_err (local_error LocalIoBeforeCommit ParentResolution) open_root in
  validate_managed_ancestor root policy (parent == [RootDir]) ;!
  let! parent_fd := resolve_parent policy root (tail parent) in
  pure (Ok (parent_fd, name)).

(** ** Observing a name *)

Definition prestate_error (e : Errno) : LocalExecutionError := local_error LocalIoBeforeCommit PrestateCheck e.
Definition observe_entry (parent : Z) (name : string) (max_content_bytes : Z)
    : ST FileSystem LocalExecutionError (option ObservedFile) :=
  st_try (open_beneath parent name [RDONLY; CLOEXEC; NOFOLLOW; NONBLOCK]) (fun opened =>
  match opened with
  | Err NOENT => pure (Ok None)
  | Err error => pure (Err (local_error UnsafeTargetFailure PrestateCheck error))
  | Panic => pure Panic
  | Ok fd =>
      let! before := st_map_err prestate_error (fstat fd) in
      pure (reject_if (negb (is_file (st_mode before)) || negb (st_nlink before =? 1)%Z)
              (mkLocalError UnsafeTargetFailure PrestateCheck "managed target is not a singly linked regular file")) ;!
      let! length_ := pure (if (st_size before <? 0)%Z
                            then Err (mkLocalError UnsafeTargetFailure PrestateCheck
                                        "out of range integral type conversion attempted")
                            else Ok (st_size before)) in
      pure (reject_if (max_content_bytes <? length_)%Z
              (mkLocalError UnsafeTargetFailure PrestateCheck "managed target exceeds the configured size limit")) ;!
      let! b := st_map_err (fun e => mkLocalError LocalIoBeforeCommit PrestateCheck (io_text e))
                  (read_to_end fd (saturating_add_u64 max_content_bytes 1)) in
      let! after := st_map_err prestate_error (fstat fd) in
      let actual := Z.of_nat (length b) in
      pure (reject_if (negb (actual =? length_)%Z || (max_content_bytes <? actual)%Z
                       || negb (st_dev before =? st_dev after)%Z || negb (st_ino before =? st_ino after)%Z
                       || negb (st_size before =? st_size after)%Z || negb (st_mtime before =? st_mtime after)%Z
                       || negb (st_ctime before =? st_ctime after)%Z)
              (mkLocalError PrestateDrift PrestateCheck "managed target changed during exact descriptor observation")) ;!
      pure (Ok (Some (mkObserved (hash_bytes b))))
  end).

(** One name of [ensure_internal_names_absent]. *)
Definition ensure_absent (parent : Z) (name : string) : ST FileSystem LocalExecutionError unit :=
  st_try (statat parent name) (fun r =>
    pure match r with
         | Err NOENT => Ok tt
         | Ok _ => Err (mkLocalError PrestateDrift Staging "attempt staging or quarantine name already exists")
         | Err error => Err (local_error LocalIoBeforeCommit Staging error)
         | Panic => Panic
         end).
Definition ensure_internal_names_absent (parent : Z) (names : InternalNames) : ST FileSystem LocalExecutionError unit :=
  ensure_absent parent (in_stage names) ;! ensure_absent parent (in_quarantine names).

(** ** The retained descriptor *)

(** The loop of [read_exact_staged_bytes], with its chunk of 8192 bytes; a turn
    that does not end it reads at least one byte. *)
Fixpoint read_staged_loop (fuel : nat) (file : Z) (read_limit : Z) (acc : bytes) : ST FileSystem string bytes :=
  if (Z.of_nat (length acc) <? read_limit)%Z then
    match fuel with
    | O => pure Panic
    | S fuel =>
        let remaining := (read_limit - Z.of_nat (length acc))%Z in
        let! chunk := st_map_err errno_text (read_at file (length acc) (Z.min remaining 8192)) in
        match chunk with
        | [] => pure (Ok acc)
        | _ => read_staged_loop fuel file read_limit (acc ++ chunk)
        end
    end
  else pure (Ok acc).
Definition read_exact_staged_bytes (file : Z) (expected_len : Z) : ST FileSystem string bytes :=
  let! read_limit := pure (ok_or "staging content length cannot be bounded" (checked_add_u64 expected_len 1)) in
  let! b := (fun fs => read_staged_loop (content_length file (fs_disk fs) + 1) file read_limit [] fs) in
  pure (reject_if (negb (Z.of_nat (length b) =? expected_len)%Z) "retained staging descriptor has an unexpected length") ;!
  pure (Ok b).

Definition verify_named_staged_file (staged : StagedFile) (parent : Z) (name : string) (metadata : FileMetadata)
    : ST FileSystem string unit :=
  let! before := st_map_err errno_text (fstat (sg_file staged)) in
  pure (validate_staged_stat staged before metadata) ;!
  let! b := read_exact_staged_bytes (sg_file staged) (sg_content_len staged) in
  let! after := st_map_err errno_text (fstat (sg_file staged)) in
  pure (validate_staged_stat staged after metadata) ;!
  pure (reject_if (negb (same_observed_state before after)) "retained staging descriptor changed during exact read") ;!
  pure (reject_if (hash_bytes b != sg_digest staged) "retained staging descriptor has unexpected content") ;!
  let! named := st_map_err errno_text (statat parent name) in
  pure (reject_if (negb (same_observed_state after named)) "directory entry does not bind the retained staging descriptor").

(** ** Staging *)

Definition staging_error (e : Errno) : LocalExecutionError := local_error LocalIoBeforeCommit Staging e.
(** The three writes of [stage_content] that clean up after themselves. *)
Definition fill_staged (file : Z) (b : bytes) : ST FileSystem LocalExecutionError unit :=
  st_map_err (fun e => mkLocalError LocalIoBeforeCommit Staging (io_text e)) (write_all file b) ;!
  st_map_err staging_error (fchmod file 384) ;!
  st_map_err staging_error (fsync file).
(** [drop(file); let _ = unlinkat(..); return Err(error)]. *)
Definition abandon_stage {A} (parent : Z) (stage_name : string) (error : LocalExecutionError)
    : ST FileSystem LocalExecutionError A :=
  ignore (unlinkat parent stage_name) ;! pure (Err error).
Definition stage_content (parent : Z) (stage_name : string) (b : bytes) (digest : Digest) (max_content_bytes : Z)
    : ST FileSystem LocalExecutionError StagedFile :=
  pure (reject_if (max_content_bytes <? Z.of_nat (length b))%Z
          (mkLocalError ArtifactUnavailable Staging "staged content exceeds the managed-file limit")) ;!
  let! file := st_map_err staging_error (create_new parent stage_name 384) in
  st_try (fill_staged file b) (fun r =>
    match r with
    | Err error => abandon_stage parent stage_name error
    | _ =>
        st_try (fstat file) (fun r =>
          match r with
          | Ok sealed =>
              let staged := mkStaged file sealed digest (Z.of_nat (length b)) (st_uid sealed) (st_gid sealed) in
              st_try (verify_named_staged_file staged parent stage_name (broker_metadata staged)) (fun r =>
                match r with
                | Err reason => abandon_stage parent stage_name (mkLocalError PrestateDrift Staging reason)
                | _ => pure (Ok staged)
                end)
          | Err error => abandon_stage parent stage_name (staging_error error)
          | Panic => pure Panic
          end)
    end).

(** ** Rolling back *)

Definition rollback_exchange (parent : Z) (target stage reason : string) : ST FileSystem ExecutionOutcomeV1 ExecutionOutcomeV1 :=
  st_map_err (fun _ => indeterminate RollbackUnproven PhaseCommit (reason +:+ "; exchange rollback failed") None)
    (renameat_with parent stage target EXCHANGE) ;!
  st_map_err (fun error => indeterminate RollbackUnproven DirectorySync
                (reason +:+ "; rollback directory sync failed: " +:+ errno_text error) None) (fsync parent) ;!
  st_map_err (fun _ => indeterminate RollbackUnproven DirectorySync
                (reason +:+ "; rollback succeeded but staging cleanup was not durable") None)
    (unlinkat parent stage ;! fsync parent) ;!
  pure (Ok (failure PrestateDrift PhaseCommit reason None)).
Definition rollback_delete (parent : Z) (target quarantine reason : string) : ST FileSystem ExecutionOutcomeV1 ExecutionOutcomeV1 :=
  st_map_err (fun _ => indeterminate RollbackUnproven Quarantine (reason +:+ "; quarantine rollback failed") None)
    (renameat_with parent quarantine target NOREPLACE) ;!
  st_map_err (fun error => indeterminate RollbackUnproven DirectorySync
                (reason +:+ "; rollback directory sync failed: " +:+ errno_text error) None) (fsync parent) ;!
  pure (Ok (failure PrestateDrift PhaseCommit reason None)).

(** ** Finishing a committed file *)

Definition durability_error (e : Errno) : ExecutionOutcomeV1 :=
  indeterminate DurabilityAfterCommit DirectorySync (errno_text e) None.
(** [verify_named_staged_file(..).map_err(|reason| post_commit_drift(format!("{prefix}{reason}")))]. *)
Definition verify_or_drift (prefix : string) (staged : StagedFile) (parent : Z) (name : string) (metadata : FileMetadata)
    : ST FileSystem ExecutionOutcomeV1 unit :=
  st_map_err (fun reason => post_commit_drift (prefix +:+ reason)) (verify_named_staged_file staged parent name metadata).
Definition finalize_committed_file (policy : ManagedFilePolicyV1) (staged : StagedFile) (parent : Z) (target_name : string)
    (metadata : FileMetadata) : ST FileSystem ExecutionOutcomeV1 unit :=
  pure (reject_if (fp_max_content_bytes policy <? sg_content_len staged)%Z
          (post_commit_drift "committed staging inode exceeds the managed-file limit")) ;!
  verify_or_drift "committed staging inode failed broker-owned verification: " staged parent target_name
    (broker_metadata staged) ;!
  st_map_err (fun e => post_commit_metadata_error
                ("could not revoke staging access before ownership transfer: " +:+ errno_text e))
    (fchmod (sg_file staged) 0) ;!
  st_map_err (fun e => post_commit_metadata_error ("could not install final owner: " +:+ errno_text e))
    (fchown (sg_file staged) (fm_uid metadata) (fm_gid metadata)) ;!
  st_map_err (fun e => post_commit_metadata_error ("could not install final mode: " +:+ errno_text e))
    (fchmod (sg_file staged) (fm_mode metadata)) ;!
  verify_or_drift "managed file changed after ownership transfer: " staged parent target_name metadata ;!
  st_map_err durability_error (fsync (sg_file staged)) ;!
  verify_or_drift "managed file changed during its durability barrier: " staged parent target_name metadata ;!
  st_map_err durability_error (fsync parent) ;!
  verify_or_drift "managed file changed before terminal verification: " staged parent target_name metadata.

(** ** Put *)

(** The part of [execute_file_put] for an absent target. *)
Definition put_create (policy : ManagedFilePolicyV1) (parent : Z) (name : string) (names : InternalNames)
    (staged : StagedFile) (desired_content : Digest) (metadata : FileMetadata)
    : ST FileSystem ExecutionOutcomeV1 ExecutionOutcomeV1 :=
  st_try (renameat_with parent (in_stage names) name NOREPLACE) (fun r =>
    match r with
    | Ok _ =>
        finalize_committed_file policy staged parent name metadata ;!
        pure (Ok (success (FilePutSuccess None desired_content None true true)))
    | Err error =>
        if (error == EXIST) || (error == NOENT) then
          st_try (unlinkat parent (in_stage names)) (fun cleanup =>
            pure (Ok (if is_ok cleanup
                      then failure PrestateDrift PhaseCommit "target appeared during atomic create" None
                      else indeterminate RollbackUnproven PhaseCommit
                             "atomic create did not commit, but staging cleanup failed" None)))
        else
          ignore (unlinkat parent (in_stage names)) ;!
          pure (Ok (failure LocalIoBeforeCommit PhaseCommit (errno_text error) None))
    | Panic => pure Panic
    end).

(** What [displaced.as_ref().ok().and_then(Option::as_ref).map(|v| &v.digest)] reads. *)
Definition observed_digest {E} (r : res E (option ObservedFile)) : option Digest :=
  match r with Ok (Some value) => Some (ob_digest value) | _ => None end.
(** A failed rename before anything was committed. *)
Definition uncommitted (error : Errno) : ExecutionOutcomeV1 :=
  failure (if error == NOENT then PrestateDrift else LocalIoBeforeCommit) PhaseCommit (errno_text error) None.

(** Its part for a target with the ratified content. *)
Definition put_replace (policy : ManagedFilePolicyV1) (parent : Z) (name : string) (names : InternalNames)
    (staged : StagedFile) (expected desired_content : Digest) (metadata : FileMetadata)
    : ST FileSystem ExecutionOutcomeV1 ExecutionOutcomeV1 :=
  st_try (renameat_with parent (in_stage names) name EXCHANGE) (fun r =>
    match r with
    | Err error => ignore (unlinkat parent (in_stage names)) ;! pure (Err (uncommitted error))
    | _ => pure (Ok tt)
    end) ;!
  st_try (verify_named_staged_file staged parent name (broker_metadata staged)) (fun r =>
    match r with
    | Err reason =>
        rollback_exchange parent name (in_stage names)
          ("committed staging inode failed exact verification: " +:+ reason)
    | _ =>
        st_try (observe_entry parent (in_stage names) (fp_max_content_bytes policy)) (fun displaced =>
          if observed_digest displaced != Some expected then
            rollback_exchange parent name (in_stage names) "entry changed during atomic replacement"
          else
            st_map_err (fun error => indeterminate RollbackUnproven Quarantine
                          ("replacement committed but quarantine rename failed: " +:+ errno_text error) None)
              (renameat_with parent (in_stage names) (in_quarantine names) NOREPLACE) ;!
            finalize_committed_file policy staged parent name metadata ;!
            pure (Ok (success (FilePutSuccess (Some expected) desired_content (Some (in_quarantine names)) true true))))
    end).

(** [execute_file_put] after the artifact has been loaded. *)
Definition put_content (policy : ManagedFilePolicyV1) (permit : BurnedExecutionPermitV1) (path : string)
    (expected_content : option Digest) (desired_content : Digest) (b : bytes) (metadata : FileMetadata)
    : ST FileSystem ExecutionOutcomeV1 ExecutionOutcomeV1 :=
  let! (parent, name) := st_map_err into_outcome (secure_parent path policy) in
  let! observed := st_map_err into_outcome (observe_entry parent name (fp_max_content_bytes policy)) in
  pure (reject_if (option_map ob_digest observed != expected_content)
          (failure PrestateDrift PrestateCheck "managed-file content differs from the ratified prestate" None)) ;!
  pure (reject_if (negb (Z.ldiff (fm_mode metadata) 511 =? 0)%Z
                   || (fm_uid metadata =? U32_MAX)%Z || (fm_gid metadata =? U32_MAX)%Z)
          (failure MetadataRejected Staging
             "catalogued mode includes special bits or uid/gid is outside the accepted range" None)) ;!
  let names := internal_names permit in
  st_map_err into_outcome (ensure_internal_names_absent parent names) ;!
  let! staged := st_map_err into_outcome
                   (stage_content parent (in_stage names) b desired_content (fp_max_content_bytes policy)) in
  match expected_content with
  | None => put_create policy parent name names staged desired_content metadata
  | Some expected => put_replace policy parent name names staged expected desired_content metadata
  end.

(** ** Delete *)

(** [execute_file_delete]. *)
Definition execute_file_delete (policy : ManagedFilePolicyV1) (permit : BurnedExecutionPermitV1) (path : string)
    (expected_content : Digest) : ST FileSystem Empty_set ExecutionOutcomeV1 :=
  returning (
    let! (parent, name) := st_map_err into_outcome (secure_parent path policy) in
    let! observed := st_map_err into_outcome (observe_entry parent name (fp_max_content_bytes policy)) in
    let! observed := pure (ok_or (failure PrestateDrift PrestateCheck "managed-file target is absent" None) observed) in
    pure (reject_if (ob_digest observed != expected_content)
            (failure PrestateDrift PrestateCheck "managed-file content differs from the ratified prestate" None)) ;!
    let names := internal_names permit in
    st_map_err into_outcome (ensure_internal_names_absent parent names) ;!
    st_map_err uncommitted (renameat_with parent name (in_quarantine names) NOREPLACE) ;!
    st_try (observe_entry parent (in_quarantine names) (fp_max_content_bytes policy)) (fun displaced =>
      if observed_digest displaced != Some expected_content then
        rollback_delete parent name (in_quarantine names) "entry changed during atomic quarantine"
      else
        st_map_err durability_error (fsync parent) ;!
        pure (Ok (success (FileDeleteSuccess expected_content (in_quarantine names) true))))).

(** ** The executor *)

(** [struct EffectExecutorV1]: the world behind its capabilities, and the host's
    files. *)
Record ExecHost (X : Type) : Type := mkHost { eh_world : X; eh_files : FileSystem }.
Arguments mkHost {X} _ _.
Arguments eh_world {X} _.
Arguments eh_files {X} _.
Definition on_world {X E A} (m : ST X E A) : ST (ExecHost X) E A := fun h =>
  let (x, r) := m (eh_world h) in (mkHost x (eh_files h), r).
Definition on_files {X E A} (m : ST FileSystem E A) : ST (ExecHost X) E A := fun h =>
  let (fs, r) := m (eh_files h) in (mkHost (eh_world h) fs, r).

Section Executor.
  Context `{JcsErrorText} {X : Type} `{!ArtifactSourceV1 X, !PinnedPointerHelperV1 X, !SystemdDbusBackendV1 X}.

(** [EffectExecutorV1::execute_file_put]. *)
Definition execute_file_put (policy : ManagedFilePolicyV1) (permit : BurnedExecutionPermitV1) (path : string)
    (expected_content : option Digest) (desired_content : Digest) (mode uid gid : Z)
    : ST (ExecHost X) Empty_set ExecutionOutcomeV1 :=
  returning (
    let! b := on_world (st_map_err (fun error => failure_with_source ArtifactUnavailable ArtifactLoad (ae_detail error)
                                                   (Some (ae_code error)) None) (load_artifact desired_content)) in
    pure (reject_if (fp_max_content_bytes policy <? Z.of_nat (length b))%Z
            (failure ArtifactUnavailable ArtifactLoad "admitted content exceeds the managed-file limit" None)) ;!
    pure (reject_if (hash_bytes b != desired_content)
            (failure ArtifactDigestMismatch ArtifactLoad "artifact source returned bytes with a different digest" None)) ;!
    on_files (put_content policy permit path expected_content desired_content b (mkMetadata uid gid mode))).

(** [EffectExecutorV1::execute_once]. *)
Definition is_promotion (effect : CanonicalEffectV1) : bool :=
  match effect with EffManagedPointerPromotion _ => true | _ => false end.
Definition execute_once (policy : ManagedFilePolicyV1) (permit : BurnedExecutionPermitV1) (effect : CanonicalEffectV1)
    : ST (ExecHost X) Empty_set ExecutionReceiptV1 :=
  let checkpoint_binding_valid := is_promotion effect == bool_decide (is_Some (bp_preparation_checkpoint permit)) in
  let! outcome :=
    if checkpoint_binding_valid then
      match effect with
      | EffManagedFilePut _ path expected_content content mode uid gid =>
          execute_file_put policy permit path expected_content content mode uid gid
      | EffManagedFileDelete _ path expected_content =>
          on_files (execute_file_delete policy permit path expected_content)
      | EffManagedPointerPromotion _ => on_world (execute_pointer permit effect)
      | EffSystemdUnit _ unit_ action expected_active_state expected_unit_file_state =>
          on_world (execute_systemd_unit unit_ action expected_active_state expected_unit_file_state)
      | EffSystemdManagerReload _ machine_identity expected_generation =>
          on_world (execute_systemd_manager machine_identity expected_generation)
      end
    else pure (Ok (failure BackendRejected ReceiptValidation
                     "execution permit preparation checkpoint does not match effect family" None)) in
  pure (Ok (mkExecutionReceipt EXECUTION_RECEIPT_SCHEMA_V1 (bp_proposal permit) (bp_authorization permit)
              (bp_attempt permit) (bp_effect_index permit) effect outcome)).

End Executor.
End Files.
Arguments mkHost {X} _ _.
Arguments eh_world {X} _.
Arguments eh_files {X} _.
