(* ===== verification/ExecutorAttempt.v ===== *)
(** * Rules for attempts on managed files

    How each step of ag-effect/src/executor.rs changes the disk, for every
    schedule of faults: what its observations tell, that a staged file is private
    to the attempt, and what is left when a rename, a rollback or the final
    verification fails. *)

From S2P Require Import Prelude Wire Fixture Digest Names Origin Identity Paths Effect Compile Executor HostFiles ExecutorFiles.

(** ** Disks relative to the one an attempt started on *)

Definition disk_wf (d : Disk) : Prop := forall i, is_Some (dk_nodes d !! i) -> (i < dk_next d)%Z.

(** One call that edits the entries of [parent] and touches inodes. *)
Record edits (parent : Z) (f : gmap string Z -> gmap string Z) (d d' : Disk) : Prop := mkEdits {
  edits_root : dk_root d' = dk_root d;
  edits_next : dk_next d' = dk_next d;
  edits_others : forall i n, i <> parent -> dk_nodes d !! i = Some n ->
    exists n', dk_nodes d' !! i = Some n' /\ same_file n n';
  edits_parent : forall n m, dk_nodes d !! parent = Some n -> nd_body n = Directory m ->
    exists n', dk_nodes d' !! parent = Some n' /\ same_owner n n' /\ nd_body n' = Directory (f m)
}.

(** The disk [d] of an attempt that began on [o]: [parent] has entries [m], and
    every other inode of [o] is the same file. *)
Record frame (o : Disk) (parent : Z) (m : gmap string Z) (d : Disk) : Prop := mkFrame {
  frame_root : dk_root d = dk_root o;
  frame_next : (dk_next o <= dk_next d)%Z;
  frame_others : forall i n, i <> parent -> dk_nodes o !! i = Some n ->
    exists n', dk_nodes d !! i = Some n' /\ same_file n n';
  frame_parent : exists n m0 n', dk_nodes o !! parent = Some n /\ nd_body n = Directory m0 /\
    dk_nodes d !! parent = Some n' /\ same_owner n n' /\ nd_body n' = Directory m
}.

Lemma lookup_update i j f d :
  dk_nodes (update_node i f d) !! j = if decide (i = j) then f <$> dk_nodes d !! j else dk_nodes d !! j.
Proof.
  unfold update_node. simpl. destruct (decide (i = j)) as [->|Hi]; [apply lookup_alter_eq | by apply lookup_alter_ne].
Qed.

Lemma frame_init o parent n m : dk_nodes o !! parent = Some n -> nd_body n = Directory m -> frame o parent m o.
Proof.
  intros Hn Hb. split; [done|lia| |].
  - intros i n0 _ Hi. exists n0. split; auto with ag.
  - exists n, m, n. by split_all.
Qed.

Lemma frame_edits o parent f m d d' : frame o parent m d -> edits parent f d d' -> frame o parent (f m) d'.
Proof.
  intros [Hr Hn Ho (n & m0 & n' & Hpo & Hb & Hpd & Hs & Hb')] [Er En Eo Ep]. split; [congruence|congruence| |].
  - intros i k Hi Hk. destruct (Ho i k Hi Hk) as (k' & Hk' & Hs'). destruct (Eo i k' Hi Hk') as (k2 & Hk2 & Hs2).
    exists k2. split; [done|]. by eapply same_file_trans.
  - destruct (Ep n' m Hpd Hb') as (n2 & Hn2 & Hs2 & Hb2). exists n, m0, n2. split_all; try done. by eapply same_owner_trans.
Qed.

(** An inode that the attempt created is not part of the frame. *)
Lemma frame_private o parent m d file f :
  dk_nodes o !! file = None -> file <> parent -> frame o parent m d -> frame o parent m (update_node file f d).
Proof.
  intros Hf Hp [Hr Hn Ho (n & m0 & n' & Hpo & Hb & Hpd & Hs & Hb')]. split; [done|done| |].
  - intros i k Hi Hk. rewrite lookup_update, decide_False by congruence. by apply Ho.
  - exists n, m0, n'. rewrite lookup_update, decide_False by done. done.
Qed.

(** [file] is still the file [n]. *)
Definition holds (file : Z) (n : Node) (d : Disk) : Prop := exists n', dk_nodes d !! file = Some n' /\ same_file n n'.

Lemma holds_edits parent f d d' file n : file <> parent -> holds file n d -> edits parent f d d' -> holds file n d'.
Proof.
  intros Hf (n' & Hn & Hs) He. destruct (edits_others _ _ _ _ He file n' Hf Hn) as (n2 & Hn2 & Hs2).
  exists n2. split; [done|]. by eapply same_file_trans.
Qed.

(** Edits compose from the two kinds of update that calls make. *)
Lemma edits_entries parent f now d : edits parent f d (update_node parent (edit_entries f now) d).
Proof.
  split; [done|done| |].
  - intros i n Hi Hn. exists n. rewrite lookup_update, decide_False by done. auto with ag.
  - intros n m Hn Hb. rewrite lookup_update, decide_True, Hn by done. simpl. eexists. split; [done|].
    unfold edit_entries. rewrite Hb. by split_all.
Qed.

Lemma edits_touch parent f d d' i g :
  edits parent f d d' -> (forall n, same_file n (g n)) -> edits parent f d (update_node i g d').
Proof.
  intros [Er En Eo Ep] Hg. split; [done|done| |].
  - intros j n Hj Hn. destruct (Eo j n Hj Hn) as (n' & Hn' & Hs). rewrite lookup_update, Hn'.
    destruct (decide (i = j)); simpl; [|by exists n']. exists (g n'). split; [done|]. by eapply same_file_trans.
  - intros n m Hn Hb. destruct (Ep n m Hn Hb) as (n' & Hn' & Hs & Hb'). rewrite lookup_update, Hn'.
    destruct (decide (i = parent)); simpl; [|by exists n']. exists (g n'). destruct (Hg n') as (? & ? & ? & ? & ? & ? & ?).
    split_all; [done| |congruence]. eapply same_owner_trans; [done|]. apply same_file_owner, Hg.
Qed.

(** ** Calls that change the disk *)

(** A call that fails leaves the disk as it was. *)
Definition changes {E A} (d : Disk) (m : ST FileSystem E A) (Q : A -> Disk -> Prop) : Prop :=
  disk_spec (fun d' => d' = d) m Q (fun _ d' => d' = d).

Lemma changes_spec {E A} (P : Disk -> Prop) (m : ST FileSystem E A) (Q : A -> Disk -> Prop) (R : E -> Disk -> Prop) :
  (forall d, P d -> changes d m Q) -> (forall e d, P d -> R e d) -> disk_spec P m Q R.
Proof.
  intros Hm HR fs Hs. specialize (Hm _ Hs fs eq_refl). destruct (m fs) as [fs' [a|e|]]; [done|rewrite Hm; auto|done].
Qed.

Lemma changes_map_err {E F A} d (f : E -> F) (m : ST FileSystem E A) Q : changes d m Q -> changes d (st_map_err f m) Q.
Proof. intros Hm. by apply st_spec_map_err. Qed.

Lemma dir_entries_ok dir d m : dir_entries dir d = Ok m -> exists n, dk_nodes d !! dir = Some n /\ nd_body n = Directory m.
Proof.
  unfold dir_entries, node_of, node_entries. destruct (dk_nodes d !! dir) as [n|]; [|done]. simpl.
  destruct (nd_body n) eqn:Hb; try done. intros [= <-]. by exists n.
Qed.
Lemma dir_entries_no_panic dir d : dir_entries dir d <> Panic.
Proof.
  unfold dir_entries, node_of, node_entries. destruct (dk_nodes d !! dir) as [n|]; [|done]. simpl. by destruct (nd_body n).
Qed.

(** What an entry map must say for a rename, and what it says afterwards. *)
Definition rename_pre (flags : RenameFlags) (old new : string) (m : gmap string Z) (f : gmap string Z -> gmap string Z) : Prop :=
  match flags with
  | NOREPLACE => exists i, m !! old = Some i /\ m !! new = None /\ f = fun m => <[new := i]> (delete old m)
  | EXCHANGE => exists i j, m !! old = Some i /\ m !! new = Some j /\ f = fun m => <[old := j]> (<[new := i]> m)
  end.

Lemma rename_changes d dir old new flags :
  changes d (renameat_with dir old new flags) (fun _ d' =>
    exists n m f, dk_nodes d !! dir = Some n /\ nd_body n = Directory m /\ rename_pre flags old new m f /\ edits dir f d d').
Proof.
  apply syscall_spec; [|done]. intros _ fs <-. cbn zeta.
  destruct (dir_entries dir (fs_disk fs)) as [m| |] eqn:Hm; [|done|by apply dir_entries_no_panic in Hm].
  apply dir_entries_ok in Hm as (n & Hn & Hb). simpl. destruct (m !! old) as [i|] eqn:Ho; [|done]. simpl.
  destruct flags, (m !! new) as [j|] eqn:Hnew; try done.
  - eexists n, m, _. split_all; [done|done|by exists i|]. apply edits_touch; [apply edits_entries|apply same_file_ctime].
  - eexists n, m, _. split_all; [done|done|by exists i, j|].
    apply edits_touch; [apply edits_touch; [apply edits_entries|]|]; apply same_file_ctime.
Qed.

Lemma unlink_changes d dir name :
  changes d (unlinkat dir name) (fun _ d' =>
    exists i g d1, binds d dir name i /\ edits dir (delete name) d d1 /\ d' = update_node i g d1).
Proof.
  apply syscall_spec; [|done]. intros _ fs <-. cbn zeta.
  destruct (dir_lookup dir name (fs_disk fs)) as [i| |] eqn:Hl; [|done|by apply dir_lookup_no_panic in Hl].
  apply dir_lookup_ok in Hl. simpl. unfold node_of. destruct (dk_nodes (fs_disk fs) !! i) as [n|]; [|done]. simpl.
  destruct (nd_body n); try done; eexists i, _, _; (split_all; [done| |done]); apply edits_entries.
Qed.

Lemma fsync_changes d fd :
  changes d (fsync fd) (fun _ d' => exists n, dk_nodes d !! fd = Some n /\ d' = update_node fd (with_dirty false) d).
Proof.
  apply syscall_spec; [|done]. intros _ fs <-. unfold node_of. destruct (dk_nodes (fs_disk fs) !! fd) as [n|]; [|done].
  simpl. by exists n.
Qed.

Lemma change_node_changes d fd f :
  changes d (change_node fd f) (fun _ d' => exists now, d' = update_node fd (f now) d).
Proof.
  apply syscall_spec; [|done]. intros _ fs <-. unfold node_of. destruct (dk_nodes (fs_disk fs) !! fd) as [n|]; [|done].
  simpl. by eexists.
Qed.

(** Flushing a directory edits nothing. *)
Lemma edits_flush parent fd d : edits parent id d (update_node fd (with_dirty false) d).
Proof.
  apply edits_touch; [|intros n; apply same_file_dirty]. split; [done|done| |].
  - intros i n _ Hn. exists n. auto with ag.
  - intros n m Hn Hb. exists n. by split_all.
Qed.

(** ** What observations tell *)

Lemma is_file_regular i n : is_file (st_mode (node_stat i n)) = true -> exists c, nd_body n = Regular c.
Proof.
  unfold is_file, node_stat. simpl. rewrite Z.eqb_eq. intros Hm. destruct (nd_body n) as [c|m|t|] eqn:Hb; [by exists c|exfalso..];
    [apply (f_equal (fun z => Z.testbit z 14)) in Hm | apply (f_equal (fun z => Z.testbit z 13)) in Hm
    |apply (f_equal (fun z => Z.testbit z 12)) in Hm]; by rewrite Z.land_spec, Z.lor_spec in Hm.
Qed.
Lemma is_dir_directory i n : is_dir (st_mode (node_stat i n)) = true -> exists m, nd_body n = Directory m.
Proof.
  unfold is_dir, node_stat. simpl. rewrite Z.eqb_eq. intros Hm. destruct (nd_body n) as [c|m|t|] eqn:Hb; [exfalso|by exists m|exfalso..];
    [apply (f_equal (fun z => Z.testbit z 15)) in Hm | apply (f_equal (fun z => Z.testbit z 13)) in Hm
    |apply (f_equal (fun z => Z.testbit z 12)) in Hm]; by rewrite Z.land_spec, Z.lor_spec in Hm.
Qed.
Lemma file_mode_bits i n c :
  nd_body n = Regular c -> Z.land (st_mode (node_stat i n)) 4095 = Z.land (nd_mode n) 4095.
Proof. intros Hb. simpl. rewrite Hb. by rewrite Z.land_lor_distr_l. Qed.

#[global] Instance Normal_inj : Inj (=) (=) Normal.
Proof. by intros s t [= ->]. Qed.

(** A name that is one component of a path. *)
Definition single (name : string) : Prop := components name = [Normal name].

Lemma single_intro s :
  s <> EmptyString -> s <> "." -> s <> ".." -> slash_free s = true -> single s.
Proof.
  intros He Hd Hdd Hs. unfold single, components.
  assert (starts_with s "/" = false) as ->.
  { apply not_true_is_false. intros [t ->]%starts_with_spec. done. }
  rewrite split_slash_free by done. destruct (String.eqb_spec s "."); [done|]. simpl. rewrite app_nil_r.
  unfold segment_component. destruct (String.eqb_spec s EmptyString); [done|]. destruct (String.eqb_spec s "."); [done|].
  by destruct (String.eqb_spec s "..").
Qed.

Lemma segment_single l s :
  Forall (fun x => slash_free x = true) l -> In (Normal s) (flat_map segment_component l) -> single s.
Proof.
  rewrite in_flat_map, Forall_forall. intros Hf (x & Hx & Hs). unfold segment_component in Hs.
  destruct (String.eqb_spec x EmptyString) as [|H1]; [done|]. destruct (String.eqb_spec x ".") as [|H2]; [done|].
  destruct (String.eqb_spec x "..") as [|H3]; [by destruct Hs|]. destruct Hs as [[= ->]|[]].
  apply single_intro; try done. apply Hf. by apply list_elem_of_In.
Qed.

Lemma component_single path s : In (Normal s) (components path) -> single s.
Proof.
  pose proof (split_slash_segments path) as Hf. unfold components. destruct (starts_with path "/").
  - intros [?|Hs]; [done|]. by eapply segment_single.
  - destruct (split_slash path) as [|first rest]; [done|]. rewrite in_app_iff. intros [Hs|Hs].
    + destruct (String.eqb first "."); [by destruct Hs|]. apply (segment_single [first]); [by inversion Hf; constructor|].
      simpl. by rewrite app_nil_r.
    + inversion Hf; subst. by eapply segment_single.
Qed.

Section Observations.
  Context `{Deps, ErrnoText}.

Lemma open_beneath_reads d dir name flags :
  single name -> reads d (open_beneath dir name flags) (binds d dir name).
Proof.
  intros Hs. unfold open_beneath. apply reads_bind with (Q := fun _ => True); [apply reads_pure; unfold validate_relative;
    by destruct (_ || _)|]. intros _ _.
  assert (forall dir name, reads d (openat dir name flags) (binds d dir name)) as Hopen.
  { intros dir' name'. apply query_reads. intros _. apply open_entry_ok. }
  apply reads_try with (Q := binds d dir name).
  - apply query_reads. intros _. rewrite Hs. apply open_entry_ok.
  - intros i Hi. unfold finish_open_beneath. apply reads_bind with (Q := fun _ => True).
    + apply reads_pure. unfold validate_relative. by destruct (_ || _).
    + intros _ _. by apply reads_pure.
  - intros e. unfold finish_open_beneath. apply reads_bind with (Q := fun _ => True).
    + apply reads_pure. unfold validate_relative. by destruct (_ || _).
    + intros _ _. destruct e; try by apply reads_pure. unfold open_beneath_with_openat. rewrite Hs.
      apply reads_bind with (Q := fun names => names = [name]); [by apply reads_pure|]. intros ? ->. apply Hopen.
Qed.

(** A directory that [validate_managed_ancestor] accepts. *)
Definition trusted (policy : ManagedFilePolicyV1) (d : Disk) (final_parent : bool) (i : Z) : Prop :=
  exists n m, dk_nodes d !! i = Some n /\ nd_body n = Directory m /\
  (nd_uid n = fp_trusted_ancestor_uid policy \/ nd_uid n = fp_trusted_parent_uid policy) /\
  (final_parent = true -> nd_uid n = fp_trusted_parent_uid policy) /\
  (final_parent = true -> fp_require_private_parent_writes policy = true -> Z.land (nd_mode n) 18 = 0%Z).

Lemma directory_mode_bits i n m :
  nd_body n = Directory m -> Z.land (st_mode (node_stat i n)) 18 = Z.land (nd_mode n) 18.
Proof. intros Hb. simpl. rewrite Hb. by rewrite Z.land_lor_distr_l. Qed.

Lemma validate_managed_ancestor_reads d i policy final :
  reads d (validate_managed_ancestor i policy final) (fun _ => trusted policy d final i).
Proof.
  unfold validate_managed_ancestor. eapply reads_bind; [apply reads_map_err, fstat_reads|].
  intros s (n & Hn & ->). apply reads_pure. destruct (_ || _) eqn:Hg; [done|]. guards_in Hg.
  destruct Hg as (((Hd & Ho) & Hw) & Hp). apply is_dir_directory in Hd as [m Hm]. exists n, m. split_all; try done.
  - apply andb_false_iff in Ho as [Ho|Ho]; apply negb_false_iff, Z.eqb_eq in Ho; auto.
  - intros ->. apply negb_false_iff, Z.eqb_eq in Hp. done.
  - intros -> Hpw. rewrite Hpw in Hw. simpl in Hw. rewrite andb_true_r in Hw. apply negb_false_iff, Z.eqb_eq in Hw.
    by rewrite <- (directory_mode_bits i n m).
Qed.

(** The directory that a list of names leads to, with every step trusted. *)
Fixpoint trusted_path (policy : ManagedFilePolicyV1) (d : Disk) (i : Z) (names : list string) (parent : Z) : Prop :=
  match names with
  | [] => i = parent
  | name :: rest => exists j, binds d i name j /\ trusted policy d (match rest with [] => true | _ => false end) j /\
                    trusted_path policy d j rest parent
  end.

Lemma resolve_parent_reads d policy i comps :
  Forall (fun c => forall s, c = Normal s -> single s) comps ->
  reads d (resolve_parent policy i comps) (fun parent => exists names, comps = map Normal names /\ trusted_path policy d i names parent).
Proof.
  intros Hc. revert i. induction Hc as [|c comps Hs Hc IH]; intros i; [apply reads_pure; by exists []|].
  destruct c as [| | |name]; [by apply reads_pure..|]. cbn [resolve_parent].
  eapply reads_bind; [apply reads_map_err, open_beneath_reads, Hs; done|]. intros j Hj.
  eapply reads_bind; [apply validate_managed_ancestor_reads|]. intros [] Ht. eapply reads_weaken; [apply IH|].
  intros parent (names & Hn & Hp). subst comps. exists (name :: names). split; [done|]. exists j. split_all; try done.
  by destruct names.
Qed.

(** What [secure_parent] answers: the parent of [path] on the disk, all of whose
    ancestors are trusted, and the last name of [path]. *)
Definition managed_target (policy : ManagedFilePolicyV1) (d : Disk) (path : string) (parent : Z) (name : string) : Prop :=
  exists names, components path = RootDir :: map Normal (names ++ [name]) /\
  trusted policy d (match names with [] => true | _ => false end) (dk_root d) /\
  trusted_path policy d (dk_root d) names parent /\
  starts_with name STAGE_PREFIX = false /\ starts_with name QUARANTINE_PREFIX = false.

Lemma split_managed_path_ok path parent name :
  split_managed_path path = Ok (parent, name) ->
  exists names, components path = RootDir :: map Normal (names ++ [name]) /\ parent = RootDir :: map Normal names /\
  starts_with name STAGE_PREFIX = false /\ starts_with name QUARANTINE_PREFIX = false.
Proof.
  unfold split_managed_path, file_name. intros Hp. apply guard_ok in Hp as [_ Hp]. apply guard_ok in Hp as [Hg Hp].
  apply orb_false in Hg as [Hh Hn]. apply negb_bool_decide_false in Hh.
  destruct (components path) as [|c comps] eqn:Hc; [done|]. injection Hh as ->. cbn [tail] in Hn.
  assert (exists l, comps = map Normal l) as [l ->].
  { clear Hp Hc. induction comps as [|c comps IH]; [by exists []|]. simpl in Hn. apply orb_false in Hn as [Hc Hn].
    destruct (IH Hn) as [l ->]. destruct c as [| | |s]; try done. by exists (s :: l). }
  destruct l as [|s l _] using rev_ind; [done|]. rewrite map_app in *. simpl map in *.
  change (RootDir :: map Normal l ++ [Normal s]) with ((RootDir :: map Normal l) ++ [Normal s]) in *.
  rewrite last_snoc, removelast_last in Hp. destruct (_ || _); [done|]. apply guard_ok in Hp as [Hg Hp].
  injection Hp as <- <-. apply orb_false in Hg as [Hg1 Hg2]. exists l. split_all; [by rewrite map_app|done..].
Qed.

Lemma split_managed_path_no_panic path : no_panic (split_managed_path path).
Proof.
  unfold split_managed_path, no_panic, reject_if. destruct (_ || _); [done|]. cbn [res_bind]. destruct (_ || _); [done|].
  cbn [res_bind]. destruct (file_name _) as [s|]; [|done]. destruct (_ || _); [done|]. cbn [res_bind ok_or].
  by destruct (_ || _).
Qed.

Lemma secure_parent_reads d path policy :
  reads d (secure_parent path policy) (fun '(parent, name) => managed_target policy d path parent name).
Proof.
  unfold secure_parent. apply reads_bind with (Q := fun pn => split_managed_path path = Ok pn).
  { apply reads_pure. pose proof (split_managed_path_no_panic path). by destruct (split_managed_path path). }
  intros [parent name] Hp. apply split_managed_path_ok in Hp as (names & Hc & -> & H1 & H2).
  eapply reads_bind; [apply reads_map_err, open_root_reads|]. intros i ->.
  eapply reads_bind; [apply validate_managed_ancestor_reads|]. intros [] Ht. cbn [tail].
  eapply reads_bind; [apply resolve_parent_reads|].
  { apply Forall_forall. intros c Hin s ->. apply (component_single path). rewrite Hc. right. rewrite map_app, in_app_iff.
    left. by apply list_elem_of_In. }
  intros p (l & Hl & Htp). apply reads_pure. apply (inj (fmap (M := list) Normal)) in Hl. subst l. exists names. split_all; try done.
  revert Ht. destruct names; [done|]. by rewrite bool_decide_eq_false_2.
Qed.

(** What [observe_entry] tells of a name that it found. *)
Definition observed_file (d : Disk) (dir : Z) (name : string) (digest : Digest) : Prop :=
  exists i c, binds d dir name i /\ has_content d i c /\ hash_bytes c = digest.

Lemma prefix_same_length {A} (b c : list A) : prefix b c -> length b = length c -> b = c.
Proof. intros [k ->]. rewrite length_app. destruct k; simpl; [by rewrite app_nil_r|lia]. Qed.

Lemma observe_entry_reads d dir name limit :
  single name ->
  reads d (observe_entry dir name limit) (fun o => forall v, o = Some v -> observed_file d dir name (ob_digest v)).
Proof.
  intros Hs. unfold observe_entry. eapply reads_try; [by apply open_beneath_reads| |].
  2: { intros e. by destruct e; apply reads_pure. }
  intros i Hi. eapply reads_bind; [apply reads_map_err, fstat_reads|]. intros s (n & Hn & ->).
  apply reads_guard. intros Hg. guards_in Hg. destruct Hg as [Hf _]. destruct (is_file_regular i n Hf) as [c Hc].
  assert (has_content d i c) as Hhc by by exists n.
  eapply reads_bind with (Q := fun l => l = Z.of_nat (length c)).
  { apply reads_pure. simpl. rewrite Hc. by destruct (_ <? 0)%Z. }
  intros ? ->. apply reads_guard. intros _. eapply reads_bind; [by apply reads_map_err, (read_to_end_reads d i _ c)|].
  intros b Hb. eapply reads_bind; [apply reads_map_err, fstat_reads|]. intros s' (n' & Hn' & ->).
  apply reads_guard. intros Hg. guards_in Hg. destruct Hg as ((((((Hl & _) & _) & _) & _) & _) & _).
  apply reads_pure. intros v [= <-]. exists i, c. split_all; try done. simpl. f_equal.
  symmetry. apply prefix_same_length; [done|]. lia.
Qed.

(** What [verify_named_staged_file] tells: the retained inode is a singly linked
    file with exactly the staged content and this metadata, and the name is
    bound to it. *)
Definition verified (staged : StagedFile) (metadata : FileMetadata) (dir : Z) (name : string) (d : Disk) : Prop :=
  binds d dir name (sg_file staged) /\
  exists n c, dk_nodes d !! sg_file staged = Some n /\ nd_body n = Regular c /\
  hash_bytes c = sg_digest staged /\ nd_nlink n = 1%Z /\ nd_uid n = fm_uid metadata /\ nd_gid n = fm_gid metadata /\
  Z.land (nd_mode n) 4095 = fm_mode metadata.

Lemma read_staged_loop_spec fuel fd limit acc fs c :
  has_content (fs_disk fs) fd c -> prefix acc c -> length c - length acc < fuel ->
  match read_staged_loop fuel fd limit acc fs with
  | (fs', Ok b) => fs_disk fs' = fs_disk fs /\ prefix b c
  | (fs', Err _) => fs_disk fs' = fs_disk fs
  | (_, Panic) => False
  end.
Proof.
  revert acc fs. induction fuel as [|fuel IH]; intros acc fs Hc Hp Hf; [lia|].
  cbn [read_staged_loop]. destruct (_ <? limit)%Z; [|done]. rewrite st_bind_run. unfold st_map_err.
  destruct (read_at_run fd (length acc) (Z.min (limit - Z.of_nat (length acc)) 8192) fs c Hc) as (r & -> & Hr).
  destruct r as [[|x chunk]|e|]; [done| |done..].
  destruct Hp as [rest ->]. rewrite drop_app_length in Hr. destruct Hr as [tl ->].
  apply (IH (acc ++ x :: chunk) (begin_call fs) Hc).
  - exists tl. by rewrite <- app_assoc.
  - rewrite !length_app in *. simpl in *. lia.
Qed.

Lemma read_exact_staged_bytes_reads d fd len c :
  has_content d fd c -> len = Z.of_nat (length c) -> reads d (read_exact_staged_bytes fd len) (fun b => b = c).
Proof.
  intros Hc Hlen. unfold read_exact_staged_bytes.
  apply reads_bind with (Q := fun _ => True); [apply reads_pure; by destruct (checked_add_u64 len 1)|]. intros limit _.
  apply reads_bind with (Q := fun b => prefix b c).
  { intros fs Hd. subst d.
    pose proof (read_staged_loop_spec (content_length fd (fs_disk fs) + 1) fd limit [] fs c Hc (prefix_nil _)) as Hl.
    rewrite (has_content_length _ _ _ Hc) in *. apply Hl. simpl. lia. }
  intros b Hb. apply reads_guard. intros Hg. guards_in Hg. apply reads_pure. apply prefix_same_length; [done|]. lia.
Qed.

Lemma validate_staged_stat_ok staged s metadata :
  validate_staged_stat staged s metadata = Ok tt ->
  is_file (st_mode s) = true /\ st_nlink s = 1%Z /\ st_ino s = st_ino (sg_sealed staged) /\ st_uid s = fm_uid metadata /\
  st_gid s = fm_gid metadata /\ Z.land (st_mode s) 4095 = fm_mode metadata /\ st_size s = sg_content_len staged.
Proof. unfold validate_staged_stat. intros Hv. apply reject_if_ok in Hv. guards_in Hv. tauto. Qed.

Lemma same_observed_ino a b : same_observed_state a b = true -> st_ino a = st_ino b.
Proof. unfold same_observed_state. intros Hs. res_inv. lia. Qed.

Lemma reads_validate {A} d staged s metadata (k : ST FileSystem string A) Q :
  (validate_staged_stat staged s metadata = Ok tt -> reads d k Q) ->
  reads d (st_bind (pure (validate_staged_stat staged s metadata)) (fun _ => k)) Q.
Proof.
  intros Hk. apply reads_bind with (Q := fun _ => validate_staged_stat staged s metadata = Ok tt); [|auto].
  apply reads_pure. unfold validate_staged_stat. by destruct (_ || _).
Qed.

Lemma verify_reads d staged dir name metadata :
  reads d (verify_named_staged_file staged dir name metadata) (fun _ => verified staged metadata dir name d).
Proof.
  unfold verify_named_staged_file. eapply reads_bind; [apply reads_map_err, fstat_reads|]. intros s (n & Hn & ->).
  apply reads_validate. intros Hv. apply validate_staged_stat_ok in Hv as (Hf & Hl & _ & Hu & Hg & Hm & Hs).
  destruct (is_file_regular _ _ Hf) as [c Hc]. rewrite (file_mode_bits _ _ c Hc) in Hm. simpl in Hs. rewrite Hc in Hs.
  eapply reads_bind; [apply (read_exact_staged_bytes_reads d _ _ c); [by exists n|done]|]. intros b ->.
  eapply reads_bind; [apply reads_map_err, fstat_reads|]. intros s' (n' & Hn' & ->). simplify_eq.
  apply reads_validate. intros _. apply reads_guard. intros _. apply reads_guard. intros Hh. guards_in Hh.
  eapply reads_bind; [apply reads_map_err, statat_reads|]. intros s (j & nj & Hb & Hj & ->).
  apply reads_pure. destruct (same_observed_state _ _) eqn:Hso; [|done]. simpl. apply same_observed_ino in Hso. simpl in Hso.
  subst j. split; [done|]. exists n, c. by split_all.
Qed.

Lemma ensure_absent_reads d dir name : reads d (ensure_absent dir name) (fun _ => True).
Proof.
  unfold ensure_absent. eapply reads_try; [apply statat_reads|intros; by apply reads_pure|].
  intros e. apply reads_pure. by destruct e.
Qed.
Lemma ensure_names_reads d dir names : reads d (ensure_internal_names_absent dir names) (fun _ => True).
Proof.
  unfold ensure_internal_names_absent. eapply reads_bind; [apply ensure_absent_reads|]. intros _ _. apply ensure_absent_reads.
Qed.

(** ** Attempts on a managed file *)

Lemma disk_bind {E A B} P (m : ST FileSystem E A) (k : A -> ST FileSystem E B) Q Q' R :
  disk_spec P m Q R -> (forall a, disk_spec (Q a) (k a) Q' R) -> disk_spec P (st_bind m k) Q' R.
Proof. intros Hm Hk. eapply st_spec_bind; [exact Hm|exact Hk]. Qed.
Lemma disk_try {E F A B} P (m : ST FileSystem E A) (k : res E A -> ST FileSystem F B) Q R Q' R' :
  disk_spec P m Q R -> (forall a, disk_spec (Q a) (k (Ok a)) Q' R') -> (forall e, disk_spec (R e) (k (Err e)) Q' R') ->
  disk_spec P (st_try m k) Q' R'.
Proof. intros Hm Hk He. eapply st_spec_try; [exact Hm|exact Hk|exact He]. Qed.
Lemma disk_map_err {E F A} P (f : E -> F) (m : ST FileSystem E A) Q R :
  disk_spec P m Q (fun e => R (f e)) -> disk_spec P (st_map_err f m) Q R.
Proof. intros Hm. by apply st_spec_map_err. Qed.
Lemma disk_returning {E A} P (m : ST FileSystem A A) (Q : A -> Disk -> Prop) :
  disk_spec P m Q Q -> disk_spec (E := E) P (returning m) Q (fun _ _ => False).
Proof. intros Hm. by apply st_spec_returning. Qed.
Lemma disk_pure {E A} (P : Disk -> Prop) (r : res E A) (Q : A -> Disk -> Prop) (R : E -> Disk -> Prop) :
  (forall d, P d -> match r with Ok a => Q a d | Err e => R e d | Panic => False end) -> disk_spec P (pure r) Q R.
Proof. intros Hr. apply st_spec_pure. intros s. apply Hr. Qed.
Lemma disk_weaken {E A} (P P' : Disk -> Prop) (m : ST FileSystem E A) (Q Q' : A -> Disk -> Prop) (R R' : E -> Disk -> Prop) :
  disk_spec P m Q R -> (forall d, P' d -> P d) -> (forall a d, Q a d -> Q' a d) -> (forall e d, R e d -> R' e d) ->
  disk_spec P' m Q' R'.
Proof. intros Hm HP HQ HR. eapply st_spec_weaken; [exact Hm|simpl; eauto..]. Qed.
(** A computation that only reads keeps what is known. *)
Lemma reads_keep {E A} (P : Disk -> Prop) (m : ST FileSystem E A) (Q : A -> Disk -> Prop) :
  (forall d, reads d m (fun a => Q a d)) -> disk_spec P m (fun a d => Q a d /\ P d) (fun _ => P).
Proof. intros Hm. apply reads_spec; [|done]. intros d Hd. by eapply reads_weaken; [apply Hm|]. Qed.
Lemma reads_only {E A} (P : Disk -> Prop) (m : ST FileSystem E A) :
  (forall d, exists Q, reads d m Q) -> disk_spec P m (fun _ => P) (fun _ => P).
Proof. intros Hm. apply reads_spec; [|done]. intros d Hd. destruct (Hm d) as [Q HQ]. by eapply reads_weaken. Qed.
(** A fact that the precondition carries. *)
Lemma disk_fact {E A} (F : Prop) (P : Disk -> Prop) (m : ST FileSystem E A) Q R :
  (F -> disk_spec P m Q R) -> disk_spec (fun d => F /\ P d) m Q R.
Proof. intros Hm fs [HF HP]. by apply (Hm HF). Qed.
Lemma disk_exists {E A B} (P : B -> Disk -> Prop) (m : ST FileSystem E A) Q R :
  (forall x, disk_spec (P x) m Q R) -> disk_spec (fun d => exists x, P x d) m Q R.
Proof. intros Hm fs [x Hx]. by apply (Hm x). Qed.

(** Two disks that differ in one inode. *)
Lemma frame_private_node o parent m d d' file :
  dk_nodes o !! file = None -> file <> parent -> frame o parent m d ->
  dk_root d' = dk_root d -> dk_next d' = dk_next d -> (forall i, i <> file -> dk_nodes d' !! i = dk_nodes d !! i) ->
  frame o parent m d'.
Proof.
  intros Hf Hp [Hr Hn Ho (n & m0 & n' & Hpo & Hb & Hpd & Hs & Hb')] Er En Ed. split; [congruence|congruence| |].
  - intros i k Hi Hk. rewrite Ed by congruence. by apply Ho.
  - exists n, m0, n'. by rewrite Ed.
Qed.
Lemma frame_update o parent m d file f :
  dk_nodes o !! file = None -> file <> parent -> frame o parent m d -> frame o parent m (update_node file f d).
Proof.
  intros Hf Hp Hd. eapply frame_private_node; [exact Hf|exact Hp|exact Hd|done..|]. intros i Hi.
  by rewrite lookup_update, decide_False.
Qed.
Lemma frame_put o parent m d file n :
  dk_nodes o !! file = None -> file <> parent -> frame o parent m d -> frame o parent m (put_node file n d).
Proof.
  intros Hf Hp Hd. eapply frame_private_node; [exact Hf|exact Hp|exact Hd|done..|]. intros i Hi.
  by apply lookup_insert_ne.
Qed.

Lemma frame_entries o parent m d n m' :
  frame o parent m d -> dk_nodes d !! parent = Some n -> nd_body n = Directory m' -> m' = m.
Proof. intros [_ _ _ (? & ? & n' & _ & _ & Hn & _ & Hb)] Hn' Hb'. congruence. Qed.
Lemma frame_binds o parent m d k i : frame o parent m d -> binds d parent k i -> m !! k = Some i.
Proof. intros Hf (n & m' & Hn & Hb & Hk). by rewrite <- (frame_entries _ _ _ _ _ _ Hf Hn Hb). Qed.

(** Flushed to the disk. *)
Definition flushed (i : Z) (d : Disk) : Prop := exists n, dk_nodes d !! i = Some n /\ nd_dirty n = false.

(** Everything is as on [o], except for one name of [parent]. *)
Definition only_name (o : Disk) (parent : Z) (m0 : gmap string Z) (s : string) (d : Disk) : Prop :=
  exists m, frame o parent m d /\ forall k, k <> s -> m !! k = m0 !! k.

Section Attempt.
  Context (o : Disk) (parent : Z) (m0 : gmap string Z) (name stage quarantine : string).
  Hypothesis (Hwf : disk_wf o).
  Hypothesis (Hstage : name <> stage).
  Hypothesis (Hquarantine : name <> quarantine).
  Hypothesis (Hdistinct : stage <> quarantine).
  Hypothesis (Hsingle : single stage).
  Hypothesis (Hsingle_q : single quarantine).

(** The staged file belongs to the attempt. *)
Definition private (file : Z) : Prop := dk_nodes o !! file = None /\ file <> parent.

Lemma fsync_parent_spec m (R : Errno -> Disk -> Prop) (K : Disk -> Prop) :
  (forall d, K d -> K (update_node parent (with_dirty false) d)) ->
  (forall e d, frame o parent m d -> R e d) ->
  disk_spec (fun d => frame o parent m d /\ K d) (fsync parent)
    (fun _ d => frame o parent m d /\ K d /\ flushed parent d) R.
Proof.
  intros HK HR. apply changes_spec; [|intros e d [Hf _]; by apply HR]. intros d [Hf Hk].
  eapply disk_weaken; [apply (fsync_changes d)|done| |done]. intros _ d' (n & Hn & ->). split_all.
  - by apply (frame_edits o parent id m d), edits_flush.
  - by apply HK.
  - exists (with_dirty false n). by rewrite lookup_update, decide_True, Hn.
Qed.

(** Removing the staged file. *)
Lemma unlink_stage_changes file m d :
  private file -> frame o parent m d -> m !! stage = Some file ->
  changes d (unlinkat parent stage) (fun _ d' => frame o parent (delete stage m) d').
Proof.
  intros [Hp Hn] Hf Hs. eapply disk_weaken; [apply (unlink_changes d)|done| |done].
  intros _ d' (i & g & d1 & Hb & He & ->). apply (frame_binds _ _ _ _ _ _ Hf) in Hb. simplify_eq.
  apply frame_update; [done|done|]. by apply (frame_edits o parent (delete stage) m d).
Qed.

Lemma only_stage_delete m d :
  frame o parent (delete stage m) d -> (forall k, k <> stage -> m !! k = m0 !! k) -> only_name o parent m0 stage d.
Proof. intros Hf Hm. exists (delete stage m). split; [done|]. intros k Hk. rewrite lookup_delete_ne by done. by apply Hm. Qed.

Lemma ignore_unlink_spec {F} file m :
  private file -> m !! stage = Some file -> (forall k, k <> stage -> m !! k = m0 !! k) ->
  disk_spec (E := F) (frame o parent m) (ignore (unlinkat parent stage)) (fun _ => only_name o parent m0 stage) (fun _ _ => False).
Proof.
  intros Hp Hs Hm. unfold ignore.
  apply disk_try with (Q := fun _ => frame o parent (delete stage m)) (R := fun _ => frame o parent m).
  - apply changes_spec; [|done]. intros d Hf. by apply (unlink_stage_changes file).
  - intros _. apply disk_pure. intros d Hf. by apply (only_stage_delete m).
  - intros _. apply disk_pure. intros d Hf. by exists m.
Qed.

Lemma abandon_stage_spec {A} file m e (Q : A -> Disk -> Prop) :
  private file -> m !! stage = Some file -> (forall k, k <> stage -> m !! k = m0 !! k) ->
  disk_spec (frame o parent m) (abandon_stage parent stage e) Q (fun _ => only_name o parent m0 stage).
Proof.
  intros Hp Hs Hm. unfold abandon_stage. apply disk_bind with (Q := fun _ => only_name o parent m0 stage).
  - eapply disk_weaken; [by apply (ignore_unlink_spec file m)|done..].
  - intros _. apply disk_pure. done.
Qed.

Lemma create_new_changes mode :
  dir_entries parent o = Ok m0 ->
  changes o (create_new parent stage mode) (fun file d =>
    (private file /\ m0 !! stage = None) /\ frame o parent (<[stage := file]> m0) d /\
    exists n, dk_nodes d !! file = Some n /\ nd_body n = Regular []).
Proof.
  intros Hm0. apply syscall_spec; [|done]. intros _ fs Hd. rewrite Hd. cbn zeta.
  apply dir_entries_ok in Hm0 as (n & Hn & Hb). unfold node_of, node_entries. rewrite Hn. cbn [ok_or res_bind]. rewrite Hb.
  cbn [res_bind]. destruct (m0 !! stage) eqn:Hs; [done|].
  assert (dk_nodes o !! dk_next o = None) as Hnone.
  { apply eq_None_not_Some. intros Hi. apply Hwf in Hi. lia. }
  assert (dk_next o <> parent) as Hne by congruence.
  split_all; try done.
  - split; [done|simpl; lia| |].
    + intros i k Hi Hk. simpl. rewrite lookup_insert_ne by congruence. rewrite lookup_alter_ne by done.
      exists k. auto with ag.
    + exists n, m0. eexists. simpl. rewrite lookup_insert_ne, lookup_alter_eq, Hn by done. simpl. unfold edit_entries.
      rewrite Hb. by split_all.
  - simpl. rewrite lookup_insert_eq. by eexists.
Qed.

(** A change of the staged file's own inode. *)
Lemma change_file_spec m E file (f : Errno -> E) g (R : E -> Disk -> Prop) :
  private file -> (forall e d, frame o parent m d -> R (f e) d) ->
  disk_spec (frame o parent m) (st_map_err f (change_node file g)) (fun _ => frame o parent m) R.
Proof.
  intros [Hp Hn] HR. apply disk_map_err, changes_spec; [|intros e d Hf; by apply HR]. intros d Hf.
  eapply disk_weaken; [apply (change_node_changes d)|done| |done]. intros _ d' (now & ->). by apply frame_update.
Qed.

Lemma fill_staged_spec m file b :
  private file ->
  disk_spec (fun d => frame o parent m d /\ exists n, dk_nodes d !! file = Some n /\ nd_body n = Regular []) (fill_staged file b)
    (fun _ => frame o parent m) (fun _ => frame o parent m).
Proof.
  intros Hp. unfold fill_staged. apply disk_bind with (Q := fun _ => frame o parent m).
  - apply disk_map_err. intros fs (Hf & n & Hn & Hb). pose proof (write_all_spec (fs_disk fs) file n b Hn Hb fs eq_refl) as Hw.
    destruct Hp as [Hp1 Hp2]. destruct (write_all file b fs) as [fs' [[]|e|]]; [| |done].
    + destruct Hw as (n' & -> & _). by apply frame_put.
    + destruct Hw as (n' & ->). by apply frame_put.
  - intros _. apply disk_bind with (Q := fun _ => frame o parent m); [by apply change_file_spec|].
    intros _. by apply change_file_spec.
Qed.

(** [stage_content] creates one private file under the staging name; whatever
    goes wrong, nothing else has changed. *)
Lemma stage_content_spec b digest limit :
  dir_entries parent o = Ok m0 ->
  disk_spec (fun d => d = o) (stage_content parent stage b digest limit)
    (fun staged d => (private (sg_file staged) /\ m0 !! stage = None /\ sg_digest staged = digest) /\
                     frame o parent (<[stage := sg_file staged]> m0) d)
    (fun _ => only_name o parent m0 stage).
Proof.
  intros Hm0. unfold stage_content.
  assert (frame o parent m0 o) as Hfo by (apply dir_entries_ok in Hm0 as (n & Hn & Hb); by apply (frame_init o parent n)).
  assert (only_name o parent m0 stage o) as Hoo by by exists m0.
  assert (forall file k, k <> stage -> <[stage := file]> m0 !! k = m0 !! k) as Hoff.
  { intros file k Hk. by rewrite lookup_insert_ne. }
  apply disk_bind with (Q := fun _ d => d = o). { apply disk_pure. intros d ->. by destruct (_ <? _)%Z. }
  intros _. eapply disk_bind.
  { apply disk_map_err. eapply disk_weaken; [by apply create_new_changes|done| |]; [intros a d Hd; exact Hd|by intros e d ->]. }
  intros file. apply disk_fact. intros [Hp Hs]. eapply disk_try; [by apply fill_staged_spec| |].
  2: { intros e. apply (abandon_stage_spec file); [done|by rewrite lookup_insert_eq|apply Hoff]. }
  intros []. eapply disk_try; [apply reads_only; intros d; eexists; apply fstat_reads| |].
  2: { intros e. apply (abandon_stage_spec file); [done|by rewrite lookup_insert_eq|apply Hoff]. }
  intros sealed. eapply disk_try; [apply reads_only; intros d; eexists; apply verify_reads| |].
  2: { intros e. apply (abandon_stage_spec file); [done|by rewrite lookup_insert_eq|apply Hoff]. }
  intros []. apply disk_pure. intros d Hf. by split_all.
Qed.
Definition is_indeterminate (out : ExecutionOutcomeV1) : Prop := exists envelope, out = OutIndeterminate envelope.

Lemma verify_or_drift_spec P text staged target metadata :
  disk_spec P (verify_or_drift text staged parent target metadata)
    (fun _ d => verified staged metadata parent target d /\ P d) (fun out _ => is_indeterminate out).
Proof.
  apply disk_map_err. eapply disk_weaken;
    [apply (reads_keep P _ (fun _ => verified staged metadata parent target)); intros d; apply verify_reads|done..|].
  intros e d _. by eexists.
Qed.

Lemma fsync_file_spec m file :
  private file ->
  disk_spec (frame o parent m) (st_map_err durability_error (fsync file)) (fun _ d => frame o parent m d /\ flushed file d)
    (fun out _ => is_indeterminate out).
Proof.
  intros [Hp Hn]. apply disk_map_err, changes_spec; [|intros e d _; by eexists]. intros d Hf.
  eapply disk_weaken; [apply (fsync_changes d)|done| |done]. intros _ d' (n & Hi & ->). split; [by apply frame_update|].
  exists (with_dirty false n). by rewrite lookup_update, decide_True, Hi.
Qed.

(** [finalize_committed_file] ends with a verified and flushed target, or cannot
    tell. *)
Lemma finalize_spec policy m staged target metadata :
  private (sg_file staged) ->
  disk_spec (frame o parent m) (finalize_committed_file policy staged parent target metadata)
    (fun _ d => verified staged metadata parent target d /\
                frame o parent m d /\ flushed (sg_file staged) d /\ flushed parent d)
    (fun out _ => is_indeterminate out).
Proof.
  intros Hp. pose proof Hp as [Hfile Hne]. unfold finalize_committed_file.
  assert (forall text metadata, disk_spec (frame o parent m) (verify_or_drift text staged parent target metadata)
    (fun _ => frame o parent m) (fun out _ => is_indeterminate out)) as Hv.
  { intros text md. eapply disk_weaken; [apply verify_or_drift_spec|done| |done]. by intros [] d [_ Hd]. }
  assert (forall g text, disk_spec (frame o parent m)
    (st_map_err (fun e => post_commit_metadata_error (text +:+ errno_text e)) (change_node (sg_file staged) g))
    (fun _ => frame o parent m) (fun out _ => is_indeterminate out)) as Hc.
  { intros g text. apply change_file_spec; [done|]. intros e d _. by eexists. }
  apply disk_bind with (Q := fun _ => frame o parent m).
  { apply disk_pure. intros d Hd. destruct (_ <? _)%Z; simpl; [by eexists|done]. }
  intros []. eapply disk_bind; [apply Hv|]. intros []. eapply disk_bind; [apply Hc|]. intros []. eapply disk_bind; [apply Hc|].
  intros []. eapply disk_bind; [apply Hc|]. intros []. eapply disk_bind; [apply Hv|]. intros [].
  eapply disk_bind; [by apply fsync_file_spec|]. intros [].
  apply disk_bind with (Q := fun _ d => frame o parent m d /\ flushed (sg_file staged) d).
  { eapply disk_weaken; [apply (verify_or_drift_spec (fun d => frame o parent m d /\ flushed (sg_file staged) d))|done| |done].
    by intros [] d [_ Hd]. }
  intros []. eapply disk_bind.
  { apply disk_map_err, (fsync_parent_spec m _ (flushed (sg_file staged))).
    - intros d (n & Hn & Hd). exists n. by rewrite lookup_update, decide_False.
    - intros e d _. by eexists. }
  intros []. eapply disk_weaken; [apply (verify_or_drift_spec (fun d => frame o parent m d /\ flushed (sg_file staged) d /\ flushed parent d))|done..].
Qed.

(** What a put leaves behind. *)
Definition installed (staged : StagedFile) (metadata : FileMetadata) (m : gmap string Z) (d : Disk) : Prop :=
  verified staged metadata parent name d /\ frame o parent m d /\ flushed (sg_file staged) d /\ flushed parent d.
Definition put_post (desired : Digest) (metadata : FileMetadata) (expected : option Digest) (out : ExecutionOutcomeV1) (d : Disk)
    : Prop :=
  match out with
  | OutFailed _ => only_name o parent m0 stage d
  | OutIndeterminate _ => True
  | OutSucceeded s => exists staged, private (sg_file staged) /\ sg_digest staged = desired /\
      match expected with
      | None => s = FilePutSuccess None desired None true true /\ m0 !! name = None /\
                installed staged metadata (<[name := sg_file staged]> m0) d
      | Some e => s = FilePutSuccess (Some e) desired (Some quarantine) true true /\ m0 !! quarantine = None /\
                exists i, m0 !! name = Some i /\
                installed staged metadata (<[quarantine := i]> (<[name := sg_file staged]> m0)) d
      end
  end.

Lemma put_post_indeterminate desired metadata expected out d :
  is_indeterminate out -> put_post desired metadata expected out d.
Proof. by intros [env ->]. Qed.

Lemma staged_off_stage file k : k <> stage -> <[stage := file]> m0 !! k = m0 !! k.
Proof. intros Hk. by rewrite lookup_insert_ne. Qed.

Lemma put_create_spec policy staged desired metadata :
  private (sg_file staged) -> m0 !! stage = None -> sg_digest staged = desired ->
  disk_spec (frame o parent (<[stage := sg_file staged]> m0))
    (put_create policy parent name (mkNames stage quarantine) staged desired metadata)
    (put_post desired metadata None) (put_post desired metadata None).
Proof.
  intros Hp Hs Hd. unfold put_create. cbn [in_stage in_quarantine]. set (m1 := <[stage := sg_file staged]> m0).
  assert (m1 !! stage = Some (sg_file staged)) as Hm1 by apply lookup_insert_eq.
  eapply disk_try with (Q := fun _ d => m0 !! name = None /\ frame o parent (<[name := sg_file staged]> m0) d)
                       (R := fun _ => frame o parent m1).
  - apply changes_spec; [|done]. intros d Hf. eapply disk_weaken; [apply (rename_changes d)|done| |done].
    intros _ d' (n & m & f & Hn & Hb & (i & Ho & Hnew & ->) & He).
    pose proof (frame_entries _ _ _ _ _ _ Hf Hn Hb) as ->. simplify_eq.
    unfold m1 in Hnew. rewrite lookup_insert_ne in Hnew by done. split; [done|].
    apply (frame_edits _ _ _ _ _ _ Hf) in He. cbn beta in He. unfold m1 in He. by rewrite delete_insert_id in He.
  - intros _. apply disk_fact. intros Hname. eapply disk_bind.
    + eapply disk_weaken; [by apply (finalize_spec policy (<[name := sg_file staged]> m0) staged name metadata)|done| |].
      * intros a d Hq. exact Hq.
      * intros out d. apply put_post_indeterminate.
    + intros []. apply disk_pure. intros d Hi. exists staged. by split_all.
  - intros e. destruct (_ || _).
    + eapply disk_try with (Q := fun _ => frame o parent (delete stage m1)) (R := fun _ => frame o parent m1).
      * apply changes_spec; [|done]. intros d Hf. by apply (unlink_stage_changes (sg_file staged)).
      * intros ?. apply disk_pure. intros d Hf. by apply (only_stage_delete m1), staged_off_stage.
      * intros ?. by apply disk_pure.
    + eapply disk_bind with (Q := fun _ => only_name o parent m0 stage).
      * eapply disk_weaken; [apply (ignore_unlink_spec (sg_file staged) m1); [done..|apply staged_off_stage]|done..].
      * intros ?. by apply disk_pure.
Qed.

(** The entries between an exchange and the quarantine. *)
Definition exchanged (file i : Z) : gmap string Z := <[stage := i]> (<[name := file]> (<[stage := file]> m0)).

Lemma exchanged_stage file i : exchanged file i !! stage = Some i.
Proof. apply lookup_insert_eq. Qed.
Lemma exchanged_name file i : exchanged file i !! name = Some file.
Proof. unfold exchanged. rewrite lookup_insert_ne by done. apply lookup_insert_eq. Qed.
Lemma exchanged_other file i k : k <> stage -> k <> name -> exchanged file i !! k = m0 !! k.
Proof. intros Hs Hn. unfold exchanged. by rewrite !lookup_insert_ne. Qed.

Lemma fsync_parent_plain m (R : Errno -> Disk -> Prop) :
  (forall e d, frame o parent m d -> R e d) ->
  disk_spec (frame o parent m) (fsync parent) (fun _ => frame o parent m) R.
Proof.
  intros HR. eapply disk_weaken; [apply (fsync_parent_spec m R (fun _ => True)); [done|exact HR]|done| |done].
  by intros a d [Hd _].
Qed.

(** A rollback that reports a failure has restored the target. *)
Lemma rollback_exchange_spec file i reason :
  private file -> m0 !! name = Some i ->
  disk_spec (frame o parent (exchanged file i)) (rollback_exchange parent name stage reason)
    (fun out d => put_post (hash_bytes []) (mkMetadata 0 0 0) None out d /\ forall s, out <> OutSucceeded s)
    (fun out _ => is_indeterminate out).
Proof.
  intros Hp Hname. unfold rollback_exchange. set (m2 := exchanged file i).
  set (m3 := <[stage := file]> (<[name := i]> m2)).
  assert (m3 !! stage = Some file) as Hm3 by apply lookup_insert_eq.
  assert (forall k, k <> stage -> m3 !! k = m0 !! k) as Hoff.
  { intros k Hk. unfold m3. rewrite lookup_insert_ne by done. destruct (decide (k = name)) as [->|Hkn].
    - by rewrite lookup_insert_eq.
    - rewrite lookup_insert_ne by done. by apply exchanged_other. }
  apply disk_bind with (Q := fun _ => frame o parent m3).
  { apply disk_map_err, changes_spec; [|intros e d _; by eexists]. intros d Hf.
    eapply disk_weaken; [apply (rename_changes d)|done| |done].
    intros [] d' (n & m & f & Hn & Hb & (j & k & Ho & Hnew & ->) & He).
    pose proof (frame_entries _ _ _ _ _ _ Hf Hn Hb) as ->. unfold m2 in Ho, Hnew. rewrite exchanged_stage in Ho.
    rewrite exchanged_name in Hnew. simplify_eq. by apply (frame_edits _ _ _ _ _ _ Hf) in He. }
  intros []. eapply disk_bind; [apply disk_map_err, fsync_parent_plain; intros e d _; by eexists|].
  intros []. apply disk_bind with (Q := fun _ => only_name o parent m0 stage).
  { apply disk_map_err. apply disk_bind with (Q := fun _ => frame o parent (delete stage m3)).
    - apply changes_spec; [|intros e d _; by eexists]. intros d Hf. by apply (unlink_stage_changes file).
    - intros []. eapply disk_weaken;
        [by apply (fsync_parent_plain (delete stage m3) (fun _ _ => True))|done| |by intros e d _; eexists].
      intros [] d Hf. by apply (only_stage_delete m3). }
  intros []. by apply disk_pure.
Qed.

Lemma rollback_put_post desired metadata expected out d :
  (put_post (hash_bytes []) (mkMetadata 0 0 0) None out d /\ forall s, out <> OutSucceeded s) ->
  put_post desired metadata expected out d.
Proof. destruct out as [s|f|e]; [by intros [_ Hs]; destruct (Hs s)|by intros [Hf _]|done]. Qed.

Lemma put_replace_spec policy staged expected desired metadata i :
  private (sg_file staged) -> m0 !! stage = None -> sg_digest staged = desired -> m0 !! name = Some i ->
  disk_spec (frame o parent (<[stage := sg_file staged]> m0))
    (put_replace policy parent name (mkNames stage quarantine) staged expected desired metadata)
    (put_post desired metadata (Some expected)) (put_post desired metadata (Some expected)).
Proof.
  intros Hp Hs Hd Hname. unfold put_replace. cbn [in_stage in_quarantine]. set (m1 := <[stage := sg_file staged]> m0).
  assert (m1 !! stage = Some (sg_file staged)) as Hm1 by apply lookup_insert_eq.
  pose proof (fun reason => rollback_exchange_spec (sg_file staged) i reason Hp Hname) as Hroll.
  assert (forall reason, disk_spec (frame o parent (exchanged (sg_file staged) i)) (rollback_exchange parent name stage reason)
    (put_post desired metadata (Some expected)) (put_post desired metadata (Some expected))) as Hroll'.
  { intros reason. eapply disk_weaken; [apply Hroll|done| |].
    - intros out d. apply rollback_put_post.
    - intros out d. apply put_post_indeterminate. }
  apply disk_bind with (Q := fun _ => frame o parent (exchanged (sg_file staged) i)).
  { eapply disk_try with (Q := fun _ => frame o parent (exchanged (sg_file staged) i)) (R := fun _ => frame o parent m1).
    - apply changes_spec; [|done]. intros d Hf. eapply disk_weaken; [apply (rename_changes d)|done| |done].
      intros [] d' (n & m & f & Hn & Hb & (j & k & Ho & Hnew & ->) & He).
      pose proof (frame_entries _ _ _ _ _ _ Hf Hn Hb) as ->. unfold m1 in Hnew. rewrite lookup_insert_ne in Hnew by done.
      simplify_eq. apply (frame_edits _ _ _ _ _ _ Hf) in He. exact He.
    - intros []. by apply disk_pure.
    - intros e. eapply disk_bind with (Q := fun _ => only_name o parent m0 stage).
      + eapply disk_weaken; [apply (ignore_unlink_spec (sg_file staged) m1); [done..|apply staged_off_stage]|done..].
      + intros ?. by apply disk_pure. }
  intros []. eapply disk_try; [apply reads_only; intros d; eexists; apply verify_reads|..].
  2: { intros e. apply Hroll'. }
  intros []. eapply disk_try; [apply reads_only; intros d; eexists; by apply observe_entry_reads|..].
  2: { intros e. apply Hroll'. }
  intros found. destruct (observed_digest _ != _); [apply Hroll'|].
  apply disk_bind with (Q := fun _ d => m0 !! quarantine = None /\ frame o parent (<[quarantine := i]> (<[name := sg_file staged]> m0)) d).
  { apply disk_map_err, changes_spec; [|intros e d _; by apply put_post_indeterminate; eexists]. intros d Hf.
    eapply disk_weaken; [apply (rename_changes d)|done| |done].
    intros [] d' (n & m & f & Hn & Hb & (j & Ho & Hnew & ->) & He).
    pose proof (frame_entries _ _ _ _ _ _ Hf Hn Hb) as ->. rewrite exchanged_stage in Ho. simplify_eq.
    rewrite exchanged_other in Hnew by done. split; [done|].
    apply (frame_edits _ _ _ _ _ _ Hf) in He. cbn beta in He. unfold exchanged in He.
    rewrite delete_insert_eq, (insert_insert_ne m0 name stage), delete_insert_id in He by (done || by rewrite lookup_insert_ne).
    exact He. }
  intros []. apply disk_fact. intros Hq. eapply disk_bind.
  + eapply disk_weaken;
      [by apply (finalize_spec policy (<[quarantine := i]> (<[name := sg_file staged]> m0)) staged name metadata)|done| |].
    * intros a d Hi'. exact Hi'.
    * intros out d. apply put_post_indeterminate.
  + intros []. apply disk_pure. intros d Hin. exists staged. split_all; try done. by exists i.
Qed.

(** ** Delete *)

Definition delete_post (expected : Digest) (out : ExecutionOutcomeV1) (d : Disk) : Prop :=
  match out with
  | OutFailed _ => frame o parent m0 d
  | OutIndeterminate _ => True
  | OutSucceeded s => s = FileDeleteSuccess expected quarantine true /\ m0 !! quarantine = None /\
      exists i, m0 !! name = Some i /\ frame o parent (<[quarantine := i]> (delete name m0)) d /\ flushed parent d
  end.

Lemma rollback_delete_spec expected i reason :
  m0 !! name = Some i -> m0 !! quarantine = None ->
  disk_spec (frame o parent (<[quarantine := i]> (delete name m0))) (rollback_delete parent name quarantine reason)
    (delete_post expected) (delete_post expected).
Proof.
  intros Hname Hq. unfold rollback_delete. apply disk_bind with (Q := fun _ => frame o parent m0).
  { apply disk_map_err, changes_spec; [|done]. intros d Hf. eapply disk_weaken; [apply (rename_changes d)|done| |done].
    intros [] d' (n & m & f & Hn & Hb & (j & Ho & Hnew & ->) & He).
    pose proof (frame_entries _ _ _ _ _ _ Hf Hn Hb) as ->. rewrite lookup_insert_eq in Ho. simplify_eq.
    apply (frame_edits _ _ _ _ _ _ Hf) in He. cbn beta in He.
    rewrite delete_insert_id, insert_delete_id in He by (done || by rewrite lookup_delete_ne). exact He. }
  intros []. eapply disk_bind; [by apply disk_map_err, (fsync_parent_plain m0)|]. intros []. by apply disk_pure.
Qed.

(** [execute_file_delete] from the rename on. *)
Lemma delete_commit_spec policy expected :
  frame o parent m0 o ->
  disk_spec (fun d => d = o)
    (st_map_err uncommitted (renameat_with parent name quarantine NOREPLACE) ;!
     st_try (observe_entry parent quarantine (fp_max_content_bytes policy)) (fun displaced =>
       if observed_digest displaced != Some expected then
         rollback_delete parent name quarantine "entry changed during atomic quarantine"
       else
         st_map_err durability_error (fsync parent) ;!
         pure (Ok (success (FileDeleteSuccess expected quarantine true)))))
    (delete_post expected) (delete_post expected).
Proof.
  intros Ho. eapply disk_bind with (Q := fun _ d => (exists i, m0 !! name = Some i /\ m0 !! quarantine = None /\
    frame o parent (<[quarantine := i]> (delete name m0)) d)).
  { apply disk_map_err, changes_spec; [|intros e d ->; exact Ho]. intros d ->.
    eapply disk_weaken; [apply (rename_changes o)|done| |done].
    intros [] d' (n & m & f & Hn & Hb & (j & Hj & Hnew & ->) & He).
    pose proof (frame_entries _ _ _ _ _ _ Ho Hn Hb) as ->. exists j. split_all; [done..|].
    by apply (frame_edits _ _ _ _ _ _ Ho) in He. }
  intros []. apply disk_exists. intros i. apply disk_fact. intros Hname. apply disk_fact. intros Hq.
  eapply disk_try; [apply reads_only; intros d; eexists; by apply observe_entry_reads|..].
  2: { intros e. by apply (rollback_delete_spec expected i). }
  intros found. destruct (observed_digest _ != _); [by apply (rollback_delete_spec expected i)|].
  eapply disk_bind with (Q := fun _ d => frame o parent (<[quarantine := i]> (delete name m0)) d /\ flushed parent d).
  { apply disk_map_err. eapply disk_weaken;
      [by apply (fsync_parent_spec (<[quarantine := i]> (delete name m0)) (fun _ _ => True) (fun _ => True))|done| |done].
    by intros [] d (Hf & _ & Hfl). }
  intros []. apply disk_pure. intros d [Hf Hfl]. simpl. split_all; try done. by exists i.
Qed.

End Attempt.
End Observations.
