(* ===== verification/ExecutorSpec.v ===== *)
(** * What the executor guarantees

    Managed files under every schedule of faults: a failed effect leaves every
    file and every directory entry as it was, except for the attempt's private
    staging name; a successful put binds the target to a flushed file with
    exactly the ratified content and metadata and keeps the old file in
    quarantine; a successful delete moves it there.  Pointer promotions succeed
    only on an answer that repeats the request.  Receipts bind the permit. *)

From S2P Require Import Prelude Wire Fixture Digest Names Origin Identity Paths Effect Compile Executor HostFiles ExecutorFiles ExecutorAttempt.

(** ** The attempt's private names *)

Lemma slash_free_digits l :
  Forall (fun c => is_ascii_digit c = true) l -> slash_free (String.string_of_list_ascii l) = true.
Proof.
  induction 1 as [|c l Hc Hl IH]; [done|]. unfold slash_free, str_all in *. simpl. rewrite IH, andb_true_r.
  apply negb_true_iff, Ascii.eqb_neq. by intros ->.
Qed.
Lemma slash_free_hex s : str_all is_hex_lower s = true -> slash_free s = true.
Proof.
  unfold slash_free, str_all. induction s as [|c s IH]; [done|]. simpl. rewrite !andb_true_iff. intros [Hc Hs].
  split; [|auto]. apply negb_true_iff, Ascii.eqb_neq. by intros ->.
Qed.

(** The permit of a burned attempt: its identity is a digest, its index a [u32]. *)
Definition permit_ok (permit : BurnedExecutionPermitV1) : Prop :=
  canonical_digest_text (digest_str (bp_attempt permit)) /\ (0 <= bp_effect_index permit)%Z.

Lemma suffix_single (prefix_ s index : string) :
  prefix_ = STAGE_PREFIX \/ prefix_ = QUARANTINE_PREFIX -> slash_free s = true -> slash_free index = true ->
  single (prefix_ +:+ s +:+ "-" +:+ index).
Proof.
  intros Hp Hs Hi. assert (slash_free (prefix_ +:+ s +:+ "-" +:+ index) = true) as Hf.
  { unfold slash_free in *. rewrite !str_all_app, Hs, Hi. by destruct Hp as [->| ->]. }
  apply single_intro; [by destruct Hp as [->| ->]..|done].
Qed.

Lemma internal_names_single permit :
  permit_ok permit -> single (in_stage (internal_names permit)) /\ single (in_quarantine (internal_names permit)).
Proof.
  intros [(h & Hd & _ & Hh) Hi]. unfold internal_names. rewrite Hd.
  assert (starts_with (SHA256_PREFIX +:+ h) "sha256:" = true) as -> by (apply starts_with_spec; by exists h).
  change 7 with (String.length SHA256_PREFIX). rewrite str_drop_app.
  assert (slash_free (u64_to_string (bp_effect_index permit)) = true) by (apply slash_free_digits, dec_digits_digits; done).
  apply slash_free_hex in Hh. split; apply suffix_single; auto.
Qed.

Lemma stage_name_prefix permit : starts_with (in_stage (internal_names permit)) STAGE_PREFIX = true.
Proof. apply starts_with_spec. by eexists. Qed.
Lemma quarantine_name_prefix permit : starts_with (in_quarantine (internal_names permit)) QUARANTINE_PREFIX = true.
Proof. apply starts_with_spec. by eexists. Qed.
Lemma internal_names_distinct permit : in_stage (internal_names permit) <> in_quarantine (internal_names permit).
Proof. by intros [=]. Qed.

(** ** What happened to a disk *)

(** Nothing, except possibly to one hidden name: every inode is there with its
    owner, mode and links, every file holds its bytes, every directory its
    entries. *)
Definition body_kept (hidden : option string) (b b' : NodeBody) : Prop :=
  match b, b' with
  | Directory m, Directory m' => forall k, Some k <> hidden -> m' !! k = m !! k
  | _, _ => b' = b
  end.
Definition untouched (hidden : option string) (o d : Disk) : Prop :=
  forall i n, dk_nodes o !! i = Some n ->
  exists n', dk_nodes d !! i = Some n' /\ same_owner n n' /\ body_kept hidden (nd_body n) (nd_body n').

Lemma body_kept_refl hidden b : body_kept hidden b b.
Proof. by destruct b. Qed.
Lemma untouched_refl hidden d : untouched hidden d d.
Proof. intros i n Hn. exists n. split_all; [done| |apply body_kept_refl]. apply same_file_owner, same_file_refl. Qed.

Lemma frame_untouched o parent m0 m d hidden :
  dir_entries parent o = Ok m0 -> frame o parent m d -> (forall k, Some k <> hidden -> m !! k = m0 !! k) -> untouched hidden o d.
Proof.
  intros Hm0 [_ _ Ho (n & m' & n' & Hpo & Hb & Hpd & Hs & Hb')] Hm i k Hk.
  apply dir_entries_ok in Hm0 as (n0 & Hn0 & Hb0). destruct (decide (i = parent)) as [->|Hi].
  - exists n'. assert (n = k) as -> by congruence. assert (m' = m0) as -> by congruence. split_all; [done..|]. by rewrite Hb, Hb'.
  - destruct (Ho i k Hi Hk) as (k' & Hk' & Hs'). exists k'. split_all; [done|by apply same_file_owner|].
    destruct Hs' as (_ & _ & _ & _ & _ & _ & ->). apply body_kept_refl.
Qed.

(** Every inode but [parent] is the same file. *)
Definition others_same (o : Disk) (parent : Z) (d : Disk) : Prop :=
  forall i n, i <> parent -> dk_nodes o !! i = Some n -> exists n', dk_nodes d !! i = Some n' /\ same_file n n'.

Lemma others_same_content o parent d i c :
  others_same o parent d -> has_content o i c -> i <> parent -> has_content d i c.
Proof.
  intros Ho (n & Hn & Hb) Hi. destruct (Ho i n Hi Hn) as (n' & Hn' & Hs). exists n'. split; [done|].
  destruct Hs as (_ & _ & _ & _ & _ & _ & ->). done.
Qed.

Lemma frame_dir_entries o parent m d : frame o parent m d -> dir_entries parent d = Ok m.
Proof.
  intros [_ _ _ (n & m' & n' & _ & _ & Hn & _ & Hb)]. unfold dir_entries, node_of, node_entries. rewrite Hn. simpl. by rewrite Hb.
Qed.

Section Guarantees.
  Context `{Deps, ErrnoText}.

(** The target of [path] is now the flushed file [file], created by the attempt,
    with exactly this content and metadata. *)
Definition target_installed (desired : Digest) (metadata : FileMetadata) (file : Z) (o d : Disk) : Prop :=
  dk_nodes o !! file = None /\
  exists n c, dk_nodes d !! file = Some n /\ nd_body n = Regular c /\ hash_bytes c = desired /\ nd_nlink n = 1%Z /\
  nd_uid n = fm_uid metadata /\ nd_gid n = fm_gid metadata /\ Z.land (nd_mode n) 4095 = fm_mode metadata /\ nd_dirty n = false.

Definition put_done (policy : ManagedFilePolicyV1) (path quarantine : string) (expected : option Digest) (desired : Digest)
    (metadata : FileMetadata) (o d : Disk) : Prop :=
  exists parent name m file,
  managed_target policy o path parent name /\ dir_entries parent o = Ok m /\ others_same o parent d /\ flushed parent d /\
  target_installed desired metadata file o d /\
  match expected with
  | None => m !! name = None /\ dir_entries parent d = Ok (<[name := file]> m)
  | Some e => m !! quarantine = None /\
      exists i c, m !! name = Some i /\ has_content o i c /\ hash_bytes c = e /\ has_content d i c /\
      dir_entries parent d = Ok (<[quarantine := i]> (<[name := file]> m))
  end.
Definition delete_done (policy : ManagedFilePolicyV1) (path quarantine : string) (expected : Digest) (o d : Disk) : Prop :=
  exists parent name m,
  managed_target policy o path parent name /\ dir_entries parent o = Ok m /\ others_same o parent d /\ flushed parent d /\
  m !! quarantine = None /\
  exists i c, m !! name = Some i /\ has_content o i c /\ hash_bytes c = expected /\ has_content d i c /\
  dir_entries parent d = Ok (<[quarantine := i]> (delete name m)).

Definition put_outcome (policy : ManagedFilePolicyV1) (permit : BurnedExecutionPermitV1) (path : string)
    (expected : option Digest) (desired : Digest) (metadata : FileMetadata) (o : Disk) (out : ExecutionOutcomeV1) (d : Disk) : Prop :=
  let names := internal_names permit in
  match out with
  | OutFailed _ => untouched (Some (in_stage names)) o d
  | OutIndeterminate _ => True
  | OutSucceeded s =>
      s = FilePutSuccess expected desired (option_map (fun _ => in_quarantine names) expected) true true /\
      put_done policy path (in_quarantine names) expected desired metadata o d
  end.
Definition delete_outcome (policy : ManagedFilePolicyV1) (permit : BurnedExecutionPermitV1) (path : string) (expected : Digest)
    (o : Disk) (out : ExecutionOutcomeV1) (d : Disk) : Prop :=
  let names := internal_names permit in
  match out with
  | OutFailed _ => untouched None o d
  | OutIndeterminate _ => True
  | OutSucceeded s =>
      s = FileDeleteSuccess expected (in_quarantine names) true /\
      delete_done policy path (in_quarantine names) expected o d
  end.

(** The parent that [secure_parent] answers is a directory, and the name is
    outside the attempt's namespace. *)
Lemma trusted_path_dir policy d i names parent final :
  trusted policy d final i -> trusted_path policy d i names parent -> exists m, dir_entries parent d = Ok m.
Proof.
  revert i final. induction names as [|s names IH]; simpl; intros i final Ht Hp.
  - subst i. destruct Ht as (n & m & Hn & Hb & _). exists m. unfold dir_entries, node_of, node_entries. rewrite Hn. simpl.
    by rewrite Hb.
  - destruct Hp as (j & _ & Hj & Hp). by eapply IH.
Qed.
Lemma managed_target_dir policy d path parent name :
  managed_target policy d path parent name -> exists m, dir_entries parent d = Ok m.
Proof. intros (names & _ & Ht & Hp & _). by eapply trusted_path_dir. Qed.
Lemma managed_target_single policy d path parent name : managed_target policy d path parent name -> single name.
Proof.
  intros (names & Hc & _). apply (component_single path). rewrite Hc. right. rewrite map_app, in_app_iff. right. by left.
Qed.
Lemma managed_target_names policy d path parent name permit :
  managed_target policy d path parent name ->
  name <> in_stage (internal_names permit) /\ name <> in_quarantine (internal_names permit).
Proof.
  intros (names & _ & _ & _ & H1 & H2). split; intros ->; [by rewrite stage_name_prefix in H1 | by rewrite quarantine_name_prefix in H2].
Qed.

Lemma observed_entry o parent name m digest :
  dir_entries parent o = Ok m -> observed_file o parent name digest ->
  exists i c, m !! name = Some i /\ has_content o i c /\ hash_bytes c = digest /\ i <> parent.
Proof.
  intros Hm (i & c & (n & m' & Hn & Hb & Hi) & Hc & Hh). apply dir_entries_ok in Hm as (n' & Hn' & Hb'). assert (m' = m) as -> by congruence.
  exists i, c. split_all; try done. intros ->. destruct Hc as (n2 & Hn2 & Hb2). congruence.
Qed.

(** Reading steps of an attempt that still has the disk it began on. *)
Lemma begin_reads {E A} o (m : ST FileSystem E A) (F : A -> Prop) (R : E -> Disk -> Prop) :
  reads o m F -> (forall e, R e o) -> disk_spec (fun d => d = o) m (fun a d => F a /\ d = o) R.
Proof.
  intros Hm HR fs Hd. specialize (Hm fs Hd). destruct (m fs) as [fs' [a|e|]]; [by destruct Hm|rewrite Hm; apply HR|done].
Qed.
Lemma begin_guard {E A} o c (e : E) (k : ST FileSystem E A) Q (R : E -> Disk -> Prop) :
  R e o -> (c = false -> disk_spec (fun d => d = o) k Q R) ->
  disk_spec (fun d => d = o) (st_bind (pure (reject_if c e)) (fun _ => k)) Q R.
Proof.
  intros HR Hk. apply disk_bind with (Q := fun _ d => c = false /\ d = o); [|intros []; by apply disk_fact].
  apply disk_pure. intros d ->. by destruct c.
Qed.

Lemma into_outcome_untouched policy permit path expected desired metadata o e :
  put_outcome policy permit path expected desired metadata o (into_outcome e) o.
Proof. apply untouched_refl. Qed.
Lemma into_outcome_delete policy permit path expected o e :
  delete_outcome policy permit path expected o (into_outcome e) o.
Proof. apply untouched_refl. Qed.

(** What the attempt's rules say of the two ends of a put, in terms of the disk
    it began on. *)
Lemma installed_target o parent name m staged metadata d :
  private o parent (sg_file staged) -> installed o parent name staged metadata m d ->
  dir_entries parent d = Ok m /\ others_same o parent d /\ flushed parent d /\
  target_installed (sg_digest staged) metadata (sg_file staged) o d.
Proof.
  intros [Hfile Hne] ((_ & n & c & Hn & Hb & Hh & Hl & Hu & Hg & Hmo) & Hf & (n' & Hn' & Hdirty) & Hfp). simplify_eq.
  split_all; [by apply (frame_dir_entries o)|exact (frame_others _ _ _ _ Hf)|done|]. split; [done|]. exists n, c. by split_all.
Qed.

Lemma put_post_outcome policy permit path expected desired metadata o parent name m out d :
  managed_target policy o path parent name -> dir_entries parent o = Ok m ->
  (forall e, expected = Some e -> observed_file o parent name e) ->
  put_post o parent m name (in_stage (internal_names permit)) (in_quarantine (internal_names permit)) desired metadata
    expected out d ->
  put_outcome policy permit path expected desired metadata o out d.
Proof.
  intros Ht Hm Hobs. destruct out as [s|f|env]; [|intros (m' & Hf & Hoff)|done].
  2: { apply (frame_untouched o parent m m' d); [done|done|]. intros k Hk. apply Hoff. congruence. }
  intros (st & Hp & <- & Hs). simpl. destruct expected as [e|].
  - destruct Hs as (-> & Hq & i & Hi & Hin). split; [done|].
    destruct (observed_entry o parent name m e Hm (Hobs e eq_refl)) as (i' & c & Hi' & Hc & Hh & Hip). assert (i' = i) as -> by congruence.
    destruct (installed_target _ _ _ _ _ _ _ Hp Hin) as (He & Hos & Hfl & Hti).
    exists parent, name, m, (sg_file st). split_all; try done. exists i, c. split_all; try done.
    by eapply others_same_content.
  - destruct Hs as (-> & Hno & Hin). split; [done|].
    destruct (installed_target _ _ _ _ _ _ _ Hp Hin) as (He & Hos & Hfl & Hti).
    exists parent, name, m, (sg_file st). by split_all.
Qed.

Lemma put_content_spec policy permit path expected desired b metadata o :
  disk_wf o -> permit_ok permit ->
  disk_spec (fun d => d = o) (put_content policy permit path expected desired b metadata)
    (put_outcome policy permit path expected desired metadata o) (put_outcome policy permit path expected desired metadata o).
Proof.
  intros Hwf Hok. unfold put_content. set (post := put_outcome policy permit path expected desired metadata o).
  assert (forall f, post (OutFailed f) o) as Hfail by (intros f; apply untouched_refl).
  eapply disk_bind; [apply disk_map_err, begin_reads; [apply secure_parent_reads|intros e; apply Hfail]|].
  intros [parent name]. apply disk_fact. intros Ht.
  pose proof (managed_target_single _ _ _ _ _ Ht) as Hsn. destruct (managed_target_dir _ _ _ _ _ Ht) as [m Hm].
  destruct (managed_target_names _ _ _ _ _ permit Ht) as [Hns Hnq].
  destruct (internal_names_single permit Hok) as [Hss Hsq]. pose proof (internal_names_distinct permit) as Hd.
  eapply disk_bind; [apply disk_map_err, begin_reads; [by apply observe_entry_reads|intros e; apply Hfail]|].
  intros found. apply disk_fact. intros Hfound. apply begin_guard; [apply Hfail|]. intros Hexp.
  apply negb_bool_decide_false in Hexp. apply begin_guard; [apply Hfail|]. intros _.
  eapply disk_bind; [apply disk_map_err, begin_reads; [apply ensure_names_reads|intros e; apply Hfail]|].
  intros []. apply disk_fact. intros _.
  set (stage := in_stage (internal_names permit)) in *. set (quarantine := in_quarantine (internal_names permit)) in *.
  assert (forall e, expected = Some e -> observed_file o parent name e) as Hobs.
  { intros e ->. destruct found as [v|]; [|done]. injection Hexp as <-. by apply Hfound. }
  assert (forall out d, put_post o parent m name stage quarantine desired metadata expected out d -> post out d) as Hpost.
  { intros out d. by apply (put_post_outcome policy permit path _ _ _ o parent name m). }
  eapply disk_bind.
  { apply disk_map_err. eapply disk_weaken; [by apply (stage_content_spec o parent m stage)|done| |].
    - intros staged d Hq. exact Hq.
    - intros e d Hc. by apply Hpost. }
  intros staged. apply disk_fact. intros (Hp & Hnone & Hdig). destruct expected as [e|].
  - destruct (observed_entry o parent name m e Hm (Hobs e eq_refl)) as (i & c & Hi & _).
    eapply disk_weaken; [by apply (put_replace_spec o parent m name stage quarantine) with (i := i)|done|apply Hpost..].
  - eapply disk_weaken; [by apply (put_create_spec o parent m name stage quarantine)|done|apply Hpost..].
Qed.

Lemma delete_spec policy permit path expected o :
  disk_wf o -> permit_ok permit ->
  disk_spec (fun d => d = o) (execute_file_delete policy permit path expected)
    (delete_outcome policy permit path expected o) (fun _ _ => False).
Proof.
  intros Hwf Hok. apply disk_returning.
  set (post := delete_outcome policy permit path expected o).
  assert (forall f, post (OutFailed f) o) as Hfail by (intros f; apply untouched_refl).
  eapply disk_bind; [apply disk_map_err, begin_reads; [apply secure_parent_reads|intros e; apply Hfail]|].
  intros [parent name]. apply disk_fact. intros Ht.
  pose proof (managed_target_single _ _ _ _ _ Ht) as Hsn. destruct (managed_target_dir _ _ _ _ _ Ht) as [m Hm].
  destruct (managed_target_names _ _ _ _ _ permit Ht) as [Hns Hnq].
  destruct (internal_names_single permit Hok) as [Hss Hsq]. pose proof (internal_names_distinct permit) as Hd.
  eapply disk_bind; [apply disk_map_err, begin_reads; [by apply observe_entry_reads|intros e; apply Hfail]|].
  intros found. apply disk_fact. intros Hfound.
  apply disk_bind with (Q := fun v d => found = Some v /\ d = o).
  { apply disk_pure. intros d ->. destruct found; [done|apply Hfail]. }
  intros v. apply disk_fact. intros ->. apply begin_guard; [apply Hfail|]. intros Hexp.
  apply negb_bool_decide_false in Hexp. subst expected. specialize (Hfound v eq_refl).
  eapply disk_bind; [apply disk_map_err, begin_reads; [apply ensure_names_reads|intros e; apply Hfail]|].
  intros []. apply disk_fact. intros _.
  assert (frame o parent m o) as Hf by (apply dir_entries_ok in Hm as (n & Hn & Hb); by apply (frame_init o parent n)).
  assert (forall out d, delete_post o parent m name (in_quarantine (internal_names permit)) (ob_digest v) out d -> post out d) as Hpost.
  { intros [s|f|env] d; [|intros Hfr|done].
    - intros (-> & Hq & i & Hi & Hfr & Hfl). split; [done|].
      destruct (observed_entry o parent name m (ob_digest v) Hm Hfound) as (i' & c & Hi' & Hc & Hh & Hip). assert (i' = i) as -> by congruence.
      pose proof (frame_others _ _ _ _ Hfr) as Hos. exists parent, name, m. split_all; try done. exists i, c.
      split_all; try done; [by eapply others_same_content | by apply (frame_dir_entries o)].
    - by apply (frame_untouched o parent m m d). }
  eapply disk_weaken; [by apply (delete_commit_spec o parent m name
    (in_quarantine (internal_names permit)))|done|apply Hpost..].
Qed.

(** ** One effect *)

Section Effects.
  Context `{JcsErrorText} {X : Type} `{!ArtifactSourceV1 X, !PinnedPointerHelperV1 X, !SystemdDbusBackendV1 X}.

(** A put always returns, with an outcome that says what happened to the disk. *)
Lemma file_put_run policy permit path expected desired mode uid gid (h : ExecHost X) :
  disk_wf (fs_disk (eh_files h)) -> permit_ok permit ->
  exists h' out, execute_file_put policy permit path expected desired mode uid gid h = (h', Ok out) /\
  put_outcome policy permit path expected desired (mkMetadata uid gid mode) (fs_disk (eh_files h)) out (fs_disk (eh_files h')).
Proof.
  intros Hwf Hok. unfold execute_file_put, returning. rewrite st_bind_run. unfold on_world, st_map_err, load_artifact.
  destruct (artifact_load desired (eh_world h)) as [x [e|b]]; [eexists _, _; split; [done|]; apply untouched_refl|].
  cbn [map_err]. rewrite st_bind_run. unfold pure, reject_if.
  destruct (_ <? _)%Z; [eexists _, _; split; [done|]; apply untouched_refl|]. rewrite st_bind_run.
  destruct (_ != _); [eexists _, _; split; [done|]; apply untouched_refl|]. unfold on_files. cbn [eh_files].
  pose proof (put_content_spec policy permit path expected desired b (mkMetadata uid gid mode) _ Hwf Hok (eh_files h) eq_refl) as Hp.
  destruct (put_content _ _ _ _ _ _ _ _) as [fs [out|out|]]; [by eexists _, _..|done].
Qed.

(** So does a delete. *)
Lemma file_delete_run policy permit path expected fs :
  disk_wf (fs_disk fs) -> permit_ok permit ->
  exists fs' out, execute_file_delete policy permit path expected fs = (fs', Ok out) /\
  delete_outcome policy permit path expected (fs_disk fs) out (fs_disk fs').
Proof.
  intros Hwf Hok. pose proof (delete_spec policy permit path expected _ Hwf Hok fs eq_refl) as Hd.
  destruct (execute_file_delete _ _ _ _ _) as [fs' [out| |]]; [by eexists _, _|done..].
Qed.

(** What each outcome of a promotion says. *)
Definition promotion_outcome (permit : BurnedExecutionPermitV1) (p : PromotionEffect) (x : X) (out : ExecutionOutcomeV1) (x' : X)
    : Prop :=
  match out with
  | OutSucceeded s => exists checkpoint x1 request_digest result,
      pp_schema p = MANAGED_POINTER_PROMOTION_SCHEMA_V2 /\ bp_preparation_checkpoint permit = Some checkpoint /\
      helper_identity x = (x1, CapSucceeded (mkHelperIdentity (pp_helper_executable p) (pp_helper_launch_profile p))) /\
      from_serializable (cas_request p checkpoint) = Ok request_digest /\
      compare_and_swap (cas_request p checkpoint) x1 = (x', CapSucceeded result) /\
      result = mkCasSuccess request_digest (pp_operation_id p) checkpoint (pp_repository_identity p)
        (pp_prestate_identity p) (pp_repository_device p) (pp_repository_inode p) (pp_git_directory_device p)
        (pp_git_directory_inode p) (pp_candidate_pack_digest p) (pp_expected_object p) (pp_expected_tree p)
        (pp_new_object p) (pp_expected_post_tree p) (cs_evidence result) (cs_poststate_evidence result) /\
      s = PromotionSuccess (pp_operation_id p) (pp_candidate_pack_digest p) checkpoint (pp_expected_object p)
        (pp_expected_tree p) (pp_new_object p) (pp_expected_post_tree p) (cs_evidence result) (cs_poststate_evidence result)
  | OutFailed f =>
      x' = x \/ x' = (helper_identity x).1 \/
      exists checkpoint e, compare_and_swap (cas_request p checkpoint) (helper_identity x).1 = (x', CapFailed e) /\
        xf_source_code f = Some (cf_code e)
  | OutIndeterminate _ => True
  end.

Lemma cas_exact_answer p checkpoint request_digest result :
  cas_exact p checkpoint request_digest result = true ->
  result = mkCasSuccess request_digest (pp_operation_id p) checkpoint (pp_repository_identity p)
        (pp_prestate_identity p) (pp_repository_device p) (pp_repository_inode p) (pp_git_directory_device p)
        (pp_git_directory_inode p) (pp_candidate_pack_digest p) (pp_expected_object p) (pp_expected_tree p)
        (pp_new_object p) (pp_expected_post_tree p) (cs_evidence result) (cs_poststate_evidence result).
Proof.
  unfold cas_exact. rewrite !andb_true_iff, !bool_decide_eq_true. destruct result. simpl. intros Hc.
  repeat match goal with H : _ /\ _ |- _ => destruct H end. by subst.
Qed.

(** A promotion succeeds only with the checkpoint of its permit, after the helper
    has shown exactly the ratified executable and profile, on an answer that
    repeats the request; it fails only if the compare-and-swap was not asked for or
    was refused by the helper. *)
Lemma promotion_run permit p (x : X) :
  exists x' out, execute_pointer permit (EffManagedPointerPromotion p) x = (x', Ok out) /\ promotion_outcome permit p x out x'.
Proof.
  unfold execute_pointer, returning, invoke. rewrite st_bind_run. unfold pure at 1. rewrite st_bind_run. unfold pure at 1, reject_if.
  destruct (pp_schema p != _) eqn:Hs; [eexists _, _; split; [done|]; by left|]. apply negb_bool_decide_false in Hs.
  rewrite st_bind_run. unfold pure at 1. destruct (bp_preparation_checkpoint permit) as [checkpoint|] eqn:Hc; cbn [ok_or];
    [|eexists _, _; split; [done|]; by left].
  rewrite st_bind_run. destruct (helper_identity x) as [x1 o1] eqn:Hi. rewrite st_bind_run. unfold pure at 1.
  assert (x1 = (helper_identity x).1) as Hx1 by by rewrite Hi.
  destruct o1 as [identity|e|e]; [|eexists _, _; split; [done|]; by right; left|by eexists _, _].
  rewrite st_bind_run. unfold pure at 1. destruct (_ || _) eqn:Hid; [eexists _, _; split; [done|]; by right; left|].
  guards_in Hid. destruct Hid as [Hex Hlp]. rewrite st_bind_run. unfold pure at 1.
  pose proof (from_serializable_no_panic (cas_request p checkpoint)) as Hnp.
  destruct (from_serializable (cas_request p checkpoint)) as [rd|e|] eqn:Hr; cbn [map_err];
    [|eexists _, _; split; [done|]; by right; left|done].
  rewrite st_bind_run. destruct (compare_and_swap (cas_request p checkpoint) x1) as [x2 o2] eqn:Hcas. unfold pure.
  destruct o2 as [result|e|e].
  - destruct (cas_exact p checkpoint rd result) eqn:He; [|by eexists _, _]. apply cas_exact_answer in He.
    eexists _, _. split; [done|]. exists checkpoint, x1, rd, result. split_all; try done.
    + rewrite Hi. destruct identity. simpl in *. congruence.
    + rewrite He. done.
  - eexists _, _. split; [done|]. right. right. exists checkpoint, e. by rewrite <- Hx1.
  - by eexists _, _.
Qed.

(** What each outcome of the whole executor says of the files and of the world
    behind its capabilities. *)
Definition effect_outcome (policy : ManagedFilePolicyV1) (permit : BurnedExecutionPermitV1) (effect : CanonicalEffectV1)
    (h : ExecHost X) (out : ExecutionOutcomeV1) (h' : ExecHost X) : Prop :=
  if is_promotion effect == bool_decide (is_Some (bp_preparation_checkpoint permit)) then
    match effect with
    | EffManagedFilePut _ path expected content mode uid gid =>
        put_outcome policy permit path expected content (mkMetadata uid gid mode) (fs_disk (eh_files h)) out (fs_disk (eh_files h'))
    | EffManagedFileDelete _ path expected =>
        eh_world h' = eh_world h /\
        delete_outcome policy permit path expected (fs_disk (eh_files h)) out (fs_disk (eh_files h'))
    | EffManagedPointerPromotion p =>
        eh_files h' = eh_files h /\ promotion_outcome permit p (eh_world h) out (eh_world h')
    | EffSystemdUnit _ u a s f =>
        eh_files h' = eh_files h /\
        forall result, out = OutSucceeded result -> exists answer,
          unit_action (mkUnitRequest u a s f) (eh_world h) = (eh_world h', CapSucceeded answer) /\
          us_unit answer = u /\ us_action answer = a /\ us_previous_active_state answer = s /\ us_previous_unit_file_state answer = f
    | EffSystemdManagerReload _ m g =>
        eh_files h' = eh_files h /\
        forall result, out = OutSucceeded result -> exists answer,
          reload_manager (mkReloadRequest m g) (eh_world h) = (eh_world h', CapSucceeded answer) /\
          ms_machine_identity answer = m /\ (g <= ms_resulting_generation answer)%Z
    end
  else h' = h /\ exists f, out = OutFailed f.

Lemma systemd_unit_spec u a s f (x : X) :
  exists x' out, execute_systemd_unit u a s f x = (x', Ok out) /\
  forall result, out = OutSucceeded result -> exists answer,
    unit_action (mkUnitRequest u a s f) x = (x', CapSucceeded answer) /\
    us_unit answer = u /\ us_action answer = a /\ us_previous_active_state answer = s /\ us_previous_unit_file_state answer = f.
Proof.
  unfold execute_systemd_unit, invoke. rewrite st_bind_run. destruct (unit_action _ x) as [x' o]. eexists _, _. split; [done|].
  intros result. destruct o as [r|e|e]; [|done..]. destruct (_ && _) eqn:Hg; [|done]. intros _. exists r.
  rewrite !andb_true_iff, !bool_decide_eq_true in Hg. destruct Hg as [[[-> ->] ->] ->]. done.
Qed.
Lemma systemd_manager_spec m g (x : X) :
  exists x' out, execute_systemd_manager m g x = (x', Ok out) /\
  forall result, out = OutSucceeded result -> exists answer,
    reload_manager (mkReloadRequest m g) x = (x', CapSucceeded answer) /\
    ms_machine_identity answer = m /\ (g <= ms_resulting_generation answer)%Z.
Proof.
  unfold execute_systemd_manager, invoke. rewrite st_bind_run. destruct (reload_manager _ x) as [x' o]. eexists _, _. split; [done|].
  intros result. destruct o as [r|e|e]; [|done..]. destruct (_ && _) eqn:Hg; [|done]. intros _. exists r.
  rewrite andb_true_iff, bool_decide_eq_true, Z.leb_le in Hg. by destruct Hg as [-> ?].
Qed.

(** C11. [execute_once] always returns exactly one receipt, and the receipt binds
    the permit and the effect that it was given.  A permit whose checkpoint does not
    fit the effect's family changes nothing.  Otherwise, whatever calls fail on the
    way: a failed put or delete of a managed file has left every inode with its
    owner, mode, links and bytes and every directory with its entries, except
    possibly the attempt's own staging name; a successful put has bound the target
    (resolved through trusted directories only) to a new, flushed file with exactly
    the ratified content, owner and mode, and has kept the old file with the
    ratified old content under the quarantine name; a successful delete has moved
    it there; nothing else on the disk has changed.  A promotion succeeds only with
    the permit's checkpoint, after the helper has shown the ratified executable and
    profile, on an answer that repeats the request in every field, and fails only
    if the swap was not asked for or the helper refused it.  A systemd operation
    succeeds only on an answer that repeats its request. *)
Theorem execute_once_outcomes policy permit effect (h : ExecHost X) :
  disk_wf (fs_disk (eh_files h)) -> permit_ok permit ->
  exists h' receipt, execute_once policy permit effect h = (h', Ok receipt) /\
  receipt_verify_bindings receipt (bp_proposal permit) (bp_authorization permit) (bp_attempt permit)
    (bp_effect_index permit) effect = Ok tt /\
  effect_outcome policy permit effect h (xr_outcome receipt) h'.
Proof.
  intros Hwf Hok. unfold execute_once, effect_outcome.
  assert (forall out, receipt_verify_bindings (mkExecutionReceipt EXECUTION_RECEIPT_SCHEMA_V1 (bp_proposal permit)
    (bp_authorization permit) (bp_attempt permit) (bp_effect_index permit) effect out) (bp_proposal permit)
    (bp_authorization permit) (bp_attempt permit) (bp_effect_index permit) effect = Ok tt) as Hbind.
  { intros out. unfold receipt_verify_bindings. apply reject_if_ok. cbn [xr_schema xr_proposal xr_authorization xr_attempt
      xr_effect_index xr_effect]. guards. done. }
  destruct (is_promotion effect == _); [|eexists _, _; split_all; [done|apply Hbind|done|by eexists]].
  destruct effect as [p|t path expected content mode uid gid|t path expected|t u a s f|t m g]; rewrite st_bind_run.
  - unfold on_world. destruct (promotion_run permit p (eh_world h)) as (x' & out & -> & Ho).
    eexists _, _. split_all; [done|apply Hbind|done|exact Ho].
  - destruct (file_put_run policy permit path expected content mode uid gid h Hwf Hok) as (h' & out & -> & Ho).
    eexists _, _. split_all; [done|apply Hbind|exact Ho].
  - unfold on_files. destruct (file_delete_run policy permit path expected (eh_files h) Hwf Hok) as (fs' & out & -> & Ho).
    eexists _, _. split_all; [done|apply Hbind|done|exact Ho].
  - unfold on_world. destruct (systemd_unit_spec u a s f (eh_world h)) as (x' & out & -> & Ho).
    eexists _, _. split_all; [done|apply Hbind|done|exact Ho].
  - unfold on_world. destruct (systemd_manager_spec m g (eh_world h)) as (x' & out & -> & Ho).
    eexists _, _. split_all; [done|apply Hbind|done|exact Ho].
Qed.

(** [prepare_pointer] always returns, and reports success only for a
    promotion of the current contract whose artifact was loaded with exactly its
    digest, after the helper has shown the ratified executable and profile, on an
    answer to the request with those very bytes that repeats the request's digest,
    operation, artifact, pack, and current and candidate objects. *)
Theorem preparation_needs_exact_answer effect (x : X) :
  exists x' out, prepare_pointer effect x = (x', Ok out) /\
  forall result, out = CapSucceeded result -> exists p x1 b x2 request_digest,
    effect = EffManagedPointerPromotion p /\ pp_schema p = MANAGED_POINTER_PROMOTION_SCHEMA_V2 /\
    artifact_load (pp_artifact p) x = (x1, inr b) /\ hash_bytes b = pp_artifact p /\
    helper_identity x1 = (x2, CapSucceeded (mkHelperIdentity (pp_helper_executable p) (pp_helper_launch_profile p))) /\
    from_serializable (preparation_request p) = Ok request_digest /\
    helper_prepare (preparation_request p) b x2 = (x', CapSucceeded result) /\
    result = mkPreparationSuccess request_digest (pp_operation_id p) (pp_artifact p) (pp_candidate_pack_digest p)
      (pp_expected_object p) (pp_expected_tree p) (pp_new_object p) (pp_expected_post_tree p)
      (ps_preparation_checkpoint result) (ps_evidence result).
Proof.
  unfold prepare_pointer, returning, invoke. rewrite st_bind_run. unfold pure at 1.
  destruct effect as [p| | | |]; try (eexists _, _; split; [done|]; intros ? [=]).
  rewrite st_bind_run. unfold pure at 1, reject_if.
  destruct (pp_schema p != _) eqn:Hs; [by eexists _, _|]. apply negb_bool_decide_false in Hs.
  rewrite st_bind_run. unfold st_map_err, load_artifact. destruct (artifact_load (pp_artifact p) x) as [x1 [e|b]] eqn:Hl;
    cbn [map_err]; [by eexists _, _|].
  rewrite st_bind_run. unfold pure at 1. destruct (hash_bytes b != _) eqn:Hh; [by eexists _, _|].
  apply negb_bool_decide_false in Hh. rewrite st_bind_run. destruct (helper_identity x1) as [x2 o1] eqn:Hi.
  rewrite st_bind_run. unfold pure at 1. destruct o1 as [identity|e|e]; [|by eexists _, _..].
  destruct (_ && _) eqn:Hid; [|by eexists _, _]. rewrite andb_true_iff, !bool_decide_eq_true in Hid. destruct Hid as [Hex Hlp].
  rewrite st_bind_run. unfold pure at 1. pose proof (from_serializable_no_panic (preparation_request p)) as Hnp.
  destruct (from_serializable (preparation_request p)) as [rd|e|] eqn:Hr; cbn [map_err]; [|by eexists _, _|done].
  rewrite st_bind_run. destruct (helper_prepare (preparation_request p) b x2) as [x3 o2] eqn:Hp. unfold pure.
  eexists _, _. split; [done|]. intros result. destruct o2 as [r|e|e]; [|done..].
  destruct (preparation_exact p rd r) eqn:He; [|done]. intros [= ->]. exists p, x1, b, x2, rd. split_all; try done.
  - rewrite Hi. destruct identity. simpl in *. congruence.
  - unfold preparation_exact in He. rewrite !andb_true_iff, !bool_decide_eq_true in He. destruct result. simpl in *.
    repeat match goal with H : _ /\ _ |- _ => destruct H end. by subst.
Qed.

End Effects.
End Guarantees.

(** ** A concrete host *)

Module ToyExecutor.

#[export] Instance toy_errno : ErrnoText := fun _ => "error".
#[export] Instance toy_jcs_text : JcsErrorText := fun _ => "error".
Definition new_bytes : bytes := str_bytes "world!".
Definition old_bytes : bytes := str_bytes "hello".
#[export] Instance toy_artifacts : ArtifactSourceV1 unit := fun _ x => (x, inr new_bytes).
Definition refused {T} : Capability unit T := fun x => (x, CapFailed (mkCapabilityFailure "refused" "no" None)).
#[export] Instance toy_helper : PinnedPointerHelperV1 unit := {|
  helper_identity := refused;
  helper_prepare := fun _ _ => refused;
  compare_and_swap := fun _ => refused
|}.
#[export] Instance toy_systemd : SystemdDbusBackendV1 unit := {| unit_action := fun _ => refused; reload_manager := fun _ => refused |}.

Definition toy_dir (m : gmap string Z) : Node := mkNode 1 2 493 0 0 0 0 false (Directory m).
Definition toy_nodes : gmap Z Node :=
  <[1%Z := toy_dir {["etc" := 2%Z]}]> (<[2%Z := toy_dir {["conf" := 3%Z]}]>
  (<[3%Z := mkNode 1 1 420 0 0 0 0 false (Regular old_bytes)]> ∅)).
(** Interrupted and short calls among the first ones. *)
Definition toy_host : ExecHost unit :=
  mkHost tt (mkFS (mkDisk toy_nodes 1 4) 100 [NoFault; NoFault; NoFault; NoFault; NoFault; NoFault; Fails INTR; Short 2] 0 0 18).
Definition toy_permit : BurnedExecutionPermitV1 := from_durable_burn (hash_bytes []) (hash_bytes []) (hash_bytes []) 0.
Definition conf_target : TargetId := mkTargetId "conf".
Definition toy_put : CanonicalEffectV1 :=
  EffManagedFilePut conf_target "/etc/conf" (Some (hash_bytes old_bytes)) (hash_bytes new_bytes) 420 5 6.

Lemma toy_wf : disk_wf (fs_disk (eh_files toy_host)).
Proof.
  intros i. simpl. unfold toy_nodes. intros Hi. repeat (apply lookup_insert_is_Some' in Hi as [<-|Hi]; [lia|]).
  by apply is_Some_None in Hi.
Qed.
Lemma toy_permit_fits : permit_ok toy_permit.
Proof. split; [apply hash_bytes_canonical|simpl; lia]. Qed.

Definition toy_policy : ManagedFilePolicyV1 := ManagedFilePolicyV1_default.

(** The put of this host goes through, so the guarantee above is about a
    replaced file. *)
Example toy_put_succeeds :
  (match (execute_once toy_policy toy_permit toy_put toy_host).2 with
   | Ok r => match xr_outcome r with OutSucceeded _ => true | _ => false end
   | _ => false
   end) = true.
Proof. vm_compute. reflexivity. Qed.

End ToyExecutor.
Import ToyExecutor.

Lemma execute_once_outcomes_witness :
  exists h' receipt, execute_once toy_policy toy_permit toy_put toy_host = (h', Ok receipt) /\
  receipt_verify_bindings receipt (hash_bytes []) (hash_bytes []) (hash_bytes []) 0 toy_put = Ok tt /\
  effect_outcome toy_policy toy_permit toy_put toy_host (xr_outcome receipt) h'.
Proof. exact (execute_once_outcomes toy_policy toy_permit toy_put toy_host toy_wf toy_permit_fits). Defined.
