(* ===== verification/Config.v ===== *)
(** * Daemon configuration and startup validation (ag-app/src/config.rs, peer.rs)

    The root-owned configuration of the four programs and the checks that must
    pass before a socket is opened, with the principal chain that peer.rs builds
    from a verified peer and its configured policy.  TOML decoding is a
    parameter; a path is its text, compared as [std::path] compares paths. *)

From S2P Require Import Prelude Wire Fixture Digest Names Origin Capability Identity Protocol Paths Effect HostFiles RpcAuth.

(** ** The part of [std::path] used here *)

(** [PathBuf::push] of one component; an absolute one replaces the path. *)
Definition path_push (path : string) (c : Component) : string :=
  let joined name :=
    if path == EmptyString then name else if ends_with path "/" then path +:+ name else path +:+ "/" +:+ name in
  match c with
  | RootDir => "/"
  | CurDir => joined "."
  | ParentDir => joined ".."
  | Normal s => joined s
  end.
(** [path.components().collect::<PathBuf>()]. *)
Definition collect_components (l : list Component) : string := fold_left path_push l EmptyString.

(** A segment that yields no component after the start of a path. *)
Definition trivial_segment (s : string) : bool := (s == EmptyString) || (s == ".").
Fixpoint trim_left (l : list string) : list string :=
  match l with [] => [] | s :: l' => if trivial_segment s then trim_left l' else l end.
Definition trim_right (l : list string) : list string := rev (trim_left (rev l)).
Fixpoint skip_components (n : nat) (l : list string) : list string :=
  match n, l with
  | O, _ | _, [] => l
  | S n', s :: l' => if trivial_segment s then skip_components n l' else skip_components n' l'
  end.
(** [Path::strip_prefix], as the text of the path it returns. *)
Definition path_strip_prefix (path base : string) : option string :=
  if negb (path_starts_with path base) then None
  else Some match components base, split_slash path with
  | [], first :: rest =>
      if is_absolute path then "/" +:+ join_slash (trim_right rest)
      else if first == "." then join_slash (first :: trim_right rest)
      else join_slash (trim_right (first :: rest))
  | (RootDir | CurDir) :: body, _ :: rest => join_slash (trim_left (trim_right (skip_components (length body) rest)))
  | body, segments => join_slash (trim_left (trim_right (skip_components (length body) segments)))
  end.

(** [Path::new(component).extension()] of a text without a slash. *)
Fixpoint last_dot (before : string) (s : string) : option (string * string) :=
  match s with
  | EmptyString => None
  | String c s' =>
      match last_dot (before +:+ String c EmptyString) s' with
      | Some split => Some split
      | None => if Ascii.eqb c "." then Some (before, s') else None
      end
  end.
Definition extension (file_name : string) : option string :=
  if trivial_segment file_name || (file_name == "..") then None
  else match last_dot EmptyString file_name with
  | Some (before, after) => if before == EmptyString then None else Some after
  | None => None
  end.
Definition ascii_lower (c : ascii) : ascii := if is_ascii_uppercase c then ascii_of_N (N_of_ascii c + 32) else c.
Definition eq_ignore_ascii_case (a b : string) : bool :=
  map ascii_lower (String.list_ascii_of_string a) == map ascii_lower (String.list_ascii_of_string b).

(** ** Data *)

Definition MAX_CONFIG_BYTES : Z := 1048576.
Definition PROVIDER_RPC_STRUCTURAL_RESERVE_BYTES : Z := 131072.
Definition WORKER_RPC_STRUCTURAL_RESERVE_BYTES : Z := 131072.
Definition PROVIDER_RPC_COMPLETION_MARGIN_MS : Z := 5000.
Definition PROVIDER_MIN_EVENT_STREAM_BYTES : Z := 4096.
Definition MAX_PROMOTION_TTL_MS : Z := 86400000.
Definition MANAGED_FILE_CANDIDATE_SEMANTIC_V1 : string := "managed_file_content_v1".
Definition MANAGED_POINTER_CANDIDATE_SEMANTIC_V1 : string := "git_bundle_promotion_v1".
(** signed_transport.rs. *)
Definition SIGNED_RPC_RESPONSE_TIMEOUT_MS : Z := 30000.

Record FilesystemNodeCustodyV1 : Type := mkNodeCustody { nc_uid : Z; nc_gid : Z; nc_mode : Z }.
Record StoreCustodyConfigV1 : Type := mkStoreCustody {
  sc_database_parent : FilesystemNodeCustodyV1;
  sc_object_store : FilesystemNodeCustodyV1;
  sc_database : FilesystemNodeCustodyV1;
  sc_writer_lock : FilesystemNodeCustodyV1
}.
Record StoreConfigV1 : Type := mkStoreConfig {
  sf_database : string;
  sf_object_store : string;
  sf_store_custody : StoreCustodyConfigV1
}.
Record SocketCustodyConfigV1 : Type := mkSocketCustody { so_parent : FilesystemNodeCustodyV1; so_node : FilesystemNodeCustodyV1 }.
Record PeerPolicyV1 : Type := mkPeerPolicy {
  py_role : string;
  py_uid : Z;
  py_gid : Z;
  py_executable_identity : option Digest;
  py_cgroup_contains : option string;
  py_stable_principal_root : Digest;
  py_principal_kind : PrincipalKindV1;
  py_rpc_key : RpcPeerKeyPolicyV1
}.
Inductive AgctlSocketPeerCheckV1 : Type := ObserveOnly | RequireUidGid (uid gid : Z).
Record AgctlDaemonPeerV1 : Type := mkDaemonPeer { ap_rpc_key : RpcPeerKeyPolicyV1; ap_socket_peer : AgctlSocketPeerCheckV1 }.
Record AgctlLimitsV1 : Type := mkAgctlLimits { al_max_control_frame_bytes : Z; al_rpc_replay_capacity : Z }.
Inductive AgctlCommandProfileV1 : Type :=
  | Proposer (agd_socket : string) (agd_peer : AgctlDaemonPeerV1) (max_intent_file_bytes : Z)
  | EffectAdmin (effectd_admin_socket : string) (effectd_peer : AgctlDaemonPeerV1).
Record AgctlConfigV1 : Type := mkAgctl {
  ac_schema : string;
  ac_security_profile : string;
  ac_rpc_signing_identity : RpcSigningIdentityConfigV1;
  ac_command_profile : AgctlCommandProfileV1;
  ac_limits : AgctlLimitsV1
}.
Record AgdLimitsV1 : Type := mkAgdLimits {
  gl_max_control_frame_bytes : Z;
  gl_max_rpc_replay_entries : Z;
  gl_max_artifact_bytes : Z;
  gl_max_active_sessions : Z;
  gl_max_session_seconds : Z
}.
Inductive WorkerCandidateEffectV1 : Type := CandidateFilePut | CandidatePointerPromotion.
(** [WorkerCandidateEffectV1::semantic_type]. *)
Definition semantic_type (e : WorkerCandidateEffectV1) : string :=
  match e with
  | CandidateFilePut => MANAGED_FILE_CANDIDATE_SEMANTIC_V1
  | CandidatePointerPromotion => MANAGED_POINTER_CANDIDATE_SEMANTIC_V1
  end.
Record WorkerProfileConfigV1 : Type := mkWorkerProfile {
  wp_profile_id : string;
  wp_project : string;
  wp_program : string;
  wp_executable_identity : ExecutableIdentityV1;
  wp_fixed_arguments : list string;
  wp_candidate_effect : WorkerCandidateEffectV1;
  wp_candidate_target : string;
  wp_candidate_semantic_type : string;
  wp_timeout_ms : Z;
  wp_output_budget : Z
}.
Record WorkerLauncherConfigV1 : Type := mkLauncher {
  wl_governor_principal_root : Digest;
  wl_governor_challenge_maximum_clock_skew_ms : Z;
  wl_workspace_root : string;
  wl_workspace_root_custody : FilesystemNodeCustodyV1;
  wl_sandbox_executable : string;
  wl_sandbox_identity : ExecutableIdentityV1;
  wl_runtime_roots : list string;
  wl_profiles : list WorkerProfileConfigV1
}.
Record AgdConfigV1 : Type := mkAgd {
  gc_schema : string;
  gc_security_profile : string;
  gc_authority_domain : string;
  gc_epoch : string;
  gc_store : StoreConfigV1;
  gc_control_socket : string;
  gc_control_socket_custody : SocketCustodyConfigV1;
  gc_effectd_proposal_socket : string;
  gc_providerd_socket : string;
  gc_rpc_signing_identity : RpcSigningIdentityConfigV1;
  gc_proposer_peer : PeerPolicyV1;
  gc_effectd_peer : PeerPolicyV1;
  gc_worker_launcher : option WorkerLauncherConfigV1;
  gc_limits : AgdLimitsV1
}.
Record EffectdLimitsV1 : Type := mkEffectdLimits {
  el_max_control_frame_bytes : Z;
  el_max_rpc_replay_entries : Z;
  el_max_plan_steps : Z;
  el_max_ready_proposals : Z;
  el_max_artifact_bytes : Z
}.
(** The fields of [EffectTargetConfigV1::ManagedPointer]. *)
Record PointerTargetConfig : Type := mkPointerTarget {
  pt_id : string;
  pt_allowed_root : string;
  pt_repository : string;
  pt_reference : string;
  pt_activation_genesis_object : string;
  pt_activation_genesis_tree : string;
  pt_activation_genesis_state : Digest;
  pt_repository_identity : Digest;
  pt_uid : Z;
  pt_gid : Z;
  pt_staging_root : string;
  pt_promotion_ttl_ms : Z;
  pt_helper : string;
  pt_helper_executable : Digest;
  pt_helper_launch_profile : Digest
}.
Inductive EffectTargetConfigV1 : Type :=
  | CfgManagedPointer (t : PointerTargetConfig)
  | CfgManagedFile (id path : string) (mode uid gid : Z)
  | CfgSystemdUnit (id unit : string) (allowed_actions : list SystemdUnitActionV1)
  | CfgSystemdManager (id : string).
Record EffectdConfigV1 : Type := mkEffectd {
  ec_schema : string;
  ec_security_profile : string;
  ec_authority_domain : string;
  ec_epoch : string;
  ec_store : StoreConfigV1;
  ec_proposal_socket : string;
  ec_proposal_socket_custody : SocketCustodyConfigV1;
  ec_admin_socket : string;
  ec_admin_socket_custody : SocketCustodyConfigV1;
  ec_rpc_signing_identity : RpcSigningIdentityConfigV1;
  ec_agd_peer : PeerPolicyV1;
  ec_proposer_peer : PeerPolicyV1;
  ec_admin_peer : PeerPolicyV1;
  ec_limits : EffectdLimitsV1;
  ec_targets : list EffectTargetConfigV1
}.
Record ProviderLimitsV1 : Type := mkProviderLimits {
  vl_max_control_frame_bytes : Z;
  vl_max_rpc_replay_entries : Z;
  vl_max_concurrent_requests : Z;
  vl_provider_deadline_ms : Z;
  vl_max_request_bytes : Z;
  vl_max_response_bytes : Z
}.
Record ProviderModelPolicyConfigV1 : Type := mkModelPolicy {
  mp_id : string;
  mp_max_event_stream_bytes : Z;
  mp_worst_case_cost_microunits : Z
}.
Record ProviderEndpointConfigV1 : Type := mkEndpoint {
  ep_id : string;
  ep_url : string;
  ep_credential_name : string;
  ep_credential_header : string;
  ep_credential_prefix : string;
  ep_models : list ProviderModelPolicyConfigV1;
  ep_protocol : string;
  ep_methods : list string
}.
Record ProviderdConfigV1 : Type := mkProviderd {
  vc_schema : string;
  vc_security_profile : string;
  vc_authority_domain : string;
  vc_epoch : string;
  vc_store : StoreConfigV1;
  vc_socket : string;
  vc_socket_custody : SocketCustodyConfigV1;
  vc_rpc_signing_identity : RpcSigningIdentityConfigV1;
  vc_caller_peer : PeerPolicyV1;
  vc_limits : ProviderLimitsV1;
  vc_endpoints : list ProviderEndpointConfigV1
}.

Inductive ConfigError : Type :=
  | ConfigRead (path : string) (source : IoError)
  | ConfigDecode (path message : string)
  | UnsafeOwnership (path : string)
  | UnsafeConfigFile (path : string)
  | ConfigTooLarge (path : string)
  | UnsafePath (path : string)
  | WeakPeerPolicy (role : string)
  | InvalidSigningIdentity
  | ConfigSchema (schema : string)
  | InvalidLimit (what : string)
  | InvalidCustody (what : string)
  | UnsupportedProfile (profile : string)
  | RpcPrincipalCollision
  | RpcKeyCollision
  | RpcRootCollision
  | UnexpectedPrincipalKind (role : string)
  | InvalidAuthorityContext
  | UnsupportedTargetBackend (backend : string).

(** [PeerPolicyV1::rpc_enrollment]. *)
Definition rpc_enrollment (p : PeerPolicyV1) : res RpcAuthError RpcPeerEnrollmentV1 :=
  RpcPeerEnrollmentV1_new (kp_principal (py_rpc_key p)) (py_rpc_key p).

(** ** Loading *)

(** [toml::from_str], and the text of a UTF-8 error. *)
Class ConfigDecoder (T : Type) := {
  toml_from_str : bytes -> string + T;
  utf8_error_text : bytes -> string
}.
Record LoadedConfigV1 (T : Type) : Type := mkLoadedConfig { lc_config : T; lc_exact_bytes_digest : Digest }.
Arguments mkLoadedConfig {T} _ _.
Arguments lc_config {T} _.
Arguments lc_exact_bytes_digest {T} _.

Section Load.
  Context `{Deps, ConfigDecoder T}.

(** [load_config_with_identity]; [opened] is what the open with [O_NOFOLLOW] answered. *)
Definition load_config_with_identity (path : string) (require_root_custody : bool) (opened : res IoError Z)
    : ST FileSystem ConfigError (LoadedConfigV1 T) :=
  let! file := pure (map_err (ConfigRead path) opened) in
  let! metadata := st_map_err (fun e => ConfigRead path (Os e)) (fstat file) in
  pure (reject_if (negb (is_file (st_mode metadata)) || negb (st_nlink metadata =? 1)%Z) (UnsafeConfigFile path)) ;!
  pure (reject_if (require_root_custody && (negb (st_uid metadata =? 0)%Z || negb (Z.land (st_mode metadata) 18 =? 0)%Z))
          (UnsafeOwnership path)) ;!
  pure (reject_if (MAX_CONFIG_BYTES <? st_size metadata)%Z (ConfigTooLarge path)) ;!
  let! b := st_map_err (ConfigRead path) (read_to_end file (MAX_CONFIG_BYTES + 1)) in
  pure (reject_if (MAX_CONFIG_BYTES <? Z.of_nat (length b))%Z (ConfigTooLarge path)) ;!
  pure (reject_if (negb (utf8_valid b)) (ConfigDecode path (utf8_error_text b))) ;!
  match toml_from_str b with
  | inl message => pure (Err (ConfigDecode path message))
  | inr config => pure (Ok (mkLoadedConfig config (hash_bytes b)))
  end.
(** [load_config]. *)
Definition load_config (path : string) (require_root_custody : bool) (opened : res IoError Z) : ST FileSystem ConfigError T :=
  let! loaded := load_config_with_identity path require_root_custody opened in
  pure (Ok (lc_config loaded)).

End Load.

(** ** Checks *)

(** One turn of [validate_absolute]. *)
Definition unsafe_path (path : string) : bool :=
  negb (is_absolute path)
  || negb (path_eq (collect_components (components path)) path)
  || existsb (fun c => match c with CurDir | ParentDir => true | _ => false end) (components path).
Fixpoint validate_absolute (paths : list string) : res ConfigError unit :=
  match paths with
  | [] => Ok tt
  | path :: rest => reject_if (unsafe_path path) (UnsafePath path) ;? validate_absolute rest
  end.

(** [mode & !mask != 0] and [mode & mask != 0]. *)
Definition outside_bits (mode mask : Z) : bool := negb (Z.ldiff mode mask =? 0)%Z.
Definition some_bits (mode mask : Z) : bool := negb (Z.land mode mask =? 0)%Z.
Definition lacks_bits (mode mask : Z) : bool := negb (Z.land mode mask =? mask)%Z.

Definition validate_directory_custody (policy : FilesystemNodeCustodyV1) (field : string) (require_setgid : bool)
    : res ConfigError unit :=
  let mode := nc_mode policy in
  reject_if (outside_bits mode 1535 || lacks_bits mode 448 || some_bits mode 18
             || negb (Bool.eqb (some_bits mode 1024) require_setgid)) (InvalidCustody field).
Definition validate_regular_file_custody (policy : FilesystemNodeCustodyV1) (field : string) : res ConfigError unit :=
  reject_if (outside_bits (nc_mode policy) 511 || lacks_bits (nc_mode policy) 384 || some_bits (nc_mode policy) 18)
    (InvalidCustody field).
Definition validate_store_custody (policy : StoreCustodyConfigV1) : res ConfigError unit :=
  validate_directory_custody (sc_database_parent policy) "store database parent" false ;?
  validate_directory_custody (sc_object_store policy) "store object root" false ;?
  validate_regular_file_custody (sc_database policy) "store database" ;?
  validate_regular_file_custody (sc_writer_lock policy) "store writer lock" ;?
  Ok tt.
Definition validate_socket_custody (policy : SocketCustodyConfigV1) : res ConfigError unit :=
  validate_directory_custody (so_parent policy) "socket parent" true ;?
  reject_if (outside_bits (nc_mode (so_node policy)) 511 || lacks_bits (nc_mode (so_node policy)) 384
             || some_bits (nc_mode (so_node policy)) 2 || negb (nc_gid (so_node policy) =? nc_gid (so_parent policy))%Z)
    (InvalidCustody "socket node").

Definition validate_peer (peer : PeerPolicyV1) : res ConfigError unit :=
  reject_if ((py_role peer == EmptyString) || negb (is_ok (policy_validate (py_rpc_key peer)))) (WeakPeerPolicy (py_role peer)).
Definition validate_signer (signer : RpcSigningIdentityConfigV1) : res ConfigError unit :=
  map_err (fun _ => InvalidSigningIdentity) (signing_config_validate signer).
Definition validate_security_profile (profile : string) : res ConfigError unit :=
  if (profile == "development") || (profile == "production") || (profile == "high_assurance") then Ok tt
  else Err (UnsupportedProfile profile).
Definition validate_authority_context (domain epoch : string) : res ConfigError unit :=
  map_err (fun _ => InvalidAuthorityContext)
    (let? _ := identifier_new AuthorityDomainId_k domain in let? _ := EpochId_parse epoch in Ok tt).
Definition validate_peer_kind (peer : PeerPolicyV1) (admitted : list PrincipalKindV1) : res ConfigError unit :=
  if bool_decide (py_principal_kind peer ∈ admitted) then Ok tt else Err (UnexpectedPrincipalKind (py_role peer)).

(** The inner loop of [validate_separate_roles], over the peers already seen. *)
Fixpoint separate_from (peer : PeerPolicyV1) (others : list PeerPolicyV1) : res ConfigError unit :=
  match others with
  | [] => Ok tt
  | other :: rest =>
      reject_if (kp_public_key (py_rpc_key peer) == kp_public_key (py_rpc_key other)) RpcKeyCollision ;?
      reject_if (kp_principal (py_rpc_key peer) == kp_principal (py_rpc_key other)) RpcPrincipalCollision ;?
      reject_if (py_stable_principal_root peer == py_stable_principal_root other) RpcRootCollision ;?
      separate_from peer rest
  end.
Fixpoint separate_roles (signer : RpcSigningIdentityConfigV1) (seen peers : list PeerPolicyV1) : res ConfigError unit :=
  match peers with
  | [] => Ok tt
  | peer :: rest =>
      reject_if ((si_principal signer == kp_principal (py_rpc_key peer))
                 || (si_public_key signer == kp_public_key (py_rpc_key peer))
                 || (si_principal signer == py_stable_principal_root peer))
        (if si_public_key signer == kp_public_key (py_rpc_key peer) then RpcKeyCollision else RpcPrincipalCollision) ;?
      separate_from peer seen ;?
      separate_roles signer (seen ++ [peer]) rest
  end.
Definition validate_separate_roles (signer : RpcSigningIdentityConfigV1) (peers : list PeerPolicyV1) : res ConfigError unit :=
  separate_roles signer [] peers.

Definition validate_agctl_daemon_peer (name : string) (peer : AgctlDaemonPeerV1) : res ConfigError unit :=
  map_err (fun _ => WeakPeerPolicy name) (policy_validate (ap_rpc_key peer)).
Definition validate_agctl_separate_caller (signer : RpcSigningIdentityConfigV1) (peer : AgctlDaemonPeerV1) : res ConfigError unit :=
  reject_if (si_principal signer == kp_principal (ap_rpc_key peer)) RpcPrincipalCollision ;?
  reject_if (si_public_key signer == kp_public_key (ap_rpc_key peer)) RpcKeyCollision.

Definition policy_token_char (c : ascii) : bool := is_ascii_alphanumeric c || one_of "._-" c.
Definition valid_policy_token (value : string) : bool :=
  (value != EmptyString) && (String.length value <=? 128) && str_all policy_token_char value.
(** One component of a managed reference. *)
Definition valid_ref_component (c : string) : bool :=
  (c != EmptyString) && negb (starts_with c ".") && negb (ends_with c ".")
  && negb (match extension c with Some e => eq_ignore_ascii_case e "lock" | None => false end)
  && str_all (fun c => is_ascii_alphanumeric c || one_of "-_." c) c.
Definition valid_managed_git_ref (reference : string) : bool :=
  if negb (starts_with reference "refs/heads/") then false
  else
    let relative := str_drop 11 reference in
    (relative != EmptyString) && (String.length reference <=? 256)
    && negb (contains relative "..") && negb (contains relative "@{")
    && forallb valid_ref_component (split_slash relative).
Definition valid_git_object_name (value : string) : bool :=
  ((String.length value == 40) || (String.length value == 64)) && str_all is_object_char value.

(** [validate_managed_pointer_enrollment_inputs]. *)
Definition validate_managed_pointer_enrollment_inputs (id allowed_root repository reference : string) (uid gid : Z)
    (staging_root : string) (promotion_ttl_ms : Z) (helper : string) : res ConfigError unit :=
  validate_absolute [allowed_root; repository; staging_root; helper] ;?
  let? repository_relative := ok_or (UnsafePath repository) (path_strip_prefix repository allowed_root) in
  reject_if (negb (is_ok (TargetId_parse id))
             || path_eq allowed_root "/"
             || (repository_relative == EmptyString)
             || path_eq staging_root "/"
             || path_starts_with staging_root allowed_root
             || path_starts_with repository staging_root
             || path_starts_with helper allowed_root
             || path_starts_with helper staging_root
             || negb (valid_managed_git_ref reference)
             || (uid =? 0)%Z || (gid =? 0)%Z || (uid =? U32_MAX)%Z || (gid =? U32_MAX)%Z
             || (promotion_ttl_ms =? 0)%Z || (MAX_PROMOTION_TTL_MS <? promotion_ttl_ms)%Z)
    (InvalidLimit "managed-pointer target") ;?
  Ok tt.
Definition validate_managed_pointer_target (t : PointerTargetConfig) : res ConfigError unit :=
  validate_managed_pointer_enrollment_inputs (pt_id t) (pt_allowed_root t) (pt_repository t) (pt_reference t)
    (pt_uid t) (pt_gid t) (pt_staging_root t) (pt_promotion_ttl_ms t) (pt_helper t) ;?
  reject_if (negb (valid_git_object_name (pt_activation_genesis_object t))
             || negb (valid_git_object_name (pt_activation_genesis_tree t))
             || negb (String.length (pt_activation_genesis_object t) =? String.length (pt_activation_genesis_tree t)))
    (InvalidLimit "managed-pointer target") ;?
  Ok tt.

Definition valid_credential_name (name : string) : bool :=
  (name != EmptyString) && (String.length name <=? 128) && negb ((name == ".") || (name == ".."))
  && str_all policy_token_char name.
Definition valid_unit (unit : string) : bool :=
  (unit != EmptyString) && (String.length unit <=? 256)
  && str_all (fun c => is_ascii_alphanumeric c || one_of "._@-\" c) unit.
(** [canonical_base64_encoded_length]: [checked_div] by three cannot fail. *)
Definition canonical_base64_encoded_length (decoded : Z) : option Z :=
  padded ← checked_add_u64 decoded 2; checked_mul_u64 (padded / 3) 4.
(** [option.is_none_or(|bound| bound > limit)]. *)
Definition exceeds (bound : option Z) (limit : Z) : bool := match bound with None => true | Some b => (limit <? b)%Z end.

(** The loops of [validate_worker_launcher]. *)
Fixpoint validate_runtime_roots (seen roots : list string) : res ConfigError unit :=
  match roots with
  | [] => Ok tt
  | root :: rest =>
      validate_absolute [root] ;?
      reject_if (negb (path_eq root "/usr") || existsb (path_eq root) seen) (UnsafePath root) ;?
      validate_runtime_roots (root :: seen) rest
  end.
Definition bad_argument (argument : string) : bool :=
  (argument == EmptyString) || (4096 <? String.length argument) || negb (str_all (fun c => negb (is_nul c)) argument).
Definition refused_profile (launcher : WorkerLauncherConfigV1) (limits : AgdLimitsV1) (seen : list string)
    (profile : WorkerProfileConfigV1) : bool :=
  negb (valid_policy_token (wp_profile_id profile))
  || bool_decide (wp_profile_id profile ∈ seen)
  || negb (is_ok (strict_name_new ProjectId_k (wp_project profile)))
  || negb (is_ok (TargetId_parse (wp_candidate_target profile)))
  || negb (valid_policy_token (wp_candidate_semantic_type profile))
  || (wp_candidate_semantic_type profile != semantic_type (wp_candidate_effect profile))
  || (ei_size (wp_executable_identity profile) =? 0)%Z
  || (64 <? length (wp_fixed_arguments profile))
  || existsb bad_argument (wp_fixed_arguments profile)
  || (wp_timeout_ms profile =? 0)%Z
  || (Z.min (gl_max_session_seconds limits * 1000) U64_MAX <? wp_timeout_ms profile)%Z
  || (wl_governor_challenge_maximum_clock_skew_ms launcher <? wp_timeout_ms profile)%Z
  || (wp_output_budget profile =? 0)%Z
  || (gl_max_artifact_bytes limits <? wp_output_budget profile)%Z
  || exceeds (encoded ← checked_mul_u64 ((wp_output_budget profile + 2) / 3) 4;
              checked_add_u64 encoded WORKER_RPC_STRUCTURAL_RESERVE_BYTES) (gl_max_control_frame_bytes limits).
Fixpoint validate_profiles (launcher : WorkerLauncherConfigV1) (limits : AgdLimitsV1) (seen : list string)
    (profiles : list WorkerProfileConfigV1) : res ConfigError unit :=
  match profiles with
  | [] => Ok tt
  | profile :: rest =>
      validate_absolute [wp_program profile] ;?
      reject_if (refused_profile launcher limits seen profile) (InvalidLimit "worker profile") ;?
      validate_profiles launcher limits (wp_profile_id profile :: seen) rest
  end.
Definition validate_worker_launcher (launcher : WorkerLauncherConfigV1) (limits : AgdLimitsV1) : res ConfigError unit :=
  validate_absolute [wl_workspace_root launcher; wl_sandbox_executable launcher] ;?
  validate_directory_custody (wl_workspace_root_custody launcher) "worker workspace root" false ;?
  reject_if ((ei_size (wl_sandbox_identity launcher) =? 0)%Z
             || (wl_governor_challenge_maximum_clock_skew_ms launcher =? 0)%Z
             || (300000 <? wl_governor_challenge_maximum_clock_skew_ms launcher)%Z
             || negb (gl_max_active_sessions limits =? 1)%Z
             || negb (match wl_runtime_roots launcher with [root] => path_eq root "/usr" | _ => false end)
             || (length (wl_profiles launcher) =? 0) || (1024 <? length (wl_profiles launcher)))
    (InvalidLimit "worker launcher") ;?
  validate_runtime_roots [] (wl_runtime_roots launcher) ;?
  validate_profiles launcher limits [] (wl_profiles launcher) ;?
  Ok tt.

(** [AgctlConfigV1::validate]. *)
Definition agctl_validate (c : AgctlConfigV1) : res ConfigError unit :=
  reject_if (ac_schema c != "ag.config.agctl.v1") (ConfigSchema (ac_schema c)) ;?
  validate_security_profile (ac_security_profile c) ;?
  validate_signer (ac_rpc_signing_identity c) ;?
  let? max_intent_file_bytes :=
    match ac_command_profile c with
    | Proposer agd_socket agd_peer max_intent_file_bytes =>
        validate_absolute [agd_socket] ;?
        validate_agctl_daemon_peer "agd" agd_peer ;?
        validate_agctl_separate_caller (ac_rpc_signing_identity c) agd_peer ;?
        Ok (Some max_intent_file_bytes)
    | EffectAdmin effectd_admin_socket effectd_peer =>
        validate_absolute [effectd_admin_socket] ;?
        validate_agctl_daemon_peer "ag-effectd" effectd_peer ;?
        validate_agctl_separate_caller (ac_rpc_signing_identity c) effectd_peer ;?
        Ok None
    end in
  reject_if ((al_max_control_frame_bytes (ac_limits c) <? 4096)%Z
             || (al_rpc_replay_capacity (ac_limits c) <? 2)%Z
             || (1000000 <? al_rpc_replay_capacity (ac_limits c))%Z
             || match max_intent_file_bytes with
                | Some maximum => (maximum =? 0)%Z
                    || exceeds (checked_add_u64 maximum 65536) (al_max_control_frame_bytes (ac_limits c))
                | None => false
                end) (InvalidLimit "agctl limits") ;?
  Ok tt.

(** [AgdConfigV1::validate]. *)
Definition agd_validate (c : AgdConfigV1) : res ConfigError unit :=
  reject_if (gc_schema c != "ag.config.agd.v1") (ConfigSchema (gc_schema c)) ;?
  validate_security_profile (gc_security_profile c) ;?
  validate_authority_context (gc_authority_domain c) (gc_epoch c) ;?
  validate_absolute [sf_database (gc_store c); sf_object_store (gc_store c); gc_control_socket c;
                     gc_effectd_proposal_socket c; gc_providerd_socket c] ;?
  validate_store_custody (sf_store_custody (gc_store c)) ;?
  validate_socket_custody (gc_control_socket_custody c) ;?
  validate_signer (gc_rpc_signing_identity c) ;?
  validate_peer (gc_proposer_peer c) ;?
  validate_peer (gc_effectd_peer c) ;?
  validate_peer_kind (gc_proposer_peer c) [KOperator; KService] ;?
  validate_peer_kind (gc_effectd_peer c) [KDaemon] ;?
  validate_separate_roles (gc_rpc_signing_identity c) [gc_proposer_peer c; gc_effectd_peer c] ;?
  reject_if ((gl_max_control_frame_bytes (gc_limits c) =? 0)%Z || (gl_max_rpc_replay_entries (gc_limits c) =? 0)%Z
             || (gl_max_active_sessions (gc_limits c) =? 0)%Z || (gl_max_session_seconds (gc_limits c) =? 0)%Z)
    (InvalidLimit "agd limits") ;?
  match gc_worker_launcher c with
  | Some launcher =>
      reject_if (gc_security_profile c != "development")
        (InvalidLimit "worker launcher is development-only until production isolation is attested") ;?
      validate_worker_launcher launcher (gc_limits c) ;?
      Ok tt
  | None => Ok tt
  end.

(** The target loop of [EffectdConfigV1::validate]. *)
Definition validate_target (t : EffectTargetConfigV1) : res ConfigError unit :=
  match t with
  | CfgManagedPointer p => validate_managed_pointer_target p
  | CfgManagedFile _ path mode _ _ =>
      validate_absolute [path] ;?
      reject_if (outside_bits mode 511) (InvalidLimit "managed-file modes cannot include special bits")
  | CfgSystemdUnit _ unit _ =>
      reject_if (negb (valid_unit unit)) (UnsafePath unit) ;?
      Err (UnsupportedTargetBackend "systemd_unit")
  | CfgSystemdManager _ => Err (UnsupportedTargetBackend "systemd_manager")
  end.
Fixpoint validate_targets (l : list EffectTargetConfigV1) : res ConfigError unit :=
  match l with
  | [] => Ok tt
  | t :: l' => validate_target t ;? validate_targets l'
  end.
(** [EffectdConfigV1::validate]. *)
Definition effectd_validate (c : EffectdConfigV1) : res ConfigError unit :=
  reject_if (ec_schema c != "ag.config.effectd.v2") (ConfigSchema (ec_schema c)) ;?
  validate_security_profile (ec_security_profile c) ;?
  validate_authority_context (ec_authority_domain c) (ec_epoch c) ;?
  validate_absolute [sf_database (ec_store c); sf_object_store (ec_store c); ec_proposal_socket c; ec_admin_socket c] ;?
  validate_store_custody (sf_store_custody (ec_store c)) ;?
  validate_socket_custody (ec_proposal_socket_custody c) ;?
  validate_socket_custody (ec_admin_socket_custody c) ;?
  validate_signer (ec_rpc_signing_identity c) ;?
  validate_peer (ec_agd_peer c) ;?
  validate_peer (ec_proposer_peer c) ;?
  validate_peer (ec_admin_peer c) ;?
  validate_peer_kind (ec_agd_peer c) [KDaemon] ;?
  validate_peer_kind (ec_proposer_peer c) [KOperator; KService] ;?
  validate_peer_kind (ec_admin_peer c) [KOperator; KService] ;?
  validate_separate_roles (ec_rpc_signing_identity c) [ec_agd_peer c; ec_proposer_peer c; ec_admin_peer c] ;?
  reject_if ((el_max_control_frame_bytes (ec_limits c) =? 0)%Z || (el_max_rpc_replay_entries (ec_limits c) =? 0)%Z
             || negb (el_max_plan_steps (ec_limits c) =? 1)%Z || (el_max_ready_proposals (ec_limits c) =? 0)%Z
             || (el_max_artifact_bytes (ec_limits c) =? 0)%Z) (InvalidLimit "effectd limits") ;?
  validate_targets (ec_targets c).

(** The endpoint and model loops of [ProviderdConfigV1::validate]. *)
Fixpoint validate_models (max_response_bytes : Z) (seen : list string) (l : list ProviderModelPolicyConfigV1)
    : res ConfigError unit :=
  match l with
  | [] => Ok tt
  | model :: l' =>
      reject_if ((mp_id model == EmptyString) || bool_decide (mp_id model ∈ seen)
                 || (mp_max_event_stream_bytes model <? PROVIDER_MIN_EVENT_STREAM_BYTES)%Z
                 || (max_response_bytes <? mp_max_event_stream_bytes model)%Z
                 || (mp_worst_case_cost_microunits model =? 0)%Z) (InvalidLimit "provider model policy") ;?
      validate_models max_response_bytes (mp_id model :: seen) l'
  end.
Fixpoint validate_endpoints (max_response_bytes : Z) (seen : list string) (l : list ProviderEndpointConfigV1)
    : res ConfigError unit :=
  match l with
  | [] => Ok tt
  | endpoint :: l' =>
      reject_if ((ep_id endpoint == EmptyString) || negb (starts_with (ep_url endpoint) "https://")
                 || negb (valid_credential_name (ep_credential_name endpoint))
                 || (length (ep_models endpoint) =? 0) || (length (ep_methods endpoint) =? 0)
                 || negb ((ep_credential_header endpoint == "authorization") || (ep_credential_header endpoint == "x-api-key")))
        (InvalidLimit "provider endpoint") ;?
      reject_if (bool_decide (ep_id endpoint ∈ seen)) (InvalidLimit "duplicate provider endpoint") ;?
      validate_models max_response_bytes [] (ep_models endpoint) ;?
      validate_endpoints max_response_bytes (ep_id endpoint :: seen) l'
  end.
Definition wire_bound (content : Z) : option Z :=
  encoded ← canonical_base64_encoded_length content; checked_add_u64 encoded PROVIDER_RPC_STRUCTURAL_RESERVE_BYTES.
(** [ProviderdConfigV1::validate]. *)
Definition providerd_validate (c : ProviderdConfigV1) : res ConfigError unit :=
  let limits := vc_limits c in
  reject_if (vc_schema c != "ag.config.providerd.v1") (ConfigSchema (vc_schema c)) ;?
  validate_security_profile (vc_security_profile c) ;?
  validate_authority_context (vc_authority_domain c) (vc_epoch c) ;?
  validate_absolute [sf_database (vc_store c); sf_object_store (vc_store c); vc_socket c] ;?
  validate_store_custody (sf_store_custody (vc_store c)) ;?
  validate_socket_custody (vc_socket_custody c) ;?
  validate_signer (vc_rpc_signing_identity c) ;?
  validate_peer (vc_caller_peer c) ;?
  validate_peer_kind (vc_caller_peer c) [KDaemon] ;?
  validate_separate_roles (vc_rpc_signing_identity c) [vc_caller_peer c] ;?
  reject_if ((vl_max_control_frame_bytes limits =? 0)%Z || (vl_max_rpc_replay_entries limits =? 0)%Z
             || (vl_max_concurrent_requests limits =? 0)%Z || (vl_provider_deadline_ms limits =? 0)%Z
             || (vl_max_request_bytes limits =? 0)%Z || (vl_max_response_bytes limits =? 0)%Z)
    (InvalidLimit "providerd limits") ;?
  reject_if (exceeds (checked_add_u64 (vl_provider_deadline_ms limits) PROVIDER_RPC_COMPLETION_MARGIN_MS)
               SIGNED_RPC_RESPONSE_TIMEOUT_MS)
    (InvalidLimit "provider deadline must leave signed-RPC completion margin") ;?
  reject_if (exceeds (wire_bound (vl_max_request_bytes limits)) (vl_max_control_frame_bytes limits)
             || exceeds (wire_bound (vl_max_response_bytes limits)) (vl_max_control_frame_bytes limits))
    (InvalidLimit "canonical base64 provider content must fit one signed control frame") ;?
  validate_endpoints (vl_max_response_bytes limits) [] (vc_endpoints c).

(** ** Principal chains of peers (peer.rs) *)

Inductive PeerError : Type := Policy (role : string) | PeerIdentity (e : PrincipalChainError).

(** [signed_principal_chain]; the text of the chain error is the error itself. *)
Definition signed_principal_chain (peer : VerifiedRpcPrincipalV1) (policy : PeerPolicyV1) (authority_domain : AuthorityDomainId)
    (epoch : EpochId) : res PeerError PrincipalChainV1 :=
  reject_if ((vp_principal peer != kp_principal (py_rpc_key policy)) || (vp_key_id peer != kp_key_id (py_rpc_key policy)))
    (Policy (py_role policy)) ;?
  let root := mkPrincipalId (py_stable_principal_root policy) in
  let leaf := mkPrincipalId (vp_principal peer) in
  let nodes := if root == leaf then [node_root root (py_principal_kind policy)]
               else [node_root root (py_principal_kind policy); node_child leaf (py_principal_kind policy) root] in
  map_err PeerIdentity (PrincipalChainV1_new authority_domain epoch nodes).

(** ** Paths *)

Definition component_name (c : Component) : string :=
  match c with RootDir => "/" | CurDir => "." | ParentDir => ".." | Normal s => s end.

(** A component that its own name yields again. *)
Definition well_named (c : Component) : Prop :=
  component_name c <> EmptyString /\ slash_free (component_name c) = true /\
  segment_component (component_name c) = [c] /\
  forall acc, path_push acc c = if acc == EmptyString then component_name c
                                else if ends_with acc "/" then acc +:+ component_name c
                                else acc +:+ "/" +:+ component_name c.

(** What a segment of a path can yield. *)
Lemma segment_components_named l : Forall (fun s => slash_free s = true) l ->
  Forall well_named
    (flat_map segment_component l).
Proof.
  induction 1 as [|s l Hs _ IH]; [constructor|]. simpl. apply Forall_app. split; [|done].
  unfold segment_component. destruct (String.eqb_spec s EmptyString) as [|He]; [constructor|].
  destruct (String.eqb_spec s ".") as [|Hd]; [constructor|].
  destruct (String.eqb_spec s "..") as [->|Hdd]; repeat constructor; try done. simpl.
  unfold segment_component. apply String.eqb_neq in He, Hd, Hdd. by rewrite He, Hd, Hdd.
Qed.

Lemma ends_with_name acc name : name <> EmptyString -> slash_free name = true -> ends_with (acc +:+ "/" +:+ name) "/" = false.
Proof.
  intros Hn Hs. apply (no_ends _ EmptyString eq_refl). intros a [_ Ha].
  rewrite split_slash_app, (split_slash_free name Hs) in Ha. by apply app_inj_tail in Ha as [_ ->].
Qed.

Lemma collect_from acc l :
  acc <> EmptyString -> ends_with acc "/" = false ->
  Forall well_named l ->
  fold_left path_push l acc = join_slash (acc :: map component_name l).
Proof.
  revert acc. induction l as [|c l IH]; intros acc Hne He Hl; [done|].
  inversion Hl as [|? ? (Hc & Hs & _ & Hp) Hl']; subst. cbn [fold_left].
  rewrite Hp, bool_decide_eq_false_2, He by done. rewrite IH; [|by destruct acc|by apply ends_with_name|done].
  cbn [map]. destruct (map component_name l) as [|x r]; [done|]. cbn [join_slash]. by rewrite !str_app_assoc.
Qed.

(** Collecting the components of an absolute path gives an equal path: paths are
    compared by their components. *)
Lemma collect_absolute path : is_absolute path = true -> path_eq (collect_components (components path)) path = true.
Proof.
  intros (t & ->)%is_absolute_cons. unfold path_eq. rewrite components_root. apply bool_decide_eq_true.
  pose proof (segment_components_named _ (split_slash_segments t)) as Hl. unfold collect_components. cbn [fold_left path_push].
  assert (forall l, l <> [] ->
    Forall well_named l ->
    components ("/" +:+ join_slash (map component_name l)) = RootDir :: l) as Hback.
  { intros l Hne Hf. change ("/" +:+ join_slash (map component_name l)) with (String "/" (join_slash (map component_name l))).
    rewrite components_root, split_join.
    - f_equal. clear Hne. induction Hf as [|c l (_ & _ & Hc & _) _ IH]; [done|]. simpl. by rewrite Hc, IH.
    - by destruct l.
    - clear Hne. induction Hf as [|c l (_ & Hs & _) _ IH]; constructor; done. }
  destruct (flat_map segment_component (split_slash t)) as [|c l] eqn:Hfl; [done|]. cbn [fold_left].
  inversion Hl as [|? ? (Hc & Hs & Hseg & Hp) Hl']; subst. rewrite Hp. cbn [bool_decide].
  change (ends_with "/" "/") with true. rewrite bool_decide_eq_false_2 by done. cbn iota.
  rewrite collect_from; [|by destruct (component_name c)| |done].
  - rewrite <- (Hback (c :: l)); [|done|].
    + f_equal. cbn [map]. destruct (map component_name l); [done|]. cbn [join_slash]. by rewrite !str_app_assoc.
    + by constructor.
  - change ("/" +:+ component_name c) with (EmptyString +:+ "/" +:+ component_name c). by apply ends_with_name.
Qed.

Lemma unsafe_path_false path : unsafe_path path = false <-> is_absolute path = true /\ ParentDir ∉ components path.
Proof.
  unfold unsafe_path. rewrite !orb_false, !negb_false_iff. split.
  - intros [[Ha _] He]. split; [done|]. intros Hp. apply not_true_iff_false in He. apply He, existsb_exists.
    exists ParentDir. by rewrite <- list_elem_of_In.
  - intros [Ha Hp]. split_all; [done | by apply collect_absolute |]. apply not_true_iff_false.
    intros (c & Hc & Hb)%existsb_exists. rewrite <- list_elem_of_In in Hc. destruct c; try done.
    apply is_absolute_cons in Ha as [t ->]. rewrite components_root in Hc.
    apply elem_of_cons in Hc as [|Hc]; [done|]. rewrite list_elem_of_In in Hc. apply in_flat_map in Hc as (s & _ & Hc).
    unfold segment_component in Hc. repeat (destruct (String.eqb _ _); [naive_solver|]). naive_solver.
Qed.

(** Validation of absolute paths is exactly: absolute, and without [..].  The
    comparison with the normalized path never decides, so repeated separators,
    [.] segments and trailing separators pass. *)
Theorem absolute_check_exact paths :
  validate_absolute paths = Ok tt <->
  Forall (fun path => is_absolute path = true /\ ParentDir ∉ components path) paths.
Proof.
  induction paths as [|p l IH]; simpl; [by split|]. rewrite guard_ok, unsafe_path_false, IH, Forall_cons. done.
Qed.

Example unnormalized_path_accepted : validate_absolute ["/srv//repos/./team/"] = Ok tt.
Proof. reflexivity. Qed.

(** ** Separate roles *)

Definition separate (p q : PeerPolicyV1) : Prop :=
  kp_public_key (py_rpc_key p) <> kp_public_key (py_rpc_key q) /\
  kp_principal (py_rpc_key p) <> kp_principal (py_rpc_key q) /\
  py_stable_principal_root p <> py_stable_principal_root q.
Definition separate_signer (signer : RpcSigningIdentityConfigV1) (p : PeerPolicyV1) : Prop :=
  si_principal signer <> kp_principal (py_rpc_key p) /\ si_public_key signer <> kp_public_key (py_rpc_key p) /\
  si_principal signer <> py_stable_principal_root p.

Lemma separate_from_ok peer others : separate_from peer others = Ok tt <-> Forall (separate peer) others.
Proof.
  induction others as [|o l IH]; simpl; [by split|].
  rewrite !guard_ok, !bool_decide_eq_false, IH, Forall_cons. unfold separate. tauto.
Qed.

Lemma separate_roles_ok signer seen peers :
  separate_roles signer seen peers = Ok tt <->
  Forall (separate_signer signer) peers /\
  forall before p after, peers = before ++ p :: after -> Forall (separate p) (seen ++ before).
Proof.
  revert seen. induction peers as [|p l IH]; intros seen; cbn [separate_roles].
  { split; [|done]. intros _. split; [constructor|]. by intros [|] ? ?. }
  rewrite guard_ok, then_ok, separate_from_ok, IH, !orb_false, !bool_decide_eq_false, Forall_cons.
  unfold separate_signer at 2. split.
  - intros ([[? ?] ?] & Hs & Hl & Hall). split; [done|]. intros [|x before] q after [= <- ->]; [by rewrite app_nil_r|].
    specialize (Hall before q after eq_refl). by rewrite <- app_assoc in Hall.
  - intros ((Hp & Hl) & Hall). split; [tauto|]. split_all; [|done|].
    + specialize (Hall [] p l eq_refl). by rewrite app_nil_r in Hall.
    + intros before q after ->. rewrite <- app_assoc. by apply (Hall (p :: before) q after).
Qed.

Lemma separate_sym p q : separate p q -> separate q p.
Proof. unfold separate. intros (? & ? & ?). split_all; congruence. Qed.
Definition effectd_peers (c : EffectdConfigV1) : list PeerPolicyV1 := [ec_agd_peer c; ec_proposer_peer c; ec_admin_peer c].
Lemma effectd_separate c : effectd_validate c = Ok tt ->
  Forall (separate_signer (ec_rpc_signing_identity c)) (effectd_peers c) /\
  Forall (fun p => py_principal_kind p <> KWorkerSession) (effectd_peers c) /\
  forall i j p q, effectd_peers c !! i = Some p -> effectd_peers c !! j = Some q -> i <> j -> separate p q.
Proof.
  unfold effectd_validate. rewrite !then_ok. intros (_ & _ & _ & _ & _ & _ & _ & _ & _ & _ & _ & Hg & Hp & Ha & Hs & _).
  apply separate_roles_ok in Hs as [Hsigner Hs]. split; [done|]. split.
  - unfold validate_peer_kind in Hg, Hp, Ha. repeat constructor;
      [by destruct (py_principal_kind (ec_agd_peer c))|by destruct (py_principal_kind (ec_proposer_peer c))
      |by destruct (py_principal_kind (ec_admin_peer c))].
  - pose proof (Hs [ec_agd_peer c] _ [ec_admin_peer c] eq_refl) as H1. pose proof (Hs [ec_agd_peer c; ec_proposer_peer c] _ [] eq_refl) as H2.
    simpl in H1, H2. apply Forall_cons in H1 as [H1 _]. apply Forall_cons in H2 as [H2 H3]. apply Forall_cons in H3 as [H3 _].
    intros [|[|[|i]]] [|[|[|j]]] p q; simpl; intros [= <-] [= <-] Hij; try done; by apply separate_sym.
Qed.

(** The chain of a verified peer: its configured root, then its signing principal. *)
Definition peer_ids (policy : PeerPolicyV1) : list PrincipalId :=
  let root := mkPrincipalId (py_stable_principal_root policy) in
  let leaf := mkPrincipalId (kp_principal (py_rpc_key policy)) in
  if root == leaf then [root] else [root; leaf].

Lemma peer_ids_elem x policy :
  x ∈ peer_ids policy <->
  principal_digest x = py_stable_principal_root policy \/ principal_digest x = kp_principal (py_rpc_key policy).
Proof.
  destruct x as [x]. unfold peer_ids. cbv zeta. case_bool_decide as He.
  - injection He as He. rewrite list_elem_of_singleton. simpl. split; [intros [= ->]; by left | intros [->| ->]; congruence].
  - rewrite elem_of_cons, list_elem_of_singleton. simpl. naive_solver.
Qed.

Lemma signed_chain_spec peer policy domain epoch chain :
  signed_principal_chain peer policy domain epoch = Ok chain ->
  chain_valid chain /\ pc_authority_domain chain = domain /\ pc_epoch chain = epoch /\
  node_ids (pc_nodes chain) = peer_ids policy /\
  vp_principal peer = kp_principal (py_rpc_key policy) /\ vp_key_id peer = kp_key_id (py_rpc_key policy).
Proof.
  unfold signed_principal_chain. intros Hc. apply guard_ok in Hc as [Hg Hc]. guards_in Hg. destruct Hg as [Hp Hk].
  apply map_err_ok, chain_new_valid in Hc as [-> Hv]. cbn [pc_authority_domain pc_epoch pc_nodes].
  split_all; try done. unfold peer_ids. cbv zeta. rewrite Hp. clear Hv. by case_bool_decide.
Qed.

Lemma signed_chain_exists policy domain epoch :
  py_principal_kind policy <> KWorkerSession ->
  exists chain, signed_principal_chain (mkVerified (kp_principal (py_rpc_key policy)) (kp_key_id (py_rpc_key policy)))
                  policy domain epoch = Ok chain.
Proof.
  intros Hk. unfold signed_principal_chain. cbn [vp_principal vp_key_id]. rewrite !bool_decide_eq_true_2 by done.
  cbn [negb orb reject_if res_bind]. unfold PrincipalChainV1_new. case_bool_decide as He.
  - cbn. rewrite bool_decide_eq_false_2 by done. cbn. rewrite bool_decide_eq_false_2 by set_solver. by eexists.
  - cbn. rewrite bool_decide_eq_false_2 by done. cbn. rewrite bool_decide_eq_false_2 by set_solver. cbn.
    rewrite bool_decide_eq_false_2 by set_solver. cbn. rewrite bool_decide_eq_true_2 by done. by eexists.
Qed.

(** The chains of two separate peers. *)
Definition enrolled (p : PeerPolicyV1) : VerifiedRpcPrincipalV1 := mkVerified (kp_principal (py_rpc_key p)) (kp_key_id (py_rpc_key p)).
Lemma separate_chains p q domain epoch :
  separate p q -> py_principal_kind p <> KWorkerSession -> py_principal_kind q <> KWorkerSession ->
  exists cp cq,
    signed_principal_chain (enrolled p) p domain epoch = Ok cp /\ signed_principal_chain (enrolled q) q domain epoch = Ok cq /\
    independent_from cp cq =
      Ok ((py_stable_principal_root q != kp_principal (py_rpc_key p)) && (py_stable_principal_root p != kp_principal (py_rpc_key q))).
Proof.
  intros (_ & Hpr & Hrt) Hkp Hkq.
  destruct (signed_chain_exists p domain epoch Hkp) as [cp Hp]. destruct (signed_chain_exists q domain epoch Hkq) as [cq Hq].
  exists cp, cq. split_all; [done..|].
  apply signed_chain_spec in Hp as (Hpv & Hpd & Hpe & Hpi & _), Hq as (Hqv & Hqd & Hqe & Hqi & _).
  destruct (check_separation_spec cp cq Hpv Hqv) as [Hnp Hiff]. unfold independent_from, satisfies.
  assert (shares_nobody (pc_nodes cp) (pc_nodes cq) <->
          py_stable_principal_root q <> kp_principal (py_rpc_key p) /\ py_stable_principal_root p <> kp_principal (py_rpc_key q)) as Hsh.
  { unfold shares_nobody. rewrite Hpi, Hqi. setoid_rewrite peer_ids_elem. split.
    - intros Hd. split; intros He.
      + apply (Hd (mkPrincipalId (kp_principal (py_rpc_key p)))); [by right | by left].
      + apply (Hd (mkPrincipalId (py_stable_principal_root p))); [by left | by right].
    - intros [H1 H2] [x] [Hx|Hx] [Hy|Hy]; simpl in *; congruence. }
  assert (same_context cp cq) as Hsame by (by split; rewrite ?Hpd, ?Hqd, ?Hpe, ?Hqe).
  destruct (check_distinct_roots_no_shared_lineage cp cq) as [[]|e|]; [| |by destruct Hnp].
  - destruct (proj1 Hiff eq_refl) as [_ [? ?]%Hsh]. by rewrite !bool_decide_eq_false_2.
  - destruct (bool_decide_reflect (py_stable_principal_root q = kp_principal (py_rpc_key p))); [done|].
    destruct (bool_decide_reflect (py_stable_principal_root p = kp_principal (py_rpc_key q))); [done|].
    exfalso. assert (Err (A := unit) e = Ok tt) as He by (apply Hiff; split; [done | by apply Hsh]). done.
Qed.

(** C40. In a validated broker configuration nobody stands in for another: the
    daemon's own signer shares neither key nor principal with the governor, the
    proposer or the operator, nor is it the root of one of them; and any two of these
    three have different keys, different principals and different stable roots.  For
    any two of them the broker can build both chains for the enrolled keys, in every
    context, and finds them independent exactly when neither one's stable root is the
    other's signing principal; it never panics on them. *)
Theorem validated_roles_independent c :
  effectd_validate c = Ok tt ->
  let signer := ec_rpc_signing_identity c in
  let peers := [ec_agd_peer c; ec_proposer_peer c; ec_admin_peer c] in
  (forall p, p ∈ peers ->
     si_public_key signer <> kp_public_key (py_rpc_key p) /\ si_principal signer <> kp_principal (py_rpc_key p) /\
     si_principal signer <> py_stable_principal_root p) /\
  forall i j p q, peers !! i = Some p -> peers !! j = Some q -> i <> j ->
    kp_public_key (py_rpc_key p) <> kp_public_key (py_rpc_key q) /\
    kp_principal (py_rpc_key p) <> kp_principal (py_rpc_key q) /\
    py_stable_principal_root p <> py_stable_principal_root q /\
    forall domain epoch, exists cp cq,
      signed_principal_chain (enrolled p) p domain epoch = Ok cp /\ signed_principal_chain (enrolled q) q domain epoch = Ok cq /\
      independent_from cp cq =
        Ok ((py_stable_principal_root q != kp_principal (py_rpc_key p)) && (py_stable_principal_root p != kp_principal (py_rpc_key q))).
Proof.
  intros (Hsigner & Hkind & Hsep)%effectd_separate signer peers. fold peers in Hsigner, Hkind, Hsep. split.
  - intros p Hp. destruct (proj1 (Forall_forall _ _) Hsigner p Hp) as (? & ? & ?). by split_all.
  - intros i j p q Hi Hj Hij. pose proof (Hsep i j p q Hi Hj Hij) as Hpq. pose proof Hpq as (? & ? & ?). split_all; [done..|].
    intros domain epoch. apply separate_chains; [done|..].
    + by apply (Forall_lookup_1 _ _ _ _ Hkind Hi).
    + by apply (Forall_lookup_1 _ _ _ _ Hkind Hj).
Qed.

(** ** References *)

Lemma last_segment_app a m : slash_free m = true ->
  exists init x, split_slash a = init ++ [x] /\ split_slash (a +:+ m) = init ++ [x +:+ m].
Proof.
  intros Hm. induction a as [|c a (init & x & Ha & Hb)].
  - exists [], EmptyString. rewrite !str_app_empty. by rewrite (split_slash_free m Hm).
  - rewrite str_app_cons. simpl. rewrite Ha, Hb. destruct (Ascii.eqb c "/").
    + by exists (EmptyString :: init), x.
    + destruct init as [|y init]; simpl; [by exists [], (String c x) | by exists (String c y :: init), x].
Qed.

Lemma str_app_nil s : s +:+ EmptyString = s.
Proof. induction s as [|c s IH]; [done|]. by rewrite str_app_cons, IH. Qed.

Lemma last_dot_none before y : str_all (fun c => negb (Ascii.eqb c ".")) y = true -> last_dot before y = None.
Proof.
  revert before. induction y as [|c y IH]; intros before; [done|]. unfold str_all. simpl.
  rewrite andb_true_iff, negb_true_iff. intros [Hc Hy]. by rewrite IH, Hc.
Qed.
Lemma last_dot_app before x y : str_all (fun c => negb (Ascii.eqb c ".")) y = true ->
  last_dot before (x +:+ "." +:+ y) = Some (before +:+ x, y).
Proof.
  intros Hy. revert before. induction x as [|c x IH]; intros before.
  - change (EmptyString +:+ "." +:+ y) with (String "." y). simpl. rewrite last_dot_none by done. simpl.
    by rewrite str_app_nil.
  - rewrite str_app_cons. simpl. rewrite IH. by rewrite str_app_assoc.
Qed.

Lemma locked_component x : valid_ref_component (x +:+ ".lock") = false.
Proof.
  unfold valid_ref_component. destruct x as [|c x]; [done|].
  assert (extension (String c x +:+ ".lock") = Some "lock") as ->; [|by rewrite !andb_false_r].
  unfold extension, trivial_segment. change ".lock" with ("." +:+ "lock"). rewrite last_dot_app by done.
  rewrite !bool_decide_eq_false_2; [done|..]; intros E%(f_equal String.length);
    rewrite str_length_app in E; simpl in E; lia.
Qed.

Lemma ref_component_chars s : valid_ref_component s = true -> str_all git_reference_char s = true.
Proof.
  unfold valid_ref_component. rewrite !andb_true_iff. intros [_ Hs]. rewrite str_all_forall in *.
  eapply Forall_impl; [exact Hs|]. intros [[] [] [] [] [] [] [] []]; by vm_compute.
Qed.

(** Every reference that the configuration admits, the compiler admits too. *)
Lemma managed_ref_canonical reference : valid_managed_git_ref reference = true -> is_canonical_git_reference reference = true.
Proof.
  unfold valid_managed_git_ref. destruct (starts_with reference "refs/heads/") eqn:Hp; [|done]. cbn [negb].
  apply starts_with_spec in Hp as [relative ->]. change 11 with (String.length "refs/heads/"). rewrite str_drop_app.
  rewrite !andb_true_iff, !negb_true_iff. intros ((((Hne & _) & Hdd) & Hat) & Hall). rewrite forallb_forall in Hall.
  assert (split_slash ("refs/heads/" +:+ relative) = ["refs"; "heads"] ++ split_slash relative) as Hsplit.
  { change ("refs/heads/" +:+ relative) with ("refs/heads" +:+ "/" +:+ relative). by rewrite split_slash_app. }
  destruct (exists_last (split_slash_nonempty relative)) as (l & z & Hl).
  assert (valid_ref_component z = true) as Hz by (apply Hall; rewrite Hl; apply in_or_app; right; by left).
  assert (forall m, slash_free m = true -> ends_with ("refs/heads/" +:+ relative) m = true -> exists x, z = x +:+ m) as Hlast.
  { intros m Hm He. apply ends_with_spec in He as [a Ha]. destruct (last_segment_app a m Hm) as (init & x & _ & Hs).
    rewrite <- Ha, Hsplit, Hl, app_assoc in Hs. apply app_inj_tail in Hs as [_ ->]. by exists x. }
  assert (Forall (fun s => s <> EmptyString /\ str_all git_reference_char s = true) (split_slash ("refs/heads/" +:+ relative))) as Hseg.
  { rewrite Hsplit. apply Forall_app. split; [by repeat constructor|]. apply Forall_forall. intros s Hs%list_elem_of_In%Hall.
    split; [|by apply ref_component_chars]. intros ->. discriminate Hs. }
  unfold is_canonical_git_reference. rewrite !andb_true_iff, !negb_true_iff. split_all.
  - done.
  - apply (no_ends _ EmptyString eq_refl). intros a [_ Ha]. rewrite Ha, Forall_app in Hseg. destruct Hseg as [_ Hs].
    by inversion Hs as [|? ? [? _] _].
  - apply not_true_iff_false. intros [x ->]%Hlast; [|done]. unfold valid_ref_component in Hz.
    rewrite (proj2 (ends_with_spec (x +:+ ".") ".")) in Hz by (by exists x). cbn in Hz. by rewrite !andb_false_r in Hz.
  - apply not_true_iff_false. intros [x ->]%Hlast; [|done]. by rewrite locked_component in Hz.
  - exact Hdd.
  - exact Hat.
  - apply (no_contains _ EmptyString eq_refl). intros a b (_ & _ & Ha). rewrite Ha, Forall_app in Hseg. destruct Hseg as [_ Hs].
    by inversion Hs as [|? ? [? _] _].
  - rewrite <- (join_split ("refs/heads/" +:+ relative)). apply str_all_segments; [done|].
    eapply Forall_impl; [exact Hseg|]. by intros s [_ ?].
Qed.

(** ** Limits *)

Lemma exceeds_false bound limit : exceeds bound limit = false <-> exists b, bound = Some b /\ (b <= limit)%Z.
Proof. destruct bound; simpl; [rewrite Z.ltb_ge | ]; naive_solver. Qed.

Lemma wire_bound_some content b : wire_bound content = Some b ->
  (b = 4 * ((content + 2) / 3) + PROVIDER_RPC_STRUCTURAL_RESERVE_BYTES)%Z.
Proof.
  unfold wire_bound, canonical_base64_encoded_length, checked_mul_u64. intros Hb.
  apply bind_Some in Hb as (encoded & He & [Hb _]%checked_add_u64_Some).
  apply bind_Some in He as (padded & [-> _]%checked_add_u64_Some & He). destruct (_ <=? _)%Z; [|done].
  injection He as <-. lia.
Qed.

Lemma validate_models_ok max seen l :
  validate_models max seen l = Ok tt ->
  NoDup (map mp_id l) /\ Forall (fun m => (mp_id m ∉ seen) /\ mp_id m <> EmptyString /\
    (PROVIDER_MIN_EVENT_STREAM_BYTES <= mp_max_event_stream_bytes m <= max)%Z /\ (mp_worst_case_cost_microunits m <> 0)%Z) l.
Proof.
  revert seen. induction l as [|m l IH]; intros seen Hv; simpl in Hv; [by split; constructor|].
  apply guard_ok in Hv as [Hg Hv]. guards_in Hg. destruct Hg as ((((He & Hs) & Hmin) & Hmax) & Hc).
  apply IH in Hv as [Hn Hf]. split.
  - simpl. constructor; [|done]. intros (m' & Hid & Hm)%list_elem_of_In%in_map_iff.
    rewrite Forall_forall in Hf. apply list_elem_of_In in Hm. destruct (Hf m' Hm) as [Hnot _]. apply Hnot. rewrite Hid. by left.
  - constructor; [done|]. eapply Forall_impl; [exact Hf|]. intros m' (Hn' & Hrest).
    split; [set_solver | done].
Qed.

Definition endpoint_bounded (max : Z) (e : ProviderEndpointConfigV1) : Prop :=
  starts_with (ep_url e) "https://" = true /\ ep_models e <> [] /\ NoDup (map mp_id (ep_models e)) /\
  Forall (fun m => (PROVIDER_MIN_EVENT_STREAM_BYTES <= mp_max_event_stream_bytes m <= max)%Z /\
                   (mp_worst_case_cost_microunits m <> 0)%Z) (ep_models e).

Lemma validate_endpoints_ok max seen l :
  validate_endpoints max seen l = Ok tt ->
  NoDup (map ep_id l) /\ Forall (fun e => ep_id e ∉ seen) l /\ Forall (endpoint_bounded max) l.
Proof.
  revert seen. induction l as [|e l IH]; intros seen Hv; simpl in Hv; [split_all; constructor|].
  apply guard_ok in Hv as [Hg Hv]. apply guard_ok in Hv as [Hs Hv]. apply then_ok in Hv as [Hm Hv].
  guards_in Hg. destruct Hg as (((((_ & Hu) & _) & Hne) & _) & _). apply bool_decide_eq_false in Hs.
  apply IH in Hv as (Hn & Hf & Hb). apply validate_models_ok in Hm as [Hnm Hfm]. split_all.
  - simpl. constructor; [|done]. intros (e' & Hid & He)%list_elem_of_In%in_map_iff.
    rewrite Forall_forall in Hf. apply list_elem_of_In in He. apply (Hf e' He). rewrite Hid. by left.
  - constructor; [done|]. eapply Forall_impl; [exact Hf|]. set_solver.
  - constructor; [|done]. unfold endpoint_bounded. split_all; [done|by intros He; rewrite He in Hne|done|].
    eapply Forall_impl; [exact Hfm|]. naive_solver.
Qed.

(** A validated provider configuration leaves room for everything it admits:
    any content within the request or response bound, as canonical base64 with the
    structural reserve, fits one signed control frame; the provider deadline with
    its margin fits the RPC timeout; endpoint and model names are unique, and
    every model's reservation lies between the smallest stream and the response
    bound, at a price that is not zero. *)
Theorem validated_provider_bounds c :
  providerd_validate c = Ok tt ->
  let limits := vc_limits c in
  (forall content, (content <= vl_max_request_bytes limits \/ content <= vl_max_response_bytes limits)%Z ->
    (4 * ((content + 2) / 3) + PROVIDER_RPC_STRUCTURAL_RESERVE_BYTES <= vl_max_control_frame_bytes limits)%Z) /\
  (vl_provider_deadline_ms limits + PROVIDER_RPC_COMPLETION_MARGIN_MS <= SIGNED_RPC_RESPONSE_TIMEOUT_MS)%Z /\
  NoDup (map ep_id (vc_endpoints c)) /\ Forall (endpoint_bounded (vl_max_response_bytes limits)) (vc_endpoints c).
Proof.
  intros Hv limits. unfold providerd_validate in Hv. rewrite !then_ok, !reject_if_ok in Hv.
  destruct Hv as (_ & _ & _ & _ & _ & _ & _ & _ & _ & _ & _ & Hd & [Hq Hr]%orb_false & He).
  apply exceeds_false in Hd as (d & [-> _]%checked_add_u64_Some & Hd).
  apply exceeds_false in Hq as (q & ->%wire_bound_some & Hq), Hr as (r & ->%wire_bound_some & Hr).
  apply validate_endpoints_ok in He as (Hn & _ & Hf). split_all; [|done..].
  assert (forall x y, x <= y -> (x + 2) / 3 <= (y + 2) / 3)%Z as Hmono by (intros; apply Z.div_le_mono; lia).
  intros content [H|H]; apply Hmono in H; fold limits in Hq, Hr; lia.
Qed.

(** ** An example *)

Module ToyConfig.

Definition principal (z : Z) : Digest := hash_bytes [byte_of z].
Definition key (seed : Z) : RpcPublicKeyV1 := mkPublicKey (repeat (byte_of seed) 32).
Definition policy (seed : Z) (name : string) : RpcPeerKeyPolicyV1 := mkKeyPolicy (principal seed) (mkKeyId name) (key seed) 30000.
Definition peer (role : string) (root seed : Z) (kind : PrincipalKindV1) : PeerPolicyV1 :=
  mkPeerPolicy role 1000 1000 None None (principal root) kind (policy seed role).
Definition signer (name : string) : RpcSigningIdentityConfigV1 :=
  mkSigningConfig (principal 1) (mkKeyId name) (key 1) ("/run/credentials/" +:+ name +:+ "/rpc-ed25519-pkcs8").
Definition store : StoreConfigV1 :=
  mkStoreConfig "/var/lib/agent-governor/effectd/effectd.db" "/var/lib/agent-governor/effectd/objects"
    (mkStoreCustody (mkNodeCustody 0 0 448) (mkNodeCustody 0 0 448) (mkNodeCustody 0 0 384) (mkNodeCustody 0 0 384)).
Definition socket : SocketCustodyConfigV1 := mkSocketCustody (mkNodeCustody 0 991 1512) (mkNodeCustody 0 991 432).
Definition object_name : string := "0123456789abcdef0123456789abcdef01234567".
Definition pointer : PointerTargetConfig :=
  mkPointerTarget "site" "/srv/repos" "/srv/repos/site.git" "refs/heads/main" object_name object_name (principal 20) (principal 21)
    1000 1000 "/var/lib/agent-governor/staging" 600000 "/usr/bin/git" (principal 22) (principal 23).
Definition effectd : EffectdConfigV1 :=
  mkEffectd "ag.config.effectd.v2" "production" "example-host.production" "1" store
    "/run/agent-governor/effectd/proposal/proposal.sock" socket "/run/agent-governor/effectd/admin/admin.sock" socket
    (signer "ag-effectd.service") (peer "governor_proposer" 2 2 KDaemon) (peer "proposal_ingress" 3 4 KService)
    (peer "effect_operator" 5 5 KOperator) (mkEffectdLimits 1048576 8192 1 1024 2147483648)
    [CfgManagedPointer pointer; CfgManagedFile "motd" "/etc/motd" 420 0 0].
Definition providerd : ProviderdConfigV1 :=
  mkProviderd "ag.config.providerd.v1" "production" "example-host.production" "1" store "/run/agent-governor/providerd.sock" socket
    (signer "ag-providerd.service") (peer "governor" 2 2 KDaemon) (mkProviderLimits 8388608 8192 4 20000 1048576 4194304)
    [mkEndpoint "primary" "https://provider.example/v1" "provider-key" "authorization" "Bearer "
       [mkModelPolicy "model-a" 1048576 100] "messages" ["complete"]].

End ToyConfig.

Example toy_effectd_valid : effectd_validate ToyConfig.effectd = Ok tt.
Proof. vm_compute. reflexivity. Qed.

Lemma validated_roles_independent_witness :
  effectd_validate ToyConfig.effectd = Ok tt /\
  si_public_key (ec_rpc_signing_identity ToyConfig.effectd) <> kp_public_key (py_rpc_key (ec_agd_peer ToyConfig.effectd)) /\
  exists proposer ratifier,
    signed_principal_chain (mkVerified (ToyConfig.principal 4) (mkKeyId "proposal_ingress")) (ec_proposer_peer ToyConfig.effectd) toy_domain (mkEpochId 1)
      = Ok proposer /\
    signed_principal_chain (mkVerified (ToyConfig.principal 5) (mkKeyId "effect_operator")) (ec_admin_peer ToyConfig.effectd) toy_domain (mkEpochId 1)
      = Ok ratifier /\
    independent_from proposer ratifier = Ok true.
Proof.
  split; [exact toy_effectd_valid|]. destruct (validated_roles_independent ToyConfig.effectd toy_effectd_valid) as [Hsigner Hpeers]. split.
  - apply Hsigner. apply list_elem_of_here.
  - destruct (Hpeers 1 2 _ _ eq_refl eq_refl ltac:(lia)) as (_ & _ & _ & Hchains).
    destruct (Hchains toy_domain (mkEpochId 1)) as (p & r & Hp & Hr & Hi).
    exists p, r. split; [exact Hp|]. split; [exact Hr|]. rewrite Hi. vm_compute. reflexivity.
Defined.

Lemma validated_provider_bounds_witness :
  providerd_validate ToyConfig.providerd = Ok tt /\
  (4 * ((4194304 + 2) / 3) + PROVIDER_RPC_STRUCTURAL_RESERVE_BYTES <= 8388608)%Z.
Proof.
  split; [vm_compute; reflexivity|].
  apply (proj1 (validated_provider_bounds ToyConfig.providerd ltac:(vm_compute; reflexivity)) 4194304%Z). right. simpl. lia.
Defined.
