(* ===== verification/Pointer.v ===== *)
(** * Managed pointers: requests, evidence and receipts (ag-app/src/managed_pointer.rs)

    The documents of the managed-pointer runtime: the offline genesis request,
    measurement and enrollment receipt, the standing receipts, the preparation,
    commit and poststate evidence, the activation receipt, and the checks that
    each must pass.  The Git process and the repository's descriptors are the
    subject of [PointerRuntime]. *)

From S2P Require Import Prelude Wire Fixture Digest Names Origin Capability Identity Protocol Paths Store Effect Compile Proposal HostFiles RpcAuth Config Executor.

Definition MANAGED_POINTER_LAUNCH_PROFILE_SCHEMA_V2 : string := "ag.managed-pointer.git-launch-profile/v2".
Definition MANAGED_REPOSITORY_IDENTITY_SCHEMA_V1 : string := "ag.managed-pointer.repository-identity/v1".
Definition MANAGED_REPOSITORY_STATE_SCHEMA_V1 : string := "ag.managed-pointer.repository-state/v1".
Definition MANAGED_POINTER_PREPARATION_SCHEMA_V2 : string := "ag.managed-pointer.preparation/v2".
Definition MANAGED_POINTER_COMMIT_EVIDENCE_SCHEMA_V1 : string := "ag.managed-pointer.commit-evidence/v1".
Definition MANAGED_POINTER_POSTSTATE_EVIDENCE_SCHEMA_V1 : string := "ag.managed-pointer.poststate-evidence/v1".
Definition MANAGED_POINTER_ACTIVATION_RECEIPT_SCHEMA_V1 : string := "ag.managed-pointer.activation-receipt/v1".
Definition MANAGED_POINTER_READINESS_SCHEMA_V1 : string := "ag.managed-pointer.production-readiness/v1".
Definition MANAGED_POINTER_GENESIS_REQUEST_SCHEMA_V1 : string := "ag.managed-pointer.genesis-request/v1".
Definition MANAGED_POINTER_GENESIS_MEASUREMENT_SCHEMA_V1 : string := "ag.managed-pointer.genesis-measurement/v1".
Definition MANAGED_POINTER_GENESIS_ENROLLMENT_RECEIPT_SCHEMA_V1 : string :=
  "ag.managed-pointer.genesis-enrollment-receipt/v1".
Definition MANAGED_POINTER_PROMOTION_STANDING_RECEIPT_SCHEMA_V1 : string :=
  "ag.managed-pointer.promotion-standing-receipt/v1".
Definition BUNDLE_CANDIDATE_REF : string := "refs/heads/ag-candidate".

Inductive ManagedPointerError : Type :=
  | GenesisMeasurementInvalid
  | GenesisMeasurementDrift
  | TargetUnavailable
  | PreparationStandingAbsent
  | PreparationStandingScopeMismatch
  | PreparationBudgetExceeded
  | ProtectedProjectionChanged
  | PromotionStandingMismatch
  | PointerBindingMismatch
  | GitIdentityMismatch
  | LaunchProfileMismatch
  | ClockUnavailable
  | PromotionExpiredBeforeCas
  | PrivilegeFloorUnavailable
  | UnsafeRepository (detail : string)
  | InvalidBundle (detail : string)
  | PointerPrestateDrift (detail : string)
  | PointerArtifact (detail : string)
  | GitFailed (operation detail : string)
  | PointerIo (e : IoError)
  | PointerStore (e : StoreError)
  | PointerCanonical (e : JcsError).

(** ** Records *)

Record ManagedPointerGenesisRequestV1 : Type := mkGenesisRequest {
  gr_schema : string;
  gr_security_profile : string;
  gr_target : string;
  gr_allowed_root : string;
  gr_repository : string;
  gr_reference : string;
  gr_uid : Z;
  gr_gid : Z;
  gr_staging_root : string;
  gr_promotion_ttl_ms : Z;
  gr_helper : string
}.
Record ManagedPointerGenesisContextV1 : Type := mkGenesisContext {
  gx_authority_domain : string;
  gx_epoch : string;
  gx_effectd_config_template : Digest;
  gx_effectd_database : string;
  gx_effectd_object_store : string
}.
Record ManagedFilesystemNodeEvidenceV1 : Type := mkNodeEvidence {
  ne_name : string;
  ne_device : Z;
  ne_inode : Z;
  ne_uid : Z;
  ne_gid : Z;
  ne_mode : Z;
  ne_link_count : Z
}.
Record ManagedRepositoryStateEvidenceV1 : Type := mkStateEvidence {
  rs_schema : string;
  rs_repository_identity : Digest;
  rs_reference : ManagedFilesystemNodeEvidenceV1;
  rs_current_object : string;
  rs_current_tree : string;
  rs_clean : bool;
  rs_reference_checked_out : bool
}.
Record ManagedRepositoryIdentityEvidenceV1 : Type := mkRepositoryEvidence {
  ri_schema : string;
  ri_allowed_root : string;
  ri_repository : string;
  ri_bare : bool;
  ri_object_format : GitObjectFormatV1;
  ri_allowed_root_node : ManagedFilesystemNodeEvidenceV1;
  ri_repository_node : ManagedFilesystemNodeEvidenceV1;
  ri_git_directory_node : ManagedFilesystemNodeEvidenceV1;
  ri_config_node : ManagedFilesystemNodeEvidenceV1;
  ri_objects_node : ManagedFilesystemNodeEvidenceV1;
  ri_pack_directory_node : ManagedFilesystemNodeEvidenceV1;
  ri_reference_ancestry : list ManagedFilesystemNodeEvidenceV1;
  ri_repository_device : Z;
  ri_repository_inode : Z;
  ri_git_directory_device : Z;
  ri_git_directory_inode : Z;
  ri_uid : Z;
  ri_gid : Z;
  ri_config_digest : Digest
}.
Record ManagedPointerGenesisMeasurementV1 : Type := mkMeasurement {
  gm_schema : string;
  gm_context : ManagedPointerGenesisContextV1;
  gm_request : ManagedPointerGenesisRequestV1;
  gm_request_identity : Digest;
  gm_security_profile_identity : Digest;
  gm_helper_executable : Digest;
  gm_helper_launch_profile : Digest;
  gm_repository_layout : ManagedRepositoryIdentityEvidenceV1;
  gm_repository_identity : Digest;
  gm_state : ManagedRepositoryStateEvidenceV1;
  gm_activation_genesis_state : Digest;
  gm_activation_genesis_object : string;
  gm_activation_genesis_tree : string;
  gm_staging_root_node : ManagedFilesystemNodeEvidenceV1
}.
Record ManagedPointerGenesisEnrollmentReceiptV1 : Type := mkEnrollmentReceipt {
  er_schema : string;
  er_authority_domain : string;
  er_epoch : string;
  er_target : string;
  er_measurement : Digest;
  er_activation_genesis_object : string;
  er_activation_genesis_tree : string;
  er_activation_genesis_state : Digest;
  er_repository_identity : Digest;
  er_effectd_config : Digest;
  er_effectd_config_path : string;
  er_effectd_unit_drop_in : Digest;
  er_effectd_unit_drop_in_path : string;
  er_receipt_path : string
}.
Record ManagedPointerExecutionContextV1 : Type := mkExecutionContext {
  xc_proposal : Digest;
  xc_authorization : Digest;
  xc_attempt : Digest;
  xc_effect_index : Z
}.
Record ManagedPointerPreparationStandingContextV1 : Type := mkStandingContext {
  sx_authority_domain : AuthorityDomainId;
  sx_epoch : EpochId;
  sx_catalog_identity : Digest;
  sx_security_profile_identity : Digest;
  sx_max_artifact_bytes : Z;
  sx_now_unix_ms : Z
}.
(** [struct ManagedPointerPreparationStandingV1] and [ManagedPointerPromotionStandingV1]: live
    values around a receipt. *)
Record ManagedPointerPreparationStandingV1 : Type := mkPreparationStanding { pst_receipt : ManagedPointerPreparationStandingReceiptV1 }.
Record ManagedPointerPreparedObservationV1 : Type := mkPreparedObservation {
  pob_observation : TargetObservationV1;
  pob_candidate : PreparedManagedPointerCandidateV1
}.
Record ManagedPointerPromotionStandingReceiptV1 : Type := mkPromotionStandingReceipt {
  sr_receipt_schema : string;
  sr_proposal : Digest;
  sr_authorization : Digest;
  sr_candidate_ratification : Digest;
  sr_candidate : Digest;
  sr_exact_basis : Digest;
  sr_current_basis : Digest;
  sr_issued_at_unix_ms : Z;
  sr_expires_at_unix_ms : Z;
  sr_nonce : string
}.
Record ManagedPointerPromotionStandingV1 : Type := mkPromotionStanding { prs_receipt : ManagedPointerPromotionStandingReceiptV1 }.
Record ImportedPackEvidenceV1 : Type := mkImportedPack {
  ip_schema : string;
  ip_pack_checksum : string;
  ip_candidate_pack_digest : Digest;
  ip_pack_file_digest : Digest;
  ip_pack_file_size : Z;
  ip_index_file_digest : Digest;
  ip_index_file_size : Z;
  ip_target_uid : Z;
  ip_target_gid : Z;
  ip_pack_fsynced : bool;
  ip_index_fsynced : bool;
  ip_object_directories_fsynced : bool
}.
Record ManagedPointerPreparationEvidenceV1 : Type := mkPreparationEvidence {
  pe_schema : string;
  pe_execution : ManagedPointerExecutionContextV1;
  pe_operation_id : Digest;
  pe_prepared_candidate : Digest;
  pe_candidate_ratification : Digest;
  pe_promotion_standing : ManagedPointerPromotionStandingReceiptV1;
  pe_artifact : Digest;
  pe_candidate_pack : Digest;
  pe_imported_pack_checksum : string;
  pe_object_import_evidence : Digest;
  pe_imported_pack_evidence : ImportedPackEvidenceV1;
  pe_repository_identity : Digest;
  pe_repository_layout : ManagedRepositoryIdentityEvidenceV1;
  pe_prestate : ManagedRepositoryStateEvidenceV1;
  pe_expected_object : string;
  pe_expected_tree : string;
  pe_new_object : string;
  pe_expected_post_tree : string
}.
Record ManagedPointerCommitEvidenceV1 : Type := mkCommitEvidence {
  ce_schema : string;
  ce_execution : ManagedPointerExecutionContextV1;
  ce_preparation_checkpoint : Digest;
  ce_operation_id : Digest;
  ce_request_digest : Digest;
  ce_previous_object : string;
  ce_previous_tree : string;
  ce_installed_object : string;
  ce_installed_tree : string;
  ce_reference_fsynced : bool
}.
Record ManagedPointerPoststateEvidenceV1 : Type := mkPoststateEvidence {
  ve_schema : string;
  ve_execution : ManagedPointerExecutionContextV1;
  ve_preparation_checkpoint : Digest;
  ve_repository_layout : ManagedRepositoryIdentityEvidenceV1;
  ve_state : ManagedRepositoryStateEvidenceV1
}.
Record ManagedPointerActivationReceiptV1 : Type := mkActivationReceipt {
  ar_schema : string;
  ar_effect : Digest;
  ar_execution : ManagedPointerExecutionContextV1;
  ar_target : TargetId;
  ar_reference : string;
  ar_operation_id : Digest;
  ar_prepared_candidate : Digest;
  ar_candidate_ratification : Digest;
  ar_exact_basis : Digest;
  ar_artifact : Digest;
  ar_candidate_pack : Digest;
  ar_preparation_checkpoint : Digest;
  ar_repository_identity : Digest;
  ar_previous_object : string;
  ar_previous_tree : string;
  ar_installed_object : string;
  ar_installed_tree : string;
  ar_commit : ManagedPointerCommitEvidenceV1;
  ar_poststate : ManagedPointerPoststateEvidenceV1
}.
Record ManagedPointerCommitResultV1 : Type := mkCommitResult {
  co_receipt : ExecutionReceiptV1;
  co_commit_evidence : option ManagedPointerCommitEvidenceV1;
  co_poststate_evidence : option ManagedPointerPoststateEvidenceV1;
  co_activation_receipt : option ManagedPointerActivationReceiptV1
}.
Record ManagedPointerActivationHeadV1 : Type := mkActivationHead {
  ah_object : string;
  ah_tree : string;
  ah_state_identity : Digest
}.

#[global] Instance ManagedPointerGenesisRequestV1_eq_dec : EqDecision ManagedPointerGenesisRequestV1.
Proof. solve_decision. Defined.
#[global] Instance ManagedPointerGenesisContextV1_eq_dec : EqDecision ManagedPointerGenesisContextV1.
Proof. solve_decision. Defined.
#[global] Instance ManagedFilesystemNodeEvidenceV1_eq_dec : EqDecision ManagedFilesystemNodeEvidenceV1.
Proof. solve_decision. Defined.
#[global] Instance ManagedRepositoryStateEvidenceV1_eq_dec : EqDecision ManagedRepositoryStateEvidenceV1.
Proof. solve_decision. Defined.
#[global] Instance ManagedRepositoryIdentityEvidenceV1_eq_dec : EqDecision ManagedRepositoryIdentityEvidenceV1.
Proof. solve_decision. Defined.
#[global] Instance ManagedPointerGenesisMeasurementV1_eq_dec : EqDecision ManagedPointerGenesisMeasurementV1.
Proof. solve_decision. Defined.
#[global] Instance ManagedPointerExecutionContextV1_eq_dec : EqDecision ManagedPointerExecutionContextV1.
Proof. solve_decision. Defined.
#[global] Instance ManagedPointerCommitEvidenceV1_eq_dec : EqDecision ManagedPointerCommitEvidenceV1.
Proof. solve_decision. Defined.
#[global] Instance ManagedPointerPoststateEvidenceV1_eq_dec : EqDecision ManagedPointerPoststateEvidenceV1.
Proof. solve_decision. Defined.
#[global] Instance ManagedPointerActivationReceiptV1_eq_dec : EqDecision ManagedPointerActivationReceiptV1.
Proof. solve_decision. Defined.
#[global] Instance ManagedPointerActivationHeadV1_eq_dec : EqDecision ManagedPointerActivationHeadV1.
Proof. solve_decision. Defined.

(** ** Serialized forms *)

#[global] Instance ManagedPointerGenesisRequestV1_serialize : Serialize ManagedPointerGenesisRequestV1 := fun r =>
  VObject [("schema", to_value (gr_schema r)); ("security_profile", to_value (gr_security_profile r));
           ("target", to_value (gr_target r)); ("allowed_root", to_value (gr_allowed_root r));
           ("repository", to_value (gr_repository r)); ("reference", to_value (gr_reference r));
           ("uid", to_value (gr_uid r)); ("gid", to_value (gr_gid r)); ("staging_root", to_value (gr_staging_root r));
           ("promotion_ttl_ms", to_value (gr_promotion_ttl_ms r)); ("helper", to_value (gr_helper r))].
#[global] Instance ManagedPointerGenesisContextV1_serialize : Serialize ManagedPointerGenesisContextV1 := fun c =>
  VObject [("authority_domain", to_value (gx_authority_domain c)); ("epoch", to_value (gx_epoch c));
           ("effectd_config_template", to_value (gx_effectd_config_template c));
           ("effectd_database", to_value (gx_effectd_database c));
           ("effectd_object_store", to_value (gx_effectd_object_store c))].
#[global] Instance ManagedFilesystemNodeEvidenceV1_serialize : Serialize ManagedFilesystemNodeEvidenceV1 := fun n =>
  VObject [("name", to_value (ne_name n)); ("device", to_value (ne_device n)); ("inode", to_value (ne_inode n));
           ("uid", to_value (ne_uid n)); ("gid", to_value (ne_gid n)); ("mode", to_value (ne_mode n));
           ("link_count", to_value (ne_link_count n))].
#[global] Instance ManagedRepositoryStateEvidenceV1_serialize : Serialize ManagedRepositoryStateEvidenceV1 := fun s =>
  VObject [("schema", to_value (rs_schema s)); ("repository_identity", to_value (rs_repository_identity s));
           ("reference", to_value (rs_reference s)); ("current_object", to_value (rs_current_object s));
           ("current_tree", to_value (rs_current_tree s)); ("clean", to_value (rs_clean s));
           ("reference_checked_out", to_value (rs_reference_checked_out s))].
#[global] Instance ManagedRepositoryIdentityEvidenceV1_serialize : Serialize ManagedRepositoryIdentityEvidenceV1 := fun r =>
  VObject [("schema", to_value (ri_schema r)); ("allowed_root", to_value (ri_allowed_root r));
           ("repository", to_value (ri_repository r)); ("bare", to_value (ri_bare r));
           ("object_format", to_value (ri_object_format r)); ("allowed_root_node", to_value (ri_allowed_root_node r));
           ("repository_node", to_value (ri_repository_node r)); ("git_directory_node", to_value (ri_git_directory_node r));
           ("config_node", to_value (ri_config_node r)); ("objects_node", to_value (ri_objects_node r));
           ("pack_directory_node", to_value (ri_pack_directory_node r));
           ("reference_ancestry", to_value (ri_reference_ancestry r));
           ("repository_device", to_value (ri_repository_device r)); ("repository_inode", to_value (ri_repository_inode r));
           ("git_directory_device", to_value (ri_git_directory_device r));
           ("git_directory_inode", to_value (ri_git_directory_inode r)); ("uid", to_value (ri_uid r));
           ("gid", to_value (ri_gid r)); ("config_digest", to_value (ri_config_digest r))].
#[global] Instance ManagedPointerGenesisMeasurementV1_serialize : Serialize ManagedPointerGenesisMeasurementV1 := fun m =>
  VObject [("schema", to_value (gm_schema m)); ("context", to_value (gm_context m)); ("request", to_value (gm_request m));
           ("request_identity", to_value (gm_request_identity m));
           ("security_profile_identity", to_value (gm_security_profile_identity m));
           ("helper_executable", to_value (gm_helper_executable m));
           ("helper_launch_profile", to_value (gm_helper_launch_profile m));
           ("repository_layout", to_value (gm_repository_layout m));
           ("repository_identity", to_value (gm_repository_identity m)); ("state", to_value (gm_state m));
           ("activation_genesis_state", to_value (gm_activation_genesis_state m));
           ("activation_genesis_object", to_value (gm_activation_genesis_object m));
           ("activation_genesis_tree", to_value (gm_activation_genesis_tree m));
           ("staging_root_node", to_value (gm_staging_root_node m))].
#[global] Instance ManagedPointerGenesisEnrollmentReceiptV1_serialize
    : Serialize ManagedPointerGenesisEnrollmentReceiptV1 := fun r =>
  VObject [("schema", to_value (er_schema r)); ("authority_domain", to_value (er_authority_domain r));
           ("epoch", to_value (er_epoch r)); ("target", to_value (er_target r)); ("measurement", to_value (er_measurement r));
           ("activation_genesis_object", to_value (er_activation_genesis_object r));
           ("activation_genesis_tree", to_value (er_activation_genesis_tree r));
           ("activation_genesis_state", to_value (er_activation_genesis_state r));
           ("repository_identity", to_value (er_repository_identity r)); ("effectd_config", to_value (er_effectd_config r));
           ("effectd_config_path", to_value (er_effectd_config_path r));
           ("effectd_unit_drop_in", to_value (er_effectd_unit_drop_in r));
           ("effectd_unit_drop_in_path", to_value (er_effectd_unit_drop_in_path r));
           ("receipt_path", to_value (er_receipt_path r))].
#[global] Instance ManagedPointerExecutionContextV1_serialize : Serialize ManagedPointerExecutionContextV1 := fun c =>
  VObject [("proposal", to_value (xc_proposal c)); ("authorization", to_value (xc_authorization c));
           ("attempt", to_value (xc_attempt c)); ("effect_index", to_value (xc_effect_index c))].
#[global] Instance ManagedPointerPromotionStandingReceiptV1_serialize
    : Serialize ManagedPointerPromotionStandingReceiptV1 := fun r =>
  VObject [("schema", to_value (sr_receipt_schema r)); ("proposal", to_value (sr_proposal r));
           ("authorization", to_value (sr_authorization r));
           ("candidate_ratification", to_value (sr_candidate_ratification r)); ("candidate", to_value (sr_candidate r));
           ("exact_basis", to_value (sr_exact_basis r)); ("current_basis", to_value (sr_current_basis r));
           ("issued_at_unix_ms", to_value (sr_issued_at_unix_ms r));
           ("expires_at_unix_ms", to_value (sr_expires_at_unix_ms r)); ("nonce", to_value (sr_nonce r))].
#[global] Instance ImportedPackEvidenceV1_serialize : Serialize ImportedPackEvidenceV1 := fun i =>
  VObject [("schema", to_value (ip_schema i)); ("pack_checksum", to_value (ip_pack_checksum i));
           ("candidate_pack_digest", to_value (ip_candidate_pack_digest i));
           ("pack_file_digest", to_value (ip_pack_file_digest i)); ("pack_file_size", to_value (ip_pack_file_size i));
           ("index_file_digest", to_value (ip_index_file_digest i)); ("index_file_size", to_value (ip_index_file_size i));
           ("target_uid", to_value (ip_target_uid i)); ("target_gid", to_value (ip_target_gid i));
           ("pack_fsynced", to_value (ip_pack_fsynced i)); ("index_fsynced", to_value (ip_index_fsynced i));
           ("object_directories_fsynced", to_value (ip_object_directories_fsynced i))].
#[global] Instance ManagedPointerPreparationEvidenceV1_serialize : Serialize ManagedPointerPreparationEvidenceV1 := fun e =>
  VObject [("schema", to_value (pe_schema e)); ("execution", to_value (pe_execution e));
           ("operation_id", to_value (pe_operation_id e)); ("prepared_candidate", to_value (pe_prepared_candidate e));
           ("candidate_ratification", to_value (pe_candidate_ratification e));
           ("promotion_standing", to_value (pe_promotion_standing e)); ("artifact", to_value (pe_artifact e));
           ("candidate_pack", to_value (pe_candidate_pack e));
           ("imported_pack_checksum", to_value (pe_imported_pack_checksum e));
           ("object_import_evidence", to_value (pe_object_import_evidence e));
           ("imported_pack_evidence", to_value (pe_imported_pack_evidence e));
           ("repository_identity", to_value (pe_repository_identity e));
           ("repository_layout", to_value (pe_repository_layout e)); ("prestate", to_value (pe_prestate e));
           ("expected_object", to_value (pe_expected_object e)); ("expected_tree", to_value (pe_expected_tree e));
           ("new_object", to_value (pe_new_object e)); ("expected_post_tree", to_value (pe_expected_post_tree e))].
#[global] Instance ManagedPointerCommitEvidenceV1_serialize : Serialize ManagedPointerCommitEvidenceV1 := fun e =>
  VObject [("schema", to_value (ce_schema e)); ("execution", to_value (ce_execution e));
           ("preparation_checkpoint", to_value (ce_preparation_checkpoint e)); ("operation_id", to_value (ce_operation_id e));
           ("request_digest", to_value (ce_request_digest e)); ("previous_object", to_value (ce_previous_object e));
           ("previous_tree", to_value (ce_previous_tree e)); ("installed_object", to_value (ce_installed_object e));
           ("installed_tree", to_value (ce_installed_tree e)); ("reference_fsynced", to_value (ce_reference_fsynced e))].
#[global] Instance ManagedPointerPoststateEvidenceV1_serialize : Serialize ManagedPointerPoststateEvidenceV1 := fun e =>
  VObject [("schema", to_value (ve_schema e)); ("execution", to_value (ve_execution e));
           ("preparation_checkpoint", to_value (ve_preparation_checkpoint e));
           ("repository_layout", to_value (ve_repository_layout e)); ("state", to_value (ve_state e))].
#[global] Instance ManagedPointerActivationReceiptV1_serialize : Serialize ManagedPointerActivationReceiptV1 := fun r =>
  VObject [("schema", to_value (ar_schema r)); ("effect", to_value (ar_effect r)); ("execution", to_value (ar_execution r));
           ("target", to_value (ar_target r)); ("reference", to_value (ar_reference r));
           ("operation_id", to_value (ar_operation_id r)); ("prepared_candidate", to_value (ar_prepared_candidate r));
           ("candidate_ratification", to_value (ar_candidate_ratification r)); ("exact_basis", to_value (ar_exact_basis r));
           ("artifact", to_value (ar_artifact r)); ("candidate_pack", to_value (ar_candidate_pack r));
           ("preparation_checkpoint", to_value (ar_preparation_checkpoint r));
           ("repository_identity", to_value (ar_repository_identity r)); ("previous_object", to_value (ar_previous_object r));
           ("previous_tree", to_value (ar_previous_tree r)); ("installed_object", to_value (ar_installed_object r));
           ("installed_tree", to_value (ar_installed_tree r)); ("commit", to_value (ar_commit r));
           ("poststate", to_value (ar_poststate r))].

(** ** Checks *)

(** [utf8_path] and [normalized_absolute_path]. *)
Definition utf8_path (path : string) : res ManagedPointerError string :=
  if utf8_valid (str_bytes path) then Ok path else Err PointerBindingMismatch.
Definition normalized_absolute_path (path : string) : bool :=
  is_absolute path && path_eq (collect_components (components path)) path
  && negb (existsb (fun c => match c with CurDir | ParentDir => true | _ => false end) (components path)).
(** [validate_production_staging_custody]. *)
Definition validate_production_staging_custody (is_directory : bool) (uid gid mode : Z) : res ManagedPointerError unit :=
  reject_if (negb is_directory || negb (uid =? 0)%Z || negb (gid =? 0)%Z || negb (Z.land mode 4095 =? 448)%Z)
    (UnsafeRepository "production staging root is not exact root-owned mode 0700 custody").
(** [CanonicalPointerFieldsV1::from_effect]. *)
Definition from_effect (e : CanonicalEffectV1) : res ManagedPointerError PromotionEffect :=
  match e with EffManagedPointerPromotion p => Ok p | _ => Err TargetUnavailable end.
Definition bad_node (n : ManagedFilesystemNodeEvidenceV1) : bool := (ne_inode n =? 0)%Z || (ne_link_count n =? 0)%Z.

Section Checks.
  Context `{Deps}.

Definition pointer_digest `{Serialize T} (x : T) : res ManagedPointerError Digest :=
  map_err PointerCanonical (from_serializable x).
(** [managed_pointer_launch_profile_identity]. *)
Definition launch_profile_value (security_profile_identity git_executable : Digest) : Value :=
  VObject [("schema", VString MANAGED_POINTER_LAUNCH_PROFILE_SCHEMA_V2);
    ("security_profile_identity", to_value security_profile_identity); ("git_executable", to_value git_executable);
    ("executable_transport", VString "sealed-memfd-proc-self-fd");
    ("source_custody", VString "root-owned-single-link-no-special-bits-no-security-capability");
    ("privilege_floor", VString "no-new-privileges-asserted-before-spawn");
    ("environment", to_value ["LC_ALL=C"; "HOME=/nonexistent"; "GIT_CONFIG_NOSYSTEM=1"; "GIT_CONFIG_GLOBAL=/dev/null";
       "GIT_ATTR_NOSYSTEM=1"; "GIT_TERMINAL_PROMPT=0"; "GIT_OPTIONAL_LOCKS=0"; "GIT_NO_REPLACE_OBJECTS=1";
       "GIT_LITERAL_PATHSPECS=1"; "GIT_PROTOCOL_FROM_USER=0"; "GIT_ALLOW_PROTOCOL="; "GIT_EXEC_PATH=/dev/null";
       "GIT_ASKPASS=/dev/null"; "SSH_ASKPASS=/dev/null"]);
    ("operations", to_value ["init"; "index-pack"; "cat-file"; "rev-parse"; "rev-list"; "ls-tree"; "fsck"; "diff-index";
       "diff-files"; "ls-files"; "update-ref"]);
    ("fixed_config", to_value ["core.hooksPath=/dev/null"; "core.fsmonitor=false"; "gc.auto=0"; "maintenance.auto=false";
       "core.fsync=reference"; "core.sharedRepository=0600"; "pack.writeReverseIndex=false";
       "core.logAllRefUpdates=false"; "protocol.allow=never"]);
    ("candidate_ref", VString BUNDLE_CANDIDATE_REF); ("bundle_version", VNumber 2); ("pack_version", VNumber 2);
    ("network", VString "forbidden"); ("credentials", VString "none");
    ("descriptor_inheritance", VString "close-range-cloexec-then-exact-admitted-fds");
    ("mutation_confinement", VString "landlock-abi-3-descriptor-rooted-write-set");
    ("null_device_custody", VString "exact-root-owned-char-1-3-mode-0666-write-only-landlock-rule");
    ("object_durability", VString "descriptor-fsync-pack-index-packdir-objectsdir");
    ("boundary", VString "durable-unreachable-object-import-then-single-update-ref-cas")].
Definition managed_pointer_launch_profile_identity (security_profile_identity git_executable : Digest)
    : res ManagedPointerError Digest := pointer_digest (launch_profile_value security_profile_identity git_executable).

(** [ManagedPointerGenesisContextV1::validate]. *)
Definition genesis_context_validate (c : ManagedPointerGenesisContextV1) : res ManagedPointerError unit :=
  reject_if (negb (is_ok (identifier_new AuthorityDomainId_k (gx_authority_domain c)))
             || negb (is_ok (EpochId_parse (gx_epoch c)))
             || negb (normalized_absolute_path (gx_effectd_database c))
             || negb (normalized_absolute_path (gx_effectd_object_store c))) GenesisMeasurementInvalid ;?
  Ok tt.
(** [ManagedPointerGenesisRequestV1::validate] and [::identity]. *)
Definition genesis_request_validate (r : ManagedPointerGenesisRequestV1) : res ManagedPointerError unit :=
  reject_if (gr_schema r != MANAGED_POINTER_GENESIS_REQUEST_SCHEMA_V1) GenesisMeasurementInvalid ;?
  map_err (fun _ => GenesisMeasurementInvalid) (validate_security_profile (gr_security_profile r)) ;?
  map_err (fun _ => GenesisMeasurementInvalid)
    (validate_managed_pointer_enrollment_inputs (gr_target r) (gr_allowed_root r) (gr_repository r) (gr_reference r)
       (gr_uid r) (gr_gid r) (gr_staging_root r) (gr_promotion_ttl_ms r) (gr_helper r)).
Definition genesis_request_identity (r : ManagedPointerGenesisRequestV1) : res ManagedPointerError Digest :=
  genesis_request_validate r ;? pointer_digest r.
(** [ManagedRepositoryStateEvidenceV1::identity]. *)
Definition state_identity (s : ManagedRepositoryStateEvidenceV1) : res ManagedPointerError Digest := pointer_digest s.
(** [ManagedRepositoryIdentityEvidenceV1::identity]. *)
Definition repository_evidence_identity (r : ManagedRepositoryIdentityEvidenceV1) : res ManagedPointerError Digest :=
  reject_if ((ri_schema r != MANAGED_REPOSITORY_IDENTITY_SCHEMA_V1)
             || negb (ne_device (ri_repository_node r) =? ri_repository_device r)%Z
             || negb (ne_inode (ri_repository_node r) =? ri_repository_inode r)%Z
             || negb (ne_device (ri_git_directory_node r) =? ri_git_directory_device r)%Z
             || negb (ne_inode (ri_git_directory_node r) =? ri_git_directory_inode r)%Z
             || negb (ne_uid (ri_repository_node r) =? ri_uid r)%Z
             || negb (ne_gid (ri_repository_node r) =? ri_gid r)%Z
             || (length (ri_reference_ancestry r) =? 0)
             || existsb bad_node [ri_allowed_root_node r; ri_repository_node r; ri_git_directory_node r; ri_config_node r;
                                  ri_objects_node r; ri_pack_directory_node r]) PointerBindingMismatch ;?
  pointer_digest r.

(** [Digest::hash_domain("ag-security-profile-identity-v1", profile)]. *)
Definition security_profile_identity (profile : string) : Digest :=
  hash_domain "ag-security-profile-identity-v1" (str_bytes profile).

(** [ManagedPointerGenesisMeasurementV1::verify] and [::identity]. *)
Definition measurement_verify (m : ManagedPointerGenesisMeasurementV1) : res ManagedPointerError unit :=
  genesis_context_validate (gm_context m) ;?
  genesis_request_validate (gm_request m) ;?
  let? request_identity := genesis_request_identity (gm_request m) in
  let profile := security_profile_identity (gr_security_profile (gm_request m)) in
  let? helper_launch_profile := managed_pointer_launch_profile_identity profile (gm_helper_executable m) in
  let? repository_identity := repository_evidence_identity (gm_repository_layout m) in
  let? state_identity := state_identity (gm_state m) in
  let shallow :=
    (gm_schema m != MANAGED_POINTER_GENESIS_MEASUREMENT_SCHEMA_V1)
    || (gm_request_identity m != request_identity)
    || (gm_security_profile_identity m != profile)
    || (gm_helper_launch_profile m != helper_launch_profile)
    || (gm_repository_identity m != repository_identity)
    || (rs_repository_identity (gm_state m) != repository_identity)
    || (gm_activation_genesis_state m != state_identity)
    || (gm_activation_genesis_object m != rs_current_object (gm_state m))
    || (gm_activation_genesis_tree m != rs_current_tree (gm_state m))
    || negb (rs_clean (gm_state m))
    || rs_reference_checked_out (gm_state m) in
  if shallow then Err GenesisMeasurementInvalid
  else
    let? allowed_root := utf8_path (gr_allowed_root (gm_request m)) in
    if ri_allowed_root (gm_repository_layout m) != allowed_root then Err GenesisMeasurementInvalid
    else
      let? repository := utf8_path (gr_repository (gm_request m)) in
      reject_if ((ri_repository (gm_repository_layout m) != repository)
                 || negb (ri_uid (gm_repository_layout m) =? gr_uid (gm_request m))%Z
                 || negb (ri_gid (gm_repository_layout m) =? gr_gid (gm_request m))%Z
                 || (ne_name (rs_reference (gm_state m)) != gr_reference (gm_request m))
                 || negb (ne_uid (rs_reference (gm_state m)) =? gr_uid (gm_request m))%Z
                 || negb (ne_gid (rs_reference (gm_state m)) =? gr_gid (gm_request m))%Z
                 || (ne_name (gm_staging_root_node m) != "staging-root")
                 || (ne_inode (gm_staging_root_node m) =? 0)%Z
                 || (ne_link_count (gm_staging_root_node m) =? 0)%Z) GenesisMeasurementInvalid ;?
      Ok tt.
Definition measurement_identity (m : ManagedPointerGenesisMeasurementV1) : res ManagedPointerError Digest :=
  measurement_verify m ;? pointer_digest m.

(** [ManagedPointerGenesisEnrollmentReceiptV1::verify] and [::identity]. *)
Definition enrollment_verify (r : ManagedPointerGenesisEnrollmentReceiptV1) (reviewed : ManagedPointerGenesisMeasurementV1)
    : res ManagedPointerError unit :=
  measurement_verify reviewed ;?
  if (er_schema r != MANAGED_POINTER_GENESIS_ENROLLMENT_RECEIPT_SCHEMA_V1)
     || (er_authority_domain r != gx_authority_domain (gm_context reviewed))
     || (er_epoch r != gx_epoch (gm_context reviewed))
     || (er_target r != gr_target (gm_request reviewed))
  then Err GenesisMeasurementInvalid
  else
    let? identity := measurement_identity reviewed in
    reject_if ((er_measurement r != identity)
               || (er_activation_genesis_object r != gm_activation_genesis_object reviewed)
               || (er_activation_genesis_tree r != gm_activation_genesis_tree reviewed)
               || (er_activation_genesis_state r != gm_activation_genesis_state reviewed)
               || (er_repository_identity r != gm_repository_identity reviewed)
               || negb (normalized_absolute_path (er_effectd_config_path r))
               || negb (normalized_absolute_path (er_effectd_unit_drop_in_path r))
               || negb (normalized_absolute_path (er_receipt_path r))
               || (er_effectd_config_path r == er_effectd_unit_drop_in_path r)
               || (er_effectd_config_path r == er_receipt_path r)
               || (er_effectd_unit_drop_in_path r == er_receipt_path r)) GenesisMeasurementInvalid ;?
    Ok tt.
Definition enrollment_identity (r : ManagedPointerGenesisEnrollmentReceiptV1) (reviewed : ManagedPointerGenesisMeasurementV1)
    : res ManagedPointerError Digest := enrollment_verify r reviewed ;? pointer_digest r.

(** [ManagedPointerPromotionStandingReceiptV1::identity]. *)
Definition promotion_standing_identity (r : ManagedPointerPromotionStandingReceiptV1) : res ManagedPointerError Digest :=
  reject_if ((sr_receipt_schema r != MANAGED_POINTER_PROMOTION_STANDING_RECEIPT_SCHEMA_V1)
             || (sr_nonce r == EmptyString)
             || (sr_expires_at_unix_ms r <=? sr_issued_at_unix_ms r)%Z
             || (sr_exact_basis r != sr_current_basis r)) PromotionStandingMismatch ;?
  pointer_digest r.
(** [ManagedPointerPreparationEvidenceV1::checkpoint]. *)
Definition preparation_checkpoint (e : ManagedPointerPreparationEvidenceV1) : res ManagedPointerError Digest :=
  reject_if (pe_schema e != MANAGED_POINTER_PREPARATION_SCHEMA_V2) PointerBindingMismatch ;? pointer_digest e.

(** The tuple of the commit request. *)
Definition commit_request (execution : ManagedPointerExecutionContextV1) (checkpoint : Digest) (effect : CanonicalEffectV1) : Value :=
  VArray [VString "ag.managed-pointer.commit-request/v1"; to_value execution; to_value checkpoint; to_value effect].
(** The comparison of [ManagedPointerActivationReceiptV1::verify], up to and after the layout's identity. *)
Definition activation_bindings_refused (a : ManagedPointerActivationReceiptV1) (fields : PromotionEffect)
    (effect_identity expected_request : Digest) : bool :=
  (ar_schema a != MANAGED_POINTER_ACTIVATION_RECEIPT_SCHEMA_V1)
  || (ar_effect a != effect_identity)
  || (ar_target a != pp_target fields)
  || (ar_reference a != pp_reference fields)
  || (ar_operation_id a != pp_operation_id fields)
  || (ar_prepared_candidate a != pp_prepared_candidate fields)
  || (ar_exact_basis a != pp_exact_basis fields)
  || (ar_artifact a != pp_artifact fields)
  || (ar_candidate_pack a != pp_candidate_pack_digest fields)
  || (ar_repository_identity a != pp_repository_identity fields)
  || (ar_previous_object a != pp_expected_object fields)
  || (ar_previous_tree a != pp_expected_tree fields)
  || (ar_installed_object a != pp_new_object fields)
  || (ar_installed_tree a != pp_expected_post_tree fields)
  || (ce_execution (ar_commit a) != ar_execution a)
  || (ve_execution (ar_poststate a) != ar_execution a)
  || (ce_schema (ar_commit a) != MANAGED_POINTER_COMMIT_EVIDENCE_SCHEMA_V1)
  || (ve_schema (ar_poststate a) != MANAGED_POINTER_POSTSTATE_EVIDENCE_SCHEMA_V1)
  || (rs_schema (ve_state (ar_poststate a)) != MANAGED_REPOSITORY_STATE_SCHEMA_V1)
  || (ce_operation_id (ar_commit a) != ar_operation_id a)
  || (ce_request_digest (ar_commit a) != expected_request)
  || (ce_preparation_checkpoint (ar_commit a) != ar_preparation_checkpoint a)
  || (ve_preparation_checkpoint (ar_poststate a) != ar_preparation_checkpoint a)
  || (ce_previous_object (ar_commit a) != ar_previous_object a)
  || (ce_previous_tree (ar_commit a) != ar_previous_tree a)
  || (ce_installed_object (ar_commit a) != ar_installed_object a)
  || (ce_installed_tree (ar_commit a) != ar_installed_tree a)
  || negb (ce_reference_fsynced (ar_commit a)).
Definition activation_poststate_refused (a : ManagedPointerActivationReceiptV1) (fields : PromotionEffect) (layout : Digest) : bool :=
  let state := ve_state (ar_poststate a) in
  (layout != ar_repository_identity a)
  || (rs_repository_identity state != ar_repository_identity a)
  || (rs_current_object state != ar_installed_object a)
  || (rs_current_tree state != ar_installed_tree a)
  || (ne_name (rs_reference state) != pp_reference fields)
  || negb (ne_uid (rs_reference state) =? pp_uid fields)%Z
  || negb (ne_gid (rs_reference state) =? pp_gid fields)%Z
  || negb (ne_link_count (rs_reference state) =? 1)%Z
  || negb (is_file (ne_mode (rs_reference state)))
  || negb (Z.land (ne_mode (rs_reference state)) 18 =? 0)%Z
  || negb (rs_clean state)
  || rs_reference_checked_out state.
(** [ManagedPointerActivationReceiptV1::verify] and [::identity]. *)
Definition activation_verify (a : ManagedPointerActivationReceiptV1) (effect : CanonicalEffectV1) : res ManagedPointerError unit :=
  let? fields := from_effect effect in
  let? effect_identity := pointer_digest effect in
  let? expected_request := pointer_digest (commit_request (ar_execution a) (ar_preparation_checkpoint a) effect) in
  reject_if (activation_bindings_refused a fields effect_identity expected_request) PointerBindingMismatch ;?
  let? layout := repository_evidence_identity (ve_repository_layout (ar_poststate a)) in
  reject_if (activation_poststate_refused a fields layout) PointerBindingMismatch ;?
  Ok tt.
Definition activation_identity (a : ManagedPointerActivationReceiptV1) (effect : CanonicalEffectV1) : res ManagedPointerError Digest :=
  activation_verify a effect ;? pointer_digest a.

(** [require_preparation_standing]. *)
Definition require_preparation_standing (standing : option ManagedPointerPreparationStandingV1)
    : res ManagedPointerError ManagedPointerPreparationStandingV1 := ok_or PreparationStandingAbsent standing.

End Checks.
