(* ===== verification/PointerText.v ===== *)
(** * Managed pointers: what the runtime reads (ag-app/src/managed_pointer.rs)

    The bounded capture of Git's output, the diagnostic kept from it, the
    parsers of object names, pack checksums and object formats, the strict
    candidate bundle, and the closed repository configuration. *)

From S2P Require Import Prelude Wire Fixture Digest Names Origin Identity Protocol Paths Effect Compile HostFiles Config Pointer.

Definition BUNDLE_MAGIC_V2 : bytes := str_bytes ("# v2 git bundle" +:+ String (ascii_of_N 10) EmptyString).
Definition PACK_MAGIC : bytes := str_bytes "PACK".
Definition PACK_VERSION_V2 : Z := 2.
Definition MAX_PACK_OBJECTS : Z := 1000000.
Definition MAX_GIT_OUTPUT_BYTES : Z := 8 * 1024 * 1024.
Definition MAX_REPOSITORY_CONFIG_BYTES : Z := 1024 * 1024.
Definition MAX_GIT_EXECUTABLE_BYTES : Z := 64 * 1024 * 1024.
Definition GIT_COMMAND_TIMEOUT_MS : Z := 30000.

Definition bytes_str (b : bytes) : string := String.string_of_list_byte b.
Definition NEWLINE : byte := Byte.x0a.
Definition bytes_start_with (b p : bytes) : bool := take (length p) b == p.
Definition bytes_end_with (b p : bytes) : bool := (length p <=? length b) && (drop (length b - length p) b == p).
(** [slice::split] and [str::split] at one byte or character. *)
Fixpoint split_at {A} (sep : A -> bool) (l : list A) : list (list A) :=
  match l with
  | [] => [[]]
  | x :: r =>
      if sep x then [] :: split_at sep r
      else match split_at sep r with
           | field :: rest => (x :: field) :: rest
           | [] => [[x]]
           end
  end.
Fixpoint take_while {A} (p : A -> bool) (l : list A) : list A :=
  match l with [] => [] | x :: r => if p x then x :: take_while p r else [] end.
Fixpoint drop_while {A} (p : A -> bool) (l : list A) : list A :=
  match l with [] => [] | x :: r => if p x then drop_while p r else l end.

(** ** Characters *)

Definition REPLACEMENT : Z := 65533.
Definition second_ok (a b : byte) : bool :=
  if (byte_val a =? 224)%Z then in_range 160 191 b
  else if (byte_val a =? 237)%Z then in_range 128 159 b
  else if (byte_val a =? 240)%Z then in_range 144 191 b
  else if (byte_val a =? 244)%Z then in_range 128 143 b
  else continuation b.
Definition low (b : byte) : Z := Z.land (byte_val b) 63.
(** The characters of [String::from_utf8_lossy]; of a valid text, its characters. *)
Fixpoint chars (l : bytes) : list Z :=
  match l with
  | [] => []
  | a :: r =>
      if in_range 0 127 a then byte_val a :: chars r
      else if in_range 194 223 a then
        match r with
        | b :: r2 => if continuation b then (Z.land (byte_val a) 31 * 64 + low b)%Z :: chars r2 else REPLACEMENT :: chars r
        | [] => [REPLACEMENT]
        end
      else if in_range 224 239 a then
        match r with
        | b :: r2 =>
            if second_ok a b then
              match r2 with
              | c :: r3 =>
                  if continuation c then ((Z.land (byte_val a) 15 * 64 + low b) * 64 + low c)%Z :: chars r3
                  else REPLACEMENT :: chars r2
              | [] => [REPLACEMENT]
              end
            else REPLACEMENT :: chars r
        | [] => [REPLACEMENT]
        end
      else if in_range 240 244 a then
        match r with
        | b :: r2 =>
            if second_ok a b then
              match r2 with
              | c :: r3 =>
                  if continuation c then
                    match r3 with
                    | d :: r4 =>
                        if continuation d
                        then (((Z.land (byte_val a) 7 * 64 + low b) * 64 + low c) * 64 + low d)%Z :: chars r4
                        else REPLACEMENT :: chars r3
                    | [] => [REPLACEMENT]
                    end
                  else REPLACEMENT :: chars r2
              | [] => [REPLACEMENT]
              end
            else REPLACEMENT :: chars r
        | [] => [REPLACEMENT]
        end
      else REPLACEMENT :: chars r
  end.
(** [char::encode_utf8]. *)
Definition encode_char (c : Z) : bytes :=
  map byte_of
    (if (c <? 128)%Z then [c]
     else if (c <? 2048)%Z then [192 + c / 64; 128 + c mod 64]
     else if (c <? 65536)%Z then [224 + c / 4096; 128 + c / 64 mod 64; 128 + c mod 64]
     else [240 + c / 262144; 128 + c / 4096 mod 64; 128 + c / 64 mod 64; 128 + c mod 64])%Z.
Definition encode_chars (l : list Z) : string := bytes_str (flat_map encode_char l).
(** [char::is_control], [char::is_whitespace], [char::is_ascii_whitespace]. *)
Definition is_control (c : Z) : bool := (c <=? 31)%Z || ((127 <=? c)%Z && (c <=? 159)%Z).
Definition is_whitespace (c : Z) : bool :=
  ((9 <=? c)%Z && (c <=? 13)%Z) || ((8192 <=? c)%Z && (c <=? 8202)%Z)
  || existsb (Z.eqb c) [32; 133; 160; 5760; 8232; 8233; 8239; 8287; 12288]%Z.
Definition is_ascii_space (c : Z) : bool := existsb (Z.eqb c) [9; 10; 12; 13; 32]%Z.
Definition trim_start (l : list Z) : list Z := drop_while is_whitespace l.
Definition trim (l : list Z) : list Z := rev (trim_start (rev (trim_start l))).
Definition lower (c : Z) : Z := if ((65 <=? c) && (c <=? 90))%Z then (c + 32)%Z else c.
Definition char_list (s : string) : list Z := map byte_val (str_bytes s).
(** [str::eq_ignore_ascii_case] with an ASCII word. *)
Definition is_word (l : list Z) (word : string) : bool := map lower l == char_list word.

(** [sanitized_git_diagnostic]. *)
Definition sanitized_git_diagnostic (b : bytes) : string :=
  encode_chars (take 512 (trim (map (fun c => if is_control c then 32%Z else c) (chars b)))).

(** ** Bounded output *)

Definition TRUNCATED_MARKER : bytes := NEWLINE :: str_bytes "[ag-output-truncated]".
(** One turn of the loop of [read_bounded_output], after a read of a non-empty [chunk]. *)
Definition retain (retained chunk : bytes) : bytes :=
  let size (b : bytes) := Z.of_nat (length b) in
  let retained :=
    if (size retained <? MAX_GIT_OUTPUT_BYTES)%Z
    then retained ++ take (Z.to_nat (Z.min (size chunk) (MAX_GIT_OUTPUT_BYTES - size retained))) chunk
    else retained in
  if (size retained =? MAX_GIT_OUTPUT_BYTES)%Z && (0 <? size chunk)%Z then
    if bytes_end_with retained TRUNCATED_MARKER then retained
    else take (length retained - length TRUNCATED_MARKER) retained ++ TRUNCATED_MARKER
  else retained.
(** The loop over what each read returned; an empty read ends it. *)
Fixpoint read_bounded_loop (retained : bytes) (reads : list bytes) : bytes :=
  match reads with
  | [] | [] :: _ => retained
  | chunk :: rest => read_bounded_loop (retain retained chunk) rest
  end.
Definition read_bounded_output (reads : list bytes) : bytes := read_bounded_loop [] reads.

(** ** Parsers of Git's answers *)

Definition strip_newline (b : bytes) : option bytes :=
  match last b with Some c => if c == NEWLINE then Some (removelast b) else None | None => None end.
Definition canonical_hex (value : bytes) (format : GitObjectFormatV1) : bool :=
  (length value =? object_name_length format) && str_all is_object_char (bytes_str value).

Definition canonical_object_output (output : bytes) (format : GitObjectFormatV1) : res ManagedPointerError string :=
  reject_if (negb (utf8_valid output)) (PointerPrestateDrift "object output is not UTF-8") ;?
  let? value := ok_or (PointerPrestateDrift "object output is not newline-terminated") (strip_newline output) in
  reject_if (negb (canonical_hex value format)) (PointerPrestateDrift "object output is not canonical") ;?
  Ok (bytes_str value).
Definition parse_index_pack_output (output : bytes) (format : GitObjectFormatV1) : res ManagedPointerError string :=
  reject_if (negb (utf8_valid output)) (GitFailed "index-pack" "index-pack output is not UTF-8") ;?
  let? text := ok_or (GitFailed "index-pack" "index-pack output has the wrong framing")
                 (match strip_newline output with
                  | Some line => if bytes_start_with line (str_bytes "pack" ++ [Byte.x09]) then Some (drop 5 line) else None
                  | None => None
                  end) in
  reject_if (negb (canonical_hex text format)) (GitFailed "index-pack" "index-pack checksum is not canonical") ;?
  Ok (bytes_str text).
Definition parse_object_format (output : bytes) : res ManagedPointerError GitObjectFormatV1 :=
  if output == str_bytes "sha1" ++ [NEWLINE] then Ok Sha1
  else if output == str_bytes "sha256" ++ [NEWLINE] then Ok Sha256
  else Err (UnsafeRepository "Git returned an unsupported object format").
Definition object_format_name (format : GitObjectFormatV1) : string := match format with Sha1 => "sha1" | Sha256 => "sha256" end.
(** [exit_is_clean_or_dirty]; [None] is a child that a signal ended. *)
Definition exit_is_clean_or_dirty (status : option Z) : res ManagedPointerError bool :=
  match status with
  | Some 0%Z => Ok true
  | Some 1%Z => Ok false
  | _ => Err (GitFailed "dirty-check" "Git returned an operational dirty-check failure")
  end.
(** The search for gitlinks in the output of [ls-tree -r -z]. *)
Definition lists_gitlink (tree_entries : bytes) : bool :=
  existsb (fun entry => bytes_start_with entry (str_bytes "160000 ")) (split_at (fun b => b == Byte.x00) tree_entries).

(** ** The candidate bundle *)

Record StrictBundleV1 : Type := mkBundle {
  sb_candidate : string;
  sb_object_format : GitObjectFormatV1;
  sb_pack : bytes;
  sb_pack_digest : Digest
}.
(** [header.windows(2).position(|window| window == b"\n\n")]. *)
Fixpoint blank_line (l : bytes) : option nat :=
  match l with
  | a :: ((b :: _) as r) =>
      if (a == NEWLINE) && (b == NEWLINE) then Some 0 else option_map S (blank_line r)
  | _ => None
  end.
(** [str::split_once] on the text of bytes. *)
Fixpoint split_once (sep : byte) (l : bytes) : option (bytes * bytes) :=
  match l with
  | [] => None
  | b :: r => if b == sep then Some ([], r) else option_map (fun '(x, y) => (b :: x, y)) (split_once sep r)
  end.

Section Bundle.
  Context `{Deps}.

Definition parse_strict_bundle (b : bytes) : res ManagedPointerError StrictBundleV1 :=
  reject_if (negb (bytes_start_with b BUNDLE_MAGIC_V2)) (InvalidBundle "bundle v2 magic is absent") ;?
  let header := drop (length BUNDLE_MAGIC_V2) b in
  let? end_ := ok_or (InvalidBundle "header is not terminated") (blank_line header) in
  let header_line := take end_ header in
  reject_if ((header_line == []) || existsb (fun c => c == Byte.x0d) header_line || existsb (fun c => c == NEWLINE) header_line
             || bytes_start_with header_line (str_bytes "-") || bytes_start_with header_line (str_bytes "@"))
    (InvalidBundle "bundle must advertise one tip and no prerequisites or capabilities") ;?
  reject_if (negb (utf8_valid header_line)) (InvalidBundle "header is not UTF-8") ;?
  let? (candidate, reference) := ok_or (InvalidBundle "advertisement is malformed") (split_once Byte.x20 header_line) in
  reject_if (reference != str_bytes BUNDLE_CANDIDATE_REF) (InvalidBundle "candidate advertisement has the wrong ref") ;?
  let? object_format := (if length candidate =? 40 then Ok Sha1 else if length candidate =? 64 then Ok Sha256
                         else Err (InvalidBundle "candidate object has the wrong width")) in
  reject_if (negb (str_all is_object_char (bytes_str candidate)))
    (InvalidBundle "candidate object is not canonical lowercase hex") ;?
  let pack := drop (length BUNDLE_MAGIC_V2 + end_ + 2) b in
  reject_if ((length pack <? 12) || (take 4 pack != PACK_MAGIC)) (InvalidBundle "self-contained PACK is absent") ;?
  let pack_version := be_value (take 4 (drop 4 pack)) in
  let object_count := be_value (take 4 (drop 8 pack)) in
  reject_if (negb (pack_version =? PACK_VERSION_V2)%Z || (object_count =? 0)%Z || (MAX_PACK_OBJECTS <? object_count)%Z)
    (InvalidBundle "PACK version or object count is outside policy") ;?
  Ok (mkBundle (bytes_str candidate) object_format pack (hash_bytes pack)).

End Bundle.

(** ** The closed repository configuration *)

(** [str::lines]. *)
Definition strip_return (l : list Z) : list Z :=
  match last l with Some 13%Z => removelast l | _ => l end.
Fixpoint lines_from (line : list Z) (l : list Z) : list (list Z) :=
  match l with
  | [] => match line with [] => [] | _ => [line] end
  | c :: r => if (c =? 10)%Z then strip_return line :: lines_from [] r else lines_from (line ++ [c]) r
  end.
Definition lines (l : list Z) : list (list Z) := lines_from [] l.
Definition starts_with_char (c : Z) (l : list Z) : bool := match l with d :: _ => (c =? d)%Z | [] => false end.
Definition comment_or_empty (l : list Z) : bool :=
  match l with [] => true | _ => starts_with_char 35 l || starts_with_char 59 l end.
(** [header.find(']')], as what precedes it and what follows it. *)
Fixpoint split_closing (l : list Z) : option (list Z * list Z) :=
  match l with
  | [] => None
  | c :: r => if (c =? 93)%Z then Some ([], r) else option_map (fun '(x, y) => (c :: x, y)) (split_closing r)
  end.
Definition section_name (header : list Z) : list Z :=
  take_while (fun c => negb (c =? 46)%Z) (take_while (fun c => negb (is_ascii_space c || (c =? 34)%Z)) header).
Definition config_key (line : list Z) : list Z := take_while (fun c => negb ((c =? 61)%Z || is_ascii_space c)) line.

(** A line that opens a section, without its bracket: whether that is [extensions]. *)
Definition validate_section (header : list Z) : res ManagedPointerError bool :=
  let? (inside, after) := ok_or (UnsafeRepository "repository config section is malformed") (split_closing header) in
  reject_if (negb (comment_or_empty (trim_start after)))
    (UnsafeRepository "repository config section has trailing syntax") ;?
  let name := section_name inside in
  reject_if (is_word name "include" || is_word name "includeif")
    (UnsafeRepository "repository config includes external configuration") ;?
  reject_if (is_word name "filter")
    (UnsafeRepository "repository config declares a command-bearing content filter") ;?
  Ok (is_word name "extensions").
Definition validate_key (extensions : bool) (line : list Z) : res ManagedPointerError unit :=
  let key := config_key line in
  reject_if (key == []) (UnsafeRepository "repository config key is malformed") ;?
  reject_if (extensions && negb (is_word key "objectformat"))
    (UnsafeRepository ("repository extension " +:+ encode_chars key
                       +:+ " is outside the closed configuration contract")).
(** The loop over the lines; [extensions] says that the section is [extensions]. *)
Fixpoint validate_lines (extensions : bool) (l : list (list Z)) : res ManagedPointerError unit :=
  match l with
  | [] => Ok tt
  | line :: rest =>
      reject_if (existsb (fun c => is_control c && negb (c =? 9)%Z) line)
        (UnsafeRepository "repository config contains control bytes") ;?
      let line := trim line in
      if comment_or_empty line then validate_lines extensions rest
      else if starts_with_char 91 line then
        let? opened := validate_section (tail line) in validate_lines opened rest
      else validate_key extensions line ;? validate_lines extensions rest
  end.
Definition validate_closed_repository_config (b : bytes) : res ManagedPointerError unit :=
  reject_if (negb (utf8_valid b)) (UnsafeRepository "repository config is not UTF-8") ;?
  validate_lines false (lines (chars b)).

(** ** Bounded output *)

(** What is kept of a whole output. *)
Definition bounded (all : bytes) : bytes :=
  if (Z.of_nat (length all) <? MAX_GIT_OUTPUT_BYTES)%Z then all
  else take (Z.to_nat MAX_GIT_OUTPUT_BYTES - length TRUNCATED_MARKER) all ++ TRUNCATED_MARKER.

Lemma bytes_end_with_app b p : bytes_end_with b p = true <-> exists a, b = a ++ p.
Proof.
  unfold bytes_end_with. rewrite andb_true_iff, Nat.leb_le, bool_decide_eq_true. split.
  - intros [Hl Hd]. exists (take (length b - length p) b). by rewrite <- Hd at 2; rewrite take_drop.
  - intros [a ->]. rewrite length_app. split; [lia|].
    replace (length a + length p - length p) with (length a) by lia. apply drop_app_length.
Qed.

Lemma retain_marked (a : bytes) n (chunk : bytes) :
  length TRUNCATED_MARKER <= n -> Z.of_nat n = MAX_GIT_OUTPUT_BYTES -> n <= length a -> chunk <> [] ->
  retain (take (n - length TRUNCATED_MARKER) a ++ TRUNCATED_MARKER) chunk = take (n - length TRUNCATED_MARKER) a ++ TRUNCATED_MARKER.
Proof.
  intros Hm Hn Ha Hc. unfold retain.
  assert (length (take (n - length TRUNCATED_MARKER) a ++ TRUNCATED_MARKER) = n) as Hlen.
  { rewrite length_app, length_take. lia. }
  rewrite Hlen, Hn, Z.ltb_irrefl, Hlen, Hn, Z.eqb_refl.
  assert (bytes_end_with (take (n - length TRUNCATED_MARKER) a ++ TRUNCATED_MARKER) TRUNCATED_MARKER = true) as ->.
  { apply bytes_end_with_app. eauto. }
  by destruct (_ && _).
Qed.

Lemma retain_full (a chunk : bytes) n :
  length TRUNCATED_MARKER <= n -> Z.of_nat n = MAX_GIT_OUTPUT_BYTES -> length a < n -> n <= length (a ++ chunk) -> chunk <> [] ->
  retain a chunk = take (n - length TRUNCATED_MARKER) (a ++ chunk) ++ TRUNCATED_MARKER.
Proof.
  intros Hm Hn Ha Hac Hc. unfold retain. rewrite length_app in Hac.
  assert ((Z.of_nat (length a) <? MAX_GIT_OUTPUT_BYTES)%Z = true) as -> by lia.
  replace (Z.to_nat (Z.min (Z.of_nat (length chunk)) (MAX_GIT_OUTPUT_BYTES - Z.of_nat (length a)))) with (n - length a) by lia.
  assert (a ++ take (n - length a) chunk = take n (a ++ chunk)) as -> by (by rewrite take_app_ge by lia).
  assert (length (take n (a ++ chunk)) = n) as Hlen by (rewrite length_take, length_app; lia).
  assert ((Z.of_nat (length (take n (a ++ chunk))) =? MAX_GIT_OUTPUT_BYTES)%Z = true) as -> by lia.
  assert ((0 <? Z.of_nat (length chunk))%Z = true) as -> by (destruct chunk; [done|]; apply Z.ltb_lt; cbn [length]; lia).
  simpl andb. cbv iota. rewrite Hlen, take_take, Nat.min_l by lia.
  destruct (bytes_end_with _ _) eqn:He; [|done]. apply bytes_end_with_app in He as [p Hp]. rewrite Hp.
  assert (length p = n - length TRUNCATED_MARKER) as Hpl. { rewrite Hp, length_app in Hlen. lia. }
  f_equal. rewrite <- Hpl.
  transitivity (take (length p) (take n (a ++ chunk))); [by rewrite Hp, take_app_length|].
  rewrite take_take. f_equal. lia.
Qed.

Lemma retain_bounded (all chunk : bytes) : chunk <> [] -> retain (bounded all) chunk = bounded (all ++ chunk).
Proof.
  intros Hc. remember (Z.to_nat MAX_GIT_OUTPUT_BYTES) as n eqn:En.
  assert (Z.of_nat n = MAX_GIT_OUTPUT_BYTES) as Hn by (subst n; unfold MAX_GIT_OUTPUT_BYTES; lia).
  assert (length TRUNCATED_MARKER <= n) as Hm.
  { apply Nat2Z.inj_le. rewrite Hn. by vm_compute. }
  unfold bounded. rewrite <- En. destruct (Z.ltb_spec (Z.of_nat (length all)) MAX_GIT_OUTPUT_BYTES) as [Ha|Ha].
  - destruct (Z.ltb_spec (Z.of_nat (length (all ++ chunk))) MAX_GIT_OUTPUT_BYTES) as [Hac|Hac].
    + unfold retain. rewrite length_app in Hac. assert ((Z.of_nat (length all) <? MAX_GIT_OUTPUT_BYTES)%Z = true) as -> by lia.
      rewrite (take_ge chunk) by lia.
      assert ((Z.of_nat (length (all ++ chunk)) =? MAX_GIT_OUTPUT_BYTES)%Z = false) as -> by (apply Z.eqb_neq; rewrite length_app; lia). done.
    + apply retain_full; [done|done|lia|lia|done].
  - assert ((Z.of_nat (length (all ++ chunk)) <? MAX_GIT_OUTPUT_BYTES)%Z = false) as -> by (apply Z.ltb_ge; rewrite length_app; lia).
    rewrite (retain_marked all n) by first [assumption|lia]. by rewrite take_app_le by lia.
Qed.

Lemma read_bounded_output_bounded reads :
  Forall (fun chunk => chunk <> []) reads -> read_bounded_output reads = bounded (concat reads).
Proof.
  intros Hr. unfold read_bounded_output. change (@nil byte) with (bounded []) at 1. change (concat reads) with ([] ++ concat reads).
  generalize (@nil byte). induction Hr as [|chunk rest Hc Hr IH]; intros all; simpl; [by rewrite app_nil_r|].
  destruct chunk as [|b chunk]; [done|]. rewrite retain_bounded by done. rewrite IH. by rewrite <- app_assoc.
Qed.

(** The capture of a child's output equals its specification, however the
    output is split into reads: an output below the limit is kept whole, and a
    longer one is kept up to the limit with a fixed marker in its last bytes, so
    that what is kept never exceeds the limit. *)
Theorem read_bounded_exact reads :
  Forall (fun chunk => chunk <> []) reads ->
  read_bounded_output reads = bounded (concat reads) /\ (Z.of_nat (length (read_bounded_output reads)) <= MAX_GIT_OUTPUT_BYTES)%Z.
Proof.
  intros Hr. pose proof (read_bounded_output_bounded reads Hr) as E.
  split; [done|]. rewrite E. unfold bounded. destruct (Z.ltb_spec (Z.of_nat (length (concat reads))) MAX_GIT_OUTPUT_BYTES); [lia|].
  rewrite length_app, length_take. unfold MAX_GIT_OUTPUT_BYTES in *.
  assert (length TRUNCATED_MARKER = 22) as -> by done. lia.
Qed.
Lemma read_bounded_exact_witness :
  read_bounded_output [str_bytes "ab"; str_bytes "c"] = bounded (concat [str_bytes "ab"; str_bytes "c"]) /\
  (Z.of_nat (length (read_bounded_output [str_bytes "ab"; str_bytes "c"])) <= MAX_GIT_OUTPUT_BYTES)%Z.
Proof. apply (read_bounded_exact [str_bytes "ab"; str_bytes "c"]). repeat constructor; discriminate. Defined.

Lemma split_at_app_sep {A} (sep : A -> bool) (a : list A) x b :
  sep x = true -> split_at sep (a ++ x :: b) = split_at sep a ++ split_at sep b.
Proof.
  intros Hx. induction a as [|y a IH]; simpl; [by rewrite Hx|]. destruct (sep y); [by rewrite IH|].
  rewrite IH. destruct (split_at sep a) eqn:E; [|done]. destruct a as [|z a]; simpl in E; [done|].
  destruct (sep z); [done|]. by destruct (split_at sep a).
Qed.
Lemma split_at_none {A} (sep : A -> bool) (a : list A) : forallb (fun x => negb (sep x)) a = true -> split_at sep a = [a].
Proof.
  induction a as [|x a IH]; simpl; [done|]. rewrite andb_true_iff, negb_true_iff. intros [-> Ha]. by rewrite IH.
Qed.

(** The marker of a truncated output does not stop every reader: a listing of a
    tree whose gitlink entry lies beyond the limit passes the gitlink test. *)
Theorem truncated_listing_hides_gitlink :
  exists reads, Forall (fun chunk => chunk <> []) reads /\
    lists_gitlink (concat reads) = true /\ lists_gitlink (read_bounded_output reads) = false.
Proof.
  remember (Z.to_nat MAX_GIT_OUTPUT_BYTES) as n eqn:En.
  assert (Z.of_nat n = MAX_GIT_OUTPUT_BYTES) as Hn by (subst n; unfold MAX_GIT_OUTPUT_BYTES; lia).
  exists [replicate n Byte.x61; [Byte.x00]; str_bytes "160000 commit"].
  assert (Forall (fun chunk : bytes => chunk <> []) [replicate n Byte.x61; [Byte.x00]; str_bytes "160000 commit"]) as Hr.
  { clear En. repeat constructor; try discriminate. intros E. apply (f_equal length) in E. rewrite length_replicate in E. simpl in E.
    rewrite E in Hn. done. }
  split; [done|]. split.
  - unfold lists_gitlink. simpl concat. rewrite split_at_app_sep by done. rewrite existsb_app. apply orb_true_iff. by right.
  - rewrite (read_bounded_output_bounded _ Hr). unfold bounded. rewrite <- En. simpl concat.
    match goal with |- context [if ?c then _ else _] => assert (c = false) as -> end.
    { apply Z.ltb_ge. rewrite length_app, length_replicate. lia. }
    rewrite take_app_le by (rewrite length_replicate; lia). unfold lists_gitlink. rewrite split_at_none.
    + cbn [existsb]. rewrite orb_false_r. unfold bytes_start_with. apply bool_decide_eq_false. intros E.
      apply (f_equal head) in E. revert E. rewrite take_replicate.
      destruct (Nat.min (n - length TRUNCATED_MARKER) n) as [|m]; [done|]. done.
    + rewrite take_replicate. induction (Nat.min _ n) as [|m IH]; [done|]. simpl. apply IH.
Qed.

(** ** Object names *)

Lemma bytes_str_bytes s : bytes_str (str_bytes s) = s.
Proof. apply String.string_of_list_byte_of_string. Qed.
Lemma str_bytes_str b : str_bytes (bytes_str b) = b.
Proof. apply String.list_byte_of_string_of_list_byte. Qed.

Lemma strip_newline_some b a : strip_newline b = Some a <-> b = a ++ [NEWLINE].
Proof.
  unfold strip_newline. destruct b as [|x b _] using rev_ind; simpl; [split; [done|]; by destruct a|].
  rewrite last_snoc, removelast_last. case_bool_decide as Hx; split; intros E.
  - injection E as ->. by rewrite Hx.
  - apply app_inj_tail in E as [-> _]. done.
  - done.
  - apply app_inj_tail in E as [_ ->]. done.
Qed.

(** A character of an object name is an ASCII byte that separates nothing. *)
Definition plain_byte (b : byte) : Prop :=
  in_range 0 127 b = true /\ b <> NEWLINE /\ b <> Byte.x0d /\ b <> Byte.x20.
Lemma str_all_bytes p s : str_all p s = true <-> Forall (fun b => p (ascii_of_byte b) = true) (str_bytes s).
Proof.
  rewrite str_all_forall. unfold str_bytes, String.list_byte_of_string. rewrite Forall_fmap.
  apply Forall_proper; [|done]. intros c. simpl. by rewrite Ascii.ascii_of_byte_of_ascii.
Qed.
Lemma object_bytes_plain s : str_all is_object_char s = true -> Forall plain_byte (str_bytes s).
Proof.
  rewrite str_all_bytes. intros H. eapply Forall_impl; [exact H|]. intros b. clear H.
  destruct b; vm_compute; intros E; try discriminate E; repeat split; discriminate.
Qed.
Lemma plain_utf8 l rest : Forall plain_byte l -> utf8_valid (l ++ rest) = utf8_valid rest.
Proof. induction 1 as [|b l (Hb & _) _ IH]; [done|]. simpl. by rewrite Hb. Qed.

(** An object name is read from Git exactly when the output is that name, in the
    repository's format, and a newline. *)
Lemma canonical_object_output_exact output format value :
  canonical_object_output output format = Ok value <->
  output = str_bytes value ++ [NEWLINE] /\ is_git_object value format = true.
Proof.
  unfold canonical_object_output, is_git_object, canonical_hex. split.
  - intros E. res_inv. apply strip_newline_some in E1 as ->. rewrite str_bytes_str. split; [done|].
    rewrite H0, andb_true_r. apply bool_decide_eq_true. apply Nat.eqb_eq in H.
    by rewrite <- H, <- length_str_bytes, str_bytes_str.
  - intros [-> [Hl Hc]%andb_true_iff]. rewrite plain_utf8 by by apply object_bytes_plain. simpl.
    assert (strip_newline (str_bytes value ++ [NEWLINE]) = Some (str_bytes value)) as -> by by apply strip_newline_some.
    simpl. rewrite bytes_str_bytes, Hc, length_str_bytes. apply bool_decide_eq_true in Hl.
    by rewrite Hl, Nat.eqb_refl.
Qed.

(** ** Bundles *)

Lemma blank_line_cons a b r :
  blank_line (a :: b :: r) = if (a == NEWLINE) && (b == NEWLINE) then Some 0 else option_map S (blank_line (b :: r)).
Proof. done. Qed.
Lemma blank_line_none_in l rest :
  Forall (fun b => b <> NEWLINE) l -> blank_line (l ++ NEWLINE :: NEWLINE :: rest) = Some (length l).
Proof.
  induction 1 as [|b l Hb Hl IH]; [done|]. cbn [app].
  destruct (l ++ NEWLINE :: NEWLINE :: rest) as [|c r] eqn:E; [by destruct l|].
  rewrite blank_line_cons, IH, bool_decide_eq_false_2 by done. done.
Qed.
Lemma blank_line_split l n :
  blank_line l = Some n -> exists rest, l = take n l ++ NEWLINE :: NEWLINE :: rest /\ length (take n l) = n.
Proof.
  revert n. induction l as [|a l IH]; intros n; [done|]. destruct l as [|b l]; [done|]. rewrite blank_line_cons.
  destruct ((a == NEWLINE) && (b == NEWLINE)) eqn:E.
  - apply andb_true_iff in E as [->%bool_decide_eq_true ->%bool_decide_eq_true]. intros [= <-]. by exists l.
  - destruct (blank_line (b :: l)) as [m|] eqn:Em; [|done]. intros [= <-]. destruct (IH m eq_refl) as (rest & Hl & Hn).
    exists rest. cbn [take app length]. by rewrite Hn, <- Hl.
Qed.
Lemma split_once_some sep l x y : split_once sep l = Some (x, y) -> l = x ++ sep :: y.
Proof.
  revert x. induction l as [|b l IH]; intros x; simpl; [done|]. case_bool_decide as Hb.
  - intros [= <- <-]. by rewrite Hb.
  - destruct (split_once sep l) as [[x' y']|]; [|done]. intros [= <- <-]. simpl. by rewrite (IH x').
Qed.
Lemma split_once_plain l rest : Forall plain_byte l -> split_once Byte.x20 (l ++ Byte.x20 :: rest) = Some (l, rest).
Proof.
  induction 1 as [|b l (_ & _ & _ & Hb) _ IH]; [done|]. simpl. by rewrite bool_decide_eq_false_2, IH.
Qed.

Section BundleFacts.
  Context `{Deps}.

(** The one header line of a bundle that advertises [candidate]. *)
Definition advertisement (candidate : string) : bytes := str_bytes candidate ++ Byte.x20 :: str_bytes BUNDLE_CANDIDATE_REF.
Lemma plain_advertisement candidate :
  str_all is_object_char candidate = true ->
  Forall (fun b => in_range 0 127 b = true /\ b <> NEWLINE /\ b <> Byte.x0d) (advertisement candidate).
Proof.
  intros Hc. apply Forall_app. split.
  - eapply Forall_impl; [by apply object_bytes_plain|]. by intros b (H1 & H2 & H3 & _).
  - vm_compute. repeat constructor; discriminate.
Qed.

Lemma existsb_absent {A} (p : A -> bool) l : Forall (fun x => p x = false) l -> existsb p l = false.
Proof. induction 1 as [|x l Hx _ IH]; [done|]. simpl. by rewrite Hx. Qed.
Lemma advertisement_admitted candidate :
  candidate <> EmptyString -> str_all is_object_char candidate = true ->
  (advertisement candidate == []) || existsb (fun c => c == Byte.x0d) (advertisement candidate)
  || existsb (fun c => c == NEWLINE) (advertisement candidate)
  || bytes_start_with (advertisement candidate) (str_bytes "-")
  || bytes_start_with (advertisement candidate) (str_bytes "@") = false.
Proof.
  intros Hne Hc. pose proof (plain_advertisement _ Hc) as Hp. rewrite !orb_false. split_all.
  - apply bool_decide_eq_false. unfold advertisement. by destruct (str_bytes candidate).
  - apply existsb_absent. eapply Forall_impl; [exact Hp|]. intros b (_ & _ & Hb). by apply bool_decide_eq_false.
  - apply existsb_absent. eapply Forall_impl; [exact Hp|]. intros b (_ & Hb & _). by apply bool_decide_eq_false.
  - destruct candidate as [|c candidate]; [done|]. unfold str_all in Hc. simpl in Hc. apply andb_true_iff in Hc as [Hc _].
    apply bool_decide_eq_false. intros [= E]. apply (f_equal ascii_of_byte) in E. rewrite ascii_of_byte_of_ascii in E.
    by rewrite E in Hc.
  - destruct candidate as [|c candidate]; [done|]. unfold str_all in Hc. simpl in Hc. apply andb_true_iff in Hc as [Hc _].
    apply bool_decide_eq_false. intros [= E]. apply (f_equal ascii_of_byte) in E. rewrite ascii_of_byte_of_ascii in E.
    by rewrite E in Hc.
Qed.
Lemma advertisement_utf8 candidate : str_all is_object_char candidate = true -> utf8_valid (advertisement candidate) = true.
Proof. intros Hc. unfold advertisement. rewrite plain_utf8 by by apply object_bytes_plain. done. Qed.
Lemma advertised_line candidate rest :
  str_all is_object_char candidate = true ->
  blank_line (advertisement candidate ++ NEWLINE :: NEWLINE :: rest) = Some (length (advertisement candidate)).
Proof.
  intros Hc. apply blank_line_none_in. eapply Forall_impl; [by apply plain_advertisement|]. by intros b (_ & Hb & _).
Qed.

(** A candidate bundle is accepted exactly when it is, byte for byte, the
    version-2 magic line, one advertisement of a canonical object name for the
    fixed candidate ref, an empty line, and a self-contained pack: no
    prerequisite, no capability, no second tip, and a pack header with version 2
    and between one and a million objects.  What is returned is that object name,
    the format its width selects, and the pack with its digest. *)
Theorem parse_strict_bundle_exact b s :
  parse_strict_bundle b = Ok s <->
  b = BUNDLE_MAGIC_V2 ++ advertisement (sb_candidate s) ++ NEWLINE :: NEWLINE :: sb_pack s /\
  is_git_object (sb_candidate s) (sb_object_format s) = true /\
  12 <= length (sb_pack s) /\ take 4 (sb_pack s) = PACK_MAGIC /\
  be_value (take 4 (drop 4 (sb_pack s))) = 2%Z /\ (1 <= be_value (take 4 (drop 8 (sb_pack s))) <= 1000000)%Z /\
  sb_pack_digest s = hash_bytes (sb_pack s).
Proof.
  unfold parse_strict_bundle. cbv zeta. split.
  - intros E. apply guard_ok in E as [Hmagic E]. apply res_bind_ok in E as (n & Hn%ok_or_ok & E).
    apply guard_ok in E as [Hh E]. apply guard_ok in E as [_ E]. apply res_bind_ok in E as ([cand ref] & Hs%ok_or_ok & E).
    apply guard_ok in E as [Href%negb_bool_decide_false E]. apply res_bind_ok in E as (fmt & Hf & E).
    apply guard_ok in E as [Hhex%negb_false_iff E]. apply guard_ok in E as [[Hp1 Hp2]%orb_false E].
    apply guard_ok in E as [[[Hv1 Hv2]%orb_false Hv3]%orb_false E]. apply Ok_inj in E as <-.
    cbn [sb_candidate sb_object_format sb_pack sb_pack_digest] in *.
    apply negb_false_iff, bool_decide_eq_true in Hmagic. apply blank_line_split in Hn as (rest & Hrest & Hlen).
    apply split_once_some in Hs.
    assert (drop (length BUNDLE_MAGIC_V2 + n + 2) b = rest) as Hdrop.
    { rewrite <- Nat.add_assoc, <- drop_drop, Hrest, drop_app_ge by lia.
      rewrite Hlen. by replace (n + 2 - n) with 2 by lia. }
    rewrite Hdrop in *. apply Nat.ltb_ge in Hp1. apply negb_bool_decide_false in Hp2.
    apply negb_false_iff, Z.eqb_eq in Hv1. apply Z.eqb_neq in Hv2. apply Z.ltb_ge in Hv3.
    split_all; try done.
    + rewrite <- (take_drop (length BUNDLE_MAGIC_V2) b) at 1. rewrite Hmagic, Hrest, Hs, Href. f_equal.
      unfold advertisement. by rewrite str_bytes_str.
    + unfold is_git_object. rewrite Hhex, andb_true_r. apply bool_decide_eq_true.
      rewrite <- length_str_bytes, str_bytes_str. destruct (Nat.eqb_spec (length cand) 40); [by res_inv|].
      destruct (Nat.eqb_spec (length cand) 64); by res_inv.
    + pose proof (be_value_range (take 4 (drop 8 rest))). unfold MAX_PACK_OBJECTS in *. lia.
  - destruct s as [candidate format pack digest]. cbn [sb_candidate sb_object_format sb_pack sb_pack_digest].
    intros (-> & Hg & Hp1 & Hp2 & Hv1 & Hv2 & ->). unfold is_git_object in Hg.
    apply andb_true_iff in Hg as [Hl%bool_decide_eq_true Hc].
    assert (candidate <> EmptyString) as Hne by (intros ->; by destruct format).
    unfold bytes_start_with at 1. rewrite take_app_length, bool_decide_eq_true_2, drop_app_length by done. cbn [negb].
    rewrite advertised_line by done. cbn [ok_or res_bind reject_if]. rewrite take_app_length, advertisement_admitted by done.
    cbn [res_bind reject_if]. rewrite advertisement_utf8 by done. unfold advertisement at 1.
    rewrite split_once_plain by by apply object_bytes_plain. cbn [negb ok_or res_bind reject_if].
    rewrite bool_decide_eq_true_2, length_str_bytes, Hl, bytes_str_bytes, Hc by done. cbn [negb res_bind reject_if].
    assert (drop (length BUNDLE_MAGIC_V2 + length (advertisement candidate) + 2)
              (BUNDLE_MAGIC_V2 ++ advertisement candidate ++ NEWLINE :: NEWLINE :: pack) = pack) as ->.
    { rewrite <- Nat.add_assoc, <- drop_drop, drop_app_length, <- drop_drop, drop_app_length. done. }
    assert ((length pack <? 12) = false) as -> by by apply Nat.ltb_ge.
    rewrite Hp2, Hv1, bool_decide_eq_true_2 by done. cbn [negb orb].
    assert ((be_value (take 4 (drop 8 pack)) =? 0)%Z = false) as -> by (apply Z.eqb_neq; lia).
    assert ((MAX_PACK_OBJECTS <? be_value (take 4 (drop 8 pack)))%Z = false) as -> by (apply Z.ltb_ge; unfold MAX_PACK_OBJECTS; lia).
    by destruct format.
Qed.
End BundleFacts.

(** ** The closed configuration *)

(** Every line that the check takes for a section header names no included
    file and no content filter. *)
Lemma validate_lines_sections ext l line :
  validate_lines ext l = Ok tt -> line ∈ l -> starts_with_char 91 (trim line) = true ->
  exists inside after, split_closing (tail (trim line)) = Some (inside, after) /\
    forall word, word ∈ ["include"; "includeif"; "filter"] -> is_word (section_name inside) word = false.
Proof.
  intros Hv Hin Hs. revert ext Hv. induction l as [|line' l IH]; [by apply not_elem_of_nil in Hin|].
  intros ext Hv. cbn [validate_lines] in Hv. apply guard_ok in Hv as [_ Hv]. cbv zeta in Hv.
  apply elem_of_cons in Hin as [<-|Hin].
  - replace (comment_or_empty (trim line)) with false in Hv.
    2: { destruct (trim line) as [|c r]; [done|]. cbn [starts_with_char] in Hs. apply Z.eqb_eq in Hs as <-. done. }
    rewrite Hs in Hv. unfold validate_section in Hv. apply res_bind_ok in Hv as (opened & Ho & _).
    apply res_bind_ok in Ho as ([inside after] & Hc%ok_or_ok & Ho). exists inside, after. split; [done|].
    apply guard_ok in Ho as [_ Ho]. cbv zeta in Ho. apply guard_ok in Ho as [[H1 H2]%orb_false Ho]. apply guard_ok in Ho as [H3 _].
    intros word. rewrite !elem_of_cons. intros [->|[->|[->|Hn]]]; [done..|]. by apply not_elem_of_nil in Hn.
  - destruct (comment_or_empty (trim line')); [by eapply IH|]. destruct (starts_with_char 91 (trim line')).
    + apply res_bind_ok in Hv as (opened & _ & Hv). by eapply IH.
    + apply res_bind_ok in Hv as (_ & _ & Hv). by eapply IH.
Qed.

(** Git skips a byte-order mark at the start of a file; the check does not, so
    that an include section behind one is taken for a key. *)
Definition INCLUDING_CONFIG : bytes := str_bytes "[include]" ++ [NEWLINE] ++ str_bytes "path = /srv/other/config" ++ [NEWLINE].
Definition BYTE_ORDER_MARK : bytes := [Byte.xef; Byte.xbb; Byte.xbf].
Theorem byte_order_mark_hides_include :
  validate_closed_repository_config INCLUDING_CONFIG =
    Err (UnsafeRepository "repository config includes external configuration") /\
  validate_closed_repository_config (BYTE_ORDER_MARK ++ INCLUDING_CONFIG) = Ok tt.
Proof. split; vm_compute; reflexivity. Qed.
