(* ===== verification/PointerGit.v ===== *)
(** * Managed pointers: the closed Git child and the repository (ag-app/src/managed_pointer.rs, descriptor_path.rs)

    How the runtime pins its Git executable, opens a repository through
    descriptors, launches one Git child with a fixed environment and exact
    descriptors, observes the managed reference, stages a candidate and imports
    its pack.

    The host is a parameter: a class with one operation for each system call,
    each free to change the host as it likes, so that another process may act
    between any two calls.  The state pairs the host with a log of what was
    launched, created and observed; the log is only written. *)

From S2P Require Import Prelude Wire Fixture Digest Names Origin Identity Protocol Paths Store Effect Compile HostFiles Config Executor Pointer PointerText.

(** ** The host *)

(** How a path is opened: an existing one with flags, or a new file with a mode
    ([RDWR], [CREATE], [EXCL], [CLOEXEC] and [NOFOLLOW]). *)
Inductive OpenHow : Type := Existing (flags : list OFlag) | NewFile (mode : Z).
Definition with_nofollow (how : OpenHow) : OpenHow :=
  match how with
  | Existing flags => Existing (if has_flag NOFOLLOW flags then flags else flags ++ [NOFOLLOW])
  | NewFile mode => NewFile mode
  end.
Definition NODATA : Errno := OtherErrno 61.

Inductive GitOperationV1 : Type :=
  | Init | IndexPack | CatFile | RevParse | RevList | LsTree | Fsck | DiffIndex | DiffFiles | LsFiles | UpdateRef.
#[global] Instance GitOperationV1_eq_dec : EqDecision GitOperationV1.
Proof. solve_decision. Defined.
Definition operation_str (o : GitOperationV1) : string :=
  match o with
  | Init => "init" | IndexPack => "index-pack" | CatFile => "cat-file" | RevParse => "rev-parse" | RevList => "rev-list"
  | LsTree => "ls-tree" | Fsck => "fsck" | DiffIndex => "diff-index" | DiffFiles => "diff-files" | LsFiles => "ls-files"
  | UpdateRef => "update-ref"
  end.

(** What is handed to the child: the executable, its arguments, its environment,
    the identity it enters, and its descriptors with their numbers. *)
Record GitLaunch (Fd : Type) : Type := mkLaunch {
  gl_executable : Fd;
  gl_operation : GitOperationV1;
  gl_arguments : list string;
  gl_environment : list (string * string);
  gl_user : option (Z * Z);
  gl_stdin : option Fd;
  gl_inherited : list (Z * Fd);
  gl_writable : list (Z * Fd)
}.
Arguments mkLaunch {Fd} _ _ _ _ _ _ _ _.
Arguments gl_executable {Fd} _.
Arguments gl_operation {Fd} _.
Arguments gl_arguments {Fd} _.
Arguments gl_environment {Fd} _.
Arguments gl_user {Fd} _.
Arguments gl_stdin {Fd} _.
Arguments gl_inherited {Fd} _.
Arguments gl_writable {Fd} _.

(** A call that fails or answers; it does not panic. *)
Definition Sys (X E A : Type) : Type := X -> X * (E + A).
Definition run_sys {X E A} (m : Sys X E A) : ST X E A := fun x =>
  let (x', r) := m x in (x', match r with inl e => Err e | inr a => Ok a end).
Coercion run_sys : Sys >-> ST.

(** The kernel, the clock and the child process.  [sys_time] is the wall clock in
    milliseconds, [None] before 1970; [git_late] is the time the monotonic clock
    has run beyond the sleeps of the polling loop; [git_lock] says whether the
    mutex was acquired; [git_spawn] is the launch of exact_exec.rs; the outputs of
    a child are what each read of its pipe returned. *)
Class PointerHost (X Fd : Type) := {
  sys_open_root : Sys X Errno Fd;
  sys_openat2 : Fd -> string -> OpenHow -> Sys X Errno Fd;
  sys_openat : Fd -> string -> OpenHow -> Sys X Errno Fd;
  sys_open : string -> Sys X Errno Fd;
  sys_reopen : Fd -> Sys X Errno Fd;
  sys_dup : Fd -> Sys X Errno Fd;
  sys_dupfd_cloexec : Fd -> Sys X Errno Z;
  sys_fstat : Fd -> Sys X Errno Stat;
  sys_seek_start : Fd -> Sys X Errno unit;
  sys_read_to_end : Fd -> Z -> Sys X IoError bytes;
  sys_write_all : Fd -> bytes -> Sys X IoError unit;
  sys_fsync : Fd -> Sys X Errno unit;
  sys_fchmod : Fd -> Z -> Sys X Errno unit;
  sys_fchown : Fd -> Z -> Z -> Sys X Errno unit;
  sys_mkdirat : Fd -> string -> Z -> Sys X Errno unit;
  sys_remove_dir_all : Fd -> string -> Sys X Errno unit;
  sys_fgetxattr : Fd -> string -> Sys X Errno Z;
  sys_memfd_create : string -> Sys X Errno Fd;
  sys_add_seals : Fd -> Z -> Sys X Errno unit;
  sys_get_seals : Fd -> Sys X Errno Z;
  sys_geteuid : X -> Z;
  sys_getegid : X -> Z;
  sys_getgroups : Sys X Errno (list Z);
  sys_set_no_new_privs : Sys X Errno unit;
  sys_get_no_new_privs : Sys X Errno bool;
  sys_time : X -> X * option Z;
  sys_uuid : X -> X * string;
  sys_landlock_abi : Sys X IoError Z;
  git_lock : Fd -> X -> X * bool;
  git_spawn : GitLaunch Fd -> Sys X IoError Z;
  git_try_wait : Z -> Sys X IoError (option (option Z));
  git_late : X -> X * Z;
  git_kill : Z -> X -> X;
  git_stdout : Z -> Sys X IoError (list bytes);
  git_stderr : Z -> Sys X IoError (list bytes)
}.
(** Texts of errors that libraries define. *)
Class PointerTexts := {
  store_error_text : StoreError -> string;
  nix_errno_text : Errno -> string
}.

(** ** Records *)

Record PinnedGitV1 (Fd : Type) : Type := mkPinnedGit {
  pg_path : string;
  pg_source : Fd;
  pg_snapshot : Fd;
  pg_executable : Digest;
  pg_device : Z;
  pg_inode : Z;
  pg_size : Z;
  pg_gid : Z;
  pg_mode : Z
}.
Arguments mkPinnedGit {Fd} _ _ _ _ _ _ _ _ _.
Arguments pg_path {Fd} _.
Arguments pg_source {Fd} _.
Arguments pg_snapshot {Fd} _.
Arguments pg_executable {Fd} _.
Arguments pg_device {Fd} _.
Arguments pg_inode {Fd} _.
Arguments pg_size {Fd} _.
Arguments pg_gid {Fd} _.
Arguments pg_mode {Fd} _.

Record ManagedPointerTargetV1 (Fd : Type) : Type := mkRuntimeTarget {
  mt_allowed_root : string;
  mt_repository : string;
  mt_reference : string;
  mt_activation_genesis_object : string;
  mt_activation_genesis_tree : string;
  mt_activation_genesis_state : Digest;
  mt_repository_identity : Digest;
  mt_uid : Z;
  mt_gid : Z;
  mt_staging_root : string;
  mt_production_staging_custody : bool;
  mt_promotion_ttl_ms : Z;
  mt_git : PinnedGitV1 Fd;
  mt_launch_profile : Digest
}.
Arguments mkRuntimeTarget {Fd} _ _ _ _ _ _ _ _ _ _ _ _ _ _.
Arguments mt_allowed_root {Fd} _.
Arguments mt_repository {Fd} _.
Arguments mt_reference {Fd} _.
Arguments mt_activation_genesis_object {Fd} _.
Arguments mt_activation_genesis_tree {Fd} _.
Arguments mt_activation_genesis_state {Fd} _.
Arguments mt_repository_identity {Fd} _.
Arguments mt_uid {Fd} _.
Arguments mt_gid {Fd} _.
Arguments mt_staging_root {Fd} _.
Arguments mt_production_staging_custody {Fd} _.
Arguments mt_promotion_ttl_ms {Fd} _.
Arguments mt_git {Fd} _.
Arguments mt_launch_profile {Fd} _.

Record OpenRepositoryV1 (Fd : Type) : Type := mkOpenRepository {
  or_repository : Fd;
  or_git_directory : Fd;
  or_objects : Fd;
  or_pack_directory : Fd;
  or_bare : bool;
  or_identity_evidence : ManagedRepositoryIdentityEvidenceV1
}.
Arguments mkOpenRepository {Fd} _ _ _ _ _ _.
Arguments or_repository {Fd} _.
Arguments or_git_directory {Fd} _.
Arguments or_objects {Fd} _.
Arguments or_pack_directory {Fd} _.
Arguments or_bare {Fd} _.
Arguments or_identity_evidence {Fd} _.

Record RepositoryStateV1 : Type := mkRepositoryState {
  st_object_format : GitObjectFormatV1;
  st_current_object : string;
  st_current_tree : string;
  st_clean : bool;
  st_reference_checked_out : bool;
  st_evidence : ManagedRepositoryStateEvidenceV1
}.
Record StagingDirectoryV1 (Fd : Type) : Type := mkStaging { sd_root : Fd; sd_name : string; sd_directory : Fd }.
Arguments mkStaging {Fd} _ _ _.
Arguments sd_root {Fd} _.
Arguments sd_name {Fd} _.
Arguments sd_directory {Fd} _.
Record StagedCandidateV1 (Fd : Type) : Type := mkStagedCandidate {
  sc_stage : StagingDirectoryV1 Fd;
  sc_pack : Fd;
  sc_candidate_object : string;
  sc_candidate_tree : string;
  sc_candidate_parent : string;
  sc_pack_digest : Digest;
  sc_object_format : GitObjectFormatV1
}.
Arguments mkStagedCandidate {Fd} _ _ _ _ _ _ _.
Arguments sc_stage {Fd} _.
Arguments sc_pack {Fd} _.
Arguments sc_candidate_object {Fd} _.
Arguments sc_candidate_tree {Fd} _.
Arguments sc_candidate_parent {Fd} _.
Arguments sc_pack_digest {Fd} _.
Arguments sc_object_format {Fd} _.

Record GitOutputV1 : Type := mkGitOutput { go_status : option Z; go_stdout : bytes; go_stderr : bytes }.
(** [ExitStatus::success]. *)
Definition exit_success (status : option Z) : bool := status == Some 0%Z.
Record GitEnvironmentV1 (Fd : Type) : Type := mkGitEnvironment {
  ge_values : list (string * string);
  ge_retained_descriptors : list (Z * Fd);
  ge_writable_roots : list (Z * Fd)
}.
Arguments mkGitEnvironment {Fd} _ _ _.
Arguments ge_values {Fd} _.
Arguments ge_retained_descriptors {Fd} _.
Arguments ge_writable_roots {Fd} _.

(** ** The state and its log *)

Inductive PointerEvent (Fd : Type) : Type :=
  | CreatedStage (directory : Fd)
  | Launched (l : GitLaunch Fd)
  | ObservedState (s : RepositoryStateV1).
Arguments CreatedStage {Fd} _.
Arguments Launched {Fd} _.
Arguments ObservedState {Fd} _.
Record PointerWorld (X Fd : Type) : Type := mkPointerWorld { pw_host : X; pw_events : list (PointerEvent Fd) }.
Arguments mkPointerWorld {X Fd} _ _.
Arguments pw_host {X Fd} _.
Arguments pw_events {X Fd} _.

Definition PointerM (X Fd A : Type) : Type := ST (PointerWorld X Fd) ManagedPointerError A.
Definition on_host {X Fd E A} (m : ST X E A) : ST (PointerWorld X Fd) E A := fun w =>
  let (x, r) := m (pw_host w) in (mkPointerWorld x (pw_events w), r).
(** A call that always answers. *)
Definition ask {X Fd E A} (m : X -> X * A) : ST (PointerWorld X Fd) E A := on_host (fun x => let (x', a) := m x in (x', Ok a)).
Definition record_event {X Fd E} (e : PointerEvent Fd) : ST (PointerWorld X Fd) E unit := fun w =>
  (mkPointerWorld (pw_host w) (pw_events w ++ [e]), Ok tt).

(** ** Paths *)

(** [Path::parent], as text: the separators inside what is left stay. *)
Definition path_parent (path : string) : option string :=
  match split_slash path with
  | first :: rest =>
      if is_absolute path then
        match trim_right rest with [] => None | l => Some ("/" +:+ join_slash (trim_right (removelast l))) end
      else if first == "." then
        match trim_right rest with [] => Some EmptyString | l => Some (join_slash (first :: trim_right (removelast l))) end
      else match trim_right (first :: rest) with [] => None | l => Some (join_slash (trim_right (removelast l))) end
  | [] => None
  end.
(** [Path::join]. *)
Definition path_join (path other : string) : string :=
  if is_absolute other then other
  else if path == EmptyString then other
  else if ends_with path "/" then path +:+ other else path +:+ "/" +:+ other.
(** [validate_relative] of descriptor_path.rs. *)
Definition relative_valid (relative : string) : res Errno unit :=
  reject_if ((relative == EmptyString)
             || existsb (fun c => (c == EmptyString) || (c == ".") || (c == "..")) (split_slash relative)) INVAL ;?
  reject_if (existsb (fun c => negb (normal_component c)) (components relative)) INVAL.
Fixpoint normal_parts (l : list Component) : res Errno (list string) :=
  match l with
  | [] => Ok []
  | Normal name :: rest => let? names := normal_parts rest in Ok (name :: names)
  | _ :: _ => Err INVAL
  end.

(** ** Texts *)

Section Texts.
  Context `{ErrnoText, JcsErrorText, PointerTexts}.

(** [impl Display for ManagedPointerError]. *)
Definition pointer_error_text (e : ManagedPointerError) : string :=
  match e with
  | GenesisMeasurementInvalid => "managed-pointer genesis measurement is invalid"
  | GenesisMeasurementDrift => "managed-pointer genesis changed after review"
  | TargetUnavailable => "managed-pointer target is unavailable"
  | PreparationStandingAbsent => "managed-pointer preparation standing is absent"
  | PreparationStandingScopeMismatch => "managed-pointer preparation standing scope mismatch"
  | PreparationBudgetExceeded => "managed-pointer preparation budget exceeded"
  | ProtectedProjectionChanged => "managed-pointer preparation changed protected authoritative state"
  | PromotionStandingMismatch => "managed-pointer promotion standing mismatch"
  | PointerBindingMismatch => "managed-pointer binding mismatch"
  | GitIdentityMismatch => "pinned Git executable mismatch"
  | LaunchProfileMismatch => "managed-pointer launch profile mismatch"
  | ClockUnavailable => "managed-pointer trusted clock is unavailable"
  | PromotionExpiredBeforeCas => "managed-pointer promotion expired immediately before ref CAS"
  | PrivilegeFloorUnavailable => "managed-pointer helper privilege floor is unavailable"
  | UnsafeRepository d => "unsafe managed repository: " +:+ d
  | InvalidBundle d => "invalid managed-pointer bundle: " +:+ d
  | PointerPrestateDrift d => "managed-pointer prestate drift: " +:+ d
  | PointerArtifact d => "managed-pointer artifact custody failed: " +:+ d
  | GitFailed operation d => "closed Git operation " +:+ operation +:+ " failed: " +:+ d
  | PointerIo e => "managed-pointer local I/O failed: " +:+ io_text e
  | PointerStore e => "managed-pointer store custody failed: " +:+ store_error_text e
  | PointerCanonical e => "managed-pointer evidence encoding failed: " +:+ jcs_text e
  end.
End Texts.

Section Git.
  Context `{Deps, ErrnoText, PointerTexts} {X Fd : Type} `{!PointerHost X Fd}.

(** [.map_err(errno_to_io)?] and the conversion of an I/O error. *)
Definition sys {A} (m : ST X Errno A) : PointerM X Fd A := st_map_err (fun e => PointerIo (Os e)) (on_host m).
Definition io {A} (m : ST X IoError A) : PointerM X Fd A := st_map_err PointerIo (on_host m).
Definition unsafe_if (cond : bool) (detail : string) : PointerM X Fd unit := pure (reject_if cond (UnsafeRepository detail)).

(** ** Opening beneath a descriptor (descriptor_path.rs) *)

Fixpoint openat_parts (directory : Fd) (names : list string) (how : OpenHow) : ST X Errno Fd :=
  match names with
  | [] => pure (Err INVAL)
  | [name] => sys_openat directory name (with_nofollow how)
  | name :: rest =>
      let! opened := sys_openat directory name (Existing [OPATH; DIRECTORY; CLOEXEC; NOFOLLOW]) in
      openat_parts opened rest how
  end.
Definition fallback_open (parent : Fd) (relative : string) (how : OpenHow) : ST X Errno Fd :=
  let! names := pure (normal_parts (components relative)) in openat_parts parent names how.
Definition finish_open (parent : Fd) (relative : string) (how : OpenHow) (attempted : res Errno Fd) : ST X Errno Fd :=
  pure (relative_valid relative) ;!
  match attempted with Err NOSYS => fallback_open parent relative how | result => pure result end.
Definition open_under (parent : Fd) (relative : string) (how : OpenHow) : ST X Errno Fd :=
  pure (relative_valid relative) ;!
  st_try (sys_openat2 parent relative (with_nofollow how)) (finish_open parent relative (with_nofollow how)).

(** [open_directory_beneath], [open_optional_directory_beneath] and [open_absolute_directory]. *)
Definition open_directory : OpenHow := Existing [RDONLY; DIRECTORY; CLOEXEC; NOFOLLOW].
Definition open_regular : OpenHow := Existing [RDONLY; CLOEXEC; NOFOLLOW].
Definition open_regular_nonblock : OpenHow := Existing [RDONLY; CLOEXEC; NOFOLLOW; NONBLOCK].
Definition resolution_error (e : Errno) : ManagedPointerError :=
  UnsafeRepository ("descriptor directory resolution failed: " +:+ errno_text e).
Definition open_directory_beneath (parent : Fd) (relative : string) : PointerM X Fd Fd :=
  st_map_err resolution_error (on_host (open_under parent relative open_directory)).
Definition open_optional_directory_beneath (parent : Fd) (relative : string) : PointerM X Fd (option Fd) :=
  st_try (on_host (open_under parent relative open_directory)) (fun opened =>
    pure match opened with
         | Ok file => Ok (Some file)
         | Err NOENT => Ok None
         | Err e => Err (resolution_error e)
         | Panic => Panic
         end).
Definition open_absolute_directory (path : string) : PointerM X Fd Fd :=
  let! root := sys sys_open_root in
  let! relative := pure (ok_or (UnsafeRepository "path is not absolute") (path_strip_prefix path "/")) in
  open_directory_beneath root relative.

Definition require_directory_owner (stat : Stat) (uid gid : Z) (label : string) : PointerM X Fd unit :=
  unsafe_if (negb (is_dir (st_mode stat)) || negb (st_uid stat =? uid)%Z || negb (st_gid stat =? gid)%Z
             || negb (Z.land (st_mode stat) 18 =? 0)%Z) (label +:+ " has the wrong type, owner, or write policy").
Definition node_evidence (name : string) (stat : Stat) : ManagedFilesystemNodeEvidenceV1 :=
  mkNodeEvidence name (st_dev stat) (st_ino stat) (st_uid stat) (st_gid stat) (st_mode stat) (st_nlink stat).
(** A directory opened, and its owner and mode checked. *)
Definition open_owned (parent : Fd) (relative : string) (uid gid : Z) (label : string) : PointerM X Fd (Fd * Stat) :=
  let! opened := open_directory_beneath parent relative in
  let! stat := sys (sys_fstat opened) in
  require_directory_owner stat uid gid label ;!
  pure (Ok (opened, stat)).

(** [reference_ancestry_evidence]. *)
Fixpoint ancestry_loop (git_directory : Fd) (uid gid : Z) (relative : string) (l : list Component)
    : PointerM X Fd (list ManagedFilesystemNodeEvidenceV1) :=
  match l with
  | [] => pure (Ok [])
  | Normal component :: rest =>
      let relative := path_push relative (Normal component) in
      let! (_, stat) := open_owned git_directory relative uid gid "managed-ref ancestry" in
      let! name := pure (utf8_path relative) in
      let! nodes := ancestry_loop git_directory uid gid relative rest in
      pure (Ok (node_evidence name stat :: nodes))
  | _ :: _ => pure (Err PointerBindingMismatch)
  end.
Definition reference_ancestry_evidence (git_directory : Fd) (reference : string) (uid gid : Z)
    : PointerM X Fd (list ManagedFilesystemNodeEvidenceV1) :=
  let! parent := pure (ok_or PointerBindingMismatch (path_parent reference)) in
  pure (reject_if (negb (starts_with reference "refs/heads/")) PointerBindingMismatch) ;!
  let! ancestry := ancestry_loop git_directory uid gid EmptyString (components parent) in
  pure (reject_if match ancestry with node :: _ => ne_name node != "refs" | [] => true end PointerBindingMismatch) ;!
  pure (Ok ancestry).

Definition reject_entry (parent : Fd) (relative label : string) : PointerM X Fd unit :=
  st_try (on_host (open_under parent relative (Existing [OPATH; CLOEXEC; NOFOLLOW]))) (fun opened =>
    pure match opened with
         | Ok _ => Err (UnsafeRepository (label +:+ " are outside the managed-pointer contract"))
         | Err NOENT => Ok tt
         | Err e => Err (UnsafeRepository ("could not inspect forbidden " +:+ label +:+ ": " +:+ errno_text e))
         | Panic => Panic
         end).

(** ** Reading files *)

(** Whether two readings of one descriptor show the same file. *)
Definition same_file (before after : Stat) : bool :=
  (st_dev before =? st_dev after)%Z && (st_ino before =? st_ino after)%Z && (st_size before =? st_size after)%Z
  && (st_mtime before =? st_mtime after)%Z && (st_ctime before =? st_ctime after)%Z.
Definition private_file (stat : Stat) (uid gid : Z) : bool :=
  is_file (st_mode stat) && (st_nlink stat =? 1)%Z && (st_uid stat =? uid)%Z && (st_gid stat =? gid)%Z
  && (Z.land (st_mode stat) 18 =? 0)%Z.

(** [read_regular_digest_and_node]. *)
Definition read_regular_digest_and_node (parent : Fd) (relative : string) (maximum uid gid : Z)
    : PointerM X Fd (Digest * ManagedFilesystemNodeEvidenceV1 * bytes) :=
  let! file := st_map_err (fun e => UnsafeRepository ("could not open exact config: " +:+ errno_text e))
                 (on_host (open_under parent relative open_regular_nonblock)) in
  let! before := sys (sys_fstat file) in
  let size := st_size before in
  unsafe_if (size <? 0)%Z "config has a negative size" ;!
  unsafe_if (negb (private_file before uid gid) || (maximum <? size)%Z)
    "config type, custody, link count, or size is unsafe" ;!
  let! b := io (sys_read_to_end file (saturating_add_u64 maximum 1)) in
  let! after := sys (sys_fstat file) in
  unsafe_if (negb (Z.of_nat (length b) =? size)%Z || negb (same_file before after)) "config changed during descriptor read" ;!
  let! name := pure (utf8_path relative) in
  pure (Ok (hash_bytes b, node_evidence name after, b)).
(** [read_regular_bytes]. *)
Definition read_regular_bytes (parent : Fd) (relative : string) (maximum : Z) : PointerM X Fd bytes :=
  let! file := st_map_err (fun e => UnsafeRepository ("could not open exact file: " +:+ errno_text e))
                 (on_host (open_under parent relative open_regular_nonblock)) in
  let! before := sys (sys_fstat file) in
  let size := st_size before in
  unsafe_if (size <? 0)%Z "file has a negative size" ;!
  unsafe_if (negb (is_file (st_mode before)) || negb (st_nlink before =? 1)%Z || (maximum <? size)%Z)
    "file type, link count, or size is unsafe" ;!
  let! b := io (sys_read_to_end file (saturating_add_u64 maximum 1)) in
  let! after := sys (sys_fstat file) in
  unsafe_if (negb (Z.of_nat (length b) =? size)%Z || negb (same_file before after)) "file changed during descriptor read" ;!
  pure (Ok b).

(** The directories above a path, from the nearest, up to the empty path; the
    text gets shorter, so its length is fuel enough. *)
Fixpoint parents (fuel : nat) (current : option string) : list string :=
  match fuel, current with
  | S fuel, Some directory => if directory == EmptyString then [] else directory :: parents fuel (path_parent directory)
  | _, _ => []
  end.
Definition parents_of (path : string) : list string := parents (S (String.length path)) (path_parent path).
Fixpoint each {A} (f : A -> PointerM X Fd unit) (l : list A) : PointerM X Fd unit :=
  match l with [] => pure (Ok tt) | x :: r => f x ;! each f r end.

(** [open_safe_reference]. *)
Definition open_safe_reference (git_directory : Fd) (reference : string) (uid gid : Z) : PointerM X Fd Fd :=
  pure (reject_if (negb (starts_with reference "refs/heads/") || (path_parent reference == None)) PointerBindingMismatch) ;!
  each (fun directory => open_owned git_directory directory uid gid "reference ancestry" ;! pure (Ok tt)) (parents_of reference) ;!
  let! reference_file := sys (open_under git_directory reference open_regular) in
  let! stat := sys (sys_fstat reference_file) in
  unsafe_if (negb (private_file stat uid gid)) "managed reference has unsafe metadata" ;!
  pure (Ok reference_file).
(** [read_loose_reference]. *)
Definition read_loose_reference (git_directory : Fd) (reference : string) (uid gid : Z) (format : GitObjectFormatV1)
    : PointerM X Fd (string * ManagedFilesystemNodeEvidenceV1) :=
  let! file := open_safe_reference git_directory reference uid gid in
  let! before := sys (sys_fstat file) in
  let expected_size := match format with Sha1 => 41%Z | Sha256 => 65%Z end in
  pure (reject_if (negb (st_size before =? expected_size)%Z)
          (PointerPrestateDrift "managed loose ref does not contain one canonical object ID")) ;!
  let! b := io (sys_read_to_end file (saturating_add_u64 expected_size 1)) in
  let! after := sys (sys_fstat file) in
  pure (reject_if (negb (Z.of_nat (length b) =? expected_size)%Z || negb (same_file before after))
          (PointerPrestateDrift "managed loose ref changed during descriptor read")) ;!
  let! object := pure (canonical_object_output b format) in
  pure (Ok (object, node_evidence reference after)).
(** [sync_reference]. *)
Definition sync_reference (git_directory : Fd) (reference : string) (uid gid : Z) : PointerM X Fd unit :=
  let! reference_file := open_safe_reference git_directory reference uid gid in
  sys (sys_fsync reference_file) ;!
  each (fun directory => let! opened := open_directory_beneath git_directory directory in sys (sys_fsync opened))
    (parents_of reference) ;!
  sys (sys_fsync git_directory).

(** [hash_file]. *)
Definition hash_file (file : Fd) : PointerM X Fd Digest :=
  sys (sys_seek_start file) ;!
  let! stat := sys (sys_fstat file) in
  let! b := io (sys_read_to_end file (saturating_add_u64 (st_size stat) 1)) in
  sys (sys_seek_start file) ;!
  pure (reject_if (negb (Z.of_nat (length b) =? st_size stat)%Z) (PointerArtifact "prepared PACK changed during descriptor read")) ;!
  pure (Ok (hash_bytes b)).
(** [reopen_read_only]. *)
Definition reopen_read_only (file : Fd) : PointerM X Fd Fd :=
  let! before := sys (sys_fstat file) in
  let! reopened := sys (sys_reopen file) in
  let! after := sys (sys_fstat reopened) in
  pure (reject_if (negb (st_dev before =? st_dev after)%Z || negb (st_ino before =? st_ino after)%Z)
          (PointerArtifact "read-only pack reopen changed descriptor identity")) ;!
  pure (Ok reopened).
(** [sync_imported_object_file]. *)
Definition sync_imported_object_file (parent : Fd) (name : string) (uid gid : Z) : PointerM X Fd (Digest * Z) :=
  let! file := sys (open_under parent name open_regular) in
  let! stat := sys (sys_fstat file) in
  unsafe_if (negb (private_file stat uid gid)) "imported object file has unsafe metadata" ;!
  let size := st_size stat in
  pure (reject_if (size <? 0)%Z (PointerArtifact "imported object file has negative size")) ;!
  let! b := io (sys_read_to_end file (saturating_add_u64 size 1)) in
  pure (reject_if (negb (Z.of_nat (length b) =? size)%Z) (PointerArtifact "imported object file changed during read")) ;!
  sys (sys_fsync file) ;!
  pure (Ok (hash_bytes b, size)).

(** ** The pinned executable *)

Definition pinned_git_metadata_is_safe (s : Stat) : bool :=
  is_file (st_mode s) && (st_uid s =? 0)%Z && (st_nlink s =? 1)%Z && (Z.land (st_mode s) 3602 =? 0)%Z
  && negb (Z.land (st_mode s) 73 =? 0)%Z && (0 <? st_size s)%Z && (st_size s <=? MAX_GIT_EXECUTABLE_BYTES)%Z.
Definition require_no_security_capability (file : Fd) : PointerM X Fd unit :=
  st_try (on_host (sys_fgetxattr file "security.capability")) (fun answer =>
    pure match answer with Err e => if e == NODATA then Ok tt else Err GitIdentityMismatch | _ => Err GitIdentityMismatch end).
Definition read_exact_git_bytes (file : Fd) (size : Z) : PointerM X Fd bytes :=
  sys (sys_seek_start file) ;!
  let! b := io (sys_read_to_end file (saturating_add_u64 size 1)) in
  sys (sys_seek_start file) ;!
  pure (reject_if (negb (Z.of_nat (length b) =? size)%Z) GitIdentityMismatch) ;!
  pure (Ok b).
Definition read_exact_git_digest (file : Fd) (size : Z) : PointerM X Fd Digest :=
  let! b := read_exact_git_bytes file size in pure (Ok (hash_bytes b)).
(** [SEAL], [SHRINK], [GROW] and [WRITE]. *)
Definition REQUIRED_SEALS : Z := 15.
Definition seals_missing (seals : Z) : bool := negb (Z.land seals REQUIRED_SEALS =? REQUIRED_SEALS)%Z.
Definition sealed_executable_snapshot (b : bytes) : PointerM X Fd Fd :=
  let! snapshot := sys (sys_memfd_create "ag-managed-pointer-git") in
  io (sys_write_all snapshot b) ;!
  sys (sys_fsync snapshot) ;!
  sys (sys_fchmod snapshot 365) ;!
  sys (sys_add_seals snapshot REQUIRED_SEALS) ;!
  let! seals := sys (sys_get_seals snapshot) in
  pure (reject_if (seals_missing seals) GitIdentityMismatch) ;!
  sys (sys_seek_start snapshot) ;!
  pure (Ok snapshot).
(** [PinnedGitV1::open_inner]. *)
Definition git_open_inner (path : string) (expected : option Digest) : PointerM X Fd (PinnedGitV1 Fd) :=
  let! source := sys (sys_open path) in
  let! metadata := sys (sys_fstat source) in
  pure (reject_if (negb (pinned_git_metadata_is_safe metadata)) GitIdentityMismatch) ;!
  require_no_security_capability source ;!
  let! b := read_exact_git_bytes source (st_size metadata) in
  let executable := hash_bytes b in
  pure (reject_if match expected with Some d => executable != d | None => false end GitIdentityMismatch) ;!
  let! snapshot := sealed_executable_snapshot b in
  let! copied := read_exact_git_digest snapshot (st_size metadata) in
  pure (reject_if (copied != executable) GitIdentityMismatch) ;!
  pure (Ok (mkPinnedGit path source snapshot executable (st_dev metadata) (st_ino metadata) (st_size metadata)
              (st_gid metadata) (Z.land (st_mode metadata) 4095))).
Definition git_open (path : string) (expected : Digest) : PointerM X Fd (PinnedGitV1 Fd) := git_open_inner path (Some expected).
Definition git_measure (path : string) : PointerM X Fd (PinnedGitV1 Fd) := git_open_inner path None.
Definition unlike_pinned (git : PinnedGitV1 Fd) (metadata : Stat) : bool :=
  negb (st_dev metadata =? pg_device git)%Z || negb (st_ino metadata =? pg_inode git)%Z
  || negb (st_size metadata =? pg_size git)%Z || negb (st_gid metadata =? pg_gid git)%Z
  || negb (Z.land (st_mode metadata) 4095 =? pg_mode git)%Z.
(** [PinnedGitV1::revalidate]. *)
Definition revalidate (git : PinnedGitV1 Fd) : PointerM X Fd unit :=
  let! reopened := sys (sys_open (pg_path git)) in
  let! reopened_metadata := sys (sys_fstat reopened) in
  let! retained_metadata := sys (sys_fstat (pg_source git)) in
  pure (reject_if (negb (pinned_git_metadata_is_safe reopened_metadata) || negb (pinned_git_metadata_is_safe retained_metadata)
                   || unlike_pinned git reopened_metadata || unlike_pinned git retained_metadata) GitIdentityMismatch) ;!
  require_no_security_capability reopened ;!
  require_no_security_capability (pg_source git) ;!
  let! source := read_exact_git_digest (pg_source git) (pg_size git) in
  pure (reject_if (source != pg_executable git) GitIdentityMismatch) ;!
  let! snapshot := read_exact_git_digest (pg_snapshot git) (pg_size git) in
  pure (reject_if (snapshot != pg_executable git) GitIdentityMismatch) ;!
  let! seals := st_map_err (fun _ => GitIdentityMismatch) (on_host (sys_get_seals (pg_snapshot git))) in
  pure (reject_if (seals_missing seals) GitIdentityMismatch).
(** [self.git.lock()]. *)
Definition lock_git (t : ManagedPointerTargetV1 Fd) : PointerM X Fd (PinnedGitV1 Fd) :=
  let! acquired := ask (git_lock (pg_snapshot (mt_git t))) in
  pure (reject_if (negb acquired) GitIdentityMismatch) ;!
  pure (Ok (mt_git t)).

(** ** The environment of a child *)

Definition empty_environment : GitEnvironmentV1 Fd := mkGitEnvironment [] [] [].
(** [GitEnvironmentV1::descriptor_path], [::admit_write_root] and [::writable_descriptor_path]. *)
Definition descriptor_path (key : string) (descriptor : Fd) (suffix : option string) (e : GitEnvironmentV1 Fd)
    : PointerM X Fd (GitEnvironmentV1 Fd) :=
  let! number := sys (sys_dupfd_cloexec descriptor) in
  let value := "/proc/self/fd/" +:+ u64_to_string number +:+ match suffix with Some s => "/" +:+ s | None => EmptyString end in
  pure (Ok (mkGitEnvironment (ge_values e ++ [(key, value)]) (ge_retained_descriptors e ++ [(number, descriptor)])
              (ge_writable_roots e))).
Definition admit_write_root (descriptor : Fd) (e : GitEnvironmentV1 Fd) : PointerM X Fd (GitEnvironmentV1 Fd) :=
  let! number := sys (sys_dupfd_cloexec descriptor) in
  pure (Ok (mkGitEnvironment (ge_values e) (ge_retained_descriptors e) (ge_writable_roots e ++ [(number, descriptor)]))).
Definition writable_descriptor_path (key : string) (descriptor : Fd) (suffix : option string) (e : GitEnvironmentV1 Fd)
    : PointerM X Fd (GitEnvironmentV1 Fd) :=
  let! e := descriptor_path key descriptor suffix e in admit_write_root descriptor e.

Definition FIXED_ENVIRONMENT : list (string * string) :=
  [("LC_ALL", "C"); ("HOME", "/nonexistent"); ("GIT_CONFIG_NOSYSTEM", "1"); ("GIT_CONFIG_GLOBAL", "/dev/null");
   ("GIT_ATTR_NOSYSTEM", "1"); ("GIT_TERMINAL_PROMPT", "0"); ("GIT_OPTIONAL_LOCKS", "0"); ("GIT_NO_REPLACE_OBJECTS", "1");
   ("GIT_LITERAL_PATHSPECS", "1"); ("GIT_PROTOCOL_FROM_USER", "0"); ("GIT_ALLOW_PROTOCOL", EmptyString);
   ("GIT_EXEC_PATH", "/dev/null"); ("GIT_ASKPASS", "/dev/null"); ("SSH_ASKPASS", "/dev/null")].
Definition FIXED_CONFIG : list string :=
  ["core.hooksPath=/dev/null"; "core.fsmonitor=false"; "gc.auto=0"; "maintenance.auto=false"; "core.fsync=reference";
   "core.sharedRepository=0600"; "pack.writeReverseIndex=false"; "core.logAllRefUpdates=false"; "protocol.allow=never"].
Definition fixed_arguments : list string := "--no-pager" :: flat_map (fun c => ["-c"; c]) FIXED_CONFIG.

(** ** One child *)

(** [SystemManagedPointerClockV1::now_unix_ms]. *)
Definition pointer_now : PointerM X Fd Z :=
  let! elapsed := ask sys_time in
  pure (match elapsed with
        | Some now => if (now <=? U64_MAX)%Z then Ok now else Err ClockUnavailable
        | None => Err ClockUnavailable
        end).
(** The identity a child enters. *)
Definition target_identity (t : ManagedPointerTargetV1 Fd) (target_owner : bool) : PointerM X Fd (option (Z * Z)) :=
  if target_owner then
    let! w := get in
    if (sys_geteuid (pw_host w) =? 0)%Z then
      let! supplementary :=
        st_map_err (fun e => UnsafeRepository ("could not inspect broker supplementary groups: " +:+ nix_errno_text e))
          (on_host sys_getgroups) in
      unsafe_if (negb (length supplementary =? 0))
        "root broker has supplementary groups and cannot safely enter target identity" ;!
      pure (Ok (Some (mt_uid t, mt_gid t)))
    else
      unsafe_if (negb (sys_geteuid (pw_host w) =? mt_uid t)%Z || negb (sys_getegid (pw_host w) =? mt_gid t)%Z)
        "unprivileged broker cannot enter the configured target identity" ;!
      pure (Ok None)
  else pure (Ok None).
Definition require_privilege_floor : PointerM X Fd unit :=
  st_map_err (fun _ => PrivilegeFloorUnavailable) (on_host sys_set_no_new_privs) ;!
  let! floor := st_map_err (fun _ => PrivilegeFloorUnavailable) (on_host sys_get_no_new_privs) in
  pure (reject_if (negb floor) PrivilegeFloorUnavailable).
(** The guard of a commit: the clock is read last. *)
Definition commit_guard (expires : option Z) : PointerM X Fd unit :=
  match expires with
  | Some expires_unix_ms =>
      let! now := pointer_now in pure (reject_if (expires_unix_ms <=? now)%Z PromotionExpiredBeforeCas)
  | None => pure (Ok tt)
  end.
(** A child that is dropped before it was reaped is killed. *)
Definition reaping {A} (child : Z) (m : PointerM X Fd A) : PointerM X Fd A :=
  st_try m (fun answer =>
    match answer with
    | Ok a => pure (Ok a)
    | Err e => ask (fun x => (git_kill child x, tt)) ;! pure (Err e)
    | Panic => pure Panic
    end).
(** The polling loop: after [polls] sleeps of ten milliseconds at least that much
    time has passed, so the deadline ends it. *)
Fixpoint wait_loop (fuel : nat) (operation : GitOperationV1) (child polls : Z) : PointerM X Fd (option Z) :=
  let! status := io (git_try_wait child) in
  match status with
  | Some status => pure (Ok status)
  | None =>
      let! late := ask git_late in
      if (GIT_COMMAND_TIMEOUT_MS <=? 10 * polls + Z.max 0 late)%Z
      then pure (Err (GitFailed (operation_str operation) "operation exceeded its fixed deadline"))
      else match fuel with
           | O => pure Panic
           | S fuel => wait_loop fuel operation child (polls + 1)
           end
  end.
Definition POLLS : nat := 3000.
Definition run_git_inner (t : ManagedPointerTargetV1 Fd) (operation : GitOperationV1) (arguments : list string)
    (environment : GitEnvironmentV1 Fd) (stdin : option Fd) (target_owner : bool) (expires : option Z)
    : PointerM X Fd GitOutputV1 :=
  let! git := lock_git t in
  revalidate git ;!
  let! user := target_identity t target_owner in
  require_privilege_floor ;!
  commit_guard expires ;!
  let launch := mkLaunch (pg_snapshot git) operation (fixed_arguments ++ operation_str operation :: arguments)
                  (FIXED_ENVIRONMENT ++ ge_values environment) user stdin (ge_retained_descriptors environment)
                  (ge_writable_roots environment) in
  record_event (Launched launch) ;!
  let! child := io (git_spawn launch) in
  let! status := reaping child (wait_loop POLLS operation child 0) in
  let! stdout := io (git_stdout child) in
  let! stderr := io (git_stderr child) in
  pure (Ok (mkGitOutput status (read_bounded_output stdout) (read_bounded_output stderr))).
Definition run_git (t : ManagedPointerTargetV1 Fd) (operation : GitOperationV1) (arguments : list string)
    (environment : GitEnvironmentV1 Fd) (stdin : option Fd) (target_owner : bool) : PointerM X Fd GitOutputV1 :=
  run_git_inner t operation arguments environment stdin target_owner None.
Definition run_git_update_ref (t : ManagedPointerTargetV1 Fd) (arguments : list string) (environment : GitEnvironmentV1 Fd)
    (expires_unix_ms : Z) : PointerM X Fd GitOutputV1 :=
  run_git_inner t UpdateRef arguments environment None true (Some expires_unix_ms).
Definition run_git_checked (t : ManagedPointerTargetV1 Fd) (operation : GitOperationV1) (arguments : list string)
    (environment : GitEnvironmentV1 Fd) (stdin : option Fd) (target_owner : bool) : PointerM X Fd bytes :=
  let! output := run_git t operation arguments environment stdin target_owner in
  pure (reject_if (negb (exit_success (go_status output)))
          (GitFailed (operation_str operation) (sanitized_git_diagnostic (go_stderr output)))) ;!
  pure (Ok (go_stdout output)).

(** ** Staging *)

Definition staging_root_refused (production_custody : bool) (euid : Z) (stat : Stat) : bool :=
  if production_custody
  then negb (is_ok (validate_production_staging_custody (is_dir (st_mode stat)) (st_uid stat) (st_gid stat) (st_mode stat)))
  else negb (is_dir (st_mode stat) && (st_uid stat =? euid)%Z && (Z.land (st_mode stat) 18 =? 0)%Z).
Fixpoint create_loop (attempts : nat) (root : Fd) (root_stat : Stat) : PointerM X Fd (StagingDirectoryV1 Fd) :=
  match attempts with
  | O => pure (Err (UnsafeRepository "could not allocate a unique staging directory"))
  | S attempts =>
      let! uuid := ask sys_uuid in
      let name := ".ag-promotion-" +:+ uuid in
      st_try (on_host (sys_mkdirat root name 448)) (fun made =>
        match made with
        | Ok _ =>
            let! directory := open_directory_beneath root name in
            let! stat := sys (sys_fstat directory) in
            unsafe_if (negb (is_dir (st_mode stat)) || negb (st_uid stat =? st_uid root_stat)%Z
                       || negb (st_gid stat =? st_gid root_stat)%Z || negb (Z.land (st_mode stat) 4095 =? 448)%Z)
              "new staging directory custody differs from its descriptor-bound root" ;!
            record_event (CreatedStage directory) ;!
            pure (Ok (mkStaging root name directory))
        | Err EXIST => create_loop attempts root root_stat
        | Err e => pure (Err (PointerIo (Os e)))
        | Panic => pure Panic
        end)
  end.
(** [StagingDirectoryV1::create]. *)
Definition staging_create (root : string) (production_custody : bool) : PointerM X Fd (StagingDirectoryV1 Fd) :=
  let! root_directory := open_absolute_directory root in
  let! root_stat := sys (sys_fstat root_directory) in
  let! w := get in
  unsafe_if (staging_root_refused production_custody (sys_geteuid (pw_host w)) root_stat)
    "staging root is not a broker-owned private directory" ;!
  create_loop 32 root_directory root_stat.
(** [Drop for StagingDirectoryV1]. *)
Definition staging_drop (stage : StagingDirectoryV1 Fd) : PointerM X Fd unit :=
  ignore (on_host (sys_remove_dir_all (sd_root stage) (sd_name stage))).
(** A body that drops the stage when it ends, or only when it fails. *)
Definition dropping {A} (stage : StagingDirectoryV1 Fd) (m : PointerM X Fd A) : PointerM X Fd A :=
  st_try m (fun answer => staging_drop stage ;! pure answer).
Definition dropping_on_error {A} (stage : StagingDirectoryV1 Fd) (m : PointerM X Fd A) : PointerM X Fd A :=
  st_try m (fun answer => match answer with Ok a => pure (Ok a) | _ => staging_drop stage ;! pure answer end).

(** [ManagedPointerTargetV1::initialize_staging]. *)
Definition initialize_staging (t : ManagedPointerTargetV1 Fd) (stage : StagingDirectoryV1 Fd) (format : GitObjectFormatV1)
    : PointerM X Fd unit :=
  let stage_fd := sd_directory stage in
  let! stage_stat := sys (sys_fstat stage_fd) in
  sys (sys_fchmod stage_fd 448) ;!
  (if negb (st_uid stage_stat =? mt_uid t)%Z || negb (st_gid stage_stat =? mt_gid t)%Z
   then sys (sys_fchown stage_fd (mt_uid t) (mt_gid t)) else pure (Ok tt)) ;!
  let! handed_off := sys (sys_fstat stage_fd) in
  unsafe_if (negb (is_dir (st_mode handed_off)) || negb (st_uid handed_off =? mt_uid t)%Z
             || negb (st_gid handed_off =? mt_gid t)%Z || negb (Z.land (st_mode handed_off) 4095 =? 448)%Z)
    "staging custody transfer did not reach the configured target identity" ;!
  let! environment := writable_descriptor_path "GIT_DIR" stage_fd None empty_environment in
  run_git_checked t Init ["--bare"; "--quiet"; "--template="; "--object-format=" +:+ object_format_name format]
    environment None true ;!
  pure (Ok tt).

(** ** The repository *)

(** [ManagedPointerTargetV1::open_repository]. *)
Definition FORBIDDEN_ENTRIES (reference : string) : list (string * string) :=
  [("worktrees", "linked worktrees"); ("commondir", "common-directory indirection");
   ("config.worktree", "per-worktree configuration"); (path_join "logs" reference, "managed-reference reflog");
   ("objects/info/alternates", "object alternates"); ("objects/info/http-alternates", "HTTP object alternates");
   ("shallow", "shallow repositories")].
Definition open_repository (t : ManagedPointerTargetV1 Fd) : PointerM X Fd (OpenRepositoryV1 Fd) :=
  let! root := sys sys_open_root in
  let! allowed_relative := pure (ok_or (UnsafeRepository "allowed root is not absolute") (path_strip_prefix (mt_allowed_root t) "/")) in
  let! allowed_root := open_directory_beneath root allowed_relative in
  let! allowed_stat := sys (sys_fstat allowed_root) in
  unsafe_if (negb (is_dir (st_mode allowed_stat)) || negb (Z.land (st_mode allowed_stat) 18 =? 0)%Z)
    "allowed root is writable by group or other" ;!
  let! repository_relative :=
    pure (ok_or (UnsafeRepository "repository is outside the configured allowed root")
            (path_strip_prefix (mt_repository t) (mt_allowed_root t))) in
  unsafe_if (repository_relative == EmptyString) "repository must be strictly beneath the allowed root" ;!
  let! (repository, repository_stat) := open_owned allowed_root repository_relative (mt_uid t) (mt_gid t) "repository root" in
  let! opened := open_optional_directory_beneath repository ".git" in
  let! (git_directory, bare) :=
    match opened with
    | Some git_directory => pure (Ok (git_directory, false))
    | None => let! copy := sys (sys_dup repository) in pure (Ok (copy, true))
    end in
  let! git_stat := sys (sys_fstat git_directory) in
  require_directory_owner git_stat (mt_uid t) (mt_gid t) "Git directory" ;!
  let! (objects, objects_stat) := open_owned git_directory "objects" (mt_uid t) (mt_gid t) "object directory" in
  let! (pack_directory, pack_stat) := open_owned objects "pack" (mt_uid t) (mt_gid t) "pack directory" in
  open_owned git_directory "refs" (mt_uid t) (mt_gid t) "reference directory" ;!
  let! reference_ancestry := reference_ancestry_evidence git_directory (mt_reference t) (mt_uid t) (mt_gid t) in
  each (fun '(entry, label) => reject_entry git_directory entry label) (FORBIDDEN_ENTRIES (mt_reference t)) ;!
  let! (config_digest, config_node, config_bytes) :=
    read_regular_digest_and_node git_directory "config" MAX_REPOSITORY_CONFIG_BYTES (mt_uid t) (mt_gid t) in
  pure (validate_closed_repository_config config_bytes) ;!
  let! environment := descriptor_path "GIT_DIR" git_directory None empty_environment in
  let! format_output := run_git_checked t RevParse ["--show-object-format"] environment None true in
  let! object_format := pure (parse_object_format format_output) in
  let! allowed_root_text := pure (utf8_path (mt_allowed_root t)) in
  let! repository_text := pure (utf8_path (mt_repository t)) in
  pure (Ok (mkOpenRepository repository git_directory objects pack_directory bare
    (mkRepositoryEvidence MANAGED_REPOSITORY_IDENTITY_SCHEMA_V1 allowed_root_text repository_text bare object_format
       (node_evidence "allowed-root" allowed_stat) (node_evidence "repository" repository_stat)
       (node_evidence "git-directory" git_stat) config_node (node_evidence "objects" objects_stat)
       (node_evidence "objects/pack" pack_stat) reference_ancestry
       (st_dev repository_stat) (st_ino repository_stat) (st_dev git_stat) (st_ino git_stat)
       (st_uid repository_stat) (st_gid repository_stat) config_digest))).

(** A Git answer that must be one object name. *)
Definition git_object (t : ManagedPointerTargetV1 Fd) (arguments : list string) (environment : GitEnvironmentV1 Fd)
    (format : GitObjectFormatV1) : PointerM X Fd string :=
  let! output := run_git_checked t RevParse arguments environment None true in
  pure (canonical_object_output output format).
Definition peel (object kind : string) : string := object +:+ "^{" +:+ kind +:+ "}".

(** [ManagedPointerTargetV1::observe_clean_worktree]. *)
Definition observe_clean_worktree (t : ManagedPointerTargetV1 Fd) (repository : OpenRepositoryV1 Fd) (current_object : string)
    : PointerM X Fd bool :=
  let! stage := staging_create (mt_staging_root t) (mt_production_staging_custody t) in
  dropping stage (
    initialize_staging t stage (ri_object_format (or_identity_evidence repository)) ;!
    let! e := descriptor_path "GIT_DIR" (sd_directory stage) None empty_environment in
    let! e := descriptor_path "GIT_OBJECT_DIRECTORY" (or_objects repository) None e in
    let! e := descriptor_path "GIT_INDEX_FILE" (or_git_directory repository) (Some "index") e in
    let! e := descriptor_path "GIT_WORK_TREE" (or_repository repository) None e in
    let! index := run_git t DiffIndex ["--quiet"; "--cached"; "--no-ext-diff"; "--no-textconv"; current_object; "--"] e None true in
    let! index_clean := pure (exit_is_clean_or_dirty (go_status index)) in
    if negb index_clean then pure (Ok false)
    else
      let! files := run_git t DiffFiles ["--quiet"; "--no-ext-diff"; "--no-textconv"; "--ignore-submodules=dirty"; "--"] e None true in
      let! files_clean := pure (exit_is_clean_or_dirty (go_status files)) in
      if negb files_clean then pure (Ok false)
      else
        let! others := run_git_checked t LsFiles ["--others"; "--directory"; "--no-empty-directory"; "--"] e None true in
        pure (Ok (exit_success (go_status index) && exit_success (go_status files) && (others == [])))).

(** [ManagedPointerTargetV1::observe_repository_state]; the log keeps what it returns. *)
Definition checked_out_state (t : ManagedPointerTargetV1 Fd) (repository : OpenRepositoryV1 Fd) (environment : GitEnvironmentV1 Fd)
    : PointerM X Fd (bool * bool) :=
  if or_bare repository then pure (Ok (true, false))
  else
    let! head := read_regular_bytes (or_git_directory repository) "HEAD" 4096 in
    let reference_checked_out := head == str_bytes ("ref: " +:+ mt_reference t) ++ [NEWLINE] in
    let! checkout_object := git_object t ["--verify"; "HEAD^{commit}"] environment (ri_object_format (or_identity_evidence repository)) in
    let! clean := observe_clean_worktree t repository checkout_object in
    pure (Ok (clean, reference_checked_out)).
Definition read_repository_state (t : ManagedPointerTargetV1 Fd) (repository : OpenRepositoryV1 Fd)
    : PointerM X Fd RepositoryStateV1 :=
  let format := ri_object_format (or_identity_evidence repository) in
  let! (direct_object, initial_reference) :=
    read_loose_reference (or_git_directory repository) (mt_reference t) (mt_uid t) (mt_gid t) format in
  let! environment := descriptor_path "GIT_DIR" (or_git_directory repository) None empty_environment in
  let! current_object := git_object t ["--verify"; peel (mt_reference t) "commit"] environment format in
  pure (reject_if (direct_object != current_object) (PointerPrestateDrift "loose ref bytes and Git resolution disagree")) ;!
  let! current_tree := git_object t ["--verify"; peel current_object "tree"] environment format in
  let! tree_entries := run_git_checked t LsTree ["-r"; "-z"; current_object] environment None true in
  unsafe_if (lists_gitlink tree_entries) "gitlinks in the existing target are outside the promotion contract" ;!
  let! (clean, reference_checked_out) := checked_out_state t repository environment in
  let! (final_direct_object, final_reference) :=
    read_loose_reference (or_git_directory repository) (mt_reference t) (mt_uid t) (mt_gid t) format in
  pure (reject_if ((final_direct_object != current_object) || (final_reference != initial_reference))
          (PointerPrestateDrift "managed loose ref changed during exact observation")) ;!
  let! repository_identity := pure (repository_evidence_identity (or_identity_evidence repository)) in
  pure (Ok (mkRepositoryState format current_object current_tree clean reference_checked_out
              (mkStateEvidence MANAGED_REPOSITORY_STATE_SCHEMA_V1 repository_identity final_reference current_object current_tree
                 clean reference_checked_out))).
Definition observe_repository_state (t : ManagedPointerTargetV1 Fd) (repository : OpenRepositoryV1 Fd)
    : PointerM X Fd RepositoryStateV1 :=
  let! state := read_repository_state t repository in
  record_event (ObservedState state) ;!
  pure (Ok state).

(** ** The candidate *)

Definition commit_kind : bytes := str_bytes "commit" ++ [NEWLINE].
(** The one parent in the answer of [rev-list --parents --max-count=1]. *)
Definition single_parent (candidate : string) (parents : bytes) : res ManagedPointerError string :=
  reject_if (negb (utf8_valid parents)) (InvalidBundle "parent output is not UTF-8") ;?
  let? parent_line := ok_or (InvalidBundle "parent output is malformed") (strip_newline parents) in
  match split_at (fun b => b == Byte.x20) parent_line with
  | [observed_candidate; candidate_parent] =>
      if (observed_candidate == str_bytes candidate) && negb (candidate_parent == [])
      then Ok (bytes_str candidate_parent)
      else Err (InvalidBundle "candidate must have exactly one parent")
  | _ => Err (InvalidBundle "candidate must have exactly one parent")
  end.
(** The body of [ManagedPointerTargetV1::stage_candidate], once the stage exists. *)
Definition stage_bundle (t : ManagedPointerTargetV1 Fd) (stage : StagingDirectoryV1 Fd) (bundle : StrictBundleV1)
    (repository_format : GitObjectFormatV1) : PointerM X Fd (StagedCandidateV1 Fd) :=
  initialize_staging t stage repository_format ;!
  let! pack := sys (open_under (sd_directory stage) "candidate.pack" (NewFile 384)) in
  io (sys_write_all pack (sb_pack bundle)) ;!
  sys (sys_fsync pack) ;!
  sys (sys_seek_start pack) ;!
  let! writable := writable_descriptor_path "GIT_DIR" (sd_directory stage) None empty_environment in
  let! stdin := reopen_read_only pack in
  run_git_checked t IndexPack ["--stdin"; "--max-input-size=" +:+ u64_to_string (Z.of_nat (length (sb_pack bundle)))]
    writable (Some stdin) true ;!
  let! environment := descriptor_path "GIT_DIR" (sd_directory stage) None empty_environment in
  let candidate := sb_candidate bundle in
  let! object_kind := run_git_checked t CatFile ["-t"; candidate] environment None true in
  pure (reject_if (object_kind != commit_kind) (InvalidBundle "candidate tip is not a commit")) ;!
  let! parents := run_git_checked t RevList ["--parents"; "--max-count=1"; candidate] environment None true in
  let! candidate_parent := pure (single_parent candidate parents) in
  let! parent_kind := run_git_checked t CatFile ["-t"; candidate_parent] environment None true in
  pure (reject_if (parent_kind != commit_kind)
          (InvalidBundle "candidate parent is absent from the self-contained bundle")) ;!
  let! candidate_tree := git_object t ["--verify"; peel candidate "tree"] environment repository_format in
  run_git_checked t Fsck ["--strict"; "--no-reflogs"; candidate] environment None true ;!
  let! tree_entries := run_git_checked t LsTree ["-r"; "-z"; candidate] environment None true in
  pure (reject_if (lists_gitlink tree_entries) (InvalidBundle "gitlinks are outside the promotion contract")) ;!
  sys (sys_seek_start pack) ;!
  pure (Ok (mkStagedCandidate stage pack candidate candidate_tree candidate_parent (sb_pack_digest bundle) repository_format)).
Definition stage_candidate (t : ManagedPointerTargetV1 Fd) (artifact : Digest) (b : bytes) (repository_format : GitObjectFormatV1)
    : PointerM X Fd (StagedCandidateV1 Fd) :=
  pure (reject_if (hash_bytes b != artifact) (PointerArtifact "candidate bytes differ from the admitted digest")) ;!
  let! bundle := pure (parse_strict_bundle b) in
  pure (reject_if (sb_object_format bundle != repository_format)
          (InvalidBundle "bundle and repository object formats differ")) ;!
  let! stage := staging_create (mt_staging_root t) (mt_production_staging_custody t) in
  dropping_on_error stage (stage_bundle t stage bundle repository_format).

(** [ManagedPointerTargetV1::import_pack]. *)
Definition import_pack (t : ManagedPointerTargetV1 Fd) (repository : OpenRepositoryV1 Fd) (pack : Fd)
    (object_format : GitObjectFormatV1) (candidate_pack_digest : Digest) : PointerM X Fd ImportedPackEvidenceV1 :=
  let! digest := hash_file pack in
  pure (reject_if (digest != candidate_pack_digest) (PointerArtifact "prepared PACK changed before object import")) ;!
  sys (sys_seek_start pack) ;!
  let! stat := sys (sys_fstat pack) in
  let pack_size := st_size stat in
  let! e := descriptor_path "GIT_DIR" (or_git_directory repository) None empty_environment in
  let! e := descriptor_path "GIT_OBJECT_DIRECTORY" (or_objects repository) None e in
  let! e := admit_write_root (or_pack_directory repository) e in
  let! stdin := reopen_read_only pack in
  let! output := run_git t IndexPack ["--stdin"; "--max-input-size=" +:+ u64_to_string pack_size] e (Some stdin) true in
  pure (reject_if (negb (exit_success (go_status output)))
          (GitFailed "index-pack" (sanitized_git_diagnostic (go_stderr output)))) ;!
  let! pack_checksum := pure (parse_index_pack_output (go_stdout output) object_format) in
  let! (pack_digest, imported_pack_size) :=
    sync_imported_object_file (or_pack_directory repository) ("pack-" +:+ pack_checksum +:+ ".pack") (mt_uid t) (mt_gid t) in
  let! (index_digest, index_size) :=
    sync_imported_object_file (or_pack_directory repository) ("pack-" +:+ pack_checksum +:+ ".idx") (mt_uid t) (mt_gid t) in
  pure (reject_if ((pack_digest != candidate_pack_digest) || negb (imported_pack_size =? pack_size)%Z)
          (PointerArtifact "target object database contains a different imported PACK")) ;!
  sys (sys_fsync (or_pack_directory repository)) ;!
  sys (sys_fsync (or_objects repository)) ;!
  pure (Ok (mkImportedPack "ag.managed-pointer.object-import/v1" pack_checksum candidate_pack_digest pack_digest
              imported_pack_size index_digest index_size (mt_uid t) (mt_gid t) true true true)).

(** [ManagedPointerTargetV1::verify_imported_candidate]. *)
Definition verify_imported_candidate (t : ManagedPointerTargetV1 Fd) (repository : OpenRepositoryV1 Fd)
    (candidate expected_tree : string) (object_format : GitObjectFormatV1) : PointerM X Fd unit :=
  let! environment := descriptor_path "GIT_DIR" (or_git_directory repository) None empty_environment in
  let! kind := run_git_checked t CatFile ["-t"; candidate] environment None true in
  pure (reject_if (kind != commit_kind) (PointerArtifact "imported candidate is not a commit")) ;!
  let! tree := git_object t ["--verify"; peel candidate "tree"] environment object_format in
  pure (reject_if (tree != expected_tree) (PointerArtifact "imported candidate tree differs from canonical poststate")).

End Git.
