(* ===== verification/PointerRuntime.v ===== *)
(** * Managed pointers: the runtime (ag-app/src/managed_pointer.rs)

    Genesis measurement and enrollment, readiness, quarantined preparation of a
    candidate, promotion standing, reversible preparation of a promotion, and
    the one compare-and-swap of the managed reference with its receipts. *)

From S2P Require Import Prelude Wire Fixture Digest Names Origin Capability Identity Protocol Paths Store StoreBlob HostFiles RpcAuth Config Effect Compile Proposal Executor Pointer PointerText PointerGit.

Record ManagedPointerRuntimeV1 (Fd : Type) : Type := mkRuntime {
  rt_targets : list (string * ManagedPointerTargetV1 Fd);
  rt_security_profile_identity : Digest
}.
Arguments mkRuntime {Fd} _ _.
Arguments rt_targets {Fd} _.
Arguments rt_security_profile_identity {Fd} _.
Record PreparedManagedPointerV1 (Fd : Type) : Type := mkPrepared {
  pm_effect : CanonicalEffectV1;
  pm_context : ManagedPointerExecutionContextV1;
  pm_target : TargetId;
  pm_pack : Fd;
  pm_stage : StagingDirectoryV1 Fd;
  pm_evidence : ManagedPointerPreparationEvidenceV1;
  pm_checkpoint : Digest
}.
Arguments mkPrepared {Fd} _ _ _ _ _ _ _.
Arguments pm_effect {Fd} _.
Arguments pm_context {Fd} _.
Arguments pm_target {Fd} _.
Arguments pm_pack {Fd} _.
Arguments pm_stage {Fd} _.
Arguments pm_evidence {Fd} _.
Arguments pm_checkpoint {Fd} _.
Record ManagedPointerCommitSuccessV1 : Type := mkCommitSuccess {
  sx_success : EffectSuccessV1;
  sx_commit_evidence : ManagedPointerCommitEvidenceV1;
  sx_poststate_evidence : ManagedPointerPoststateEvidenceV1;
  sx_activation_receipt : ManagedPointerActivationReceiptV1
}.
Inductive CommitErrorV1 : Type :=
  | CommitFailed (e : ManagedPointerError)
  | CommitIndeterminate (detail : string) (phase : ExecutionPhaseV1) (evidence : option Digest).

(** ** Exact states *)

Section States.
  Context `{Deps}.

Definition exact_prestate (fields : PromotionEffect) (state : RepositoryStateV1) : bool :=
  (st_object_format state == pp_object_format fields)
  && match state_identity (st_evidence state) with Ok identity => identity == pp_prestate_identity fields | _ => false end
  && (st_current_object state == pp_expected_object fields)
  && (st_current_tree state == pp_expected_tree fields)
  && st_clean state
  && negb (st_reference_checked_out state).
Definition exact_poststate (fields : PromotionEffect) (state : RepositoryStateV1) : bool :=
  (st_object_format state == pp_object_format fields)
  && (st_current_object state == pp_new_object fields)
  && (st_current_tree state == pp_expected_post_tree fields)
  && st_clean state
  && negb (st_reference_checked_out state).
Definition require_exact_prestate (fields : PromotionEffect) (state : RepositoryStateV1) : res ManagedPointerError unit :=
  reject_if (negb (exact_prestate fields state))
    (PointerPrestateDrift
       "layout, loose-ref inode/content, commit, tree, cleanliness, object format, or checked-out state drifted").
End States.

(** ** Receipts *)

Definition receipt_with_outcome (context : ManagedPointerExecutionContextV1) (effect : CanonicalEffectV1)
    (outcome : ExecutionOutcomeV1) : ExecutionReceiptV1 :=
  mkExecutionReceipt EXECUTION_RECEIPT_SCHEMA_V1 (xc_proposal context) (xc_authorization context) (xc_attempt context)
    (xc_effect_index context) effect outcome.

Section Receipts.
  Context `{ErrnoText, JcsErrorText, PointerTexts}.

Definition failure_class (e : ManagedPointerError) : ExecutionFailureCodeV1 * ExecutionPhaseV1 * string :=
  match e with
  | PointerArtifact _ => (ArtifactDigestMismatch, ArtifactLoad, "managed_pointer_artifact")
  | PointerStore _ => (ArtifactUnavailable, ArtifactLoad, "effectd_store_custody")
  | GitIdentityMismatch => (HelperIdentityMismatch, HelperIdentity, "git_executable_identity")
  | LaunchProfileMismatch => (HelperIdentityMismatch, HelperIdentity, "git_launch_profile")
  | PrivilegeFloorUnavailable => (HelperIdentityMismatch, HelperIdentity, "git_no_new_privileges")
  | ClockUnavailable => (LocalIoBeforeCommit, PrestateCheck, "managed_pointer_clock")
  | PromotionExpiredBeforeCas => (PrestateDrift, PrestateCheck, "managed_pointer_expired_before_cas")
  | GitFailed operation _ => (BackendRejected, if operation == "update-ref" then PointerCas else Staging, operation)
  | PointerIo _ => (LocalIoBeforeCommit, Staging, "managed_pointer_io")
  | TargetUnavailable | GenesisMeasurementInvalid | GenesisMeasurementDrift | PreparationStandingAbsent
  | PreparationStandingScopeMismatch | PreparationBudgetExceeded | ProtectedProjectionChanged | PromotionStandingMismatch
  | PointerBindingMismatch | UnsafeRepository _ | InvalidBundle _ | PointerPrestateDrift _ | PointerCanonical _ =>
      (PrestateDrift, PrestateCheck, "managed_pointer_precondition")
  end.
Definition failure_outcome (e : ManagedPointerError) : ExecutionOutcomeV1 :=
  let '(code, phase, source_code) := failure_class e in
  OutFailed (mkFailure code phase (pointer_error_text e) (Some source_code) None).
Definition failure_receipt (context : ManagedPointerExecutionContextV1) (effect : CanonicalEffectV1) (e : ManagedPointerError)
    : ExecutionReceiptV1 := receipt_with_outcome context effect (failure_outcome e).
End Receipts.

Section Runtime.
  Context `{Deps, ErrnoText, JcsErrorText, PointerTexts} {X Fd : Type} `{!PointerHost X Fd}.

(** ** Bindings of a target *)

Definition drifted (cond : bool) (detail : string) : PointerM X Fd unit := pure (reject_if cond (PointerPrestateDrift detail)).

Definition require_enrolled_repository (t : ManagedPointerTargetV1 Fd) (repository : OpenRepositoryV1 Fd) : PointerM X Fd unit :=
  let evidence := or_identity_evidence repository in
  let! identity := pure (repository_evidence_identity evidence) in
  drifted ((identity != mt_repository_identity t) || negb (ri_uid evidence =? mt_uid t)%Z || negb (ri_gid evidence =? mt_gid t)%Z)
    "descriptor-bound repository differs from its enrollment".

(** The comparison of [verify_canonical_bindings], in its order. *)
Definition canonical_bindings (t : ManagedPointerTargetV1 Fd) (fields : PromotionEffect) (repository_relative : string)
    (executable : Digest) : res ManagedPointerError bool :=
  if pp_schema fields != MANAGED_POINTER_PROMOTION_SCHEMA_V2 then Ok false
  else
    let? allowed_root := utf8_path (mt_allowed_root t) in
    if pp_allowed_root fields != allowed_root then Ok false
    else
      let? repository := utf8_path repository_relative in
      if (pp_repository fields != repository) || (pp_reference fields != mt_reference t)
         || (pp_repository_identity fields != mt_repository_identity t)
         || negb (pp_uid fields =? mt_uid t)%Z || negb (pp_gid fields =? mt_gid t)%Z
      then Ok false
      else
        let? staging_root := utf8_path (mt_staging_root t) in
        Ok ((pp_staging_root fields == staging_root) && (pp_helper_executable fields == executable)
            && (pp_helper_launch_profile fields == mt_launch_profile t) && (0 <? pp_expires_unix_ms fields)%Z
            && (0 <? mt_promotion_ttl_ms t)%Z).
Definition verify_canonical_bindings (t : ManagedPointerTargetV1 Fd) (fields : PromotionEffect) : PointerM X Fd unit :=
  let! git := lock_git t in
  let! repository_relative := pure (ok_or PointerBindingMismatch (path_strip_prefix (mt_repository t) (mt_allowed_root t))) in
  let! matches := pure (canonical_bindings t fields repository_relative (pg_executable git)) in
  pure (reject_if (negb matches) PointerBindingMismatch).
Definition require_canonical_repository (fields : PromotionEffect) (repository : OpenRepositoryV1 Fd) : PointerM X Fd unit :=
  let evidence := or_identity_evidence repository in
  let! identity := pure (repository_evidence_identity evidence) in
  drifted ((identity != pp_repository_identity fields)
           || negb (ri_repository_device evidence =? pp_repository_device fields)%Z
           || negb (ri_repository_inode evidence =? pp_repository_inode fields)%Z
           || negb (ri_git_directory_device evidence =? pp_git_directory_device fields)%Z
           || negb (ri_git_directory_inode evidence =? pp_git_directory_inode fields)%Z
           || negb (ri_uid evidence =? pp_uid fields)%Z || negb (ri_gid evidence =? pp_gid fields)%Z
           || (ri_object_format evidence != pp_object_format fields))
    "descriptor-bound repository identity differs from canonical prestate".
Definition target_of (rt : ManagedPointerRuntimeV1 Fd) (target : TargetId) : PointerM X Fd (ManagedPointerTargetV1 Fd) :=
  pure (ok_or TargetUnavailable (btree_get (target_str target) (rt_targets rt))).
(** The target opened, with the effect's repository, and observed. *)
Definition open_canonical (t : ManagedPointerTargetV1 Fd) (fields : PromotionEffect)
    : PointerM X Fd (OpenRepositoryV1 Fd * RepositoryStateV1) :=
  let! repository := open_repository t in
  require_canonical_repository fields repository ;!
  let! state := observe_repository_state t repository in
  pure (Ok (repository, state)).
(** ... and in the exact prestate. *)
Definition open_exact_prestate (t : ManagedPointerTargetV1 Fd) (fields : PromotionEffect)
    : PointerM X Fd (OpenRepositoryV1 Fd * RepositoryStateV1) :=
  let! (repository, state) := open_canonical t fields in
  pure (require_exact_prestate fields state) ;!
  pure (Ok (repository, state)).
(** The target opened, with its enrolled repository, and observed. *)
Definition open_enrolled (t : ManagedPointerTargetV1 Fd) : PointerM X Fd (OpenRepositoryV1 Fd * RepositoryStateV1) :=
  let! repository := open_repository t in
  require_enrolled_repository t repository ;!
  let! state := observe_repository_state t repository in
  pure (Ok (repository, state)).

(** ** Genesis *)

Definition measure_managed_pointer_genesis (request : ManagedPointerGenesisRequestV1) (context : ManagedPointerGenesisContextV1)
    : PointerM X Fd ManagedPointerGenesisMeasurementV1 :=
  pure (genesis_request_validate request) ;!
  pure (genesis_context_validate context) ;!
  let profile := security_profile_identity (gr_security_profile request) in
  let! git := git_measure (gr_helper request) in
  let helper_executable := pg_executable git in
  let! helper_launch_profile := pure (managed_pointer_launch_profile_identity profile helper_executable) in
  let! staging := open_absolute_directory (gr_staging_root request) in
  let! staging_stat := sys (sys_fstat staging) in
  (if gr_security_profile request == "development" then
     let! w := get in
     unsafe_if (negb (is_dir (st_mode staging_stat)) || negb (st_uid staging_stat =? sys_geteuid (pw_host w))%Z
                || negb (Z.land (st_mode staging_stat) 18 =? 0)%Z)
       "development staging root is not private caller custody"
   else pure (validate_production_staging_custody (is_dir (st_mode staging_stat)) (st_uid staging_stat) (st_gid staging_stat)
                (st_mode staging_stat))) ;!
  let target := mkRuntimeTarget (gr_allowed_root request) (gr_repository request) (gr_reference request) EmptyString EmptyString
                  (hash_bytes (str_bytes "unenrolled-genesis")) (hash_bytes (str_bytes "unenrolled-repository"))
                  (gr_uid request) (gr_gid request) (gr_staging_root request) (gr_security_profile request != "development")
                  (gr_promotion_ttl_ms request) git helper_launch_profile in
  let! repository := open_repository target in
  let! state := observe_repository_state target repository in
  drifted (negb (st_clean state) || st_reference_checked_out state)
    "genesis ref is checked out or the repository worktree is dirty" ;!
  let repository_layout := or_identity_evidence repository in
  let! repository_identity := pure (repository_evidence_identity repository_layout) in
  pure (reject_if (rs_repository_identity (st_evidence state) != repository_identity) GenesisMeasurementInvalid) ;!
  let! request_identity := pure (genesis_request_identity request) in
  let! activation_genesis_state := pure (state_identity (st_evidence state)) in
  let measurement :=
    mkMeasurement MANAGED_POINTER_GENESIS_MEASUREMENT_SCHEMA_V1 context request request_identity profile helper_executable
      helper_launch_profile repository_layout repository_identity (st_evidence state) activation_genesis_state
      (st_current_object state) (st_current_tree state) (node_evidence "staging-root" staging_stat) in
  pure (measurement_verify measurement) ;!
  pure (Ok measurement).

Definition enroll_managed_pointer_genesis (request : ManagedPointerGenesisRequestV1) (context : ManagedPointerGenesisContextV1)
    (reviewed : ManagedPointerGenesisMeasurementV1) : PointerM X Fd (EffectTargetConfigV1 * Digest) :=
  pure (measurement_verify reviewed) ;!
  pure (genesis_context_validate context) ;!
  pure (reject_if ((gm_request reviewed != request) || (gm_context reviewed != context)) GenesisMeasurementInvalid) ;!
  let! reviewed_identity := pure (measurement_identity reviewed) in
  let! fresh := measure_managed_pointer_genesis request context in
  pure (reject_if (fresh != reviewed) GenesisMeasurementDrift) ;!
  let! fresh_identity := pure (measurement_identity fresh) in
  pure (reject_if (fresh_identity != reviewed_identity) GenesisMeasurementDrift) ;!
  pure (Ok (CfgManagedPointer (mkPointerTarget (gr_target request) (gr_allowed_root request) (gr_repository request)
              (gr_reference request) (gm_activation_genesis_object reviewed) (gm_activation_genesis_tree reviewed)
              (gm_activation_genesis_state reviewed) (gm_repository_identity reviewed) (gr_uid request) (gr_gid request)
              (gr_staging_root request) (gr_promotion_ttl_ms request) (gr_helper request) (gm_helper_executable reviewed)
              (gm_helper_launch_profile reviewed)), reviewed_identity)).

(** ** The runtime's targets *)

Fixpoint configured_targets (config : EffectdConfigV1) (profile : Digest) (acc : list (string * ManagedPointerTargetV1 Fd))
    (l : list EffectTargetConfigV1) : PointerM X Fd (list (string * ManagedPointerTargetV1 Fd)) :=
  match l with
  | [] => pure (Ok acc)
  | CfgManagedPointer c :: rest =>
      let! target := pure (map_err (fun _ => PointerBindingMismatch) (TargetId_parse (pt_id c))) in
      let! git := git_open (pt_helper c) (pt_helper_executable c) in
      let! launch_profile := pure (managed_pointer_launch_profile_identity profile (pg_executable git)) in
      pure (reject_if (launch_profile != pt_helper_launch_profile c) LaunchProfileMismatch) ;!
      let entry := mkRuntimeTarget (pt_allowed_root c) (pt_repository c) (pt_reference c) (pt_activation_genesis_object c)
                     (pt_activation_genesis_tree c) (pt_activation_genesis_state c) (pt_repository_identity c) (pt_uid c)
                     (pt_gid c) (pt_staging_root c) (ec_security_profile config != "development") (pt_promotion_ttl_ms c)
                     git launch_profile in
      pure (reject_if (match btree_get (target_str target) acc with Some _ => true | None => false end) PointerBindingMismatch) ;!
      configured_targets config profile (btree_insert (target_str target) entry acc) rest
  | _ :: rest => configured_targets config profile acc rest
  end.
(** [ManagedPointerRuntimeV1::from_config]. *)
Definition from_config (config : EffectdConfigV1) : PointerM X Fd (ManagedPointerRuntimeV1 Fd) :=
  let profile := security_profile_identity (ec_security_profile config) in
  let! targets := configured_targets config profile [] (ec_targets config) in
  pure (Ok (mkRuntime targets profile)).
Definition genesis_head (t : ManagedPointerTargetV1 Fd) : ManagedPointerActivationHeadV1 :=
  mkActivationHead (mt_activation_genesis_object t) (mt_activation_genesis_tree t) (mt_activation_genesis_state t).
Definition activation_geneses (rt : ManagedPointerRuntimeV1 Fd) : list (string * ManagedPointerActivationHeadV1) :=
  map (fun '(target, t) => (target, genesis_head t)) (rt_targets rt).
Definition require_activation_state (rt : ManagedPointerRuntimeV1 Fd) (target : TargetId) (expected : ManagedPointerActivationHeadV1)
    : PointerM X Fd unit :=
  let! t := target_of rt target in
  let! (_, state) := open_enrolled t in
  let drift := PointerPrestateDrift "live target does not match exact governed activation history" in
  pure (reject_if (negb (st_clean state) || st_reference_checked_out state || (st_current_object state != ah_object expected)
                   || (st_current_tree state != ah_tree expected)) drift) ;!
  let! identity := pure (state_identity (st_evidence state)) in
  pure (reject_if (identity != ah_state_identity expected) drift).
Definition require_configured_genesis (rt : ManagedPointerRuntimeV1 Fd) : PointerM X Fd unit :=
  each (fun '(target, expected) => require_activation_state rt (mkTargetId target) expected) (activation_geneses rt).

(** ** Readiness *)

Definition target_readiness (target : string) (t : ManagedPointerTargetV1 Fd) : PointerM X Fd Value :=
  let! git := lock_git t in
  revalidate git ;!
  let! staging := open_absolute_directory (mt_staging_root t) in
  let! staging_stat := sys (sys_fstat staging) in
  pure (validate_production_staging_custody (is_dir (st_mode staging_stat)) (st_uid staging_stat) (st_gid staging_stat)
          (st_mode staging_stat)) ;!
  let! (repository, state) := open_enrolled t in
  drifted (negb (st_clean state) || st_reference_checked_out state)
    "production target is dirty or its managed ref is checked out" ;!
  let! staging_root := pure (utf8_path (mt_staging_root t)) in
  let! repository_identity := pure (repository_evidence_identity (or_identity_evidence repository)) in
  pure (Ok (VObject [("target", VString target); ("helper_executable", to_value (pg_executable git));
    ("helper_launch_profile", to_value (mt_launch_profile t));
    ("activation_genesis_object", to_value (mt_activation_genesis_object t));
    ("activation_genesis_tree", to_value (mt_activation_genesis_tree t));
    ("activation_genesis_state", to_value (mt_activation_genesis_state t)); ("staging_root", to_value staging_root);
    ("staging_device", to_value (st_dev staging_stat)); ("staging_inode", to_value (st_ino staging_stat));
    ("repository_identity", to_value repository_identity)])).
Fixpoint collect_readiness (l : list (string * ManagedPointerTargetV1 Fd)) : PointerM X Fd (list Value) :=
  match l with
  | [] => pure (Ok [])
  | (target, t) :: rest =>
      let! value := target_readiness target t in
      let! values := collect_readiness rest in
      pure (Ok (value :: values))
  end.
Definition production_readiness (rt : ManagedPointerRuntimeV1 Fd) : PointerM X Fd Digest :=
  let! landlock_abi :=
    match rt_targets rt with
    | [] => pure (Ok None)
    | _ =>
        let! version := io sys_landlock_abi in
        unsafe_if (version <? 3)%Z "Landlock ABI 3 or newer is required for descriptor-bound Git mutation" ;!
        pure (Ok (Some version))
    end in
  let! evidence := collect_readiness (rt_targets rt) in
  pure (pointer_digest (VArray [VString MANAGED_POINTER_READINESS_SCHEMA_V1; to_value (rt_security_profile_identity rt);
                                to_value landlock_abi; VArray evidence])).

(** ** Candidate preparation *)

Definition preparation_standing (rt : ManagedPointerRuntimeV1 Fd) (target : TargetId)
    (context : ManagedPointerPreparationStandingContextV1) : PointerM X Fd ManagedPointerPreparationStandingV1 :=
  let! t := target_of rt target in
  pure (reject_if ((sx_security_profile_identity context != rt_security_profile_identity rt)
                   || (sx_max_artifact_bytes context =? 0)%Z) PreparationStandingScopeMismatch) ;!
  let! quarantine_budget_bytes := pure (ok_or PreparationBudgetExceeded (checked_mul_u64 (sx_max_artifact_bytes context) 2)) in
  let! expires_at_unix_ms :=
    pure (ok_or PreparationStandingScopeMismatch (checked_add_u64 (sx_now_unix_ms context) (mt_promotion_ttl_ms t))) in
  let! nonce := ask sys_uuid in
  let receipt := mkStanding MANAGED_POINTER_PREPARATION_STANDING_SCHEMA_V1 (sx_authority_domain context) (sx_epoch context)
                   target (sx_catalog_identity context) (sx_security_profile_identity context) (sx_now_unix_ms context)
                   expires_at_unix_ms (sx_max_artifact_bytes context) quarantine_budget_bytes nonce in
  pure (map_err (fun _ => PreparationStandingScopeMismatch) (standing_identity receipt)) ;!
  pure (Ok (mkPreparationStanding receipt)).

(** [target_observation]. *)
Definition target_observation (repository : OpenRepositoryV1 Fd) (state : RepositoryStateV1) (staged : StagedCandidateV1 Fd)
    : res ManagedPointerError TargetObservationV1 :=
  let evidence := or_identity_evidence repository in
  let? repository_identity := repository_evidence_identity evidence in
  let? prestate_identity := state_identity (st_evidence state) in
  Ok (ObsManagedPointer (mkPointerObservation (st_current_object state) (st_current_tree state) (sc_candidate_object staged)
        (sc_candidate_tree staged) (sc_candidate_parent staged) (sc_pack_digest staged) (sc_object_format staged)
        repository_identity prestate_identity (ri_repository_device evidence) (ri_repository_inode evidence)
        (ri_git_directory_device evidence) (ri_git_directory_inode evidence) (ri_uid evidence) (ri_gid evidence)
        (st_clean state) (st_reference_checked_out state))).

(** The exact basis that an open repository and its state are. *)
Definition live_basis (authority_domain : AuthorityDomainId) (epoch : EpochId) (target : TargetId)
    (catalog_identity security_profile_identity : Digest) (reference : string) (repository_identity prestate_identity : Digest)
    (evidence : ManagedRepositoryIdentityEvidenceV1) (state : RepositoryStateV1) : ManagedPointerExactBasisV1 :=
  mkBasis MANAGED_POINTER_EXACT_BASIS_SCHEMA_V1 authority_domain epoch target catalog_identity security_profile_identity
    reference repository_identity prestate_identity (ri_repository_device evidence) (ri_repository_inode evidence)
    (ri_git_directory_device evidence) (ri_git_directory_inode evidence) (ri_uid evidence) (ri_gid evidence)
    (st_object_format state) (st_current_object state) (st_current_tree state).

(** The part of [prepare_candidate_bytes] after the candidate is staged. *)
Definition finish_candidate (t : ManagedPointerTargetV1 Fd) (receipt : ManagedPointerPreparationStandingReceiptV1)
    (artifact : Digest) (artifact_byte_length : Z) (before_repository : OpenRepositoryV1 Fd) (before : RepositoryStateV1)
    (staged : StagedCandidateV1 Fd) : PointerM X Fd ManagedPointerPreparedObservationV1 :=
  let! pack_stat := sys (sys_fstat (sc_pack staged)) in
  let! charged_quarantine_bytes := pure (ok_or PreparationBudgetExceeded (checked_add_u64 artifact_byte_length (st_size pack_stat))) in
  pure (reject_if (ps_quarantine_budget_bytes receipt <? charged_quarantine_bytes)%Z PreparationBudgetExceeded) ;!
  let! (after_repository, after) := open_enrolled t in
  let! before_repository_identity := pure (repository_evidence_identity (or_identity_evidence before_repository)) in
  let! after_repository_identity := pure (repository_evidence_identity (or_identity_evidence after_repository)) in
  let! before_prestate_identity := pure (state_identity (st_evidence before)) in
  let! after_prestate_identity := pure (state_identity (st_evidence after)) in
  pure (reject_if ((before_repository_identity != after_repository_identity)
                   || (before_prestate_identity != after_prestate_identity)
                   || (st_current_object before != st_current_object after)
                   || (st_current_tree before != st_current_tree after)
                   || negb (Bool.eqb (st_clean before) (st_clean after))
                   || negb (Bool.eqb (st_reference_checked_out before) (st_reference_checked_out after)))
          ProtectedProjectionChanged) ;!
  let exact_basis :=
    live_basis (ps_authority_domain receipt) (ps_epoch receipt) (ps_target receipt) (ps_catalog_identity receipt)
      (ps_security_profile_identity receipt) (mt_reference t) before_repository_identity before_prestate_identity
      (or_identity_evidence before_repository) before in
  let! exact_basis_identity := pure (map_err (fun _ => PointerBindingMismatch) (basis_identity exact_basis)) in
  let! git := lock_git t in
  let! staging_root := pure (utf8_path (mt_staging_root t)) in
  let complete_inputs :=
    mkInputs MANAGED_POINTER_COMPLETE_INPUTS_SCHEMA_V1 exact_basis_identity artifact artifact_byte_length
      (sc_pack_digest staged) (sc_candidate_object staged) (sc_candidate_tree staged) (sc_candidate_parent staged) staging_root
      (pg_executable git) (mt_launch_profile t) (ps_max_artifact_bytes receipt) (ps_quarantine_budget_bytes receipt) in
  let! complete_inputs_identity :=
    pure (map_err (fun _ => PointerBindingMismatch) (inputs_identity complete_inputs (st_object_format before))) in
  let effects := mkEffects MANAGED_POINTER_PREPARATION_EFFECTS_SCHEMA_V1 artifact_byte_length charged_quarantine_bytes 0 0 0 in
  let! standing_identity := pure (map_err (fun _ => PreparationStandingScopeMismatch) (standing_identity receipt)) in
  let! protected_prestate := pure (map_err (fun _ => PointerBindingMismatch) (basis_identity exact_basis)) in
  let! protected_poststate := pure (map_err (fun _ => PointerBindingMismatch) (basis_identity exact_basis)) in
  let preparation_receipt :=
    mkReceipt MANAGED_POINTER_CANDIDATE_PREPARATION_SCHEMA_V1 standing_identity exact_basis_identity complete_inputs_identity
      artifact protected_prestate protected_poststate effects in
  let candidate := mkCandidate MANAGED_POINTER_PREPARED_CANDIDATE_SCHEMA_V1 receipt exact_basis complete_inputs preparation_receipt in
  pure (map_err (fun _ => PointerBindingMismatch) (candidate_identity candidate)) ;!
  let! observation := pure (target_observation before_repository before staged) in
  sys (sys_seek_start (sc_pack staged)) ;!
  pure (Ok (mkPreparedObservation observation candidate)).
Definition prepare_candidate_bytes (rt : ManagedPointerRuntimeV1 Fd) (standing : ManagedPointerPreparationStandingV1)
    (artifact : Digest) (b : bytes) (now_unix_ms : Z) : PointerM X Fd ManagedPointerPreparedObservationV1 :=
  let receipt := pst_receipt standing in
  let! t := target_of rt (ps_target receipt) in
  let artifact_byte_length := Z.of_nat (length b) in
  pure (reject_if ((now_unix_ms <? ps_issued_at_unix_ms receipt)%Z || (ps_expires_at_unix_ms receipt <=? now_unix_ms)%Z
                   || (artifact_byte_length =? 0)%Z || (ps_max_artifact_bytes receipt <? artifact_byte_length)%Z
                   || (hash_bytes b != artifact)) PreparationBudgetExceeded) ;!
  let! (before_repository, before) := open_enrolled t in
  drifted (negb (st_clean before) || st_reference_checked_out before) "candidate basis is dirty or checked out" ;!
  let! staged := stage_candidate t artifact b (st_object_format before) in
  dropping (sc_stage staged) (finish_candidate t receipt artifact artifact_byte_length before_repository before staged).
Definition prepare_candidate_from_store (rt : ManagedPointerRuntimeV1 Fd) (standing : option ManagedPointerPreparationStandingV1)
    (files : ObjectDir) (db : Database) (artifact : Digest) (now_unix_ms : Z) : PointerM X Fd ManagedPointerPreparedObservationV1 :=
  let! standing := pure (require_preparation_standing standing) in
  let receipt := pst_receipt standing in
  pure (map_err (fun _ => PreparationStandingScopeMismatch) (standing_identity receipt)) ;!
  pure (reject_if ((now_unix_ms <? ps_issued_at_unix_ms receipt)%Z || (ps_expires_at_unix_ms receipt <=? now_unix_ms)%Z
                   || (ps_security_profile_identity receipt != rt_security_profile_identity rt))
          PreparationStandingScopeMismatch) ;!
  let! b := pure (map_err PointerStore (read_blob files db artifact (ps_max_artifact_bytes receipt))) in
  prepare_candidate_bytes rt standing artifact b now_unix_ms.

(** ** Observation *)

Definition observe_candidate_bytes (rt : ManagedPointerRuntimeV1 Fd) (target : TargetId) (artifact : Digest) (b : bytes)
    : PointerM X Fd TargetObservationV1 :=
  let! t := target_of rt target in
  pure (reject_if (hash_bytes b != artifact) (PointerArtifact "candidate bytes differ from the admitted digest")) ;!
  let! repository := open_repository t in
  let! state := observe_repository_state t repository in
  let! staged := stage_candidate t artifact b (st_object_format state) in
  dropping (sc_stage staged) (pure (target_observation repository state staged)).
Definition observe_candidate_from_store (rt : ManagedPointerRuntimeV1 Fd) (files : ObjectDir) (db : Database) (target : TargetId)
    (artifact : Digest) (maximum_bytes : Z) : PointerM X Fd TargetObservationV1 :=
  let! b := pure (map_err PointerStore (read_blob files db artifact maximum_bytes)) in
  observe_candidate_bytes rt target artifact b.
Definition observe_canonical (rt : ManagedPointerRuntimeV1 Fd) (effect : CanonicalEffectV1) : PointerM X Fd TargetObservationV1 :=
  let! fields := pure (from_effect effect) in
  let! t := target_of rt (pp_target fields) in
  verify_canonical_bindings t fields ;!
  let! repository := open_repository t in
  let! state := observe_repository_state t repository in
  let evidence := or_identity_evidence repository in
  let! repository_identity := pure (repository_evidence_identity evidence) in
  let! prestate_identity := pure (state_identity (st_evidence state)) in
  pure (Ok (ObsManagedPointer (mkPointerObservation (st_current_object state) (st_current_tree state) (pp_new_object fields)
        (pp_expected_post_tree fields) (pp_expected_object fields) (pp_candidate_pack_digest fields) (pp_object_format fields)
        repository_identity prestate_identity (ri_repository_device evidence) (ri_repository_inode evidence)
        (ri_git_directory_device evidence) (ri_git_directory_inode evidence) (ri_uid evidence) (ri_gid evidence)
        (st_clean state) (st_reference_checked_out state)))).

(** ** Promotion standing *)

Definition promotion_standing (rt : ManagedPointerRuntimeV1 Fd) (context : ManagedPointerExecutionContextV1)
    (effect : CanonicalEffectV1) (candidate : PreparedManagedPointerCandidateV1)
    (ratification : ManagedPointerCandidateRatificationV1) (now_unix_ms : Z) : PointerM X Fd ManagedPointerPromotionStandingV1 :=
  let mismatch {A} (r : res EffectError A) : PointerM X Fd A := pure (map_err (fun _ => PromotionStandingMismatch) r) in
  let! fields := pure (from_effect effect) in
  let eb := ca_exact_basis candidate in
  let ci := ca_complete_inputs candidate in
  let! identity := mismatch (candidate_identity candidate) in
  let! exact_basis := mismatch (basis_identity eb) in
  let! complete_inputs := mismatch (inputs_identity ci (eb_object_format eb)) in
  let! preparation_receipt := mismatch (receipt_identity (ca_preparation_receipt candidate)) in
  mismatch (verify_bindings ratification (xc_proposal context) candidate (xc_authorization context)) ;!
  pure (reject_if ((identity != pp_prepared_candidate fields) || (exact_basis != pp_exact_basis fields)
                   || (complete_inputs != pp_complete_inputs fields)
                   || (preparation_receipt != pp_candidate_preparation_receipt fields)
                   || (eb_target eb != pp_target fields) || (eb_repository_identity eb != pp_repository_identity fields)
                   || (eb_prestate_identity eb != pp_prestate_identity fields)
                   || (eb_current_object eb != pp_expected_object fields) || (eb_current_tree eb != pp_expected_tree fields)
                   || (ci_artifact ci != pp_artifact fields)
                   || (ci_candidate_pack_digest ci != pp_candidate_pack_digest fields)
                   || (ci_candidate_object ci != pp_new_object fields)
                   || (ci_candidate_tree ci != pp_expected_post_tree fields)
                   || (pp_expires_unix_ms fields <=? now_unix_ms)%Z) PromotionStandingMismatch) ;!
  let! t := target_of rt (pp_target fields) in
  verify_canonical_bindings t fields ;!
  let! (repository, state) := open_exact_prestate t fields in
  let! repository_identity := pure (repository_evidence_identity (or_identity_evidence repository)) in
  let! prestate_identity := pure (state_identity (st_evidence state)) in
  let! current_basis :=
    mismatch (basis_identity (live_basis (eb_authority_domain eb) (eb_epoch eb) (pp_target fields) (eb_catalog_identity eb)
                                (eb_security_profile_identity eb) (pp_reference fields) repository_identity prestate_identity
                                (or_identity_evidence repository) state)) in
  pure (reject_if (current_basis != exact_basis) PromotionStandingMismatch) ;!
  let! candidate_ratification := mismatch (ratification_identity ratification) in
  let! nonce := ask sys_uuid in
  let receipt := mkPromotionStandingReceipt MANAGED_POINTER_PROMOTION_STANDING_RECEIPT_SCHEMA_V1 (xc_proposal context)
                   (xc_authorization context) candidate_ratification identity exact_basis current_basis now_unix_ms
                   (pp_expires_unix_ms fields) nonce in
  pure (promotion_standing_identity receipt) ;!
  pure (Ok (mkPromotionStanding receipt)).

(** ** Preparation of a promotion *)

(** The part of [prepare_inner] after the candidate is staged. *)
Definition finish_prepare (t : ManagedPointerTargetV1 Fd) (standing_receipt : ManagedPointerPromotionStandingReceiptV1)
    (context : ManagedPointerExecutionContextV1) (effect : CanonicalEffectV1) (fields : PromotionEffect)
    (staged : StagedCandidateV1 Fd) : PointerM X Fd (PreparedManagedPointerV1 Fd) :=
  pure (reject_if ((sc_candidate_object staged != pp_new_object fields) || (sc_candidate_tree staged != pp_expected_post_tree fields)
                   || (sc_candidate_parent staged != pp_expected_object fields)
                   || (sc_pack_digest staged != pp_candidate_pack_digest fields)
                   || (sc_object_format staged != pp_object_format fields))
          (PointerArtifact "staged bundle facts differ from the canonical effect")) ;!
  let! (revalidated_repository, _) := open_exact_prestate t fields in
  let! imported := import_pack t revalidated_repository (sc_pack staged) (pp_object_format fields) (pp_candidate_pack_digest fields) in
  verify_imported_candidate t revalidated_repository (pp_new_object fields) (pp_expected_post_tree fields) (pp_object_format fields) ;!
  let! (checkpoint_repository, checkpoint_state) := open_exact_prestate t fields in
  let! object_import_evidence := pure (pointer_digest imported) in
  let evidence :=
    mkPreparationEvidence MANAGED_POINTER_PREPARATION_SCHEMA_V2 context (pp_operation_id fields) (pp_prepared_candidate fields)
      (sr_candidate_ratification standing_receipt) standing_receipt (pp_artifact fields) (pp_candidate_pack_digest fields)
      (ip_pack_checksum imported) object_import_evidence imported (pp_repository_identity fields)
      (or_identity_evidence checkpoint_repository) (st_evidence checkpoint_state) (pp_expected_object fields)
      (pp_expected_tree fields) (pp_new_object fields) (pp_expected_post_tree fields) in
  let! checkpoint := pure (preparation_checkpoint evidence) in
  pure (Ok (mkPrepared effect context (pp_target fields) (sc_pack staged) (sc_stage staged) evidence checkpoint)).
Definition prepare_inner (rt : ManagedPointerRuntimeV1 Fd) (standing : ManagedPointerPromotionStandingV1)
    (context : ManagedPointerExecutionContextV1) (effect : CanonicalEffectV1) (artifact_bytes : bytes) (now_unix_ms : Z)
    : PointerM X Fd (PreparedManagedPointerV1 Fd) :=
  let! fields := pure (from_effect effect) in
  let standing_receipt := prs_receipt standing in
  pure (reject_if ((sr_proposal standing_receipt != xc_proposal context)
                   || (sr_authorization standing_receipt != xc_authorization context)
                   || (sr_candidate standing_receipt != pp_prepared_candidate fields)
                   || (sr_exact_basis standing_receipt != pp_exact_basis fields)
                   || (sr_current_basis standing_receipt != pp_exact_basis fields)
                   || (now_unix_ms <? sr_issued_at_unix_ms standing_receipt)%Z
                   || (sr_expires_at_unix_ms standing_receipt <=? now_unix_ms)%Z) PromotionStandingMismatch) ;!
  pure (promotion_standing_identity standing_receipt) ;!
  let! t := target_of rt (pp_target fields) in
  verify_canonical_bindings t fields ;!
  drifted (pp_expires_unix_ms fields <=? now_unix_ms)%Z "promotion authority is expired" ;!
  pure (reject_if (hash_bytes artifact_bytes != pp_artifact fields)
          (PointerArtifact "candidate bytes differ from the canonical artifact")) ;!
  open_exact_prestate t fields ;!
  let! staged := stage_candidate t (pp_artifact fields) artifact_bytes (pp_object_format fields) in
  dropping_on_error (sc_stage staged) (finish_prepare t standing_receipt context effect fields staged).
(** [prepare_from_store]: its error is a receipt. *)
Definition prepare_from_store (rt : ManagedPointerRuntimeV1 Fd) (standing : ManagedPointerPromotionStandingV1) (files : ObjectDir)
    (db : Database) (context : ManagedPointerExecutionContextV1) (effect : CanonicalEffectV1) (maximum_bytes now_unix_ms : Z)
    : ST (PointerWorld X Fd) ExecutionReceiptV1 (PreparedManagedPointerV1 Fd) :=
  let! fields := pure (map_err (failure_receipt context effect) (from_effect effect)) in
  let! b :=
    pure (map_err (fun e => receipt_with_outcome context effect
                              (OutFailed (mkFailure ArtifactUnavailable ArtifactLoad "exact promotion artifact is unavailable"
                                            (Some (store_error_text e)) None)))
            (read_blob files db (pp_artifact fields) maximum_bytes)) in
  st_map_err (failure_receipt context effect) (prepare_inner rt standing context effect b now_unix_ms).

(** ** The commit *)

Definition CommitM (A : Type) : Type := ST (PointerWorld X Fd) CommitErrorV1 A.
Definition failing {A} (m : PointerM X Fd A) : CommitM A := st_map_err CommitFailed m.
Definition unknown {A} (text : string) (phase : ExecutionPhaseV1) (evidence : option Digest) (m : PointerM X Fd A) : CommitM A :=
  st_map_err (fun e => CommitIndeterminate (text +:+ ": " +:+ pointer_error_text e) phase evidence) m.

(** [classify_cas_rejection]. *)
Definition classify_cas_rejection {A} (t : ManagedPointerTargetV1 Fd) (fields : PromotionEffect) (detail : string) : CommitM A :=
  st_try (let! repository := open_repository t in observe_repository_state t repository) (fun observed =>
    pure match observed with
         | Ok state =>
             if exact_prestate fields state then Err (CommitFailed (GitFailed "update-ref" detail))
             else Err (CommitIndeterminate "ref CAS rejected but exact prestate cannot be proven" PointerCas None)
         | _ => Err (CommitIndeterminate "ref CAS rejected but exact prestate cannot be proven" PointerCas None)
         end).

(** The comparison of the retained preparation with the effect, in its order. *)
Definition preparation_bound (prepared : PreparedManagedPointerV1 Fd) (fields : PromotionEffect) : res ManagedPointerError unit :=
  let e := pm_evidence prepared in
  promotion_standing_identity (pe_promotion_standing e) ;?
  reject_if (pe_execution e != pm_context prepared) PointerBindingMismatch ;?
  let? checkpoint := preparation_checkpoint e in
  reject_if ((checkpoint != pm_checkpoint prepared) || (pe_operation_id e != pp_operation_id fields)
             || (pe_prepared_candidate e != pp_prepared_candidate fields)
             || (pe_candidate_ratification e != sr_candidate_ratification (pe_promotion_standing e))
             || (sr_candidate (pe_promotion_standing e) != pp_prepared_candidate fields)
             || (sr_exact_basis (pe_promotion_standing e) != pp_exact_basis fields)
             || (pe_repository_identity e != pp_repository_identity fields)) PointerBindingMismatch ;?
  let? layout := repository_evidence_identity (pe_repository_layout e) in
  reject_if (layout != pp_repository_identity fields) PointerBindingMismatch ;?
  let? prestate := state_identity (pe_prestate e) in
  reject_if (prestate != pp_prestate_identity fields) PointerBindingMismatch ;?
  let? imported := pointer_digest (pe_imported_pack_evidence e) in
  reject_if (imported != pe_object_import_evidence e) PointerBindingMismatch.

(** Everything before the last observation, the repository opened for it, and the
    observation of the exact prestate. *)
Definition before_cas_checks (prepared : PreparedManagedPointerV1 Fd) (now_unix_ms : Z)
    (fields : PromotionEffect) (t : ManagedPointerTargetV1 Fd) : CommitM (OpenRepositoryV1 Fd) :=
  failing (verify_canonical_bindings t fields) ;!
  failing (drifted (pp_expires_unix_ms fields <=? now_unix_ms)%Z "promotion authority expired before commit") ;!
  failing (pure (preparation_bound prepared fields)) ;!
  let! observed_pack := failing (hash_file (pm_pack prepared)) in
  failing (pure (reject_if (observed_pack != pp_candidate_pack_digest fields) (PointerArtifact "prepared PACK changed before commit"))) ;!
  let! repository := failing (open_repository t) in
  failing (require_canonical_repository fields repository) ;!
  failing (verify_imported_candidate t repository (pp_new_object fields) (pp_expected_post_tree fields) (pp_object_format fields)) ;!
  let! before_cas_repository := unknown "target could not be revalidated after object import" PrestateCheck None (open_repository t) in
  failing (require_canonical_repository fields before_cas_repository) ;!
  pure (Ok before_cas_repository).
Definition before_cas (prepared : PreparedManagedPointerV1 Fd) (now_unix_ms : Z) (fields : PromotionEffect)
    (t : ManagedPointerTargetV1 Fd) : CommitM (OpenRepositoryV1 Fd) :=
  let! before_cas_repository := before_cas_checks prepared now_unix_ms fields t in
  let! state := failing (observe_repository_state t before_cas_repository) in
  failing (pure (require_exact_prestate fields state)) ;!
  pure (Ok before_cas_repository).
Definition cas_arguments (fields : PromotionEffect) : list string :=
  ["--no-deref"; pp_reference fields; pp_new_object fields; pp_expected_object fields].
Definition cas_environment (git_directory : Fd) : PointerM X Fd (GitEnvironmentV1 Fd) :=
  let! environment := descriptor_path "GIT_DIR" git_directory None empty_environment in
  admit_write_root git_directory environment.
(** The compare-and-swap; [Ok] is a child that exited with success. *)
Definition compare_and_swap_ref (t : ManagedPointerTargetV1 Fd) (fields : PromotionEffect) (git_directory : Fd) : CommitM unit :=
  let! environment := failing (cas_environment git_directory) in
  let! output :=
    st_map_err (fun e => match e with
                         | PromotionExpiredBeforeCas => CommitFailed e
                         | _ => CommitIndeterminate ("ref CAS transport failed: " +:+ pointer_error_text e) PointerCas None
                         end)
      (run_git_update_ref t (cas_arguments fields) environment (pp_expires_unix_ms fields)) in
  if exit_success (go_status output) then pure (Ok tt)
  else classify_cas_rejection t fields (sanitized_git_diagnostic (go_stderr output)).
(** The target reopened in [phase] and required to be in the exact poststate. *)
Definition observe_poststate (t : ManagedPointerTargetV1 Fd) (fields : PromotionEffect) (phase : ExecutionPhaseV1)
    (reopen identity readback contradiction : string) : CommitM (OpenRepositoryV1 Fd * RepositoryStateV1) :=
  let! repository := unknown reopen phase None (open_repository t) in
  unknown identity phase None (require_canonical_repository fields repository) ;!
  let! state := unknown readback phase None (observe_repository_state t repository) in
  pure (reject_if (negb (exact_poststate fields state)) (CommitIndeterminate contradiction phase None)) ;!
  pure (Ok (repository, state)).
(** The receipts of a commit whose durable poststate was observed. *)
Definition commit_receipts (prepared : PreparedManagedPointerV1 Fd) (fields : PromotionEffect) (repository : OpenRepositoryV1 Fd)
    (state : RepositoryStateV1) : CommitM ManagedPointerCommitSuccessV1 :=
  let context := pm_context prepared in
  let checkpoint := pm_checkpoint prepared in
  let! request_digest := failing (pure (pointer_digest (commit_request context checkpoint (pm_effect prepared)))) in
  let commit_evidence :=
    mkCommitEvidence MANAGED_POINTER_COMMIT_EVIDENCE_SCHEMA_V1 context checkpoint (pp_operation_id fields) request_digest
      (pp_expected_object fields) (pp_expected_tree fields) (st_current_object state) (st_current_tree state) true in
  let! evidence := unknown "post-CAS evidence could not be encoded" ReceiptValidation None (pure (pointer_digest commit_evidence)) in
  let poststate := mkPoststateEvidence MANAGED_POINTER_POSTSTATE_EVIDENCE_SCHEMA_V1 context checkpoint
                     (or_identity_evidence repository) (st_evidence state) in
  let! poststate_evidence :=
    unknown "poststate evidence could not be encoded" ReceiptValidation (Some evidence) (pure (pointer_digest poststate)) in
  let! effect_digest := failing (pure (pointer_digest (pm_effect prepared))) in
  let activation :=
    mkActivationReceipt MANAGED_POINTER_ACTIVATION_RECEIPT_SCHEMA_V1 effect_digest context (pp_target fields) (pp_reference fields)
      (pp_operation_id fields) (pp_prepared_candidate fields) (pe_candidate_ratification (pm_evidence prepared))
      (pp_exact_basis fields) (pp_artifact fields) (pp_candidate_pack_digest fields) checkpoint (pp_repository_identity fields)
      (pp_expected_object fields) (pp_expected_tree fields) (pp_new_object fields) (pp_expected_post_tree fields)
      commit_evidence poststate in
  unknown "activation receipt could not be verified" ReceiptValidation (Some evidence)
    (pure (activation_identity activation (pm_effect prepared))) ;!
  pure (Ok (mkCommitSuccess
    (PromotionSuccess (pp_operation_id fields) (pp_candidate_pack_digest fields) checkpoint (pp_expected_object fields)
       (pp_expected_tree fields) (pp_new_object fields) (pp_expected_post_tree fields) evidence poststate_evidence)
    commit_evidence poststate activation)).
(** After a child that exited with success: the poststate observed, synced, and
    observed again, and the receipts. *)
Definition after_cas (prepared : PreparedManagedPointerV1 Fd) (fields : PromotionEffect) (t : ManagedPointerTargetV1 Fd)
    : CommitM ManagedPointerCommitSuccessV1 :=
  let! (post_repository, _) :=
    observe_poststate t fields PointerCas "target could not be reopened after ref CAS" "target identity changed after ref CAS"
      "post-CAS readback failed" "post-CAS state contradicts the ratified poststate" in
  unknown "ref committed but durability sync failed" DirectorySync None
    (sync_reference (or_git_directory post_repository) (pp_reference fields) (mt_uid t) (mt_gid t)) ;!
  let! (durable_repository, durable_post) :=
    observe_poststate t fields DirectorySync "durable target could not be reopened after ref sync"
      "durable target identity changed after ref sync" "durable poststate readback failed"
      "durable poststate contradicts the ratified poststate" in
  commit_receipts prepared fields durable_repository durable_post.
(** [try_commit], without the failpoints of its tests. *)
Definition try_commit (rt : ManagedPointerRuntimeV1 Fd) (prepared : PreparedManagedPointerV1 Fd) (now_unix_ms : Z)
    : CommitM ManagedPointerCommitSuccessV1 :=
  let! fields := failing (pure (from_effect (pm_effect prepared))) in
  let! t := failing (target_of rt (pm_target prepared)) in
  let! before_cas_repository := before_cas prepared now_unix_ms fields t in
  compare_and_swap_ref t fields (or_git_directory before_cas_repository) ;!
  after_cas prepared fields t.
(** [commit_inner_with_clock]: what it returns; the stage is dropped with the
    preparation it belongs to. *)
Definition commit_result (context : ManagedPointerExecutionContextV1) (effect : CanonicalEffectV1)
    (r : res CommitErrorV1 ManagedPointerCommitSuccessV1) : res Empty_set ManagedPointerCommitResultV1 :=
  match r with
  | Ok s => Ok (mkCommitResult (receipt_with_outcome context effect (OutSucceeded (sx_success s))) (Some (sx_commit_evidence s))
                  (Some (sx_poststate_evidence s)) (Some (sx_activation_receipt s)))
  | Err (CommitFailed e) => Ok (mkCommitResult (receipt_with_outcome context effect (failure_outcome e)) None None None)
  | Err (CommitIndeterminate detail phase evidence) =>
      Ok (mkCommitResult
            (receipt_with_outcome context effect
               (OutIndeterminate (mkIndeterminate BackendOutcomeUnknown phase detail (Some "managed_pointer_commit_ambiguous") evidence)))
            None None None)
  | Panic => Panic
  end.
Definition pointer_commit (rt : ManagedPointerRuntimeV1 Fd) (prepared : PreparedManagedPointerV1 Fd) (now_unix_ms : Z)
    : ST (PointerWorld X Fd) Empty_set ManagedPointerCommitResultV1 :=
  st_try (try_commit rt prepared now_unix_ms) (fun r =>
    ignore (on_host (sys_remove_dir_all (sd_root (pm_stage prepared)) (sd_name (pm_stage prepared)))) ;!
    pure (commit_result (pm_context prepared) (pm_effect prepared) r)).
End Runtime.
