(* ===== verification/PointerSpec.v ===== *)
(** * Managed pointers: what reaches the repository

    For every host: which Git children a call may launch and what they may
    write, that each call returns, when the compare-and-swap is launched, and what
    a receipt says about it. *)

From S2P Require Import Prelude Wire Fixture Digest Names Origin Capability Identity Protocol Paths Store StoreBlob HostFiles RpcAuth Config Effect Compile Proposal Executor Pointer PointerText PointerGit PointerRuntime.

(** The staging directories that a log records. *)
Definition created {Fd} (l : list (PointerEvent Fd)) : list Fd :=
  flat_map (fun e => match e with CreatedStage d => [d] | _ => [] end) l.

(** ** A logic of logs *)

Section Logs.
  Context {X Fd : Type} (admitted : list Fd -> GitLaunch Fd -> Prop).

Definition event_ok (known : list Fd) (e : PointerEvent Fd) : Prop :=
  match e with Launched l => admitted known l | _ => True end.
(** [emits K m P]: [m] returns; it only appends to the log; each launch it appends is
    admitted with the staging directories of [K] and those that [m] created; an
    answer satisfies [P]. *)
Definition emits {E A} (known : list Fd) (m : ST (PointerWorld X Fd) E A) (P : list Fd -> A -> Prop) : Prop :=
  forall w, exists l,
    pw_events (m w).1 = pw_events w ++ l /\ Forall (event_ok (known ++ created l)) l /\
    match (m w).2 with Ok a => P (known ++ created l) a | Err _ => True | Panic => False end.
Definition any {A} (_ : list Fd) (_ : A) : Prop := True.

Lemma created_app (a b : list (PointerEvent Fd)) : created (a ++ b) = created a ++ created b.
Proof. apply flat_map_app. Qed.

Lemma emits_weaken {E A} known (m : ST (PointerWorld X Fd) E A) (P Q : list Fd -> A -> Prop) :
  emits known m P -> (forall known' a, known ⊆ known' -> P known' a -> Q known' a) -> emits known m Q.
Proof.
  intros Hm HPQ w. destruct (Hm w) as (l & Hl & Hf & Hr). exists l. split_all; [done..|].
  destruct (m w).2; [|done..]. apply HPQ; [set_solver|done].
Qed.
Lemma emits_pure {E A} known (r : res E A) : no_panic r -> emits known (pure r) (fun _ a => r = Ok a).
Proof. intros Hn w. exists []. rewrite !app_nil_r. split_all; [done..|]. by destruct r. Qed.
Lemma emits_map_err {E F A} known (f : E -> F) (m : ST (PointerWorld X Fd) E A) P : emits known m P -> emits known (st_map_err f m) P.
Proof. intros Hm w. destruct (Hm w) as (l & Hl). exists l. unfold st_map_err. by destruct (m w) as [w' [a|e|]]. Qed.
Lemma emits_on_host {E A} known (m : ST X E A) : (forall x, (m x).2 <> Panic) -> emits known (on_host m) any.
Proof.
  intros Hm w. exists []. unfold on_host. specialize (Hm (pw_host w)). destruct (m (pw_host w)) as [x r]. simpl in *.
  rewrite app_nil_r. split_all; [done..|]. by destruct r.
Qed.
Lemma emits_sys {E A} known (m : Sys X E A) : emits known (on_host (run_sys m)) any.
Proof. apply emits_on_host. intros x. unfold run_sys. by destruct (m x) as [x' [e|a]]. Qed.
Lemma emits_ask {E A} known (m : X -> X * A) : emits (E := E) known (ask m) any.
Proof. apply emits_on_host. intros x. by destruct (m x). Qed.
Lemma emits_get {E} known : emits (E := E) known get any.
Proof. intros w. exists []. rewrite app_nil_r. by split_all. Qed.

Context (admitted_mono : forall known known' l, known ⊆ known' -> admitted known l -> admitted known' l).

Lemma event_ok_mono known known' l : known ⊆ known' -> Forall (event_ok known) l -> Forall (event_ok known') l.
Proof. intros Hk Hl. eapply Forall_impl; [exact Hl|]. intros [d|g|s]; simpl; try done. by apply admitted_mono. Qed.
Lemma emits_bind {E A B} known (m : ST (PointerWorld X Fd) E A) (k : A -> ST (PointerWorld X Fd) E B) P Q :
  emits known m P -> (forall a known', known ⊆ known' -> P known' a -> emits known' (k a) Q) -> emits known (st_bind m k) Q.
Proof.
  intros Hm Hk w. unfold st_bind. destruct (Hm w) as (l & Hl & Hf & Hr). destruct (m w) as [w' [a|e|]]; simpl in *; [|by exists l|done].
  destruct (Hk a (known ++ created l) ltac:(set_solver) Hr w') as (l' & Hl' & Hf' & Hr').
  exists (l ++ l'). rewrite Hl', Hl, created_app, !app_assoc. split_all; [done| |done].
  apply Forall_app. split; [|done]. eapply event_ok_mono; [|exact Hf]. set_solver.
Qed.
Lemma emits_try {E F A B} known (m : ST (PointerWorld X Fd) E A) (k : res E A -> ST (PointerWorld X Fd) F B) P Q :
  emits known m P -> (forall a known', known ⊆ known' -> P known' a -> emits known' (k (Ok a)) Q) ->
  (forall e known', known ⊆ known' -> emits known' (k (Err e)) Q) -> emits known (st_try m k) Q.
Proof.
  intros Hm Hk He w. unfold st_try. destruct (Hm w) as (l & Hl & Hf & Hr). destruct (m w) as [w' r]; simpl in *.
  assert (emits (known ++ created l) (k r) Q \/ r = Panic) as [Hkr| ->]; [| |done].
  { destruct r as [a|e|]; [left; apply Hk; [set_solver|done]|left; apply He; set_solver|by right]. }
  destruct (Hkr w') as (l' & Hl' & Hf' & Hr'). exists (l ++ l').
  assert ((match r with Panic => (w', Panic) | _ => k r w' end) = k r w') as -> by by destruct r.
  rewrite Hl', Hl, created_app, !app_assoc. split_all; [done| |done].
  apply Forall_app. split; [|done]. eapply event_ok_mono; [|exact Hf]. set_solver.
Qed.
Lemma emits_record {E} known e : event_ok known e ->
  emits (E := E) known (record_event e) (fun known' _ => known' = known ++ created [e]).
Proof.
  intros He w. exists [e]. split_all; [done| |done]. apply (event_ok_mono known); [set_solver|by constructor].
Qed.
End Logs.

(** ** Results that do not panic *)

Create HintDb total.
Lemma map_err_no_panic {E F A} (f : E -> F) (r : res E A) : no_panic r -> no_panic (map_err f r).
Proof. by destruct r. Qed.
Lemma ok_or_no_panic {E A} (e : E) (o : option A) : no_panic (ok_or e o).
Proof. by destruct o. Qed.
Ltac total_step :=
  match goal with
  | |- no_panic (res_bind _ _) => apply res_bind_no_panic; [|intros ? _]
  | |- no_panic (reject_if _ _) => apply reject_if_no_panic
  | |- no_panic (map_err _ _) => apply map_err_no_panic
  | |- no_panic (ok_or _ _) => apply ok_or_no_panic
  | |- no_panic (Ok _) => discriminate
  | |- no_panic (Err _) => discriminate
  | |- no_panic (match ?x with _ => _ end) => destruct x
  end.
Ltac total := cbv zeta; repeat (first [total_step | solve [auto with total]]).

Section Total.
  Context `{Deps}.

Lemma pointer_digest_total `{Serialize T} (x : T) : no_panic (pointer_digest x).
Proof. apply map_err_no_panic, from_serializable_no_panic. Qed.
Lemma digest_serializable_total `{Serialize T} (x : T) : no_panic (digest_serializable x).
Proof. unfold digest_serializable, to_vec. total. Qed.
Lemma validate_git_object_total v f : no_panic (validate_git_object v f).
Proof. unfold validate_git_object. total. Qed.
#[local] Hint Resolve pointer_digest_total digest_serializable_total validate_git_object_total : total.
Lemma state_identity_total s : no_panic (state_identity s).
Proof. unfold state_identity. total. Qed.
Lemma repository_evidence_identity_total r : no_panic (repository_evidence_identity r).
Proof. unfold repository_evidence_identity. total. Qed.
Lemma promotion_standing_identity_total r : no_panic (promotion_standing_identity r).
Proof. unfold promotion_standing_identity. total. Qed.
Lemma preparation_checkpoint_total e : no_panic (preparation_checkpoint e).
Proof. unfold preparation_checkpoint. total. Qed.
Lemma from_effect_total e : no_panic (from_effect e).
Proof. unfold from_effect. total. Qed.
Lemma utf8_path_total p : no_panic (utf8_path p).
Proof. unfold utf8_path. total. Qed.
#[local] Hint Resolve state_identity_total repository_evidence_identity_total promotion_standing_identity_total
  preparation_checkpoint_total from_effect_total utf8_path_total : total.
Lemma activation_identity_total a e : no_panic (activation_identity a e).
Proof. unfold activation_identity, activation_verify. total. Qed.
Lemma basis_identity_total b : no_panic (basis_identity b).
Proof. unfold basis_identity. total. Qed.
Lemma inputs_identity_total c f : no_panic (inputs_identity c f).
Proof. unfold inputs_identity. total. Qed.
Lemma standing_identity_total s : no_panic (standing_identity s).
Proof. unfold standing_identity. total. Qed.
Lemma receipt_identity_total r : no_panic (receipt_identity r).
Proof. unfold receipt_identity, effects_validate. total. Qed.
#[local] Hint Resolve basis_identity_total inputs_identity_total standing_identity_total receipt_identity_total : total.
Lemma candidate_identity_total c : no_panic (candidate_identity c).
Proof. unfold candidate_identity. total. Qed.
Lemma ratification_identity_total r : no_panic (ratification_identity r).
Proof. unfold ratification_identity. total. Qed.
#[local] Hint Resolve candidate_identity_total ratification_identity_total : total.
Lemma verify_bindings_total r p c a : no_panic (verify_bindings r p c a).
Proof. unfold verify_bindings. total. Qed.
Lemma canonical_object_output_total o f : no_panic (canonical_object_output o f).
Proof. unfold canonical_object_output. total. Qed.
Lemma parse_index_pack_output_total o f : no_panic (parse_index_pack_output o f).
Proof. unfold parse_index_pack_output. total. Qed.
Lemma parse_object_format_total o : no_panic (parse_object_format o).
Proof. unfold parse_object_format. total. Qed.
Lemma exit_is_clean_or_dirty_total s : no_panic (exit_is_clean_or_dirty s).
Proof. unfold exit_is_clean_or_dirty. total. Qed.
Lemma single_parent_total c p : no_panic (single_parent c p).
Proof. unfold single_parent. total. Qed.
Lemma parse_strict_bundle_total b : no_panic (parse_strict_bundle b).
Proof. unfold parse_strict_bundle. total. Qed.
Lemma validate_lines_total ext l : no_panic (validate_lines ext l).
Proof.
  revert ext. induction l as [|line l IH]; intros ext; cbn [validate_lines]; [done|]. unfold validate_section, validate_key. total.
Qed.
Lemma validate_config_total b : no_panic (validate_closed_repository_config b).
Proof. unfold validate_closed_repository_config. apply res_bind_no_panic; [total|]. intros ? _. apply validate_lines_total. Qed.
Lemma staging_custody_total d u g m : no_panic (validate_production_staging_custody d u g m).
Proof. unfold validate_production_staging_custody. total. Qed.
End Total.
#[export] Hint Resolve pointer_digest_total digest_serializable_total validate_git_object_total state_identity_total
  repository_evidence_identity_total promotion_standing_identity_total preparation_checkpoint_total from_effect_total
  utf8_path_total activation_identity_total basis_identity_total inputs_identity_total standing_identity_total
  receipt_identity_total candidate_identity_total ratification_identity_total verify_bindings_total
  canonical_object_output_total parse_index_pack_output_total parse_object_format_total exit_is_clean_or_dirty_total
  single_parent_total parse_strict_bundle_total validate_config_total staging_custody_total : total.

(** ** Opening beneath a descriptor *)

Section Opening.
  Context {X Fd : Type} `{!PointerHost X Fd}.

Lemma run_sys_total {E A} (m : Sys X E A) x : (run_sys m x).2 <> Panic.
Proof. unfold run_sys. by destruct (m x) as [x' [e|a]]. Qed.
Lemma normal_parts_total l : no_panic (normal_parts l).
Proof. induction l as [|[] l IH]; simpl; total. Qed.
Lemma relative_valid_total r : no_panic (relative_valid r).
Proof. unfold relative_valid. total. Qed.
Lemma openat_parts_total directory names how x : (openat_parts directory names how x).2 <> Panic.
Proof.
  revert directory x. induction names as [|name names IH]; intros directory x; [done|]. simpl. destruct names; [apply run_sys_total|].
  unfold st_bind. match goal with |- context [run_sys ?m x] => pose proof (run_sys_total m x); destruct (run_sys m x) as [x' []] end;
    simpl in *; [apply IH|done|done].
Qed.
Lemma fallback_open_total parent relative how x : (fallback_open parent relative how x).2 <> Panic.
Proof.
  unfold fallback_open, st_bind, pure. pose proof (normal_parts_total (components relative)).
  destruct (normal_parts _); [apply openat_parts_total|done|done].
Qed.
Lemma open_under_total parent relative how x : (open_under parent relative how x).2 <> Panic.
Proof.
  unfold open_under, finish_open, st_bind, pure. pose proof (relative_valid_total relative) as Hv.
  destruct (relative_valid relative) eqn:E; [|done|done]. unfold st_try.
  match goal with |- context [run_sys ?m x] => pose proof (run_sys_total m x); destruct (run_sys m x) as [x' r] end.
  simpl in *. destruct r as [fd|e|]; [done| |done]. destruct e; try done. apply fallback_open_total.
Qed.
End Opening.

(** ** What the repository's operations launch *)

Create HintDb emits.
Section Confinement.
  Context `{Deps, ErrnoText, PointerTexts} {X Fd : Type} `{!PointerHost X Fd} (admitted : list Fd -> GitLaunch Fd -> Prop).
  Context (mono : forall known known' l, known ⊆ known' -> admitted known l -> admitted known' l).
  Context (reading : forall known l, gl_operation l <> UpdateRef -> gl_writable l = [] -> admitted known l).
  Context (staging : forall known l, gl_operation l = Init \/ gl_operation l = IndexPack ->
             Forall (fun p => p.2 ∈ known) (gl_writable l) -> admitted known l).

Lemma emits_sys_call {A} known (m : Sys X Errno A) : emits admitted known (sys (run_sys m)) any.
Proof. apply emits_map_err, emits_sys. Qed.
Lemma emits_io_call {A} known (m : Sys X IoError A) : emits admitted known (io (run_sys m)) any.
Proof. apply emits_map_err, emits_sys. Qed.
Lemma emits_open_under known parent relative how : emits (E := Errno) admitted known (on_host (open_under parent relative how)) any.
Proof. apply emits_on_host. intros x. apply open_under_total. Qed.
Lemma emits_sys_open known parent relative how : emits admitted known (sys (open_under parent relative how)) any.
Proof. apply emits_map_err, emits_open_under. Qed.
Lemma emits_unsafe_if known c d : emits (X := X) admitted known (unsafe_if c d) (fun _ _ => c = false).
Proof.
  unfold unsafe_if. eapply emits_weaken; [by apply emits_pure, reject_if_no_panic|]. intros known' u _ E. by apply reject_if_ok in E.
Qed.

Ltac emits_leaf :=
  first [ apply emits_sys_call | apply emits_io_call | apply emits_sys_open | apply emits_unsafe_if | apply emits_ask
        | apply emits_get | apply emits_sys | apply emits_open_under
        | apply emits_map_err, emits_open_under | apply emits_map_err, emits_sys
        | apply emits_pure; solve [total] | eauto with emits ].
Ltac emits_step :=
  cbv zeta;
  match goal with
  | |- emits _ _ (let '(_, _) := ?p in _) _ => destruct p
  | |- emits _ _ (if ?b then _ else _) _ => destruct b eqn:?
  | |- emits _ _ (st_bind _ _) _ => eapply emits_bind; [exact mono | solve [emits_leaf] | let HP := fresh "HP" in intros ? ? ? HP; cbv beta in HP]
  | |- emits _ _ _ any => eapply emits_weaken; [solve [emits_leaf] | done]
  end.
Ltac emits_tac := repeat emits_step.

Lemma emits_open_directory_beneath known parent relative : emits admitted known (open_directory_beneath parent relative) any.
Proof. unfold open_directory_beneath. emits_tac. Qed.
Lemma emits_open_optional known parent relative : emits admitted known (open_optional_directory_beneath parent relative) any.
Proof.
  unfold open_optional_directory_beneath. eapply emits_try; [exact mono|apply emits_open_under| |]; intros; emits_tac.
Qed.
#[local] Hint Resolve emits_open_directory_beneath emits_open_optional : emits.
Lemma emits_open_absolute known path : emits admitted known (open_absolute_directory path) any.
Proof. unfold open_absolute_directory. emits_tac. Qed.
Lemma emits_require_owner known s u g l : emits (X := X) admitted known (require_directory_owner s u g l) any.
Proof. unfold require_directory_owner. emits_tac. Qed.
#[local] Hint Resolve emits_open_absolute emits_require_owner : emits.
Lemma emits_open_owned known parent relative u g l : emits admitted known (open_owned parent relative u g l) any.
Proof. unfold open_owned. emits_tac. Qed.
#[local] Hint Resolve emits_open_owned : emits.
Lemma emits_ancestry_loop known dir u g relative l : emits admitted known (ancestry_loop dir u g relative l) any.
Proof.
  revert known relative. induction l as [|[] l IH]; intros known relative; cbn [ancestry_loop]; emits_tac.
Qed.
#[local] Hint Resolve emits_ancestry_loop : emits.
Lemma emits_reference_ancestry known dir reference u g : emits admitted known (reference_ancestry_evidence dir reference u g) any.
Proof. unfold reference_ancestry_evidence. emits_tac. Qed.
Lemma emits_reject_entry known parent relative label : emits admitted known (reject_entry parent relative label) any.
Proof. unfold reject_entry. eapply emits_try; [exact mono|apply emits_open_under| |]; intros; emits_tac. Qed.
Lemma emits_each {A} (f : A -> PointerM X Fd unit) l known :
  (forall x known', emits admitted known' (f x) any) -> emits admitted known (each f l) any.
Proof.
  intros Hf. revert known. induction l as [|x l IH]; intros known; cbn [each]; [emits_tac|].
  eapply emits_bind; [exact mono|apply Hf|]. intros. apply IH.
Qed.
#[local] Hint Resolve emits_reference_ancestry emits_reject_entry : emits.
Lemma emits_read_config known parent relative m u g : emits admitted known (read_regular_digest_and_node parent relative m u g) any.
Proof. unfold read_regular_digest_and_node. emits_tac. Qed.
Lemma emits_read_regular known parent relative m : emits admitted known (read_regular_bytes parent relative m) any.
Proof. unfold read_regular_bytes. emits_tac. Qed.
Lemma emits_open_reference known dir reference u g : emits admitted known (open_safe_reference dir reference u g) any.
Proof.
  unfold open_safe_reference. emits_tac. eapply emits_bind; [exact mono| |].
  - apply emits_each. intros. emits_tac.
  - intros. emits_tac.
Qed.
#[local] Hint Resolve emits_read_config emits_read_regular emits_open_reference : emits.
Lemma emits_sync_reference known dir reference u g : emits admitted known (sync_reference dir reference u g) any.
Proof.
  unfold sync_reference. emits_tac. eapply emits_bind; [exact mono| |].
  - apply emits_each. intros. emits_tac.
  - intros. emits_tac.
Qed.
Lemma emits_hash_file known file : emits admitted known (hash_file file) any.
Proof. unfold hash_file. emits_tac. Qed.
Lemma emits_reopen known file : emits admitted known (reopen_read_only file) any.
Proof. unfold reopen_read_only. emits_tac. Qed.
Lemma emits_sync_imported known parent name u g : emits admitted known (sync_imported_object_file parent name u g) any.
Proof. unfold sync_imported_object_file. emits_tac. Qed.
#[local] Hint Resolve emits_sync_reference emits_hash_file emits_reopen emits_sync_imported : emits.
(** An object name read from the reference is canonical. *)
Lemma canonical_object_of output format value :
  canonical_object_output output format = Ok value -> is_git_object value format = true.
Proof. by intros [_ Hg]%canonical_object_output_exact. Qed.
Lemma emits_loose_reference known dir reference u g format :
  emits admitted known (read_loose_reference dir reference u g format) (fun _ r => is_git_object r.1 format = true).
Proof.
  unfold read_loose_reference. emits_tac. eapply emits_weaken; [apply emits_pure; total|]. intros K r _ [= <-]. simpl.
  by eapply canonical_object_of.
Qed.

(** ** The pinned executable and one child *)

Lemma emits_no_capability known file : emits admitted known (require_no_security_capability file) any.
Proof. unfold require_no_security_capability. eapply emits_try; [exact mono|apply emits_sys| |]; intros; emits_tac. Qed.
Lemma emits_read_exact known file size : emits admitted known (read_exact_git_bytes file size) any.
Proof. unfold read_exact_git_bytes. emits_tac. Qed.
#[local] Hint Resolve emits_no_capability emits_read_exact : emits.
Lemma emits_read_digest known file size : emits admitted known (read_exact_git_digest file size) any.
Proof. unfold read_exact_git_digest. emits_tac. Qed.
Lemma emits_sealed known b : emits admitted known (sealed_executable_snapshot b) any.
Proof. unfold sealed_executable_snapshot. emits_tac. Qed.
#[local] Hint Resolve emits_read_digest emits_sealed : emits.
Lemma emits_git_open_inner known path expected : emits admitted known (git_open_inner path expected) any.
Proof. unfold git_open_inner. emits_tac. Qed.
Lemma emits_revalidate known git : emits admitted known (revalidate git) any.
Proof. unfold revalidate. emits_tac. Qed.
Lemma emits_lock_git known t : emits admitted known (lock_git t) any.
Proof. unfold lock_git. emits_tac. Qed.
#[local] Hint Resolve emits_git_open_inner emits_revalidate emits_lock_git : emits.
Lemma emits_identity known t owner : emits admitted known (target_identity t owner) any.
Proof. unfold target_identity. emits_tac. Qed.
Lemma emits_floor known : emits admitted known require_privilege_floor any.
Proof. unfold require_privilege_floor. emits_tac. Qed.
Lemma emits_now known : emits admitted known pointer_now any.
Proof. unfold pointer_now. emits_tac. Qed.
#[local] Hint Resolve emits_identity emits_floor emits_now : emits.
Lemma emits_guard known expires : emits admitted known (commit_guard expires) any.
Proof. unfold commit_guard. destruct expires; emits_tac. Qed.
#[local] Hint Resolve emits_guard : emits.
(** The polling loop ends at the deadline at the latest. *)
Lemma emits_wait known fuel operation child polls :
  (3000 <= polls + Z.of_nat fuel)%Z -> emits admitted known (wait_loop fuel operation child polls) any.
Proof.
  revert known polls. induction fuel as [|fuel IH]; intros known polls Hp; cbn [wait_loop].
  - emits_step. destruct a as [status|]; [emits_tac|]. emits_step.
    assert ((GIT_COMMAND_TIMEOUT_MS <=? 10 * polls + Z.max 0 a)%Z = true) as -> by (apply Z.leb_le; unfold GIT_COMMAND_TIMEOUT_MS; lia).
    emits_tac.
  - emits_step. destruct a as [status|]; [emits_tac|]. emits_step.
    destruct (GIT_COMMAND_TIMEOUT_MS <=? 10 * polls + Z.max 0 a)%Z; [emits_tac|]. apply IH. lia.
Qed.
Lemma emits_reaping {A} known child (m : PointerM X Fd A) P : emits admitted known m P -> emits admitted known (reaping child m) any.
Proof. intros Hm. unfold reaping. eapply emits_try; [exact mono|exact Hm| |]; intros; emits_tac. Qed.
Lemma emits_run_git_inner known t operation arguments environment stdin owner expires :
  (forall known' l, known ⊆ known' -> gl_operation l = operation -> gl_writable l = ge_writable_roots environment -> admitted known' l) ->
  emits admitted known (run_git_inner t operation arguments environment stdin owner expires) any.
Proof.
  intros Hl. unfold run_git_inner. do 5 emits_step. eapply emits_bind; [exact mono| |].
  - apply emits_record; [exact mono|]. apply Hl; [|done|done]. set_solver.
  - intros. emits_step. eapply emits_bind; [exact mono| |].
    + eapply emits_reaping, emits_wait. done.
    + intros. emits_tac.
Qed.

(** What an environment lets a child write. *)
Definition writes {A : Type} (fds : list Fd) (_ : A) (e : GitEnvironmentV1 Fd) : Prop := map snd (ge_writable_roots e) = fds.
Lemma emits_descriptor_path known key d suffix e fds :
  map snd (ge_writable_roots e) = fds -> emits admitted known (descriptor_path key d suffix e) (writes fds).
Proof.
  intros He. unfold descriptor_path. emits_step. eapply emits_weaken; [apply emits_pure; total|]. by intros K r _ [= <-].
Qed.
Lemma emits_admit known d e fds :
  map snd (ge_writable_roots e) = fds -> emits admitted known (admit_write_root d e) (writes (fds ++ [d])).
Proof.
  intros He. unfold admit_write_root. emits_step. eapply emits_weaken; [apply emits_pure; total|]. intros K r _ [= <-].
  unfold writes. simpl. by rewrite map_app, He.
Qed.
Lemma emits_writable_path known key d suffix :
  emits admitted known (writable_descriptor_path key d suffix empty_environment) (writes [d]).
Proof.
  unfold writable_descriptor_path. eapply emits_bind; [exact mono|by eapply (emits_descriptor_path _ _ _ _ _ [])|].
  intros e K _ He. by apply (emits_admit _ _ _ []).
Qed.
Lemma emits_reading_path known key d suffix : emits admitted known (descriptor_path key d suffix empty_environment) (writes []).
Proof. by apply emits_descriptor_path. Qed.
Lemma emits_reading_path_more known key d suffix e K0 :
  writes (A := list Fd) [] K0 e -> emits admitted known (descriptor_path key d suffix e) (writes []).
Proof. intros He. by apply emits_descriptor_path. Qed.
#[local] Hint Resolve emits_writable_path emits_reading_path emits_reading_path_more : emits.

(** A child that only reads. *)
Lemma emits_reading known t operation arguments environment stdin owner (K0 : list Fd) :
  operation <> UpdateRef -> writes [] K0 environment ->
  emits admitted known (run_git t operation arguments environment stdin owner) any.
Proof.
  intros Hop He. unfold run_git. apply emits_run_git_inner. intros K l _ Ho Hw. apply reading; [by rewrite Ho|].
  rewrite Hw. by apply map_eq_nil in He.
Qed.
Lemma emits_reading_checked known t operation arguments environment stdin owner (K0 : list Fd) :
  operation <> UpdateRef -> writes [] K0 environment ->
  emits admitted known (run_git_checked t operation arguments environment stdin owner) any.
Proof.
  intros Hop He. unfold run_git_checked. eapply emits_bind; [exact mono|by eapply emits_reading|]. intros. emits_tac.
Qed.
(** A child that writes the stage it is given. *)
Lemma emits_staging_checked known t operation arguments environment stdin owner (K0 : list Fd) d :
  operation = Init \/ operation = IndexPack -> writes [d] K0 environment -> d ∈ known ->
  emits admitted known (run_git_checked t operation arguments environment stdin owner) any.
Proof.
  intros Hop He Hd. unfold run_git_checked. eapply emits_bind; [exact mono| |intros; emits_tac].
  unfold run_git. apply emits_run_git_inner. intros K l Hk Ho Hw. apply staging; [by rewrite Ho|].
  rewrite Hw. unfold writes in He. apply Forall_forall. intros p Hp. apply Hk.
  apply (elem_map snd) in Hp. rewrite He in Hp. by apply list_elem_of_singleton in Hp as ->.
Qed.
#[local] Hint Extern 1 (_ <> UpdateRef) => discriminate : emits.
#[local] Hint Resolve emits_reading emits_reading_checked : emits.

(** ** Staging *)

Lemma emits_create_loop attempts known root stat :
  emits admitted known (create_loop attempts root stat) (fun known' stage => sd_directory stage ∈ known').
Proof.
  revert known. induction attempts as [|n IH]; intros known; cbn [create_loop].
  - eapply emits_weaken; [apply emits_pure; total|done].
  - emits_step. eapply emits_try; [exact mono|apply emits_sys| |].
    + intros. do 3 emits_step. eapply emits_bind; [exact mono|by apply (emits_record _ mono)|]. cbv beta. intros [] K _ ->.
      eapply emits_weaken; [apply emits_pure; total|]. intros K r Hk [= <-]. simpl in *. set_solver.
    + intros [] K Hk; try (eapply emits_weaken; [apply emits_pure; total|done]). apply IH.
Qed.
Lemma emits_staging_create known root custody :
  emits admitted known (staging_create root custody) (fun known' stage => sd_directory stage ∈ known').
Proof. unfold staging_create. do 4 emits_step. apply emits_create_loop. Qed.
#[local] Hint Resolve emits_staging_create : emits.
Lemma emits_staging_drop known stage : emits admitted known (staging_drop stage) any.
Proof. unfold staging_drop, ignore. eapply emits_try; [exact mono|apply emits_sys| |]; intros; emits_tac. Qed.
#[local] Hint Resolve emits_staging_drop : emits.
Lemma emits_dropping {A} known stage (m : PointerM X Fd A) P :
  emits admitted known m P -> (forall K K' a, K ⊆ K' -> P K a -> P K' a) -> emits admitted known (dropping stage m) P.
Proof.
  intros Hm HP. unfold dropping. eapply emits_try; [exact mono|exact Hm| |].
  - intros a K Hk Ha. emits_step. eapply emits_weaken; [apply emits_pure; total|]. intros K' r Hk' [= <-]. eapply HP, Ha. set_solver.
  - intros e K Hk. emits_step. by eapply emits_weaken; [apply emits_pure; total|].
Qed.
Lemma emits_dropping_on_error {A} known stage (m : PointerM X Fd A) P :
  emits admitted known m P -> (forall K K' a, K ⊆ K' -> P K a -> P K' a) -> emits admitted known (dropping_on_error stage m) P.
Proof.
  intros Hm HP. unfold dropping_on_error. eapply emits_try; [exact mono|exact Hm| |].
  - intros a K Hk Ha. eapply emits_weaken; [apply emits_pure; total|]. intros K' r Hk' [= <-]. by eapply HP, Ha.
  - intros e K Hk. emits_step. by eapply emits_weaken; [apply emits_pure; total|].
Qed.
Lemma emits_initialize known t stage format :
  sd_directory stage ∈ known -> emits admitted known (initialize_staging t stage format) any.
Proof.
  intros Hd. unfold initialize_staging. do 2 emits_step.
  eapply emits_bind; [exact mono| |].
  { instantiate (1 := any). destruct (_ || _); emits_tac. }
  intros. do 3 emits_step. eapply emits_bind; [exact mono| |intros; emits_tac].
  eapply emits_staging_checked; [by left|eassumption|]. set_solver.
Qed.

(** ** The repository *)

Lemma emits_open_repository known t : emits admitted known (open_repository t) any.
Proof.
  unfold open_repository. emits_tac. eapply emits_bind; [exact mono| |].
  { instantiate (1 := any). match goal with |- emits _ _ (match ?o with _ => _ end) _ => destruct o end; emits_tac. }
  intros [git_directory bare] K _ _. emits_tac. eapply emits_bind; [exact mono| |].
  { apply emits_each. intros [entry label] K'. emits_tac. }
  intros. emits_tac.
Qed.
Lemma emits_git_object known t arguments environment format (K0 : list Fd) :
  writes [] K0 environment ->
  emits admitted known (git_object t arguments environment format) (fun _ o => is_git_object o format = true).
Proof.
  intros He. unfold git_object. eapply emits_bind; [exact mono|by eapply emits_reading_checked|]. intros output K _ _.
  eapply emits_weaken; [apply emits_pure; total|]. intros K' o _ Ho. cbv beta in Ho. by eapply canonical_object_of.
Qed.
#[local] Hint Resolve emits_open_repository emits_git_object : emits.
Lemma emits_clean_worktree known t repository object : emits admitted known (observe_clean_worktree t repository object) any.
Proof.
  unfold observe_clean_worktree. emits_step. apply emits_dropping; [|done].
  eapply emits_bind; [exact mono|by apply emits_initialize|]. intros. emits_tac.
Qed.
#[local] Hint Resolve emits_clean_worktree : emits.
Lemma emits_checked_out known t repository environment (K0 : list Fd) :
  writes [] K0 environment -> emits admitted known (checked_out_state t repository environment) any.
Proof. intros He. unfold checked_out_state. emits_tac. Qed.
#[local] Hint Resolve emits_checked_out : emits.

(** An observed state: its names are canonical and its evidence is its own. *)
Definition observed_state {A : Type} (evidence : ManagedRepositoryIdentityEvidenceV1) (_ : A) (s : RepositoryStateV1) : Prop :=
  st_object_format s = ri_object_format evidence /\
  is_git_object (st_current_object s) (ri_object_format evidence) = true /\
  is_git_object (st_current_tree s) (ri_object_format evidence) = true /\
  rs_schema (st_evidence s) = MANAGED_REPOSITORY_STATE_SCHEMA_V1 /\
  repository_evidence_identity evidence = Ok (rs_repository_identity (st_evidence s)) /\
  rs_current_object (st_evidence s) = st_current_object s /\ rs_current_tree (st_evidence s) = st_current_tree s /\
  rs_clean (st_evidence s) = st_clean s /\ rs_reference_checked_out (st_evidence s) = st_reference_checked_out s.
Lemma emits_read_state known t repository :
  emits admitted known (read_repository_state t repository) (observed_state (or_identity_evidence repository)).
Proof.
  unfold read_repository_state. eapply emits_bind; [exact mono|apply emits_loose_reference|]. intros [direct node] K _ _.
  emits_tac. eapply emits_bind; [exact mono|apply emits_loose_reference|]. intros [final node'] K' _ _.
  emits_tac. eapply emits_weaken; [apply emits_pure; total|]. intros K3 s _ [= <-]. unfold observed_state. simpl. by split_all.
Qed.
Lemma emits_observe known t repository :
  emits admitted known (observe_repository_state t repository) (observed_state (or_identity_evidence repository)).
Proof.
  unfold observe_repository_state. eapply emits_bind; [exact mono|apply emits_read_state|]. intros s K _ Hs.
  eapply emits_bind; [exact mono|by apply emits_record|]. intros [] K'' _ _.
  eapply emits_weaken; [apply emits_pure; total|]. by intros K3 s' _ [= <-].
Qed.
Lemma emits_observe_any known t repository : emits admitted known (observe_repository_state t repository) any.
Proof. eapply emits_weaken; [apply emits_observe|done]. Qed.

(** ** The candidate *)

(** What is staged keeps its stage and the format it was asked for. *)
Definition staged_in {A : Type} (stage : StagingDirectoryV1 Fd) (format : GitObjectFormatV1) (_ : A) (s : StagedCandidateV1 Fd) : Prop :=
  sc_stage s = stage /\ sc_object_format s = format.
Lemma emits_stage_bundle known t stage bundle format :
  sd_directory stage ∈ known -> emits admitted known (stage_bundle t stage bundle format) (staged_in stage format).
Proof.
  intros Hd. unfold stage_bundle. eapply emits_bind; [exact mono|by apply emits_initialize|]. intros ? K Hk _.
  emits_tac. eapply emits_bind; [exact mono| |].
  { eapply emits_staging_checked; [by right|eassumption|]. set_solver. }
  intros. emits_tac. eapply emits_weaken; [apply emits_pure; total|]. by intros K' s _ [= <-].
Qed.
Lemma emits_stage_candidate known t artifact b format :
  emits admitted known (stage_candidate t artifact b format) (fun K s => sd_directory (sc_stage s) ∈ K).
Proof.
  unfold stage_candidate. emits_tac. apply emits_dropping_on_error; [|set_solver].
  eapply emits_weaken; [by apply emits_stage_bundle|]. intros K s Hk [-> _]. set_solver.
Qed.
Lemma emits_verify_imported known t repository candidate tree format :
  emits admitted known (verify_imported_candidate t repository candidate tree format) any.
Proof. unfold verify_imported_candidate. emits_tac. Qed.
(** The import writes the pack directory of the target, and nothing else does. *)
Lemma emits_import_pack known t repository pack format digest :
  (forall K l, gl_operation l = IndexPack -> map snd (gl_writable l) = [or_pack_directory repository] -> admitted K l) ->
  emits admitted known (import_pack t repository pack format digest) (fun _ i => ip_candidate_pack_digest i = digest).
Proof.
  intros Himport. unfold import_pack. emits_tac. eapply emits_bind; [exact mono|by apply (emits_admit _ _ _ [])|].
  intros e K _ He. emits_tac. eapply emits_bind; [exact mono| |].
  { unfold run_git. apply emits_run_git_inner. intros K' l _ Ho Hw. apply Himport; [done|]. by rewrite Hw. }
  intros. emits_tac. eapply emits_weaken; [apply emits_pure; total|]. by intros K' i _ [= <-].
Qed.
#[local] Hint Resolve emits_observe_any emits_verify_imported : emits.

(** ** The runtime *)

Lemma emits_drifted known c d : emits (X := X) admitted known (drifted c d) (fun _ _ => c = false).
Proof.
  unfold drifted. eapply emits_weaken; [by apply emits_pure, reject_if_no_panic|]. intros K u _ E. by apply reject_if_ok in E.
Qed.
Lemma emits_drifted_any known c d : emits (X := X) admitted known (drifted c d) any.
Proof. eapply emits_weaken; [apply emits_drifted|done]. Qed.
#[local] Hint Resolve emits_drifted_any : emits.
Lemma canonical_bindings_total t fields r x : no_panic (canonical_bindings (Fd := Fd) t fields r x).
Proof. unfold canonical_bindings. total. Qed.
#[local] Hint Resolve canonical_bindings_total : total.
Lemma emits_canonical_bindings known t fields : emits admitted known (verify_canonical_bindings t fields) any.
Proof. unfold verify_canonical_bindings. emits_tac. Qed.
Lemma emits_target_of known rt target : emits (X := X) admitted known (target_of rt target) any.
Proof. unfold target_of. emits_tac. Qed.
#[local] Hint Resolve emits_canonical_bindings emits_target_of : emits.
Lemma emits_enrolled_repository known t repository : emits (X := X) admitted known (require_enrolled_repository t repository) any.
Proof. unfold require_enrolled_repository. emits_tac. Qed.
#[local] Hint Resolve emits_enrolled_repository : emits.
Lemma emits_open_enrolled known t : emits admitted known (open_enrolled t) any.
Proof. unfold open_enrolled. emits_tac. Qed.
(** A repository that passes has the effect's identity. *)
Lemma emits_canonical_repository known fields repository :
  emits (X := X) admitted known (require_canonical_repository fields repository)
    (fun _ _ => repository_evidence_identity (or_identity_evidence repository) = Ok (pp_repository_identity fields)).
Proof.
  unfold require_canonical_repository. emits_step. eapply emits_weaken; [apply emits_drifted|]. cbv beta.
  intros K u _ E. rewrite !orb_false in E. destruct E as [[[[[[[E _] _] _] _] _] _] _].
  apply negb_bool_decide_false in E. by rewrite <- E.
Qed.
Lemma emits_canonical_repository_any known fields repository :
  emits (X := X) admitted known (require_canonical_repository fields repository) any.
Proof. eapply emits_weaken; [apply emits_canonical_repository|done]. Qed.
#[local] Hint Resolve emits_open_enrolled emits_canonical_repository_any : emits.
Definition in_prestate {A : Type} (fields : PromotionEffect) (_ : A) (r : OpenRepositoryV1 Fd * RepositoryStateV1) : Prop :=
  repository_evidence_identity (or_identity_evidence r.1) = Ok (pp_repository_identity fields) /\ exact_prestate fields r.2 = true.
Lemma emits_exact_prestate known t fields : emits admitted known (open_exact_prestate t fields) (in_prestate fields).
Proof.
  unfold open_exact_prestate, open_canonical. eapply emits_bind; [exact mono| |].
  - emits_step. eapply emits_bind; [exact mono|apply emits_canonical_repository|]. cbv beta. intros u K _ Hr.
    emits_step. instantiate (1 := fun _ r => repository_evidence_identity (or_identity_evidence r.1) = Ok (pp_repository_identity fields)).
    eapply emits_weaken; [apply emits_pure; total|]. by intros K' r _ [= <-].
  - intros [repository state] K _ Hr. unfold require_exact_prestate. emits_step. apply reject_if_ok, negb_false_iff in HP.
    eapply emits_weaken; [apply emits_pure; total|]. by intros K' r _ [= <-].
Qed.
Lemma emits_exact_prestate_any known t fields : emits admitted known (open_exact_prestate t fields) any.
Proof. eapply emits_weaken; [apply emits_exact_prestate|done]. Qed.
#[local] Hint Resolve emits_exact_prestate_any : emits.

Lemma target_observation_total repository state staged : no_panic (target_observation (Fd := Fd) repository state staged).
Proof. unfold target_observation. total. Qed.
#[local] Hint Resolve target_observation_total : total.
Lemma emits_finish_candidate known t receipt artifact len repository state staged :
  emits admitted known (finish_candidate t receipt artifact len repository state staged) any.
Proof. unfold finish_candidate. emits_tac. Qed.
Lemma emits_prepare_candidate known rt standing artifact b now :
  emits admitted known (prepare_candidate_bytes rt standing artifact b now) any.
Proof.
  unfold prepare_candidate_bytes. emits_tac. eapply emits_bind; [exact mono|apply emits_stage_candidate|]. intros staged K _ _.
  apply emits_dropping; [apply emits_finish_candidate|done].
Qed.
Lemma emits_observe_canonical known rt effect : emits admitted known (observe_canonical rt effect) any.
Proof. unfold observe_canonical. emits_tac. Qed.
Lemma emits_promotion_standing known rt context effect candidate ratification now :
  emits admitted known (promotion_standing rt context effect candidate ratification now) any.
Proof. unfold promotion_standing. emits_tac. Qed.

(** ** Genesis *)

Lemma validate_absolute_total l : no_panic (validate_absolute l).
Proof. induction l as [|x l IH]; cbn [validate_absolute]; total. Qed.
#[local] Hint Resolve validate_absolute_total : total.
Lemma enrollment_inputs_total a b c d e f g h i : no_panic (validate_managed_pointer_enrollment_inputs a b c d e f g h i).
Proof. unfold validate_managed_pointer_enrollment_inputs. total. Qed.
#[local] Hint Resolve enrollment_inputs_total : total.
Lemma genesis_request_total r : no_panic (genesis_request_validate r).
Proof. unfold genesis_request_validate, validate_security_profile. total. Qed.
Lemma genesis_context_total c : no_panic (genesis_context_validate c).
Proof. unfold genesis_context_validate. total. Qed.
Lemma launch_profile_total a b : no_panic (managed_pointer_launch_profile_identity a b).
Proof. unfold managed_pointer_launch_profile_identity. total. Qed.
#[local] Hint Resolve genesis_request_total genesis_context_total launch_profile_total : total.
Lemma genesis_request_identity_total r : no_panic (genesis_request_identity r).
Proof. unfold genesis_request_identity. total. Qed.
#[local] Hint Resolve genesis_request_identity_total : total.
Lemma measurement_verify_total m : no_panic (measurement_verify m).
Proof. unfold measurement_verify. total. Qed.
#[local] Hint Resolve measurement_verify_total : total.
Lemma measurement_identity_total m : no_panic (measurement_identity m).
Proof. unfold measurement_identity. total. Qed.
#[local] Hint Resolve measurement_identity_total : total.
(** A measurement that was taken: it verifies, and its names are canonical. *)
Definition measured {A : Type} (request : ManagedPointerGenesisRequestV1) (_ : A) (m : ManagedPointerGenesisMeasurementV1) : Prop :=
  genesis_request_validate request = Ok tt /\ gm_request m = request /\ measurement_verify m = Ok tt /\
  exists format, is_git_object (gm_activation_genesis_object m) format = true /\
                 is_git_object (gm_activation_genesis_tree m) format = true.
Lemma emits_git_measure known path : emits admitted known (git_measure path) any.
Proof. apply emits_git_open_inner. Qed.
#[local] Hint Resolve emits_git_measure : emits.
Lemma emits_measure known request context : emits admitted known (measure_managed_pointer_genesis request context) (measured request).
Proof.
  unfold measure_managed_pointer_genesis. emits_tac. eapply emits_bind; [exact mono| |].
  { instantiate (1 := any). destruct (_ == _); emits_tac. }
  intros. emits_step. eapply emits_bind; [exact mono|apply emits_observe|]. intros state K _ Hs. emits_tac.
  eapply emits_weaken; [apply emits_pure; total|]. intros K' m _ E. apply Ok_inj in E as <-.
  destruct Hs as (Hf & Ho & Ht & _). unfold measured.
  repeat match goal with u : unit |- _ => destruct u end. split_all; try done. simpl. eauto.
Qed.
(** An enrolled target passes the validation of the daemon's configuration. *)
Lemma measured_target_valid request m id allowed repository reference uid gid staging_root ttl helper state identity executable profile :
  validate_managed_pointer_enrollment_inputs id allowed repository reference uid gid staging_root ttl helper = Ok tt ->
  measured request tt m ->
  validate_managed_pointer_target (mkPointerTarget id allowed repository reference (gm_activation_genesis_object m)
    (gm_activation_genesis_tree m) state identity uid gid staging_root ttl helper executable profile) = Ok tt.
Proof.
  intros Hv (_ & _ & _ & format & Ho & Ht). unfold validate_managed_pointer_target. cbn [pt_id pt_allowed_root pt_repository
    pt_reference pt_uid pt_gid pt_staging_root pt_promotion_ttl_ms pt_helper pt_activation_genesis_object pt_activation_genesis_tree].
  rewrite Hv. cbn [res_bind]. unfold is_git_object in Ho, Ht. unfold valid_git_object_name.
  apply andb_true_iff in Ho as [Hol%bool_decide_eq_true Hoc], Ht as [Htl%bool_decide_eq_true Htc].
  rewrite Hoc, Htc, Hol, Htl, Nat.eqb_refl. by destruct format.
Qed.
Lemma emits_enroll known request context reviewed :
  emits admitted known (enroll_managed_pointer_genesis request context reviewed)
    (fun _ r => match r.1 with CfgManagedPointer t => validate_managed_pointer_target t = Ok tt | _ => False end /\
                measurement_identity reviewed = Ok r.2).
Proof.
  unfold enroll_managed_pointer_genesis. emits_tac. eapply emits_bind; [exact mono|apply emits_measure|].
  intros fresh K _ Hm. emits_tac. eapply emits_weaken; [apply emits_pure; total|]. intros K' r _ E. apply Ok_inj in E as <-.
  cbn [fst snd]. split; [|by repeat match goal with E : measurement_identity reviewed = Ok _ |- _ => exact E end].
  assert (fresh = reviewed) as <-.
  { match goal with E : reject_if (fresh != reviewed) _ = Ok _ |- _ => apply reject_if_ok, negb_bool_decide_false in E; exact E end. }
  eapply measured_target_valid; [|exact Hm]. destruct Hm as (Hv & _). unfold genesis_request_validate in Hv.
  apply guard_ok in Hv as [_ Hv]. apply then_ok in Hv as [_ Hv]. by apply map_err_ok in Hv.
Qed.

(** ** The preparation of a promotion *)

Lemma exact_prestate_identity fields state :
  exact_prestate fields state = true -> state_identity (st_evidence state) = Ok (pp_prestate_identity fields).
Proof.
  unfold exact_prestate. rewrite !andb_true_iff. intros [[[[[_ E] _] _] _] _].
  destruct (state_identity _); [|done..]. apply bool_decide_eq_true in E. by rewrite E.
Qed.
(** A preparation that the commit's own checks accept. *)
Definition handed_over {A : Type} (effect : CanonicalEffectV1) (context : ManagedPointerExecutionContextV1) (_ : A)
    (p : PreparedManagedPointerV1 Fd) : Prop :=
  pm_effect p = effect /\ pm_context p = context /\
  exists fields, from_effect effect = Ok fields /\ pm_target p = pp_target fields /\ preparation_bound p fields = Ok tt.
Definition standing_bound (standing : ManagedPointerPromotionStandingReceiptV1) (fields : PromotionEffect) : Prop :=
  sr_candidate standing = pp_prepared_candidate fields /\ sr_exact_basis standing = pp_exact_basis fields /\
  is_ok (promotion_standing_identity standing) = true.
Context (importing : forall known l, gl_operation l = IndexPack -> admitted known l).

Lemma emits_finish_prepare known t standing context effect fields staged :
  from_effect effect = Ok fields -> standing_bound standing fields ->
  emits admitted known (finish_prepare t standing context effect fields staged) (handed_over effect context).
Proof.
  intros Hf (Hc & Hb & Hs). unfold finish_prepare. emits_step.
  eapply emits_bind; [exact mono|apply emits_exact_prestate_any|]. intros [r1 s1] K1 _ _.
  eapply emits_bind; [exact mono|apply emits_import_pack; auto|]. intros imported K2 _ _. emits_step.
  eapply emits_bind; [exact mono|apply emits_exact_prestate|]. intros [r2 s2] K3 _ [Hl Hp]. cbn [fst snd] in *.
  emits_step. emits_step. eapply emits_weaken; [apply emits_pure; total|]. intros K4 p _ E. apply Ok_inj in E as <-.
  unfold handed_over. cbn [pm_effect pm_context pm_target]. split_all; [done..|]. exists fields. split_all; [done..|].
  unfold preparation_bound. cbn [pm_evidence pm_context pm_checkpoint pe_promotion_standing pe_execution pe_operation_id
    pe_prepared_candidate pe_candidate_ratification pe_repository_identity pe_repository_layout pe_prestate
    pe_imported_pack_evidence pe_object_import_evidence].
  destruct (promotion_standing_identity standing); [|done..]. cbn [res_bind].
  rewrite (bool_decide_eq_true_2 (context = context)) by done. cbn [negb reject_if res_bind].
  match goal with E : preparation_checkpoint _ = Ok _ |- _ => rewrite E end. cbn [res_bind].
  rewrite Hc, Hb, !(bool_decide_eq_true_2 (_ = _)) by done. cbn [negb orb reject_if res_bind].
  rewrite Hl. cbn [res_bind]. rewrite bool_decide_eq_true_2 by done. cbn [negb reject_if res_bind].
  rewrite (exact_prestate_identity _ _ Hp). cbn [res_bind]. rewrite bool_decide_eq_true_2 by done. cbn [negb reject_if res_bind].
  match goal with E : pointer_digest imported = Ok _ |- _ => rewrite E end. cbn [res_bind]. by rewrite bool_decide_eq_true_2.
Qed.
Lemma emits_prepare_inner known rt standing context effect b now :
  emits admitted known (prepare_inner rt standing context effect b now) (handed_over effect context).
Proof.
  unfold prepare_inner. emits_tac. eapply emits_bind; [exact mono|apply emits_stage_candidate|]. intros staged K _ _.
  apply emits_dropping_on_error; [|done]. apply emits_finish_prepare; [done|].
  apply reject_if_ok in HP0. rewrite !orb_false in HP0. destruct HP0 as [[[[[[_ _] Hc] Hb] _] _] _].
  apply negb_bool_decide_false in Hc, Hb. unfold standing_bound. by rewrite HP1.
Qed.

(** ** Around the compare-and-swap *)

Context `{JcsErrorText}.
Lemma preparation_bound_total p fields : no_panic (preparation_bound (Fd := Fd) p fields).
Proof. unfold preparation_bound. total. Qed.
#[local] Hint Resolve preparation_bound_total : total.
Ltac commit_tac :=
  repeat first
    [ emits_step
    | match goal with
      | |- emits _ _ (st_bind _ _) _ =>
          eapply emits_bind; [exact mono | unfold failing, unknown; apply emits_map_err; solve [emits_leaf] |
                              let HP := fresh "HP" in intros ? ? ? HP; cbv beta in HP]
      end ].
Lemma emits_before_cas_checks known p now fields t : emits admitted known (before_cas_checks p now fields t) any.
Proof. unfold before_cas_checks. commit_tac. Qed.
#[local] Hint Resolve emits_before_cas_checks : emits.
Lemma emits_before_cas known p now fields t : emits admitted known (before_cas p now fields t) any.
Proof. unfold before_cas. commit_tac. Qed.
Lemma emits_observe_poststate known t fields phase s1 s2 s3 s4 :
  emits admitted known (observe_poststate t fields phase s1 s2 s3 s4)
    (fun _ r => exact_poststate fields r.2 = true /\
                repository_evidence_identity (or_identity_evidence r.1) = Ok (pp_repository_identity fields)).
Proof.
  unfold observe_poststate, unknown. eapply emits_bind; [exact mono|apply emits_map_err, emits_open_repository|].
  intros repository K0 _ _.
  eapply emits_bind; [exact mono|apply emits_map_err, emits_canonical_repository|]. cbv beta. intros u K _ Hr. commit_tac.
  apply reject_if_ok, negb_false_iff in HP0. eapply emits_weaken; [apply emits_pure; total|]. by intros K' r _ [= <-].
Qed.
Lemma emits_classify {A} known t fields detail : emits admitted known (classify_cas_rejection (A := A) t fields detail) any.
Proof.
  unfold classify_cas_rejection. eapply emits_try; [exact mono| | |].
  - instantiate (1 := any). emits_tac.
  - intros state K _ _. eapply emits_weaken; [apply emits_pure; destruct (exact_prestate _ _); total|done].
  - intros e K _. emits_tac.
Qed.
Lemma emits_commit_sync known dir reference u g :
  emits admitted known (unknown "ref committed but durability sync failed" DirectorySync None (sync_reference dir reference u g)) any.
Proof. apply emits_map_err, emits_sync_reference. Qed.
End Confinement.
