(* ===== verification/PointerCommit.v ===== *)
(** * Managed pointers: the compare-and-swap and its receipts

    The theorems on the runtime for every host: quarantined preparation writes
    only its own staging directories; a promotion's preparation never launches
    the compare-and-swap and hands over what the commit accepts; a commit launches
    it at most once, right after it observed the exact prestate; and its receipt
    says what was observed. *)

From S2P Require Import Prelude Wire Fixture Digest Names Origin Capability Identity Protocol Paths Store StoreBlob HostFiles RpcAuth Config Effect Compile Proposal Executor Pointer PointerText PointerGit PointerRuntime PointerSpec.

(** ** Calls that log nothing *)

Section Silent.
  Context {X Fd : Type}.

Definition silent {E A} (m : ST (PointerWorld X Fd) E A) (R : E -> Prop) : Prop := forall w,
  pw_events (m w).1 = pw_events w /\ match (m w).2 with Ok _ => True | Err e => R e | Panic => False end.
Lemma silent_pure {E A} (r : res E A) (R : E -> Prop) : no_panic r -> (forall e, r = Err e -> R e) -> silent (pure r) R.
Proof. intros Hn HR w. split; [done|]. destruct r; [done|by apply HR|done]. Qed.
Lemma silent_bind {E A B} (m : ST (PointerWorld X Fd) E A) (k : A -> ST (PointerWorld X Fd) E B) R :
  silent m R -> (forall a, silent (k a) R) -> silent (st_bind m k) R.
Proof.
  intros Hm Hk w. unfold st_bind. destruct (Hm w) as [He Hr]. destruct (m w) as [w' [a|e|]]; simpl in *; [|done..].
  rewrite <- He. apply Hk.
Qed.
Lemma silent_map_err {E F A} (f : E -> F) (m : ST (PointerWorld X Fd) E A) (R : F -> Prop) :
  silent m (fun e => R (f e)) -> silent (st_map_err f m) R.
Proof. intros Hm w. specialize (Hm w). unfold st_map_err. by destruct (m w) as [w' []]. Qed.
Lemma silent_weaken {E A} (m : ST (PointerWorld X Fd) E A) (R R' : E -> Prop) : silent m R -> (forall e, R e -> R' e) -> silent m R'.
Proof. intros Hm HR w. destruct (Hm w) as [He Hr]. split; [done|]. destruct (m w).2; eauto. Qed.
Lemma silent_host {E A} (m : ST X E A) (R : E -> Prop) : (forall x, (m x).2 <> Panic) -> (forall e, R e) -> silent (on_host m) R.
Proof.
  intros Hm HR w. unfold on_host. specialize (Hm (pw_host w)). destruct (m (pw_host w)) as [x r]. split; [done|]. simpl in *.
  by destruct r.
Qed.
Lemma silent_ask {E A} (m : X -> X * A) (R : E -> Prop) : silent (ask m) R.
Proof. intros w. unfold ask, on_host. by destruct (m (pw_host w)). Qed.
Lemma silent_get {E} (R : E -> Prop) : silent get R.
Proof. done. Qed.
Lemma silent_try {E F A B} (m : ST (PointerWorld X Fd) E A) (k : res E A -> ST (PointerWorld X Fd) F B) R R' :
  silent m R' -> (forall a, silent (k (Ok a)) R) -> (forall e, R' e -> silent (k (Err e)) R) -> silent (st_try m k) R.
Proof.
  intros Hm Hk He w. unfold st_try. destruct (Hm w) as [Hw Hr]. destruct (m w) as [w' [a|e|]]; simpl in *; [| |done].
  - rewrite <- Hw. apply Hk.
  - rewrite <- Hw. by apply He.
Qed.
End Silent.

Definition whatever {E : Type} (_ : E) : Prop := True.
(** The errors of a child that was launched. *)
Definition after_launch (e : ManagedPointerError) : Prop := e <> PromotionExpiredBeforeCas.

Section Children.
  Context `{Deps, ErrnoText, PointerTexts} {X Fd : Type} `{!PointerHost X Fd}.

Lemma silent_sys {A} (m : Sys X Errno A) (R : ManagedPointerError -> Prop) : (forall e, R (PointerIo e)) -> silent (Fd := Fd) (sys (run_sys m)) R.
Proof. intros HR. apply silent_map_err, silent_host; [apply run_sys_total|]. by intros e. Qed.
Lemma silent_io {A} (m : Sys X IoError A) (R : ManagedPointerError -> Prop) : (forall e, R (PointerIo e)) -> silent (Fd := Fd) (io (run_sys m)) R.
Proof. intros HR. apply silent_map_err, silent_host; [apply run_sys_total|]. by intros e. Qed.

Ltac silent_step :=
  cbv zeta;
  match goal with
  | |- silent (st_bind _ _) _ => apply silent_bind; [|intros ?]
  | |- silent (sys (run_sys _)) _ => by apply silent_sys
  | |- silent (io (run_sys _)) _ => by apply silent_io
  | |- silent (pure _) _ => apply silent_pure; [total|done]
  | |- silent (ask _) _ => apply silent_ask
  | |- silent get _ => apply silent_get
  | |- silent (unsafe_if _ _) _ => apply silent_pure; [total|done]
  | |- silent (st_map_err _ (on_host (run_sys _))) _ => apply silent_map_err, silent_host; [apply run_sys_total|done]
  | |- silent (if ?b then _ else _) _ => destruct b
  end.
Ltac silent_tac := repeat silent_step.

Lemma silent_revalidate git : silent (Fd := Fd) (revalidate git) whatever.
Proof.
  unfold revalidate, read_exact_git_digest, read_exact_git_bytes. silent_tac.
  all: unfold require_no_security_capability; eapply silent_try; [apply silent_host; [apply run_sys_total|by instantiate (1 := whatever)]| |];
    intros; silent_tac.
Qed.
Lemma silent_lock t : silent (Fd := Fd) (lock_git t) whatever.
Proof. unfold lock_git. silent_tac. Qed.
Lemma silent_identity t owner : silent (Fd := Fd) (target_identity t owner) whatever.
Proof. unfold target_identity. silent_tac. Qed.
Lemma silent_floor : silent (Fd := Fd) require_privilege_floor whatever.
Proof. unfold require_privilege_floor. silent_tac. Qed.
Lemma silent_guard expires : silent (Fd := Fd) (commit_guard expires) whatever.
Proof. unfold commit_guard, pointer_now. destruct expires; silent_tac. Qed.
Lemma silent_descriptor key d suffix e : silent (Fd := Fd) (descriptor_path key d suffix e) whatever.
Proof. unfold descriptor_path. silent_tac. Qed.
Lemma silent_admit d e : silent (Fd := Fd) (admit_write_root d e) whatever.
Proof. unfold admit_write_root. silent_tac. Qed.
Lemma silent_wait fuel operation child polls :
  (3000 <= polls + Z.of_nat fuel)%Z -> silent (Fd := Fd) (wait_loop fuel operation child polls) after_launch.
Proof.
  revert polls. induction fuel as [|fuel IH]; intros polls Hp; cbn [wait_loop]; silent_step; [by apply silent_io| |by apply silent_io|].
  - destruct a as [status|]; [silent_tac|]. silent_step; [apply silent_ask|].
    assert ((GIT_COMMAND_TIMEOUT_MS <=? 10 * polls + Z.max 0 a)%Z = true) as -> by (apply Z.leb_le; unfold GIT_COMMAND_TIMEOUT_MS; lia).
    apply silent_pure; [total|]. by intros e [= <-].
  - destruct a as [status|]; [silent_tac|]. silent_step; [apply silent_ask|].
    destruct (GIT_COMMAND_TIMEOUT_MS <=? 10 * polls + Z.max 0 a)%Z; [apply silent_pure; [total|]; by intros e [= <-]|].
    apply IH. lia.
Qed.
(** What follows the launch. *)
Lemma silent_reaping {A} child (m : PointerM X Fd A) R : silent m R -> silent (reaping child m) R.
Proof.
  intros Hm. unfold reaping. eapply silent_try; [exact Hm|intros; silent_tac|]. intros e He.
  apply silent_bind; [apply silent_ask|]. intros _. apply silent_pure; [total|]. by intros e' [= <-].
Qed.

Lemma after_silent {E A B} (m : ST (PointerWorld X Fd) E A) (k : A -> ST (PointerWorld X Fd) E B) R w
    (Q : PointerWorld X Fd * res E B -> Prop) :
  silent m R -> (forall w1 a, pw_events w1 = pw_events w -> Q (k a w1)) ->
  (forall w1 e, pw_events w1 = pw_events w -> R e -> Q (w1, Err e)) -> Q (st_bind m k w).
Proof.
  intros Hm Hk He. destruct (Hm w) as [Hw Hr]. unfold st_bind. destruct (m w) as [w1 [a|e|]]; simpl in *; [by apply Hk|by apply He|done].
Qed.
(** A child is not launched, and the call fails, or it is the one launch of the call. *)
Definition launches_one (operation : GitOperationV1) (arguments : list string) (writable : list (Z * Fd))
    (w : PointerWorld X Fd) (out : PointerWorld X Fd * res ManagedPointerError GitOutputV1) : Prop :=
  (pw_events out.1 = pw_events w /\ exists e, out.2 = Err e) \/
  exists launch, pw_events out.1 = pw_events w ++ [Launched launch] /\ gl_operation launch = operation /\
    gl_arguments launch = fixed_arguments ++ operation_str operation :: arguments /\ gl_writable launch = writable /\
    match out.2 with Ok _ => True | Err e => after_launch e | Panic => False end.
Lemma run_git_inner_launches t operation arguments environment stdin owner expires w :
  launches_one operation arguments (ge_writable_roots environment) w
    (run_git_inner t operation arguments environment stdin owner expires w).
Proof.
  unfold run_git_inner.
  assert (forall w1 e, pw_events w1 = pw_events w -> whatever e ->
            launches_one operation arguments (ge_writable_roots environment) w (w1, Err e)) as Hfail.
  { intros w1 e Hw _. left. split; [done|by exists e]. }
  eapply after_silent; [apply silent_lock| |done]. intros w1 git E1.
  eapply after_silent; [apply silent_revalidate| |rewrite E1; done]. intros w2 _ E2. rewrite E1 in E2.
  eapply after_silent; [apply silent_identity| |rewrite E2; done]. intros w3 user E3. rewrite E2 in E3.
  eapply after_silent; [apply silent_floor| |rewrite E3; done]. intros w4 _ E4. rewrite E3 in E4.
  eapply after_silent; [apply silent_guard| |rewrite E4; done]. intros w5 _ E5. rewrite E4 in E5.
  right. cbv zeta. eexists. unfold st_bind at 1. unfold record_event at 1.
  match goal with |- context [(?m (mkPointerWorld (pw_host w5) _))] => assert (silent m after_launch) as Hm end.
  { apply silent_bind; [by apply silent_io|]. intros child. apply silent_bind; [by apply silent_reaping, silent_wait|].
    intros status. apply silent_bind; [by apply silent_io|]. intros out. apply silent_bind; [by apply silent_io|].
    intros err. apply silent_pure; [total|done]. }
  match goal with |- context [_ (mkPointerWorld (pw_host w5) ?l)] => destruct (Hm (mkPointerWorld (pw_host w5) l)) as [Hw Hr] end.
  split_all; [etrans; [exact Hw|by rewrite E5]|reflexivity..|exact Hr].
Qed.
End Children.

(** ** Reports: what a call appended and what it answered *)

Section Reports.
  Context {X Fd : Type}.

Definition reports {E A} (m : ST (PointerWorld X Fd) E A) (Q : list (PointerEvent Fd) -> res E A -> Prop) : Prop := forall w,
  exists l, pw_events (m w).1 = pw_events w ++ l /\ Q l (m w).2.
Lemma reports_bind {E A B} (m : ST (PointerWorld X Fd) E A) (k : A -> ST (PointerWorld X Fd) E B) Q1 Q :
  reports m Q1 -> (forall a l, Q1 l (Ok a) -> reports (k a) (fun l' r => Q (l ++ l') r)) ->
  (forall e l, Q1 l (Err e) -> Q l (Err e)) -> (forall l, Q1 l Panic -> Q l Panic) -> reports (st_bind m k) Q.
Proof.
  intros Hm Hk He Hp w. unfold st_bind. destruct (Hm w) as (l & Hl & Hq). destruct (m w) as [w1 [a|e|]]; simpl in *.
  - destruct (Hk a l Hq w1) as (l' & Hl' & Hq'). exists (l ++ l'). by rewrite Hl', Hl, app_assoc.
  - exists l. eauto.
  - exists l. eauto.
Qed.
Lemma reports_weaken {E A} (m : ST (PointerWorld X Fd) E A) (Q Q' : list (PointerEvent Fd) -> res E A -> Prop) :
  reports m Q -> (forall l r, Q l r -> Q' l r) -> reports m Q'.
Proof. intros Hm HQ w. destruct (Hm w) as (l & Hl & Hq). exists l. eauto. Qed.
Lemma reports_map_err {E F A} (f : E -> F) (m : ST (PointerWorld X Fd) E A) Q Q' :
  reports m Q -> (forall l r, Q l r -> Q' l (map_err f r)) -> reports (st_map_err f m) Q'.
Proof. intros Hm HQ w. destruct (Hm w) as (l & Hl & Hq). exists l. unfold st_map_err. destruct (m w) as [w1 r]. simpl in *. eauto. Qed.
Lemma reports_silent {E A} (m : ST (PointerWorld X Fd) E A) R :
  silent m R -> reports m (fun l r => l = [] /\ match r with Ok _ => True | Err e => R e | Panic => False end).
Proof. intros Hm w. exists []. rewrite app_nil_r. destruct (Hm w). by split_all. Qed.
Lemma reports_pure {E A} (r : res E A) : reports (pure r) (fun l r' => l = [] /\ r' = r).
Proof. intros w. exists []. by rewrite app_nil_r. Qed.
End Reports.

(** ** The commit *)

Section Commit.
  Context `{Deps, ErrnoText, JcsErrorText, PointerTexts} {X Fd : Type} `{!PointerHost X Fd}.

(** No compare-and-swap is launched. *)
Definition no_cas (_ : list Fd) (l : GitLaunch Fd) : Prop := gl_operation l <> UpdateRef.
Definition calm (l : list (PointerEvent Fd)) : Prop := Forall (event_ok no_cas []) l.
Lemma no_cas_mono known known' l : known ⊆ known' -> no_cas known l -> no_cas known' l.
Proof. done. Qed.
Lemma no_cas_reading known l : gl_operation l <> UpdateRef -> gl_writable l = [] -> no_cas known l.
Proof. done. Qed.
Lemma no_cas_staging known l :
  gl_operation l = Init \/ gl_operation l = IndexPack -> Forall (fun p => p.2 ∈ known) (gl_writable l) -> no_cas known l.
Proof. unfold no_cas. by intros [-> | ->] _. Qed.
Lemma no_cas_importing known l : gl_operation l = IndexPack -> no_cas known l.
Proof. unfold no_cas. by intros ->. Qed.

Ltac no_cas_laws := solve [exact no_cas_mono | exact no_cas_reading | exact no_cas_staging | exact no_cas_importing].

Definition returns_calm {E A} (P : A -> Prop) (l : list (PointerEvent Fd)) (r : res E A) : Prop :=
  calm l /\ match r with Ok a => P a | Err _ => True | Panic => False end.
Lemma reports_calm {E A} (m : ST (PointerWorld X Fd) E A) (P : A -> Prop) :
  emits no_cas [] m (fun _ a => P a) -> reports m (returns_calm P).
Proof.
  intros Hm w. destruct (Hm w) as (l & Hl & Hf & Hr). exists l. split; [done|]. split; [exact Hf|]. by destruct (m w).2.
Qed.
Definition yes {A : Type} (_ : A) : Prop := True.
Lemma reports_calm_any {E A} (m : ST (PointerWorld X Fd) E A) : emits no_cas [] m any -> reports m (returns_calm yes).
Proof. apply reports_calm. Qed.

(** The last event is the observation of a state with a property. *)
Definition saw (P : RepositoryStateV1 -> Prop) (l : list (PointerEvent Fd)) : Prop :=
  exists l' s, l = l' ++ [ObservedState s] /\ P s.
Lemma saw_app P l l' : saw P l' -> saw P (l ++ l').
Proof. intros (l0 & s & -> & Hs). exists (l ++ l0), s. by rewrite app_assoc. Qed.

Lemma reports_observe t repository :
  reports (observe_repository_state t repository)
    (fun l r => calm l /\ match r with
                          | Ok s => observed_state (or_identity_evidence repository) tt s /\ saw (fun s' => s' = s) l
                          | Err _ => True
                          | Panic => False
                          end).
Proof.
  unfold observe_repository_state. eapply reports_bind.
  - apply (reports_calm _ (observed_state (or_identity_evidence repository) tt)).
    eapply emits_weaken; [apply emits_read_state; no_cas_laws|done].
  - intros s l [Hl Hs] w. exists [ObservedState s]. split; [done|]. simpl. split_all; [|done|by exists l, s].
    apply Forall_app. split; [done|]. by repeat constructor.
  - by intros e l [Hl _].
  - by intros l [_ []].
Qed.

Lemma reports_before_cas p now fields t :
  reports (before_cas p now fields t)
    (fun l r => calm l /\ match r with
                          | Ok _ => saw (fun s => exact_prestate fields s = true) l
                          | Err _ => True
                          | Panic => False
                          end).
Proof.
  unfold before_cas. eapply reports_bind.
  - apply reports_calm_any, emits_before_cas_checks; no_cas_laws.
  - intros repository l [Hl _]. eapply reports_bind.
    + eapply reports_map_err; [apply reports_observe|].
      instantiate (1 := fun l r => calm l /\ match r with Ok s => saw (fun s' => s' = s) l | Err _ => True | Panic => False end).
      intros l' [s|e|] [Hl' Hr]; simpl; (split; [done|]); [apply Hr|done|done].
    + intros s l' [Hl' Hs]. eapply reports_bind.
      * eapply reports_map_err; [apply reports_pure|].
        instantiate (1 := fun l0 r => l0 = [] /\ match r with Ok _ => exact_prestate fields s = true | Err _ => True | Panic => False end).
        intros l0 r [-> ->]. split; [done|]. unfold require_exact_prestate. by destruct (exact_prestate fields s).
      * intros [] l0 [-> Hp]. eapply reports_weaken; [apply reports_pure|]. intros l1 r [-> ->]. rewrite !app_nil_r. split.
        { by apply Forall_app. }
        apply saw_app. destruct Hs as (a & s' & -> & ->). by exists a, s.
      * intros e l0 [-> _]. rewrite app_nil_r. split; [by apply Forall_app|done].
      * by intros l0 [_ []].
    + intros e l' [Hl' _]. split; [by apply Forall_app|done].
    + by intros l' [_ []].
  - by intros e l [Hl _].
  - by intros l [_ []].
Qed.

Lemma reports_poststate t fields phase s1 s2 s3 s4 :
  reports (observe_poststate t fields phase s1 s2 s3 s4)
    (fun l r => calm l /\ match r with
                          | Ok (repository, s) =>
                              saw (fun s' => exact_poststate fields s' = true) l /\ exact_poststate fields s = true
                          | Err (CommitFailed _) => False
                          | Err (CommitIndeterminate _ _ _) => True
                          | Panic => False
                          end).
Proof.
  unfold observe_poststate, unknown. eapply reports_bind.
  - eapply reports_map_err; [apply reports_calm_any, emits_open_repository; no_cas_laws|].
    instantiate (1 := fun l r => calm l /\ match r with Err (CommitFailed _) | Panic => False | _ => True end).
    by intros l [a|e|] [Hl Hr].
  - intros repository l [Hl _]. eapply reports_bind.
    + eapply reports_map_err; [apply reports_calm_any, emits_canonical_repository_any; no_cas_laws|].
      instantiate (1 := fun l r => calm l /\ match r with Err (CommitFailed _) | Panic => False | _ => True end).
      by intros l' [a|e|] [Hl' Hr].
    + intros [] l' [Hl' _]. eapply reports_bind.
      * eapply reports_map_err; [apply reports_observe|].
        instantiate (1 := fun l r => calm l /\ match r with
                                               | Ok s => saw (fun s' => s' = s) l
                                               | Err (CommitFailed _) | Panic => False
                                               | _ => True
                                               end).
        intros l0 [s|e|] [Hl0 Hr]; simpl; (split; [done|]); [apply Hr|done|done].
      * intros s l0 [Hl0 Hs]. eapply reports_weaken.
        { eapply reports_bind; [apply reports_pure| | |].
          - intros u l1 [-> Hu]. eapply reports_weaken; [apply reports_pure|].
            instantiate (1 := fun l r => l = [] /\ match r with
                                                   | Ok (r0, s0) => s0 = s /\ exact_poststate fields s = true
                                                   | Err (CommitFailed _) | Panic => False
                                                   | _ => True
                                                   end).
            intros l2 r [-> ->]. split; [done|]. split; [done|]. destruct (exact_poststate fields s); [done|discriminate Hu].
          - intros e l1 [-> He]. split; [done|]. destruct (exact_poststate fields s); [discriminate He|]. by injection He as ->.
          - intros l1 [_ Hp]. by destruct (exact_poststate fields s). }
        intros l1 r [-> Hr]. rewrite app_nil_r. split; [by repeat apply Forall_app_2|].
        destruct r as [[r0 s0]|[]|]; try done. destruct Hr as [-> Hp]. split; [|done]. do 2 apply saw_app.
        destruct Hs as (a & s' & -> & ->). by exists a, s.
      * intros e l0 [Hl0 Hr]. split; [by repeat apply Forall_app_2|]. by destruct e.
      * by intros l0 [_ []].
    + intros e l' [Hl' Hr]. split; [by apply Forall_app_2|]. by destruct e.
    + by intros l' [_ []].
  - intros e l [Hl Hr]. split; [done|]. by destruct e.
  - by intros l [_ []].
Qed.

Lemma reports_classify {A} t fields detail :
  reports (classify_cas_rejection (A := A) t fields detail)
    (fun l r => calm l /\ match r with
                          | Err (CommitFailed _) => saw (fun s => exact_prestate fields s = true) l
                          | Err (CommitIndeterminate _ _ _) => True
                          | _ => False
                          end).
Proof.
  unfold classify_cas_rejection, st_try. intros w.
  assert (reports (let! repository := open_repository t in observe_repository_state t repository)
            (fun l r => calm l /\ match r with Ok s => saw (fun s' => s' = s) l | Err _ => True | Panic => False end)) as Hm.
  { eapply reports_bind; [apply reports_calm_any, emits_open_repository; no_cas_laws| |by intros e l []|by intros l [_ []]].
    intros repository l [Hl _]. eapply reports_weaken; [apply reports_observe|]. intros l' [s|e|] [Hl' Hr]; (split; [by apply Forall_app_2|]).
    - apply saw_app, Hr.
    - done.
    - done. }
  destruct (Hm w) as (l & Hl & Hc & Hr). exists l.
  destruct ((let! repository := open_repository t in observe_repository_state t repository) w) as [w1 [s|e|]]; simpl in *; [|done|done].
  split; [done|]. split; [done|]. destruct (exact_prestate fields s) eqn:Es; [|done].
  destruct Hr as (a & s' & -> & ->). by exists a, s.
Qed.

(** The launch is the compare-and-swap of the effect, in the given directory. *)
Definition cas_of (fields : PromotionEffect) (git_directory : Fd) (launch : GitLaunch Fd) : Prop :=
  gl_operation launch = UpdateRef /\ gl_arguments launch = fixed_arguments ++ "update-ref" :: cas_arguments fields /\
  map snd (gl_writable launch) = [git_directory].
(** What follows the prestate observation. *)
Definition swapped (fields : PromotionEffect) (git_directory : Fd) (l : list (PointerEvent Fd)) (P : list (PointerEvent Fd) -> Prop) : Prop :=
  exists launch l', l = Launched launch :: l' /\ cas_of fields git_directory launch /\ calm l' /\ P l'.
Lemma reports_cas t fields git_directory :
  reports (compare_and_swap_ref t fields git_directory)
    (fun l r => match r with
                | Ok _ => swapped fields git_directory l (fun _ => True)
                | Err (CommitFailed _) => l = [] \/ swapped fields git_directory l (saw (fun s => exact_prestate fields s = true))
                | Err (CommitIndeterminate _ _ _) => l = [] \/ swapped fields git_directory l (fun _ => True)
                | Panic => False
                end).
Proof.
  unfold compare_and_swap_ref. eapply reports_bind.
  - eapply reports_map_err.
    + intros w. unfold cas_environment, descriptor_path, admit_write_root.
      exists []. rewrite app_nil_r.
      instantiate (1 := fun l r => l = [] /\ match r with Ok e => map snd (ge_writable_roots e) = [git_directory] | Err _ => True | Panic => False end).
      unfold st_bind, sys, st_map_err, on_host, run_sys, pure, map_err. cbn [pw_host].
      destruct (sys_dupfd_cloexec git_directory (pw_host w)) as [x1 [e1|n1]]; simpl; [done|].
      by destruct (sys_dupfd_cloexec git_directory x1) as [x2 [e2|n2]].
    + instantiate (1 := fun l r => l = [] /\ match r with Ok e => map snd (ge_writable_roots e) = [git_directory] | Err _ => True | Panic => False end).
      by intros l [e|e|] [-> Hr].
  - intros environment l [-> Henv]. cbn [app]. eapply reports_bind.
    + eapply reports_map_err.
      * intros w. unfold run_git_update_ref. pose proof (run_git_inner_launches t UpdateRef (cas_arguments fields) environment None true
          (Some (pp_expires_unix_ms fields)) w) as Hrun. set (out := run_git_inner _ _ _ _ _ _ _ w) in *. clearbody out.
        instantiate (1 := fun l r => (l = [] /\ exists e, r = Err e) \/
          (exists launch, l = [Launched launch] /\ cas_of fields git_directory launch /\
             match r with Ok _ => True | Err e => after_launch e | Panic => False end)).
        destruct Hrun as [[Hw [e He]]|(launch & Hw & Ho & Ha & Hwr & Hr)].
        { exists []. rewrite app_nil_r. split; [done|]. left. eauto. }
        exists [Launched launch]. split; [done|]. right. exists launch. split_all; [done| |done].
        unfold cas_of. rewrite Hwr. by split_all.
      * instantiate (1 := fun l r =>
          (l = [] /\ exists e, r = Err e) \/
          (exists launch, l = [Launched launch] /\ cas_of fields git_directory launch /\
             match r with Err (CommitFailed _) | Panic => False | _ => True end)).
        intros l r [[-> [e ->]]|(launch & -> & Hc & Hr)]; [left; eauto|]. right. exists launch. split_all; [done..|].
        destruct r as [o|e|]; [done| |done]. simpl. by destruct e.
    + intros output l [[_ [e He]]|(launch & -> & Hc & _)]; [discriminate He|]. destruct (exit_success _).
      * eapply reports_weaken; [apply reports_pure|]. intros l' r [-> ->]. exists launch, []. split_all; [done|done|constructor|done].
      * eapply reports_weaken; [apply reports_classify|]. intros l' r [Hl' Hr].
        destruct r as [o|[]|]; try done; right; exists launch, l'; by split_all.
    + intros e l [[-> _]|(launch & -> & Hc & Hr)]; [by destruct e; left|]. destruct e; [done|]. right. exists launch, []. split_all; [done|done|constructor|done].
    + intros l [[_ [e He]]|(launch & _ & _ & [])]. discriminate He.
  - intros e l [-> _]. destruct e; by left.
  - by intros l [_ []].
Qed.

(** The effect and the commit request have canonical encodings. *)
Definition encodes (p : PreparedManagedPointerV1 Fd) : bool :=
  is_ok (pointer_digest (pm_effect p)) && is_ok (pointer_digest (commit_request (pm_context p) (pm_checkpoint p) (pm_effect p))).
Definition verified (effect : CanonicalEffectV1) (s : ManagedPointerCommitSuccessV1) : Prop :=
  activation_verify (sx_activation_receipt s) effect = Ok tt /\
  ar_commit (sx_activation_receipt s) = sx_commit_evidence s /\ ar_poststate (sx_activation_receipt s) = sx_poststate_evidence s.
Lemma activation_identity_verify a effect d : activation_identity a effect = Ok d -> activation_verify a effect = Ok tt.
Proof. unfold activation_identity. destruct (activation_verify a effect) as [[]| |]; [done|discriminate..]. Qed.
Lemma reports_receipts p fields repository state :
  reports (X := X) (commit_receipts p fields repository state)
    (fun l r => l = [] /\ match r with
                          | Ok s => verified (pm_effect p) s
                          | Err (CommitFailed _) => encodes p = false
                          | Err (CommitIndeterminate _ _ _) => True
                          | Panic => False
                          end).
Proof.
  intros w. exists []. rewrite app_nil_r. unfold commit_receipts, encodes, failing, unknown, st_bind, st_map_err, pure. cbv zeta.
  pose proof (pointer_digest_total (commit_request (pm_context p) (pm_checkpoint p) (pm_effect p))) as H1'.
  destruct (pointer_digest (commit_request _ _ _)) as [request|e|]; simpl; [|by rewrite andb_false_r|done].
  match goal with |- context [pointer_digest (T := ManagedPointerCommitEvidenceV1) ?x] =>
    pose proof (pointer_digest_total x); destruct (pointer_digest (T := ManagedPointerCommitEvidenceV1) x) as [d1|e1|] end; simpl; [|done|done].
  match goal with |- context [pointer_digest (T := ManagedPointerPoststateEvidenceV1) ?x] =>
    pose proof (pointer_digest_total x); destruct (pointer_digest (T := ManagedPointerPoststateEvidenceV1) x) as [d2|e2|] end; simpl; [|done|done].
  pose proof (pointer_digest_total (pm_effect p)). destruct (pointer_digest (pm_effect p)) as [d3|e3|]; simpl; [|done|done].
  match goal with |- context [activation_identity ?a ?e] =>
    pose proof (activation_identity_total a e); destruct (activation_identity a e) as [d4|e4|] eqn:Ea end; simpl; [|done|done].
  apply activation_identity_verify in Ea. by split_all.
Qed.

(** What a commit appended to the log and what it answered. *)
Definition commit_story (p : PreparedManagedPointerV1 Fd) (l : list (PointerEvent Fd))
    (r : res CommitErrorV1 ManagedPointerCommitSuccessV1) : Prop :=
  (calm l /\ exists e, r = Err e) \/
  exists fields git_directory pre s launch post,
    from_effect (pm_effect p) = Ok fields /\ l = pre ++ ObservedState s :: Launched launch :: post /\ calm pre /\ calm post /\
    exact_prestate fields s = true /\ cas_of fields git_directory launch /\
    match r with
    | Ok s => verified (pm_effect p) s /\ saw (fun s' => exact_poststate fields s' = true) post
    | Err (CommitFailed _) => encodes p = false \/ saw (fun s' => exact_prestate fields s' = true) post
    | Err (CommitIndeterminate _ _ _) => True
    | Panic => False
    end.
Lemma story_swapped p fields git_directory pre s l r (P : list (PointerEvent Fd) -> Prop) :
  from_effect (pm_effect p) = Ok fields -> calm (pre ++ [ObservedState s]) -> exact_prestate fields s = true ->
  swapped fields git_directory l P ->
  (forall l', P l' -> match r with
                      | Ok s => verified (pm_effect p) s /\ saw (fun s' => exact_poststate fields s' = true) l'
                      | Err (CommitFailed _) => encodes p = false \/ saw (fun s' => exact_prestate fields s' = true) l'
                      | Err (CommitIndeterminate _ _ _) => True
                      | Panic => False
                      end) ->
  commit_story p ((pre ++ [ObservedState s]) ++ l) r.
Proof.
  intros Hf Hc Hs (launch & l' & -> & Hcas & Hl' & HP) Hr. right. apply Forall_app in Hc as [Hpre _].
  exists fields, git_directory, pre, s, launch, l'. split_all; [done|by rewrite <- app_assoc|done|done|done|done|by apply Hr].
Qed.
Lemma swapped_more fields git_directory l l' (P Q : list (PointerEvent Fd) -> Prop) :
  swapped fields git_directory l P -> calm l' -> (forall l0, P l0 -> Q (l0 ++ l')) -> swapped fields git_directory (l ++ l') Q.
Proof.
  intros (launch & l0 & -> & Hc & Hl0 & HP) Hl' HQ. exists launch, (l0 ++ l'). split_all; [done|done|by apply Forall_app_2|auto].
Qed.

Lemma reports_after_cas p fields t :
  reports (after_cas p fields t)
    (fun l r => calm l /\ match r with
                          | Ok s => verified (pm_effect p) s /\ saw (fun s' => exact_poststate fields s' = true) l
                          | Err (CommitFailed _) => encodes p = false
                          | Err (CommitIndeterminate _ _ _) => True
                          | Panic => False
                          end).
Proof.
  unfold after_cas. eapply reports_bind; [apply reports_poststate| | |].
  - intros [r1 s1] l1 [Hl1 _]. eapply reports_bind.
    + eapply reports_map_err; [apply reports_calm_any, emits_sync_reference; no_cas_laws|].
      instantiate (1 := fun l r => calm l /\ match r with Err (CommitFailed _) | Panic => False | _ => True end).
      by intros l [a|e|] [Hl Hr].
    + intros [] l2 [Hl2 _]. eapply reports_bind; [apply reports_poststate| | |].
      * intros [r2 s2] l3 [Hl3 [Hs3 _]]. eapply reports_weaken; [apply reports_receipts|].
        intros l r [-> Hr]. rewrite app_nil_r. split; [by repeat apply Forall_app_2|].
        destruct r as [s|[]|]; try done. split; [done|]. by repeat apply saw_app.
      * intros e l3 [Hl3 Hr]. split; [by repeat apply Forall_app_2|]. by destruct e.
      * by intros l3 [_ []].
    + intros e l2 [Hl2 Hr]. split; [by apply Forall_app_2|]. by destruct e.
    + by intros l2 [_ []].
  - intros e l1 [Hl1 Hr]. split; [done|]. by destruct e.
  - by intros l1 [_ []].
Qed.
Lemma reports_try_commit rt p now : reports (try_commit rt p now) (commit_story p).
Proof.
  unfold try_commit. eapply reports_bind.
  - eapply reports_map_err; [apply reports_pure|].
    instantiate (1 := fun l r => l = [] /\ match r with Ok f => from_effect (pm_effect p) = Ok f | Err _ => True | Panic => False end).
    intros l r [-> ->]. split; [done|]. pose proof (from_effect_total (pm_effect p)). by destruct (from_effect _).
  - intros fields l [-> Hf]. cbn [app]. eapply reports_bind.
    + eapply reports_map_err; [apply reports_pure|].
      instantiate (1 := fun l r => l = [] /\ match r with Ok _ => True | Err _ => True | Panic => False end).
      intros l r [-> ->]. split; [done|]. by destruct (btree_get _ _).
    + intros t l [-> _]. cbn [app]. eapply reports_bind; [apply reports_before_cas| | |].
      * intros repository l [Hl Hs]. destruct Hs as (pre & s & -> & Hs). eapply reports_bind; [apply reports_cas| | |].
        -- intros [] l1 Hsw. eapply reports_weaken; [apply reports_after_cas|]. intros l2 r [Hl2 Hr].
           eapply story_swapped; [done|done|done| |]; [eapply swapped_more; [exact Hsw|exact Hl2|]|].
           { intros l0 _. instantiate (1 := fun l0 => exists l', l0 = l' ++ l2). by exists l0. }
           intros l0 [l' ->]. destruct r as [s'|[]|]; try done; [|by left]. destruct Hr. split; [done|]. by apply saw_app.
        -- intros [e|d ph ev] l1 Hr.
           ++ destruct Hr as [-> |Hsw]; [left; rewrite app_nil_r; split; [done|by eexists]|].
              eapply story_swapped; [done|done|done|exact Hsw|]. intros l' Hl'. by right.
           ++ destruct Hr as [-> |Hsw]; [left; rewrite app_nil_r; split; [done|by eexists]|].
              by eapply story_swapped; [done|done|done|exact Hsw|].
        -- done.
      * intros e l [Hl _]. left. split; [done|by eexists].
      * by intros l [_ []].
    + intros e l [-> _]. left. split; [constructor|by eexists].
    + by intros l [_ []].
  - intros e l [-> _]. left. split; [constructor|by eexists].
  - by intros l [_ []].
Qed.

Lemma reports_commit rt p now :
  reports (pointer_commit rt p now)
    (fun l r => exists outcome result, commit_story p l outcome /\ commit_result (pm_context p) (pm_effect p) outcome = Ok result /\ r = Ok result).
Proof.
  intros w. unfold pointer_commit, st_try. destruct (reports_try_commit rt p now w) as (l & Hl & Hs).
  destruct (try_commit rt p now w) as [w1 r1]. simpl in *. exists l.
  assert (exists result, commit_result (pm_context p) (pm_effect p) r1 = Ok result) as [result Hres].
  { destruct r1 as [s0|[]|]; simpl; try by eexists. destruct Hs as [[_ [e He]]|(? & ? & ? & ? & ? & ? & H')]; [done|].
    exfalso. by destruct H' as (_ & _ & _ & _ & _ & _ & []). }
  assert (forall r : res CommitErrorV1 ManagedPointerCommitSuccessV1, r = r1 -> r <> Panic) as Hnp.
  { intros r -> ->. done. }
  assert ((match r1 with
           | Panic => (w1, Panic)
           | _ => (ignore (on_host (sys_remove_dir_all (sd_root (pm_stage p)) (sd_name (pm_stage p)))) ;!
                   pure (commit_result (pm_context p) (pm_effect p) r1)) w1
           end) = (ignore (on_host (sys_remove_dir_all (sd_root (pm_stage p)) (sd_name (pm_stage p)))) ;!
                   pure (commit_result (pm_context p) (pm_effect p) r1)) w1) as ->.
  { destruct r1; [done..|]. by destruct (Hnp Panic eq_refl). }
  unfold st_bind, ignore, st_try, pure, on_host, run_sys.
  destruct (sys_remove_dir_all _ _ (pw_host w1)) as [x [e|u]]; simpl; (split; [done|]); exists r1, result; by rewrite Hres.
Qed.

(** C12. A commit returns, and crosses its boundary at most once: for every host,
    whatever other processes do between two calls, the Git children it launches
    contain no compare-and-swap, or exactly one, with the reference, the new object
    and the expected object of the canonical effect, which may write only the Git
    directory that was opened for it and follows directly the observation of a
    repository in the exact prestate. *)
Theorem commit_swaps_at_most_once rt p now w :
  exists l result, (pointer_commit rt p now w).2 = Ok result /\ pw_events (pointer_commit rt p now w).1 = pw_events w ++ l /\
    (calm l \/
     exists fields git_directory pre s launch post,
       from_effect (pm_effect p) = Ok fields /\ l = pre ++ ObservedState s :: Launched launch :: post /\ calm pre /\ calm post /\
       exact_prestate fields s = true /\ cas_of fields git_directory launch).
Proof.
  destruct (reports_commit rt p now w) as (l & Hl & outcome & result & Hs & _ & Hr). exists l, result. split_all; [done..|].
  destruct Hs as [[Hc _]|(fields & d & pre & s & launch & post & H1' & H2' & H3' & H4' & H5' & H6' & _)]; [by left|right].
  by exists fields, d, pre, s, launch, post.
Qed.

(** C17. The receipt of a commit says what happened: it carries the context and
    the effect of the preparation; a success has an activation receipt that verifies
    against the effect, and the last thing the commit did in the repository was to
    observe the exact poststate; a known failure means that no compare-and-swap was
    launched, or that the exact prestate was observed after it was refused (provided
    the effect and the request encode); everything else is indeterminate and carries
    no activation receipt. *)
Theorem commit_receipt_faithful rt p now w :
  exists l result, (pointer_commit rt p now w).2 = Ok result /\ pw_events (pointer_commit rt p now w).1 = pw_events w ++ l /\
    co_receipt result = receipt_with_outcome (pm_context p) (pm_effect p) (xr_outcome (co_receipt result)) /\
    match xr_outcome (co_receipt result) with
    | OutSucceeded _ => exists fields a, from_effect (pm_effect p) = Ok fields /\ co_activation_receipt result = Some a /\
                          activation_verify a (pm_effect p) = Ok tt /\ co_commit_evidence result = Some (ar_commit a) /\
                          co_poststate_evidence result = Some (ar_poststate a) /\ saw (fun s => exact_poststate fields s = true) l
    | OutFailed _ => co_activation_receipt result = None /\
                     (calm l \/ encodes p = false \/
                      exists fields, from_effect (pm_effect p) = Ok fields /\ saw (fun s => exact_prestate fields s = true) l)
    | OutIndeterminate _ => co_activation_receipt result = None
    end.
Proof.
  destruct (reports_commit rt p now w) as (l & Hl & outcome & result & Hs & Hc & Hr). exists l, result. split; [done|]. split; [done|].
  destruct outcome as [s0|[e|d ph ev]|]; cbn [commit_result] in Hc; [| | |done]; apply Ok_inj in Hc as <-; cbn; (split; [try done|]).
  - destruct Hs as [[_ [e He]]|(fields & dir & pre & s & launch & post & Hf & -> & _ & _ & _ & _ & (Hv & Hcm & Hps) & Hp)]; [done|].
    exists fields, (sx_activation_receipt s0). rewrite Hcm, Hps. split_all; [done..|]. apply saw_app. by apply (saw_app _ [_; _]).
  - unfold failure_outcome. destruct (failure_class e) as [[? ?] ?]. cbn. split; [done|].
    destruct Hs as [[Hc _]|(fields & dir & pre & pst & launch & post & Hf & -> & _ & _ & _ & _ & Hp)]; [by left|right].
    destruct Hp as [Hp|Hp]; [by left|right]. exists fields. split; [done|]. apply saw_app. by apply (saw_app _ [_; _]).
  - done.
Qed.

(** The preparation of a promotion is reversible and complete: for every host
    it returns, it launches no compare-and-swap, and what it hands over passes the
    checks that the commit makes of it before it opens the repository: the standing,
    the checkpoint, the repository's identity, the prestate and the imported pack all
    match the canonical effect. *)
Theorem prepare_hands_over rt standing context effect b now w :
  exists l, pw_events (prepare_inner (X := X) rt standing context effect b now w).1 = pw_events w ++ l /\ calm l /\
    match (prepare_inner rt standing context effect b now w).2 with
    | Ok p => pm_effect p = effect /\ pm_context p = context /\
              exists fields, from_effect effect = Ok fields /\ pm_target p = pp_target fields /\ preparation_bound p fields = Ok tt
    | Err _ => True
    | Panic => False
    end.
Proof.
  destruct (emits_prepare_inner no_cas no_cas_mono no_cas_reading no_cas_staging no_cas_importing [] rt standing context effect b now w)
    as (l & Hl & Hf & Hr). by exists l.
Qed.

(** Launches that write only staging directories. *)
Definition quarantined (known : list Fd) (l : GitLaunch Fd) : Prop :=
  gl_operation l <> UpdateRef /\ Forall (fun p => p.2 ∈ known) (gl_writable l).
(** No compare-and-swap, and no launch that may write anything but a staging
    directory that the same events created. *)
Definition confined (l : list (PointerEvent Fd)) : Prop :=
  forall launch, Launched launch ∈ l ->
    gl_operation launch <> UpdateRef /\ forall n fd, (n, fd) ∈ gl_writable launch -> CreatedStage fd ∈ l.
Lemma elem_created fd (l : list (PointerEvent Fd)) : fd ∈ created l -> CreatedStage fd ∈ l.
Proof.
  unfold created. rewrite list_elem_of_In, in_flat_map. intros ([d|g|s] & Hin & Hd); simpl in Hd; [|done..].
  destruct Hd as [->|[]]. by apply list_elem_of_In.
Qed.

(** C18. The preparation of a candidate is confined: for every host it returns,
    it launches no compare-and-swap, and every Git child that it launches may write
    only staging directories that this same call created, so that the zero writes
    its receipt declares for the target's objects and pointer are all it was able to
    do there. *)
Theorem preparation_confined rt standing artifact b now w :
  exists l, pw_events (prepare_candidate_bytes (X := X) rt standing artifact b now w).1 = pw_events w ++ l /\
    no_panic (prepare_candidate_bytes rt standing artifact b now w).2 /\
    confined l.
Proof.
  assert (forall known known' l, known ⊆ known' -> quarantined known l -> quarantined known' l) as Hmono.
  { intros known known' l Hk [Ho Hw]. split; [done|]. eapply Forall_impl; [exact Hw|]. simpl. intros p Hp. by apply Hk. }
  destruct (emits_prepare_candidate quarantined Hmono) with (known := @nil Fd) (rt := rt) (standing := standing) (artifact := artifact)
    (b := b) (now := now) (w := w) as (l & Hl & Hf & Hr).
  - intros known l Ho Hw. split; [done|]. by rewrite Hw.
  - intros known l Ho Hw. split; [|done]. by destruct Ho as [-> | ->].
  - exists l. split_all; [done|by destruct (prepare_candidate_bytes _ _ _ _ _ _).2|]. intros launch Hin.
    rewrite Forall_forall in Hf. destruct (Hf _ Hin) as [Ho Hw]. split; [done|]. intros n fd Hfd. rewrite Forall_forall in Hw.
    apply elem_created. exact (Hw _ Hfd).
Qed.

(** An enrollment yields a configuration that the broker accepts: the target
    that it derives from a reviewed measurement passes the validation that the
    daemon makes of a managed-pointer target at startup, and the identity it returns
    is that of the reviewed measurement. *)
Theorem enrolled_target_valid request context reviewed w :
  match (enroll_managed_pointer_genesis (X := X) (Fd := Fd) request context reviewed w).2 with
  | Ok (CfgManagedPointer t, identity) => validate_managed_pointer_target t = Ok tt /\ measurement_identity reviewed = Ok identity
  | Ok _ => False
  | Err _ => True
  | Panic => False
  end.
Proof.
  destruct (emits_enroll no_cas no_cas_mono no_cas_reading no_cas_staging [] request context reviewed w) as (l & _ & _ & Hr).
  revert Hr. destruct (enroll_managed_pointer_genesis request context reviewed w).2 as [[[] identity]|e|]; simpl; intuition.
Qed.
End Commit.
