(* ===== verification/Activation.v ===== *)
(** * Broker readiness (ag-app/src/effectd_activation.rs)

    What the effect broker needs before production authority is enabled: evidence
    about the process, the effective service unit, the mount namespace and the
    managed targets, read from text that the kernel and systemd print, and the
    receipt that binds it.  A receipt is a diagnostic; only a live value, whose
    identity is the receipt's, is accepted by the broker. *)

From S2P Require Import Prelude Wire Fixture Digest Names Origin Paths Store StoreBlob HostFiles RpcAuth Config Effect Compile Executor Pointer PointerText PointerGit PointerRuntime.

Definition EFFECTD_ACTIVATION_RECEIPT_SCHEMA_V1 : string := "ag.effectd.live-activation-receipt/v1".
Definition EFFECTD_ACTIVATION_STATUS_SCHEMA_V1 : string := "ag.effectd.live-activation-status/v1".

(** ** Records *)

Record EffectdProcessActivationEvidenceV1 : Type := mkProcessEvidence {
  pv_process_id : Z;
  pv_control_group : string;
  pv_effective_uid : Z;
  pv_effective_gid : Z;
  pv_supplementary_groups : list Z;
  pv_no_new_privileges : bool;
  pv_capability_inheritable : Z;
  pv_capability_permitted : Z;
  pv_capability_effective : Z;
  pv_capability_bounding : Z;
  pv_capability_ambient : Z;
  pv_proc_status : Digest;
  pv_proc_cgroup : Digest
}.
#[global] Instance EffectdProcessActivationEvidenceV1_serialize : Serialize EffectdProcessActivationEvidenceV1 := fun p =>
  VObject [("process_id", to_value (pv_process_id p)); ("control_group", to_value (pv_control_group p));
           ("effective_uid", to_value (pv_effective_uid p)); ("effective_gid", to_value (pv_effective_gid p));
           ("supplementary_groups", to_value (pv_supplementary_groups p));
           ("no_new_privileges", to_value (pv_no_new_privileges p));
           ("capability_inheritable", to_value (pv_capability_inheritable p));
           ("capability_permitted", to_value (pv_capability_permitted p));
           ("capability_effective", to_value (pv_capability_effective p));
           ("capability_bounding", to_value (pv_capability_bounding p));
           ("capability_ambient", to_value (pv_capability_ambient p)); ("proc_status", to_value (pv_proc_status p));
           ("proc_cgroup", to_value (pv_proc_cgroup p))].

Record EffectdActivationReceiptV1 : Type := mkLiveReceipt {
  lr_schema : string;
  lr_store_activation : StoreActivationIdentityV1;
  lr_store_activation_digest : string;
  lr_catalog_identity : Digest;
  lr_security_profile_identity : Digest;
  lr_systemctl_executable : Digest;
  lr_systemctl_output : Digest;
  lr_effective_unit : list (string * string);
  lr_required_capabilities : list string;
  lr_required_write_paths : list string;
  lr_process : EffectdProcessActivationEvidenceV1;
  lr_target_readiness : Digest;
  lr_mountinfo : Digest;
  lr_observed_at_unix_ms : Z;
  lr_process_nonce : string
}.
#[global] Instance EffectdActivationReceiptV1_serialize : Serialize EffectdActivationReceiptV1 := fun r =>
  VObject [("schema", to_value (lr_schema r)); ("store_activation", to_value (lr_store_activation r));
           ("store_activation_digest", to_value (lr_store_activation_digest r));
           ("catalog_identity", to_value (lr_catalog_identity r));
           ("security_profile_identity", to_value (lr_security_profile_identity r));
           ("systemctl_executable", to_value (lr_systemctl_executable r));
           ("systemctl_output", to_value (lr_systemctl_output r));
           ("effective_unit", VObject (map (fun kv => (kv.1, to_value kv.2)) (lr_effective_unit r)));
           ("required_capabilities", to_value (lr_required_capabilities r));
           ("required_write_paths", to_value (lr_required_write_paths r)); ("process", to_value (lr_process r));
           ("target_readiness", to_value (lr_target_readiness r)); ("mountinfo", to_value (lr_mountinfo r));
           ("observed_at_unix_ms", to_value (lr_observed_at_unix_ms r)); ("process_nonce", to_value (lr_process_nonce r))].

Inductive EffectdActivationStatusV1 : Type :=
  | StatusReady (schema : string) (receipt : EffectdActivationReceiptV1)
  | StatusNotReady (schema phase code detail : string).

(** [struct EffectdLiveActivationV1]. *)
Record EffectdLiveActivationV1 : Type := mkLive { lv_receipt : EffectdActivationReceiptV1; lv_identity : Digest }.

Inductive EffectdActivationError : Type :=
  | StoreActivationUnavailable
  | StoreActivationMismatch
  | ProcessIdentityMismatch
  | ProcessPrivilegeMismatch
  | SystemctlIdentityMismatch
  | UnitUnavailable (detail : string)
  | UnitMismatch (detail : string)
  | MountNamespaceMismatch (detail : string)
  | TargetReadinessFailure (detail : string)
  | ActivationIo (e : IoError)
  | ActivationCanonical (e : JcsError)
  | ReceiptMismatch
  | ActivationClockUnavailable.

(** [EffectdActivationError::code] and [::phase]. *)
Definition activation_error_code (e : EffectdActivationError) : string :=
  match e with
  | StoreActivationUnavailable => "store_activation_unavailable"
  | StoreActivationMismatch => "store_activation_mismatch"
  | ProcessIdentityMismatch => "process_identity_mismatch"
  | ProcessPrivilegeMismatch => "process_privilege_mismatch"
  | SystemctlIdentityMismatch => "systemctl_identity_mismatch"
  | UnitUnavailable _ => "unit_evidence_unavailable"
  | UnitMismatch _ => "unit_profile_mismatch"
  | MountNamespaceMismatch _ => "mount_namespace_mismatch"
  | TargetReadinessFailure _ => "target_readiness_mismatch"
  | ActivationIo _ => "evidence_io_failure"
  | ActivationCanonical _ => "evidence_encoding_failure"
  | ReceiptMismatch => "receipt_mismatch"
  | ActivationClockUnavailable => "clock_unavailable"
  end.
Definition activation_error_phase (e : EffectdActivationError) : string :=
  match e with
  | StoreActivationUnavailable | StoreActivationMismatch => "store_activation"
  | ProcessIdentityMismatch | ProcessPrivilegeMismatch => "process"
  | SystemctlIdentityMismatch | UnitUnavailable _ | UnitMismatch _ => "service_unit"
  | MountNamespaceMismatch _ => "mount_namespace"
  | TargetReadinessFailure _ => "target_preflight"
  | ActivationIo _ | ActivationCanonical _ => "evidence"
  | ReceiptMismatch => "receipt_validation"
  | ActivationClockUnavailable => "clock"
  end.
(** [impl Display for EffectdActivationError]. *)
Definition activation_error_text `{ErrnoText, JcsErrorText} (e : EffectdActivationError) : string :=
  match e with
  | StoreActivationUnavailable => "effectd store activation is unavailable"
  | StoreActivationMismatch => "effectd store activation differs from the live broker context"
  | ProcessIdentityMismatch => "effectd process identity is not production-shaped"
  | ProcessPrivilegeMismatch => "effectd process privilege floor differs from the closed target-derived contract"
  | SystemctlIdentityMismatch => "fixed systemctl executable identity is unsafe or changed"
  | UnitUnavailable d => "effective effectd unit evidence is unavailable: " +:+ d
  | UnitMismatch d => "effective effectd unit differs from the closed contract: " +:+ d
  | MountNamespaceMismatch d => "effectd mount namespace differs from the closed contract: " +:+ d
  | TargetReadinessFailure d => "managed-pointer production target readiness failed: " +:+ d
  | ActivationIo e => "effectd activation evidence I/O failed: " +:+ io_text e
  | ActivationCanonical e => "effectd activation evidence encoding failed: " +:+ jcs_text e
  | ReceiptMismatch => "effectd live activation receipt mismatch"
  | ActivationClockUnavailable => "effectd activation clock is unavailable"
  end.

Section Receipts.
  Context `{Deps}.

(** [EffectdActivationReceiptV1::identity]. *)
Definition live_receipt_identity (r : EffectdActivationReceiptV1) : res EffectdActivationError Digest :=
  reject_if ((lr_schema r != EFFECTD_ACTIVATION_RECEIPT_SCHEMA_V1) || (lr_process_nonce r == EmptyString)
             || (length (lr_required_capabilities r) =? 0) || (length (lr_required_write_paths r) =? 0)
             || (lr_observed_at_unix_ms r =? 0)%Z) ReceiptMismatch ;?
  map_err ActivationCanonical (from_serializable r).

(** [EffectdLiveActivationV1::verify_for]; [enrolled] is what [Store::activation]
    returns.  The identity is computed only when everything before it agrees. *)
Definition verify_for (live : EffectdLiveActivationV1) (config : EffectdConfigV1) (catalog_identity : Digest)
    (enrolled : option StoreActivationRecordV1) : res EffectdActivationError unit :=
  let? enrolled := ok_or StoreActivationUnavailable enrolled in
  let r := lv_receipt live in
  reject_if ((lr_catalog_identity r != catalog_identity)
             || (lr_security_profile_identity r != security_profile_identity (ec_security_profile config))
             || (lr_store_activation r != ar_identity enrolled)
             || (lr_store_activation_digest r != digest_str (ar_activation_digest enrolled))) ReceiptMismatch ;?
  let? identity := live_receipt_identity r in
  reject_if (identity != lv_identity live) ReceiptMismatch.
End Receipts.
