(* ===== verification/Api.v ===== *)
(** * Local API messages (ag-app/src/api.rs)

    The message families between the daemons, as far as the effect broker reads
    or stores them, with their serialized forms.  Padded base64 is a parameter;
    [opaque_parse] is the strict reader that the wire type puts around it. *)

From S2P Require Import Prelude Wire Fixture Digest Names Origin Capability Identity Session Protocol Paths Store HostFiles RpcAuth Config Effect Compile Proposal Executor Pointer Activation.

(** ** Opaque bytes *)

(** [base64::engine::general_purpose::STANDARD]. *)
Class Base64Std := {
  b64_encode : bytes -> string;
  b64_decode : string -> option bytes
}.
(** Decoding inverts encoding. *)
Class Base64Laws `{Base64Std} := b64_decode_encode b : b64_decode (b64_encode b) = Some b.

(** [struct OpaqueBytesV1(Vec<u8>)]. *)
Record OpaqueBytesV1 : Type := mkOpaque { opaque_bytes : bytes }.
#[global] Instance OpaqueBytesV1_eq_dec : EqDecision OpaqueBytesV1.
Proof. solve_decision. Defined.
#[global] Instance OpaqueBytesV1_serialize `{Base64Std} : Serialize OpaqueBytesV1 := fun o => VString (b64_encode (opaque_bytes o)).
(** [OpaqueBytesV1::len]. *)
Definition opaque_len (o : OpaqueBytesV1) : Z := Z.of_nat (length (opaque_bytes o)).
(** What [Deserialize for OpaqueBytesV1] does with the text. *)
Definition opaque_parse `{Base64Std} (encoded : string) : option OpaqueBytesV1 :=
  match b64_decode encoded with
  | Some decoded => if b64_encode decoded != encoded then None else Some (mkOpaque decoded)
  | None => None
  end.

(** ** Health *)

Record HealthV1 : Type := mkHealth {
  he_schema : string;
  he_service : string;
  he_build : string;
  he_ready : bool;
  he_quiesced : bool
}.
#[global] Instance HealthV1_eq_dec : EqDecision HealthV1.
Proof. solve_decision. Defined.
#[global] Instance HealthV1_serialize : Serialize HealthV1 := fun h =>
  VObject [("schema", to_value (he_schema h)); ("service", to_value (he_service h)); ("build", to_value (he_build h));
           ("ready", to_value (he_ready h)); ("quiesced", to_value (he_quiesced h))].

(** ** Requests to the governor *)

Inductive AgdRequestV1 : Type :=
  | AgdHealth
  | SubmitProposal (intent : ProposalIntentV1)
  | LaunchWorker (profile_id : string)
  | InspectWorker (session_id : SessionId)
  | CancelWorker (session_id : SessionId) (reason : Digest).
#[global] Instance EffectIntentV1_eq_dec : EqDecision EffectIntentV1.
Proof. solve_decision. Defined.
#[global] Instance ProposalIntentV1_eq_dec : EqDecision ProposalIntentV1.
Proof. solve_decision. Defined.
#[global] Instance AgdRequestV1_eq_dec : EqDecision AgdRequestV1.
Proof. solve_decision. Defined.
#[global] Instance AgdRequestV1_serialize : Serialize AgdRequestV1 := fun r =>
  VObject match r with
  | AgdHealth => [("method", VString "health")]
  | SubmitProposal i => [("method", VString "submit_proposal"); ("intent", to_value i)]
  | LaunchWorker p => [("method", VString "launch_worker"); ("profile_id", to_value p)]
  | InspectWorker s => [("method", VString "inspect_worker"); ("session_id", to_value s)]
  | CancelWorker s d => [("method", VString "cancel_worker"); ("session_id", to_value s); ("reason", to_value d)]
  end.

(** [enum WorkerCandidateRequestV1], whose one variant is [Submit]. *)
Inductive WorkerCandidateRequestV1 : Type :=
  | SubmitCandidate (candidate_nonce : LifecycleNonce) (semantic_type : string) (content : OpaqueBytesV1).
#[global] Instance WorkerCandidateRequestV1_eq_dec : EqDecision WorkerCandidateRequestV1.
Proof. solve_decision. Defined.
#[global] Instance WorkerCandidateRequestV1_serialize `{Deps, Base64Std} : Serialize WorkerCandidateRequestV1 := fun r =>
  match r with
  | SubmitCandidate n t c =>
      VObject [("method", VString "submit"); ("candidate_nonce", to_value n); ("semantic_type", to_value t); ("content", to_value c)]
  end.

(** ** Authenticated sources of a proposal *)

#[global] Instance RpcPeerKeyPolicyV1_eq_dec : EqDecision RpcPeerKeyPolicyV1.
Proof. solve_decision. Defined.
#[global] Instance VerifiedRpcPrincipalV1_eq_dec : EqDecision VerifiedRpcPrincipalV1.
Proof. solve_decision. Defined.
#[global] Instance ChallengeProofV1_eq_dec : EqDecision ChallengeProofV1.
Proof. solve_decision. Defined.
#[global] Instance SignedServerChallengeV1_eq_dec : EqDecision SignedServerChallengeV1.
Proof. solve_decision. Defined.
#[global] Instance RequestProofV1_eq_dec : EqDecision RequestProofV1.
Proof. solve_decision. Defined.
#[global] Instance RequestEnvelopeV1_eq_dec `{EqDecision T} : EqDecision (RequestEnvelopeV1 T).
Proof. solve_decision. Defined.
#[global] Instance SignedRequestEnvelopeV1_eq_dec `{EqDecision T} : EqDecision (SignedRequestEnvelopeV1 T).
Proof. solve_decision. Defined.
#[global] Instance RpcPeerKeyPolicyV1_serialize `{RpcDeps} : Serialize RpcPeerKeyPolicyV1 := fun p =>
  VObject [("principal", to_value (kp_principal p)); ("key_id", to_value (kp_key_id p));
           ("public_key", to_value (kp_public_key p)); ("maximum_clock_skew_ms", to_value (kp_maximum_clock_skew_ms p))].

Record ProposalIngressProofV1 : Type := mkIngressProof {
  ig_server_challenge : SignedServerChallengeV1;
  ig_signed_request : SignedRequestEnvelopeV1 AgdRequestV1
}.
#[global] Instance ProposalIngressProofV1_eq_dec : EqDecision ProposalIngressProofV1.
Proof. solve_decision. Defined.
Record WorkerCandidateIngressProofV1 : Type := mkWorkerIngressProof {
  wi_governor_enrollment : RpcPeerKeyPolicyV1;
  wi_worker_enrollment : RpcPeerKeyPolicyV1;
  wi_server_challenge : SignedServerChallengeV1;
  wi_signed_request : SignedRequestEnvelopeV1 WorkerCandidateRequestV1
}.
#[global] Instance WorkerCandidateIngressProofV1_eq_dec : EqDecision WorkerCandidateIngressProofV1.
Proof. solve_decision. Defined.
Record WorkerCandidateSourceProofV1 : Type := mkWorkerSource {
  ws_worker : WorkerSessionPrincipalV1;
  ws_worker_chain : PrincipalChainV1;
  ws_ingress_proof : WorkerCandidateIngressProofV1;
  ws_session_binding : Digest;
  ws_workspace_identity : Digest;
  ws_launch_receipt : Digest;
  ws_candidate_custody : Digest;
  ws_accepted_at_unix_ms : Z
}.
#[global] Instance WorkerCandidateSourceProofV1_eq_dec : EqDecision WorkerCandidateSourceProofV1.
Proof. solve_decision. Defined.
Inductive GovernedProposalIngressV1 : Type :=
  | ExternalSigned (proof : ProposalIngressProofV1)
  | WorkerCandidate (intent : ProposalIntentV1) (source : WorkerCandidateSourceProofV1).
#[global] Instance GovernedProposalIngressV1_eq_dec : EqDecision GovernedProposalIngressV1.
Proof. solve_decision. Defined.

Section IngressForms.
  Context `{RpcDeps, Base64Std}.

#[global] Instance ProposalIngressProofV1_serialize : Serialize ProposalIngressProofV1 := fun p =>
  VObject [("server_challenge", to_value (ig_server_challenge p)); ("signed_request", to_value (ig_signed_request p))].
#[global] Instance WorkerCandidateIngressProofV1_serialize `{Deps} : Serialize WorkerCandidateIngressProofV1 := fun p =>
  VObject [("governor_enrollment", to_value (wi_governor_enrollment p));
           ("worker_enrollment", to_value (wi_worker_enrollment p));
           ("server_challenge", to_value (wi_server_challenge p)); ("signed_request", to_value (wi_signed_request p))].
#[global] Instance WorkerCandidateSourceProofV1_serialize `{Deps} : Serialize WorkerCandidateSourceProofV1 := fun s =>
  VObject [("worker", to_value (ws_worker s)); ("worker_chain", to_value (ws_worker_chain s));
           ("ingress_proof", to_value (ws_ingress_proof s)); ("session_binding", to_value (ws_session_binding s));
           ("workspace_identity", to_value (ws_workspace_identity s)); ("launch_receipt", to_value (ws_launch_receipt s));
           ("candidate_custody", to_value (ws_candidate_custody s));
           ("accepted_at_unix_ms", to_value (ws_accepted_at_unix_ms s))].
#[global] Instance GovernedProposalIngressV1_serialize `{Deps} : Serialize GovernedProposalIngressV1 := fun g =>
  VObject match g with
  | ExternalSigned p => [("ingress_kind", VString "external_signed"); ("proof", to_value p)]
  | WorkerCandidate i s => [("ingress_kind", VString "worker_candidate"); ("intent", to_value i); ("source", to_value s)]
  end.

(** [worker_candidate_ingress_proof_digest]. *)
Definition worker_candidate_ingress_proof_digest `{Deps} (proof : WorkerCandidateIngressProofV1) : res JcsError Digest :=
  from_serializable proof.
End IngressForms.

(** ** The proposal socket *)

Record ArtifactTransferV1 : Type := mkTransfer {
  at_digest : Digest;
  at_byte_length : Z;
  at_content_base64 : string
}.
Inductive EffectProposalRequestV1 : Type :=
  | ProposalHealth
  | SubmitAuthenticatedIntent (ingress : GovernedProposalIngressV1) (artifacts : list ArtifactTransferV1).
Inductive EffectProposalResponseV1 : Type :=
  | ResponseHealth (health : HealthV1)
  | ResponseCanonicalized (proposal_id : string) (proposal_digest : Digest)
  | ResponseIndeterminate (envelope : Digest)
  | ResponseRefused (refusal : Digest).
#[global] Instance EffectProposalResponseV1_eq_dec : EqDecision EffectProposalResponseV1.
Proof. solve_decision. Defined.
#[global] Instance EffectProposalResponseV1_serialize : Serialize EffectProposalResponseV1 := fun r =>
  VObject match r with
  | ResponseHealth h => [("kind", VString "health"); ("health", to_value h)]
  | ResponseCanonicalized i d =>
      [("kind", VString "canonicalized"); ("proposal_id", to_value i); ("proposal_digest", to_value d)]
  | ResponseIndeterminate e => [("kind", VString "indeterminate"); ("envelope", to_value e)]
  | ResponseRefused d => [("kind", VString "refused"); ("refusal", to_value d)]
  end.

(** ** The admin socket *)

Inductive EffectAdminRequestV1 : Type :=
  | AdminHealth
  | InspectProposal (proposal : Digest)
  | InspectRecord (proposal : Digest)
  | ListProposals (limit : Z)
  | Ratify (proposal : Digest) (challenge : string)
  | DraftReconciliation (proposal : Digest)
  | Reconcile (evidence : ReconciliationEvidenceV1).
Record ProposalSummaryV1 : Type := mkSummary {
  su_proposal_id : string;
  su_proposal_digest : Digest;
  su_state : string
}.
Definition EFFECT_RECORD_SCHEMA_V3 : string := "ag.effect-record/v3".
Record EffectRecordV1 : Type := mkEffectRecord {
  er_record_schema : string;
  er_canonical : CanonicalEffectProposalV1;
  er_prepared_candidates : list (string * PreparedManagedPointerCandidateV1);
  er_candidate_ratification : option ManagedPointerCandidateRatificationV1;
  er_promotion_refusals : list ManagedPointerPromotionRefusalV1;
  er_state : ProposalStateV1;
  er_authorization : option RatificationV1;
  er_terminal_receipt : option Digest;
  er_step_receipts : list Digest;
  er_execution_attempt : option Digest;
  er_reconciliation : option ReconciliationRecordV1;
  er_managed_pointer_activation : option ManagedPointerActivationReceiptV1
}.
Inductive EffectAdminResponseV1 : Type :=
  | AdminHealthResponse (health : HealthV1) (activation : EffectdActivationStatusV1)
  | ProposalResponse (proposal : CanonicalEffectProposalV1) (challenge : string)
  | RecordResponse (record : EffectRecordV1)
  | ProposalsResponse (proposals : list ProposalSummaryV1)
  | ExecutionReceipt (receipt : Digest) (terminal_state : string)
  | ReconciliationDraft (evidence : ReconciliationEvidenceV1)
  | ReconciledResponse (receipt : Digest).

(** ** Errors *)

Inductive ApiErrorCodeV1 : Type :=
  | Unauthenticated | Unauthorized | InvalidRequest | NotFoundCode | Conflict | QuiescedCode | IndeterminateCode
  | UnsupportedAuthorityFamilyCode | Internal.
Inductive ApiResultV1 (T : Type) : Type :=
  | ApiOk (response : T)
  | ApiError (code : ApiErrorCodeV1) (message correlation : string).
Arguments ApiOk {T} _.
Arguments ApiError {T} _ _ _.
