(* ===== verification/Broker.v ===== *)
(** * The effect broker: records and checks (ag-app/src/effectd.rs)

    The durable record of one proposal, the durable outcome of one submission,
    and the checks the broker makes on them: the complete validation of a stored
    record, the classification of an observed target against the effect that was
    ratified, the bindings of a receipt, and the digests of composite outcomes.
    A [BTreeMap<TargetId, _>] is the list of its entries in order of the target's
    text. *)

From S2P Require Import Prelude Wire Fixture Digest Names Origin Capability Identity Session Protocol Paths Store StoreBlob HostFiles RpcAuth Config Effect Compile Proposal Executor Pointer PointerText PointerGit PointerRuntime Activation Api.

Definition BROKER_PROPOSAL_RECORD_SCHEMA_V3 : string := "ag.effect-broker-proposal/v3".

(** ** Texts *)

(** Texts that other crates or the standard library define. *)
Class BrokerTexts := {
  (** [impl Debug for str]. *)
  debug_str : string -> string;
  identifier_error_text : IdentifierError -> string;
  peer_error_text : PeerError -> string;
  rpc_auth_error_text : RpcAuthError -> string;
  session_error_text : SessionError -> string;
  (** [env!("CARGO_PKG_VERSION")]. *)
  package_version : string
}.

Section Debug.
  Context `{BrokerTexts}.

(** The derived [Debug] texts of the states and events that an error carries. *)
Definition debug_field (name value : string) : string := name +:+ ": " +:+ value.
Definition debug_struct (name : string) (fields : list string) : string :=
  name +:+ " { " +:+ String.concat ", " fields +:+ " }".
Definition debug_digest (d : Digest) : string := "Digest(" +:+ debug_str (digest_str d) +:+ ")".
Definition debug_target (t : TargetId) : string := "TargetId(" +:+ debug_str (target_str t) +:+ ")".
Definition debug_family (f : EffectFamilyV1) : string :=
  match f with CodePromotion => "CodePromotion" | FamilyManagedFile => "ManagedFile" | FamilySystemd => "Systemd" end.
Definition debug_option (o : option Digest) : string :=
  match o with Some d => "Some(" +:+ debug_digest d +:+ ")" | None => "None" end.
Definition debug_one (name field : string) (d : Digest) : string := debug_struct name [debug_field field (debug_digest d)].
Definition debug_state (s : ProposalStateV1) : string :=
  match s with
  | Received => "Received"
  | Ready p => debug_one "Ready" "proposal" p
  | Refused r => debug_one "Refused" "refusal" r
  | Indeterminate e => debug_one "Indeterminate" "envelope" e
  | AuthorizationBurned p a f =>
      debug_struct "AuthorizationBurned"
        [debug_field "proposal" (debug_digest p); debug_field "authorization" (debug_digest a); debug_field "family" (debug_family f)]
  | Preparing p a => debug_struct "Preparing" [debug_field "proposal" (debug_digest p); debug_field "attempt" (debug_digest a)]
  | Executing p a c =>
      debug_struct "Executing"
        [debug_field "proposal" (debug_digest p); debug_field "attempt" (debug_digest a);
         debug_field "preparation_checkpoint" (debug_option c)]
  | Succeeded r => debug_one "Succeeded" "receipt" r
  | Failed r => debug_one "Failed" "receipt" r
  | ReconciliationRequired e => debug_one "ReconciliationRequired" "envelope" e
  | Reconciled r => debug_one "Reconciled" "receipt" r
  end.
Definition debug_event (e : ProposalEventV1) : string :=
  match e with
  | Compiled p => debug_one "Compiled" "proposal" p
  | EvRefused r => debug_one "Refused" "refusal" r
  | EvIndeterminate e => debug_one "Indeterminate" "envelope" e
  | BurnAuthorization p a f =>
      debug_struct "BurnAuthorization"
        [debug_field "proposal" (debug_digest p); debug_field "authorization" (debug_digest a); debug_field "family" (debug_family f)]
  | BeginPreparation a => debug_one "BeginPreparation" "attempt" a
  | CommitMayProceed c => debug_one "CommitMayProceed" "checkpoint" c
  | PreparationFailed r => debug_one "PreparationFailed" "receipt" r
  | PreparationAbandoned r => debug_one "PreparationAbandoned" "receipt" r
  | PreparationIndeterminate e => debug_one "PreparationIndeterminate" "envelope" e
  | BeginExecution a => debug_one "BeginExecution" "attempt" a
  | ExecutionAbandoned r => debug_one "ExecutionAbandoned" "receipt" r
  | ExecutionSucceeded r => debug_one "ExecutionSucceeded" "receipt" r
  | ExecutionFailed r => debug_one "ExecutionFailed" "receipt" r
  | ExecutionIndeterminate e => debug_one "ExecutionIndeterminate" "envelope" e
  | EvReconciled r => debug_one "Reconciled" "receipt" r
  end.

(** [impl Display for EffectError] (ag-effect/src/lib.rs). *)
Definition effect_error_text (e : EffectError) : string :=
  match e with
  | InvalidTargetId v => "invalid target identifier: " +:+ v
  | UnknownSchema s => "unknown effect schema: " +:+ s
  | UnknownCatalogSchema s => "unknown effect catalog schema: " +:+ s
  | MalformedIntent => "malformed proposal intent"
  | ArtifactNotAdmitted d => "artifact was not admitted: " +:+ digest_str d
  | UnknownTarget t => "unknown target: " +:+ debug_target t
  | MissingObservation t => "missing broker observation: " +:+ debug_target t
  | TargetKindMismatch t => "target kind does not match intent: " +:+ debug_target t
  | TargetIdentityMismatch t => "target identity mismatch: " +:+ debug_target t
  | PromotionTargetDirty t => "managed-pointer target is dirty: " +:+ debug_target t
  | PromotionReferenceCheckedOut t => "managed pointer names a checked-out ref: " +:+ debug_target t
  | PromotionBaseMismatch t => "managed-pointer candidate has the wrong base: " +:+ debug_target t
  | MissingPreparedCandidate t => "managed-pointer candidate has no preparation record: " +:+ debug_target t
  | InvalidPreparedCandidate => "managed-pointer prepared candidate is invalid"
  | PreparedCandidateBindingMismatch => "managed-pointer prepared-candidate binding mismatch"
  | CandidateRatificationMismatch => "managed-pointer candidate ratification mismatch"
  | InvalidPromotionDefinition t => "invalid managed-pointer definition: " +:+ debug_target t
  | PromotionExpiryOverflow => "managed-pointer expiry overflow"
  | UnsafeTarget t => "unsafe target object: " +:+ debug_target t
  | ActionNotAllowed t => "action not allowed for target: " +:+ debug_target t
  | InvalidGitObject v => "invalid Git object identity: " +:+ v
  | Canonical m => "canonical serialization failed: " +:+ m
  | CanonicalDigestMismatch => "canonical proposal digest mismatch"
  | MandateNotApplicable => "bounded mandate does not apply"
  | InvalidHostMandate => "invalid bounded host mandate"
  | MandateDigestMismatch => "bounded host mandate digest mismatch"
  | PromotionRequiresSeparateAuthority => "code promotion requires human exact or derived authority"
  | InvalidTransition s e => "invalid proposal transition from " +:+ debug_state s +:+ " using " +:+ debug_event e
  end.

(** [EffectError], serialized with [tag = "code", content = "detail"]. *)
Definition coded (code : string) (detail : option Value) : Value :=
  VObject (("code", VString code) :: match detail with Some v => [("detail", v)] | None => [] end).
#[global] Instance EffectError_serialize : Serialize EffectError := fun e =>
  match e with
  | InvalidTargetId v => coded "invalid_target_id" (Some (to_value v))
  | UnknownSchema s => coded "unknown_schema" (Some (to_value s))
  | UnknownCatalogSchema s => coded "unknown_catalog_schema" (Some (to_value s))
  | MalformedIntent => coded "malformed_intent" None
  | ArtifactNotAdmitted d => coded "artifact_not_admitted" (Some (to_value d))
  | UnknownTarget t => coded "unknown_target" (Some (to_value t))
  | MissingObservation t => coded "missing_observation" (Some (to_value t))
  | TargetKindMismatch t => coded "target_kind_mismatch" (Some (to_value t))
  | TargetIdentityMismatch t => coded "target_identity_mismatch" (Some (to_value t))
  | PromotionTargetDirty t => coded "promotion_target_dirty" (Some (to_value t))
  | PromotionReferenceCheckedOut t => coded "promotion_reference_checked_out" (Some (to_value t))
  | PromotionBaseMismatch t => coded "promotion_base_mismatch" (Some (to_value t))
  | MissingPreparedCandidate t => coded "missing_prepared_candidate" (Some (to_value t))
  | InvalidPreparedCandidate => coded "invalid_prepared_candidate" None
  | PreparedCandidateBindingMismatch => coded "prepared_candidate_binding_mismatch" None
  | CandidateRatificationMismatch => coded "candidate_ratification_mismatch" None
  | InvalidPromotionDefinition t => coded "invalid_promotion_definition" (Some (to_value t))
  | PromotionExpiryOverflow => coded "promotion_expiry_overflow" None
  | UnsafeTarget t => coded "unsafe_target" (Some (to_value t))
  | ActionNotAllowed t => coded "action_not_allowed" (Some (to_value t))
  | InvalidGitObject v => coded "invalid_git_object" (Some (to_value v))
  | Canonical m => coded "canonical" (Some (to_value m))
  | CanonicalDigestMismatch => coded "canonical_digest_mismatch" None
  | MandateNotApplicable => coded "mandate_not_applicable" None
  | InvalidHostMandate => coded "invalid_host_mandate" None
  | MandateDigestMismatch => coded "mandate_digest_mismatch" None
  | PromotionRequiresSeparateAuthority => coded "promotion_requires_separate_authority" None
  | InvalidTransition s e =>
      coded "invalid_transition" (Some (VObject [("state", VString (debug_state s)); ("event", VString (debug_event e))]))
  end.
End Debug.

(** ** Errors *)

Inductive BrokerError : Type :=
  | BkIdentifier (e : IdentifierError)
  | BkJcs (e : JcsError)
  | BkEffect (e : EffectError)
  | BkStore (e : StoreError)
  | BkPeer (e : PeerError)
  | BkRpcAuthentication (e : RpcAuthError)
  | BkSession (e : SessionError)
  | BkIo (e : IoError)
  | BkManagedPointer (e : ManagedPointerError)
  | BkDuplicateTarget (id : string)
  | BkHelperIdentityMismatch (helper : string)
  | BkCatalogIdentityMismatch
  | BkSecurityProfileIdentityMismatch
  | BkPromotionExpired
  | BkPromotionEligibilityRefused (receipt : Digest)
  | BkObservation (detail : string)
  | BkAuthorityContextMismatch
  | BkProposerProofMismatch
  | BkWorkerSourceProofMismatch
  | BkWorkerSourceBindingMismatch
  | BkWorkerCandidateMismatch
  | BkReconciliationEvidenceMismatch
  | BkReconciliationStateUnresolved
  | BkReconciliationNotRequired
  | BkPlanTooLarge
  | BkReadyLimit
  | BkArtifactTransferMismatch
  | BkQuiesced
  | BkNotFound
  | BkChallengeInvalid
  | BkPrincipalChainsNotIndependent
  | BkUnsupportedAuthorityFamily
  | BkActivationNotReady
  | BkActivationEvidence (detail : string)
  | BkClock (detail : string)
  | BkCorrupt (detail : string).

(** [impl Display for BrokerError]. *)
Definition broker_error_text `{BrokerTexts, ErrnoText, JcsErrorText, PointerTexts} (e : BrokerError) : string :=
  match e with
  | BkIdentifier e => "invalid authority identifier: " +:+ identifier_error_text e
  | BkJcs e => "canonical identity failed: " +:+ jcs_text e
  | BkEffect e => effect_error_text e
  | BkStore e => store_error_text e
  | BkPeer e => peer_error_text e
  | BkRpcAuthentication e => rpc_auth_error_text e
  | BkSession e => session_error_text e
  | BkIo e => "effect observation failed: " +:+ io_text e
  | BkManagedPointer e => pointer_error_text e
  | BkDuplicateTarget id => "duplicate target ID: " +:+ id
  | BkHelperIdentityMismatch h => "pinned helper executable identity mismatch: " +:+ h
  | BkCatalogIdentityMismatch => "activated effect catalog identity does not match the rebuilt compiler catalog"
  | BkSecurityProfileIdentityMismatch => "managed-pointer runtime security-profile identity mismatch"
  | BkPromotionExpired => "managed-pointer proposal expired before ratification"
  | BkPromotionEligibilityRefused d => "managed-pointer promotion eligibility refused: " +:+ digest_str d
  | BkObservation d => "target observation indeterminate: " +:+ d
  | BkAuthorityContextMismatch => "intent authority domain or epoch mismatch"
  | BkProposerProofMismatch => "forwarded proposal does not match the end-to-end proposer proof"
  | BkWorkerSourceProofMismatch => "worker candidate does not match its authenticated principal proof"
  | BkWorkerSourceBindingMismatch => "worker candidate source does not match its durable session bindings"
  | BkWorkerCandidateMismatch => "worker candidate bytes do not match governor custody and intent"
  | BkReconciliationEvidenceMismatch => "reconciliation evidence does not match broker-owned state"
  | BkReconciliationStateUnresolved => "target state remains unresolved and cannot be reconciled"
  | BkReconciliationNotRequired => "proposal does not require reconciliation"
  | BkPlanTooLarge => "proposal exceeds configured effect-step bound"
  | BkReadyLimit => "ready proposal bound reached"
  | BkArtifactTransferMismatch => "transferred artifacts do not exactly match admitted custody references"
  | BkQuiesced => "effect broker is quiesced for a coherent backup cut"
  | BkNotFound => "canonical proposal not found"
  | BkChallengeInvalid => "ratification display challenge is invalid"
  | BkPrincipalChainsNotIndependent => "proposer and ratifier principal chains are not independent"
  | BkUnsupportedAuthorityFamily => "authority family is not supported by this build"
  | BkActivationNotReady => "effect authority is disabled because broker activation is not ready"
  | BkActivationEvidence d => "effect broker activation evidence refused: " +:+ d
  | BkClock d => "trusted clock observation failed: " +:+ d
  | BkCorrupt d => "broker store is corrupt: " +:+ d
  end.

(** The code of [broker_api_error]. *)
Definition api_error_code (e : BrokerError) : ApiErrorCodeV1 :=
  match e with
  | BkNotFound => NotFoundCode
  | BkQuiesced => QuiescedCode
  | BkChallengeInvalid | BkPrincipalChainsNotIndependent | BkAuthorityContextMismatch | BkProposerProofMismatch
  | BkWorkerSourceProofMismatch | BkWorkerSourceBindingMismatch | BkPeer _ | BkRpcAuthentication _ => Unauthorized
  | BkUnsupportedAuthorityFamily => UnsupportedAuthorityFamilyCode
  | BkObservation _ | BkManagedPointer _ | BkActivationEvidence _ | BkActivationNotReady => IndeterminateCode
  | BkEffect (InvalidTransition _ _) | BkPromotionExpired | BkPromotionEligibilityRefused _
  | BkReconciliationStateUnresolved | BkReconciliationNotRequired => Conflict
  | BkEffect _ | BkSession _ | BkWorkerCandidateMismatch | BkPlanTooLarge | BkReadyLimit
  | BkReconciliationEvidenceMismatch => InvalidRequest
  | _ => Internal
  end.

(** ** Durable records *)

#[global] Instance ProposalStateV1_serialize : Serialize ProposalStateV1 := fun s =>
  VObject match s with
  | Received => [("state", VString "received")]
  | Ready p => [("state", VString "ready"); ("proposal", to_value p)]
  | Refused r => [("state", VString "refused"); ("refusal", to_value r)]
  | Indeterminate e => [("state", VString "indeterminate"); ("envelope", to_value e)]
  | AuthorizationBurned p a f =>
      [("state", VString "authorization_burned"); ("proposal", to_value p); ("authorization", to_value a); ("family", to_value f)]
  | Preparing p a => [("state", VString "preparing"); ("proposal", to_value p); ("attempt", to_value a)]
  | Executing p a c =>
      [("state", VString "executing"); ("proposal", to_value p); ("attempt", to_value a); ("preparation_checkpoint", to_value c)]
  | Succeeded r => [("state", VString "succeeded"); ("receipt", to_value r)]
  | Failed r => [("state", VString "failed"); ("receipt", to_value r)]
  | ReconciliationRequired e => [("state", VString "reconciliation_required"); ("envelope", to_value e)]
  | Reconciled r => [("state", VString "reconciled"); ("receipt", to_value r)]
  end.
#[global] Instance CanonicalEffectProposalV1_serialize : Serialize CanonicalEffectProposalV1 := fun p =>
  VObject [("digest", to_value (cp_digest p)); ("body", to_value (cp_body p))].

Record BrokerProposalRecordV1 : Type := mkProposalRecord {
  rec_schema : string;
  rec_canonical : CanonicalEffectProposalV1;
  rec_prepared_candidates : list (string * PreparedManagedPointerCandidateV1);
  rec_candidate_ratification : option ManagedPointerCandidateRatificationV1;
  rec_promotion_refusals : list ManagedPointerPromotionRefusalV1;
  rec_state : ProposalStateV1;
  rec_authorization : option RatificationV1;
  rec_terminal_receipt : option Digest;
  rec_step_receipts : list Digest;
  rec_execution_attempt : option Digest;
  rec_reconciliation : option ReconciliationRecordV1;
  rec_managed_pointer_activation : option ManagedPointerActivationReceiptV1
}.
#[global] Instance BrokerProposalRecordV1_serialize `{Deps} : Serialize BrokerProposalRecordV1 := fun r =>
  VObject [("schema", to_value (rec_schema r)); ("canonical", to_value (rec_canonical r));
           ("prepared_candidates", VObject (map (fun kv => (kv.1, to_value kv.2)) (rec_prepared_candidates r)));
           ("candidate_ratification", to_value (rec_candidate_ratification r));
           ("promotion_refusals", to_value (rec_promotion_refusals r)); ("state", to_value (rec_state r));
           ("authorization", to_value (rec_authorization r)); ("terminal_receipt", to_value (rec_terminal_receipt r));
           ("step_receipts", to_value (rec_step_receipts r)); ("execution_attempt", to_value (rec_execution_attempt r));
           ("reconciliation", to_value (rec_reconciliation r));
           ("managed_pointer_activation", to_value (rec_managed_pointer_activation r))].

(** Assignments to fields of a record. *)
Definition with_state (s : ProposalStateV1) (r : BrokerProposalRecordV1) : BrokerProposalRecordV1 :=
  mkProposalRecord (rec_schema r) (rec_canonical r) (rec_prepared_candidates r) (rec_candidate_ratification r)
    (rec_promotion_refusals r) s (rec_authorization r) (rec_terminal_receipt r) (rec_step_receipts r)
    (rec_execution_attempt r) (rec_reconciliation r) (rec_managed_pointer_activation r).
Definition with_terminal (d : Digest) (r : BrokerProposalRecordV1) : BrokerProposalRecordV1 :=
  mkProposalRecord (rec_schema r) (rec_canonical r) (rec_prepared_candidates r) (rec_candidate_ratification r)
    (rec_promotion_refusals r) (rec_state r) (rec_authorization r) (Some d) (rec_step_receipts r)
    (rec_execution_attempt r) (rec_reconciliation r) (rec_managed_pointer_activation r).
Definition with_step (d : Digest) (r : BrokerProposalRecordV1) : BrokerProposalRecordV1 :=
  mkProposalRecord (rec_schema r) (rec_canonical r) (rec_prepared_candidates r) (rec_candidate_ratification r)
    (rec_promotion_refusals r) (rec_state r) (rec_authorization r) (rec_terminal_receipt r) (rec_step_receipts r ++ [d])
    (rec_execution_attempt r) (rec_reconciliation r) (rec_managed_pointer_activation r).
Definition with_attempt (d : Digest) (r : BrokerProposalRecordV1) : BrokerProposalRecordV1 :=
  mkProposalRecord (rec_schema r) (rec_canonical r) (rec_prepared_candidates r) (rec_candidate_ratification r)
    (rec_promotion_refusals r) (rec_state r) (rec_authorization r) (rec_terminal_receipt r) (rec_step_receipts r)
    (Some d) (rec_reconciliation r) (rec_managed_pointer_activation r).
Definition with_activation (a : option ManagedPointerActivationReceiptV1) (r : BrokerProposalRecordV1) : BrokerProposalRecordV1 :=
  mkProposalRecord (rec_schema r) (rec_canonical r) (rec_prepared_candidates r) (rec_candidate_ratification r)
    (rec_promotion_refusals r) (rec_state r) (rec_authorization r) (rec_terminal_receipt r) (rec_step_receipts r)
    (rec_execution_attempt r) (rec_reconciliation r) a.
Definition with_refusal (f : ManagedPointerPromotionRefusalV1) (r : BrokerProposalRecordV1) : BrokerProposalRecordV1 :=
  mkProposalRecord (rec_schema r) (rec_canonical r) (rec_prepared_candidates r) (rec_candidate_ratification r)
    (rec_promotion_refusals r ++ [f]) (rec_state r) (rec_authorization r) (rec_terminal_receipt r) (rec_step_receipts r)
    (rec_execution_attempt r) (rec_reconciliation r) (rec_managed_pointer_activation r).
(** [BrokerProposalRecordV1 { state, authorization: Some(..), candidate_ratification, ..r }]. *)
Definition with_burn (s : ProposalStateV1) (a : RatificationV1) (c : option ManagedPointerCandidateRatificationV1)
    (r : BrokerProposalRecordV1) : BrokerProposalRecordV1 :=
  mkProposalRecord (rec_schema r) (rec_canonical r) (rec_prepared_candidates r) c (rec_promotion_refusals r) s (Some a)
    (rec_terminal_receipt r) (rec_step_receipts r) (rec_execution_attempt r) (rec_reconciliation r)
    (rec_managed_pointer_activation r).
(** [BrokerProposalRecordV1 { state, terminal_receipt: Some(..), reconciliation: Some(..), ..r }]. *)
Definition with_reconciliation (s : ProposalStateV1) (d : Digest) (c : ReconciliationRecordV1) (r : BrokerProposalRecordV1)
    : BrokerProposalRecordV1 :=
  mkProposalRecord (rec_schema r) (rec_canonical r) (rec_prepared_candidates r) (rec_candidate_ratification r)
    (rec_promotion_refusals r) s (rec_authorization r) (Some d) (rec_step_receipts r) (rec_execution_attempt r) (Some c)
    (rec_managed_pointer_activation r).

(** [effect_record_projection]. *)
Definition effect_record_projection (r : BrokerProposalRecordV1) : EffectRecordV1 :=
  mkEffectRecord EFFECT_RECORD_SCHEMA_V3 (rec_canonical r) (rec_prepared_candidates r) (rec_candidate_ratification r)
    (rec_promotion_refusals r) (rec_state r) (rec_authorization r) (rec_terminal_receipt r) (rec_step_receipts r)
    (rec_execution_attempt r) (rec_reconciliation r) (rec_managed_pointer_activation r).

(** ** Evaluations *)

Inductive BrokerEvaluationPhaseV1 : Type := TargetObservation | CanonicalCompilation.
Inductive BrokerEvaluationFailureCodeV1 : Type := ObservationUnavailable | ObservationIo | CompilationUnavailable.
Inductive BrokerEvaluationEvidenceV1 : Type :=
  | EvaluationCanonicalized (proposal_id : string) (proposal : Digest)
  | EvaluationRefused (proposal_id : string) (refusal : EffectError)
  | EvaluationIndeterminate (proposal_id : string) (phase : BrokerEvaluationPhaseV1)
      (failure_code : BrokerEvaluationFailureCodeV1) (detail : string) (compiler_error : option EffectError).
#[global] Instance BrokerEvaluationPhaseV1_serialize : Serialize BrokerEvaluationPhaseV1 := fun p =>
  VString match p with TargetObservation => "target_observation" | CanonicalCompilation => "canonical_compilation" end.
#[global] Instance BrokerEvaluationFailureCodeV1_serialize : Serialize BrokerEvaluationFailureCodeV1 := fun c =>
  VString match c with
          | ObservationUnavailable => "observation_unavailable" | ObservationIo => "observation_io"
          | CompilationUnavailable => "compilation_unavailable"
          end.
#[global] Instance BrokerEvaluationEvidenceV1_serialize `{BrokerTexts} : Serialize BrokerEvaluationEvidenceV1 := fun e =>
  VObject match e with
  | EvaluationCanonicalized i p => [("outcome", VString "canonicalized"); ("proposal_id", to_value i); ("proposal", to_value p)]
  | EvaluationRefused i r => [("outcome", VString "refused"); ("proposal_id", to_value i); ("refusal", to_value r)]
  | EvaluationIndeterminate i p c d e =>
      [("outcome", VString "indeterminate"); ("proposal_id", to_value i); ("phase", to_value p);
       ("failure_code", to_value c); ("detail", to_value d); ("compiler_error", to_value e)]
  end.

(** [BrokerEvaluationEvidenceV1::digest] and [::matches_response]. *)
Definition evaluation_digest `{Deps, BrokerTexts} (e : BrokerEvaluationEvidenceV1) : res BrokerError Digest :=
  map_err BkJcs (from_serializable e).
Definition matches_response `{Deps, BrokerTexts} (e : BrokerEvaluationEvidenceV1) (r : EffectProposalResponseV1) : bool :=
  match e, r with
  | EvaluationCanonicalized proposal_id proposal, ResponseCanonicalized response_id proposal_digest =>
      (proposal_id == response_id) && (proposal == proposal_digest)
  | EvaluationRefused _ _, ResponseRefused refusal =>
      match evaluation_digest e with Ok digest => digest == refusal | _ => false end
  | EvaluationIndeterminate _ _ _ _ _, ResponseIndeterminate envelope =>
      match evaluation_digest e with Ok digest => digest == envelope | _ => false end
  | _, _ => false
  end.

Record BrokerSubmissionRecordV1 : Type := mkSubmission {
  sub_source : Digest;
  sub_governor : VerifiedRpcPrincipalV1;
  sub_proposer : PrincipalChainV1;
  sub_ingress_proof : GovernedProposalIngressV1;
  sub_evaluation : BrokerEvaluationEvidenceV1;
  sub_response : EffectProposalResponseV1
}.
#[global] Instance BrokerSubmissionRecordV1_serialize `{Deps, RpcDeps, Base64Std, BrokerTexts} : Serialize BrokerSubmissionRecordV1 := fun s =>
  VObject [("source", to_value (sub_source s)); ("governor", to_value (sub_governor s));
           ("proposer", to_value (sub_proposer s)); ("ingress_proof", to_value (sub_ingress_proof s));
           ("evaluation", to_value (sub_evaluation s)); ("response", to_value (sub_response s))].

(** ** Names *)

(** [strip_prefix("sha256:").unwrap_or(text)]. *)
Definition bare_digest (d : Digest) : string :=
  if starts_with (digest_str d) "sha256:" then str_drop 7 (digest_str d) else digest_str d.
Definition PROPOSAL_PREFIX : string := "proposal-".
Definition proposal_entity (proposal : Digest) : string := PROPOSAL_PREFIX +:+ bare_digest proposal.
Definition submission_entity (source : Digest) : string := "submission-" +:+ bare_digest source.
Definition stable_proposal_id (source : Digest) : string := "p-" +:+ bare_digest source.
Definition proposal_digest_from_entity (entity : string) : res BrokerError Digest :=
  reject_if (negb (starts_with entity PROPOSAL_PREFIX))
    (BkCorrupt "proposal materialization has an invalid entity prefix") ;?
  let suffix := str_drop (String.length PROPOSAL_PREFIX) entity in
  let? digest := map_err (fun _ => BkCorrupt "proposal materialization has an invalid digest entity")
                   (digest_parse ("sha256:" +:+ suffix)) in
  reject_if (proposal_entity digest != entity) (BkCorrupt "proposal materialization has a noncanonical entity") ;?
  Ok digest.
Definition compiler_evaluation_event_kind (semantic_refusal : bool) : string :=
  if semantic_refusal then "effect-evaluation.refused.v1" else "effect-evaluation.indeterminate.v1".
Definition proposal_state_name (s : ProposalStateV1) : string :=
  match s with
  | Received => "received" | Ready _ => "ready" | Refused _ => "refused" | Indeterminate _ => "indeterminate"
  | AuthorizationBurned _ _ _ => "authorization_burned" | Preparing _ _ => "preparing" | Executing _ _ _ => "executing"
  | Succeeded _ => "succeeded" | Failed _ => "failed" | ReconciliationRequired _ => "reconciliation_required"
  | Reconciled _ => "reconciled"
  end.
(** The sanitized, bounded text of [bounded_activation_text] and of a refusal's detail. *)
Definition printable_char (c : Z) : Z := if (c <? 32)%Z || (127 <=? c)%Z then 63%Z else c.
Definition bounded_activation_text (value : string) : string :=
  encode_chars (take 512 (map printable_char (chars (str_bytes value)))).

(** ** Composite outcomes *)

Inductive CompositeTerminalV1 : Type := TerminalSucceeded | TerminalFailed | TerminalIndeterminate.
Inductive BrokerStepOutcomeV1 : Type :=
  | StepSucceeded (receipt : Digest)
  | StepFailed (receipt : Digest)
  | StepIndeterminate (envelope : Digest).
#[global] Instance BrokerStepOutcomeV1_serialize : Serialize BrokerStepOutcomeV1 := fun s =>
  VObject match s with
  | StepSucceeded r => [("outcome", VString "succeeded"); ("receipt", to_value r)]
  | StepFailed r => [("outcome", VString "failed"); ("receipt", to_value r)]
  | StepIndeterminate e => [("outcome", VString "indeterminate"); ("envelope", to_value e)]
  end.
(** The outcome of each step: all but the last succeeded. *)
Definition last_outcome (terminal : CompositeTerminalV1) (receipt : Digest) : BrokerStepOutcomeV1 :=
  match terminal with
  | TerminalSucceeded => StepSucceeded receipt
  | TerminalFailed => StepFailed receipt
  | TerminalIndeterminate => StepIndeterminate receipt
  end.
Fixpoint step_outcomes (terminal : CompositeTerminalV1) (receipts : list Digest) : list BrokerStepOutcomeV1 :=
  match receipts with
  | [] => []
  | [receipt] => [last_outcome terminal receipt]
  | receipt :: rest => StepSucceeded receipt :: step_outcomes terminal rest
  end.

Section Composite.
  Context `{Deps, JcsErrorText}.

Definition composite_execution_receipt (proposal attempt : Digest) (step_receipts : list Digest) (terminal : CompositeTerminalV1)
    : res BrokerError Digest :=
  map_err (fun e => BkCorrupt (jcs_text e))
    (from_serializable (VArray [VString "ag.effect.composite-execution-receipt/v1"; to_value proposal; to_value attempt;
                                to_value (step_outcomes terminal step_receipts)])).
Definition restart_reconciliation_envelope (proposal attempt : Digest) (step_receipts : list Digest) : res BrokerError Digest :=
  map_err (fun e => BkCorrupt (jcs_text e))
    (from_serializable (VArray [VString "ag.effect.restart-reconciliation/v1"; to_value proposal; to_value attempt;
                                to_value step_receipts])).
End Composite.

(** ** Observed targets *)

#[global] Instance ReconciliationClassificationV1_eq_dec : EqDecision ReconciliationClassificationV1.
Proof. solve_decision. Defined.
#[global] Instance ManagedPointerObservation_eq_dec : EqDecision ManagedPointerObservation.
Proof. solve_decision. Defined.
#[global] Instance TargetObservationV1_eq_dec : EqDecision TargetObservationV1.
Proof. solve_decision. Defined.

(** [exact_identity] of [classify_reconciliation]. *)
Definition exact_pointer_identity (p : PromotionEffect) (o : ManagedPointerObservation) : bool :=
  (pp_repository_identity p == po_repository_identity o)
  && (pp_repository_device p =? po_repository_device o)%Z
  && (pp_repository_inode p =? po_repository_inode o)%Z
  && (pp_git_directory_device p =? po_git_directory_device o)%Z
  && (pp_git_directory_inode p =? po_git_directory_inode o)%Z
  && (pp_uid p =? po_repository_uid o)%Z
  && (pp_gid p =? po_repository_gid o)%Z
  && (pp_candidate_pack_digest p == po_candidate_pack_digest o)
  && (pp_object_format p == po_object_format o)
  && (po_candidate_object o == pp_new_object p)
  && (po_candidate_tree o == pp_expected_post_tree p)
  && (po_candidate_parent o == pp_expected_object p)
  && po_clean o
  && negb (po_reference_checked_out o).
Definition classify_pointer (p : PromotionEffect) (o : ManagedPointerObservation) : ReconciliationClassificationV1 :=
  if negb (exact_pointer_identity p o) then Foreign
  else if (po_current_object o == pp_new_object p) && (po_current_tree o == pp_expected_post_tree p) then Applied
  else if (po_current_object o == pp_expected_object p) && (po_current_tree o == pp_expected_tree p)
          && (pp_prestate_identity p == po_prestate_identity o) then NotApplied
  else Foreign.
(** [classify_reconciliation]. *)
Definition classify_reconciliation (effect : CanonicalEffectV1) (observation : TargetObservationV1)
    : res BrokerError ReconciliationClassificationV1 :=
  match effect, observation with
  | EffManagedPointerPromotion p, ObsManagedPointer o => Ok (classify_pointer p o)
  | EffManagedFilePut _ _ expected_content content _ _ _, ObsManagedFile current_content true =>
      if current_content == Some content then Ok Applied
      else if current_content == expected_content then Ok NotApplied
      else Err BkReconciliationStateUnresolved
  | EffManagedFileDelete _ _ _, ObsManagedFile None true => Ok Applied
  | EffManagedFileDelete _ _ expected_content, ObsManagedFile (Some current) true =>
      if current == expected_content then Ok NotApplied else Err BkReconciliationStateUnresolved
  | _, _ => Err BkReconciliationStateUnresolved
  end.

(** ** Receipts *)

Definition contract_violation (detail source_code : string) : ExecutionOutcomeV1 :=
  OutIndeterminate (mkIndeterminate BackendContractViolation ReceiptValidation detail (Some source_code) None).
(** [enforce_receipt_bindings]. *)
Definition enforce_receipt_bindings (receipt : ExecutionReceiptV1) (proposal authorization attempt : Digest) (effect_index : Z)
    (effect : CanonicalEffectV1) : ExecutionReceiptV1 :=
  if is_ok (receipt_verify_bindings receipt proposal authorization attempt effect_index effect) then receipt
  else mkExecutionReceipt EXECUTION_RECEIPT_SCHEMA_V1 proposal authorization attempt effect_index effect
         (contract_violation "effect runner returned a receipt for another authority context" "runner_contract_violation").
Definition set_outcome (outcome : ExecutionOutcomeV1) (r : ExecutionReceiptV1) : ExecutionReceiptV1 :=
  mkExecutionReceipt (xr_schema r) (xr_proposal r) (xr_authorization r) (xr_attempt r) (xr_effect_index r) (xr_effect r) outcome.
Definition outcome_succeeded (o : ExecutionOutcomeV1) : bool := match o with OutSucceeded _ => true | _ => false end.
(** [enforce_managed_pointer_evidence_bindings]. *)
Definition enforce_managed_pointer_evidence_bindings `{Deps} (receipt : ExecutionReceiptV1)
    (commit_evidence : option ManagedPointerCommitEvidenceV1) (poststate : option ManagedPointerPoststateEvidenceV1)
    (activation : option ManagedPointerActivationReceiptV1) : ExecutionReceiptV1 :=
  if negb (outcome_succeeded (xr_outcome receipt)) then receipt
  else
    let activation_matches :=
      match activation with
      | Some a => is_ok (activation_verify a (xr_effect receipt)) && (commit_evidence == Some (ar_commit a))
                  && (poststate == Some (ar_poststate a))
      | None => false
      end in
    if (commit_evidence == None) || (poststate == None) || negb activation_matches then
      set_outcome (contract_violation "managed-pointer success lacks complete activation evidence" "missing_promotion_evidence") receipt
    else receipt.
Definition outcome_terminal (o : ExecutionOutcomeV1) : CompositeTerminalV1 :=
  match o with
  | OutSucceeded _ => TerminalSucceeded | OutFailed _ => TerminalFailed | OutIndeterminate _ => TerminalIndeterminate
  end.
(** [RefusingEffectRunnerV1::execute_once]. *)
Definition refusing_execute_once (proposal authorization attempt : Digest) (effect_index : Z) (effect : CanonicalEffectV1)
    : ExecutionReceiptV1 :=
  mkExecutionReceipt EXECUTION_RECEIPT_SCHEMA_V1 proposal authorization attempt effect_index effect
    (OutIndeterminate (mkIndeterminate BackendOutcomeUnknown PrestateCheck "exact effect backend is not installed"
                         (Some "backend_unavailable") None)).

(** ** Paths *)

(** [utf8_path] and [repository_relative_path]. *)
Definition broker_utf8_path (path : string) : res BrokerError string :=
  if utf8_valid (str_bytes path) then Ok path else Err (BkObservation "configured path is not UTF-8").
Definition repository_relative_path (allowed_root repository : string) : res BrokerError string :=
  let? relative := ok_or (BkObservation "managed repository is outside its allowed root")
                     (path_strip_prefix repository allowed_root) in
  reject_if ((relative == EmptyString) || is_absolute relative)
    (BkObservation "managed repository is not strictly beneath its allowed root") ;?
  broker_utf8_path relative.

(** ** The catalog *)

#[global] Instance TargetDefinitionV1_serialize : Serialize TargetDefinitionV1 := fun t =>
  VObject match t with
  | DefManagedPointer d =>
      [("kind", VString "managed_pointer"); ("allowed_root", to_value (pd_allowed_root d));
       ("repository", to_value (pd_repository d)); ("reference", to_value (pd_reference d));
       ("repository_identity", to_value (pd_repository_identity d)); ("uid", to_value (pd_uid d));
       ("gid", to_value (pd_gid d)); ("staging_root", to_value (pd_staging_root d));
       ("promotion_ttl_ms", to_value (pd_promotion_ttl_ms d)); ("helper_executable", to_value (pd_helper_executable d));
       ("helper_launch_profile", to_value (pd_helper_launch_profile d))]
  | DefManagedFile p m u g =>
      [("kind", VString "managed_file"); ("path", to_value p); ("mode", to_value m); ("uid", to_value u); ("gid", to_value g)]
  | DefSystemdUnit u a => [("kind", VString "systemd_unit"); ("unit", to_value u); ("allowed_actions", to_value a)]
  | DefSystemdManager => [("kind", VString "systemd_manager")]
  end.
(** A [BTreeSet<SystemdUnitActionV1>] built from a list: the actions in order. *)
Definition action_set (l : list SystemdUnitActionV1) : list SystemdUnitActionV1 :=
  List.filter (fun a => bool_decide (a ∈ l)) [Start; Stop; Restart; Reload; Enable; Disable].
Definition configured_id (t : EffectTargetConfigV1) : string :=
  match t with
  | CfgManagedPointer c => pt_id c
  | CfgManagedFile id _ _ _ _ | CfgSystemdUnit id _ _ | CfgSystemdManager id => id
  end.
(** The definition of one configured target; [helper] is what reading the file of a
    pointer's helper answers. *)
Definition target_definition `{Deps} (t : EffectTargetConfigV1) (helper : string -> res IoError bytes)
    : res BrokerError TargetDefinitionV1 :=
  match t with
  | CfgManagedPointer c =>
      let? b := map_err BkIo (helper (pt_helper c)) in
      reject_if (hash_bytes b != pt_helper_executable c) (BkHelperIdentityMismatch (pt_helper c)) ;?
      let? allowed_root := broker_utf8_path (pt_allowed_root c) in
      let? repository := repository_relative_path (pt_allowed_root c) (pt_repository c) in
      let? staging_root := broker_utf8_path (pt_staging_root c) in
      Ok (DefManagedPointer (mkPointerDefinition allowed_root repository (pt_reference c) (pt_repository_identity c) (pt_uid c)
            (pt_gid c) staging_root (pt_promotion_ttl_ms c) (pt_helper_executable c) (pt_helper_launch_profile c)))
  | CfgManagedFile _ path mode uid gid =>
      let? path := broker_utf8_path path in Ok (DefManagedFile path mode uid gid)
  | CfgSystemdUnit _ unit allowed_actions => Ok (DefSystemdUnit unit (action_set allowed_actions))
  | CfgSystemdManager _ => Ok DefSystemdManager
  end.
(** The loop of [build_catalog]. *)
Fixpoint catalog_targets `{Deps} (helper : string -> res IoError bytes) (targets : list (string * TargetDefinitionV1))
    (source : list (string * EffectTargetConfigV1)) (configured : list EffectTargetConfigV1)
    : res BrokerError (list (string * TargetDefinitionV1) * list (string * EffectTargetConfigV1)) :=
  match configured with
  | [] => Ok (targets, source)
  | t :: rest =>
      let? definition := target_definition t helper in
      let? id := map_err BkEffect (TargetId_parse (configured_id t)) in
      reject_if (match btree_get (target_str id) targets with Some _ => true | None => false end)
        (BkDuplicateTarget (configured_id t)) ;?
      catalog_targets helper (btree_insert (target_str id) definition targets) (btree_insert (target_str id) t source) rest
  end.
(** [build_catalog] and [configured_catalog_identity]. *)
Definition build_catalog `{Deps} (helper : string -> res IoError bytes) (configured : list EffectTargetConfigV1)
    : res BrokerError (EffectCatalogV1 * list (string * EffectTargetConfigV1)) :=
  let? (targets, source) := catalog_targets helper [] [] configured in
  let? identity :=
    map_err BkJcs (from_serializable (VArray [VString EFFECT_CATALOG_SCHEMA_V1;
                                              VObject (map (fun kv => (kv.1, to_value kv.2)) targets)])) in
  Ok (mkCatalog EFFECT_CATALOG_SCHEMA_V1 identity targets, source).
Definition configured_catalog_identity `{Deps} (helper : string -> res IoError bytes) (configured : list EffectTargetConfigV1)
    : res BrokerError Digest :=
  let? (catalog, _) := build_catalog helper configured in Ok (ct_identity catalog).

(** ** The broker's settings

    The fields of [EffectBrokerV1] that its constructor fixes; the others are the
    state of [BrokerOps]. *)
Record EffectBrokerV1 (Fd : Type) : Type := mkBroker {
  bk_compiler : EffectCompilerV1;
  bk_catalog_identity : Digest;
  bk_security_profile_identity : Digest;
  bk_targets : list (string * EffectTargetConfigV1);
  bk_authority_domain : AuthorityDomainId;
  bk_epoch : EpochId;
  bk_agd_policy : PeerPolicyV1;
  bk_proposer_policy : PeerPolicyV1;
  bk_admin_policy : PeerPolicyV1;
  bk_max_plan_steps : Z;
  bk_max_ready_proposals : Z;
  bk_max_artifact_bytes : Z;
  bk_development_authority_bypass : bool;
  bk_pointer_runtime : ManagedPointerRuntimeV1 Fd
}.
Arguments mkBroker {Fd} _ _ _ _ _ _ _ _ _ _ _ _ _ _.
Arguments bk_compiler {Fd} _.
Arguments bk_catalog_identity {Fd} _.
Arguments bk_security_profile_identity {Fd} _.
Arguments bk_targets {Fd} _.
Arguments bk_authority_domain {Fd} _.
Arguments bk_epoch {Fd} _.
Arguments bk_agd_policy {Fd} _.
Arguments bk_proposer_policy {Fd} _.
Arguments bk_admin_policy {Fd} _.
Arguments bk_max_plan_steps {Fd} _.
Arguments bk_max_ready_proposals {Fd} _.
Arguments bk_max_artifact_bytes {Fd} _.
Arguments bk_development_authority_bypass {Fd} _.
Arguments bk_pointer_runtime {Fd} _.

(** ** Validation of a stored record *)

(** A chain of [&&] whose operands may fail: the first that is false or fails ends it. *)
Fixpoint all_of {E} (l : list (res E bool)) : res E bool :=
  match l with
  | [] => Ok true
  | m :: rest => let? b := m in if (b : bool) then all_of rest else Ok false
  end.
Definition require_record_invariant (condition : bool) (detail : string) : res BrokerError unit :=
  reject_if (negb condition) (BkCorrupt detail).
(** [chain.independent_from(other)], which panics on an empty chain. *)
Definition independent (chain other : PrincipalChainV1) : res BrokerError bool := expect_ok (independent_from chain other).
(** A ratifier inside the proposal's context and independent of its proposer. *)
Definition ratifier_admitted (body : CanonicalProposalBodyV1) (ratifier : PrincipalChainV1) : res BrokerError bool :=
  all_of [Ok (pc_authority_domain ratifier == pb_authority_domain body); Ok (pc_epoch ratifier == pb_epoch body);
          independent (pb_proposer body) ratifier].
Definition only_effect {E} (p : CanonicalEffectProposalV1) : res E CanonicalEffectV1 :=
  expect (head (pb_effects (cp_body p))).

Section Validation.
  Context `{Deps, BrokerTexts, ErrnoText, JcsErrorText, PointerTexts} {Fd : Type}.

Definition corrupt_effect {A} (m : res EffectError A) : res BrokerError A := map_err (fun e => BkCorrupt (effect_error_text e)) m.
Definition corrupt_pointer {A} (m : res ManagedPointerError A) : res BrokerError A := map_err (fun e => BkCorrupt (pointer_error_text e)) m.
Definition corrupt_jcs {A} (m : res JcsError A) : res BrokerError A := map_err (fun e => BkCorrupt (jcs_text e)) m.
Definition same_digest (m : res EffectError Digest) (d : Digest) : res BrokerError bool :=
  let? digest := map_err BkEffect m in Ok (digest == d).

(** The candidate of a promotion record, with its bindings to the canonical effect. *)
Definition candidate_bound (b : EffectBrokerV1 Fd) (body : CanonicalProposalBodyV1) (p : PromotionEffect) (count : nat)
    (c : PreparedManagedPointerCandidateV1) : res BrokerError bool :=
  let eb := ca_exact_basis c in
  let ci := ca_complete_inputs c in
  all_of [Ok (count =? 1);
    same_digest (candidate_identity c) (pp_prepared_candidate p);
    same_digest (basis_identity eb) (pp_exact_basis p);
    same_digest (inputs_identity ci (eb_object_format eb)) (pp_complete_inputs p);
    same_digest (receipt_identity (ca_preparation_receipt c)) (pp_candidate_preparation_receipt p);
    Ok ((eb_authority_domain eb == pb_authority_domain body) && (eb_epoch eb == pb_epoch body)
        && (eb_catalog_identity eb == pb_catalog_identity body)
        && (eb_security_profile_identity eb == pb_security_profile_identity body)
        && (ps_max_artifact_bytes (ca_preparation_standing c) =? bk_max_artifact_bytes b)%Z
        && (checked_mul_u64 (bk_max_artifact_bytes b) 2 == Some (ps_quarantine_budget_bytes (ca_preparation_standing c)))
        && (eb_target eb == pp_target p) && (eb_repository_identity eb == pp_repository_identity p)
        && (eb_prestate_identity eb == pp_prestate_identity p)
        && (eb_repository_device eb =? pp_repository_device p)%Z && (eb_repository_inode eb =? pp_repository_inode p)%Z
        && (eb_git_directory_device eb =? pp_git_directory_device p)%Z
        && (eb_git_directory_inode eb =? pp_git_directory_inode p)%Z
        && (eb_uid eb =? pp_uid p)%Z && (eb_gid eb =? pp_gid p)%Z && (eb_reference eb == pp_reference p)
        && (eb_current_object eb == pp_expected_object p) && (eb_current_tree eb == pp_expected_tree p)
        && (ci_artifact ci == pp_artifact p) && (ci_candidate_pack_digest ci == pp_candidate_pack_digest p)
        && (ci_candidate_object ci == pp_new_object p) && (ci_candidate_tree ci == pp_expected_post_tree p)
        && (ci_helper_executable ci == pp_helper_executable p)
        && (ci_helper_launch_profile ci == pp_helper_launch_profile p) && (ci_staging_root ci == pp_staging_root p))].
Definition promotion_candidate (b : EffectBrokerV1 Fd) (record : BrokerProposalRecordV1) (effect : CanonicalEffectV1)
    : res BrokerError (option PreparedManagedPointerCandidateV1) :=
  match effect with
  | EffManagedPointerPromotion p =>
      let? candidate := ok_or (BkCorrupt "managed-pointer record lacks exact prepared-candidate history")
                          (btree_get (target_str (pp_target p)) (rec_prepared_candidates record)) in
      let? bound := candidate_bound b (cp_body (rec_canonical record)) p (length (rec_prepared_candidates record)) candidate in
      require_record_invariant bound "managed-pointer prepared candidate differs from canonical effect bindings" ;?
      Ok (Some candidate)
  | _ =>
      require_record_invariant
        ((length (rec_prepared_candidates record) =? 0)
         && match rec_candidate_ratification record with None => true | Some _ => false end
         && (length (rec_promotion_refusals record) =? 0))
        "non-promotion record contains managed-pointer preparation authority residue" ;?
      Ok None
  end.

(** One refusal, and the loop over them. *)
Definition validate_refusal (canonical : CanonicalEffectProposalV1) (candidate : option PreparedManagedPointerCandidateV1)
    (refusal : ManagedPointerPromotionRefusalV1) : res BrokerError unit :=
  let? candidate := ok_or (BkCorrupt "promotion refusal is attached to a non-promotion proposal") candidate in
  corrupt_effect (refusal_identity refusal) ;?
  let? attempted := map_err BkJcs (from_serializable (rf_attempted_authorization refusal)) in
  corrupt_effect (verify_bindings (rf_candidate_ratification refusal) (cp_digest canonical) candidate attempted) ;?
  match rf_attempted_authorization refusal with
  | HumanExact _ ratifier _ _ =>
      let? admitted := ratifier_admitted (cp_body canonical) ratifier in
      require_record_invariant admitted "promotion refusal ratifier is outside or dependent on proposal context"
  | _ => Err (BkCorrupt "pre-burn promotion refusal contains a non-human authority path")
  end.
Fixpoint validate_refusals (canonical : CanonicalEffectProposalV1) (candidate : option PreparedManagedPointerCandidateV1)
    (l : list ManagedPointerPromotionRefusalV1) : res BrokerError unit :=
  match l with
  | [] => Ok tt
  | refusal :: rest => validate_refusal canonical candidate refusal ;? validate_refusals canonical candidate rest
  end.

Definition validate_authorization (canonical : CanonicalEffectProposalV1) (authorization : RatificationV1) : res BrokerError unit :=
  let body := cp_body canonical in
  require_record_invariant (ratification_proposal authorization == cp_digest canonical)
    "authorization references another canonical proposal" ;?
  match authorization with
  | HumanExact _ ratifier _ _ =>
      let? admitted := ratifier_admitted body ratifier in
      require_record_invariant admitted "exact ratifier is outside or dependent on the proposal authority context"
  | BoundedMandate _ _ actor =>
      require_record_invariant
        ((PrincipalV1_authority_domain actor == pb_authority_domain body) && (PrincipalV1_epoch actor == pb_epoch body))
        "mandate actor is outside the proposal authority context"
  | DerivedCodePromotion _ _ _ _ adapter =>
      let? admitted := ratifier_admitted body adapter in
      require_record_invariant admitted "derived adapter is outside or dependent on the proposal authority context"
  end.

(** The four pieces of promotion custody, together. *)
Definition validate_custody (canonical : CanonicalEffectProposalV1) (candidate : option PreparedManagedPointerCandidateV1)
    (authorization : option RatificationV1) (ratification : option ManagedPointerCandidateRatificationV1)
    (authorization_digest : option Digest) : res BrokerError unit :=
  match candidate, authorization, ratification, authorization_digest with
  | Some candidate, Some _, Some binding, Some digest =>
      corrupt_effect (verify_bindings binding (cp_digest canonical) candidate digest)
  | Some _, None, None, None | None, _, None, _ => Ok tt
  | _, _, _, _ => Err (BkCorrupt "candidate ratification does not match promotion authority custody")
  end.

Definition validate_activation (record : BrokerProposalRecordV1) (effect : CanonicalEffectV1)
    (candidate : option PreparedManagedPointerCandidateV1) (authorization_digest : option Digest)
    (activation : ManagedPointerActivationReceiptV1) : res BrokerError unit :=
  let? candidate := ok_or (BkCorrupt "activation explanation is attached to a non-promotion proposal") candidate in
  let? ratification := ok_or (BkCorrupt "activation explanation lacks candidate ratification custody")
                         (rec_candidate_ratification record) in
  let? authorization := ok_or (BkCorrupt "activation explanation lacks accepted authorization custody") authorization_digest in
  let? attempt := ok_or (BkCorrupt "activation explanation lacks one-shot attempt custody") (rec_execution_attempt record) in
  corrupt_pointer (activation_verify activation effect) ;?
  let execution := ar_execution activation in
  let? bound :=
    all_of [Ok ((xc_proposal execution == cp_digest (rec_canonical record)) && (xc_authorization execution == authorization)
                && (xc_attempt execution == attempt) && (xc_effect_index execution =? 0)%Z);
            same_digest (candidate_identity candidate) (ar_prepared_candidate activation);
            same_digest (ratification_identity ratification) (ar_candidate_ratification activation)] in
  require_record_invariant bound "activation explanation differs from proposal authority or candidate custody".

Definition is_some {A} (o : option A) : bool := match o with Some _ => true | None => false end.
Definition is_none {A} (o : option A) : bool := negb (is_some o).
Definition is_empty {A} (l : list A) : bool := length l =? 0.

(** Whether an uncertainty envelope is one of the two the broker computes for the
    attempt and its steps. *)
Definition envelope_bound (canonical : CanonicalEffectProposalV1) (attempt : Digest) (steps : list Digest) (envelope : Digest)
    : res BrokerError bool :=
  let? execution_envelope :=
    if is_empty steps then Ok None
    else let? d := composite_execution_receipt (cp_digest canonical) attempt steps TerminalIndeterminate in Ok (Some d) in
  let? restart_envelope := restart_reconciliation_envelope (cp_digest canonical) attempt steps in
  Ok ((execution_envelope == Some envelope) || (restart_envelope == envelope)).

Definition validate_succeeded (record : BrokerProposalRecordV1) (receipt : Digest) : res BrokerError unit :=
  let canonical := rec_canonical record in
  require_record_invariant
    (is_some (rec_authorization record) && is_some (rec_execution_attempt record)
     && (rec_terminal_receipt record == Some receipt)
     && (length (rec_step_receipts record) =? length (pb_effects (cp_body canonical)))
     && is_none (rec_reconciliation record)) "successful lifecycle does not bind its complete execution receipts" ;?
  let? attempt := ok_or (BkCorrupt "successful lifecycle is missing its attempt") (rec_execution_attempt record) in
  let? composite := composite_execution_receipt (cp_digest canonical) attempt (rec_step_receipts record) TerminalSucceeded in
  require_record_invariant (composite == receipt) "successful terminal receipt does not bind proposal, attempt, and steps".
Definition validate_failed (record : BrokerProposalRecordV1) (receipt : Digest) : res BrokerError unit :=
  require_record_invariant
    (is_some (rec_authorization record) && (rec_terminal_receipt record == Some receipt) && is_none (rec_reconciliation record))
    "failed lifecycle does not bind authority and terminal receipt" ;?
  require_record_invariant (is_some (rec_execution_attempt record) || is_empty (rec_step_receipts record))
    "abandoned pre-execution lifecycle contains step receipts" ;?
  match rec_execution_attempt record with
  | Some attempt =>
      require_record_invariant (negb (is_empty (rec_step_receipts record))) "attempted failure is missing its step receipt" ;?
      let? composite := composite_execution_receipt (cp_digest (rec_canonical record)) attempt (rec_step_receipts record) TerminalFailed in
      require_record_invariant (composite == receipt) "failed terminal receipt does not bind proposal, attempt, and steps"
  | None => Ok tt
  end.
Definition validate_uncertain (record : BrokerProposalRecordV1) (envelope : Digest) : res BrokerError unit :=
  require_record_invariant
    (is_some (rec_authorization record) && is_some (rec_execution_attempt record)
     && (rec_terminal_receipt record == Some envelope) && is_none (rec_reconciliation record))
    "indeterminate lifecycle does not bind authority, attempt, and envelope" ;?
  let? attempt := ok_or (BkCorrupt "indeterminate lifecycle is missing its attempt") (rec_execution_attempt record) in
  let? bound := envelope_bound (rec_canonical record) attempt (rec_step_receipts record) envelope in
  require_record_invariant bound "indeterminate envelope does not bind proposal, attempt, and steps".
Definition validate_reconciled (record : BrokerProposalRecordV1) (effect : CanonicalEffectV1) (receipt : Digest)
    : res BrokerError unit :=
  let canonical := rec_canonical record in
  let? reconciliation := ok_or (BkCorrupt "reconciled lifecycle is missing reconciliation custody") (rec_reconciliation record) in
  let evidence := rr_evidence reconciliation in
  let? digest := corrupt_effect (reconciliation_digest reconciliation) in
  require_record_invariant
    (is_some (rec_authorization record) && is_some (rec_execution_attempt record)
     && (rec_terminal_receipt record == Some receipt) && (digest == receipt)
     && (rr_schema reconciliation == RECONCILIATION_RECORD_SCHEMA_V1) && (re_schema evidence == RECONCILIATION_EVIDENCE_SCHEMA_V1)
     && (re_proposal evidence == cp_digest canonical) && (rec_execution_attempt record == Some (re_attempt evidence))
     && (rec_step_receipts record == re_step_receipts evidence))
    "reconciled lifecycle does not bind exact evidence and receipts" ;?
  let? admitted := ratifier_admitted (cp_body canonical) (rr_ratifier reconciliation) in
  require_record_invariant admitted "reconciliation ratifier is outside or dependent on the proposal context" ;?
  let observation := btree_get (target_str (effect_target effect)) (re_observed_poststate evidence) in
  require_record_invariant ((length (re_observed_poststate evidence) =? 1) && is_some observation)
    "reconciliation observation set does not match canonical targets" ;?
  let? observation := expect observation in
  let? classification := map_err (fun _ => BkCorrupt "reconciliation observation cannot prove its classification")
                           (classify_reconciliation effect observation) in
  require_record_invariant (classification == re_classification evidence)
    "reconciliation classification does not match observed state" ;?
  let? bound := envelope_bound canonical (re_attempt evidence) (rec_step_receipts record) (re_uncertainty_envelope evidence) in
  require_record_invariant bound "reconciliation uncertainty does not bind proposal, attempt, and steps".

(** The match on the lifecycle. *)
Definition validate_lifecycle (record : BrokerProposalRecordV1) (effect : CanonicalEffectV1) (authorization_digest : option Digest)
    : res BrokerError unit :=
  let proposal_digest := cp_digest (rec_canonical record) in
  match rec_state record with
  | Ready proposal =>
      require_record_invariant (proposal == proposal_digest) "ready lifecycle references another canonical proposal" ;?
      require_record_invariant
        (is_none (rec_authorization record) && is_none (rec_terminal_receipt record) && is_empty (rec_step_receipts record)
         && is_none (rec_execution_attempt record) && is_none (rec_reconciliation record))
        "ready lifecycle contains execution or authority residue"
  | AuthorizationBurned proposal authorization family =>
      require_record_invariant ((proposal == proposal_digest) && (authorization_digest == Some authorization))
        "burned lifecycle does not bind exact proposal authority" ;?
      require_record_invariant
        (is_none (rec_terminal_receipt record) && is_empty (rec_step_receipts record) && is_none (rec_execution_attempt record)
         && is_none (rec_reconciliation record)) "burned lifecycle contains execution residue" ;?
      require_record_invariant (effect_family effect == family) "burned lifecycle names another effect family"
  | Preparing proposal attempt =>
      require_record_invariant
        ((proposal == proposal_digest) && is_some (rec_authorization record) && (rec_execution_attempt record == Some attempt)
         && (effect_family effect == CodePromotion)) "preparing lifecycle does not bind one code-promotion attempt" ;?
      require_record_invariant
        (is_none (rec_terminal_receipt record) && is_empty (rec_step_receipts record) && is_none (rec_reconciliation record))
        "preparing lifecycle contains terminal execution residue"
  | Executing proposal attempt preparation_checkpoint =>
      require_record_invariant
        ((proposal == proposal_digest) && is_some (rec_authorization record) && (rec_execution_attempt record == Some attempt)
         && Bool.eqb (is_some preparation_checkpoint) (effect_family effect == CodePromotion))
        "executing lifecycle does not bind proposal, authority, and attempt" ;?
      require_record_invariant (is_none (rec_terminal_receipt record) && is_none (rec_reconciliation record))
        "executing lifecycle contains terminal residue"
  | Succeeded receipt => validate_succeeded record receipt
  | Failed receipt => validate_failed record receipt
  | ReconciliationRequired envelope => validate_uncertain record envelope
  | Reconciled receipt => validate_reconciled record effect receipt
  | Received | Refused _ | Indeterminate _ =>
      Err (BkCorrupt "canonical proposal has an impossible pre-compilation lifecycle")
  end.

(** The context the record must be in. *)
Definition validate_context (b : EffectBrokerV1 Fd) (requested : Digest) (record : BrokerProposalRecordV1) : res BrokerError unit :=
  let canonical := rec_canonical record in
  let body := cp_body canonical in
  corrupt_effect (verify_digest canonical) ;?
  require_record_invariant (rec_schema record == BROKER_PROPOSAL_RECORD_SCHEMA_V3)
    "proposal record lacks the v3 activation-explanation schema" ;?
  require_record_invariant (requested == cp_digest canonical) "proposal entity does not bind the canonical digest" ;?
  require_record_invariant (pb_schema body == EFFECT_SCHEMA_V1) "canonical proposal has an unexpected schema" ;?
  require_record_invariant ((pb_authority_domain body == bk_authority_domain b) && (pb_epoch body == bk_epoch b))
    "canonical proposal is outside the broker authority context" ;?
  require_record_invariant
    ((pb_catalog_schema body == EFFECT_CATALOG_SCHEMA_V1) && (pb_catalog_identity body == bk_catalog_identity b)
     && (pb_security_profile_identity body == bk_security_profile_identity b))
    "canonical proposal is outside the active catalog or security profile" ;?
  require_record_invariant (length (pb_effects body) =? 1) "canonical proposal does not contain exactly one effect" ;?
  require_record_invariant (length (rec_step_receipts record) <=? length (pb_effects body))
    "proposal has more step receipts than canonical effects".

Definition succeeded_state (s : ProposalStateV1) : bool := match s with Succeeded _ => true | _ => false end.
(** [validate_proposal_record]. *)
Definition validate_proposal_record (b : EffectBrokerV1 Fd) (requested : Digest) (record : BrokerProposalRecordV1)
    : res BrokerError unit :=
  let canonical := rec_canonical record in
  validate_context b requested record ;?
  let? effect := only_effect canonical in
  let? candidate := promotion_candidate b record effect in
  require_record_invariant (length (rec_promotion_refusals record) <=? 32)
    "proposal contains too many promotion-eligibility refusals" ;?
  validate_refusals canonical candidate (rec_promotion_refusals record) ;?
  let? authorization_digest :=
    match rec_authorization record with
    | Some authorization => let? d := corrupt_jcs (from_serializable authorization) in Ok (Some d)
    | None => Ok None
    end in
  match rec_authorization record with
  | Some authorization => validate_authorization canonical authorization
  | None => Ok tt
  end ;?
  validate_custody canonical candidate (rec_authorization record) (rec_candidate_ratification record) authorization_digest ;?
  require_record_invariant
    (Bool.eqb (is_some (rec_managed_pointer_activation record)) (is_some candidate && succeeded_state (rec_state record)))
    "managed-pointer activation explanation does not match terminal lifecycle" ;?
  match rec_managed_pointer_activation record with
  | Some activation => validate_activation record effect candidate authorization_digest activation
  | None => Ok tt
  end ;?
  validate_lifecycle record effect authorization_digest.
End Validation.

(** ** Catalog admission *)

Section Admission.
  Context {Fd : Type}.

Definition same_text (m : res BrokerError string) (s : string) : res BrokerError bool := let? t := m in Ok (s == t).
(** Whether a canonical effect is what the configured target admits. *)
Definition effect_admitted (compiled_at_unix_ms : Z) (effect : CanonicalEffectV1) (configured : EffectTargetConfigV1)
    : res BrokerError bool :=
  match effect, configured with
  | EffManagedPointerPromotion p, CfgManagedPointer c =>
      all_of [same_text (broker_utf8_path (pt_allowed_root c)) (pp_allowed_root p);
              same_text (repository_relative_path (pt_allowed_root c) (pt_repository c)) (pp_repository p);
              Ok ((pp_reference p == pt_reference c) && (pp_repository_identity p == pt_repository_identity c)
                  && (pp_uid p =? pt_uid c)%Z && (pp_gid p =? pt_gid c)%Z);
              same_text (broker_utf8_path (pt_staging_root c)) (pp_staging_root p);
              Ok ((checked_add_u64 compiled_at_unix_ms (pt_promotion_ttl_ms c) == Some (pp_expires_unix_ms p))
                  && (pp_helper_executable p == pt_helper_executable c)
                  && (pp_helper_launch_profile p == pt_helper_launch_profile c))]
  | EffManagedFilePut _ path _ _ mode uid gid, CfgManagedFile _ configured_path configured_mode configured_owner configured_group =>
      all_of [same_text (broker_utf8_path configured_path) path;
              Ok ((mode =? configured_mode)%Z && (uid =? configured_owner)%Z && (gid =? configured_group)%Z)]
  | EffManagedFileDelete _ path _, CfgManagedFile _ configured_path _ _ _ => same_text (broker_utf8_path configured_path) path
  | EffSystemdUnit _ unit action _ _, CfgSystemdUnit _ configured_unit allowed_actions =>
      Ok ((unit == configured_unit) && bool_decide (action ∈ allowed_actions))
  | EffSystemdManagerReload _ _ _, CfgSystemdManager _ => Ok true
  | _, _ => Ok false
  end.
Fixpoint effects_admitted (b : EffectBrokerV1 Fd) (compiled_at_unix_ms : Z) (effects : list CanonicalEffectV1) : res BrokerError unit :=
  match effects with
  | [] => Ok tt
  | effect :: rest =>
      let? configured := ok_or (BkObservation "canonical target is not catalogued")
                           (btree_get (target_str (effect_target effect)) (bk_targets b)) in
      let? admitted := effect_admitted compiled_at_unix_ms effect configured in
      reject_if (negb admitted) (BkObservation "canonical effect is not admitted by the active catalog") ;?
      effects_admitted b compiled_at_unix_ms rest
  end.
(** [validate_catalog_admission]. *)
Definition validate_catalog_admission (b : EffectBrokerV1 Fd) (proposal : CanonicalEffectProposalV1) : res BrokerError unit :=
  let body := cp_body proposal in
  reject_if ((pb_catalog_schema body != EFFECT_CATALOG_SCHEMA_V1) || (pb_catalog_identity body != bk_catalog_identity b)
             || (pb_security_profile_identity body != bk_security_profile_identity b))
    (BkObservation "canonical proposal catalog or security-profile identity is not active") ;?
  effects_admitted b (pb_compiled_at_unix_ms body) (pb_effects body).
End Admission.
