(* ===== verification/BrokerOps.v ===== *)
(** * The effect broker: handlers (ag-app/src/effectd.rs)

    The single writer of the effect store.  A handler is a function of the
    broker's state that returns the state it leaves and its answer.  The state
    holds the store, the replay guard, the display challenges, the activation of
    this process, the world behind the managed pointers and the runner, and a
    log of what the broker did that matters outside: records it made durable, and
    effects it started.

    Everything outside the process is a parameter: the host of the managed
    pointers, the runner, and [BrokerHost].  A store write may fail on I/O before
    it changes anything ([store_io]), so that every crash between two writes is
    one of the behaviours. *)

From S2P Require Import Prelude Wire Fixture Digest Names Origin Capability Identity Session Protocol Paths Store StoreBlob HostFiles RpcAuth Config Effect Compile Proposal Executor Pointer PointerText PointerGit PointerRuntime Activation Api Broker.

(** ** The state *)

Record ChallengeV1 : Type := mkDisplayChallenge {
  ch_value : string;
  ch_peer : Digest;
  ch_expires_unix_ms : Z
}.

(** What the broker did: a record made durable, an effect handed to the runner, a
    prepared promotion handed to the commit. *)
Inductive BrokerEvent : Type :=
  | PersistedRecord (record : BrokerProposalRecordV1)
  | RanEffect (proposal attempt : Digest)
  | CommittedPointer (proposal attempt : Digest).

Record BrokerState (X Fd : Type) : Type := mkBrokerState {
  bs_db : Database;
  bs_files : ObjectDir;
  bs_replay : RpcReplayGuardV1;
  bs_activation_ready : bool;
  bs_activation_receipt : option EffectdActivationReceiptV1;
  bs_activation_status : EffectdActivationStatusV1;
  bs_challenges : list (string * ChallengeV1);
  bs_world : PointerWorld X Fd;
  bs_log : list BrokerEvent
}.
Arguments mkBrokerState {X Fd} _ _ _ _ _ _ _ _ _.
Arguments bs_db {X Fd} _.
Arguments bs_files {X Fd} _.
Arguments bs_replay {X Fd} _.
Arguments bs_activation_ready {X Fd} _.
Arguments bs_activation_receipt {X Fd} _.
Arguments bs_activation_status {X Fd} _.
Arguments bs_challenges {X Fd} _.
Arguments bs_world {X Fd} _.
Arguments bs_log {X Fd} _.

Section Setters.
  Context {X Fd : Type}.
Definition set_store (db : Database) (files : ObjectDir) (s : BrokerState X Fd) : BrokerState X Fd :=
  mkBrokerState db files (bs_replay s) (bs_activation_ready s) (bs_activation_receipt s) (bs_activation_status s)
    (bs_challenges s) (bs_world s) (bs_log s).
Definition set_replay (g : RpcReplayGuardV1) (s : BrokerState X Fd) : BrokerState X Fd :=
  mkBrokerState (bs_db s) (bs_files s) g (bs_activation_ready s) (bs_activation_receipt s) (bs_activation_status s)
    (bs_challenges s) (bs_world s) (bs_log s).
Definition set_activation (ready : bool) (receipt : option EffectdActivationReceiptV1) (status : EffectdActivationStatusV1)
    (s : BrokerState X Fd) : BrokerState X Fd :=
  mkBrokerState (bs_db s) (bs_files s) (bs_replay s) ready receipt status (bs_challenges s) (bs_world s) (bs_log s).
Definition set_challenges (c : list (string * ChallengeV1)) (s : BrokerState X Fd) : BrokerState X Fd :=
  mkBrokerState (bs_db s) (bs_files s) (bs_replay s) (bs_activation_ready s) (bs_activation_receipt s)
    (bs_activation_status s) c (bs_world s) (bs_log s).
Definition set_world (w : PointerWorld X Fd) (s : BrokerState X Fd) : BrokerState X Fd :=
  mkBrokerState (bs_db s) (bs_files s) (bs_replay s) (bs_activation_ready s) (bs_activation_receipt s)
    (bs_activation_status s) (bs_challenges s) w (bs_log s).
Definition add_event (e : BrokerEvent) (s : BrokerState X Fd) : BrokerState X Fd :=
  mkBrokerState (bs_db s) (bs_files s) (bs_replay s) (bs_activation_ready s) (bs_activation_receipt s)
    (bs_activation_status s) (bs_challenges s) (bs_world s) (bs_log s ++ [e]).
End Setters.
(** [BTreeMap::remove]. *)
Definition btree_remove {V} (k : string) (m : list (string * V)) : list (string * V) :=
  List.filter (fun kv => kv.1 != k) m.

(** ** Parameters *)

(** [fs::read]; the I/O failure a write of the store meets, if any; whether the
    directory of a blob is ready. *)
Class BrokerHost (X : Type) := {
  fs_read : string -> X -> res IoError bytes;
  store_io : X -> X * option StoreError;
  blob_ready : X -> X * res StoreError unit
}.
(** [trait BrokerEffectRunnerV1]. *)
Class BrokerEffectRunnerV1 (X : Type) :=
  execute_once_with : ObjectDir -> Database -> Digest -> Digest -> Digest -> Z -> CanonicalEffectV1 -> X -> X * ExecutionReceiptV1.
(** [serde_json::from_slice] for the two stored types. *)
Class BrokerDecoders := {
  decode_proposal : bytes -> string + BrokerProposalRecordV1;
  decode_submission : bytes -> string + BrokerSubmissionRecordV1
}.
Class BrokerParameters (X : Type) := {
  bp_host :: BrokerHost X;
  bp_runner :: BrokerEffectRunnerV1 X;
  bp_decoders :: BrokerDecoders;
  bp_texts :: BrokerTexts;
  bp_base64 :: Base64Std
}.

Section Handlers.
  Context `{Deps, RpcDeps, ErrnoText, JcsErrorText, PointerTexts} {X Fd : Type} `{!PointerHost X Fd, !BrokerParameters X}.
  Context (b : EffectBrokerV1 Fd).

Definition BrokerM (A : Type) : Type := ST (BrokerState X Fd) BrokerError A.

(** A call on the world, on the replay guard, and a method of the store. *)
Definition on_world {E A} (m : ST (PointerWorld X Fd) E A) : ST (BrokerState X Fd) E A := fun s =>
  let (w, r) := m (bs_world s) in (set_world w s, r).
Definition pointer {A} (m : PointerM X Fd A) : BrokerM A := st_map_err BkManagedPointer (on_world m).
Definition host {A} (m : X -> X * A) : BrokerM A := on_world (ask m).
Definition lift {A} (m : res BrokerError A) : BrokerM A := pure m.
Definition reading {A} (f : BrokerState X Fd -> res BrokerError A) : BrokerM A := fun s => (s, f s).
Definition store_read {A} (f : Database -> res StoreError A) : BrokerM A := reading (fun s => map_err BkStore (f (bs_db s))).
Definition modify (f : BrokerState X Fd -> BrokerState X Fd) : BrokerM unit := fun s => (f s, Ok tt).
Definition store_write {A} (tx : Tx A) : BrokerM A :=
  let! failure := host store_io in
  match failure with
  | Some e => lift (Err (BkStore e))
  | None => fun s => let (db, r) := commit tx (bs_db s) in (set_store db (bs_files s) s, map_err BkStore r)
  end.
Definition note (e : BrokerEvent) : BrokerM unit := modify (add_event e).

(** [now_u64], [now_i64] and [Uuid::new_v4]. *)
Definition now_u64 : BrokerM Z :=
  let! elapsed := host sys_time in
  lift match elapsed with
       | None => Err (BkClock "second time provided was later than self")
       | Some ms => if (U64_MAX <? ms)%Z then Err (BkClock "clock overflow") else Ok ms
       end.
Definition now_i64 : BrokerM Z :=
  let! now := now_u64 in lift (if (I64_MAX <? now)%Z then Err (BkClock "clock overflow") else Ok now).
Definition new_uuid : BrokerM string := host sys_uuid.

(** ** Loading and persisting *)

Definition load_proposal_with_revision (proposal : Digest) : BrokerM (MaterializedStateV1 BrokerProposalRecordV1) :=
  let! loaded := store_read (fun db => materialized_state decode_proposal db (proposal_entity proposal)) in
  let! loaded := lift (ok_or BkNotFound loaded) in
  lift (validate_proposal_record b proposal (ms_state _ loaded)) ;!
  lift (Ok loaded).
Definition load_proposal (proposal : Digest) : BrokerM BrokerProposalRecordV1 :=
  let! loaded := load_proposal_with_revision proposal in lift (Ok (ms_state _ loaded)).
Definition load_proposal_entity_with_revision (entity : string) : BrokerM (MaterializedStateV1 BrokerProposalRecordV1) :=
  let! expected := lift (proposal_digest_from_entity entity) in
  let! loaded := store_read (fun db => materialized_state decode_proposal db entity) in
  let! loaded := lift (ok_or (BkCorrupt "listed proposal is missing") loaded) in
  lift (reject_if (ms_entity_id _ loaded != entity) (BkCorrupt "proposal materialization returned another entity")) ;!
  lift (validate_proposal_record b expected (ms_state _ loaded)) ;!
  lift (Ok loaded).

(** [persist_record]; the log gets the record once it is durable. *)
Definition persist_record `{Serialize T} (record : BrokerProposalRecordV1) (expected_revision : Z) (event_kind : string) (payload : T)
    : BrokerM Z :=
  lift (validate_proposal_record b (cp_digest (rec_canonical record)) record) ;!
  let! event_id := new_uuid in
  let! at_ms := now_i64 in
  let! receipt := store_write (append_event (mkNewEvent event_id (proposal_entity (cp_digest (rec_canonical record))) event_kind
                                               at_ms payload) record expected_revision) in
  note (PersistedRecord record) ;!
  lift (Ok (rc_entity_revision receipt)).
Definition persist_submission (record : BrokerSubmissionRecordV1) (event_kind : string) : BrokerM unit :=
  let! event_id := new_uuid in
  let! at_ms := now_i64 in
  store_write (append_event (mkNewEvent event_id (submission_entity (sub_source record)) event_kind at_ms (sub_source record))
                 record 0) ;!
  lift (Ok tt).
(** [persist_canonical_submission]. *)
Definition persist_canonical_submission (source : Digest) (governor : VerifiedRpcPrincipalV1) (proposer : PrincipalChainV1)
    (ingress_proof : GovernedProposalIngressV1) (canonical : CanonicalEffectProposalV1)
    (prepared_candidates : list (string * PreparedManagedPointerCandidateV1)) : BrokerM EffectProposalResponseV1 :=
  lift (map_err BkEffect (verify_digest canonical)) ;!
  let! state := lift (map_err BkEffect (proposal_apply Received (Compiled (cp_digest canonical)))) in
  let proposal_record :=
    mkProposalRecord BROKER_PROPOSAL_RECORD_SCHEMA_V3 canonical prepared_candidates None [] state None None [] None None None in
  lift (validate_proposal_record b (cp_digest canonical) proposal_record) ;!
  let proposal_id := pb_proposal_id (cp_body canonical) in
  let response := ResponseCanonicalized proposal_id (cp_digest canonical) in
  let submission := mkSubmission source governor proposer ingress_proof (EvaluationCanonicalized proposal_id (cp_digest canonical)) response in
  let! first_id := new_uuid in
  let! first_at := now_i64 in
  let! second_id := new_uuid in
  let! second_at := now_i64 in
  store_write (append_distinct_event_pair
    (mkNewEvent first_id (proposal_entity (cp_digest canonical)) "effect-proposal.canonicalized.v1" first_at canonical)
    proposal_record 0
    (mkNewEvent second_id (submission_entity source) "effect-submission.canonicalized.v1" second_at source) submission 0) ;!
  note (PersistedRecord proposal_record) ;!
  lift (Ok response).

(** ** Paging

    The loops over all proposals: pages of 512 identifiers after a cursor, an empty
    page ending the walk.  [inr] from the body is an early return.  The fuel is one
    more than the number of stored entities. *)
Definition PAGE : Z := 512.
Fixpoint each_entity {A R} (body : A -> string -> BrokerM (A + R)) (acc : A) (entities : list string) : BrokerM (A + R) :=
  match entities with
  | [] => lift (Ok (inl acc))
  | entity :: rest =>
      let! next := body acc entity in
      match next with inl acc => each_entity body acc rest | inr r => lift (Ok (inr r)) end
  end.
Fixpoint each_page {A R} (fuel : nat) (body : A -> string -> BrokerM (A + R)) (cursor : option string) (acc : A)
    : BrokerM (option (A + R)) :=
  match fuel with
  | O => lift (Ok None)
  | S fuel =>
      let! page := store_read (fun db => entity_ids_after db PROPOSAL_PREFIX cursor PAGE) in
      match page with
      | [] => lift (Ok (Some (inl acc)))
      | _ =>
          let! next := each_entity body acc page in
          match next with
          | inl acc => each_page fuel body (last page) acc
          | inr r => lift (Ok (Some (inr r)))
          end
      end
  end.
(** [Panic] would be a walk that does not end. *)
Definition each_proposal {A R} (body : A -> string -> BrokerM (A + R)) (acc : A) : BrokerM (A + R) :=
  let! s := get in
  let! walked := each_page (S (length (db_states (bs_db s)))) body None acc in
  lift (expect walked).

Definition validate_all_proposal_records : BrokerM unit :=
  each_proposal (R := unit) (fun _ entity => load_proposal_entity_with_revision entity ;! lift (Ok (inl tt))) tt ;!
  lift (Ok tt).

(** ** Activation *)

Definition is_promotion (e : CanonicalEffectV1) : bool := match e with EffManagedPointerPromotion _ => true | _ => false end.
(** The promotions of the store with the sequence of their last event. *)
Definition promotion_history : BrokerM (list (Z * BrokerProposalRecordV1)) :=
  let! walked := each_proposal (R := Empty_set) (fun history entity =>
    let! loaded := load_proposal_entity_with_revision entity in
    let! effect := lift (only_effect (rec_canonical (ms_state _ loaded))) in
    lift (Ok (inl (if is_promotion effect then history ++ [(ms_last_event_sequence _ loaded, ms_state _ loaded)] else history)))) [] in
  lift (Ok match walked with inl history => history | inr r => match r with end end).
(** [history.sort_by_key(|(sequence, _)| *sequence)], which is stable. *)
Fixpoint insert_by_sequence (x : Z * BrokerProposalRecordV1) (l : list (Z * BrokerProposalRecordV1)) : list (Z * BrokerProposalRecordV1) :=
  match l with
  | [] => [x]
  | y :: rest => if (x.1 <? y.1)%Z then x :: l else y :: insert_by_sequence x rest
  end.
Definition sort_by_sequence (l : list (Z * BrokerProposalRecordV1)) : list (Z * BrokerProposalRecordV1) :=
  fold_left (fun acc x => insert_by_sequence x acc) l [].
Definition requires_current_prestate (s : ProposalStateV1) : bool :=
  match s with
  | Succeeded _ | Reconciled _ | AuthorizationBurned _ _ _ | Preparing _ _ | Executing _ _ _ | ReconciliationRequired _ => true
  | _ => false
  end.
(** What one promotion of the history does to the head of its target. *)
Definition advance_head (current : ManagedPointerActivationHeadV1) (effect : CanonicalEffectV1) (p : PromotionEffect)
    (record : BrokerProposalRecordV1) : res BrokerError ManagedPointerActivationHeadV1 :=
  match rec_state record with
  | Succeeded _ =>
      let? activation := ok_or (BkCorrupt "successful managed-pointer history lacks activation custody")
                           (rec_managed_pointer_activation record) in
      map_err BkManagedPointer (activation_verify activation effect) ;?
      let? identity := map_err BkManagedPointer (state_identity (ve_state (ar_poststate activation))) in
      Ok (mkActivationHead (pp_new_object p) (pp_expected_post_tree p) identity)
  | ReconciliationRequired _ | AuthorizationBurned _ _ _ | Preparing _ _ | Executing _ _ _ =>
      Err (BkActivationEvidence "managed-pointer activation history contains an unresolved attempt")
  | Reconciled _ =>
      let? reconciliation := ok_or (BkCorrupt "reconciled promotion lacks exact custody") (rec_reconciliation record) in
      match re_classification (rr_evidence reconciliation) with
      | Applied =>
          Err (BkActivationEvidence "applied managed-pointer reconciliation lacks an exact durability-confirmation receipt")
      | NotApplied =>
          let? observation := ok_or (BkCorrupt "managed-pointer reconciliation lacks its target observation")
                                (btree_get (target_str (pp_target p)) (re_observed_poststate (rr_evidence reconciliation))) in
          match observation with
          | ObsManagedPointer o =>
              reject_if ((po_current_object o != ah_object current) || (po_current_tree o != ah_tree current)
                         || (po_prestate_identity o != ah_state_identity current))
                (BkActivationEvidence "not-applied reconciliation does not preserve the exact governed head") ;?
              Ok current
          | _ => Err (BkCorrupt "managed-pointer reconciliation has foreign observation family")
          end
      | Foreign => Err (BkActivationEvidence "managed-pointer activation history ends in foreign state")
      end
  | Ready _ | Failed _ | Received | Refused _ | Indeterminate _ => Ok current
  end.
Fixpoint replay_history (heads : list (string * ManagedPointerActivationHeadV1)) (history : list (Z * BrokerProposalRecordV1))
    : res BrokerError (list (string * ManagedPointerActivationHeadV1)) :=
  match history with
  | [] => Ok heads
  | (_, record) :: rest =>
      let? effect := only_effect (rec_canonical record) in
      match effect with
      | EffManagedPointerPromotion p =>
          let? current := ok_or (BkCorrupt "managed-pointer history names a target without activation genesis")
                            (btree_get (target_str (pp_target p)) heads) in
          reject_if (requires_current_prestate (rec_state record)
                     && ((ah_object current != pp_expected_object p) || (ah_tree current != pp_expected_tree p)
                         || (ah_state_identity current != pp_prestate_identity p)))
            (BkActivationEvidence "managed-pointer activation history is not an exact predecessor chain") ;?
          let? next := advance_head current effect p record in
          replay_history (btree_insert (target_str (pp_target p)) next heads) rest
      | _ => Err (BkCorrupt "managed-pointer history contains another effect family")
      end
  end.
Definition reconstruct_managed_pointer_activation_heads : BrokerM (list (string * ManagedPointerActivationHeadV1)) :=
  let! history := promotion_history in
  lift (replay_history (activation_geneses (bk_pointer_runtime b)) (sort_by_sequence history)).
Definition evidence {A} (m : PointerM X Fd A) : BrokerM A := st_map_err (fun e => BkActivationEvidence (pointer_error_text e)) (on_world m).
Fixpoint validate_live_managed_pointer_heads (expected : list (string * ManagedPointerActivationHeadV1)) : BrokerM unit :=
  match expected with
  | [] => lift (Ok tt)
  | (target, head) :: rest =>
      evidence (require_activation_state (bk_pointer_runtime b) (mkTargetId target) head) ;!
      validate_live_managed_pointer_heads rest
  end.
Definition validate_current_managed_pointer_activations : BrokerM (list (string * ManagedPointerActivationHeadV1)) :=
  let! heads := reconstruct_managed_pointer_activation_heads in
  validate_live_managed_pointer_heads heads ;!
  lift (Ok heads).

(** [apply_live_activation]; [enrolled] is [Store::activation]. *)
Definition apply_live_activation (enrolled : option StoreActivationRecordV1) (config : EffectdConfigV1) (activation : EffectdLiveActivationV1)
    : BrokerM unit :=
  lift (map_err (fun e => BkActivationEvidence (activation_error_text e)) (verify_for activation config (bk_catalog_identity b) enrolled)) ;!
  let! target_readiness := evidence (production_readiness (bk_pointer_runtime b)) in
  lift (reject_if (lr_target_readiness (lv_receipt activation) != target_readiness)
          (BkActivationEvidence "managed-pointer target state changed during activation")) ;!
  validate_current_managed_pointer_activations ;!
  let receipt := lv_receipt activation in
  modify (set_activation true (Some receipt) (StatusReady EFFECTD_ACTIVATION_STATUS_SCHEMA_V1 receipt)).
Definition record_activation_failure (phase code detail : string) : BrokerM unit :=
  modify (set_activation false None (StatusNotReady EFFECTD_ACTIVATION_STATUS_SCHEMA_V1 (bounded_activation_text phase)
                                       (bounded_activation_text code) (bounded_activation_text detail))).
(** [require_authority_activation]. *)
Definition require_authority_activation : BrokerM (list (string * ManagedPointerActivationHeadV1)) :=
  let! s := get in
  if bs_activation_ready s || bk_development_authority_bypass b then
    (if bs_activation_ready s then
       let! receipt := lift (ok_or (BkActivationEvidence "live activation flag lacks its process receipt") (bs_activation_receipt s)) in
       let! static_readiness := evidence (production_readiness (bk_pointer_runtime b)) in
       lift (reject_if (static_readiness != lr_target_readiness receipt)
               (BkActivationEvidence "static helper, staging, or repository custody changed after activation"))
     else lift (Ok tt)) ;!
    validate_current_managed_pointer_activations
  else lift (Err BkActivationNotReady).
Definition current_activation_status : BrokerM EffectdActivationStatusV1 :=
  let! s := get in
  if negb (bs_activation_ready s) then lift (Ok (bs_activation_status s))
  else st_try require_authority_activation (fun r =>
    lift (Ok match r with
             | Err e => StatusNotReady EFFECTD_ACTIVATION_STATUS_SCHEMA_V1 "runtime_revalidation" "activation_evidence_mismatch"
                          (bounded_activation_text (broker_error_text e))
             | _ => bs_activation_status s
             end)).
Definition is_ready (s : EffectdActivationStatusV1) : bool := match s with StatusReady _ _ => true | _ => false end.
Definition quiesced (s : BrokerState X Fd) : bool := is_some (active_backup_cut (bs_db s)).
Definition health_for_activation (activation : EffectdActivationStatusV1) : BrokerM HealthV1 :=
  let! s := get in
  lift (Ok (mkHealth "ag.health/v1" "ag-effectd" package_version (is_ready activation) (quiesced s))).
Definition health : BrokerM HealthV1 :=
  let! activation := current_activation_status in health_for_activation activation.

(** ** Counting *)

Definition expired_promotion (observed_at : Z) (record : BrokerProposalRecordV1) : bool :=
  match pb_effects (cp_body (rec_canonical record)) with
  | EffManagedPointerPromotion p :: _ => (pp_expires_unix_ms p <=? observed_at)%Z
  | _ => false
  end.
Definition ready_state (s : ProposalStateV1) : bool := match s with Ready _ => true | _ => false end.
Definition ready_proposal_count : BrokerM Z :=
  let! observed_at := now_u64 in
  let! counted := each_proposal (R := Z) (fun count entity =>
    let! loaded := load_proposal_entity_with_revision entity in
    let record := ms_state _ loaded in
    if ready_state (rec_state record) && negb (expired_promotion observed_at record) then
      let count := (count + 1)%Z in
      lift (Ok (if (bk_max_ready_proposals b <=? count)%Z then inr count else inl count))
    else lift (Ok (inl count))) 0%Z in
  lift (Ok match counted with inl count | inr count => count end).

(** ** Observation *)

Definition HARD_OBSERVATION_MAXIMUM : Z := 64 * 1024 * 1024.
Definition broker_sys {A} (m : ST X Errno A) : BrokerM A := st_map_err (fun e => BkIo (Os e)) (on_world (on_host m)).
(** [observe_file] after the file is open. *)
Definition observe_open_file (file : Fd) (configured_maximum : Z) : BrokerM TargetObservationV1 :=
  let! before := broker_sys (sys_fstat file) in
  if negb (is_file (st_mode before)) || negb (st_nlink before =? 1)%Z then lift (Ok (ObsManagedFile None false))
  else
    let length_ := st_size before in
    lift (reject_if (length_ <? 0)%Z (BkObservation "managed file has a negative size")) ;!
    let maximum := Z.min configured_maximum HARD_OBSERVATION_MAXIMUM in
    lift (reject_if (maximum <? length_)%Z (BkObservation "managed file exceeds the bounded observation size")) ;!
    let! content := st_map_err BkIo (on_world (on_host (sys_read_to_end file (saturating_add_u64 maximum 1)))) in
    let! after := broker_sys (sys_fstat file) in
    let size := Z.of_nat (length content) in
    lift (reject_if (negb (size =? length_)%Z || (maximum <? size)%Z || negb (same_file before after))
            (BkObservation "managed file changed during exact descriptor observation")) ;!
    lift (Ok (ObsManagedFile (Some (hash_bytes content)) true)).
Definition observe_file (path : string) (configured_maximum : Z) : BrokerM TargetObservationV1 :=
  let! relative := lift (ok_or (BkObservation "managed path is not absolute") (path_strip_prefix path "/")) in
  let! root := broker_sys sys_open_root in
  st_try (on_world (on_host (open_under root relative open_regular_nonblock))) (fun opened =>
    match opened with
    | Ok file => observe_open_file file configured_maximum
    | Err NOENT => lift (Ok (ObsManagedFile None true))
    | Err e => lift (Err (BkIo (Os e)))
    | Panic => lift Panic
    end).
Definition observe_canonical_effect (effect : CanonicalEffectV1) : BrokerM TargetObservationV1 :=
  match effect with
  | EffManagedFilePut _ path _ _ _ _ _ | EffManagedFileDelete _ path _ => observe_file path (bk_max_artifact_bytes b)
  | EffManagedPointerPromotion _ => pointer (observe_canonical (bk_pointer_runtime b) effect)
  | EffSystemdUnit _ _ _ _ _ | EffSystemdManagerReload _ _ _ =>
      lift (Err (BkObservation "reconciliation observer is unavailable for this target family"))
  end.
Fixpoint observe_effects (observations : list (string * TargetObservationV1)) (effects : list CanonicalEffectV1)
    : BrokerM (list (string * TargetObservationV1)) :=
  match effects with
  | [] => lift (Ok observations)
  | effect :: rest =>
      let target := target_str (effect_target effect) in
      let! observation := observe_canonical_effect effect in
      lift (reject_if (is_some (btree_get target observations))
              (BkCorrupt "canonical proposal contains a repeated reconciliation target")) ;!
      observe_effects (btree_insert target observation observations) rest
  end.
Definition observe_canonical_proposal (proposal : CanonicalEffectProposalV1) : BrokerM (list (string * TargetObservationV1)) :=
  lift (corrupt_effect (verify_digest proposal)) ;!
  lift (validate_catalog_admission b proposal) ;!
  observe_effects [] (pb_effects (cp_body proposal)).

(** ** Preparation of an intent *)

Record BrokerPreparedIntentV1 : Type := mkPreparedIntent {
  bi_observations : list (string * TargetObservationV1);
  bi_prepared_candidates : list (string * PreparedManagedPointerCandidateV1)
}.
(** One effect of the intent; the store is only read. *)
Definition prepare_effect (prepared : BrokerPreparedIntentV1) (effect : EffectIntentV1) : BrokerM BrokerPreparedIntentV1 :=
  let target := intent_target effect in
  let key := target_str target in
  if is_some (btree_get key (bi_observations prepared)) then lift (Ok prepared)
  else
    let! configured := lift (ok_or (BkObservation "target not catalogued") (btree_get key (bk_targets b))) in
    match configured with
    | CfgManagedFile _ path _ _ _ =>
        let! observation := observe_file path (bk_max_artifact_bytes b) in
        lift (Ok (mkPreparedIntent (btree_insert key observation (bi_observations prepared)) (bi_prepared_candidates prepared)))
    | CfgManagedPointer _ =>
        match effect with
        | IntentManagedPointerPromotion _ artifact =>
            let! now_unix_ms := now_u64 in
            let! standing := pointer (preparation_standing (bk_pointer_runtime b) target
                               (mkStandingContext (bk_authority_domain b) (bk_epoch b) (bk_catalog_identity b)
                                  (bk_security_profile_identity b) (bk_max_artifact_bytes b) now_unix_ms)) in
            let! s := get in
            let! candidate := pointer (prepare_candidate_from_store (bk_pointer_runtime b) (Some standing) (bs_files s) (bs_db s)
                                artifact now_unix_ms) in
            lift (reject_if (is_some (btree_get key (bi_prepared_candidates prepared)))
                    (BkObservation "managed-pointer preparation repeated a target")) ;!
            lift (Ok (mkPreparedIntent (btree_insert key (pob_observation candidate) (bi_observations prepared))
                        (btree_insert key (pob_candidate candidate) (bi_prepared_candidates prepared))))
        | _ => lift (Err (BkObservation "managed-pointer catalog entry received another effect family"))
        end
    | CfgSystemdUnit _ _ _ | CfgSystemdManager _ => lift (Err (BkObservation "typed systemd D-Bus observer is not installed"))
    end.
Fixpoint prepare_effects (prepared : BrokerPreparedIntentV1) (effects : list EffectIntentV1) : BrokerM BrokerPreparedIntentV1 :=
  match effects with
  | [] => lift (Ok prepared)
  | effect :: rest => let! prepared := prepare_effect prepared effect in prepare_effects prepared rest
  end.
Definition prepare_intent (intent : ProposalIntentV1) : BrokerM BrokerPreparedIntentV1 :=
  prepare_effects (mkPreparedIntent [] []) (in_effects intent).

(** ** Artifacts *)

Definition install_blob_bytes (digest : Digest) (byte_length : Z) (content : bytes) : BrokerM unit :=
  let! at_ms := now_i64 in
  let! ready := host blob_ready in
  (fun s => match install_blob ready (mkBlobDescriptor digest byte_length) [Chunk content] at_ms (bs_db s) (bs_files s) with
            | (db, files, r) => (set_store db files s, map_err BkStore r)
            end) ;!
  lift (Ok tt).
(** The loop over the transferred artifacts: the digests observed. *)
Fixpoint install_transfers (observed : list Digest) (artifacts : list ArtifactTransferV1) : BrokerM (list Digest) :=
  match artifacts with
  | [] => lift (Ok observed)
  | transfer :: rest =>
      lift (reject_if (bool_decide (at_digest transfer ∈ observed) || (bk_max_artifact_bytes b <? at_byte_length transfer)%Z)
              BkArtifactTransferMismatch) ;!
      let! content := lift (ok_or BkArtifactTransferMismatch (b64_decode (at_content_base64 transfer))) in
      lift (reject_if ((b64_encode content != at_content_base64 transfer)
                       || negb (Z.of_nat (length content) =? at_byte_length transfer)%Z
                       || (hash_bytes content != at_digest transfer)) BkArtifactTransferMismatch) ;!
      install_blob_bytes (at_digest transfer) (at_byte_length transfer) content ;!
      install_transfers (observed ++ [at_digest transfer]) rest
  end.
(** A [BTreeSet<Digest>]: the digests in order of their text. *)
Definition digest_set (l : list Digest) : list string := sort_dedup (map digest_str l).
Definition install_governed_artifacts (intent : ProposalIntentV1) (ingress : GovernedProposalIngressV1)
    (artifacts : list ArtifactTransferV1) : BrokerM unit :=
  match ingress with
  | WorkerCandidate _ source =>
      lift (reject_if (negb (is_empty artifacts)) BkArtifactTransferMismatch) ;!
      match rq_body (sr_request (wi_signed_request (ws_ingress_proof source))) with
      | SubmitCandidate _ _ content =>
          let digest := hash_bytes (opaque_bytes content) in
          lift (reject_if ((bk_max_artifact_bytes b <? opaque_len content)%Z || (in_admitted_artifacts intent != [digest]))
                  BkArtifactTransferMismatch) ;!
          install_blob_bytes digest (opaque_len content) (opaque_bytes content)
      end
  | ExternalSigned _ =>
      let! observed := install_transfers [] artifacts in
      lift (reject_if (digest_set observed != map digest_str (in_admitted_artifacts intent)) BkArtifactTransferMismatch)
  end.

(** ** Authenticated sources *)

Definition rpc {A} (m : res RpcAuthError A) : res BrokerError A := map_err BkRpcAuthentication m.
Definition digest_of `{Serialize T} (x : T) : res BrokerError Digest := map_err BkJcs (from_serializable x).
Definition chain_of (peer : VerifiedRpcPrincipalV1) (policy : PeerPolicyV1) : res BrokerError PrincipalChainV1 :=
  map_err BkPeer (signed_principal_chain peer policy (bk_authority_domain b) (bk_epoch b)).
(** The statically enrolled proposer's exchange with the governor. *)
Definition verify_external_bindings (proof : ProposalIngressProofV1) (governor : VerifiedRpcPrincipalV1)
    (governor_chain : PrincipalChainV1) : res BrokerError (ProposalIntentV1 * PrincipalChainV1 * Digest) :=
  let? governor_enrollment := rpc (rpc_enrollment (bk_agd_policy b)) in
  let? proposer_enrollment := rpc (rpc_enrollment (bk_proposer_policy b)) in
  let? verified_proposer := rpc (verify_forwarded_bindings (ig_server_challenge proof) (ig_signed_request proof)
                                   governor_enrollment proposer_enrollment) in
  let? authenticated_proposer := chain_of verified_proposer (bk_proposer_policy b) in
  match rq_body (sr_request (ig_signed_request proof)) with
  | SubmitProposal intent =>
      reject_if (in_proposer intent != authenticated_proposer) BkProposerProofMismatch ;?
      let? intent_digest := digest_of intent in
      let? source := digest_of (VArray [VString "ag.effect.authenticated-submission-key/v1"; to_value (bk_authority_domain b);
        to_value (bk_epoch b); to_value governor; to_value governor_chain; to_value verified_proposer;
        to_value authenticated_proposer; to_value intent_digest]) in
      Ok (intent, authenticated_proposer, source)
  | _ => Err BkProposerProofMismatch
  end.
(** [verify_worker_candidate_bindings]. *)
Definition verify_worker_candidate_bindings (intent : ProposalIntentV1) (source : WorkerCandidateSourceProofV1)
    (governor : VerifiedRpcPrincipalV1) (governor_chain : PrincipalChainV1)
    : res BrokerError (ProposalIntentV1 * PrincipalChainV1 * Digest) :=
  let proof := ws_ingress_proof source in
  let worker := ws_worker source in
  let? worker_id := PrincipalV1_id (WorkerSession worker) in
  let worker_digest := principal_digest worker_id in
  reject_if ((wi_governor_enrollment proof != py_rpc_key (bk_agd_policy b))
             || (kp_principal (wi_worker_enrollment proof) != worker_digest)) BkWorkerSourceProofMismatch ;?
  let? key_identity := rpc (candidate_ingress_key_identity (wi_worker_enrollment proof)) in
  reject_if (wp_candidate_ingress_key_identity worker != key_identity) BkWorkerSourceProofMismatch ;?
  let? worker_enrollment := rpc (RpcPeerEnrollmentV1_new worker_digest (wi_worker_enrollment proof)) in
  let? governor_enrollment := rpc (RpcPeerEnrollmentV1_new (kp_principal (wi_governor_enrollment proof)) (wi_governor_enrollment proof)) in
  let? verified_worker := rpc (verify_forwarded_bindings (wi_server_challenge proof) (wi_signed_request proof)
                                 governor_enrollment worker_enrollment) in
  reject_if (vp_principal verified_worker != worker_digest) BkWorkerSourceProofMismatch ;?
  let governor_nodes := pc_nodes governor_chain in
  let worker_nodes := pc_nodes (ws_worker_chain source) in
  let? worker_leaf := ok_or BkWorkerSourceProofMismatch (last worker_nodes) in
  reject_if ((pc_authority_domain (ws_worker_chain source) != bk_authority_domain b)
             || (pc_epoch (ws_worker_chain source) != bk_epoch b)
             || negb (length worker_nodes =? S (length governor_nodes))
             || (take (length governor_nodes) worker_nodes != governor_nodes)) BkWorkerSourceProofMismatch ;?
  let? governor_leaf := chain_leaf governor_chain in
  reject_if ((worker_leaf != node_child worker_id KWorkerSession (pn_principal_id governor_leaf))
             || (wp_launcher worker != pn_principal_id governor_leaf)) BkWorkerSourceProofMismatch ;?
  reject_if ((wp_authority_domain worker != bk_authority_domain b) || (wp_epoch worker != bk_epoch b)
             || (wp_proposal_workspace_identity worker != ws_workspace_identity source)
             || (wp_output_budget_bytes worker =? 0)%Z
             || (wp_expires_at_unix_ms worker <=? ws_accepted_at_unix_ms source)%Z
             || (in_proposer intent != ws_worker_chain source)) BkWorkerSourceBindingMismatch ;?
  match rq_body (sr_request (wi_signed_request proof)) with
  | SubmitCandidate candidate_nonce semantic_type content =>
      let byte_length := opaque_len content in
      let content_digest := hash_bytes (opaque_bytes content) in
      let? ingress_proof := map_err BkJcs (worker_candidate_ingress_proof_digest proof) in
      let? custody := map_err BkSession (WorkerCandidateCustodyV1_new content_digest byte_length semantic_type None ingress_proof) in
      reject_if ((candidate_nonce != wp_session_nonce worker) || (wp_output_budget_bytes worker <? byte_length)%Z
                 || (wc_custody_record custody != ws_candidate_custody source)
                 || (in_admitted_artifacts intent != [content_digest])) BkWorkerCandidateMismatch ;?
      let? source_digest := digest_of (VArray [VString "ag.effect.worker-session-one-shot-submission-key/v1";
        to_value (bk_authority_domain b); to_value (bk_epoch b); to_value governor; to_value governor_chain;
        to_value verified_worker; to_value worker; to_value (ws_worker_chain source)]) in
      Ok (intent, ws_worker_chain source, source_digest)
  end.
Definition verify_governed_ingress_bindings (ingress : GovernedProposalIngressV1) (governor : VerifiedRpcPrincipalV1)
    (governor_chain : PrincipalChainV1) : res BrokerError (ProposalIntentV1 * PrincipalChainV1 * Digest) :=
  match ingress with
  | ExternalSigned proof => verify_external_bindings proof governor governor_chain
  | WorkerCandidate intent source => verify_worker_candidate_bindings intent source governor governor_chain
  end.

(** A call of the replay guard. *)
Definition on_replay (f : RpcReplayGuardV1 -> RpcReplayGuardV1 * res RpcAuthError unit) : BrokerM unit := fun s =>
  let (g, r) := f (bs_replay s) in (set_replay g s, rpc r).
Definition record_governed_ingress_freshness (ingress : GovernedProposalIngressV1) : BrokerM unit :=
  let! governor_enrollment := lift (rpc (rpc_enrollment (bk_agd_policy b))) in
  match ingress with
  | ExternalSigned proof =>
      let! proposer_enrollment := lift (rpc (rpc_enrollment (bk_proposer_policy b))) in
      let! now := now_u64 in
      on_replay (fun g => record_forwarded_freshness (ig_server_challenge proof) (ig_signed_request proof)
                            governor_enrollment proposer_enrollment g now)
  | WorkerCandidate _ source =>
      let proof := ws_ingress_proof source in
      lift (reject_if (wi_governor_enrollment proof != py_rpc_key (bk_agd_policy b)) BkWorkerSourceProofMismatch) ;!
      let! governor_enrollment := lift (rpc (RpcPeerEnrollmentV1_new (kp_principal (wi_governor_enrollment proof))
                                               (wi_governor_enrollment proof))) in
      let! worker_id := lift (PrincipalV1_id (WorkerSession (ws_worker source))) in
      let! worker_enrollment := lift (rpc (RpcPeerEnrollmentV1_new (principal_digest worker_id) (wi_worker_enrollment proof))) in
      on_replay (fun g => record_forwarded_freshness (wi_server_challenge proof) (wi_signed_request proof)
                            governor_enrollment worker_enrollment g (ws_accepted_at_unix_ms source))
  end.

(** ** Submission *)

Definition is_worker_candidate (ingress : GovernedProposalIngressV1) : bool :=
  match ingress with WorkerCandidate _ _ => true | ExternalSigned _ => false end.
Definition refuse_quiesced : BrokerM unit := reading (fun s => reject_if (quiesced s) BkQuiesced).
(** A source that already has its durable outcome. *)
Definition existing_submission (ingress : GovernedProposalIngressV1) (governor : VerifiedRpcPrincipalV1) (proposer : PrincipalChainV1)
    (source : Digest) (existing : BrokerSubmissionRecordV1) : BrokerM EffectProposalResponseV1 :=
  lift (reject_if ((sub_source existing != source) || (sub_governor existing != governor) || (sub_proposer existing != proposer)
                   || negb (matches_response (sub_evaluation existing) (sub_response existing)))
          (BkCorrupt "submission index does not bind its authenticated source")) ;!
  match sub_response existing with
  | ResponseCanonicalized proposal_id proposal_digest =>
      let! proposal := load_proposal proposal_digest in
      lift (reject_if (pb_proposal_id (cp_body (rec_canonical proposal)) != proposal_id)
              (BkCorrupt "submission index references another canonical proposal"))
  | _ => lift (Ok tt)
  end ;!
  (if sub_ingress_proof existing != ingress then
     lift (reject_if (is_worker_candidate ingress) BkWorkerSourceProofMismatch) ;!
     record_governed_ingress_freshness ingress
   else lift (Ok tt)) ;!
  lift (Ok (sub_response existing)).
(** The outcome that is stored when no canonical proposal was compiled. *)
Definition persist_evaluation (source : Digest) (governor : VerifiedRpcPrincipalV1) (proposer : PrincipalChainV1)
    (ingress : GovernedProposalIngressV1) (evaluation : BrokerEvaluationEvidenceV1)
    (response : Digest -> EffectProposalResponseV1) (event_kind : string) : BrokerM EffectProposalResponseV1 :=
  let! digest := lift (evaluation_digest evaluation) in
  persist_submission (mkSubmission source governor proposer ingress evaluation (response digest)) event_kind ;!
  lift (Ok (response digest)).
Definition observation_failure_code (e : BrokerError) : BrokerEvaluationFailureCodeV1 :=
  match e with BkIo _ => ObservationIo | _ => ObservationUnavailable end.
Definition compiler_failure_code : BrokerEvaluationFailureCodeV1 := CompilationUnavailable.
(** What follows the checks of a new submission. *)
Definition evaluate_intent (intent : ProposalIntentV1) (proposer : PrincipalChainV1) (source : Digest)
    (governor : VerifiedRpcPrincipalV1) (ingress : GovernedProposalIngressV1) : BrokerM EffectProposalResponseV1 :=
  let proposal_id := stable_proposal_id source in
  st_try (prepare_intent intent) (fun prepared =>
    match prepared with
    | Ok preparation =>
        let! compiled_at := now_u64 in
        match compile (bk_compiler b) proposal_id intent proposer source
                (mkCut compiled_at (bi_observations preparation) (bi_prepared_candidates preparation)) with
        | Ok canonical =>
            persist_canonical_submission source governor proposer ingress canonical (bi_prepared_candidates preparation)
        | Err error =>
            if is_semantic_compilation_refusal error then
              persist_evaluation source governor proposer ingress (EvaluationRefused proposal_id error) ResponseRefused
                (compiler_evaluation_event_kind true)
            else
              persist_evaluation source governor proposer ingress
                (EvaluationIndeterminate proposal_id CanonicalCompilation compiler_failure_code (effect_error_text error) (Some error))
                ResponseIndeterminate (compiler_evaluation_event_kind false)
        | Panic => lift Panic
        end
    | Err error =>
        persist_evaluation source governor proposer ingress
          (EvaluationIndeterminate proposal_id TargetObservation (observation_failure_code error) (broker_error_text error) None)
          ResponseIndeterminate "effect-evaluation.indeterminate.v1"
    | Panic => lift Panic
    end).
(** [submit_authenticated_intent]. *)
Definition submit_authenticated_intent (ingress : GovernedProposalIngressV1) (artifacts : list ArtifactTransferV1)
    (governor : VerifiedRpcPrincipalV1) (governor_chain : PrincipalChainV1) : BrokerM EffectProposalResponseV1 :=
  refuse_quiesced ;!
  lift (reject_if (is_worker_candidate ingress && negb (is_empty artifacts)) BkArtifactTransferMismatch) ;!
  let! (intent, proposer, source) := lift (verify_governed_ingress_bindings ingress governor governor_chain) in
  let! existing := store_read (fun db => materialized_state decode_submission db (submission_entity source)) in
  match existing with
  | Some existing => existing_submission ingress governor proposer source (ms_state _ existing)
  | None =>
      record_governed_ingress_freshness ingress ;!
      lift (reject_if ((in_authority_domain intent != bk_authority_domain b) || (in_epoch intent != bk_epoch b)
                       || (pc_authority_domain (in_proposer intent) != bk_authority_domain b)
                       || (pc_epoch (in_proposer intent) != bk_epoch b)) BkAuthorityContextMismatch) ;!
      lift (reject_if (negb (length (in_effects intent) =? 1) || negb (bk_max_plan_steps b =? 1)%Z) BkPlanTooLarge) ;!
      let! ready := ready_proposal_count in
      lift (reject_if (bk_max_ready_proposals b <=? ready)%Z BkReadyLimit) ;!
      install_governed_artifacts intent ingress artifacts ;!
      evaluate_intent intent proposer source governor ingress
  end.
Definition try_handle_proposal (request : EffectProposalRequestV1) (peer : VerifiedRpcPrincipalV1) : BrokerM EffectProposalResponseV1 :=
  let! governor_chain := lift (chain_of peer (bk_agd_policy b)) in
  match request with
  | ProposalHealth => let! h := health in lift (Ok (ResponseHealth h))
  | SubmitAuthenticatedIntent ingress artifacts => submit_authenticated_intent ingress artifacts peer governor_chain
  end.
End Handlers.
