(* ===== verification/BrokerAdmin.v ===== *)
(** * The effect broker: ratification, reconciliation, restart (ag-app/src/effectd.rs)

    The administrator's methods, the recovery of attempts that a restart cut short,
    and the constructor.  Ratification burns the authority, then arms the attempt,
    and only then hands the effect out: each of the three writes goes through
    [persist_record], and each hand-over is an event of the log. *)

From S2P Require Import Prelude Wire Fixture Digest Names Origin Capability Identity Session Protocol Paths Store StoreBlob HostFiles RpcAuth Config Effect Compile Proposal Executor Pointer PointerText PointerGit PointerRuntime Activation Api Broker BrokerOps.

Section Admin.
  Context `{Deps, RpcDeps, ErrnoText, JcsErrorText, PointerTexts} {X Fd : Type} `{!PointerHost X Fd, !BrokerParameters X}.
  Context (b : EffectBrokerV1 Fd).
  #[local] Abbreviation M := (BrokerM (X := X) (Fd := Fd)).

(** ** Refused promotions *)

Definition promotion_refusal_code (error : ManagedPointerError) : ManagedPointerPromotionRefusalCodeV1 :=
  match error with
  | PointerPrestateDrift _ | ProtectedProjectionChanged => CurrentBasisMismatch
  | PointerBindingMismatch | PromotionStandingMismatch | TargetUnavailable | GitIdentityMismatch | LaunchProfileMismatch =>
      CandidateBindingMismatch
  | _ => StandingUnavailable
  end.
(** [record_promotion_refusal]: the refusal is custody of the record, and the answer
    is always an error. *)
Definition record_promotion_refusal {A} (loaded : MaterializedStateV1 BrokerProposalRecordV1) (attempted_authorization : RatificationV1)
    (candidate_ratification : ManagedPointerCandidateRatificationV1) (observed_at_unix_ms : Z) (error : ManagedPointerError) : M A :=
  let refusal :=
    mkPromotionRefusal MANAGED_POINTER_PROMOTION_REFUSAL_SCHEMA_V1 (cr_proposal candidate_ratification)
      (cr_candidate candidate_ratification) (cr_exact_basis candidate_ratification) candidate_ratification attempted_authorization
      observed_at_unix_ms (promotion_refusal_code error) (bounded_activation_text (pointer_error_text error)) in
  let! receipt := lift (map_err BkEffect (refusal_identity refusal)) in
  let record := ms_state _ loaded in
  let record := if length (rec_promotion_refusals record) <? 32 then with_refusal refusal record else record in
  persist_record b record (ms_revision _ loaded) "effect-promotion.eligibility-refused.v1" refusal ;!
  lift (Err (BkPromotionEligibilityRefused receipt)).

(** ** Terminal states *)

Definition execution_receipt_error_text (e : ExecutionReceiptError) : string :=
  match e with
  | ReceiptCanonical m => "execution receipt canonicalization failed: " +:+ m
  | BindingMismatch => "execution receipt does not bind the exact execution permit"
  end.
Definition step_digest_of (receipt : ExecutionReceiptV1) : res BrokerError Digest :=
  map_err (fun e => BkCorrupt (execution_receipt_error_text e)) (receipt_digest receipt).
Definition apply_event (record : BrokerProposalRecordV1) (event : ProposalEventV1) : res BrokerError ProposalStateV1 :=
  map_err BkEffect (proposal_apply (rec_state record) event).
Definition terminal_response (receipt : Digest) (record : BrokerProposalRecordV1) : EffectAdminResponseV1 :=
  ExecutionReceipt receipt (proposal_state_name (rec_state record)).
(** A success cannot come out of a failed preparation. *)
Definition normalized_preparation (receipt : ExecutionReceiptV1) : ExecutionReceiptV1 :=
  match xr_outcome receipt with
  | OutSucceeded _ =>
      set_outcome (OutIndeterminate (mkIndeterminate BackendContractViolation ReceiptValidation
                     "promotion preparation returned success as a terminal failure" (Some "preparation_contract_violation") None)) receipt
  | _ => receipt
  end.
(** [finish_preparation_failure]. *)
Definition finish_preparation_failure (record : BrokerProposalRecordV1) (revision : Z) (execution_receipt : ExecutionReceiptV1)
    : M EffectAdminResponseV1 :=
  let execution_receipt := normalized_preparation execution_receipt in
  let! step_digest := lift (step_digest_of execution_receipt) in
  let record := with_step step_digest record in
  let! attempt := lift (ok_or (BkCorrupt "preparation failure is missing its attempt") (rec_execution_attempt record)) in
  let! (terminal, event) :=
    lift match xr_outcome execution_receipt with
         | OutFailed _ =>
             let? terminal := composite_execution_receipt (cp_digest (rec_canonical record)) attempt (rec_step_receipts record) TerminalFailed in
             Ok (terminal, PreparationFailed terminal)
         | OutIndeterminate _ =>
             let? terminal := composite_execution_receipt (cp_digest (rec_canonical record)) attempt (rec_step_receipts record)
                                TerminalIndeterminate in
             Ok (terminal, PreparationIndeterminate terminal)
         | OutSucceeded _ => Panic
         end in
  let! state := lift (apply_event record event) in
  let record := with_terminal terminal (with_state state record) in
  persist_record b record revision "effect-promotion.preparation-terminal.v1" execution_receipt ;!
  lift (Ok (terminal_response terminal record)).

(** The payload of the event of a committed step. *)
Definition pointer_step_event (receipt : ExecutionReceiptV1) (commit_evidence : option ManagedPointerCommitEvidenceV1)
    (poststate_evidence : option ManagedPointerPoststateEvidenceV1) (activation : option ManagedPointerActivationReceiptV1) : Value :=
  VObject [("schema", VString "ag.effect.managed-pointer-step-event/v1"); ("receipt", to_value receipt);
           ("commit_evidence", to_value commit_evidence); ("poststate_evidence", to_value poststate_evidence);
           ("activation", to_value activation)].
Definition terminal_event (terminal_kind : CompositeTerminalV1) (terminal : Digest) : ProposalEventV1 :=
  match terminal_kind with
  | TerminalSucceeded => ExecutionSucceeded terminal
  | TerminalFailed => ExecutionFailed terminal
  | TerminalIndeterminate => ExecutionIndeterminate terminal
  end.
(** [finish_execution]. *)
Definition finish_execution (record : BrokerProposalRecordV1) (revision : Z) (execution_receipt : ExecutionReceiptV1)
    (commit_evidence : option ManagedPointerCommitEvidenceV1) (poststate_evidence : option ManagedPointerPoststateEvidenceV1)
    (activation : option ManagedPointerActivationReceiptV1) : M EffectAdminResponseV1 :=
  let! step_digest := lift (step_digest_of execution_receipt) in
  let terminal_kind := outcome_terminal (xr_outcome execution_receipt) in
  let record := with_step step_digest record in
  let! revision :=
    if is_some commit_evidence || is_some poststate_evidence || is_some activation then
      persist_record b record revision "effect-promotion.step-terminal.v1"
        (pointer_step_event execution_receipt commit_evidence poststate_evidence activation)
    else persist_record b record revision "effect-execution.step-terminal.v1" execution_receipt in
  let! attempt := lift (ok_or (BkCorrupt "terminal execution is missing its attempt") (rec_execution_attempt record)) in
  let! terminal := lift (composite_execution_receipt (cp_digest (rec_canonical record)) attempt (rec_step_receipts record) terminal_kind) in
  let! state := lift (apply_event record (terminal_event terminal_kind terminal)) in
  let record := with_activation activation (with_terminal terminal (with_state state record)) in
  persist_record b record revision "effect-execution.terminal.v1" execution_receipt ;!
  lift (Ok (terminal_response terminal record)).

(** ** Ratification *)

(** [self.challenges.remove(..)]: a display challenge is good for one call. *)
Definition take_challenge (proposal : Digest) : M ChallengeV1 := fun s =>
  match btree_get (digest_str proposal) (bs_challenges s) with
  | Some c => (set_challenges (btree_remove (digest_str proposal) (bs_challenges s)) s, Ok c)
  | None => (s, Err BkChallengeInvalid)
  end.
Definition check_challenge (expected : ChallengeV1) (challenge : string) (peer : VerifiedRpcPrincipalV1) : M unit :=
  lift (reject_if (ch_value expected != challenge) BkChallengeInvalid) ;!
  let! peer_digest := lift (rpc (binding_digest peer)) in
  lift (reject_if (ch_peer expected != peer_digest) BkChallengeInvalid) ;!
  let! now := now_u64 in
  lift (reject_if (ch_expires_unix_ms expected <? now)%Z BkChallengeInvalid).
Definition refuse_expired (effect : CanonicalEffectV1) : M unit :=
  match effect with
  | EffManagedPointerPromotion p =>
      let! now := now_u64 in lift (reject_if (pp_expires_unix_ms p <=? now)%Z BkPromotionExpired)
  | _ => lift (Ok tt)
  end.
(** The ratifier's chain, independent of the proposer's. *)
Definition independent_ratifier (peer : VerifiedRpcPrincipalV1) (canonical : CanonicalEffectProposalV1) : M PrincipalChainV1 :=
  let! ratifier := lift (chain_of b peer (bk_admin_policy b)) in
  let! ok := lift (independent (pb_proposer (cp_body canonical)) ratifier) in
  lift (reject_if (negb ok) BkPrincipalChainsNotIndependent) ;!
  lift (Ok ratifier).
Definition candidate_ratification (proposal authorization : Digest) (candidate : PreparedManagedPointerCandidateV1)
    : res BrokerError ManagedPointerCandidateRatificationV1 :=
  let? identity := map_err BkEffect (candidate_identity candidate) in
  let? exact_basis := map_err BkEffect (basis_identity (ca_exact_basis candidate)) in
  let? complete_inputs :=
    map_err BkEffect (inputs_identity (ca_complete_inputs candidate) (eb_object_format (ca_exact_basis candidate))) in
  let? preparation_receipt := map_err BkEffect (receipt_identity (ca_preparation_receipt candidate)) in
  Ok (mkCandidateRatification MANAGED_POINTER_CANDIDATE_RATIFICATION_SCHEMA_V1 proposal identity exact_basis complete_inputs
        preparation_receipt authorization).
(** The binding of a promotion and its single-use standing, before the burn. *)
Definition ratify_promotion (heads : list (string * ManagedPointerActivationHeadV1)) (context : ManagedPointerExecutionContextV1)
    (loaded : MaterializedStateV1 BrokerProposalRecordV1) (authorization : RatificationV1) (effect : CanonicalEffectV1)
    (p : PromotionEffect) : M (ManagedPointerCandidateRatificationV1 * ManagedPointerPromotionStandingV1) :=
  let target := target_str (pp_target p) in
  let! candidate := lift (ok_or (BkCorrupt "managed-pointer proposal is missing prepared-candidate custody")
                            (btree_get target (rec_prepared_candidates (ms_state _ loaded)))) in
  let! binding := lift (candidate_ratification (xc_proposal context) (xc_authorization context) candidate) in
  lift (map_err BkEffect (verify_bindings binding (xc_proposal context) candidate (xc_authorization context))) ;!
  let! standing_observed_at := now_u64 in
  let! head := lift (ok_or (BkCorrupt "managed-pointer proposal target lacks a governed activation head") (btree_get target heads)) in
  let basis := ca_exact_basis candidate in
  if (eb_current_object basis != ah_object head) || (eb_current_tree basis != ah_tree head)
     || (eb_prestate_identity basis != ah_state_identity head) then
    record_promotion_refusal loaded authorization binding standing_observed_at
      (PointerPrestateDrift "candidate basis is not the exact governed activation head")
  else
    st_try (on_world (promotion_standing (bk_pointer_runtime b) context effect candidate binding standing_observed_at)) (fun r =>
      match r with
      | Ok standing => lift (Ok (binding, standing))
      | Err error => record_promotion_refusal loaded authorization binding standing_observed_at error
      | Panic => lift Panic
      end).
(** The part of [ratify_human] that follows the burn of a promotion. *)
Definition run_promotion (record : BrokerProposalRecordV1) (revision : Z) (context : ManagedPointerExecutionContextV1)
    (effect : CanonicalEffectV1) (standing : option ManagedPointerPromotionStandingV1) : M EffectAdminResponseV1 :=
  let proposal := xc_proposal context in
  let authorization := xc_authorization context in
  let attempt := xc_attempt context in
  let! standing := lift (ok_or (BkCorrupt "promotion authority burn lacks live single-use standing") standing) in
  let! state := lift (apply_event record (BeginPreparation attempt)) in
  let record := with_state state record in
  let! revision := persist_record b record revision "effect-promotion.preparation-began.v1" attempt in
  let! now := now_u64 in
  let! s := get in
  st_try (on_world (prepare_from_store (bk_pointer_runtime b) standing (bs_files s) (bs_db s) context effect
                      (bk_max_artifact_bytes b) now)) (fun prepared =>
    match prepared with
    | Err receipt =>
        finish_preparation_failure record revision (enforce_receipt_bindings receipt proposal authorization attempt 0 effect)
    | Ok prepared =>
        let! state := lift (apply_event record (CommitMayProceed (pm_checkpoint prepared))) in
        let record := with_state state record in
        let! revision := persist_record b record revision "effect-promotion.commit-armed.v1" (pm_evidence prepared) in
        let! now := now_u64 in
        note (CommittedPointer proposal attempt) ;!
        let! result := st_map_err (fun e : Empty_set => match e with end) (on_world (pointer_commit (bk_pointer_runtime b) prepared now)) in
        let receipt := enforce_receipt_bindings (co_receipt result) proposal authorization attempt 0 effect in
        let receipt := enforce_managed_pointer_evidence_bindings receipt (co_commit_evidence result) (co_poststate_evidence result)
                         (co_activation_receipt result) in
        finish_execution record revision receipt (co_commit_evidence result) (co_poststate_evidence result) (co_activation_receipt result)
    | Panic => lift Panic
    end).
(** The part that follows the burn of any other effect. *)
Definition run_effect (record : BrokerProposalRecordV1) (revision : Z) (context : ManagedPointerExecutionContextV1)
    (effect : CanonicalEffectV1) : M EffectAdminResponseV1 :=
  let proposal := xc_proposal context in
  let authorization := xc_authorization context in
  let attempt := xc_attempt context in
  let! state := lift (apply_event record (BeginExecution attempt)) in
  let record := with_state state record in
  let! revision := persist_record b record revision "effect-execution.began.v1" attempt in
  note (RanEffect proposal attempt) ;!
  let! s := get in
  let! receipt := host (execute_once_with (bs_files s) (bs_db s) proposal authorization attempt 0 effect) in
  finish_execution record revision (enforce_receipt_bindings receipt proposal authorization attempt 0 effect) None None None.
(** [ratify_human]. *)
Definition ratify_human (proposal : Digest) (challenge : string) (peer : VerifiedRpcPrincipalV1) (signed_request : Digest)
    : M EffectAdminResponseV1 :=
  refuse_quiesced ;!
  let! heads := require_authority_activation b in
  let! expected := take_challenge proposal in
  check_challenge expected challenge peer ;!
  let! loaded := load_proposal_with_revision b proposal in
  let record := ms_state _ loaded in
  lift (map_err BkEffect (verify_digest (rec_canonical record))) ;!
  let! effect := lift (only_effect (rec_canonical record)) in
  refuse_expired effect ;!
  let! ratifier := independent_ratifier peer (rec_canonical record) in
  let authorization := HumanExact proposal ratifier challenge signed_request in
  let! authorization_digest := lift (digest_of authorization) in
  let! state := lift (apply_event record (BurnAuthorization proposal authorization_digest (effect_family effect))) in
  let! nonce := new_uuid in
  let! attempt := lift (digest_of (VArray [VString "ag.effect.execution-attempt/v1"; to_value proposal; VString nonce])) in
  let context := mkExecutionContext proposal authorization_digest attempt 0 in
  let! (binding, standing) :=
    match effect with
    | EffManagedPointerPromotion p =>
        let! (binding, standing) := ratify_promotion heads context loaded authorization effect p in
        lift (Ok (Some binding, Some standing))
    | _ => lift (Ok (None, None))
    end in
  let record := with_burn state authorization binding record in
  let! revision := persist_record b record (ms_revision _ loaded) "effect-authorization.burned.v1" authorization_digest in
  let record := with_attempt attempt record in
  if effect_family effect == CodePromotion then run_promotion record revision context effect standing
  else run_effect record revision context effect.

(** ** Reconciliation *)

Definition draft_reconciliation (proposal : Digest) : M EffectAdminResponseV1 :=
  let! record := load_proposal b proposal in
  match rec_state record with
  | ReconciliationRequired envelope =>
      let! attempt := lift (ok_or (BkCorrupt "reconciliation-required record is missing its execution attempt")
                              (rec_execution_attempt record)) in
      let! observed_poststate := observe_canonical_proposal b (rec_canonical record) in
      let! effect := lift (ok_or (BkCorrupt "canonical effect is missing") (head (pb_effects (cp_body (rec_canonical record))))) in
      let! observation := lift (ok_or (BkCorrupt "canonical target observation is missing")
                                  (btree_get (target_str (effect_target effect)) observed_poststate)) in
      let! classification := lift (classify_reconciliation effect observation) in
      lift (Ok (ReconciliationDraft (mkEvidence RECONCILIATION_EVIDENCE_SCHEMA_V1 proposal attempt envelope (rec_step_receipts record)
                  observed_poststate classification)))
  | _ => lift (Err BkReconciliationNotRequired)
  end.
(** [reconcile]. *)
Definition reconcile (evidence : ReconciliationEvidenceV1) (peer : VerifiedRpcPrincipalV1) (signed_request : Digest)
    : M EffectAdminResponseV1 :=
  let mismatch := BkReconciliationEvidenceMismatch in
  refuse_quiesced ;!
  let! loaded := load_proposal_with_revision b (re_proposal evidence) in
  let record := ms_state _ loaded in
  lift (map_err BkEffect (verify_digest (rec_canonical record))) ;!
  match rec_state record with
  | ReconciliationRequired envelope =>
      lift (reject_if ((re_schema evidence != RECONCILIATION_EVIDENCE_SCHEMA_V1) || (re_uncertainty_envelope evidence != envelope)
                       || (rec_execution_attempt record != Some (re_attempt evidence))
                       || (rec_step_receipts record != re_step_receipts evidence)) mismatch) ;!
      let! observed := observe_canonical_proposal b (rec_canonical record) in
      lift (reject_if (re_observed_poststate evidence != observed) mismatch) ;!
      let! effect := lift (ok_or mismatch (head (pb_effects (cp_body (rec_canonical record))))) in
      let! observation := lift (ok_or mismatch (btree_get (target_str (effect_target effect)) observed)) in
      let! classification := lift (classify_reconciliation effect observation) in
      lift (reject_if (classification != re_classification evidence) mismatch) ;!
      let! ratifier := independent_ratifier peer (rec_canonical record) in
      let reconciliation := mkReconciliation RECONCILIATION_RECORD_SCHEMA_V1 evidence ratifier signed_request in
      let! receipt := lift (map_err BkEffect (reconciliation_digest reconciliation)) in
      let! state := lift (apply_event record (EvReconciled receipt)) in
      persist_record b (with_reconciliation state receipt reconciliation record) (ms_revision _ loaded)
        "effect-proposal.reconciled.v1" reconciliation ;!
      lift (Ok (ReconciledResponse receipt))
  | _ => lift (Err mismatch)
  end.

(** ** Requests *)

Definition CHALLENGE_LIFETIME_MS : Z := 5 * 60 * 1000.
Definition inspect_proposal (proposal : Digest) (peer : VerifiedRpcPrincipalV1) : M EffectAdminResponseV1 :=
  let! record := load_proposal b proposal in
  lift (map_err BkEffect (verify_digest (rec_canonical record))) ;!
  let! peer_digest := lift (rpc (binding_digest peer)) in
  let! challenge := new_uuid in
  let! now := now_u64 in
  modify (fun s => set_challenges
    (btree_insert (digest_str proposal) (mkDisplayChallenge challenge peer_digest (saturating_add_u64 now CHALLENGE_LIFETIME_MS))
       (bs_challenges s)) s) ;!
  lift (Ok (ProposalResponse (rec_canonical record) challenge)).
Fixpoint summaries (proposals : list ProposalSummaryV1) (entities : list string) : M (list ProposalSummaryV1) :=
  match entities with
  | [] => lift (Ok proposals)
  | entity :: rest =>
      let! loaded := load_proposal_entity_with_revision b entity in
      let record := ms_state _ loaded in
      summaries (proposals ++ [mkSummary (pb_proposal_id (cp_body (rec_canonical record))) (cp_digest (rec_canonical record))
                                 (proposal_state_name (rec_state record))]) rest
  end.
Definition list_proposals (limit : Z) : M EffectAdminResponseV1 :=
  let! entities := store_read (fun db => entity_ids db PROPOSAL_PREFIX (Z.max 1 (Z.min 1000 limit))) in
  let! proposals := summaries [] entities in
  lift (Ok (ProposalsResponse proposals)).
(** [try_handle_admin]. *)
Definition try_handle_admin (request : EffectAdminRequestV1) (peer : VerifiedRpcPrincipalV1) (signed_request : Digest)
    : M EffectAdminResponseV1 :=
  match request with
  | AdminHealth =>
      let! activation := current_activation_status b in
      let! h := health_for_activation activation in
      lift (Ok (AdminHealthResponse h activation))
  | InspectProposal proposal => inspect_proposal proposal peer
  | InspectRecord proposal =>
      let! record := load_proposal b proposal in lift (Ok (RecordResponse (effect_record_projection record)))
  | ListProposals limit => list_proposals limit
  | Ratify proposal challenge => ratify_human proposal challenge peer signed_request
  | DraftReconciliation proposal => draft_reconciliation proposal
  | Reconcile evidence => reconcile evidence peer signed_request
  end.
(** [broker_api_error]; the correlation of an error is a fresh identifier. *)
Definition answered {A} (m : M A) : M (ApiResultV1 A) :=
  st_try m (fun r =>
    match r with
    | Ok response => lift (Ok (ApiOk response))
    | Err error =>
        let! correlation := new_uuid in
        lift (Ok (ApiError (api_error_code error) (broker_error_text error) correlation))
    | Panic => lift Panic
    end).
Definition handle_proposal (request : EffectProposalRequestV1) (peer : VerifiedRpcPrincipalV1) : M (ApiResultV1 EffectProposalResponseV1) :=
  answered (try_handle_proposal b request peer).
Definition handle_admin (request : EffectAdminRequestV1) (peer : VerifiedRpcPrincipalV1) (signed_request : Digest)
    : M (ApiResultV1 EffectAdminResponseV1) :=
  answered (try_handle_admin request peer signed_request).

(** ** Restart *)

(** The outcome of a preparation that a restart cut short. *)
Definition restart_outcome (known_prestate : bool) (observation_evidence : option Digest) : ExecutionOutcomeV1 :=
  if known_prestate then
    OutFailed (mkFailure BackendRejected PromotionPreparation
                 "restart proved the managed ref remained at the exact ratified prestate"
                 (Some "preparation_abandoned_on_restart") observation_evidence)
  else
    OutIndeterminate (mkIndeterminate BackendOutcomeUnknown PromotionPreparation
                        "restart could not prove an unchanged promotion prestate"
                        (Some "preparation_restart_unresolved") observation_evidence).
Definition known_prestate_of (effect : CanonicalEffectV1) (observation : res ManagedPointerError TargetObservationV1) : bool :=
  match observation with
  | Ok observed => match classify_reconciliation effect observed with Ok NotApplied => true | _ => false end
  | _ => false
  end.
Definition recover_preparing (loaded : MaterializedStateV1 BrokerProposalRecordV1) (proposal attempt : Digest) : M unit :=
  let record := ms_state _ loaded in
  let! effect := lift (only_effect (rec_canonical record)) in
  let! authorization := lift match rec_authorization record with
                             | Some a => digest_of a
                             | None => Err (BkCorrupt "preparing promotion is missing authorization custody")
                             end in
  st_try (on_world (observe_canonical (bk_pointer_runtime b) effect)) (fun observation =>
    let known_prestate := known_prestate_of effect observation in
    let! observation_evidence :=
      lift match observation with
           | Ok observed => let? d := digest_of observed in Ok (Some d)
           | _ => Ok None
           end in
    let execution_receipt :=
      mkExecutionReceipt EXECUTION_RECEIPT_SCHEMA_V1 proposal authorization attempt 0 effect
        (restart_outcome known_prestate observation_evidence) in
    let! step := lift (step_digest_of execution_receipt) in
    let record := with_step step record in
    let! terminal := lift (composite_execution_receipt proposal attempt (rec_step_receipts record)
                             (if known_prestate then TerminalFailed else TerminalIndeterminate)) in
    let! state := lift (apply_event record (if known_prestate then PreparationAbandoned terminal else PreparationIndeterminate terminal)) in
    persist_record b (with_terminal terminal (with_state state record)) (ms_revision _ loaded)
      (if known_prestate then "effect-promotion.restart-proven-unchanged.v1" else "effect-promotion.restart-indeterminate.v1")
      execution_receipt ;!
    lift (Ok tt)).
(** The event, its evidence and its kind for the other states that a restart ends. *)
Definition restart_event (loaded : MaterializedStateV1 BrokerProposalRecordV1) : res BrokerError (option (ProposalEventV1 * Digest * string)) :=
  match rec_state (ms_state _ loaded) with
  | AuthorizationBurned proposal _ _ =>
      let? receipt := digest_of (VArray [VString "ag.effect.abandoned-before-execution/v1"; to_value proposal;
                                         VString (digest_str (ms_last_event_digest _ loaded))]) in
      Ok (Some (ExecutionAbandoned receipt, receipt, "effect-execution.abandoned-before-begin.v1"))
  | Executing proposal attempt _ =>
      let? envelope := restart_reconciliation_envelope proposal attempt (rec_step_receipts (ms_state _ loaded)) in
      Ok (Some (ExecutionIndeterminate envelope, envelope, "effect-execution.restart-indeterminate.v1"))
  | _ => Ok None
  end.
Definition recover_entity (entity : string) : M unit :=
  let! loaded := load_proposal_entity_with_revision b entity in
  match rec_state (ms_state _ loaded) with
  | Preparing proposal attempt => recover_preparing loaded proposal attempt
  | _ =>
      let! event := lift (restart_event loaded) in
      match event with
      | Some (event, evidence, kind) =>
          let record := ms_state _ loaded in
          let! state := lift (apply_event record event) in
          persist_record b (with_terminal evidence (with_state state record)) (ms_revision _ loaded) kind evidence ;!
          lift (Ok tt)
      | None => lift (Ok tt)
      end
  end.
(** [recover_incomplete_attempts]; nothing is written under a backup cut. *)
Definition recover_incomplete_attempts : M unit :=
  let! s := get in
  if quiesced s then lift (Ok tt)
  else
    each_proposal (R := unit) (fun _ entity => recover_entity entity ;! lift (Ok (inl tt))) tt ;!
    lift (Ok tt).
End Admin.

(** ** The constructor

    [EffectBrokerV1::new] on a state that holds the store, the replay guard and the
    world; the other fields of the state are set here. *)
Section Constructor.
  Context `{Deps, RpcDeps, ErrnoText, JcsErrorText, PointerTexts} {X Fd : Type} `{!PointerHost X Fd, !BrokerParameters X}.

Definition startup_status (security_profile : string) : EffectdActivationStatusV1 :=
  if security_profile == "development" then
    StatusNotReady EFFECTD_ACTIVATION_STATUS_SCHEMA_V1 "startup" "development_profile"
      "development authority bypass does not create production readiness"
  else
    StatusNotReady EFFECTD_ACTIVATION_STATUS_SCHEMA_V1 "startup" "live_attestation_not_applied"
      "fresh live activation evidence has not been applied".
Definition EffectBrokerV1_new (config : EffectdConfigV1) (activated_catalog_identity : Digest) (identity : StoreIdentityV1)
    : BrokerM (X := X) (Fd := Fd) (EffectBrokerV1 Fd) :=
  let! authority_domain := lift (map_err BkIdentifier (identifier_new AuthorityDomainId_k (ec_authority_domain config))) in
  let! epoch := lift (map_err BkIdentifier (EpochId_parse (ec_epoch config))) in
  let! (catalog, targets) :=
    reading (fun s => build_catalog (fun path => fs_read path (pw_host (bs_world s))) (ec_targets config)) in
  let catalog_identity := ct_identity catalog in
  lift (reject_if (catalog_identity != activated_catalog_identity) BkCatalogIdentityMismatch) ;!
  let! pointer_runtime := pointer (from_config config) in
  let profile_identity := security_profile_identity (ec_security_profile config) in
  lift (reject_if (rt_security_profile_identity pointer_runtime != profile_identity) BkSecurityProfileIdentityMismatch) ;!
  let limits := ec_limits config in
  let b := mkBroker (mkCompiler catalog profile_identity) catalog_identity profile_identity targets authority_domain epoch
             (ec_agd_peer config) (ec_proposer_peer config) (ec_admin_peer config) (el_max_plan_steps limits)
             (el_max_ready_proposals limits) (el_max_artifact_bytes limits) (ec_security_profile config == "development")
             pointer_runtime in
  modify (fun s => set_challenges [] (set_activation false None (startup_status (ec_security_profile config)) s)) ;!
  store_read (verify_chain identity) ;!
  validate_all_proposal_records b ;!
  recover_incomplete_attempts b ;!
  lift (Ok b).
End Constructor.
