(* ===== verification/BrokerRunner.v ===== *)
(** * The effect broker: the production runner (ag-app/src/effectd.rs)

    [LinuxManagedEffectRunnerV1]: managed files through the executor, with the
    content preloaded from the store, and every other family refused. *)

From S2P Require Import Prelude Wire Fixture Digest Paths Store StoreBlob HostFiles Effect Compile Executor ExecutorFiles ExecutorAttempt ExecutorSpec PointerGit.

(** [struct StoreArtifactSourceV1]: the one artifact loaded before the attempt. *)
Record StoreArtifactSourceV1 : Type := mkArtifactSource { as_loaded : option (Digest * (ArtifactReadErrorV1 + bytes)) }.
Definition EFFECTD_STORE_CUSTODY : string := "effectd_store_custody".
#[global] Instance store_artifact_source : ArtifactSourceV1 StoreArtifactSourceV1 := fun digest source =>
  (source,
   match as_loaded source with
   | Some (expected, result) =>
       if expected == digest then result
       else inl (mkArtifactError EFFECTD_STORE_CUSTODY "artifact was not preloaded for this exact effect")
   | None => inl (mkArtifactError EFFECTD_STORE_CUSTODY "artifact was not preloaded for this exact effect")
   end).

(** [UnavailablePointerHelperV1] and [UnavailableSystemdBackendV1]. *)
Definition no_pointer_helper {X T} : Capability X T := fun x =>
  (x, CapFailed (mkCapabilityFailure "pinned_helper_unavailable" "no deployment pointer helper adapter is installed" None)).
#[global] Instance unavailable_pointer_helper : PinnedPointerHelperV1 StoreArtifactSourceV1 := {|
  helper_identity := no_pointer_helper;
  helper_prepare := fun _ _ => no_pointer_helper;
  compare_and_swap := fun _ => no_pointer_helper
|}.
Definition no_systemd_backend {X T} : Capability X T := fun x =>
  (x, CapFailed (mkCapabilityFailure "systemd_dbus_backend_unavailable" "no typed systemd D-Bus adapter is installed" None)).
#[global] Instance unavailable_systemd_backend : SystemdDbusBackendV1 StoreArtifactSourceV1 := {|
  unit_action := fun _ => no_systemd_backend;
  reload_manager := fun _ => no_systemd_backend
|}.

Section Runner.
  Context `{Deps, ErrnoText, JcsErrorText, PointerTexts}.

(** [StoreArtifactSourceV1::preload]. *)
Definition preload (files : ObjectDir) (db : Database) (effect : CanonicalEffectV1) (maximum : Z) : res Empty_set StoreArtifactSourceV1 :=
  match effect with
  | EffManagedFilePut _ _ _ content _ _ _ =>
      match read_blob files db content maximum with
      | Ok b => Ok (mkArtifactSource (Some (content, inr b)))
      | Err e => Ok (mkArtifactSource (Some (content, inl (mkArtifactError EFFECTD_STORE_CUSTODY (store_error_text e)))))
      | Panic => Panic
      end
  | _ => Ok (mkArtifactSource None)
  end.
(** [LinuxManagedEffectRunnerV1::execute_once]. *)
Definition linux_execute_once (policy : ManagedFilePolicyV1) (files : ObjectDir) (db : Database) (proposal authorization attempt : Digest)
    (effect_index : Z) (effect : CanonicalEffectV1) : ST FileSystem Empty_set ExecutionReceiptV1 := fun fs =>
  match preload files db effect (fp_max_content_bytes policy) with
  | Ok artifacts =>
      let (h, r) := execute_once policy (from_durable_burn proposal authorization attempt effect_index) effect (mkHost artifacts fs) in
      (eh_files h, r)
  | Err e => (fs, Err e)
  | Panic => (fs, Panic)
  end.

(** What a receipt of this runner says of the disk: a put that succeeds has the bytes
    the store holds under the ratified digest, and only managed files are touched. *)
Definition runner_outcome (policy : ManagedFilePolicyV1) (files : ObjectDir) (db : Database) (permit : BurnedExecutionPermitV1)
    (effect : CanonicalEffectV1) (before : FileSystem) (out : ExecutionOutcomeV1) (after : FileSystem) : Prop :=
  match effect with
  | EffManagedFilePut _ path expected content mode uid gid =>
      put_outcome policy permit path expected content (mkMetadata uid gid mode) (fs_disk before) out (fs_disk after) /\
      (forall s, out = OutSucceeded s -> exists b, read_blob files db content (fp_max_content_bytes policy) = Ok b)
  | EffManagedFileDelete _ path expected => delete_outcome policy permit path expected (fs_disk before) out (fs_disk after)
  | _ => after = before /\ exists f, out = OutFailed f
  end.
Lemma blob_path_canonical d : canonical_digest_text (digest_str d) -> no_panic (blob_path d).
Proof.
  intros (h & Hh & Hl & _). unfold blob_path, no_panic. rewrite Hh.
  assert (starts_with (SHA256_PREFIX +:+ h) "sha256:" = true) as -> by (apply starts_with_spec; by exists h).
  change (String.length "sha256:") with (String.length SHA256_PREFIX). rewrite str_drop_app. cbn [expect res_bind].
  by rewrite Hl.
Qed.
Lemma read_blob_no_panic files db d maximum :
  canonical_digest_text (digest_str d) -> (maximum < U64_MAX)%Z -> no_panic (read_blob files db d maximum).
Proof.
  intros Hd Hm. unfold read_blob. apply res_bind_no_panic; [by destruct (catalog_size _ _)|]. intros size _.
  apply res_bind_no_panic; [unfold to_u64; by destruct (size <? 0)%Z|]. intros len Hlen.
  unfold to_u64 in Hlen. apply guard_ok in Hlen as [Hpos%Z.ltb_ge [= <-]].
  apply res_bind_no_panic; [apply reject_if_no_panic|]. intros [] Hle%reject_if_ok%Z.ltb_ge.
  apply res_bind_no_panic; [by apply blob_path_canonical|]. intros path _.
  apply res_bind_no_panic.
  { unfold verify_blob_file. apply res_bind_no_panic; [by destruct (files !! path)|]. intros node _.
    apply res_bind_no_panic; [apply reject_if_no_panic|]. intros [] _. cbn [bd_byte_length]. rewrite copy_and_hash_file by lia.
    cbn [res_bind]. apply res_bind_no_panic; [apply reject_if_no_panic|done]. }
  intros [] _. apply res_bind_no_panic; [by destruct (files !! path)|]. intros node _.
  apply res_bind_no_panic; [apply reject_if_no_panic|done].
Qed.
(** A put without its artifact in the store does not succeed. *)
Lemma put_without_artifact policy permit path expected content mode uid gid (source : StoreArtifactSourceV1) fs h out e :
  as_loaded source = Some (content, inl e) ->
  execute_file_put policy permit path expected content mode uid gid (mkHost source fs) = (h, Ok out) -> exists f, out = OutFailed f.
Proof.
  intros Hs. unfold execute_file_put, returning. rewrite st_bind_run. unfold on_world, st_map_err, load_artifact.
  cbn [eh_world]. unfold artifact_load, store_artifact_source. rewrite Hs, bool_decide_eq_true_2 by done. cbn. intros [= _ <-]. by eexists.
Qed.

(** C19. The production runner always answers, with a receipt that binds the attempt it
    was given, and it touches managed files only: a promotion or a systemd operation is
    refused with the disk unchanged; a put or a delete has the outcome the executor
    promises, and a put succeeds only with content that the store holds and has
    verified under the ratified digest. *)
Theorem runner_touches_only_files policy files db proposal authorization attempt index effect fs :
  disk_wf (fs_disk fs) -> permit_ok (from_durable_burn proposal authorization attempt index) ->
  (fp_max_content_bytes policy < U64_MAX)%Z ->
  (forall t path expected content mode uid gid, effect = EffManagedFilePut t path expected content mode uid gid ->
     canonical_digest_text (digest_str content)) ->
  exists fs' receipt, linux_execute_once policy files db proposal authorization attempt index effect fs = (fs', Ok receipt) /\
  receipt_verify_bindings receipt proposal authorization attempt index effect = Ok tt /\
  runner_outcome policy files db (from_durable_burn proposal authorization attempt index) effect fs (xr_outcome receipt) fs'.
Proof.
  intros Hwf Hok Hmax Hdig. set (permit := from_durable_burn proposal authorization attempt index).
  assert (forall out, receipt_verify_bindings (mkExecutionReceipt EXECUTION_RECEIPT_SCHEMA_V1 proposal authorization attempt index effect out)
    proposal authorization attempt index effect = Ok tt) as Hbind.
  { intros out. unfold receipt_verify_bindings. apply reject_if_ok. cbn [xr_schema xr_proposal xr_authorization xr_attempt
      xr_effect_index xr_effect]. guards. done. }
  unfold linux_execute_once, execute_once. fold permit. destruct effect as [p|t path expected content mode uid gid|t path expected|t u a s f|t m g];
    cbn [preload is_promotion]; change (bp_preparation_checkpoint permit) with (@None Digest);
    change (bool_decide (is_Some (@None Digest))) with false; cbn [Bool.eqb bool_decide].
  - eexists _, _. split; [reflexivity|]. split; [apply Hbind|]. split; [done|by eexists].
  - pose proof (read_blob_no_panic files db content (fp_max_content_bytes policy) (Hdig _ _ _ _ _ _ _ eq_refl) Hmax) as Hnp.
    destruct (read_blob files db content (fp_max_content_bytes policy)) as [b|e|] eqn:Hb; [| |done].
    + destruct (file_put_run policy permit path expected content mode uid gid (mkHost (mkArtifactSource (Some (content, inr b))) fs) Hwf Hok)
        as (h' & out & Hrun & Ho).
      rewrite bool_decide_eq_true_2 by done. rewrite st_bind_run, Hrun. eexists _, _. split; [reflexivity|]. split; [apply Hbind|].
      cbn [runner_outcome xr_outcome]. split; [exact Ho|eauto].
    + set (src := mkArtifactSource _).
      destruct (file_put_run policy permit path expected content mode uid gid (mkHost src fs) Hwf Hok) as (h' & out & Hrun & Ho).
      rewrite bool_decide_eq_true_2 by done. rewrite st_bind_run, Hrun. eexists _, _. split; [reflexivity|]. split; [apply Hbind|].
      cbn [runner_outcome xr_outcome]. split; [exact Ho|]. intros x ->.
      by destruct (put_without_artifact policy permit path expected content mode uid gid src fs h' _ _ eq_refl Hrun).
  - rewrite bool_decide_eq_true_2 by done. rewrite st_bind_run. unfold on_files.
    destruct (file_delete_run policy permit path expected fs Hwf Hok) as (fs' & out & Hrun & Ho). cbn [eh_files]. rewrite Hrun.
    eexists _, _. split; [reflexivity|]. split; [apply Hbind|exact Ho].
  - rewrite bool_decide_eq_true_2 by done. eexists _, _. split; [reflexivity|]. split; [apply Hbind|]. split; [done|by eexists].
  - rewrite bool_decide_eq_true_2 by done. eexists _, _. split; [reflexivity|]. split; [apply Hbind|]. split; [done|by eexists].
Qed.
End Runner.

(** ** A put from the store *)

Import ToyExecutor.
#[local] Instance toy_pointer_texts : PointerTexts := {| store_error_text := fun _ => "error"; nix_errno_text := fun _ => "error" |}.
Definition toy_store_put : CanonicalEffectV1 :=
  EffManagedFilePut conf_target "/etc/conf" (Some (hash_bytes old_bytes)) ToyBlob.digest 420 5 6.
Definition toy_runner : ST FileSystem Empty_set ExecutionReceiptV1 :=
  linux_execute_once toy_policy {[ToyBlob.path := ToyBlob.node]} ToyBlob.catalogued (hash_bytes []) (hash_bytes []) (hash_bytes []) 0
    toy_store_put.
Example toy_runner_succeeds :
  (match (toy_runner (eh_files toy_host)).2 with
   | Ok r => match xr_outcome r with OutSucceeded _ => true | _ => false end
   | _ => false
   end) = true.
Proof. vm_compute. reflexivity. Qed.
Lemma runner_touches_only_files_witness :
  exists fs' receipt, toy_runner (eh_files toy_host) = (fs', Ok receipt) /\
  receipt_verify_bindings receipt (hash_bytes []) (hash_bytes []) (hash_bytes []) 0 toy_store_put = Ok tt /\
  runner_outcome toy_policy {[ToyBlob.path := ToyBlob.node]} ToyBlob.catalogued toy_permit toy_store_put (eh_files toy_host)
    (xr_outcome receipt) fs'.
Proof.
  apply (runner_touches_only_files toy_policy {[ToyBlob.path := ToyBlob.node]} ToyBlob.catalogued (hash_bytes []) (hash_bytes [])
           (hash_bytes []) 0 toy_store_put (eh_files toy_host) toy_wf toy_permit_fits).
  - reflexivity.
  - intros t path expected content mode uid gid He. unfold toy_store_put in He. injection He as <- <- <- <- <- <- <-.
    apply hash_bytes_canonical.
Defined.
