(* ===== verification/BrokerSpec.v ===== *)
(** * The effect broker hands each effect out once (ag-app/src/effectd.rs)

    The specification of the broker is an automaton over its log: for one proposal,
    which durable records may follow which, and when an effect may be handed out.
    Every call of the broker, whatever it answers, extends the log by a run of this
    automaton and leaves the store holding the automaton's record.  So at most one
    effect is handed out per proposal, over any sequence of calls, failed writes and
    restarts, and only after a human's authority for exactly that proposal is
    durably burned. *)

From S2P Require Import Prelude Wire Fixture Digest Names Origin Capability Identity Session Protocol Paths Store StoreLog StoreSpec StoreBlob HostFiles RpcAuth Config Effect Compile Proposal Executor Pointer PointerText PointerGit PointerRuntime Activation Api Broker BrokerOps BrokerAdmin WorkerSpec.

(** ** The automaton *)

(** What the log says of one proposal: its durable record, and whether an attempt is
    armed, that is, durably begun and not handed out. *)
Record Track : Type := mkTrack { tk_record : option BrokerProposalRecordV1; tk_armed : bool }.
Definition track_start : Track := mkTrack None false.

Definition executing (s : ProposalStateV1) : bool := match s with Executing _ _ _ => true | _ => false end.
Definition record_entity (r : BrokerProposalRecordV1) : string := proposal_entity (cp_digest (rec_canonical r)).
(** The records that may follow [old]: the same proposal, in the same state or one
    event of the lifecycle later. *)
Definition follows (old : option BrokerProposalRecordV1) (new : BrokerProposalRecordV1) : Prop :=
  match old with
  | None => rec_state new = Ready (cp_digest (rec_canonical new))
  | Some old =>
      rec_canonical new = rec_canonical old /\
      (rec_state new = rec_state old \/ exists e, proposal_apply (rec_state old) e = Ok (rec_state new))
  end.
Definition armed_after (t : Track) (new : BrokerProposalRecordV1) : bool :=
  executing (rec_state new) &&
  match tk_record t with
  | Some old => if executing (rec_state old) then tk_armed t else true
  | None => false
  end.
(** A record under which the effect of [proposal] may be handed to [attempt]. *)
Definition authorizes (r : BrokerProposalRecordV1) (proposal attempt : Digest) : Prop :=
  (exists checkpoint, rec_state r = Executing proposal attempt checkpoint) /\
  exists ratifier challenge signed_request,
    rec_authorization r = Some (HumanExact proposal ratifier challenge signed_request) /\
    independent_from (pb_proposer (cp_body (rec_canonical r))) ratifier = Ok true.

(** The event of the log that concerns the entity [e], and its effect. *)
Inductive tracks (e : string) : Track -> BrokerEvent -> Track -> Prop :=
  | tracks_record t r :
      record_entity r = e -> follows (tk_record t) r -> tracks e t (PersistedRecord r) (mkTrack (Some r) (armed_after t r))
  | tracks_other_record t r : record_entity r <> e -> tracks e t (PersistedRecord r) t
  | tracks_hand_over r proposal attempt ev :
      ev = RanEffect proposal attempt \/ ev = CommittedPointer proposal attempt ->
      proposal_entity proposal = e -> authorizes r proposal attempt ->
      tracks e (mkTrack (Some r) true) ev (mkTrack (Some r) false)
  | tracks_other_effect t proposal attempt ev :
      ev = RanEffect proposal attempt \/ ev = CommittedPointer proposal attempt ->
      proposal_entity proposal <> e -> tracks e t ev t.
Inductive run_of (e : string) : list BrokerEvent -> Track -> Prop :=
  | run_start : run_of e [] track_start
  | run_snoc l t ev t' : run_of e l t -> tracks e t ev t' -> run_of e (l ++ [ev]) t'.

(** The effects handed out for an entity. *)
Definition hands_out (e : string) (ev : BrokerEvent) : bool :=
  match ev with
  | RanEffect proposal _ | CommittedPointer proposal _ => proposal_entity proposal == e
  | PersistedRecord _ => false
  end.
Definition hand_overs (e : string) (l : list BrokerEvent) : nat := length (List.filter (hands_out e) l).

(** Whether an effect may still be handed out. *)
Definition pending (t : Track) : bool :=
  match tk_record t with
  | None => true
  | Some r =>
      match rec_state r with
      | Ready _ | AuthorizationBurned _ _ _ | Preparing _ _ => true
      | Executing _ _ _ => tk_armed t
      | _ => false
      end
  end.
Definition opened (t : Track) : Prop := forall r, tk_record t = Some r -> rec_state r <> Received.
Lemma tracks_opened e t ev t' : tracks e t ev t' -> opened t -> opened t'.
Proof.
  destruct 1 as [t r He Hf| |r p a ev _ _ _|]; intros Ho; [|done|exact Ho|done]. intros r' [= <-].
  destruct (tk_record t) as [old|] eqn:Ht; cbn in Hf; [|by rewrite Hf]. destruct Hf as [_ [->|[ev Ha]]]; [by apply Ho|].
  apply proposal_apply_step in Ha. destruct Ha; done.
Qed.
Lemma tracks_pending e t ev t' :
  tracks e t ev t' -> opened t -> Nat.b2n (hands_out e ev) + Nat.b2n (pending t') <= Nat.b2n (pending t).
Proof.
  destruct 1 as [t r He Hf| |r p a ev Hev Hp Ha|t p a ev Hev Hp]; intros Ho.
  - cbn [hands_out Nat.b2n Nat.add]. unfold pending at 1. cbn [tk_record tk_armed]. unfold armed_after.
    destruct t as [[old|] armed]; cbn [tk_record tk_armed follows] in *; [|by rewrite Hf].
    unfold pending. cbn [tk_record tk_armed]. destruct Hf as [_ [->|[ev Ha]]].
    + destruct (rec_state old); cbn; done || lia.
    + apply proposal_apply_step in Ha. specialize (Ho old eq_refl). destruct Ha; cbn; try done; try lia.
  - cbn. lia.
  - destruct Ha as [[checkpoint Hs] _]. unfold pending. cbn [tk_record tk_armed]. rewrite Hs.
    destruct Hev as [->| ->]; cbn [hands_out]; case_bool_decide; cbn; lia.
  - destruct Hev as [->| ->]; cbn [hands_out]; case_bool_decide; done.
Qed.
Lemma run_opened e l t : run_of e l t -> opened t.
Proof. induction 1; [done|]. by eapply tracks_opened. Qed.
(** One effect at most. *)
Lemma run_hands_out e l t : run_of e l t -> hand_overs e l + Nat.b2n (pending t) <= 1.
Proof.
  induction 1 as [|l t ev t' Hr IH Ht]; [done|]. pose proof (tracks_pending _ _ _ _ Ht (run_opened _ _ _ Hr)) as Hp.
  unfold hand_overs in *. rewrite List.filter_app, length_app. simpl. destruct (hands_out e ev); simpl in *; lia.
Qed.
(** Every effect is handed out under a record that authorizes it. *)
Lemma run_prefix e l l' t : run_of e (l ++ l') t -> exists t', run_of e l t'.
Proof.
  revert t. induction l' as [|ev l' IH] using rev_ind; intros t; [rewrite app_nil_r; eauto|]. rewrite app_assoc.
  inversion 1 as [Hn|l0 t0 ev0 t1 Hr _ He]; subst; [by destruct l, l'|]. apply app_inj_tail in He as [-> ->]. by eapply IH.
Qed.
Lemma run_authorized e l ev l' t proposal attempt :
  run_of e (l ++ ev :: l') t -> ev = RanEffect proposal attempt \/ ev = CommittedPointer proposal attempt ->
  proposal_entity proposal = e ->
  exists r, run_of e l (mkTrack (Some r) true) /\ authorizes r proposal attempt /\ hand_overs e (l ++ [ev]) = 1.
Proof.
  intros Hr Hev He. rewrite cons_middle, app_assoc in Hr. apply run_prefix in Hr as [t' Hr].
  pose proof (run_hands_out _ _ _ Hr) as Hc.
  assert (1 <= hand_overs e (l ++ [ev])) as Hone.
  { unfold hand_overs. rewrite List.filter_app, length_app. simpl.
    assert (hands_out e ev = true) as -> by (destruct Hev as [->| ->]; by apply bool_decide_eq_true). simpl. lia. }
  assert (hand_overs e (l ++ [ev]) = 1) as Hcount by lia.
  inversion Hr as [Hn|l0 t0 ev0 t1 Hr0 Ht Hl]; subst; [by destruct l|]. apply app_inj_tail in Hl as [-> ->].
  clear Hr Hc Hone. remember ev as ev0 eqn:Hev0. destruct Ht as [t0 r0 Hr1 Hf|t0 r0 Hr1|r p a ev1 Hev1 Hp Ha|t0 p a ev1 Hev1 Hp]; subst.
  - by destruct Hev.
  - by destruct Hev.
  - exists r. assert (p = proposal /\ a = attempt) as [-> ->] by (destruct Hev as [->| ->], Hev1 as [[= -> ->]|[= -> ->]]; done).
    done.
  - destruct Hp. by destruct Hev as [->| ->], Hev1 as [[= -> ->]|[= -> ->]].
Qed.
(** The record of a run is one of its log. *)
Lemma run_record e l t r : run_of e l t -> tk_record t = Some r -> PersistedRecord r ∈ l.
Proof.
  intros Hr. revert r. induction Hr as [|l t ev t' Hr IH Ht]; intros r Hx; [done|]. apply elem_of_app.
  destruct Ht as [t r0 He Hf|t r0 He|r0 p a ev Hev Hp Ha|t p a ev Hev Hp]; [right; injection Hx as <-; by left|left; by apply IH..].
Qed.

(** ** Calls that only look *)

(** A call that leaves the stored states and the log alone: everything the broker
    does to the world, to the replay guard, to its own volatile state and to the
    blobs. *)
Definition quiet {X Fd E A} (m : ST (BrokerState X Fd) E A) : Prop :=
  forall s, db_states (bs_db (m s).1) = db_states (bs_db s) /\ bs_log (m s).1 = bs_log s.
Create HintDb quiet discriminated.
#[export] Hint Constants Opaque : quiet.
#[export] Hint Variables Opaque : quiet.

Section Quiet.
  Context {X Fd : Type}.
  #[local] Abbreviation M := (ST (BrokerState X Fd)).
Lemma quiet_bind {E A B} (m : M E A) (k : A -> M E B) : quiet m -> (forall a, quiet (k a)) -> quiet (st_bind m k).
Proof.
  intros Hm Hk s. unfold st_bind. specialize (Hm s). destruct (m s) as [s' [a|e|]]; [|done..]. cbn in Hm.
  destruct (Hk a s') as [Hs Hl]. by rewrite Hs, Hl.
Qed.
Lemma quiet_try {E F A B} (m : M E A) (k : res E A -> M F B) : quiet m -> (forall r, quiet (k r)) -> quiet (st_try m k).
Proof.
  intros Hm Hk s. unfold st_try. specialize (Hm s). destruct (m s) as [s' [a|e|]]; [..|done]; cbn in Hm; edestruct Hk as [Hs Hl];
    by rewrite Hs, Hl.
Qed.
Lemma quiet_map_err {E F A} (f : E -> F) (m : M E A) : quiet m -> quiet (st_map_err f m).
Proof. intros Hm s. unfold st_map_err. specialize (Hm s). by destruct (m s). Qed.
Lemma quiet_pure {E A} (r : res E A) : quiet (X := X) (Fd := Fd) (pure r).
Proof. done. Qed.
Lemma quiet_get {E} : quiet (X := X) (Fd := Fd) (E := E) get.
Proof. done. Qed.
Lemma quiet_reading {A} (f : BrokerState X Fd -> res BrokerError A) : quiet (reading f).
Proof. done. Qed.
Lemma quiet_on_world {E A} (m : ST (PointerWorld X Fd) E A) : quiet (on_world m).
Proof. intros s. unfold on_world. by destruct (m (bs_world s)). Qed.
Lemma quiet_on_replay f : quiet (X := X) (Fd := Fd) (on_replay f).
Proof. intros s. unfold on_replay. by destruct (f (bs_replay s)). Qed.
Lemma quiet_activation ready receipt status : quiet (X := X) (Fd := Fd) (modify (set_activation ready receipt status)).
Proof. done. Qed.
Lemma quiet_challenges f : quiet (X := X) (Fd := Fd) (modify (fun s => set_challenges (f s) s)).
Proof. done. Qed.
End Quiet.
#[export] Hint Resolve quiet_bind quiet_try quiet_map_err quiet_pure quiet_get quiet_reading quiet_on_world quiet_on_replay
  quiet_activation quiet_challenges : quiet.

(** Unfold the named call and take it apart. *)
Ltac quiet_cases :=
  match goal with
  | |- quiet (match ?x with _ => _ end) => destruct x
  | |- quiet (let (_, _) := ?x in _) => destruct x
  | |- quiet (if ?x then _ else _) => destruct x
  end.
Ltac quiet_step :=
  first [ assumption
        | solve [eauto 2 with quiet nocore]
        | lazymatch goal with
          | |- quiet (st_bind _ _) => apply quiet_bind; [|intros ?]
          | |- quiet (st_try _ _) => apply quiet_try; [|intros ?]
          | |- quiet (st_map_err _ _) => apply quiet_map_err
          end
        | quiet_cases
        | match goal with |- quiet ?m => progress (let m' := eval cbv beta zeta in m in change (quiet m')) end ].
Ltac quiet := repeat quiet_step.

Section QuietCalls.
  Context `{JcsLaws, !HexLaws, !Sha256Laws, RpcDeps, ErrnoText, JcsErrorText, PointerTexts} {X Fd : Type}.
  Context `{!PointerHost X Fd, !BrokerParameters X}.
  #[local] Abbreviation Q m := (quiet (X := X) (Fd := Fd) m).

Lemma quiet_lift {A} (r : res BrokerError A) : Q (lift r). Proof. done. Qed.
Lemma quiet_store_read {A} (f : Database -> res StoreError A) : Q (store_read f). Proof. done. Qed.
Lemma quiet_host {A} (m : X -> X * A) : Q (host m). Proof. apply quiet_on_world. Qed.
Lemma quiet_pointer {A} (m : PointerM X Fd A) : quiet (pointer m). Proof. apply quiet_map_err, quiet_on_world. Qed.
Lemma quiet_evidence {A} (m : PointerM X Fd A) : quiet (evidence m). Proof. apply quiet_map_err, quiet_on_world. Qed.
Lemma quiet_sys {A} (m : ST X Errno A) : Q (broker_sys m). Proof. apply quiet_map_err, quiet_on_world. Qed.
Hint Resolve quiet_lift quiet_store_read quiet_host quiet_pointer quiet_evidence quiet_sys : quiet.
Lemma quiet_now : Q now_u64. Proof. unfold now_u64. quiet. Qed.
Hint Resolve quiet_now : quiet.
Lemma quiet_now_i64 : Q now_i64. Proof. unfold now_i64. quiet. Qed.
Lemma quiet_uuid : Q new_uuid. Proof. apply quiet_host. Qed.
Hint Resolve quiet_now_i64 quiet_uuid : quiet.
Lemma quiet_load b d : Q (load_proposal_with_revision b d). Proof. unfold load_proposal_with_revision. quiet. Qed.
Hint Resolve quiet_load : quiet.
Lemma quiet_load_proposal b d : Q (load_proposal b d). Proof. unfold load_proposal. quiet. Qed.
Lemma quiet_load_entity b e : Q (load_proposal_entity_with_revision b e). Proof. unfold load_proposal_entity_with_revision. quiet. Qed.
Hint Resolve quiet_load_proposal quiet_load_entity : quiet.
Lemma quiet_each_entity {A R} (body : A -> string -> BrokerM (A + R)) acc l :
  (forall acc e, Q (body acc e)) -> Q (each_entity body acc l).
Proof. intros Hb. revert acc. induction l as [|e l IH]; intros acc; cbn [each_entity]; quiet. Qed.
Lemma quiet_each_page {A R} fuel (body : A -> string -> BrokerM (A + R)) cursor acc :
  (forall acc e, Q (body acc e)) -> Q (each_page fuel body cursor acc).
Proof.
  intros Hb. revert cursor acc. induction fuel as [|fuel IH]; intros cursor acc; cbn [each_page]; quiet. by apply quiet_each_entity.
Qed.
Lemma quiet_each_proposal {A R} (body : A -> string -> BrokerM (A + R)) acc :
  (forall acc e, Q (body acc e)) -> Q (each_proposal body acc).
Proof. intros Hb. unfold each_proposal. quiet. by apply quiet_each_page. Qed.
Lemma quiet_heads b : Q (reconstruct_managed_pointer_activation_heads b).
Proof.
  unfold reconstruct_managed_pointer_activation_heads, promotion_history. quiet. apply quiet_each_proposal. intros. quiet.
Qed.
Lemma quiet_live b l : Q (validate_live_managed_pointer_heads b l).
Proof. induction l as [|[] l IH]; cbn [validate_live_managed_pointer_heads]; quiet. Qed.
Hint Resolve quiet_heads quiet_live : quiet.
Lemma quiet_current b : Q (validate_current_managed_pointer_activations b).
Proof. unfold validate_current_managed_pointer_activations. quiet. Qed.
Hint Resolve quiet_current : quiet.
Lemma quiet_require b : Q (require_authority_activation b). Proof. unfold require_authority_activation. quiet. Qed.
Hint Resolve quiet_require : quiet.
Lemma quiet_status b : Q (current_activation_status b). Proof. unfold current_activation_status. quiet. Qed.
Lemma quiet_health_for status : Q (health_for_activation status). Proof. unfold health_for_activation. quiet. Qed.
Hint Resolve quiet_status quiet_health_for : quiet.
Lemma quiet_health b : Q (health b). Proof. unfold health. quiet. Qed.
Lemma quiet_apply_activation b enrolled config a : Q (apply_live_activation b enrolled config a).
Proof. unfold apply_live_activation. quiet. Qed.
Lemma quiet_activation_failure phase code detail : Q (record_activation_failure phase code detail).
Proof. done. Qed.
Lemma quiet_ready_count b : Q (ready_proposal_count b).
Proof. unfold ready_proposal_count. quiet. apply quiet_each_proposal. intros. quiet. Qed.
Lemma quiet_validate_all b : Q (validate_all_proposal_records b).
Proof. unfold validate_all_proposal_records. quiet. apply quiet_each_proposal. intros. quiet. Qed.
Lemma quiet_observe_file path n : Q (observe_file path n).
Proof. unfold observe_file, observe_open_file. quiet. Qed.
Hint Resolve quiet_health quiet_ready_count quiet_observe_file : quiet.
Lemma quiet_observe_effect b e : Q (observe_canonical_effect b e).
Proof. unfold observe_canonical_effect. quiet. Qed.
Hint Resolve quiet_observe_effect : quiet.
Lemma quiet_observe_effects b o l : Q (observe_effects b o l).
Proof. revert o. induction l as [|e l IH]; intros o; cbn [observe_effects]; quiet. Qed.
Hint Resolve quiet_observe_effects : quiet.
Lemma quiet_observe b p : Q (observe_canonical_proposal b p).
Proof. unfold observe_canonical_proposal. quiet. Qed.
Lemma quiet_prepare_effect b p e : Q (prepare_effect b p e).
Proof. unfold prepare_effect. quiet. Qed.
Hint Resolve quiet_observe quiet_prepare_effect : quiet.
Lemma quiet_prepare_effects b p l : Q (prepare_effects b p l).
Proof. revert p. induction l as [|e l IH]; intros p; cbn [prepare_effects]; quiet. Qed.
Hint Resolve quiet_prepare_effects : quiet.
Lemma quiet_prepare_intent b i : Q (prepare_intent b i). Proof. unfold prepare_intent. quiet. Qed.
Lemma quiet_install d n c : Q (install_blob_bytes d n c).
Proof.
  unfold install_blob_bytes. quiet. intros s.
  destruct (install_blob _ _ _ _ _ _) as [[db files] r] eqn:Hi. by apply install_keeps_states in Hi.
Qed.
Hint Resolve quiet_prepare_intent quiet_install : quiet.
Lemma quiet_transfers b o l : Q (install_transfers b o l).
Proof. revert o. induction l as [|e l IH]; intros o; cbn [install_transfers]; quiet. Qed.
Hint Resolve quiet_transfers : quiet.
Lemma quiet_artifacts b i g l : Q (install_governed_artifacts b i g l).
Proof. unfold install_governed_artifacts. quiet. Qed.
Lemma quiet_freshness b g : Q (record_governed_ingress_freshness b g).
Proof. unfold record_governed_ingress_freshness. quiet. Qed.
Lemma quiet_refuse : Q refuse_quiesced. Proof. done. Qed.
Hint Resolve quiet_artifacts quiet_freshness quiet_refuse : quiet.
Lemma quiet_existing b g v p d r : Q (existing_submission b g v p d r).
Proof. unfold existing_submission. quiet. Qed.
Lemma quiet_take d : Q (take_challenge d).
Proof. intros s. unfold take_challenge. by destruct (btree_get _ _). Qed.
Lemma quiet_check c v p : Q (check_challenge c v p). Proof. unfold check_challenge. quiet. Qed.
Lemma quiet_expired e : Q (refuse_expired e). Proof. unfold refuse_expired. quiet. Qed.
Lemma quiet_ratifier b p c : Q (independent_ratifier b p c). Proof. unfold independent_ratifier. quiet. Qed.
Lemma quiet_draft b d : Q (draft_reconciliation b d). Proof. unfold draft_reconciliation. quiet. Qed.
Lemma quiet_inspect b d p : Q (inspect_proposal b d p). Proof. unfold inspect_proposal. quiet. Qed.
Lemma quiet_summaries b p l : Q (summaries b p l).
Proof. revert p. induction l as [|e l IH]; intros p; cbn [summaries]; quiet. Qed.
Hint Resolve quiet_summaries : quiet.
Lemma quiet_list b n : Q (list_proposals b n). Proof. unfold list_proposals. quiet. Qed.
End QuietCalls.
#[export] Hint Resolve quiet_lift quiet_store_read quiet_host quiet_pointer quiet_evidence quiet_sys quiet_now quiet_now_i64 quiet_uuid
  quiet_load quiet_load_proposal quiet_load_entity quiet_require quiet_status quiet_health_for quiet_health quiet_apply_activation
  quiet_activation_failure quiet_ready_count quiet_validate_all quiet_observe quiet_prepare_intent quiet_artifacts quiet_freshness
  quiet_refuse quiet_existing quiet_take quiet_check quiet_expired quiet_ratifier quiet_draft quiet_inspect quiet_list : quiet.

(** ** Calls that write *)

Section Writes.
  Context `{JcsLaws, !HexLaws, !Sha256Laws, RpcDeps, ErrnoText, JcsErrorText, PointerTexts} {X Fd : Type}.
  Context `{!PointerHost X Fd, !BrokerParameters X}.
  #[local] Abbreviation State := (BrokerState X Fd).

(** serde reads back what it wrote. *)
Definition record_exact (r : BrokerProposalRecordV1) : Prop := forall bs, jcs r = Ok bs -> decode_proposal bs = inr r.
(** The store holds [o] for the entity. *)
Definition reads (db : Database) (e : string) (o : option BrokerProposalRecordV1) : Prop :=
  match o with
  | None => materialized_state decode_proposal db e = Ok None
  | Some r => exists m, materialized_state decode_proposal db e = Ok (Some m) /\ ms_state _ m = r /\ (1 <= ms_revision _ m)%Z
  end.
Definition at_track (e : string) (t : Track) (s : State) : Prop := run_of e (bs_log s) t /\ reads (bs_db s) e (tk_record t).
(** The broker's invariant: its log is a run of the automaton for every proposal, and
    the store holds the record this run ends in. *)
Definition tracked (s : State) : Prop := forall d, exists t, at_track (proposal_entity d) t s.

Lemma entity_kinds d d' : proposal_entity d <> submission_entity d'.
Proof. unfold proposal_entity, submission_entity. intros He. cbn in He. simplify_eq. Qed.
Lemma reads_states db db' e o : db_states db' = db_states db -> reads db e o -> reads db' e o.
Proof. unfold reads, materialized_state. by intros ->. Qed.
Lemma reads_same db db' e o :
  materialized_state decode_proposal db' e = materialized_state decode_proposal db e -> reads db e o -> reads db' e o.
Proof. unfold reads. by intros ->. Qed.

(** What an append checks of the entity's revision. *)
Lemma append_revision `{Serialize P, Serialize A} (event : NewEventV1 P) (state : A) expected db db' receipt :
  append_event_in_transaction event state expected db = Ok (db', receipt) ->
  materialized_revision db (ne_entity_id event) = Ok expected /\ (0 <= expected)%Z.
Proof.
  unfold append_event_in_transaction. intros Ha. apply then_ok in Ha as [_ Ha]. apply guard_ok in Ha as [_ Ha].
  apply res_bind_ok in Ha as (head & _ & Ha). apply res_bind_ok in Ha as (rev & Hrev & Ha).
  apply guard_ok in Ha as [Heq%negb_false_iff%Z.eqb_eq _]. subst expected. split; [done|].
  unfold materialized_revision, to_u64 in Hrev. by apply guard_ok in Hrev as [?%Z.ltb_ge [= <-]].
Qed.
(** One append: the entity reads as the record just written, the others as before. *)
Lemma append_in_reads `{Serialize P} (event : NewEventV1 P) r expected db db' receipt :
  append_event_in_transaction event r expected db = Ok (db', receipt) -> record_exact r ->
  reads db' (ne_entity_id event) (Some r) /\
  forall e o, e <> ne_entity_id event -> reads db e o -> reads db' e o.
Proof.
  intros Ha Hx. destruct (append_revision _ _ _ _ _ _ Ha) as [_ Hpos].
  apply append_reads in Ha as (bs & sequence & ed & Hb & Hr). split.
  - eexists. rewrite Hr, bool_decide_eq_true_2 by done. rewrite (Hx bs Hb). split_all; [done|done|]. cbn. lia.
  - intros e o He. apply reads_same. by rewrite Hr, bool_decide_eq_false_2.
Qed.
(** An append that creates the entity finds none. *)
Lemma append_creates `{Serialize P, Serialize A} (event : NewEventV1 P) (state : A) db db' receipt o :
  append_event_in_transaction event state 0 db = Ok (db', receipt) -> reads db (ne_entity_id event) o -> o = None.
Proof.
  intros [Hz _]%append_revision. destruct o as [r|]; [|done]. intros (m & Hm & _ & Hge). exfalso.
  unfold materialized_revision in Hz. unfold materialized_state in Hm. destruct (find_state _ _) as [row|]; [|done].
  apply res_bind_ok in Hm as (x & _ & Hm). rewrite Hz in Hm. cbn [res_bind] in Hm.
  apply res_bind_ok in Hm as (? & _ & Hm). apply res_bind_ok in Hm as (? & _ & Hm). apply res_bind_ok in Hm as (? & _ & [= <-]).
  cbn in Hge. lia.
Qed.
Lemma append_event_tx `{Serialize P, Serialize A} (event : NewEventV1 P) (state : A) expected db db' receipt :
  append_event event state expected db = Ok (db', receipt) -> append_event_in_transaction event state expected db = Ok (db', receipt).
Proof. unfold append_event. intros Ha. apply then_ok in Ha as [_ Ha]. by apply then_ok in Ha as [_ Ha]. Qed.
(** The two appends of a canonical submission. *)
Lemma append_pair_tx `{Serialize P1, Serialize S1, Serialize P2, Serialize S2} (ev1 : NewEventV1 P1) (s1 : S1) x1
    (ev2 : NewEventV1 P2) (s2 : S2) x2 db db' receipts :
  append_distinct_event_pair ev1 s1 x1 ev2 s2 x2 db = Ok (db', receipts) ->
  exists db1 r1 r2, append_event_in_transaction ev1 s1 x1 db = Ok (db1, r1) /\ append_event_in_transaction ev2 s2 x2 db1 = Ok (db', r2).
Proof.
  unfold append_distinct_event_pair. intros Ha. apply then_ok in Ha as [_ Ha]. apply then_ok in Ha as [_ Ha].
  apply guard_ok in Ha as [_ Ha]. apply then_ok in Ha as [_ Ha]. apply res_bind_ok in Ha as ([db1 r1] & Ha1 & Ha).
  apply res_bind_ok in Ha as ([db2 r2] & Ha2 & [= <- _]). eauto.
Qed.

(** ** Safe calls

    [safe P m Q]: the call extends the log; from a tracked state in [P], if the
    records written up to its end read back exactly, it leaves a tracked state, in [Q]
    of its answer.  [final] is the log at the end of the run in question. *)
Definition grows {E A} (m : ST State E A) : Prop := forall s, exists suffix, bs_log (m s).1 = bs_log s ++ suffix.

Section Safe.
  Context (final : list BrokerEvent).
  Hypothesis final_exact : forall r, PersistedRecord r ∈ final -> record_exact r.

Definition below (s : State) : Prop := exists rest, final = bs_log s ++ rest.
Definition safe {E A} (P : State -> Prop) (m : ST State E A) (Q : res E A -> State -> Prop) : Prop :=
  grows m /\ forall s, P s -> tracked s -> below (m s).1 -> tracked (m s).1 /\ Q (m s).2 (m s).1.
Definition anyway {A} : A -> State -> Prop := fun _ _ => True.
Definition on_ok {E A} (Q : A -> State -> Prop) (r : res E A) (s : State) : Prop := forall a, r = Ok a -> Q a s.
(** Assertions on the stored states and the log. *)
Definition stable (P : State -> Prop) : Prop :=
  forall s s', db_states (bs_db s') = db_states (bs_db s) -> bs_log s' = bs_log s -> P s -> P s'.

Lemma stable_at e t : stable (at_track e t).
Proof. intros s s' Hd Hl [Hr Hs]. split; [by rewrite Hl|]. by eapply reads_states. Qed.
Lemma stable_true : stable (fun _ => True). Proof. done. Qed.
Lemma stable_tracked : stable tracked.
Proof. intros s s' Hd Hl Ht d. destruct (Ht d) as [t Hat]. exists t. by eapply stable_at. Qed.
Lemma below_earlier s s' suffix : bs_log s' = bs_log s ++ suffix -> below s' -> below s.
Proof. intros Hl [rest Hf]. exists (suffix ++ rest). by rewrite Hf, Hl, app_assoc. Qed.

Lemma safe_quiet {E A} P (m : ST State E A) : stable P -> quiet m -> safe P m (fun _ => P).
Proof.
  intros HP Hm. split; [intros s; destruct (Hm s) as [_ ->]; exists []; by rewrite app_nil_r|].
  intros s Hp Ht _. destruct (Hm s) as [Hd Hl]. split; [by eapply stable_tracked|by eapply HP].
Qed.
Lemma safe_weaken {E A} (P P' : State -> Prop) (m : ST State E A) (Q Q' : res E A -> State -> Prop) :
  safe P m Q -> (forall s, P' s -> P s) -> (forall r s, Q r s -> Q' r s) -> safe P' m Q'.
Proof. intros [Hg Hm] HP HQ. split; [done|]. intros s Hp Ht Hb. destruct (Hm s (HP s Hp) Ht Hb). eauto. Qed.
Lemma safe_try {E F A B} P (m : ST State E A) (k : res E A -> ST State F B) R Q :
  safe P m R -> (forall r, safe (R r) (k r) Q) -> (forall s, Q Panic s) -> safe P (st_try m k) Q.
Proof.
  intros [Hg Hm] Hk HQ. split.
  - intros s. unfold st_try. destruct (Hg s) as [l1 Hl1]. destruct (m s) as [s1 [a|e|]]; cbn in Hl1; [..|eauto];
      destruct (Hk (Ok a)) as [Hgk _] || destruct (Hk (Err e)) as [Hgk _];
      destruct (Hgk s1) as [l2 ->]; rewrite Hl1, <- app_assoc; eauto.
  - intros s Hp Ht. unfold st_try. specialize (Hm s Hp Ht). pose proof (fun r => proj1 (Hk r) (m s).1) as Hgk.
    destruct (m s) as [s1 [a|e|]]; cbn in *; intros Hb; [| |destruct (Hm Hb); split; [done|apply HQ]].
    + destruct (Hgk (Ok a)) as [l2 Hl2]. destruct (Hm (below_earlier _ _ _ Hl2 Hb)). by apply (Hk (Ok a)).
    + destruct (Hgk (Err e)) as [l2 Hl2]. destruct (Hm (below_earlier _ _ _ Hl2 Hb)). by apply (Hk (Err e)).
Qed.
Lemma safe_bind {E A B} P (m : ST State E A) (k : A -> ST State E B) R Q :
  safe P m (on_ok R) -> (forall a, safe (R a) (k a) (on_ok Q)) -> safe P (st_bind m k) (on_ok Q).
Proof.
  intros [Hg Hm] Hk. split.
  - intros s. unfold st_bind. destruct (Hg s) as [l1 Hl1]. destruct (m s) as [s1 [a|e|]]; cbn in Hl1; [|eauto..].
    destruct (Hk a) as [Hgk _]. destruct (Hgk s1) as [l2 ->]. rewrite Hl1, <- app_assoc. eauto.
  - intros s Hp Ht. unfold st_bind. destruct (m s) as [s1 [a|e|]] eqn:He; intros Hb.
    2,3: specialize (Hm s Hp Ht); rewrite He in Hm; destruct (Hm Hb); by split.
    destruct (Hk a) as [Hgk Hkr]. destruct (Hgk s1) as [l2 Hl2].
    specialize (Hm s Hp Ht). rewrite He in Hm. cbn in Hm. destruct (Hm (below_earlier _ _ _ Hl2 Hb)) as [Ht1 Hr1].
    apply Hkr; [by apply Hr1|done..].
Qed.
Lemma safe_lift {A B} P (r : res BrokerError A) (k : A -> ST State BrokerError B) Q :
  (forall a, r = Ok a -> safe P (k a) (on_ok Q)) -> safe P (st_bind (lift r) k) (on_ok Q).
Proof.
  intros Hk. destruct r as [a|e|]; [apply (Hk a eq_refl)|..]; (split; [intros s; exists []; by rewrite app_nil_r|]);
    intros s _ Ht _; done.
Qed.
Lemma safe_skip {E A B} P (m : ST State E A) (k : A -> ST State E B) Q :
  stable P -> quiet m -> (forall a, safe P (k a) (on_ok Q)) -> safe P (st_bind m k) (on_ok Q).
Proof.
  intros HP Hm. apply safe_bind. eapply safe_weaken; [by apply safe_quiet|done|]. intros r s Hs a _. exact Hs.
Qed.
Lemma safe_done {E A} P (r : res E A) Q : (forall a s, r = Ok a -> P s -> Q a s) -> safe P (pure r) (on_ok Q).
Proof.
  intros HQ. split; [intros s; exists []; by rewrite app_nil_r|]. intros s Hp Ht _. split; [done|]. intros a Ha. by apply HQ.
Qed.

(** A write of a record, and its event. *)
Definition record_write {A} (tx : Tx A) (r : BrokerProposalRecordV1) (o : option BrokerProposalRecordV1) : Prop :=
  forall db db' a, tx db = Ok (db', a) -> record_exact r -> reads db (record_entity r) o ->
  follows o r /\ reads db' (record_entity r) (Some r) /\
  forall d o', proposal_entity d <> record_entity r -> reads db (proposal_entity d) o' -> reads db' (proposal_entity d) o'.
Lemma safe_write {A B} (tx : Tx A) r (f : A -> B) t :
  record_write tx r (tk_record t) ->
  safe (at_track (record_entity r) t)
    (let! a := store_write tx in note (PersistedRecord r) ;! lift (Ok (f a)))
    (on_ok (fun _ => at_track (record_entity r) (mkTrack (Some r) (armed_after t r)))).
Proof.
  intros Hw. unfold store_write. split.
  - intros s. rewrite !st_bind_run. pose proof (quiet_host store_io s) as [_ Hl]. destruct (host store_io s) as [s1 [[x|]|e|]]; cbn in *.
    2: destruct (commit tx (bs_db s1)) as [db [a|e|]]; cbn; rewrite Hl; [by eexists|exists []; by rewrite app_nil_r..].
    all: exists []; by rewrite app_nil_r.
  - intros s Hp Ht. rewrite !st_bind_run. pose proof (quiet_host store_io s) as [Hd Hl].
    destruct (host store_io s) as [s1 [[x|]|e|]]; cbn in *; intros Hb.
    1,3,4: (split; [by eapply stable_tracked|done]).
    assert (at_track (record_entity r) t s1) as [Hr Hs] by (by eapply stable_at).
    assert (tracked s1) as Ht1 by (by eapply stable_tracked). unfold commit in *.
    destruct (tx (bs_db s1)) as [[db a]|e|] eqn:Htx; cbn in *.
    2,3: (split; [|done]; eapply stable_tracked; [..|exact Ht1]; done).
    assert (record_exact r) as Hx. { apply final_exact. destruct Hb as [rest ->]. cbn. set_solver. }
    destruct (Hw _ _ _ Htx Hx Hs) as (Hf & Hnew & Hold).
    assert (at_track (record_entity r) (mkTrack (Some r) (armed_after t r)) (add_event (PersistedRecord r) (set_store db (bs_files s1) s1)))
      as Hat by (split; [eapply run_snoc; [exact Hr|by constructor]|exact Hnew]).
    split; [|by intros ? _]. intros d. destruct (decide (proposal_entity d = record_entity r)) as [->|Hne]; [eauto|].
    destruct (Ht1 d) as [t1 [Hr1 Hs1]]. exists t1. split; [|by apply Hold]. eapply run_snoc; [exact Hr1|].
    apply tracks_other_record. auto.
Qed.
Lemma append_writes `{Serialize P} (event : NewEventV1 P) r expected o :
  ne_entity_id event = record_entity r -> follows o r -> record_write (append_event event r expected) r o.
Proof.
  intros He Hf db db' a Ha%append_event_tx Hx Hs. apply append_in_reads in Ha as [Hn Ho]; [|done]. rewrite He in *.
  split_all; [done..|]. intros d o' Hne. by apply Ho.
Qed.
(** [persist_record] of a record that may follow the stored one. *)
Lemma safe_persist `{Serialize P} b r rev kind (payload : P) t :
  follows (tk_record t) r ->
  safe (at_track (record_entity r) t) (persist_record b r rev kind payload)
    (on_ok (fun _ => at_track (record_entity r) (mkTrack (Some r) (armed_after t r)))).
Proof.
  intros Hf. unfold persist_record. apply safe_lift. intros [] _.
  apply safe_skip; [apply stable_at|auto with quiet|]. intros id. apply safe_skip; [apply stable_at|auto with quiet|]. intros at_.
  apply (safe_write _ r rc_entity_revision). by apply append_writes.
Qed.
(** A write of another kind of entity. *)
Lemma safe_persist_submission r kind : safe (fun _ => True) (persist_submission r kind) (on_ok (fun _ _ => True)).
Proof.
  unfold persist_submission. apply safe_skip; [done|auto with quiet|]. intros id. apply safe_skip; [done|auto with quiet|]. intros at_.
  unfold store_write. split.
  - intros s. rewrite !st_bind_run. pose proof (quiet_host store_io s) as [_ Hl]. destruct (host store_io s) as [s1 [[x|]|e|]]; cbn in *.
    2: destruct (commit _ (bs_db s1)) as [db [a|e|]]; cbn; rewrite Hl.
    all: exists []; by rewrite app_nil_r.
  - intros s _ Ht. rewrite !st_bind_run. pose proof (quiet_host store_io s) as [Hd Hl].
    destruct (host store_io s) as [s1 [[x|]|e|]]; cbn in *; intros Hb.
    1,3,4: (split; [by eapply stable_tracked|done]).
    assert (tracked s1) as Ht1 by (by eapply stable_tracked). unfold commit in *.
    destruct (append_event _ _ _ (bs_db s1)) as [[db a]|e|] eqn:Htx; cbn in *.
    2,3: (split; [|done]; eapply stable_tracked; [..|exact Ht1]; done).
    split; [|done]. intros d. destruct (Ht1 d) as [t [Hr Hs]]. exists t. split; [exact Hr|]. revert Hs. apply reads_same.
    apply append_event_tx, append_reads in Htx as (bs & sequence & ed & _ & Hreads). cbn [ne_entity_id] in Hreads.
    rewrite Hreads, bool_decide_eq_false_2; [done|]. intros Heq. symmetry in Heq. by apply entity_kinds in Heq.
Qed.
(** The hand-over of an armed attempt. *)
Lemma safe_note e r proposal attempt ev :
  ev = RanEffect proposal attempt \/ ev = CommittedPointer proposal attempt -> proposal_entity proposal = e ->
  authorizes r proposal attempt ->
  safe (at_track e (mkTrack (Some r) true)) (note ev) (on_ok (fun _ => at_track e (mkTrack (Some r) false))).
Proof.
  intros Hev He Ha. split; [intros s; by eexists|]. intros s [Hr Hs] Ht Hb.
  assert (at_track e (mkTrack (Some r) false) (add_event ev s)) as Hat
    by (split; [eapply run_snoc; [exact Hr|by econstructor]|exact Hs]).
  split; [|by intros ? _]. intros d. destruct (decide (proposal_entity d = e)) as [->|Hne]; [eauto|].
  destruct (Ht d) as [t1 [Hr1 Hs1]]. exists t1. split; [|exact Hs1]. eapply run_snoc; [exact Hr1|].
  eapply tracks_other_effect; [exact Hev|]. by rewrite He.
Qed.

(** What the log and the store say of a proposal, when a call looks at it. *)
Lemma safe_track {E A} d (m : ST State E A) Q :
  (forall t, safe (at_track (proposal_entity d) t) m Q) -> safe (fun _ => True) m Q.
Proof.
  intros Hm. split; [apply (Hm track_start)|]. intros s _ Ht. destruct (Ht d) as [t Hat]. by apply (Hm t).
Qed.
Lemma validated_entity b d r : validate_proposal_record (Fd := Fd) b d r = Ok tt -> cp_digest (rec_canonical r) = d.
Proof.
  unfold validate_proposal_record. intros Hv. apply then_ok in Hv as [Hv _]. unfold validate_context in Hv.
  apply then_ok in Hv as [_ Hv]. apply then_ok in Hv as [_ Hv]. apply then_ok in Hv as [Hd _].
  unfold require_record_invariant in Hd. by destruct (bool_decide_reflect (d = cp_digest (rec_canonical r))).
Qed.
Lemma loaded_entity e d : proposal_digest_from_entity e = Ok d -> proposal_entity d = e.
Proof.
  unfold proposal_digest_from_entity. intros Hd. apply guard_ok in Hd as [_ Hd]. apply res_bind_ok in Hd as (d' & _ & Hd).
  apply guard_ok in Hd as [Hg [= ->]]. apply negb_false_iff in Hg. by apply bool_decide_eq_true in Hg.
Qed.
(** A call that reads one proposal and goes on with what it read. *)
Lemma safe_reads {B} d (load : BrokerM (MaterializedStateV1 BrokerProposalRecordV1)) (k : _ -> ST State BrokerError B) Q :
  (forall s, (load s).1 = s /\
     forall loaded, (load s).2 = Ok loaded -> materialized_state decode_proposal (bs_db s) (proposal_entity d) = Ok (Some loaded)) ->
  (forall s loaded, (load s).2 = Ok loaded ->
     forall armed, safe (at_track (proposal_entity d) (mkTrack (Some (ms_state _ loaded)) armed)) (k loaded) (on_ok Q)) ->
  safe (fun _ => True) (let! loaded := load in k loaded) (on_ok Q).
Proof.
  intros Hload Hk. split; intros s.
  - rewrite st_bind_run. destruct (Hload s) as [He _]. pose proof (Hk s) as Hks. destruct (load s) as [s' [loaded|e|]]; cbn in *; subst s'.
    + by apply (Hks loaded eq_refl false).
    + exists []. by rewrite app_nil_r.
    + exists []. by rewrite app_nil_r.
  - intros _ Ht. rewrite st_bind_run. destruct (Hload s) as [He Hm]. pose proof (Hk s) as Hks.
    destruct (load s) as [s' [loaded|e|]]; cbn in *; subst s'; [|done..].
    destruct (Ht d) as [[o armed] [Hr Hs]]. specialize (Hm loaded eq_refl). cbn [tk_record] in Hs.
    destruct o as [r|]; cbn [reads] in Hs; [|by rewrite Hs in Hm]. destruct Hs as (m & Hs & <- & Hpos). rewrite Hs in Hm.
    injection Hm as ->. apply (Hks loaded eq_refl armed); [|done]. split; [exact Hr|]. cbn [tk_record reads]. eauto.
Qed.
Lemma load_run b d (s : State) :
  (load_proposal_with_revision b d s).1 = s /\
  forall loaded, (load_proposal_with_revision b d s).2 = Ok loaded ->
  materialized_state decode_proposal (bs_db s) (proposal_entity d) = Ok (Some loaded) /\ cp_digest (rec_canonical (ms_state _ loaded)) = d.
Proof.
  unfold load_proposal_with_revision, store_read, reading, lift, pure. rewrite st_bind_run.
  destruct (materialized_state _ _ _) as [[m|]|e|]; cbn; [|done..].
  destruct (validate_proposal_record b d (ms_state _ m)) as [[]|e|] eqn:Hv; cbn; [|done..]. split; [done|]. intros ? [= <-].
  split; [done|]. by apply validated_entity in Hv.
Qed.
Lemma load_entity_run b e (s : State) :
  (load_proposal_entity_with_revision b e s).1 = s /\
  forall loaded, (load_proposal_entity_with_revision b e s).2 = Ok loaded ->
  materialized_state decode_proposal (bs_db s) e = Ok (Some loaded) /\ record_entity (ms_state _ loaded) = e /\
  proposal_digest_from_entity e = Ok (cp_digest (rec_canonical (ms_state _ loaded))).
Proof.
  unfold load_proposal_entity_with_revision, store_read, reading, lift, pure. rewrite st_bind_run.
  destruct (proposal_digest_from_entity e) as [d|x|] eqn:Hd; cbn; [|done..].
  destruct (materialized_state _ _ _) as [[m|]|x|]; cbn; [|done..].
  destruct (reject_if _ _) as [[]|x|]; cbn; [|done..].
  destruct (validate_proposal_record b d (ms_state _ m)) as [[]|x|] eqn:Hv; cbn; [|done..]. split; [done|]. intros ? [= <-].
  apply validated_entity in Hv. unfold record_entity. rewrite Hv. split_all; [done| |done]. by apply loaded_entity.
Qed.
Lemma safe_load {B} b d (k : MaterializedStateV1 BrokerProposalRecordV1 -> ST State BrokerError B) Q :
  (forall loaded armed, cp_digest (rec_canonical (ms_state _ loaded)) = d ->
     safe (at_track (record_entity (ms_state _ loaded)) (mkTrack (Some (ms_state _ loaded)) armed)) (k loaded) (on_ok Q)) ->
  safe (fun _ => True) (let! loaded := load_proposal_with_revision b d in k loaded) (on_ok Q).
Proof.
  intros Hk. apply (safe_reads d).
  - intros s. destruct (load_run b d s) as [Hs Hl]. split; [done|]. intros loaded Hr. by apply Hl.
  - intros s loaded Hr armed. destruct (load_run b d s) as [_ Hl]. destruct (Hl _ Hr) as [_ Hc].
    specialize (Hk loaded armed Hc). unfold record_entity in Hk. by rewrite Hc in Hk.
Qed.
Lemma safe_load_entity {B} b e (k : MaterializedStateV1 BrokerProposalRecordV1 -> ST State BrokerError B) Q :
  (forall loaded armed, record_entity (ms_state _ loaded) = e ->
     safe (at_track (record_entity (ms_state _ loaded)) (mkTrack (Some (ms_state _ loaded)) armed)) (k loaded) (on_ok Q)) ->
  safe (fun _ => True) (let! loaded := load_proposal_entity_with_revision b e in k loaded) (on_ok Q).
Proof.
  intros Hk. destruct (proposal_digest_from_entity e) as [d|x|] eqn:Hd.
  2,3: split; [intros s; exists []; unfold load_proposal_entity_with_revision; rewrite Hd; by rewrite app_nil_r|];
    intros s _ Ht; unfold load_proposal_entity_with_revision; rewrite Hd; done.
  pose proof (loaded_entity e d Hd) as <-. apply (safe_reads d).
  - intros s. destruct (load_entity_run b (proposal_entity d) s) as [Hs Hl]. split; [done|]. intros loaded Hr. by apply Hl.
  - intros s loaded Hr armed. destruct (load_entity_run b (proposal_entity d) s) as [_ Hl]. destruct (Hl _ Hr) as (_ & He & _).
    specialize (Hk loaded armed He). by rewrite He in Hk.
Qed.

(** ** The handlers are safe *)

#[local] Abbreviation anything := (on_ok (fun _ _ => True)).

(** The next record, then the rest of the call. *)
Lemma safe_next `{Serialize P} {B} b e r rev kind (payload : P) t (k : Z -> ST State BrokerError B) Q :
  record_entity r = e -> follows (tk_record t) r ->
  (forall rev', safe (at_track e (mkTrack (Some r) (armed_after t r))) (k rev') (on_ok Q)) ->
  safe (at_track e t) (let! rev' := persist_record b r rev kind payload in k rev') (on_ok Q).
Proof. intros <- Hf Hk. eapply safe_bind; [by apply safe_persist|]. exact Hk. Qed.
Lemma follows_apply old new event :
  rec_canonical new = rec_canonical old -> apply_event old event = Ok (rec_state new) -> follows (Some old) new.
Proof. intros Hc Ha%map_err_ok. split; [done|]. right. eauto. Qed.
Lemma follows_same old new : rec_canonical new = rec_canonical old -> rec_state new = rec_state old -> follows (Some old) new.
Proof. intros Hc Hs. split; [done|]. by left. Qed.

Lemma safe_finish_execution b e record rev receipt ce pe act armed :
  record_entity record = e ->
  safe (at_track e (mkTrack (Some record) armed)) (finish_execution b record rev receipt ce pe act) anything.
Proof.
  intros <-. unfold finish_execution. apply safe_lift. intros d _.
  assert (forall P (HP : Serialize P) kind (payload : P) (k : Z -> BrokerM EffectAdminResponseV1),
    (forall rev' armed', safe (at_track (record_entity record) (mkTrack (Some (with_step d record)) armed')) (k rev') anything) ->
    safe (at_track (record_entity record) (mkTrack (Some record) armed))
      (let! rev' := persist_record b (with_step d record) rev kind payload in k rev') anything) as Hstep.
  { intros P HP kind payload k Hk. eapply safe_next; [done|by apply follows_same|]. intros rev'. apply Hk. }
  match goal with |- safe _ (st_bind (if ?c then _ else _) _) _ => destruct c end; apply Hstep; intros rev' armed'; clear Hstep;
    (apply safe_lift; intros attempt _; apply safe_lift; intros terminal _; apply safe_lift; intros state Hst);
    (eapply safe_next; [done|by eapply follows_apply|intros ?; by apply safe_done]).
Qed.
Lemma safe_finish_preparation b e record rev receipt armed :
  record_entity record = e ->
  safe (at_track e (mkTrack (Some record) armed)) (finish_preparation_failure b record rev receipt) anything.
Proof.
  intros <-. unfold finish_preparation_failure. apply safe_lift. intros d _. apply safe_lift. intros attempt _. apply safe_lift.
  intros [terminal event] _. apply safe_lift. intros state Hst.
  eapply safe_next; [done|by eapply follows_apply|]. intros ?. by apply safe_done.
Qed.
Lemma safe_refusal {A} b loaded auth binding at_ err armed Q :
  safe (at_track (record_entity (ms_state _ loaded)) (mkTrack (Some (ms_state _ loaded)) armed))
    (record_promotion_refusal (A := A) b loaded auth binding at_ err) (on_ok Q).
Proof.
  unfold record_promotion_refusal. apply safe_lift. intros receipt _.
  eapply safe_next; [by destruct (_ <? _)|apply follows_same; by destruct (_ <? _)|]. intros ?. by apply safe_done.
Qed.

#[local] Ltac skip := apply safe_skip; [apply stable_at || done|solve [quiet]|intros ?].
#[local] Ltac lifted := apply safe_lift; intros ? ?.

Lemma safe_ratify_promotion b heads context loaded auth effect p armed :
  let at_loaded := at_track (record_entity (ms_state _ loaded)) (mkTrack (Some (ms_state _ loaded)) armed) in
  safe at_loaded (ratify_promotion b heads context loaded auth effect p) (on_ok (fun _ => at_loaded)).
Proof.
  intros at_loaded. assert (stable at_loaded) as Hst by apply stable_at. unfold ratify_promotion. lifted. lifted. lifted. skip. lifted.
  match goal with |- safe _ (if ?c then _ else _) _ => destruct c end; [apply safe_refusal|].
  eapply (safe_try _ _ _ (fun _ => at_loaded)); [by apply safe_quiet, quiet_on_world| |done]. intros [standing|error|].
  - by apply safe_done.
  - apply safe_refusal.
  - by apply safe_done.
Qed.
(** The record of a burned authority. *)
Definition burned_for (context : ManagedPointerExecutionContextV1) (r : BrokerProposalRecordV1) : Prop :=
  (exists family, rec_state r = AuthorizationBurned (xc_proposal context) (xc_authorization context) family) /\
  cp_digest (rec_canonical r) = xc_proposal context /\
  exists ratifier challenge signed_request,
    rec_authorization r = Some (HumanExact (xc_proposal context) ratifier challenge signed_request) /\
    independent_from (pb_proposer (cp_body (rec_canonical r))) ratifier = Ok true.
Lemma safe_run_effect b r rev context effect armed :
  burned_for context r ->
  safe (at_track (record_entity r) (mkTrack (Some r) armed)) (run_effect b (with_attempt (xc_attempt context) r) rev context effect) anything.
Proof.
  intros ((family & Hs) & Hd & ratifier & challenge & signed & Ha & Hi). unfold run_effect. apply safe_lift. intros state Hst.
  eapply safe_next; [done|by eapply (follows_apply r (with_state state _))|]. intros rev'.
  unfold apply_event in Hst. cbn [rec_state with_attempt] in Hst. rewrite Hs in Hst.
  apply map_err_ok, proposal_apply_step in Hst. inversion Hst; subst. unfold armed_after. cbn [rec_state with_state with_attempt tk_record].
  rewrite Hs. cbn [executing andb].
  eapply safe_bind; [eapply safe_note; [by left|by rewrite <- Hd|split; [by eexists|]; by eexists _, _, _]|].
  intros []. apply safe_skip; [apply stable_at|quiet|]. intros s0. apply safe_skip; [apply stable_at|quiet|]. intros receipt.
  by apply safe_finish_execution.
Qed.
Lemma safe_run_promotion b r rev context effect standing armed :
  burned_for context r ->
  safe (at_track (record_entity r) (mkTrack (Some r) armed))
    (run_promotion b (with_attempt (xc_attempt context) r) rev context effect standing) anything.
Proof.
  intros ((family & Hs) & Hd & ratifier & challenge & signed & Ha & Hi). unfold run_promotion. lifted.
  apply safe_lift. intros state Hst. eapply safe_next; [done|by eapply (follows_apply r (with_state state _))|]. intros rev'.
  unfold apply_event in Hst. cbn [rec_state with_attempt] in Hst. rewrite Hs in Hst.
  apply map_err_ok, proposal_apply_step in Hst. inversion Hst; subst. skip. apply safe_skip; [apply stable_at|quiet|]. intros s0.
  eapply safe_try; [apply safe_quiet; [apply stable_at|apply quiet_on_world]| |done]. intros [prepared|receipt|]; [| |by apply safe_done].
  2: by apply safe_finish_preparation.
  apply safe_lift. intros state Hst2. eapply safe_next; [done|by eapply (follows_apply _ (with_state state _))|]. intros rev2.
  unfold apply_event in Hst2. apply map_err_ok, proposal_apply_step in Hst2. inversion Hst2; subst. skip.
  eapply safe_bind; [eapply safe_note; [by right|by rewrite <- Hd|split; [by eexists|]; by eexists _, _, _]|].
  intros []. apply safe_skip; [apply stable_at|quiet|]. intros result. by apply safe_finish_execution.
Qed.
Lemma independent_ratifier_ok b peer canonical (s s' : State) ratifier :
  independent_ratifier b peer canonical s = (s', Ok ratifier) ->
  independent_from (pb_proposer (cp_body canonical)) ratifier = Ok true.
Proof.
  unfold independent_ratifier, lift, pure. rewrite st_bind_run. destruct (chain_of _ _ _) as [c|e|]; [|done..]. rewrite st_bind_run.
  unfold independent, expect_ok. destruct (independent_from _ c) as [ok|e|] eqn:Hi; [|done..]. rewrite st_bind_run.
  destruct ok; [|done]. cbn. by intros [= _ <-].
Qed.
(** The ratifier's chain, with what the check says of it. *)
Lemma safe_ratifier {B} b peer canonical P (k : PrincipalChainV1 -> ST State BrokerError B) Q :
  stable P ->
  (forall ratifier, independent_from (pb_proposer (cp_body canonical)) ratifier = Ok true -> safe P (k ratifier) (on_ok Q)) ->
  safe P (let! ratifier := independent_ratifier b peer canonical in k ratifier) (on_ok Q).
Proof.
  intros HP Hk. unfold independent_ratifier.
  pose proof (fun c (s s' : State) => independent_ratifier_ok b peer canonical s s' c) as Hok. unfold independent_ratifier, lift, pure in Hok.
  split; intros s; [|intros Hp Ht]; rewrite !st_bind_run; unfold lift, pure in *; specialize (fun c => Hok c s);
    (destruct (chain_of _ _ _) as [c|e|]; cbn in *; [|try exists []; by rewrite ?app_nil_r..]);
    (destruct (independent _ _) as [ok|e|]; cbn in *; [|try exists []; by rewrite ?app_nil_r..]);
    (destruct ok; cbn in *; [|try exists []; by rewrite ?app_nil_r..]).
  - by apply (Hk c (Hok c s eq_refl)).
  - by apply (Hk c (Hok c s eq_refl)).
Qed.
Lemma safe_ratify b proposal challenge peer signed_request :
  safe (fun _ => True) (ratify_human b proposal challenge peer signed_request) anything.
Proof.
  unfold ratify_human. skip. skip. skip. skip. apply safe_load. intros loaded armed Hd. lifted. lifted. skip.
  apply safe_ratifier; [apply stable_at|]. intros ratifier Hi. lifted. apply safe_lift. intros state Hst. skip. lifted.
  set (context := mkExecutionContext _ _ _ _).
  set (at_loaded := at_track _ _).
  eapply (safe_bind _ _ _ (fun _ => at_loaded)).
  { match goal with |- context [match ?e with _ => _ end] => destruct e end; try by apply safe_done.
    eapply safe_bind; [apply safe_ratify_promotion|]. intros []. by apply safe_done. }
  intros [binding standing]. subst at_loaded.
  eapply safe_next; [done|by eapply (follows_apply _ (with_burn _ _ _ _))|]. intros rev.
  assert (burned_for context (with_burn state (HumanExact proposal ratifier challenge signed_request) binding (ms_state _ loaded))) as Hb.
  { unfold apply_event in Hst. apply map_err_ok, proposal_apply_step in Hst. inversion Hst; subst. split; [by eexists|].
    split; [done|]. by eexists _, _, _. }
  match goal with |- safe _ (if ?c then _ else _) _ => destruct c end.
  - by apply (safe_run_promotion b (with_burn _ _ _ _) rev context).
  - by apply (safe_run_effect b (with_burn _ _ _ _) rev context).
Qed.
Lemma safe_reconcile b evidence peer signed_request : safe (fun _ => True) (reconcile b evidence peer signed_request) anything.
Proof.
  unfold reconcile. skip. apply safe_load. intros loaded armed Hd. lifted.
  destruct (rec_state (ms_state _ loaded)) eqn:Hs; try by apply safe_done.
  lifted. skip. lifted. lifted. lifted. lifted. lifted. skip. lifted. apply safe_lift. intros state Hst.
  eapply safe_next; [done|by eapply (follows_apply _ (with_reconciliation _ _ _ _))|]. intros ?. by apply safe_done.
Qed.
Lemma safe_recover_preparing b loaded proposal attempt armed :
  safe (at_track (record_entity (ms_state _ loaded)) (mkTrack (Some (ms_state _ loaded)) armed))
    (recover_preparing b loaded proposal attempt) anything.
Proof.
  unfold recover_preparing. lifted. lifted.
  eapply safe_try; [apply safe_quiet; [apply stable_at|apply quiet_on_world]| |done]. intros observation. lifted. lifted. lifted.
  apply safe_lift. intros state Hst. eapply safe_next; [done|by eapply (follows_apply _ (with_terminal _ _))|]. intros ?. by apply safe_done.
Qed.
Lemma safe_recover_entity b e : safe (fun _ => True) (recover_entity b e) anything.
Proof.
  unfold recover_entity. apply safe_load_entity. intros loaded armed He.
  assert (safe (at_track (record_entity (ms_state _ loaded)) (mkTrack (Some (ms_state _ loaded)) armed))
    (let! event := lift (restart_event loaded) in
     match event with
     | Some (event, evidence, kind) =>
         let! state := lift (apply_event (ms_state _ loaded) event) in
         persist_record b (with_terminal evidence (with_state state (ms_state _ loaded))) (ms_revision _ loaded) kind evidence ;!
         lift (Ok tt)
     | None => lift (Ok tt)
     end) anything) as Hevent.
  { lifted. destruct a as [[[event evidence] kind]|]; [|by apply safe_done]. apply safe_lift. intros state Hst.
    eapply safe_next; [done|by eapply (follows_apply _ (with_terminal _ _))|]. intros ?. by apply safe_done. }
  destruct (rec_state (ms_state _ loaded)); try exact Hevent. apply safe_recover_preparing.
Qed.
(** The loops. *)
Lemma safe_each_entity {A R} (body : A -> string -> BrokerM (A + R)) acc l :
  (forall acc e, safe (fun _ => True) (body acc e) anything) -> safe (fun _ => True) (each_entity body acc l) anything.
Proof.
  intros Hb. revert acc. induction l as [|e l IH]; intros acc; cbn [each_entity]; [by apply safe_done|].
  eapply safe_bind; [apply Hb|]. intros [next|r]; [apply IH|by apply safe_done].
Qed.
Lemma safe_each_page {A R} fuel (body : A -> string -> BrokerM (A + R)) cursor acc :
  (forall acc e, safe (fun _ => True) (body acc e) anything) -> safe (fun _ => True) (each_page fuel body cursor acc) anything.
Proof.
  intros Hb. revert cursor acc. induction fuel as [|fuel IH]; intros cursor acc; cbn [each_page]; [by apply safe_done|]. skip.
  destruct a as [|e page]; [by apply safe_done|]. eapply safe_bind; [by apply safe_each_entity|].
  intros [next|r]; [apply IH|by apply safe_done].
Qed.
Lemma safe_each_proposal {A R} (body : A -> string -> BrokerM (A + R)) acc :
  (forall acc e, safe (fun _ => True) (body acc e) anything) -> safe (fun _ => True) (each_proposal body acc) anything.
Proof. intros Hb. unfold each_proposal. skip. eapply safe_bind; [by apply safe_each_page|]. intros walked. by apply safe_done. Qed.
Lemma safe_recover b : safe (fun _ => True) (recover_incomplete_attempts b) anything.
Proof.
  unfold recover_incomplete_attempts. skip. destruct (quiesced _); [by apply safe_done|].
  eapply safe_bind; [|intros ?; by apply safe_done]. apply safe_each_proposal. intros acc e.
  eapply safe_bind; [apply safe_recover_entity|]. intros ?. by apply safe_done.
Qed.
(** A proposal and the submission that made it, in one transaction. *)
Lemma pair_writes `{Serialize P1, Serialize P2} (ev1 : NewEventV1 P1) (ev2 : NewEventV1 P2) r submission d o :
  ne_entity_id ev1 = record_entity r -> ne_entity_id ev2 = submission_entity d ->
  rec_state r = Ready (cp_digest (rec_canonical r)) ->
  record_write (append_distinct_event_pair ev1 r 0 ev2 (submission : BrokerSubmissionRecordV1) 0) r o.
Proof.
  intros He1 He2 Hs db db' a Ha Hx Ho. apply append_pair_tx in Ha as (db1 & r1 & r2 & Ha1 & Ha2).
  assert (o = None) as -> by (eapply (append_creates ev1 r); [exact Ha1|by rewrite He1]).
  apply append_in_reads in Ha1 as [Hn Hold]; [|done]. rewrite He1 in *.
  apply append_reads in Ha2 as (bs & sequence & ed & _ & Hr). rewrite He2 in Hr.
  assert (forall x o', reads db1 (proposal_entity x) o' -> reads db' (proposal_entity x) o') as Hkeep.
  { intros x o'. apply reads_same. rewrite Hr, bool_decide_eq_false_2; [done|]. intros Heq. symmetry in Heq. by apply entity_kinds in Heq. }
  split_all; [done|by apply Hkeep|]. intros x o' Hne Hro. by apply Hkeep, Hold.
Qed.
Lemma safe_canonical b source governor proposer proof canonical candidates :
  safe (fun _ => True) (persist_canonical_submission b source governor proposer proof canonical candidates) anything.
Proof.
  apply (safe_track (cp_digest canonical)). intros t. unfold persist_canonical_submission. lifted. apply safe_lift. intros state Hst.
  apply map_err_ok in Hst. cbn in Hst. injection Hst as <-. lifted. skip. skip. skip. skip.
  set (r := mkProposalRecord _ _ _ _ _ _ _ _ _ _ _ _). eapply safe_weaken; [eapply (safe_write _ r (fun _ => _) t)|done|].
  - by eapply pair_writes.
  - by intros ? ? ? ? _.
Qed.
Lemma safe_evaluation source governor proposer ingress evaluation response kind :
  safe (fun _ => True) (persist_evaluation source governor proposer ingress evaluation response kind) anything.
Proof. unfold persist_evaluation. lifted. eapply safe_bind; [apply safe_persist_submission|]. intros ?. by apply safe_done. Qed.
Lemma safe_evaluate b intent proposer source governor ingress :
  safe (fun _ => True) (evaluate_intent b intent proposer source governor ingress) anything.
Proof.
  unfold evaluate_intent. eapply safe_try; [apply safe_quiet; [done|auto with quiet]| |done].
  intros [preparation|error|]; [| apply safe_evaluation | by apply safe_done]. skip.
  destruct (compile _ _ _ _ _ _) as [canonical|error|]; [apply safe_canonical| |by apply safe_done].
  destruct (is_semantic_compilation_refusal error); apply safe_evaluation.
Qed.
Lemma safe_calm {A} (m : BrokerM (X := X) (Fd := Fd) A) : quiet m -> safe (fun _ => True) m anything.
Proof. intros Hm. eapply safe_weaken; [by apply (safe_quiet (fun _ => True))|done|done]. Qed.
Lemma safe_submit b ingress artifacts governor chain :
  safe (fun _ => True) (submit_authenticated_intent b ingress artifacts governor chain) anything.
Proof.
  unfold submit_authenticated_intent. skip. lifted. apply safe_lift. intros [[intent proposer] source] _. skip.
  destruct a1 as [existing|].
  - apply safe_calm. auto with quiet.
  - skip. lifted. lifted. skip. lifted. skip. apply safe_evaluate.
Qed.
Lemma safe_proposal_request b request peer : safe (fun _ => True) (try_handle_proposal b request peer) anything.
Proof. unfold try_handle_proposal. lifted. destruct request; [apply safe_calm; quiet|apply safe_submit]. Qed.
Lemma safe_admin_request b request peer signed_request :
  safe (fun _ => True) (try_handle_admin b request peer signed_request) anything.
Proof.
  destruct request; cbn [try_handle_admin]; [apply safe_calm; quiet..|apply safe_ratify|apply safe_calm; quiet|apply safe_reconcile].
Qed.
Lemma safe_answered {A} (m : BrokerM A) : safe (fun _ => True) m anything -> safe (fun _ => True) (answered m) anything.
Proof.
  intros Hm. unfold answered. eapply (safe_try _ _ _ (fun _ _ => True)); [by eapply safe_weaken| |done].
  intros [response|error|]; [by apply safe_done|skip; by apply safe_done|by apply safe_done].
Qed.
Lemma safe_new config activated identity : safe (fun _ => True) (EffectBrokerV1_new config activated identity) anything.
Proof.
  unfold EffectBrokerV1_new. lifted. lifted. skip. destruct a1 as [catalog targets]. lifted. skip. lifted.
  apply safe_skip; [done|done|]. intros []. skip. skip.
  eapply safe_bind; [apply safe_recover|]. intros ?. by apply safe_done.
Qed.
End Safe.
End Writes.

(** ** Calls of the daemon *)

(** The methods of the two sockets, the activation of the process, a restart (which
    loses the volatile state, and may not come up), and anything that happens to the
    world in between. *)
Inductive BrokerCall (X Fd : Type) : Type :=
  | CallProposal (request : EffectProposalRequestV1) (peer : VerifiedRpcPrincipalV1)
  | CallAdmin (request : EffectAdminRequestV1) (peer : VerifiedRpcPrincipalV1) (signed_request : Digest)
  | CallActivate (enrolled : option StoreActivationRecordV1) (config : EffectdConfigV1) (activation : EffectdLiveActivationV1)
  | CallActivationFailed (phase code detail : string)
  | CallRestart (config : EffectdConfigV1) (activated_catalog_identity : Digest) (identity : StoreIdentityV1) (replay : RpcReplayGuardV1)
  | CallWorld (world : PointerWorld X Fd).
Arguments CallProposal {X Fd} _ _.
Arguments CallAdmin {X Fd} _ _ _.
Arguments CallActivate {X Fd} _ _ _.
Arguments CallActivationFailed {X Fd} _ _ _.
Arguments CallRestart {X Fd} _ _ _ _.
Arguments CallWorld {X Fd} _.

Section Calls.
  Context `{JcsLaws, !HexLaws, !Sha256Laws, RpcDeps, ErrnoText, JcsErrorText, PointerTexts} {X Fd : Type}.
  Context `{!PointerHost X Fd, !BrokerParameters X}.
  #[local] Abbreviation State := (BrokerState X Fd).

(** The daemon: its settings while it is up, and its state.  A panic takes it down. *)
Definition Daemon : Type := option (EffectBrokerV1 Fd) * State.
Definition serve {E A} (b : EffectBrokerV1 Fd) (m : ST State E A) (s : State) : Daemon :=
  let (s', r) := m s in (match r with Panic => None | _ => Some b end, s').
Definition broker_call (c : BrokerCall X Fd) (d : Daemon) : Daemon :=
  match c, d with
  | CallRestart config activated identity replay, (_, s) =>
      let (s', r) := EffectBrokerV1_new config activated identity (set_replay replay s) in
      (match r with Ok b => Some b | _ => None end, s')
  | CallWorld world, (b, s) => (b, set_world world s)
  | _, (None, s) => (None, s)
  | CallProposal request peer, (Some b, s) => serve b (handle_proposal b request peer) s
  | CallAdmin request peer signed_request, (Some b, s) => serve b (handle_admin b request peer signed_request) s
  | CallActivate enrolled config activation, (Some b, s) => serve b (apply_live_activation b enrolled config activation) s
  | CallActivationFailed phase code detail, (Some b, s) => serve b (record_activation_failure phase code detail) s
  end.
Definition broker_run (calls : list (BrokerCall X Fd)) (d : Daemon) : Daemon := fold_left (fun d c => broker_call c d) calls d.

(** The records of a log read back as they were written. *)
Definition log_exact (l : list BrokerEvent) : Prop := forall r, PersistedRecord r ∈ l -> record_exact r.

Definition harmless {E A} (m : ST State E A) : Prop :=
  forall final, log_exact final -> safe final (fun _ => True) m (on_ok (fun _ _ => True)).
Lemma harmless_run {E A} (m : ST State E A) s :
  harmless m ->
  (exists suffix, bs_log (m s).1 = bs_log s ++ suffix) /\ (log_exact (bs_log (m s).1) -> tracked s -> tracked (m s).1).
Proof.
  intros Hm. split.
  - destruct (Hm [] ltac:(intros r Hr; by apply elem_of_nil in Hr)) as [Hg _]. apply Hg.
  - intros Hx Ht. destruct (Hm (bs_log (m s).1) Hx) as [_ Hs]. apply (Hs s I Ht). exists []. by rewrite app_nil_r.
Qed.
Lemma serve_state {E A} b (m : ST State E A) s : (serve b m s).2 = (m s).1.
Proof. unfold serve. by destruct (m s). Qed.
Lemma quiet_harmless {A} (m : BrokerM (X := X) (Fd := Fd) A) : quiet m -> harmless m.
Proof. intros Hm final _. by apply safe_calm. Qed.
(** One call. *)
Lemma call_tracks c d :
  (exists suffix, bs_log (broker_call c d).2 = bs_log d.2 ++ suffix) /\
  (log_exact (bs_log (broker_call c d).2) -> tracked d.2 -> tracked (broker_call c d).2).
Proof.
  destruct d as [b s]. destruct c as [r p|r p sg|en cf a|ph co de|cf ac id re|w]; cbn [broker_call].
  1-4: destruct b as [b|]; [rewrite serve_state; apply harmless_run|split; [exists []; by rewrite app_nil_r|done]].
  - intros final Hf. apply safe_answered. by apply safe_proposal_request.
  - intros final Hf. apply safe_answered. by apply safe_admin_request.
  - apply quiet_harmless. auto with quiet.
  - apply quiet_harmless. auto with quiet.
  - destruct (harmless_run (EffectBrokerV1_new cf ac id) (set_replay re s)) as [Hg Ht]; [intros final Hf; by apply safe_new|].
    destruct (EffectBrokerV1_new _ _ _ _). cbn in *. split; [exact Hg|]. intros Hx Hs. by apply Ht.
  - split; [exists []; by rewrite app_nil_r|]. intros _ Ht x. destruct (Ht x) as [t Hat]. by exists t.
Qed.
Lemma run_tracks calls d :
  (exists suffix, bs_log (broker_run calls d).2 = bs_log d.2 ++ suffix) /\
  (log_exact (bs_log (broker_run calls d).2) -> tracked d.2 -> tracked (broker_run calls d).2).
Proof.
  revert d. induction calls as [|c calls IH]; intros d; cbn [broker_run fold_left]; [split; [exists []; by rewrite app_nil_r|done]|].
  destruct (IH (broker_call c d)) as [[l2 Hl2] Ht2], (call_tracks c d) as [[l1 Hl1] Ht1]. unfold broker_run in *. split.
  - exists (l1 ++ l2). by rewrite Hl2, Hl1, app_assoc.
  - intros Hx Ht. apply Ht2; [done|]. apply Ht1; [|done]. intros r Hr. apply Hx. rewrite Hl2. by apply elem_of_app; left.
Qed.
(** A store without proposals. *)
Definition fresh (d : Daemon) : Prop := bs_log d.2 = [] /\ forall p, find_state (proposal_entity p) (db_states (bs_db d.2)) = None.
Lemma fresh_tracked d : fresh d -> tracked d.2.
Proof.
  intros [Hl Hd] p. exists track_start. split; [rewrite Hl; constructor|]. cbn. unfold materialized_state. by rewrite Hd.
Qed.

(** ** The theorems *)

(** C2. The store behind the broker refines the automaton of the log.  Over any
    sequence of calls, restarts and changes of the world, whatever each call answers
    and wherever a write fails, the log only grows; and if the store was in step with
    it (for every proposal, the log is a run of the automaton and the store holds the
    record the run ends in), it still is, as long as the records that were written
    read back as they were written. *)
Theorem broker_calls_refine_log calls d :
  let d' := broker_run calls d in
  tracked d.2 -> log_exact (bs_log d'.2) -> (exists suffix, bs_log d'.2 = bs_log d.2 ++ suffix) /\ tracked d'.2.
Proof. intros d' Ht Hx. destruct (run_tracks calls d) as [Hg Hs]. split; [exact Hg|by apply Hs]. Qed.

(** C1. From a store without proposals, over any sequence of calls, restarts and
    failures, the broker hands out at most one effect per proposal; and before it does,
    it has made durable a record in which this attempt is executing and a human
    independent of the proposer has authorized exactly this proposal. *)
Theorem effect_handed_out_once calls d proposal :
  let log := bs_log (broker_run calls d).2 in
  let e := proposal_entity proposal in
  fresh d -> log_exact log ->
  hand_overs e log <= 1 /\
  forall before ev after attempt,
    log = before ++ ev :: after -> ev = RanEffect proposal attempt \/ ev = CommittedPointer proposal attempt ->
    hand_overs e before = 0 /\ exists r, PersistedRecord r ∈ before /\ authorizes r proposal attempt.
Proof.
  intros log e Hf Hx. destruct (run_tracks calls d) as [_ Hs]. destruct (Hs Hx (fresh_tracked d Hf) proposal) as [t [Hr _]]. fold log e in Hr.
  split; [pose proof (run_hands_out _ _ _ Hr); lia|]. intros before ev after attempt Hl Hev. rewrite Hl in Hr.
  destruct (run_authorized _ _ _ _ _ _ _ Hr Hev eq_refl) as (r & Hb & Ha & Hone). split.
  - pose proof (run_hands_out _ _ _ Hb) as Hle. destruct Ha as [[checkpoint Hst] _].
    assert (pending (mkTrack (Some r) true) = true) as Hp by (unfold pending; cbn [tk_record tk_armed]; by rewrite Hst).
    rewrite Hp in Hle. change (Nat.b2n true) with 1 in Hle. lia.
  - exists r. split; [by eapply run_record|done].
Qed.
End Calls.

(** ** A concrete daemon *)

Module ToyBroker.
#[export] Instance errno : ErrnoText := fun _ => "error".
#[export] Instance jcs_texts : JcsErrorText := fun _ => "error".
#[export] Instance texts : PointerTexts := {| store_error_text := fun _ => "error"; nix_errno_text := fun _ => "error" |}.
(** A host that counts its identifiers, whose clock stands, that has no files, and
    on which one write fails. *)
Definition absent {A} : Sys (nat * nat) Errno A := fun x => (x, inl NOENT).
Definition failed {A} : Sys (nat * nat) IoError A := fun x => (x, inl (Os NOENT)).
#[export] Instance host : PointerHost (nat * nat) unit := {|
  sys_open_root := fun x => (x, inr tt); sys_openat2 := fun _ _ _ => absent; sys_openat := fun _ _ _ => absent;
  sys_open := fun _ => absent; sys_reopen := fun _ => absent; sys_dup := fun _ => absent; sys_dupfd_cloexec := fun _ => absent;
  sys_fstat := fun _ => absent; sys_seek_start := fun _ => absent; sys_read_to_end := fun _ _ => failed;
  sys_write_all := fun _ _ => failed; sys_fsync := fun _ => absent; sys_fchmod := fun _ _ => absent; sys_fchown := fun _ _ _ => absent;
  sys_mkdirat := fun _ _ _ => absent; sys_remove_dir_all := fun _ _ => absent; sys_fgetxattr := fun _ _ => absent;
  sys_memfd_create := fun _ => absent; sys_add_seals := fun _ _ => absent; sys_get_seals := fun _ => absent;
  sys_geteuid := fun _ => 0%Z; sys_getegid := fun _ => 0%Z; sys_getgroups := absent; sys_set_no_new_privs := absent;
  sys_get_no_new_privs := absent; sys_time := fun x => (x, Some 5030%Z);
  sys_uuid := fun x => ((S x.1, x.2), "id-" +:+ String (ascii_of_nat (65 + x.1)) EmptyString); sys_landlock_abi := failed;
  git_lock := fun _ x => (x, false); git_spawn := fun _ => failed; git_try_wait := fun _ => failed; git_late := fun x => (x, 0%Z);
  git_kill := fun _ x => x; git_stdout := fun _ => failed; git_stderr := fun _ => failed
|}.
Definition broker_texts : BrokerTexts := {|
  debug_str := fun s => s; identifier_error_text := fun _ => "error"; peer_error_text := fun _ => "error";
  rpc_auth_error_text := fun _ => "error"; session_error_text := fun _ => "error"; package_version := "1"
|}.
Definition base64 : Base64Std := {| Api.b64_encode := toy_hex_encode; Api.b64_decode := toy_hex_decode |}.
#[local] Existing Instance broker_texts.
#[local] Existing Instance base64.
(** The decoder knows the submissions and records it is given. *)
Definition parameters (submissions : list BrokerSubmissionRecordV1) (records : list BrokerProposalRecordV1) : BrokerParameters (nat * nat) := {|
  bp_host := {| fs_read := fun _ _ => Err (Os NOENT);
                store_io := fun x => ((S x.1, x.2), if x.1 =? x.2 then Some (StoreIo "full") else None);
                blob_ready := fun x => (x, Ok tt) |};
  bp_runner := fun _ _ proposal authorization attempt index effect x =>
    (x, mkExecutionReceipt EXECUTION_RECEIPT_SCHEMA_V1 proposal authorization attempt index effect
            (OutFailed (mkFailure BackendRejected ReceiptValidation "refused" None None)));
  bp_decoders := {|
    decode_proposal b :=
      match List.find (fun r => bool_decide (toy_encoding r = b)) records with Some r => inr r | None => inl "not a record" end;
    decode_submission b :=
      match List.find (fun r => bool_decide (toy_encoding r = b)) submissions with Some r => inr r | None => inl "not a submission" end |};
  bp_texts := broker_texts;
  bp_base64 := base64
|}.

Definition policy (name : string) : PeerPolicyV1 :=
  mkPeerPolicy name 0 0 None None (Toy.digest name) KOperator (pe_key (Toy.enrolled name)).
Definition verified (name : string) : VerifiedRpcPrincipalV1 := mkVerified (Toy.digest name) (mkKeyId name).
Definition catalog : EffectCatalogV1 := mkCatalog EFFECT_CATALOG_SCHEMA_V1 (toy_digest 1) [("motd", DefManagedFile "/etc/motd" 420 0 0)].
Definition settings : EffectBrokerV1 unit :=
  mkBroker (mkCompiler catalog (toy_digest 2)) (toy_digest 1) (toy_digest 2) [("motd", CfgManagedFile "motd" "/etc/motd" 420 0 0)]
    toy_domain (mkEpochId 7) (policy "governor") (policy "proposer") (policy "admin") 1 4 1024 true (mkRuntime [] (toy_digest 2)).

(** The proposer's signed request, forwarded by the governor. *)
Definition content : bytes := str_bytes "hello".
Definition chain : PrincipalChainV1 :=
  match chain_of settings (verified "proposer") (policy "proposer") with Ok c => c | _ => toy_proposer end.
Definition intent : ProposalIntentV1 :=
  mkIntent EFFECT_SCHEMA_V1 "intent-1" toy_domain (mkEpochId 7) chain (toy_digest 9) [hash_bytes content]
    [IntentManagedFilePut (mkTargetId "motd") (hash_bytes content)].
Definition challenge : SignedServerChallengeV1 :=
  Toy.unwrap Toy.no_challenge (issue_challenge (Toy.signer "governor") (Toy.enrolled "proposer") 5000 (Some (Toy.nonce "a"))).
Definition request : RequestEnvelopeV1 AgdRequestV1 :=
  mkRequest (mkEcho version_current (mkRequestId "r-1") (hash_domain REQUEST_DOMAIN (toy_encoding (SubmitProposal intent))))
    (SubmitProposal intent).
Definition signed : res RpcAuthError (SignedRequestEnvelopeV1 AgdRequestV1) :=
  sign_request (Toy.signer "proposer") request challenge 5010 (Some (Toy.nonce "b")).
Definition submission : EffectProposalRequestV1 :=
  Eval vm_compute in match signed with
  | Ok signed => SubmitAuthenticatedIntent (ExternalSigned (mkIngressProof challenge signed))
                   [mkTransfer (hash_bytes content) 5 (toy_hex_encode content)]
  | _ => ProposalHealth
  end.
Definition start (fails : nat) : Daemon (X := nat * nat) (Fd := unit) :=
  (Some settings,
   mkBrokerState ToyStore.created ∅ Toy.guard false None (startup_status "development") [] (mkPointerWorld (0, fails) []) []).

(** Submission, inspection, ratification. *)
Definition records_of (l : list BrokerEvent) : list BrokerProposalRecordV1 :=
  flat_map (fun ev => match ev with PersistedRecord r => [r] | _ => [] end) l.
Definition submit : BrokerCall (nat * nat) unit := CallProposal submission (verified "governor").
Definition run_with (table : list BrokerProposalRecordV1) (calls : list (BrokerCall (nat * nat) unit)) (fails : nat) : Daemon :=
  let p := parameters [] table in broker_run calls (start fails).
Definition first_record : list BrokerProposalRecordV1 := Eval vm_compute in records_of (bs_log (run_with [] [submit] 99).2).
Definition proposal_of (l : list BrokerProposalRecordV1) : Digest :=
  match l with r :: _ => cp_digest (rec_canonical r) | [] => toy_digest 0 end.
Definition proposal : Digest := Eval vm_compute in proposal_of first_record.
Definition calls : list (BrokerCall (nat * nat) unit) :=
  [submit; CallAdmin (InspectProposal proposal) (verified "admin") (toy_digest 20);
   CallAdmin (Ratify proposal "id-D") (verified "admin") (toy_digest 21)].
(** A run on which every write succeeds, and one that stops after the effect. *)
Definition known : list BrokerProposalRecordV1 := Eval vm_compute in records_of (bs_log (run_with first_record calls 99).2).
Definition STOPS : nat := 10.
Definition recovered : list BrokerProposalRecordV1 :=
  Eval vm_compute in let p := parameters [] known in drop 3 (records_of (bs_log (recover_incomplete_attempts settings (broker_run calls (start STOPS)).2).1)).
Definition table : list BrokerProposalRecordV1 := known ++ recovered.
(** The submission that the first call stores. *)
Definition ingress_of (r : EffectProposalRequestV1) : GovernedProposalIngressV1 :=
  match r with
  | SubmitAuthenticatedIntent ingress _ => ingress
  | _ => ExternalSigned (mkIngressProof Toy.no_challenge (mkSignedRequest "" request
           (mkRequestProof (toy_digest 0) (mkKeyId "") (toy_digest 0) (mkKeyId "") Request (mkRpcNonce []) 0 (toy_digest 0) zero_signature)))
  end.
Definition ingress : GovernedProposalIngressV1 := ingress_of submission.
Definition governor_chain : PrincipalChainV1 :=
  match chain_of settings (verified "governor") (policy "governor") with Ok c => c | _ => toy_proposer end.
Definition bound : res BrokerError (ProposalIntentV1 * PrincipalChainV1 * Digest) :=
  let p := parameters [] [] in verify_governed_ingress_bindings (X := nat * nat) settings ingress (verified "governor") governor_chain.
Definition source_of (r : res BrokerError (ProposalIntentV1 * PrincipalChainV1 * Digest)) : Digest :=
  match r with Ok (_, _, source) => source | _ => toy_digest 0 end.
Definition source : Digest := Eval vm_compute in source_of bound.
Definition submissions : list BrokerSubmissionRecordV1 :=
  [mkSubmission source (verified "governor") chain ingress (EvaluationCanonicalized (stable_proposal_id source) proposal)
     (ResponseCanonicalized (stable_proposal_id source) proposal)].
#[export] Instance toy_parameters : BrokerParameters (nat * nat) := parameters submissions table.
Definition finished : list BrokerEvent := bs_log (broker_run calls (start 99)).2.
Definition attempt_of (l : list BrokerEvent) : Digest :=
  match List.find (fun ev => match ev with RanEffect _ _ => true | _ => false end) l with Some (RanEffect _ a) => a | _ => toy_digest 0 end.
Definition attempt : Digest := Eval vm_compute in attempt_of finished.
End ToyBroker.
Import ToyBroker.

(** The decoder reads the records of the table. *)
Lemma find_encoded `{Serialize A} (l : list A) x :
  NoDup (map toy_encoding l) -> x ∈ l -> List.find (fun y => bool_decide (toy_encoding y = toy_encoding x)) l = Some x.
Proof.
  induction l as [|y l IH]; [by intros _ ?%elem_of_nil|]. cbn [map List.find]. intros [Hn Hd]%NoDup_cons [->|Hx]%elem_of_cons.
  - by rewrite bool_decide_eq_true_2.
  - rewrite bool_decide_eq_false_2; [by apply IH|]. intros He. apply Hn. rewrite He. apply list_elem_of_In, in_map. by apply list_elem_of_In.
Qed.
Lemma toy_table_encodes :
  forallb (fun r => match jcs r with Ok b => bool_decide (b = toy_encoding r) | _ => false end) table = true.
Proof. vm_compute. reflexivity. Qed.
Lemma toy_table_distinct : NoDup (map toy_encoding table).
Proof. apply (bool_decide_unpack _). vm_compute. exact I. Qed.
Lemma toy_table_exact r : r ∈ table -> record_exact r.
Proof.
  intros Hr b Hb. pose proof (proj1 (forallb_forall _ _) toy_table_encodes r (proj1 (list_elem_of_In _ _) Hr)) as He. cbn beta in He.
  rewrite Hb in He. apply bool_decide_eq_true in He as ->. unfold decode_proposal, toy_parameters, parameters. cbn [bp_decoders].
  by rewrite (find_encoded table r toy_table_distinct Hr).
Qed.
Lemma records_of_elem r l : PersistedRecord r ∈ l -> r ∈ records_of l.
Proof.
  rewrite !list_elem_of_In. intros Hr. apply in_flat_map. eexists. split; [exact Hr|]. by left.
Qed.
Lemma toy_log_exact l n : records_of l = take n known -> log_exact l.
Proof.
  intros Hl r Hr%records_of_elem. rewrite Hl in Hr. apply toy_table_exact. apply elem_of_app. left. rewrite <- (take_drop n known). by apply elem_of_app; left.
Qed.
Lemma toy_run_exact : log_exact (bs_log (broker_run calls (start 99)).2).
Proof. apply (toy_log_exact _ 5). vm_compute. reflexivity. Qed.
Lemma toy_fresh n : fresh (start n).
Proof. split; [done|]. intros p. done. Qed.
Lemma toy_handed_out : finished = take 3 finished ++ RanEffect proposal attempt :: drop 4 finished.
Proof. vm_compute. reflexivity. Qed.

Lemma broker_calls_refine_log_witness :
  length finished = 6 /\ tracked (broker_run calls (start 99)).2.
Proof.
  split; [vm_compute; reflexivity|].
  exact (proj2 (broker_calls_refine_log calls (start 99) (fresh_tracked _ (toy_fresh 99)) toy_run_exact)).
Defined.
Lemma effect_handed_out_once_witness :
  hand_overs (proposal_entity proposal) finished <= 1 /\ hand_overs (proposal_entity proposal) (take 3 finished) = 0 /\
  exists r, PersistedRecord r ∈ take 3 finished /\ authorizes r proposal attempt.
Proof.
  destruct (effect_handed_out_once calls (start 99) proposal (toy_fresh 99) toy_run_exact) as [Hone Hev].
  split; [exact Hone|]. exact (Hev _ _ _ attempt toy_handed_out (or_introl eq_refl)).
Defined.
