(* ===== verification/BrokerRecovery.v ===== *)
(** * The effect broker: restart recovery settles every attempt (ag-app/src/effectd.rs)

    The loops of the broker read pages of proposals while their bodies write.  A body
    that writes existing proposals only leaves the walk on course: it ends within its
    fuel and visits every proposal.  So a restart that comes up leaves no proposal with
    a burned authority or a running attempt, and hands nothing out. *)

From S2P Require Import Prelude Wire Fixture Digest Names Origin Capability Identity Session Protocol Paths Store StoreLog StoreSpec StoreBlob HostFiles RpcAuth Config Effect Compile Proposal Executor Pointer PointerText PointerGit PointerRuntime Activation Api Broker BrokerOps BrokerAdmin WorkerSpec BrokerSpec.

(** ** Running a call that answers *)

Lemma st_bind_ok {S E A B} (m : ST S E A) (k : A -> ST S E B) s s' v :
  st_bind m k s = (s', Ok v) <-> exists s1 a, m s = (s1, Ok a) /\ k a s1 = (s', Ok v).
Proof.
  rewrite st_bind_run. destruct (m s) as [s1 [a|e|]].
  - split; [eauto|]. by intros (? & ? & [= <- <-] & ?).
  - split; [done|]. by intros (? & ? & ? & ?).
  - split; [done|]. by intros (? & ? & ? & ?).
Qed.
Lemma st_try_ok {S E F A B} (m : ST S E A) (k : res E A -> ST S F B) s s' v :
  st_try m k s = (s', Ok v) -> exists s1 r, m s = (s1, r) /\ k r s1 = (s', Ok v).
Proof. unfold st_try. destruct (m s) as [s1 [a|e|]]; [eauto..|done]. Qed.
Lemma lift_ok {X Fd A B} (r : res BrokerError A) (k : A -> ST (BrokerState X Fd) BrokerError B) s s' v :
  st_bind (lift r) k s = (s', Ok v) <-> exists a, r = Ok a /\ k a s = (s', Ok v).
Proof.
  rewrite st_bind_run. unfold lift, pure. destruct r as [a|e|]; split; try done.
  - eauto.
  - by intros (? & [= <-] & ?).
  - by intros (? & ? & _).
  - by intros (? & ? & _).
Qed.

(** ** The identifiers of the stored states *)

Definition ids {X Fd} (s : BrokerState X Fd) : list string := map st_entity_id (db_states (bs_db s)).
Lemma upsert_ids row l : st_entity_id row ∈ map st_entity_id l -> map st_entity_id (upsert_row row l) = map st_entity_id l.
Proof.
  induction l as [|r l IH]; [by intros ?%elem_of_nil|]. cbn [map upsert_row]. intros Hin.
  destruct (bool_decide_reflect (st_entity_id r = st_entity_id row)) as [He|Hne]; [cbn; by rewrite He|].
  cbn. f_equal. apply IH. apply elem_of_cons in Hin as [Hx|]; [by destruct Hne|done].
Qed.
Lemma append_ids `{Deps} `{Serialize P, Serialize A} (event : NewEventV1 P) (state : A) expected db db' receipt :
  append_event_in_transaction event state expected db = Ok (db', receipt) -> ne_entity_id event ∈ map st_entity_id (db_states db) ->
  map st_entity_id (db_states db') = map st_entity_id (db_states db).
Proof.
  unfold append_event_in_transaction. intros Hr Hin. apply then_ok in Hr as [_ Hr]. apply guard_ok in Hr as [_ Hr].
  apply res_bind_ok in Hr as (head & _ & Hr). apply res_bind_ok in Hr as (rev & _ & Hr). apply guard_ok in Hr as [_ Hr].
  do 6 apply res_bind_ok in Hr as (? & _ & Hr).
  apply res_bind_ok in Hr as ([db1 []] & Hins & Hr). apply res_bind_ok in Hr as (rv & _ & Hr).
  apply res_bind_ok in Hr as ([db2 []] & Hups & Hr). apply res_bind_ok in Hr as (? & _ & Hr).
  apply res_bind_ok in Hr as ([db3 changed] & Hcas & Hr). apply guard_ok in Hr as [_ [= <- _]].
  assert (db_states db3 = db_states db2) as ->.
  { unfold update_chain_head in Hcas. destruct (db_chain_head _); [|by injection Hcas as <- _].
    destruct (_ && _); [apply guard_ok in Hcas as [_ [= <- _]] | injection Hcas as <- _]; done. }
  unfold insert_event in Hins. apply guard_ok in Hins as [_ [= <-]].
  unfold upsert_state in Hups. apply guard_ok in Hups as [_ [= <-]]. by apply upsert_ids.
Qed.

Section Recovery.
  Context `{JcsLaws, !HexLaws, !Sha256Laws, RpcDeps, ErrnoText, JcsErrorText, PointerTexts} {X Fd : Type}.
  Context `{!PointerHost X Fd, !BrokerParameters X}.
  #[local] Abbreviation State := (BrokerState X Fd).

Lemma quiet_ok {E A B} (m : ST State E A) (k : A -> ST State E B) s s' v :
  quiet m -> st_bind m k s = (s', Ok v) ->
  exists s1 a, db_states (bs_db s1) = db_states (bs_db s) /\ bs_log s1 = bs_log s /\ k a s1 = (s', Ok v).
Proof.
  intros Hm (s1 & a & Hs & Hk)%st_bind_ok. exists s1, a. destruct (Hm s) as [Hd Hl]. rewrite Hs in Hd, Hl. done.
Qed.
Lemma store_write_ok {A} (tx : Tx A) (s s' : State) a :
  store_write tx s = (s', Ok a) -> tx (bs_db s) = Ok (bs_db s', a) /\ bs_log s' = bs_log s.
Proof.
  unfold store_write, host, on_world, ask, on_host. rewrite st_bind_run. destruct (store_io _) as [x [e|]]; cbn; [done|].
  unfold commit. destruct (tx (bs_db s)) as [[db a']|e|]; cbn; [|done..]. by intros [= <- <-].
Qed.
(** The record the store holds for an entity. *)
Definition held (s : State) (e : string) : res StoreError (option BrokerProposalRecordV1) :=
  let? m := materialized_state decode_proposal (bs_db s) e in Ok (option_map (ms_state _) m).
Lemma held_states s s' e : db_states (bs_db s') = db_states (bs_db s) -> held s' e = held s e.
Proof. unfold held, materialized_state. by intros ->. Qed.
Lemma held_id s e r : held s e = Ok (Some r) -> e ∈ ids s.
Proof.
  unfold held, ids. intros Hm. apply find_state_ids. unfold materialized_state in Hm. by destruct (find_state _ _).
Qed.
(** A record that was made durable. *)
Definition made_durable (r : BrokerProposalRecordV1) (s s' : State) : Prop :=
  (record_exact r -> held s' (record_entity r) = Ok (Some r)) /\ (forall e, e <> record_entity r -> held s' e = held s e) /\
  (record_entity r ∈ ids s -> ids s' = ids s) /\ bs_log s' = bs_log s ++ [PersistedRecord r].
Lemma persist_run `{Serialize P} b r rev kind (payload : P) (s s' : State) rev' :
  persist_record b r rev kind payload s = (s', Ok rev') -> made_durable r s s'.
Proof.
  intros Hp. unfold persist_record in Hp. apply lift_ok in Hp as ([] & _ & Hp).
  apply quiet_ok in Hp as (s1 & id & Hd1 & Hl1 & Hp); [|auto with quiet].
  apply quiet_ok in Hp as (s2 & at_ & Hd2 & Hl2 & Hp); [|auto with quiet].
  apply st_bind_ok in Hp as (s3 & receipt & [Ht Hl3]%store_write_ok & Hp). apply st_bind_ok in Hp as (s4 & [] & [= <-] & [= <- _]).
  apply append_event_tx in Ht. unfold made_durable, ids. cbn [bs_db bs_log add_event].
  pose proof (append_ids _ _ _ _ _ _ Ht) as Hids. apply append_reads in Ht as (bs & sequence & ed & Hb & Hr). cbn [ne_entity_id] in *.
  rewrite Hl3, Hl2, Hl1, <- Hd1, <- Hd2. split_all; [| |exact Hids|done].
  - intros Hx. unfold held. cbn [bs_db add_event]. by rewrite Hr, bool_decide_eq_true_2, (Hx bs Hb).
  - intros e Hne. rewrite <- (held_states s s2 e) by congruence. unfold held. cbn [bs_db add_event].
    by rewrite Hr, bool_decide_eq_false_2.
Qed.

(** ** One proposal *)

Definition settled_state (st : ProposalStateV1) : bool :=
  match st with AuthorizationBurned _ _ _ | Preparing _ _ | Executing _ _ _ => false | _ => true end.
Definition settled (e : string) (s : State) : Prop := exists r, held s e = Ok (Some r) /\ settled_state (rec_state r) = true.
(** What recovery does to the state: records only, of proposals it knows. *)
Definition recovers (s s' : State) : Prop :=
  ids s' = ids s /\ (exists records, bs_log s' = bs_log s ++ map PersistedRecord records) /\
  (log_exact (bs_log s') -> forall e, settled e s -> settled e s').
Lemma recovers_refl s : recovers s s.
Proof. unfold recovers. split_all; [done| |done]. exists []. by rewrite app_nil_r. Qed.
Lemma recovers_trans s1 s2 s3 : recovers s1 s2 -> recovers s2 s3 -> recovers s1 s3.
Proof.
  intros (Hi1 & [l1 Hl1] & Hs1) (Hi2 & [l2 Hl2] & Hs2). unfold recovers. split_all; [congruence| |].
  - exists (l1 ++ l2). by rewrite Hl2, Hl1, map_app, app_assoc.
  - intros Hx e He. apply Hs2; [done|]. apply Hs1; [|done]. intros r Hr. apply Hx. rewrite Hl2. apply elem_of_app. by left.
Qed.
Lemma recovers_quiet s s' : db_states (bs_db s') = db_states (bs_db s) -> bs_log s' = bs_log s -> recovers s s'.
Proof.
  intros Hd Hl. unfold recovers, ids. rewrite Hd, Hl. split_all; [done|exists []; by rewrite app_nil_r|].
  intros _ e (r & Hr & Hst). exists r. split; [|done]. by rewrite (held_states s s').
Qed.
Lemma durable_recovers r s s' :
  made_durable r s s' -> record_entity r ∈ ids s -> settled_state (rec_state r) = true ->
  recovers s s' /\ (log_exact (bs_log s') -> settled (record_entity r) s').
Proof.
  intros (Hw & Ho & Hi & Hl) Hin Hst.
  assert (log_exact (bs_log s') -> settled (record_entity r) s') as Hset.
  { intros Hx. exists r. split; [|done]. apply Hw, Hx. rewrite Hl. apply elem_of_app. right. by left. }
  split; [|done]. unfold recovers. split_all; [by apply Hi|by exists [r]|]. intros Hx e (r' & Hr' & Hst').
  destruct (decide (e = record_entity r)) as [->|Hne]; [by apply Hset|]. exists r'. split; [|done]. by rewrite Ho.
Qed.
(** The last write of a recovery: the next state is settled. *)
Lemma settled_step old event st :
  settled_state old = false -> proposal_apply old event = Ok st ->
  match event with BeginPreparation _ | BeginExecution _ | CommitMayProceed _ => False | _ => True end -> settled_state st = true.
Proof. intros Ho Ha%proposal_apply_step He. by destruct Ha. Qed.
Lemma recover_write `{Serialize P} b e (loaded : MaterializedStateV1 BrokerProposalRecordV1) event state evidence record rev kind
    (payload : P) (s s' : State) :
  record_entity (ms_state _ loaded) = e -> e ∈ ids s -> rec_canonical record = rec_canonical (ms_state _ loaded) ->
  rec_state record = rec_state (ms_state _ loaded) -> settled_state (rec_state record) = false ->
  apply_event record event = Ok state ->
  match event with BeginPreparation _ | BeginExecution _ | CommitMayProceed _ => False | _ => True end ->
  (persist_record b (with_terminal evidence (with_state state record)) rev kind payload ;! lift (Ok tt)) s = (s', Ok tt) ->
  recovers s s' /\ (log_exact (bs_log s') -> settled e s').
Proof.
  intros He Hin Hc Hs Hns Ha%map_err_ok Hev Hp. apply st_bind_ok in Hp as (s1 & rev' & Hp & [= <-]). apply persist_run in Hp.
  assert (record_entity (with_terminal evidence (with_state state record)) = e) as Hent
    by (rewrite <- He; unfold record_entity; cbn; by rewrite Hc).
  destruct (durable_recovers _ _ _ Hp) as [Hr Hset]; [by rewrite Hent|by eapply settled_step|]. rewrite Hent in Hset. by split.
Qed.
Lemma recover_preparing_run b e loaded proposal attempt (s s' : State) :
  record_entity (ms_state _ loaded) = e -> e ∈ ids s -> settled_state (rec_state (ms_state _ loaded)) = false ->
  recover_preparing b loaded proposal attempt s = (s', Ok tt) -> recovers s s' /\ (log_exact (bs_log s') -> settled e s').
Proof.
  intros He Hin Hns Hr. unfold recover_preparing in Hr. apply lift_ok in Hr as (effect & _ & Hr). apply lift_ok in Hr as (authorization & _ & Hr).
  apply st_try_ok in Hr as (s1 & observation & Ho & Hr).
  pose proof (quiet_on_world (observe_canonical (bk_pointer_runtime b) effect) s) as [Hd Hl]. rewrite Ho in Hd, Hl. cbn in Hd, Hl.
  apply lift_ok in Hr as (evidence & _ & Hr). apply lift_ok in Hr as (step & _ & Hr). apply lift_ok in Hr as (terminal & _ & Hr).
  apply lift_ok in Hr as (state & Hst & Hr).
  assert (recovers s s1) as Hq by (by apply recovers_quiet).
  eapply (recover_write b e loaded) in Hr as [Hrec Hset]; [|done| |done|done|exact Hns|exact Hst|].
  - split; [by eapply recovers_trans|done].
  - unfold ids. by rewrite Hd.
  - by destruct (known_prestate_of _ _).
Qed.
Lemma recover_entity_run b e (s s' : State) :
  recover_entity b e s = (s', Ok tt) -> recovers s s' /\ (log_exact (bs_log s') -> settled e s').
Proof.
  unfold recover_entity. intros Hr. apply st_bind_ok in Hr as (s1 & loaded & Hl & Hr).
  destruct (load_entity_run b e s) as [Hs Hm]. rewrite Hl in Hs, Hm. cbn in Hs, Hm. subst s1.
  destruct (Hm loaded eq_refl) as (Hmat & Hent & _). clear Hm Hl.
  assert (held s e = Ok (Some (ms_state _ loaded))) as Hheld by (unfold held; by rewrite Hmat).
  pose proof (held_id _ _ _ Hheld) as Hin.
  assert (forall k, rec_state (ms_state _ loaded) = k ->
    (let! event := lift (restart_event loaded) in
     match event with
     | Some (event, evidence, kind) =>
         let record := ms_state _ loaded in
         let! state := lift (apply_event record event) in
         persist_record b (with_terminal evidence (with_state state record)) (ms_revision _ loaded) kind evidence ;! lift (Ok tt)
     | None => lift (Ok tt)
     end) s = (s', Ok tt) -> match k with Preparing _ _ => False | _ => True end ->
    recovers s s' /\ (log_exact (bs_log s') -> settled e s')) as Hother.
  { intros k Hk Hrun Hnp. apply lift_ok in Hrun as (event & Hev & Hrun). unfold restart_event in Hev. rewrite Hk in Hev.
    destruct k; try done.
    all: try (injection Hev as <-; injection Hrun as <-; split; [apply recovers_refl|]; intros _; exists (ms_state _ loaded);
              split; [done|]; by rewrite Hk).
    all: apply res_bind_ok in Hev as (d & _ & [= <-]); apply lift_ok in Hrun as (state & Hst & Hrun);
      assert (settled_state (rec_state (ms_state _ loaded)) = false) as Hns by (rewrite Hk; reflexivity);
      exact (recover_write b e loaded _ state d (ms_state _ loaded) _ _ d s s' Hent Hin eq_refl eq_refl Hns Hst I Hrun). }
  destruct (rec_state (ms_state _ loaded)) eqn:Hk; try by eapply (Hother _ eq_refl).
  apply (recover_preparing_run b e loaded proposal attempt s s' Hent Hin); [by rewrite Hk|exact Hr].
Qed.

(** ** The walk *)

Lemma sort_dedup_length l : length (sort_dedup l) <= length l.
Proof.
  apply submseteq_length, NoDup_submseteq; [|intros x; by rewrite elem_sort_dedup].
  apply btree_sorted_NoDup, btree_of_is_sorted.
Qed.
(** A body that writes existing entities only, whatever it answers. *)
Definition keeps_ids {A R} (body : A -> string -> BrokerM (X := X) (Fd := Fd) (A + R)) : Prop :=
  forall acc e s, ids (body acc e s).1 = ids s.
Definition pages_ok (s : State) : Prop := page_request_ok (bs_db s) PROPOSAL_PREFIX PAGE.
Definition proposals (s : State) : list string := prefixed_ids (bs_db s) PROPOSAL_PREFIX.
Lemma pages_ok_ids s s' : ids s' = ids s -> pages_ok s -> pages_ok s'.
Proof. unfold pages_ok, page_request_ok, ids. by intros ->. Qed.
Lemma proposals_ids s s' : ids s' = ids s -> proposals s' = proposals s.
Proof. unfold proposals, prefixed_ids, ids. by intros ->. Qed.
Lemma proposals_length s : length (proposals s) <= length (db_states (bs_db s)).
Proof.
  unfold proposals, prefixed_ids. etransitivity; [apply sort_dedup_length|]. etransitivity; [apply filter_length_le|].
  by rewrite length_map.
Qed.

Lemma each_entity_keeps {A R} (body : A -> string -> BrokerM (A + R)) acc l s : keeps_ids body -> ids (each_entity body acc l s).1 = ids s.
Proof.
  intros Hb. revert acc s. induction l as [|e l IH]; intros acc s; cbn [each_entity]; [done|]. rewrite st_bind_run.
  pose proof (Hb acc e s) as Hk. destruct (body acc e s) as [s1 [[a|r]|x|]]; cbn in *; [by rewrite IH|done..].
Qed.
Lemma each_entity_app {A R} (body : A -> string -> BrokerM (X := X) (Fd := Fd) (A + R)) acc l l' s :
  each_entity body acc (l ++ l') s =
  (let! next := each_entity body acc l in match next with inl acc => each_entity body acc l' | inr r => lift (Ok (inr r)) end) s.
Proof.
  revert acc s. induction l as [|e l IH]; intros acc s; cbn [each_entity app]; [done|]. rewrite !st_bind_run.
  destruct (body acc e s) as [s1 [[a|r]|x|]]; [|done..]. by rewrite IH.
Qed.
(** What a page request answers, where the cursor stands after [before]. *)
Definition cursor_at (before : list string) : option string := last before.
Lemma page_after s before rest :
  pages_ok s -> proposals s = before ++ rest ->
  entity_ids_after (bs_db s) PROPOSAL_PREFIX (cursor_at before) PAGE = Ok (take (Z.to_nat PAGE) rest).
Proof.
  intros Hok Hp. unfold cursor_at. destruct before as [|c before _] using rev_ind; [cbn in Hp |- *; rewrite first_page by done; by rewrite <- Hp|].
  rewrite last_snoc. eapply next_page; [exact Hok|]. unfold proposals in Hp. rewrite Hp, <- app_assoc. done.
Qed.
Definition found {A R} (r : res BrokerError (A + R)) : res BrokerError (option (A + R)) := let? x := r in Ok (Some x).
Lemma each_page_flat {A R} fuel (body : A -> string -> BrokerM (A + R)) before rest acc s :
  keeps_ids body -> pages_ok s -> proposals s = before ++ rest -> length rest < fuel ->
  each_page fuel body (cursor_at before) acc s = let (s', r) := each_entity body acc rest s in (s', found r).
Proof.
  intros Hb. revert before rest acc s. induction fuel as [|fuel IH]; intros before rest acc s Hok Hp Hf; [lia|]. cbn [each_page].
  rewrite st_bind_run. unfold store_read, reading. rewrite (page_after _ _ _ Hok Hp). cbn [map_err].
  assert (0 < Z.to_nat PAGE) as Hn by (unfold PAGE; lia).
  destruct rest as [|e rest]; [by rewrite take_nil|].
  destruct (last_take (e :: rest) _ ltac:(done) Hn) as (pre & x & Ht & Hlast).
  pose proof (take_drop (Z.to_nat PAGE) (e :: rest)) as Hsplit.
  assert (length (drop (Z.to_nat PAGE) (e :: rest)) < fuel) as Hlen by (rewrite length_drop; cbn [length] in *; lia).
  generalize dependent (drop (Z.to_nat PAGE) (e :: rest)). intros later Hsplit Hlen.
  destruct (take (Z.to_nat PAGE) (e :: rest)) as [|e0 page] eqn:Hpage; [by destruct pre|].
  rewrite <- Hsplit, each_entity_app, !st_bind_run. pose proof (each_entity_keeps body acc (e0 :: page) s Hb) as Hk.
  destruct (each_entity body acc (e0 :: page) s) as [s1 [[a|r]|y|]]; cbn [fst] in Hk; [|done..].
  rewrite Hlast. replace (Some x) with (cursor_at (before ++ e0 :: page)) by (unfold cursor_at; rewrite Ht, app_assoc; apply last_snoc).
  apply IH; [by apply (pages_ok_ids s)| |done]. rewrite (proposals_ids s s1 Hk), Hp, <- Hsplit. by rewrite <- app_assoc.
Qed.
(** Whatever a recovery answers, it writes the proposal it loaded. *)
Definition keeps {E A} (e : string) (m : ST State E A) : Prop := forall s, e ∈ ids s -> ids (m s).1 = ids s.
Lemma keeps_quiet {E A} e (m : ST State E A) : quiet m -> keeps e m.
Proof. intros Hm s _. unfold ids. by destruct (Hm s) as [-> _]. Qed.
Lemma keeps_bind {E A B} e (m : ST State E A) (k : A -> ST State E B) : keeps e m -> (forall a, keeps e (k a)) -> keeps e (st_bind m k).
Proof.
  intros Hm Hk s Hin. rewrite st_bind_run. pose proof (Hm s Hin) as Hs. destruct (m s) as [s1 [a|x|]]; cbn in Hs; [|done..].
  rewrite Hk; [done|by rewrite Hs].
Qed.
Lemma keeps_try {E F A B} e (m : ST State E A) (k : res E A -> ST State F B) : keeps e m -> (forall r, keeps e (k r)) -> keeps e (st_try m k).
Proof.
  intros Hm Hk s Hin. unfold st_try. pose proof (Hm s Hin) as Hs. destruct (m s) as [s1 [a|x|]]; cbn in Hs; [..|done];
    (rewrite Hk; [done|by rewrite Hs]).
Qed.
Lemma keeps_lift {A B} e (r : res BrokerError A) (k : A -> ST State BrokerError B) : (forall a, keeps e (k a)) -> keeps e (st_bind (lift r) k).
Proof. apply keeps_bind, keeps_quiet, quiet_lift. Qed.
Lemma keeps_persist `{Serialize P} b e r rev kind (payload : P) : record_entity r = e -> keeps e (persist_record b r rev kind payload).
Proof.
  intros He. unfold persist_record. apply keeps_lift. intros []. apply keeps_bind; [apply keeps_quiet; auto with quiet|]. intros id.
  apply keeps_bind; [apply keeps_quiet; auto with quiet|]. intros at_. intros s Hin. rewrite st_bind_run.
  unfold store_write, host, on_world, ask, on_host. rewrite st_bind_run. destruct (store_io _) as [x [y|]]; cbn; [done|].
  unfold commit. destruct (append_event _ _ _ (bs_db s)) as [[db' a]|y|] eqn:Ha; cbn; [|done..].
  apply append_event_tx in Ha. unfold ids in *. cbn. apply (append_ids _ _ _ _ _ _ Ha). cbn [ne_entity_id]. by rewrite <- He in Hin.
Qed.
Lemma keeps_recover_preparing b loaded proposal attempt :
  keeps (record_entity (ms_state _ loaded)) (recover_preparing b loaded proposal attempt).
Proof.
  unfold recover_preparing. do 2 (apply keeps_lift; intros ?). apply keeps_try; [apply keeps_quiet, quiet_on_world|]. intros observation.
  do 4 (apply keeps_lift; intros ?). apply keeps_bind; [by apply keeps_persist|]. intros ?. apply keeps_quiet, quiet_lift.
Qed.
Lemma recover_keeps_ids b : keeps_ids (R := unit) (fun (_ : unit) e => recover_entity b e ;! lift (Ok (inl tt))).
Proof.
  intros [] e s. rewrite st_bind_run. cut (ids (recover_entity b e s).1 = ids s); [by destruct (recover_entity b e s) as [s' []]|].
  unfold recover_entity. rewrite st_bind_run. destruct (load_entity_run b e s) as [Hs Hm].
  destruct (load_proposal_entity_with_revision b e s) as [s1 [loaded|x|]]; cbn in Hs, Hm; subst s1; [|done..].
  destruct (Hm loaded eq_refl) as (Hmat & Hent & _). assert (e ∈ ids s) as Hin by (eapply held_id; unfold held; by rewrite Hmat).
  rewrite <- Hent in Hin. clear Hm Hmat.
  assert (forall r, keeps (record_entity (ms_state _ loaded))
    (let! event := lift (r : res BrokerError (option (ProposalEventV1 * Digest * string))) in
     match event with
     | Some (event, evidence, kind) =>
         let record := ms_state _ loaded in
         let! state := lift (apply_event record event) in
         persist_record b (with_terminal evidence (with_state state record)) (ms_revision _ loaded) kind evidence ;! lift (Ok tt)
     | None => lift (Ok tt)
     end)) as Hev.
  { intros r. apply keeps_lift. intros [[[event evidence] kind]|]; [|apply keeps_quiet, quiet_lift]. cbn zeta. apply keeps_lift. intros state.
    apply keeps_bind; [by apply keeps_persist|]. intros ?. apply keeps_quiet, quiet_lift. }
  destruct (rec_state (ms_state _ loaded)); try by apply Hev. by apply keeps_recover_preparing.
Qed.
Lemma each_entity_recovers b l (s s' : State) r :
  each_entity (R := unit) (fun _ e => recover_entity b e ;! lift (Ok (inl tt))) tt l s = (s', Ok r) ->
  recovers s s' /\ (log_exact (bs_log s') -> Forall (fun e => settled e s') l).
Proof.
  revert s. induction l as [|e l IH]; intros s; cbn [each_entity].
  - intros [= <- _]. split; [apply recovers_refl|by constructor].
  - intros (s1 & next & Hb & Hrest)%st_bind_ok. apply st_bind_ok in Hb as (s2 & [] & Hb & [= <- <-]).
    apply recover_entity_run in Hb as [Hr1 Hs1]. apply IH in Hrest as [Hr2 Hs2].
    split; [by eapply recovers_trans|]. intros Hx. constructor; [|by apply Hs2]. apply Hr2; [done|]. apply Hs1.
    destruct Hr2 as (_ & [l2 Hl2] & _). intros x Hin. apply Hx. rewrite Hl2. apply elem_of_app. by left.
Qed.

(** ** The theorems *)

Lemma each_proposal_flat {A R} (body : A -> string -> BrokerM (A + R)) acc s :
  keeps_ids body -> pages_ok s -> each_proposal body acc s = each_entity body acc (proposals s) s.
Proof.
  intros Hb Hok. unfold each_proposal. rewrite st_bind_run. cbn [get]. rewrite st_bind_run.
  pose proof (each_page_flat (S (length (db_states (bs_db s)))) body [] (proposals s) acc s Hb Hok eq_refl) as Hf.
  unfold cursor_at in Hf. cbn [last] in Hf. rewrite Hf by (pose proof (proposals_length s); lia).
  destruct (each_entity body acc (proposals s) s) as [s' [x|e|]]; done.
Qed.

(** The paged loops of the broker are one pass over the stored proposals, in order:
    when the body writes no new entity, reading page after page with a cursor while the
    body writes runs the body on every proposal once, gives the result of a plain loop
    over the identifiers stored at the start, and ends within the fuel. *)
Theorem paged_walk_is_one_pass {A R} (body : A -> string -> BrokerM (A + R)) acc s :
  keeps_ids body -> pages_ok s -> each_proposal body acc s = each_entity body acc (proposals s) s.
Proof. apply each_proposal_flat. Qed.

(** C13. A restart recovery that succeeds, outside a backup cut, leaves every stored
    proposal settled: none has a burned authority without a terminal record, none is
    preparing or executing.  It writes records of known proposals only, keeps every
    proposal that was settled settled, and hands no effect out. *)
Theorem recovery_settles_every_attempt b s s' :
  pages_ok s -> quiesced s = false -> recover_incomplete_attempts b s = (s', Ok tt) -> log_exact (bs_log s') ->
  ids s' = ids s /\ (forall e, e ∈ proposals s -> settled e s') /\
  exists records, bs_log s' = bs_log s ++ map PersistedRecord records.
Proof.
  intros Hok Hq Hr Hx. unfold recover_incomplete_attempts in Hr. apply st_bind_ok in Hr as (s1 & s2 & [= <- <-] & Hr).
  rewrite Hq in Hr. apply st_bind_ok in Hr as (s1 & r & Hr & [= ->]).
  rewrite each_proposal_flat in Hr by (done || apply recover_keeps_ids).
  apply each_entity_recovers in Hr as [(Hi & Hl & _) Hs]. split_all; [done| |done]. intros e He.
  by apply (proj1 (Forall_forall _ _) (Hs Hx)).
Qed.
End Recovery.

(** ** A run that stopped between the effect and its record *)

Import ToyBroker.
Definition toy_stopped : BrokerState (nat * nat) unit := (broker_run calls (start STOPS)).2.
Definition toy_recovered : BrokerState (nat * nat) unit := (recover_incomplete_attempts settings toy_stopped).1.
Lemma toy_pages : pages_ok toy_stopped.
Proof.
  split; [reflexivity|]. split; [unfold PAGE; lia|]. intros e He.
  assert (forallb (fun e => match validate_store_identifier "entity_cursor" e 256 with Ok tt => true | _ => false end) (ids toy_stopped)
          = true) as Hall by (vm_compute; reflexivity).
  pose proof (proj1 (forallb_forall _ _) Hall e (proj1 (list_elem_of_In _ _) He)) as Hv. cbn beta in Hv.
  by destruct (validate_store_identifier _ _ _) as [[]| |].
Qed.
Lemma toy_recovers : recover_incomplete_attempts settings toy_stopped = (toy_recovered, Ok tt).
Proof. unfold toy_recovered. apply pair_of_snd. vm_compute. reflexivity. Qed.
Lemma toy_recovered_exact : log_exact (bs_log toy_recovered).
Proof.
  intros r Hr%records_of_elem. apply toy_table_exact.
  assert (records_of (bs_log toy_recovered) = take 3 known ++ recovered) as Hl by (vm_compute; reflexivity). rewrite Hl in Hr.
  apply elem_of_app. apply elem_of_app in Hr as [Hr|Hr]; [left|by right]. rewrite <- (take_drop 3 known). by apply elem_of_app; left.
Qed.
Definition toy_state (s : BrokerState (nat * nat) unit) : option ProposalStateV1 :=
  match held s (proposal_entity proposal) with Ok (Some r) => Some (rec_state r) | _ => None end.
Lemma toy_listed : proposal_entity proposal ∈ proposals toy_stopped.
Proof. apply (bool_decide_unpack _). vm_compute. exact I. Qed.

Definition toy_count (n : nat) (_ : string) : BrokerM (X := nat * nat) (Fd := unit) (nat + unit) := lift (Ok (inl (S n))).
Lemma paged_walk_is_one_pass_witness :
  length (proposals toy_stopped) = 1 /\ each_proposal toy_count 0 toy_stopped = each_entity toy_count 0 (proposals toy_stopped) toy_stopped.
Proof.
  split; [vm_compute; reflexivity|]. exact (paged_walk_is_one_pass toy_count 0 toy_stopped (fun _ _ _ => eq_refl) toy_pages).
Defined.
Lemma recovery_settles_every_attempt_witness :
  toy_state toy_stopped = Some (Executing proposal attempt None) /\ settled (proposal_entity proposal) toy_recovered.
Proof.
  split; [vm_compute; reflexivity|].
  destruct (recovery_settles_every_attempt settings toy_stopped toy_recovered toy_pages) as (_ & Hs & _).
  - vm_compute. reflexivity.
  - exact toy_recovers.
  - exact toy_recovered_exact.
  - exact (Hs _ toy_listed).
Defined.
