(* ===== verification/BrokerRequests.v ===== *)
(** * The effect broker: what its answers mean (ag-app/src/effectd.rs)

    Ratification takes the challenge that was shown to the same administrator;
    reconciliation takes evidence that repeats what the store and a fresh observation
    say; a source that has its durable outcome gets it again; and the record a restart
    writes always passes the broker's own validation. *)

From S2P Require Import Prelude Wire Fixture Digest Names Origin Capability Identity Session Protocol Paths Store StoreLog StoreSpec StoreBlob HostFiles RpcAuth Config Effect Compile Proposal Executor Pointer PointerText PointerGit PointerRuntime Activation Api Broker BrokerOps BrokerAdmin WorkerSpec BrokerSpec BrokerRecovery.

(** ** Records that pass the validation *)

Section Validity.
  Context `{JcsLaws, BrokerTexts, ErrnoText, JcsErrorText, PointerTexts} {Fd : Type}.

Lemma composite_total proposal attempt steps terminal : exists d, composite_execution_receipt proposal attempt steps terminal = Ok d.
Proof.
  unfold composite_execution_receipt. match goal with |- context [from_serializable ?v] => destruct (from_serializable_ijson v) as (b & _ & ->) end;
    [|by eexists]. cbn. rewrite andb_true_r. apply forallb_forall. intros v (o & <- & Ho)%in_map_iff. clear Ho. by destruct o.
Qed.
Lemma restart_total proposal attempt steps : exists d, restart_reconciliation_envelope proposal attempt steps = Ok d.
Proof.
  unfold restart_reconciliation_envelope.
  match goal with |- context [from_serializable ?v] => destruct (from_serializable_ijson v) as (b & _ & ->) end;
    [|by eexists]. cbn. rewrite andb_true_r. apply forallb_forall. by intros v (o & <- & _)%in_map_iff.
Qed.
Lemma envelope_bound_restart canonical attempt steps envelope :
  restart_reconciliation_envelope (cp_digest canonical) attempt steps = Ok envelope -> envelope_bound canonical attempt steps envelope = Ok true.
Proof.
  intros Hr. unfold envelope_bound. rewrite Hr.
  destruct (composite_total (cp_digest canonical) attempt steps TerminalIndeterminate) as [d Hd]. rewrite Hd.
  destruct (is_empty steps); cbn [res_bind]; rewrite (bool_decide_eq_true_2 (envelope = envelope)) by done; by rewrite orb_true_r.
Qed.
Lemma envelope_bound_composite canonical attempt step envelope :
  composite_execution_receipt (cp_digest canonical) attempt [step] TerminalIndeterminate = Ok envelope ->
  envelope_bound canonical attempt [step] envelope = Ok true.
Proof.
  intros Hc. unfold envelope_bound. cbn [is_empty length Nat.eqb]. rewrite Hc. destruct (restart_total (cp_digest canonical) attempt [step]) as [d ->].
  cbn [res_bind]. by rewrite (bool_decide_eq_true_2 (Some envelope = Some envelope)).
Qed.
Lemma record_invariant_ok condition detail : require_record_invariant condition detail = Ok tt <-> condition = true.
Proof. unfold require_record_invariant. destruct condition; cbn; done. Qed.

(** A record with the same authority. *)
Definition same_authority (r r' : BrokerProposalRecordV1) : Prop :=
  rec_schema r' = rec_schema r /\ rec_canonical r' = rec_canonical r /\ rec_prepared_candidates r' = rec_prepared_candidates r /\
  rec_candidate_ratification r' = rec_candidate_ratification r /\ rec_promotion_refusals r' = rec_promotion_refusals r /\
  rec_authorization r' = rec_authorization r /\ rec_managed_pointer_activation r' = rec_managed_pointer_activation r.
(** A change of the lifecycle fields keeps the rest of the validation. *)
Lemma validate_next (b : EffectBrokerV1 Fd) d r r' :
  same_authority r r' -> succeeded_state (rec_state r) = false -> succeeded_state (rec_state r') = false -> length (rec_step_receipts r') <= 1 ->
  (forall effect ad, head (pb_effects (cp_body (rec_canonical r))) = Some effect ->
     (forall x, ad = Some x -> is_some (rec_authorization r) = true) -> validate_lifecycle r effect ad = Ok tt ->
     validate_lifecycle r' effect ad = Ok tt) ->
  validate_proposal_record b d r = Ok tt -> validate_proposal_record b d r' = Ok tt.
Proof.
  intros Hsame Hs Hs' Hlen Hlife Hv. unfold validate_proposal_record in *.
  apply then_ok in Hv as [Hctx Hv]. apply res_bind_ok in Hv as (effect & Heff & Hv). apply res_bind_ok in Hv as (candidate & Hcand & Hv).
  apply then_ok in Hv as [Hmany Hv]. apply then_ok in Hv as [Href Hv]. apply res_bind_ok in Hv as (ad & Had & Hv).
  apply then_ok in Hv as [Hauth Hv]. apply then_ok in Hv as [Hcust Hv]. apply then_ok in Hv as [Hact Hv]. apply then_ok in Hv as [Hactivation Hv].
  assert (head (pb_effects (cp_body (rec_canonical r))) = Some effect) as Hhead.
  { unfold only_effect in Heff. destruct (head _); [|done]. by injection Heff as ->. }
  assert (validate_context b d r' = Ok tt) as Hctx'.
  { unfold validate_context in *. destruct Hsame as (-> & -> & _). do 6 (apply then_ok in Hctx as [? Hctx]; apply then_ok; split; [done|]).
    apply then_ok in Hctx as [Hone _]. apply then_ok. split; [done|]. apply record_invariant_ok, Nat.eqb_eq in Hone.
    apply record_invariant_ok, Nat.leb_le. lia. }
  apply record_invariant_ok in Hact. rewrite Hs, andb_false_r in Hact.
  assert (rec_managed_pointer_activation r = None) as Hnone by (by destruct (rec_managed_pointer_activation r)).
  apply then_ok. split; [exact Hctx'|]. assert (validate_lifecycle r' effect ad = Ok tt) as Hl'.
  { apply Hlife; [done| |exact Hv]. intros x ->. by destruct (rec_authorization r). }
  clear Hctx Hctx' Hlife Hv Hlen Hactivation. destruct r, r'. unfold same_authority in Hsame. cbn in *. destruct Hsame as (-> & -> & -> & -> & -> & -> & ->).
  apply res_bind_ok. exists effect. split; [exact Heff|]. apply res_bind_ok. exists candidate. split; [exact Hcand|].
  apply then_ok. split; [exact Hmany|]. apply then_ok. split; [exact Href|]. apply res_bind_ok. exists ad. split; [exact Had|].
  apply then_ok. split; [exact Hauth|]. apply then_ok. split; [exact Hcust|]. rewrite Hnone, Hs', andb_false_r. by do 2 (apply then_ok; split; [done|]).
Qed.
Lemma validated_steps (b : EffectBrokerV1 Fd) d r : validate_proposal_record b d r = Ok tt -> length (rec_step_receipts r) <= 1.
Proof.
  unfold validate_proposal_record. intros [Hc _]%then_ok. unfold validate_context in Hc. do 6 apply then_ok in Hc as [_ Hc].
  apply then_ok in Hc as [Hone Hc]. apply record_invariant_ok in Hone, Hc. apply Nat.eqb_eq in Hone. apply Nat.leb_le in Hc. lia.
Qed.
Lemma validated_lifecycle (b : EffectBrokerV1 Fd) d r :
  validate_proposal_record b d r = Ok tt -> exists effect ad, validate_lifecycle r effect ad = Ok tt.
Proof.
  unfold validate_proposal_record. intros Hv. apply then_ok in Hv as [_ Hv]. apply res_bind_ok in Hv as (effect & _ & Hv).
  apply res_bind_ok in Hv as (candidate & _ & Hv). do 2 apply then_ok in Hv as [_ Hv]. apply res_bind_ok in Hv as (ad & _ & Hv).
  do 4 apply then_ok in Hv as [_ Hv]. eauto.
Qed.

(** The three verdicts of a restart. *)
Lemma restart_verdicts_validate (b : EffectBrokerV1 Fd) d r :
  validate_proposal_record b d r = Ok tt ->
  (forall p a f receipt, rec_state r = AuthorizationBurned p a f ->
     validate_proposal_record b d (with_terminal receipt (with_state (Failed receipt) r)) = Ok tt) /\
  (forall p a c envelope, rec_state r = Executing p a c -> restart_reconciliation_envelope p a (rec_step_receipts r) = Ok envelope ->
     validate_proposal_record b d (with_terminal envelope (with_state (ReconciliationRequired envelope) r)) = Ok tt) /\
  (forall p a step terminal, rec_state r = Preparing p a ->
     (composite_execution_receipt p a [step] TerminalFailed = Ok terminal ->
      validate_proposal_record b d (with_terminal terminal (with_state (Failed terminal) (with_step step r))) = Ok tt) /\
     (composite_execution_receipt p a [step] TerminalIndeterminate = Ok terminal ->
      validate_proposal_record b d (with_terminal terminal (with_state (ReconciliationRequired terminal) (with_step step r))) = Ok tt)).
Proof.
  intros Hv.
  pose proof (validated_steps b d r Hv) as Hlen.
  split_all.
  - intros p a f receipt Hs. apply (validate_next b d r); [done|by rewrite Hs|done|done| |exact Hv].
    intros effect ad _ Had Hl. unfold validate_lifecycle in Hl |- *. rewrite Hs in Hl. cbn [rec_state with_terminal with_state].
    apply then_ok in Hl as [Hl1%record_invariant_ok Hl]. apply then_ok in Hl as [Hl2%record_invariant_ok _].
    rewrite !andb_true_iff in Hl1. rewrite !andb_true_iff in Hl2. destruct Hl1 as [_ Hl1%bool_decide_eq_true], Hl2 as [[[_ Hst] Hat] Hrec].
    unfold validate_failed. cbn [with_terminal with_state rec_authorization rec_terminal_receipt rec_reconciliation rec_execution_attempt rec_step_receipts].
    rewrite (Had _ Hl1), Hrec, Hst, (bool_decide_eq_true_2 (Some receipt = Some receipt)) by done.
    unfold is_none in Hat. by destruct (rec_execution_attempt r).
  - intros p a c envelope Hs Henv.
    apply (validate_next b d r); [done|by rewrite Hs|done|done| |exact Hv].
    intros effect ad _ _ Hl. unfold validate_lifecycle in Hl |- *. rewrite Hs in Hl. cbn [rec_state with_terminal with_state].
    apply then_ok in Hl as [Hl1%record_invariant_ok Hl2%record_invariant_ok]. rewrite !andb_true_iff in Hl1. rewrite !andb_true_iff in Hl2.
    destruct Hl1 as [[[->%bool_decide_eq_true Hauth] Hatt%bool_decide_eq_true] _], Hl2 as [_ Hrec].
    unfold validate_uncertain. cbn [with_terminal with_state rec_authorization rec_terminal_receipt rec_reconciliation rec_execution_attempt rec_step_receipts rec_canonical].
    rewrite Hauth, Hatt, Hrec, (bool_decide_eq_true_2 (Some envelope = Some envelope)) by done. cbn [is_some andb ok_or res_bind].
    by rewrite (envelope_bound_restart _ _ _ _ Henv).
  - intros p a step terminal Hs. destruct (validated_lifecycle b d r Hv) as (effect0 & ad0 & Hl0). unfold validate_lifecycle in Hl0.
    rewrite Hs in Hl0. apply then_ok in Hl0 as [Hl1%record_invariant_ok Hl2%record_invariant_ok].
    rewrite !andb_true_iff in Hl1. rewrite !andb_true_iff in Hl2.
    destruct Hl1 as [[[Hp%bool_decide_eq_true Hauth] Hatt%bool_decide_eq_true] _], Hl2 as [[_ Hnil] Hrec]. subst p.
    assert (rec_step_receipts r = []) as He by (by destruct (rec_step_receipts r)). unfold with_step. rewrite He. cbn [app].
    split; intros Hc.
    + apply (validate_next b d r); [done|by rewrite Hs|done|done| |exact Hv]. intros effect ad _ _ _.
      unfold validate_lifecycle. cbn [rec_state with_terminal with_state]. unfold validate_failed.
      cbn [with_terminal with_state rec_authorization rec_terminal_receipt rec_reconciliation rec_execution_attempt rec_step_receipts rec_canonical].
      rewrite Hauth, Hatt, Hrec, (bool_decide_eq_true_2 (Some terminal = Some terminal)) by done. cbn.
      rewrite Hc. cbn. by rewrite bool_decide_eq_true_2.
    + apply (validate_next b d r); [done|by rewrite Hs|done|done| |exact Hv]. intros effect ad _ _ _.
      unfold validate_lifecycle. cbn [rec_state with_terminal with_state]. unfold validate_uncertain.
      cbn [with_terminal with_state rec_authorization rec_terminal_receipt rec_reconciliation rec_execution_attempt rec_step_receipts rec_canonical].
      rewrite Hauth, Hatt, Hrec, (bool_decide_eq_true_2 (Some terminal = Some terminal)) by done. cbn [is_some andb ok_or res_bind].
      by rewrite (envelope_bound_composite _ _ _ _ Hc).
Qed.
(** What the evidence of a reconciliation must repeat. *)
Definition evidence_fits (evidence : ReconciliationEvidenceV1) (r : BrokerProposalRecordV1)
    (observed : list (string * TargetObservationV1)) : Prop :=
  rec_state r = ReconciliationRequired (re_uncertainty_envelope evidence) /\
  re_schema evidence = RECONCILIATION_EVIDENCE_SCHEMA_V1 /\ rec_execution_attempt r = Some (re_attempt evidence) /\
  re_step_receipts evidence = rec_step_receipts r /\ re_observed_poststate evidence = observed /\
  exists effect observation, head (pb_effects (cp_body (rec_canonical r))) = Some effect /\
    btree_get (target_str (effect_target effect)) observed = Some observation /\
    classify_reconciliation effect observation = Ok (re_classification evidence).
Lemma validated_context (b : EffectBrokerV1 Fd) d r :
  validate_proposal_record b d r = Ok tt ->
  cp_digest (rec_canonical r) = d /\ pb_authority_domain (cp_body (rec_canonical r)) = bk_authority_domain b /\
  pb_epoch (cp_body (rec_canonical r)) = bk_epoch b.
Proof.
  unfold validate_proposal_record. intros [Hc _]%then_ok. unfold validate_context in Hc. do 2 apply then_ok in Hc as [_ Hc].
  apply then_ok in Hc as [Hd%record_invariant_ok%bool_decide_eq_true Hc]. apply then_ok in Hc as [_ Hc].
  apply then_ok in Hc as [[Hdom%bool_decide_eq_true Hep%bool_decide_eq_true]%record_invariant_ok%andb_true_iff _]. done.
Qed.
(** What an administrator's evidence makes of a record passes the validation. *)
Lemma reconciled_validates (b : EffectBrokerV1 Fd) r evidence observed ratifier signed_request receipt :
  let reconciliation := mkReconciliation RECONCILIATION_RECORD_SCHEMA_V1 evidence ratifier signed_request in
  validate_proposal_record b (re_proposal evidence) r = Ok tt -> evidence_fits evidence r observed -> length observed = 1 ->
  pc_authority_domain ratifier = bk_authority_domain b -> pc_epoch ratifier = bk_epoch b ->
  independent_from (pb_proposer (cp_body (rec_canonical r))) ratifier = Ok true -> reconciliation_digest reconciliation = Ok receipt ->
  validate_proposal_record b (re_proposal evidence) (with_reconciliation (Reconciled receipt) receipt reconciliation r) = Ok tt.
Proof.
  intros reconciliation Hv (Hst & Hschema & Hatt & Hsteps & Hobs & effect & observation & Heff & Hget & Hcl) Hone Hdom Hep Hind Hd.
  pose proof (validated_steps b _ r Hv) as Hlen.
  destruct (validated_context b _ r Hv) as (Hent & Hbd & Hbe).
  apply (validate_next b _ r); [done|by rewrite Hst|done|done| |exact Hv]. intros effect' ad Heff' _ Hl.
  rewrite Heff in Heff'. injection Heff' as <-. unfold validate_lifecycle in Hl |- *. rewrite Hst in Hl. cbn [rec_state with_reconciliation].
  unfold validate_uncertain in Hl. apply then_ok in Hl as [Hl1%record_invariant_ok Hl]. rewrite !andb_true_iff in Hl1. destruct Hl1 as [[[Hauth _] _] _].
  rewrite Hatt in Hl. cbn [ok_or res_bind] in Hl. apply res_bind_ok in Hl as (bound & Hbound & Hl%record_invariant_ok). subst bound.
  unfold validate_reconciled.
  cbn [with_reconciliation rec_canonical rec_reconciliation rec_authorization rec_execution_attempt rec_terminal_receipt rec_step_receipts ok_or res_bind].
  rewrite Hd. unfold corrupt_effect. cbn [map_err res_bind rr_evidence rr_schema reconciliation rr_ratifier]. subst reconciliation. cbn [rr_evidence rr_schema rr_ratifier].
  rewrite Hauth, Hatt, Hschema, Hsteps, Hent. rewrite !bool_decide_eq_true_2 by done. cbn [is_some andb require_record_invariant].
  unfold ratifier_admitted, independent, expect_ok. cbn [all_of]. rewrite Hind, Hdom, Hep, Hbd, Hbe, !bool_decide_eq_true_2 by done. cbn.
  rewrite Hobs, Hget, Hone. cbn. rewrite Hcl. cbn. rewrite bool_decide_eq_true_2 by done. cbn. by rewrite Hbound.
Qed.
End Validity.


Section Requests.
  Context `{JcsLaws, !HexLaws, !Sha256Laws, RpcDeps, ErrnoText, JcsErrorText, PointerTexts} {X Fd : Type}.
  Context `{!PointerHost X Fd, !BrokerParameters X}.
  #[local] Abbreviation State := (BrokerState X Fd).

(** ** Calls that stop before they write *)

Lemma quiet_stops {E A B} (m : ST State E A) (k : A -> ST State E B) s :
  quiet m -> bs_log (st_bind m k s).1 <> bs_log s ->
  exists s1 a, m s = (s1, Ok a) /\ bs_log s1 = bs_log s /\ db_states (bs_db s1) = db_states (bs_db s) /\ bs_log (k a s1).1 <> bs_log s1.
Proof.
  intros Hm. rewrite st_bind_run. destruct (Hm s) as [Hd Hl]. destruct (m s) as [s1 [a|e|]]; cbn in *; [|done..].
  intros Hk. exists s1, a. by rewrite Hl in *.
Qed.
Lemma take_challenge_ok d (s s1 : State) c : take_challenge d s = (s1, Ok c) -> btree_get (digest_str d) (bs_challenges s) = Some c.
Proof. unfold take_challenge. destruct (btree_get _ _); [|done]. by intros [= _ <-]. Qed.
Lemma check_challenge_ok expected challenge peer (s s1 : State) :
  check_challenge expected challenge peer s = (s1, Ok tt) ->
  ch_value expected = challenge /\ binding_digest peer = Ok (ch_peer expected) /\
  exists now s0, now_u64 s = (s0, Ok now) /\ (now <= ch_expires_unix_ms expected)%Z.
Proof.
  unfold check_challenge. intros Hc. apply lift_ok in Hc as ([] & Hv%reject_if_ok & Hc).
  apply lift_ok in Hc as (d & Hd%map_err_ok & Hc). apply lift_ok in Hc as ([] & Hp%reject_if_ok & Hc).
  apply st_bind_ok in Hc as (s0 & now & Hn & Hc). unfold lift, pure in Hc. injection Hc as _ Hc. apply reject_if_ok, Z.ltb_ge in Hc.
  apply negb_bool_decide_false in Hv, Hp. subst. split_all; [done|done|eauto].
Qed.
(** ** Challenges are used up *)

Definition same_challenges {E A} (m : ST State E A) : Prop := forall s, bs_challenges (m s).1 = bs_challenges s.
Lemma same_bind {E A B} (m : ST State E A) (k : A -> ST State E B) :
  same_challenges m -> (forall a, same_challenges (k a)) -> same_challenges (st_bind m k).
Proof.
  intros Hm Hk s. rewrite st_bind_run. specialize (Hm s). destruct (m s) as [s' [a|e|]]; [|done..]. cbn in Hm. by rewrite Hk.
Qed.
Lemma same_try {E F A B} (m : ST State E A) (k : res E A -> ST State F B) :
  same_challenges m -> (forall r, same_challenges (k r)) -> same_challenges (st_try m k).
Proof. intros Hm Hk s. unfold st_try. specialize (Hm s). destruct (m s) as [s' [a|e|]]; cbn in Hm; rewrite ?Hk; done. Qed.
Lemma same_map_err {E F A} (f : E -> F) (m : ST State E A) : same_challenges m -> same_challenges (st_map_err f m).
Proof. intros Hm s. unfold st_map_err. specialize (Hm s). by destruct (m s). Qed.
Lemma same_on_world {E A} (m : ST (PointerWorld X Fd) E A) : same_challenges (on_world m).
Proof. intros s. unfold on_world. by destruct (m (bs_world s)). Qed.
Lemma same_write {A} (tx : Tx A) : same_challenges (store_write tx).
Proof.
  unfold store_write. apply same_bind; [apply same_on_world|]. intros [e|]; [done|]. intros s. by destruct (commit tx (bs_db s)).
Qed.
#[local] Ltac same :=
  repeat first
    [ assumption
    | done
    | lazymatch goal with
      | |- same_challenges (st_bind _ _) => apply same_bind; [|intros ?]
      | |- same_challenges (st_try _ _) => apply same_try; [|intros ?]
      | |- same_challenges (st_map_err _ _) => apply same_map_err
      | |- same_challenges (on_world _) => apply same_on_world
      | |- same_challenges (host _) => apply same_on_world
      | |- same_challenges (store_write _) => apply same_write
      | |- same_challenges now_u64 => unfold now_u64
      | |- same_challenges now_i64 => unfold now_i64
      | |- same_challenges new_uuid => unfold new_uuid
      | |- same_challenges (match ?x with _ => _ end) => destruct x
      | |- same_challenges (persist_record _ _ _ _ _) => unfold persist_record
      | |- same_challenges (finish_execution _ _ _ _ _ _ _) => unfold finish_execution
      | |- same_challenges (finish_preparation_failure _ _ _ _) => unfold finish_preparation_failure
      | |- same_challenges (record_promotion_refusal _ _ _ _ _ _) => unfold record_promotion_refusal
      | |- same_challenges (ratify_promotion _ _ _ _ _ _ _) => unfold ratify_promotion
      | |- same_challenges (check_challenge _ _ _) => unfold check_challenge
      | |- same_challenges (load_proposal_with_revision _ _) => unfold load_proposal_with_revision
      | |- same_challenges (refuse_expired _) => unfold refuse_expired
      | |- same_challenges (independent_ratifier _ _ _) => unfold independent_ratifier
      | |- same_challenges (run_promotion _ _ _ _ _ _) => unfold run_promotion
      | |- same_challenges (run_effect _ _ _ _ _) => unfold run_effect
      end
    | match goal with |- same_challenges ?m => progress (let m' := eval cbv beta zeta in m in change (same_challenges m')) end ].
Lemma btree_remove_gone {V} k (m : list (string * V)) : btree_get k (btree_remove k m) = None.
Proof.
  induction m as [|[k' v] m IH]; [done|]. unfold btree_remove in *. cbn. destruct (bool_decide_reflect (k' = k)) as [->|Hne]; [done|].
  cbn. destruct (String.eqb_spec k k') as [->|]; [by destruct Hne|done].
Qed.

(** C14. A display challenge is good for one call.  Outside a backup cut and with the
    broker activated, a ratification leaves no challenge for the proposal, whatever it
    answers.  And a ratification that writes anything (a burned authority, or a refusal
    in the record of the proposal) repeats the challenge the broker held for the
    proposal, which is bound to the same peer and has not expired. *)
Theorem ratification_uses_up_challenge b proposal challenge peer signed_request (s : State) :
  let s' := (ratify_human b proposal challenge peer signed_request s).1 in
  (forall s1 heads, quiesced s = false -> require_authority_activation b s = (s1, Ok heads) ->
     btree_get (digest_str proposal) (bs_challenges s') = None) /\
  (bs_log s' <> bs_log s ->
   quiesced s = false /\
   exists c s1 heads s2 s3 now, require_authority_activation b s = (s1, Ok heads) /\
     btree_get (digest_str proposal) (bs_challenges s1) = Some c /\ ch_value c = challenge /\
     binding_digest peer = Ok (ch_peer c) /\ now_u64 s2 = (s3, Ok now) /\ (now <= ch_expires_unix_ms c)%Z).
Proof.
  intros s'. split.
  - intros s1 heads Hq Hr. subst s'. unfold ratify_human. rewrite st_bind_run. unfold refuse_quiesced, reading. rewrite Hq. cbn [reject_if].
    rewrite st_bind_run, Hr, st_bind_run. unfold take_challenge.
    destruct (btree_get (digest_str proposal) (bs_challenges s1)) as [c|] eqn:Hc; [|done].
    match goal with |- btree_get _ (bs_challenges (?k _).1) = None => assert (same_challenges k) as -> end;
      [same|apply btree_remove_gone].
  - intros Hl. subst s'. unfold ratify_human in Hl.
    apply quiet_stops in Hl as (s0 & [] & Hq & _ & _ & Hl); [|auto with quiet]. unfold refuse_quiesced, reading in Hq.
    injection Hq as <- Hq. apply reject_if_ok in Hq.
    apply quiet_stops in Hl as (s1 & heads & Hr & _ & _ & Hl); [|auto with quiet].
    apply quiet_stops in Hl as (s2 & c & Ht%take_challenge_ok & _ & _ & Hl); [|auto with quiet].
    apply quiet_stops in Hl as (s3 & [] & Hc%check_challenge_ok & _ & _ & _); [|auto with quiet].
    destruct Hc as (Hv & Hp & now & s4 & Hn & Hle). split; [done|]. exists c, s1, heads, s2, s4, now. done.
Qed.

(** ** Reconciliation *)

(** A call that writes nothing when it fails. *)
Definition atomic {E A} (m : ST State E A) : Prop := forall s, match (m s).2 with Ok _ => True | _ => bs_log (m s).1 = bs_log s end.
Lemma atomic_quiet {E A B} (m : ST State E A) (k : A -> ST State E B) : quiet m -> (forall a, atomic (k a)) -> atomic (st_bind m k).
Proof.
  intros Hm Hk s. rewrite st_bind_run. destruct (Hm s) as [_ Hl]. destruct (m s) as [s1 [a|e|]]; cbn in *; [|done..].
  specialize (Hk a s1). destruct (k a s1) as [s2 [v|e|]]; cbn in *; congruence.
Qed.
Lemma atomic_lift {A B} (r : res BrokerError A) (k : A -> ST State BrokerError B) : (forall a, atomic (k a)) -> atomic (st_bind (lift r) k).
Proof. apply atomic_quiet, quiet_lift. Qed.
Lemma atomic_refused {A} (r : res BrokerError A) : atomic (lift r : ST State BrokerError A).
Proof. intros s. by destruct r. Qed.
Lemma atomic_persist `{Serialize P} {A} b r rev kind (payload : P) (a : A) : atomic (persist_record b r rev kind payload ;! lift (Ok a)).
Proof.
  intros s. rewrite st_bind_run. cut (atomic (persist_record b r rev kind payload)).
  { intros Hp. specialize (Hp s). by destruct (persist_record _ _ _ _ _ s) as [s1 [x|e|]]. }
  clear s. unfold persist_record. apply atomic_lift. intros []. apply atomic_quiet; [auto with quiet|]. intros id.
  apply atomic_quiet; [auto with quiet|]. intros at_ s. rewrite st_bind_run.
  unfold store_write, host, on_world, ask, on_host. rewrite st_bind_run. destruct (store_io _) as [x [y|]]; cbn; [done|].
  by destruct (commit _ _) as [db [a'|e|]].
Qed.
Lemma reconcile_atomic b evidence peer signed_request : atomic (reconcile (X := X) b evidence peer signed_request).
Proof.
  unfold reconcile. apply atomic_quiet; [auto with quiet|]. intros []. apply atomic_quiet; [auto with quiet|]. intros loaded.
  apply atomic_lift. intros []. destruct (rec_state _); try apply atomic_refused.
  apply atomic_lift. intros []. apply atomic_quiet; [auto with quiet|]. intros observed. do 5 (apply atomic_lift; intros ?).
  apply atomic_quiet; [auto with quiet|]. intros ratifier. do 2 (apply atomic_lift; intros ?). apply atomic_persist.
Qed.
(** When the broker reconciles: outside a backup cut, a stored record that passes the
    validation, an observation of its targets, evidence that repeats both, and the
    enrolled administrator, independent of the proposer. *)
Definition reconcilable (b : EffectBrokerV1 Fd) (evidence : ReconciliationEvidenceV1) (peer : VerifiedRpcPrincipalV1) (signed_request : Digest)
    (s : State) (loaded : MaterializedStateV1 BrokerProposalRecordV1) (s1 : State) (ratifier : PrincipalChainV1) (receipt : Digest) : Prop :=
  let r := ms_state _ loaded in
  quiesced s = false /\
  materialized_state decode_proposal (bs_db s) (proposal_entity (re_proposal evidence)) = Ok (Some loaded) /\
  validate_proposal_record b (re_proposal evidence) r = Ok tt /\
  (exists observed, observe_canonical_proposal b (rec_canonical r) s = (s1, Ok observed) /\ evidence_fits evidence r observed) /\
  signed_principal_chain peer (bk_admin_policy b) (bk_authority_domain b) (bk_epoch b) = Ok ratifier /\
  independent_from (pb_proposer (cp_body (rec_canonical r))) ratifier = Ok true /\
  reconciliation_digest (mkReconciliation RECONCILIATION_RECORD_SCHEMA_V1 evidence ratifier signed_request) = Ok receipt.
Definition reconciled_record (evidence : ReconciliationEvidenceV1) (signed_request : Digest) (ratifier : PrincipalChainV1) (receipt : Digest)
    (r : BrokerProposalRecordV1) : BrokerProposalRecordV1 :=
  with_reconciliation (Reconciled receipt) receipt (mkReconciliation RECONCILIATION_RECORD_SCHEMA_V1 evidence ratifier signed_request) r.

Lemma load_ok b d (s s1 : State) loaded :
  load_proposal_with_revision b d s = (s1, Ok loaded) <->
  s1 = s /\ materialized_state decode_proposal (bs_db s) (proposal_entity d) = Ok (Some loaded) /\ validate_proposal_record b d (ms_state _ loaded) = Ok tt.
Proof.
  unfold load_proposal_with_revision, store_read, reading, lift, pure. rewrite st_bind_run.
  destruct (materialized_state _ _ _) as [[m|]|e|]; cbn; [|naive_solver..].
  unfold st_bind. cbn. destruct (validate_proposal_record b d (ms_state _ m)) as [[]|e|] eqn:Hv; cbn; naive_solver congruence.
Qed.
Lemma observed_one b canonical (s s1 : State) observed :
  length (pb_effects (cp_body canonical)) = 1 -> observe_canonical_proposal b canonical s = (s1, Ok observed) -> length observed = 1.
Proof.
  intros Hone Ho. unfold observe_canonical_proposal in Ho. apply lift_ok in Ho as ([] & _ & Ho). apply lift_ok in Ho as ([] & _ & Ho).
  destruct (pb_effects (cp_body canonical)) as [|effect [|]]; [done| |done]. cbn [observe_effects] in Ho.
  apply st_bind_ok in Ho as (s2 & observation & _ & Ho). apply lift_ok in Ho as ([] & _ & Ho). by injection Ho as _ <-.
Qed.
Lemma validated_single b d r : validate_proposal_record (Fd := Fd) b d r = Ok tt -> length (pb_effects (cp_body (rec_canonical r))) = 1.
Proof.
  unfold validate_proposal_record. intros [Hc _]%then_ok. unfold validate_context in Hc. do 6 apply then_ok in Hc as [_ Hc].
  by apply then_ok in Hc as [Hone%record_invariant_ok%Nat.eqb_eq _].
Qed.
(** What is reconcilable gets to the write, with a record that passes the validation. *)
Lemma reconcile_writes b evidence peer signed_request (s : State) loaded s1 ratifier receipt :
  reconcilable b evidence peer signed_request s loaded s1 ratifier receipt ->
  let record := reconciled_record evidence signed_request ratifier receipt (ms_state _ loaded) in
  validate_proposal_record b (re_proposal evidence) record = Ok tt /\
  reconcile b evidence peer signed_request s =
    (persist_record b record (ms_revision _ loaded) "effect-proposal.reconciled.v1"
       (mkReconciliation RECONCILIATION_RECORD_SCHEMA_V1 evidence ratifier signed_request) ;!
     lift (Ok (ReconciledResponse receipt))) s1.
Proof.
  intros (Hq & Hm & Hv & (observed & Ho & Hf) & Hch & Hind & Hd) record.
  pose proof Hch as (_ & Hdom & Hep & _)%signed_chain_spec. split.
  { apply (reconciled_validates b _ evidence observed); try done. eapply observed_one; [by eapply validated_single|exact Ho]. }
  destruct Hf as (Hst & Hschema & Hatt & Hsteps & Hobs & effect & observation & Heff & Hget & Hcl).
  unfold reconcile. rewrite st_bind_run. unfold refuse_quiesced, reading. rewrite Hq. cbn [reject_if].
  rewrite st_bind_run, (proj2 (load_ok b (re_proposal evidence) s s loaded)) by done. cbn zeta.
  assert (verify_digest (rec_canonical (ms_state _ loaded)) = Ok tt) as Hdig.
  { unfold validate_proposal_record in Hv. apply then_ok in Hv as [Hc _]. unfold validate_context in Hc. apply then_ok in Hc as [Hc _].
    unfold corrupt_effect in Hc. by apply map_err_ok in Hc. }
  rewrite st_bind_run, Hdig. cbn [lift pure map_err]. rewrite Hst, Hschema, Hatt, Hsteps, !bool_decide_eq_true_2 by done. cbn [negb orb reject_if].
  rewrite st_bind_run. cbn [lift pure]. rewrite st_bind_run, Ho, Hobs, bool_decide_eq_true_2 by done. cbn [negb reject_if].
  rewrite st_bind_run. cbn [lift pure]. rewrite st_bind_run, Heff. cbn [ok_or lift pure]. rewrite st_bind_run, Hget. cbn [ok_or lift pure].
  rewrite st_bind_run, Hcl. cbn [lift pure]. rewrite st_bind_run, bool_decide_eq_true_2 by done. cbn [negb reject_if lift pure].
  rewrite st_bind_run. unfold independent_ratifier, chain_of, independent, expect_ok. rewrite Hch, st_bind_run. cbn [map_err lift pure].
  rewrite st_bind_run, Hind. cbn [lift pure]. rewrite st_bind_run. cbn [negb reject_if lift pure].
  rewrite st_bind_run, Hd. cbn [map_err lift pure]. rewrite st_bind_run. unfold apply_event. rewrite Hst. cbn. done.
Qed.
(** C15. A reconciliation is the administrator's exact word on an exact state.  It gets
    to its one write exactly when it is outside a backup cut, the stored record needs
    reconciliation and passes the validation, the evidence repeats its envelope, attempt
    and step receipts and the observation the broker makes itself, with the
    classification the broker computes, and the ratifier is the enrolled administrator,
    independent of the proposer.  The record it then writes carries this evidence and
    its digest as terminal receipt and always passes the validation, so that the
    answer is the outcome of the write.  A reconciliation that fails writes nothing. *)
Theorem reconciliation_exact b evidence peer signed_request (s s' : State) answer :
  reconcile b evidence peer signed_request s = (s', answer) ->
  let kind := "effect-proposal.reconciled.v1" in
  let reconciliation ratifier := mkReconciliation RECONCILIATION_RECORD_SCHEMA_V1 evidence ratifier signed_request in
  let record := reconciled_record evidence signed_request in
  (forall loaded s1 ratifier receipt, reconcilable b evidence peer signed_request s loaded s1 ratifier receipt ->
     validate_proposal_record b (re_proposal evidence) (record ratifier receipt (ms_state _ loaded)) = Ok tt /\
     (s', answer) = (persist_record b (record ratifier receipt (ms_state _ loaded)) (ms_revision _ loaded) kind (reconciliation ratifier) ;!
             lift (Ok (ReconciledResponse receipt))) s1) /\
  match answer with
  | Ok response => exists loaded s1 ratifier receipt,
      reconcilable b evidence peer signed_request s loaded s1 ratifier receipt /\ response = ReconciledResponse receipt /\
      bs_log s' = bs_log s ++ [PersistedRecord (record ratifier receipt (ms_state _ loaded))]
  | _ => bs_log s' = bs_log s
  end.
Proof.
  intros Hr kind reconciliation record. split; [intros loaded s1 ratifier receipt Hrec; rewrite <- Hr; by apply reconcile_writes|].
  pose proof (reconcile_atomic b evidence peer signed_request s) as Ha. rewrite Hr in Ha. subst record reconciliation kind.
  destruct answer as [response|e|]; [|exact Ha..]. clear Ha. unfold reconcile in Hr.
  apply st_bind_ok in Hr as (s0 & [] & Hq & Hr). unfold refuse_quiesced, reading in Hq. injection Hq as <- Hq. apply reject_if_ok in Hq.
  apply st_bind_ok in Hr as (s1 & loaded & (-> & Hmat & Hval)%load_ok & Hr).
  apply lift_ok in Hr as ([] & _ & Hr). destruct (rec_state (ms_state _ loaded)) eqn:Hstate; try done.
  apply lift_ok in Hr as ([] & Hg%reject_if_ok & Hr). guards_in Hg. destruct Hg as [[[Hschema Henv] Hatt] Hsteps].
  apply st_bind_ok in Hr as (s1 & observed & Hobs & Hr).
  apply lift_ok in Hr as ([] & Hpost%reject_if_ok & Hr). apply lift_ok in Hr as (effect & Heff%ok_or_ok & Hr).
  apply lift_ok in Hr as (observation & Hget%ok_or_ok & Hr). apply lift_ok in Hr as (classification & Hcl & Hr).
  apply lift_ok in Hr as ([] & Hsame%reject_if_ok & Hr). apply st_bind_ok in Hr as (s2 & ratifier & Hrat & Hr).
  pose proof (quiet_observe b (rec_canonical (ms_state _ loaded)) s) as [_ Hl1]. rewrite Hobs in Hl1.
  pose proof (independent_ratifier_ok _ _ _ _ _ _ Hrat) as Hind. unfold independent_ratifier in Hrat.
  apply lift_ok in Hrat as (chain & Hch%map_err_ok & Hrat). apply lift_ok in Hrat as (ok & _ & Hrat). apply lift_ok in Hrat as ([] & _ & [= <- <-]).
  apply lift_ok in Hr as (receipt & Hd%map_err_ok & Hr).
  apply lift_ok in Hr as (state & Hst & Hr). apply st_bind_ok in Hr as (s3 & rev & Hp%persist_run & [= <- <-]).
  destruct Hp as (_ & _ & _ & Hlog). unfold apply_event in Hst. rewrite Hstate in Hst. cbn in Hst, Hl1. injection Hst as <-.
  apply negb_bool_decide_false in Hpost, Hsame. subst. exists loaded, s1, chain, receipt. split; [|split; [done|by rewrite Hlog, Hl1]].
  unfold reconcilable. split_all; try done. eexists. split; [exact Hobs|].
  unfold evidence_fits. rewrite Hstate. split_all; try congruence. eauto.
Qed.

(** ** The record a restart writes *)

(** A preparation that a restart cut short is decided by an observation of its target.
    Its evidence goes into the step receipt, so that it must be JSON data: device and
    inode numbers, for one, within the range of JSON numbers. *)
Definition observed_now (b : EffectBrokerV1 Fd) (effect : CanonicalEffectV1) (s : State) : res ManagedPointerError TargetObservationV1 :=
  (observe_canonical (bk_pointer_runtime b) effect (bs_world s)).2.
Definition restart_encodes (b : EffectBrokerV1 Fd) (r : BrokerProposalRecordV1) (s : State) : Prop :=
  match rec_state r with
  | Preparing _ _ => forall effect, head (pb_effects (cp_body (rec_canonical r))) = Some effect ->
      ijson (to_value effect) = true /\
      match observed_now b effect s with Ok observed => ijson (to_value observed) = true | Err _ => True | Panic => False end
  | _ => True
  end.
(** Never begun: failed.  Begun: uncertain.  Preparing: failed if the target is as it
    was ratified, uncertain otherwise. *)
Definition restart_verdict (b : EffectBrokerV1 Fd) (r : BrokerProposalRecordV1) (s : State) (receipt : Digest) : option ProposalStateV1 :=
  match rec_state r with
  | AuthorizationBurned _ _ _ => Some (Failed receipt)
  | Executing _ _ _ => Some (ReconciliationRequired receipt)
  | Preparing _ _ =>
      effect ← head (pb_effects (cp_body (rec_canonical r)));
      Some (if known_prestate_of effect (observed_now b effect s) then Failed receipt else ReconciliationRequired receipt)
  | _ => None
  end.
Lemma load_entity_valid b e (s s1 : State) loaded :
  load_proposal_entity_with_revision b e s = (s1, Ok loaded) ->
  s1 = s /\ validate_proposal_record b (cp_digest (rec_canonical (ms_state _ loaded))) (ms_state _ loaded) = Ok tt.
Proof.
  intros Hl. destruct (load_entity_run b e s) as [Hs Hd]. rewrite Hl in Hs, Hd. cbn in Hs, Hd. destruct (Hd loaded eq_refl) as (_ & _ & Hent).
  split; [done|]. unfold load_proposal_entity_with_revision in Hl. apply lift_ok in Hl as (d & Hd' & Hl).
  apply st_bind_ok in Hl as (s2 & o & _ & Hl). apply lift_ok in Hl as (m & _ & Hl). apply lift_ok in Hl as ([] & _ & Hl).
  apply lift_ok in Hl as ([] & Hv & [= _ ->]). congruence.
Qed.
Lemma validated_authorization b d r :
  validate_proposal_record (Fd := Fd) b d r = Ok tt -> rec_authorization r <> None ->
  exists a authorization, rec_authorization r = Some a /\ digest_of a = Ok authorization.
Proof.
  intros Hv Ha. unfold validate_proposal_record in Hv. apply then_ok in Hv as [_ Hv]. apply res_bind_ok in Hv as (effect & _ & Hv).
  apply res_bind_ok in Hv as (candidate & _ & Hv). do 2 apply then_ok in Hv as [_ Hv]. apply res_bind_ok in Hv as (ad & Had & _).
  destruct (rec_authorization r) as [a|]; [|done]. apply res_bind_ok in Had as (x & Hx%map_err_ok & _). exists a, x. split; [done|].
  unfold digest_of. by rewrite Hx.
Qed.
Lemma validated_preparing b d r p a :
  validate_proposal_record (Fd := Fd) b d r = Ok tt -> rec_state r = Preparing p a -> rec_authorization r <> None.
Proof.
  intros Hv Hs. destruct (validated_lifecycle b d r Hv) as (effect & ad & Hl). unfold validate_lifecycle in Hl. rewrite Hs in Hl.
  apply then_ok in Hl as [Hl%record_invariant_ok _]. rewrite !andb_true_iff in Hl. destruct Hl as [[[_ Hl] _] _]. by destruct (rec_authorization r).
Qed.
Lemma validated_effect b d r :
  validate_proposal_record (Fd := Fd) b d r = Ok tt -> exists effect, head (pb_effects (cp_body (rec_canonical r))) = Some effect.
Proof. intros Hv%validated_single. destruct (pb_effects _) as [|effect l]; [done|]. by exists effect. Qed.
Lemma restart_receipt_total proposal authorization attempt effect known evidence :
  ijson (to_value effect) = true ->
  exists step, step_digest_of (mkExecutionReceipt EXECUTION_RECEIPT_SCHEMA_V1 proposal authorization attempt 0 effect
                                 (restart_outcome known evidence)) = Ok step.
Proof.
  intros He. unfold step_digest_of, receipt_digest.
  match goal with |- context [from_serializable ?v] => destruct (from_serializable_ijson v) as (x & _ & ->) end; [|by eexists].
  ijson_struct. by destruct known, evidence.
Qed.
(** A preparation gets to the write. *)
Lemma recover_preparing_writes b loaded p a (s : State) :
  let r := ms_state _ loaded in
  validate_proposal_record b (cp_digest (rec_canonical r)) r = Ok tt -> rec_state r = Preparing p a -> restart_encodes b r s ->
  exists s1 step terminal known P (HP : Serialize P) (payload : P) kind,
    let state := if known : bool then Failed terminal else ReconciliationRequired terminal in
    db_states (bs_db s1) = db_states (bs_db s) /\ bs_log s1 = bs_log s /\ restart_verdict b r s terminal = Some state /\
    composite_execution_receipt p a [step] (if known then TerminalFailed else TerminalIndeterminate) = Ok terminal /\
    recover_preparing b loaded p a s =
      (persist_record b (with_terminal terminal (with_state state (with_step step r))) (ms_revision _ loaded) kind payload ;! lift (Ok tt)) s1.
Proof.
  intros r Hv Hs He. unfold restart_encodes in He. rewrite Hs in He. destruct (validated_effect b _ r Hv) as [effect Heff].
  destruct (He effect Heff) as [Hij Hob]. destruct (validated_authorization b _ r Hv (validated_preparing b _ r p a Hv Hs)) as (au & authorization & Hau & Hdig).
  unfold observed_now in Hob. pose proof (quiet_on_world (observe_canonical (bk_pointer_runtime b) effect) s) as [Hd Hl].
  set (known := known_prestate_of effect (observed_now b effect s)).
  assert (rec_step_receipts r = []) as Hnil.
  { destruct (validated_lifecycle b _ r Hv) as (effect0 & ad0 & Hl0). unfold validate_lifecycle in Hl0. rewrite Hs in Hl0.
    apply then_ok in Hl0 as [_ Hl0%record_invariant_ok]. rewrite !andb_true_iff in Hl0. destruct Hl0 as [[_ Hl0] _]. by destruct (rec_step_receipts r). }
  assert (exists evidence : option Digest,
    match observed_now b effect s with Ok observed => (let? d := digest_of observed in Ok (Some d)) | _ => Ok None end = Ok evidence) as [evidence Hev].
  { unfold observed_now. destruct (observe_canonical _ _ _).2 as [observed|x|]; [|by eexists|done]. unfold digest_of.
    destruct (from_serializable_ijson observed Hob) as (x & _ & ->). by eexists. }
  destruct (restart_receipt_total p authorization a effect known evidence Hij) as [step Hstep].
  destruct (composite_total p a [step] (if known then TerminalFailed else TerminalIndeterminate)) as [terminal Hterm].
  set (s1 := (on_world (E := ManagedPointerError) (observe_canonical (bk_pointer_runtime b) effect) s).1) in *.
  exists s1, step, terminal, known, ExecutionReceiptV1, ExecutionReceiptV1_serialize,
    (mkExecutionReceipt EXECUTION_RECEIPT_SCHEMA_V1 p authorization a 0 effect (restart_outcome known evidence)),
    (if known then "effect-promotion.restart-proven-unchanged.v1" else "effect-promotion.restart-indeterminate.v1").
  cbv zeta. split_all; [exact Hd|exact Hl| |exact Hterm|].
  - unfold restart_verdict. by rewrite Hs, Heff.
  - assert (on_world (E := ManagedPointerError) (observe_canonical (bk_pointer_runtime b) effect) s = (s1, observed_now b effect s)) as Hrun.
    { subst s1. unfold observed_now, on_world. by destruct (observe_canonical _ _ _). }
    unfold recover_preparing. fold r. unfold only_effect. rewrite Heff, Hau. cbn [expect].
    rewrite st_bind_run. cbn [lift pure]. rewrite st_bind_run, Hdig. cbn [lift pure]. unfold st_try. rewrite Hrun.
    destruct (observed_now b effect s) as [observed|x|] eqn:Hnow; [| |unfold observed_now in Hnow; by rewrite Hnow in Hob].
    all: rewrite st_bind_run; unfold lift at 1, pure at 1; cbv beta iota; first [rewrite Hev | injection Hev as <-]; cbv beta iota; rewrite st_bind_run; unfold lift at 1, pure at 1;
      fold known; rewrite Hstep; cbn beta iota zeta; rewrite st_bind_run; unfold lift at 1, pure at 1; cbn [rec_step_receipts with_step];
      rewrite Hnil; cbn [app]; rewrite Hterm; cbn beta iota; rewrite st_bind_run; unfold lift at 1, pure at 1, apply_event;
      cbn [with_step rec_state]; rewrite Hs; by destruct known.
Qed.
Lemma abandoned_total loaded p a f :
  rec_state (ms_state _ loaded) = AuthorizationBurned p a f ->
  exists receipt, restart_event loaded = Ok (Some (ExecutionAbandoned receipt, receipt, "effect-execution.abandoned-before-begin.v1")).
Proof.
  intros Hs. unfold restart_event. rewrite Hs. unfold digest_of.
  match goal with |- context [from_serializable ?v] => destruct (from_serializable_ijson v) as (x & _ & ->) end; [done|by eexists].
Qed.
(** C20. A restart always gets its verdict into the store.  For every stored proposal
    that passes the validation and is not settled, recovery makes a record of the same
    proposal with the verdict of its state (a burned authority never used failed; an
    attempt that began is uncertain; a preparation failed if the target is observed as
    it was ratified, and is uncertain otherwise), with its receipt as the terminal one,
    which passes the broker's own validation; and what the call answers is the outcome
    of writing that record.  So neither a digest nor a lifecycle refusal nor a broken
    record rule can keep an interrupted proposal from being settled, only the clock and
    the store; a preparation needs an observation that ends and encodes as JSON. *)
Theorem restart_records_validate b e loaded (s : State) :
  load_proposal_entity_with_revision b e s = (s, Ok loaded) ->
  settled_state (rec_state (ms_state _ loaded)) = false -> restart_encodes b (ms_state _ loaded) s ->
  exists s1 record receipt P (HP : Serialize P) (payload : P) kind,
    db_states (bs_db s1) = db_states (bs_db s) /\ bs_log s1 = bs_log s /\
    same_authority (ms_state _ loaded) record /\ restart_verdict b (ms_state _ loaded) s receipt = Some (rec_state record) /\
    rec_terminal_receipt record = Some receipt /\
    validate_proposal_record b (cp_digest (rec_canonical record)) record = Ok tt /\
    recover_entity b e s = (persist_record b record (ms_revision _ loaded) kind payload ;! lift (Ok tt)) s1.
Proof.
  intros Hl Hns He. destruct (load_entity_valid b e s s loaded Hl) as [_ Hv]. unfold recover_entity. rewrite st_bind_run, Hl.
  destruct (restart_verdicts_validate b _ _ Hv) as (Hburned & Hexec & Hprep).
  destruct (rec_state (ms_state _ loaded)) as [| | | |p a f|p a|p a c| | | | ] eqn:Hs; try done.
  - destruct (abandoned_total loaded p a f Hs) as [receipt Hev].
    exists s, (with_terminal receipt (with_state (Failed receipt) (ms_state _ loaded))), receipt,
      Digest, Digest_serialize, receipt, "effect-execution.abandoned-before-begin.v1".
    split_all; [done..| |done|by eapply Hburned|]; [unfold restart_verdict; by rewrite Hs|].
    rewrite st_bind_run, Hev. cbn [lift pure]. rewrite st_bind_run. unfold lift at 1, pure at 1, apply_event. rewrite Hs. by destruct f.
  - destruct (recover_preparing_writes b loaded p a s Hv Hs He) as (s1 & step & terminal & known & P & HP & payload & kind & Hd & Hlog & Hver & Hc & Hrun).
    eexists s1, _, terminal, P, HP, payload, kind. split_all; [exact Hd|exact Hlog| | | | |exact Hrun]; [done|exact Hver|done|].
    destruct (Hprep p a step terminal eq_refl) as [Hf Hi]. destruct known; [by apply Hf|by apply Hi].
  - destruct (restart_total p a (rec_step_receipts (ms_state _ loaded))) as [envelope Henv].
    exists s, (with_terminal envelope (with_state (ReconciliationRequired envelope) (ms_state _ loaded))), envelope,
      Digest, Digest_serialize, envelope, "effect-execution.restart-indeterminate.v1".
    split_all; [done..| |done|by eapply Hexec|]; [unfold restart_verdict; by rewrite Hs|].
    unfold restart_event. rewrite Hs, Henv, st_bind_run. cbn [lift pure res_bind]. rewrite st_bind_run. unfold lift at 1, pure at 1, apply_event. by rewrite Hs.
Qed.

(** ** Submissions *)

(** C16. A source is evaluated once.  When the store holds the outcome of an
    authenticated source, submitting it again, in whatever signed form and with
    whatever artifacts, changes no stored state and hands nothing on; and an answer is
    the stored one, for the same governor and proposer. *)
Theorem submission_outcome_repeated b ingress artifacts governor chain intent proposer source existing (s s' : State) answer :
  verify_governed_ingress_bindings b ingress governor chain = Ok (intent, proposer, source) ->
  materialized_state decode_submission (bs_db s) (submission_entity source) = Ok (Some existing) ->
  submit_authenticated_intent b ingress artifacts governor chain s = (s', answer) ->
  db_states (bs_db s') = db_states (bs_db s) /\ bs_log s' = bs_log s /\
  forall response, answer = Ok response ->
    response = sub_response (ms_state _ existing) /\ sub_source (ms_state _ existing) = source /\
    sub_governor (ms_state _ existing) = governor /\ sub_proposer (ms_state _ existing) = proposer /\
    matches_response (sub_evaluation (ms_state _ existing)) response = true.
Proof.
  intros Hv Hm Hs. unfold submit_authenticated_intent in Hs. rewrite st_bind_run in Hs. unfold refuse_quiesced, reading in Hs.
  destruct (reject_if (quiesced s) _) as [[]|e|]; [|by injection Hs as <- <-..]. rewrite st_bind_run in Hs. unfold lift at 1, pure at 1 in Hs.
  destruct (reject_if _ _) as [[]|e|]; [|by injection Hs as <- <-..]. rewrite st_bind_run in Hs. unfold lift at 1, pure at 1 in Hs.
  rewrite Hv, st_bind_run in Hs. unfold store_read, reading in Hs. rewrite Hm in Hs. cbn [map_err] in Hs.
  destruct (quiet_existing b ingress governor proposer source (ms_state _ existing) s) as [Hd Hl]. rewrite Hs in Hd, Hl. cbn in Hd, Hl.
  split_all; [done..|]. intros response ->. unfold existing_submission in Hs. apply lift_ok in Hs as ([] & Hg%reject_if_ok & Hs).
  guards_in Hg. destruct Hg as [[[Hsrc Hgov] Hprop] Hmatch].
  apply st_bind_ok in Hs as (s1 & [] & _ & Hs). apply st_bind_ok in Hs as (s2 & [] & _ & [= _ <-]). done.
Qed.
End Requests.

(** ** On the concrete daemon *)

Import ToyBroker.
Definition toy_shown : BrokerState (nat * nat) unit := (broker_run (take 2 calls) (start 99)).2.
Lemma ratification_uses_up_challenge_witness :
  quiesced toy_shown = false /\
  exists c s1 heads, require_authority_activation settings toy_shown = (s1, Ok heads) /\
    btree_get (digest_str proposal) (bs_challenges s1) = Some c /\ ch_value c = "id-D" /\
    binding_digest (verified "admin") = Ok (ch_peer c).
Proof.
  destruct (ratification_uses_up_challenge settings proposal "id-D" (verified "admin") (toy_digest 21) toy_shown) as [_ Hw].
  destruct Hw as (Hq & c & s1 & heads & s2 & s3 & now & Hr & Hc & Hv & Hp & _).
  - vm_compute. discriminate.
  - split; [exact Hq|]. exists c, s1, heads. split; [exact Hr|]. split; [exact Hc|]. split; [exact Hv|exact Hp].
Defined.

(** The uncertainty that the recovery of the stopped run leaves, reconciled. *)
Definition drafted (answer : res BrokerError EffectAdminResponseV1) : ReconciliationEvidenceV1 :=
  match answer with
  | Ok (ReconciliationDraft evidence) => evidence
  | _ => mkEvidence "" (toy_digest 0) (toy_digest 0) (toy_digest 0) [] [] Foreign
  end.
Definition toy_evidence : ReconciliationEvidenceV1 := drafted (draft_reconciliation settings proposal toy_recovered).2.
Definition toy_reconciled : BrokerState (nat * nat) unit * res BrokerError EffectAdminResponseV1 :=
  reconcile settings toy_evidence (verified "admin") (toy_digest 22) toy_recovered.
Lemma toy_reconciles : match toy_reconciled.2 with Ok _ => true | _ => false end = true.
Proof. vm_compute. reflexivity. Qed.
Lemma reconciliation_exact_witness :
  exists loaded s1 ratifier receipt, reconcilable settings toy_evidence (verified "admin") (toy_digest 22) toy_recovered loaded s1 ratifier receipt.
Proof.
  destruct (reconciliation_exact settings toy_evidence (verified "admin") (toy_digest 22) toy_recovered toy_reconciled.1 toy_reconciled.2
              (surjective_pairing _)) as [_ Hw]. pose proof toy_reconciles as Hok.
  destruct toy_reconciled.2 as [response|e|]; [|discriminate Hok..].
  destruct Hw as (loaded & s1 & ratifier & receipt & Hrec & _). exists loaded, s1, ratifier, receipt. exact Hrec.
Defined.
Example toy_classified : re_classification toy_evidence = NotApplied.
Proof. vm_compute. reflexivity. Qed.

(** The submission of the first call, submitted again. *)
Definition toy_again : BrokerState (nat * nat) unit * res BrokerError EffectProposalResponseV1 :=
  submit_authenticated_intent settings ingress [] (verified "governor") governor_chain toy_shown.
Example toy_again_answers : toy_again.2 = Ok (ResponseCanonicalized (stable_proposal_id source) proposal).
Proof. vm_compute. reflexivity. Qed.
Lemma toy_bound : verify_governed_ingress_bindings settings ingress (verified "governor") governor_chain = Ok (intent, chain, source).
Proof. vm_compute. reflexivity. Qed.
Lemma toy_stored_submission :
  exists existing, materialized_state decode_submission (bs_db toy_shown) (submission_entity source) = Ok (Some existing).
Proof. eexists. vm_compute. reflexivity. Qed.
Lemma submission_outcome_repeated_witness :
  exists existing, materialized_state decode_submission (bs_db toy_shown) (submission_entity source) = Ok (Some existing) /\
  bs_log toy_again.1 = bs_log toy_shown /\ sub_response (ms_state _ existing) = ResponseCanonicalized (stable_proposal_id source) proposal.
Proof.
  destruct toy_stored_submission as [existing He]. exists existing. split; [exact He|].
  destruct (submission_outcome_repeated settings ingress [] (verified "governor") governor_chain intent chain source existing toy_shown
              toy_again.1 toy_again.2 toy_bound He (surjective_pairing _)) as (_ & Hl & Ha).
  split; [exact Hl|]. symmetry. exact (proj1 (Ha _ toy_again_answers)).
Defined.

(** The proposal whose effect ran before the daemon stopped. *)
Lemma load_entity_stays `{JcsLaws, !HexLaws, !Sha256Laws, RpcDeps, ErrnoText, JcsErrorText, PointerTexts} {X Fd : Type}
    `{!PointerHost X Fd, !BrokerParameters X} b e (s : BrokerState X Fd) loaded :
  (load_proposal_entity_with_revision b e s).2 = Ok loaded -> load_proposal_entity_with_revision b e s = (s, Ok loaded).
Proof. intros Hl. destruct (load_entity_run b e s) as [Hs _]. destruct (load_proposal_entity_with_revision b e s). cbn in *. by subst. Qed.
Lemma toy_interrupted :
  exists loaded, (load_proposal_entity_with_revision settings (proposal_entity proposal) toy_stopped).2 = Ok loaded /\
    rec_state (ms_state _ loaded) = Executing proposal attempt None.
Proof. eexists. split; vm_compute; reflexivity. Qed.
Lemma restart_records_validate_witness :
  exists (s1 : BrokerState (nat * nat) unit) record receipt, db_states (bs_db s1) = db_states (bs_db toy_stopped) /\ rec_state record = ReconciliationRequired receipt /\
    validate_proposal_record settings (cp_digest (rec_canonical record)) record = Ok tt.
Proof.
  destruct toy_interrupted as (loaded & Hl%load_entity_stays & Hs).
  destruct (restart_records_validate settings (proposal_entity proposal) loaded toy_stopped Hl) as (s1 & record & receipt & P & HP & payload & kind & Hd & _ & _ & Hver & _ & Hv & _).
  - by rewrite Hs.
  - unfold restart_encodes. by rewrite Hs.
  - exists s1, record, receipt. split; [exact Hd|]. split; [|exact Hv]. unfold restart_verdict in Hver. rewrite Hs in Hver. by injection Hver.
Defined.
