(* ===== verification/Provider.v ===== *)
(** * The provider daemon (ag-providerd/src/lib.rs)

    The credential-isolated inference proxy.  A handler is a function of the
    daemon's state, which holds the store, the host and a log of what was made
    durable and what was posted.  Budget is reserved in the store
    before a request leaves; the event stream that came back is kept until the
    governor acknowledges its custody; a terminated session keeps a tombstone.

    The host is a parameter: the descriptors and the clock of [PointerHost], and
    [ProviderHost] for the environment, the HTTP client and the writes of the
    store.  [reqwest] decides what is a header; [serde_json] reads the stored
    records ([ProviderDecoders]). *)

From S2P Require Import Prelude Wire Fixture Digest Names Origin Capability Identity Session Protocol Paths Store StoreLog HostFiles RpcAuth Config Executor Pointer PointerText PointerGit Api.

(** ** Messages (ag-app/src/api.rs) *)

Inductive ProviderRequestV1 : Type :=
  | ProviderHealth
  | RegisterCapability (capability : InferenceCapabilityV1) (worker_principal : PrincipalId)
  | Infer (capability : InferenceCapabilityV1) (request : ProviderRequestCustodyV1) (request_bytes : OpaqueBytesV1)
  | FetchInference (dispatch : Digest)
  | AcknowledgeInferenceCustody (dispatch exact_event_stream governor_custody_record : Digest)
  | TerminateSession (session : SessionId).
Inductive ProviderResponseV1 : Type :=
  | ProviderHealthResponse (health : HealthV1)
  | CapabilityRegistered (capability : InferenceCapabilityId)
  | InferenceAvailable (dispatch exact_event_stream : Digest) (byte_length : Z) (protocol_terminal : bool)
  | InferenceResponse (dispatch exact_event_stream : Digest) (event_stream : OpaqueBytesV1) (sanitized_headers : list (string * string))
      (protocol_terminal : bool)
  | InferenceCustodyAcknowledged (dispatch receipt : Digest)
  | SessionTerminatedResponse (receipt : Digest).

(** ** Records *)

Definition TERMINATION_PAGE_SIZE : Z := 64.
Definition MAX_PROVIDER_CREDENTIAL_BYTES : Z := 64 * 1024.
Definition MAX_PROVIDER_CREDENTIAL_NAME_BYTES : nat := 128.

Record ProviderCapabilityStateV1 : Type := mkCapabilityState {
  cs_capability : InferenceCapabilityV1;
  cs_worker_principal : PrincipalId;
  cs_usage : InferenceUsageV1;
  cs_session_state : SessionLifecycleStateV1;
  cs_revocation_state : RevocationStateV1
}.
Inductive ProviderDispatchPhaseV1 : Type :=
  | Reserved
  | Available (exact_event_stream : Digest) (event_stream : OpaqueBytesV1) (sanitized_headers : list (string * string))
      (protocol_terminal : bool)
  | Acknowledged (exact_event_stream : Digest) (byte_length : Z) (governor_custody_record acknowledgment_receipt : Digest)
      (acknowledged_at_unix_ms : Z).
Record ProviderDispatchStateV1 : Type := mkDispatchState {
  ds_authority_domain : AuthorityDomainId;
  ds_epoch : EpochId;
  ds_provider_policy_digest : Digest;
  ds_dispatch : Digest;
  ds_capability : InferenceCapabilityId;
  ds_request_custody_record : Digest;
  ds_exact_request : Digest;
  ds_reserved_usage : InferenceUsageV1;
  ds_phase : ProviderDispatchPhaseV1
}.
Record ProviderSessionTerminationCompletionV1 : Type := mkTerminationCompletion {
  tc_completed_at_unix_ms : Z;
  tc_capability_count : Z;
  tc_capability_set_digest : Digest;
  tc_receipt : Digest
}.
Record ProviderSessionTerminationStateV1 : Type := mkTerminationState {
  ts_authority_domain : AuthorityDomainId;
  ts_epoch : EpochId;
  ts_provider_policy_digest : Digest;
  ts_session : SessionId;
  ts_terminal_since_unix_ms : Z;
  ts_completion : option ProviderSessionTerminationCompletionV1
}.
Inductive ProviderTransportFailureV1 : Type := TransportConnect | TransportTimeout | TransportBody | TransportOther.
Inductive ProviderEventStreamV1 : Type :=
  | HttpResponse (status : Z) (headers : list (string * string)) (body : OpaqueBytesV1) (protocol_terminal : bool)
  | TransportFailure (class : ProviderTransportFailureV1)
  | ResponseLimitExceeded (status : Z) (headers : list (string * string)) (maximum_bytes : Z).

Inductive ProviderError : Type :=
  | PvIdentifier (e : IdentifierError)
  | PvStore (e : StoreError)
  | PvJcs (e : JcsError)
  | PvCapabilityDefinition (e : CapabilityDefinitionError)
  | PvCapabilityUse (e : CapabilityUseError)
  | PvSession (e : SessionError)
  | PvHttp
  | PvHeaderName
  | PvHeaderValue
  | PvIo
  | DuplicateEndpoint (id : string)
  | ServiceAuthenticationRequired
  | CapabilityNotRegistered
  | CapabilityRegistrationConflict
  | DispatchNotFound
  | DispatchOutcomeIndeterminate
  | DispatchBindingMismatch
  | DispatchCustodyCorrupt
  | CustodyAcknowledgmentMismatch
  | PvSessionTerminated
  | SessionTombstoneMismatch
  | CapabilityCountOverflow
  | CapabilityBindingMismatch
  | PvCustodyBindingMismatch
  | RequestLimit
  | UnsafeHeader
  | AdapterRequestMismatch
  | EndpointNotAllowed
  | CredentialUnavailable
  | PvCanonical (message : string)
  | ConfiguredEventLimitTooSmall
  | PvQuiesced
  | PvClock.


#[global] Instance ProviderCapabilityStateV1_eq_dec : EqDecision ProviderCapabilityStateV1.
Proof. solve_decision. Defined.
#[global] Instance ProviderDispatchPhaseV1_eq_dec : EqDecision ProviderDispatchPhaseV1.
Proof. solve_decision. Defined.
#[global] Instance ProviderDispatchStateV1_eq_dec : EqDecision ProviderDispatchStateV1.
Proof. solve_decision. Defined.
#[global] Instance ProviderSessionTerminationCompletionV1_eq_dec : EqDecision ProviderSessionTerminationCompletionV1.
Proof. solve_decision. Defined.
#[global] Instance ProviderSessionTerminationStateV1_eq_dec : EqDecision ProviderSessionTerminationStateV1.
Proof. solve_decision. Defined.

(** ** Serialized forms *)

Section Forms.
  Context `{Deps, Base64Std}.

#[global] Instance InferenceUsageV1_serialize : Serialize InferenceUsageV1 := fun u =>
  VObject [("requests", to_value (iu_requests u)); ("input_bytes", to_value (iu_input_bytes u));
           ("output_bytes", to_value (iu_output_bytes u)); ("cost_microunits", to_value (iu_cost_microunits u))].
#[global] Instance SessionLifecycleStateV1_serialize : Serialize SessionLifecycleStateV1 := fun s =>
  VString match s with SessionActive => "active" | SessionCancelling => "cancelling" | SessionTerminal => "terminal" end.
#[global] Instance RevocationStateV1_serialize : Serialize RevocationStateV1 := fun r =>
  match r with
  | NotRevoked => VObject [("state", VString "not_revoked")]
  | Revoked at_ms reason =>
      VObject [("state", VString "revoked"); ("revoked_at_unix_ms", to_value at_ms); ("reason_digest", to_value reason)]
  end.
#[global] Instance ProviderCapabilityStateV1_serialize : Serialize ProviderCapabilityStateV1 := fun c =>
  VObject [("capability", to_value (cs_capability c)); ("worker_principal", to_value (cs_worker_principal c));
           ("usage", to_value (cs_usage c)); ("session_state", to_value (cs_session_state c));
           ("revocation_state", to_value (cs_revocation_state c))].
(** A [Vec] of pairs, and a [BTreeMap] of texts. *)
Definition pairs_value (l : list (string * string)) : Value := VArray (map (fun kv => VArray [VString kv.1; VString kv.2]) l).
Definition header_map_value (l : list (string * string)) : Value := VObject (map (fun kv => (kv.1, VString kv.2)) l).
#[global] Instance ProviderDispatchPhaseV1_serialize : Serialize ProviderDispatchPhaseV1 := fun p =>
  match p with
  | Reserved => VObject [("state", VString "reserved")]
  | Available exact stream headers terminal =>
      VObject [("state", VString "available"); ("exact_event_stream", to_value exact); ("event_stream", to_value stream);
               ("sanitized_headers", pairs_value headers); ("protocol_terminal", to_value terminal)]
  | Acknowledged exact byte_length custody receipt at_ms =>
      VObject [("state", VString "acknowledged"); ("exact_event_stream", to_value exact); ("byte_length", to_value byte_length);
               ("governor_custody_record", to_value custody); ("acknowledgment_receipt", to_value receipt);
               ("acknowledged_at_unix_ms", to_value at_ms)]
  end.
#[global] Instance ProviderDispatchStateV1_serialize : Serialize ProviderDispatchStateV1 := fun d =>
  VObject [("authority_domain", to_value (ds_authority_domain d)); ("epoch", to_value (ds_epoch d));
           ("provider_policy_digest", to_value (ds_provider_policy_digest d)); ("dispatch", to_value (ds_dispatch d));
           ("capability", to_value (ds_capability d)); ("request_custody_record", to_value (ds_request_custody_record d));
           ("exact_request", to_value (ds_exact_request d)); ("reserved_usage", to_value (ds_reserved_usage d));
           ("phase", to_value (ds_phase d))].
#[global] Instance ProviderSessionTerminationCompletionV1_serialize : Serialize ProviderSessionTerminationCompletionV1 := fun c =>
  VObject [("completed_at_unix_ms", to_value (tc_completed_at_unix_ms c)); ("capability_count", to_value (tc_capability_count c));
           ("capability_set_digest", to_value (tc_capability_set_digest c)); ("receipt", to_value (tc_receipt c))].
#[global] Instance ProviderSessionTerminationStateV1_serialize : Serialize ProviderSessionTerminationStateV1 := fun t =>
  VObject [("authority_domain", to_value (ts_authority_domain t)); ("epoch", to_value (ts_epoch t));
           ("provider_policy_digest", to_value (ts_provider_policy_digest t)); ("session", to_value (ts_session t));
           ("terminal_since_unix_ms", to_value (ts_terminal_since_unix_ms t)); ("completion", to_value (ts_completion t))].
#[global] Instance ProviderTransportFailureV1_serialize : Serialize ProviderTransportFailureV1 := fun c =>
  VString match c with TransportConnect => "connect" | TransportTimeout => "timeout" | TransportBody => "body" | TransportOther => "other" end.
#[global] Instance ProviderEventStreamV1_serialize : Serialize ProviderEventStreamV1 := fun e =>
  match e with
  | HttpResponse status headers body terminal =>
      VObject [("event", VString "http_response"); ("status", to_value status); ("headers", header_map_value headers);
               ("body", to_value body); ("protocol_terminal", to_value terminal)]
  | TransportFailure class => VObject [("event", VString "transport_failure"); ("class", to_value class)]
  | ResponseLimitExceeded status headers maximum =>
      VObject [("event", VString "response_limit_exceeded"); ("status", to_value status); ("headers", header_map_value headers);
               ("maximum_bytes", to_value maximum)]
  end.
#[global] Instance ProviderModelPolicyConfigV1_serialize : Serialize ProviderModelPolicyConfigV1 := fun m =>
  VObject [("id", to_value (mp_id m)); ("max_event_stream_bytes", to_value (mp_max_event_stream_bytes m));
           ("worst_case_cost_microunits", to_value (mp_worst_case_cost_microunits m))].
#[global] Instance ProviderEndpointConfigV1_serialize : Serialize ProviderEndpointConfigV1 := fun e =>
  VObject [("id", to_value (ep_id e)); ("url", to_value (ep_url e)); ("credential_name", to_value (ep_credential_name e));
           ("credential_header", to_value (ep_credential_header e)); ("credential_prefix", to_value (ep_credential_prefix e));
           ("models", to_value (ep_models e)); ("protocol", to_value (ep_protocol e)); ("methods", to_value (ep_methods e))].
End Forms.

(** ** Checks and identities *)

Section Checks.
  Context `{Deps}.

Definition pv_digest_of {A} `{Serialize A} (x : A) : res ProviderError Digest := map_err PvJcs (from_serializable x).
Definition stripped_digest (d : Digest) : string :=
  if starts_with (digest_str d) "sha256:" then str_drop 7 (digest_str d) else digest_str d.
Definition CAPABILITY_PREFIX : string := "provider-capability-".
Definition capability_entity (id : InferenceCapabilityId) : string := CAPABILITY_PREFIX +:+ stripped_digest (capability_digest id).
Definition dispatch_entity (dispatch : Digest) : string := "provider-dispatch-" +:+ stripped_digest dispatch.
Definition session_termination_entity (session : SessionId) : string := "provider-session-termination-" +:+ as_str session.
Definition dispatch_identity (authority_domain : AuthorityDomainId) (epoch : EpochId) (capability : InferenceCapabilityId)
    (request_custody_record : Digest) : res ProviderError Digest :=
  pv_digest_of (VArray [VString "ag.provider.dispatch-id/v1"; to_value authority_domain; to_value epoch; to_value capability;
                        to_value request_custody_record]).

(** [str::contains] with the line breaks and the null character. *)
Definition breaks_line (c : ascii) : bool := existsb (Z.eqb (code c)) [10; 13; 0]%Z.
Definition has_break (s : string) : bool := existsb breaks_line (String.list_ascii_of_string s).
Definition unsafe_header (header : string * string) : bool :=
  negb ((header.1 == "accept") || (header.1 == "content-type")) || has_break header.2 || (512 <? String.length header.2).
Definition validate_request_headers (headers : list (string * string)) : res ProviderError unit :=
  reject_if (existsb unsafe_header headers) UnsafeHeader.

(** [serde_json::from_slice] into a [Value]: whether it succeeds, and the text a
    member of an object has.  Of repeated members the last is kept. *)
Fixpoint json_reads (j : Json) : bool :=
  match j with
  | JFail _ => false
  | JSeq l failure => forallb json_reads l && match failure with None => true | Some _ => false end
  | JMap l failure =>
      forallb (fun kv => match kv with (_, x) => json_reads x end) l && match failure with None => true | Some _ => false end
  | _ => true
  end.
Definition json_value (b : bytes) : option Json :=
  match json_events b with
  | (j, None) => if json_reads j then Some j else None
  | (_, Some _) => None
  end.
Definition member_str (key : string) (j : Json) : option string :=
  match j with
  | JMap l _ =>
      match last (List.filter (fun kv => kv.1 == key) l) with
      | Some (_, JStr s) => Some s
      | _ => None
      end
  | _ => None
  end.
Definition validate_adapter_request (capability : InferenceCapabilityV1) (b : bytes) : res ProviderError unit :=
  let? value := ok_or AdapterRequestMismatch (json_value b) in
  reject_if (member_str "model" value != Some (as_str (ie_model (ic_envelope capability)))) AdapterRequestMismatch.

Definition terminal_line (line : list Z) : bool :=
  let l := trim line in
  (l == char_list "event: response.completed") || (l == char_list "event: response.failed")
  || (l == char_list "event: response.incomplete").
Definition protocol_terminal (protocol : string) (status : Z) (body : bytes) : bool :=
  if negb ((200 <=? status)%Z && (status <? 300)%Z) then true
  else if protocol == "openai_responses_sse_v1" then existsb terminal_line (lines (chars body))
  else if protocol == "opaque_json_v1" then match json_value body with Some _ => true | None => false end
  else false.

Definition event_stream_projection (e : ProviderEventStreamV1) : list (string * string) * bool :=
  match e with
  | HttpResponse _ headers _ terminal => (headers, terminal)
  | ResponseLimitExceeded _ headers _ => (headers, false)
  | TransportFailure _ => ([], false)
  end.
(** [serde_jcs::to_vec]. *)
Definition stream_bytes `{Base64Std} (e : ProviderEventStreamV1) : res ProviderError bytes :=
  match jcs_to_vec (to_value e) with inr b => Ok b | inl m => Err (PvCanonical m) end.
Definition bounded_event_stream_bytes `{Base64Std} (event_stream : ProviderEventStreamV1) (maximum_bytes : Z)
    : res ProviderError (ProviderEventStreamV1 * bytes) :=
  let? b := stream_bytes event_stream in
  if (Z.of_nat (length b) <=? maximum_bytes)%Z then Ok (event_stream, b)
  else
    match event_stream with
    | HttpResponse status headers _ _ =>
        let limited := ResponseLimitExceeded status headers maximum_bytes in
        let? b := stream_bytes limited in
        reject_if (maximum_bytes <? Z.of_nat (length b))%Z ConfiguredEventLimitTooSmall ;?
        Ok (limited, b)
    | _ => Err ConfiguredEventLimitTooSmall
    end.
Definition response_for_existing_dispatch (state : ProviderDispatchStateV1) : res ProviderError ProviderResponseV1 :=
  match ds_phase state with
  | Reserved => Err DispatchOutcomeIndeterminate
  | Available exact stream _ terminal =>
      reject_if (hash_bytes (opaque_bytes stream) != exact) DispatchCustodyCorrupt ;?
      Ok (InferenceAvailable (ds_dispatch state) exact (opaque_len stream) terminal)
  | Acknowledged _ _ _ receipt _ => Ok (InferenceCustodyAcknowledged (ds_dispatch state) receipt)
  end.
End Checks.

(** ** The daemon *)

Record ProviderCoreV1 : Type := mkProviderCore {
  pc_config : ProviderdConfigV1;
  pc_endpoints : list (string * ProviderEndpointConfigV1);
  pc_provider_policy : Digest;
  pc_domain : AuthorityDomainId;
  pc_core_epoch : EpochId
}.
(** What became durable, what it was charged to, and what was posted. *)
Inductive ProviderStored : Type :=
  | StoredCapability (state : ProviderCapabilityStateV1)
  | StoredDispatch (state : ProviderDispatchStateV1)
  | StoredTermination (state : ProviderSessionTerminationStateV1).
Inductive ProviderEvent : Type :=
  | Stored (entity : string) (value : ProviderStored)
  | Charged (dispatch : Digest) (capability : InferenceCapabilityV1) (usage : InferenceUsageV1)
  | Dispatched (dispatch : Digest) (capability : InferenceCapabilityV1) (usage : InferenceUsageV1) (body : bytes).
Record ProviderState (X : Type) : Type := mkProviderState {
  pv_db : Database;
  pv_world : X;
  pv_log : list ProviderEvent
}.
Arguments mkProviderState {X} _ _ _.
Arguments pv_db {X} _.
Arguments pv_world {X} _.
Arguments pv_log {X} _.

(** What [reqwest::Error] says of itself. *)
Record TransportError : Type := mkTransportError { te_timeout : bool; te_connect : bool; te_body : bool }.
Definition classify_transport (e : TransportError) : ProviderTransportFailureV1 :=
  if te_timeout e then TransportTimeout else if te_connect e then TransportConnect else if te_body e then TransportBody else TransportOther.
(** [std::env::var_os]; [Client::build] and the POST of [reqwest], with the response
    that the handle stands for; a failed write of the store. *)
Class ProviderHost (X Response : Type) := {
  credentials_directory : X -> option string;
  http_client : Sys X unit unit;
  http_post : string -> list (string * string) -> bytes -> Sys X TransportError Response;
  response_status : Response -> Z;
  response_header : Response -> string -> option string;
  response_body : Response -> Z -> Sys X unit bytes;
  provider_store_io : X -> X * option StoreError
}.
(** [HeaderName::from_bytes], as the name it stores, and [HeaderValue::from_str]. *)
Class HeaderRules := {
  header_name : string -> option string;
  header_value : string -> bool
}.
(** [serde_json::from_slice] for the three stored types. *)
Class ProviderDecoders := {
  decode_capability : bytes -> string + ProviderCapabilityStateV1;
  decode_dispatch : bytes -> string + ProviderDispatchStateV1;
  decode_termination : bytes -> string + ProviderSessionTerminationStateV1
}.
(** The texts of errors, and [CARGO_PKG_VERSION]. *)
Class ProviderTexts := {
  provider_error_text : ProviderError -> string;
  provider_version : string
}.
Class ProviderParameters (X Response : Type) := {
  pp_host :: ProviderHost X Response;
  pp_headers :: HeaderRules;
  pp_decoders :: ProviderDecoders;
  pp_provider_texts :: ProviderTexts;
  pp_base64 :: Base64Std
}.

Section Daemon.
  Context `{Deps} {X Fd Response : Type} `{!PointerHost X Fd, !ProviderParameters X Response}.
  Context (p : ProviderCoreV1).

Definition ProviderM (A : Type) : Type := ST (ProviderState X) ProviderError A.
Definition pv_lift {A} (m : res ProviderError A) : ProviderM A := pure m.
(** A call of the host, and one whose failure is replaced. *)
Definition pv_host {A} (m : X -> X * A) : ProviderM A := fun s =>
  let (x, a) := m (pv_world s) in (mkProviderState (pv_db s) x (pv_log s), Ok a).
Definition pv_sys {E A} (e : ProviderError) (m : ST X E A) : ProviderM A := fun s =>
  let (x, r) := m (pv_world s) in (mkProviderState (pv_db s) x (pv_log s), map_err (fun _ => e) r).
Definition pv_read {A} (f : Database -> res StoreError A) : ProviderM A := fun s => (s, map_err PvStore (f (pv_db s))).
Definition pv_note (l : list ProviderEvent) : ProviderM unit := fun s => (mkProviderState (pv_db s) (pv_world s) (pv_log s ++ l), Ok tt).
Definition pv_write {A} (tx : Tx A) : ProviderM A :=
  let! failure := pv_host provider_store_io in
  match failure with
  | Some e => pv_lift (Err (PvStore e))
  | None => fun s => let (db, r) := commit tx (pv_db s) in (mkProviderState db (pv_world s) (pv_log s), map_err PvStore r)
  end.
(** [now_u64], [now_i64], [Uuid::new_v4]. *)
Definition pv_now_u64 : ProviderM Z :=
  let! elapsed := pv_host sys_time in
  pv_lift match elapsed with Some ms => if (U64_MAX <? ms)%Z then Err PvClock else Ok ms | None => Err PvClock end.
Definition ms_i64 (ms : Z) : res ProviderError Z := if (I64_MAX <? ms)%Z then Err PvClock else Ok ms.
Definition pv_now_i64 : ProviderM Z := let! now := pv_now_u64 in pv_lift (ms_i64 now).
Definition pv_uuid : ProviderM string := pv_host sys_uuid.
Definition pv_quiesced : ProviderM bool := fun s => (s, Ok match active_backup_cut (pv_db s) with Some _ => true | None => false end).
Definition pv_refuse_quiesced : ProviderM unit := let! q := pv_quiesced in pv_lift (reject_if q PvQuiesced).

(** One event of the store: the entity gets a new state. *)
Definition pv_append {P V} `{Serialize P, Serialize V} (entity kind : string) (occurred_at : ProviderM Z) (payload : P) (state : V)
    (stored : ProviderStored) (revision : Z) : ProviderM EventReceiptV1 :=
  let! event_id := pv_uuid in
  let! at_ms := occurred_at in
  let! receipt := pv_write (append_event (mkNewEvent event_id entity kind at_ms payload) state revision) in
  pv_note [Stored entity stored] ;!
  pv_lift (Ok receipt).

(** ** Sessions and endpoints *)

Definition validate_session_tombstone (session : SessionId) (tombstone : ProviderSessionTerminationStateV1) : res ProviderError unit :=
  reject_if ((ts_session tombstone != session) || (ts_authority_domain tombstone != pc_domain p)
             || (ts_epoch tombstone != pc_core_epoch p) || (ts_provider_policy_digest tombstone != pc_provider_policy p))
    SessionTombstoneMismatch.
Definition load_termination (session : SessionId) : ProviderM (option (MaterializedStateV1 ProviderSessionTerminationStateV1)) :=
  pv_read (fun db => materialized_state decode_termination db (session_termination_entity session)).
Definition ensure_session_active (session : SessionId) : ProviderM unit :=
  let! tombstone := load_termination session in
  match tombstone with
  | None => pv_lift (Ok tt)
  | Some loaded =>
      pv_lift (validate_session_tombstone session (ms_state _ loaded)) ;!
      pv_lift (Err PvSessionTerminated)
  end.
Definition ensure_endpoint (capability : InferenceCapabilityV1) : res ProviderError (ProviderEndpointConfigV1 * ProviderModelPolicyConfigV1) :=
  let envelope := ic_envelope capability in
  let? endpoint := ok_or EndpointNotAllowed (btree_get (as_str (ie_endpoint envelope)) (pc_endpoints p)) in
  let? model := ok_or EndpointNotAllowed (List.find (fun m => mp_id m == as_str (ie_model envelope)) (ep_models endpoint)) in
  reject_if (negb (existsb (fun m => m == as_str (ie_method envelope)) (ep_methods endpoint))
             || (hash_bytes (str_bytes (ep_protocol endpoint)) != ie_protocol_digest envelope)) EndpointNotAllowed ;?
  Ok (endpoint, model).

(** ** Registration *)

Definition register_capability (capability : InferenceCapabilityV1) (worker_principal : PrincipalId) : ProviderM ProviderResponseV1 :=
  pv_lift (reject_if ((ic_worker_principal capability != worker_principal)
                      || (ic_provider_policy_digest capability != pc_provider_policy p)
                      || (ic_authority_domain capability != pc_domain p) || (ic_epoch capability != pc_core_epoch p))
             CapabilityBindingMismatch) ;!
  pv_lift (map_err PvCapabilityDefinition (validate_definition capability)) ;!
  pv_lift (ensure_endpoint capability) ;!
  ensure_session_active (ic_session_id capability) ;!
  let! id := pv_lift (capability_id capability) in
  let entity := capability_entity id in
  let! existing := pv_read (fun db => materialized_state decode_capability db entity) in
  match existing with
  | Some existing =>
      pv_lift (if (cs_capability (ms_state _ existing) == capability) && (cs_worker_principal (ms_state _ existing) == worker_principal)
               then Ok (CapabilityRegistered id) else Err CapabilityRegistrationConflict)
  | None =>
      pv_refuse_quiesced ;!
      let state := mkCapabilityState capability worker_principal usage_default SessionActive NotRevoked in
      pv_append entity "provider-capability.registered.v1" pv_now_i64 (VArray [to_value capability; to_value worker_principal]) state
        (StoredCapability state) 0 ;!
      pv_lift (Ok (CapabilityRegistered id))
  end.

(** ** The network *)

Definition mode_has (mask mode : Z) : bool := negb (Z.land mode mask =? 0)%Z.
Definition credential_name_char (c : ascii) : bool := is_ascii_alphanumeric c || one_of "._-" c.
Definition validate_credential_directory (directory : Fd) : ProviderM unit :=
  let! stat := pv_sys CredentialUnavailable (sys_fstat directory) in
  let! uid := pv_host (fun x => (x, sys_geteuid x)) in
  pv_lift (reject_if (negb (is_dir (st_mode stat)) || (negb (st_uid stat =? 0)%Z && negb (st_uid stat =? uid)%Z)
                      || mode_has 18 (st_mode stat)) CredentialUnavailable).
(** The bytes are UTF-8, and the file stayed what it was while it was read. *)
Definition read_credential_fd (fd : Fd) : ProviderM string :=
  let! before := pv_sys CredentialUnavailable (sys_fstat fd) in
  let! uid := pv_host (fun x => (x, sys_geteuid x)) in
  let length_ := st_size before in
  pv_lift (reject_if (length_ <? 0)%Z CredentialUnavailable) ;!
  pv_lift (reject_if (negb (is_file (st_mode before)) || negb (st_nlink before =? 1)%Z
                      || (negb (st_uid before =? 0)%Z && negb (st_uid before =? uid)%Z)
                      || mode_has 63 (st_mode before) || mode_has 3657 (st_mode before) || negb (mode_has 256 (st_mode before))
                      || (length_ =? 0)%Z || (MAX_PROVIDER_CREDENTIAL_BYTES <? length_)%Z) CredentialUnavailable) ;!
  let! content := pv_sys CredentialUnavailable (sys_read_to_end fd (saturating_add_u64 MAX_PROVIDER_CREDENTIAL_BYTES 1)) in
  let! after := pv_sys CredentialUnavailable (sys_fstat fd) in
  pv_lift (reject_if (negb (Z.of_nat (length content) =? length_)%Z || negb (same_file before after)
                      || negb (st_mode before =? st_mode after)%Z || negb (st_uid before =? st_uid after)%Z
                      || negb (st_gid before =? st_gid after)%Z || negb (st_nlink before =? st_nlink after)%Z) CredentialUnavailable) ;!
  pv_lift (if utf8_valid content then Ok (bytes_str content) else Err CredentialUnavailable).
Definition read_provider_credential (directory credential_name : string) : ProviderM string :=
  pv_lift (reject_if ((credential_name == "") || (MAX_PROVIDER_CREDENTIAL_NAME_BYTES <? String.length credential_name)
                      || (credential_name == ".") || (credential_name == "..") || negb (str_all credential_name_char credential_name))
             CredentialUnavailable) ;!
  pv_lift (reject_if (unsafe_path directory) CredentialUnavailable) ;!
  let! relative := pv_lift (ok_or CredentialUnavailable (path_strip_prefix directory "/")) in
  let! root := pv_sys CredentialUnavailable sys_open_root in
  let! directory_fd := pv_sys CredentialUnavailable (open_under root relative open_directory) in
  validate_credential_directory directory_fd ;!
  let! fd := pv_sys CredentialUnavailable (open_under directory_fd credential_name open_regular_nonblock) in
  read_credential_fd fd.
(** [while credential.ends_with(..) { credential.pop() }]. *)
Definition line_end (c : ascii) : bool := (code c =? 10)%Z || (code c =? 13)%Z.
Fixpoint drop_line_ends (l : list ascii) : list ascii :=
  match l with c :: rest => if line_end c then drop_line_ends rest else l | [] => [] end.
Definition strip_line_ends (s : string) : string :=
  String.string_of_list_ascii (rev (drop_line_ends (rev (String.list_ascii_of_string s)))).
(** [HeaderMap::insert], which replaces. *)
Definition header_insert (name value : string) (headers : list (string * string)) : res ProviderError (list (string * string)) :=
  let? name := ok_or PvHeaderName (header_name name) in
  reject_if (negb (header_value value)) PvHeaderValue ;?
  Ok (btree_insert name value headers).
Fixpoint request_headers (l : list (string * string)) (headers : list (string * string)) : res ProviderError (list (string * string)) :=
  match l with
  | [] => Ok headers
  | (name, value) :: rest => let? headers := header_insert name value headers in request_headers rest headers
  end.
Definition SANITIZED_NAMES : list string := ["content-type"; "date"; "openai-request-id"; "request-id"; "x-request-id"].
Definition sanitize_response_headers (response : Response) : list (string * string) :=
  fold_left (fun sanitized name =>
    match response_header response name with
    | Some value => if String.length value <=? 512 then btree_insert name value sanitized else sanitized
    | None => sanitized
    end) SANITIZED_NAMES [].
(** What follows the response's headers. *)
Definition read_response (endpoint : ProviderEndpointConfigV1) (maximum_event_stream_bytes : Z) (response : Response)
    : ProviderM ProviderEventStreamV1 :=
  let status := response_status response in
  let sanitized := sanitize_response_headers response in
  let maximum := Z.min (vl_max_response_bytes (vc_limits (pc_config p))) maximum_event_stream_bytes in
  let! body := pv_host (response_body response (saturating_add_u64 maximum 1)) in
  pv_lift (Ok match body with
              | inl _ => TransportFailure TransportBody
              | inr body =>
                  if (maximum <? Z.of_nat (length body))%Z then ResponseLimitExceeded status sanitized maximum
                  else HttpResponse status sanitized (mkOpaque body) (protocol_terminal (ep_protocol endpoint) status body)
              end).
(** The POST: the log gets what leaves, and for which reservation, right where it is sent. *)
Definition pv_post (d : ProviderDispatchStateV1) (capability : InferenceCapabilityV1) (url : string) (headers : list (string * string))
    (body : bytes) : ProviderM (TransportError + Response) :=
  pv_note [Dispatched (ds_dispatch d) capability (ds_reserved_usage d) body] ;!
  pv_host (http_post url headers body).
(** [dispatch]; the first two arguments, the reservation and its capability, are only for the log. *)
Definition dispatch (d : ProviderDispatchStateV1) (capability : InferenceCapabilityV1) (endpoint : ProviderEndpointConfigV1) (request : ProviderRequestCustodyV1) (request_bytes : bytes)
    (maximum_event_stream_bytes : Z) : ProviderM ProviderEventStreamV1 :=
  let! directory := pv_host (fun x => (x, credentials_directory x)) in
  let! directory := pv_lift (ok_or CredentialUnavailable directory) in
  let! credential := read_provider_credential directory (ep_credential_name endpoint) in
  let credential := strip_line_ends credential in
  pv_lift (reject_if ((credential == "") || has_break credential) CredentialUnavailable) ;!
  let! headers := pv_lift (request_headers (rc_sanitized_headers request) []) in
  let! headers := pv_lift (header_insert (ep_credential_header endpoint) (ep_credential_prefix endpoint +:+ credential) headers) in
  let! sent := pv_post d capability (ep_url endpoint) headers request_bytes in
  match sent with
  | inl error => pv_lift (Ok (TransportFailure (classify_transport error)))
  | inr response => read_response endpoint maximum_event_stream_bytes response
  end.

(** ** Inference *)

Definition validate_dispatch_identity (state : ProviderDispatchStateV1) (dispatch : Digest) : res ProviderError unit :=
  reject_if ((ds_dispatch state != dispatch) || (ds_authority_domain state != pc_domain p) || (ds_epoch state != pc_core_epoch p)
             || (ds_provider_policy_digest state != pc_provider_policy p)) DispatchBindingMismatch.
Definition validate_dispatch_binding (state : ProviderDispatchStateV1) (dispatch : Digest) (capability : InferenceCapabilityId)
    (request : ProviderRequestCustodyV1) : res ProviderError unit :=
  validate_dispatch_identity state dispatch ;?
  reject_if ((ds_capability state != capability) || (ds_request_custody_record state != rc_custody_record request)
             || (ds_exact_request state != rc_exact_request request)) DispatchBindingMismatch.
Definition with_usage (usage : InferenceUsageV1) (c : ProviderCapabilityStateV1) : ProviderCapabilityStateV1 :=
  mkCapabilityState (cs_capability c) (cs_worker_principal c) usage (cs_session_state c) (cs_revocation_state c).
Definition with_phase (phase : ProviderDispatchPhaseV1) (d : ProviderDispatchStateV1) : ProviderDispatchStateV1 :=
  mkDispatchState (ds_authority_domain d) (ds_epoch d) (ds_provider_policy_digest d) (ds_dispatch d) (ds_capability d)
    (ds_request_custody_record d) (ds_exact_request d) (ds_reserved_usage d) phase.
(** The usage that is reserved for a request, and the facts of its use. *)
Definition requested_usage (request_bytes : bytes) (model : ProviderModelPolicyConfigV1) : InferenceUsageV1 :=
  mkUsage 1 (Z.of_nat (length request_bytes)) (mp_max_event_stream_bytes model) (mp_worst_case_cost_microunits model).
Definition use_context (state : ProviderCapabilityStateV1) (envelope : InferenceEnvelopeV1) (requested : InferenceUsageV1) (now : Z)
    : CapabilityUseContextV1 :=
  let c := cs_capability state in
  mkUseContext (pc_domain p) (pc_core_epoch p) (ic_project c) (ic_session_id c) (ic_session_nonce c) (ic_worker_principal c)
    (pc_provider_policy p) envelope (cs_usage state) requested now (cs_session_state state) (cs_revocation_state state).
(** The reservation: the usage of the capability and the dispatch, in one transaction. *)
Definition reserve (entity : string) (state : ProviderCapabilityStateV1) (revision : Z) (d : ProviderDispatchStateV1)
    : ProviderM EventReceiptV1 :=
  let usage := ds_reserved_usage d in
  let! first_id := pv_uuid in
  let! first_at := pv_now_i64 in
  let! second_id := pv_uuid in
  let! second_at := pv_now_i64 in
  let! receipts := pv_write (append_distinct_event_pair
    (mkNewEvent first_id entity "provider-dispatch.reserved.v1" first_at
       (VArray [to_value (ds_dispatch d); to_value (ds_request_custody_record d); to_value usage])) state revision
    (mkNewEvent second_id (dispatch_entity (ds_dispatch d)) "provider-dispatch.custody-reserved.v1" second_at
       (VArray [to_value (ds_capability d); to_value (ds_request_custody_record d); to_value usage])) d 0) in
  pv_note [Stored entity (StoredCapability state); Stored (dispatch_entity (ds_dispatch d)) (StoredDispatch d);
           Charged (ds_dispatch d) (cs_capability state) usage] ;!
  pv_lift (Ok receipts.2).
(** What follows the reservation. *)
Definition dispatch_reserved (endpoint : ProviderEndpointConfigV1) (model : ProviderModelPolicyConfigV1) (request : ProviderRequestCustodyV1)
    (request_bytes : bytes) (capability : InferenceCapabilityV1) (d : ProviderDispatchStateV1) (reservation : EventReceiptV1) : ProviderM ProviderResponseV1 :=
  let! event_stream := dispatch d capability endpoint request request_bytes (mp_max_event_stream_bytes model) in
  let! (event_stream, event_bytes) := pv_lift (bounded_event_stream_bytes event_stream (mp_max_event_stream_bytes model)) in
  let exact := hash_bytes event_bytes in
  let! completion_receipt := pv_lift (pv_digest_of (VArray [VString "ag.provider.dispatch-receipt/v1"; to_value (ds_dispatch d);
      to_value (ds_capability d); to_value (rc_custody_record request); to_value exact; to_value (rc_event_digest reservation)])) in
  let (headers, terminal) := event_stream_projection event_stream in
  let available := with_phase (Available exact (mkOpaque event_bytes) headers terminal) d in
  let byte_length := Z.of_nat (length event_bytes) in
  pv_append (dispatch_entity (ds_dispatch d)) "provider-dispatch.completed.v1" pv_now_i64
    (VArray [to_value completion_receipt; to_value exact; to_value byte_length]) available (StoredDispatch available)
    (rc_entity_revision reservation) ;!
  pv_lift (Ok (InferenceAvailable (ds_dispatch d) exact byte_length terminal)).
(** The checks of a request that need no state; they give the capability's identity. *)
Definition validate_infer (capability : InferenceCapabilityV1) (request : ProviderRequestCustodyV1) (request_bytes : bytes)
    : res ProviderError InferenceCapabilityId :=
  map_err PvSession (request_custody_verify request) ;?
  reject_if (rc_exact_request request != hash_bytes request_bytes) PvCustodyBindingMismatch ;?
  let? id := capability_id capability in
  reject_if ((rc_capability_id request != id) || (rc_envelope request != ic_envelope capability)) PvCustodyBindingMismatch ;?
  validate_request_headers (rc_sanitized_headers request) ;?
  validate_adapter_request capability request_bytes ;?
  Ok id.
(** [infer]. *)
Definition infer (capability : InferenceCapabilityV1) (request : ProviderRequestCustodyV1) (request_bytes : bytes)
    : ProviderM ProviderResponseV1 :=
  pv_refuse_quiesced ;!
  ensure_session_active (ic_session_id capability) ;!
  pv_lift (reject_if (vl_max_request_bytes (vc_limits (pc_config p)) <? Z.of_nat (length request_bytes))%Z RequestLimit) ;!
  let! id := pv_lift (validate_infer capability request request_bytes) in
  let entity := capability_entity id in
  let! loaded := pv_read (fun db => materialized_state decode_capability db entity) in
  let! loaded := pv_lift (ok_or CapabilityNotRegistered loaded) in
  let state := ms_state _ loaded in
  pv_lift (reject_if ((cs_capability state != capability) || (cs_worker_principal state != ic_worker_principal capability))
             CapabilityBindingMismatch) ;!
  let capability := cs_capability state in
  let! (endpoint, model) := pv_lift (ensure_endpoint capability) in
  let! identity := pv_lift (dispatch_identity (pc_domain p) (pc_core_epoch p) id (rc_custody_record request)) in
  let! existing := pv_read (fun db => materialized_state decode_dispatch db (dispatch_entity identity)) in
  match existing with
  | Some existing =>
      pv_lift (validate_dispatch_binding (ms_state _ existing) identity id request) ;!
      pv_lift (response_for_existing_dispatch (ms_state _ existing))
  | None =>
      let usage := requested_usage request_bytes model in
      let! now := pv_now_u64 in
      let! validated := pv_lift (map_err PvCapabilityUse (validate_use capability (use_context state (rc_envelope request) usage now))) in
      let d := mkDispatchState (pc_domain p) (pc_core_epoch p) (pc_provider_policy p) identity id (rc_custody_record request)
                 (rc_exact_request request) usage Reserved in
      let! reservation := reserve entity (with_usage (vu_resulting_usage validated) state) (ms_revision _ loaded) d in
      dispatch_reserved endpoint model request request_bytes capability d reservation
  end.

(** ** Custody *)

Definition load_dispatch (d : Digest) : ProviderM (MaterializedStateV1 ProviderDispatchStateV1) :=
  let! loaded := pv_read (fun db => materialized_state decode_dispatch db (dispatch_entity d)) in
  let! loaded := pv_lift (ok_or DispatchNotFound loaded) in
  pv_lift (validate_dispatch_identity (ms_state _ loaded) d) ;!
  pv_lift (Ok loaded).
Definition fetch_inference (d : Digest) : ProviderM ProviderResponseV1 :=
  let! loaded := load_dispatch d in
  pv_lift
    match ds_phase (ms_state _ loaded) with
    | Reserved => Err DispatchOutcomeIndeterminate
    | Available exact stream headers terminal =>
        reject_if ((vl_max_response_bytes (vc_limits (pc_config p)) <? opaque_len stream)%Z
                   || (hash_bytes (opaque_bytes stream) != exact)) DispatchCustodyCorrupt ;?
        Ok (InferenceResponse d exact stream headers terminal)
    | Acknowledged _ _ _ receipt _ => Ok (InferenceCustodyAcknowledged d receipt)
    end.
(** The first acknowledgment of a complete stream. *)
Definition acknowledge (d exact custody : Digest) (loaded : MaterializedStateV1 ProviderDispatchStateV1) (byte_length : Z) (terminal : bool)
    : ProviderM ProviderResponseV1 :=
  let! at_ms := pv_now_u64 in
  let! receipt := pv_lift (pv_digest_of (VArray [VString "ag.provider.governor-custody-acknowledgment/v1"; to_value d; to_value exact;
                     to_value byte_length; to_value custody; to_value at_ms])) in
  let state := with_phase (Acknowledged exact byte_length custody receipt at_ms) (ms_state _ loaded) in
  pv_append (dispatch_entity d) "provider-dispatch.governor-custody-acknowledged.v1" (pv_lift (ms_i64 at_ms))
    (VArray [to_value exact; to_value byte_length; to_value custody; to_value receipt; to_value terminal]) state (StoredDispatch state)
    (ms_revision _ loaded) ;!
  pv_lift (Ok (InferenceCustodyAcknowledged d receipt)).
Definition acknowledge_inference_custody (d exact custody : Digest) : ProviderM ProviderResponseV1 :=
  pv_refuse_quiesced ;!
  let! loaded := load_dispatch d in
  match ds_phase (ms_state _ loaded) with
  | Reserved => pv_lift (Err DispatchOutcomeIndeterminate)
  | Available stored stream _ terminal =>
      pv_lift (reject_if ((stored != exact) || (hash_bytes (opaque_bytes stream) != stored)) CustodyAcknowledgmentMismatch) ;!
      acknowledge d exact custody loaded (opaque_len stream) terminal
  | Acknowledged stored _ stored_custody receipt _ =>
      pv_lift (reject_if ((stored != exact) || (stored_custody != custody)) CustodyAcknowledgmentMismatch) ;!
      pv_lift (Ok (InferenceCustodyAcknowledged d receipt))
  end.

(** ** Termination *)

Definition needs_burn (c : ProviderCapabilityStateV1) : bool :=
  (cs_session_state c != SessionTerminal) || (cs_revocation_state c == NotRevoked).
Definition burn_capability (session : SessionId) (entity : string) (id : InferenceCapabilityId)
    (loaded : MaterializedStateV1 ProviderCapabilityStateV1) : ProviderM unit :=
  let c := ms_state _ loaded in
  let! reason := pv_lift (pv_digest_of (VArray [VString "ag.provider.session-terminated/v1"; to_value session; to_value id])) in
  let! revocation :=
    match cs_revocation_state c with
    | NotRevoked => let! now := pv_now_u64 in pv_lift (Ok (Revoked now reason))
    | existing => pv_lift (Ok existing)
    end in
  let state := mkCapabilityState (cs_capability c) (cs_worker_principal c) (cs_usage c) SessionTerminal revocation in
  pv_append entity "provider-capability.revoked.v1" pv_now_i64 (VArray [to_value reason; to_value session; to_value id]) state
    (StoredCapability state) (ms_revision _ loaded) ;!
  pv_lift (Ok tt).
(** One entity of the scan: the count and the chained digest of the burned set. *)
Definition terminate_entity (session : SessionId) (acc : Z * Digest) (entity : string) : ProviderM (Z * Digest) :=
  let! loaded := pv_read (fun db => materialized_state decode_capability db entity) in
  match loaded with
  | None => pv_lift (Ok acc)
  | Some loaded =>
      let c := ms_state _ loaded in
      if ic_session_id (cs_capability c) != session then pv_lift (Ok acc)
      else
        let! id := pv_lift (capability_id (cs_capability c)) in
        (if needs_burn c then burn_capability session entity id loaded else pv_lift (Ok tt)) ;!
        let! count := pv_lift (ok_or CapabilityCountOverflow (checked_add_u64 acc.1 1)) in
        let! set_digest := pv_lift (pv_digest_of (VArray [VString "ag.provider.session-capability-set.step/v1"; to_value acc.2; to_value id])) in
        pv_lift (Ok (count, set_digest))
  end.
Fixpoint terminate_entities (session : SessionId) (acc : Z * Digest) (entities : list string) : ProviderM (Z * Digest) :=
  match entities with
  | [] => pv_lift (Ok acc)
  | entity :: rest => let! acc := terminate_entity session acc entity in terminate_entities session acc rest
  end.
(** The paged scan; an empty page ends it.  [None] would be a scan that does not end. *)
Fixpoint terminate_pages (fuel : nat) (session : SessionId) (cursor : option string) (acc : Z * Digest) : ProviderM (option (Z * Digest)) :=
  match fuel with
  | O => pv_lift (Ok None)
  | S fuel =>
      let! entities := pv_read (fun db => entity_ids_after db CAPABILITY_PREFIX cursor TERMINATION_PAGE_SIZE) in
      match entities with
      | [] => pv_lift (Ok (Some acc))
      | _ => let! acc := terminate_entities session acc entities in terminate_pages fuel session (last entities) acc
      end
  end.
Definition terminate_scan (session : SessionId) (acc : Z * Digest) : ProviderM (Z * Digest) :=
  let! s := get in
  let! scanned := terminate_pages (S (length (db_states (pv_db s)))) session None acc in
  pv_lift (expect scanned).
(** The tombstone comes before the scan. *)
Definition start_termination (session : SessionId) : ProviderM (Z * Z) :=
  let! since := pv_now_u64 in
  let tombstone := mkTerminationState (pc_domain p) (pc_core_epoch p) (pc_provider_policy p) session since None in
  let! receipt := pv_append (session_termination_entity session) "provider-session.termination-started.v1" (pv_lift (ms_i64 since)) session
                    tombstone (StoredTermination tombstone) 0 in
  pv_lift (Ok (since, rc_entity_revision receipt)).
Definition complete_termination (session : SessionId) (since revision : Z) : ProviderM ProviderResponseV1 :=
  let! genesis := pv_lift (pv_digest_of (VArray [VString "ag.provider.session-capability-set.genesis/v1"; to_value (pc_domain p);
                     to_value (pc_core_epoch p); to_value (pc_provider_policy p); to_value session])) in
  let! (count, set_digest) := terminate_scan session (0%Z, genesis) in
  let! completed_at := pv_now_u64 in
  let! receipt := pv_lift (pv_digest_of (VArray [VString "ag.provider.session-revocation-receipt/v1"; to_value (pc_domain p);
                     to_value (pc_core_epoch p); to_value (pc_provider_policy p); to_value session; to_value count; to_value set_digest])) in
  let completion := mkTerminationCompletion completed_at count set_digest receipt in
  let state := mkTerminationState (pc_domain p) (pc_core_epoch p) (pc_provider_policy p) session since (Some completion) in
  pv_append (session_termination_entity session) "provider-session.termination-completed.v1" (pv_lift (ms_i64 completed_at)) completion state
    (StoredTermination state) revision ;!
  pv_lift (Ok (SessionTerminatedResponse receipt)).
(** [terminate_session]. *)
Definition terminate_session (session : SessionId) : ProviderM ProviderResponseV1 :=
  let! existing := load_termination session in
  let! settled :=
    match existing with
    | Some loaded =>
        pv_lift (validate_session_tombstone session (ms_state _ loaded)) ;!
        pv_lift (Ok (ts_completion (ms_state _ loaded)))
    | None => pv_lift (Ok None)
    end in
  match settled with
  | Some completion => pv_lift (Ok (SessionTerminatedResponse (tc_receipt completion)))
  | None =>
      pv_refuse_quiesced ;!
      let! (since, revision) :=
        match existing with
        | Some loaded => pv_lift (Ok (ts_terminal_since_unix_ms (ms_state _ loaded), ms_revision _ loaded))
        | None => start_termination session
        end in
      complete_termination session since revision
  end.

(** ** Requests *)

Definition try_handle (request : ProviderRequestV1) (peer : VerifiedRpcPrincipalV1) : ProviderM ProviderResponseV1 :=
  let key := py_rpc_key (vc_caller_peer (pc_config p)) in
  pv_lift (reject_if ((vp_principal peer != kp_principal key) || (vp_key_id peer != kp_key_id key)) ServiceAuthenticationRequired) ;!
  match request with
  | ProviderHealth =>
      let! q := pv_quiesced in
      pv_lift (Ok (ProviderHealthResponse (mkHealth "ag.health/v1" "ag-providerd" provider_version false q)))
  | RegisterCapability capability worker_principal => register_capability capability worker_principal
  | Infer capability request request_bytes => infer capability request (opaque_bytes request_bytes)
  | FetchInference d => fetch_inference d
  | AcknowledgeInferenceCustody d exact custody => acknowledge_inference_custody d exact custody
  | TerminateSession session => terminate_session session
  end.
Definition provider_error_code (e : ProviderError) : ApiErrorCodeV1 :=
  match e with
  | PvQuiesced => QuiescedCode
  | ServiceAuthenticationRequired | CapabilityBindingMismatch => Unauthenticated
  | CapabilityNotRegistered | DispatchNotFound => NotFoundCode
  | CapabilityRegistrationConflict | DispatchBindingMismatch | CustodyAcknowledgmentMismatch => Conflict
  | PvCapabilityUse _ | PvSessionTerminated => Unauthorized
  | PvCustodyBindingMismatch | RequestLimit | UnsafeHeader | AdapterRequestMismatch | EndpointNotAllowed => InvalidRequest
  | CredentialUnavailable | DispatchOutcomeIndeterminate => IndeterminateCode
  | _ => Internal
  end.
Definition provider_handle (request : ProviderRequestV1) (peer : VerifiedRpcPrincipalV1) : ProviderM (ApiResultV1 ProviderResponseV1) :=
  st_try (try_handle request peer) (fun r =>
    match r with
    | Ok response => pv_lift (Ok (ApiOk response))
    | Err error =>
        let! correlation := pv_uuid in
        pv_lift (Ok (ApiError (provider_error_code error) (provider_error_text error) correlation))
    | Panic => pv_lift Panic
    end).
End Daemon.

(** [ProviderCoreV1::new]. *)
Section Constructor.
  Context `{Deps} {X Fd Response : Type} `{!PointerHost X Fd, !ProviderParameters X Response}.
Fixpoint endpoint_map (endpoints : list (string * ProviderEndpointConfigV1)) (l : list ProviderEndpointConfigV1)
    : res ProviderError (list (string * ProviderEndpointConfigV1)) :=
  match l with
  | [] => Ok endpoints
  | endpoint :: rest =>
      reject_if (match btree_get (ep_id endpoint) endpoints with Some _ => true | None => false end) (DuplicateEndpoint (ep_id endpoint)) ;?
      endpoint_map (btree_insert (ep_id endpoint) endpoint endpoints) rest
  end.
Definition ProviderCoreV1_new (identity : StoreIdentityV1) (config : ProviderdConfigV1) : ProviderM (X := X) ProviderCoreV1 :=
  pv_read (verify_chain identity) ;!
  let! endpoints := pv_lift (endpoint_map [] (vc_endpoints config)) in
  let! policy := pv_lift (pv_digest_of (VObject (map (fun kv => (kv.1, to_value kv.2)) endpoints))) in
  let! domain := pv_lift (map_err PvIdentifier (identifier_new AuthorityDomainId_k (vc_authority_domain config))) in
  let! epoch := pv_lift (map_err PvIdentifier (EpochId_parse (vc_epoch config))) in
  pv_sys PvHttp http_client ;!
  pv_lift (Ok (mkProviderCore config endpoints policy domain epoch)).
End Constructor.
