(* ===== verification/Logged.v ===== *)
(** * Calls over a store and a log

    The daemons that own a store share a pattern: a call reads and writes the
    store, and a log says what became durable and what was handed outside.  This
    file has the rules for such calls, over any state with a database and a log:
    [calm] calls leave the stored states and the log alone; a [guarded] call
    extends the log and keeps an invariant, whatever it answers, provided that
    what the log says was written reads back. *)

From S2P Require Import Prelude Wire Digest Store StoreLog.

Class LoggedState (S Ev : Type) := {
  lg_db : S -> Database;
  lg_log : S -> list Ev
}.

Section Calm.
  Context {S Ev : Type} `{!LoggedState S Ev}.

Definition calm {E A} (m : ST S E A) : Prop :=
  forall s, db_states (lg_db (m s).1) = db_states (lg_db s) /\ lg_log (m s).1 = lg_log s.

Lemma calm_bind {E A B} (m : ST S E A) (k : A -> ST S E B) : calm m -> (forall a, calm (k a)) -> calm (st_bind m k).
Proof.
  intros Hm Hk s. unfold st_bind. specialize (Hm s). destruct (m s) as [s' [a|e|]]; [|done..]. cbn in Hm.
  destruct (Hk a s') as [Hs Hl]. by rewrite Hs, Hl.
Qed.
Lemma calm_try {E F A B} (m : ST S E A) (k : res E A -> ST S F B) : calm m -> (forall r, calm (k r)) -> calm (st_try m k).
Proof.
  intros Hm Hk s. unfold st_try. specialize (Hm s). destruct (m s) as [s' [a|e|]]; [..|done]; cbn in Hm; edestruct Hk as [Hs Hl];
    by rewrite Hs, Hl.
Qed.
Lemma calm_pure {E A} (r : res E A) : calm (pure r). Proof. done. Qed.
Lemma calm_get {E} : calm (E := E) get. Proof. done. Qed.

(** ** Invariants *)

Section Guarded.
  Context (exact : Ev -> Prop) (good : S -> Prop).

(** Facts about the stored states and the log. *)
Definition settled_by (P : S -> Prop) : Prop :=
  forall s s', db_states (lg_db s') = db_states (lg_db s) -> lg_log s' = lg_log s -> P s -> P s'.
Definition exact_log (s : S) : Prop := forall ev, ev ∈ lg_log s -> exact ev.
Definition extends {E A} (m : ST S E A) : Prop := forall s, exists suffix, lg_log (m s).1 = lg_log s ++ suffix.
Definition guarded {E A} (P : S -> Prop) (m : ST S E A) (Q : A -> S -> Prop) : Prop :=
  extends m /\
  forall s, P s -> good s -> exact_log (m s).1 -> good (m s).1 /\ forall a, (m s).2 = Ok a -> Q a (m s).1.

Lemma exact_earlier s s' suffix : lg_log s' = lg_log s ++ suffix -> exact_log s' -> exact_log s.
Proof. intros Hl Hx ev Hev. apply Hx. rewrite Hl. by apply elem_of_app; left. Qed.
Lemma calm_extends {E A} (m : ST S E A) : calm m -> extends m.
Proof. intros Hm s. destruct (Hm s) as [_ ->]. exists []. by rewrite app_nil_r. Qed.

Hypothesis good_settled : settled_by good.

Lemma guarded_calm {E A} P (m : ST S E A) : settled_by P -> calm m -> guarded P m (fun _ => P).
Proof.
  intros HP Hm. split; [by apply calm_extends|]. intros s Hp Hg _. destruct (Hm s) as [Hd Hl].
  split; [by eapply good_settled|]. intros a _. by eapply HP.
Qed.
Lemma guarded_weaken {E A} (P P' : S -> Prop) (m : ST S E A) (Q Q' : A -> S -> Prop) :
  guarded P m Q -> (forall s, good s -> P' s -> P s) -> (forall a s, good s -> Q a s -> Q' a s) -> guarded P' m Q'.
Proof.
  intros [Hx Hm] HP HQ. split; [done|]. intros s Hp Hg He. destruct (Hm s (HP s Hg Hp) Hg He) as [Hg' Hq]. split; [done|].
  intros a Ha. apply HQ; [done|]. by apply Hq.
Qed.
(** [fact] holds of every answer of the first call. *)
Lemma guarded_bind_fact {E A B} P (m : ST S E A) (k : A -> ST S E B) (fact : A -> Prop) R Q :
  guarded P m R -> (forall s a, (m s).2 = Ok a -> fact a) -> (forall a, fact a -> guarded (R a) (k a) Q) -> guarded P (st_bind m k) Q.
Proof.
  intros [Hg Hm] Hf Hk. split.
  - intros s. unfold st_bind. destruct (Hg s) as [l1 Hl1]. specialize (Hf s). destruct (m s) as [s1 [a|e|]]; cbn in Hl1; [|eauto..].
    destruct (Hk a (Hf a eq_refl)) as [Hgk _]. destruct (Hgk s1) as [l2 ->]. rewrite Hl1, <- app_assoc. eauto.
  - intros s Hp Hgood. specialize (Hm s Hp Hgood). specialize (Hf s). unfold st_bind. destruct (m s) as [s1 [a|e|]]; cbn in *; intros Hx;
      [|destruct (Hm Hx); by split..].
    destruct (Hk a (Hf a eq_refl)) as [Hgk Hkr]. destruct (Hgk s1) as [l2 Hl2]. destruct (Hm (exact_earlier _ _ _ Hl2 Hx)) as [Hg1 Hr1].
    apply Hkr; [by apply Hr1|done..].
Qed.
Lemma guarded_bind {E A B} P (m : ST S E A) (k : A -> ST S E B) R Q :
  guarded P m R -> (forall a, guarded (R a) (k a) Q) -> guarded P (st_bind m k) Q.
Proof. intros Hm Hk. by eapply (guarded_bind_fact _ _ _ (fun _ => True)). Qed.
(** The answer of a call that is looked at, and then the rest. *)
Definition answer_meets {E A} (R : A -> S -> Prop) (r : res E A) (s : S) : Prop := match r with Ok a => R a s | _ => True end.
Lemma guarded_try {E F A B} P (m : ST S E A) (k : res E A -> ST S F B) R Q :
  guarded P m R -> (forall r, guarded (answer_meets R r) (k r) Q) -> guarded P (st_try m k) Q.
Proof.
  intros [Hg Hm] Hk. split.
  - intros s. unfold st_try. destruct (Hg s) as [l1 Hl1]. destruct (m s) as [s1 [a|e|]]; cbn in Hl1; [..|eauto];
      destruct (Hk (Ok a)) as [Hgk _] || destruct (Hk (Err e)) as [Hgk _];
      destruct (Hgk s1) as [l2 ->]; rewrite Hl1, <- app_assoc; eauto.
  - intros s Hp Ht. unfold st_try. specialize (Hm s Hp Ht). pose proof (fun r => proj1 (Hk r) (m s).1) as Hgk.
    destruct (m s) as [s1 [a|e|]]; cbn in *; intros Hb; [| |destruct (Hm Hb); split; [done|by intros ?]].
    + destruct (Hgk (Ok a)) as [l2 Hl2]. destruct (Hm (exact_earlier _ _ _ Hl2 Hb)) as [Hg1 Hr]. apply (Hk (Ok a)); [by apply Hr|done..].
    + destruct (Hgk (Err e)) as [l2 Hl2]. destruct (Hm (exact_earlier _ _ _ Hl2 Hb)). by apply (Hk (Err e)).
Qed.
Lemma guarded_pure {E A B} P (r : res E A) (k : A -> ST S E B) Q :
  (forall a, r = Ok a -> guarded P (k a) Q) -> guarded P (st_bind (pure r) k) Q.
Proof.
  intros Hk. destruct r as [a|e|]; [apply (Hk a eq_refl)|..]; (split; [intros s; exists []; by rewrite app_nil_r|]);
    intros s _ Ht _; done.
Qed.
Lemma guarded_skip {E A B} P (m : ST S E A) (k : A -> ST S E B) Q :
  settled_by P -> calm m -> (forall a, guarded P (k a) Q) -> guarded P (st_bind m k) Q.
Proof. intros HP Hm Hk. eapply guarded_bind; [by apply guarded_calm|exact Hk]. Qed.
Lemma guarded_done {E A} P (r : res E A) Q : (forall a s, r = Ok a -> P s -> Q a s) -> guarded P (pure r) Q.
Proof.
  intros HQ. split; [intros s; exists []; by rewrite app_nil_r|]. intros s Hp Ht _. split; [done|]. intros a Ha. by apply HQ.
Qed.
(** What a call reads of the state it starts in. *)
Lemma guarded_look {E A B} P (m : ST S E A) (k : A -> ST S E B) (fact : A -> Prop) (R : A -> S -> Prop) Q :
  (forall s, (m s).1 = s) -> (forall s a, P s -> good s -> (m s).2 = Ok a -> R a s) -> (forall s a, (m s).2 = Ok a -> fact a) ->
  (forall a, fact a -> guarded (R a) (k a) Q) -> guarded P (st_bind m k) Q.
Proof.
  intros Hs Hr. apply guarded_bind_fact. split; [intros s; exists []; by rewrite Hs, app_nil_r|]. intros s Hp Hg _. rewrite Hs.
  split; [done|]. intros a Ha. by apply Hr.
Qed.
Lemma settled_true : settled_by (fun _ => True). Proof. done. Qed.
End Guarded.
End Calm.

Create HintDb calm discriminated.
#[export] Hint Constants Opaque : calm.
#[export] Hint Variables Opaque : calm.
#[export] Hint Resolve calm_bind calm_try calm_pure calm_get settled_true : calm.

Ltac calm_cases :=
  match goal with
  | |- calm (match ?x with _ => _ end) => destruct x
  | |- calm (let (_, _) := ?x in _) => destruct x
  | |- calm (if ?x then _ else _) => destruct x
  end.
Ltac calm_step :=
  first [ assumption
        | solve [eauto 2 with calm nocore]
        | lazymatch goal with
          | |- calm (st_bind _ _) => apply calm_bind; [|intros ?]
          | |- calm (st_try _ _) => apply calm_try; [|intros ?]
          end
        | calm_cases
        | match goal with |- calm ?m => progress (let m' := eval cbv beta zeta in m in change (calm m')) end ].
Ltac calm := repeat calm_step.
