(* ===== verification/ProviderSpec.v ===== *)
(** * The provider spends within the budget, once (ag-providerd/src/lib.rs)

    The specification of the provider is a ledger: which records may become durable
    after which, and when a request may leave.  Every call of the daemon, whatever it
    answers and whichever write fails, extends the log by a run of the ledger and
    leaves the store holding what the ledger says.  A request that leaves is noted
    at the POST itself.  So a request leaves at most once, behind its reservation,
    what left is within the budget of its capability, and nothing leaves for a
    session that was terminated. *)

From S2P Require Import Prelude Wire Fixture Digest Names Origin Capability Identity Session Protocol Paths Store StoreLog StoreSpec HostFiles RpcAuth Config Executor Pointer PointerText PointerGit Api Provider Logged WorkerSpec.

(** ** The ledger *)

Section Ledger.
  Context `{Deps}.

Definition entity_of (c : InferenceCapabilityV1) : string :=
  match capability_id (E := ProviderError) c with Ok id => capability_entity id | _ => "" end.
(** What the log says an entity holds. *)
Definition latest_after (e : string) (o : option ProviderStored) (ev : ProviderEvent) : option ProviderStored :=
  match ev with
  | Stored e' v => if e' == e then Some v else o
  | _ => o
  end.
Definition latest (l : list ProviderEvent) (e : string) : option ProviderStored := fold_left (latest_after e) l None.
(** What was reserved for a capability, what was posted for it, and how often a
    dispatch was posted. *)
Definition charged_after (c : InferenceCapabilityV1) (u : InferenceUsageV1) (ev : ProviderEvent) : InferenceUsageV1 :=
  match ev with
  | Charged _ c' v => if c' == c then usage_add u v else u
  | _ => u
  end.
Definition charged (l : list ProviderEvent) (c : InferenceCapabilityV1) : InferenceUsageV1 := fold_left (charged_after c) l usage_default.
Definition spent_after (c : InferenceCapabilityV1) (u : InferenceUsageV1) (ev : ProviderEvent) : InferenceUsageV1 :=
  match ev with
  | Dispatched _ c' v _ => if c' == c then usage_add u v else u
  | _ => u
  end.
Definition spent (l : list ProviderEvent) (c : InferenceCapabilityV1) : InferenceUsageV1 := fold_left (spent_after c) l usage_default.
Definition leaves (d : Digest) (ev : ProviderEvent) : bool := match ev with Dispatched d' _ _ _ => d' == d | _ => false end.
Definition departures (d : Digest) (l : list ProviderEvent) : nat := length (List.filter (leaves d) l).

(** The phases of a dispatch. *)
Inductive phase_step : ProviderDispatchPhaseV1 -> ProviderDispatchPhaseV1 -> Prop :=
  | phase_available exact stream headers terminal :
      hash_bytes (opaque_bytes stream) = exact -> phase_step Reserved (Available exact stream headers terminal)
  | phase_acknowledged exact stream headers terminal custody receipt at_ms :
      phase_step (Available exact stream headers terminal) (Acknowledged exact (opaque_len stream) custody receipt at_ms).
(** No capability of the session is left to burn. *)
Definition burned (l : list ProviderEvent) (session : SessionId) : Prop :=
  forall e st, latest l e = Some (StoredCapability st) -> ic_session_id (cs_capability st) = session -> needs_burn st = false.
(** The tombstone of the session is complete. *)
Definition completed (l : list ProviderEvent) (session : SessionId) : Prop :=
  exists t, latest l (session_termination_entity session) = Some (StoredTermination t) /\ ts_completion t <> None.
(** What may be written next. *)
Inductive ledger_step (l : list ProviderEvent) : list ProviderEvent -> Prop :=
  | ledger_register c w id :
      capability_id (E := ProviderError) c = Ok id -> latest l (entity_of c) = None -> latest l (session_termination_entity (ic_session_id c)) = None ->
      ledger_step l [Stored (entity_of c) (StoredCapability (mkCapabilityState c w usage_default SessionActive NotRevoked))]
  | ledger_reserve st d :
      let c := cs_capability st in
      let u := usage_add (cs_usage st) (ds_reserved_usage d) in
      latest l (entity_of c) = Some (StoredCapability st) -> cs_session_state st = SessionActive ->
      cs_revocation_state st = NotRevoked -> latest l (session_termination_entity (ic_session_id c)) = None ->
      latest l (dispatch_entity (ds_dispatch d)) = None -> ds_phase d = Reserved -> capability_entity (ds_capability d) = entity_of c ->
      within_budget u (ic_budget c) ->
      ledger_step l [Stored (entity_of c) (StoredCapability (with_usage u st)); Stored (dispatch_entity (ds_dispatch d)) (StoredDispatch d);
                     Charged (ds_dispatch d) c (ds_reserved_usage d)]
  | ledger_send st d body :
      let c := cs_capability st in
      latest l (entity_of c) = Some (StoredCapability st) -> cs_session_state st = SessionActive ->
      cs_revocation_state st = NotRevoked -> latest l (session_termination_entity (ic_session_id c)) = None ->
      latest l (dispatch_entity (ds_dispatch d)) = Some (StoredDispatch d) -> ds_phase d = Reserved ->
      capability_entity (ds_capability d) = entity_of c -> Charged (ds_dispatch d) c (ds_reserved_usage d) ∈ l ->
      departures (ds_dispatch d) l = 0 -> ds_exact_request d = hash_bytes body -> iu_requests (ds_reserved_usage d) = 1%Z ->
      iu_input_bytes (ds_reserved_usage d) = Z.of_nat (length body) ->
      ledger_step l [Dispatched (ds_dispatch d) c (ds_reserved_usage d) body]
  | ledger_phase d phase :
      latest l (dispatch_entity (ds_dispatch d)) = Some (StoredDispatch d) -> phase_step (ds_phase d) phase ->
      ledger_step l [Stored (dispatch_entity (ds_dispatch d)) (StoredDispatch (with_phase phase d))]
  | ledger_burn st at_ms reason :
      latest l (entity_of (cs_capability st)) = Some (StoredCapability st) -> needs_burn st = true ->
      latest l (session_termination_entity (ic_session_id (cs_capability st))) <> None ->
      (cs_revocation_state st = NotRevoked \/ cs_revocation_state st = Revoked at_ms reason) ->
      ledger_step l [Stored (entity_of (cs_capability st)) (StoredCapability
        (mkCapabilityState (cs_capability st) (cs_worker_principal st) (cs_usage st) SessionTerminal (Revoked at_ms reason)))]
  | ledger_tombstone t :
      latest l (session_termination_entity (ts_session t)) = None -> ts_completion t = None ->
      ledger_step l [Stored (session_termination_entity (ts_session t)) (StoredTermination t)]
  | ledger_terminated t t' completion :
      latest l (session_termination_entity (ts_session t)) = Some (StoredTermination t) -> ts_completion t = None ->
      ts_session t' = ts_session t -> ts_terminal_since_unix_ms t' = ts_terminal_since_unix_ms t -> ts_completion t' = Some completion ->
      burned l (ts_session t) ->
      ledger_step l [Stored (session_termination_entity (ts_session t)) (StoredTermination t')].
Inductive ledger : list ProviderEvent -> Prop :=
  | ledger_start : ledger []
  | ledger_more l l' : ledger l -> ledger_step l l' -> ledger (l ++ l').

Lemma latest_app l l' e : latest (l ++ l') e = fold_left (latest_after e) l' (latest l e).
Proof. apply fold_left_app. Qed.
Lemma charged_app l l' c : charged (l ++ l') c = fold_left (charged_after c) l' (charged l c).
Proof. apply fold_left_app. Qed.
Lemma spent_app l l' c : spent (l ++ l') c = fold_left (spent_after c) l' (spent l c).
Proof. apply fold_left_app. Qed.
Lemma departures_app d l l' : departures d (l ++ l') = departures d l + departures d l'.
Proof. unfold departures. by rewrite List.filter_app, length_app. Qed.
(** An entity that is stored stays stored. *)
Lemma latest_some l l' e : latest l e <> None -> latest (l ++ l') e <> None.
Proof.
  rewrite latest_app. generalize (latest l e) as o. induction l' as [|ev l' IH]; intros o Ho; [done|]. apply IH.
  destruct ev as [e' v| |]; cbn; [case_bool_decide; done|done..].
Qed.

(** Every kind of entity holds its own kind of record. *)
Definition in_place (e : string) (v : ProviderStored) : Prop :=
  match v with
  | StoredCapability st => e = entity_of (cs_capability st)
  | StoredDispatch d => e = dispatch_entity (ds_dispatch d)
  | StoredTermination t => e = session_termination_entity (ts_session t)
  end.
Lemma ledger_in_place l e v : ledger l -> Stored e v ∈ l -> in_place e v.
Proof.
  induction 1 as [|l l' Hl IH Hs]; [by intros ?%elem_of_nil|]. intros [Hv|Hv]%elem_of_app; [by apply IH|]. clear IH.
  destruct Hs; repeat (apply elem_of_cons in Hv as [Hv|Hv]; [try done; injection Hv as -> ->; cbn; done || congruence|]); by apply elem_of_nil in Hv.
Qed.
Lemma latest_stored l e v : latest l e = Some v -> Stored e v ∈ l.
Proof.
  induction l as [|ev l IH] using rev_ind; [done|]. rewrite latest_app. cbn. intros Hv. apply elem_of_app.
  destruct ev as [e' v'| |]; cbn in Hv; [|left; by apply IH..]. case_bool_decide as He; [|left; by apply IH].
  injection Hv as <-. right. subst. by apply list_elem_of_singleton.
Qed.
Lemma ledger_latest l e v : ledger l -> latest l e = Some v -> in_place e v.
Proof. intros Hl Hv. eapply ledger_in_place; [exact Hl|by apply latest_stored]. Qed.

(** ** What the ledger guarantees *)

Lemma capability_not_dispatch c d : entity_of c <> dispatch_entity d.
Proof. unfold entity_of, capability_entity, dispatch_entity, CAPABILITY_PREFIX. by destruct (capability_id c). Qed.
Lemma capability_not_termination c session : entity_of c <> session_termination_entity session.
Proof. unfold entity_of, capability_entity, session_termination_entity, CAPABILITY_PREFIX. by destruct (capability_id c). Qed.
Lemma entity_kinds_differ c d t :
  entity_of c <> dispatch_entity d /\ entity_of c <> session_termination_entity t /\ dispatch_entity d <> session_termination_entity t.
Proof. split_all; [apply capability_not_dispatch|apply capability_not_termination|done]. Qed.
(** A request leaves at most once, and a dispatch that left is recorded. *)
Lemma departures_other d l l' : Forall (fun ev => leaves d ev = false) l' -> departures d (l ++ l') = departures d l.
Proof.
  intros Hl'. rewrite departures_app. enough (departures d l' = 0) by lia. unfold departures. induction Hl' as [|ev l' Hev Hl' IH]; [done|].
  cbn. by rewrite Hev.
Qed.
Lemma ledger_departures l d :
  ledger l -> departures d l <= 1 /\ (departures d l <> 0 -> latest l (dispatch_entity d) <> None).
Proof.
  induction 1 as [|l l' Hl [Hc Hd] Hs]; [split; [unfold departures; cbn; lia|done]|].
  destruct Hs as [c w id|st d0 c u|st d0 body c Hst Hact Hrev Ht Hd0 Hp Hcap Hch Hzero|d0 phase Hd0 Hphase|st at_ms reason Hst|t Ht|t t' co Ht].
  3: { rewrite departures_app. unfold departures at 2 4. cbn. case_bool_decide as He; cbn.
    - subst d. split; [lia|]. intros _. apply latest_some. by rewrite Hd0.
    - rewrite Nat.add_0_r. split; [done|]. intros Hsome. apply latest_some. by apply Hd. }
  all: rewrite departures_other by (by repeat constructor); (split; [done|]; intros Hone; apply latest_some; by apply Hd).
Qed.
(** The stored usage of a capability is exactly what was reserved for it; nothing was
    reserved for one that is not stored; and what was reserved is within the budget. *)
Definition accounted (l : list ProviderEvent) (c : InferenceCapabilityV1) : Prop :=
  match latest l (entity_of c) with
  | Some (StoredCapability st) => if cs_capability st == c then charged l c = cs_usage st else charged l c = usage_default
  | _ => charged l c = usage_default
  end /\ ((forall d u, Charged d c u ∉ l) \/ within_budget (charged l c) (ic_budget c)).
(** Events that neither touch the capability nor charge it. *)
Lemma accounted_other l l' c :
  latest (l ++ l') (entity_of c) = latest l (entity_of c) -> charged (l ++ l') c = charged l c -> (forall d u, Charged d c u ∉ l') ->
  accounted l c -> accounted (l ++ l') c.
Proof. unfold accounted. intros -> -> Hn [Ha Hw]. split; [done|]. destruct Hw as [Hw|Hw]; [left; set_solver|by right]. Qed.
(** A new state of a capability's entity with the same usage. *)
Lemma accounted_state l e st st' c :
  latest l e = Some (StoredCapability st) -> cs_capability st' = cs_capability st -> cs_usage st' = cs_usage st ->
  accounted l c -> accounted (l ++ [Stored e (StoredCapability st')]) c.
Proof.
  intros Hl Hc Hu. unfold accounted. rewrite latest_app, charged_app. cbn. intros [Ha Hw].
  split; [|destruct Hw as [Hw|Hw]; [left; set_solver|by right]]. case_bool_decide as He; [|done]. rewrite <- He, Hl, Hc, Hu in *. done.
Qed.
Lemma ledger_accounted l c : ledger l -> accounted l c.
Proof.
  induction 1 as [|l l' Hl IH Hs]; [split; [done|left; set_solver]|].
  destruct Hs as [c0 w id Hid Hnone _|st d0 c0 u Hst Hact Hrev Ht Hnone Hp Hcap Hw|st d0 body c0 Hst|d0 phase Hd0 Hphase|st at_ms reason Hst Hb Ht Hr|t Ht Hcomp|t t' co Ht Hcomp].
  - unfold accounted in *. rewrite latest_app, charged_app. cbn. destruct IH as [Ha Hw]. split; [|destruct Hw as [Hw|Hw]; [left; set_solver|by right]].
    case_bool_decide as He; [|done]. rewrite He in Hnone. rewrite Hnone in Ha. rewrite Ha. by destruct (bool_decide _).
  - subst c0 u. destruct (entity_kinds_differ c (ds_dispatch d0) (ic_session_id c)) as (Hk & _ & _).
    unfold accounted in *. rewrite latest_app, charged_app. cbn. rewrite (bool_decide_eq_false_2 (dispatch_entity _ = _)) by auto.
    destruct IH as [Ha IHw]. case_bool_decide as He.
    + rewrite He in Hst. rewrite Hst in Ha. cbn. case_bool_decide as Hc.
      * rewrite Ha. split; [done|]. right. by rewrite Hc in Hw.
      * split; [done|]. destruct IHw as [IHw|IHw]; [left; set_solver|by right].
    + assert (cs_capability st <> c) as Hc by (intros Hc; by rewrite Hc in He). rewrite bool_decide_eq_false_2 by done.
      split; [done|]. destruct IHw as [IHw|IHw]; [left; set_solver|by right].
  - apply accounted_other; [by rewrite latest_app|by rewrite charged_app|set_solver|done].
  - destruct (entity_kinds_differ c (ds_dispatch d0) (ic_session_id c)) as (Hk & _ & _).
    apply accounted_other; [|by rewrite charged_app|set_solver|done]. rewrite latest_app. cbn. by rewrite bool_decide_eq_false_2.
  - by eapply accounted_state.
  - destruct (entity_kinds_differ c (ts_provider_policy_digest t) (ts_session t)) as (_ & Hk & _).
    apply accounted_other; [|by rewrite charged_app|set_solver|done]. rewrite latest_app. cbn. by rewrite bool_decide_eq_false_2.
  - destruct (entity_kinds_differ c (ts_provider_policy_digest t) (ts_session t)) as (_ & Hk & _).
    apply accounted_other; [|by rewrite charged_app|set_solver|done]. rewrite latest_app. cbn. by rewrite bool_decide_eq_false_2.
Qed.
(** Where a request is posted: its reservation is stored and charged, it is the request
    that was reserved, its capability is unrevoked and its session is not terminated. *)
Definition departs (before : list ProviderEvent) (d : Digest) (c : InferenceCapabilityV1) (u : InferenceUsageV1) (body : bytes) : Prop :=
  latest before (session_termination_entity (ic_session_id c)) = None /\ Charged d c u ∈ before /\
  (exists ds, latest before (dispatch_entity d) = Some (StoredDispatch ds) /\ ds_dispatch ds = d /\ ds_phase ds = Reserved /\
     ds_reserved_usage ds = u /\ capability_entity (ds_capability ds) = entity_of c /\ ds_exact_request ds = hash_bytes body) /\
  iu_requests u = 1%Z /\ iu_input_bytes u = Z.of_nat (length body) /\
  exists st, latest before (entity_of c) = Some (StoredCapability st) /\ cs_capability st = c /\ cs_session_state st = SessionActive /\
    cs_revocation_state st = NotRevoked /\ cs_usage st = charged before c /\ within_budget (cs_usage st) (ic_budget c).
(** The step in which an event was written. *)
Lemma ledger_block l before ev after :
  ledger l -> l = before ++ ev :: after -> exists l0 k k', ledger l0 /\ before = l0 ++ k /\ ledger_step l0 (k ++ ev :: k').
Proof.
  intros Hl. revert before after. induction Hl as [|l l' Hl IH Hs]; intros before after Heq; [by destruct before|].
  apply app_eq_inv in Heq as [(k & -> & Hk)|(k & -> & ->)].
  - destruct k as [|x k]; [|injection Hk as <- ->; by eapply IH]. cbn in Hk. subst l'. rewrite app_nil_r in *. exists before, [], after.
    by rewrite app_nil_r.
  - by exists l, k, after.
Qed.
(** The one step that writes the event behind [k]. *)
#[local] Ltac block_step Hs k :=
  inversion Hs as [c0 w id Hid Hn Ht Hk|st d0 c0 u0 Hst Hact Hrev Ht Hn Hp Hcap Hw Hk|
    st d0 body0 c0 Hst Hact Hrev Ht Hd0 Hp Hcap Hch Hzero Hreq Hreqs Hlen Hk|d0 phase Hd0 Hphase Hk|st at_ms reason Hst Hb Ht Hr Hk
    |t Ht Hcomp Hk|t t' co Ht Hcomp Hses Hsince Hco Hb Hk];
  (destruct k as [|x k]; [|destruct k as [|y k]; [|destruct k as [|z k]]]);
  try discriminate Hk; try (injection Hk; intros; discriminate); try (by destruct k);
  subst c0; cbn in Hk; injection Hk; intros; subst.
Lemma ledger_departs l before d c u body after :
  ledger l -> l = before ++ Dispatched d c u body :: after -> departures d before = 0 /\ departs before d c u body.
Proof.
  intros Hl Heq. destruct (ledger_block _ _ _ _ Hl Heq) as (l0 & k & k' & Hl0 & -> & Hs). block_step Hs k. rewrite app_nil_r. split; [done|].
  pose proof (ledger_accounted l0 (cs_capability st) Hl0) as [Ha Hw]. rewrite Hst, bool_decide_eq_true_2 in Ha by done. unfold departs. split_all; try done; [by eexists|].
  exists st. split_all; try done. rewrite <- Ha. destruct Hw as [Hw|Hw]; [by destruct (Hw _ _ Hch)|done].
Qed.
(** A reservation is made for a session that is not terminated. *)
Lemma ledger_charged l before d c u after :
  ledger l -> l = before ++ Charged d c u :: after -> latest before (session_termination_entity (ic_session_id c)) = None.
Proof.
  intros Hl Heq. destruct (ledger_block _ _ _ _ Hl Heq) as (l0 & k & k' & Hl0 & -> & Hs). block_step Hs k. rewrite latest_app. cbn.
  by rewrite !bool_decide_eq_false_2 by (apply capability_not_termination || done).
Qed.
(** Nothing is reserved and nothing leaves for a session behind its tombstone. *)
Lemma ledger_behind_tombstone l k session :
  latest l (session_termination_entity session) <> None -> ledger (l ++ k) ->
  (forall d c u, Charged d c u ∈ k -> ic_session_id c <> session) /\
  (forall d c u body, Dispatched d c u body ∈ k -> ic_session_id c <> session).
Proof.
  intros Ht Hl. split.
  - intros d c u [k1 [k2 ->]]%list_elem_of_split Hs. assert (latest (l ++ k1) (session_termination_entity (ic_session_id c)) = None) as Hn
      by (eapply (ledger_charged _ _ d c u k2 Hl); by rewrite <- app_assoc). rewrite Hs in Hn. by apply (latest_some l k1) in Ht.
  - intros d c u body [k1 [k2 ->]]%list_elem_of_split Hs. destruct (ledger_departs _ (l ++ k1) d c u body k2 Hl) as [_ [Hn _]]; [by rewrite <- app_assoc|].
    rewrite Hs in Hn. by apply (latest_some l k1) in Ht.
Qed.
(** ** What left was reserved *)

Definition charge_of (c : InferenceCapabilityV1) (ev : ProviderEvent) : option (Digest * InferenceUsageV1) :=
  match ev with Charged d c' u => if c' == c then Some (d, u) else None | _ => None end.
Definition post_of (c : InferenceCapabilityV1) (ev : ProviderEvent) : option (Digest * InferenceUsageV1) :=
  match ev with Dispatched d c' u _ => if c' == c then Some (d, u) else None | _ => None end.
Definition total (l : list (Digest * InferenceUsageV1)) : InferenceUsageV1 := foldr (fun x u => usage_add x.2 u) usage_default l.
Lemma usage_add_comm u v : usage_add u v = usage_add v u.
Proof. unfold usage_add. f_equal; lia. Qed.
Lemma total_app l k : total (l ++ k) = usage_add (total l) (total k).
Proof.
  induction l as [|x l IH]; [by rewrite usage_add_comm, usage_add_default|].
  change (usage_add x.2 (total (l ++ k)) = usage_add (usage_add x.2 (total l)) (total k)). by rewrite IH, usage_add_assoc.
Qed.
#[local] Instance total_perm : Proper (Permutation ==> eq) total.
Proof.
  unfold total. induction 1 as [|x l k _ IH|x y l|l k m _ IH1 _ IH2]; cbn; [done|by rewrite IH| |by rewrite IH1].
  by rewrite !usage_add_assoc, (usage_add_comm y.2).
Qed.
Lemma charged_total l c : charged l c = total (omap (charge_of c) l).
Proof.
  induction l as [|ev l IH] using rev_ind; [done|]. rewrite charged_app, omap_app, total_app, IH.
  destruct ev as [e v|d c' u|d c' u b]; cbn; rewrite ?usage_add_default; try done. case_bool_decide; cbn; by rewrite ?usage_add_default.
Qed.
Lemma spent_total l c : spent l c = total (omap (post_of c) l).
Proof.
  induction l as [|ev l IH] using rev_ind; [done|]. rewrite spent_app, omap_app, total_app, IH.
  destruct ev as [e v|d c' u|d c' u b]; cbn; rewrite ?usage_add_default; try done. case_bool_decide; cbn; by rewrite ?usage_add_default.
Qed.
Lemma charge_of_elem (l : list ProviderEvent) c x : x ∈ omap (charge_of c) l <-> Charged x.1 c x.2 ∈ l.
Proof.
  rewrite list_elem_of_omap. split.
  - intros (ev & Hev & He). destruct ev as [|d c' u|]; try done. cbn in He. case_bool_decide; [|done]. injection He as <-. by subst.
  - intros He. eexists. split; [exact He|]. cbn. rewrite bool_decide_eq_true_2 by done. by destruct x.
Qed.
Lemma post_of_elem (l : list ProviderEvent) c x : x ∈ omap (post_of c) l <-> exists b, Dispatched x.1 c x.2 b ∈ l.
Proof.
  rewrite list_elem_of_omap. split.
  - intros (ev & Hev & He). destruct ev as [| |d c' u b]; try done. cbn in He. case_bool_decide; [|done]. injection He as <-. subst. by exists b.
  - intros [b He]. eexists. split; [exact He|]. cbn. rewrite bool_decide_eq_true_2 by done. by destruct x.
Qed.
(** What left for a capability is a part of what was reserved for it. *)
Lemma ledger_posts l c : ledger l -> omap (post_of c) l ⊆+ omap (charge_of c) l.
Proof.
  intros Hl. apply NoDup_submseteq.
  - induction Hl as [|l l' Hl IH Hs]; [constructor|]. rewrite omap_app.
    destruct Hs as [c0 w id|st d0 c0 u|st d0 body c0 Hst Hact Hrev Ht Hd0 Hp Hcap Hch Hzero|d0 phase Hd0 Hphase|st at_ms reason Hst|t Ht|t t' co Ht];
      cbn; rewrite ?app_nil_r; try done.
    case_bool_decide; [|by rewrite app_nil_r]. apply NoDup_app. split_all; [done| |apply NoDup_singleton].
    intros x [b Hx]%post_of_elem ->%list_elem_of_singleton. cbn in Hx. apply list_elem_of_In in Hx. unfold departures in Hzero.

    assert (Dispatched (ds_dispatch d0) c (ds_reserved_usage d0) b ∈ List.filter (leaves (ds_dispatch d0)) l) as Hin.
    { apply list_elem_of_In, List.filter_In. split; [done|]. cbn. by rewrite bool_decide_eq_true_2. }
    destruct (List.filter (leaves (ds_dispatch d0)) l); [by apply elem_of_nil in Hin|done].
  - intros x [b [k [k' ->]]%list_elem_of_split]%post_of_elem. apply charge_of_elem.
    destruct (ledger_departs _ k _ _ _ b k' Hl eq_refl) as [_ (_ & Hch & _)]. set_solver.
Qed.
(** A reservation stays, with its usage. *)
Lemma ledger_charge_held l d c u :
  ledger l -> Charged d c u ∈ l -> exists ds, latest l (dispatch_entity d) = Some (StoredDispatch ds) /\ ds_reserved_usage ds = u.
Proof.
  intros Hl Hch. induction Hl as [|l l' Hl IH Hs]; [by apply elem_of_nil in Hch|]. rewrite latest_app. apply elem_of_app in Hch as [Hch|Hch].
  - destruct (IH Hch) as (ds & Hds & Hu).
    destruct Hs as [c0 w id|st d0 c0 u0 Hst Hact Hrev Ht Hn|st d0 body c0|d0 phase Hd0 Hphase|st at_ms reason Hst|t Ht|t t' co Ht]; cbn.
    + rewrite bool_decide_eq_false_2 by apply capability_not_dispatch. by exists ds.
    + rewrite (bool_decide_eq_false_2 (entity_of _ = _)) by apply capability_not_dispatch.
      rewrite bool_decide_eq_false_2; [by exists ds|]. intros He. by rewrite He, Hds in Hn.
    + by exists ds.
    + case_bool_decide as He; [|by exists ds]. rewrite He, Hds in Hd0. injection Hd0 as ->. by eexists.
    + rewrite bool_decide_eq_false_2 by apply capability_not_dispatch. by exists ds.
    + by exists ds.
    + by exists ds.
  - destruct Hs; repeat (apply elem_of_cons in Hch as [Hch|Hch]; [try done|]); try (by apply elem_of_nil in Hch). injection Hch as -> -> ->.
    cbn. rewrite bool_decide_eq_true_2 by done. by eexists.
Qed.
(** A stored capability has an identity. *)
Lemma ledger_identified l e st : ledger l -> Stored e (StoredCapability st) ∈ l -> exists id, capability_id (E := ProviderError) (cs_capability st) = Ok id.
Proof.
  intros Hl. revert e st. induction Hl as [|l l' Hl IH Hs]; intros e st; [by intros ?%elem_of_nil|].
  intros [Hv|Hv]%elem_of_app; [by eapply IH|]. destruct Hs as [c w id Hid|st0 d c u Hst|st0 d body c Hst| |st0 at_ms reason Hst| |];
    repeat (apply elem_of_cons in Hv as [Hv|Hv]; [try done; injection Hv as -> ->; cbn|]); try (by apply elem_of_nil in Hv); [by eexists|..];
    (eapply IH; by apply latest_stored).
Qed.
Lemma ledger_capability_prefix l e st : ledger l -> latest l e = Some (StoredCapability st) -> starts_with e CAPABILITY_PREFIX = true.
Proof.
  intros Hl He. destruct (ledger_identified l e st Hl) as [id Hid]; [by apply latest_stored|]. pose proof (ledger_latest l e _ Hl He) as Hp. cbn in Hp.
  subst e. unfold entity_of. rewrite Hid. apply starts_with_spec. by eexists.
Qed.
(** Behind the completed tombstone of a session every capability of it is burned. *)
Lemma burned_stored l e v session :
  burned l session -> (forall st, v = StoredCapability st -> ic_session_id (cs_capability st) = session -> needs_burn st = false) ->
  burned (l ++ [Stored e v]) session.
Proof.
  intros Hb Hv e' st. rewrite latest_app. cbn. case_bool_decide; [|apply Hb]. intros [= ->]. by apply Hv.
Qed.
Lemma termination_entity_inj s s' : session_termination_entity s = session_termination_entity s' -> s = s'.
Proof. intros He%str_app_inj_l. destruct s, s'. cbn in He. by subst. Qed.
Lemma ledger_completed l session t :
  ledger l -> latest l (session_termination_entity session) = Some (StoredTermination t) -> ts_completion t <> None -> burned l session.
Proof.
  intros Hl. revert t. induction Hl as [|l l' Hl IH Hs]; [done|]. intros t. rewrite latest_app.
  destruct Hs as [c w id Hid Hn Ht|st d c u Hst Hact Hrev Ht Hn Hp Hcap Hw|st d body c Hst|d phase Hd Hphase|st at_ms reason Hst Hb Ht Hr|t0 Ht Hcomp
                 |t0 t' co Ht Hcomp Hses Hsince Hco Hb]; cbn.
  - rewrite bool_decide_eq_false_2 by apply capability_not_termination. intros Hl' Hc. apply burned_stored; [by eapply IH|].
    intros ? [= <-]. cbn. intros <-. congruence.
  - subst c u. rewrite (bool_decide_eq_false_2 (entity_of _ = _)), bool_decide_eq_false_2 by done || apply capability_not_termination. intros Hl' Hc.
    assert (ic_session_id (cs_capability st) <> session) as Hne by (intros <-; congruence).
    intros e st'. rewrite latest_app. cbn. case_bool_decide; [done|]. case_bool_decide; [by intros [= <-]|]. by eapply IH.
  - intros Hl' Hc e st'. rewrite latest_app. cbn. by eapply IH.
  - intros Hl' Hc. apply burned_stored; [|done]. by eapply IH.
  - rewrite bool_decide_eq_false_2 by apply capability_not_termination. intros Hl' Hc. apply burned_stored; [by eapply IH|]. by intros ? [= <-].
  - case_bool_decide as He; [intros [= ->]; done|]. intros Hl' Hc. apply burned_stored; [by eapply IH|done].
  - case_bool_decide as He; [intros [= ->] _|intros Hl' Hc; apply burned_stored; [by eapply IH|done]].
    apply burned_stored; [|done]. apply termination_entity_inj in He. by subst session.
Qed.
(** A complete tombstone is final. *)
Lemma ledger_completed_stays l e t :
  ledger l -> Stored e (StoredTermination t) ∈ l -> ts_completion t <> None -> completed l (ts_session t).
Proof.
  intros Hl Hin Hc. induction Hl as [|l l' Hl IH Hs]; [by apply elem_of_nil in Hin|]. unfold completed. rewrite latest_app.
  apply elem_of_app in Hin as [Hin|Hin].
  - destruct (IH Hin) as (t1 & Ht1 & Hc1). exists t1.
    destruct Hs as [c w id Hid Hn Ht|st d c u Hst Hact Hrev Ht Hn Hp Hcap Hw|st d body c Hst|d phase Hd Hphase|st at_ms reason Hst Hb Ht Hr|t0 Ht Hcomp
                   |t0 t' co Ht Hcomp Hses Hsince Hco Hb]; cbn.
    + by rewrite bool_decide_eq_false_2 by apply capability_not_termination.
    + by rewrite (bool_decide_eq_false_2 (entity_of _ = _)), bool_decide_eq_false_2 by done || apply capability_not_termination.
    + done.
    + by rewrite bool_decide_eq_false_2.
    + by rewrite bool_decide_eq_false_2 by apply capability_not_termination.
    + rewrite bool_decide_eq_false_2; [done|]. intros He. by rewrite He, Ht1 in Ht.
    + rewrite bool_decide_eq_false_2; [done|]. intros He. rewrite He, Ht1 in Ht. injection Ht as ->. done.
  - destruct Hs; repeat (apply elem_of_cons in Hin as [Hin|Hin]; [try done|]); try (by apply elem_of_nil in Hin); injection Hin as -> <-; [done|].
    exists t. cbn. rewrite bool_decide_eq_true_2 by congruence. done.
Qed.
End Ledger.

(** ** The store in step with the ledger *)

Section InStep.
  Context `{JcsLaws, !HexLaws, !Sha256Laws} {X Fd Response : Type} `{!PointerHost X Fd, !ProviderParameters X Response}.
  Context (p : ProviderCoreV1).
  #[local] Abbreviation State := (ProviderState X).

#[global] Instance provider_logged : LoggedState State ProviderEvent := {| lg_db := pv_db; lg_log := pv_log |}.

(** serde reads back what it wrote. *)
Definition stored_jcs (v : ProviderStored) : res StoreError bytes :=
  match v with StoredCapability c => jcs c | StoredDispatch d => jcs d | StoredTermination t => jcs t end.
Definition decodes_to (b : bytes) (v : ProviderStored) : Prop :=
  match v with
  | StoredCapability c => decode_capability b = inr c
  | StoredDispatch d => decode_dispatch b = inr d
  | StoredTermination t => decode_termination b = inr t
  end.
Definition event_exact (ev : ProviderEvent) : Prop :=
  match ev with Stored _ v => forall b, stored_jcs v = Ok b -> decodes_to b v | _ => True end.
(** What the store holds. *)
Definition reads_as {T} (decode : bytes -> string + T) (db : Database) (e : string) (x : T) : Prop :=
  exists m, materialized_state decode db e = Ok (Some m) /\ ms_state _ m = x.
Definition holds (db : Database) (e : string) (o : option ProviderStored) : Prop :=
  match o with
  | None => forall T (decode : bytes -> string + T), materialized_state decode db e = Ok None
  | Some (StoredCapability c) => reads_as decode_capability db e c
  | Some (StoredDispatch d) => reads_as decode_dispatch db e d
  | Some (StoredTermination t) => reads_as decode_termination db e t
  end.
Definition in_step (s : State) : Prop := ledger (pv_log s) /\ forall e, holds (pv_db s) e (latest (pv_log s) e).

Lemma holds_same db db' e o :
  (forall T (decode : bytes -> string + T), materialized_state decode db' e = materialized_state decode db e) -> holds db e o -> holds db' e o.
Proof. intros Heq. unfold holds, reads_as. destruct o as [[]|]; rewrite ?Heq; try done. intros Hn T decode. by rewrite Heq. Qed.
Lemma in_step_settled : settled_by in_step.
Proof.
  intros s s' Hd Hl [Hled Hh]. cbn in *. split; rewrite Hl; [done|]. intros e. eapply holds_same; [|apply Hh].
  intros T decode. unfold materialized_state. by rewrite Hd.
Qed.
Lemma append_holds `{Serialize P, Serialize V} (event : NewEventV1 P) (state : V) v expected db db' receipt e o :
  append_event_in_transaction event state expected db = Ok (db', receipt) -> jcs state = stored_jcs v -> event_exact (Stored e v) ->
  holds db e o -> holds db' e (if ne_entity_id event == e then Some v else o).
Proof.
  intros (b & sequence & ed & Hb & Hr)%append_reads Hv Hx Ho. case_bool_decide as He.
  - rewrite Hv in Hb. specialize (Hx b Hb). destruct v; cbn in Hx |- *; eexists; rewrite Hr, bool_decide_eq_true_2, Hx by done; done.
  - eapply holds_same; [|exact Ho]. intros T decode. by rewrite Hr, bool_decide_eq_false_2.
Qed.

(** ** Rules *)

(** A call keeps the store in step; it starts and ends with what is said of the log. *)
Definition upholds {A} (L : list ProviderEvent -> Prop) (m : ProviderM A) (Q : A -> list ProviderEvent -> Prop) : Prop :=
  guarded event_exact in_step (fun s : State => L (pv_log s)) m (fun a (s : State) => Q a (pv_log s)).
Lemma settled_log (L : list ProviderEvent -> Prop) : settled_by (fun s : State => L (pv_log s)).
Proof. intros s s' _ Hl. cbn in Hl. by rewrite Hl. Qed.
Lemma calm_lift {A} (r : res ProviderError A) : calm (S := State) (pv_lift r). Proof. done. Qed.
Lemma calm_host {A} (m : X -> X * A) : calm (pv_host m). Proof. intros s. unfold pv_host. by destruct (m (pv_world s)). Qed.
Lemma calm_sys {E A} e (m : ST X E A) : calm (pv_sys e m). Proof. intros s. unfold pv_sys. by destruct (m (pv_world s)). Qed.
Lemma calm_read {A} (f : Database -> res StoreError A) : calm (S := State) (pv_read f). Proof. done. Qed.
Lemma calm_quiesced : calm (S := State) pv_quiesced. Proof. done. Qed.
Hint Resolve calm_lift calm_host calm_sys calm_read calm_quiesced : calm.
Lemma calm_now : calm (S := State) pv_now_u64. Proof. unfold pv_now_u64. calm. Qed.
Hint Resolve calm_now : calm.
Lemma calm_now_i64 : calm (S := State) pv_now_i64. Proof. unfold pv_now_i64. calm. Qed.
Lemma calm_uuid : calm (S := State) pv_uuid. Proof. apply calm_host. Qed.
Lemma calm_refuse : calm (S := State) pv_refuse_quiesced. Proof. unfold pv_refuse_quiesced. calm. Qed.
Lemma calm_load_termination session : calm (S := State) (load_termination session). Proof. apply calm_read. Qed.
Hint Resolve calm_now_i64 calm_uuid calm_refuse calm_load_termination : calm.
Lemma calm_active session : calm (S := State) (ensure_session_active p session). Proof. unfold ensure_session_active. calm. Qed.
Lemma calm_credential_directory fd : calm (S := State) (validate_credential_directory fd). Proof. unfold validate_credential_directory. calm. Qed.
Lemma calm_credential_fd fd : calm (S := State) (read_credential_fd fd). Proof. unfold read_credential_fd. calm. Qed.
Hint Resolve calm_active calm_credential_directory calm_credential_fd : calm.
Lemma calm_credential directory name : calm (S := State) (read_provider_credential directory name).
Proof. unfold read_provider_credential. calm. Qed.
Lemma calm_response endpoint maximum response : calm (S := State) (read_response p endpoint maximum response).
Proof. unfold read_response. calm. Qed.
Hint Resolve calm_credential calm_response : calm.

Lemma upholds_skip {A B} (m : ProviderM A) (k : A -> ProviderM B) (L : list ProviderEvent -> Prop) (Q : B -> list ProviderEvent -> Prop) :
  calm m -> (forall a, upholds L (k a) Q) -> upholds L (st_bind m k) Q.
Proof. intros Hm Hk. apply (guarded_skip event_exact in_step in_step_settled (fun s : State => L (pv_log s))); [apply settled_log|done..]. Qed.
Lemma upholds_frame {A} (fact : Prop) (m : ProviderM A) (L : list ProviderEvent -> Prop) (Q : A -> list ProviderEvent -> Prop) :
  upholds L m Q -> upholds (fun l => fact /\ L l) m (fun a l => fact /\ Q a l).
Proof.
  intros [Hx Hm]. split; [done|]. intros s [Hf HL] Hg He. destruct (Hm s HL Hg He) as [Hg' Hq]. split; [done|]. intros a Ha. split; [done|]. by apply Hq.
Qed.
Lemma upholds_calm {A} (m : ProviderM A) (L : list ProviderEvent -> Prop) : calm m -> upholds L m (fun _ => L).
Proof. intros Hm. apply (guarded_calm event_exact in_step in_step_settled (fun s : State => L (pv_log s))); [apply settled_log|done]. Qed.
Lemma upholds_weaken {A} (m : ProviderM A) (L L' : list ProviderEvent -> Prop) (Q Q' : A -> list ProviderEvent -> Prop) :
  upholds L m Q -> (forall l, ledger l -> L' l -> L l) -> (forall a l, Q a l -> Q' a l) -> upholds L' m Q'.
Proof. intros Hm HL HQ. eapply guarded_weaken; [exact Hm|cbn; intros s [Hled _]; auto|cbn; auto]. Qed.

(** A transaction of the store, and what the log says of it. *)
Lemma upholds_write {A B} (tx : Tx A) (f : A -> B) events (L : list ProviderEvent -> Prop) :
  (forall db db' a l, L l -> tx db = Ok (db', a) -> ledger l -> (forall ev, ev ∈ events -> event_exact ev) ->
     (forall e, holds db e (latest l e)) -> ledger_step l events /\ forall e, holds db' e (latest (l ++ events) e)) ->
  upholds L (let! a := pv_write tx in pv_note events ;! pv_lift (Ok (f a))) (fun _ l' => exists l, L l /\ ledger l /\ l' = l ++ events).
Proof.
  intros Hw. split.
  - intros s. unfold pv_write. rewrite !st_bind_run. pose proof (calm_host provider_store_io s) as [_ Hl].
    destruct (pv_host provider_store_io s) as [s1 [[x|]|e|]]; cbn in *.
    2: destruct (commit tx (pv_db s1)) as [db [a|e|]]; cbn; rewrite Hl; [by eexists|exists []; by rewrite app_nil_r..].
    all: exists []; by rewrite app_nil_r.
  - intros s HL Hgood. unfold pv_write. rewrite !st_bind_run. pose proof (calm_host provider_store_io s) as [Hd Hl].
    destruct (pv_host provider_store_io s) as [s1 [[x|]|e|]]; cbn in *; intros Hx.
    1,3,4: split; [by eapply in_step_settled|done].
    assert (in_step s1) as Hgood1 by (by eapply in_step_settled). destruct Hgood1 as [Hled Hh]. unfold commit in *.
    destruct (tx (pv_db s1)) as [[db a]|e|] eqn:Htx; cbn in *; [|split; [by split|done]..].
    rewrite <- Hl in HL. destruct (Hw _ _ _ _ HL Htx Hled) as [Hs Hh']; [|exact Hh|].
    { intros ev Hev. apply Hx. cbn. set_solver. }
    split; [split; [by constructor|exact Hh']|]. intros ? _. cbn. eauto.
Qed.

(** What a read says of the log. *)
Lemma holds_none {T} (decode : bytes -> string + T) db e o : holds db e o -> materialized_state decode db e = Ok None -> o = None.
Proof.
  destruct o as [v|]; [|done]. intros Hv Hn. exfalso. revert Hn. unfold materialized_state in *. unfold holds, reads_as, materialized_state in Hv.
  destruct (find_state e (db_states db)); [|destruct v; by destruct Hv as (m & ? & _)]. destruct (decode _); cbn; [done|].
  destruct (to_u64 _ _); cbn; [|done..]. destruct (store_digest_parse _); cbn; [|done..].
  destruct (to_u64 _ _); cbn; [|done..]. by destruct (store_digest_parse _).
Qed.
(** Which record an entity may hold shows in its name. *)
Lemma capability_in_place e v : starts_with e CAPABILITY_PREFIX = true -> in_place e v -> exists st, v = StoredCapability st.
Proof. intros He Hv. destruct v; cbn in Hv; subst e; [by eexists|done..]. Qed.
Lemma dispatch_in_place d v : in_place (dispatch_entity d) v -> exists ds, v = StoredDispatch ds.
Proof. destruct v as [st|ds|t]; cbn; [intros He; by destruct (capability_not_dispatch (cs_capability st) d)|by eexists|done]. Qed.
Lemma termination_in_place session v : in_place (session_termination_entity session) v -> exists t, v = StoredTermination t.
Proof. destruct v as [st|ds|t]; cbn; [intros He; by destruct (capability_not_termination (cs_capability st) session)|done|by eexists]. Qed.
(** The three reads of a handler: each says what the log has. *)
Definition found {T} (wrap : T -> ProviderStored) (o : option (MaterializedStateV1 T)) : option ProviderStored :=
  option_map (fun m => wrap (ms_state _ m)) o.
Lemma holds_capability l db e o :
  ledger l -> holds db e (latest l e) -> starts_with e CAPABILITY_PREFIX = true -> materialized_state decode_capability db e = Ok o ->
  latest l e = found StoredCapability o.
Proof.
  intros Hl Hh He Ho. destruct o as [m|]; [|by eapply holds_none]. destruct (latest l e) as [v|] eqn:Hv; [|by rewrite Hh in Ho].
  destruct (capability_in_place e v He) as [st ->]; [by eapply ledger_latest|]. destruct Hh as (m' & Hm' & <-).
  rewrite Ho in Hm'. by injection Hm' as ->.
Qed.
Lemma holds_dispatch l db d o :
  ledger l -> holds db (dispatch_entity d) (latest l (dispatch_entity d)) ->
  materialized_state decode_dispatch db (dispatch_entity d) = Ok o -> latest l (dispatch_entity d) = found StoredDispatch o.
Proof.
  intros Hl Hh Ho. destruct o as [m|]; [|by eapply holds_none]. destruct (latest l _) as [v|] eqn:Hv; [|by rewrite Hh in Ho].
  destruct (dispatch_in_place d v) as [ds ->]; [by eapply ledger_latest|]. destruct Hh as (m' & Hm' & <-). rewrite Ho in Hm'. by injection Hm' as ->.
Qed.
Lemma holds_termination l db session o :
  let e := session_termination_entity session in
  ledger l -> holds db e (latest l e) -> materialized_state decode_termination db e = Ok o -> latest l e = found StoredTermination o.
Proof.
  intros e Hl Hh Ho. destruct o as [m|]; [|by eapply holds_none]. destruct (latest l _) as [v|] eqn:Hv; [|by rewrite Hh in Ho].
  destruct (termination_in_place session v) as [t ->]; [by eapply ledger_latest|]. destruct Hh as (m' & Hm' & <-). rewrite Ho in Hm'.
  by injection Hm' as ->.
Qed.
Lemma upholds_read_fact {A B} (f : Database -> res StoreError A) (k : A -> ProviderM B) (L : list ProviderEvent -> Prop) (fact : A -> Prop)
    (R : A -> list ProviderEvent -> Prop) (Q : B -> list ProviderEvent -> Prop) :
  (forall l db a, L l -> ledger l -> (forall e, holds db e (latest l e)) -> f db = Ok a -> R a l) -> (forall db a, f db = Ok a -> fact a) ->
  (forall a, fact a -> upholds (fun l => L l /\ R a l) (k a) Q) -> upholds L (let! a := pv_read f in k a) Q.
Proof.
  intros HR Hf Hk. eapply (guarded_look _ _ _ _ _ fact (fun a (s : State) => L (pv_log s) /\ R a (pv_log s))); [done| | |exact Hk].
  - intros s a HL [Hled Hh] Ha%map_err_ok. split; [done|]. by eapply HR.
  - intros s a Ha%map_err_ok. by eapply Hf.
Qed.
Lemma upholds_read {A B} (f : Database -> res StoreError A) (k : A -> ProviderM B) (L : list ProviderEvent -> Prop) (R : A -> list ProviderEvent -> Prop)
    (Q : B -> list ProviderEvent -> Prop) :
  (forall l db a, L l -> ledger l -> (forall e, holds db e (latest l e)) -> f db = Ok a -> R a l) ->
  (forall a, upholds (fun l => L l /\ R a l) (k a) Q) -> upholds L (let! a := pv_read f in k a) Q.
Proof. intros HR Hk. by apply (upholds_read_fact _ _ _ (fun _ => True) R). Qed.
Lemma upholds_read_capability {B} e (k : _ -> ProviderM B) (L : list ProviderEvent -> Prop) (Q : B -> list ProviderEvent -> Prop) :
  starts_with e CAPABILITY_PREFIX = true ->
  (forall o, upholds (fun l => L l /\ latest l e = found StoredCapability o) (k o) Q) ->
  upholds L (let! o := pv_read (fun db => materialized_state decode_capability db e) in k o) Q.
Proof. intros He Hk. apply (upholds_read _ _ _ (fun o l => latest l e = found StoredCapability o)); [|exact Hk].
  intros l db o _ Hl Hh Ho. by eapply holds_capability. Qed.
Lemma upholds_read_dispatch {B} d (k : _ -> ProviderM B) (L : list ProviderEvent -> Prop) (Q : B -> list ProviderEvent -> Prop) :
  (forall o, upholds (fun l => L l /\ latest l (dispatch_entity d) = found StoredDispatch o) (k o) Q) ->
  upholds L (let! o := pv_read (fun db => materialized_state decode_dispatch db (dispatch_entity d)) in k o) Q.
Proof. intros Hk. apply (upholds_read _ _ _ (fun o l => latest l (dispatch_entity d) = found StoredDispatch o)); [|exact Hk].
  intros l db o _ Hl Hh Ho. by eapply holds_dispatch. Qed.
Lemma upholds_load_termination {B} session (k : _ -> ProviderM B) (L : list ProviderEvent -> Prop) (Q : B -> list ProviderEvent -> Prop) :
  (forall o, upholds (fun l => L l /\ latest l (session_termination_entity session) = found StoredTermination o) (k o) Q) ->
  upholds L (let! o := load_termination session in k o) Q.
Proof. intros Hk. apply (upholds_read _ _ _ (fun o l => latest l (session_termination_entity session) = found StoredTermination o)); [|exact Hk].
  intros l db o _ Hl Hh Ho. by eapply holds_termination. Qed.
(** One event of the store. *)
Lemma upholds_append {P V} `{Serialize P, Serialize V} e kind at_ms (payload : P) (state : V) v revision (L : list ProviderEvent -> Prop) :
  calm at_ms -> jcs state = stored_jcs v -> (forall l, L l -> ledger l -> ledger_step l [Stored e v]) ->
  upholds L (pv_append e kind at_ms payload state v revision) (fun _ l' => exists l, L l /\ ledger l /\ l' = l ++ [Stored e v]).
Proof.
  intros Hat Hj Hs. unfold pv_append. apply upholds_skip; [apply calm_uuid|intros event_id]. apply upholds_skip; [done|intros t].
  apply (upholds_write _ id). intros db db' receipt l HL Htx Hl Hx Hh. split; [by apply Hs|]. intros e'. rewrite latest_app. cbn.
  unfold append_event in Htx. apply then_ok in Htx as [_ Htx]. apply then_ok in Htx as [_ Htx].
  eapply (append_holds _ _ v) in Htx; [exact Htx|done| |apply Hh]. apply (Hx (Stored e v)). by apply list_elem_of_singleton.
Qed.

(** ** The handlers *)

Lemma upholds_bind {A B} (m : ProviderM A) (k : A -> ProviderM B) (L : list ProviderEvent -> Prop) R (Q : B -> list ProviderEvent -> Prop) :
  upholds L m R -> (forall a, upholds (R a) (k a) Q) -> upholds L (st_bind m k) Q.
Proof. apply guarded_bind. Qed.
Lemma upholds_pure {A B} (r : res ProviderError A) (k : A -> ProviderM B) (L : list ProviderEvent -> Prop) (Q : B -> list ProviderEvent -> Prop) :
  (forall a, r = Ok a -> upholds L (k a) Q) -> upholds L (let! a := pv_lift r in k a) Q.
Proof. apply guarded_pure. Qed.
Lemma upholds_done {A} (r : res ProviderError A) (L : list ProviderEvent -> Prop) (Q : A -> list ProviderEvent -> Prop) :
  (forall a l, r = Ok a -> L l -> Q a l) -> upholds L (pv_lift r) Q.
Proof. intros HQ. apply guarded_done. intros a s Ha HL. by eapply HQ. Qed.
(** A last write, after which nothing is said. *)
Lemma upholds_any {A} (m : ProviderM A) (L : list ProviderEvent -> Prop) Q : upholds L m Q -> upholds L m (fun _ _ => True).
Proof. intros Hm. by eapply upholds_weaken. Qed.
Lemma upholds_last {P V A} `{Serialize P, Serialize V} e kind at_ms (payload : P) (state : V) v revision (r : res ProviderError A)
    (L : list ProviderEvent -> Prop) :
  calm at_ms -> jcs state = stored_jcs v -> (forall l, L l -> ledger l -> ledger_step l [Stored e v]) ->
  upholds L (pv_append e kind at_ms payload state v revision ;! pv_lift r) (fun _ _ => True).
Proof. intros Hat Hj Hs. eapply upholds_bind; [by apply upholds_append|]. intros a. by apply upholds_done. Qed.

(** A session without a tombstone. *)
Lemma upholds_active {B} session (k : unit -> ProviderM B) (L : list ProviderEvent -> Prop) Q :
  (forall u, upholds (fun l => L l /\ latest l (session_termination_entity session) = None) (k u) Q) ->
  upholds L (let! u := ensure_session_active p session in k u) Q.
Proof.
  intros Hk. unfold ensure_session_active. eapply upholds_bind; [|exact Hk]. apply upholds_load_termination. intros [loaded|].
  - apply upholds_pure. intros [] _. by apply upholds_done.
  - apply upholds_done. cbn. by intros a l _ Hl.
Qed.
Lemma entity_of_id c id : capability_id (E := ProviderError) c = Ok id -> capability_entity id = entity_of c.
Proof. intros Hid. unfold entity_of. by rewrite Hid. Qed.
Lemma capability_entity_prefix id : starts_with (capability_entity id) CAPABILITY_PREFIX = true.
Proof. apply starts_with_spec. by eexists. Qed.
Hint Resolve capability_entity_prefix : core.

Lemma register_upholds capability worker : upholds (fun _ => True) (register_capability p capability worker) (fun _ _ => True).
Proof.
  unfold register_capability. do 3 (apply upholds_pure; intros _ _). apply upholds_active. intros _. apply upholds_pure. intros id Hid.
  apply upholds_read_capability; [done|]. intros [existing|]; [by apply upholds_done|].
  apply upholds_skip; [apply calm_refuse|intros _]. apply upholds_last; [apply calm_now_i64|done|].
  rewrite (entity_of_id _ _ Hid). intros l [[_ Ht] Hn] _. by apply (ledger_register _ _ _ id).
Qed.

(** The reservation moves the usage of the capability and stores the dispatch. *)
Lemma reserve_upholds st revision d (L : list ProviderEvent -> Prop) :
  let c := cs_capability st in
  let u := usage_add (cs_usage st) (ds_reserved_usage d) in
  let events := [Stored (entity_of c) (StoredCapability (with_usage u st)); Stored (dispatch_entity (ds_dispatch d)) (StoredDispatch d);
                 Charged (ds_dispatch d) c (ds_reserved_usage d)] in
  (forall l, L l -> ledger l -> ledger_step l events) ->
  upholds L (reserve (entity_of c) (with_usage u st) revision d) (fun _ l' => exists l, L l /\ ledger l /\ l' = l ++ events).
Proof.
  intros c u events Hs. unfold reserve. do 4 (apply upholds_skip; [apply calm_uuid || apply calm_now_i64|intros ?]).
  apply (upholds_write _ snd). intros db db' receipts l HL Htx Hl Hx Hh. split; [by apply Hs|]. intros e'. rewrite latest_app. cbn.
  unfold append_distinct_event_pair in Htx. do 2 apply then_ok in Htx as [_ Htx]. apply guard_ok in Htx as [_ Htx]. apply then_ok in Htx as [_ Htx].
  apply res_bind_ok in Htx as ([db1 r1] & Htx1 & Htx). apply res_bind_ok in Htx as ([db2 r2] & Htx2 & [= <- _]).
  eapply (append_holds _ _ (StoredDispatch d)) in Htx2; [exact Htx2|done| |].
  { apply (Hx (Stored (dispatch_entity (ds_dispatch d)) (StoredDispatch d))). set_solver. }
  eapply (append_holds _ _ (StoredCapability (with_usage u st))) in Htx1; [exact Htx1|done| |apply Hh].
  apply (Hx (Stored (entity_of c) (StoredCapability (with_usage u st)))). set_solver.
Qed.
(** The POST: the log gets an event, the store does not change. *)
Definition no_write (ev : ProviderEvent) : Prop := match ev with Stored _ _ => False | _ => True end.
Lemma latest_no_write l events e : Forall no_write events -> latest (l ++ events) e = latest l e.
Proof.
  intros Hn. rewrite latest_app. generalize (latest l e) as o. induction Hn as [|ev events Hev _ IH]; intros o; [done|]. cbn.
  rewrite IH. by destruct ev.
Qed.
Lemma upholds_note events (L : list ProviderEvent -> Prop) :
  Forall no_write events -> (forall l, L l -> ledger l -> ledger_step l events) ->
  upholds L (pv_note events) (fun _ l' => exists l, L l /\ ledger l /\ l' = l ++ events).
Proof.
  intros Hn Hs. split; [intros s; by eexists|]. intros s HL [Hled Hh] _. split; [|cbn; by eauto].
  split; cbn [pv_note fst pv_log pv_db]; [by constructor; [|apply Hs]|]. intros e. rewrite latest_no_write by done. apply Hh.
Qed.
(** A reservation that may leave: it is stored, charged, and has not left. *)
Definition ready (st : ProviderCapabilityStateV1) (d : ProviderDispatchStateV1) (l : list ProviderEvent) : Prop :=
  let c := cs_capability st in
  latest l (entity_of c) = Some (StoredCapability st) /\ latest l (session_termination_entity (ic_session_id c)) = None /\
  latest l (dispatch_entity (ds_dispatch d)) = Some (StoredDispatch d) /\ Charged (ds_dispatch d) c (ds_reserved_usage d) ∈ l /\
  departures (ds_dispatch d) l = 0.
Definition may_leave (st : ProviderCapabilityStateV1) (d : ProviderDispatchStateV1) (body : bytes) : Prop :=
  cs_session_state st = SessionActive /\ cs_revocation_state st = NotRevoked /\ ds_phase d = Reserved /\
  capability_entity (ds_capability d) = entity_of (cs_capability st) /\ ds_exact_request d = hash_bytes body /\
  iu_requests (ds_reserved_usage d) = 1%Z /\ iu_input_bytes (ds_reserved_usage d) = Z.of_nat (length body).
Lemma dispatch_upholds st d endpoint request body maximum :
  may_leave st d body ->
  upholds (ready st d) (dispatch p d (cs_capability st) endpoint request body maximum)
    (fun _ l => latest l (dispatch_entity (ds_dispatch d)) = Some (StoredDispatch d)).
Proof.
  intros (Hact & Hrev & Hp & Hcap & Hreq & Hone & Hlen). unfold dispatch. apply upholds_skip; [apply calm_host|intros o]. apply upholds_pure. intros directory _.
  apply upholds_skip; [apply calm_credential|intros credential]. do 3 (apply upholds_pure; intros ? _). unfold pv_post.
  apply (upholds_bind _ _ _ (fun _ l => latest l (dispatch_entity (ds_dispatch d)) = Some (StoredDispatch d))).
  - eapply upholds_bind; [apply upholds_note; [by repeat constructor|]|].
    + intros l (Hst & Ht & Hd & Hch & Hz) _. by apply ledger_send.
    + cbn beta. intros _. eapply upholds_weaken; [apply (upholds_calm _ (fun l => latest l (dispatch_entity (ds_dispatch d)) = Some (StoredDispatch d))), calm_host| |done].
      intros l' _ (l & (_ & _ & Hd & _) & _ & ->). by rewrite latest_app.
  - intros [error|response]; [apply upholds_done; by intros ? l _ Hl|apply upholds_calm, calm_response].
Qed.
(** What came back is stored behind the reservation. *)
Lemma dispatch_reserved_upholds st endpoint model request body d reservation :
  may_leave st d body ->
  upholds (ready st d) (dispatch_reserved p endpoint model request body (cs_capability st) d reservation) (fun _ _ => True).
Proof.
  intros Hm. pose proof Hm as (_ & _ & Hd & _). unfold dispatch_reserved. eapply upholds_bind; [by apply dispatch_upholds|]. cbn beta. intros stream.
  apply upholds_pure. intros [stream' event_bytes] _.
  apply upholds_pure. intros receipt _. destruct (event_stream_projection stream') as [headers terminal].
  apply upholds_last; [apply calm_now_i64|done|]. intros l Hl _. constructor; [done|]. rewrite Hd. by constructor.
Qed.
Lemma validate_use_reserves state envelope usage now v :
  validate_use (cs_capability state) (use_context p state envelope usage now) = Ok v ->
  cs_session_state state = SessionActive /\ cs_revocation_state state = NotRevoked /\
  vu_resulting_usage v = usage_add (cs_usage state) usage /\ within_budget (usage_add (cs_usage state) usage) (ic_budget (cs_capability state)).
Proof.
  intros (_ & Hb & _ & _ & Hw & id & _ & ->)%validate_use_ok. unfold use_bound in Hb. cbn in *. destruct_and?. by split_all.
Qed.
Lemma validate_infer_facts capability request request_bytes id :
  validate_infer capability request request_bytes = Ok id ->
  capability_id (E := ProviderError) capability = Ok id /\ rc_exact_request request = hash_bytes request_bytes.
Proof.
  unfold validate_infer. intros (_ & Hv)%then_ok. apply guard_ok in Hv as [He%negb_bool_decide_false Hv]. apply res_bind_ok in Hv as (id' & Hid & Hv).
  apply guard_ok in Hv as [_ Hv]. do 2 apply then_ok in Hv as [_ Hv]. injection Hv as ->. done.
Qed.
(** What a reservation leaves behind. *)
Lemma reserved_ready st d l :
  let u := usage_add (cs_usage st) (ds_reserved_usage d) in
  ledger l -> latest l (dispatch_entity (ds_dispatch d)) = None -> latest l (session_termination_entity (ic_session_id (cs_capability st))) = None ->
  ready (with_usage u st) d (l ++ [Stored (entity_of (cs_capability st)) (StoredCapability (with_usage u st));
    Stored (dispatch_entity (ds_dispatch d)) (StoredDispatch d); Charged (ds_dispatch d) (cs_capability st) (ds_reserved_usage d)]).
Proof.
  intros u Hl Hn Ht. destruct (entity_kinds_differ (cs_capability st) (ds_dispatch d) (ic_session_id (cs_capability st))) as (Hk1 & Hk2 & Hk3).
  unfold ready. cbn [cs_capability with_usage]. rewrite !latest_app, departures_other by (by repeat constructor). cbn.
  rewrite (bool_decide_eq_false_2 (dispatch_entity _ = entity_of _)) by auto.
  rewrite (bool_decide_eq_false_2 (entity_of _ = session_termination_entity _)) by done.
  rewrite (bool_decide_eq_false_2 (dispatch_entity _ = session_termination_entity _)) by done.
  rewrite !bool_decide_eq_true_2 by done. split_all; [done..|set_solver|].
  destruct (ledger_departures l (ds_dispatch d) Hl) as [_ Hd]. destruct (departures (ds_dispatch d) l); [done|]. by destruct Hd.
Qed.
Lemma infer_upholds capability request request_bytes :
  upholds (fun _ => True) (infer p capability request request_bytes) (fun _ _ => True).
Proof.
  unfold infer. apply upholds_skip; [apply calm_refuse|intros _]. apply upholds_active. intros _. apply upholds_pure. intros _ _.
  apply upholds_pure. intros id Hid. apply upholds_read_capability; [done|]. intros o. apply upholds_pure. intros loaded Ho%ok_or_ok. subst o.
  apply upholds_pure. intros _ Hc%reject_if_ok. apply upholds_pure. intros [endpoint model] _. apply upholds_pure. intros identity _.
  apply upholds_read_dispatch. intros [existing|]; [apply upholds_pure; intros _ _; by apply upholds_done|].
  apply upholds_skip; [apply calm_now|intros now]. apply upholds_pure. intros v Hv%map_err_ok%validate_use_reserves.
  destruct Hv as (Hact & Hrev & -> & Hw). apply orb_false_iff in Hc as [Hc%negb_bool_decide_false _].
  apply validate_infer_facts in Hid as [Hid Hexact]. rewrite <- Hc in *. rewrite (entity_of_id _ _ Hid).
  set (d := mkDispatchState _ _ _ _ _ _ _ _ _). set (st := ms_state _ loaded) in *.
  eapply upholds_bind; [apply (reserve_upholds st _ d)|].
  - intros l [[[_ Ht] Hl] Hn] _. apply ledger_reserve; try done. by apply entity_of_id.
  - cbn beta. intros reservation. eapply upholds_weaken; [apply (dispatch_reserved_upholds (with_usage (usage_add (cs_usage st) (ds_reserved_usage d)) st) _ _ _ _ d)| |done].
    + unfold may_leave. split_all; try done. by apply entity_of_id.
    + intros l' _ (l & [[[_ Ht] Hl] Hn] & Hled & ->). by apply reserved_ready.
Qed.

Lemma acknowledge_upholds d exact custody : upholds (fun _ => True) (acknowledge_inference_custody p d exact custody) (fun _ _ => True).
Proof.
  unfold acknowledge_inference_custody. apply upholds_skip; [apply calm_refuse|intros _].
  apply (upholds_bind _ _ _ (fun loaded l => latest l (dispatch_entity d) = Some (StoredDispatch (ms_state _ loaded)) /\ ds_dispatch (ms_state _ loaded) = d)).
  { apply upholds_read_dispatch. intros o. apply upholds_pure. intros loaded Ho%ok_or_ok. subst o. apply upholds_pure.
    intros _ Hv%reject_if_ok. apply upholds_done. intros ? l [= <-] [_ Hl]. split; [done|]. rewrite !orb_false_iff in Hv.
    destruct Hv as [[[Hv%negb_bool_decide_false _] _] _]. done. }
  intros loaded. destruct (ds_phase (ms_state _ loaded)) as [|stored stream headers terminal|] eqn:Hp; [by apply upholds_done| |].
  2: { apply upholds_pure. intros _ _. by apply upholds_done. }
  apply upholds_pure. intros _ [Hs%negb_bool_decide_false _]%reject_if_ok%orb_false_iff. subst stored. unfold acknowledge.
  apply upholds_skip; [apply calm_now|intros at_ms]. apply upholds_pure. intros receipt _.
  apply upholds_last; [apply calm_lift|done|]. intros l [Hl <-] _. constructor; [done|]. rewrite Hp. by econstructor.
Qed.
Lemma calm_fetch d : calm (fetch_inference p d : ProviderM ProviderResponseV1).
Proof. unfold fetch_inference, load_dispatch. calm. Qed.

(** ** The scan of a termination *)

Section Scan.
  Context (session : SessionId) (t : ProviderSessionTerminationStateV1) (U : list string).

(** Behind the tombstone, with the entities [U] stored; what is [below] is burned. *)
Definition scanned (below : string -> Prop) (l : list ProviderEvent) : Prop :=
  latest l (session_termination_entity session) = Some (StoredTermination t) /\ (forall e, latest l e <> None <-> e ∈ U) /\
  forall e st, latest l e = Some (StoredCapability st) -> ic_session_id (cs_capability st) = session -> below e -> needs_burn st = false.

Lemma burn_upholds e id loaded below :
  starts_with e CAPABILITY_PREFIX = true -> ic_session_id (cs_capability (ms_state _ loaded)) = session -> needs_burn (ms_state _ loaded) = true ->
  upholds (fun l => scanned below l /\ latest l e = Some (StoredCapability (ms_state _ loaded))) (burn_capability session e id loaded)
    (fun _ => scanned (fun x => below x \/ x = e)).
Proof.
  intros He Hses Hb. unfold burn_capability. apply upholds_pure. intros reason _.
  set (c := ms_state _ loaded) in *. 
  apply (upholds_bind _ _ _ (fun r l => (scanned below l /\ latest l e = Some (StoredCapability c)) /\
    exists at_ms why, r = Revoked at_ms why /\ (cs_revocation_state c = NotRevoked \/ cs_revocation_state c = Revoked at_ms why))).
  { destruct (cs_revocation_state c) as [|at_ms why] eqn:Hr; [|apply upholds_done; intros ? l [= <-] Hl; eauto 6].
    apply upholds_skip; [apply calm_now|intros now]. apply upholds_done. intros ? l [= <-] Hl. eauto 6. }
  intros r. eapply upholds_bind; [apply upholds_append; [apply calm_now_i64|done|]|].
  - intros l [[(Ht & _ & _) Hl] (at_ms & why & -> & Hr)] Hled. pose proof (ledger_latest _ _ _ Hled Hl) as Hp. cbn in Hp. subst e.
    apply ledger_burn; try done. by rewrite Hses, Ht.
  - intros receipt. apply upholds_done. intros _ l' _ (l & [[(Ht & HU & Hbelow) Hl] (at_ms & why & -> & Hr)] & Hled & ->).
    assert (e <> session_termination_entity session) as Hne by (intros ->; done).
    split; [|split].
    + rewrite latest_app. cbn. by rewrite bool_decide_eq_false_2.
    + intros x. rewrite latest_app. cbn. case_bool_decide as Hx; [|apply HU]. subst x. rewrite <- HU, Hl. done.
    + intros x st. rewrite latest_app. cbn. case_bool_decide as Hx; [by intros [= <-]|]. intros Hst Hs [Hbx|Hxe]; [by eapply Hbelow|by subst].
Qed.
Lemma terminate_entity_upholds acc e below :
  starts_with e CAPABILITY_PREFIX = true ->
  upholds (scanned below) (terminate_entity session acc e) (fun _ => scanned (fun x => below x \/ x = e)).
Proof.
  intros He. unfold terminate_entity. apply upholds_read_capability; [done|]. intros [loaded|].
  2: { apply upholds_done. intros _ l _ [(Ht & HU & Hb) Hl]. split; [done|split; [done|]]. intros x st Hst Hs [Hx|Hx]; [by eapply Hb|].
       subst x. by rewrite Hl in Hst. }
  cbn [found option_map]. case_bool_decide as Hs; cbn [negb].
  2: { apply upholds_done. intros _ l _ [(Ht & HU & Hb) Hl]. split; [done|split; [done|]]. intros x st Hst Hses [Hx|Hx]; [by eapply Hb|].
       subst x. rewrite Hl in Hst. injection Hst as <-. done. }
  apply upholds_pure. intros id _. apply (upholds_bind _ _ _ (fun _ => scanned (fun x => below x \/ x = e))).
  { destruct (needs_burn (ms_state _ loaded)) eqn:Hb; [by apply burn_upholds|]. apply upholds_done. intros _ l _ [(Ht & HU & Hbelow) Hl].
    split; [done|split; [done|]]. intros x st Hst Hses [Hx|Hx]; [by eapply Hbelow|]. subst x. rewrite Hl in Hst. by injection Hst as <-. }
  intros _. do 2 (apply upholds_pure; intros ? _). by apply upholds_done.
Qed.
Lemma scanned_weaken (below below' : string -> Prop) l : (forall e, below' e -> below e) -> scanned below l -> scanned below' l.
Proof. intros Hb (Ht & HU & Hn). split; [done|split; [done|]]. intros e st Hst Hs He. eapply Hn; eauto. Qed.
Lemma terminate_entities_upholds acc entities below :
  (forall e, e ∈ entities -> starts_with e CAPABILITY_PREFIX = true) ->
  upholds (scanned below) (terminate_entities session acc entities) (fun _ => scanned (fun x => below x \/ x ∈ entities)).
Proof.
  revert acc below. induction entities as [|e entities IH]; intros acc below Hp; cbn [terminate_entities].
  - apply upholds_done. intros _ l _. apply scanned_weaken. intros x [Hx|Hx%elem_of_nil]; done.
  - eapply upholds_bind; [apply (terminate_entity_upholds acc e below), Hp; by left|]. intros acc'.
    eapply upholds_weaken; [apply IH; intros x Hx; apply Hp; by right|done|]. cbn. intros _ l. apply scanned_weaken.
    intros x [Hx|[Hx|Hx]%elem_of_cons]; auto.
Qed.

(** The scan moves its cursor past every entity, and so ends. *)
Definition after (cursor : option string) (e : string) : bool := match cursor with None => true | Some c => str_ltb c e end.
Lemma after_next cursor x e : after cursor x = true -> str_ltb x e = true -> after cursor e = true.
Proof. destruct cursor as [c|]; [|done]. apply str_ltb_trans. Qed.
Lemma filter_shorter {A} (f g : A -> bool) l x :
  x ∈ l -> f x = false -> g x = true -> (forall y, f y = true -> g y = true) -> length (List.filter f l) < length (List.filter g l).
Proof.
  intros Hx Hf Hg Hi. assert (forall l, length (List.filter f l) <= length (List.filter g l)) as Hle.
  { intros k. induction k as [|y k IH]; [done|]. cbn. destruct (f y) eqn:Hy; [rewrite (Hi y Hy); cbn; lia|]. destruct (g y); cbn; lia. }
  induction l as [|y l IH]; [by apply elem_of_nil in Hx|]. cbn. apply elem_of_cons in Hx as [<-|Hx].
  - rewrite Hf, Hg. cbn. pose proof (Hle l). lia.
  - specialize (IH Hx). destruct (f y) eqn:Hy; [rewrite (Hi y Hy); cbn; lia|]. destruct (g y); cbn; lia.
Qed.
Definition page_of (cursor : option string) (page : list string) (l : list ProviderEvent) : Prop :=
  (forall e, e ∈ page -> latest l e <> None /\ starts_with e CAPABILITY_PREFIX = true /\ after cursor e = true) /\
  (forall e, latest l e <> None -> starts_with e CAPABILITY_PREFIX = true -> after cursor e = true ->
     e ∈ page \/ exists x, last page = Some x /\ str_ltb x e = true).
Lemma holds_stored db e o : holds db e o -> e ∈ map st_entity_id (db_states db) <-> o <> None.
Proof.
  intros Hh. rewrite <- find_state_ids. destruct o as [v|].
  - split; [done|]. intros _ Hn. unfold holds, reads_as, materialized_state in Hh. rewrite Hn in Hh. destruct v; by destruct Hh as (m & Hm & _).
  - specialize (Hh unit (fun _ => inr tt)). unfold materialized_state in Hh. destruct (find_state e (db_states db)) as [r|]; [|done].
    cbn in Hh. apply res_bind_ok in Hh as (? & _ & Hh). apply res_bind_ok in Hh as (? & _ & Hh). apply res_bind_ok in Hh as (? & _ & Hh).
    by apply res_bind_ok in Hh as (? & _ & Hh).
Qed.
Lemma page_of_log l db cursor page :
  (forall e, holds db e (latest l e)) -> entity_ids_after db CAPABILITY_PREFIX cursor TERMINATION_PAGE_SIZE = Ok page -> page_of cursor page l.
Proof.
  intros Hh Hp. apply page_spec in Hp as [Hin Hout]; [|done]. split.
  - intros e He. destruct (Hin e He) as (Hi & Hpre & Ha). split; [by eapply holds_stored|]. split; [done|]. by destruct cursor.
  - intros e He Hpre Ha. apply Hout; [by eapply holds_stored|done|]. by destruct cursor.
Qed.
Lemma terminate_pages_upholds fuel cursor acc :
  upholds (fun l => length (List.filter (after cursor) U) < fuel /\ scanned (fun e => after cursor e = false) l)
    (terminate_pages fuel session cursor acc) (fun o l => (exists acc', o = Some acc') /\ scanned (fun _ => True) l).
Proof.
  revert cursor acc. induction fuel as [|fuel IH]; intros cursor acc; cbn [terminate_pages]; [apply upholds_done; by intros a l _ [? _]; lia|].
  apply (upholds_read_fact _ _ _ (fun page => forall e, e ∈ page -> starts_with e CAPABILITY_PREFIX = true /\ after cursor e = true)
           (fun page l => page_of cursor page l /\ ledger l)).
  { intros l db page _ Hl Hh Hp. split; [by eapply page_of_log|done]. }
  { intros db page [Hin _]%page_spec e He; [|done]. destruct (Hin e He) as (_ & Hp & Ha). split; [done|]. by destruct cursor. }
  intros page Hpage. destruct (last page) as [x|] eqn:Hx.
  2: { apply last_None in Hx as ->. apply upholds_done. intros ? l [= <-] [[_ (Ht & HU & Hb)] [[_ Hout] Hl]]. split; [eauto|].
    split; [done|split; [done|]]. intros e st Hst Hs _. eapply Hb; [done..|]. apply not_true_iff_false. intros Ha.
    destruct (Hout e) as [He%elem_of_nil|(y & Hy & _)]; [by rewrite Hst|by eapply ledger_capability_prefix|done..]. }
  assert (x ∈ page) as Hxin by (apply last_Some in Hx as [pre ->]; set_solver). destruct (Hpage x Hxin) as [_ Hax].
  set (left_out := x ∈ U /\ length (List.filter (after cursor) U) < S fuel /\
    forall e, e ∈ U -> starts_with e CAPABILITY_PREFIX = true -> after cursor e = true -> str_ltb x e = false -> e ∈ page).
  apply (upholds_weaken _ (fun l => left_out /\ scanned (fun e => after cursor e = false) l) _
           (fun o l => (exists acc', o = Some acc') /\ scanned (fun _ => True) l)); [| |done].
  - destruct page as [|e0 rest]; [done|]. 
    eapply upholds_bind; [apply upholds_frame, terminate_entities_upholds; intros e He; by apply Hpage|]. cbn beta. intros acc'.
    eapply upholds_weaken; [apply IH| |done]. intros l Hled [(HxU & Hlen & Hout) Hsc]. split.
    + enough (length (List.filter (after (Some x)) U) < length (List.filter (after cursor) U)) by lia.
      apply (filter_shorter _ _ _ x); [done|apply str_ltb_irrefl|done|]. intros y. by apply after_next.
    + destruct Hsc as (Ht & HU & Hb). split; [done|split; [done|]]. intros e st Hst Hs Hlt. eapply Hb; [done..|].
      destruct (after cursor e) eqn:Ha; [right|by left]. apply Hout; [apply HU; by rewrite Hst|by eapply ledger_capability_prefix|done..].
  - intros l _ [[Hlen Hsc] [[Hin Hout] Hl]]. split; [|done]. destruct Hsc as (_ & HU & _). split; [apply HU, Hin, Hxin|]. split; [done|].
    intros e He Hp Ha Hlt. destruct (Hout e) as [|(y & Hy & Hye)]; [by apply HU|done..|]. congruence.
Qed.
End Scan.

Lemma upholds_get {B} (k : State -> ProviderM B) (L : list ProviderEvent -> Prop) (Q : B -> list ProviderEvent -> Prop) :
  (forall s0, upholds (fun l => L l /\ forall e, latest l e <> None <-> e ∈ map st_entity_id (db_states (pv_db s0))) (k s0) Q) ->
  upholds L (let! s := get in k s) Q.
Proof.
  intros Hk. eapply (guarded_look _ _ _ get _ (fun _ => True) (fun s0 s => L (pv_log s) /\ forall e, latest (pv_log s) e <> None <-> _));
    [done| |done|intros s0 _; exact (Hk s0)].
  intros s s0 HL [_ Hh] [= <-]. split; [done|]. intros e. by rewrite holds_stored.
Qed.
(** The whole scan: every capability of the session is burned; the fuel is enough. *)
Lemma terminate_scan_upholds session t acc :
  upholds (fun l => latest l (session_termination_entity session) = Some (StoredTermination t)) (terminate_scan session acc)
    (fun _ l => latest l (session_termination_entity session) = Some (StoredTermination t) /\ burned l session).
Proof.
  unfold terminate_scan. apply upholds_get. intros s0. set (U := map st_entity_id (db_states (pv_db s0))).
  eapply upholds_bind; [eapply upholds_weaken; [apply (terminate_pages_upholds session t U)| |done]|].
  - intros l _ [Ht HU]. split; [|by split; [|split]]. unfold U at 1. rewrite <- (length_map st_entity_id).
    pose proof (filter_length_le (after None) U). unfold U in *. lia.
  - cbn beta. intros o. apply upholds_done. intros a l _ [_ (Ht & _ & Hb)]. split; [done|]. intros e st Hst Hs. by eapply Hb.
Qed.
Lemma complete_upholds session t revision :
  upholds (fun l => (ts_session t = session /\ ts_completion t = None) /\ latest l (session_termination_entity session) = Some (StoredTermination t))
    (complete_termination p session (ts_terminal_since_unix_ms t) revision) (fun _ l => completed l session).
Proof.
  unfold complete_termination. apply upholds_pure. intros genesis _.
  eapply upholds_bind; [apply upholds_frame, terminate_scan_upholds|]. intros [count set_digest]. cbn beta iota.
  apply upholds_skip; [apply calm_now|intros completed_at]. apply upholds_pure. intros receipt _.
  eapply upholds_bind; [apply upholds_append; [apply calm_lift|done|]|].
  - intros l [[<- Hc] [Ht Hb]] _. by eapply ledger_terminated.
  - cbn beta. intros appended. apply upholds_done. intros _ l' _ (l & _ & _ & ->). eexists. rewrite latest_app. cbn.
    by rewrite bool_decide_eq_true_2.
Qed.
Lemma terminate_upholds session : upholds (fun _ => True) (terminate_session p session) (fun _ l => completed l session).
Proof.
  unfold terminate_session. apply upholds_load_termination. intros [loaded|]; cbn [found option_map].
  - set (t := ms_state _ loaded).
    apply (upholds_bind _ _ _ (fun settled l => (ts_session t = session /\ ts_completion t = settled) /\
             latest l (session_termination_entity session) = Some (StoredTermination t))).
    { apply upholds_pure. intros _ Hv%reject_if_ok. rewrite !orb_false_iff in Hv. destruct Hv as [[[Hv%negb_bool_decide_false _] _] _].
      apply upholds_done. by intros a l [= <-] [_ Ht]. }
    intros [completion|].
    { apply upholds_done. intros _ l _ [[_ Hc] Ht]. exists t. by rewrite Hc. }
    apply upholds_skip; [apply calm_refuse|intros _]. apply upholds_pure. intros ? [= <-]. apply complete_upholds.
  - apply upholds_pure. intros ? [= <-]. apply upholds_skip; [apply calm_refuse|intros _]. unfold start_termination.
    apply (upholds_bind _ _ _ (fun sr l => let t := mkTerminationState (pc_domain p) (pc_core_epoch p) (pc_provider_policy p) session sr.1 None in
             (ts_session t = session /\ ts_completion t = None) /\ latest l (session_termination_entity session) = Some (StoredTermination t))).
    + apply upholds_skip; [apply calm_now|intros since]. eapply upholds_bind; [apply upholds_append; [apply calm_lift|done|]|].
      * intros l [_ Hn] _. by apply (ledger_tombstone l (mkTerminationState _ _ _ session since None)).
      * cbn beta. intros receipt. apply upholds_done. intros ? l' [= <-] (l & _ & _ & ->). rewrite latest_app. cbn.
        by rewrite bool_decide_eq_true_2.
    + intros [since revision]. apply complete_upholds.
Qed.

(** ** Requests *)

(** What is known after the answer to a request. *)
Definition ensured (request : ProviderRequestV1) (l : list ProviderEvent) : Prop :=
  match request with TerminateSession session => completed l session | _ => True end.
Lemma try_handle_upholds request peer : upholds (fun _ => True) (try_handle p request peer) (fun _ => ensured request).
Proof.
  unfold try_handle. apply upholds_pure. intros _ _. destruct request; cbn [ensured].
  - apply upholds_skip; [apply calm_quiesced|intros q]. by apply upholds_done.
  - apply register_upholds.
  - apply infer_upholds.
  - eapply upholds_any, upholds_calm, calm_fetch.
  - apply acknowledge_upholds.
  - apply terminate_upholds.
Qed.
Lemma upholds_try {A B} (m : ProviderM A) (k : res ProviderError A -> ProviderM B) (L : list ProviderEvent -> Prop) R (Q : B -> list ProviderEvent -> Prop) :
  upholds L m R -> (forall r, upholds (fun l => match r with Ok a => R a l | _ => True end) (k r) Q) -> upholds L (st_try m k) Q.
Proof. intros Hm Hk. eapply guarded_try; [exact Hm|]. intros r. specialize (Hk r). by destruct r. Qed.
Lemma handle_upholds request peer :
  upholds (fun _ => True) (provider_handle p request peer) (fun a l => match a with ApiOk _ => ensured request l | ApiError _ _ _ => True end).
Proof.
  unfold provider_handle. eapply upholds_try; [apply try_handle_upholds|]. intros [response|error|].
  - by apply upholds_done; intros a l [= <-].
  - apply upholds_skip; [apply calm_uuid|intros correlation]. apply upholds_done. by intros a l [= <-].
  - by apply upholds_done.
Qed.
End InStep.

(** ** Runs *)

Section Runs.
  Context `{JcsLaws, !HexLaws, !Sha256Laws} {X Fd Response : Type} `{!PointerHost X Fd, !ProviderParameters X Response}.
  #[local] Abbreviation State := (ProviderState X).

(** A run: the calls of the daemon, with the core they are made on (a restart makes a
    new one), and anything the host does between them. *)
Inductive ProviderCall : Type :=
  | Call (p : ProviderCoreV1) (request : ProviderRequestV1) (peer : VerifiedRpcPrincipalV1)
  | World (x : X).
Definition call (s : State) (c : ProviderCall) : State :=
  match c with
  | Call p request peer => (provider_handle p request peer s).1
  | World x => mkProviderState (pv_db s) x (pv_log s)
  end.
Definition run (calls : list ProviderCall) (s : State) : State := fold_left call calls s.

Lemma call_extends s c : exists suffix, pv_log (call s c) = pv_log s ++ suffix.
Proof.
  destruct c as [p request peer|x]; [|exists []; by rewrite app_nil_r]. apply (proj1 (handle_upholds p request peer)).
Qed.
Lemma run_extends calls s : exists suffix, pv_log (run calls s) = pv_log s ++ suffix.
Proof.
  revert s. induction calls as [|c calls IH]; intros s; [exists []; by rewrite app_nil_r|]. cbn. destruct (IH (call s c)) as [l2 Hl2].
  destruct (call_extends s c) as [l1 Hl1]. exists (l1 ++ l2). unfold run in Hl2. by rewrite Hl2, Hl1, app_assoc.
Qed.
Lemma run_in_step calls s : in_step s -> exact_log event_exact (run calls s) -> in_step (run calls s).
Proof.
  revert s. induction calls as [|c calls IH]; intros s Hs Hx; [done|]. cbn in *. apply IH; [|done].
  destruct (run_extends calls (call s c)) as [l Hl].
  assert (exact_log event_exact (call s c)) as Hx1 by (eapply (exact_earlier _ _ _ l); [exact Hl|exact Hx]).
  destruct c as [p request peer|x]; [|by eapply (in_step_settled s)]. by apply (proj2 (handle_upholds p request peer)).
Qed.
(** A store with no entity starts the ledger. *)
Lemma in_step_start (s : State) : pv_log s = [] -> db_states (pv_db s) = [] -> in_step s.
Proof.
  intros Hl Hd. split; rewrite Hl; [constructor|]. intros e T decode. unfold materialized_state. by rewrite Hd.
Qed.

(** What the calls of a run wrote reads back. *)
Definition reads_back (s : State) : Prop := forall ev, ev ∈ pv_log s -> event_exact ev.
Lemma reads_back_earlier s s' suffix : pv_log s' = pv_log s ++ suffix -> reads_back s' -> reads_back s.
Proof. intros Hl Hx ev Hev. apply Hx. rewrite Hl. by apply elem_of_app; left. Qed.
(** A daemon over a new store. *)
Definition fresh_provider (s : State) : Prop := pv_log s = [] /\ db_states (pv_db s) = [].

Lemma run_ledger calls s : fresh_provider s -> reads_back (run calls s) -> in_step (run calls s).
Proof. intros [Hl Hd] Hx. apply run_in_step; [by apply in_step_start|done]. Qed.

(** C5. The ledger is what the daemon does: over a new store, whatever the calls are,
    whatever each answers and whichever write fails, the log of what became durable
    and of what was posted, each noted at the POST, is a run of the ledger, and the
    store holds for every entity exactly what the ledger says. *)
Theorem provider_calls_refine_ledger calls s :
  fresh_provider s -> reads_back (run calls s) ->
  ledger (pv_log (run calls s)) /\ forall e, holds (pv_db (run calls s)) e (latest (pv_log (run calls s)) e).
Proof. intros Hf Hx. by apply run_ledger. Qed.

(** C6. A request leaves at most once: where one is posted, its reservation was
    durable and charged to its capability within the budget, the bytes posted are the
    request that was reserved, nothing had been posted under its identity before or is
    after, its capability was stored, active and unrevoked, and its session had no
    tombstone.  So neither a repeated call nor a restart posts a reserved request
    again, and none is posted ahead of its reservation. *)
Theorem provider_dispatches_once calls s before d c u body after :
  fresh_provider s -> reads_back (run calls s) -> pv_log (run calls s) = before ++ Dispatched d c u body :: after ->
  departures d before = 0 /\ departures d after = 0 /\ departs before d c u body.
Proof.
  intros Hf Hx Hl. destruct (run_ledger calls s Hf Hx) as [Hled _]. pose proof (ledger_departures _ d Hled) as [Hone _].
  destruct (ledger_departs _ _ _ _ _ _ _ Hled Hl) as [Hz Hd]. split; [done|]. split; [|done].
  rewrite Hl, departures_app in Hone. assert (departures d (Dispatched d c u body :: after) = S (departures d after)) as Hs.
  { unfold departures. cbn. by rewrite bool_decide_eq_true_2. }
  lia.
Qed.

(** A stored dispatch was read by its decoder. *)
Lemma dispatch_decoded db e d : reads_as decode_dispatch db e d -> exists b, decode_dispatch b = inr d.
Proof.
  intros (m & Hm & <-). unfold materialized_state in Hm. destruct (find_state e (db_states db)) as [row|]; [|done].
  destruct (decode_dispatch _) as [x|v] eqn:Hd in Hm; [done|]. cbn in Hm. repeat (apply res_bind_ok in Hm as (? & _ & Hm)).
  injection Hm as <-. by eexists.
Qed.
Definition usage_le (u v : InferenceUsageV1) : Prop :=
  (iu_requests u <= iu_requests v /\ iu_input_bytes u <= iu_input_bytes v /\ iu_output_bytes u <= iu_output_bytes v /\
   iu_cost_microunits u <= iu_cost_microunits v)%Z.
Lemma total_nonnegative (l : list (Digest * InferenceUsageV1)) : Forall (fun x => usage_ok x.2) l -> usage_le usage_default (total l).
Proof.
  induction 1 as [|x l Hx _ IH]; [unfold usage_le; cbn; lia|]. change (total (x :: l)) with (usage_add x.2 (total l)).
  unfold usage_le, usage_ok, u64_ok, usage_add in *. cbn in *. lia.
Qed.
(** What was posted is at most what was reserved. *)
Lemma spent_le_charged l c :
  ledger l -> (forall d u, Charged d c u ∈ l -> usage_ok u) -> usage_le (spent l c) (charged l c).
Proof.
  intros Hl Hok. rewrite spent_total, charged_total. destruct (submseteq_Permutation _ _ (ledger_posts l c Hl)) as [k Hk].
  rewrite (total_perm _ _ Hk), total_app. assert (usage_le usage_default (total k)) as Hn.
  { apply total_nonnegative, Forall_forall. intros x Hx. apply (Hok x.1), charge_of_elem. rewrite Hk. by apply elem_of_app; right. }
  unfold usage_le, usage_add in *. cbn in *. lia.
Qed.
(** C7. Everything that was ever posted for a capability, summed over every call,
    stays within its budget in each of the four dimensions: it is at most what was
    reserved for it, which is exactly the usage that its stored state says.  (The
    numbers of a stored dispatch are u64: serde reads no other.) *)
Theorem provider_spend_within_budget calls s c :
  (forall b d, decode_dispatch b = inr d -> usage_ok (ds_reserved_usage d)) ->
  fresh_provider s -> reads_back (run calls s) ->
  let l := pv_log (run calls s) in
  usage_le (spent l c) (charged l c) /\
  ((forall d u body, Dispatched d c u body ∉ l) \/ within_budget (spent l c) (ic_budget c)) /\
  ((forall d u, Charged d c u ∉ l) \/ within_budget (charged l c) (ic_budget c)) /\
  forall id st, capability_id (E := ProviderError) c = Ok id -> reads_as decode_capability (pv_db (run calls s)) (capability_entity id) st ->
    cs_capability st = c -> cs_usage st = charged l c.
Proof.
  intros Hu64 Hf Hx l. destruct (run_ledger calls s Hf Hx) as [Hled Hh]. destruct (ledger_accounted l c Hled) as [Ha Hw].
  assert (usage_le (spent l c) (charged l c)) as Hle.
  { apply spent_le_charged; [done|]. intros d u Hch. destruct (ledger_charge_held l d c u Hled Hch) as (ds & Hds & <-).
    specialize (Hh (dispatch_entity d)). fold l in Hh. rewrite Hds in Hh. destruct (dispatch_decoded _ _ _ Hh) as [b Hb]. by eapply Hu64. }
  split_all; [done| |done|].
  - destruct Hw as [Hn|Hw]; [left|right; unfold usage_le, within_budget in *; lia].
    intros d u body [k [k' Hl]]%list_elem_of_split. destruct (ledger_departs l k d c u body k' Hled Hl) as [_ (_ & Hch & _)].
    apply (Hn d u). rewrite Hl. apply elem_of_app. by left.
  - intros id st Hid (m & Hm & <-) Hc. eapply holds_capability in Hm; [|done|apply Hh|apply capability_entity_prefix].
    rewrite (entity_of_id _ _ Hid) in Hm. fold l in Hm. rewrite Hm in Ha. cbn in Ha. by rewrite bool_decide_eq_true_2 in Ha.
Qed.

(** C8. A session whose termination was acknowledged is closed: whatever is called
    later, every stored capability of it is terminal and revoked, nothing is reserved
    for it and no request of it is posted. *)
Theorem terminated_session_is_closed calls s p session peer response later :
  let ending := call (run calls s) (Call p (TerminateSession session) peer) in
  fresh_provider s -> (provider_handle p (TerminateSession session) peer (run calls s)).2 = Ok (ApiOk response) ->
  reads_back (run later ending) ->
  (forall e st, starts_with e CAPABILITY_PREFIX = true -> reads_as decode_capability (pv_db (run later ending)) e st ->
     ic_session_id (cs_capability st) = session -> cs_session_state st = SessionTerminal /\ cs_revocation_state st <> NotRevoked) /\
  exists suffix, pv_log (run later ending) = pv_log ending ++ suffix /\
    (forall d c u, Charged d c u ∈ suffix -> ic_session_id c <> session) /\
    (forall d c u body, Dispatched d c u body ∈ suffix -> ic_session_id c <> session).
Proof.
  intros ending Hf Hok Hx. destruct (run_extends later ending) as [suffix Hsuf].
  assert (reads_back ending) as Hx1 by (by eapply reads_back_earlier).
  destruct (call_extends (run calls s) (Call p (TerminateSession session) peer)) as [own Hown]. fold ending in Hown.
  assert (reads_back (run calls s)) as Hx0 by (by eapply reads_back_earlier).
  pose proof (run_ledger calls s Hf Hx0) as Hin.
  destruct (proj2 (handle_upholds p (TerminateSession session) peer) _ I Hin Hx1) as [Hin1 Hdone].
  destruct (Hdone _ Hok) as (t & Ht & Hc). change (latest (pv_log ending) (session_termination_entity session) = Some (StoredTermination t)) in Ht.
  assert (in_step (run later ending)) as Hin2 by (by apply run_in_step). destruct Hin1 as [Hled1 _], Hin2 as [Hled Hh].
  assert (ts_session t = session) as Hts by (apply termination_entity_inj; symmetry; by apply (ledger_latest _ _ _ Hled1 Ht)).
  split.
  - intros e st He (m & Hm & <-) Hs. eapply holds_capability in Hm; [|done|apply Hh|done].
    destruct (ledger_completed_stays _ (session_termination_entity session) t Hled) as (t' & Ht' & Hc'); [|done|].
    { rewrite Hsuf. apply elem_of_app. left. by apply latest_stored. }
    rewrite Hts in Ht'. pose proof (ledger_completed _ _ _ Hled Ht' Hc' e _ Hm Hs) as Hb. unfold needs_burn in Hb.
    apply orb_false_iff in Hb as [Hb1%negb_bool_decide_false Hb2%bool_decide_eq_false]. done.
  - exists suffix. split; [done|]. apply (ledger_behind_tombstone (pv_log ending)); [by rewrite Ht|by rewrite <- Hsuf].
Qed.
End Runs.

(** ** An example *)

Module ToyProvider.
(** A host that counts its identifiers, whose clock stands, and that has the directory
    and the file of one credential; the response is a text. *)
Definition absent {A} : Sys nat Errno A := fun x => (x, inl NOENT).
Definition failed {A} : Sys nat IoError A := fun x => (x, inl (Os NOENT)).
Definition file_stat (fd : string) : Stat :=
  if fd == "provider-key" then mkStat 1 2 1 33024 0 0 3 0 0 else mkStat 1 1 1 16704 0 0 0 0 0.
#[export] Instance host : PointerHost nat string := {|
  sys_open_root := fun x => (x, inr "/"); sys_openat2 := fun _ name _ x => (x, inr name); sys_openat := fun _ _ _ => absent;
  sys_open := fun _ => absent; sys_reopen := fun _ => absent; sys_dup := fun _ => absent; sys_dupfd_cloexec := fun _ => absent;
  sys_fstat := fun fd x => (x, inr (file_stat fd)); sys_seek_start := fun _ => absent; sys_read_to_end := fun _ _ x => (x, inr (str_bytes "key"));
  sys_write_all := fun _ _ => failed; sys_fsync := fun _ => absent; sys_fchmod := fun _ _ => absent; sys_fchown := fun _ _ _ => absent;
  sys_mkdirat := fun _ _ _ => absent; sys_remove_dir_all := fun _ _ => absent; sys_fgetxattr := fun _ _ => absent;
  sys_memfd_create := fun _ => absent; sys_add_seals := fun _ _ => absent; sys_get_seals := fun _ => absent;
  sys_geteuid := fun _ => 0%Z; sys_getegid := fun _ => 0%Z; sys_getgroups := absent; sys_set_no_new_privs := absent;
  sys_get_no_new_privs := absent; sys_time := fun x => (x, Some 1500%Z);
  sys_uuid := fun x => (S x, "id-" +:+ String (ascii_of_nat (65 + x)) EmptyString); sys_landlock_abi := failed;
  git_lock := fun _ x => (x, false); git_spawn := fun _ => failed; git_try_wait := fun _ => failed; git_late := fun x => (x, 0%Z);
  git_kill := fun _ x => x; git_stdout := fun _ => failed; git_stderr := fun _ => failed
|}.
(** The decoder knows the records it is given. *)
Definition known {A} `{Serialize A} (l : list A) (b : bytes) : string + A :=
  match List.find (fun x => bool_decide (toy_encoding x = b)) l with Some x => inr x | None => inl "unknown" end.
Definition capabilities (l : list ProviderStored) : list ProviderCapabilityStateV1 :=
  flat_map (fun v => match v with StoredCapability c => [c] | _ => [] end) l.
Definition dispatches (l : list ProviderStored) : list ProviderDispatchStateV1 :=
  flat_map (fun v => match v with StoredDispatch c => [c] | _ => [] end) l.
Definition terminations (l : list ProviderStored) : list ProviderSessionTerminationStateV1 :=
  flat_map (fun v => match v with StoredTermination c => [c] | _ => [] end) l.
Definition base64 : Base64Std := {| b64_encode := toy_hex_encode; b64_decode := toy_hex_decode |}.
#[local] Existing Instance base64.
Definition parameters (table : list ProviderStored) : ProviderParameters nat string := {|
  pp_host := {| credentials_directory := fun _ => Some "/run/credentials"; http_client := fun x => (x, inr tt);
                http_post := fun _ _ _ x => (x, inr "answer"); response_status := fun _ => 200%Z; response_header := fun _ _ => None;
                response_body := fun r _ x => (x, inr (str_bytes r)); provider_store_io := fun x => (x, None) |};
  pp_headers := {| header_name := Some; header_value := fun _ => true |};
  pp_decoders := {| decode_capability := known (capabilities table); decode_dispatch := known (dispatches table);
                    decode_termination := known (terminations table) |};
  pp_provider_texts := {| provider_error_text := fun _ => "error"; provider_version := "1" |};
  pp_base64 := base64
|}.
Definition start : ProviderState nat := mkProviderState ToyStore.created 0 [].
Definition core : ProviderCoreV1 :=
  Eval vm_compute in let _ := parameters [] in
  match (ProviderCoreV1_new ToyStore.identity ToyConfig.providerd start).2 with
  | Ok p => p
  | _ => mkProviderCore ToyConfig.providerd [] (hash_bytes []) toy_domain (mkEpochId 1)
  end.
Definition capability : InferenceCapabilityV1 :=
  mkCapability (pc_domain core) (pc_core_epoch core) (mkText "project-1") (mkText "session-1") (toy_nonce 1) toy_worker (pc_provider_policy core)
    (mkEnvelope (mkText "primary") (mkText "model-a") (mkText "complete") (hash_bytes (str_bytes "messages"))) (mkBudget 2 100 3000000 300) 1000 2000
    (toy_nonce 2).
Definition body : bytes := toy_encoding (VObject [("model", VString "model-a")]).
Definition identity : InferenceCapabilityId :=
  Eval vm_compute in match capability_id (E := ProviderError) capability with Ok id => id | _ => mkCapabilityId (hash_bytes []) end.
Definition custody : ProviderRequestCustodyV1 :=
  let r := mkRequestCustody identity (hash_bytes body) [("accept", "*/*")] (ic_envelope capability) (hash_bytes []) in
  mkRequestCustody (rc_capability_id r) (rc_exact_request r) (rc_sanitized_headers r) (rc_envelope r) (hash_bytes (toy_encoding (request_binding r))).
Definition governor : VerifiedRpcPrincipalV1 :=
  let key := py_rpc_key (vc_caller_peer ToyConfig.providerd) in mkVerified (kp_principal key) (kp_key_id key).
Definition ask (r : ProviderRequestV1) : ProviderCall (X := nat) := Call core r governor.
(** Registration and two requests with the same custody; then the stream is taken, its
    custody acknowledged, the session terminated, and the request made again. *)
Definition stored_of (l : list ProviderEvent) : list ProviderStored := flat_map (fun ev => match ev with Stored _ v => [v] | _ => [] end) l.
Definition infers : list ProviderCall :=
  [ask (RegisterCapability capability toy_worker); ask (Infer capability custody (mkOpaque body)); ask (Infer capability custody (mkOpaque body))].
Definition grow (calls : list ProviderCall) (table : list ProviderStored) : list ProviderStored :=
  let p := parameters table in stored_of (pv_log (run calls start)).
Definition after_infer : list ProviderStored := Eval vm_compute in grow infers (grow infers []).
Definition available : Digest * Digest :=
  Eval vm_compute in
  match dispatches after_infer with
  | _ :: d :: _ => (ds_dispatch d, match ds_phase d with Available exact _ _ _ => exact | _ => hash_bytes [] end)
  | _ => (hash_bytes [], hash_bytes [])
  end.
Definition calls : list ProviderCall :=
  infers ++ [ask (FetchInference available.1); ask (AcknowledgeInferenceCustody available.1 available.2 (hash_bytes [Byte.x05]))].
Definition closing : ProviderRequestV1 := TerminateSession (ic_session_id capability).
Definition later : list ProviderCall := [ask (Infer capability custody (mkOpaque body)); ask closing].
Definition table : list ProviderStored := Eval vm_compute in grow (calls ++ ask closing :: later) (grow (calls ++ ask closing :: later) after_infer).
#[export] Instance toy_parameters : ProviderParameters nat string := parameters table.
Definition finished : list ProviderEvent := Eval vm_compute in pv_log (run calls start).
Definition answer : res ProviderError (ApiResultV1 ProviderResponseV1) := Eval vm_compute in (provider_handle core closing governor (run calls start)).2.
Definition answered_with : ProviderResponseV1 := Eval vm_compute in match answer with Ok (ApiOk r) => r | _ => CapabilityRegistered identity end.
End ToyProvider.
Import ToyProvider.

Definition exactly (ev : ProviderEvent) : bool :=
  match ev with
  | Charged _ _ _ | Dispatched _ _ _ _ => true
  | Stored _ v =>
      match stored_jcs v with
      | Ok b =>
          match v with
          | StoredCapability c => bool_decide (decode_capability b = inr c)
          | StoredDispatch d => bool_decide (decode_dispatch b = inr d)
          | StoredTermination t => bool_decide (decode_termination b = inr t)
          end
      | _ => false
      end
  end.
Lemma exactly_exact ev : exactly ev = true -> event_exact ev.
Proof.
  destruct ev as [e v| |]; [|done..]. cbn. intros Hx b Hb. rewrite Hb in Hx. destruct v; by apply bool_decide_eq_true in Hx.
Qed.
Lemma toy_provider_reads_back (s : ProviderState nat) : forallb exactly (pv_log s) = true -> reads_back s.
Proof. intros Hx ev Hev%list_elem_of_In. apply exactly_exact. by eapply forallb_forall in Hx. Qed.
Lemma toy_calls_exact : reads_back (run calls start).
Proof. apply toy_provider_reads_back. vm_compute. reflexivity. Qed.
Lemma toy_closed_exact : reads_back (run later (call (run calls start) (Call core (TerminateSession (ic_session_id capability)) governor))).
Proof. apply toy_provider_reads_back. vm_compute. reflexivity. Qed.
Lemma toy_start_fresh : fresh_provider start.
Proof. split; vm_compute; reflexivity. Qed.
Lemma toy_departs : exists u, pv_log (run calls start) = take 4 finished ++ Dispatched available.1 capability u body :: drop 5 finished.
Proof. eexists. vm_compute. reflexivity. Qed.
Lemma known_elem {A} `{Serialize A} (l : list A) b x : known l b = inr x -> x ∈ l.
Proof. unfold known. destruct (List.find _ l) as [y|] eqn:Hf; [|done]. intros [= <-]. apply list_elem_of_In. by apply List.find_some in Hf as [? _]. Qed.
Definition usage_okb (u : InferenceUsageV1) : bool :=
  forallb (fun n => (0 <=? n) && (n <=? U64_MAX))%Z [iu_requests u; iu_input_bytes u; iu_output_bytes u; iu_cost_microunits u].
Lemma toy_usages b d : decode_dispatch b = inr d -> usage_ok (ds_reserved_usage d).
Proof.
  intros Hd%known_elem. assert (forallb (fun d => usage_okb (ds_reserved_usage d)) (dispatches table) = true) as Hall by (vm_compute; reflexivity).
  pose proof (proj1 (forallb_forall _ _) Hall d (proj1 (list_elem_of_In _ _) Hd)) as Hu. unfold usage_okb in Hu. cbn [forallb] in Hu.
  rewrite !andb_true_iff, !Z.leb_le in Hu. unfold usage_ok, u64_ok. lia.
Qed.
Lemma toy_terminated :
  (provider_handle core (TerminateSession (ic_session_id capability)) governor (run calls start)).2 = Ok (ApiOk answered_with).
Proof. vm_compute. reflexivity. Qed.

Lemma provider_calls_refine_ledger_witness :
  length (pv_log (run calls start)) = 7 /\ ledger (pv_log (run calls start)).
Proof.
  split; [vm_compute; reflexivity|]. exact (proj1 (provider_calls_refine_ledger calls start toy_start_fresh toy_calls_exact)).
Defined.
Lemma provider_dispatches_once_witness :
  departures available.1 (take 4 finished) = 0 /\ departures available.1 (drop 5 finished) = 0.
Proof.
  destruct toy_departs as [u Hu]. destruct (provider_dispatches_once calls start _ _ _ u _ _ toy_start_fresh toy_calls_exact Hu) as (Hb & Ha & _).
  exact (conj Hb Ha).
Defined.
Lemma provider_spend_within_budget_witness :
  iu_requests (spent (pv_log (run calls start)) capability) = 1%Z /\
  usage_le (spent (pv_log (run calls start)) capability) (charged (pv_log (run calls start)) capability).
Proof.
  split; [vm_compute; reflexivity|].
  destruct (provider_spend_within_budget calls start capability toy_usages toy_start_fresh toy_calls_exact) as [Hle _]. exact Hle.
Defined.
Lemma terminated_session_is_closed_witness :
  exists suffix, pv_log (run later (call (run calls start) (Call core (TerminateSession (ic_session_id capability)) governor))) =
    pv_log (call (run calls start) (Call core (TerminateSession (ic_session_id capability)) governor)) ++ suffix /\
    (forall d c u, Charged d c u ∈ suffix -> ic_session_id c <> ic_session_id capability) /\
    (forall d c u body, Dispatched d c u body ∈ suffix -> ic_session_id c <> ic_session_id capability).
Proof.
  exact (proj2 (terminated_session_is_closed calls start core (ic_session_id capability) governor answered_with later toy_start_fresh toy_terminated
           toy_closed_exact)).
Defined.
